(* ===== verification/_CoqProject ===== *)
-Q . S2P
Prelude.v
Text.v
RtpPacket.v
RtpFrameOrganizer.v
RtpPacker.v
RtpStream.v
PsEnc.v
PsDec.v
PsRtpEncap.v
EsRtpEncap.v
RtpToPs.v
RtcpPacket.v
MediaDataQueue.v
MediaBlockBuffer.v
DataStat.v
MediaProcessor.v
MediaExchange.v
Base64.v
PsToEs.v
PsToEsFrame.v
TcpConnect.v
RtpTcpConnect.v
Amf.v
Sdp.v
MediaPort.v
Session.v
SessionFactory.v
Business.v
BusinessExchange.v
IndexList.v
IndexResend.v
RtspPacket.v
MbBuffer.v
