(* ===== verification/Prelude.v ===== *)
(** * Verification library of the allcamera media services

    The repository holds the servers of a video surveillance system. The heart
    of it is the stream server ([src/svs_mu/svs_mu_stream]): it receives the
    video and audio of cameras as RTP packets, as H.264 or as an MPEG program
    stream, converts between the two and sends the result to any number of
    sessions. This library models the media path of the stream server, the
    containers under it, the sessions and businesses that connect its ends, the texts
    they are described with, and the record index and the message blocks of the
    recording server, and proves what the parts promise each other.

    ** The parts

    Sources are under [src/svs_mu/svs_mu_stream/src], headers under [inc] beside
    it, unless a path is given. A file of the library models one class; a C++
    method keeps its name.

    - [RtpPacket]: [CRtpPacket] of [svs_adapter_rtp_packet.cpp], the view of an
      RTP header in a buffer, its parser, generator and setters.
    - [RtpFrameOrganizer]: [CRtpFrameOrganizer], packets of a time stamp into
      frames, by sequence number.
    - [RtpPacker]: [CH264Packager] and the audio packagers of
      [svs_adapter_rtp_packer.cpp], NAL units into single packets and FU-A
      fragments; [depacketize] is the receiver of RFC 6184.
    - [RtpStream]: what a sequence of packets of one stream is, as a
      specification the encapsulators share.
    - [PsEnc], [PsDec]: [CMpegPsEnc] and [CMpegPsDec], a frame into a program
      stream and back, with the CRC of the program stream map.
    - [PsRtpEncap]: [CPsRtpEncap], the program stream in RTP packets.
    - [EsRtpEncap]: [CEsRtpEncap], frames of a decoded program stream as H.264
      and audio packets, with the search for start codes.
    - [RtpToPs]: [CRtp2PsProcessor], H.264 packets in, program stream packets out:
      the composition of [RtpFrameOrganizer], [PsRtpEncap] and [PsEnc].
    - [PsToEs], [PsToEsFrame]: [CStreamPsMediaProcessorSet] of
      [svs_adapter_media_processor.cpp], program stream packets in, H.264 packets
      out; the second file is its correctness.
    - [MediaProcessor]: [CPacketList], [CDirectProcessor] and
      [CStreamMediaProcessorSet] of the same source, the way of a block to the
      sessions with the backlog of a slow one.
    - [RtcpPacket]: [CRtcpPacket], sender and receiver reports.
    - [MediaDataQueue]: [CMediaDataQueue], the lock-free ring of message blocks.
    - [MediaBlockBuffer]: [CMediaBlockBuffer], the pool of message blocks, over
      an interface [BlockQueue] the ring implements.
    - [DataStat]: [CDataStat], the traffic of the last 30 seconds.
    - [Base64]: [SVSBase64] and [Binary] of [src/svs_common/common].
    - [TcpConnect]: [CTcpConnect] and its receive buffer, sending with a backlog
      and the loop over received bytes.
    - [RtpTcpConnect]: [CRtpTcpConnect], RTSP messages and interleaved packets out
      of that buffer, with [CRtspPacket::checkRtsp].
    - [RtspPacket]: [CRtspPacket] of [svs_adapter_rtsp_packet.cpp], reading and
      writing of RTSP messages, their addresses and time ranges.
    - [Sdp]: [CMediaSdp] of [svs_adapter_sdp.cpp], session descriptions.
    - [Amf]: the values of RTMP messages, [rtmpserver/svs_rtmp_amf.cpp].
    - [Text]: the functions on texts the four files before use.
    - [MediaExchange]: [CStreamMediaExchange] and its threads, which hand the media
      data of a stream to the processor sets of [MediaProcessor] and [PsToEs].
    - [MediaPort]: [CStreamMediaPort] and [CStreamPortManager], the UDP ports lent to
      sessions, with the port list of [svs_adapter_config.cpp].
    - [Session]: [CStreamSession] of [svs_adapter_session.cpp], the states of a
      session and its time limits.
    - [SessionFactory]: [CStreamSessionFactory], the sessions with their references.
    - [Business]: [CStreamBusiness] and [CStreamBusinessManager], which bring the
      media of one session to another; [BusinessExchange] puts it on the exchange
      of [MediaExchange].
    - [IndexList], [IndexResend]: [SVS_Index_List] and [CIndexResendMgr] of the
      recording server ([src/svs_mu/svs_mu_record/src/svs_index_list.cpp],
      [svs_index_resend_mgr.cpp]), the records it reports to the data base.
    - [MbBuffer]: [CSVS_Mb_Buffer], [CSVS_Mb_Buffer_Manager] and
      [CSVS_Thread_Msg_Buffer_Manager] of [svs_mb_buffer.cpp] of the recording server, and
      the same classes of the stream server ([svs_adapter_signal_buffer_manager.cpp]):
      the blocks of messages, with the lists each thread has of them.

    How they interact: a connection ([TcpConnect], [RtpTcpConnect]) or a port
    ([MediaPort]) receives packets; the exchange ([MediaExchange]) takes them over a
    ring ([MediaDataQueue]) in blocks of the pool ([MediaBlockBuffer]) and gives them
    to the set of the stream ([MediaProcessor], [PsToEs], [RtpToPs]), which sends what
    it makes to the sessions ([Session]); businesses ([Business]) connect the two ends
    and hold references to the sessions in the table ([SessionFactory]).

    ** The interfaces

    What one part promises another is a class, against which the client is proved,
    with a class of its laws that the implementation named with it discharges:

    - [BlockQueue] (a queue of blocks) between [MediaBlockBuffer] and [MediaDataQueue];
    - [ProcessorSet], [ProcessorSetLaws] between [MediaExchange] and the sets: the plain
      set of [MediaProcessor] keeps to the laws, at the end of [MediaExchange]. The set
      of [PsToEs] does so only for frames it leaves, since it need not return
      from others; [exchange_progress] is proved without the laws and says what then
      happens;
    - [SessionImpl], [SessionImplLaws] between [Session] and the derived sessions;
    - [SessionClass], [SessionClassLaws] between [SessionFactory] and the same;
    - [SessionTable], [SessionTableLaws] between [Business] and [SessionFactory];
    - [MediaExchangeOps], [MediaExchangeLaws] between [Business] and the exchange: the
      implementation is [MediaExchange], in [BusinessExchange];
    - [BufferTypes], [BufferTypesLaws] between [MbBuffer] and the two servers;
    - [takes_frames] between the loop of [TcpConnect] and the classes over it.

    Operating system and C library: [AceHeap], [MediaEnv], [TcpEnv], [RtpTcpEnv],
    [LocalTime] with [LocalTimeLaws], [Doubles], [Clock] with [ClockLaws].

    ** How code becomes definitions

    A w-bit integer is a [Z] with its wrap-around written out ([u8] to [u64],
    [s8] for a [char], [s32] for an [int]). A buffer is the list of its bytes; a pointer into it is
    an offset. An access outside a buffer, the front of an empty container or
    the dereference of a null pointer is [None] ([Fault] in [PsDec]), so that a
    theorem that gives [Some] also says that memory is safe there. Methods
    that change an object take it and return it; where state and output are
    threaded through many calls they are computations of the monad [M] below
    (state, list of events, failure). The events are the calls that leave the
    component: a packet handed on, a block taken, duplicated or given back. A
    callback that does not touch the caller is run after the caller returns, in
    the order of the calls; each file says where it uses this.

    What the sources do not define is a parameter: ACE message blocks are the
    interface [AceHeap] of [MediaBlockBuffer] or [MediaEnv] of [MediaProcessor],
    the socket is [TcpEnv] of [TcpConnect], the parts an RTSP connection calls are
    [RtpTcpEnv] of [RtpTcpConnect]; the clock, the success of an allocation and the
    address it gives are arguments.
    [MediaDataQueue] is a step relation over threads: one step is one access to
    the shared object, and accesses are sequentially consistent, which the
    locked instructions of [svs_adapter_atomic.h] give on the target for the
    compare-and-swaps and is an assumption for the plain loads around them.

    Loops that do not recur on their data have fuel: the number of bytes left
    for the encoder and the packagers; a number a theorem gives ([6 + n] turns
    for a frame with one NAL unit in [PsToEsFrame], as many turns as bytes in
    [PsDec]; one more than the length of the text in [Sdp] and [RtspPacket], where
    a turn takes at least a character; one more than the sessions of the table for
    the releases that a release causes in [SessionFactory]; two for the reconnection of
    [IndexResend], which is tried once; one more than the blocks of the heap in
    [MbBuffer], where a turn takes a block of a list), each with the proof that it is enough. The
    loops that need not end are shown not to end ([writePsStream_stuck], [ps_found_data_stuck]).

    ** The theorems

    - The media path from end to end: [rtp2ps_transmux] (H.264 packets in any
      order become a program stream that decodes to the NAL unit),
      [ps_es_roundtrip] (the encapsulation followed by the way back is the
      identity on a NAL unit), [writePsStream_roundtrip], [insertPSFrame_single],
      [SendRawVideoData_nal].
    - Parsers and generators against the formats: [ParsePacket_correct],
      [GeneratePacket_roundtrip], [CRCGet_correct] (against polynomial division),
      [base64_roundtrip], [createReceiverReport_bytes].
    - Reassembly: [organizer_safe], [organizer_no_leak],
      [organizer_delivers_complete], [frame_any_order].
    - Containers: [queue_refines_fifo] (a simulation of the ring by a bounded
      queue), [pool_conserves], [direct_order], [stat_window], [ps_no_leak] (no
      block is given back that was not made, and none is kept when the frame is left).
    - Connections: [tcp_stream_order] (what is sent and what waits is what was
      taken, in order; a message given while 20 wait is dropped), [interleaved_reassembly] (packets are found however the
      stream is cut), proved against the loop of [TcpConnect] for any derived class
      that takes frames ([takes_frames]).
    - Texts and values: [sdp_roundtrip], [rtsp_request_roundtrip],
      [rtsp_response_roundtrip], [range_roundtrip], [amf_roundtrip], with the
      termination of the readers on any input ([decodeSdp_total],
      [rtsp_parse_total], [amf_load_total]).
    - Sessions and businesses: [session_lifecycle] (the statuses a session can go
      through), [factory_references] and [factory_no_fault] (the count of a session is
      its references, and none is used after its release), [business_safe] (a business
      lives as long as it has references and gives back what it holds),
      [start_again_frees] (but not when it is started again), [nat_handshake].
    - The exchange: [stream_order] (whatever the interleaving, a stream's blocks are
      handled in the order they were accepted), [exchange_progress] (its thread gets
      through them by turns of its own, unless a set does not return), [exchange_no_fault].
    - Ports: [configured_pool] (exactly which pairs are made and which handles
      deleted), [pool_lending].
    - Blocks of messages: [buffers_accounted] (each block has one place, in any
      interleaving of the threads), [buffers_no_fault], [alloc_exact],
      [all_returned] (no block is lost).
    - Records: [index_exact] (the records in the data base hold exactly the recorded
      seconds of a plan), [resend_bounded], [check_exact], [confirm_exact].
    - Optimised searches against plain ones: [h264_find_startcode_first],
      [FindNaluEnd_first].
    - Behaviour that is not what the code means, each as a theorem about the
      definitions, so that a change of the code would show: the [error] entries
      of the manifest and its findings.

    ** What is not modelled

    Sockets, reactors, files, logging, start-up and the reading of the
    configuration file, which are input and output around a few fields; the parts that
    only call libraries the repository does not hold (eXosip, librtmp, the eHome
    SDK), with the access control server, whose logic is in those calls; the
    vendored tinyxml; the classes that are stubs (transport stream). Of the derived
    sessions only what the interfaces say of them is used: they put requests of the
    servers and callbacks of the socket layer into the calls that are modelled. Of the
    recording server only the index of the records and the blocks of messages are
    modelled; the rest reads and writes disks and sockets. *)

From Stdlib Require Export ZArith Lia.
From stdpp Require Export base list gmap sorting.

#[export] Set Default Goal Selector "!".

Open Scope Z_scope.

(** ** Return codes: [svs_adapter_svs_retcode.h] *)

Inductive SVS_RET_CODE : Set :=
| RET_OK | RET_FAIL | RET_ERR_PARAM | RET_ERR_UNREGISTED | RET_ERR_DISCONNECT
| RET_ERR_TIMEOUT | RET_ERR_LIST_EMPTY | RET_ERR_STATUS_ABNORMAL | RET_ERR_PARSE_MSG
| RET_ERR_QUEUE_FULL | RET_ERR_SEND_FAIL | RET_ERR_MEDIA_DATA
| RET_ERR_CONFIG_ITEM_NOT_FOUND | RET_ERR_SYS | RET_ERR_SYS_NEW.

#[export] Instance SVS_RET_CODE_eq_dec : EqDecision SVS_RET_CODE.
Proof. solve_decision. Defined.

(** ** Machine integers: a value of a w-bit type is a [Z] in range, an
    assignment wraps. *)

Definition wrap (w z : Z) : Z := z mod 2 ^ w.
Definition u8 (z : Z) : Z := wrap 8 z.
Definition u16 (z : Z) : Z := wrap 16 z.
Definition u32 (z : Z) : Z := wrap 32 z.
Definition u64 (z : Z) : Z := wrap 64 z.

(** The value of a byte read through a [char], which is signed on the target. *)
Definition s8 (b : Z) : Z := if b <? 128 then b else b - 256.
Definition s32 (z : Z) : Z := let z := u32 z in if z <? 2 ^ 31 then z else z - 2 ^ 32.

Definition fits (w z : Z) : Prop := 0 <= z < 2 ^ w.

#[export] Instance fits_dec w z : Decision (fits w z).
Proof. unfold fits. apply _. Defined.

Abbreviation is_byte := (fits 8).
Abbreviation bytes_ok := (Forall (fits 8)).

Create HintDb media.

Lemma wrap_fits w z : 0 <= w -> fits w (wrap w z).
Proof. intros Hw. unfold fits, wrap. apply Z.mod_pos_bound. lia. Qed.

Lemma wrap_small w z : fits w z -> wrap w z = z.
Proof. unfold fits, wrap. intros H. by apply Z.mod_small. Qed.

Lemma wrap_wrap w z : wrap w (wrap w z) = wrap w z.
Proof.
  unfold wrap. destruct (Z.lt_ge_cases w 0) as [Hw|Hw].
  - by rewrite !Z.pow_neg_r, !Z.mod_0_r.
  - by rewrite Z.mod_mod by lia.
Qed.

Lemma wrap_add_l w a b : wrap w (wrap w a + b) = wrap w (a + b).
Proof.
  unfold wrap. destruct (Z.lt_ge_cases w 0) as [Hw|Hw].
  - by rewrite !Z.pow_neg_r, !Z.mod_0_r.
  - by rewrite Z.add_mod_idemp_l by lia.
Qed.

Lemma fits_mono w w' z : fits w z -> 0 <= w <= w' -> fits w' z.
Proof.
  unfold fits. intros ? ?. pose proof (Z.pow_le_mono_r 2 w w'). lia.
Qed.

Lemma fits_land w a b : 0 <= w -> 0 <= a -> fits w b -> fits w (Z.land a b).
Proof.
  unfold fits. intros Hw Ha [Hb1 Hb2]. split.
  - apply Z.land_nonneg. lia.
  - rewrite <-(Z.mod_small b (2 ^ w)), <-Z.land_ones by lia.
    rewrite Z.land_assoc, Z.land_ones by lia. apply Z.mod_pos_bound. lia.
Qed.

Lemma fits_testbit w z n : fits w z -> w <= n -> Z.testbit z n = false.
Proof.
  unfold fits. intros Hz Hn. destruct (Z.lt_ge_cases w 0) as [Hw|Hw].
  - rewrite Z.pow_neg_r in Hz by lia. lia.
  - rewrite <-(Z.mod_small z (2 ^ w)) by lia. by apply Z.mod_pow2_bits_high.
Qed.

Lemma testbit_fits w z :
  0 <= w -> 0 <= z -> (forall n, w <= n -> Z.testbit z n = false) -> fits w z.
Proof.
  intros Hw Hz H. split; [done|].
  assert (z = z mod 2 ^ w) as ->; [|apply Z.mod_pos_bound; lia].
  apply Z.bits_inj'. intros n Hn. destruct (Z.lt_ge_cases n w).
  - by rewrite Z.mod_pow2_bits_low.
  - by rewrite Z.mod_pow2_bits_high, H by lia.
Qed.

Lemma fits_lor w a b : 0 <= w -> fits w a -> fits w b -> fits w (Z.lor a b).
Proof.
  intros Hw Ha Hb. apply testbit_fits; [done| |].
  - apply Z.lor_nonneg. unfold fits in *. lia.
  - intros n Hn. by rewrite Z.lor_spec, !(fits_testbit w) by done.
Qed.

#[export] Hint Resolve wrap_fits fits_lor : media.

(** Goals [fits w n] on closed numbers. *)
Ltac solve_fits := unfold fits in *; lia.

(** ** Equality of integers bit by bit *)

Lemma testbit_ones' w n : 0 <= w ->
  Z.testbit (Z.ones w) n = (0 <=? n) && (n <? w).
Proof.
  intros Hw. destruct (Z.leb_spec 0 n), (Z.ltb_spec n w); simpl.
  - by apply Z.ones_spec_low.
  - by apply Z.ones_spec_high.
  - by apply Z.testbit_neg_r.
  - lia.
Qed.

Lemma testbit_wrap w z n : 0 <= w -> 0 <= n ->
  Z.testbit (wrap w z) n = (n <? w) && Z.testbit z n.
Proof.
  intros Hw Hn. unfold wrap. destruct (Z.ltb_spec n w).
  - by rewrite Z.mod_pow2_bits_low.
  - by rewrite Z.mod_pow2_bits_high.
Qed.

Create Rewrite HintDb zbits.
Create Rewrite HintDb bool_norm.

#[export] Hint Rewrite Z.land_spec Z.lor_spec Z.lxor_spec : zbits.
#[export] Hint Rewrite Z.lnot_spec Z.shiftl_spec Z.shiftr_spec
  testbit_ones' testbit_wrap using lia : zbits.
#[export] Hint Rewrite Z.testbit_0_l : zbits.

(** [zbits] proves [a = b] by comparing the bits; the comparisons on bit
    positions that remain are decided by [lia]. *)
Ltac zbits_split :=
  repeat match goal with
  | |- context [?a <? ?b] => destruct (Z.ltb_spec a b)
  | |- context [?a <=? ?b] => destruct (Z.leb_spec a b)
  end.
#[export] Hint Rewrite andb_true_r andb_false_r andb_true_l andb_false_l
  orb_false_r orb_true_r orb_false_l orb_true_l negb_involutive : bool_norm.
Ltac zbits_neg :=
  repeat match goal with
  | |- context [Z.testbit ?z ?n] => rewrite (Z.testbit_neg_r z n) by lia
  end.
Ltac zbits :=
  apply Z.bits_inj'; intros ?n ?Hn; autorewrite with zbits;
  zbits_split; zbits_neg; try lia; cbn [negb andb orb];
  autorewrite with bool_norm; try done; try (repeat f_equal; lia).

(** ** Bit-fields

    A C bit-field of [w] bits at bit [lo] of its storage unit; on the target
    (little endian, GCC) the first field declared occupies the low bits. *)

Definition get_field (lo w b : Z) : Z := Z.land (Z.shiftr b lo) (Z.ones w).

Definition set_field (lo w b v : Z) : Z :=
  Z.lor (Z.land b (Z.lnot (Z.shiftl (Z.ones w) lo)))
        (Z.shiftl (Z.land v (Z.ones w)) lo).

Lemma get_field_fits lo w b : 0 <= w -> fits w (get_field lo w b).
Proof.
  intros Hw. unfold get_field. rewrite Z.land_ones by lia. by apply wrap_fits.
Qed.

Lemma get_set_field lo w b v : 0 <= lo -> 0 <= w ->
  get_field lo w (set_field lo w b v) = wrap w v.
Proof. intros ??. unfold get_field, set_field. zbits. Qed.

Lemma get_set_field_ne lo w lo' w' b v :
  0 <= lo -> 0 <= w -> 0 <= lo' -> 0 <= w' -> lo + w <= lo' \/ lo' + w' <= lo ->
  get_field lo w (set_field lo' w' b v) = get_field lo w b.
Proof. intros ?????. unfold get_field, set_field. zbits. Qed.

Lemma set_field_fits n lo w b v : 0 <= lo -> 0 <= w -> lo + w <= n ->
  fits n b -> fits n (set_field lo w b v).
Proof.
  intros ??? [Hb Hb']. unfold set_field. apply testbit_fits; [lia| |].
  - apply Z.lor_nonneg. split.
    + apply Z.land_nonneg. by left.
    + apply Z.shiftl_nonneg, Z.land_nonneg. right. rewrite Z.ones_equiv. pose proof (Z.pow_pos_nonneg 2 w). lia.
  - intros i Hi. autorewrite with zbits. rewrite (fits_testbit n b) by done.
    zbits_split; simpl; rewrite ?andb_false_r; try done; lia.
Qed.

(** A store to a bit-field in arithmetic: the bits below, the new value and
    the bits above. *)
Lemma lor_shiftl_add n a b : 0 <= n -> fits n a ->
  Z.lor a (Z.shiftl b n) = a + 2 ^ n * b.
Proof.
  intros Hn Ha. rewrite Z.mul_comm, <-Z.shiftl_mul_pow2 by lia.
  assert (Z.land a (Z.shiftl b n) = 0) as H.
  { apply Z.bits_inj'. intros i Hi. rewrite Z.land_spec, Z.bits_0.
    destruct (Z.lt_ge_cases i n).
    - rewrite Z.shiftl_spec_low by lia. apply andb_false_r.
    - by rewrite (fits_testbit n) by done. }
  by rewrite Z.add_nocarry_lxor, Z.lxor_lor.
Qed.

Lemma set_field_arith lo w b v : 0 <= lo -> 0 <= w ->
  set_field lo w b v =
    b mod 2 ^ lo + 2 ^ lo * (v mod 2 ^ w + 2 ^ w * (b / 2 ^ lo / 2 ^ w)).
Proof.
  intros Hlo Hw. assert (set_field lo w b v =
    Z.lor (wrap lo b) (Z.shiftl (Z.lor (wrap w v)
      (Z.shiftl (Z.shiftr (Z.shiftr b lo) w) w)) lo)) as ->.
  { unfold set_field. apply Z.bits_inj'. intros n Hn.
    rewrite !Z.lor_spec, !Z.land_spec, Z.lnot_spec, !Z.shiftl_spec, testbit_wrap by lia.
    destruct (Z.lt_ge_cases n lo) as [H|H].
    { rewrite !(Z.testbit_neg_r _ (n - lo)) by lia.
      rewrite (proj2 (Z.ltb_lt n lo) H). simpl. by rewrite andb_true_r. }
    rewrite Z.lor_spec, Z.land_spec, testbit_ones', testbit_wrap, Z.shiftl_spec by lia.
    rewrite (proj2 (Z.ltb_ge n lo) H), (proj2 (Z.leb_le 0 (n - lo)) ltac:(lia)). simpl.
    destruct (Z.ltb_spec (n - lo) w).
    - rewrite (Z.testbit_neg_r _ (n - lo - w)) by lia. simpl.
      by autorewrite with bool_norm.
    - rewrite !Z.shiftr_spec by lia. simpl. autorewrite with bool_norm.
      f_equal. lia. }
  rewrite lor_shiftl_add by auto with media.
  rewrite lor_shiftl_add by auto with media.
  by rewrite !Z.shiftr_div_pow2 by lia.
Qed.

Lemma lor_low a k b : 0 <= k -> fits k b -> Z.lor (Z.shiftl a k) b = 2 ^ k * a + b.
Proof. intros. rewrite Z.lor_comm, lor_shiftl_add by done. lia. Qed.

Lemma mod_fits x w : 0 <= w -> fits w (x mod 2 ^ w).
Proof. apply wrap_fits. Qed.

(** The digits of a number. *)
Lemma mod_split x a b : 0 <= a -> 0 <= b ->
  x mod 2 ^ (a + b) = x mod 2 ^ a + 2 ^ a * (x / 2 ^ a mod 2 ^ b).
Proof. intros. rewrite Z.pow_add_r by done. apply Z.rem_mul_r; lia. Qed.

(** A fact about the numbers of [w] bits, checked one by one. *)
Lemma forall_fits w (P : Z -> bool) x : fits w x ->
  forallb P (seqZ 0 (2 ^ w)) = true -> P x = true.
Proof.
  intros Hx H. rewrite forallb_forall in H. apply H.
  apply list_elem_of_In, elem_of_seqZ. unfold fits in Hx. lia.
Qed.

Lemma forall_fits2 w w' (P : Z -> Z -> bool) x y : fits w x -> fits w' y ->
  forallb (fun x => forallb (P x) (seqZ 0 (2 ^ w'))) (seqZ 0 (2 ^ w)) = true -> P x y = true.
Proof.
  intros Hx Hy H. apply (forall_fits w') with (P := P x); [done|].
  by apply (forall_fits w (fun x => forallb (P x) (seqZ 0 (2 ^ w')))).
Qed.

Lemma get_field_arith lo w b : 0 <= lo -> 0 <= w ->
  get_field lo w b = b / 2 ^ lo mod 2 ^ w.
Proof.
  intros Hlo Hw. unfold get_field.
  by rewrite Z.land_ones, Z.shiftr_div_pow2 by lia.
Qed.

(** Powers of two as numerals. *)
Ltac pow2 := repeat match goal with
  | |- context [2 ^ ?n] => let v := eval vm_compute in (2 ^ n) in change (2 ^ n) with v
  end.

(** ** Memory: a buffer is the list of its bytes *)

(** The byte at offset [off]; [None] outside the buffer. *)
Definition rd (l : list Z) (off : Z) : option Z :=
  if decide (0 <= off) then l !! Z.to_nat off else None.

(** The [len] bytes from [off]; [None] when the range is not in the buffer. *)
Definition sub (l : list Z) (off len : Z) : option (list Z) :=
  if decide (0 <= off /\ 0 <= len /\ off + len <= Z.of_nat (length l))
  then Some (take (Z.to_nat len) (drop (Z.to_nat off) l)) else None.

(** [memcpy (buf + off, src, |src|)]; [None] when it leaves [buf]. *)
Definition memcpy (buf : list Z) (off : Z) (src : list Z) : option (list Z) :=
  if decide (0 <= off /\ off + Z.of_nat (length src) <= Z.of_nat (length buf))
  then Some (take (Z.to_nat off) buf ++ src ++
             drop (Z.to_nat off + length src) buf)
  else None.

Definition zlen {A} (l : list A) : Z := Z.of_nat (length l).

Lemma zlen_nonneg {A} (l : list A) : 0 <= zlen l.
Proof. unfold zlen. lia. Qed.

Lemma zlen_app {A} (l k : list A) : zlen (l ++ k) = zlen l + zlen k.
Proof. unfold zlen. rewrite length_app. lia. Qed.

Lemma zlen_cons {A} (x : A) l : zlen (x :: l) = 1 + zlen l.
Proof. unfold zlen. rewrite length_cons. lia. Qed.

Lemma zlen_nil {A} : zlen (@nil A) = 0.
Proof. done. Qed.

Create Rewrite HintDb zlen.
#[export] Hint Rewrite @zlen_app @zlen_cons @zlen_nil : zlen.

Lemma rd_app_r l k off : zlen l <= off -> rd (l ++ k) off = rd k (off - zlen l).
Proof.
  unfold rd, zlen. intros H. rewrite !decide_True by lia.
  rewrite lookup_app_r by lia. f_equal. lia.
Qed.

Lemma rd_app_l l k off : off < zlen l -> rd (l ++ k) off = rd l off.
Proof.
  unfold rd, zlen. intros H. case_decide; [|done].
  by rewrite lookup_app_l by lia.
Qed.

Lemma rd_is_Some l off : 0 <= off < zlen l -> is_Some (rd l off).
Proof.
  unfold rd, zlen. intros H. rewrite decide_True by lia.
  apply lookup_lt_is_Some. lia.
Qed.

Lemma rd_None l off : ~ (0 <= off < zlen l) -> rd l off = None.
Proof.
  unfold rd, zlen. intros H. case_decide; [|done].
  apply lookup_ge_None. lia.
Qed.

Lemma rd_byte l off b : bytes_ok l -> rd l off = Some b -> is_byte b.
Proof.
  unfold rd. intros Hl. case_decide; [|done].
  intros Hb. by eapply Forall_lookup_1.
Qed.

Lemma sub_app l k m : sub (l ++ k ++ m) (zlen l) (zlen k) = Some k.
Proof.
  unfold sub, zlen. rewrite decide_True.
  - rewrite !Nat2Z.id, drop_app_length. by rewrite take_app_length.
  - rewrite !length_app. lia.
Qed.

Lemma sub_length l off len k : sub l off len = Some k -> zlen k = len.
Proof.
  unfold sub, zlen. case_decide as H; [|done]. intros [= <-].
  rewrite length_take, length_drop. lia.
Qed.

Lemma sub_bytes l off len k : bytes_ok l -> sub l off len = Some k -> bytes_ok k.
Proof.
  unfold sub. case_decide; [|done]. intros Hl [= <-].
  by apply Forall_take, Forall_drop.
Qed.

Lemma sub_Some l off len : 0 <= off -> 0 <= len -> off + len <= zlen l ->
  sub l off len = Some (take (Z.to_nat len) (drop (Z.to_nat off) l)).
Proof. unfold sub, zlen. intros. by rewrite decide_True. Qed.

Lemma memcpy_length buf off src buf' :
  memcpy buf off src = Some buf' -> zlen buf' = zlen buf.
Proof.
  unfold memcpy, zlen. case_decide as H; [|done]. intros [= <-].
  rewrite !length_app, length_take, length_drop. lia.
Qed.

Lemma memcpy_app a old b src : length src = length old ->
  memcpy (a ++ old ++ b) (zlen a) src = Some (a ++ src ++ b).
Proof.
  intros Hl. unfold memcpy, zlen. rewrite decide_True.
  - rewrite Nat2Z.id, take_app_length, Hl.
    rewrite <-drop_drop, drop_app_length, drop_app_length. done.
  - rewrite !length_app. lia.
Qed.

Lemma memcpy_bytes buf off src buf' : bytes_ok buf -> bytes_ok src ->
  memcpy buf off src = Some buf' -> bytes_ok buf'.
Proof.
  unfold memcpy. case_decide; [|done]. intros Hb Hs [= <-].
  rewrite !Forall_app. eauto using Forall_take, Forall_drop.
Qed.

(** ** Byte order *)

(** A host (little-endian) load and the swap of [ntohs] / [htons]. *)
Definition le16 (b0 b1 : Z) : Z := b0 + 256 * b1.
Definition le32 (b0 b1 b2 b3 : Z) : Z :=
  b0 + 256 * (b1 + 256 * (b2 + 256 * b3)).
Definition lo8 (z : Z) : Z := z mod 256.
Definition byte_n (n z : Z) : Z := lo8 (z / 256 ^ n).

Definition ntohs (z : Z) : Z := le16 (byte_n 1 z) (byte_n 0 z).
Definition ntohl (z : Z) : Z :=
  le32 (byte_n 3 z) (byte_n 2 z) (byte_n 1 z) (byte_n 0 z).

(** The bytes of a host store. *)
Definition put16 (z : Z) : list Z := [byte_n 0 z; byte_n 1 z].
Definition put32 (z : Z) : list Z := [byte_n 0 z; byte_n 1 z; byte_n 2 z; byte_n 3 z].

Ltac Zify.zify_post_hook ::= Z.div_mod_to_equations.

Lemma byte_n_byte n z : is_byte (byte_n n z).
Proof. unfold fits, byte_n, lo8. lia. Qed.

Lemma le16_byte_n z : le16 (byte_n 0 z) (byte_n 1 z) = u16 z.
Proof. unfold le16, byte_n, lo8, u16, wrap. change (256 ^ 0) with 1. change (256 ^ 1) with 256. lia. Qed.

Lemma be16_byte_n z : le16 (byte_n 1 z) (byte_n 0 z) = ntohs z.
Proof. done. Qed.

Lemma le32_byte_n z :
  le32 (byte_n 0 z) (byte_n 1 z) (byte_n 2 z) (byte_n 3 z) = u32 z.
Proof.
  unfold le32, byte_n, lo8, u32, wrap. change (256 ^ 0) with 1.
  change (256 ^ 1) with 256. change (256 ^ 2) with (256 * 256).
  change (256 ^ 3) with (256 * 256 * 256). change (2 ^ 32) with 4294967296. lia.
Qed.

Lemma byte_n_le32 b0 b1 b2 b3 :
  is_byte b0 -> is_byte b1 -> is_byte b2 -> is_byte b3 ->
  byte_n 0 (le32 b0 b1 b2 b3) = b0 /\ byte_n 1 (le32 b0 b1 b2 b3) = b1 /\
  byte_n 2 (le32 b0 b1 b2 b3) = b2 /\ byte_n 3 (le32 b0 b1 b2 b3) = b3.
Proof.
  unfold fits, le32, byte_n, lo8. change (256 ^ 0) with 1.
  change (256 ^ 1) with 256. change (256 ^ 2) with 65536.
  change (256 ^ 3) with 16777216. lia.
Qed.

Lemma byte_n_le16 b0 b1 : is_byte b0 -> is_byte b1 ->
  byte_n 0 (le16 b0 b1) = b0 /\ byte_n 1 (le16 b0 b1) = b1.
Proof.
  unfold fits, le16, byte_n, lo8. change (256 ^ 0) with 1.
  change (256 ^ 1) with 256. lia.
Qed.

(** The swap undoes itself: a value stored through [htons] and loaded through
    [ntohs] comes back, cut to the width of the field. *)
Lemma ntohs_ntohs z : ntohs (u16 (ntohs z)) = u16 z.
Proof.
  assert (fits 16 (ntohs z)) as Hf.
  { pose proof (byte_n_byte 1 z). pose proof (byte_n_byte 0 z).
    unfold fits, ntohs, le16 in *. lia. }
  unfold u16 at 1. rewrite (wrap_small _ _ Hf). unfold ntohs at 1.
  destruct (byte_n_le16 (byte_n 1 z) (byte_n 0 z)) as [E0 E1];
    [apply byte_n_byte..|]. unfold ntohs. rewrite E0, E1. apply le16_byte_n.
Qed.

Lemma ntohl_ntohl z : ntohl (u32 (ntohl z)) = u32 z.
Proof.
  assert (fits 32 (ntohl z)) as Hf.
  { pose proof (byte_n_byte 0 z). pose proof (byte_n_byte 1 z).
    pose proof (byte_n_byte 2 z). pose proof (byte_n_byte 3 z).
    unfold fits, ntohl, le32 in *. lia. }
  unfold u32 at 1. rewrite (wrap_small _ _ Hf). unfold ntohl at 1.
  destruct (byte_n_le32 (byte_n 3 z) (byte_n 2 z) (byte_n 1 z) (byte_n 0 z))
    as (E0 & E1 & E2 & E3); [apply byte_n_byte..|].
  unfold ntohl. rewrite E0, E1, E2, E3. apply le32_byte_n.
Qed.

Lemma put16_bytes z : bytes_ok (put16 z).
Proof. unfold put16. repeat constructor; apply byte_n_byte. Qed.

Lemma put32_bytes z : bytes_ok (put32 z).
Proof. unfold put32. repeat constructor; apply byte_n_byte. Qed.

#[export] Hint Resolve byte_n_byte put16_bytes put32_bytes : media.

Lemma memcpy_total buf off src : 0 <= off -> off + zlen src <= zlen buf ->
  exists buf', memcpy buf off src = Some buf'.
Proof. unfold memcpy, zlen. intros. rewrite decide_True by lia. eauto. Qed.

(** Reading after a copy: the copied range, and the rest unchanged. *)
Lemma rd_memcpy_in buf off src buf' i : memcpy buf off src = Some buf' ->
  off <= i < off + zlen src -> rd buf' i = rd src (i - off).
Proof.
  unfold memcpy, zlen. case_decide as H; [|done]. intros [= <-] Hi.
  unfold rd. rewrite !decide_True by lia.
  rewrite lookup_app_r; rewrite length_take; [|lia].
  rewrite lookup_app_l by lia. f_equal. lia.
Qed.

Lemma rd_memcpy_out buf off src buf' i : memcpy buf off src = Some buf' ->
  i < off \/ off + zlen src <= i -> rd buf' i = rd buf i.
Proof.
  unfold memcpy, zlen. case_decide as H; [|done]. intros [= <-] Hi.
  unfold rd. case_decide; [|done]. destruct Hi as [Hi|Hi].
  - rewrite lookup_app_l by (rewrite length_take; lia).
    by rewrite lookup_take_lt by lia.
  - rewrite lookup_app_r by (rewrite length_take; lia).
    rewrite lookup_app_r by (rewrite length_take; lia).
    rewrite lookup_drop, length_take. f_equal. lia.
Qed.

Lemma drop_memcpy buf off src buf' n : memcpy buf off src = Some buf' ->
  off + zlen src <= Z.of_nat n -> drop n buf' = drop n buf.
Proof.
  intros Hm Hn. apply list_eq. intros i. rewrite !lookup_drop.
  pose proof (rd_memcpy_out _ _ _ _ (Z.of_nat (n + i)) Hm ltac:(lia)) as H.
  unfold rd in H. rewrite !decide_True, Nat2Z.id in H by lia. done.
Qed.

Lemma rd_0 x l : rd (x :: l) 0 = Some x.
Proof. done. Qed.

Lemma zlen_put16 z : zlen (put16 z) = 2.
Proof. done. Qed.
Lemma zlen_put32 z : zlen (put32 z) = 4.
Proof. done. Qed.
#[export] Hint Rewrite zlen_put16 zlen_put32 : zlen.

Lemma length_zlen {A} (l : list A) n : zlen l = Z.of_nat n -> length l = n.
Proof. unfold zlen. lia. Qed.

(** A copy at the end of a known prefix, and a read of a prefix. *)
Lemma memcpy_tail a b src : zlen src <= zlen b ->
  memcpy (a ++ b) (zlen a) src = Some (a ++ src ++ drop (length src) b).
Proof.
  unfold zlen. intros H.
  rewrite <-(take_drop (length src) b) at 1.
  apply memcpy_app. rewrite length_take. lia.
Qed.

Lemma memcpy_at a b off src : zlen a = off -> zlen src <= zlen b ->
  memcpy (a ++ b) off src = Some (a ++ src ++ drop (length src) b).
Proof. intros <-. apply memcpy_tail. Qed.

Lemma memcpy_mid a old b off src : zlen a = off -> length src = length old ->
  memcpy (a ++ old ++ b) off src = Some (a ++ src ++ b).
Proof. intros <-. apply memcpy_app. Qed.

Lemma sub_prefix a b len : zlen a = len -> sub (a ++ b) 0 len = Some a.
Proof. intros <-. apply (sub_app [] a b). Qed.

Lemma sub_mid a b c off len : zlen a = off -> zlen b = len ->
  sub (a ++ b ++ c) off len = Some b.
Proof. intros <- <-. apply sub_app. Qed.

Lemma sub_None l off len : zlen l < off + len -> sub l off len = None.
Proof. unfold sub, zlen. intros. rewrite decide_False; [done|lia]. Qed.

Lemma memcpy_None buf off src : zlen buf < off + zlen src -> memcpy buf off src = None.
Proof. unfold memcpy, zlen. intros. rewrite decide_False; [done|lia]. Qed.

Lemma zlen_drop {A} n (l : list A) : zlen (drop n l) = Z.max 0 (zlen l - Z.of_nat n).
Proof. unfold zlen. rewrite length_drop. lia. Qed.
Lemma zlen_take {A} n (l : list A) : zlen (take n l) = Z.min (Z.of_nat n) (zlen l).
Proof. unfold zlen. rewrite length_take. lia. Qed.
#[export] Hint Rewrite @zlen_drop @zlen_take : zlen.

Lemma of_nat_length {A} (l : list A) : Z.of_nat (length l) = zlen l.
Proof. done. Qed.
#[export] Hint Rewrite @of_nat_length Nat2Z.inj_add : zlen.

Lemma rd_bounds l off b : rd l off = Some b -> 0 <= off < zlen l.
Proof.
  intros H. destruct (decide (0 <= off < zlen l)) as [?|Hn]; [done|].
  by rewrite (rd_None l off Hn) in H.
Qed.

Lemma drop_rd l i b : rd l i = Some b -> drop (Z.to_nat i) l = b :: drop (Z.to_nat (i + 1)) l.
Proof.
  unfold rd. case_decide; [|done]. intros H1. rewrite (drop_S _ _ _ H1). do 2 f_equal. lia.
Qed.

(** The network order bytes of a 16 and a 32-bit value. *)
Definition be16 (z : Z) : list Z := [byte_n 1 z; byte_n 0 z].
Definition be32 (z : Z) : list Z := [byte_n 3 z; byte_n 2 z; byte_n 1 z; byte_n 0 z].

Lemma put16_ntohs z : put16 (ntohs z) = be16 z.
Proof.
  unfold put16, be16, ntohs.
  destruct (byte_n_le16 (byte_n 1 z) (byte_n 0 z)) as [-> ->]; auto with media.
Qed.

Lemma put32_ntohl z : put32 (ntohl z) = be32 z.
Proof.
  unfold put32, be32, ntohl.
  destruct (byte_n_le32 (byte_n 3 z) (byte_n 2 z) (byte_n 1 z) (byte_n 0 z))
    as (-> & -> & -> & ->); auto with media.
Qed.

Lemma be32_le32 b0 b1 b2 b3 : is_byte b0 -> is_byte b1 -> is_byte b2 -> is_byte b3 ->
  be32 (le32 b3 b2 b1 b0) = [b0; b1; b2; b3].
Proof.
  intros. unfold be32.
  by destruct (byte_n_le32 b3 b2 b1 b0) as (-> & -> & -> & ->).
Qed.

Lemma be16_bytes z : bytes_ok (be16 z).
Proof. unfold be16. repeat constructor; apply byte_n_byte. Qed.
Lemma be32_bytes z : bytes_ok (be32 z).
Proof. unfold be32. repeat constructor; apply byte_n_byte. Qed.
Lemma zlen_be16 z : zlen (be16 z) = 2.
Proof. done. Qed.
Lemma zlen_be32 z : zlen (be32 z) = 4.
Proof. done. Qed.
#[export] Hint Rewrite zlen_be16 zlen_be32 : zlen.
#[export] Hint Resolve be16_bytes be32_bytes : media.

(** [p->field = v] for a bit-field of the byte at [off]. *)
Definition set_bits (off lo w v : Z) (buf : list Z) : option (list Z) :=
  b ← rd buf off; memcpy buf off [set_field lo w b v].

(** ** Effects

    A method of an object with state [S] that calls a handler: it returns its
    result, the new state and the calls it made, in order. [None] is an access
    outside a buffer (or, in a loop with fuel, fuel that ran out). *)

Definition M (S E A : Type) : Type := S -> option (A * S * list E).

#[export] Instance M_ret S E : MRet (M S E) := fun A a s => Some (a, s, []).
#[export] Instance M_bind S E : MBind (M S E) := fun A B k m s =>
  '(a, s, o) ← m s; '(b, s, o') ← k a s; Some (b, s, o ++ o').

Definition get {S E} : M S E S := fun s => Some (s, s, []).
Definition modify {S E} (f : S -> S) : M S E unit := fun s => Some (tt, f s, []).
Definition tell {S E} (e : E) : M S E unit := fun s => Some (tt, s, [e]).
Definition fault {S E A} : M S E A := fun _ => None.
Definition lift {S E A} (o : option A) : M S E A := fun s => a ← o; Some (a, s, []).

Section Monad.
  Context {S E A B : Type}.
  Implicit Types (m : M S E A) (k : A -> M S E B).

Lemma bind_run m k s a s' o b s'' o' : m s = Some (a, s', o) ->
  k a s' = Some (b, s'', o') -> (m ≫= k) s = Some (b, s'', o ++ o').
Proof. intros H1 H2. cbv [mbind M_bind]. rewrite H1. cbn. by rewrite H2. Qed.

Lemma bind_inv m k s b s'' o : (m ≫= k) s = Some (b, s'', o) ->
  exists a s' o1 o2, m s = Some (a, s', o1) /\ k a s' = Some (b, s'', o2) /\ o = o1 ++ o2.
Proof.
  cbv [mbind M_bind option_bind]. destruct (m s) as [[[a s'] o1]|]; [|done].
  destruct (k a s') as [[[b' s2] o2]|] eqn:E2; [|done]. intros [= -> -> <-].
  exists a, s', o1, o2. done.
Qed.

Lemma bind_eq m k s a s' o : m s = Some (a, s', o) ->
  (m ≫= k) s = '(b, s'', o') ← k a s'; Some (b, s'', o ++ o').
Proof. intros H1. cbv [mbind M_bind]. by rewrite H1. Qed.

Lemma get_bind (k : S -> M S E B) s : (get ≫= k) s = k s s.
Proof. cbv [mbind M_bind get option_bind]. by destruct (k s s) as [[[? ?] ?]|]. Qed.

Lemma modify_bind f (k : unit -> M S E B) s : (modify f ≫= k) s = k tt (f s).
Proof. cbv [mbind M_bind modify option_bind]. by destruct (k tt (f s)) as [[[? ?] ?]|]. Qed.

Lemma ret_bind a k s : (mret a ≫= k) s = k a s.
Proof. cbv [mbind M_bind mret M_ret option_bind]. by destruct (k a s) as [[[? ?] ?]|]. Qed.

Lemma tell_bind e (k : unit -> M S E B) s :
  (tell e ≫= k) s = '(b, s', o) ← k tt s; Some (b, s', e :: o).
Proof. done. Qed.

Lemma bind_assoc {C} m k (h : B -> M S E C) s :
  ((m ≫= k) ≫= h) s = (m ≫= fun a => k a ≫= h) s.
Proof.
  cbv [mbind M_bind option_bind]. destruct (m s) as [[[a s1] o1]|]; [|done].
  destruct (k a s1) as [[[b s2] o2]|]; [|done].
  destruct (h b s2) as [[[c s3] o3]|]; [|done]. by rewrite <-app_assoc.
Qed.

Lemma bind_ext m k1 k2 s : (forall a s', k1 a s' = k2 a s') -> (m ≫= k1) s = (m ≫= k2) s.
Proof. intros H. cbv [mbind M_bind]. destruct (m s) as [[[a s'] o]|]; [|done]. cbn. by rewrite H. Qed.
End Monad.

(** ** Weakest preconditions: the computation does not fail and what it gives
    satisfies [P]. *)

Definition wp {S E A} (m : M S E A) (P : A -> S -> list E -> Prop) (s : S) : Prop :=
  match m s with Some (a, s', o) => P a s' o | None => False end.

Section Wp.
  Context {S E : Type}.

Lemma wp_elim {A} (m : M S E A) P s : wp m P s -> exists a s' o, m s = Some (a, s', o) /\ P a s' o.
Proof. unfold wp. destruct (m s) as [[[a s'] o]|]; [eauto|done]. Qed.

Lemma wp_intro {A} (m : M S E A) (P : A -> S -> list E -> Prop) s a s' o :
  m s = Some (a, s', o) -> P a s' o -> wp m P s.
Proof. unfold wp. by intros ->. Qed.

Lemma wp_mono {A} (m : M S E A) (P Q : A -> S -> list E -> Prop) s :
  wp m P s -> (forall a s' o, P a s' o -> Q a s' o) -> wp m Q s.
Proof. unfold wp. destruct (m s) as [[[a s'] o]|]; eauto. Qed.

Lemma wp_bind {A B} (m : M S E A) (k : A -> M S E B) P s :
  wp m (fun a s' o => wp (k a) (fun b s'' o' => P b s'' (o ++ o')) s') s -> wp (m ≫= k) P s.
Proof.
  unfold wp. cbv [mbind M_bind option_bind]. destruct (m s) as [[[a s'] o]|]; [|done].
  by destruct (k a s') as [[[b s''] o']|].
Qed.

Lemma wp_ret {A} (a : A) (P : A -> S -> list E -> Prop) s : P a s [] -> wp (mret a) P s.
Proof. done. Qed.
Lemma wp_get (P : S -> S -> list E -> Prop) s : P s s [] -> wp get P s.
Proof. done. Qed.
Lemma wp_modify f (P : unit -> S -> list E -> Prop) s : P tt (f s) [] -> wp (modify f) P s.
Proof. done. Qed.
Lemma wp_tell e (P : unit -> S -> list E -> Prop) s : P tt s [e] -> wp (tell e) P s.
Proof. done. Qed.
Lemma wp_lift {A} (x : option A) a (P : A -> S -> list E -> Prop) s :
  x = Some a -> P a s [] -> wp (lift x) P s.
Proof. by intros ->. Qed.
End Wp.

Ltac wp_step :=
  lazymatch goal with
  | |- wp (_ ≫= _) _ _ => apply wp_bind
  | |- wp (mret _) _ _ => apply wp_ret
  | |- wp get _ _ => apply wp_get
  | |- wp (modify _) _ _ => apply wp_modify
  | |- wp (tell _) _ _ => apply wp_tell
  end; cbv beta; cbn [app].

(** Arithmetic on buffer lengths. *)
Ltac zl := autorewrite with zlen in *; try lia; try (unfold zlen in *; lia).
