(* ===== verification/Text.v ===== *)
(** * Texts

    A text is the list of its characters as bytes. The functions of the C and
    C++ libraries the sources use on texts, the decimal number a stream prints,
    and the order of [std::string]. *)

From Stdlib Require Import String Ascii.
From S2P Require Import Prelude.
Open Scope Z_scope.

Definition chars (s : string) : list Z := (fun c => Z.of_nat (nat_of_ascii c)) <$> list_ascii_of_string s.

(** ** Searching *)

Fixpoint starts (pat l : list Z) : bool :=
  match pat, l with
  | [], _ => true
  | y :: pat, x :: l => (x =? y) && starts pat l
  | _, [] => false
  end.

(** [string::find]. *)
Fixpoint find_at (pat l : list Z) (pos : Z) : option Z :=
  if starts pat l then Some pos
  else match l with [] => None | _ :: l => find_at pat l (pos + 1) end.
Definition find (pat l : list Z) : option Z := find_at pat l 0.

(** What is before the first [c] and behind it ([strsep], or [find] of a
    character). *)
Fixpoint split_at (c : Z) (s : list Z) : option (list Z * list Z) :=
  match s with
  | [] => None
  | x :: s => if x =? c then Some ([], s) else '(a, b) ← split_at c s; Some (x :: a, b)
  end.

(** ** Numbers *)

Definition is_space (c : Z) : bool := (c =? 32) || ((9 <=? c) && (c <=? 13)).
Definition is_digit (c : Z) : bool := (48 <=? c) && (c <=? 57).

Fixpoint skip_space (l : list Z) : list Z :=
  match l with c :: l' => if is_space c then skip_space l' else l | [] => [] end.
Fixpoint digits (l : list Z) (acc : Z) : Z :=
  match l with
  | c :: l => if is_digit c then digits l (10 * acc + (c - 48)) else acc
  | [] => acc
  end.

(** [atoi]: [strtol] on 64 bits, cut to 32; the bits of an [int]. *)
Definition atoi (l : list Z) : Z :=
  match skip_space l with
  | [] => 0
  | c :: l' =>
    if c =? 45 then u32 (Z.max (- 2 ^ 63) (- digits l' 0))
    else u32 (Z.min (2 ^ 63 - 1) (digits (if c =? 43 then l' else c :: l') 0))
  end.

(** The decimal digits of a number of at most [fuel] digits; 20 are enough for
    64 bits. *)
Fixpoint decimal_go (fuel : nat) (n : Z) : list Z :=
  match fuel with
  | O => []
  | S fuel => (if n <? 10 then [] else decimal_go fuel (n / 10)) ++ [48 + n mod 10]
  end.
Definition decimal (n : Z) : list Z := decimal_go 20 n.

(** ** The order of texts *)

Fixpoint str_cmp (a b : list Z) : comparison :=
  match a, b with
  | [], [] => Eq
  | [], _ => Lt
  | _, [] => Gt
  | x :: a, y :: b => match x ?= y with Eq => str_cmp a b | c => c end
  end.
Definition str_lt (a b : list Z) : Prop := str_cmp a b = Lt.

Lemma str_cmp_refl a : str_cmp a a = Eq.
Proof. induction a; cbn; [done|]. by rewrite Z.compare_refl. Qed.

Lemma str_cmp_eq a b : str_cmp a b = Eq <-> a = b.
Proof.
  split; [|intros ->; apply str_cmp_refl]. revert b.
  induction a as [|x a IH]; intros [|y b]; cbn; [done..|].
  destruct (Z.compare_spec x y); try done. subst. intros H. by rewrite (IH b).
Qed.

Lemma str_cmp_antisym a b : str_cmp b a = CompOpp (str_cmp a b).
Proof.
  revert b. induction a as [|x a IH]; intros [|y b]; cbn; [done..|].
  rewrite (Z.compare_antisym x y). destruct (Z.compare_spec x y); cbn; auto.
Qed.

Lemma str_lt_trans a b c : str_lt a b -> str_lt b c -> str_lt a c.
Proof.
  unfold str_lt. revert b c. induction a as [|x a IH]; intros [|y b] [|z c]; cbn; try done.
  destruct (Z.compare_spec x y), (Z.compare_spec y z), (Z.compare_spec x z);
    subst; try done; try lia. apply IH.
Qed.
#[export] Instance str_lt_transitive : Transitive str_lt.
Proof. intros a b c. apply str_lt_trans. Qed.

Lemma str_cmp_Gt a b : str_cmp a b = Gt <-> str_lt b a.
Proof. unfold str_lt. rewrite (str_cmp_antisym a b). by destruct (str_cmp a b). Qed.

(** ** Facts *)

Lemma split_at_app c s rest : Forall (fun x => x <> c) s -> split_at c (s ++ c :: rest) = Some (s, rest).
Proof.
  induction 1 as [|x s Hx _ IH]; cbn; [by rewrite Z.eqb_refl|].
  rewrite (proj2 (Z.eqb_neq x c)), IH by done. done.
Qed.

Lemma split_at_none c s : Forall (fun x => x <> c) s -> split_at c s = None.
Proof. induction 1 as [|x s Hx _ IH]; cbn; [done|]. by rewrite (proj2 (Z.eqb_neq x c)), IH by done. Qed.

Definition all_digits (s : list Z) : Prop := Forall (fun c => is_digit c = true) s.

Lemma digits_app s c : all_digits s -> is_digit c = true -> forall v, digits (s ++ [c]) v = 10 * digits s v + (c - 48).
Proof.
  intros Hs Hc. induction Hs as [|x s Hx _ IH]; intros v; cbn; [by rewrite Hc|]. by rewrite Hx, IH.
Qed.

Lemma digits_stop s c rest : all_digits s -> is_digit c = false -> forall v, digits (s ++ c :: rest) v = digits s v.
Proof. intros Hs Hc. induction Hs as [|x s Hx _ IH]; intros v; cbn; [by rewrite Hc|]. by rewrite Hx. Qed.

Lemma is_digit_mod n : is_digit (48 + n mod 10) = true.
Proof. unfold is_digit. lia. Qed.

Lemma decimal_go_ok fuel n : (0 < fuel)%nat -> 0 <= n < 10 ^ Z.of_nat fuel ->
  all_digits (decimal_go fuel n) /\ decimal_go fuel n <> [] /\ digits (decimal_go fuel n) 0 = n.
Proof.
  revert n. induction fuel as [|fuel IH]; intros n Hf Hn; [lia|]. cbn [decimal_go].
  rewrite Nat2Z.inj_succ, Z.pow_succ_r in Hn by lia.
  destruct (Z.ltb_spec n 10).
  - cbn [app]. split; [|split; [done|]].
    + constructor; [apply is_digit_mod|constructor].
    + cbn [digits]. rewrite is_digit_mod. lia.
  - destruct fuel as [|fuel]; [cbn in Hn; lia|].
    destruct (IH (n / 10)) as (H1 & H2 & H3); [lia| |].
    { split; [lia|]. apply Z.div_lt_upper_bound; lia. }
    split; [|split].
    + apply Forall_app_2; [done|]. constructor; [apply is_digit_mod|constructor].
    + by destruct (decimal_go (S fuel) (n / 10)).
    + rewrite digits_app, H3 by (done || apply is_digit_mod). lia.
Qed.

Lemma decimal_ok n : fits 64 n -> all_digits (decimal n) /\ decimal n <> [] /\ digits (decimal n) 0 = n.
Proof. intros [H1 H2]. apply decimal_go_ok; [lia|]. change (10 ^ Z.of_nat 20) with 100000000000000000000. lia. Qed.

Definition stops (rest : list Z) : Prop := match rest with [] => True | c :: _ => is_digit c = false end.

(** What is printed is read back, in front of anything but a digit. *)
Lemma atoi_decimal n rest : fits 32 n -> stops rest -> atoi (decimal n ++ rest) = n.
Proof.
  intros Hn Hr. destruct (decimal_ok n) as (Hd & Hne & Hv); [eapply fits_mono; [exact Hn|lia]|].
  assert (digits (decimal n ++ rest) 0 = n) as Hdig.
  { destruct rest; [by rewrite app_nil_r|]. by rewrite digits_stop. }
  unfold atoi. destruct (decimal n) as [|c s]; [done|]. apply Forall_cons in Hd as [Hc _].
  cbn [app skip_space]. assert (is_space c = false) as -> by (unfold is_digit, is_space in *; lia).
  assert ((c =? 45) = false /\ (c =? 43) = false) as [-> ->] by (unfold is_digit in Hc; lia).
  change (c :: s ++ rest) with ((c :: s) ++ rest). rewrite Hdig. unfold fits in Hn.
  rewrite Z.min_r by lia. by apply wrap_small.
Qed.

Lemma digits_not c s : is_digit c = false -> all_digits s -> Forall (fun x => x <> c) s.
Proof. intros Hc Hs. eapply Forall_impl; [exact Hs|]. cbn. congruence. Qed.

Lemma decimal_not c n : is_digit c = false -> fits 64 n -> Forall (fun x => x <> c) (decimal n).
Proof. intros Hc Hn. by apply digits_not, decimal_ok. Qed.
