(* ===== verification/RtpPacket.v ===== *)
(** * RTP packets: [svs_adapter_rtp_packet.cpp], [svs_adapter_rtp_head.h]

    The object [CRtpPacket] points into a buffer of its caller. The buffer is
    the list [m_pRtpData] of the object: a method that writes through
    [m_pFixedHead] returns the object with the new contents, which is what the
    caller's buffer holds after the call. An access outside the buffer makes a
    method return [None]. A (pointer, length) argument is the list of the bytes
    it delimits, [None] for a null pointer. *)

From S2P Require Import Prelude.
Open Scope Z_scope.

(** [RTP_FIXED_HEADER] is 12 bytes, [RTP_EXTEND_HEADER] 4. *)
Definition RTP_FIXED_HEADER_SIZE : Z := 12.
Definition RTP_EXTEND_HEADER_SIZE : Z := 4.
Definition RTP_PACKET_VERSION : Z := 2.
Definition RTP_CSRC_LEN : Z := 4.
Definition RTP_EXTEND_PROFILE_LEN : Z := 4.

(** The bit-fields of bytes 0 and 1 as (lowest bit, width). *)
Definition csrc_len (b0 : Z) : Z := get_field 0 4 b0.
Definition extension (b0 : Z) : Z := get_field 4 1 b0.
Definition padding (b0 : Z) : Z := get_field 5 1 b0.
Definition version (b0 : Z) : Z := get_field 6 2 b0.
Definition payload (b1 : Z) : Z := get_field 0 7 b1.
Definition marker (b1 : Z) : Z := get_field 7 1 b1.

Record CRtpPacket : Type := {
  m_pRtpData : list Z;
  m_pFixedHead : bool;          (* the pointer is not NULL *)
  m_pExtHead : option Z;        (* offset of the extension header *)
  m_ulPacketLen : Z;
  m_ulHeadLen : Z;
  m_ulTailLen : Z }.

Definition CRtpPacket_new : CRtpPacket :=
  {| m_pRtpData := []; m_pFixedHead := false; m_pExtHead := None;
     m_ulPacketLen := 0; m_ulHeadLen := 0; m_ulTailLen := 0 |}.

Definition attach (d : list Z) (this : CRtpPacket) : CRtpPacket :=
  {| m_pRtpData := d; m_pFixedHead := true; m_pExtHead := m_pExtHead this;
     m_ulPacketLen := zlen d; m_ulHeadLen := m_ulHeadLen this;
     m_ulTailLen := m_ulTailLen this |}.
Definition with_data (d : list Z) (this : CRtpPacket) : CRtpPacket :=
  {| m_pRtpData := d; m_pFixedHead := m_pFixedHead this;
     m_pExtHead := m_pExtHead this; m_ulPacketLen := m_ulPacketLen this;
     m_ulHeadLen := m_ulHeadLen this; m_ulTailLen := m_ulTailLen this |}.
Definition with_head_len (n : Z) (this : CRtpPacket) : CRtpPacket :=
  {| m_pRtpData := m_pRtpData this; m_pFixedHead := m_pFixedHead this;
     m_pExtHead := m_pExtHead this; m_ulPacketLen := m_ulPacketLen this;
     m_ulHeadLen := n; m_ulTailLen := m_ulTailLen this |}.
Definition with_tail_len (n : Z) (this : CRtpPacket) : CRtpPacket :=
  {| m_pRtpData := m_pRtpData this; m_pFixedHead := m_pFixedHead this;
     m_pExtHead := m_pExtHead this; m_ulPacketLen := m_ulPacketLen this;
     m_ulHeadLen := m_ulHeadLen this; m_ulTailLen := n |}.
Definition with_ext (off : Z) (this : CRtpPacket) : CRtpPacket :=
  {| m_pRtpData := m_pRtpData this; m_pFixedHead := m_pFixedHead this;
     m_pExtHead := Some off; m_ulPacketLen := m_ulPacketLen this;
     m_ulHeadLen := m_ulHeadLen this; m_ulTailLen := m_ulTailLen this |}.

(** ** Header accesses through [m_pFixedHead] *)

Definition update_byte (off : Z) (f : Z -> Z) (this : CRtpPacket) : option CRtpPacket :=
  b ← rd (m_pRtpData this) off;
  d ← memcpy (m_pRtpData this) off [f b];
  Some (with_data d this).

Definition store (off : Z) (bs : list Z) (this : CRtpPacket) : option CRtpPacket :=
  d ← memcpy (m_pRtpData this) off bs; Some (with_data d this).

(** A setter: it fails on an object without a packet. *)
Definition setter (f : CRtpPacket -> option CRtpPacket) (this : CRtpPacket)
    : option (SVS_RET_CODE * CRtpPacket) :=
  if m_pFixedHead this then (this' ← f this; Some (RET_OK, this'))
  else Some (RET_FAIL, this).

Definition SetVersion (v : Z) := setter (update_byte 0 (fun b => set_field 6 2 b v)).
Definition SetPadding (v : Z) := setter (update_byte 0 (fun b => set_field 5 1 b v)).
Definition SetPayloadType (v : Z) := setter (update_byte 1 (fun b => set_field 0 7 b v)).
Definition SetMarker (m : bool) := setter (update_byte 1 (fun b => set_field 7 1 b (Z.b2z m))).
Definition SetSeqNum (v : Z) := setter (store 2 (put16 (ntohs v))).
Definition SetTimeStamp (v : Z) := setter (store 4 (put32 (ntohl v))).

Definition SetSSRC (v : Z) (this : CRtpPacket) : option CRtpPacket :=
  if m_pFixedHead this then store 8 (put32 v) this else Some this.

(** ** Getters: 0 on an object without a packet *)

Definition getter (f : list Z -> option Z) (this : CRtpPacket) : option Z :=
  if m_pFixedHead this then f (m_pRtpData this) else Some 0.

Definition load16 (d : list Z) (off : Z) : option Z :=
  b0 ← rd d off; b1 ← rd d (off + 1); Some (le16 b0 b1).
Definition load32 (d : list Z) (off : Z) : option Z :=
  b0 ← rd d off; b1 ← rd d (off + 1); b2 ← rd d (off + 2); b3 ← rd d (off + 3);
  Some (le32 b0 b1 b2 b3).

Definition GetSeqNum := getter (fun d => ntohs <$> load16 d 2).
Definition GetTimeStamp := getter (fun d => ntohl <$> load32 d 4).
Definition GetPayloadType := getter (fun d => payload <$> rd d 1).
Definition GetSSRC := getter (fun d => load32 d 8).
Definition GetMarker (this : CRtpPacket) : option bool :=
  m ← getter (fun d => marker <$> rd d 1) this; Some (negb (m =? 0)).
Definition GetHeadLen (this : CRtpPacket) : Z := m_ulHeadLen this.
Definition GetTailLen (this : CRtpPacket) : Z := m_ulTailLen this.

Definition GetVersion (this : CRtpPacket) : option (SVS_RET_CODE * Z) :=
  if m_pFixedHead this
  then (b ← rd (m_pRtpData this) 0; Some (RET_OK, version b))
  else Some (RET_FAIL, 0).

Definition CheckVersion (this : CRtpPacket) : option SVS_RET_CODE :=
  '(r, v) ← GetVersion this;
  Some (if decide (r ≠ RET_OK) then RET_FAIL
        else if RTP_PACKET_VERSION =? v then RET_OK else RET_FAIL).

(** ** [ParsePacket], [GeneratePacket] *)

(** Lines 51-62: attach to the buffer; a set padding bit is cleared in the
    caller's buffer once the tail length is read. *)
Definition parse_padding (d : list Z) (this : CRtpPacket) : option CRtpPacket :=
  let this := attach d this in
  b0 ← rd d 0;
  if padding b0 =? 1 then
    tail ← rd d (zlen d - 1);
    '(_, this) ← SetPadding 0 (with_tail_len tail this);
    Some this
  else Some this.

(** Lines 77-106: the extension header. *)
Definition parse_extension (ulHeadLen : Z) (this : CRtpPacket)
    : option (SVS_RET_CODE * CRtpPacket) :=
  let d := m_pRtpData this in
  b0 ← rd d 0;
  if negb (extension b0 =? 1) then Some (RET_OK, with_head_len ulHeadLen this)
  else if zlen d <? ulHeadLen + RTP_EXTEND_HEADER_SIZE
  then Some (RET_ERR_PARAM, this)
  else
    let this := with_ext ulHeadLen this in
    usLength ← load16 d (ulHeadLen + 2);
    let ulHeadLen := u32 (ulHeadLen + RTP_EXTEND_HEADER_SIZE +
                          ntohs usLength * RTP_EXTEND_PROFILE_LEN) in
    if zlen d <? ulHeadLen then Some (RET_ERR_PARAM, this)
    else Some (RET_OK, with_head_len ulHeadLen this).

Definition ParsePacket (pRtpData : option (list Z)) (this : CRtpPacket)
    : option (SVS_RET_CODE * CRtpPacket) :=
  match pRtpData with
  | None => Some (RET_ERR_PARAM, this)
  | Some d =>
    if zlen d <? RTP_FIXED_HEADER_SIZE then Some (RET_ERR_PARAM, this)
    else
      this ← parse_padding d this;
      b0 ← rd (m_pRtpData this) 0;
      let ulHeadLen := u32 (RTP_FIXED_HEADER_SIZE + csrc_len b0 * RTP_CSRC_LEN) in
      if zlen d <? ulHeadLen then Some (RET_ERR_PARAM, this)
      else
        r ← CheckVersion this;
        if decide (r ≠ RET_OK) then Some (RET_FAIL, this)
        else parse_extension ulHeadLen this
  end.

Definition GeneratePacket (pRtpPacket : option (list Z)) (this : CRtpPacket)
    : option (SVS_RET_CODE * CRtpPacket) :=
  match pRtpPacket with
  | None => Some (RET_ERR_PARAM, this)
  | Some d =>
    let this := attach (replicate (length d) 0) this in
    this ← update_byte 0 (fun b => set_field 6 2 b RTP_PACKET_VERSION) this;
    this ← update_byte 1 (fun b => set_field 7 1 b 0) this;
    this ← update_byte 1 (fun b => set_field 0 7 b 96) this;
    this ← update_byte 0 (fun b => set_field 4 1 b 0) this;
    Some (RET_OK, with_head_len RTP_FIXED_HEADER_SIZE this)
  end.

(** The static [GetSeqNum(const ACE_Message_Block* )]; the block's contents
    may change (the padding bit), so they are returned too. *)
Definition GetSeqNum_mb (pMb : option (list Z)) : option (Z * option (list Z)) :=
  match pMb with
  | None => Some (0, None)
  | Some d =>
    '(r, p) ← ParsePacket (Some d) CRtpPacket_new;
    let d' := if m_pFixedHead p then m_pRtpData p else d in
    if decide (r ≠ RET_OK) then Some (0, Some d')
    else (s ← GetSeqNum p; Some (s, Some d'))
  end.

(** ** Lemmas *)

Lemma bit_cases lo b : get_field lo 1 b = 0 \/ get_field lo 1 b = 1.
Proof.
  pose proof (get_field_fits lo 1 b ltac:(lia)) as H. unfold fits in H. lia.
Qed.

Lemma csrc_len_bound b : 0 <= csrc_len b < 16.
Proof. apply (get_field_fits 0 4 b). lia. Qed.

Lemma rd_total d off : 0 <= off < zlen d -> exists b, rd d off = Some b.
Proof. intros H. destruct (rd_is_Some d off H) as [b Hb]. eauto. Qed.

Lemma load16_total d off : 0 <= off -> off + 2 <= zlen d ->
  exists z, load16 d off = Some z.
Proof.
  intros ??. unfold load16.
  destruct (rd_total d off) as [b0 ->]; [lia|].
  destruct (rd_total d (off + 1)) as [b1 ->]; [lia|]. simpl. eauto.
Qed.

Lemma ntohs_fits z : fits 16 (ntohs z).
Proof.
  pose proof (byte_n_byte 0 z). pose proof (byte_n_byte 1 z).
  unfold fits, ntohs, le16 in *. lia.
Qed.

(** Writing one byte in place. *)
Lemma memcpy_byte d off b b' : rd d off = Some b ->
  memcpy d off [b'] = Some (<[Z.to_nat off := b']> d).
Proof.
  intros H. pose proof (rd_bounds _ _ _ H) as Hb.
  unfold memcpy, zlen in *. rewrite decide_True by (simpl; lia).
  f_equal. rewrite insert_take_drop by lia. simpl. do 2 f_equal.
  f_equal. lia.
Qed.

Lemma rd_insert d off off' b : 0 <= off -> 0 <= off' -> off ≠ off' ->
  rd (<[Z.to_nat off := b]> d) off' = rd d off'.
Proof.
  intros ???. unfold rd. rewrite decide_True by done.
  rewrite list_lookup_insert_ne by lia. by rewrite decide_True.
Qed.

Lemma rd_insert_eq d off b b0 : rd d off = Some b0 ->
  rd (<[Z.to_nat off := b]> d) off = Some b.
Proof.
  intros H. pose proof (rd_bounds _ _ _ H) as Hb. unfold rd, zlen in *.
  rewrite decide_True by lia. apply list_lookup_insert_eq. lia.
Qed.

Lemma zlen_insert (d : list Z) n b : zlen (<[n := b]> d) = zlen d.
Proof. unfold zlen. by rewrite length_insert. Qed.
#[export] Hint Rewrite zlen_insert : zlen.

Lemma load16_insert_0 d b off : 1 <= off ->
  load16 (<[Z.to_nat 0 := b]> d) off = load16 d off.
Proof. intros ?. unfold load16. by rewrite !rd_insert by lia. Qed.

(** What parsing does to the buffer: the padding bit of byte 0 is cleared. *)
Definition unpad (d : list Z) : list Z :=
  match rd d 0 with
  | Some b => <[0%nat := set_field 5 1 b 0]> d
  | None => d
  end.

Lemma CheckVersion_spec this b : m_pFixedHead this = true ->
  rd (m_pRtpData this) 0 = Some b ->
  CheckVersion this = Some (if decide (version b = 2) then RET_OK else RET_FAIL).
Proof.
  intros Hh Hb. unfold CheckVersion, GetVersion. rewrite Hh, Hb. cbn -[Z.eqb].
  unfold RTP_PACKET_VERSION. destruct (Z.eqb_spec 2 (version b)); by repeat case_decide.
Qed.

Lemma parse_padding_spec d this b0 : rd d 0 = Some b0 ->
  exists tail, parse_padding d this = Some
    (with_tail_len tail (attach (if padding b0 =? 1 then unpad d else d) this)) /\
  (if padding b0 =? 1 then rd d (zlen d - 1) = Some tail
   else tail = m_ulTailLen this).
Proof.
  intros H0. unfold parse_padding, unpad. rewrite H0. simpl.
  destruct (padding b0 =? 1) eqn:Hp.
  - pose proof (rd_bounds _ _ _ H0).
    destruct (rd_total d (zlen d - 1)) as [t Ht]; [lia|]. rewrite Ht.
    exists t. split; [|done]. cbn. unfold SetPadding, setter, update_byte. cbn.
    rewrite H0. cbn. rewrite (memcpy_byte _ _ _ _ H0). cbn.
    unfold with_data, with_tail_len, attach; cbn. by rewrite zlen_insert.
  - exists (m_ulTailLen this). split; [|done]. destruct this; done.
Qed.

(** Well-formed RTP packets with a header of [n] bytes, as the protocol has
    them: a fixed header of version 2, [csrc_len] sources, and the extension
    header with its words when the extension bit is set. *)
Inductive rtp_header (d : list Z) : Z -> Prop :=
| rtp_header_plain b0 :
    rd d 0 = Some b0 -> version b0 = 2 -> extension b0 = 0 ->
    12 + 4 * csrc_len b0 <= zlen d -> rtp_header d (12 + 4 * csrc_len b0)
| rtp_header_ext b0 l :
    rd d 0 = Some b0 -> version b0 = 2 -> extension b0 = 1 ->
    load16 d (12 + 4 * csrc_len b0 + 2) = Some l ->
    12 + 4 * csrc_len b0 + 4 + 4 * ntohs l <= zlen d ->
    rtp_header d (12 + 4 * csrc_len b0 + 4 + 4 * ntohs l).

Lemma rtp_header_range d n : rtp_header d n -> 12 <= n <= zlen d.
Proof.
  pose proof ntohs_fits as Hs.
  destruct 1 as [b0 ????|b0 l ?????]; pose proof (csrc_len_bound b0); [lia|].
  specialize (Hs l). unfold fits in Hs. lia.
Qed.

Lemma rtp_header_det d n m : rtp_header d n -> rtp_header d m -> n = m.
Proof. destruct 1, 1; simplify_eq; try lia; congruence. Qed.

(** Clearing the padding bit keeps the other fields of byte 0. *)
Lemma unpad_fields b :
  version (set_field 5 1 b 0) = version b /\
  extension (set_field 5 1 b 0) = extension b /\
  csrc_len (set_field 5 1 b 0) = csrc_len b /\ padding (set_field 5 1 b 0) = 0.
Proof.
  unfold version, extension, csrc_len, padding.
  rewrite !get_set_field_ne by lia. by rewrite get_set_field by lia.
Qed.

(** [parse_extension] computes the header of a version 2 packet. *)
Lemma parse_extension_spec this b0 :
  let d := m_pRtpData this in
  rd d 0 = Some b0 -> version b0 = 2 -> 12 + 4 * csrc_len b0 <= zlen d ->
  exists r p, parse_extension (12 + 4 * csrc_len b0) this = Some (r, p) /\
    m_pRtpData p = d /\ m_ulTailLen p = m_ulTailLen this /\
    m_pFixedHead p = m_pFixedHead this /\
    (r = RET_OK -> rtp_header d (m_ulHeadLen p)) /\
    (forall n, rtp_header d n -> r = RET_OK).
Proof.
  intros d H0 Hv Hlen. unfold parse_extension. fold d. rewrite H0. cbn.
  pose proof (csrc_len_bound b0).
  destruct (bit_cases 4 b0) as [He|He]; fold (extension b0) in He; rewrite He; cbn.
  { eexists _, _. split; [done|]. repeat split; try done.
    intros _. cbn. by constructor. }
  unfold RTP_EXTEND_HEADER_SIZE, RTP_EXTEND_PROFILE_LEN.
  destruct (Z.ltb_spec (zlen d) (12 + 4 * csrc_len b0 + 4)) as [Hs|Hs].
  { eexists _, _. split; [done|]. repeat split; try done.
    intros n [|b l Hb ? ? Hl Hn]; simplify_eq; [congruence|].
    pose proof (ntohs_fits l) as Hf. unfold fits in Hf. lia. }
  destruct (load16_total d (12 + 4 * csrc_len b0 + 2)) as [l Hl]; [lia..|].
  rewrite Hl. cbn. pose proof (ntohs_fits l) as Hf.
  assert (u32 (12 + 4 * csrc_len b0 + 4 + ntohs l * 4) =
          12 + 4 * csrc_len b0 + 4 + 4 * ntohs l) as ->.
  { unfold u32. rewrite wrap_small; unfold fits in *; lia. }
  destruct (Z.ltb_spec (zlen d) (12 + 4 * csrc_len b0 + 4 + 4 * ntohs l));
    eexists _, _; (split; [done|]); repeat split; try done.
  - intros n [|b l' Hb ? ? Hl' Hn]; simplify_eq; [congruence|lia].
  - intros _. cbn. by eapply rtp_header_ext.
Qed.

Lemma rd_unpad_ne d off : 1 <= off -> rd (unpad d) off = rd d off.
Proof.
  intros ?. unfold unpad. destruct (rd d 0); [|done].
  change 0%nat with (Z.to_nat 0). by rewrite rd_insert by lia.
Qed.

Lemma zlen_unpad d : zlen (unpad d) = zlen d.
Proof. unfold unpad. destruct (rd d 0); [apply zlen_insert|done]. Qed.

Lemma rd_unpad_0 d b : rd d 0 = Some b -> rd (unpad d) 0 = Some (set_field 5 1 b 0).
Proof.
  intros H. unfold unpad. rewrite H. change 0%nat with (Z.to_nat 0).
  by eapply rd_insert_eq.
Qed.

Lemma rtp_header_unpad d n : rtp_header (unpad d) n <-> rtp_header d n.
Proof.
  assert (forall off, 1 <= off -> load16 (unpad d) off = load16 d off) as HL.
  { intros off ?. unfold load16. by rewrite !rd_unpad_ne by lia. }
  destruct (rd d 0) as [b|] eqn:H0; [|unfold unpad; by rewrite H0].
  destruct (unpad_fields b) as (Ev & Ee & Ec & _).
  pose proof (csrc_len_bound b). split.
  - destruct 1 as [b' Hb|b' l Hb ?? Hl]; rewrite (rd_unpad_0 _ _ H0) in Hb;
      simplify_eq; rewrite zlen_unpad, ?Ec in *.
    + constructor; congruence.
    + rewrite HL in Hl by lia. eapply rtp_header_ext; eauto; congruence.
  - destruct 1 as [b' Hb|b' l Hb ?? Hl]; simplify_eq; rewrite <-Ec in *.
    + constructor; rewrite ?zlen_unpad; try congruence. by apply rd_unpad_0.
    + eapply rtp_header_ext; rewrite ?zlen_unpad; try congruence;
        [by apply rd_unpad_0|]. by rewrite HL by lia.
Qed.

(** ** The fields of a header, as the getters read them *)

Record rtp_fields : Type := {
  f_version : Z; f_padding : Z; f_extension : Z; f_csrc_len : Z;
  f_marker : Z; f_payload : Z; f_seq : Z; f_timestamp : Z; f_ssrc : Z }.

Definition fields_of (d : list Z) : option rtp_fields :=
  b0 ← rd d 0; b1 ← rd d 1; s ← load16 d 2; t ← load32 d 4; r ← load32 d 8;
  Some {| f_version := version b0; f_padding := padding b0;
          f_extension := extension b0; f_csrc_len := csrc_len b0;
          f_marker := marker b1; f_payload := payload b1;
          f_seq := ntohs s; f_timestamp := ntohl t; f_ssrc := r |}.

Definition with_payload (v : Z) (f : rtp_fields) : rtp_fields :=
  {| f_version := f_version f; f_padding := f_padding f;
     f_extension := f_extension f; f_csrc_len := f_csrc_len f;
     f_marker := f_marker f; f_payload := wrap 7 v; f_seq := f_seq f;
     f_timestamp := f_timestamp f; f_ssrc := f_ssrc f |}.
Definition with_marker (m : bool) (f : rtp_fields) : rtp_fields :=
  {| f_version := f_version f; f_padding := f_padding f;
     f_extension := f_extension f; f_csrc_len := f_csrc_len f;
     f_marker := Z.b2z m; f_payload := f_payload f; f_seq := f_seq f;
     f_timestamp := f_timestamp f; f_ssrc := f_ssrc f |}.
Definition with_seq (v : Z) (f : rtp_fields) : rtp_fields :=
  {| f_version := f_version f; f_padding := f_padding f;
     f_extension := f_extension f; f_csrc_len := f_csrc_len f;
     f_marker := f_marker f; f_payload := f_payload f; f_seq := u16 v;
     f_timestamp := f_timestamp f; f_ssrc := f_ssrc f |}.
Definition with_timestamp (v : Z) (f : rtp_fields) : rtp_fields :=
  {| f_version := f_version f; f_padding := f_padding f;
     f_extension := f_extension f; f_csrc_len := f_csrc_len f;
     f_marker := f_marker f; f_payload := f_payload f; f_seq := f_seq f;
     f_timestamp := u32 v; f_ssrc := f_ssrc f |}.
Definition with_ssrc (v : Z) (f : rtp_fields) : rtp_fields :=
  {| f_version := f_version f; f_padding := f_padding f;
     f_extension := f_extension f; f_csrc_len := f_csrc_len f;
     f_marker := f_marker f; f_payload := f_payload f; f_seq := f_seq f;
     f_timestamp := f_timestamp f; f_ssrc := u32 v |}.

(** [d'] is [d] with header fields changed to [f]; the payload is untouched. *)
Definition rewrites (d d' : list Z) (f : rtp_fields) : Prop :=
  fields_of d' = Some f /\ zlen d' = zlen d /\ drop 12 d' = drop 12 d.

Lemma load16_out d off src d' i : memcpy d off src = Some d' ->
  i + 2 <= off \/ off + zlen src <= i -> load16 d' i = load16 d i.
Proof.
  intros Hm Hi. unfold load16.
  by rewrite !(rd_memcpy_out _ _ _ _ _ Hm) by lia.
Qed.

Lemma load32_out d off src d' i : memcpy d off src = Some d' ->
  i + 4 <= off \/ off + zlen src <= i -> load32 d' i = load32 d i.
Proof.
  intros Hm Hi. unfold load32.
  by rewrite !(rd_memcpy_out _ _ _ _ _ Hm) by lia.
Qed.

Lemma load16_in d off z d' : memcpy d off (put16 z) = Some d' ->
  load16 d' off = Some (u16 z).
Proof.
  intros Hm. unfold load16.
  rewrite !(rd_memcpy_in _ _ _ _ _ Hm) by (rewrite zlen_put16; lia).
  rewrite Z.sub_diag. replace (off + 1 - off) with 1 by lia.
  change (Some (le16 (byte_n 0 z) (byte_n 1 z)) = Some (u16 z)).
  by rewrite le16_byte_n.
Qed.

Lemma load32_in d off z d' : memcpy d off (put32 z) = Some d' ->
  load32 d' off = Some (u32 z).
Proof.
  intros Hm. unfold load32.
  rewrite !(rd_memcpy_in _ _ _ _ _ Hm) by (rewrite zlen_put32; lia).
  rewrite Z.sub_diag. replace (off + 1 - off) with 1 by lia.
  replace (off + 2 - off) with 2 by lia. replace (off + 3 - off) with 3 by lia.
  change (Some (le32 (byte_n 0 z) (byte_n 1 z) (byte_n 2 z) (byte_n 3 z)) = Some (u32 z)).
  by rewrite le32_byte_n.
Qed.

(** Each setter changes its own field and nothing else. *)
Ltac header_inv H :=
  unfold fields_of in H |- *;
  repeat match type of H with
  | (?m ≫= _) = Some _ =>
      let E := fresh "E" in destruct m eqn:E; [cbn in H|done]
  end; simplify_eq.

Lemma update_byte_eq off g this b : rd (m_pRtpData this) off = Some b ->
  update_byte off g this =
    Some (with_data (<[Z.to_nat off := g b]> (m_pRtpData this)) this).
Proof. intros H. unfold update_byte. rewrite H. cbn. by rewrite (memcpy_byte _ _ _ _ H). Qed.

Lemma setter_ok f this this' : m_pFixedHead this = true ->
  f this = Some this' -> setter f this = Some (RET_OK, this').
Proof. unfold setter. intros -> ->. done. Qed.

Lemma update_byte_0 g this f : fields_of (m_pRtpData this) = Some f ->
  exists d', update_byte 0 g this = Some (with_data d' this) /\
    zlen d' = zlen (m_pRtpData this) /\
    drop 12 d' = drop 12 (m_pRtpData this) /\
    forall b0, rd (m_pRtpData this) 0 = Some b0 -> fields_of d' =
     Some {| f_version := version (g b0); f_padding := padding (g b0);
             f_extension := extension (g b0); f_csrc_len := csrc_len (g b0);
             f_marker := f_marker f; f_payload := f_payload f; f_seq := f_seq f;
             f_timestamp := f_timestamp f; f_ssrc := f_ssrc f |}.
Proof.
  intros H. header_inv H. unfold update_byte.
  rewrite E. cbn. pose proof (memcpy_byte _ _ _ (g z) E) as Hm.
  rewrite Hm. cbn. eexists. split; [done|].
  split; [by apply zlen_insert|]. split; [by apply (drop_memcpy _ _ _ _ _ Hm)|].
  intros b0 [= <-]. rewrite (rd_insert_eq _ 0 _ z) by done.
  rewrite !(rd_memcpy_out _ _ _ _ _ Hm) by zl.
  rewrite !(load16_out _ _ _ _ _ Hm), !(load32_out _ _ _ _ _ Hm) by zl.
  rewrite E0, E1, E2, E3. done.
Qed.

Lemma update_byte_1 g this f : fields_of (m_pRtpData this) = Some f ->
  exists d', update_byte 1 g this = Some (with_data d' this) /\
    zlen d' = zlen (m_pRtpData this) /\
    drop 12 d' = drop 12 (m_pRtpData this) /\
    forall b1, rd (m_pRtpData this) 1 = Some b1 -> fields_of d' =
     Some {| f_version := f_version f; f_padding := f_padding f;
             f_extension := f_extension f; f_csrc_len := f_csrc_len f;
             f_marker := marker (g b1); f_payload := payload (g b1);
             f_seq := f_seq f; f_timestamp := f_timestamp f; f_ssrc := f_ssrc f |}.
Proof.
  intros H. header_inv H. unfold update_byte.
  rewrite E0. cbn. pose proof (memcpy_byte _ _ _ (g z0) E0) as Hm.
  rewrite Hm. cbn. eexists. split; [done|].
  split; [by apply zlen_insert|]. split; [by apply (drop_memcpy _ _ _ _ _ Hm)|].
  intros b1 [= <-]. rewrite (rd_insert_eq _ 1 _ z0) by done.
  rewrite !(rd_memcpy_out _ _ _ _ _ Hm) by zl.
  rewrite !(load16_out _ _ _ _ _ Hm), !(load32_out _ _ _ _ _ Hm) by zl.
  rewrite E, E1, E2, E3. done.
Qed.

Lemma fields_of_ok d : 12 <= zlen d -> exists f, fields_of d = Some f.
Proof.
  intros Hd. unfold fields_of, load16, load32.
  repeat match goal with
  | |- context [rd d ?i] =>
      let E := fresh in destruct (rd_total d i ltac:(lia)) as [? E]; rewrite E; cbn
  end. eauto.
Qed.

Lemma fields_of_length d f : fields_of d = Some f -> 12 <= zlen d.
Proof.
  intros H. header_inv H. unfold load32 in E3.
  apply bind_Some in E3 as (? & _ & (? & _ & (? & _ & (? & Hl & _)%bind_Some)%bind_Some)%bind_Some).
  apply rd_bounds in Hl. lia.
Qed.

Lemma field_of_byte_0 d f b : fields_of d = Some f -> rd d 0 = Some b ->
  f_version f = version b /\ f_padding f = padding b /\
  f_extension f = extension b /\ f_csrc_len f = csrc_len b.
Proof. intros H Hb. header_inv H. done. Qed.

Lemma field_of_byte_1 d f b : fields_of d = Some f -> rd d 1 = Some b ->
  f_marker f = marker b /\ f_payload f = payload b.
Proof. intros H Hb. header_inv H. done. Qed.

Section Setters.
  Context (this : CRtpPacket) (f : rtp_fields).
  Hypothesis Hhead : m_pFixedHead this = true.
  Hypothesis Hf : fields_of (m_pRtpData this) = Some f.

Lemma SetPayloadType_spec v : exists d',
    SetPayloadType v this = Some (RET_OK, with_data d' this) /\
    rewrites (m_pRtpData this) d' (with_payload v f).
  Proof.
    destruct (update_byte_1 (fun b => set_field 0 7 b v) _ _ Hf)
      as (d' & Hu & Hz & Hd & Hn).
    exists d'. split; [by apply setter_ok|]. split; [|done].
    destruct (rd_total (m_pRtpData this) 1) as [b Hb].
    { apply fields_of_length in Hf. lia. }
    rewrite (Hn _ Hb). destruct (field_of_byte_1 _ _ _ Hf Hb) as [Em Ep].
    unfold marker, payload, with_payload. rewrite get_set_field by lia.
    rewrite get_set_field_ne by lia. by rewrite Em.
  Qed.

Lemma SetMarker_spec m : exists d',
    SetMarker m this = Some (RET_OK, with_data d' this) /\
    rewrites (m_pRtpData this) d' (with_marker m f).
  Proof.
    destruct (update_byte_1 (fun b => set_field 7 1 b (Z.b2z m)) _ _ Hf)
      as (d' & Hu & Hz & Hd & Hn).
    exists d'. split; [by apply setter_ok|]. split; [|done].
    destruct (rd_total (m_pRtpData this) 1) as [b Hb].
    { apply fields_of_length in Hf. lia. }
    rewrite (Hn _ Hb). destruct (field_of_byte_1 _ _ _ Hf Hb) as [Em Ep].
    unfold marker, payload, with_marker. rewrite get_set_field by lia.
    rewrite get_set_field_ne by lia. rewrite Ep. by destruct m.
  Qed.

Lemma SetSeqNum_spec v : exists d',
    SetSeqNum v this = Some (RET_OK, with_data d' this) /\
    rewrites (m_pRtpData this) d' (with_seq v f).
  Proof.
    pose proof (fields_of_length _ _ Hf).
    destruct (memcpy_total (m_pRtpData this) 2 (put16 (ntohs v))) as [d' Hm]; [lia|zl|].
    exists d'. split.
    { apply setter_ok; [done|]. unfold store. by rewrite Hm. }
    split; [|split; [by eapply memcpy_length|eapply drop_memcpy; [done|zl]]].
    pose proof Hf as H0. header_inv H0. unfold fields_of.
    rewrite !(rd_memcpy_out _ _ _ _ _ Hm), (load16_in _ _ _ _ Hm) by zl.
    rewrite !(load32_out _ _ _ _ _ Hm) by zl.
    rewrite E, E0, E2, E3. cbn. by rewrite ntohs_ntohs.
  Qed.

Lemma SetTimeStamp_spec v : exists d',
    SetTimeStamp v this = Some (RET_OK, with_data d' this) /\
    rewrites (m_pRtpData this) d' (with_timestamp v f).
  Proof.
    pose proof (fields_of_length _ _ Hf).
    destruct (memcpy_total (m_pRtpData this) 4 (put32 (ntohl v))) as [d' Hm]; [lia|zl|].
    exists d'. split.
    { apply setter_ok; [done|]. unfold store. by rewrite Hm. }
    split; [|split; [by eapply memcpy_length|eapply drop_memcpy; [done|zl]]].
    pose proof Hf as H0. header_inv H0. unfold fields_of.
    rewrite !(rd_memcpy_out _ _ _ _ _ Hm), (load32_in _ _ _ _ Hm) by zl.
    rewrite !(load16_out _ _ _ _ _ Hm), (load32_out _ _ _ _ _ Hm) by zl.
    rewrite E, E0, E1, E3. cbn. by rewrite ntohl_ntohl.
  Qed.

Lemma SetSSRC_spec v : exists d',
    SetSSRC v this = Some (with_data d' this) /\
    rewrites (m_pRtpData this) d' (with_ssrc v f).
  Proof.
    pose proof (fields_of_length _ _ Hf).
    destruct (memcpy_total (m_pRtpData this) 8 (put32 v)) as [d' Hm]; [lia|zl|].
    exists d'. split.
    { unfold SetSSRC, store. by rewrite Hhead, Hm. }
    split; [|split; [by eapply memcpy_length|eapply drop_memcpy; [done|zl]]].
    pose proof Hf as H0. header_inv H0. unfold fields_of.
    rewrite !(rd_memcpy_out _ _ _ _ _ Hm), (load32_in _ _ _ _ Hm) by zl.
    rewrite !(load16_out _ _ _ _ _ Hm), (load32_out _ _ _ _ _ Hm) by zl.
    by rewrite E, E0, E1, E2.
  Qed.

Lemma getters_spec :
    GetSeqNum this = Some (f_seq f) /\ GetTimeStamp this = Some (f_timestamp f) /\
    GetPayloadType this = Some (f_payload f) /\ GetSSRC this = Some (f_ssrc f) /\
    GetMarker this = Some (negb (f_marker f =? 0)).
  Proof.
    pose proof Hf as H0. header_inv H0.
    unfold GetSeqNum, GetTimeStamp, GetPayloadType, GetSSRC, GetMarker, getter.
    rewrite Hhead, E0, E1, E2, E3. done.
  Qed.
End Setters.

(** The five setters every encapsulator of this server calls before a packet
    is handed on ([CPsRtpEncap::handlePsStream], [CEsRtpEncap]). *)
Definition SetHeader (pt seq ts ssrc : Z) (m : bool) (this : CRtpPacket)
    : option CRtpPacket :=
  '(_, this) ← SetPayloadType pt this;
  '(_, this) ← SetSeqNum seq this;
  '(_, this) ← SetTimeStamp ts this;
  this ← SetSSRC ssrc this;
  '(_, this) ← SetMarker m this;
  Some this.

Definition header_fields (pt seq ts ssrc : Z) (m : bool) (f : rtp_fields) : rtp_fields :=
  with_marker m (with_ssrc ssrc (with_timestamp ts (with_seq seq (with_payload pt f)))).

Lemma rewrites_trans d d' d'' f g : rewrites d d' f -> rewrites d' d'' g ->
  rewrites d d'' g.
Proof.
  unfold rewrites. intros (_ & Hl & Hd) (Hf & Hl' & Hd').
  split; [done|]. split; congruence.
Qed.

Lemma with_data_twice d d' this : with_data d' (with_data d this) = with_data d' this.
Proof. done. Qed.

Lemma SetHeader_spec pt seq ts ssrc m this f :
  m_pFixedHead this = true -> fields_of (m_pRtpData this) = Some f ->
  exists d', SetHeader pt seq ts ssrc m this = Some (with_data d' this) /\
    rewrites (m_pRtpData this) d' (header_fields pt seq ts ssrc m f).
Proof.
  intros Hh Hf. unfold SetHeader.
  destruct (SetPayloadType_spec _ _ Hh Hf pt) as (d1 & -> & R1). cbn.
  destruct (SetSeqNum_spec (with_data d1 this) _ Hh (proj1 R1) seq) as (d2 & -> & R2);
    cbn; rewrite with_data_twice.
  destruct (SetTimeStamp_spec (with_data d2 this) _ Hh (proj1 R2) ts) as (d3 & -> & R3);
    cbn; rewrite with_data_twice.
  destruct (SetSSRC_spec (with_data d3 this) _ Hh (proj1 R3) ssrc) as (d4 & -> & R4);
    cbn; rewrite with_data_twice.
  destruct (SetMarker_spec (with_data d4 this) _ Hh (proj1 R4) m) as (d5 & -> & R5);
    cbn; rewrite with_data_twice.
  exists d5. split; [done|].
  eapply rewrites_trans; [exact R1|]. eapply rewrites_trans; [exact R2|].
  eapply rewrites_trans; [exact R3|]. eapply rewrites_trans; [exact R4|exact R5].
Qed.

(** A header without padding, sources and extension parses to 12 bytes. *)
Definition plain_fields (f : rtp_fields) : Prop :=
  f_version f = 2 /\ f_padding f = 0 /\ f_extension f = 0 /\ f_csrc_len f = 0.

Lemma ParsePacket_plain d f this : fields_of d = Some f -> plain_fields f ->
  ParsePacket (Some d) this = Some (RET_OK, with_head_len 12 (attach d this)).
Proof.
  intros Hf (Hv & Hp & He & Hc). pose proof (fields_of_length _ _ Hf) as Hl.
  destruct (rd_total d 0) as [b0 H0]; [lia|].
  destruct (field_of_byte_0 _ _ _ Hf H0) as (Ev & Ep & Ee & Ec).
  cbn -[rd]. rewrite (proj2 (Z.ltb_ge _ _)) by (unfold RTP_FIXED_HEADER_SIZE; lia).
  destruct (parse_padding_spec d this b0 H0) as (t & -> & Ht).
  rewrite <-Ep, Hp in *. cbn in Ht |- *. rewrite H0. cbn.
  rewrite <-Ec, Hc. change (u32 _) with 12.
  rewrite (proj2 (Z.ltb_ge _ _)) by lia.
  rewrite <-Ev, Hv. cbn. unfold parse_extension. cbn. rewrite H0. cbn.
  rewrite <-Ee, He. cbn. by rewrite Ht.
Qed.

Lemma GeneratePacket_spec d this : 12 <= zlen d ->
  exists d', GeneratePacket (Some d) this =
      Some (RET_OK, with_head_len 12 (attach d' this)) /\
    zlen d' = zlen d /\ drop 12 d' = replicate (length d - 12) 0 /\
    fields_of d' = Some {| f_version := 2; f_padding := 0; f_extension := 0;
      f_csrc_len := 0; f_marker := 0; f_payload := 96; f_seq := 0;
      f_timestamp := 0; f_ssrc := 0 |}.
Proof.
  intros Hd. unfold zlen in Hd.
  assert (exists n, length d = 12 + n)%nat as [n Hn].
  { exists (length d - 12)%nat. lia. }
  exists ([128; 96; 0; 0; 0; 0; 0; 0; 0; 0; 0; 0] ++ replicate n 0).
  unfold GeneratePacket. rewrite Hn. split; [|split; [|split]].
  - unfold attach, zlen. rewrite length_replicate. cbn -[update_byte].
    do 4 (erewrite update_byte_eq by reflexivity; cbn -[update_byte]).
    rewrite length_replicate. done.
  - rewrite zlen_app. unfold zlen. rewrite length_replicate. simpl length. lia.
  - change (drop 12 _) with (replicate n 0). f_equal. lia.
  - done.
Qed.

(** ** Properties *)

Lemma ParsePacket_spec d this :
  exists r p, ParsePacket (Some d) this = Some (r, p) /\
    (r = RET_OK -> rtp_header d (GetHeadLen p) /\ 12 <= GetHeadLen p <= zlen d) /\
    (forall n, rtp_header d n -> r = RET_OK /\ GetHeadLen p = n).
Proof.
  unfold ParsePacket, RTP_FIXED_HEADER_SIZE, RTP_CSRC_LEN.
  destruct (Z.ltb_spec (zlen d) 12) as [Hl|Hl].
  { eexists _, _. split; [done|]. split; [done|].
    intros n Hn. apply rtp_header_range in Hn. lia. }
  destruct (rd_total d 0) as [b0 H0]; [lia|].
  destruct (parse_padding_spec d this b0 H0) as (t & -> & _). cbn -[parse_extension CheckVersion].
  set (d1 := if padding b0 =? 1 then unpad d else d).
  assert (exists b1, rd d1 0 = Some b1 /\ version b1 = version b0 /\
            csrc_len b1 = csrc_len b0) as (b1 & H1 & Ev & Ec).
  { unfold d1. destruct (padding b0 =? 1); [|eauto].
    destruct (unpad_fields b0) as (? & ? & ? & ?). eauto using rd_unpad_0. }
  assert (forall n, rtp_header d1 n <-> rtp_header d n) as Heq.
  { intros n. unfold d1. destruct (padding b0 =? 1); [apply rtp_header_unpad|done]. }
  assert (zlen d1 = zlen d) as Hz.
  { unfold d1. destruct (padding b0 =? 1); [apply zlen_unpad|done]. }
  rewrite H1. cbn -[parse_extension CheckVersion].
  pose proof (csrc_len_bound b1) as Hcb.
  assert (u32 (12 + csrc_len b1 * 4) = 12 + 4 * csrc_len b1) as ->.
  { unfold u32. rewrite wrap_small; unfold fits; lia. }
  assert (forall n, rtp_header d n -> version b0 = 2 /\ 12 + 4 * csrc_len b1 <= zlen d)
    as Hnec.
  { intros n [b ?|b l ? ? ? ? ?]; simplify_eq; [lia|].
    pose proof (ntohs_fits l) as Hf. unfold fits in Hf. lia. }
  destruct (Z.ltb_spec (zlen d) (12 + 4 * csrc_len b1)) as [Hs|Hs].
  { eexists _, _. split; [done|]. split; [done|]. intros n Hn.
    apply Hnec in Hn. lia. }
  rewrite (CheckVersion_spec _ b1) by done. cbn -[parse_extension].
  destruct (decide (version b1 = 2)) as [Hv|Hv]; cbn -[parse_extension].
  - set (p1 := with_tail_len t (attach d1 this)).
    destruct (parse_extension_spec p1 b1) as (r & p & -> & Hp & _ & _ & Hok & Hno);
      [done|done|by (change (m_pRtpData p1) with d1; lia)|].
    exists r, p. split; [done|]. change (m_pRtpData p1) with d1 in *. split.
    + intros Hr. apply Hok in Hr. apply Heq in Hr.
      split; [done|by apply rtp_header_range in Hr].
    + intros n Hn. apply Heq in Hn. pose proof (Hno _ Hn) as Hr.
      split; [done|]. eapply rtp_header_det; [by apply Hok|done].
  - eexists _, _. split; [done|]. split; [done|]. intros n Hn.
    apply Hnec in Hn as [Hn _]. congruence.
Qed.

(** C28: [ParsePacket] never reads or writes outside the packet, it accepts
    exactly the well-formed version 2 packets, and on these the header length
    it reports is the one of the protocol and lies within the packet. *)
Theorem ParsePacket_correct d this :
  exists r p, ParsePacket (Some d) this = Some (r, p) /\
    (r = RET_OK -> rtp_header d (GetHeadLen p) /\ 12 <= GetHeadLen p <= zlen d) /\
    (forall n, rtp_header d n -> r = RET_OK /\ GetHeadLen p = n).
Proof. apply ParsePacket_spec. Qed.

(** A parsed object points at the packet. *)
Lemma ParsePacket_attached d this p : ParsePacket (Some d) this = Some (RET_OK, p) ->
  m_pFixedHead p = true /\ zlen (m_pRtpData p) = zlen d.
Proof.
  unfold ParsePacket, RTP_FIXED_HEADER_SIZE.
  destruct (Z.ltb_spec (zlen d) 12); [done|].
  destruct (rd_total d 0) as [b0 H0]; [lia|].
  destruct (parse_padding_spec d this b0 H0) as (t & -> & _). cbn -[parse_extension CheckVersion].
  set (p1 := with_tail_len _ _).
  assert (zlen (m_pRtpData p1) = zlen d) as Hz.
  { unfold p1. cbn. destruct (padding b0 =? 1); [apply zlen_unpad|done]. }
  intros (b1 & H1 & Hp)%bind_Some. case_match; [done|].
  apply bind_Some in Hp as (r & _ & Hp). case_decide; [done|].
  unfold parse_extension in Hp. apply bind_Some in Hp as (b2 & _ & Hp).
  case_match; [by simplify_eq|]. case_match; [done|].
  apply bind_Some in Hp as (l & _ & Hp). case_match; by simplify_eq.
Qed.

(** C30: a header written by [GeneratePacket] and the setters is read back by
    [ParsePacket] and the getters, each value cut to the width of its field;
    the header is 12 bytes, and the bytes after it are the zeroes that
    [GeneratePacket] left. *)
Theorem GeneratePacket_roundtrip d pt seq ts ssrc m this (Hd : 12 <= zlen d) :
  exists g p q, GeneratePacket (Some d) this = Some (RET_OK, g) /\
    SetHeader pt seq ts ssrc m g = Some p /\
    ParsePacket (Some (m_pRtpData p)) CRtpPacket_new = Some (RET_OK, q) /\
    GetHeadLen q = 12 /\ GetTailLen q = 0 /\
    GetPayloadType q = Some (wrap 7 pt) /\ GetSeqNum q = Some (u16 seq) /\
    GetTimeStamp q = Some (u32 ts) /\ GetSSRC q = Some (u32 ssrc) /\
    GetMarker q = Some m /\
    drop 12 (m_pRtpData q) = replicate (length d - 12) 0.
Proof.
  destruct (GeneratePacket_spec d this Hd) as (d1 & -> & Hz & Hr & Hf).
  set (g := with_head_len 12 (attach d1 this)).
  destruct (SetHeader_spec pt seq ts ssrc m g _ eq_refl Hf) as (d2 & Hs & R).
  exists g, (with_data d2 g). destruct R as (Hf2 & Hz2 & Hr2).
  assert (plain_fields (header_fields pt seq ts ssrc m
    {| f_version := 2; f_padding := 0; f_extension := 0; f_csrc_len := 0;
       f_marker := 0; f_payload := 96; f_seq := 0; f_timestamp := 0; f_ssrc := 0 |}))
    as Hp by done.
  pose proof (ParsePacket_plain _ _ CRtpPacket_new Hf2 Hp) as Hq.
  exists (with_head_len 12 (attach d2 CRtpPacket_new)).
  destruct (getters_spec (with_head_len 12 (attach d2 CRtpPacket_new)) _ eq_refl Hf2)
    as (? & ? & ? & ? & Hm).
  repeat split; try done.
  - rewrite Hm. by destruct m.
  - exact (eq_trans Hr2 Hr).
Qed.

Lemma GeneratePacket_roundtrip_witness :
  12 <= zlen (replicate 20 7) /\
  exists g p q, GeneratePacket (Some (replicate 20 7)) CRtpPacket_new = Some (RET_OK, g) /\
    SetHeader 96 65536 9 999999999 true g = Some p /\
    ParsePacket (Some (m_pRtpData p)) CRtpPacket_new = Some (RET_OK, q) /\
    GetHeadLen q = 12 /\ GetTailLen q = 0 /\
    GetPayloadType q = Some (wrap 7 96) /\ GetSeqNum q = Some (u16 65536) /\
    GetTimeStamp q = Some (u32 9) /\ GetSSRC q = Some (u32 999999999) /\
    GetMarker q = Some true /\
    drop 12 (m_pRtpData q) = replicate (length (replicate 20 7) - 12) 0.
Proof.
  assert (12 <= zlen (replicate 20 7)) as H by (vm_compute; discriminate).
  split; [exact H|].
  exact (GeneratePacket_roundtrip (replicate 20 7) 96 65536 9 999999999 true
           CRtpPacket_new H).
Defined.
