(* ===== verification/RtpFrameOrganizer.v ===== *)
(** * Frame reassembly: [svs_adapter_rtp_frame_organizer.cpp]

    [CRtpFrameOrganizer] collects the packets of a frame (one RTP timestamp)
    in the order of their sequence numbers, in at most [m_unMaxCacheFrameNum]
    frame records taken from a free list, and hands the oldest frame to its
    [IRtpFrameHandler] once a packet with the marker bit is there and the
    sequence numbers have no gap.

    The calls that leave the component (the duplicate taken of a block, a block
    given back to [CMediaBlockBuffer], a frame handed to the handler) are the
    [event]s of an operation, in the order of the calls; none of them returns a
    value the organizer uses. [None] is an access outside a container.

    [ACE_Message_Block::duplicate] is the parameter [duplicate]. *)

From S2P Require Import Prelude RtpPacket.
Open Scope Z_scope.

(** A message block: its identity and the bytes from [rd_ptr] to [wr_ptr]. *)
Record mblock : Set := { mb_id : Z; mb_data : list Z }.

#[export] Instance mblock_eq_dec : EqDecision mblock.
Proof. solve_decision. Defined.

Record RTP_PACK_INFO_S : Set := {
  usSeq : Z; unTimestamp : Z; bMarker : bool; pRtpMsgBlock : mblock }.

Record RTP_FRAME_INFO_S : Set := {
  fi_timestamp : Z; fi_bMarker : bool; PacketQueue : list RTP_PACK_INFO_S }.

Record CRtpFrameOrganizer : Set := {
  m_unMaxCacheFrameNum : Z;
  m_pRtpFrameHandler : bool;                       (* not NULL *)
  m_RtpFrameMap : gmap Z RTP_FRAME_INFO_S;
  m_RtpFrameFreeList : list RTP_FRAME_INFO_S }.

Inductive event : Set :=
| EvDup (b : mblock)                 (* pRtpBlock->duplicate() succeeded *)
| EvFree (b : mblock)                (* CMediaBlockBuffer::freeMediaBlock *)
| EvFrame (bs : list mblock).        (* IRtpFrameHandler::handleRtpFrame *)

Definition new_frame_info : RTP_FRAME_INFO_S :=
  {| fi_timestamp := 0; fi_bMarker := false; PacketQueue := [] |}.

Definition CRtpFrameOrganizer_new : CRtpFrameOrganizer :=
  {| m_unMaxCacheFrameNum := 0; m_pRtpFrameHandler := false;
     m_RtpFrameMap := ∅; m_RtpFrameFreeList := [] |}.

Definition with_maps (m : gmap Z RTP_FRAME_INFO_S) (l : list RTP_FRAME_INFO_S)
    (this : CRtpFrameOrganizer) : CRtpFrameOrganizer :=
  {| m_unMaxCacheFrameNum := m_unMaxCacheFrameNum this;
     m_pRtpFrameHandler := m_pRtpFrameHandler this;
     m_RtpFrameMap := m; m_RtpFrameFreeList := l |}.

(** [init]: the frame records are allocated up front. *)
Definition init (pHandler : bool) (unMaxFrameCache : Z) (this : CRtpFrameOrganizer)
    : SVS_RET_CODE * CRtpFrameOrganizer :=
  if negb pHandler || (unMaxFrameCache =? 0) then (RET_FAIL, this)
  else (RET_OK,
    {| m_unMaxCacheFrameNum := unMaxFrameCache; m_pRtpFrameHandler := pHandler;
       m_RtpFrameMap := m_RtpFrameMap this;
       m_RtpFrameFreeList := m_RtpFrameFreeList this ++
         replicate (Z.to_nat unMaxFrameCache) new_frame_info |}).

(** A [std::map] is traversed in the order of its keys. *)
Definition key_le (a b : Z * RTP_FRAME_INFO_S) : Prop := a.1 <= b.1.
#[export] Instance key_le_dec a b : Decision (key_le a b).
Proof. unfold key_le. apply _. Defined.
Definition in_order (m : gmap Z RTP_FRAME_INFO_S) : list RTP_FRAME_INFO_S :=
  (merge_sort key_le (map_to_list m)).*2.

Definition free_queue (q : list RTP_PACK_INFO_S) : list event :=
  (fun p => EvFree (pRtpMsgBlock p)) <$> q.

Definition release (this : CRtpFrameOrganizer) : CRtpFrameOrganizer * list event :=
  (with_maps ∅ [] this,
   concat ((fun f => free_queue (PacketQueue f)) <$> in_order (m_RtpFrameMap this))).

(** [insertRange]: lines 204-215, [i] from 0 to [unSize] included. *)
Fixpoint insertRange_loop (n i : nat) (q : list RTP_PACK_INFO_S)
    (info : RTP_PACK_INFO_S) : option (SVS_RET_CODE * list RTP_PACK_INFO_S) :=
  match n with
  | O => Some (RET_FAIL, q)
  | S n =>
    p ← q !! i;
    if usSeq info <=? usSeq p
    then Some (RET_OK, take i q ++ info :: drop i q)
    else insertRange_loop n (S i) q info
  end.

Definition insertRange (q : list RTP_PACK_INFO_S) (info : RTP_PACK_INFO_S)
    : option (SVS_RET_CODE * list RTP_PACK_INFO_S) :=
  insertRange_loop (S (length q)) 0 q info.

(** [insert]: on the packet queue of the frame. *)
Definition insert_packet (q : list RTP_PACK_INFO_S) (info : RTP_PACK_INFO_S)
    : option (SVS_RET_CODE * list RTP_PACK_INFO_S) :=
  match q with
  | [] => Some (RET_OK, [info])
  | first :: _ =>
    last ← last q;
    if usSeq last <=? usSeq info then Some (RET_OK, q ++ [info])
    else if usSeq info <? usSeq first then Some (RET_OK, info :: q)
    else insertRange q info
  end.

Definition InsertFrame (ts : Z) (this : CRtpFrameOrganizer)
    : option RTP_FRAME_INFO_S * CRtpFrameOrganizer :=
  match m_RtpFrameFreeList this with
  | [] => (None, this)
  | f :: free =>
    let f := {| fi_timestamp := ts; fi_bMarker := false;
                PacketQueue := PacketQueue f |} in
    (Some f,
     with_maps (match m_RtpFrameMap this !! ts with
                | Some _ => m_RtpFrameMap this      (* map::insert keeps the old *)
                | None => <[ts := f]> (m_RtpFrameMap this)
                end) free this)
  end.

Definition small_step (small : option RTP_FRAME_INFO_S) (cur : RTP_FRAME_INFO_S)
    : option RTP_FRAME_INFO_S :=
  match small with
  | None => Some cur
  | Some s => if fi_timestamp cur <? fi_timestamp s then Some cur else Some s
  end.

Definition GetSmallFrame (this : CRtpFrameOrganizer) : option RTP_FRAME_INFO_S :=
  fold_left small_step (in_order (m_RtpFrameMap this)) None.

Definition releaseRtpPacket (f : option RTP_FRAME_INFO_S) (this : CRtpFrameOrganizer)
    : CRtpFrameOrganizer * list event :=
  match f with
  | None => (this, [])
  | Some f =>
    match m_RtpFrameMap this !! fi_timestamp f with
    | None => (this, [])
    | Some _ =>
      (with_maps (delete (fi_timestamp f) (m_RtpFrameMap this))
         (m_RtpFrameFreeList this ++
            [{| fi_timestamp := fi_timestamp f; fi_bMarker := fi_bMarker f;
                PacketQueue := [] |}]) this,
       free_queue (PacketQueue f))
    end
  end.

(** The loop of [checkFrame]: [usSeq] is a [uint16_t]. *)
Fixpoint no_gap (seq : Z) (q : list RTP_PACK_INFO_S) : bool :=
  match q with
  | [] => true
  | p :: q => (seq =? usSeq p) && no_gap (u16 (seq + 1)) q
  end.

Definition handleFinishedFrame (f : RTP_FRAME_INFO_S) (this : CRtpFrameOrganizer)
    : list event :=
  match PacketQueue f with
  | [] => []
  | _ => if m_pRtpFrameHandler this then [EvFrame (pRtpMsgBlock <$> PacketQueue f)]
         else []
  end.

Definition checkFrame (this : CRtpFrameOrganizer) : CRtpFrameOrganizer * list event :=
  match GetSmallFrame this with
  | None => (this, [])
  | Some f =>
    match PacketQueue f with
    | [] => (this, [])
    | first :: _ =>
      if negb (fi_bMarker f) then (this, [])
      else if negb (no_gap (usSeq first) (PacketQueue f)) then (this, [])
      else
        let ev := handleFinishedFrame f this in
        let '(this, ev') := releaseRtpPacket (Some f) this in
        (this, ev ++ ev')
    end
  end.

(** [insertRtpPacket] from line 85: the packet is parsed, [info] describes it. *)
Definition insert_info (info : RTP_PACK_INFO_S) (this : CRtpFrameOrganizer)
    : option (SVS_RET_CODE * CRtpFrameOrganizer * list event) :=
  let '(frame, this) :=
    match m_RtpFrameMap this !! unTimestamp info with
    | Some f => (Some f, this)
    | None => InsertFrame (unTimestamp info) this
    end in
  match frame with
  | None =>
    let '(this, ev) := releaseRtpPacket (GetSmallFrame this) this in
    Some (RET_FAIL, this, EvFree (pRtpMsgBlock info) :: ev)
  | Some f =>
    let mark := if fi_bMarker f then true else bMarker info in
    '(r, q) ← insert_packet (PacketQueue f) info;
    let f := {| fi_timestamp := fi_timestamp f; fi_bMarker := mark;
                PacketQueue := q |} in
    let this := with_maps (<[unTimestamp info := f]> (m_RtpFrameMap this))
                  (m_RtpFrameFreeList this) this in
    if decide (r ≠ RET_OK)
    then Some (RET_FAIL, this, [EvFree (pRtpMsgBlock info)])
    else let '(this, ev) := checkFrame this in Some (RET_OK, this, ev)
  end.

Section Organizer.
  Context (duplicate : mblock -> option mblock).

Definition insertRtpPacket (pRtpBlock : option mblock) (this : CRtpFrameOrganizer)
      : option (SVS_RET_CODE * CRtpFrameOrganizer * list event) :=
    match pRtpBlock with
    | None => Some (RET_FAIL, this, [])
    | Some b =>
      '(r, p) ← ParsePacket (Some (mb_data b)) CRtpPacket_new;
      if decide (r ≠ RET_OK) then Some (RET_FAIL, this, [])
      else
        match duplicate {| mb_id := mb_id b; mb_data := m_pRtpData p |} with
        | None => Some (RET_FAIL, this, [])
        | Some mb =>
          m ← GetMarker p; s ← GetSeqNum p; t ← GetTimeStamp p;
          let info := {| usSeq := s; unTimestamp := t; bMarker := m;
                         pRtpMsgBlock := mb |} in
          '(r, this, ev) ← insert_info info this;
          Some (r, this, EvDup mb :: ev)
        end
    end.
End Organizer.

(** ** Ordered packet queues *)

Definition seqs (q : list RTP_PACK_INFO_S) : list Z := usSeq <$> q.
Definition ordered (q : list RTP_PACK_INFO_S) : Prop := StronglySorted Z.le (seqs q).

(** Insertion before the first packet that is not smaller. *)
Fixpoint ordered_insert (info : RTP_PACK_INFO_S) (q : list RTP_PACK_INFO_S)
    : list RTP_PACK_INFO_S :=
  match q with
  | [] => [info]
  | p :: q' => if usSeq info <=? usSeq p then info :: q
               else p :: ordered_insert info q'
  end.

Lemma ordered_insert_perm info q : ordered_insert info q ≡ₚ info :: q.
Proof.
  induction q as [|p q IH]; simpl; [done|]. case_match; [done|].
  rewrite IH. apply Permutation_swap.
Qed.

Lemma ordered_cons p q : ordered (p :: q) <->
  ordered q /\ Forall (fun p' => usSeq p <= usSeq p') q.
Proof.
  unfold ordered, seqs. rewrite fmap_cons. split.
  - intros H. inversion H as [|?? Hs Hf]; subst. by rewrite Forall_fmap in Hf.
  - intros [Hs Hf]. constructor; [done|]. by rewrite Forall_fmap.
Qed.

Lemma ordered_insert_ordered info q : ordered q -> ordered (ordered_insert info q).
Proof.
  induction q as [|p q IH]; simpl.
  - intros _. apply ordered_cons. split; [constructor|done].
  - intros [Ho Hf]%ordered_cons. destruct (Z.leb_spec (usSeq info) (usSeq p)).
    + apply ordered_cons. split; [by apply ordered_cons|].
      constructor; [done|]. eapply Forall_impl; [done|]. simpl. lia.
    + apply ordered_cons. split; [by apply IH|].
      rewrite ordered_insert_perm. constructor; [lia|done].
Qed.

Lemma ordered_snoc info q : ordered q ->
  Forall (fun p => usSeq p <= usSeq info) q -> ordered (q ++ [info]).
Proof.
  induction q as [|p q IH]; simpl; intros Ho Hf.
  - apply ordered_cons. split; [constructor|done].
  - apply ordered_cons in Ho as [Ho Hp]. apply Forall_cons in Hf as [? Hf].
    apply ordered_cons. split; [by apply IH|].
    rewrite Forall_app. split; [done|]. by constructor.
Qed.

Lemma ordered_last q l : ordered q -> last q = Some l ->
  Forall (fun p => usSeq p <= usSeq l) q.
Proof.
  revert l. induction q as [|p q IH]; intros l Ho Hl; [done|].
  apply ordered_cons in Ho as [Ho Hp]. destruct q as [|p' q].
  - simpl in Hl. simplify_eq. by constructor.
  - rewrite last_cons_cons in Hl. specialize (IH _ Ho Hl). constructor; [|done].
    apply Forall_cons in Hp as [? _]. apply Forall_cons in IH as [? _]. lia.
Qed.

(** The loop of [insertRange] finds the position [ordered_insert] finds, and
    stays in the queue when some packet is not smaller. *)
Lemma insertRange_loop_spec pre rest info :
  Exists (fun p => usSeq info <= usSeq p) rest ->
  insertRange_loop (S (length rest)) (length pre) (pre ++ rest) info =
    Some (RET_OK, pre ++ ordered_insert info rest).
Proof.
  revert pre. induction rest as [|p rest IH]; intros pre He; [by inversion He|].
  change (length (p :: rest)) with (S (length rest)).
  remember (S (length rest)) as n. cbn [insertRange_loop].
  rewrite lookup_app_r, Nat.sub_diag by done. cbn.
  destruct (Z.leb_spec (usSeq info) (usSeq p)).
  - by rewrite take_app_length, drop_app_length.
  - apply Exists_cons in He as [?|He]; [lia|]. subst n.
    specialize (IH (pre ++ [p]) He).
    rewrite length_app, Nat.add_1_r, <-!(assoc (++)) in IH. done.
Qed.

Lemma insertRange_spec q info : Exists (fun p => usSeq info <= usSeq p) q ->
  insertRange q info = Some (RET_OK, ordered_insert info q).
Proof. intros He. by apply (insertRange_loop_spec []). Qed.

Lemma insert_packet_spec q info : ordered q ->
  exists q', insert_packet q info = Some (RET_OK, q') /\ ordered q' /\ q' ≡ₚ info :: q.
Proof.
  intros Ho. destruct q as [|first q'] eqn:Hq.
  { exists [info]. repeat split; [|done]. apply ordered_cons. split; [constructor|done]. }
  assert (exists l, last q = Some l) as [l Hl].
  { subst q. apply last_is_Some. done. }
  rewrite <-Hq in *. unfold insert_packet. rewrite Hq, <-Hq, Hl. cbn.
  pose proof (ordered_last _ _ Ho Hl) as Hle.
  destruct (Z.leb_spec (usSeq l) (usSeq info)) as [H1|H1].
  { exists (q ++ [info]). split; [done|]. split.
    - apply ordered_snoc; [done|]. eapply Forall_impl; [done|]. simpl. lia.
    - by rewrite Permutation_app_comm. }
  destruct (Z.ltb_spec (usSeq info) (usSeq first)) as [H2|H2].
  { exists (info :: q). split; [done|]. split; [|done]. apply ordered_cons.
    split; [done|]. rewrite Hq in *. apply ordered_cons in Ho as [_ Hf].
    constructor; [lia|]. eapply Forall_impl; [done|]. simpl. lia. }
  exists (ordered_insert info q). split; [|split].
  - apply insertRange_spec. apply Exists_exists. exists l. split; [|lia].
    by apply last_Some_elem_of.
  - by apply ordered_insert_ordered.
  - apply ordered_insert_perm.
Qed.

(** Queues whose check passes: consecutive sequence numbers, without wrap. *)
Fixpoint consecutive (s : Z) (l : list Z) : Prop :=
  match l with
  | [] => True
  | x :: l => x = s /\ consecutive (s + 1) l
  end.

Lemma no_gap_consecutive s q : fits 16 s -> ordered q ->
  Forall (fun p => fits 16 (usSeq p) /\ s <= usSeq p) q ->
  no_gap s q = true -> consecutive s (seqs q).
Proof.
  revert s. induction q as [|p q IH]; intros s Hs Ho Hf Hg; [done|].
  simpl in Hg. apply andb_true_iff in Hg as [He%Z.eqb_eq Hg].
  apply ordered_cons in Ho as [Ho Hp]. apply Forall_cons in Hf as [[H16 _] Hf].
  simpl. split; [done|]. destruct q as [|p' q]; [done|].
  assert (fits 16 (s + 1)) as Hs'.
  { apply Forall_cons in Hp as [? _]. apply Forall_cons in Hf as [[Hp' _] _].
    simpl in Hg. apply andb_true_iff in Hg as [Hu%Z.eqb_eq _].
    unfold u16, wrap in Hu. unfold fits in *. change (2 ^ 16) with 65536 in *. lia. }
  unfold u16 in Hg. rewrite (wrap_small _ _ Hs') in Hg. apply IH; [done..| |done].
  assert (usSeq p' = s + 1) as He'.
  { simpl in Hg. apply andb_true_iff in Hg as [Hu%Z.eqb_eq _]. done. }
  apply ordered_cons in Ho as [_ Ho]. apply Forall_cons in Hf as [[Hp' _] Hf].
  constructor; [split; [done|lia]|].
  apply Forall_and in Hf as [Hf _]. apply Forall_and. split; [done|].
  eapply Forall_impl; [exact Ho|]. simpl. lia.
Qed.

(** ** The invariant of the organizer *)

(** The header fields of the packet in a block. *)
Definition block_seq (b : mblock) : option Z := f_seq <$> fields_of (mb_data b).
Definition block_ts (b : mblock) : option Z := f_timestamp <$> fields_of (mb_data b).
Definition block_marker (b : mblock) : option bool :=
  (fun f => negb (f_marker f =? 0)) <$> fields_of (mb_data b).

Definition describes (p : RTP_PACK_INFO_S) : Prop :=
  block_seq (pRtpMsgBlock p) = Some (usSeq p) /\
  block_ts (pRtpMsgBlock p) = Some (unTimestamp p) /\
  block_marker (pRtpMsgBlock p) = Some (bMarker p).

Record frame_ok (ts : Z) (f : RTP_FRAME_INFO_S) : Prop := {
  fo_key : fi_timestamp f = ts;
  fo_some : PacketQueue f ≠ [];
  fo_ordered : ordered (PacketQueue f);
  fo_packets : Forall (fun p => unTimestamp p = ts /\ describes p) (PacketQueue f);
  fo_marker : fi_bMarker f = existsb bMarker (PacketQueue f) }.

Record organizer_ok (this : CRtpFrameOrganizer) : Prop := {
  oo_frames : map_Forall frame_ok (m_RtpFrameMap this);
  oo_free : Forall (fun f => PacketQueue f = []) (m_RtpFrameFreeList this);
  oo_count : Z.of_nat (size (m_RtpFrameMap this) + length (m_RtpFrameFreeList this))
             = m_unMaxCacheFrameNum this }.

(** The blocks the organizer holds. *)
Definition queue_blocks (f : RTP_FRAME_INFO_S) : list mblock :=
  pRtpMsgBlock <$> PacketQueue f.
Definition held (this : CRtpFrameOrganizer) : list mblock :=
  concat (queue_blocks <$> (map_to_list (m_RtpFrameMap this)).*2).

Definition dups (ev : list event) : list mblock :=
  omap (fun e => match e with EvDup b => Some b | _ => None end) ev.
Definition frees (ev : list event) : list mblock :=
  omap (fun e => match e with EvFree b => Some b | _ => None end) ev.
Definition frames (ev : list event) : list (list mblock) :=
  omap (fun e => match e with EvFrame bs => Some bs | _ => None end) ev.

Lemma dups_app a b : dups (a ++ b) = dups a ++ dups b.
Proof. apply omap_app. Qed.
Lemma frees_app a b : frees (a ++ b) = frees a ++ frees b.
Proof. apply omap_app. Qed.
Lemma frames_app a b : frames (a ++ b) = frames a ++ frames b.
Proof. apply omap_app. Qed.

Lemma free_queue_events q :
  frees (free_queue q) = pRtpMsgBlock <$> q /\ dups (free_queue q) = [] /\
  frames (free_queue q) = [].
Proof.
  induction q as [|p q (IH1 & IH2 & IH3)]; [done|]. cbn.
  split; [by f_equal|]. by split.
Qed.

Lemma in_order_perm m : in_order m ≡ₚ (map_to_list m).*2.
Proof. unfold in_order. by rewrite merge_sort_Permutation. Qed.

Lemma elem_in_order m f : f ∈ in_order m <-> exists ts, m !! ts = Some f.
Proof.
  rewrite in_order_perm, list_elem_of_fmap. split.
  - intros ([ts g] & -> & H%elem_of_map_to_list). eauto.
  - intros [ts H]. exists (ts, f). by rewrite elem_of_map_to_list.
Qed.

(** [GetSmallFrame] is the frame with the least timestamp. *)
Lemma fold_small_step l s :
  match fold_left small_step l s with
  | None => s = None /\ l = []
  | Some f => (s = Some f \/ f ∈ l) /\
      (forall g, s = Some g \/ g ∈ l -> fi_timestamp f <= fi_timestamp g)
  end.
Proof.
  revert s. induction l as [|a l IH]; intros s; simpl.
  - destruct s as [f|]; [|done]. split; [by left|].
    intros g [[= ->]|Hg]; [lia|]. by apply elem_of_nil in Hg.
  - specialize (IH (small_step s a)).
    destruct (fold_left small_step l (small_step s a)) as [f|].
    2:{ destruct IH as [IH _]. destruct s; simpl in IH; [case_match; done|done]. }
    destruct IH as [Hin Hmin]. split.
    + destruct Hin as [Hin|Hin]; [|right; by apply elem_of_cons; right].
      destruct s as [s|]; simpl in Hin.
      * case_match; simplify_eq; [right; apply list_elem_of_here|by left].
      * simplify_eq. right. apply list_elem_of_here.
    + intros g Hg. assert (exists s', small_step s a = Some s' /\
          fi_timestamp s' <= fi_timestamp a /\
          (forall t, s = Some t -> fi_timestamp s' <= fi_timestamp t))
        as (s' & Hs' & Ha & Ht).
      { destruct s as [s|]; simpl; [|eexists; split; [done|]; split; [lia|done]].
        destruct (Z.ltb_spec (fi_timestamp a) (fi_timestamp s));
          eexists; (split; [done|]); (split; [lia|]); intros t [= <-]; lia. }
      pose proof (Hmin s' (or_introl Hs')).
      destruct Hg as [Hg|[->|Hg]%elem_of_cons]; [specialize (Ht _ Hg); lia|lia|].
      apply Hmin. by right.
Qed.

Lemma GetSmallFrame_spec this f : organizer_ok this ->
  GetSmallFrame this = Some f ->
  m_RtpFrameMap this !! fi_timestamp f = Some f /\
  (forall ts g, m_RtpFrameMap this !! ts = Some g -> fi_timestamp f <= ts).
Proof.
  intros [Hfr _ _] H. unfold GetSmallFrame in H.
  pose proof (fold_small_step (in_order (m_RtpFrameMap this)) None) as Hs.
  rewrite H in Hs. destruct Hs as [[?|Hin] Hmin]; [done|].
  apply elem_in_order in Hin as [ts Hts].
  pose proof (fo_key _ _ (Hfr _ _ Hts)) as Hk. subst ts. split; [done|].
  intros ts g Hg. rewrite <-(fo_key _ _ (Hfr _ _ Hg)). apply Hmin. right.
  apply elem_in_order. eauto.
Qed.

Lemma GetSmallFrame_None this : GetSmallFrame this = None -> m_RtpFrameMap this = ∅.
Proof.
  intros H. unfold GetSmallFrame in H.
  pose proof (fold_small_step (in_order (m_RtpFrameMap this)) None) as Hs.
  rewrite H in Hs. destruct Hs as [_ Hs].
  apply map_eq. intros i. rewrite lookup_empty.
  destruct (m_RtpFrameMap this !! i) as [f|] eqn:Hi; [|done].
  assert (f ∈ in_order (m_RtpFrameMap this)) as Hf by (apply elem_in_order; eauto).
  rewrite Hs in Hf. by apply elem_of_nil in Hf.
Qed.

Lemma held_insert_new this ts f : m_RtpFrameMap this !! ts = None ->
  concat (queue_blocks <$> (map_to_list (<[ts := f]> (m_RtpFrameMap this))).*2) ≡ₚ
  queue_blocks f ++ held this.
Proof. intros H. unfold held. by rewrite (map_to_list_insert _ _ _ H). Qed.

Lemma held_delete this ts f : m_RtpFrameMap this !! ts = Some f ->
  held this ≡ₚ queue_blocks f ++
    concat (queue_blocks <$> (map_to_list (delete ts (m_RtpFrameMap this))).*2).
Proof.
  intros H. unfold held. rewrite <-(insert_delete_id _ _ _ H) at 1.
  rewrite map_to_list_insert by apply lookup_delete_eq. done.
Qed.

Lemma describes_fits p : describes p -> fits 16 (usSeq p).
Proof.
  intros (Hs & _ & _). unfold block_seq in Hs.
  apply fmap_Some in Hs as (f & Hf & ->). header_inv Hf. apply ntohs_fits.
Qed.

Lemma releaseRtpPacket_spec this f : organizer_ok this ->
  m_RtpFrameMap this !! fi_timestamp f = Some f ->
  exists this' ev, releaseRtpPacket (Some f) this = (this', ev) /\
    organizer_ok this' /\ m_RtpFrameMap this' = delete (fi_timestamp f) (m_RtpFrameMap this) /\
    held this ≡ₚ frees ev ++ held this' /\ frees ev = queue_blocks f /\
    dups ev = [] /\ frames ev = [].
Proof.
  intros [Hfr Hfree Hc] Hf. unfold releaseRtpPacket. rewrite Hf.
  destruct (free_queue_events (PacketQueue f)) as (E1 & E2 & E3).
  eexists _, _. split; [done|]. split; [|split; [done|]].
  - split; cbn.
    + by apply map_Forall_delete.
    + apply Forall_app. split; [done|]. by constructor.
    + rewrite length_app. cbn.
      pose proof (map_size_delete_Some _ _ (mk_is_Some _ _ Hf)).
      assert (size (m_RtpFrameMap this) ≠ 0%nat).
      { intros H0%map_size_empty_inv. by rewrite H0 in Hf. }
      lia.
  - split; [|done]. rewrite E1. by rewrite (held_delete _ _ _ Hf).
Qed.

(** A frame as the handler is promised it: packets of one timestamp, one of
    them with the marker bit, with consecutive sequence numbers. *)
Definition complete_frame (ts : Z) (bs : list mblock) : Prop :=
  exists s, bs ≠ [] /\ block_seq <$> bs = Some <$> seqZ s (zlen bs) /\
    Forall (fun b => block_ts b = Some ts) bs /\
    Exists (fun b => block_marker b = Some true) bs.

Lemma consecutive_seqZ s l : consecutive s l -> l = seqZ s (zlen l).
Proof.
  revert s. induction l as [|x l IH]; intros s; simpl; [done|].
  intros [-> H]. rewrite zlen_cons, seqZ_cons by (pose proof (zlen_nonneg l); lia).
  f_equal. replace (Z.pred (1 + zlen l)) with (zlen l) by lia.
  apply (IH (s + 1) H).
Qed.

Lemma frame_complete ts f first q : frame_ok ts f -> PacketQueue f = first :: q ->
  fi_bMarker f = true -> no_gap (usSeq first) (PacketQueue f) = true ->
  complete_frame ts (queue_blocks f).
Proof.
  intros [_ _ Ho Hp Hm] Hq Hmark Hg. exists (usSeq first).
  unfold queue_blocks. split; [by rewrite Hq|].
  assert (Forall (fun p => fits 16 (usSeq p) /\ usSeq first <= usSeq p) (PacketQueue f))
    as Hf.
  { apply Forall_and. split.
    - eapply Forall_impl; [exact Hp|]. intros p [_ H]. by apply describes_fits.
    - rewrite Hq in *. apply ordered_cons in Ho as [_ Ho]. by constructor. }
  assert (fits 16 (usSeq first)) as H16.
  { rewrite Hq in Hf. by apply Forall_cons in Hf as [[? _] _]. }
  pose proof (no_gap_consecutive _ _ H16 Ho Hf Hg) as Hc%consecutive_seqZ.
  split; [|split].
  - assert (zlen (pRtpMsgBlock <$> PacketQueue f) = zlen (seqs (PacketQueue f))) as ->.
    { unfold zlen, seqs. by rewrite !length_fmap. }
    rewrite <-Hc. unfold seqs. rewrite <-!list_fmap_compose.
    apply list_fmap_ext. intros i p Hi.
    by apply (Forall_lookup_1 _ _ _ _ Hp) in Hi as [_ (? & _ & _)].
  - apply Forall_fmap. eapply Forall_impl; [exact Hp|].
    intros p [<- (_ & H & _)]. done.
  - rewrite Hm in Hmark. apply existsb_exists in Hmark as (p & Hin & Hb).
    apply list_elem_of_In in Hin. apply Exists_fmap, Exists_exists. exists p.
    split; [done|]. rewrite Forall_forall in Hp.
    destruct (Hp _ Hin) as [_ (_ & _ & H)]. simpl. by rewrite H, Hb.
Qed.

Definition delivers_oldest (this' : CRtpFrameOrganizer) (ev : list event) : Prop :=
  frames ev = [] \/
  exists ts bs, frames ev = [bs] /\ complete_frame ts bs /\
    forall ts' f, m_RtpFrameMap this' !! ts' = Some f -> ts < ts'.

Lemma checkFrame_spec this : organizer_ok this ->
  exists this' ev, checkFrame this = (this', ev) /\ organizer_ok this' /\
    held this ≡ₚ frees ev ++ held this' /\ dups ev = [] /\ delivers_oldest this' ev.
Proof.
  intros Hok. unfold checkFrame.
  assert (exists this' ev, (this, @nil event) = (this', ev) /\ organizer_ok this' /\
    held this ≡ₚ frees ev ++ held this' /\ dups ev = [] /\ delivers_oldest this' ev)
    as Hidle.
  { exists this, []. split; [done|]. split; [exact Hok|]. split; [done|].
    split; [done|]. by left. }
  destruct (GetSmallFrame this) as [f|] eqn:Hs.
  2:{ exact Hidle. }
  destruct (GetSmallFrame_spec _ _ Hok Hs) as [Hf Hmin].
  pose proof (oo_frames _ Hok _ _ Hf) as Hfo.
  destruct (PacketQueue f) as [|first q] eqn:Hq; [by destruct (fo_some _ _ Hfo)|].
  destruct (fi_bMarker f) eqn:Hm; cbn [negb].
  2:{ exact Hidle. }
  rewrite <-Hq. destruct (no_gap (usSeq first) (PacketQueue f)) eqn:Hg; cbn -[releaseRtpPacket].
  2:{ exact Hidle. }
  destruct (releaseRtpPacket_spec _ _ Hok Hf)
    as (this' & ev & Er & Hok' & Hmap & Hheld & Hfree & Hdup & Hfrm).
  rewrite Er. exists this', (handleFinishedFrame f this ++ ev).
  assert (frees (handleFinishedFrame f this) = [] /\ dups (handleFinishedFrame f this) = []
    /\ (frames (handleFinishedFrame f this) = [] \/
        frames (handleFinishedFrame f this) = [queue_blocks f])) as (F1 & F2 & F3).
  { unfold handleFinishedFrame. rewrite Hq. destruct (m_pRtpFrameHandler this); [|by auto].
    rewrite <-Hq. split; [done|]. split; [done|]. by right. }
  split; [done|]. split; [done|]. rewrite frees_app, dups_app, F1, F2.
  split; [done|]. split; [done|]. unfold delivers_oldest. rewrite frames_app, Hfrm, app_nil_r.
  destruct F3 as [->| ->]; [by left|right].
  exists (fi_timestamp f), (queue_blocks f). split; [done|].
  split; [by eapply frame_complete|].
  rewrite Hmap. intros ts' g [Hne Hg']%lookup_delete_Some.
  specialize (Hmin _ _ Hg'). lia.
Qed.

Lemma existsb_perm {A} (g : A -> bool) l k : l ≡ₚ k -> existsb g l = existsb g k.
Proof.
  induction 1; simpl; [done|congruence| |congruence].
  by rewrite !orb_assoc, (orb_comm (g y)).
Qed.

(** Adding a packet to a frame record; an absent record is an empty one. *)
Lemma frame_ok_insert ts f q' info :
  fi_timestamp f = ts -> ordered q' -> q' ≡ₚ info :: PacketQueue f ->
  Forall (fun p => unTimestamp p = ts /\ describes p) (PacketQueue f) ->
  fi_bMarker f = existsb bMarker (PacketQueue f) ->
  unTimestamp info = ts -> describes info ->
  frame_ok ts {| fi_timestamp := fi_timestamp f;
                 fi_bMarker := if fi_bMarker f then true else bMarker info;
                 PacketQueue := q' |}.
Proof.
  intros Hk Ho Hp Hf Hm Hi Hd. split; cbn.
  - done.
  - intros ->. by apply Permutation_nil_l in Hp.
  - done.
  - rewrite Hp. by constructor.
  - rewrite (existsb_perm _ _ _ Hp), Hm. simpl.
    by destruct (bMarker info), (existsb bMarker (PacketQueue f)).
Qed.

(** Storing a packet in the record of its timestamp, existing or new. *)
Lemma store_packet_ok this ts f q' info :
  map_Forall frame_ok (m_RtpFrameMap this) ->
  m_RtpFrameMap this !! ts = Some f \/
    (m_RtpFrameMap this !! ts = None /\ PacketQueue f = []) ->
  q' ≡ₚ info :: PacketQueue f ->
  forall f', PacketQueue f' = q' ->
  concat (queue_blocks <$> (map_to_list (<[ts := f']> (m_RtpFrameMap this))).*2) ≡ₚ
    pRtpMsgBlock info :: held this.
Proof.
  intros Hfr [Hf|[Hf Hq]] Hp f' Hf'.
  - rewrite (held_delete _ _ _ Hf), <-insert_delete_eq.
    rewrite map_to_list_insert by apply lookup_delete_eq. cbn.
    unfold queue_blocks at 1 3. rewrite Hf', Hp. done.
  - rewrite held_insert_new by done. unfold queue_blocks at 1. rewrite Hf', Hp, Hq. done.
Qed.

Lemma insert_info_spec info this : organizer_ok this -> describes info ->
  exists r this' ev, insert_info info this = Some (r, this', ev) /\
    organizer_ok this' /\ frees ev ++ held this' ≡ₚ pRtpMsgBlock info :: held this /\
    dups ev = [] /\ delivers_oldest this' ev.
Proof.
  intros Hok Hd. unfold insert_info. pose proof Hok as [Hfr Hfree Hc].
  destruct (m_RtpFrameMap this !! unTimestamp info) as [f|] eqn:Hf; cbn -[checkFrame].
  - pose proof (Hfr _ _ Hf) as [Hk Hs Ho Hp Hm].
    destruct (insert_packet_spec _ info Ho) as (q' & -> & Ho' & Hp'). cbn -[checkFrame].
    set (this1 := with_maps _ _ _).
    assert (organizer_ok this1) as Hok1.
    { split; cbn; [|done|].
      - apply map_Forall_insert_2; [|done]. by apply frame_ok_insert.
      - rewrite <-Hc. by rewrite (map_size_insert_Some _ _ _ (mk_is_Some _ _ Hf)). }
    destruct (checkFrame_spec _ Hok1) as (this2 & ev & -> & Hok2 & Hh & Hdup & Hfrm).
    exists RET_OK, this2, ev. split; [done|]. split; [done|]. split; [|done].
    rewrite <-Hh. eapply (store_packet_ok this _ f q'); [done|by left|done|done].
  - unfold InsertFrame. destruct (m_RtpFrameFreeList this) as [|f free] eqn:Hfl.
    + destruct (GetSmallFrame this) as [g|] eqn:Hs; cbn -[releaseRtpPacket].
      * destruct (GetSmallFrame_spec _ _ Hok Hs) as [Hg _].
        destruct (releaseRtpPacket_spec _ _ Hok Hg)
          as (this' & ev & -> & Hok' & _ & Hheld & _ & Hdup & Hfrm).
        eexists _, _, _. split; [done|]. split; [done|]. split; [by rewrite Hheld|].
        split; [done|]. by left.
      * eexists _, _, _. split; [done|]. split; [done|]. split; [done|].
        split; [done|]. by left.
    + cbn -[checkFrame]. rewrite Hf. apply Forall_cons in Hfree as [Hq Hfree].
      rewrite Hq. cbn -[checkFrame]. set (this1 := with_maps _ _ _).
      assert (organizer_ok this1) as Hok1.
      { split; cbn; [|done|].
        - rewrite insert_insert_eq. apply map_Forall_insert_2; [|done].
          apply (frame_ok_insert _ {| fi_timestamp := unTimestamp info;
            fi_bMarker := false; PacketQueue := [] |}); try done.
          apply ordered_cons. split; [constructor|done].
        - rewrite insert_insert_eq, map_size_insert_None by done.
          rewrite <-Hc. cbn. lia. }
      destruct (checkFrame_spec _ Hok1) as (this2 & ev & -> & Hok2 & Hh & Hdup & Hfrm).
      exists RET_OK, this2, ev. split; [done|]. split; [done|]. split; [|done].
      rewrite <-Hh. unfold held at 1, this1. cbn. rewrite insert_insert_eq.
      eapply (store_packet_ok this _ f [info]); [done|by right|by rewrite Hq|done].
Qed.

(** ** Runs *)

Section Run.
  Context (duplicate : mblock -> option mblock).

  (** A sequence of [insertRtpPacket] calls. *)
Fixpoint run (bs : list mblock) (this : CRtpFrameOrganizer)
      : option (CRtpFrameOrganizer * list event) :=
    match bs with
    | [] => Some (this, [])
    | b :: bs =>
      '(_, this, ev) ← insertRtpPacket duplicate (Some b) this;
      '(this, ev') ← run bs this;
      Some (this, ev ++ ev')
    end.

Lemma run_app bs bs' this : run (bs ++ bs') this =
    '(this, ev) ← run bs this; '(this, ev') ← run bs' this; Some (this, ev ++ ev').
  Proof.
    revert this. induction bs as [|b bs IH]; intros this; cbn -[insertRtpPacket].
    - by destruct (run bs' this) as [[? ?]|].
    - destruct (insertRtpPacket _ _ _) as [[[? t] e]|]; [|done]. cbn. rewrite IH.
      destruct (run bs t) as [[t' e']|]; [|done]. cbn.
      destruct (run bs' t') as [[? ?]|]; [|done]. cbn. by rewrite (assoc (++)).
  Qed.

  (** A duplicate shares the data block of the original. *)
  Hypothesis duplicate_data : forall b b', duplicate b = Some b' -> mb_data b' = mb_data b.

Lemma insertRtpPacket_spec b this : organizer_ok this ->
    exists r this' ev, insertRtpPacket duplicate b this = Some (r, this', ev) /\
      organizer_ok this' /\ frees ev ++ held this' ≡ₚ dups ev ++ held this /\
      delivers_oldest this' ev.
  Proof.
    intros Hok. unfold insertRtpPacket.
    assert (forall r, exists r0 this' ev, Some (r : SVS_RET_CODE, this, []) = Some (r0, this', ev) /\
      organizer_ok this' /\ frees ev ++ held this' ≡ₚ dups ev ++ held this /\
      delivers_oldest this' ev) as Hidle.
    { intros r. exists r, this, []. split; [done|]. split; [done|]. split; [done|].
      by left. }
    destruct b as [b|]; [|apply Hidle].
    destruct (ParsePacket_spec (mb_data b) CRtpPacket_new) as (r & p & Hp & Hr & _).
    pose proof (ParsePacket_attached (mb_data b) CRtpPacket_new p) as Hatt.
    rewrite Hp in Hatt |- *. cbn -[insert_info].
    destruct (decide (r ≠ RET_OK)) as [|Hok'%dec_stable]; [apply Hidle|]. subst r.
    destruct (Hatt eq_refl) as [Hfix Hlen]. destruct (Hr eq_refl) as [_ Hr'].
    destruct (fields_of_ok (m_pRtpData p)) as [f Hf]; [lia|].
    destruct (getters_spec p f Hfix Hf) as (-> & -> & _ & _ & ->).
    destruct (duplicate _) as [mb|] eqn:Hdup; [|apply Hidle].
    apply duplicate_data in Hdup. cbn in Hdup. cbn -[insert_info].
    set (info := {| usSeq := _ |}).
    assert (describes info) as Hd.
    { unfold describes, block_seq, block_ts, block_marker. cbn. by rewrite Hdup, Hf. }
    destruct (insert_info_spec info this Hok Hd)
      as (r & this' & ev & -> & Hok1 & Hh & Hdups & Hfr).
    cbn. exists r, this', (EvDup mb :: ev). split; [done|]. split; [done|].
    change (frees (EvDup mb :: ev)) with (frees ev).
    change (dups (EvDup mb :: ev)) with (mb :: dups ev). rewrite Hdups.
    split; [done|]. exact Hfr.
  Qed.

Lemma run_spec bs this : organizer_ok this ->
    exists this' ev, run bs this = Some (this', ev) /\ organizer_ok this' /\
      frees ev ++ held this' ≡ₚ dups ev ++ held this /\
      Forall (fun f => exists ts, complete_frame ts f) (frames ev).
  Proof.
    revert this. induction bs as [|b bs IH]; intros this Hok; cbn -[insertRtpPacket].
    { exists this, []. split; [done|]. split; [done|]. split; [done|constructor]. }
    destruct (insertRtpPacket_spec (Some b) this Hok)
      as (r & this1 & ev & -> & Hok1 & Hh & Hfr). cbn.
    destruct (IH this1 Hok1) as (this2 & ev' & -> & Hok2 & Hh' & Hfr'). cbn.
    exists this2, (ev ++ ev'). split; [done|]. split; [done|].
    rewrite !frees_app, !dups_app, !frames_app. split.
    - rewrite <-(assoc (++)), Hh', (assoc (++)), (Permutation_app_comm (frees ev)).
      rewrite <-(assoc (++)), Hh, (assoc (++)).
      by rewrite (Permutation_app_comm (dups ev')).
    - apply Forall_app. split; [|done].
      destruct Hfr as [->|(ts & f & -> & Hc & _)]; [constructor|].
      constructor; [eauto|constructor].
  Qed.
End Run.

Lemma release_spec this :
  frees (release this).2 ≡ₚ held this /\ held (release this).1 = [] /\
  frames (release this).2 = [] /\ dups (release this).2 = [].
Proof.
  unfold release, held. cbn [fst snd with_maps m_RtpFrameMap].
  rewrite map_to_list_empty.
  assert (forall l, frees (concat ((fun f => free_queue (PacketQueue f)) <$> l)) =
            concat (queue_blocks <$> l) /\
          frames (concat ((fun f => free_queue (PacketQueue f)) <$> l)) = [] /\
          dups (concat ((fun f => free_queue (PacketQueue f)) <$> l)) = []) as H.
  { intros l. induction l as [|f l (IH1 & IH2 & IH3)]; [done|]. cbn.
    destruct (free_queue_events (PacketQueue f)) as (E1 & E2 & E3).
    rewrite frees_app, frames_app, dups_app, E1, E2, E3, IH1, IH2, IH3. done. }
  destruct (H (in_order (m_RtpFrameMap this))) as (E1 & E2 & E3).
  rewrite E1, E2, E3. split; [|done]. by rewrite (in_order_perm (m_RtpFrameMap this)).
Qed.

Lemma init_ok n : 0 < n ->
  organizer_ok (init true n CRtpFrameOrganizer_new).2 /\
  held (init true n CRtpFrameOrganizer_new).2 = [].
Proof.
  intros Hn. unfold init. rewrite (proj2 (Z.eqb_neq n 0)) by lia. cbn.
  split; [|done]. split; cbn.
  - apply map_Forall_empty.
  - by apply Forall_replicate.
  - rewrite map_size_empty, length_replicate. lia.
Qed.

(** ** Arrival of the packets of one frame *)

(** The packet in block [b] has a plain header with these fields. *)
Definition plain_packet (s ts : Z) (m : bool) (b : mblock) : Prop :=
  exists f, fields_of (mb_data b) = Some f /\ plain_fields f /\
    f_seq f = s /\ f_timestamp f = ts /\ negb (f_marker f =? 0) = m.

Definition info_of (s ts : Z) (m : bool) (b : mblock) : RTP_PACK_INFO_S :=
  {| usSeq := s; unTimestamp := ts; bMarker := m; pRtpMsgBlock := b |}.

Lemma insertRtpPacket_plain duplicate s ts m b b' this :
  plain_packet s ts m b -> duplicate b = Some b' ->
  insertRtpPacket duplicate (Some b) this =
    '(r, this', ev) ← insert_info (info_of s ts m b') this;
    Some (r, this', EvDup b' :: ev).
Proof.
  intros (f & Hf & Hp & <- & <- & <-) Hd. unfold insertRtpPacket.
  rewrite (ParsePacket_plain _ _ _ Hf Hp).
  cbn -[insert_info GetMarker GetSeqNum GetTimeStamp].
  destruct (getters_spec (with_head_len 12 (attach (mb_data b) CRtpPacket_new)) f
    eq_refl Hf) as (-> & -> & _ & _ & ->).
  destruct b as [id d]. cbn in *. rewrite Hd. done.
Qed.

Lemma StronglySorted_lt_unique (q q' : list RTP_PACK_INFO_S) :
  q ≡ₚ q' -> NoDup (seqs q) -> ordered q -> ordered q' -> q = q'.
Proof.
  revert q'. induction q as [|p q IH]; intros q' Hp Hnd Ho Ho'.
  { symmetry. by apply Permutation_nil. }
  destruct q' as [|p' q']; [by apply Permutation_nil_r in Hp|].
  apply ordered_cons in Ho as [Ho Hf]. apply ordered_cons in Ho' as [Ho' Hf'].
  unfold seqs in Hnd. rewrite fmap_cons in Hnd. apply NoDup_cons in Hnd as [Hni Hnd].
  assert (p = p') as <-.
  { assert (p' ∈ p :: q) as [->|Hin]%elem_of_cons;
      [rewrite Hp; apply list_elem_of_here|done|].
    assert (p ∈ p' :: q') as [->|Hin']%elem_of_cons;
      [rewrite <-Hp; apply list_elem_of_here|done|].
    rewrite Forall_forall in Hf, Hf'.
    pose proof (Hf _ Hin). pose proof (Hf' _ Hin').
    destruct Hni. apply list_elem_of_fmap. exists p'. split; [lia|done]. }
  f_equal. apply IH; [|done..]. by apply Permutation_cons_inv in Hp.
Qed.

Lemma GetSmallFrame_singleton this ts f :
  m_RtpFrameMap this = {[ts := f]} -> GetSmallFrame this = Some f.
Proof.
  intros H. unfold GetSmallFrame.
  pose proof (fold_small_step (in_order (m_RtpFrameMap this)) None) as Hs.
  assert (f ∈ in_order (m_RtpFrameMap this)) as Hf.
  { apply elem_in_order. exists ts. rewrite H. apply lookup_singleton_eq. }
  destruct (fold_left _ _ _) as [g|].
  - destruct Hs as [[?|Hg] _]; [done|]. apply elem_in_order in Hg as [ts' Hg].
    rewrite H in Hg. by apply lookup_singleton_Some in Hg as [_ ->].
  - destruct Hs as [_ Hs]. rewrite Hs in Hf. by apply elem_of_nil in Hf.
Qed.

Lemma checkFrame_finished this f p q : GetSmallFrame this = Some f ->
  PacketQueue f = p :: q -> fi_bMarker f = true ->
  no_gap (usSeq p) (PacketQueue f) = true ->
  checkFrame this =
    let '(this', ev) := releaseRtpPacket (Some f) this in
    (this', handleFinishedFrame f this ++ ev).
Proof.
  intros Hs Hq Hm Hg. unfold checkFrame. rewrite Hs, Hm. rewrite Hq in Hg |- *.
  by rewrite Hg.
Qed.

Lemma handleFinishedFrame_some this f p q : PacketQueue f = p :: q ->
  m_pRtpFrameHandler this = true ->
  handleFinishedFrame f this = [EvFrame (queue_blocks f)].
Proof. intros Hq Hh. unfold handleFinishedFrame, queue_blocks. by rewrite Hq, Hh. Qed.

Section OneFrame.
  Context (ts : Z).

  (** The organizer holds the packets [q] of the frame [ts] and nothing else. *)
Definition collecting (q : list RTP_PACK_INFO_S) (this : CRtpFrameOrganizer) : Prop :=
    organizer_ok this /\ m_pRtpFrameHandler this = true /\
    match q with
    | [] => m_RtpFrameMap this = ∅ /\ m_RtpFrameFreeList this ≠ []
    | _ => exists q', q' ≡ₚ q /\ m_RtpFrameMap this =
             {[ts := {| fi_timestamp := ts; fi_bMarker := existsb bMarker q;
                        PacketQueue := q' |}]}
    end.

  (** One more packet: it is queued, and the check is made on the result. *)
Lemma insert_collecting q s m b this : collecting q this ->
    describes (info_of s ts m b) ->
    exists q' this1, q' ≡ₚ info_of s ts m b :: q /\ ordered q' /\
      organizer_ok this1 /\ m_pRtpFrameHandler this1 = true /\
      m_RtpFrameMap this1 =
        {[ts := {| fi_timestamp := ts; fi_bMarker := existsb bMarker q || m;
                   PacketQueue := q' |}]} /\
      insert_info (info_of s ts m b) this =
        let '(this2, ev) := checkFrame this1 in Some (RET_OK, this2, ev).
  Proof.
    intros (Hok & Hh & Hq) Hd. unfold insert_info. cbn [unTimestamp info_of].
    destruct q as [|p q].
    - destruct Hq as [Hm Hfl]. rewrite Hm, lookup_empty. unfold InsertFrame.
      destruct (m_RtpFrameFreeList this) as [|f free] eqn:Hf; [done|].
      pose proof Hok as [Hfr Hfree Hc]. rewrite Hf in Hfree, Hc.
      apply Forall_cons in Hfree as [Hq Hfree]. rewrite Hm, lookup_empty in *.
      cbn -[checkFrame]. rewrite Hq. cbn -[checkFrame].
      eexists [_], _. split; [done|]. split; [apply ordered_cons; by repeat constructor|].
      split; [|split; [|split; [|reflexivity]]]; cbn; [|done|].
      + split; cbn; [|done|].
        * rewrite insert_insert_eq. apply map_Forall_insert_2; [|done].
          apply (frame_ok_insert ts {| fi_timestamp := ts; fi_bMarker := false;
            PacketQueue := [] |} [info_of s ts m b] (info_of s ts m b)); try done.
          apply ordered_cons. by repeat constructor.
        * rewrite insert_insert_eq, map_size_insert_None by done.
          rewrite map_size_empty in *. cbn in *. lia.
      + by rewrite insert_insert_eq.
    - destruct Hq as (q0 & Hp & Hm).
      set (fr := {| fi_timestamp := ts |}) in Hm.
      assert (m_RtpFrameMap this !! ts = Some fr) as Hl.
      { rewrite Hm. apply lookup_singleton_eq. }
      rewrite Hl. pose proof Hok as [Hfr Hfree Hc].
      destruct (Hfr _ _ Hl) as [Hk Hs Ho Hpk Hmk].
      destruct (insert_packet_spec _ (info_of s ts m b) Ho) as (q' & Hi & Ho' & Hp').
      cbn [PacketQueue fr] in *. rewrite Hi. cbn -[checkFrame existsb].
      eexists q', _. split; [by rewrite Hp', Hp|]. split; [done|].
      split; [|split; [|split; [|reflexivity]]]; cbn -[existsb]; [|done|].
      + split; cbn -[existsb]; [|done|].
        * apply map_Forall_insert_2; [|done].
          change (frame_ok ts {| fi_timestamp := fi_timestamp fr;
            fi_bMarker := if fi_bMarker fr then true else bMarker (info_of s ts m b);
            PacketQueue := q' |}).
          by apply frame_ok_insert.
        * by rewrite (map_size_insert_Some _ _ _ (mk_is_Some _ _ Hl)).
      + rewrite Hm, insert_singleton_eq. unfold fr. cbn -[existsb].
        by destruct (existsb bMarker (p :: q)).
  Qed.

  Context (dup : mblock -> mblock).
  Hypothesis dup_data : forall b, mb_data (dup b) = mb_data b.

Definition info_b (b : mblock) : RTP_PACK_INFO_S :=
    info_of (default 0 (block_seq b)) ts (default false (block_marker b)) (dup b).

Lemma info_b_plain s m b : plain_packet s ts m b ->
    info_b b = info_of s ts m (dup b) /\ describes (info_b b).
  Proof.
    intros (f & Hf & _ & <- & Ht & <-). unfold info_b, describes, block_seq, block_ts,
      block_marker. cbn. rewrite dup_data, Hf. cbn. by rewrite Ht.
  Qed.

Lemma checkFrame_unmarked this q :
    m_RtpFrameMap this = {[ts := {| fi_timestamp := ts; fi_bMarker := false;
                                    PacketQueue := q |}]} ->
    checkFrame this = (this, []).
  Proof.
    intros H. unfold checkFrame. rewrite (GetSmallFrame_singleton _ _ _ H).
    cbn. by destruct q.
  Qed.

  (** Packets without the marker are collected, in any order. *)
Lemma run_collecting arr q this : collecting q this ->
    existsb bMarker q = false ->
    Forall (fun b => exists s, plain_packet s ts false b) arr ->
    exists this' ev q', run (fun b => Some (dup b)) arr this = Some (this', ev) /\
      collecting q' this' /\ q' ≡ₚ (info_b <$> arr) ++ q /\ frames ev = [] /\
      existsb bMarker q' = false.
  Proof.
    revert q this. induction arr as [|b arr IH]; intros q this Hc Hm Hp.
    { exists this, [], q. done. }
    apply Forall_cons in Hp as [[s Hb] Hp].
    destruct (info_b_plain _ _ _ Hb) as [Hi Hd]. rewrite Hi in Hd.
    cbn [run]. rewrite (insertRtpPacket_plain _ _ _ _ _ (dup b) _ Hb eq_refl).
    destruct (insert_collecting q s false (dup b) this Hc Hd)
      as (q1 & this1 & Hq1 & Ho1 & Hok1 & Hh1 & Hm1 & ->).
    rewrite Hm, orb_false_r in Hm1. rewrite (checkFrame_unmarked _ _ Hm1). cbn -[run].
    destruct (IH (info_of s ts false (dup b) :: q) this1) as (this' & ev & q' & -> & Hc' & Hq' & Hf & He).
    - split; [done|]. split; [done|]. exists q1. split; [done|]. cbn. by rewrite Hm, Hm1.
    - done.
    - done.
    - cbn. eexists this', _, q'. split; [done|]. split; [done|].
      split; [|done]. rewrite Hq', Hi. cbn. by rewrite <-Permutation_middle.
  Qed.

Lemma consecutive_no_gap s q : consecutive s (seqs q) ->
    Forall (fun p => fits 16 (usSeq p)) q -> no_gap s q = true.
  Proof.
    revert s. induction q as [|p q IH]; intros s Hc Hf; [done|].
    cbn in Hc. destruct Hc as [<- Hc]. apply Forall_cons in Hf as [Hp Hf].
    cbn. rewrite Z.eqb_refl. cbn. destruct q as [|p' q]; [done|].
    assert (u16 (usSeq p + 1) = usSeq p + 1) as ->; [|by apply IH].
    unfold u16. apply wrap_small. cbn in Hc. destruct Hc as [<- _].
    by apply Forall_cons in Hf as [? _].
  Qed.

Lemma seqZ_consecutive s n : 0 <= n -> consecutive s (seqZ s n).
  Proof.
    intros Hn. revert s. pattern n. apply natlike_ind; [done| |exact Hn].
    intros x Hx IH s. rewrite seqZ_cons by lia. cbn. split; [done|].
    replace (Z.pred (Z.succ x)) with x by lia. apply IH.
  Qed.

Lemma consecutive_ordered s q : consecutive s (seqs q) ->
    ordered q /\ NoDup (seqs q) /\ Forall (fun p => s <= usSeq p) q.
  Proof.
    revert s. induction q as [|p q IH]; intros s.
    { intros _. split; [constructor|]. split; constructor. }
    cbn. intros [<- Hc]. destruct (IH _ Hc) as (Ho & Hn & Hf).
    split; [|split].
    - apply ordered_cons. split; [done|]. eapply Forall_impl; [exact Hf|]. simpl. lia.
    - apply NoDup_cons. split; [|done]. intros (p' & He & Hin)%list_elem_of_fmap.
      rewrite Forall_forall in Hf. specialize (Hf _ Hin). lia.
    - constructor; [lia|]. eapply Forall_impl; [exact Hf|]. simpl. lia.
  Qed.

  (** The frame [body ++ [l]] with sequence numbers from [s]. *)
Definition frame_packets (s : Z) (body : list mblock) (l : mblock) : Prop :=
    Forall2 (fun s b => plain_packet s ts false b) (seqZ s (zlen body)) body /\
    plain_packet (s + zlen body) ts true l.

Lemma frame_infos s body l : frame_packets s body l ->
    seqs (info_b <$> (body ++ [l])) = seqZ s (zlen body + 1).
  Proof.
    intros [Hb Hl]. unfold seqs. rewrite !fmap_app.
    cbn [fmap list_fmap]. rewrite (proj1 (info_b_plain _ _ _ Hl)). cbn [usSeq info_of].
    replace (zlen body + 1) with (Z.of_nat (S (length body))) by (unfold zlen; lia).
    rewrite seqZ_S. apply (f_equal (fun l => l ++ [s + zlen body])).
    fold (zlen body). clear Hl. revert Hb. generalize (seqZ s (zlen body)).
    induction 1 as [|x b xs bs Hx _ IH]; [done|].
    rewrite !fmap_cons, (proj1 (info_b_plain _ _ _ Hx)), IH. done.
  Qed.

Lemma plain_describes s m b : plain_packet s ts m b -> fits 16 s.
  Proof.
    intros Hp. destruct (info_b_plain _ _ _ Hp) as [Hi Hd]. rewrite Hi in Hd.
    by apply describes_fits in Hd.
  Qed.

  (** The queue that holds all the packets of a frame, and its check. *)
Lemma complete_queue s body l q : frame_packets s body l -> ordered q ->
    q ≡ₚ info_b <$> (body ++ [l]) -> q = info_b <$> (body ++ [l]).
  Proof.
    intros Hfp Ho Hq. pose proof (zlen_nonneg body).
    pose proof (seqZ_consecutive s (zlen body + 1) ltac:(lia)) as Hcs.
    rewrite <-(frame_infos _ _ _ Hfp) in Hcs.
    apply consecutive_ordered in Hcs as (Hor & Hnd & _).
    symmetry. by apply StronglySorted_lt_unique.
  Qed.

Lemma complete_no_gap s body l : frame_packets s body l ->
    exists p q, info_b <$> (body ++ [l]) = p :: q /\
      no_gap (usSeq p) (info_b <$> (body ++ [l])) = true.
  Proof.
    intros Hfp. pose proof (frame_infos _ _ _ Hfp) as Hs.
    pose proof Hfp as [Hb Hl]. pose proof (zlen_nonneg body).
    assert (no_gap s (info_b <$> (body ++ [l])) = true) as Hng.
    { apply consecutive_no_gap; [rewrite Hs; apply seqZ_consecutive; lia|].
      apply Forall_fmap, Forall_app. split.
      - clear -Hb dup_data. induction Hb as [|x b xs bs Hx]; constructor; [|done].
        change (fits 16 (usSeq (info_b b))).
        rewrite (proj1 (info_b_plain _ _ _ Hx)). by eapply plain_describes.
      - constructor; [|done]. change (fits 16 (usSeq (info_b l))).
        rewrite (proj1 (info_b_plain _ _ _ Hl)).
        by eapply plain_describes. }
    rewrite seqZ_cons in Hs by lia.
    destruct (info_b <$> (body ++ [l])) as [|p q]; [done|]. cbn in Hs.
    injection Hs as Hp _. exists p, q. by rewrite Hp.
  Qed.

  (** The check hands the frame over and frees its record. *)
Lemma checkFrame_complete s body l this : frame_packets s body l ->
    organizer_ok this -> m_pRtpFrameHandler this = true ->
    m_RtpFrameMap this = {[ts := {| fi_timestamp := ts; fi_bMarker := true;
                                    PacketQueue := info_b <$> (body ++ [l]) |}]} ->
    exists this' ev, checkFrame this = (this', ev) /\
      frames ev = [dup <$> (body ++ [l])] /\ m_RtpFrameMap this' = ∅ /\
      organizer_ok this'.
  Proof.
    intros Hfp Hok Hh Hm.
    destruct (complete_no_gap _ _ _ Hfp) as (p & q & Hpq & Hng).
    rewrite (checkFrame_finished this _ p q (GetSmallFrame_singleton _ _ _ Hm) Hpq eq_refl Hng).
    destruct (releaseRtpPacket_spec this {| fi_timestamp := ts; fi_bMarker := true;
      PacketQueue := info_b <$> (body ++ [l]) |} Hok)
      as (this3 & ev3 & -> & Hok3 & Hm3 & _ & _ & _ & Hf3).
    { rewrite Hm. apply lookup_singleton_eq. }
    eexists _, _. split; [done|]. split; [|split; [|done]].
    - rewrite frames_app, Hf3, app_nil_r.
      rewrite (handleFinishedFrame_some _ _ p q) by done. cbn [frames omap list_omap].
      unfold queue_blocks. cbn [PacketQueue]. by rewrite <-list_fmap_compose.
    - rewrite Hm3, Hm. cbn. by rewrite delete_singleton_eq.
  Qed.

  (** The last packet of a frame completes it. *)
Lemma run_complete s body l arr this : frame_packets s body l -> arr ≡ₚ body ->
    collecting [] this ->
    exists this' ev, run (fun b => Some (dup b)) (arr ++ [l]) this = Some (this', ev) /\
      frames ev = [dup <$> (body ++ [l])] /\ m_RtpFrameMap this' = ∅ /\
      organizer_ok this'.
  Proof.
    intros Hfp Ha Hc. pose proof Hfp as [Hb Hl].
    assert (Forall (fun b => exists s, plain_packet s ts false b) arr) as Harr.
    { rewrite Ha. clear -Hb. induction Hb; constructor; eauto. }
    destruct (run_collecting arr [] this Hc eq_refl Harr)
      as (this1 & ev1 & q1 & Hr1 & Hc1 & Hq1 & Hf1 & Hm1).
    rewrite app_nil_r in Hq1. rewrite run_app, Hr1. cbn [run mbind option_bind].
    rewrite (insertRtpPacket_plain _ _ _ _ _ (dup l) _ Hl eq_refl).
    destruct (info_b_plain _ _ _ Hl) as [Hi Hd]. rewrite Hi in Hd.
    destruct (insert_collecting q1 _ _ _ _ Hc1 Hd)
      as (q2 & this2 & Hq2 & Ho2 & Hok2 & Hh2 & Hm2 & ->).
    assert (q2 = info_b <$> (body ++ [l])) as ->.
    { eapply complete_queue; [done..|].
      rewrite Hq2, Hq1, fmap_app, Ha. cbn [fmap list_fmap]. rewrite Hi.
      by rewrite Permutation_app_comm. }
    rewrite Hm1 in Hm2. cbn [orb] in Hm2.
    destruct (checkFrame_complete _ _ _ _ Hfp Hok2 Hh2 Hm2)
      as (this3 & ev3 & -> & Hf3 & Hm3 & Hok3).
    eexists _, _. split; [done|]. split; [|done].
    rewrite frames_app, Hf1, app_nil_r. exact Hf3.
  Qed.
End OneFrame.

Lemma init_collecting ts n : 0 < n ->
  collecting ts [] (init true n CRtpFrameOrganizer_new).2.
Proof.
  intros Hn. destruct (init_ok n Hn) as [Hok _]. split; [done|].
  unfold init. rewrite (proj2 (Z.eqb_neq n 0)) by lia. cbn.
  split; [done|]. split; [done|].
  destruct (Z.to_nat n) eqn:E; [lia|]. done.
Qed.

Lemma insertRtpPacket_max duplicate b this r this' ev :
  insertRtpPacket duplicate b this = Some (r, this', ev) ->
  m_unMaxCacheFrameNum this' = m_unMaxCacheFrameNum this.
Proof.
  unfold insertRtpPacket, insert_info, InsertFrame, checkFrame, releaseRtpPacket.
  intros H. repeat (case_match; simplify_option_eq; try done).
Qed.

Lemma run_max duplicate bs this this' ev : run duplicate bs this = Some (this', ev) ->
  m_unMaxCacheFrameNum this' = m_unMaxCacheFrameNum this.
Proof.
  revert this ev. induction bs as [|b bs IH]; intros this ev; cbn -[insertRtpPacket].
  { by intros [= -> _]. }
  destruct (insertRtpPacket _ _ _) as [[[r t] e]|] eqn:Hi; [|done]. cbn.
  intros ([t' e'] & Hr & [= -> <-])%bind_Some.
  rewrite (IH _ _ Hr). by eapply insertRtpPacket_max.
Qed.

(** A member of a list whose images are an interval. *)
Lemma elem_of_list_fmap_2' f s b x : block_seq <$> f = Some <$> seqZ s (zlen f) ->
  b ∈ f -> block_seq b = Some x -> s <= x < s + zlen f.
Proof.
  intros Hs Hb Hx. assert (Some x ∈ (Some <$> seqZ s (zlen f))) as Hin.
  { rewrite <-Hs, <-Hx. by apply list_elem_of_fmap_2. }
  apply list_elem_of_fmap in Hin as (y & [= <-] & Hy). by apply elem_of_seqZ in Hy.
Qed.

(** A packet with the header fields given and the payload [pl]. *)
Definition packet_bytes (s ts : Z) (m : bool) (pl : list Z) : list Z :=
  [128; 96 + 128 * Z.b2z m; byte_n 1 s; byte_n 0 s] ++
  [0; 0; byte_n 1 ts; byte_n 0 ts; 0; 0; 0; 1] ++ pl.

Definition demo (id s ts : Z) (m : bool) : mblock :=
  {| mb_id := id; mb_data := packet_bytes s ts m [id] |}.

(** ** Properties *)

(** C15: after [init] with [n > 0] frame records, any sequence of packets is
    processed without an access outside a container, and the invariant holds
    at the end: every cached frame is filed under its timestamp and has a
    non-empty queue ordered by sequence number, every free record is empty,
    and the records in use and free add up to [n]. *)
Theorem organizer_safe duplicate n bs
    (Hdup : forall b b', duplicate b = Some b' -> mb_data b' = mb_data b) (Hn : 0 < n) :
  exists this ev,
    run duplicate bs (init true n CRtpFrameOrganizer_new).2 = Some (this, ev) /\
    organizer_ok this /\ m_unMaxCacheFrameNum this = n.
Proof.
  destruct (init_ok n Hn) as [Hok _].
  destruct (run_spec duplicate Hdup bs _ Hok) as (this & ev & Hr & Hok' & _).
  exists this, ev. split; [done|]. split; [done|].
  rewrite (run_max _ _ _ _ _ Hr). unfold init.
  by rewrite (proj2 (Z.eqb_neq n 0)) by lia.
Qed.

(** C16: no message block is leaked or given back twice: the duplicates taken
    in a run are, up to order, the blocks given back to the pool in the run
    and by the final [release]. *)
Theorem organizer_no_leak duplicate n bs this ev
    (Hdup : forall b b', duplicate b = Some b' -> mb_data b' = mb_data b) (Hn : 0 < n)
    (Hrun : run duplicate bs (init true n CRtpFrameOrganizer_new).2 = Some (this, ev)) :
  frees (ev ++ (release this).2) ≡ₚ dups ev /\ held (release this).1 = [].
Proof.
  destruct (init_ok n Hn) as [Hok Hh].
  destruct (run_spec duplicate Hdup bs _ Hok) as (this' & ev' & Hr & _ & Hp & _).
  rewrite Hr in Hrun. simplify_eq. rewrite Hh, app_nil_r in Hp.
  destruct (release_spec this) as (Hf & Hh' & _). split; [|done].
  by rewrite frees_app, Hf, Hp.
Qed.

(** C27: whatever packets arrived before, a packet makes the organizer deliver
    at most one frame; a delivered frame is complete (packets of one timestamp
    with consecutive sequence numbers in order, one of them with the marker)
    and older than every frame that stays in the cache. *)
Theorem organizer_delivers_complete duplicate n bs this0 ev0 b r this ev
    (Hdup : forall b b', duplicate b = Some b' -> mb_data b' = mb_data b) (Hn : 0 < n)
    (Hrun : run duplicate bs (init true n CRtpFrameOrganizer_new).2 = Some (this0, ev0))
    (Hin : insertRtpPacket duplicate b this0 = Some (r, this, ev)) :
  frames ev = [] \/
  exists ts bs', frames ev = [bs'] /\ complete_frame ts bs' /\
    forall ts' f, m_RtpFrameMap this !! ts' = Some f -> ts < ts'.
Proof.
  destruct (init_ok n Hn) as [Hok _].
  destruct (run_spec duplicate Hdup bs _ Hok) as (this' & ev' & Hr & Hok' & _).
  rewrite Hr in Hrun. simplify_eq.
  destruct (insertRtpPacket_spec duplicate Hdup b this0 Hok')
    as (r' & t' & e' & Hi & _ & _ & Hd).
  rewrite Hi in Hin. by simplify_eq.
Qed.


(** The sequence numbers of a frame are ordered as plain 16-bit numbers:
    a frame whose packets straddle the wrap from 65535 to 0 is never delivered
    (only a frame with all 65536 sequence numbers has both). *)
Theorem wrapped_frame_never_delivered duplicate n bs this ev f
    (Hdup : forall b b', duplicate b = Some b' -> mb_data b' = mb_data b) (Hn : 0 < n)
    (Hrun : run duplicate bs (init true n CRtpFrameOrganizer_new).2 = Some (this, ev))
    (Hf : f ∈ frames ev) (Hlen : zlen f < 65536) :
  ~ (Some 65535 ∈ block_seq <$> f /\ Some 0 ∈ block_seq <$> f).
Proof.
  destruct (init_ok n Hn) as [Hok _].
  destruct (run_spec duplicate Hdup bs _ Hok) as (this' & ev' & Hr & _ & _ & Hc).
  rewrite Hr in Hrun. simplify_eq.
  rewrite Forall_forall in Hc. destruct (Hc _ Hf) as (ts & s & _ & Hs & _).
  intros [H1 H2].
  apply list_elem_of_fmap in H1 as (b & Hlast & Hb).
  apply list_elem_of_fmap in H2 as (b' & Hfirst & Hb').
  pose proof (elem_of_list_fmap_2' _ _ _ _ Hs Hb (eq_sym Hlast)).
  pose proof (elem_of_list_fmap_2' _ _ _ _ Hs Hb' (eq_sym Hfirst)). lia.
Qed.

(** Nothing tells the first packet of a frame: a marker packet that arrives
    before the other packets of its frame is delivered at once as a frame. *)
Theorem marker_first_delivers_alone dup ts s l n
    (Hdup : forall b, mb_data (dup b) = mb_data b) (Hn : 0 < n)
    (Hl : plain_packet s ts true l) :
  exists this ev,
    run (fun b => Some (dup b)) [l] (init true n CRtpFrameOrganizer_new).2
      = Some (this, ev) /\
    frames ev = [[dup l]] /\ m_RtpFrameMap this = ∅.
Proof.
  assert (frame_packets ts s [] l) as Hframe.
  { split; [constructor|]. by rewrite Z.add_0_r. }
  destruct (run_complete ts dup Hdup s [] l [] _ Hframe (reflexivity _) (init_collecting ts n Hn))
    as (this & ev & ? & ? & ? & _). eauto 10.
Qed.

(** ** The properties at concrete packets *)

Lemma organizer_safe_witness :
  exists this ev,
    run Some [demo 1 65535 9 false; demo 2 0 9 true]
      (init true 3 CRtpFrameOrganizer_new).2 = Some (this, ev) /\
    organizer_ok this /\ m_unMaxCacheFrameNum this = 3.
Proof. apply (organizer_safe Some 3); [intros; by simplify_eq|lia]. Defined.

Lemma organizer_no_leak_witness :
  exists this ev,
    run Some [demo 2 6 9 false; demo 1 5 9 false; demo 3 7 9 true; demo 4 8 10 false]
      (init true 3 CRtpFrameOrganizer_new).2 = Some (this, ev) /\
    frees (ev ++ (release this).2) ≡ₚ dups ev /\ held (release this).1 = [].
Proof.
  eexists _, _. split; [vm_compute; reflexivity|].
  apply (organizer_no_leak Some 3
    [demo 2 6 9 false; demo 1 5 9 false; demo 3 7 9 true; demo 4 8 10 false]);
    [intros; by simplify_eq|lia|vm_compute; reflexivity].
Defined.

Lemma organizer_delivers_complete_witness :
  exists this0 ev0 r this ev,
    run Some [demo 2 6 9 false; demo 1 5 9 false]
      (init true 3 CRtpFrameOrganizer_new).2 = Some (this0, ev0) /\
    insertRtpPacket Some (Some (demo 3 7 9 true)) this0 = Some (r, this, ev) /\
    frames ev = [[demo 1 5 9 false; demo 2 6 9 false; demo 3 7 9 true]] /\
    (frames ev = [] \/
     exists ts bs', frames ev = [bs'] /\ complete_frame ts bs' /\
       forall ts' f, m_RtpFrameMap this !! ts' = Some f -> ts < ts').
Proof.
  eexists _, _, _, _, _.
  split; [vm_compute; reflexivity|].
  split; [vm_compute; reflexivity|]. split; [vm_compute; reflexivity|].
  eapply (organizer_delivers_complete Some 3 [demo 2 6 9 false; demo 1 5 9 false] _ _
           (Some (demo 3 7 9 true)));
    [intros; by simplify_eq|lia|vm_compute; reflexivity|vm_compute; reflexivity].
Defined.


Lemma wrapped_frame_never_delivered_witness :
  exists this ev,
    run Some [demo 1 65535 9 true; demo 2 0 9 true]
      (init true 3 CRtpFrameOrganizer_new).2 = Some (this, ev) /\
    ~ (Some 65535 ∈ block_seq <$> [demo 1 65535 9 true] /\
       Some 0 ∈ block_seq <$> [demo 1 65535 9 true]).
Proof.
  eexists _, _. split; [vm_compute; reflexivity|].
  eapply (wrapped_frame_never_delivered Some 3 [demo 1 65535 9 true; demo 2 0 9 true]);
    [intros; by simplify_eq|lia|vm_compute; reflexivity|left|vm_compute; reflexivity].
Defined.

Lemma marker_first_delivers_alone_witness :
  exists this ev,
    run Some [demo 3 7 9 true] (init true 3 CRtpFrameOrganizer_new).2 = Some (this, ev) /\
    frames ev = [[demo 3 7 9 true]] /\ m_RtpFrameMap this = ∅.
Proof.
  apply (marker_first_delivers_alone (fun b => b) 9 7 (demo 3 7 9 true)); [done|lia|].
  repeat eexists; vm_compute; try reflexivity; intros [=].
Defined.
