(* ===== verification/RtpPacker.v ===== *)
(** * RTP packager: [svs_adapter_rtp_packer.cpp], [svs_adapter_rtp_packer.h]

    [CH264Packager] cuts an H.264 NAL unit into RTP packets (single NAL unit
    packets and FU-A fragments) and packs AAC and G.711 audio. It builds every
    packet in one of two 1500-byte members of the object and hands a prefix of
    that member to [CRtpHandle::handleRtpPacket]: an operation returns the new
    object and the packets handed on, in order. A (pointer, length) argument is
    the list of the bytes it delimits; an access outside it, or outside the
    members, makes the operation return [None]. *)

From S2P Require Import Prelude RtpPacket.
Open Scope Z_scope.

Definition PCMU : Z := 0.
Definition PCM_HZ : Z := 8000.
Definition PT_ACC : Z := 97.
Definition PT_H264 : Z := 96.
Definition H264_HZ : Z := 90000.
Definition RTP_FUA : Z := 28.
Definition RTP_HDR_LEN : Z := 12.
Definition RTP_SSRC : Z := 78541.
Definition RTP_PLAYLOAD_LEN : Z := 1400.
Definition RTP_PACK_BUF_SIZE : Z := 1500.
Definition AU_HEADER_SIZE : Z := 4.

(** [H264_NALU_HEADER] and [FU_INDICATOR] have the same layout. *)
Definition nalu_TYPE (h : Z) : Z := get_field 0 5 h.
Definition nalu_NRI (h : Z) : Z := get_field 5 2 h.
Definition nalu_F (h : Z) : Z := get_field 7 1 h.
Record CPackager : Type := {
  m_pSendVideoBuf : list Z;
  m_pSendAudioBuf : list Z;
  m_usCacheAudiFrameCount : Z;
  m_VideoRTPSeq : Z;
  m_AudioRTPSeq : Z;
  m_ulVideoTimeStamp : Z;
  m_ulAudioTimeStamp : Z;
  m_ulVideoPt : Z;
  m_ulAudioPt : Z;
  m_ulVideoClockFreq : Z;
  m_ulAudioClockFreq : Z }.

(** [CPackager::CPackager] followed by [CH264Packager::CH264Packager]. *)
Definition CH264Packager_new : CPackager :=
  {| m_pSendVideoBuf := replicate (Z.to_nat RTP_PACK_BUF_SIZE) 0;
     m_pSendAudioBuf := replicate (Z.to_nat RTP_PACK_BUF_SIZE) 0;
     m_usCacheAudiFrameCount := 0;
     m_VideoRTPSeq := 0; m_AudioRTPSeq := 0;
     m_ulVideoTimeStamp := 0; m_ulAudioTimeStamp := 0;
     m_ulVideoPt := PT_H264; m_ulAudioPt := PCMU;
     m_ulVideoClockFreq := H264_HZ; m_ulAudioClockFreq := PCM_HZ |}.

Definition Init (ulVideoPt ulAudioPt ulVideoClockFreq ulAudioClockFreq : Z)
    (this : CPackager) : CPackager :=
  {| m_pSendVideoBuf := m_pSendVideoBuf this; m_pSendAudioBuf := m_pSendAudioBuf this;
     m_usCacheAudiFrameCount := m_usCacheAudiFrameCount this;
     m_VideoRTPSeq := m_VideoRTPSeq this; m_AudioRTPSeq := m_AudioRTPSeq this;
     m_ulVideoTimeStamp := m_ulVideoTimeStamp this;
     m_ulAudioTimeStamp := m_ulAudioTimeStamp this;
     m_ulVideoPt := ulVideoPt; m_ulAudioPt := ulAudioPt;
     m_ulVideoClockFreq := ulVideoClockFreq;
     m_ulAudioClockFreq := ulAudioClockFreq |}.

(** The video and the audio half of the object after an operation. *)
Definition with_video (buf : list Z) (seq ts : Z) (this : CPackager) : CPackager :=
  {| m_pSendVideoBuf := buf; m_pSendAudioBuf := m_pSendAudioBuf this;
     m_usCacheAudiFrameCount := m_usCacheAudiFrameCount this;
     m_VideoRTPSeq := seq; m_AudioRTPSeq := m_AudioRTPSeq this;
     m_ulVideoTimeStamp := ts; m_ulAudioTimeStamp := m_ulAudioTimeStamp this;
     m_ulVideoPt := m_ulVideoPt this; m_ulAudioPt := m_ulAudioPt this;
     m_ulVideoClockFreq := m_ulVideoClockFreq this;
     m_ulAudioClockFreq := m_ulAudioClockFreq this |}.
Definition with_audio (buf : list Z) (seq ts : Z) (this : CPackager) : CPackager :=
  {| m_pSendVideoBuf := m_pSendVideoBuf this; m_pSendAudioBuf := buf;
     m_usCacheAudiFrameCount := m_usCacheAudiFrameCount this;
     m_VideoRTPSeq := m_VideoRTPSeq this; m_AudioRTPSeq := seq;
     m_ulVideoTimeStamp := m_ulVideoTimeStamp this; m_ulAudioTimeStamp := ts;
     m_ulVideoPt := m_ulVideoPt this; m_ulAudioPt := m_ulAudioPt this;
     m_ulVideoClockFreq := m_ulVideoClockFreq this;
     m_ulAudioClockFreq := m_ulAudioClockFreq this |}.

(** ** Header stores: [rtp_hdr->field = v] *)

Definition hdr_payload (v : Z) := set_bits 1 0 7 v.
Definition hdr_marker (v : Z) := set_bits 1 7 1 v.
Definition hdr_version (v : Z) := set_bits 0 6 2 v.
Definition hdr_extension (v : Z) := set_bits 0 4 1 v.
Definition hdr_seq (v : Z) (buf : list Z) := memcpy buf 2 (put16 (ntohs v)).
Definition hdr_timestamp (v : Z) (buf : list Z) := memcpy buf 4 (put32 (ntohl v)).
Definition hdr_ssrc (v : Z) (buf : list Z) := memcpy buf 8 (put32 (ntohl v)).

(** Lines 146-150 and 273-293: the fixed part of the header. *)
Definition start_header (pt : Z) (buf : list Z) : option (list Z) :=
  buf ← hdr_payload pt buf; buf ← hdr_version 2 buf; buf ← hdr_marker 0 buf;
  buf ← hdr_extension 0 buf; hdr_ssrc RTP_SSRC buf.

(** One branch of the loop of [SendNaluVideoData]: marker, FU indicator and
    header, [len] bytes of the NAL unit from offset [off]; the packet handed
    on is the first [len + 14] bytes of the buffer. *)
Definition fu_fragment (marker E S : Z) (pNalu : list Z) (off len : Z) (buf : list Z)
    : option (list Z * Z) :=
  nalu_hdr ← rd pNalu 0;
  buf ← hdr_marker marker buf;
  buf ← set_bits RTP_HDR_LEN 7 1 (nalu_F nalu_hdr) buf;
  buf ← set_bits RTP_HDR_LEN 5 2 (nalu_NRI nalu_hdr) buf;
  buf ← set_bits RTP_HDR_LEN 0 5 RTP_FUA buf;
  buf ← set_bits (RTP_HDR_LEN + 1) 6 1 E buf;
  buf ← set_bits (RTP_HDR_LEN + 1) 5 1 0 buf;
  buf ← set_bits (RTP_HDR_LEN + 1) 7 1 S buf;
  buf ← set_bits (RTP_HDR_LEN + 1) 0 5 (nalu_TYPE nalu_hdr) buf;
  src ← sub pNalu off len;
  buf ← memcpy buf (RTP_HDR_LEN + 2) src;
  Some (buf, u32 (len + RTP_HDR_LEN + 2)).

(** The loop [while (t <= k)] on (buffer, sequence number); [fuel] bounds its
    turns. A turn with none of the three conditions would spin: [None]. *)
Fixpoint fu_loop (fuel : nat) (pNalu : list Z) (k lLastLen t : Z) (buf : list Z) (seq : Z)
    : option (list Z * Z * list (list Z)) :=
  match fuel with
  | O => None
  | S fuel =>
    if t <=? k then
      buf ← hdr_seq seq buf;
      let seq := u16 (seq + 1) in
      '(buf, ulSize) ←
        (if t =? 0 then fu_fragment 0 0 1 pNalu 1 RTP_PLAYLOAD_LEN buf
         else if k =? t then
           fu_fragment 1 1 0 pNalu (u32 (t * RTP_PLAYLOAD_LEN) + 1) lLastLen buf
         else if t <? k then
           fu_fragment 0 0 0 pNalu (u32 (t * RTP_PLAYLOAD_LEN) + 1) RTP_PLAYLOAD_LEN buf
         else None);
      pkt ← sub buf 0 ulSize;
      '(buf, seq, pkts) ← fu_loop fuel pNalu k lLastLen (u32 (t + 1)) buf seq;
      Some (buf, seq, pkt :: pkts)
    else Some (buf, seq, [])
  end.

Definition SendNaluVideoData (pNalu : list Z) (ulTimeStamp : Z) (this : CPackager)
    : option (CPackager * list (list Z)) :=
  let ulNaluLen := u32 (zlen pNalu - 1) in
  buf ← start_header (m_ulVideoPt this) (m_pSendVideoBuf this);
  let ts := u32 (ulTimeStamp * (m_ulVideoClockFreq this / 1000)) in
  let seq := m_VideoRTPSeq this in
  if ulNaluLen <=? RTP_PLAYLOAD_LEN then
    buf ← hdr_marker 1 buf; buf ← hdr_seq seq buf; buf ← hdr_timestamp ts buf;
    src ← sub pNalu 0 (u32 (ulNaluLen + 1));
    buf ← memcpy buf RTP_HDR_LEN src;
    pkt ← sub buf 0 (u32 (RTP_HDR_LEN + ulNaluLen + 1));
    Some (with_video buf (u16 (seq + 1)) ts this, [pkt])
  else
    let k := ulNaluLen / RTP_PLAYLOAD_LEN in
    let lLastLen := ulNaluLen mod RTP_PLAYLOAD_LEN in
    let '(k, lLastLen) :=
      if lLastLen =? 0 then (u32 (k - 1), RTP_PLAYLOAD_LEN) else (k, lLastLen) in
    buf ← hdr_timestamp ts buf;
    '(buf, seq, pkts) ← fu_loop (Z.to_nat k + 2) pNalu k lLastLen 0 buf seq;
    Some (with_video buf seq ts this, pkts).

(** [FindStartCode]: the length of the start code at the head of the buffer. *)
Definition FindStartCode (pBuf : list Z) : option Z :=
  match pBuf with
  | b0 :: b1 :: b2 :: b3 :: _ =>
    if (b0 =? 0) && (b1 =? 0) && (b2 =? 0) && (b3 =? 1) then Some 4
    else if (b0 =? 0) && (b1 =? 0) && (b2 =? 1) then Some 3
    else None
  | _ => None
  end.

(** [SendRawVideoData], as compiled without [__CUT_PPS_SPS_FRAME__]: one NAL
    unit behind one start code. The result of [SendNaluVideoData] is 0. *)
Definition SendRawVideoData (pBuf : list Z) (ulTimeStamp : Z) (this : CPackager)
    : option (CPackager * list (list Z)) :=
  match FindStartCode pBuf with
  | None => Some (this, [])
  | Some ulStartcodeLen =>
    SendNaluVideoData (drop (Z.to_nat ulStartcodeLen) pBuf) ulTimeStamp this
  end.

(** The loop [while (ulBufLen > payload)] of the AAC branch; [off] is a
    [uint16_t]. *)
Fixpoint aac_loop (fuel : nat) (pBuf : list Z) (ulBufLen off : Z) (buf : list Z) (seq : Z)
    : option (list Z * Z * list (list Z) * Z * Z) :=
  match fuel with
  | O => None
  | S fuel =>
    let payload := u16 (RTP_PLAYLOAD_LEN - AU_HEADER_SIZE) in
    if payload <? ulBufLen then
      src ← sub pBuf off payload;
      buf ← memcpy buf (RTP_HDR_LEN + AU_HEADER_SIZE) src;
      buf ← hdr_seq seq buf;
      buf ← hdr_marker 0 buf;
      pkt ← sub buf 0 (RTP_PLAYLOAD_LEN + RTP_HDR_LEN);
      '(buf, seq, pkts, n, off) ←
        aac_loop fuel pBuf (u32 (ulBufLen - payload)) (u16 (off + payload)) buf
          (u16 (seq + 1));
      Some (buf, seq, pkt :: pkts, n, off)
    else Some (buf, seq, [], ulBufLen, off)
  end.

Definition SendRawAudioData (pBuf : list Z) (ulTimeStamp : Z) (this : CPackager)
    : option (CPackager * list (list Z)) :=
  let ulBufLen := zlen pBuf in
  let seq := m_AudioRTPSeq this in
  let ts := u32 (ulTimeStamp * (m_ulAudioClockFreq this / 1000)) in
  buf ← start_header (m_ulAudioPt this) (m_pSendAudioBuf this);
  buf ← hdr_timestamp ts buf;
  if PT_ACC =? m_ulAudioPt this then
    buf ← memcpy buf RTP_HDR_LEN
      [0; 16; u8 (Z.shiftr (Z.land ulBufLen 0x1fe0) 5);
       u8 (Z.shiftl (Z.land ulBufLen 0x1f) 3)];
    '(buf, seq, pkts, n, off) ← aac_loop (S (length pBuf)) pBuf ulBufLen 0 buf seq;
    src ← sub pBuf off n;
    buf ← memcpy buf (RTP_HDR_LEN + AU_HEADER_SIZE) src;
    buf ← hdr_marker 1 buf;
    buf ← hdr_seq seq buf;
    pkt ← sub buf 0 (u32 (n + AU_HEADER_SIZE + RTP_HDR_LEN));
    Some (with_audio buf (u16 (seq + 1)) ts this, pkts ++ [pkt])
  else
    buf ← hdr_seq seq buf;
    buf ← hdr_marker 1 buf;
    buf ← memcpy buf RTP_HDR_LEN pBuf;
    pkt ← sub buf 0 (u32 (ulBufLen + RTP_HDR_LEN));
    Some (with_audio buf (u16 (seq + 1)) ts this, [pkt]).

(** The search of [FindNaluEnd]: the first position below [n] that holds a
    start code. The bytes are read through [char]. *)
Fixpoint nalu_end_loop (fuel : nat) (pBuf : list Z) (n i : Z) : option (option Z) :=
  match fuel with
  | O => None
  | S fuel =>
    if i <? n then
      p2 ← rd pBuf (i + 2);
      if 1 <? s8 p2 then nalu_end_loop fuel pBuf n (u32 (i + 3))
      else
        p1 ← rd pBuf (i + 1);
        if negb (p1 =? 0) then nalu_end_loop fuel pBuf n (u32 (i + 2))
        else
          p0 ← rd pBuf i;
          if negb (p0 =? 0) then nalu_end_loop fuel pBuf n (u32 (i + 1))
          else
            p3 ← rd pBuf (i + 3);
            if ((p0 =? 0) && (p1 =? 0) && (p2 =? 1)) ||
               ((p0 =? 0) && (p1 =? 0) && (p2 =? 0) && (p3 =? 1))
            then Some (Some i)
            else nalu_end_loop fuel pBuf n (u32 (i + 1))
    else Some None
  end.

(** [(found, ulNalLen)]; [None] of the outer option is an access outside. *)
Definition FindNaluEnd (pBuf : list Z) : option (option Z) :=
  if zlen pBuf <? 4 then Some None
  else
    r ← nalu_end_loop (S (length pBuf)) pBuf (u32 (zlen pBuf - 3)) 0;
    Some (Some (default (zlen pBuf) r)).

(** ** The packets of a NAL unit *)

(** A packet as RFC 3550 lays it out: version 2, no padding, sources or
    extension. *)
Definition rtp_packet (pt seq ts : Z) (m : bool) (pl : list Z) : list Z :=
  [128; 128 * Z.b2z m + pt mod 128] ++ be16 seq ++ be32 ts ++ be32 RTP_SSRC ++ pl.

(** RFC 6184: the FU indicator and header of a fragment of the NAL unit with
    header byte [h]. *)
Definition fu_indicator (h : Z) : Z := RTP_FUA + 32 * (h / 32).
Definition fu_header (h : Z) (S E : bool) : Z :=
  h mod 32 + 64 * Z.b2z E + 128 * Z.b2z S.

Fixpoint fu_payloads (h : Z) (S : bool) (chunks : list (list Z)) : list (list Z) :=
  match chunks with
  | [] => []
  | c :: chunks =>
    let E := match chunks with [] => true | _ => false end in
    (fu_indicator h :: fu_header h S E :: c) :: fu_payloads h false chunks
  end.

(** The packets of one frame: consecutive sequence numbers, the marker on the
    last packet. *)
Fixpoint frame_of (pt seq ts : Z) (pls : list (list Z)) : list (list Z) :=
  match pls with
  | [] => []
  | pl :: pls =>
    rtp_packet pt seq ts match pls with [] => true | _ => false end pl
      :: frame_of pt (u16 (seq + 1)) ts pls
  end.

(** [l] cut into pieces of [sz] bytes, the last one not empty. *)
Fixpoint chunks (sz : Z) (fuel : nat) (l : list Z) : list (list Z) :=
  match fuel with
  | O => []
  | S fuel =>
    if zlen l <=? sz then [l]
    else take (Z.to_nat sz) l :: chunks sz fuel (drop (Z.to_nat sz) l)
  end.

(** The payloads of the packets of a NAL unit. *)
Definition nal_payloads (nal : list Z) : list (list Z) :=
  match nal with
  | [] => []
  | h :: body =>
    if zlen body <=? RTP_PLAYLOAD_LEN then [nal]
    else fu_payloads h true (chunks 1400 (length body) body)
  end.

(** A member buffer between two operations: the first header byte has at most
    the version set. *)
Definition send_buf (buf : list Z) : Prop :=
  exists b0 b1 t rest, buf = b0 :: b1 :: t ++ rest /\ (b0 = 0 \/ b0 = 128) /\
    is_byte b1 /\ length t = 10%nat /\ bytes_ok t /\ zlen rest = 1488 /\ bytes_ok rest.

Lemma set_bits_at a b off lo w v x : zlen a = off ->
  set_bits off lo w v (a ++ x :: b) = Some (a ++ set_field lo w x v :: b).
Proof.
  intros Ha. unfold set_bits.
  rewrite rd_app_r by lia. replace (off - zlen a) with 0 by lia. cbn [rd_0 mbind option_bind].
  change (rd (x :: b) 0) with (Some x). cbn [mbind option_bind].
  rewrite <-Ha. change (x :: b) with ([x] ++ b).
  exact (memcpy_app a [x] b [set_field lo w x v] eq_refl).
Qed.

Lemma set_bits_0 lo w v x b : set_bits 0 lo w v (x :: b) = Some (set_field lo w x v :: b).
Proof. by apply (set_bits_at []). Qed.
Lemma set_bits_1 lo w v x y b :
  set_bits 1 lo w v (y :: x :: b) = Some (y :: set_field lo w x v :: b).
Proof. by apply (set_bits_at [y]). Qed.

(** Bit-field stores on numbers. *)
Ltac bit_arith :=
  rewrite ?set_field_arith, ?get_field_arith by lia;
  repeat match goal with
  | |- context [2 ^ ?n] => let v := eval compute in (2 ^ n) in change (2 ^ n) with v
  end; unfold fits in *; try lia.

(** The header in the buffer while packets are built. *)
Definition packet_buf (pt : Z) (m : Z) (sq : list Z) (ts : Z) (rest : list Z) : list Z :=
  128 :: (128 * m + pt mod 128) :: sq ++ be32 ts ++ be32 RTP_SSRC ++ rest.

Lemma packet_buf_send pt m sq ts rest : length sq = 2%nat -> bytes_ok sq -> 0 <= m <= 1 ->
  zlen rest = 1488 -> bytes_ok rest -> send_buf (packet_buf pt m sq ts rest).
Proof.
  intros Hs Hsq Hm Hr Hok.
  exists 128, (128 * m + pt mod 128), (sq ++ be32 ts ++ be32 RTP_SSRC), rest.
  split; [unfold packet_buf; by rewrite <-!(assoc (++))|].
  split; [by right|]. split; [unfold fits; lia|]. split; [by rewrite length_app, Hs|].
  split; [|done]. rewrite !Forall_app. auto with media.
Qed.

Lemma start_header_spec pt buf : send_buf buf ->
  exists sq ts rest, length sq = 2%nat /\ bytes_ok sq /\ zlen rest = 1488 /\
    bytes_ok rest /\ start_header pt buf = Some (packet_buf pt 0 sq ts rest).
Proof.
  intros (b0 & b1 & t & rest & -> & Hb0 & Hb1 & Ht & Htok & Hr & Hok).
  destruct t as [|s0 [|s1 [|t0 [|t1 [|t2 [|t3 t]]]]]]; try done.
  do 6 apply Forall_cons in Htok as [? Htok].
  exists [s0; s1], (le32 t3 t2 t1 t0), rest. split; [done|].
  split; [by repeat (apply Forall_cons; split)|]. split; [done|]. split; [done|].
  unfold start_header, hdr_payload, hdr_version, hdr_marker, hdr_extension.
  rewrite set_bits_1. cbn [mbind option_bind]. rewrite set_bits_0. cbn [mbind option_bind].
  rewrite set_bits_1. cbn [mbind option_bind]. rewrite set_bits_0. cbn [mbind option_bind].
  unfold hdr_ssrc. rewrite put32_ntohl. set (x0 := set_field _ _ _ _).
  assert (x0 = 128) as ->. { destruct Hb0 as [-> | ->]; reflexivity. }
  set (x1 := set_field _ _ _ _).
  assert (x1 = 128 * 0 + pt mod 128) as ->. { unfold x1. bit_arith. }
  unfold packet_buf. rewrite be32_le32 by done.
  apply (memcpy_mid (128 :: 128 * 0 + pt mod 128 :: [s0; s1; t0; t1; t2; t3]) t rest);
    [done|cbn in *; lia].
Qed.

Lemma hdr_timestamp_spec pt m sq ts rest ts' : length sq = 2%nat ->
  hdr_timestamp ts' (packet_buf pt m sq ts rest) = Some (packet_buf pt m sq ts' rest).
Proof.
  intros Hs. unfold hdr_timestamp, packet_buf. rewrite put32_ntohl.
  destruct sq as [|s0 [|s1 [|? ?]]]; try done.
  by apply (memcpy_mid [128; 128 * m + pt mod 128; s0; s1] (be32 ts)).
Qed.

Lemma hdr_seq_spec pt m sq ts rest seq : length sq = 2%nat ->
  hdr_seq seq (packet_buf pt m sq ts rest) = Some (packet_buf pt m (be16 seq) ts rest).
Proof.
  intros Hs. unfold hdr_seq, packet_buf. rewrite put16_ntohs.
  by apply (memcpy_mid [128; 128 * m + pt mod 128] sq).
Qed.

Lemma hdr_marker_spec pt m sq ts rest m' : 0 <= m <= 1 -> 0 <= m' <= 1 ->
  hdr_marker m' (packet_buf pt m sq ts rest) = Some (packet_buf pt m' sq ts rest).
Proof.
  intros Hm Hm'. unfold hdr_marker, packet_buf. rewrite set_bits_1.
  do 2 f_equal. f_equal. bit_arith.
Qed.

Lemma payload_store pt m sq ts rest off src : length sq = 2%nat ->
  off = 12 -> zlen src <= zlen rest ->
  memcpy (packet_buf pt m sq ts rest) off src =
    Some (packet_buf pt m sq ts (src ++ drop (length src) rest)).
Proof.
  intros Hs -> Hl.
  pose proof (memcpy_at (packet_buf pt m sq ts []) rest 12 src) as H.
  unfold packet_buf in *. rewrite app_nil_r in H. cbn [app] in H.
  rewrite <-!(assoc (++)) in H. apply H; [|done].
  destruct sq as [|? [|? [|? ?]]]; done.
Qed.

Lemma packet_prefix pt m seq ts pl rest len : len = 12 + zlen pl -> 0 <= m <= 1 ->
  sub (packet_buf pt m (be16 seq) ts (pl ++ rest)) 0 len
    = Some (rtp_packet pt seq ts (m =? 1) pl).
Proof.
  intros -> Hm.
  assert (packet_buf pt m (be16 seq) ts (pl ++ rest) =
          rtp_packet pt seq ts (m =? 1) pl ++ rest) as ->.
  { unfold packet_buf, rtp_packet. rewrite <-!(assoc (++)). cbn [app].
    do 2 f_equal. destruct (Z.eqb_spec m 1); cbn [Z.b2z]; lia. }
  apply sub_prefix. unfold rtp_packet. zl.
Qed.

(** Byte [n] of the payload area. *)
Lemma set_bits_payload pt m sq ts a x b off lo w v : length sq = 2%nat ->
  off = 12 + zlen a ->
  set_bits off lo w v (packet_buf pt m sq ts (a ++ x :: b)) =
    Some (packet_buf pt m sq ts (a ++ set_field lo w x v :: b)).
Proof.
  intros Hs ->.
  pose proof (set_bits_at (packet_buf pt m sq ts a) b (12 + zlen a) lo w v x) as H.
  unfold packet_buf in *. cbn [app] in H. rewrite <-!(assoc (++)) in H. apply H.
  destruct sq as [|? [|? [|? ?]]]; try done. zl.
Qed.

Lemma set_bits_fu_indicator pt m sq ts x b lo w v : length sq = 2%nat ->
  set_bits 12 lo w v (packet_buf pt m sq ts (x :: b)) =
    Some (packet_buf pt m sq ts (set_field lo w x v :: b)).
Proof. intros Hs. by apply (set_bits_payload _ _ _ _ []). Qed.

Lemma set_bits_fu_header pt m sq ts y x b lo w v : length sq = 2%nat ->
  set_bits (12 + 1) lo w v (packet_buf pt m sq ts (y :: x :: b)) =
    Some (packet_buf pt m sq ts (y :: set_field lo w x v :: b)).
Proof. intros Hs. by apply (set_bits_payload _ _ _ _ [y]). Qed.

Definition fu_bit (m E S : Z) : Prop := 0 <= m <= 1 /\ 0 <= E <= 1 /\ 0 <= S <= 1.

Lemma fu_indicator_store x h : is_byte x -> is_byte h ->
  set_field 0 5 (set_field 5 2 (set_field 7 1 x (nalu_F h)) (nalu_NRI h)) RTP_FUA
    = fu_indicator h.
Proof.
  intros Hx Hh. unfold fu_indicator, nalu_F, nalu_NRI, RTP_FUA. bit_arith.
Qed.

Lemma fu_header_store y h E S : is_byte y -> is_byte h -> 0 <= E <= 1 -> 0 <= S <= 1 ->
  set_field 0 5 (set_field 7 1 (set_field 5 1 (set_field 6 1 y E) 0) S) (nalu_TYPE h)
    = fu_header h (S =? 1) (E =? 1).
Proof.
  intros Hy Hh HE HS. unfold fu_header, nalu_TYPE. bit_arith.
  destruct (Z.eqb_spec S 1), (Z.eqb_spec E 1); cbn [Z.b2z]; lia.
Qed.

Lemma fu_fragment_spec pt m m' E S sq ts rest pNalu h c off len :
  length sq = 2%nat -> 0 <= m <= 1 -> fu_bit m' E S -> zlen rest = 1488 -> bytes_ok rest ->
  rd pNalu 0 = Some h -> is_byte h -> sub pNalu off len = Some c -> len <= 1400 ->
  fu_fragment m' E S pNalu off len (packet_buf pt m sq ts rest) =
    Some (packet_buf pt m' sq ts
      ((fu_indicator h :: fu_header h (S =? 1) (E =? 1) :: c) ++ drop (2 + length c) rest),
      len + 14).
Proof.
  intros Hs Hm (Hm' & HE & HS) Hr Hok Hh Hb Hc Hlen. pose proof (sub_length _ _ _ _ Hc) as Hl.
  destruct rest as [|x [|y rest]]; [done|done|].
  apply Forall_cons in Hok as [Hx [Hy Hok]%Forall_cons].
  unfold fu_fragment, RTP_HDR_LEN. rewrite Hh. cbn [mbind option_bind].
  rewrite hdr_marker_spec by done. cbn [mbind option_bind].
  do 3 (rewrite set_bits_fu_indicator by done; cbn [mbind option_bind]).
  rewrite fu_indicator_store by done.
  do 4 (rewrite set_bits_fu_header by done; cbn [mbind option_bind]).
  rewrite fu_header_store, Hc by done. cbn [mbind option_bind].
  pose proof (memcpy_at (packet_buf pt m' sq ts [fu_indicator h; fu_header h (S =? 1) (E =? 1)])
    rest (12 + 2) c) as H.
  unfold packet_buf in *. cbn [app] in H. rewrite <-!(assoc (++)) in H. cbn [app] in H.
  rewrite H; clear H.
  - pose proof (zlen_nonneg c).
    cbn [mbind option_bind]. unfold u32. rewrite wrap_small by (unfold fits; lia).
    do 2 f_equal. lia.
  - destruct sq as [|? [|? [|? ?]]]; done.
  - zl.
Qed.

Lemma fu_indicator_byte h : is_byte h -> is_byte (fu_indicator h).
Proof. unfold fits, fu_indicator, RTP_FUA. lia. Qed.

Lemma fu_header_byte h S E : is_byte h -> is_byte (fu_header h S E).
Proof. unfold fits, fu_header. intros. destruct S, E; cbn [Z.b2z]; lia. Qed.

Lemma sub_cons x l off len k : 0 <= off -> sub l off len = Some k ->
  sub (x :: l) (off + 1) len = Some k.
Proof.
  unfold sub. intros Ho. case_decide as H; [|done]. intros [= <-].
  rewrite decide_True by (cbn; lia). rewrite Z2Nat.inj_add by lia.
  replace (Z.to_nat off + Z.to_nat 1)%nat with (S (Z.to_nat off)) by lia. done.
Qed.

Lemma fu_packets_cons pt seq ts h S c cs : cs <> [] ->
  frame_of pt seq ts (fu_payloads h S (c :: cs)) =
    rtp_packet pt seq ts false (fu_indicator h :: fu_header h S false :: c)
      :: frame_of pt (u16 (seq + 1)) ts (fu_payloads h false cs).
Proof. by destruct cs. Qed.

Lemma chunks_S sz n l : chunks sz (S n) l <> [].
Proof. cbn. by case_match. Qed.

Section Fragments.
  Context (pt ts h : Z) (body : list Z) (k lLastLen : Z).
  Hypothesis Hh : is_byte h.
  Hypothesis Hbody : bytes_ok body.
  Hypothesis Hk : zlen body = k * 1400 + lLastLen.
  Hypothesis Hlast : 1 <= lLastLen <= 1400.
  Hypothesis Hlen : zlen body < 2 ^ 32 - 1.
  Hypothesis Hk1 : 1 <= k.

(** The fragment of turn [t] and its length. *)
Definition turn_len (t : Z) : Z := if t =? k then lLastLen else 1400.

Lemma turn_chunk t : 0 <= t <= k ->
  sub (h :: body) (u32 (t * RTP_PLAYLOAD_LEN) + 1) (turn_len t) =
    Some (take (Z.to_nat (turn_len t)) (drop (Z.to_nat (t * 1400)) body)).
Proof.
  intros Ht. unfold RTP_PLAYLOAD_LEN, u32, turn_len.
  rewrite wrap_small by (unfold fits; lia). apply sub_cons; [lia|].
  apply sub_Some; destruct (Z.eqb_spec t k); nia.
Qed.

Lemma turn_fragment t : 0 <= t <= k -> forall buf,
  (if t =? 0 then fu_fragment 0 0 1 (h :: body) 1 RTP_PLAYLOAD_LEN buf
   else if k =? t then
     fu_fragment 1 1 0 (h :: body) (u32 (t * RTP_PLAYLOAD_LEN) + 1) lLastLen buf
   else if t <? k then
     fu_fragment 0 0 0 (h :: body) (u32 (t * RTP_PLAYLOAD_LEN) + 1) RTP_PLAYLOAD_LEN buf
   else None) =
  fu_fragment (Z.b2z (t =? k)) (Z.b2z (t =? k)) (Z.b2z (t =? 0)) (h :: body)
    (u32 (t * RTP_PLAYLOAD_LEN) + 1) (turn_len t) buf.
Proof.
  intros Ht buf. unfold turn_len. rewrite (Z.eqb_sym k t).
  destruct (Z.eqb_spec t 0) as [H0|H0], (Z.eqb_spec t k), (Z.ltb_spec t k); try lia;
    by rewrite ?H0.
Qed.

Lemma chunks_turn n t : 0 <= t <= k ->
  chunks 1400 (S n) (drop (Z.to_nat (t * 1400)) body) =
    if t =? k then [drop (Z.to_nat (t * 1400)) body]
    else take 1400 (drop (Z.to_nat (t * 1400)) body) ::
         chunks 1400 n (drop (Z.to_nat ((t + 1) * 1400)) body).
Proof.
  intros Ht. cbn [chunks].
  destruct (Z.leb_spec (zlen (drop (Z.to_nat (t * 1400)) body)) 1400), (Z.eqb_spec t k);
    zl; try nia; [done|].
  f_equal. rewrite drop_drop. do 2 f_equal. nia.
Qed.

Lemma fu_loop_spec j : forall fuel n t m sq rest seq,
  (j < fuel)%nat -> (j <= n)%nat -> t + Z.of_nat j = k + 1 -> 0 <= t ->
  length sq = 2%nat -> bytes_ok sq -> 0 <= m <= 1 -> zlen rest = 1488 -> bytes_ok rest ->
  (j = 0%nat -> fits 16 seq) ->
  exists m' sq' rest',
    fu_loop fuel (h :: body) k lLastLen t (packet_buf pt m sq ts rest) seq =
      Some (packet_buf pt m' sq' ts rest', u16 (seq + Z.of_nat j),
            if t <=? k then
              frame_of pt seq ts
                (fu_payloads h (t =? 0) (chunks 1400 n (drop (Z.to_nat (t * 1400)) body)))
            else []) /\
    length sq' = 2%nat /\ bytes_ok sq' /\ 0 <= m' <= 1 /\ zlen rest' = 1488 /\
    bytes_ok rest'.
Proof.
  induction j as [|j IH]; intros [|fuel] n t m sq rest seq Hf Hn Ht Ht0 Hs Hsq Hm Hr Hok Hseq;
    try lia; cbn [fu_loop].
  { destruct (Z.leb_spec t k); [lia|]. exists m, sq, rest.
    rewrite Z.add_0_r. unfold u16. by rewrite wrap_small by auto. }
  destruct (Z.leb_spec t k); [|lia]. rewrite hdr_seq_spec by done. cbn [mbind option_bind].
  rewrite turn_fragment by lia. pose proof (turn_chunk t ltac:(lia)) as Hc.
  set (c := take _ _) in Hc. pose proof (sub_length _ _ _ _ Hc) as Hcl.
  assert (turn_len t <= 1400) as Htl by (unfold turn_len; case_match; lia).
  rewrite (fu_fragment_spec pt m _ _ _ _ ts rest (h :: body) h c) by
    (try done; unfold fu_bit; destruct (t =? k), (t =? 0); cbn; lia).
  cbn [mbind option_bind].
  rewrite (packet_prefix pt _ seq ts (fu_indicator h :: _ :: c)) by
    (try (zl); destruct (t =? k); cbn; lia).
  cbn [mbind option_bind].
  assert (u32 (t + 1) = t + 1) as ->.
  { unfold u32. apply wrap_small. unfold fits. nia. }
  destruct n as [|n]; [lia|].
  assert (forall b, (Z.b2z b =? 1) = b) as Eb by (by intros []). rewrite !Eb.
  set (fh := fu_header _ _ _). set (rest1 := _ ++ drop _ rest).
  destruct (IH fuel n (t + 1) (Z.b2z (t =? k)) (be16 seq) rest1 (u16 (seq + 1)))
    as (m' & sq' & rest' & -> & Hs' & Hsq' & Hm' & Hr' & Hok'); try lia.
  { done. }
  { apply be16_bytes. }
  { destruct (t =? k); cbn; lia. }
  { unfold rest1. zl. }
  { unfold rest1. apply Forall_app. split; [|by apply Forall_drop].
    apply Forall_cons. split; [by apply fu_indicator_byte|].
    apply Forall_cons. split; [by apply fu_header_byte|].
    eapply sub_bytes; [|exact Hc]. by constructor. }
  { intros _. apply wrap_fits. lia. }
  cbn [mbind option_bind]. exists m', sq', rest'. split; [|done].
  do 2 f_equal; [f_equal; unfold u16; rewrite wrap_add_l; f_equal; lia|].
  rewrite chunks_turn by lia. unfold fh. destruct (Z.eqb_spec t k) as [->|Hne].
  - rewrite (proj2 (Z.leb_gt (k + 1) k)) by lia. cbn [fu_payloads frame_of]. do 4 f_equal.
    unfold c, turn_len. rewrite Z.eqb_refl. apply take_ge. rewrite length_drop.
    unfold zlen in Hk. lia.
  - rewrite (proj2 (Z.leb_le (t + 1) k)), (proj2 (Z.eqb_neq (t + 1) 0)) by lia.
    destruct n as [|n]; [lia|]. rewrite fu_packets_cons by apply chunks_S.
    do 2 f_equal. unfold c, turn_len. by rewrite (proj2 (Z.eqb_neq t k)).
Qed.
End Fragments.

Lemma frame_of_length pt seq ts pls : zlen (frame_of pt seq ts pls) = zlen pls.
Proof. revert seq. induction pls as [|c pls IH]; intros; [done|]. cbn. by rewrite !zlen_cons, IH. Qed.

Lemma fu_payloads_length h S cs : zlen (fu_payloads h S cs) = zlen cs.
Proof. revert S. induction cs as [|c cs IH]; intros; [done|]. cbn. by rewrite !zlen_cons, IH. Qed.

Lemma chunks_length n l : (length l <= n * 1400)%nat -> l <> [] ->
  zlen (chunks 1400 n l) = (zlen l + 1399) / 1400.
Proof.
  revert l. induction n as [|n IH]; intros l Hn Hl.
  { destruct l; [done|]. cbn in Hn. lia. }
  cbn [chunks]. destruct (Z.leb_spec (zlen l) 1400).
  - assert (0 < zlen l) by (destruct l; [done|zl; pose proof (zlen_nonneg l); lia]). zl.
  - rewrite zlen_cons, IH.
    + zl.
    + rewrite length_drop. lia.
    + intros E. apply (f_equal zlen) in E. zl.
Qed.

(** The state of the video half of the object between two operations. *)
Definition video_ok (this : CPackager) : Prop :=
  send_buf (m_pSendVideoBuf this) /\ fits 16 (m_VideoRTPSeq this).
Definition audio_ok (this : CPackager) : Prop :=
  send_buf (m_pSendAudioBuf this) /\ fits 16 (m_AudioRTPSeq this).

Lemma CH264Packager_new_ok : video_ok CH264Packager_new /\ audio_ok CH264Packager_new.
Proof.
  assert (send_buf (replicate 1500 0)) as H.
  { exists 0, 0, (replicate 10 0), (replicate 1488 0).
    split; [done|]. split; [by left|]. split; [done|]. split; [done|].
    split; [by repeat constructor|]. split; [done|]. apply Forall_replicate. solve_fits. }
  split; (split; [exact H|cbn; solve_fits]).
Qed.

Lemma SendNaluVideoData_single h body ts this : video_ok this ->
  is_byte h -> bytes_ok body -> zlen body <= 1400 ->
  exists buf, SendNaluVideoData (h :: body) ts this =
    Some (with_video buf (u16 (m_VideoRTPSeq this + 1))
            (u32 (ts * (m_ulVideoClockFreq this / 1000))) this,
          [rtp_packet (m_ulVideoPt this) (m_VideoRTPSeq this)
            (u32 (ts * (m_ulVideoClockFreq this / 1000))) true (h :: body)]) /\
    send_buf buf.
Proof.
  intros [Hb Hseq] Hh Hbody Hl. pose proof (zlen_nonneg body).
  destruct (start_header_spec (m_ulVideoPt this) _ Hb)
    as (sq & ts0 & rest & Hs & Hsq & Hr & Hok & E).
  unfold SendNaluVideoData. rewrite E. cbn [mbind option_bind].
  assert (u32 (zlen (h :: body) - 1) = zlen body) as ->.
  { unfold u32. rewrite wrap_small; [zl|unfold fits; zl]. }
  rewrite (proj2 (Z.leb_le _ _)) by (unfold RTP_PLAYLOAD_LEN; lia).
  rewrite hdr_marker_spec by lia. cbn [mbind option_bind].
  rewrite hdr_seq_spec by done. cbn [mbind option_bind].
  rewrite hdr_timestamp_spec by done. cbn [mbind option_bind].
  assert (u32 (zlen body + 1) = zlen body + 1) as ->.
  { unfold u32. rewrite wrap_small by (unfold fits; lia). done. }
  rewrite (sub_Some (h :: body)) by (zl). rewrite drop_0, take_ge by (cbn; unfold zlen; lia).
  cbn [mbind option_bind]. rewrite payload_store by (done || zl). cbn [mbind option_bind].
  assert (u32 (RTP_HDR_LEN + zlen body + 1) = 12 + (zlen body + 1)) as ->.
  { unfold u32, RTP_HDR_LEN. rewrite wrap_small by (unfold fits; lia). lia. }
  rewrite packet_prefix by (unfold RTP_HDR_LEN; zl). cbn [mbind option_bind].
  eexists. split; [done|]. apply packet_buf_send; try done; try lia.
  - auto with media.
  - zl.
  - apply Forall_app. split; [by apply Forall_cons|by apply Forall_drop].
Qed.

Lemma SendNaluVideoData_spec nal ts this : video_ok this ->
  nal <> [] -> bytes_ok nal -> zlen nal < 2 ^ 32 ->
  exists buf pkts,
    pkts = frame_of (m_ulVideoPt this) (m_VideoRTPSeq this)
             (u32 (ts * (m_ulVideoClockFreq this / 1000))) (nal_payloads nal) /\
    SendNaluVideoData nal ts this =
      Some (with_video buf (u16 (m_VideoRTPSeq this + zlen pkts))
              (u32 (ts * (m_ulVideoClockFreq this / 1000))) this, pkts) /\
    send_buf buf.
Proof.
  intros Hok0 Hne Hnal Hlen. destruct nal as [|h body]; [done|].
  apply Forall_cons in Hnal as [Hh Hbody]. rewrite zlen_cons in Hlen. cbn [nal_payloads].
  unfold RTP_PLAYLOAD_LEN. destruct (Z.leb_spec (zlen body) 1400) as [Hl|Hl].
  { destruct (SendNaluVideoData_single h body ts this) as (buf & E & Hbuf); try done.
    eexists buf, _. split; [done|]. by split. }
  destruct Hok0 as [Hb Hseq].
  destruct (start_header_spec (m_ulVideoPt this) _ Hb)
    as (sq & ts0 & rest & Hs & Hsq & Hr & Hok & E).
  unfold SendNaluVideoData. rewrite E. cbn [mbind option_bind].
  assert (u32 (zlen (h :: body) - 1) = zlen body) as ->.
  { unfold u32. rewrite wrap_small; [zl|unfold fits; zl]. }
  unfold RTP_PLAYLOAD_LEN at 1. rewrite (proj2 (Z.leb_gt _ _)) by lia.
  set (kl := if _ =? 0 then _ else _).
  assert (kl = ((zlen body - 1) / 1400, (zlen body - 1) mod 1400 + 1)) as ->.
  { unfold kl, RTP_PLAYLOAD_LEN. destruct (Z.eqb_spec (zlen body mod 1400) 0).
    - unfold u32. rewrite wrap_small by (unfold fits; lia). f_equal; lia.
    - f_equal; lia. }
  rewrite hdr_timestamp_spec by done. cbn [mbind option_bind].
  set (k := (zlen body - 1) / 1400). set (last := _ + 1).
  destruct (fu_loop_spec (m_ulVideoPt this) (u32 (ts * (m_ulVideoClockFreq this / 1000)))
    h body k last Hh Hbody ltac:(lia) ltac:(lia) ltac:(lia) ltac:(lia)
    (Z.to_nat k + 1) (Z.to_nat k + 2) (length body) 0 0 sq rest (m_VideoRTPSeq this))
    as (m' & sq' & rest' & -> & Hs' & Hsq' & Hm' & Hr' & Hok'); try done; try lia.
  { unfold k, zlen in *. lia. }
  cbn [mbind option_bind]. rewrite (proj2 (Z.leb_le 0 k)) by lia. rewrite Z.eqb_refl.
  change (drop (Z.to_nat (0 * 1400)) body) with body.
  eexists _, _. split; [done|]. split; [|by apply packet_buf_send].
  rewrite frame_of_length, fu_payloads_length, chunks_length;
    [|unfold zlen in *; lia|by intros ->].
  do 4 f_equal. lia.
Qed.

(** ** What a receiver reads back *)

Lemma fields_of_bytes b0 b1 s0 s1 t0 t1 t2 t3 r0 r1 r2 r3 pl :
  fields_of (b0 :: b1 :: s0 :: s1 :: t0 :: t1 :: t2 :: t3 :: r0 :: r1 :: r2 :: r3 :: pl) =
    Some {| f_version := version b0; f_padding := padding b0;
            f_extension := extension b0; f_csrc_len := csrc_len b0;
            f_marker := marker b1; f_payload := payload b1;
            f_seq := ntohs (le16 s0 s1); f_timestamp := ntohl (le32 t0 t1 t2 t3);
            f_ssrc := le32 r0 r1 r2 r3 |}.
Proof. reflexivity. Qed.

Lemma rtp_packet_fields pt seq ts m pl :
  fields_of (rtp_packet pt seq ts m pl) =
    Some {| f_version := 2; f_padding := 0; f_extension := 0; f_csrc_len := 0;
            f_marker := Z.b2z m; f_payload := pt mod 128; f_seq := u16 seq;
            f_timestamp := u32 ts; f_ssrc := ntohl RTP_SSRC |} /\
  drop 12 (rtp_packet pt seq ts m pl) = pl /\
  zlen (rtp_packet pt seq ts m pl) = 12 + zlen pl.
Proof.
  split; [|split; [done|unfold rtp_packet; zl]].
  assert (forall z, ntohs (le16 (byte_n 1 z) (byte_n 0 z)) = u16 z) as H16.
  { intros z. rewrite be16_byte_n, <-ntohs_ntohs. f_equal. unfold u16.
    symmetry. apply wrap_small. pose proof (byte_n_byte 1 z). pose proof (byte_n_byte 0 z).
    unfold ntohs, le16, fits in *. lia. }
  assert (forall z, ntohl (le32 (byte_n 3 z) (byte_n 2 z) (byte_n 1 z) (byte_n 0 z)) = u32 z)
    as H32.
  { intros z. change (le32 _ _ _ _) with (ntohl z). rewrite <-ntohl_ntohl. f_equal. unfold u32.
    symmetry. apply wrap_small. pose proof (byte_n_byte 1 z). pose proof (byte_n_byte 0 z).
    pose proof (byte_n_byte 2 z). pose proof (byte_n_byte 3 z).
    unfold ntohl, le32, fits in *. lia. }
  unfold rtp_packet. cbn [app be16 be32]. rewrite fields_of_bytes.
  rewrite H16, H32. do 2 f_equal.
  - unfold marker. bit_arith. destruct m; cbn [Z.b2z]; lia.
  - unfold payload. bit_arith.
Qed.

Lemma rtp_packet_plain pt seq ts m pl f :
  fields_of (rtp_packet pt seq ts m pl) = Some f -> plain_fields f.
Proof. rewrite (proj1 (rtp_packet_fields _ _ _ _ _)). by intros [= <-]. Qed.

(** The NAL unit a receiver (RFC 6184) makes of the payloads of a frame. *)
Definition depacketize (pls : list (list Z)) : list Z :=
  match pls with
  | (i :: f :: c) :: rest =>
    if nalu_TYPE i =? RTP_FUA
    then (32 * (i / 32) + f mod 32) :: c ++ concat (drop 2 <$> rest)
    else concat pls
  | _ => concat pls
  end.

Lemma concat_chunks sz n l : 0 < sz -> (length l <= n * Z.to_nat sz)%nat ->
  concat (chunks sz n l) = l.
Proof.
  intros Hsz. revert l. induction n as [|n IH]; intros l Hl.
  { destruct l; [done|cbn in Hl; lia]. }
  cbn [chunks]. destruct (Z.leb_spec (zlen l) sz); cbn [concat]; [apply app_nil_r|].
  rewrite IH; [apply take_drop|]. rewrite length_drop. lia.
Qed.

Lemma chunks_bound sz n l : 0 < sz -> Forall (fun c => zlen c <= sz) (chunks sz n l).
Proof.
  intros Hsz. revert l. induction n as [|n IH]; intros l; [constructor|].
  cbn [chunks]. destruct (Z.leb_spec (zlen l) sz).
  - by repeat constructor.
  - constructor; [zl|apply IH].
Qed.

Lemma fu_payloads_rest h S cs : concat (drop 2 <$> fu_payloads h S cs) = concat cs.
Proof. revert S. induction cs as [|c cs IH]; intros; [done|]. cbn. by rewrite IH. Qed.

Lemma depacketize_payloads nal h : hd_error nal = Some h -> is_byte h ->
  nalu_TYPE h <> RTP_FUA -> depacketize (nal_payloads nal) = nal.
Proof.
  destruct nal as [|x body]; [done|]. intros [= ->] Hh Ht. cbn [nal_payloads].
  unfold RTP_PLAYLOAD_LEN. destruct (Z.leb_spec (zlen body) 1400) as [Hl|Hl].
  - cbn. destruct body as [|y body]; [done|].
    destruct (Z.eqb_spec (nalu_TYPE h) RTP_FUA); [done|]. by rewrite app_nil_r.
  - assert (concat (chunks 1400 (length body) body) = body) as Hc.
    { apply concat_chunks; [lia|]. lia. }
    destruct (length body) as [|n] eqn:En; [unfold zlen in Hl; lia|].
    pose proof (chunks_S 1400 n body).
    destruct (chunks 1400 (S n) body) as [|c cs]; [done|].
    cbn [fu_payloads depacketize].
    assert ((nalu_TYPE (fu_indicator h) =? RTP_FUA) = true) as ->.
    { apply Z.eqb_eq. unfold nalu_TYPE, fu_indicator, RTP_FUA. bit_arith. }
    rewrite fu_payloads_rest, <-Hc. cbn [concat]. f_equal.
    unfold fu_indicator, fu_header, RTP_FUA, fits in *.
    destruct cs; cbn [Z.b2z]; lia.
Qed.

(** Every payload fits the sender's buffer and an Ethernet frame. *)
Lemma nal_payloads_bound nal : Forall (fun pl => zlen pl <= 1402) (nal_payloads nal).
Proof.
  destruct nal as [|h body]; [constructor|]. cbn [nal_payloads]. unfold RTP_PLAYLOAD_LEN.
  destruct (Z.leb_spec (zlen body) 1400).
  - constructor; [zl|constructor].
  - pose proof (chunks_bound 1400 (length body) body ltac:(lia)) as Hc.
    generalize true. induction Hc as [|c cs Hc' Hcs IH]; intros S; [constructor|].
    cbn [fu_payloads]. constructor; [zl|apply IH].
Qed.

(** Packet [i] of a frame. *)
Lemma frame_of_lookup pt seq ts pls i pkt : fits 16 seq ->
  frame_of pt seq ts pls !! i = Some pkt ->
  exists pl, pls !! i = Some pl /\
    pkt = rtp_packet pt (u16 (seq + Z.of_nat i)) ts (bool_decide (S i = length pls)) pl.
Proof.
  revert seq i. induction pls as [|pl pls IH]; intros seq i Hseq; [done|].
  destruct i as [|i]; cbn [frame_of lookup list_lookup].
  - intros [= <-]. exists pl. split; [done|]. f_equal.
    + rewrite Z.add_0_r. symmetry. by apply wrap_small.
    + by destruct pls.
  - intros Hi. apply IH in Hi as (pl' & Hl & ->); [|by apply wrap_fits].
    exists pl'. split; [done|]. f_equal.
    + unfold u16. rewrite wrap_add_l. f_equal. lia.
    + apply bool_decide_ext. cbn. lia.
Qed.

(** ** [FindNaluEnd] *)

(** No start code begins at a position whose third byte exceeds one, whose
    second byte is not zero or whose first byte is not zero. *)
Lemma FindStartCode_0 b0 b1 b2 l : FindStartCode (b0 :: b1 :: b2 :: l) <> None ->
  b0 = 0 /\ b1 = 0 /\ (b2 = 0 \/ b2 = 1).
Proof.
  destruct l as [|b3 l]; [done|]. cbn.
  destruct (Z.eqb_spec b0 0), (Z.eqb_spec b1 0), (Z.eqb_spec b2 0), (Z.eqb_spec b2 1);
    cbn; auto; done.
Qed.

Lemma FindStartCode_short l : zlen l < 3 -> FindStartCode l = None.
Proof. unfold zlen. destruct l as [|? [|? [|? [|? ?]]]]; cbn; try done; lia. Qed.

Lemma start_code_bytes l i : 0 <= i -> FindStartCode (drop (Z.to_nat i) l) <> None ->
  rd l i = Some 0 /\ rd l (i + 1) = Some 0 /\
  (rd l (i + 2) = Some 0 \/ rd l (i + 2) = Some 1).
Proof.
  intros Hi Hs.
  assert (forall j, 0 <= j -> rd l (i + j) = drop (Z.to_nat i) l !! Z.to_nat j) as Hrd.
  { intros j Hj. unfold rd. rewrite decide_True, lookup_drop by lia. f_equal. lia. }
  replace (rd l i) with (rd l (i + 0)) by (f_equal; lia). rewrite !Hrd by lia.
  destruct (drop (Z.to_nat i) l) as [|b0 [|b1 [|b2 k]]]; try done.
  apply FindStartCode_0 in Hs as (-> & -> & [-> | ->]); auto.
Qed.

Definition first_start_code (pBuf : list Z) (n : Z) : Prop :=
  (0 <= n < zlen pBuf - 3 /\ FindStartCode (drop (Z.to_nat n) pBuf) <> None \/
   n = zlen pBuf) /\
  forall i, 0 <= i < n -> i < zlen pBuf - 3 ->
    FindStartCode (drop (Z.to_nat i) pBuf) = None.

Lemma nalu_end_loop_spec pBuf fuel i : bytes_ok pBuf -> 4 <= zlen pBuf < 2 ^ 32 ->
  0 <= i <= zlen pBuf -> zlen pBuf - i < Z.of_nat fuel ->
  (forall j, 0 <= j < i -> j < zlen pBuf - 3 -> FindStartCode (drop (Z.to_nat j) pBuf) = None) ->
  exists r, nalu_end_loop fuel pBuf (zlen pBuf - 3) i = Some r /\
    first_start_code pBuf (default (zlen pBuf) r).
Proof.
  intros Hb Hl. revert i. induction fuel as [|fuel IH]; intros i Hi Hf Hno; [lia|].
  cbn [nalu_end_loop]. destruct (Z.ltb_spec i (zlen pBuf - 3)) as [Hlt|Hge].
  2: { exists None. split; [done|]. split; [by right|]. cbn. intros j ? ?. apply Hno; lia. }
  assert (forall n, i < n <= i + 3 ->
    (forall j, i <= j < n -> FindStartCode (drop (Z.to_nat j) pBuf) = None) ->
    exists r, nalu_end_loop fuel pBuf (zlen pBuf - 3) (u32 n) = Some r /\
      first_start_code pBuf (default (zlen pBuf) r)) as Hskip.
  { intros n Hn Hnew. unfold u32. rewrite wrap_small by (unfold fits; lia).
    apply IH; [lia|lia|]. intros j ? ?. destruct (Z.lt_ge_cases j i); [apply Hno|apply Hnew]; lia. }
  assert (forall j, ~ (FindStartCode (drop (Z.to_nat j) pBuf) <> None) ->
    FindStartCode (drop (Z.to_nat j) pBuf) = None) as Hdn.
  { intros j Hj. destruct (FindStartCode (drop _ _)); [|done]. by destruct Hj. }
  destruct (rd_is_Some pBuf i ltac:(lia)) as [p0 H0].
  destruct (rd_is_Some pBuf (i + 1) ltac:(lia)) as [p1 H1].
  destruct (rd_is_Some pBuf (i + 2) ltac:(lia)) as [p2 H2].
  destruct (rd_is_Some pBuf (i + 3) ltac:(lia)) as [p3 H3].
  rewrite H2. cbn [mbind option_bind].
  destruct (Z.ltb_spec 1 (s8 p2)) as [Hp2|Hp2].
  { apply Hskip; [lia|]. intros j Hj. apply Hdn. intros Hs.
    apply start_code_bytes in Hs as (E0 & E1 & E2); [|lia].
    assert (p2 = 0 \/ p2 = 1) as [-> | ->]; [|cbn in Hp2; lia..].
    assert (j = i \/ j = i + 1 \/ i + 2 = j) as [-> | [-> | <-]] by lia.
    - rewrite H2 in E2. destruct E2; simplify_eq; auto.
    - replace (i + 1 + 1) with (i + 2) in E1 by lia. simplify_eq. auto.
    - simplify_eq. auto. }
  rewrite H1. cbn [mbind option_bind]. destruct (Z.eqb_spec p1 0) as [->|Hp1]; cbn [negb].
  2: { apply Hskip; [lia|]. intros j Hj. apply Hdn. intros Hs.
    apply start_code_bytes in Hs as (E0 & E1 & E2); [|lia].
    assert (j = i \/ j = i + 1) as [-> | ->] by lia; simplify_eq. }
  rewrite H0. cbn [mbind option_bind]. destruct (Z.eqb_spec p0 0) as [->|Hp0]; cbn [negb].
  2: { apply Hskip; [lia|]. intros j Hj. apply Hdn. intros Hs.
    apply start_code_bytes in Hs as (E0 & _); [|lia].
    assert (j = i) as -> by lia; simplify_eq. }
  rewrite H3. cbn [mbind option_bind andb].
  assert (drop (Z.to_nat i) pBuf = 0 :: 0 :: p2 :: p3 :: drop (Z.to_nat (i + 4)) pBuf) as Hd.
  { rewrite (drop_rd _ _ _ H0), (drop_rd _ _ _ H1).
    replace (i + 1 + 1) with (i + 2) by lia. rewrite (drop_rd _ _ _ H2).
    replace (i + 2 + 1) with (i + 3) by lia. rewrite (drop_rd _ _ _ H3).
    by replace (i + 3 + 1) with (i + 4) by lia. }
  case_match eqn:Hm.
  - exists (Some i). split; [done|]. change (first_start_code pBuf i). split; [left; split; [lia|]|].
    + rewrite Hd. revert Hm. cbn. destruct (Z.eqb_spec p2 0), (Z.eqb_spec p2 1), (Z.eqb_spec p3 1); done.
    + intros j ? ?. apply Hno; lia.
  - apply Hskip; [lia|]. intros j Hj. assert (j = i) as -> by lia. rewrite Hd. revert Hm. cbn.
    destruct (Z.eqb_spec p2 0), (Z.eqb_spec p2 1), (Z.eqb_spec p3 1); done.
Qed.

(** ** Audio *)

Definition audio_ts (ts : Z) (this : CPackager) : Z :=
  u32 (ts * (m_ulAudioClockFreq this / 1000)).

(** The AU header of RFC 3640: one 16-bit header with the size of the frame in
    its high 13 bits. *)
Definition au_header (len : Z) : list Z := [0; 16; len / 32 mod 256; 8 * (len mod 32)].

Lemma au_header_bytes len : bytes_ok (au_header len).
Proof. unfold au_header, fits. repeat (apply Forall_cons; split); try constructor; unfold fits; lia. Qed.

Lemma au_header_store len : 0 <= len ->
  [0; 16; u8 (Z.shiftr (Z.land len 0x1fe0) 5); u8 (Z.shiftl (Z.land len 0x1f) 3)] =
    au_header len.
Proof.
  intros Hl. unfold au_header, u8, wrap. do 3 f_equal; [|f_equal].
  - assert (Z.shiftr (Z.land len 0x1fe0) 5 = Z.land (Z.shiftr len 5) (Z.ones 8)) as ->.
    { rewrite Z.shiftr_land. done. }
    rewrite Z.land_ones, Z.shiftr_div_pow2 by lia. change (2 ^ 5) with 32. change (2 ^ 8) with 256.
    by rewrite Z.mod_mod by lia.
  - change 0x1f with (Z.ones 5). rewrite Z.land_ones, Z.shiftl_mul_pow2 by lia.
    change (2 ^ 5) with 32. change (2 ^ 8) with 256. change (2 ^ 3) with 8. lia.
Qed.

Lemma frame_of_snoc pt seq ts c pls : pls <> [] ->
  frame_of pt seq ts (c :: pls) =
    rtp_packet pt seq ts false c :: frame_of pt (u16 (seq + 1)) ts pls.
Proof. by destruct pls. Qed.

Section Aac.
  Context (pt ts : Z) (au pBuf : list Z).
  Hypothesis Hau : zlen au = 4.
  Hypothesis Hau_ok : bytes_ok au.
  Hypothesis Hbuf : bytes_ok pBuf.
  Hypothesis Hlen : zlen pBuf <= 65612.

Lemma aac_store m sq rest src : length sq = 2%nat -> zlen rest = 1484 -> zlen src <= 1396 ->
  memcpy (packet_buf pt m sq ts (au ++ rest)) 16 src =
    Some (packet_buf pt m sq ts (au ++ src ++ drop (length src) rest)).
Proof.
  intros Hs Hr Hl.
  pose proof (memcpy_at (packet_buf pt m sq ts au) rest 16 src) as H.
  unfold packet_buf in *. cbn [app] in H. rewrite <-!(assoc (++)) in H. apply H; [|lia].
  destruct sq as [|? [|? [|? ?]]]; try done. zl.
Qed.

Lemma sub_at l off len : 0 <= off -> 0 <= len -> off + len <= zlen l ->
  sub l off len = Some (take (Z.to_nat len) (drop (Z.to_nat off) l)).
Proof. apply sub_Some. Qed.

Lemma aac_loop_spec fuel : forall i m sq rest seq,
  0 <= i -> 1396 * i <= zlen pBuf -> zlen pBuf - 1396 * i < 1396 * Z.of_nat fuel ->
  length sq = 2%nat -> bytes_ok sq -> 0 <= m <= 1 -> zlen rest = 1484 -> bytes_ok rest ->
  fits 16 seq ->
  exists m' sq' rest' pkts off' last,
    aac_loop fuel pBuf (zlen pBuf - 1396 * i) (1396 * i)
        (packet_buf pt m sq ts (au ++ rest)) seq =
      Some (packet_buf pt m' sq' ts (au ++ rest'), u16 (seq + zlen pkts), pkts,
            zlen last, off') /\
    pkts ++ [rtp_packet pt (u16 (seq + zlen pkts)) ts true (au ++ last)] =
      frame_of pt seq ts ((fun c => au ++ c) <$>
        chunks 1396 fuel (drop (Z.to_nat (1396 * i)) pBuf)) /\
    sub pBuf off' (zlen last) = Some last /\ zlen last <= 1396 /\
    length sq' = 2%nat /\ bytes_ok sq' /\ 0 <= m' <= 1 /\ zlen rest' = 1484 /\
    bytes_ok rest'.
Proof.
  induction fuel as [|fuel IH]; intros i m sq rest seq Hi Hoff Hf Hs Hsq Hm Hr Hok Hseq; [lia|].
  cbn [aac_loop chunks]. change (u16 (RTP_PLAYLOAD_LEN - AU_HEADER_SIZE)) with 1396.
  destruct (Z.ltb_spec 1396 (zlen pBuf - 1396 * i)) as [Hlt|Hge].
  - rewrite sub_at by lia. cbn [mbind option_bind]. set (src := take _ _).
    assert (zlen src = 1396) as Hsrc by (unfold src; zl).
    change (RTP_HDR_LEN + AU_HEADER_SIZE) with 16. rewrite aac_store by (done || lia).
    cbn [mbind option_bind]. rewrite hdr_seq_spec by done. cbn [mbind option_bind].
    rewrite hdr_marker_spec by lia. cbn [mbind option_bind].
    rewrite app_assoc, packet_prefix by (change (RTP_PLAYLOAD_LEN + RTP_HDR_LEN) with 1412; zl).
    rewrite <-app_assoc. cbn [mbind option_bind].
    unfold u32. rewrite wrap_small by (unfold fits; lia).
    unfold u16 at 1. rewrite wrap_small by (unfold fits; lia).
    replace (zlen pBuf - 1396 * i - 1396) with (zlen pBuf - 1396 * (i + 1)) by lia.
    replace (1396 * i + 1396) with (1396 * (i + 1)) by lia.
    destruct (IH (i + 1) 0 (be16 seq) (src ++ drop (length src) rest) (u16 (seq + 1)))
      as (m' & sq' & rest' & pkts & off' & last & -> & Hp & Hrest); try lia; try done.
    { auto with media. }
    { zl. }
    { apply Forall_app. split; [|by apply Forall_drop].
      by apply Forall_take, Forall_drop. }
    { by apply wrap_fits. }
    cbn [mbind option_bind].
    exists m', sq', rest', (rtp_packet pt seq ts false (au ++ src) :: pkts), off', last.
    assert (u16 (u16 (seq + 1) + zlen pkts) =
            u16 (seq + zlen (rtp_packet pt seq ts false (au ++ src) :: pkts))) as E.
    { unfold u16. rewrite wrap_add_l, zlen_cons. f_equal. lia. }
    rewrite <-E. split; [done|]. split; [|done].
    rewrite (proj2 (Z.leb_gt _ _)) by zl. cbn [fmap list_fmap app].
    rewrite frame_of_snoc.
    + f_equal. rewrite drop_drop.
      replace (Z.to_nat (1396 * i) + Z.to_nat 1396)%nat with (Z.to_nat (1396 * (i + 1))) by lia.
      exact Hp.
    + intros E0%(f_equal length). rewrite length_fmap in E0.
      destruct fuel; [lia|]. cbn in E0. by case_match.
  - exists m, sq, rest, [], (1396 * i), (drop (Z.to_nat (1396 * i)) pBuf).
    assert (zlen (drop (Z.to_nat (1396 * i)) pBuf) = zlen pBuf - 1396 * i) as El by zl.
    rewrite El. split.
    { rewrite Z.add_0_r. unfold u16. by rewrite wrap_small. }
    rewrite (proj2 (Z.leb_le _ _)) by lia. split.
    { rewrite Z.add_0_r. unfold u16. by rewrite wrap_small. }
    split; [|done]. rewrite sub_at by lia. f_equal. apply take_ge.
    rewrite length_drop. unfold zlen. lia.
Qed.
End Aac.

Definition aac_payloads (pBuf : list Z) : list (list Z) :=
  (fun c => au_header (zlen pBuf) ++ c) <$> chunks 1396 (S (length pBuf)) pBuf.

Lemma send_buf_audio pt seq ts this m sq rest : length sq = 2%nat -> bytes_ok sq ->
  0 <= m <= 1 -> zlen rest = 1488 -> bytes_ok rest -> fits 16 seq ->
  audio_ok (with_audio (packet_buf pt m sq ts rest) seq ts this).
Proof. intros. split; [by apply packet_buf_send|done]. Qed.

Lemma SendRawAudioData_aac pBuf ts this : audio_ok this -> bytes_ok pBuf ->
  m_ulAudioPt this = PT_ACC -> zlen pBuf <= 65612 ->
  exists this', SendRawAudioData pBuf ts this =
    Some (this', frame_of PT_ACC (m_AudioRTPSeq this) (audio_ts ts this) (aac_payloads pBuf)) /\
    audio_ok this' /\
    m_AudioRTPSeq this' = u16 (m_AudioRTPSeq this + zlen (aac_payloads pBuf)).
Proof.
  intros [Hb Hseq] Hbuf Hpt Hl. unfold SendRawAudioData. rewrite Hpt.
  destruct (start_header_spec PT_ACC _ Hb) as (sq & ts0 & rest & Hs & Hsq & Hr & Hok & ->).
  cbn [mbind option_bind]. rewrite hdr_timestamp_spec by done. cbn [mbind option_bind].
  rewrite Z.eqb_refl. pose proof (zlen_nonneg pBuf). rewrite au_header_store by done.
  rewrite payload_store by (done || (cbn; lia) || (change (zlen (au_header _)) with 4; lia)).
  cbn [mbind option_bind]. fold (audio_ts ts this).
  destruct (aac_loop_spec PT_ACC (audio_ts ts this) (au_header (zlen pBuf)) pBuf eq_refl
    Hbuf Hl (S (length pBuf)) 0 0 sq
    (drop (length (au_header (zlen pBuf))) rest) (m_AudioRTPSeq this))
    as (m' & sq' & rest' & pkts & off' & last & E & Hp & Hsub & Hlast & Hs' & Hsq' & Hm' & Hr' & Hok');
    try done; try lia.
  { unfold zlen. lia. }
  { cbn [length au_header]. zl. }
  { by apply Forall_drop. }
  rewrite Z.mul_0_r, Z.sub_0_r in E. rewrite E. clear E. cbn [mbind option_bind].
  rewrite Hsub. cbn [mbind option_bind].
  change (RTP_HDR_LEN + AU_HEADER_SIZE) with 16.
  rewrite aac_store by (done || lia). cbn [mbind option_bind].
  rewrite hdr_marker_spec by lia. cbn [mbind option_bind].
  rewrite hdr_seq_spec by done. cbn [mbind option_bind].
  pose proof (zlen_nonneg last).
  assert (u32 (zlen last + AU_HEADER_SIZE + RTP_HDR_LEN) = 12 + (4 + zlen last)) as ->.
  { unfold u32, AU_HEADER_SIZE, RTP_HDR_LEN. rewrite wrap_small by (unfold fits; lia). lia. }
  rewrite app_assoc, packet_prefix by
    (rewrite ?zlen_app; change (zlen (au_header _)) with 4; lia).
  rewrite <-app_assoc. cbn [mbind option_bind]. change (1 =? 1) with true.
  change (Z.to_nat (1396 * 0)) with 0%nat in Hp. rewrite drop_0 in Hp.
  eexists. split; [do 2 f_equal; exact Hp|]. split.
  - apply send_buf_audio; auto with media; try lia.
    + rewrite !zlen_app. change (zlen (au_header _)) with 4. zl.
    + rewrite !Forall_app. split; [apply au_header_bytes|]. split; [|by apply Forall_drop].
      exact (sub_bytes _ _ _ _ Hbuf Hsub).
    + by apply wrap_fits.
  - cbn [m_AudioRTPSeq with_audio]. apply (f_equal zlen) in Hp. rewrite frame_of_length, zlen_app in Hp.
    unfold aac_payloads. rewrite <-Hp. change (zlen [_]) with 1.
    unfold u16. rewrite wrap_add_l. f_equal. lia.
Qed.

Lemma SendRawAudioData_pcm pBuf ts this : audio_ok this -> bytes_ok pBuf ->
  m_ulAudioPt this <> PT_ACC ->
  if decide (zlen pBuf <= 1488)
  then exists this', SendRawAudioData pBuf ts this =
      Some (this', frame_of (m_ulAudioPt this) (m_AudioRTPSeq this) (audio_ts ts this) [pBuf]) /\
      audio_ok this' /\ m_AudioRTPSeq this' = u16 (m_AudioRTPSeq this + 1)
  else SendRawAudioData pBuf ts this = None.
Proof.
  intros [Hb Hseq] Hbuf Hpt. unfold SendRawAudioData.
  destruct (start_header_spec (m_ulAudioPt this) _ Hb)
    as (sq & ts0 & rest & Hs & Hsq & Hr & Hok & ->).
  cbn [mbind option_bind]. rewrite hdr_timestamp_spec by done. cbn [mbind option_bind].
  destruct (Z.eqb_spec PT_ACC (m_ulAudioPt this)) as [E|_]; [done|].
  rewrite hdr_seq_spec by done. cbn [mbind option_bind].
  rewrite hdr_marker_spec by lia. cbn [mbind option_bind]. fold (audio_ts ts this).
  pose proof (zlen_nonneg pBuf). case_decide as Hl.
  - rewrite payload_store by (done || lia). cbn [mbind option_bind].
    assert (u32 (zlen pBuf + RTP_HDR_LEN) = 12 + zlen pBuf) as ->.
    { unfold u32, RTP_HDR_LEN. rewrite wrap_small by (unfold fits; lia). lia. }
    rewrite packet_prefix by lia. cbn [mbind option_bind].
    eexists. split; [done|]. split; [|done].
    apply send_buf_audio; auto with media; try lia.
    + zl.
    + apply Forall_app. split; [done|by apply Forall_drop].
    + by apply wrap_fits.
  - rewrite memcpy_None; [done|]. unfold packet_buf, RTP_HDR_LEN.
    rewrite !zlen_cons, !zlen_app. change (zlen (be32 _)) with 4.
    destruct sq as [|? [|? [|? ?]]]; try done. zl.
Qed.

Lemma depacketize_frame pt seq ts pls : drop 12 <$> frame_of pt seq ts pls = pls.
Proof.
  revert seq. induction pls as [|pl pls IH]; intros seq; [done|].
  cbn [frame_of fmap list_fmap]. f_equal. apply IH.
Qed.

Lemma frame_of_headers pt seq ts pls i pkt bound : fits 16 seq ->
  Forall (fun pl => zlen pl <= bound) pls -> frame_of pt seq ts pls !! i = Some pkt ->
  zlen pkt <= 12 + bound /\
  fields_of pkt = Some {| f_version := 2; f_padding := 0; f_extension := 0; f_csrc_len := 0;
    f_marker := Z.b2z (bool_decide (S i = length (frame_of pt seq ts pls)));
    f_payload := pt mod 128; f_seq := u16 (seq + Z.of_nat i);
    f_timestamp := u32 ts; f_ssrc := ntohl RTP_SSRC |}.
Proof.
  intros Hseq Hb Hi. apply frame_of_lookup in Hi as (pl & Hl & ->); [|done].
  destruct (rtp_packet_fields pt (u16 (seq + Z.of_nat i)) ts
    (bool_decide (S i = length pls)) pl) as (-> & _ & ->).
  eapply Forall_lookup_1 in Hb; [|exact Hl]. split; [cbn in Hb; lia|].
  assert (length (frame_of pt seq ts pls) = length pls) as ->.
  { apply Nat2Z.inj. apply frame_of_length. }
  unfold u16. by rewrite wrap_wrap.
Qed.

(** ** Properties *)

(** C6: an H.264 frame (start code and NAL unit) leaves as RTP packets of at
    most 1414 bytes with one timestamp, consecutive sequence numbers modulo
    2^16 and the marker on the last packet only; a receiver that follows
    RFC 6184 rebuilds exactly the NAL unit from their payloads. *)
Theorem SendRawVideoData_nal frame n h ts this
    (Hok : video_ok this) (Hsc : FindStartCode frame = Some n)
    (Hh : hd_error (drop (Z.to_nat n) frame) = Some h) (Htype : nalu_TYPE h <> RTP_FUA)
    (Hbytes : bytes_ok frame) (Hlen : zlen frame < 2 ^ 32) :
  exists this' pkts, SendRawVideoData frame ts this = Some (this', pkts) /\ video_ok this' /\
    m_VideoRTPSeq this' = u16 (m_VideoRTPSeq this + zlen pkts) /\
    depacketize (drop 12 <$> pkts) = drop (Z.to_nat n) frame /\
    forall i pkt, pkts !! i = Some pkt ->
      zlen pkt <= 1414 /\
      fields_of pkt = Some {| f_version := 2; f_padding := 0; f_extension := 0;
        f_csrc_len := 0; f_marker := Z.b2z (bool_decide (S i = length pkts));
        f_payload := m_ulVideoPt this mod 128;
        f_seq := u16 (m_VideoRTPSeq this + Z.of_nat i);
        f_timestamp := u32 (ts * (m_ulVideoClockFreq this / 1000));
        f_ssrc := ntohl RTP_SSRC |}.
Proof.
  unfold SendRawVideoData. rewrite Hsc. set (nal := drop (Z.to_nat n) frame) in *.
  assert (bytes_ok nal) as Hnal by (by apply Forall_drop).
  destruct (SendNaluVideoData_spec nal ts this) as (buf & pkts & Hp & -> & Hbuf); try done.
  { by intros E; rewrite E in Hh. }
  { unfold nal. zl. }
  destruct Hok as [Hb Hseq]. eexists _, pkts. split; [done|].
  split; [split; [done|by apply wrap_fits]|]. split; [done|]. split.
  - rewrite Hp, depacketize_frame. apply depacketize_payloads with h; try done.
    destruct nal; [done|]. injection Hh as ->. by apply Forall_cons in Hnal as [? _].
  - intros i pkt Hi. rewrite Hp in Hi |- *.
    pose proof (frame_of_headers _ _ _ _ _ _ _ Hseq (nal_payloads_bound nal) Hi) as [H1 H2].
    split; [exact H1|]. rewrite H2. unfold u32. by rewrite wrap_wrap.
Qed.

(** A frame that is a bare start code has an empty NAL unit, and its
    length minus the header byte wraps to 2^32 - 1: the packager reads outside
    the frame. *)
Theorem bare_start_code_overruns ts this (Hok : video_ok this) :
  SendRawVideoData [0; 0; 0; 1] ts this = None.
Proof.
  destruct Hok as [Hb _].
  destruct (start_header_spec (m_ulVideoPt this) _ Hb)
    as (sq & ts0 & rest & Hs & Hsq & Hr & Hok & E).
  change (SendRawVideoData [0; 0; 0; 1] ts this) with (SendNaluVideoData [] ts this).
  unfold SendNaluVideoData. rewrite E. cbn [mbind option_bind].
  change (u32 (zlen [] - 1)) with 4294967295.
  change (4294967295 <=? RTP_PLAYLOAD_LEN) with false.
  change (4294967295 / RTP_PLAYLOAD_LEN) with 3067833.
  change (4294967295 mod RTP_PLAYLOAD_LEN =? 0) with false.
  rewrite hdr_timestamp_spec by done. cbn [mbind option_bind].
  rewrite (Nat.add_comm _ 2). cbn [Nat.add fu_loop].
  change (0 <=? 3067833) with true. rewrite hdr_seq_spec by done. done.
Qed.

(** [FindNaluEnd], which jumps over up to three bytes at a time and
    compares them as signed characters, finds the first start code among the
    positions it searches, or takes the whole buffer. *)
Theorem FindNaluEnd_first pBuf (Hb : bytes_ok pBuf) (Hl : 4 <= zlen pBuf < 2 ^ 32) :
  exists n, FindNaluEnd pBuf = Some (Some n) /\ first_start_code pBuf n.
Proof.
  unfold FindNaluEnd. rewrite (proj2 (Z.ltb_ge _ _)) by lia.
  unfold u32. rewrite wrap_small by (unfold fits; lia).
  destruct (nalu_end_loop_spec pBuf (S (length pBuf)) 0) as (r & -> & Hr); try done.
  - lia.
  - unfold zlen. lia.
  - intros j ?. lia.
  - eexists. split; [done|exact Hr].
Qed.

(** An AAC frame of at most 65612 bytes leaves as packets that all carry
    its AU header, the marker on the last one; their payloads put together are
    the frame. (A longer frame wraps the 16-bit offset.) *)
Theorem SendRawAudioData_aac_frame pBuf ts this
    (Hok : audio_ok this) (Hb : bytes_ok pBuf) (Hpt : m_ulAudioPt this = PT_ACC)
    (Hl : zlen pBuf <= 65612) :
  exists this' pkts, SendRawAudioData pBuf ts this = Some (this', pkts) /\ audio_ok this' /\
    m_AudioRTPSeq this' = u16 (m_AudioRTPSeq this + zlen pkts) /\
    concat (drop 16 <$> pkts) = pBuf /\
    forall i pkt, pkts !! i = Some pkt ->
      zlen pkt <= 1412 /\ take 4 (drop 12 pkt) = au_header (zlen pBuf) /\
      fields_of pkt = Some {| f_version := 2; f_padding := 0; f_extension := 0;
        f_csrc_len := 0; f_marker := Z.b2z (bool_decide (S i = length pkts));
        f_payload := PT_ACC; f_seq := u16 (m_AudioRTPSeq this + Z.of_nat i);
        f_timestamp := u32 (ts * (m_ulAudioClockFreq this / 1000));
        f_ssrc := ntohl RTP_SSRC |}.
Proof.
  destruct (SendRawAudioData_aac pBuf ts this Hok Hb Hpt Hl) as (this' & E & Hok' & Hs).
  eexists this', _. split; [exact E|]. split; [done|].
  split; [by rewrite frame_of_length|]. set (pls := aac_payloads pBuf).
  assert (Forall (fun pl => zlen pl <= 1400) pls) as Hpl.
  { apply Forall_fmap. eapply Forall_impl; [apply (chunks_bound 1396); lia|].
    intros c Hc. cbv beta in Hc. change (zlen (au_header (zlen pBuf) ++ c) <= 1400). rewrite zlen_app. change (zlen (au_header _)) with 4. lia. }
  split.
  - assert (drop 16 <$> frame_of PT_ACC (m_AudioRTPSeq this) (audio_ts ts this) pls
            = drop 4 <$> pls) as ->.
    { rewrite <-(depacketize_frame PT_ACC (m_AudioRTPSeq this) (audio_ts ts this) pls) at 2.
      rewrite <-list_fmap_compose. apply list_fmap_ext. intros ? x _. cbn [compose].
      by rewrite drop_drop. }
    unfold pls, aac_payloads. rewrite <-list_fmap_compose.
    rewrite (list_fmap_ext _ (fun c => c)) by done. rewrite list_fmap_id.
    apply concat_chunks; [lia|lia].
  - intros i pkt Hi. pose proof (proj2 Hok) as Hseq.
    destruct (frame_of_headers _ _ _ _ _ _ _ Hseq Hpl Hi) as [H1 H2].
    split; [exact H1|]. split.
    + apply frame_of_lookup in Hi as (pl & Hpli & ->); [|done].
      apply list_lookup_fmap_Some in Hpli as (c & -> & _). done.
    + rewrite H2. unfold audio_ts, u32. by rewrite wrap_wrap.
Qed.

(** Other audio is copied behind the header whole: a frame of up to 1488
    bytes leaves as one packet with the marker, a longer one is written past
    the end of the 1500-byte member. *)
Theorem SendRawAudioData_pcm_bound pBuf ts this
    (Hok : audio_ok this) (Hb : bytes_ok pBuf) (Hpt : m_ulAudioPt this <> PT_ACC) :
  (zlen pBuf <= 1488 ->
   exists this', SendRawAudioData pBuf ts this = Some (this',
       [rtp_packet (m_ulAudioPt this) (m_AudioRTPSeq this) (audio_ts ts this) true pBuf]) /\
     audio_ok this') /\
  (1488 < zlen pBuf -> SendRawAudioData pBuf ts this = None).
Proof.
  pose proof (SendRawAudioData_pcm pBuf ts this Hok Hb Hpt) as H.
  case_decide; split; intros ?; try lia; [|done].
  destruct H as (this' & E & Hok' & _). eauto.
Qed.

(** ** The properties at concrete frames *)

Definition demo_nal (n : nat) : list Z := 101 :: replicate n 7.

Lemma SendRawVideoData_nal_witness :
  let frame := [0; 0; 0; 1] ++ demo_nal 3000 in
  exists this' pkts, SendRawVideoData frame 40 CH264Packager_new = Some (this', pkts) /\
    length pkts = 3%nat /\ video_ok this' /\
    depacketize (drop 12 <$> pkts) = drop (Z.to_nat 4) frame.
Proof.
  destruct (SendRawVideoData_nal ([0; 0; 0; 1] ++ demo_nal 3000) 4 101 40 CH264Packager_new)
    as (this' & pkts & E & Hok & Hs & Hd & _).
  - exact (proj1 CH264Packager_new_ok).
  - reflexivity.
  - reflexivity.
  - vm_compute. discriminate.
  - apply Forall_app. split; [repeat (apply Forall_cons; split); try constructor; solve_fits|].
    apply Forall_cons. split; [solve_fits|]. apply Forall_replicate. solve_fits.
  - vm_compute. reflexivity.
  - exists this', pkts. split; [exact E|]. split; [|split; [exact Hok|exact Hd]].
    apply (f_equal (fmap (fun r => length r.2))) in E. vm_compute in E. by injection E.
Defined.

Lemma bare_start_code_overruns_witness :
  SendRawVideoData [0; 0; 0; 1] 40 CH264Packager_new = None.
Proof. apply bare_start_code_overruns. exact (proj1 CH264Packager_new_ok). Defined.

Lemma FindNaluEnd_first_witness :
  exists n, FindNaluEnd [103; 200; 0; 0; 0; 1; 104; 9; 9] = Some (Some n) /\ n = 2 /\
    first_start_code [103; 200; 0; 0; 0; 1; 104; 9; 9] n.
Proof.
  destruct (FindNaluEnd_first [103; 200; 0; 0; 0; 1; 104; 9; 9]) as (n & E & H).
  - repeat (apply Forall_cons; split); try constructor; solve_fits.
  - vm_compute. by split.
  - exists n. split; [exact E|]. split; [|exact H]. vm_compute in E. by injection E.
Defined.

Lemma SendRawAudioData_aac_frame_witness :
  let this := Init 96 97 90000 8000 CH264Packager_new in
  exists this' pkts, SendRawAudioData (replicate 1500 7) 40 this = Some (this', pkts) /\
    audio_ok this' /\ concat (drop 16 <$> pkts) = replicate 1500 7.
Proof.
  destruct (SendRawAudioData_aac_frame (replicate 1500 7) 40
    (Init 96 97 90000 8000 CH264Packager_new)) as (this' & pkts & E & Hok & _ & Hd & _).
  - exact (proj2 CH264Packager_new_ok).
  - apply Forall_replicate. solve_fits.
  - reflexivity.
  - vm_compute. discriminate.
  - exists this', pkts. split; [exact E|]. split; [exact Hok|exact Hd].
Defined.

Lemma SendRawAudioData_pcm_bound_witness :
  SendRawAudioData (replicate 1600 7) 40 CH264Packager_new = None.
Proof.
  apply (SendRawAudioData_pcm_bound (replicate 1600 7) 40 CH264Packager_new).
  - exact (proj2 CH264Packager_new_ok).
  - apply Forall_replicate. solve_fits.
  - discriminate.
  - vm_compute. reflexivity.
Defined.
