(* ===== verification/RtpStream.v ===== *)
(** * Packets of one RTP stream

    What the encapsulators of this server ([CPsRtpEncap], [CEsRtpEncap]) hand
    on, as a specification: packets with consecutive sequence numbers, the
    time stamp of the frame, a marker and a payload; and what their way of
    filling the packet buffer (the setters, then a copy behind the header)
    makes of it. *)

From S2P Require Import Prelude RtpPacket RtpPacker.
Open Scope Z_scope.

Definition STREAM_MSG_BLOCK_SIZE : Z := 2048.

Section Stream.
  Context (pt ssrc : Z).

Definition stream_fields (seq ts : Z) (m : bool) : rtp_fields :=
  {| f_version := 2; f_padding := 0; f_extension := 0; f_csrc_len := 0;
     f_marker := Z.b2z m; f_payload := pt; f_seq := seq; f_timestamp := ts; f_ssrc := ssrc |}.

(** Packet [p] of a stream: payload [pl], marker [m]. *)
Record packet_is (seq ts : Z) (m : bool) (pl p : list Z) : Prop := {
  packet_fields : fields_of p = Some (stream_fields seq ts m);
  packet_payload : drop 12 p = pl;
  packet_size : zlen p = 12 + zlen pl }.

(** Packets with consecutive sequence numbers from [seq]. *)
Fixpoint packets_are (seq ts : Z) (spec : list (bool * list Z)) (pkts : list (list Z)) : Prop :=
  match spec, pkts with
  | [], [] => True
  | (m, pl) :: spec, p :: pkts =>
    packet_is seq ts m pl p /\ packets_are (u16 (seq + 1)) ts spec pkts
  | _, _ => False
  end.

Lemma packets_are_app seq ts s1 p1 s2 p2 : fits 16 seq -> packets_are seq ts s1 p1 ->
  packets_are (u16 (seq + zlen s1)) ts s2 p2 -> packets_are seq ts (s1 ++ s2) (p1 ++ p2).
Proof.
  revert seq p1. induction s1 as [|[m pl] s1 IH]; intros seq p1 Hseq H1 H2.
  - destruct p1; [|done]. rewrite zlen_nil, Z.add_0_r in H2. unfold u16 in H2.
    by rewrite wrap_small in H2.
  - destruct p1 as [|p p1]; [done|]. destruct H1 as [Hp H1]. cbn. split; [done|].
    apply IH; [by apply wrap_fits|done|].
    assert (u16 (u16 (seq + 1) + zlen s1) = u16 (seq + zlen ((m, pl) :: s1))) as ->; [|done].
    unfold u16. rewrite wrap_add_l, zlen_cons. f_equal. lia.
Qed.

Lemma packets_are_length seq ts spec pkts : packets_are seq ts spec pkts ->
  zlen pkts = zlen spec.
Proof.
  unfold zlen. revert seq pkts.
  induction spec as [|[m pl] s IH]; intros seq pkts; destruct pkts as [|p pkts]; try done.
  intros [_ H]. apply IH in H. cbn [length]. lia.
Qed.

Lemma packets_payloads seq ts spec pkts : packets_are seq ts spec pkts ->
  drop 12 <$> pkts = spec.*2.
Proof.
  revert seq pkts. induction spec as [|[m pl] spec IH]; intros seq pkts; destruct pkts as [|p pkts];
    try done. intros [Hp H]. rewrite !fmap_cons, (IH _ _ H). by destruct Hp as [_ -> _].
Qed.

Lemma packets_bound n seq ts spec pkts : packets_are seq ts spec pkts ->
  Forall (fun q => zlen q.2 <= n) spec -> Forall (fun p => zlen p <= 12 + n) pkts.
Proof.
  revert seq pkts. induction spec as [|[m pl] spec IH]; intros seq pkts; destruct pkts as [|p pkts];
    try done.
  intros [Hp H] [Hb Hf]%Forall_cons. cbn in Hb. destruct Hp as [_ _ Hz].
  constructor; [lia|by eapply IH].
Qed.

(** Marker and payload of the packets of one piece of stream. *)
Fixpoint mark_last (e : bool) (pls : list (list Z)) : list (bool * list Z) :=
  match pls with
  | [] => []
  | pl :: pls => (match pls with [] => e | _ => false end, pl) :: mark_last e pls
  end.

Lemma mark_last_payloads e pls : (mark_last e pls).*2 = pls.
Proof. induction pls as [|pl pls IH]; [done|]. cbn. by rewrite IH. Qed.

Lemma mark_last_length e pls : length (mark_last e pls) = length pls.
Proof. by rewrite <-(mark_last_payloads e pls) at 2; rewrite length_fmap. Qed.

Lemma mark_last_cons e pl pls : pls <> [] ->
  mark_last e (pl :: pls) = (false, pl) :: mark_last e pls.
Proof. by destruct pls. Qed.

Lemma mark_last_markers e pls : pls <> [] ->
  (mark_last e pls).*1 = replicate (length pls - 1) false ++ [e].
Proof.
  induction pls as [|pl pls IH]; [done|]. intros _. destruct pls as [|pl2 pls]; [done|].
  cbn [mark_last]. cbn [mark_last] in IH. rewrite fmap_cons, IH by done. cbn [length].
  replace (S (S (length pls)) - 1)%nat with (S (S (length pls) - 1)) by lia. done.
Qed.

(** ** The packet buffer *)

(** The packet object between two packets. *)
Record rtp_object (p : CRtpPacket) : Prop := {
  object_head : m_pFixedHead p = true;
  object_size : zlen (m_pRtpData p) = STREAM_MSG_BLOCK_SIZE;
  object_fields : exists f, fields_of (m_pRtpData p) = Some f /\ plain_fields f }.

Lemma fields_of_memcpy d off src d' : 12 <= off -> memcpy d off src = Some d' ->
  fields_of d' = fields_of d.
Proof.
  intros Ho Hm. unfold fields_of.
  rewrite !(rd_memcpy_out _ _ _ _ _ Hm) by lia.
  rewrite (load16_out _ _ _ _ 2 Hm), (load32_out _ _ _ _ 4 Hm), (load32_out _ _ _ _ 8 Hm) by lia.
  done.
Qed.

Lemma fields_of_take d n : 12 <= n -> fields_of (take (Z.to_nat n) d) = fields_of d.
Proof.
  intros Hn. assert (forall i, i < 12 -> rd (take (Z.to_nat n) d) i = rd d i) as H.
  { intros i Hi. unfold rd. case_decide; [|done]. by rewrite lookup_take_lt by lia. }
  unfold fields_of, load16, load32. by rewrite !H by lia.
Qed.

(** The setters of one packet: the header says what they were given, the rest
    of the buffer is untouched. *)
Lemma header_step p seq ts m : rtp_object p -> fits 7 pt -> fits 32 ssrc -> fits 16 seq ->
  fits 32 ts ->
  exists d,
    (p ← SetHeader pt seq ts ssrc false p;
     '(_, p) ← (if m : bool then SetMarker true p else Some (RET_OK, p)); Some p)
      = Some (with_data d p) /\
    fields_of d = Some (stream_fields seq ts m) /\ zlen d = STREAM_MSG_BLOCK_SIZE /\
    drop 12 d = drop 12 (m_pRtpData p).
Proof.
  intros [Hh Hz (f & Hf & Hp)] Hpt Hss Hseq Hts.
  destruct (SetHeader_spec pt seq ts ssrc false p f Hh Hf) as (d1 & -> & R1).
  cbn [mbind option_bind].
  assert (exists d2, (if m : bool then SetMarker true (with_data d1 p) else Some (RET_OK, with_data d1 p))
    = Some (RET_OK, with_data d2 p) /\
    rewrites (m_pRtpData p) d2 (header_fields pt seq ts ssrc m f)) as (d2 & -> & R2).
  { destruct m; [|by eauto].
    destruct (SetMarker_spec (with_data d1 p) _ Hh (proj1 R1) true) as (d2 & -> & R2).
    exists d2. split; [done|]. eapply rewrites_trans; [exact R1|exact R2]. }
  cbn [mbind option_bind]. destruct R2 as (F2 & Z2 & D2). exists d2. split; [done|].
  split; [|split; [congruence|done]]. rewrite F2. f_equal.
  destruct Hp as (Hv & Hpd & He & Hc).
  unfold header_fields, stream_fields, with_marker, with_ssrc, with_timestamp, with_seq, with_payload.
  cbn. rewrite Hv, Hpd, He, Hc. unfold u16, u32.
  by rewrite !(wrap_small _ seq), !(wrap_small _ ts), !(wrap_small _ pt), !(wrap_small _ ssrc).
Qed.

(** The same for a packet that is marked at once. *)
Lemma header_step_marked p seq ts m : rtp_object p -> fits 7 pt -> fits 32 ssrc -> fits 16 seq ->
  fits 32 ts ->
  exists d, SetHeader pt seq ts ssrc m p = Some (with_data d p) /\
    fields_of d = Some (stream_fields seq ts m) /\ zlen d = STREAM_MSG_BLOCK_SIZE /\
    drop 12 d = drop 12 (m_pRtpData p).
Proof.
  intros [Hh Hz (f & Hf & Hp)] Hpt Hss Hseq Hts.
  destruct (SetHeader_spec pt seq ts ssrc m p f Hh Hf) as (d2 & -> & (F2 & Z2 & D2)).
  exists d2. split; [done|]. split; [|split; [congruence|done]]. rewrite F2. f_equal.
  destruct Hp as (Hv & Hpd & He & Hc).
  unfold header_fields, stream_fields, with_marker, with_ssrc, with_timestamp, with_seq, with_payload.
  cbn. rewrite Hv, Hpd, He, Hc. unfold u16, u32.
  by rewrite !(wrap_small _ seq), !(wrap_small _ ts), !(wrap_small _ pt), !(wrap_small _ ssrc).
Qed.

(** The first [n] bytes of a buffer with header and payload. *)
Lemma packet_cut d seq ts m pl rest : fields_of d = Some (stream_fields seq ts m) ->
  drop 12 d = pl ++ rest -> 12 <= zlen d ->
  packet_is seq ts m pl (take (Z.to_nat (12 + zlen pl)) d).
Proof.
  intros Hf Hd Hl. pose proof (zlen_nonneg pl).
  assert (zlen d = 12 + zlen pl + zlen rest) as Hz.
  { pose proof (f_equal zlen Hd) as E. autorewrite with zlen in E. lia. }
  pose proof (zlen_nonneg rest). split.
  - by rewrite fields_of_take by lia.
  - rewrite skipn_firstn_comm, Hd. apply take_app_length'. unfold zlen. lia.
  - zl.
Qed.

Lemma rtp_object_data p d seq ts m : rtp_object p -> zlen d = STREAM_MSG_BLOCK_SIZE ->
  fields_of d = Some (stream_fields seq ts m) -> rtp_object (with_data d p).
Proof. intros [Hh _ _] Hz Hf. split; [done|done|]. eexists. split; [exact Hf|done]. Qed.

(** The header of one packet and a payload of up to 2036 bytes. *)
Lemma packet_step p seq ts m pl : rtp_object p -> fits 7 pt -> fits 32 ssrc -> fits 16 seq ->
  fits 32 ts -> zlen pl <= 2036 ->
  exists q buf,
    (p ← SetHeader pt seq ts ssrc false p;
     '(_, p) ← (if m : bool then SetMarker true p else Some (RET_OK, p)); Some p) = Some q /\
    memcpy (m_pRtpData q) 12 pl = Some buf /\
    packet_is seq ts m pl (take (Z.to_nat (12 + zlen pl)) buf) /\
    rtp_object (with_data buf q).
Proof.
  intros Hp Hpt Hss Hseq Hts Hl. pose proof (zlen_nonneg pl).
  destruct (header_step p seq ts m Hp Hpt Hss Hseq Hts) as (d & -> & Hf & Hz & _).
  exists (with_data d p). unfold STREAM_MSG_BLOCK_SIZE in Hz.
  destruct (memcpy_total d 12 pl) as [buf Hm]; [lia|lia|].
  exists buf. split; [done|]. split; [exact Hm|].
  pose proof (memcpy_length _ _ _ _ Hm) as Hbl.
  pose proof (fields_of_memcpy d 12 pl buf ltac:(lia) Hm) as Hbf. rewrite Hf in Hbf. split.
  - eapply packet_cut; [done| |lia]. unfold memcpy in Hm. case_decide; [|done]. injection Hm as <-.
    apply drop_app_length'. rewrite length_take. unfold zlen in *. lia.
  - rewrite with_data_twice. eapply rtp_object_data; [|unfold STREAM_MSG_BLOCK_SIZE; lia|exact Hbf]. exact Hp.
Qed.
End Stream.

(** ** Pieces *)

(** Any fuel from the length on gives the same pieces. *)
Lemma chunks_fuel sz n m l : 0 < sz -> (length l <= n)%nat -> (length l <= m)%nat ->
  l <> [] -> chunks sz n l = chunks sz m l.
Proof.
  intros Hsz. revert m l. induction n as [|n IH]; intros m l Hn Hm Hl.
  { destruct l; [done|cbn in Hn; lia]. }
  destruct m as [|m]; [destruct l; [done|cbn in Hm; lia]|].
  cbn [chunks]. destruct (Z.leb_spec (zlen l) sz); [done|]. f_equal.
  apply IH; [rewrite length_drop; lia..|].
  intros E. apply (f_equal length) in E. rewrite length_drop in E. unfold zlen in *. cbn in E. lia.
Qed.

Lemma chunks_ne sz n l : (0 < n)%nat -> chunks sz n l <> [].
Proof. destruct n; [lia|]. intros _. apply chunks_S. Qed.

Lemma chunks_cons sz n l : sz < zlen l ->
  chunks sz (S n) l = take (Z.to_nat sz) l :: chunks sz n (drop (Z.to_nat sz) l).
Proof. intros H. cbn [chunks]. by rewrite (proj2 (Z.leb_gt _ _)). Qed.

Lemma chunks_last sz n l : zlen l <= sz -> chunks sz (S n) l = [l].
Proof. intros H. cbn [chunks]. by rewrite (proj2 (Z.leb_le _ _)). Qed.
