(* ===== verification/PsEnc.v ===== *)
(** * MPEG program stream encoder: [svs_adapter_mpeg_ps_enc.cpp]

    [CMpegPsEnc] wraps a video or an audio frame into a pack header, a system
    header, a program stream map and PES packets, and hands the buffer to
    [CMpegPsEncHandle::handlePsStream]. Its methods are computations of the
    monad [M]: the state is the object, an event is one [handlePsStream] call.
    The buffer [m_pPsBuffer] is the list of the bytes from its start to
    [m_pWritePos]; a byte written past [m_unBufferSize] is a fault. *)

From S2P Require Import Prelude.
Open Scope Z_scope.

Definition MIN_NALU_SIZE : Z := 5.
Definition MAX_ENCAP_RTP_SIZE : Z := 1418.
Definition VIDEO_STREAM_ID : Z := 0xe0.
Definition AUDIO_STREAM_ID : Z := 0xc0.
Definition VIDEO_STREAM_TYPE_H264 : Z := 0x1b.
Definition AUDIO_STREAM_TYPE_G711 : Z := 0x90.
Definition DEFAULT_PS_CACHE : Z := 1024 * 1024.
Definition INVALID_TIMESTAMP : Z := 0x8000000000000000.
Definition MAX_PS_HEADER_LEN : Z := 128.
Definition GET_BITS (x s e : Z) : Z := Z.land (Z.shiftr x s) (Z.ones (e - s + 1)).

(** ** The CRC of the program stream map *)

Record crc_state : Type := { uVal : Z; upoly : Z; bCRCInit : bool }.

Definition CRCInit : crc_state :=
  {| uVal := 0xffffffff; upoly := 0x02608edb; bCRCInit := true |}.
Definition CRCClose : crc_state := {| uVal := 0; upoly := 0; bCRCInit := false |}.

Definition CRCInputBit (byin : Z) (c : crc_state) : crc_state :=
  let utemp := Z.lxor (Z.shiftr (Z.land (uVal c) 0x80000000) 31) byin in
  let v := if utemp =? 1 then Z.lxor (uVal c) (upoly c) else uVal c in
  let v := u32 (Z.shiftl v 1) in
  {| uVal := Z.lor v utemp; upoly := upoly c; bCRCInit := bCRCInit c |}.

(** The eight turns of the inner loop on one byte. *)
Definition CRCInputByte (b : Z) (c : crc_state) : crc_state :=
  fold_left (fun c j => CRCInputBit (Z.shiftr (Z.land (Z.shiftl b j) 0x80) 7) c)
    [0; 1; 2; 3; 4; 5; 6; 7] c.

(** The outer loop; its index is a [uint8_t], so that a length above 255 keeps
    it running: [None]. *)
Fixpoint CRCGet_loop (fuel : nat) (byValue : list Z) (i : Z) (c : crc_state)
    : option crc_state :=
  match fuel with
  | O => None
  | S fuel =>
    if i <? zlen byValue then
      b ← rd byValue i; CRCGet_loop fuel byValue (u8 (i + 1)) (CRCInputByte b c)
    else Some c
  end.

Definition CRCGet (byValue : list Z) (c : crc_state) : option (Z * crc_state) :=
  if bCRCInit c then
    c ← CRCGet_loop 257 byValue 0 c; Some (uVal c, c)
  else Some (0xffffffff, c).

(** ** The object *)

Inductive ES_TYPE_E : Set := ES_TYPE_VIDEO | ES_TYPE_AUDIO.

Record CMpegPsEnc : Type := {
  m_pPsStreamHandle : bool;
  m_pPsBuffer : option (list Z);    (* the bytes before [m_pWritePos] *)
  m_unBufferSize : Z;
  m_ullScr : Z;
  m_ullVideoPts : Z;
  m_ullAudioPts : Z;
  m_unMuxRate : Z;
  m_unVideoTimestamp : Z;
  m_unAudioTimestamp : Z;
  m_unEsStreamSize : Z;
  m_LastCalcTime : Z;
  m_isFirstPES : bool;
  cVersion : Z }.                   (* the static of [writePsmPacket] *)

(** One call of [handlePsStream]. *)
Record ps_event : Type := { ps_data : list Z; ps_timestamp : Z; ps_end : bool }.

Abbreviation enc := (M CMpegPsEnc ps_event).

Definition CMpegPsEnc_new : CMpegPsEnc :=
  {| m_pPsStreamHandle := false; m_pPsBuffer := None; m_unBufferSize := 0;
     m_ullScr := INVALID_TIMESTAMP; m_ullVideoPts := INVALID_TIMESTAMP;
     m_ullAudioPts := INVALID_TIMESTAMP; m_unMuxRate := 0;
     m_unVideoTimestamp := 0; m_unAudioTimestamp := 0; m_unEsStreamSize := 0;
     m_LastCalcTime := 0; m_isFirstPES := true; cVersion := 0 |}.

Definition with_buffer (b : option (list Z)) (this : CMpegPsEnc) : CMpegPsEnc :=
  {| m_pPsStreamHandle := m_pPsStreamHandle this; m_pPsBuffer := b;
     m_unBufferSize := m_unBufferSize this; m_ullScr := m_ullScr this;
     m_ullVideoPts := m_ullVideoPts this; m_ullAudioPts := m_ullAudioPts this;
     m_unMuxRate := m_unMuxRate this; m_unVideoTimestamp := m_unVideoTimestamp this;
     m_unAudioTimestamp := m_unAudioTimestamp this;
     m_unEsStreamSize := m_unEsStreamSize this; m_LastCalcTime := m_LastCalcTime this;
     m_isFirstPES := m_isFirstPES this; cVersion := cVersion this |}.
Definition with_first (f : bool) (this : CMpegPsEnc) : CMpegPsEnc :=
  {| m_pPsStreamHandle := m_pPsStreamHandle this; m_pPsBuffer := m_pPsBuffer this;
     m_unBufferSize := m_unBufferSize this; m_ullScr := m_ullScr this;
     m_ullVideoPts := m_ullVideoPts this; m_ullAudioPts := m_ullAudioPts this;
     m_unMuxRate := m_unMuxRate this; m_unVideoTimestamp := m_unVideoTimestamp this;
     m_unAudioTimestamp := m_unAudioTimestamp this;
     m_unEsStreamSize := m_unEsStreamSize this; m_LastCalcTime := m_LastCalcTime this;
     m_isFirstPES := f; cVersion := cVersion this |}.
Definition with_version (v : Z) (this : CMpegPsEnc) : CMpegPsEnc :=
  {| m_pPsStreamHandle := m_pPsStreamHandle this; m_pPsBuffer := m_pPsBuffer this;
     m_unBufferSize := m_unBufferSize this; m_ullScr := m_ullScr this;
     m_ullVideoPts := m_ullVideoPts this; m_ullAudioPts := m_ullAudioPts this;
     m_unMuxRate := m_unMuxRate this; m_unVideoTimestamp := m_unVideoTimestamp this;
     m_unAudioTimestamp := m_unAudioTimestamp this;
     m_unEsStreamSize := m_unEsStreamSize this; m_LastCalcTime := m_LastCalcTime this;
     m_isFirstPES := m_isFirstPES this; cVersion := v |}.
(** Presentation time stamp and last time stamp of the video, of the audio. *)
Definition with_video_pts (pts ts : Z) (this : CMpegPsEnc) : CMpegPsEnc :=
  {| m_pPsStreamHandle := m_pPsStreamHandle this; m_pPsBuffer := m_pPsBuffer this;
     m_unBufferSize := m_unBufferSize this; m_ullScr := m_ullScr this;
     m_ullVideoPts := pts; m_ullAudioPts := m_ullAudioPts this;
     m_unMuxRate := m_unMuxRate this; m_unVideoTimestamp := ts;
     m_unAudioTimestamp := m_unAudioTimestamp this;
     m_unEsStreamSize := m_unEsStreamSize this; m_LastCalcTime := m_LastCalcTime this;
     m_isFirstPES := m_isFirstPES this; cVersion := cVersion this |}.
Definition with_audio_pts (pts ts : Z) (this : CMpegPsEnc) : CMpegPsEnc :=
  {| m_pPsStreamHandle := m_pPsStreamHandle this; m_pPsBuffer := m_pPsBuffer this;
     m_unBufferSize := m_unBufferSize this; m_ullScr := m_ullScr this;
     m_ullVideoPts := m_ullVideoPts this; m_ullAudioPts := pts;
     m_unMuxRate := m_unMuxRate this; m_unVideoTimestamp := m_unVideoTimestamp this;
     m_unAudioTimestamp := ts;
     m_unEsStreamSize := m_unEsStreamSize this; m_LastCalcTime := m_LastCalcTime this;
     m_isFirstPES := m_isFirstPES this; cVersion := cVersion this |}.
Definition with_scr (scr : Z) (this : CMpegPsEnc) : CMpegPsEnc :=
  {| m_pPsStreamHandle := m_pPsStreamHandle this; m_pPsBuffer := m_pPsBuffer this;
     m_unBufferSize := m_unBufferSize this; m_ullScr := scr;
     m_ullVideoPts := m_ullVideoPts this; m_ullAudioPts := m_ullAudioPts this;
     m_unMuxRate := m_unMuxRate this; m_unVideoTimestamp := m_unVideoTimestamp this;
     m_unAudioTimestamp := m_unAudioTimestamp this;
     m_unEsStreamSize := m_unEsStreamSize this; m_LastCalcTime := m_LastCalcTime this;
     m_isFirstPES := m_isFirstPES this; cVersion := cVersion this |}.
Definition with_rate (mux size last : Z) (this : CMpegPsEnc) : CMpegPsEnc :=
  {| m_pPsStreamHandle := m_pPsStreamHandle this; m_pPsBuffer := m_pPsBuffer this;
     m_unBufferSize := m_unBufferSize this; m_ullScr := m_ullScr this;
     m_ullVideoPts := m_ullVideoPts this; m_ullAudioPts := m_ullAudioPts this;
     m_unMuxRate := mux; m_unVideoTimestamp := m_unVideoTimestamp this;
     m_unAudioTimestamp := m_unAudioTimestamp this;
     m_unEsStreamSize := size; m_LastCalcTime := last;
     m_isFirstPES := m_isFirstPES this; cVersion := cVersion this |}.

(** [init]: [pHandle] tells whether the handle is not NULL, [alloc] whether
    [new] succeeds. *)
Definition init (pHandle alloc : bool) (this : CMpegPsEnc) : Z * CMpegPsEnc :=
  if negb pHandle then (-1, this)
  else
    (0, {| m_pPsStreamHandle := true;
           m_pPsBuffer := if alloc then Some [] else m_pPsBuffer this;
           m_unBufferSize := if alloc then DEFAULT_PS_CACHE else m_unBufferSize this;
           m_ullScr := 0; m_ullVideoPts := 0; m_ullAudioPts := 0;
           m_unMuxRate := 1024 * 1024 / 50;
           m_unVideoTimestamp := m_unVideoTimestamp this;
           m_unAudioTimestamp := m_unAudioTimestamp this;
           m_unEsStreamSize := m_unEsStreamSize this;
           m_LastCalcTime := m_LastCalcTime this;
           m_isFirstPES := m_isFirstPES this; cVersion := cVersion this |}).

Definition getWritePos (this : CMpegPsEnc) : Z :=
  match m_pPsBuffer this with Some b => u32 (zlen b) | None => 0 end.

(** [handlePsStream(m_pPsBuffer, getWritePos(), ts, m_pUserData, e)] followed
    by [m_pWritePos = m_pPsBuffer], when there is a handle. *)
Definition flush (ts : Z) (e : bool) : enc unit :=
  this ← get;
  if m_pPsStreamHandle this then
    tell {| ps_data := default [] (m_pPsBuffer this); ps_timestamp := ts; ps_end := e |};;
    modify (fun this => with_buffer ((fun _ => []) <$> m_pPsBuffer this) this)
  else mret tt.

Definition release : enc unit :=
  this ← get;
  (if 0 <? getWritePos this then flush (m_unVideoTimestamp this) true else mret tt);;
  modify (with_buffer None).

(** [*m_pWritePos++ = b], byte by byte. *)
Definition write (bs : list Z) : enc unit :=
  this ← get;
  match m_pPsBuffer this with
  | Some b =>
    if zlen b + zlen bs <=? m_unBufferSize this
    then modify (with_buffer (Some (b ++ bs))) else fault
  | None => fault
  end.

(** The check at the head of the four writers. *)
Definition no_room (this : CMpegPsEnc) : bool :=
  match m_pPsBuffer this with
  | None => true
  | Some _ => m_unBufferSize this <=? getWritePos this
  end.

(** ** Headers *)

Definition ps_header_bytes (scr mux : Z) : list Z :=
  [0x00; 0x00; 0x01; 0xBA;
   u8 (Z.lor (Z.lor (Z.lor 0x40 (u8 (Z.shiftl (GET_BITS scr 30 32) 3))) 0x04)
        (u8 (GET_BITS scr 28 29)));
   u8 (GET_BITS scr 20 27);
   u8 (Z.lor (Z.lor (Z.shiftl (u8 (GET_BITS scr 15 19)) 3) 0x04) (u8 (GET_BITS scr 13 14)));
   u8 (GET_BITS scr 5 12);
   u8 (Z.lor (Z.shiftl (u8 (GET_BITS scr 0 6)) 3) 0x04);
   0x01;
   u8 (GET_BITS mux 14 21);
   u8 (GET_BITS mux 6 13);
   u8 (Z.lor (Z.shiftl (u8 (GET_BITS mux 0 6)) 2) 0x03);
   0xf8].

Definition writePSHeader : enc Z :=
  this ← get;
  if no_room this then mret (-1)
  else write (ps_header_bytes (m_ullScr this) (m_unMuxRate this));; mret 0.

Definition sys_header_bytes (mux : Z) : list Z :=
  [0x00; 0x00; 0x01; 0xBB; 0x0; 0x06;
   u8 (Z.lor 0x80 (u8 (GET_BITS mux 15 21)));
   u8 (GET_BITS mux 7 14);
   u8 (Z.lor (Z.shiftl (u8 (GET_BITS mux 0 6)) 1) 0x1);
   u8 (Z.shiftl 0x1 2); 0xe1; 0x7f].

Definition writeSysHeader : enc Z :=
  this ← get;
  if no_room this then mret (-1)
  else write (sys_header_bytes (m_unMuxRate this));; mret 0.

(** The program stream map before its CRC. *)
Definition psm_bytes (version : Z) : list Z :=
  [0x00; 0x00; 0x01; 0xBC; 0x0; 0x12; u8 (Z.lor 0xe0 version); 0xff; 0x0; 0x0; 0x0; 0x8;
   VIDEO_STREAM_TYPE_H264; VIDEO_STREAM_ID; 0x0; 0x0;
   AUDIO_STREAM_TYPE_G711; AUDIO_STREAM_ID; 0x0; 0x0].

Definition writePsmPacket : enc Z :=
  this ← get;
  if no_room this then mret (-1)
  else
    let body := psm_bytes (cVersion this) in
    write body;;
    modify (with_version (u8 ((cVersion this + 1) mod 0x1f)));;
    '(unCrc, _) ← lift (CRCGet body CRCInit);
    write (put32 unCrc);; mret 0.

(** PTS and DTS field of a PES header behind a four bit prefix. *)
Definition ts_bytes (prefix ts : Z) : list Z :=
  [u8 (Z.lor (Z.lor (Z.shiftl prefix 4) (Z.shiftl (u8 (GET_BITS ts 30 32)) 1)) 0x1);
   u8 (GET_BITS ts 22 29);
   u8 (Z.lor (Z.shiftl (u8 (GET_BITS ts 15 21)) 1) 0x1);
   u8 (GET_BITS ts 7 14);
   u8 (Z.lor (Z.shiftl (u8 (GET_BITS ts 0 6)) 1) 0x1)].

(** The lengths and flags of lines 630-645: (usLen, extLen, tsFlag). *)
Definition pes_lengths (unDataSize ullPts ullDts : Z) : Z * Z * Z :=
  let '(usLen, extLen, tsFlag) := (3, 0, 0) in
  let '(usLen, extLen, tsFlag) :=
    if negb (INVALID_TIMESTAMP =? ullPts)
    then (u16 (usLen + 5), u8 (extLen + 5), Z.lor tsFlag 0x02) else (usLen, extLen, tsFlag) in
  let '(usLen, extLen, tsFlag) :=
    if negb (INVALID_TIMESTAMP =? ullDts)
    then (u16 (usLen + 5), u8 (extLen + 5), Z.lor tsFlag 0x01) else (usLen, extLen, tsFlag) in
  (u16 (usLen + u16 unDataSize), extLen, tsFlag).

Definition writePESHeader (unDataSize ucStreamId ullPts ullDts : Z) : enc Z :=
  this ← get;
  if no_room this then mret (-1)
  else if (INVALID_TIMESTAMP =? ullPts) && negb (INVALID_TIMESTAMP =? ullDts) then mret (-1)
  else
    let '(usLen, extLen, tsFlag) := pes_lengths unDataSize ullPts ullDts in
    write [0x00; 0x00; 0x01; ucStreamId; u8 (GET_BITS usLen 8 15); u8 (GET_BITS usLen 0 7);
           0x80; u8 (Z.shiftl tsFlag 6); extLen];;
    if negb (INVALID_TIMESTAMP =? ullPts) then
      write (ts_bytes tsFlag ullPts);;
      (if negb (INVALID_TIMESTAMP =? ullDts)
       then write (ts_bytes 0x1 ullDts) else mret tt);;
      mret 0
    else mret 0.

(** ** Frames *)

(** [calcEsBitrate] at the time [now] of [SVS_GetSecondTime]. *)
Definition calcEsBitrate (now unDataSize : Z) (this : CMpegPsEnc) : CMpegPsEnc :=
  let size := u32 (m_unEsStreamSize this + unDataSize) in
  if m_LastCalcTime this =? 0 then with_rate (m_unMuxRate this) size now this
  else if m_LastCalcTime this <? now
  then with_rate (size / (now - m_LastCalcTime this) / (8 * 50)) size now this
  else with_rate (m_unMuxRate this) size (m_LastCalcTime this) this.

(** Lines 361-388: the headers in front of the first PES packet of a frame. *)
Definition write_headers : enc Z :=
  r ← writePSHeader;
  if negb (0 =? r) then mret (-1)
  else
    r ← writeSysHeader;
    if negb (0 =? r) then mret (-1)
    else
      r ← writePsmPacket;
      if negb (0 =? r) then mret (-1)
      else modify (with_first false);; mret 0.

Definition writeESPacket (pInData : list Z) (enEsType : ES_TYPE_E) : enc Z :=
  let unDataSize := zlen pInData in
  this ← get;
  if unDataSize =? 0 then mret (-1)
  else if u32 (m_unBufferSize this - MAX_PS_HEADER_LEN) <? unDataSize then mret (-1)
  else
    (if u32 (m_unBufferSize this - getWritePos this) <? u32 (unDataSize + MAX_PS_HEADER_LEN)
     then flush (m_unAudioTimestamp this) true else mret tt);;
    this ← get;
    r ← (if (getWritePos this =? 0) && m_isFirstPES this then write_headers else mret 0);
    if negb (0 =? r) then mret (-1)
    else
      let '(ucStreamId, ullPts, ullDts) :=
        match enEsType with
        | ES_TYPE_VIDEO => (VIDEO_STREAM_ID, m_ullVideoPts this, m_ullVideoPts this)
        | ES_TYPE_AUDIO => (AUDIO_STREAM_ID, m_ullAudioPts this, INVALID_TIMESTAMP)
        end in
      r ← writePESHeader unDataSize ucStreamId ullPts ullDts;
      if negb (0 =? r) then mret (-1)
      else write pInData;; mret 0.

(** Lines 180-201 and 270-291: the next time stamp from the last one. *)
Definition next_pts (last pts now : Z) : Z :=
  if last =? 0 then now
  else
    let ullTick := if last <=? now then now - last else u64 (0xffffffff - last + now) in
    u64 (pts + ullTick).

(** The loop [while (0xffff - 13 < unLeftDataSize)]: whole RTP packets' worth
    of data per PES packet. *)
Fixpoint video_loop (fuel : nat) (data : list Z) : enc (option (list Z)) :=
  match fuel with
  | O => fault
  | S fuel =>
    if 0xffff - 13 <? zlen data then
      let unLenPerRtpPacket := MAX_ENCAP_RTP_SIZE - 12 in
      let unSendDataNum := (0xffff - 13) / unLenPerRtpPacket in
      let unSendDataSize := u32 (unSendDataNum * unLenPerRtpPacket) in
      r ← writeESPacket (take (Z.to_nat unSendDataSize) data) ES_TYPE_VIDEO;
      if negb (0 =? r) then mret None
      else
        this ← get;
        flush (m_unVideoTimestamp this) false;;
        video_loop fuel (drop (Z.to_nat unSendDataSize) data)
    else mret (Some data)
  end.

Definition writeVideoEsStream (now : Z) (pInData : list Z) (unTimestamp : Z) : enc Z :=
  let unDataSize := zlen pInData in
  if unDataSize <? MIN_NALU_SIZE then mret (-1)
  else
    modify (fun this => with_video_pts
      (next_pts (m_unVideoTimestamp this) (m_ullVideoPts this) unTimestamp) unTimestamp this);;
    modify (fun this => with_scr (Z.max (m_ullVideoPts this) (m_ullAudioPts this)) this);;
    modify (calcEsBitrate now unDataSize);;
    modify (with_first true);;
    rest ← video_loop (S (length pInData)) pInData;
    match rest with
    | None => mret (-1)
    | Some data =>
      r ← writeESPacket data ES_TYPE_VIDEO;
      if negb (0 =? r) then mret (-1)
      else
        this ← get;
        flush (m_unVideoTimestamp this) true;; mret 0
    end.

Definition writeAudioEsStream (now : Z) (pInData : list Z) (unTimestamp : Z) : enc Z :=
  let unDataSize := zlen pInData in
  modify (fun this => with_audio_pts
    (next_pts (m_unAudioTimestamp this) (m_ullAudioPts this) unTimestamp) unTimestamp this);;
  modify (calcEsBitrate now unDataSize);;
  modify (fun this => with_scr (Z.max (m_ullVideoPts this) (m_ullAudioPts this)) this);;
  modify (with_first true);;
  r ← writeESPacket pInData ES_TYPE_AUDIO;
  if negb (0 =? r) then mret (-1)
  else
    this ← get;
    flush (m_unAudioTimestamp this) true;; mret 0.

(** ** The bytes of a frame *)

(** An encoder between two frames. *)
Record enc_ok (this : CMpegPsEnc) : Prop := {
  ok_handle : m_pPsStreamHandle this = true;
  ok_buffer : m_pPsBuffer this = Some [];
  ok_size : m_unBufferSize this = DEFAULT_PS_CACHE }.

Definition frame_headers (scr mux version : Z) : list Z :=
  ps_header_bytes scr mux ++ sys_header_bytes mux ++ psm_bytes version ++
  put32 (default 0 (fst <$> CRCGet (psm_bytes version) CRCInit)).

Definition pes_header (n sid pts dts : Z) : list Z :=
  let '(usLen, extLen, tsFlag) := pes_lengths n pts dts in
  [0x00; 0x00; 0x01; sid; u8 (GET_BITS usLen 8 15); u8 (GET_BITS usLen 0 7);
   0x80; u8 (Z.shiftl tsFlag 6); extLen] ++
  ts_bytes tsFlag pts ++
  (if INVALID_TIMESTAMP =? dts then [] else ts_bytes 0x1 dts).

Definition pes_packet (sid pts dts : Z) (data : list Z) : list Z :=
  pes_header (zlen data) sid pts dts ++ data.

Lemma pes_header_length n sid pts dts : 14 <= zlen (pes_header n sid pts dts) <= 19.
Proof. unfold pes_header. destruct (pes_lengths _ _ _) as [[? ?] ?]. case_match; unfold zlen; cbn [length app ts_bytes]; lia. Qed.

Lemma frame_headers_length scr mux v : zlen (frame_headers scr mux v) = 50.
Proof. done. Qed.

Lemma write_spec bs s b : m_pPsBuffer s = Some b -> zlen b + zlen bs <= m_unBufferSize s ->
  write bs s = Some (tt, with_buffer (Some (b ++ bs)) s, []).
Proof.
  intros Hb Hl. unfold write. rewrite get_bind, Hb.
  by rewrite (proj2 (Z.leb_le _ _)).
Qed.

Lemma getWritePos_spec s b : m_pPsBuffer s = Some b -> zlen b <= DEFAULT_PS_CACHE ->
  getWritePos s = zlen b.
Proof.
  intros Hb Hl. unfold getWritePos. rewrite Hb. unfold u32. apply wrap_small.
  pose proof (zlen_nonneg b). unfold fits, DEFAULT_PS_CACHE in *. lia.
Qed.

Lemma no_room_false s b : m_pPsBuffer s = Some b -> zlen b < DEFAULT_PS_CACHE ->
  m_unBufferSize s = DEFAULT_PS_CACHE -> no_room s = false.
Proof.
  intros Hb Hl Hs. unfold no_room. rewrite (getWritePos_spec s b), Hb by (done || lia).
  rewrite Hs. by apply Z.leb_gt.
Qed.

Lemma with_buffer_twice b b' s : with_buffer b' (with_buffer b s) = with_buffer b' s.
Proof. done. Qed.

(** A writer that appends [bs]. *)
Definition appends (m : enc Z) (bs : list Z) (s : CMpegPsEnc) (f : CMpegPsEnc -> CMpegPsEnc)
    : Prop :=
  forall b, m_pPsBuffer s = Some b -> m_unBufferSize s = DEFAULT_PS_CACHE ->
    zlen b + zlen bs <= DEFAULT_PS_CACHE -> 0 < zlen bs ->
    m s = Some (0, with_buffer (Some (b ++ bs)) (f s), []).

Lemma zlen_ps_header scr mux : zlen (ps_header_bytes scr mux) = 14.
Proof. done. Qed.
Lemma zlen_sys_header mux : zlen (sys_header_bytes mux) = 12.
Proof. done. Qed.
Lemma zlen_psm v : zlen (psm_bytes v) = 20.
Proof. done. Qed.
Lemma zlen_ts prefix ts : zlen (ts_bytes prefix ts) = 5.
Proof. done. Qed.
#[local] Hint Rewrite zlen_ps_header zlen_sys_header zlen_psm zlen_ts : zlen.

(** Room in the buffer. *)
Ltac room := cbn [m_unBufferSize with_buffer with_version with_first];
  unfold DEFAULT_PS_CACHE in *; zl.

Lemma writePSHeader_spec s :
  appends writePSHeader (ps_header_bytes (m_ullScr s) (m_unMuxRate s)) s (fun s => s).
Proof.
  intros b Hb Hs Hl Hne. unfold writePSHeader. rewrite get_bind.
  rewrite (no_room_false s b) by (done || lia).
  by erewrite bind_eq by (apply write_spec; [exact Hb|lia]).
Qed.

Lemma writeSysHeader_spec s :
  appends writeSysHeader (sys_header_bytes (m_unMuxRate s)) s (fun s => s).
Proof.
  intros b Hb Hs Hl Hne. unfold writeSysHeader. rewrite get_bind.
  rewrite (no_room_false s b) by (done || lia).
  by erewrite bind_eq by (apply write_spec; [exact Hb|lia]).
Qed.

(** *** The CRC *)

Lemma CRCGet_loop_spec bytes rest pre fuel c : bytes = pre ++ rest ->
  zlen bytes <= 255 -> (length rest < fuel)%nat ->
  CRCGet_loop fuel bytes (zlen pre) c = Some (fold_left (fun c b => CRCInputByte b c) rest c).
Proof.
  revert pre fuel c. induction rest as [|x rest IH]; intros pre fuel c -> Hl Hf;
    (destruct fuel as [|fuel]; [cbn in Hf; lia|]); cbn [CRCGet_loop].
  - by rewrite app_nil_r, Z.ltb_irrefl.
  - pose proof (zlen_nonneg pre). pose proof (zlen_nonneg rest).
    rewrite (proj2 (Z.ltb_lt _ _)) by zl.
    rewrite rd_app_r by lia. rewrite Z.sub_diag, rd_0. cbn [mbind option_bind fold_left].
    rewrite zlen_app, zlen_cons in Hl. unfold u8. rewrite wrap_small by (unfold fits; lia).
    replace (zlen pre + 1) with (zlen (pre ++ [x])) by zl.
    apply IH; [by rewrite <-app_assoc|zl|cbn in Hf; lia].
Qed.

Definition crc_fold (bytes : list Z) : Z :=
  uVal (fold_left (fun c b => CRCInputByte b c) bytes CRCInit).

Lemma CRCGet_spec bytes : zlen bytes <= 255 ->
  CRCGet bytes CRCInit =
    Some (crc_fold bytes, fold_left (fun c b => CRCInputByte b c) bytes CRCInit).
Proof.
  intros Hl. unfold CRCGet. change (bCRCInit CRCInit) with true.
  change 0 with (zlen (@nil Z)).
  rewrite (CRCGet_loop_spec bytes bytes []) by (try done; unfold zlen in Hl; lia). done.
Qed.

Lemma writePsmPacket_spec s :
  appends writePsmPacket
    (psm_bytes (cVersion s) ++ put32 (crc_fold (psm_bytes (cVersion s)))) s
    (with_version (u8 ((cVersion s + 1) mod 0x1f))).
Proof.
  intros b Hb Hs Hl Hne. unfold writePsmPacket. rewrite get_bind.
  rewrite (no_room_false s b) by (done || lia).
  rewrite zlen_app in Hl. change (zlen (put32 _)) with 4 in Hl.
  erewrite bind_eq by (apply write_spec; [exact Hb|lia]).
  rewrite modify_bind.
  erewrite bind_eq by (unfold lift; rewrite CRCGet_spec by done; reflexivity).
  cbn beta iota.
  erewrite bind_eq by (apply write_spec; [done|room]).
  cbn -[psm_bytes crc_fold put32]. by rewrite <-app_assoc.
Qed.

Lemma write_headers_spec s :
  m_pPsBuffer s = Some [] -> m_unBufferSize s = DEFAULT_PS_CACHE ->
  write_headers s = Some (0, with_first false (with_version (u8 ((cVersion s + 1) mod 0x1f))
    (with_buffer (Some (frame_headers (m_ullScr s) (m_unMuxRate s) (cVersion s))) s)), []).
Proof.
  intros Hb Hs. unfold write_headers, DEFAULT_PS_CACHE in *.
  erewrite bind_eq by (apply (writePSHeader_spec s []); [done|done|room|room]).
  change (negb (0 =? 0)) with false; cbn beta iota. cbn [app].
  erewrite bind_eq by (apply writeSysHeader_spec; [done|done|room|room]).
  change (negb (0 =? 0)) with false; cbn beta iota.
  erewrite bind_eq by (apply writePsmPacket_spec; [done|exact Hs|room|room]).
  change (negb (0 =? 0)) with false; cbn beta iota. rewrite modify_bind.
  unfold frame_headers. rewrite CRCGet_spec by (rewrite zlen_psm; lia).
  change (default 0 (fst <$> Some (?x, _))) with x. rewrite <-!app_assoc. reflexivity.
Qed.

Lemma writePESHeader_spec s n sid pts dts : INVALID_TIMESTAMP <> pts ->
  appends (writePESHeader n sid pts dts) (pes_header n sid pts dts) s (fun s => s).
Proof.
  intros Hp b Hb Hs Hl Hne. unfold writePESHeader, pes_header in *. rewrite get_bind.
  rewrite (no_room_false s b) by (done || lia).
  rewrite (proj2 (Z.eqb_neq _ _)) by done. cbn [andb negb].
  destruct (pes_lengths n pts dts) as [[usLen extLen] tsFlag].
  assert (0 <= zlen (if INVALID_TIMESTAMP =? dts then [] else ts_bytes 1 dts)) by apply zlen_nonneg.
  erewrite bind_eq by (apply write_spec; [exact Hb|room]).
  erewrite bind_eq by (apply write_spec; [done|room]).
  rewrite with_buffer_twice.
  destruct (INVALID_TIMESTAMP =? dts); cbn [negb].
  - rewrite ret_bind. cbn -[ts_bytes]. by rewrite app_nil_r, <-app_assoc.
  - erewrite bind_eq by (apply write_spec;
      [done|room]).
    cbn -[ts_bytes]. by rewrite <-!app_assoc.
Qed.

(** Stream identifier and time stamps of a PES packet. *)
Definition es_pes (s : CMpegPsEnc) (t : ES_TYPE_E) (data : list Z) : list Z :=
  match t with
  | ES_TYPE_VIDEO => pes_packet VIDEO_STREAM_ID (m_ullVideoPts s) (m_ullVideoPts s) data
  | ES_TYPE_AUDIO => pes_packet AUDIO_STREAM_ID (m_ullAudioPts s) INVALID_TIMESTAMP data
  end.
Definition es_pts (s : CMpegPsEnc) (t : ES_TYPE_E) : Z :=
  match t with ES_TYPE_VIDEO => m_ullVideoPts s | ES_TYPE_AUDIO => m_ullAudioPts s end.

(** The object after the headers of a frame. *)
Definition after_headers (s : CMpegPsEnc) : CMpegPsEnc :=
  if m_isFirstPES s
  then with_first false (with_version (u8 ((cVersion s + 1) mod 0x1f)) s) else s.
Definition headers_if_first (s : CMpegPsEnc) : list Z :=
  if m_isFirstPES s then frame_headers (m_ullScr s) (m_unMuxRate s) (cVersion s) else [].

Lemma writeESPacket_spec s t data : enc_ok s -> INVALID_TIMESTAMP <> es_pts s t ->
  0 < zlen data <= DEFAULT_PS_CACHE - MAX_PS_HEADER_LEN ->
  writeESPacket data t s =
    Some (0, with_buffer (Some (headers_if_first s ++ es_pes s t data)) (after_headers s), []).
Proof.
  intros [Hh Hb Hs] Hp Hd. unfold writeESPacket. rewrite get_bind.
  rewrite (proj2 (Z.eqb_neq _ _)) by lia.
  rewrite (getWritePos_spec s []), Hs by done.
  change (u32 (DEFAULT_PS_CACHE - MAX_PS_HEADER_LEN)) with 1048448.
  change (u32 (DEFAULT_PS_CACHE - zlen [])) with 1048576.
  unfold DEFAULT_PS_CACHE, MAX_PS_HEADER_LEN in Hd |- *.
  rewrite (proj2 (Z.ltb_ge _ _)) by lia.
  unfold u32. rewrite wrap_small by (unfold fits; lia).
  rewrite (proj2 (Z.ltb_ge _ _)) by lia. rewrite ret_bind, get_bind.
  rewrite (getWritePos_spec s []) by done. change (zlen [] =? 0) with true. cbn [andb].
  set (s1 := with_buffer (Some (headers_if_first s)) (after_headers s)).
  assert (bind_eq' : (if m_isFirstPES s then write_headers else mret 0) s = Some (0, s1, [])).
  { unfold s1, headers_if_first, after_headers. destruct (m_isFirstPES s).
    - by rewrite write_headers_spec.
    - rewrite <-Hb. by destruct s. }
  erewrite bind_eq by exact bind_eq'. change (negb (0 =? 0)) with false; cbn beta iota.
  assert (zlen (headers_if_first s) <= 50) as Hh50
    by (unfold headers_if_first; destruct (m_isFirstPES s); [rewrite frame_headers_length|rewrite zlen_nil]; lia).
  assert (m_unBufferSize s1 = DEFAULT_PS_CACHE) as Hs1.
  { unfold s1, after_headers. by destruct (m_isFirstPES s). }
  assert (exists sid dts, es_pes s t data = pes_packet sid (es_pts s t) dts data /\
    match t with
    | ES_TYPE_VIDEO => (VIDEO_STREAM_ID, m_ullVideoPts s, m_ullVideoPts s)
    | ES_TYPE_AUDIO => (AUDIO_STREAM_ID, m_ullAudioPts s, INVALID_TIMESTAMP)
    end = (sid, es_pts s t, dts)) as (sid & dts & -> & ->) by (destruct t; eauto).
  pose proof (pes_header_length (zlen data) sid (es_pts s t) dts).
  erewrite bind_eq by (apply writePESHeader_spec;
    [done|done|exact Hs1|room|lia]).
  change (negb (0 =? 0)) with false; cbn beta iota.
  erewrite bind_eq by (apply write_spec; [done|room]).
  unfold pes_packet. cbn -[headers_if_first pes_header]. by rewrite <-app_assoc.
Qed.

Lemma flush_spec s b ts e : m_pPsStreamHandle s = true -> m_pPsBuffer s = Some b ->
  flush ts e s = Some (tt, with_buffer (Some []) s,
    [{| ps_data := b; ps_timestamp := ts; ps_end := e |}]).
Proof.
  intros Hh Hb. unfold flush. rewrite get_bind, Hh, tell_bind.
  unfold modify. cbn. by rewrite Hb.
Qed.

(** The pieces of a frame that go into one PES packet each. *)
Fixpoint pieces (fuel : nat) (data : list Z) : list (list Z) :=
  match fuel with
  | O => [data]
  | S fuel =>
    if 65522 <? zlen data
    then take (Z.to_nat 64676) data :: pieces fuel (drop (Z.to_nat 64676) data)
    else [data]
  end.

Fixpoint ps_events (hdr : list Z) (pes : list Z -> list Z) (ts : Z) (cs : list (list Z))
    : list ps_event :=
  match cs with
  | [] => []
  | c :: cs =>
    {| ps_data := hdr ++ pes c; ps_timestamp := ts;
       ps_end := match cs with [] => true | _ => false end |} :: ps_events [] pes ts cs
  end.

Lemma pieces_not_nil fuel data : pieces fuel data <> [].
Proof. destruct fuel; cbn; [done|]. by case_match. Qed.

Lemma ps_events_cons hdr pes ts c cs : cs <> [] ->
  ps_events hdr pes ts (c :: cs) =
    {| ps_data := hdr ++ pes c; ps_timestamp := ts; ps_end := false |}
      :: ps_events [] pes ts cs.
Proof. by destruct cs. Qed.

(** The end of [writeVideoEsStream], from the loop on. *)
Definition video_rest (fuel : nat) (data : list Z) : enc Z :=
  rest ← video_loop fuel data;
  match rest with
  | None => mret (-1)
  | Some data =>
    r ← writeESPacket data ES_TYPE_VIDEO;
    if negb (0 =? r) then mret (-1)
    else
      this ← get;
      flush (m_unVideoTimestamp this) true;; mret 0
  end.

(** One PES packet written and handed on. *)
Definition after_pes (s : CMpegPsEnc) : CMpegPsEnc :=
  with_buffer (Some []) (after_headers s).

Lemma after_headers_fields s :
  m_ullVideoPts (after_headers s) = m_ullVideoPts s /\
  m_ullAudioPts (after_headers s) = m_ullAudioPts s /\
  m_unVideoTimestamp (after_headers s) = m_unVideoTimestamp s /\
  m_unAudioTimestamp (after_headers s) = m_unAudioTimestamp s /\
  m_isFirstPES (after_headers s) = false /\
  m_pPsStreamHandle (after_headers s) = m_pPsStreamHandle s /\
  m_unBufferSize (after_headers s) = m_unBufferSize s.
Proof. unfold after_headers. by destruct (m_isFirstPES s) eqn:E. Qed.

Lemma after_pes_ok s : enc_ok s -> enc_ok (after_pes s).
Proof.
  intros [Hh Hb Hs]. destruct (after_headers_fields s) as (_ & _ & _ & _ & _ & Eh & Es).
  split; cbn; [by rewrite Eh|done|by rewrite Es].
Qed.

Lemma after_pes_idem s : enc_ok s -> after_pes (after_pes s) = after_pes s.
Proof.
  intros _. unfold after_pes at 1, after_headers at 1.
  change (m_isFirstPES (after_pes s)) with (m_isFirstPES (after_headers s)).
  destruct (after_headers_fields s) as (_ & _ & _ & _ & -> & _). done.
Qed.

(** A PES packet written and handed on, seen from the continuation. *)
Lemma send_pes {B} s t data ts e (k : enc B) : enc_ok s -> INVALID_TIMESTAMP <> es_pts s t ->
  0 < zlen data <= DEFAULT_PS_CACHE - MAX_PS_HEADER_LEN ->
  ts (with_buffer (Some (headers_if_first s ++ es_pes s t data)) (after_headers s)) = ts s ->
  forall (err : enc B),
  (r ← writeESPacket data t;
   if negb (0 =? r) then err else this ← get; flush (ts this) e;; k) s =
  '(b, s', o) ← k (after_pes s);
  Some (b, s', {| ps_data := headers_if_first s ++ es_pes s t data; ps_timestamp := ts s;
                  ps_end := e |} :: o).
Proof.
  intros Hok Hp Hd Hts err.
  erewrite bind_eq by (apply writeESPacket_spec; done).
  change (negb (0 =? 0)) with false; cbn beta iota. rewrite get_bind.
  erewrite bind_eq.
  2: { apply flush_spec; [|done]. cbn.
       destruct (after_headers_fields s) as (_ & _ & _ & _ & _ & -> & _). by destruct Hok. }
  rewrite Hts, with_buffer_twice. fold (after_pes s).
  by destruct (k (after_pes s)) as [[[? ?] ?]|].
Qed.

Lemma video_rest_spec fuel : forall data s,
  enc_ok s -> INVALID_TIMESTAMP <> m_ullVideoPts s -> 0 < zlen data ->
  zlen data < 64676 * Z.of_nat fuel ->
  video_rest fuel data s =
    Some (0, after_pes s, ps_events (headers_if_first s) (es_pes s ES_TYPE_VIDEO)
                            (m_unVideoTimestamp s) (pieces fuel data)).
Proof.
  induction fuel as [|fuel IH]; intros data s Hok Hp Hpos Hf; [lia|].
  unfold video_rest. cbn [video_loop pieces]. change (0xffff - 13) with 65522.
  change (u32 (65522 / (MAX_ENCAP_RTP_SIZE - 12) * (MAX_ENCAP_RTP_SIZE - 12))) with 64676.
  assert (forall b, m_unVideoTimestamp (with_buffer b (after_headers s)) =
    m_unVideoTimestamp s) as Hts by (intros b; apply (after_headers_fields s)).
  destruct (Z.ltb_spec 65522 (zlen data)).
  - rewrite bind_assoc.
    erewrite bind_ext; [|intros r s'; instantiate (1 := fun r =>
      if negb (0 =? r) then mret (-1) else this ← get; flush (m_unVideoTimestamp this) false;;
        video_rest fuel (drop (Z.to_nat 64676) data)); cbn beta].
    2: { destruct (negb (0 =? r)); [by rewrite ret_bind|].
         rewrite bind_assoc. apply bind_ext. intros this s''. by rewrite bind_assoc. }
    assert (zlen (take (Z.to_nat 64676) data) = 64676) by zl.
    rewrite (send_pes s ES_TYPE_VIDEO _ m_unVideoTimestamp) by first [exact Hok|exact Hp|apply Hts|solve [unfold MAX_PS_HEADER_LEN; room]].
    rewrite IH; [|by apply after_pes_ok| | |].
    + cbn [mbind option_bind]. rewrite after_pes_idem by done.
      rewrite ps_events_cons by apply pieces_not_nil.
      unfold headers_if_first at 2, es_pes at 2.
      change (m_isFirstPES (after_pes s)) with (m_isFirstPES (after_headers s)).
      change (m_ullVideoPts (after_pes s)) with (m_ullVideoPts (after_headers s)).
      change (m_unVideoTimestamp (after_pes s)) with (m_unVideoTimestamp (after_headers s)).
      destruct (after_headers_fields s) as (-> & _ & -> & _ & -> & _). done.
    + change (m_ullVideoPts (after_pes s)) with (m_ullVideoPts (after_headers s)).
      by destruct (after_headers_fields s) as (-> & _).
    + zl.
    + zl.
  - rewrite ret_bind.
    rewrite (send_pes s ES_TYPE_VIDEO _ m_unVideoTimestamp) by first [exact Hok|exact Hp|apply Hts|solve [unfold MAX_PS_HEADER_LEN; room]].
    done.
Qed.

(** The object when the packets of a frame are written. *)
Definition video_state (now : Z) (data : list Z) (ts : Z) (s : CMpegPsEnc) : CMpegPsEnc :=
  let s := with_video_pts (next_pts (m_unVideoTimestamp s) (m_ullVideoPts s) ts) ts s in
  let s := with_scr (Z.max (m_ullVideoPts s) (m_ullAudioPts s)) s in
  with_first true (calcEsBitrate now (zlen data) s).
Definition audio_state (now : Z) (data : list Z) (ts : Z) (s : CMpegPsEnc) : CMpegPsEnc :=
  let s := with_audio_pts (next_pts (m_unAudioTimestamp s) (m_ullAudioPts s) ts) ts s in
  let s := calcEsBitrate now (zlen data) s in
  with_first true (with_scr (Z.max (m_ullVideoPts s) (m_ullAudioPts s)) s).

Lemma calcEsBitrate_fields now n s :
  m_pPsStreamHandle (calcEsBitrate now n s) = m_pPsStreamHandle s /\
  m_pPsBuffer (calcEsBitrate now n s) = m_pPsBuffer s /\
  m_unBufferSize (calcEsBitrate now n s) = m_unBufferSize s /\
  m_ullVideoPts (calcEsBitrate now n s) = m_ullVideoPts s /\
  m_ullAudioPts (calcEsBitrate now n s) = m_ullAudioPts s /\
  m_unVideoTimestamp (calcEsBitrate now n s) = m_unVideoTimestamp s /\
  m_unAudioTimestamp (calcEsBitrate now n s) = m_unAudioTimestamp s /\
  m_ullScr (calcEsBitrate now n s) = m_ullScr s /\
  cVersion (calcEsBitrate now n s) = cVersion s.
Proof. unfold calcEsBitrate. by repeat case_match. Qed.

Lemma video_state_ok now data ts s : enc_ok s -> enc_ok (video_state now data ts s).
Proof.
  intros [Hh Hb Hs]. unfold video_state. set (s1 := with_scr _ _).
  destruct (calcEsBitrate_fields now (zlen data) s1) as (E1 & E2 & E3 & _).
  split; cbn; rewrite ?E1, ?E2, ?E3; done.
Qed.

Lemma audio_state_ok now data ts s : enc_ok s -> enc_ok (audio_state now data ts s).
Proof.
  intros [Hh Hb Hs]. unfold audio_state. set (s1 := with_audio_pts _ _ _).
  destruct (calcEsBitrate_fields now (zlen data) s1) as (E1 & E2 & E3 & _).
  split; cbn; rewrite ?E1, ?E2, ?E3; done.
Qed.

Lemma writeVideoEsStream_spec now data ts s : enc_ok s ->
  INVALID_TIMESTAMP <> next_pts (m_unVideoTimestamp s) (m_ullVideoPts s) ts ->
  MIN_NALU_SIZE <= zlen data ->
  let s1 := video_state now data ts s in
  writeVideoEsStream now data ts s =
    Some (0, after_pes s1, ps_events (headers_if_first s1) (es_pes s1 ES_TYPE_VIDEO) ts
                             (pieces (S (length data)) data)).
Proof.
  intros Hok Hp Hd s1. unfold writeVideoEsStream. unfold MIN_NALU_SIZE in Hd.
  rewrite (proj2 (Z.ltb_ge _ _)) by (unfold MIN_NALU_SIZE; lia).
  rewrite !modify_bind. fold (video_rest (S (length data)) data). fold (video_state now data ts s).
  fold s1.
  assert (m_ullVideoPts s1 = next_pts (m_unVideoTimestamp s) (m_ullVideoPts s) ts /\
          m_unVideoTimestamp s1 = ts) as [Ep Et].
  { unfold s1, video_state. set (s0 := with_scr _ _).
    destruct (calcEsBitrate_fields now (zlen data) s0) as (_ & _ & _ & E4 & _ & E6 & _).
    cbn. by rewrite E4, E6. }
  rewrite (video_rest_spec (S (length data)) data s1); [by rewrite Et|by apply video_state_ok|by rewrite Ep|lia|].
  unfold zlen. lia.
Qed.

Lemma writeAudioEsStream_spec now data ts s : enc_ok s ->
  INVALID_TIMESTAMP <> next_pts (m_unAudioTimestamp s) (m_ullAudioPts s) ts ->
  0 < zlen data <= DEFAULT_PS_CACHE - MAX_PS_HEADER_LEN ->
  let s1 := audio_state now data ts s in
  writeAudioEsStream now data ts s =
    Some (0, after_pes s1, [{| ps_data := headers_if_first s1 ++ es_pes s1 ES_TYPE_AUDIO data;
                               ps_timestamp := ts; ps_end := true |}]).
Proof.
  intros Hok Hp Hd s1. unfold writeAudioEsStream.
  rewrite !modify_bind. fold (audio_state now data ts s). fold s1.
  assert (m_ullAudioPts s1 = next_pts (m_unAudioTimestamp s) (m_ullAudioPts s) ts /\
          m_unAudioTimestamp s1 = ts) as [Ep Et].
  { unfold s1, audio_state. set (s0 := with_audio_pts _ _ s).
    destruct (calcEsBitrate_fields now (zlen data) s0) as (_ & _ & _ & _ & E5 & _ & E7 & _).
    cbn. by rewrite E5, E7. }
  rewrite (send_pes s1 ES_TYPE_AUDIO data m_unAudioTimestamp).
  - rewrite Et. done.
  - by apply audio_state_ok.
  - cbn [es_pts]. by rewrite Ep.
  - done.
  - apply (after_headers_fields s1).
Qed.

(** ** What the headers say *)

Lemma GET_BITS_arith x s e : 0 <= s <= e -> GET_BITS x s e = x / 2 ^ s mod 2 ^ (e - s + 1).
Proof. intros. unfold GET_BITS. by rewrite Z.land_ones, Z.shiftr_div_pow2 by lia. Qed.

Lemma u8_GET_BITS x s e : 0 <= s <= e -> e - s < 8 ->
  u8 (GET_BITS x s e) = x / 2 ^ s mod 2 ^ (e - s + 1).
Proof.
  intros. rewrite GET_BITS_arith by lia. unfold u8. apply wrap_small.
  eapply fits_mono; [apply mod_fits; lia|lia].
Qed.

Lemma marker_byte x : fits 7 x -> u8 (Z.lor (Z.shiftl x 1) 1) = 2 * x + 1.
Proof.
  intros Hx. rewrite lor_low by (lia || solve_fits). unfold u8. rewrite wrap_small by solve_fits.
  pow2. lia.
Qed.

Lemma prefix_byte p x : 0 <= p < 16 -> fits 3 x ->
  u8 (Z.lor (Z.lor (Z.shiftl p 4) (Z.shiftl x 1)) 1) = 16 * p + 2 * x + 1.
Proof.
  intros Hp Hx. rewrite <-Z.lor_assoc, (lor_low x 1) by (lia || solve_fits).
  rewrite lor_low by (lia || solve_fits). unfold u8. rewrite wrap_small by solve_fits. pow2. lia.
Qed.

Lemma ts_bytes_arith prefix ts : 0 <= prefix < 16 ->
  ts_bytes prefix ts = [16 * prefix + 2 * (ts / 2 ^ 30 mod 2 ^ 3) + 1; ts / 2 ^ 22 mod 2 ^ 8;
    2 * (ts / 2 ^ 15 mod 2 ^ 7) + 1; ts / 2 ^ 7 mod 2 ^ 8; 2 * (ts mod 2 ^ 7) + 1].
Proof.
  intros Hp. unfold ts_bytes. rewrite !u8_GET_BITS by lia.
  rewrite prefix_byte, !marker_byte by (done || by apply mod_fits).
  change (ts / 2 ^ 0) with (ts / 1). by rewrite Z.div_1_r.
Qed.

(** ISO 13818-1: the 33-bit time stamp of a PTS or DTS field. *)
Definition ts_decode (l : list Z) : option Z :=
  match l with
  | [b0; b1; b2; b3; b4] =>
    if (b0 mod 2 =? 1) && (b2 mod 2 =? 1) && (b4 mod 2 =? 1)
    then Some (2 ^ 30 * (b0 / 2 mod 8) + 2 ^ 22 * b1 + 2 ^ 15 * (b2 / 2) + 2 ^ 7 * b3 + b4 / 2)
    else None
  | _ => None
  end.

Lemma ts_decode_bytes prefix ts : 0 <= prefix < 16 ->
  ts_decode (ts_bytes prefix ts) = Some (wrap 33 ts).
Proof.
  intros Hp. rewrite ts_bytes_arith by done. cbn [ts_decode].
  pose proof (mod_fits (ts / 2 ^ 30) 3 ltac:(lia)).
  pose proof (mod_fits (ts / 2 ^ 15) 7 ltac:(lia)).
  pose proof (mod_fits ts 7 ltac:(lia)).
  assert (wrap 33 ts = ts mod 2 ^ 7 + 2 ^ 7 * (ts / 2 ^ 7 mod 2 ^ 8 + 2 ^ 8 *
    (ts / 2 ^ 15 mod 2 ^ 7 + 2 ^ 7 * (ts / 2 ^ 22 mod 2 ^ 8 + 2 ^ 8 * (ts / 2 ^ 30 mod 2 ^ 3)))))
    as ->.
  { unfold wrap. change 33 with (7 + (8 + (7 + (8 + 3)))).
    rewrite !mod_split, !Z.div_div by lia. rewrite <-!Z.pow_add_r by lia. done. }
  destruct (Z.eqb_spec ((16 * prefix + 2 * (ts / 2 ^ 30 mod 2 ^ 3) + 1) mod 2) 1); [|lia].
  destruct (Z.eqb_spec ((2 * (ts / 2 ^ 15 mod 2 ^ 7) + 1) mod 2) 1); [|lia].
  destruct (Z.eqb_spec ((2 * (ts mod 2 ^ 7) + 1) mod 2) 1); [|lia].
  cbn [andb]. f_equal. unfold fits in *.
  generalize dependent (ts / 2 ^ 30 mod 2 ^ 3). generalize dependent (ts / 2 ^ 15 mod 2 ^ 7).
  generalize dependent (ts mod 2 ^ 7). intros. lia.
Qed.

(** The system clock reference of a pack header (ISO 13818-1, 2.5.3.3): base,
    and the marker bits. *)
Definition scr_decode (l : list Z) : option Z :=
  match l with
  | 0 :: 0 :: 1 :: 0xBA :: b4 :: b5 :: b6 :: b7 :: b8 :: b9 :: _ =>
    if (b4 / 64 =? 1) && (b4 / 4 mod 2 =? 1) && (b6 / 4 mod 2 =? 1) && (b8 / 4 mod 2 =? 1)
       && (b9 mod 2 =? 1)
    then Some (2 ^ 30 * (b4 / 8 mod 8) + 2 ^ 28 * (b4 mod 4) + 2 ^ 20 * b5 + 2 ^ 15 * (b6 / 8)
               + 2 ^ 13 * (b6 mod 4) + 2 ^ 5 * b7 + b8 / 8)
    else None
  | _ => None
  end.

Lemma scr_byte_4 a b : fits 3 a -> fits 2 b ->
  u8 (Z.lor (Z.lor (Z.lor 0x40 (u8 (Z.shiftl a 3))) 0x04) b) = 64 + 8 * a + 4 + b.
Proof.
  intros Ha Hb. apply Z.eqb_eq.
  by apply (forall_fits2 3 2 (fun a b => u8 (Z.lor (Z.lor (Z.lor 0x40 (u8 (Z.shiftl a 3))) 0x04) b)
    =? 64 + 8 * a + 4 + b)).
Qed.

Lemma scr_byte_6 a b : fits 5 a -> fits 2 b ->
  u8 (Z.lor (Z.lor (Z.shiftl a 3) 0x04) b) = 8 * a + 4 + b.
Proof.
  intros Ha Hb. apply Z.eqb_eq.
  by apply (forall_fits2 5 2 (fun a b => u8 (Z.lor (Z.lor (Z.shiftl a 3) 0x04) b)
    =? 8 * a + 4 + b)).
Qed.

Lemma scr_byte_8 a : fits 7 a -> u8 (Z.lor (Z.shiftl a 3) 0x04) = 8 * (a mod 2 ^ 5) + 4.
Proof.
  intros Ha. apply Z.eqb_eq.
  by apply (forall_fits 7 (fun a => u8 (Z.lor (Z.shiftl a 3) 0x04) =? 8 * (a mod 2 ^ 5) + 4)).
Qed.

Lemma scr_decode_header scr mux rest :
  scr_decode (ps_header_bytes scr mux ++ rest) = Some (wrap 33 scr).
Proof.
  unfold ps_header_bytes. rewrite !(u8_GET_BITS scr) by lia.
  rewrite (GET_BITS_arith scr 30 32) by lia.
  change (32 - 30 + 1) with 3. change (29 - 28 + 1) with 2. change (27 - 20 + 1) with 8.
  change (19 - 15 + 1) with 5. change (14 - 13 + 1) with 2. change (12 - 5 + 1) with 8.
  change (6 - 0 + 1) with 7. change (2 ^ 0) with 1. rewrite (Z.div_1_r scr).
  rewrite scr_byte_4, scr_byte_6, scr_byte_8 by (apply mod_fits; lia).
  assert (scr mod 2 ^ 7 mod 2 ^ 5 = scr mod 2 ^ 5) as -> by lia.
  cbn [app scr_decode].
  assert (wrap 33 scr = scr mod 2 ^ 5 + 2 ^ 5 * (scr / 2 ^ 5 mod 2 ^ 8 + 2 ^ 8 *
    (scr / 2 ^ 13 mod 2 ^ 2 + 2 ^ 2 * (scr / 2 ^ 15 mod 2 ^ 5 + 2 ^ 5 * (scr / 2 ^ 20 mod 2 ^ 8 +
     2 ^ 8 * (scr / 2 ^ 28 mod 2 ^ 2 + 2 ^ 2 * (scr / 2 ^ 30 mod 2 ^ 3))))))) as ->.
  { unfold wrap. change 33 with (5 + (8 + (2 + (5 + (8 + (2 + 3)))))).
    rewrite !mod_split, !Z.div_div by lia. rewrite <-!Z.pow_add_r by lia. done. }
  pose proof (mod_fits (scr / 2 ^ 30) 3 ltac:(lia)) as H1. revert H1.
  pose proof (mod_fits (scr / 2 ^ 28) 2 ltac:(lia)) as H1. revert H1.
  pose proof (mod_fits (scr / 2 ^ 15) 5 ltac:(lia)) as H1. revert H1.
  pose proof (mod_fits (scr / 2 ^ 13) 2 ltac:(lia)) as H1. revert H1.
  pose proof (mod_fits scr 5 ltac:(lia)) as H1. revert H1.
  generalize (scr / 2 ^ 30 mod 2 ^ 3), (scr / 2 ^ 28 mod 2 ^ 2), (scr / 2 ^ 15 mod 2 ^ 5),
    (scr / 2 ^ 13 mod 2 ^ 2), (scr mod 2 ^ 5), (scr / 2 ^ 5 mod 2 ^ 8), (scr / 2 ^ 20 mod 2 ^ 8).
  intros a b c d e f g He Hd Hc Hb Ha. unfold fits in *.
  rewrite (proj2 (Z.eqb_eq _ _)) by lia. cbn [andb].
  rewrite (proj2 (Z.eqb_eq _ _)) by lia. cbn [andb].
  rewrite (proj2 (Z.eqb_eq _ _)) by lia. cbn [andb].
  rewrite (proj2 (Z.eqb_eq _ _)) by lia. cbn [andb].
  change (1 mod 2 =? 1) with true. cbn [andb]. f_equal. lia.
Qed.

(** ** CRC-32/MPEG-2 *)

(** One bit of the CRC of ISO 13818-1, annex A: generator 0x04C11DB7. *)
Definition crc_step (crc : Z) (bit : bool) : Z :=
  Z.lxor (u32 (Z.shiftl crc 1)) (if xorb (Z.testbit crc 31) bit then 0x04C11DB7 else 0).

Definition byte_bits (b : Z) : list bool := (fun j => Z.testbit b (7 - j)) <$> seqZ 0 8.

Definition crc32_mpeg2 (bytes : list Z) : Z :=
  fold_left crc_step (bytes ≫= byte_bits) 0xffffffff.

Lemma testbit_1 n : Z.testbit 1 n = (n =? 0).
Proof.
  destruct (Z.eqb_spec n 0) as [->|]; [done|].
  destruct (Z.lt_ge_cases n 0); [by rewrite Z.testbit_neg_r|].
  by rewrite (fits_testbit 1) by (solve_fits || lia).
Qed.

Lemma land_pow2_shiftr x n : 0 <= n ->
  Z.shiftr (Z.land x (Z.shiftl 1 n)) n = Z.b2z (Z.testbit x n).
Proof.
  intros Hn. apply Z.bits_inj'. intros i Hi.
  rewrite Z.shiftr_spec, Z.land_spec, Z.shiftl_spec, testbit_1 by lia.
  destruct (Z.eqb_spec (i + n - n) 0) as [H|H].
  - replace i with 0 by lia. rewrite Z.add_0_l, andb_true_r. by rewrite Z.b2z_bit0.
  - rewrite andb_false_r. symmetry. apply (fits_testbit 1); [|lia].
    destruct (Z.testbit x n); cbn [Z.b2z]; solve_fits.
Qed.

Lemma CRCInputBit_step bit c : fits 32 (uVal c) -> upoly c = 0x02608edb ->
  uVal (CRCInputBit (Z.b2z bit) c) = crc_step (uVal c) bit /\
  upoly (CRCInputBit (Z.b2z bit) c) = 0x02608edb.
Proof.
  intros Hv Hp. split; [|done]. unfold CRCInputBit, crc_step. cbn [uVal]. rewrite Hp.
  change 0x80000000 with (Z.shiftl 1 31). rewrite land_pow2_shiftr by lia.
  assert (Z.lxor (Z.b2z (Z.testbit (uVal c) 31)) (Z.b2z bit) =
          Z.b2z (xorb (Z.testbit (uVal c) 31) bit)) as ->.
  { by destruct (Z.testbit (uVal c) 31), bit. }
  destruct (xorb _ _); cbn [Z.b2z].
  - change (1 =? 1) with true. cbn iota. change 0x04C11DB7 with (Z.lor (Z.shiftl 0x02608edb 1) 1).
    unfold u32. apply Z.bits_inj'. intros n Hn.
    rewrite Z.lor_spec, Z.lxor_spec, Z.lor_spec, !testbit_wrap, !Z.shiftl_spec, Z.lxor_spec,
      testbit_1 by lia.
    destruct (Z.eqb_spec n 0) as [->|].
    + zbits_neg. done.
    + rewrite !orb_false_r. destruct (Z.ltb_spec n 32); [done|].
      rewrite (fits_testbit 26 0x02608edb) by (solve_fits || lia). done.
  - change (0 =? 1) with false. cbn iota. by rewrite Z.lor_0_r, Z.lxor_0_r.
Qed.

Lemma crc_step_fits crc bit : fits 32 (crc_step crc bit).
Proof.
  unfold crc_step. apply testbit_fits; [lia| |].
  - apply Z.lxor_nonneg. pose proof (wrap_fits 32 (Z.shiftl crc 1) ltac:(lia)) as H.
    unfold fits in H. unfold u32. split; [|lia]. by destruct (xorb _ _).
  - intros n Hn. rewrite Z.lxor_spec. unfold u32. rewrite testbit_wrap by lia.
    rewrite (proj2 (Z.ltb_ge n 32)) by lia. cbn [andb].
    destruct (xorb (Z.testbit crc 31) bit); cbn [xorb];
      [by rewrite (fits_testbit 27) by (solve_fits || lia)|].
    by rewrite Z.testbit_0_l.
Qed.

Lemma CRCInputByte_step b c : fits 32 (uVal c) -> upoly c = 0x02608edb ->
  uVal (CRCInputByte b c) = fold_left crc_step (byte_bits b) (uVal c) /\
  fits 32 (uVal (CRCInputByte b c)) /\ upoly (CRCInputByte b c) = 0x02608edb.
Proof.
  unfold CRCInputByte, byte_bits. change (seqZ 0 8) with [0; 1; 2; 3; 4; 5; 6; 7].
  assert (Forall (fun j => 0 <= j <= 7) [0; 1; 2; 3; 4; 5; 6; 7]) as Hj.
  { repeat (apply Forall_cons; split; [lia|]). constructor. }
  revert c Hj. generalize [0; 1; 2; 3; 4; 5; 6; 7].
  induction l as [|j l IH]; intros c Hj Hv Hp; [done|].
  apply Forall_cons in Hj as [Hj Hl]. cbn [fold_left fmap list_fmap].
  assert (Z.shiftr (Z.land (Z.shiftl b j) 0x80) 7 = Z.b2z (Z.testbit b (7 - j))) as ->.
  { change 0x80 with (Z.shiftl 1 7). rewrite land_pow2_shiftr, Z.shiftl_spec by lia. done. }
  destruct (CRCInputBit_step (Z.testbit b (7 - j)) c Hv Hp) as [E1 E2].
  rewrite <-E1. apply IH; [done| |done]. rewrite E1. apply crc_step_fits.
Qed.

Lemma crc_fold_standard bytes : crc_fold bytes = crc32_mpeg2 bytes.
Proof.
  unfold crc_fold, crc32_mpeg2. change 0xffffffff with (uVal CRCInit).
  assert (fits 32 (uVal CRCInit)) as Hv by (cbn; solve_fits).
  assert (upoly CRCInit = 0x02608edb) as Hp by done.
  revert Hv Hp. generalize CRCInit. induction bytes as [|b bytes IH]; intros c Hv Hp; [done|].
  cbn [fold_left mbind list_bind]. rewrite fold_left_app.
  destruct (CRCInputByte_step b c Hv Hp) as (E & Hv' & Hp'). rewrite <-E. by apply IH.
Qed.

Lemma testbit_byte_n n z j : 0 <= n -> 0 <= j < 8 ->
  Z.testbit (byte_n n z) j = Z.testbit z (8 * n + j).
Proof.
  intros Hn Hj. unfold byte_n, lo8. change 256 with (2 ^ 8) at 1. change 256 with (2 ^ 8).
  rewrite Z.mod_pow2_bits_low by lia. rewrite <-Z.pow_mul_r, Z.div_pow2_bits by lia.
  f_equal. lia.
Qed.

Lemma crc_step_shift v k : 0 <= k <= 31 ->
  crc_step (u32 (Z.shiftl v k)) (Z.testbit v (31 - k)) = u32 (Z.shiftl v (k + 1)).
Proof.
  intros Hk. unfold crc_step, u32. rewrite testbit_wrap, Z.shiftl_spec by lia.
  rewrite (proj2 (Z.ltb_lt 31 32)) by lia. cbn [andb]. rewrite xorb_nilpotent, Z.lxor_0_r.
  unfold wrap. rewrite !Z.shiftl_mul_pow2 by lia. rewrite Z.mul_mod_idemp_l by lia.
  f_equal. rewrite <-Z.mul_assoc. f_equal. by rewrite <-Z.pow_add_r by lia.
Qed.

(** A CRC behind its data in network order leaves the remainder 0. *)
Lemma crc_residue v : fits 32 v -> fold_left crc_step (be32 v ≫= byte_bits) v = 0.
Proof.
  intros Hv.
  assert (be32 v ≫= byte_bits = (fun k => Z.testbit v (31 - k)) <$> seqZ 0 32) as ->.
  { unfold be32, byte_bits. change (seqZ 0 32) with (seqZ 0 8 ++ seqZ 8 8 ++ seqZ 16 8 ++ seqZ 24 8).
    cbn [mbind list_bind]. rewrite app_nil_r.
    change (seqZ 0 8) with [0; 1; 2; 3; 4; 5; 6; 7]. cbn [fmap list_fmap app].
    rewrite !testbit_byte_n by lia. reflexivity. }
  assert (forall n k, 0 <= k -> k + Z.of_nat n = 32 ->
    fold_left crc_step ((fun k => Z.testbit v (31 - k)) <$> seqZ k (Z.of_nat n))
      (u32 (Z.shiftl v k)) = u32 (Z.shiftl v 32)) as H.
  { induction n as [|n IH]; intros k Hk Hn.
    - replace k with 32 by lia. done.
    - rewrite seqZ_cons by lia. cbn [fmap list_fmap fold_left].
      rewrite crc_step_shift by lia. replace (Z.pred (Z.of_nat (S n))) with (Z.of_nat n) by lia.
      apply IH; lia. }
  specialize (H 32%nat 0 ltac:(lia) ltac:(lia)). rewrite Z.shiftl_0_r in H.
  unfold u32 in H at 1. rewrite (wrap_small _ _ Hv) in H.
  change (Z.of_nat 32) with 32 in H. rewrite H. unfold u32, wrap.
  rewrite Z.shiftl_mul_pow2 by lia. by rewrite Z.mod_mul by lia.
Qed.

Lemma crc32_fits bytes : fits 32 (crc32_mpeg2 bytes).
Proof.
  unfold crc32_mpeg2. assert (fits 32 0xffffffff) as H by solve_fits. revert H.
  generalize 0xffffffff. induction (bytes ≫= byte_bits) as [|b l IH]; intros v Hv; [done|].
  cbn. apply IH, crc_step_fits.
Qed.

(** ** The headers of a frame *)

(** ISO 13818-1, 2.5.3.3: clock reference and mux rate of a pack header, and what
    follows its stuffing. *)
Definition pack_decode (l : list Z) : option (Z * Z * list Z) :=
  scr ← scr_decode l;
  match drop 10 l with
  | m0 :: m1 :: m2 :: st :: rest =>
    if m2 mod 4 =? 3 then Some (scr, 2 ^ 14 * m0 + 2 ^ 6 * m1 + m2 / 4, drop (Z.to_nat (st mod 8)) rest) else None
  | _ => None
  end.

(** A unit with a start code and a length: identifier, body and what follows. *)
Definition unit_decode (l : list Z) : option (Z * list Z * list Z) :=
  match l with
  | 0 :: 0 :: 1 :: id :: h :: lo :: rest =>
    let n := 256 * h + lo in
    if n <=? zlen rest then Some (id, take (Z.to_nat n) rest, drop (Z.to_nat n) rest) else None
  | _ => None
  end.

(** 2.5.3.5: rate bound, audio bound and video bound of a system header without streams. *)
Definition system_decode (body : list Z) : option (Z * Z * Z) :=
  match body with
  | [r0; r1; r2; a; v; _] =>
    if (r0 / 128 =? 1) && (r2 mod 2 =? 1) && (v / 32 mod 2 =? 1)
    then Some (2 ^ 15 * (r0 mod 128) + 2 ^ 7 * r1 + r2 / 2, a / 4, v mod 32) else None
  | _ => None
  end.

(** 2.5.4.1: type and identifier of each stream of a map, whose descriptors are skipped. *)
Fixpoint map_decode (fuel : nat) (l : list Z) : option (list (Z * Z)) :=
  match fuel, l with
  | _, [] => Some []
  | S fuel, t :: id :: h :: lo :: rest => (cons (t, id)) <$> map_decode fuel (drop (Z.to_nat (256 * h + lo)) rest)
  | _, _ => None
  end.

(** Version, streams and CRC of a program stream map that is in force. *)
Definition psm_decode (body : list Z) : option (Z * list (Z * Z) * list Z) :=
  match body with
  | v :: m :: h :: lo :: rest =>
    match drop (Z.to_nat (256 * h + lo)) rest with
    | h :: lo :: rest =>
      let n := Z.to_nat (256 * h + lo) in
      ms ← map_decode n (take n rest);
      if (v / 128 =? 1) && (m mod 2 =? 1) then Some (v mod 32, ms, drop n rest) else None
    | _ => None
    end
  | _ => None
  end.

Record ps_headers : Type := {
  ph_scr : Z; ph_mux_rate : Z; ph_rate_bound : Z; ph_audio_bound : Z; ph_video_bound : Z;
  ph_version : Z; ph_streams : list (Z * Z); ph_crc : list Z; ph_rest : list Z }.

(** A pack header, a system header and a program stream map, one after the other. *)
Definition headers_decode (l : list Z) : option ps_headers :=
  '(scr, mux, l) ← pack_decode l;
  '(id1, sys, l) ← unit_decode l;
  '(id2, psm, l) ← unit_decode l;
  '(rate, ab, vb) ← system_decode sys;
  '(v, ms, crc) ← psm_decode psm;
  if (id1 =? 0xBB) && (id2 =? 0xBC) then
    Some {| ph_scr := scr; ph_mux_rate := mux; ph_rate_bound := rate; ph_audio_bound := ab; ph_video_bound := vb;
            ph_version := v; ph_streams := ms; ph_crc := crc; ph_rest := l |}
  else None.

Lemma mux_byte a : fits 7 a -> u8 (Z.lor (Z.shiftl a 2) 0x03) = 4 * (a mod 2 ^ 6) + 3.
Proof.
  intros Ha. apply Z.eqb_eq.
  by apply (forall_fits 7 (fun a => u8 (Z.lor (Z.shiftl a 2) 0x03) =? 4 * (a mod 2 ^ 6) + 3)).
Qed.

Lemma rate_byte a : fits 7 a -> u8 (Z.lor 0x80 a) = 128 + a.
Proof. intros Ha. apply Z.eqb_eq. by apply (forall_fits 7 (fun a => u8 (Z.lor 0x80 a) =? 128 + a)). Qed.

(** The marked version of the map, of which only five bits have room. *)
Lemma version_byte v : u8 (Z.lor 0xe0 v) / 128 = 1 /\ u8 (Z.lor 0xe0 v) mod 32 = wrap 5 v.
Proof.
  assert (u8 (Z.lor 0xe0 v) = Z.lor 0xe0 (wrap 8 v)) as ->.
  { apply Z.bits_inj'. intros n Hn. unfold u8. rewrite testbit_wrap, !Z.lor_spec, testbit_wrap by lia.
    destruct (Z.ltb_spec n 8); [done|]. rewrite (fits_testbit 8 0xe0) by (solve_fits || lia). done. }
  assert (wrap 5 v = wrap 8 v mod 32) as -> by (unfold wrap; change (2 ^ 5) with 32; change (2 ^ 8) with 256; lia).
  pose proof (wrap_fits 8 v ltac:(lia)) as Hf. revert Hf. generalize (wrap 8 v). intros w Hw.
  assert ((Z.lor 0xe0 w / 128 =? 1) && (Z.lor 0xe0 w mod 32 =? w mod 32) = true) as E.
  { by apply (forall_fits 8 (fun w => (Z.lor 0xe0 w / 128 =? 1) && (Z.lor 0xe0 w mod 32 =? w mod 32))). }
  apply andb_true_iff in E as [E1%Z.eqb_eq E2%Z.eqb_eq]. done.
Qed.

Lemma pack_decode_header scr mux rest :
  pack_decode (ps_header_bytes scr mux ++ rest) = Some (wrap 33 scr, wrap 22 mux, rest).
Proof.
  unfold pack_decode. rewrite scr_decode_header. cbn [mbind option_bind]. unfold ps_header_bytes. cbn [app drop].
  rewrite !(u8_GET_BITS mux) by lia. change (21 - 14 + 1) with 8. change (13 - 6 + 1) with 8.
  change (6 - 0 + 1) with 7. change (2 ^ 0) with 1. rewrite Z.div_1_r.
  rewrite mux_byte by (apply mod_fits; lia).
  rewrite (proj2 (Z.eqb_eq _ _)) by lia. change (Z.to_nat (0xf8 mod 8)) with 0%nat. rewrite drop_0. do 3 f_equal.
  assert (wrap 22 mux = mux mod 2 ^ 6 + 2 ^ 6 * (mux / 2 ^ 6 mod 2 ^ 8 + 2 ^ 8 * (mux / 2 ^ 14 mod 2 ^ 8))) as ->.
  { unfold wrap. change 22 with (6 + (8 + 8)). rewrite !mod_split, !Z.div_div by lia.
    rewrite <-!Z.pow_add_r by lia. done. }
  assert (mux mod 2 ^ 7 mod 2 ^ 6 = mux mod 2 ^ 6) as -> by lia.
  pose proof (mod_fits mux 6 ltac:(lia)). generalize dependent (mux mod 2 ^ 6). intros. unfold fits in *. lia.
Qed.

Lemma system_decode_bytes mux rest : exists sys,
  unit_decode (sys_header_bytes mux ++ rest) = Some (0xBB, sys, rest) /\
  system_decode sys = Some (wrap 22 mux, 1, 1).
Proof.
  eexists. unfold sys_header_bytes. cbn [app unit_decode]. change (Z.to_nat (256 * 0 + 6)) with 6%nat.
  rewrite (proj2 (Z.leb_le _ _)).
  2: { rewrite !zlen_cons. pose proof (zlen_nonneg rest). lia. }
  cbn [take drop]. split; [reflexivity|]. cbn [system_decode].
  rewrite !(u8_GET_BITS mux) by lia. change (21 - 15 + 1) with 7. change (14 - 7 + 1) with 8.
  change (6 - 0 + 1) with 7. change (2 ^ 0) with 1. rewrite Z.div_1_r.
  pose proof (mod_fits mux 7 ltac:(lia)). pose proof (mod_fits (mux / 2 ^ 15) 7 ltac:(lia)).
  rewrite rate_byte, marker_byte by (apply mod_fits; lia).
  assert (wrap 22 mux = mux mod 2 ^ 7 + 2 ^ 7 * (mux / 2 ^ 7 mod 2 ^ 8 + 2 ^ 8 * (mux / 2 ^ 15 mod 2 ^ 7))) as ->.
  { unfold wrap. change 22 with (7 + (8 + 7)). rewrite !mod_split, !Z.div_div by lia.
    rewrite <-!Z.pow_add_r by lia. done. }
  generalize dependent (mux mod 2 ^ 7). generalize dependent (mux / 2 ^ 15 mod 2 ^ 7). intros a Ha b Hb. unfold fits in *.
  rewrite (proj2 (Z.eqb_eq ((128 + a) / 128) 1)), (proj2 (Z.eqb_eq ((2 * b + 1) mod 2) 1)) by lia.
  change (0xe1 / 32 mod 2 =? 1) with true. cbn [andb].
  change (u8 (Z.shiftl 0x1 2) / 4) with 1. change (0xe1 mod 32) with 1. do 3 f_equal. lia.
Qed.

Lemma psm_decode_bytes v crc rest : zlen crc = 4 -> exists psm,
  unit_decode ((psm_bytes v ++ crc) ++ rest) = Some (0xBC, psm, rest) /\
  psm_decode psm = Some (wrap 5 v,
    [(VIDEO_STREAM_TYPE_H264, VIDEO_STREAM_ID); (AUDIO_STREAM_TYPE_G711, AUDIO_STREAM_ID)], crc).
Proof.
  intros Hc. destruct crc as [|c0 [|c1 [|c2 [|c3 [|? crc]]]]]; try (unfold zlen in Hc; cbn [length] in Hc; lia).
  eexists. unfold psm_bytes. cbn [app unit_decode]. change (Z.to_nat (256 * 0 + 18)) with 18%nat.
  rewrite (proj2 (Z.leb_le _ _)).
  2: { rewrite !zlen_cons. pose proof (zlen_nonneg rest). lia. }
  cbn [take drop]. split; [reflexivity|]. destruct (version_byte v) as [E1 E2]. revert E1 E2.
  generalize (u8 (Z.lor 0xe0 v)). intros w E1 E2. cbn. by rewrite E1, E2.
Qed.

Lemma frame_headers_decode scr mux v rest :
  headers_decode (frame_headers scr mux v ++ rest) = Some {|
    ph_scr := wrap 33 scr; ph_mux_rate := wrap 22 mux; ph_rate_bound := wrap 22 mux; ph_audio_bound := 1;
    ph_video_bound := 1; ph_version := wrap 5 v;
    ph_streams := [(VIDEO_STREAM_TYPE_H264, VIDEO_STREAM_ID); (AUDIO_STREAM_TYPE_G711, AUDIO_STREAM_ID)];
    ph_crc := put32 (crc32_mpeg2 (take 20 (drop 26 (frame_headers scr mux v ++ rest)))); ph_rest := rest |}.
Proof.
  assert (take 20 (drop 26 (frame_headers scr mux v ++ rest)) = psm_bytes v) as -> by reflexivity.
  unfold frame_headers. rewrite CRCGet_spec, crc_fold_standard by (rewrite zlen_psm; lia).
  change (default 0 (fst <$> Some (?x, _))) with x. rewrite <-(assoc (++) (ps_header_bytes _ _)).
  unfold headers_decode. rewrite pack_decode_header. cbn [mbind option_bind].
  rewrite <-(assoc (++) (sys_header_bytes _)). destruct (system_decode_bytes mux
    ((psm_bytes v ++ put32 (crc32_mpeg2 (psm_bytes v))) ++ rest)) as (sys & -> & E1). cbn [mbind option_bind].
  destruct (psm_decode_bytes v (put32 (crc32_mpeg2 (psm_bytes v))) rest eq_refl) as (psm & -> & E2).
  cbn [mbind option_bind]. by rewrite E1, E2.
Qed.

(** ** PES packets *)

(** ISO 13818-1, 2.4.3.6: stream identifier, PTS and payload of a PES packet
    that is as long as its length field says. *)
Definition pes_parse (p : list Z) : option (Z * Z * list Z) :=
  match p with
  | 0 :: 0 :: 1 :: sid :: l1 :: l0 :: _ :: fl :: hl :: rest =>
    if (6 + (256 * l1 + l0) =? zlen p) && (2 <=? fl / 64) then
      pts ← ts_decode (take 5 rest); Some (sid, pts, drop (Z.to_nat hl) rest)
    else None
  | _ => None
  end.

(** The length field of a PES packet with [x] bytes of header fields. *)
Lemma pes_length_field n : 256 * u8 (GET_BITS n 8 15) + u8 (GET_BITS n 0 7) = u16 n.
Proof.
  rewrite !u8_GET_BITS by lia. change (15 - 8 + 1) with 8. change (7 - 0 + 1) with 8.
  change (2 ^ 0) with 1. rewrite Z.div_1_r. unfold u16, wrap.
  change 16 with (8 + 8). rewrite mod_split by lia. change (2 ^ 8) with 256. lia.
Qed.

(** Bytes of header behind the length field. *)
Definition pes_overhead (dts : Z) : Z := if INVALID_TIMESTAMP =? dts then 8 else 13.

Lemma pes_lengths_spec n pts dts : INVALID_TIMESTAMP <> pts -> 0 <= n ->
  pes_lengths n pts dts =
    (u16 (pes_overhead dts + n), pes_overhead dts - 3,
     if INVALID_TIMESTAMP =? dts then 2 else 3).
Proof.
  intros Hp Hn. unfold pes_lengths, pes_overhead. rewrite (proj2 (Z.eqb_neq _ _)) by done.
  cbn [negb]. destruct (INVALID_TIMESTAMP =? dts); cbn [negb]; unfold u16, u8, wrap; pow2;
    (f_equal; f_equal; lia).
Qed.

Lemma pes_packet_bytes sid pts dts data : INVALID_TIMESTAMP <> pts ->
  exists l1 l0 fl tail, pes_packet sid pts dts data =
    [0; 0; 1; sid; l1; l0; 0x80; fl; pes_overhead dts - 3] ++
    ts_bytes (if INVALID_TIMESTAMP =? dts then 2 else 3) pts ++ tail ++ data /\
    zlen tail = pes_overhead dts - 8 /\ 256 * l1 + l0 = u16 (pes_overhead dts + zlen data) /\
    2 <= fl / 64 /\ is_byte l1 /\ is_byte l0.
Proof.
  intros Hp. unfold pes_packet, pes_header.
  rewrite pes_lengths_spec by (done || apply zlen_nonneg).
  exists (u8 (GET_BITS (u16 (pes_overhead dts + zlen data)) 8 15)),
    (u8 (GET_BITS (u16 (pes_overhead dts + zlen data)) 0 7)),
    (u8 (Z.shiftl (if INVALID_TIMESTAMP =? dts then 2 else 3) 6)),
    (if INVALID_TIMESTAMP =? dts then [] else ts_bytes 1 dts).
  split; [by rewrite <-!(assoc (++))|].
  split; [by unfold pes_overhead; destruct (INVALID_TIMESTAMP =? dts)|].
  split; [rewrite pes_length_field; unfold u16; apply wrap_wrap|].
  split; [destruct (INVALID_TIMESTAMP =? dts); vm_compute; discriminate|].
  split; apply wrap_fits; lia.
Qed.

Lemma pes_parse_packet sid pts dts data : INVALID_TIMESTAMP <> pts ->
  pes_parse (pes_packet sid pts dts data) =
    if pes_overhead dts + zlen data <=? 65535 then Some (sid, wrap 33 pts, data) else None.
Proof.
  intros Hp. destruct (pes_packet_bytes sid pts dts data Hp)
    as (l1 & l0 & fl & tail & -> & Ht & Hl & Hf & _).
  assert (pes_overhead dts = 8 \/ pes_overhead dts = 13) as Ho
    by (unfold pes_overhead; case_match; auto).
  pose proof (zlen_nonneg data). cbn [app pes_parse]. rewrite Hl.
  assert (zlen (0 :: 0 :: 1 :: sid :: l1 :: l0 :: 128 :: fl :: pes_overhead dts - 3 ::
    ts_bytes (if INVALID_TIMESTAMP =? dts then 2 else 3) pts ++ tail ++ data) =
    6 + (pes_overhead dts + zlen data)) as ->.
  { rewrite !zlen_cons, !zlen_app, zlen_ts. lia. }
  rewrite (proj2 (Z.leb_le 2 _)) by lia. rewrite andb_true_r.
  unfold u16, wrap.
  destruct (Z.leb_spec (pes_overhead dts + zlen data) 65535).
  - rewrite (proj2 (Z.eqb_eq _ _)) by lia.
    change 5%nat with (length (ts_bytes (if INVALID_TIMESTAMP =? dts then 2 else 3) pts)).
    rewrite take_app_length, ts_decode_bytes by (case_match; lia). cbn [mbind option_bind].
    do 2 f_equal.
    rewrite app_assoc, drop_app_length'; [done|].
    rewrite length_app. change (length (ts_bytes _ _)) with 5%nat. unfold zlen in Ht. lia.
  - rewrite (proj2 (Z.eqb_neq _ _)) by lia. done.
Qed.

(** The PES packet of an event: the first one of a frame follows 50 bytes of
    headers. *)
Definition event_pes (i : nat) (e : ps_event) : list Z :=
  match i with O => drop 50 (ps_data e) | _ => ps_data e end.

Lemma pieces_spec fuel data : 0 < zlen data -> zlen data < 64676 * Z.of_nat fuel ->
  concat (pieces fuel data) = data /\ Forall (fun c => 0 < zlen c <= 65522) (pieces fuel data).
Proof.
  revert data. induction fuel as [|fuel IH]; intros data Hp Hf; [lia|]. cbn [pieces].
  destruct (Z.ltb_spec 65522 (zlen data)).
  - destruct (IH (drop (Z.to_nat 64676) data)) as [E F]; [zl|zl|]. cbn [concat].
    rewrite E, take_drop. split; [done|]. apply Forall_cons. split; [zl|done].
  - split; [apply app_nil_r|]. by repeat constructor.
Qed.

Lemma ps_events_lookup hdr pes ts cs i e : ps_events hdr pes ts cs !! i = Some e ->
  exists c, cs !! i = Some c /\
    ps_data e = (match i with O => hdr | _ => [] end) ++ pes c /\
    ps_timestamp e = ts /\ ps_end e = bool_decide (S i = length cs).
Proof.
  revert hdr i. induction cs as [|c cs IH]; intros hdr i; [done|].
  destruct i as [|i]; cbn [ps_events lookup list_lookup].
  - intros [= <-]. exists c. split; [done|]. split; [done|]. split; [done|].
    by destruct cs.
  - intros Hi. apply IH in Hi as (c' & Hc & Hd & Ht & He). exists c'. split; [done|].
    split; [by destruct i|]. split; [done|]. rewrite He. apply bool_decide_ext. cbn. lia.
Qed.

Lemma ps_events_length hdr pes ts cs : length (ps_events hdr pes ts cs) = length cs.
Proof. revert hdr. induction cs as [|c cs IH]; intros hdr; [done|]. cbn. by rewrite IH. Qed.

(** The PTS and time stamp after a sequence of frames. *)
Fixpoint pts_after (last pts : Z) (tss : list Z) : Z * Z :=
  match tss with
  | [] => (last, pts)
  | ts :: tss => pts_after ts (next_pts last pts ts) tss
  end.

(** How often the time stamps of a stream decrease. *)
Fixpoint wraps (last : Z) (tss : list Z) : Z :=
  match tss with
  | [] => 0
  | ts :: tss => (if ts <? last then 1 else 0) + wraps ts tss
  end.

Lemma wraps_nonneg last tss : 0 <= wraps last tss.
Proof. revert last. induction tss as [|t tss IH]; intros last; cbn; [lia|]. specialize (IH t). case_match; lia. Qed.

Lemma List_last_cons (x d : Z) l : List.last (x :: l) d = List.last l x.
Proof.
  revert x. induction l as [|y l IH]; intros x; [done|].
  change (List.last (x :: y :: l) d) with (List.last (y :: l) d). rewrite IH.
  destruct l as [|z l]; [done|]. cbn [List.last]. clear. revert z.
  induction l as [|w l IH]; intros z; [done|]. apply (IH w).
Qed.

Lemma pts_after_spec last n tss : 0 < last < 2 ^ 32 -> 0 <= n ->
  Forall (fun ts => 0 < ts < 2 ^ 32) tss -> n + wraps last tss < 2 ^ 31 ->
  let t := List.last tss last in
  pts_after last (last + n * 0xffffffff) tss = (t, t + (n + wraps last tss) * 0xffffffff).
Proof.
  revert last n. induction tss as [|ts tss IH]; intros last n Hl Hn Hts Hw.
  { cbn. f_equal. lia. }
  apply Forall_cons in Hts as [Ht Hts]. cbn [pts_after wraps] in Hw |- *.
  pose proof (wraps_nonneg ts tss).
  rewrite List_last_cons.
  unfold next_pts. rewrite (proj2 (Z.eqb_neq last 0)) by lia.
  destruct (Z.ltb_spec ts last).
  - rewrite (proj2 (Z.leb_gt _ _)) by lia.
    assert (u64 (last + n * 0xffffffff + u64 (0xffffffff - last + ts)) =
            ts + (n + 1) * 0xffffffff) as ->.
    { unfold u64. rewrite (wrap_small 64 (_ - _ + _)) by solve_fits.
      rewrite wrap_small by solve_fits. lia. }
    rewrite IH by (done || lia). f_equal. lia.
  - rewrite (proj2 (Z.leb_le _ _)) by lia.
    assert (u64 (last + n * 0xffffffff + (ts - last)) = ts + n * 0xffffffff) as ->.
    { unfold u64. rewrite wrap_small by solve_fits. lia. }
    rewrite IH by (done || lia). done.
Qed.

(** ** Properties *)

(** C29: a video frame of at least five bytes becomes one or more
    [handlePsStream] calls with its time stamp, the last one flagged as the
    end; the first starts with a pack header whose system clock reference is
    the later of the two presentation time stamps, a system header of its mux
    rate for one video and one audio stream, and a program stream map of the
    version in force with the types of the two streams and, in host byte order,
    its CRC, as a decoder of ISO 13818-1 reads them; every call carries one PES
    packet of stream 0xe0 with an exact length field and the presentation time
    stamp, and the payloads of the packets put together are the frame. The
    buffer is never overrun. *)
Theorem writeVideoEsStream_stream now data ts this
    (Hok : enc_ok this) (Hlen : MIN_NALU_SIZE <= zlen data)
    (Hpts : next_pts (m_unVideoTimestamp this) (m_ullVideoPts this) ts <> INVALID_TIMESTAMP) :
  let pts := next_pts (m_unVideoTimestamp this) (m_ullVideoPts this) ts in
  exists this' evs cs, writeVideoEsStream now data ts this = Some (0, this', evs) /\
    enc_ok this' /\ concat cs = data /\ length evs = length cs /\
    (exists e0, head evs = Some e0 /\ headers_decode (ps_data e0) = Some {|
      ph_scr := wrap 33 (Z.max pts (m_ullAudioPts this)); ph_mux_rate := wrap 22 (m_unMuxRate this');
      ph_rate_bound := wrap 22 (m_unMuxRate this'); ph_audio_bound := 1; ph_video_bound := 1;
      ph_version := wrap 5 (cVersion this);
      ph_streams := [(VIDEO_STREAM_TYPE_H264, VIDEO_STREAM_ID); (AUDIO_STREAM_TYPE_G711, AUDIO_STREAM_ID)];
      ph_crc := put32 (crc32_mpeg2 (take 20 (drop 26 (ps_data e0)))); ph_rest := event_pes 0 e0 |}) /\
    forall i e, evs !! i = Some e ->
      ps_timestamp e = ts /\ ps_end e = bool_decide (S i = length evs) /\
      exists c, cs !! i = Some c /\
        pes_parse (event_pes i e) = Some (VIDEO_STREAM_ID, wrap 33 pts, c).
Proof.
  intros pts. set (s1 := video_state now data ts this).
  assert (m_ullVideoPts s1 = pts /\ m_ullScr s1 = Z.max pts (m_ullAudioPts this) /\
          cVersion s1 = cVersion this /\ m_isFirstPES s1 = true) as (Ep & Es & Ever & Ef).
  { unfold s1, video_state. set (s0 := with_scr _ _).
    destruct (calcEsBitrate_fields now (zlen data) s0) as (_ & _ & _ & E4 & _ & _ & _ & E8 & E9).
    cbn. by rewrite E4, E8, E9. }
  unfold MIN_NALU_SIZE in Hlen.
  destruct (pieces_spec (S (length data)) data) as [Hc Hf]; [lia|unfold zlen; lia|].
  exists (after_pes s1), (ps_events (headers_if_first s1) (es_pes s1 ES_TYPE_VIDEO) ts
    (pieces (S (length data)) data)), (pieces (S (length data)) data).
  split; [by apply writeVideoEsStream_spec|].
  split; [by apply after_pes_ok, video_state_ok|]. split; [done|].
  split; [apply ps_events_length|]. split.
  - pose proof (pieces_not_nil (S (length data)) data) as Hne.
    destruct (pieces (S (length data)) data) as [|c cs]; [done|]. cbn [ps_events head].
    eexists. split; [reflexivity|]. cbn [ps_data event_pes]. unfold headers_if_first. rewrite Ef.
    rewrite frame_headers_decode, Es, Ever. reflexivity.
  - intros i e Hi. apply ps_events_lookup in Hi as (c & Hci & Hd & Ht & He).
    rewrite ps_events_length. split; [done|]. split; [done|]. exists c. split; [done|].
    assert (event_pes i e = es_pes s1 ES_TYPE_VIDEO c) as ->.
    { unfold event_pes. rewrite Hd. destruct i; [|done].
      unfold headers_if_first. rewrite Ef. apply drop_app_length'.
      symmetry. apply length_zlen, frame_headers_length. }
    unfold es_pes. rewrite pes_parse_packet by (by rewrite Ep). rewrite Ep.
    assert (pes_overhead pts = 13) as ->.
    { unfold pes_overhead. rewrite (proj2 (Z.eqb_neq _ _)); [done|]. by symmetry. }
    eapply Forall_lookup_1 in Hf; [|exact Hci]. cbv beta in Hf.
    by rewrite (proj2 (Z.leb_le _ _)) by lia.
Qed.

(** An audio frame that fits the buffer becomes one call that ends with
    one PES packet of stream 0xc0 and is accepted by a receiver exactly when
    it has at most 65527 bytes: beyond that the 16-bit length field wraps. *)
Theorem writeAudioEsStream_length now data ts this
    (Hok : enc_ok this) (Hlen : 0 < zlen data <= DEFAULT_PS_CACHE - MAX_PS_HEADER_LEN)
    (Hpts : next_pts (m_unAudioTimestamp this) (m_ullAudioPts this) ts <> INVALID_TIMESTAMP) :
  let pts := next_pts (m_unAudioTimestamp this) (m_ullAudioPts this) ts in
  exists this' e, writeAudioEsStream now data ts this = Some (0, this', [e]) /\
    enc_ok this' /\ ps_timestamp e = ts /\ ps_end e = true /\
    pes_parse (event_pes 0 e) =
      if zlen data <=? 65527 then Some (AUDIO_STREAM_ID, wrap 33 pts, data) else None.
Proof.
  intros pts. set (s1 := audio_state now data ts this).
  assert (m_ullAudioPts s1 = pts /\ m_isFirstPES s1 = true) as [Ep Ef].
  { unfold s1, audio_state. set (s0 := with_audio_pts _ _ _).
    destruct (calcEsBitrate_fields now (zlen data) s0) as (_ & _ & _ & _ & E5 & _).
    cbn. by rewrite E5. }
  exists (after_pes s1), {| ps_data := headers_if_first s1 ++ es_pes s1 ES_TYPE_AUDIO data;
    ps_timestamp := ts; ps_end := true |}. split; [by apply writeAudioEsStream_spec|].
  split; [by apply after_pes_ok, audio_state_ok|]. split; [done|]. split; [done|].
  unfold event_pes. cbn [ps_data]. unfold headers_if_first. rewrite Ef.
  rewrite drop_app_length' by (symmetry; apply length_zlen, frame_headers_length).
  unfold es_pes. rewrite pes_parse_packet, Ep by (by rewrite Ep).
  change (pes_overhead INVALID_TIMESTAMP) with 8.
  destruct (Z.leb_spec (8 + zlen data) 65535), (Z.leb_spec (zlen data) 65527); done || lia.
Qed.

(** The CRC routine, which works on a shifted generator polynomial and
    puts the feedback bit back afterwards, computes CRC-32/MPEG-2 on up to 255
    bytes, and a receiver that runs it over the data and the CRC in network
    order gets the remainder 0. *)
Theorem CRCGet_correct bytes (Hlen : zlen bytes <= 255) :
  exists c, CRCGet bytes CRCInit = Some (crc32_mpeg2 bytes, c) /\
    crc32_mpeg2 (bytes ++ be32 (crc32_mpeg2 bytes)) = 0.
Proof.
  eexists. split; [rewrite CRCGet_spec by done; by rewrite crc_fold_standard|].
  unfold crc32_mpeg2 at 1. rewrite bind_app, fold_left_app.
  apply (crc_residue (crc32_mpeg2 bytes)), crc32_fits.
Qed.

(** The program stream map carries its CRC in host byte order, so that no
    version of it passes the check of a receiver. *)
Theorem psm_crc_rejected v (Hv : 0 <= v < 31) :
  crc32_mpeg2 (psm_bytes v ++ put32 (crc32_mpeg2 (psm_bytes v))) <> 0.
Proof.
  assert (forallb (fun v => negb (crc32_mpeg2 (psm_bytes v ++
    put32 (crc32_mpeg2 (psm_bytes v))) =? 0)) (seqZ 0 31) = true) as H
    by (vm_compute; reflexivity).
  rewrite forallb_forall in H. specialize (H v). cbv beta in H.
  assert (forall n, negb (n =? 0) = true -> n <> 0) as Hn by (intros n Hb ->; discriminate).
  refine (Hn _ (H _)). apply list_elem_of_In, elem_of_seqZ. lia.
Qed.

(** Over a stream of non-zero time stamps the presentation time stamp is
    the last time stamp plus 2^32 - 1 for every wrap: it follows the clock
    exactly until the first wrap and loses one tick at each. *)
Theorem pts_tracks_timestamps t0 tss
    (H0 : 0 < t0 < 2 ^ 32) (Hts : Forall (fun ts => 0 < ts < 2 ^ 32) tss)
    (Hw : wraps t0 tss < 2 ^ 31) :
  pts_after 0 0 (t0 :: tss) =
    (List.last tss t0, List.last tss t0 + wraps t0 tss * (2 ^ 32 - 1)).
Proof.
  cbn [pts_after]. unfold next_pts at 1. rewrite Z.eqb_refl.
  pose proof (pts_after_spec t0 0 tss H0 ltac:(lia) Hts ltac:(lia)) as H.
  rewrite Z.mul_0_l, Z.add_0_r in H. exact H.
Qed.

(** ** The properties at concrete frames *)

Definition demo_enc : CMpegPsEnc := (init true true CMpegPsEnc_new).2.

Lemma demo_enc_ok : enc_ok demo_enc.
Proof. by split. Qed.

Lemma writeVideoEsStream_stream_witness :
  exists this' evs cs,
    writeVideoEsStream 7 (replicate 100 5) 9000 demo_enc = Some (0, this', evs) /\
    enc_ok this' /\ concat cs = replicate 100 5 /\ length evs = 1%nat.
Proof.
  destruct (writeVideoEsStream_stream 7 (replicate 100 5) 9000 demo_enc)
    as (this' & evs & cs & E & Hok & Hc & Hl & _).
  - exact demo_enc_ok.
  - vm_compute. discriminate.
  - vm_compute. discriminate.
  - exists this', evs, cs. split; [exact E|]. split; [exact Hok|]. split; [exact Hc|].
    apply (f_equal (fmap (fun r => length r.2))) in E. vm_compute in E. injection E as E.
    by symmetry.
Defined.

Lemma writeAudioEsStream_length_witness :
  exists this' e, writeAudioEsStream 7 (replicate 160 5) 9000 demo_enc = Some (0, this', [e]) /\
    pes_parse (event_pes 0 e) = Some (AUDIO_STREAM_ID, 9000, replicate 160 5).
Proof.
  destruct (writeAudioEsStream_length 7 (replicate 160 5) 9000 demo_enc)
    as (this' & e & E & _ & _ & _ & Hp).
  - exact demo_enc_ok.
  - vm_compute. split; [reflexivity|discriminate].
  - vm_compute. discriminate.
  - exists this', e. split; [exact E|exact Hp].
Defined.

Lemma CRCGet_correct_witness :
  exists c, CRCGet [49; 50; 51; 52; 53; 54; 55; 56; 57] CRCInit = Some (0x0376E6E7, c).
Proof.
  destruct (CRCGet_correct [49; 50; 51; 52; 53; 54; 55; 56; 57]) as (c & E & _).
  - vm_compute. discriminate.
  - exists c. rewrite E. vm_compute. reflexivity.
Defined.

Lemma psm_crc_rejected_witness :
  crc32_mpeg2 (psm_bytes 3 ++ put32 (crc32_mpeg2 (psm_bytes 3))) <> 0.
Proof. apply (psm_crc_rejected 3). lia. Defined.

Lemma pts_tracks_timestamps_witness :
  pts_after 0 0 [4294960000; 4294967000; 2000; 5600] = (5600, 5600 + (2 ^ 32 - 1)).
Proof.
  apply (pts_tracks_timestamps 4294960000 [4294967000; 2000; 5600]).
  - lia.
  - repeat (apply Forall_cons; split; [lia|]). constructor.
  - vm_compute. reflexivity.
Defined.
