(* ===== verification/PsDec.v ===== *)
(** * MPEG program stream decoder: [svs_adapter_mpeg_ps_dec.cpp]

    [CMpegPsDec::writePsStream] walks over a program stream, strips the pack,
    system and map headers, collects the payloads of the PES packets and hands
    the frame to [CMpegPsDecHandle]. The input is a list; [m_pCurMediaData] is
    an offset into it. A read outside the input or a copy outside the local
    buffer is [Fault]; the loop has fuel, and [OutOfFuel] is a run that needs
    more turns. *)

From S2P Require Import Prelude PsEnc.
Open Scope Z_scope.

Definition MAX_BUFFER_LEN : Z := 1024 * 1024.
Definition PS_STARTCODE_LEN : Z := 4.
Definition PS_HEAD_LEN : Z := 14.
Definition SYS_HEAD_LEN_MIN : Z := 6.
Definition PSM_HEAD_LEN_MIN : Z := 6.
Definition PS_STARTCODE_INVAL : Z := 0xFFFFFFFF.
Definition PS_STARTCODE : Z := 0x000001.
Definition PACK_START_CODE : Z := 0x000001ba.
Definition SYSTEM_HEADER_START_CODE : Z := 0x000001bb.
Definition PROGRAM_STREAM_MAP : Z := 0x000001bc.
Definition PADDING_STREAM : Z := 0x000001be.
Definition PRIVATE_STREAM_2 : Z := 0x000001bf.
Definition PACKET_START_CODE_PREFIX : Z := 0x00000100.
Definition H264_PES_STREAM_CODE : Z := Z.lor PACKET_START_CODE_PREFIX VIDEO_STREAM_ID.
Definition G711_PES_STREAM_CODE : Z := Z.lor PACKET_START_CODE_PREFIX AUDIO_STREAM_ID.

Inductive outcome (A : Type) : Type :=
| Ret (a : A)
| Fault
| OutOfFuel.
Arguments Ret {A} a.
Arguments Fault {A}.
Arguments OutOfFuel {A}.

(** The cursor: [m_pCurMediaData] and [m_ulCurMediaLen]. *)
Record cursor : Type := { cur : Z; len : Z }.

Section Stream.
  Context (data : list Z).

(** A byte read through [char], widened to 32 bits. *)
Definition char32 (i : Z) : option Z := b ← rd data i; Some (u32 (s8 b)).

Definition getStartCode (c : cursor) : option Z :=
  if len c <? PS_STARTCODE_LEN then Some PS_STARTCODE_INVAL
  else
    v0 ← char32 (cur c);
    let code := Z.land (Z.lor (u32 (Z.shiftl 0 8)) v0) 0xFFFFFF in
    v1 ← char32 (cur c + 1);
    let code := Z.land (Z.lor (u32 (Z.shiftl code 8)) v1) 0xFFFFFF in
    v2 ← char32 (cur c + 2);
    let code := Z.land (Z.lor (u32 (Z.shiftl code 8)) v2) 0xFFFFFF in
    if negb (PS_STARTCODE =? code) then Some PS_STARTCODE_INVAL
    else
      v3 ← rd data (cur c + 3);
      Some (Z.land (Z.lor (u32 (Z.shiftl code 8)) v3) 0xFFFFFFFF).

(** The header length field at offset 4, in network order. *)
Definition field16 (i : Z) : option Z := h ← rd data i; l ← rd data (i + 1); Some (ntohs (le16 h l)).

(** The strippers return the new cursor, or [None] inside for the result -1. *)
Definition StripPSHeader (c : cursor) : option (option cursor) :=
  if len c <? PS_HEAD_LEN then Some None
  else
    b ← rd data (cur c + 13);
    let unLen := Z.land b 0x07 + PS_HEAD_LEN in
    if len c <? unLen then Some None
    else Some (Some {| cur := cur c + unLen; len := len c - unLen |}).

(** [StripSysHeader] and [StripPsmPacket] have the same body. *)
Definition StripSysHeader (c : cursor) : option (option cursor) :=
  if len c <? SYS_HEAD_LEN_MIN then Some None
  else
    n ← field16 (cur c + 4);
    let usHeadSize := u16 (n + 2 + PS_STARTCODE_LEN) in
    if len c <? usHeadSize then Some None
    else Some (Some {| cur := cur c + usHeadSize; len := len c - usHeadSize |}).

Definition StripPsmPacket (c : cursor) : option (option cursor) :=
  if len c <? PSM_HEAD_LEN_MIN then Some None
  else
    n ← field16 (cur c + 4);
    let usHeadSize := u16 (n + 2 + PS_STARTCODE_LEN) in
    if len c <? usHeadSize then Some None
    else Some (Some {| cur := cur c + usHeadSize; len := len c - usHeadSize |}).

Definition StripPESHeader (c : cursor) : option (option cursor) :=
  if len c <? PSM_HEAD_LEN_MIN then Some None
  else
    usPackLen ← field16 (cur c + 4);
    usHeadLen ← rd data (cur c + 8);
    Some (Some {| cur := cur c + (9 + usHeadLen); len := u32 (usPackLen - (3 + usHeadLen)) |}).

(** The PES case of the loop: the copy into [pBuffer]. *)
Definition collect (c : cursor) (pBuffer : list Z) : option (cursor * list Z) :=
  if zlen pBuffer <? MAX_BUFFER_LEN then
    src ← sub data (cur c) (len c);
    if zlen pBuffer + zlen src <=? MAX_BUFFER_LEN
    then Some ({| cur := cur c + len c; len := len c |}, pBuffer ++ src) else None
  else Some (c, pBuffer).

(** One turn of the loop: a new state, or -1. *)
Definition dec_turn (c : cursor) (pBuffer : list Z) (bFound : bool)
    : option (option (Z * cursor * list Z * bool)) :=
  if len c =? 0 then Some None
  else
    unStartCode ← getStartCode c;
    if unStartCode =? PACK_START_CODE then
      r ← StripPSHeader c; Some (c ← r; Some (unStartCode, c, pBuffer, bFound))
    else if unStartCode =? SYSTEM_HEADER_START_CODE then
      r ← StripSysHeader c; Some (c ← r; Some (unStartCode, c, pBuffer, bFound))
    else if (unStartCode =? PADDING_STREAM) || (unStartCode =? PRIVATE_STREAM_2) then
      Some (Some (unStartCode, c, pBuffer, bFound))
    else if unStartCode =? PROGRAM_STREAM_MAP then
      r ← StripPsmPacket c; Some (c ← r; Some (unStartCode, c, pBuffer, bFound))
    else if (unStartCode =? H264_PES_STREAM_CODE) || (unStartCode =? G711_PES_STREAM_CODE) then
      r ← StripPESHeader c;
      match r with
      | None => Some None
      | Some c => '(c, pBuffer) ← collect c pBuffer; Some (Some (unStartCode, c, pBuffer, true))
      end
    else Some (Some (unStartCode, {| cur := cur c + 1; len := len c |}, pBuffer, bFound)).

(** The loop [while (m_pCurMediaData < pLastBytePos)]: the last start code,
    the collected bytes and [bFound]; [None] inside is the result -1. *)
Fixpoint dec_loop (fuel : nat) (code : Z) (c : cursor) (pBuffer : list Z) (bFound : bool)
    : outcome (option (Z * cursor * list Z * bool)) :=
  match fuel with
  | O => OutOfFuel
  | S fuel =>
    if cur c <? zlen data then
      match dec_turn c pBuffer bFound with
      | None => Fault
      | Some None => Ret None
      | Some (Some (code, c, pBuffer, bFound)) => dec_loop fuel code c pBuffer bFound
      end
    else Ret (Some (code, c, pBuffer, bFound))
  end.
End Stream.

(** A call of the handler: stream type, frame, time stamp. *)
Inductive es_event : Type :=
| EsVideo (pEsData : list Z) (unTimestamp ucStreamType : Z)
| EsAudio (pEsData : list Z) (unTimestamp ucStreamType : Z).

(** [pHandle]: [m_pEsStreamHandle] is not NULL. The state of the object
    between two calls is not read. *)
Definition writePsStream (fuel : nat) (pHandle : bool) (pInData : option (list Z))
    (unTimestamp : Z) : outcome (Z * list es_event) :=
  match pInData with
  | None => Ret (-1, [])
  | Some data =>
    if negb pHandle then Ret (-1, [])
    else
      match dec_loop data fuel PS_STARTCODE_INVAL {| cur := 0; len := zlen data |} [] false with
      | Fault => Fault
      | OutOfFuel => OutOfFuel
      | Ret None => Ret (-1, [])
      | Ret (Some (unStartCode, _, pBuffer, bFound)) =>
        if negb bFound then Ret (-1, [])
        else if H264_PES_STREAM_CODE =? unStartCode
        then Ret (0, [EsVideo pBuffer unTimestamp VIDEO_STREAM_TYPE_H264])
        else if G711_PES_STREAM_CODE =? unStartCode
        then Ret (0, [EsAudio pBuffer unTimestamp AUDIO_STREAM_TYPE_G711])
        else Ret (-1, [])
      end
  end.

(** ** Start codes *)

(** One step of the accumulation in [getStartCode]. *)
Definition accumulate (code v : Z) : Z := Z.land (Z.lor (u32 (Z.shiftl code 8)) v) 0xFFFFFF.

Lemma accumulate_low code b : is_byte b ->
  accumulate code (u32 (s8 b)) mod 2 ^ 8 = b.
Proof.
  intros Hb. unfold accumulate, u32. rewrite <-Z.land_ones by lia.
  change 0xFFFFFF with (Z.ones 24).
  rewrite <-Z.land_assoc. change (Z.land (Z.ones 24) (Z.ones 8)) with (Z.ones 8).
  rewrite Z.land_lor_distr_l, !Z.land_ones by lia. unfold wrap.
  rewrite Z.shiftl_mul_pow2 by lia.
  assert ((code * 2 ^ 8) mod 2 ^ 32 mod 2 ^ 8 = 0) as -> by lia.
  rewrite Z.lor_0_l. unfold s8, fits in *. case_match; lia.
Qed.

Lemma accumulate_pos code b : 0 <= b < 128 ->
  accumulate code (u32 (s8 b)) = 256 * (code mod 2 ^ 16) + b.
Proof.
  intros Hb. unfold accumulate, u32, s8. rewrite (proj2 (Z.ltb_lt _ _)) by lia.
  rewrite (wrap_small 32 b) by solve_fits.
  assert (wrap 32 (Z.shiftl code 8) = Z.shiftl (code mod 2 ^ 24) 8) as ->.
  { unfold wrap. rewrite !Z.shiftl_mul_pow2 by lia. lia. }
  rewrite lor_low by (lia || solve_fits). change 0xFFFFFF with (Z.ones 24).
  rewrite Z.land_ones by lia. lia.
Qed.

Section StreamLemmas.
  Context (data : list Z).
  Hypothesis Hdata : bytes_ok data.

Lemma char32_spec i b : rd data i = Some b -> char32 data i = Some (u32 (s8 b)).
Proof. unfold char32. by intros ->. Qed.

(** Bytes that are no start code prefix. *)
Lemma getStartCode_none c b0 b1 b2 :
  rd data (cur c) = Some b0 -> rd data (cur c + 1) = Some b1 -> rd data (cur c + 2) = Some b2 ->
  ~ (b0 = 0 /\ b1 = 0 /\ b2 = 1) -> getStartCode data c = Some PS_STARTCODE_INVAL.
Proof.
  intros H0 H1 H2 Hn. unfold getStartCode. destruct (len c <? PS_STARTCODE_LEN); [done|].
  rewrite (char32_spec _ _ H0), (char32_spec _ _ H1), (char32_spec _ _ H2).
  cbn [mbind option_bind].
  repeat match goal with |- context [Z.land (Z.lor (u32 (Z.shiftl ?c 8)) ?v) 0xFFFFFF] =>
    change (Z.land (Z.lor (u32 (Z.shiftl c 8)) v) 0xFFFFFF) with (accumulate c v) end.
  pose proof (rd_byte _ _ _ Hdata H0) as B0. pose proof (rd_byte _ _ _ Hdata H1) as B1.
  pose proof (rd_byte _ _ _ Hdata H2) as B2.
  set (c0 := accumulate 0 _). set (c1 := accumulate c0 _). set (c2 := accumulate c1 _).
  unfold PS_STARTCODE. destruct (Z.eqb_spec 0x000001 c2) as [E|]; [|done]. exfalso.
  pose proof (accumulate_low 0 _ B0) as L0. fold c0 in L0.
  pose proof (accumulate_low c0 _ B1) as L1. fold c1 in L1.
  pose proof (accumulate_low c1 _ B2) as L2. fold c2 in L2.
  rewrite <-E in L2. change (1 mod 2 ^ 8) with 1 in L2. subst b2.
  pose proof (accumulate_pos c1 1 ltac:(lia)) as P2. fold c2 in P2.
  assert (b1 = 0) as -> by (unfold fits in *; lia).
  pose proof (accumulate_pos c0 0 ltac:(lia)) as P1. fold c1 in P1.
  assert (b0 = 0) as -> by (unfold fits in *; lia). by apply Hn.
Qed.

Lemma getStartCode_some c b3 : PS_STARTCODE_LEN <= len c ->
  rd data (cur c) = Some 0 -> rd data (cur c + 1) = Some 0 -> rd data (cur c + 2) = Some 1 ->
  rd data (cur c + 3) = Some b3 -> is_byte b3 -> getStartCode data c = Some (256 + b3).
Proof.
  intros Hl H0 H1 H2 H3 B3. unfold getStartCode. rewrite (proj2 (Z.ltb_ge _ _)) by lia.
  rewrite (char32_spec _ _ H0), (char32_spec _ _ H1), (char32_spec _ _ H2).
  cbn [mbind option_bind].
  change (Z.land _ 0xFFFFFF) with 1 at 1.
  match goal with |- context [PS_STARTCODE =? ?x] => change x with 1 end.
  change (negb (PS_STARTCODE =? 1)) with false. rewrite H3. cbn [mbind option_bind].
  match goal with |- context [Z.shiftl ?x 8] => change (u32 (Z.shiftl x 8)) with (Z.shiftl 1 8) end.
  rewrite lor_low by (lia || done). change 0xFFFFFFFF with (Z.ones 32).
  rewrite Z.land_ones by lia. f_equal. unfold fits in B3. lia.
Qed.

(** ** Termination *)

(** The positions the loop does not leave: a padding stream or private stream
    2, and a system header or map whose length makes the 16-bit header size
    wrap to 0. *)
Definition stuck_at (i : Z) : Prop :=
  sub data i 4 = Some [0; 0; 1; 0xbe] \/ sub data i 4 = Some [0; 0; 1; 0xbf] \/
  (sub data i 4 = Some [0; 0; 1; 0xbb] \/ sub data i 4 = Some [0; 0; 1; 0xbc]) /\
  field16 data (i + 4) = Some 65530.

Lemma sub4 i b0 b1 b2 b3 : rd data i = Some b0 -> rd data (i + 1) = Some b1 ->
  rd data (i + 2) = Some b2 -> rd data (i + 3) = Some b3 ->
  sub data i 4 = Some [b0; b1; b2; b3].
Proof.
  intros H0 H1 H2 H3. pose proof (rd_bounds _ _ _ H0). pose proof (rd_bounds _ _ _ H3).
  rewrite sub_Some by lia. rewrite (drop_rd _ _ _ H0), (drop_rd _ _ _ H1).
  replace (i + 1 + 1) with (i + 2) by lia. rewrite (drop_rd _ _ _ H2).
  replace (i + 2 + 1) with (i + 3) by lia. by rewrite (drop_rd _ _ _ H3).
Qed.

(** What a start code says of the bytes at the cursor. *)
Lemma getStartCode_inv c code : getStartCode data c = Some code -> code <> PS_STARTCODE_INVAL ->
  exists b3, code = 256 + b3 /\ sub data (cur c) 4 = Some [0; 0; 1; b3] /\ is_byte b3.
Proof.
  intros Hs Hne. pose proof Hs as Hs'. unfold getStartCode in Hs.
  destruct (Z.ltb_spec (len c) PS_STARTCODE_LEN) as [|Hl]; [congruence|].
  unfold char32 in Hs. apply bind_Some in Hs as (v0 & Hv0 & Hs).
  apply bind_Some in Hv0 as (b0 & H0 & _). apply bind_Some in Hs as (v1 & Hv1 & Hs).
  apply bind_Some in Hv1 as (b1 & H1 & _). apply bind_Some in Hs as (v2 & Hv2 & Hs).
  apply bind_Some in Hv2 as (b2 & H2 & _).
  destruct (decide (b0 = 0 /\ b1 = 0 /\ b2 = 1)) as [(-> & -> & ->)|Hn].
  - case_match; [congruence|]. apply bind_Some in Hs as (b3 & H3 & _).
    pose proof (rd_byte _ _ _ Hdata H3) as B3.
    rewrite (getStartCode_some c b3) in Hs' by done. exists b3.
    split; [congruence|]. split; [by apply sub4|done].
  - rewrite (getStartCode_none c b0 b1 b2) in Hs' by done. congruence.
Qed.

Lemma field16_nonneg i n : field16 data i = Some n -> 0 <= n < 2 ^ 16.
Proof.
  unfold field16. intros H. apply bind_Some in H as (h & _ & H).
  apply bind_Some in H as (l & _ & H). simplify_eq.
  unfold ntohs, le16. pose proof (byte_n_byte 0 (h + 256 * l)).
  pose proof (byte_n_byte 1 (h + 256 * l)). unfold fits in *. lia.
Qed.

(** Every turn moves the cursor on, or the stream is stuck there. *)
Lemma dec_turn_progress c buf f code c' buf' f' :
  dec_turn data c buf f = Some (Some (code, c', buf', f')) -> 0 <= len c ->
  ~ stuck_at (cur c) -> 0 <= cur c -> cur c < cur c' /\ 0 <= len c'.
Proof.
  intros Ht Hl Hns Hc. unfold dec_turn in Ht.
  destruct (Z.eqb_spec (len c) 0) as [|Hl0]; [done|].
  apply bind_Some in Ht as (sc & Hsc & Ht).
  destruct (Z.eqb_spec sc PACK_START_CODE) as [->|_].
  { apply bind_Some in Ht as (r & Hr & Ht). destruct r as [c1|]; [|done]. cbn in Ht. simplify_eq.
    unfold StripPSHeader in Hr. case_match; [done|]. apply bind_Some in Hr as (b & _ & Hr).
    destruct (Z.ltb_spec (len c) (Z.land b 0x07 + PS_HEAD_LEN)); [done|]. simplify_eq. cbn.
    assert (0 <= Z.land b 7) by (apply Z.land_nonneg; lia). unfold PS_HEAD_LEN in *. lia. }
  destruct (Z.eqb_spec sc SYSTEM_HEADER_START_CODE) as [->|_].
  { apply bind_Some in Ht as (r & Hr & Ht). destruct r as [c1|]; [|done]. cbn in Ht. simplify_eq.
    apply getStartCode_inv in Hsc as (b3 & E & Hsub & _); [|done].
    assert (b3 = 0xbb) as -> by (unfold SYSTEM_HEADER_START_CODE in E; lia).
    unfold StripSysHeader in Hr. case_match; [done|]. apply bind_Some in Hr as (n & Hn & Hr).
    pose proof (field16_nonneg _ _ Hn).
    assert (n <> 65530) by (intros ->; apply Hns; right; right; auto).
    destruct (Z.ltb_spec (len c) (u16 (n + 2 + PS_STARTCODE_LEN))); [done|]. simplify_eq. cbn.
    unfold u16, wrap, PS_STARTCODE_LEN in *. lia. }
  destruct ((sc =? PADDING_STREAM) || (sc =? PRIVATE_STREAM_2)) eqn:Ep.
  { exfalso. apply Hns. apply orb_true_iff in Ep.
    assert (sc <> PS_STARTCODE_INVAL) as Hne.
    { intros ->. destruct Ep; done. }
    apply getStartCode_inv in Hsc as (b3 & E & Hsub & _); [|done].
    rewrite !Z.eqb_eq in Ep. unfold PADDING_STREAM, PRIVATE_STREAM_2 in Ep. unfold stuck_at.
    destruct Ep as [Ep|Ep]; [left|right; left]; rewrite Hsub; do 5 f_equal; lia. }
  destruct (Z.eqb_spec sc PROGRAM_STREAM_MAP) as [->|_].
  { apply bind_Some in Ht as (r & Hr & Ht). destruct r as [c1|]; [|done]. cbn in Ht. simplify_eq.
    apply getStartCode_inv in Hsc as (b3 & E & Hsub & _); [|done].
    assert (b3 = 0xbc) as -> by (unfold PROGRAM_STREAM_MAP in E; lia).
    unfold StripPsmPacket in Hr. case_match; [done|]. apply bind_Some in Hr as (n & Hn & Hr).
    pose proof (field16_nonneg _ _ Hn).
    assert (n <> 65530) by (intros ->; apply Hns; right; right; auto).
    destruct (Z.ltb_spec (len c) (u16 (n + 2 + PS_STARTCODE_LEN))); [done|]. simplify_eq. cbn.
    unfold u16, wrap, PS_STARTCODE_LEN in *. lia. }
  case_match.
  - apply bind_Some in Ht as (r & Hr & Ht). destruct r as [c1|]; [|done].
    unfold StripPESHeader in Hr. case_match; [done|]. apply bind_Some in Hr as (n' & _ & Hr).
    apply bind_Some in Hr as (h & Hh & Hr). simplify_eq.
    pose proof (rd_byte _ _ _ Hdata Hh) as Bh. unfold fits in Bh.
    apply bind_Some in Ht as ([c2 buf2] & Hcol & Ht). simplify_eq.
    pose proof (wrap_fits 32 (n' - (3 + h)) ltac:(lia)) as Hw. fold (u32 (n' - (3 + h))) in Hw.
    unfold fits in Hw. unfold collect in Hcol. cbn [cur len] in Hcol. case_match.
    + apply bind_Some in Hcol as (src & _ & Hcol). case_match; [|done]. simplify_eq. cbn. lia.
    + simplify_eq. cbn. lia.
  - simplify_eq. cbn. lia.
Qed.
End StreamLemmas.

Lemma dec_loop_terminates data fuel : bytes_ok data ->
  (forall i, 0 <= i -> ~ stuck_at data i) -> forall code c buf f,
  0 <= cur c -> 0 <= len c -> Z.max 0 (zlen data - cur c) < Z.of_nat fuel ->
  dec_loop data fuel code c buf f <> OutOfFuel.
Proof.
  intros Hb Hns. induction fuel as [|fuel IH]; intros code c buf f Hc Hl Hf.
  - lia.
  - cbn [dec_loop]. destruct (Z.ltb_spec (cur c) (zlen data)); [|done].
    destruct (dec_turn data c buf f) as [[[[[code' c'] buf'] f']|]|] eqn:Et; [|done|done].
    destruct (dec_turn_progress data Hb _ _ _ _ _ _ _ Et Hl (Hns _ Hc) Hc).
    apply IH; lia.
Qed.

(** ** The stream of the encoder *)

Lemma rd_at pre l k : 0 <= k -> rd (pre ++ l) (zlen pre + k) = rd l k.
Proof. intros Hk. rewrite rd_app_r by lia. f_equal. lia. Qed.

Lemma rd_at_0 pre l : rd (pre ++ l) (zlen pre) = rd l 0.
Proof. rewrite rd_app_r by lia. f_equal. lia. Qed.

Lemma start_code_at pre b3 l len : 4 <= len -> is_byte b3 ->
  getStartCode (pre ++ 0 :: 0 :: 1 :: b3 :: l) {| cur := zlen pre; len := len |}
    = Some (256 + b3).
Proof.
  intros Hl Hb. apply getStartCode_some; cbn [cur PsDec.len]; try done;
    rewrite ?rd_at_0, ?rd_at by lia; done.
Qed.

Lemma turn_pack pre scr mux rest buf f :
  dec_turn (pre ++ ps_header_bytes scr mux ++ rest)
    {| cur := zlen pre; len := 14 + zlen rest |} buf f =
  Some (Some (PACK_START_CODE, {| cur := zlen pre + 14; len := zlen rest |}, buf, f)).
Proof.
  pose proof (zlen_nonneg rest). unfold dec_turn. cbn [len].
  rewrite (proj2 (Z.eqb_neq _ _)) by lia.
  unfold ps_header_bytes. cbn [app]. rewrite start_code_at by (lia || solve_fits).
  cbn [mbind option_bind]. change (256 + 0xBA =? PACK_START_CODE) with true. cbn iota.
  unfold StripPSHeader. cbn [len cur]. rewrite (proj2 (Z.ltb_ge _ _)) by (unfold PS_HEAD_LEN; lia).
  rewrite rd_at by lia. change (rd _ 13) with (Some 0xf8). cbn [mbind option_bind].
  change (Z.land 0xf8 0x07 + PS_HEAD_LEN) with 14. rewrite (proj2 (Z.ltb_ge _ _)) by lia.
  cbn [mbind option_bind]. repeat f_equal; lia.
Qed.

Lemma field16_at pre l k h lo : 0 <= k -> rd l k = Some h -> rd l (k + 1) = Some lo ->
  is_byte h -> is_byte lo -> field16 (pre ++ l) (zlen pre + k) = Some (256 * h + lo).
Proof.
  intros Hk Hh Hlo B1 B0. unfold field16. rewrite rd_at, Hh by lia. cbn [mbind option_bind].
  rewrite <-Z.add_assoc, rd_at, Hlo by lia. cbn [mbind option_bind]. f_equal.
  unfold ntohs. destruct (byte_n_le16 h lo B1 B0) as [-> ->]. unfold le16. lia.
Qed.

Lemma turn_sys pre mux rest buf f :
  dec_turn (pre ++ sys_header_bytes mux ++ rest)
    {| cur := zlen pre; len := 12 + zlen rest |} buf f =
  Some (Some (SYSTEM_HEADER_START_CODE, {| cur := zlen pre + 12; len := zlen rest |}, buf, f)).
Proof.
  pose proof (zlen_nonneg rest). unfold dec_turn. cbn [len].
  rewrite (proj2 (Z.eqb_neq _ _)) by lia.
  unfold sys_header_bytes. cbn [app]. rewrite start_code_at by (lia || solve_fits).
  cbn [mbind option_bind]. change (256 + 0xBB =? PACK_START_CODE) with false.
  change (256 + 0xBB =? SYSTEM_HEADER_START_CODE) with true. cbn iota.
  unfold StripSysHeader. cbn [len cur].
  rewrite (proj2 (Z.ltb_ge _ _)) by (unfold SYS_HEAD_LEN_MIN; lia).
  rewrite (field16_at _ _ 4 0 6) by (done || lia || solve_fits). cbn [mbind option_bind].
  change (u16 (256 * 0 + 6 + 2 + PS_STARTCODE_LEN)) with 12.
  rewrite (proj2 (Z.ltb_ge _ _)) by lia.
  cbn [mbind option_bind]. repeat f_equal; lia.
Qed.

Lemma turn_psm pre v crc rest buf f :
  dec_turn (pre ++ (psm_bytes v ++ put32 crc) ++ rest)
    {| cur := zlen pre; len := 24 + zlen rest |} buf f =
  Some (Some (PROGRAM_STREAM_MAP, {| cur := zlen pre + 24; len := zlen rest |}, buf, f)).
Proof.
  pose proof (zlen_nonneg rest). unfold dec_turn. cbn [len].
  rewrite (proj2 (Z.eqb_neq _ _)) by lia.
  unfold psm_bytes. cbn [app]. rewrite start_code_at by (lia || solve_fits).
  cbn [mbind option_bind]. change (256 + 0xBC =? PACK_START_CODE) with false.
  change (256 + 0xBC =? SYSTEM_HEADER_START_CODE) with false.
  change ((256 + 0xBC =? PADDING_STREAM) || (256 + 0xBC =? PRIVATE_STREAM_2)) with false.
  change (256 + 0xBC =? PROGRAM_STREAM_MAP) with true. cbn iota.
  unfold StripPsmPacket. cbn [len cur].
  rewrite (proj2 (Z.ltb_ge _ _)) by (unfold PSM_HEAD_LEN_MIN; lia).
  rewrite (field16_at _ _ 4 0 0x12) by (done || lia || solve_fits). cbn [mbind option_bind].
  change (u16 (256 * 0 + 0x12 + 2 + PS_STARTCODE_LEN)) with 24.
  rewrite (proj2 (Z.ltb_ge _ _)) by lia.
  cbn [mbind option_bind]. repeat f_equal; lia.
Qed.

(** The turn on a PES packet of the video or of the audio stream. *)
Lemma turn_pes pre sid pts dts c rest n buf f :
  sid = VIDEO_STREAM_ID \/ sid = AUDIO_STREAM_ID -> INVALID_TIMESTAMP <> pts ->
  pes_overhead dts + zlen c <= 65535 -> 6 <= n -> zlen buf < MAX_BUFFER_LEN ->
  dec_turn (pre ++ pes_packet sid pts dts c ++ rest) {| cur := zlen pre; len := n |} buf f =
  if zlen buf + zlen c <=? MAX_BUFFER_LEN
  then Some (Some (256 + sid, {| cur := zlen pre + zlen (pes_packet sid pts dts c); len := zlen c |},
                   buf ++ c, true))
  else None.
Proof.
  intros Hsid Hp Hc Hn Hbuf. pose proof (zlen_nonneg c).
  destruct (pes_packet_bytes sid pts dts c Hp)
    as (l1 & l0 & fl & tail & Epkt & Ht & Hl & _ & B1 & B0).
  assert (zlen (pes_packet sid pts dts c) = 6 + pes_overhead dts + zlen c) as Hz.
  { rewrite Epkt, !zlen_app. change (zlen (ts_bytes _ _)) with 5. rewrite Ht.
    rewrite !zlen_cons, zlen_nil. lia. }
  assert (0 <= pes_overhead dts) as Ho by (unfold pes_overhead; case_match; lia).
  assert (u16 (pes_overhead dts + zlen c) = pes_overhead dts + zlen c) as Eu.
  { unfold u16. apply wrap_small. solve_fits. }
  unfold dec_turn. cbn [len]. rewrite (proj2 (Z.eqb_neq _ _)) by lia.
  rewrite Hz, Epkt. cbn [app].
  rewrite start_code_at by (lia || (destruct Hsid; subst; unfold VIDEO_STREAM_ID, AUDIO_STREAM_ID; solve_fits)).
  cbn [mbind option_bind].
  assert ((256 + sid =? PACK_START_CODE) = false /\ (256 + sid =? SYSTEM_HEADER_START_CODE) = false /\
    ((256 + sid =? PADDING_STREAM) || (256 + sid =? PRIVATE_STREAM_2)) = false /\
    (256 + sid =? PROGRAM_STREAM_MAP) = false /\
    ((256 + sid =? H264_PES_STREAM_CODE) || (256 + sid =? G711_PES_STREAM_CODE)) = true)
    as (-> & -> & -> & -> & ->) by (destruct Hsid as [-> | ->]; done).
  unfold StripPESHeader. cbn [len cur].
  rewrite (proj2 (Z.ltb_ge _ _)) by (unfold PSM_HEAD_LEN_MIN; lia).
  rewrite (field16_at _ _ 4 l1 l0) by (done || lia). cbn [mbind option_bind].
  rewrite rd_at by lia.
  match goal with |- context [rd ?l 8] => change (rd l 8) with (Some (pes_overhead dts - 3)) end.
  cbn [mbind option_bind]. rewrite Hl, Eu.
  assert (u32 (pes_overhead dts + zlen c - (3 + (pes_overhead dts - 3))) = zlen c) as ->.
  { unfold u32. rewrite wrap_small; [lia|solve_fits]. }
  unfold collect. cbn [cur len]. rewrite (proj2 (Z.ltb_lt _ _)) by done.
  set (hd := 0 :: 0 :: 1 :: sid :: l1 :: l0 :: 128 :: fl :: pes_overhead dts - 3 ::
    ts_bytes (if INVALID_TIMESTAMP =? dts then 2 else 3) pts ++ tail).
  match goal with |- context [sub ?d _ (zlen c)] => assert (d = (pre ++ hd) ++ c ++ rest) as -> end.
  { unfold hd. rewrite <-!(assoc (++)). cbn [app]. by rewrite <-!(assoc (++)). }
  assert (zlen hd = 6 + pes_overhead dts) as Hhd.
  { unfold hd. rewrite !zlen_cons, zlen_app. change (zlen (ts_bytes _ _)) with 5. lia. }
  rewrite (sub_mid (pre ++ hd)) by (rewrite ?zlen_app; lia).
  cbn [mbind option_bind].
  destruct (zlen buf + zlen c <=? MAX_BUFFER_LEN); [|done]. cbn [mbind option_bind].
  by replace (zlen pre + (9 + (pes_overhead dts - 3)) + zlen c)
    with (zlen pre + (6 + pes_overhead dts + zlen c)) by lia.
Qed.

Section VideoStream.
  Context (pts dts : Z).
  Hypothesis Hpts : INVALID_TIMESTAMP <> pts.

(** The PES packets of the pieces of a video frame. *)
Definition video_packets (F : nat) (frame : list Z) : list Z :=
  concat (pes_packet VIDEO_STREAM_ID pts dts <$> pieces F frame).

Lemma pes_overhead_bound : 8 <= pes_overhead dts <= 13.
Proof. unfold pes_overhead. case_match; lia. Qed.

(** The first turn on the packets of a frame. *)
Lemma loop_turn F pre frame n code buf f fuel : 6 <= n -> zlen buf < MAX_BUFFER_LEN ->
  0 < zlen frame ->
  dec_loop (pre ++ video_packets (S F) frame) (S fuel) code {| cur := zlen pre; len := n |} buf f =
    let c := if 65522 <? zlen frame then take (Z.to_nat 64676) frame else frame in
    let pkt := pes_packet VIDEO_STREAM_ID pts dts c in
    let rest := if 65522 <? zlen frame then video_packets F (drop (Z.to_nat 64676) frame) else [] in
    if zlen buf + zlen c <=? MAX_BUFFER_LEN
    then dec_loop ((pre ++ pkt) ++ rest) fuel H264_PES_STREAM_CODE
           {| cur := zlen (pre ++ pkt); len := zlen c |} (buf ++ c) true
    else Fault.
Proof.
  intros Hn Hbuf Hf. pose proof pes_overhead_bound.
  set (c := if 65522 <? zlen frame then take (Z.to_nat 64676) frame else frame). set (rest := if 65522 <? zlen frame then video_packets F (drop (Z.to_nat 64676) frame) else []).
  assert (0 < zlen c <= 65522) as Hc.
  { unfold c. destruct (Z.ltb_spec 65522 (zlen frame)); [zl|lia]. }
  assert (video_packets (S F) frame = pes_packet VIDEO_STREAM_ID pts dts c ++ rest) as ->.
  { unfold video_packets, c, rest. cbn [pieces].
    destruct (Z.ltb_spec 65522 (zlen frame)); [done|]. cbn. by rewrite app_nil_r. }
  assert (0 < zlen (pes_packet VIDEO_STREAM_ID pts dts c)) as Hz.
  { unfold pes_packet. rewrite zlen_app. pose proof (pes_header_length (zlen c) VIDEO_STREAM_ID pts dts). lia. }
  cbn zeta. cbn [dec_loop cur]. pose proof (zlen_nonneg rest).
  rewrite (proj2 (Z.ltb_lt _ _)) by (rewrite !zlen_app; lia).
  rewrite turn_pes by (done || lia || auto).
  rewrite zlen_app, <-app_assoc.
  destruct (zlen buf + zlen c <=? MAX_BUFFER_LEN); done.
Qed.

Lemma loop_end pre n code buf f fuel :
  dec_loop (pre ++ []) (S fuel) code {| cur := zlen pre; len := n |} buf f =
    Ret (Some (code, {| cur := zlen pre; len := n |}, buf, f)).
Proof. cbn [dec_loop cur]. by rewrite app_nil_r, Z.ltb_irrefl. Qed.

Lemma loop_video F : forall pre frame n code buf f fuel,
  0 < zlen frame -> zlen frame < 64676 * Z.of_nat F -> 6 <= n -> (F < fuel)%nat ->
  zlen buf + zlen frame <= MAX_BUFFER_LEN ->
  exists c, dec_loop (pre ++ video_packets F frame) fuel code {| cur := zlen pre; len := n |} buf f
    = Ret (Some (H264_PES_STREAM_CODE, c, buf ++ frame, true)).
Proof.
  induction F as [|F IH]; intros pre frame n code buf f fuel Hp Hl Hn Hf Hm; [lia|].
  destruct fuel as [|fuel]; [lia|]. rewrite loop_turn by lia. cbn zeta.
  destruct (Z.ltb_spec 65522 (zlen frame)) as [Hb|Hb].
  - assert (zlen (take (Z.to_nat 64676) frame) = 64676) as Ht by zl.
    rewrite Ht, (proj2 (Z.leb_le _ _)) by lia.
    destruct (IH (pre ++ pes_packet VIDEO_STREAM_ID pts dts (take (Z.to_nat 64676) frame))
      (drop (Z.to_nat 64676) frame) 64676 H264_PES_STREAM_CODE
      (buf ++ take (Z.to_nat 64676) frame) true fuel) as [c Hc]; [zl|zl|lia|lia|zl|].
    exists c. rewrite Hc. by rewrite <-app_assoc, take_drop.
  - rewrite (proj2 (Z.leb_le _ _)) by lia. destruct fuel as [|fuel]; [lia|].
    rewrite loop_end. eauto.
Qed.

Lemma loop_video_overflow F : forall j pre frame n code buf f fuel,
  0 < zlen frame -> zlen frame < 64676 * Z.of_nat F -> 6 <= n -> (F < fuel)%nat ->
  zlen buf = 64676 * j -> zlen buf < MAX_BUFFER_LEN ->
  MAX_BUFFER_LEN < zlen buf + zlen frame ->
  dec_loop (pre ++ video_packets F frame) fuel code {| cur := zlen pre; len := n |} buf f = Fault.
Proof.
  induction F as [|F IH]; intros j pre frame n code buf f fuel Hp Hl Hn Hf Hj Hb Hm; [lia|].
  destruct fuel as [|fuel]; [lia|]. rewrite loop_turn by lia. cbn zeta.
  destruct (Z.ltb_spec 65522 (zlen frame)) as [Hbig|Hsmall].
  - assert (zlen (take (Z.to_nat 64676) frame) = 64676) as Ht by zl.
    rewrite Ht. destruct (Z.leb_spec (zlen buf + 64676) MAX_BUFFER_LEN) as [Hle|]; [|done].
    unfold MAX_BUFFER_LEN in *.
    apply (IH (j + 1)); [zl|zl|lia|lia|zl|zl|zl].
  - destruct (Z.leb_spec (zlen buf + zlen frame) MAX_BUFFER_LEN); [lia|done].
Qed.
End VideoStream.

(** The headers of a frame take three turns. *)
Lemma loop_headers scr mux v rest fuel code :
  dec_loop (frame_headers scr mux v ++ rest) (S (S (S fuel))) code
    {| cur := 0; len := 50 + zlen rest |} [] false =
  dec_loop (frame_headers scr mux v ++ rest) fuel PROGRAM_STREAM_MAP
    {| cur := zlen (frame_headers scr mux v); len := zlen rest |} [] false.
Proof.
  pose proof (zlen_nonneg rest). unfold frame_headers. rewrite CRCGet_spec by (rewrite zlen_psm; lia).
  change (default 0 (fst <$> Some (?x, _))) with x.
  set (crc := crc_fold (psm_bytes v)).
  set (ps := ps_header_bytes scr mux). set (sy := sys_header_bytes mux).
  set (pm := psm_bytes v ++ put32 crc).
  assert (zlen ps = 14 /\ zlen sy = 12 /\ zlen pm = 24) as (Z1 & Z2 & Z3) by done.
  replace ((ps ++ sy ++ pm) ++ rest) with ([] ++ ps ++ (sy ++ pm ++ rest))
    by (by rewrite <-!app_assoc).
  rewrite <-(zlen_nil (A := Z)) at 1.
  cbn [dec_loop cur]. rewrite (proj2 (Z.ltb_lt _ _)) by (rewrite !zlen_app, zlen_nil; lia).
  replace (50 + zlen rest) with (14 + zlen (sy ++ pm ++ rest)) by (rewrite !zlen_app; lia).
  pose proof (turn_pack [] scr mux (sy ++ pm ++ rest) [] false) as H1. fold ps in H1.
  rewrite H1. cbn [cur].
  replace ([] ++ ps ++ sy ++ pm ++ rest) with (ps ++ sy ++ (pm ++ rest)) by done.
  rewrite (proj2 (Z.ltb_lt _ _)) by (rewrite !zlen_app, zlen_nil; lia).
  replace (zlen [] + 14) with (zlen ps) by (rewrite zlen_nil; lia).
  replace (zlen (sy ++ pm ++ rest)) with (12 + zlen (pm ++ rest)) by (rewrite !zlen_app; lia).
  pose proof (turn_sys ps mux (pm ++ rest) [] false) as H2. fold sy in H2.
  rewrite H2. cbn [cur].
  replace (ps ++ sy ++ (pm ++ rest)) with ((ps ++ sy) ++ pm ++ rest) by (by rewrite <-app_assoc).
  rewrite (proj2 (Z.ltb_lt _ _)) by (rewrite !zlen_app; lia).
  replace (zlen ps + 12) with (zlen (ps ++ sy)) by (rewrite !zlen_app; lia).
  replace (zlen (pm ++ rest)) with (24 + zlen rest) by (rewrite !zlen_app; lia).
  pose proof (turn_psm (ps ++ sy) v crc rest [] false) as H3. fold pm in H3. rewrite H3.
  by replace (zlen (ps ++ sy) + 24) with (zlen (ps ++ sy ++ pm)) by (rewrite !zlen_app; lia).
Qed.

Lemma video_packets_length pts dts F frame : 14 <= zlen (video_packets pts dts F frame).
Proof.
  unfold video_packets. pose proof (pieces_not_nil F frame) as Hne.
  destruct (pieces F frame) as [|c cs]; [done|]. cbn [fmap list_fmap concat].
  unfold pes_packet at 1. rewrite !zlen_app.
  pose proof (pes_header_length (zlen c) VIDEO_STREAM_ID pts dts). pose proof (zlen_nonneg c).
  pose proof (zlen_nonneg (concat (pes_packet VIDEO_STREAM_ID pts dts <$> cs))). cbn in *. lia.
Qed.

(** The bytes handed on for a frame. *)
Lemma ps_events_stream hdr pes ts cs : cs <> [] ->
  concat (ps_data <$> ps_events hdr pes ts cs) = hdr ++ concat (pes <$> cs).
Proof.
  assert (forall cs, concat (ps_data <$> ps_events [] pes ts cs) = concat (pes <$> cs)) as H.
  { intros l. induction l as [|c l IH]; [done|]. cbn. by rewrite IH. }
  destruct cs as [|c cs]; [done|]. intros _. cbn. by rewrite H, <-app_assoc.
Qed.

Lemma encoded_stream now frame ts this : enc_ok this ->
  INVALID_TIMESTAMP <> next_pts (m_unVideoTimestamp this) (m_ullVideoPts this) ts ->
  MIN_NALU_SIZE <= zlen frame ->
  exists this' evs scr mux v pts, INVALID_TIMESTAMP <> pts /\
    writeVideoEsStream now frame ts this = Some (0, this', evs) /\
    concat (ps_data <$> evs) =
      frame_headers scr mux v ++ video_packets pts pts (S (length frame)) frame.
Proof.
  intros Hok Hp Hl. set (s1 := video_state now frame ts this).
  assert (m_ullVideoPts s1 = next_pts (m_unVideoTimestamp this) (m_ullVideoPts this) ts /\
          m_isFirstPES s1 = true) as [Ep Ef].
  { unfold s1, video_state. set (s0 := with_scr _ _).
    destruct (calcEsBitrate_fields now (zlen frame) s0) as (_ & _ & _ & E4 & _).
    cbn. by rewrite E4. }
  exists (after_pes s1), (ps_events (headers_if_first s1) (es_pes s1 ES_TYPE_VIDEO) ts
    (pieces (S (length frame)) frame)), (m_ullScr s1), (m_unMuxRate s1), (cVersion s1),
    (m_ullVideoPts s1).
  split; [by rewrite Ep|]. split; [by apply writeVideoEsStream_spec|].
  rewrite ps_events_stream by apply pieces_not_nil.
  unfold headers_if_first. by rewrite Ef.
Qed.

(** A frame of up to 1 MiB comes back from the stream of the encoder. *)
Lemma encoded_decodes now frame ts this this' evs : enc_ok this ->
  INVALID_TIMESTAMP <> next_pts (m_unVideoTimestamp this) (m_ullVideoPts this) ts ->
  MIN_NALU_SIZE <= zlen frame <= MAX_BUFFER_LEN ->
  writeVideoEsStream now frame ts this = Some (0, this', evs) ->
  exists fuel, writePsStream fuel true (Some (concat (ps_data <$> evs))) ts =
    Ret (0, [EsVideo frame ts VIDEO_STREAM_TYPE_H264]).
Proof.
  intros Hok Hpts Hlen He.
  destruct (encoded_stream now frame ts this Hok Hpts ltac:(lia))
    as (this2 & evs2 & scr & mux & v & pts & Hp & E & Hs).
  rewrite He in E. injection E as <- <-.
  exists (S (S (S (length frame + 2)))). unfold writePsStream.
  cbn [negb]. rewrite Hs. set (rest := video_packets _ _ _ _).
  assert (zlen (frame_headers scr mux v ++ rest) = 50 + zlen rest) as ->.
  { by rewrite zlen_app, frame_headers_length. }
  rewrite loop_headers. unfold MIN_NALU_SIZE in Hlen.
  pose proof (video_packets_length pts pts (S (length frame)) frame) as Hr. fold rest in Hr.
  destruct (loop_video pts pts Hp (S (length frame)) (frame_headers scr mux v) frame
    (zlen rest) PROGRAM_STREAM_MAP [] false (length frame + 2)) as [c Hc];
    [lia|unfold zlen; lia|lia|lia|rewrite zlen_nil; lia|]. fold rest in Hc. by rewrite Hc.
Qed.

(** ** Properties *)

(** C14: what the encoder hands on for a video frame of up to 1 MiB is decoded
    to exactly that frame. *)
Theorem writePsStream_roundtrip now frame ts this
    (Hok : enc_ok this) (Hlen : MIN_NALU_SIZE <= zlen frame <= MAX_BUFFER_LEN)
    (Hpts : INVALID_TIMESTAMP <> next_pts (m_unVideoTimestamp this) (m_ullVideoPts this) ts) :
  exists this' evs fuel, writeVideoEsStream now frame ts this = Some (0, this', evs) /\
    writePsStream fuel true (Some (concat (ps_data <$> evs))) ts =
      Ret (0, [EsVideo frame ts VIDEO_STREAM_TYPE_H264]).
Proof.
  destruct (encoded_stream now frame ts this Hok Hpts ltac:(lia))
    as (this' & evs & _ & _ & _ & _ & _ & E & _).
  destruct (encoded_decodes now frame ts this this' evs) as [fuel Hd]; [done..|].
  by exists this', evs, fuel.
Qed.

(** The decoder checks its 1 MiB buffer only before a copy: a larger
    frame of the encoder is copied past its end. *)
Theorem writePsStream_overflow now frame ts this
    (Hok : enc_ok this) (Hlen : MAX_BUFFER_LEN < zlen frame)
    (Hpts : INVALID_TIMESTAMP <> next_pts (m_unVideoTimestamp this) (m_ullVideoPts this) ts) :
  exists this' evs fuel, writeVideoEsStream now frame ts this = Some (0, this', evs) /\
    writePsStream fuel true (Some (concat (ps_data <$> evs))) ts = Fault.
Proof.
  unfold MAX_BUFFER_LEN in Hlen.
  destruct (encoded_stream now frame ts this Hok Hpts ltac:(unfold MIN_NALU_SIZE; lia))
    as (this' & evs & scr & mux & v & pts & Hp & E & Hs).
  exists this', evs, (S (S (S (length frame + 2)))). split; [done|]. unfold writePsStream.
  cbn [negb]. rewrite Hs. set (rest := video_packets _ _ _ _).
  assert (zlen (frame_headers scr mux v ++ rest) = 50 + zlen rest) as ->.
  { by rewrite zlen_app, frame_headers_length. }
  rewrite loop_headers.
  pose proof (video_packets_length pts pts (S (length frame)) frame) as Hr. fold rest in Hr.
  pose proof (loop_video_overflow pts pts Hp (S (length frame)) 0 (frame_headers scr mux v) frame
    (zlen rest) PROGRAM_STREAM_MAP [] false (length frame + 2)) as Hf. fold rest in Hf.
  rewrite Hf; [done|lia|unfold zlen; lia|lia|lia|done|done|]. rewrite zlen_nil.
  unfold MAX_BUFFER_LEN. lia.
Qed.

(** The decoder returns on every stream that has none of the positions
    the loop cannot leave. *)
Theorem writePsStream_terminates data ts
    (Hb : bytes_ok data) (Hns : forall i, 0 <= i -> ~ stuck_at data i) :
  writePsStream (S (length data)) true (Some data) ts <> OutOfFuel.
Proof.
  unfold writePsStream. cbn [negb].
  pose proof (dec_loop_terminates data (S (length data)) Hb Hns PS_STARTCODE_INVAL
    {| cur := 0; len := zlen data |} [] false ltac:(done) (zlen_nonneg data)) as H.
  destruct (dec_loop _ _ _ _ _ _) as [[[[[code c] buf] f]|]| |]; try done.
  - by repeat case_match.
  - exfalso. apply H; [|done]. cbn [cur]. unfold zlen. lia.
Qed.

(** A stream that starts with a padding stream or private stream 2 packet
    keeps the decoder in its loop forever. *)
Theorem writePsStream_stuck b rest ts fuel (Hb : b = 0xbe \/ b = 0xbf) :
  writePsStream fuel true (Some ([0; 0; 1; b] ++ rest)) ts = OutOfFuel.
Proof.
  unfold writePsStream. cbn [negb]. set (data := [0; 0; 1; b] ++ rest).
  pose proof (zlen_nonneg rest).
  assert (forall code, dec_loop data fuel code {| cur := 0; len := zlen data |} [] false = OutOfFuel)
    as ->; [|done].
  assert (zlen data = 4 + zlen rest) as Hz by (unfold data; zl).
  induction fuel as [|fuel IH]; intros code; [done|]. cbn [dec_loop cur].
  rewrite (proj2 (Z.ltb_lt _ _)) by lia.
  assert (dec_turn data {| cur := 0; len := zlen data |} [] false =
          Some (Some (256 + b, {| cur := 0; len := zlen data |}, [], false))) as ->; [|apply IH].
  unfold dec_turn. cbn [len]. rewrite (proj2 (Z.eqb_neq _ _)) by lia.
  pose proof (start_code_at [] b rest (zlen data)) as Hs. change (zlen (@nil Z)) with 0 in Hs.
  change ([] ++ 0 :: 0 :: 1 :: b :: rest) with data in Hs.
  rewrite Hs by (lia || (destruct Hb; subst; solve_fits)). cbn [mbind option_bind].
  by destruct Hb as [-> | ->].
Qed.

(** ** The properties at concrete streams *)

Lemma writePsStream_roundtrip_witness :
  exists this' evs fuel, writeVideoEsStream 7 (replicate 100 5) 9000 demo_enc = Some (0, this', evs) /\
    writePsStream fuel true (Some (concat (ps_data <$> evs))) 9000 =
      Ret (0, [EsVideo (replicate 100 5) 9000 VIDEO_STREAM_TYPE_H264]).
Proof.
  apply (writePsStream_roundtrip 7 (replicate 100 5) 9000 demo_enc).
  - exact demo_enc_ok.
  - vm_compute. split; discriminate.
  - vm_compute. discriminate.
Defined.

Lemma writePsStream_overflow_witness :
  let frame := replicate (Z.to_nat 1048577) 5 in
  exists this' evs fuel, writeVideoEsStream 7 frame 9000 demo_enc = Some (0, this', evs) /\
    writePsStream fuel true (Some (concat (ps_data <$> evs))) 9000 = Fault.
Proof.
  apply (writePsStream_overflow 7 (replicate (Z.to_nat 1048577) 5) 9000 demo_enc).
  - exact demo_enc_ok.
  - unfold zlen. rewrite length_replicate. unfold MAX_BUFFER_LEN. lia.
  - vm_compute. discriminate.
Defined.

Lemma writePsStream_terminates_witness :
  writePsStream 6 true (Some [0; 0; 1; 0xba; 9]) 9000 <> OutOfFuel.
Proof.
  apply (writePsStream_terminates [0; 0; 1; 0xba; 9]).
  - repeat (apply Forall_cons; split); try constructor; solve_fits.
  - intros i Hi Hs.
    assert (i = 0 \/ i = 1 \/ sub [0; 0; 1; 0xba; 9] i 4 = None) as [-> | [-> | Hn]].
    { destruct (decide (i <= 1)); [lia|]. right. right. apply sub_None. unfold zlen; cbn [length]; lia. }
    + vm_compute in Hs. intuition congruence.
    + vm_compute in Hs. intuition congruence.
    + unfold stuck_at in Hs. rewrite Hn in Hs. intuition congruence.
Defined.

Lemma writePsStream_stuck_witness :
  writePsStream 1000 true (Some ([0; 0; 1; 0xbe] ++ [0; 2; 255; 255])) 9000 = OutOfFuel.
Proof. apply (writePsStream_stuck 0xbe [0; 2; 255; 255] 9000 1000). left. reflexivity. Defined.
