(* ===== verification/PsRtpEncap.v ===== *)
(** * Program stream over RTP: [svs_adapter_ps_rtp_encap.cpp]

    [CPsRtpEncap] owns an encoder [CMpegPsEnc] and is its handler: every
    [handlePsStream] call is cut into RTP packets, which go to
    [CPsRtpEncapHandle::handlePsRtpPacket]. The handler touches no state of the
    encoder and the encoder none of the handler, so an operation runs the
    encoder and then handles the calls it made, in order. *)

From S2P Require Import Prelude RtpPacket RtpPacker RtpStream PsEnc PsDec.
Open Scope Z_scope.

Definition PS_RTP_PAYLOAD_TYPE : Z := 96.
Definition PS_RTP_SSRC : Z := 999999999.

(** The handler interface [CMpegPsEncHandle]: its object [S] makes the calls
    [E] in turn. *)
Class CMpegPsEncHandle (S E : Type) := handlePsStream : ps_event -> M S E unit.

(** The calls an encoder made, handled in order. *)
Fixpoint deliver {S E : Type} `{CMpegPsEncHandle S E} (evs : list ps_event) : M S E unit :=
  match evs with
  | [] => mret tt
  | e :: evs => handlePsStream e;; deliver evs
  end.

Record CPsRtpEncap : Type := {
  m_pRtpHandle : bool;
  m_MpegPsEncap : CMpegPsEnc;
  m_RtpBuffer : list Z;
  m_usRtpSeq : Z }.

Definition CPsRtpEncap_new : CPsRtpEncap :=
  {| m_pRtpHandle := false; m_MpegPsEncap := CMpegPsEnc_new;
     m_RtpBuffer := replicate (Z.to_nat STREAM_MSG_BLOCK_SIZE) 0; m_usRtpSeq := 0 |}.

Definition with_rtp (buf : list Z) (seq : Z) (this : CPsRtpEncap) : CPsRtpEncap :=
  {| m_pRtpHandle := m_pRtpHandle this; m_MpegPsEncap := m_MpegPsEncap this;
     m_RtpBuffer := buf; m_usRtpSeq := seq |}.
Definition with_encoder (e : CMpegPsEnc) (this : CPsRtpEncap) : CPsRtpEncap :=
  {| m_pRtpHandle := m_pRtpHandle this; m_MpegPsEncap := e;
     m_RtpBuffer := m_RtpBuffer this; m_usRtpSeq := m_usRtpSeq this |}.

(** [init]: [rand] is the value of the random generator. *)
Definition init (pHandle alloc : bool) (rand : Z) (this : CPsRtpEncap)
    : SVS_RET_CODE * CPsRtpEncap :=
  if negb pHandle then (RET_FAIL, this)
  else
    let '(r, e) := PsEnc.init true alloc (m_MpegPsEncap this) in
    let this := {| m_pRtpHandle := true; m_MpegPsEncap := e;
                   m_RtpBuffer := m_RtpBuffer this; m_usRtpSeq := m_usRtpSeq this |} in
    if negb (0 =? r) then (RET_FAIL, this)
    else (RET_OK, with_rtp (m_RtpBuffer this) (u16 rand) this).

(** The loop [while (0 < unLeastSize)] on the packet object, whose data is
    [m_RtpBuffer]; the packets handed on. *)
Fixpoint ps_loop (fuel : nat) (data : list Z) (ts : Z) (endFlag : bool) (p : CRtpPacket)
    (seq : Z) : option (CRtpPacket * Z * list (list Z)) :=
  match fuel with
  | O => None
  | S fuel =>
    if 0 <? zlen data then
      p ← SetHeader PS_RTP_PAYLOAD_TYPE seq ts PS_RTP_SSRC false p;
      let seq := u16 (seq + 1) in
      let unCopySize := MAX_ENCAP_RTP_SIZE - RTP_FIXED_HEADER_SIZE in
      '(p, unCopySize) ←
        (if zlen data <=? unCopySize
         then '(_, p) ← (if endFlag then SetMarker true p else Some (RET_OK, p));
              Some (p, zlen data)
         else Some (p, unCopySize));
      src ← sub data 0 unCopySize;
      buf ← memcpy (m_pRtpData p) RTP_FIXED_HEADER_SIZE src;
      pkt ← sub buf 0 (unCopySize + RTP_FIXED_HEADER_SIZE);
      '(p, seq, pkts) ←
        ps_loop fuel (drop (Z.to_nat unCopySize) data) ts endFlag (with_data buf p) seq;
      Some (p, seq, pkt :: pkts)
    else Some (p, seq, [])
  end.

#[export] Instance PsRtp_handlePsStream : CMpegPsEncHandle CPsRtpEncap (list Z) := fun e this =>
  if (zlen (ps_data e) =? 0) || negb (m_pRtpHandle this) then Some (tt, this, [])
  else
    '(_, p) ← GeneratePacket (Some (m_RtpBuffer this)) CRtpPacket_new;
    '(p, seq, pkts) ←
      ps_loop (S (length (ps_data e))) (ps_data e) (ps_timestamp e) (ps_end e) p
        (m_usRtpSeq this);
    Some (tt, with_rtp (m_pRtpData p) seq this, pkts).

(** A method of the encoder, and the calls it made. *)
Definition encode (m : enc Z) : M CPsRtpEncap (list Z) Z := fun this =>
  '(r, e, evs) ← m (m_MpegPsEncap this);
  '(_, this, pkts) ← deliver evs (with_encoder e this);
  Some (r, this, pkts).

Definition insertVideoFrame (now : Z) (pData : option (list Z)) (unTimestamp : Z)
    : M CPsRtpEncap (list Z) SVS_RET_CODE :=
  match pData with
  | None => mret RET_FAIL
  | Some data =>
    if zlen data =? 0 then mret RET_FAIL
    else
      r ← encode (writeVideoEsStream now data unTimestamp);
      if negb (0 =? r) then mret RET_FAIL else mret RET_OK
  end.

Definition insertAudioFrame (now : Z) (pData : option (list Z)) (unTimestamp : Z)
    : M CPsRtpEncap (list Z) SVS_RET_CODE :=
  match pData with
  | None => mret RET_FAIL
  | Some data =>
    if zlen data =? 0 then mret RET_FAIL
    else
      r ← encode (writeAudioEsStream now data unTimestamp);
      if negb (0 =? r) then mret RET_FAIL else mret RET_OK
  end.

Definition release : M CPsRtpEncap (list Z) unit :=
  encode (PsEnc.release;; mret 0);; mret tt.

(** ** The packets of a call *)

Abbreviation ps_packet_is := (packet_is PS_RTP_PAYLOAD_TYPE PS_RTP_SSRC).
Abbreviation ps_packets_are := (packets_are PS_RTP_PAYLOAD_TYPE PS_RTP_SSRC).

Definition event_packets (e : ps_event) : list (bool * list Z) :=
  mark_last (ps_end e) (chunks 1406 (length (ps_data e)) (ps_data e)).

(** A turn of the loop, after the header. *)
Lemma ps_loop_turn fuel data ts e p seq : rtp_object p -> fits 16 seq -> fits 32 ts ->
  0 < zlen data ->
  let c := if zlen data <=? 1406 then data else take (Z.to_nat 1406) data in
  let m := (zlen data <=? 1406) && e in
  exists p' pkt, ps_packet_is seq ts m c pkt /\ rtp_object p' /\
    ps_loop (S fuel) data ts e p seq =
      '(q, seq, pkts) ← ps_loop fuel (drop (Z.to_nat (zlen c)) data) ts e p' (u16 (seq + 1));
      Some (q, seq, pkt :: pkts).
Proof.
  intros Hp Hseq Hts Hd c m.
  assert (zlen c <= 1406) as Hc by (unfold c; destruct (Z.leb_spec (zlen data) 1406); zl).
  destruct (packet_step PS_RTP_PAYLOAD_TYPE PS_RTP_SSRC p seq ts m c Hp ltac:(done) ltac:(done) Hseq Hts ltac:(lia)) as (q & buf & E & Hm & Hpk & Hq).
  exists (with_data buf q), (take (Z.to_nat (12 + zlen c)) buf). split; [done|]. split; [done|].
  cbn [ps_loop]. rewrite (proj2 (Z.ltb_lt _ _)) by lia.
  destruct (SetHeader _ _ _ _ _ p) as [p1|]; [|done]. cbn [mbind option_bind] in E |- *.
  change (MAX_ENCAP_RTP_SIZE - RTP_FIXED_HEADER_SIZE) with 1406.
  assert ((if zlen data <=? 1406
           then '(_, p) ← (if e then SetMarker true p1 else Some (RET_OK, p1));
                Some (p, zlen data)
           else Some (p1, 1406)) = Some (q, zlen c)) as ->.
  { unfold c, m in *. destruct (Z.leb_spec (zlen data) 1406); cbn [andb] in E.
    - destruct (if e then _ else _) as [[r p2]|]; [|done]. by injection E as ->.
    - injection E as ->. do 2 f_equal. zl. }
  cbn [mbind option_bind].
  assert (sub data 0 (zlen c) = Some c) as ->.
  { unfold c. destruct (Z.leb_spec (zlen data) 1406).
    - rewrite <-(app_nil_r data) at 1. by apply sub_prefix.
    - rewrite <-(take_drop (Z.to_nat 1406) data) at 1. by apply sub_prefix. }
  cbn [mbind option_bind]. change RTP_FIXED_HEADER_SIZE with 12. rewrite Hm.
  cbn [mbind option_bind].
  destruct Hq as [_ Hz _]. cbn in Hz. unfold STREAM_MSG_BLOCK_SIZE in Hz.
  pose proof (zlen_nonneg c).
  rewrite sub_Some by lia. rewrite drop_0. by rewrite (Z.add_comm (zlen c) 12).
Qed.

Lemma ps_loop_spec fuel ts e : forall data p seq, rtp_object p -> fits 16 seq -> fits 32 ts ->
  (length data < fuel)%nat -> 0 < zlen data ->
  exists q pkts, ps_loop fuel data ts e p seq = Some (q, u16 (seq + zlen pkts), pkts) /\
    rtp_object q /\ ps_packets_are seq ts (mark_last e (chunks 1406 (length data) data)) pkts.
Proof.
  induction fuel as [|fuel IH]; intros data p seq Hp Hseq Hts Hf Hd; [lia|].
  destruct (ps_loop_turn fuel data ts e p seq Hp Hseq Hts Hd) as (p' & pkt & Hpk & Hp' & ->).
  assert (exists n, length data = S n) as [n Hn].
  { exists (length data - 1)%nat. unfold zlen in Hd. lia. }
  destruct (Z.leb_spec (zlen data) 1406) as [Hl|Hl]; cbn [andb] in Hpk.
  - rewrite drop_ge by (unfold zlen; lia).
    destruct fuel as [|fuel]; [lia|]. cbn [ps_loop mbind option_bind].
    exists p', [pkt]. split; [done|]. split; [done|].
    rewrite Hn, chunks_last by done. by split.
  - set (rest := drop _ data). assert (zlen rest = zlen data - 1406) as Hr by (unfold rest; zl).
    destruct (IH rest p' (u16 (seq + 1))) as (q & pkts & E & Hq & Hpks);
      [done|by apply wrap_fits|done|unfold zlen in *; lia|lia|].
    rewrite E. cbn [mbind option_bind]. exists q, (pkt :: pkts). split.
    { rewrite zlen_cons. unfold u16. rewrite wrap_add_l. do 3 f_equal. f_equal. lia. }
    split; [done|]. rewrite Hn, chunks_cons by done.
    assert (drop (Z.to_nat 1406) data = rest) as ->.
    { unfold rest. f_equal. zl. }
    assert (exists k, n = (length rest + k)%nat) as [k ->].
    { exists (n - length rest)%nat. unfold zlen in *. lia. }
    assert (chunks 1406 (length rest + k) rest = chunks 1406 (length rest) rest) as ->.
    { apply chunks_fuel; [lia..|]. intros E0. rewrite E0, zlen_nil in Hr. lia. }
    pose proof (chunks_ne 1406 (length rest) rest ltac:(unfold zlen in *; lia)) as Hne.
    cbn [mark_last]. split; [|done]. by destruct (chunks _ _ rest).
Qed.

(** ** The handler and the operations *)

Record encap_ok (this : CPsRtpEncap) : Prop := {
  encap_handle : m_pRtpHandle this = true;
  encap_buffer : zlen (m_RtpBuffer this) = STREAM_MSG_BLOCK_SIZE;
  encap_seq : fits 16 (m_usRtpSeq this) }.

Lemma handlePsStream_spec e this : encap_ok this -> fits 32 (ps_timestamp e) ->
  0 < zlen (ps_data e) ->
  exists buf pkts, let seq := u16 (m_usRtpSeq this + zlen pkts) in
    handlePsStream e this = Some (tt, with_rtp buf seq this, pkts) /\
    encap_ok (with_rtp buf seq this) /\
    ps_packets_are (m_usRtpSeq this) (ps_timestamp e) (event_packets e) pkts.
Proof.
  intros [Hh Hb Hs] Hts Hd. unfold handlePsStream, PsRtp_handlePsStream.
  rewrite (proj2 (Z.eqb_neq _ _)), Hh by lia. cbn [negb orb].
  destruct (GeneratePacket_spec (m_RtpBuffer this) CRtpPacket_new) as (d & -> & Hz & _ & Hf).
  { rewrite Hb. done. }
  cbn [mbind option_bind].
  destruct (ps_loop_spec (S (length (ps_data e))) (ps_timestamp e) (ps_end e) (ps_data e)
    (with_head_len 12 (attach d CRtpPacket_new)) (m_usRtpSeq this))
    as (q & pkts & -> & Hq & Hp); [|done..|lia|done|].
  { split; cbn; [done|by rewrite Hz|]. eexists. split; [exact Hf|done]. }
  cbn [mbind option_bind]. exists (m_pRtpData q), pkts. split; [done|]. split; [|done].
  split; cbn; [done|by destruct Hq|by apply wrap_fits].
Qed.

Lemma deliver_spec ts evs : fits 32 ts -> forall this, encap_ok this ->
  Forall (fun e => ps_timestamp e = ts /\ 0 < zlen (ps_data e)) evs ->
  exists buf pkts, let seq := u16 (m_usRtpSeq this + zlen pkts) in
    deliver evs this = Some (tt, with_rtp buf seq this, pkts) /\
    encap_ok (with_rtp buf seq this) /\
    ps_packets_are (m_usRtpSeq this) ts (evs ≫= event_packets) pkts.
Proof.
  intros Hts. induction evs as [|e evs IH]; intros this Hok Hevs.
  - exists (m_RtpBuffer this), []. cbn.
    assert (with_rtp (m_RtpBuffer this) (u16 (m_usRtpSeq this + zlen (@nil (list Z)))) this = this)
      as ->; [|done].
    rewrite zlen_nil, Z.add_0_r. unfold u16. rewrite wrap_small by apply Hok. by destruct this.
  - apply Forall_cons in Hevs as [[He Hd] Hevs].
    destruct (handlePsStream_spec e this Hok) as (b1 & p1 & E1 & Hok1 & H1);
      [by rewrite He|done|]. cbv zeta in *.
    destruct (IH _ Hok1 Hevs) as (b2 & p2 & E2 & Hok2 & H2). cbv zeta in *.
    cbn [m_usRtpSeq with_rtp] in *. exists b2, (p1 ++ p2).
    assert (u16 (m_usRtpSeq this + zlen (p1 ++ p2)) =
      u16 (u16 (m_usRtpSeq this + zlen p1) + zlen p2)) as ->.
    { unfold u16. rewrite wrap_add_l, zlen_app. f_equal. lia. }
    split; [|split].
    + cbn [deliver]. erewrite bind_eq by exact E1. cbv beta. rewrite E2. done.
    + done.
    + change ((e :: evs) ≫= event_packets) with (event_packets e ++ (evs ≫= event_packets)).
      rewrite He in H1. apply packets_are_app; [apply Hok|done|].
      by rewrite <-(packets_are_length _ _ _ _ _ _ H1).
Qed.

(** Everything a frame becomes: the markers and the bytes. *)
Lemma event_packets_data e : 0 < zlen (ps_data e) ->
  concat (event_packets e).*2 = ps_data e.
Proof.
  intros _. unfold event_packets. rewrite mark_last_payloads. apply concat_chunks; lia.
Qed.

Lemma bind_event_data evs : Forall (fun e => 0 < zlen (ps_data e)) evs ->
  concat (evs ≫= event_packets).*2 = concat (ps_data <$> evs).
Proof.
  induction 1 as [|e evs He _ IH]; [done|].
  change ((e :: evs) ≫= event_packets) with (event_packets e ++ (evs ≫= event_packets)).
  rewrite fmap_app, concat_app, IH, event_packets_data by done. done.
Qed.
Lemma event_packets_markers e : 0 < zlen (ps_data e) ->
  exists n, (event_packets e).*1 = replicate n false ++ [ps_end e].
Proof.
  intros Hd. unfold event_packets. eexists. apply mark_last_markers.
  apply chunks_ne. unfold zlen in Hd. lia.
Qed.

(** Only the last call of a frame has the end flag. *)
Lemma ps_events_markers hdr pes ts cs : cs <> [] ->
  Forall (fun e => 0 < zlen (ps_data e)) (ps_events hdr pes ts cs) ->
  exists n, (ps_events hdr pes ts cs ≫= event_packets).*1 = replicate n false ++ [true].
Proof.
  revert hdr. induction cs as [|c cs IH]; intros hdr; [done|]. intros _.
  cbn [ps_events]. intros [He Hf]%Forall_cons. destruct (event_packets_markers _ He) as [n Hn].
  set (e := Build_ps_event _ _ _) in *.
  change ((e :: ps_events [] pes ts cs) ≫= event_packets)
    with (event_packets e ++ (ps_events [] pes ts cs ≫= event_packets)).
  rewrite fmap_app, Hn. destruct cs as [|c2 cs]; [exists n; cbn; apply app_nil_r|].
  destruct (IH [] ltac:(done) Hf) as [k ->]. exists (S n + k)%nat. cbn [ps_end e].
  rewrite replicate_add, replicate_S_end. by rewrite <-!app_assoc.
Qed.

Lemma ps_events_ok hdr sid pts dts ts cs :
  Forall (fun e => ps_timestamp e = ts /\ 0 < zlen (ps_data e))
    (ps_events hdr (pes_packet sid pts dts) ts cs).
Proof.
  revert hdr. induction cs as [|c cs IH]; intros hdr; [constructor|].
  cbn [ps_events]. constructor; [|done]. split; [done|]. cbn [ps_data]. unfold pes_packet.
  pose proof (pes_header_length (zlen c) sid pts dts).
  pose proof (zlen_nonneg hdr). pose proof (zlen_nonneg c). zl.
Qed.
Lemma event_packets_bound e : Forall (fun q => zlen q.2 <= 1406) (event_packets e).
Proof.
  apply (proj1 (Forall_fmap snd (fun pl => zlen pl <= 1406) _)). unfold event_packets. rewrite mark_last_payloads.
  by apply chunks_bound.
Qed.
Lemma concat_Forall_pos evs ts : Forall (fun e => ps_timestamp e = ts /\ 0 < zlen (ps_data e)) evs ->
  Forall (fun e => 0 < zlen (ps_data e)) evs.
Proof. intros H. eapply Forall_impl; [exact H|]. by intros e [_ ?]. Qed.

(** A video frame, encoded and cut into packets. *)
Lemma insertVideoFrame_run now frame ts this
    (Hok : encap_ok this) (Henc : enc_ok (m_MpegPsEncap this)) (Hts : fits 32 ts)
    (Hlen : MIN_NALU_SIZE <= zlen frame)
    (Hpts : INVALID_TIMESTAMP <> next_pts (m_unVideoTimestamp (m_MpegPsEncap this))
                                   (m_ullVideoPts (m_MpegPsEncap this)) ts) :
  let s1 := video_state now frame ts (m_MpegPsEncap this) in
  let evs := ps_events (headers_if_first s1) (es_pes s1 ES_TYPE_VIDEO) ts (pieces (S (length frame)) frame) in
  exists this' pkts, insertVideoFrame now (Some frame) ts this = Some (RET_OK, this', pkts) /\
    encap_ok this' /\ m_MpegPsEncap this' = after_pes s1 /\
    m_usRtpSeq this' = u16 (m_usRtpSeq this + zlen pkts) /\
    ps_packets_are (m_usRtpSeq this) ts (evs ≫= event_packets) pkts.
Proof.
  intros s1 evs. set (s := m_MpegPsEncap this) in *.
  pose proof (writeVideoEsStream_spec now frame ts s Henc Hpts Hlen) as He.
  cbv zeta in He. fold s1 in He. fold evs in He.
  assert (Forall (fun e => ps_timestamp e = ts /\ 0 < zlen (ps_data e)) evs) as Hevs
    by apply ps_events_ok.
  destruct (deliver_spec ts evs Hts (with_encoder (after_pes s1) this)) as (buf & pkts & E & Hok' & Hp);
    [by destruct Hok|done|]. cbv zeta in *. cbn [m_usRtpSeq with_encoder] in *.
  eexists _, pkts. split; [|done].
  unfold insertVideoFrame. unfold MIN_NALU_SIZE in Hlen.
  rewrite (proj2 (Z.eqb_neq _ _)) by lia.
  erewrite (bind_run _ _ _ 0 _ pkts RET_OK _ []); [by rewrite app_nil_r| |reflexivity].
  unfold encode. fold s. rewrite He. cbn [mbind option_bind]. rewrite E. reflexivity.
Qed.

Lemma insertVideoFrame_spec now frame ts this
    (Hok : encap_ok this) (Henc : enc_ok (m_MpegPsEncap this)) (Hts : fits 32 ts)
    (Hlen : MIN_NALU_SIZE <= zlen frame <= MAX_BUFFER_LEN)
    (Hpts : INVALID_TIMESTAMP <> next_pts (m_unVideoTimestamp (m_MpegPsEncap this))
                                   (m_ullVideoPts (m_MpegPsEncap this)) ts) :
  exists this' pkts spec n fuel,
    insertVideoFrame now (Some frame) ts this = Some (RET_OK, this', pkts) /\
    encap_ok this' /\ enc_ok (m_MpegPsEncap this') /\
    m_usRtpSeq this' = u16 (m_usRtpSeq this + zlen pkts) /\
    ps_packets_are (m_usRtpSeq this) ts spec pkts /\
    spec.*1 = replicate n false ++ [true] /\ Forall (fun p => zlen p <= 1418) pkts /\
    writePsStream fuel true (Some (concat (drop 12 <$> pkts))) ts =
      Ret (0, [EsVideo frame ts VIDEO_STREAM_TYPE_H264]).
Proof.
  destruct (insertVideoFrame_run now frame ts this Hok Henc Hts (proj1 Hlen) Hpts)
    as (this' & pkts & E & Hok' & Een & Hq & Hp).
  set (s := m_MpegPsEncap this) in *. set (s1 := video_state now frame ts s) in *.
  pose proof (writeVideoEsStream_spec now frame ts s Henc Hpts ltac:(lia)) as He.
  cbv zeta in He. fold s1 in He. set (evs := ps_events _ _ _ _) in *.
  destruct (encoded_decodes now frame ts s _ _ Henc Hpts Hlen He) as [fuel Hdec].
  assert (Forall (fun e => ps_timestamp e = ts /\ 0 < zlen (ps_data e)) evs) as Hevs
    by apply ps_events_ok.
  pose proof (concat_Forall_pos _ _ Hevs) as Hpos.
  destruct (ps_events_markers _ _ _ _ (pieces_not_nil (S (length frame)) frame) Hpos) as [n Hn].
  fold evs in Hn.
  exists this', pkts, (evs ≫= event_packets), n, fuel. split; [done|].
  split; [done|]. split; [rewrite Een; by apply after_pes_ok, video_state_ok|]. split; [done|].
  split; [done|]. split; [done|]. split.
  - eapply (packets_bound _ _ 1406); [exact Hp|]. clear. induction evs as [|e evs IH]; [constructor|].
    change ((e :: evs) ≫= event_packets) with (event_packets e ++ (evs ≫= event_packets)).
    apply Forall_app. split; [apply event_packets_bound|done].
  - by rewrite (packets_payloads _ _ _ _ _ _ Hp), bind_event_data.
Qed.

(** ** Properties *)

(** C5: a video frame of 5 bytes to 1 MiB becomes RTP packets of at most 1418
    bytes, of payload type 96, with the time stamp of the frame and consecutive
    sequence numbers; only the last one is marked. Their payloads, put
    together, are a program stream the decoder of this server turns into
    exactly that frame. The packet buffer is never overrun. *)
Theorem insertVideoFrame_packets now frame ts this
    (Hok : encap_ok this) (Henc : enc_ok (m_MpegPsEncap this)) (Hts : fits 32 ts)
    (Hlen : MIN_NALU_SIZE <= zlen frame <= MAX_BUFFER_LEN)
    (Hpts : INVALID_TIMESTAMP <> next_pts (m_unVideoTimestamp (m_MpegPsEncap this))
                                   (m_ullVideoPts (m_MpegPsEncap this)) ts) :
  exists this' pkts spec n fuel,
    insertVideoFrame now (Some frame) ts this = Some (RET_OK, this', pkts) /\
    encap_ok this' /\ enc_ok (m_MpegPsEncap this') /\
    m_usRtpSeq this' = u16 (m_usRtpSeq this + zlen pkts) /\
    ps_packets_are (m_usRtpSeq this) ts spec pkts /\
    spec.*1 = replicate n false ++ [true] /\ Forall (fun p => zlen p <= 1418) pkts /\
    writePsStream fuel true (Some (concat (drop 12 <$> pkts))) ts =
      Ret (0, [EsVideo frame ts VIDEO_STREAM_TYPE_H264]).
Proof. by apply insertVideoFrame_spec. Qed.

(** ** Witness *)

Definition demo_encap : CPsRtpEncap := (init true true 65535 CPsRtpEncap_new).2.

Lemma demo_encap_ok : encap_ok demo_encap.
Proof. split; by vm_compute. Qed.

(** The sequence number wraps inside a frame of 3000 bytes. *)
Lemma insertVideoFrame_packets_witness : exists this' pkts,
  insertVideoFrame 7 (Some (replicate 3000 5)) 9000 demo_encap = Some (RET_OK, this', pkts) /\
    m_usRtpSeq this' = u16 (65535 + zlen pkts).
Proof.
  destruct (insertVideoFrame_packets 7 (replicate 3000 5) 9000 demo_encap)
    as (this' & pkts & _ & _ & _ & E & _ & _ & Hs & _).
  - exact demo_encap_ok.
  - exact demo_enc_ok.
  - by vm_compute.
  - unfold MIN_NALU_SIZE, MAX_BUFFER_LEN, zlen. rewrite length_replicate. lia.
  - by vm_compute.
  - exists this', pkts. split; [exact E|exact Hs].
Defined.
