(* ===== verification/EsRtpEncap.v ===== *)
(** * Elementary streams over RTP: [svs_es_rtp_encap.cpp]

    [CEsRtpEncap] is the handler of the program stream decoder: a video frame
    leaves as H.264 RTP packets (single NAL unit packets or FU-A fragments), an
    audio frame as pieces of at most 1406 bytes. It reads the frame through a
    pointer into the memory of its caller: [mem] is that memory from the first
    byte of the frame on, [n] the size of the frame. The start code search
    aligns its word accesses to the address of the frame, [base]. *)

From S2P Require Import Prelude RtpPacket RtpPacker RtpStream PsEnc PsDec.
Open Scope Z_scope.

Definition STARTCODE_LEN : Z := 4.

(** The interface [CMpegPsDecHandle]: its object [S] makes the calls [E]. *)
Class CMpegPsDecHandle (S E : Type) := {
  handleVideoEsStream : Z -> option (list Z) -> Z -> Z -> Z -> M S E unit;
  handleAudioEsStream : Z -> option (list Z) -> Z -> Z -> Z -> M S E unit }.

Record CEsRtpEncap : Type := {
  m_pEsRtpHandle : bool;
  m_RtpBuffer : list Z;
  m_usVideoRtpSeq : Z;
  m_usAudioRtpSeq : Z;
  m_ucVideoPT : Z }.

(** The constructor leaves the buffer and [m_ucVideoPT] as they are. *)
Definition CEsRtpEncap_new (mem : list Z) (pt : Z) : CEsRtpEncap :=
  {| m_pEsRtpHandle := false; m_RtpBuffer := mem; m_usVideoRtpSeq := 0; m_usAudioRtpSeq := 0;
     m_ucVideoPT := pt |}.

Definition Init (pEsRtpHandle : bool) (this : CEsRtpEncap) : SVS_RET_CODE * CEsRtpEncap :=
  (RET_OK, {| m_pEsRtpHandle := pEsRtpHandle; m_RtpBuffer := m_RtpBuffer this;
              m_usVideoRtpSeq := m_usVideoRtpSeq this;
              m_usAudioRtpSeq := m_usAudioRtpSeq this; m_ucVideoPT := m_ucVideoPT this |}).

(** [m_ucVideoPT] is not read: the video packets have payload type 99. *)
Definition SetVideoPayloadType (ucVideoPT : Z) (this : CEsRtpEncap) : CEsRtpEncap :=
  {| m_pEsRtpHandle := m_pEsRtpHandle this; m_RtpBuffer := m_RtpBuffer this;
     m_usVideoRtpSeq := m_usVideoRtpSeq this; m_usAudioRtpSeq := m_usAudioRtpSeq this;
     m_ucVideoPT := ucVideoPT |}.

Definition with_video_rtp (buf : list Z) (seq : Z) (this : CEsRtpEncap) : CEsRtpEncap :=
  {| m_pEsRtpHandle := m_pEsRtpHandle this; m_RtpBuffer := buf; m_usVideoRtpSeq := seq;
     m_usAudioRtpSeq := m_usAudioRtpSeq this; m_ucVideoPT := m_ucVideoPT this |}.
Definition with_audio_rtp (buf : list Z) (seq : Z) (this : CEsRtpEncap) : CEsRtpEncap :=
  {| m_pEsRtpHandle := m_pEsRtpHandle this; m_RtpBuffer := buf;
     m_usVideoRtpSeq := m_usVideoRtpSeq this; m_usAudioRtpSeq := seq;
     m_ucVideoPT := m_ucVideoPT this |}.

(** ** The start code search *)

(** [p[0] == 0 && p[1] == 0 && p[2] == 1] *)
Definition code_at (mem : list Z) (p : Z) : option bool :=
  p0 ← rd mem p;
  if negb (p0 =? 0) then Some false
  else
    p1 ← rd mem (p + 1);
    if negb (p1 =? 0) then Some false
    else p2 ← rd mem (p + 2); Some (p2 =? 1).

(** The byte loops: [inl] a start code, [inr] the position at the end. *)
Fixpoint find_bytes (fuel : nat) (mem : list Z) (p lim : Z) : option (Z + Z) :=
  match fuel with
  | O => None
  | S fuel =>
    if p <? lim then
      c ← code_at mem p;
      if c : bool then Some (inl p) else find_bytes fuel mem (p + 1) lim
    else Some (inr p)
  end.

(** Some byte of the word is zero. *)
Definition has_zero (x : Z) : bool :=
  negb (Z.land (Z.land (u32 (x - 0x01010101)) (Z.lnot x)) 0x80808080 =? 0).

(** The body of the word loop: the start code found in this word. *)
Definition find_in_word (mem : list Z) (p : Z) : option (option Z) :=
  p0 ← rd mem p; p1 ← rd mem (p + 1); p2 ← rd mem (p + 2); p3 ← rd mem (p + 3);
  if has_zero (le32 p0 p1 p2 p3) then
    if (p1 =? 0) && ((p0 =? 0) && (p2 =? 1)) then Some (Some p)
    else if (p1 =? 0) && ((p2 =? 0) && (p3 =? 1)) then Some (Some (p + 1))
    else if p3 =? 0 then
      p4 ← rd mem (p + 4);
      if (p2 =? 0) && (p4 =? 1) then Some (Some (p + 2))
      else if p4 =? 0 then
        p5 ← rd mem (p + 5); if p5 =? 1 then Some (Some (p + 3)) else Some None
      else Some None
    else Some None
  else Some None.

Fixpoint find_words (fuel : nat) (mem : list Z) (p lim : Z) : option (Z + Z) :=
  match fuel with
  | O => None
  | S fuel =>
    if p <? lim then
      r ← find_in_word mem p;
      match r with Some q => Some (inl q) | None => find_words fuel mem (p + 4) lim end
    else Some (inr p)
  end.

Definition h264_find_startcode_internal (base : Z) (mem : list Z) (p end_ : Z) : option Z :=
  let fuel := S (Z.to_nat (end_ - p)) in
  let a := p + 4 - Z.land (base + p) 3 in
  let end_ := end_ - 3 in
  r ← find_bytes fuel mem p (Z.min a end_);
  match r with
  | inl q => Some q
  | inr p =>
    let end_ := end_ - 3 in
    r ← find_words fuel mem p end_;
    match r with
    | inl q => Some q
    | inr p =>
      let end_ := end_ + 3 in
      r ← find_bytes fuel mem p end_;
      match r with inl q => Some q | inr _ => Some (end_ + 3) end
    end
  end.

Definition h264_find_startcode (base : Z) (mem : list Z) (p end_ : Z) : option Z :=
  out ← h264_find_startcode_internal base mem p end_;
  if (p <? out) && (out <? end_) then
    b ← rd mem (out - 1); Some (if b =? 0 then out - 1 else out)
  else Some out.

(** [while ( !*(nal_start++));] *)
Fixpoint skip_zeros (fuel : nat) (mem : list Z) (p : Z) : option Z :=
  match fuel with
  | O => None
  | S fuel =>
    b ← rd mem p;
    if b =? 0 then skip_zeros fuel mem (p + 1) else Some (p + 1)
  end.

(** ** Packets *)

Definition VIDEO_PT : Z := 99.
Definition VIDEO_SSRC : Z := 999999999.
Definition AUDIO_PT : Z := 0.
Definition AUDIO_SSRC : Z := 999999998.

(** The loop over the fragments: [unHeadSize] is 14. *)
Fixpoint fragment_loop (fuel : nat) (mem : list Z) (ts unCount i pos unLeastSize : Z)
    (p : CRtpPacket) (seq : Z) : option (CRtpPacket * Z * list (list Z)) :=
  match fuel with
  | O => None
  | S fuel =>
    if i <? unCount then
      p ← SetHeader VIDEO_PT seq ts VIDEO_SSRC false p;
      let seq := u16 (seq + 1) in
      let unHeadSize := RTP_FIXED_HEADER_SIZE + 2 in
      let unCopySize := u32 (MAX_ENCAP_RTP_SIZE - unHeadSize) in
      '(p, unCopySize) ←
        (if unLeastSize <=? unCopySize
         then '(_, p) ← SetMarker true p; Some (p, unLeastSize)
         else Some (p, unCopySize));
      buf ← (if i =? 0 then set_bits (RTP_FIXED_HEADER_SIZE + 1) 7 1 1 (m_pRtpData p)
             else if i =? u32 (unCount - 1)
             then set_bits (RTP_FIXED_HEADER_SIZE + 1) 6 1 1 (m_pRtpData p)
             else Some (m_pRtpData p));
      src ← sub mem pos unCopySize;
      buf ← memcpy buf unHeadSize src;
      pkt ← sub buf 0 (unCopySize + unHeadSize);
      '(p, seq, pkts) ←
        fragment_loop fuel mem ts unCount (u32 (i + 1)) (pos + unCopySize)
          (u32 (unLeastSize - unCopySize)) (with_data buf p) seq;
      Some (p, seq, pkt :: pkts)
    else Some (p, seq, [])
  end.

(** Lines 104-177: the packets of the NAL unit of [nal_len] bytes at
    [nal_start]. The video path calls the handle unchecked. *)
Definition send_nal (mem : list Z) (nal_start nal_len ts : Z)
    : M CEsRtpEncap (list Z) unit := fun this =>
  '(_, p) ← GeneratePacket (Some (m_RtpBuffer this)) CRtpPacket_new;
  let unHeadSize := RTP_FIXED_HEADER_SIZE in
  let unCount := nal_len / (MAX_ENCAP_RTP_SIZE - unHeadSize) in
  let unCount := if negb (nal_len mod MAX_ENCAP_RTP_SIZE =? 0) then u32 (unCount + 1) else unCount in
  if negb (m_pEsRtpHandle this) then None
  else if 1 <? unCount then
    h ← rd mem nal_start;
    buf ← set_bits RTP_FIXED_HEADER_SIZE 0 5 28 (m_pRtpData p);
    buf ← set_bits RTP_FIXED_HEADER_SIZE 5 2 (nalu_NRI h) buf;
    buf ← set_bits RTP_FIXED_HEADER_SIZE 7 1 (nalu_F h) buf;
    buf ← set_bits (RTP_FIXED_HEADER_SIZE + 1) 0 5 (nalu_TYPE h) buf;
    '(p, seq, pkts) ←
      fragment_loop (S (Z.to_nat unCount)) mem ts unCount 0 (nal_start + 1) nal_len
        (with_data buf p) (m_usVideoRtpSeq this);
    Some (tt, with_video_rtp (m_pRtpData p) seq this, pkts)
  else
    p ← SetHeader VIDEO_PT (m_usVideoRtpSeq this) ts VIDEO_SSRC true p;
    src ← sub mem nal_start nal_len;
    buf ← memcpy (m_pRtpData p) unHeadSize src;
    pkt ← sub buf 0 (u32 (nal_len + unHeadSize));
    Some (tt, with_video_rtp buf (u16 (m_usVideoRtpSeq this + 1)) this, [pkt]).

Definition EsRtp_handleVideoEsStream (base : Z) (pEsData : option (list Z))
    (unDataSize unTimestamp ucStreamType : Z) : M CEsRtpEncap (list Z) unit :=
  match pEsData with
  | None => mret tt
  | Some mem =>
    if unDataSize =? 0 then mret tt
    else if negb (VIDEO_STREAM_TYPE_H264 =? ucStreamType) then mret tt
    else
      nal_start ← lift (h264_find_startcode base mem 0 unDataSize);
      if unDataSize <=? nal_start then mret tt
      else
        nal_start ← lift (skip_zeros (S (length mem)) mem nal_start);
        send_nal mem nal_start (u32 (unDataSize - u32 nal_start)) unTimestamp
  end.

(** The loop [while (0 < unLeastSize)] of the audio path; the handle is
    checked for every packet. *)
Fixpoint audio_loop (fuel : nat) (mem : list Z) (ts : Z) (handle : bool) (pos unLeastSize : Z)
    (p : CRtpPacket) (seq : Z) : option (CRtpPacket * Z * list (list Z)) :=
  match fuel with
  | O => None
  | S fuel =>
    if 0 <? unLeastSize then
      p ← SetHeader AUDIO_PT seq ts AUDIO_SSRC false p;
      let seq := u16 (seq + 1) in
      let unCopySize := MAX_ENCAP_RTP_SIZE - RTP_FIXED_HEADER_SIZE in
      '(p, unCopySize) ←
        (if unLeastSize <=? unCopySize
         then '(_, p) ← SetMarker true p; Some (p, unLeastSize)
         else Some (p, unCopySize));
      src ← sub mem pos unCopySize;
      buf ← memcpy (m_pRtpData p) RTP_FIXED_HEADER_SIZE src;
      pkt ← sub buf 0 (unCopySize + RTP_FIXED_HEADER_SIZE);
      '(p, seq, pkts) ←
        audio_loop fuel mem ts handle (pos + unCopySize) (unLeastSize - unCopySize)
          (with_data buf p) seq;
      Some (p, seq, (if handle then [pkt] else []) ++ pkts)
    else Some (p, seq, [])
  end.

Definition EsRtp_handleAudioEsStream (base : Z) (pEsData : option (list Z))
    (unDataSize unTimestamp ucStreamType : Z) : M CEsRtpEncap (list Z) unit := fun this =>
  '(_, p) ← GeneratePacket (Some (m_RtpBuffer this)) CRtpPacket_new;
  '(p, seq, pkts) ←
    audio_loop (S (Z.to_nat unDataSize)) (default [] pEsData) unTimestamp (m_pEsRtpHandle this)
      0 unDataSize p (m_usAudioRtpSeq this);
  Some (tt, with_audio_rtp (m_pRtpData p) seq this, pkts).

#[export] Instance EsRtp_handle : CMpegPsDecHandle CEsRtpEncap (list Z) := {|
  handleVideoEsStream := EsRtp_handleVideoEsStream;
  handleAudioEsStream := EsRtp_handleAudioEsStream |}.

(** The loop of [handleVideoMulNaluStream]: [drop] moves the pointer. *)
Fixpoint nalu_loop (fuel : nat) (base : Z) (mem : list Z) (buf_end ts st nal_start : Z)
    : M CEsRtpEncap (list Z) Z :=
  match fuel with
  | O => fault
  | S fuel =>
    if nal_start <? buf_end then
      new_nal_start ← lift (h264_find_startcode base mem (nal_start + STARTCODE_LEN) buf_end);
      if buf_end <=? new_nal_start then mret nal_start
      else
        EsRtp_handleVideoEsStream (base + nal_start) (Some (drop (Z.to_nat nal_start) mem))
          (u32 (new_nal_start - nal_start)) ts st;;
        nalu_loop fuel base mem buf_end ts st new_nal_start
    else mret nal_start
  end.

Definition handleVideoMulNaluStream (base : Z) (mem : list Z) (unDataSize ts st : Z)
    : M CEsRtpEncap (list Z) unit :=
  nal_start ← lift (h264_find_startcode base mem 0 unDataSize);
  if unDataSize <=? nal_start then mret tt
  else
    nal_start ← nalu_loop (S (Z.to_nat unDataSize)) base mem unDataSize ts st nal_start;
    EsRtp_handleVideoEsStream (base + nal_start) (Some (drop (Z.to_nat nal_start) mem))
      (u32 (unDataSize - nal_start)) ts st.

(** The calls of the decoder, made on its handler. The frame is in the
    decoder's zeroed buffer of 1 MiB at address [base]. *)
Definition deliver_es {S E : Type} `{CMpegPsDecHandle S E} (base : Z) (e : es_event) : M S E unit :=
  let mem := fun es => Some (es ++ replicate (Z.to_nat (MAX_BUFFER_LEN - zlen es)) 0) in
  match e with
  | EsVideo es ts st => handleVideoEsStream base (mem es) (zlen es) ts st
  | EsAudio es ts st => handleAudioEsStream base (mem es) (zlen es) ts st
  end.

Definition insertPSFrame (fuel : nat) (base : Z) (pData : option (list Z)) (unTimestamp : Z)
    : M CEsRtpEncap (list Z) SVS_RET_CODE :=
  match writePsStream fuel true pData unTimestamp with
  | Ret (_, evs) => foldr (fun e k => deliver_es base e;; k) (mret RET_OK) evs
  | Fault | OutOfFuel => fault
  end.

(** ** The search finds the first start code *)

Definition is_code (mem : list Z) (q : Z) : Prop :=
  rd mem q = Some 0 /\ rd mem (q + 1) = Some 0 /\ rd mem (q + 2) = Some 1.
Definition no_code (mem : list Z) (p q : Z) : Prop := forall r, p <= r < q -> ~ is_code mem r.

(** The first start code of [p, lim), or [end_]. *)
Definition first_code (mem : list Z) (p lim end_ r : Z) : Prop :=
  p <= r < lim /\ is_code mem r /\ no_code mem p r \/ r = end_ /\ no_code mem p lim.

Lemma rd_total_Z mem p : 0 <= p < zlen mem -> exists b, rd mem p = Some b.
Proof. intros H. by destruct (rd_is_Some mem p H) as [b Hb]; exists b. Qed.

Lemma code_at_spec mem p : 0 <= p -> p + 2 < zlen mem ->
  exists c, code_at mem p = Some c /\ (c = true <-> is_code mem p).
Proof.
  intros Hp Hl. unfold code_at, is_code.
  destruct (rd_total_Z mem p) as [b0 ->]; [lia|]. destruct (rd_total_Z mem (p + 1)) as [b1 ->]; [lia|].
  destruct (rd_total_Z mem (p + 2)) as [b2 ->]; [lia|]. cbn.
  destruct (Z.eqb_spec b0 0) as [->|]; cbn; [|eexists; split; [done|split; [done|intros (? & ? & ?); by simplify_eq]]].
  destruct (Z.eqb_spec b1 0) as [->|]; cbn; [|eexists; split; [done|split; [done|intros (? & ? & ?); by simplify_eq]]].
  eexists. split; [done|]. rewrite Z.eqb_eq. split; [by intros ->|]. intros (_ & _ & ?). by simplify_eq.
Qed.

Lemma no_code_step mem p q : ~ is_code mem p -> no_code mem (p + 1) q -> no_code mem p q.
Proof. intros Hp Hq r Hr. destruct (decide (r = p)) as [->|?]; [done|]. apply Hq. lia. Qed.

Lemma no_code_app mem p q r : no_code mem p q -> no_code mem q r -> no_code mem p r.
Proof. intros H1 H2 x Hx. destruct (Z.lt_ge_cases x q); [apply H1|apply H2]; lia. Qed.

Lemma no_code_empty mem p q : q <= p -> no_code mem p q.
Proof. intros H r Hr. lia. Qed.

Definition found (mem : list Z) (p lim : Z) (past : Z -> Prop) (r : Z + Z) : Prop :=
  match r with
  | inl q => p <= q < lim /\ is_code mem q /\ no_code mem p q
  | inr q => past q /\ no_code mem p q
  end.

Lemma find_bytes_spec mem lim fuel : forall p, 0 <= p -> lim + 2 <= zlen mem ->
  Z.max 0 (lim - p) < Z.of_nat fuel ->
  exists r, find_bytes fuel mem p lim = Some r /\ found mem p lim (eq (Z.max p lim)) r.
Proof.
  induction fuel as [|fuel IH]; intros p Hp Hl Hf.
  { lia. }
  cbn [find_bytes]. destruct (Z.ltb_spec p lim).
  - destruct (code_at_spec mem p) as (c & -> & Hc); [lia..|]. cbn [mbind option_bind]. destruct c.
    + eexists. split; [done|]. split; [lia|]. split; [tauto|by apply no_code_empty].
    + assert (~ is_code mem p) as Hn by (intros ?%Hc; done).
      destruct (IH (p + 1)) as (r & -> & Hr); [lia..|]. exists r. split; [done|].
      destruct r as [q|q]; cbn in Hr |- *.
      * destruct Hr as (? & ? & ?). split; [lia|]. split; [done|by apply no_code_step].
      * destruct Hr as (<- & ?). split; [lia|by apply no_code_step].
  - eexists. split; [done|]. split; [lia|by apply no_code_empty].
Qed.

(** *** The word test *)

Lemma has_zero_at x k : 0 <= k <= 3 -> x / 256 ^ k mod 256 = 0 ->
  u32 (x - 0x01010101) / 256 ^ k mod 256 = 255 -> has_zero x = true.
Proof.
  intros Hk Hx Hy. unfold has_zero. set (y := u32 _) in *. apply negb_true_iff, Z.eqb_neq. intros H.
  assert (Z.testbit (Z.land (Z.land y (Z.lnot x)) 0x80808080) (8 * k + 7) = false) as Hb
    by (rewrite H; apply Z.bits_0).
  assert (forall z, Z.testbit z (8 * k + 7) = Z.testbit (z / 256 ^ k mod 256) 7) as Ht.
  { intros z. change 256 with (2 ^ 8). rewrite <-Z.pow_mul_r, Z.mod_pow2_bits_low by lia.
    rewrite Z.div_pow2_bits by lia. f_equal. lia. }
  rewrite !Z.land_spec, Z.lnot_spec, !Ht, Hx, Hy in Hb by lia.
  assert (0x80808080 / 256 ^ k mod 256 = 128) as E.
  { assert (k = 0 \/ k = 1 \/ k = 2 \/ k = 3) as [->|[->|[->| ->]]] by lia; reflexivity. }
  by rewrite E in Hb.
Qed.

Lemma has_zero_complete b0 b1 b2 b3 :
  is_byte b0 -> is_byte b1 -> is_byte b2 -> is_byte b3 ->
  b0 = 0 \/ b1 = 0 \/ b2 = 0 \/ b3 = 0 -> has_zero (le32 b0 b1 b2 b3) = true.
Proof.
  unfold fits, le32. change (2 ^ 8) with 256. intros H0 H1 H2 H3 H.
  destruct (decide (b0 = 0)) as [->|]; [apply (has_zero_at _ 0); [lia|..]|].
  { change (256 ^ 0) with 1. lia. }
  { unfold u32, wrap. change (256 ^ 0) with 1. change (2 ^ 32) with 4294967296. lia. }
  destruct (decide (b1 = 0)) as [->|]; [apply (has_zero_at _ 1); [lia|..]|].
  { change (256 ^ 1) with 256. lia. }
  { unfold u32, wrap. change (256 ^ 1) with 256. change (2 ^ 32) with 4294967296. lia. }
  destruct (decide (b2 = 0)) as [->|]; [apply (has_zero_at _ 2); [lia|..]|].
  { change (256 ^ 2) with 65536. lia. }
  { unfold u32, wrap. change (256 ^ 2) with 65536. change (2 ^ 32) with 4294967296. lia. }
  destruct (decide (b3 = 0)) as [->|]; [apply (has_zero_at _ 3); [lia|..]|lia].
  { change (256 ^ 3) with 16777216. lia. }
  { unfold u32, wrap. change (256 ^ 3) with 16777216. change (2 ^ 32) with 4294967296. lia. }
Qed.

Lemma find_in_word_spec mem p : bytes_ok mem -> 0 <= p -> p + 5 < zlen mem ->
  exists r, find_in_word mem p = Some r /\
    match r with
    | Some q => p <= q < p + 4 /\ is_code mem q /\ no_code mem p q
    | None => no_code mem p (p + 4)
    end.
Proof.
  intros Hb Hp Hl. unfold find_in_word.
  destruct (rd_total_Z mem p) as [b0 E0]; [lia|]. destruct (rd_total_Z mem (p + 1)) as [b1 E1]; [lia|].
  destruct (rd_total_Z mem (p + 2)) as [b2 E2]; [lia|]. destruct (rd_total_Z mem (p + 3)) as [b3 E3]; [lia|].
  destruct (rd_total_Z mem (p + 4)) as [b4 E4]; [lia|]. destruct (rd_total_Z mem (p + 5)) as [b5 E5]; [lia|].
  assert ((is_code mem p <-> b0 = 0 /\ b1 = 0 /\ b2 = 1) /\
    (is_code mem (p + 1) <-> b1 = 0 /\ b2 = 0 /\ b3 = 1) /\
    (is_code mem (p + 2) <-> b2 = 0 /\ b3 = 0 /\ b4 = 1) /\
    (is_code mem (p + 3) <-> b3 = 0 /\ b4 = 0 /\ b5 = 1)) as (C0 & C1 & C2 & C3).
  { unfold is_code. replace (p + 1 + 1) with (p + 2) by lia. replace (p + 1 + 2) with (p + 3) by lia.
    replace (p + 2 + 1) with (p + 3) by lia. replace (p + 2 + 2) with (p + 4) by lia.
    replace (p + 3 + 1) with (p + 4) by lia. replace (p + 3 + 2) with (p + 5) by lia.
    rewrite E0, E1, E2, E3, E4, E5. clear.
    split; [|split; [|split]]; split;
      solve [intros (? & ? & ?); by simplify_eq | by intros (-> & -> & ->)]. }
  rewrite E0, E1, E2, E3. cbn [mbind option_bind].
  assert (forall n, 0 <= n <= 4 -> (forall k, 0 <= k < n -> ~ is_code mem (p + k)) ->
    no_code mem p (p + n)) as Hno.
  { intros n Hn H r Hr. replace r with (p + (r - p)) by lia. apply H. lia. }
  assert (forall k, 0 <= k < 4 -> k = 0 \/ k = 1 \/ k = 2 \/ k = 3) as Hk by lia.
  rewrite <-(Z.add_0_r p) in C0.
  destruct (has_zero _) eqn:Hz; cbn [mbind option_bind].
  2: { eexists. split; [done|]. apply (Hno 4); [lia|].
    assert (~ (b0 = 0 \/ b1 = 0 \/ b2 = 0 \/ b3 = 0)) as Hnz.
    { intros H. rewrite (has_zero_complete b0 b1 b2 b3) in Hz; [done|..|done]; by eapply rd_byte. }
    intros k [->|[->|[->| ->]]]%Hk; tauto. }
  destruct (Z.eqb_spec b1 0), (Z.eqb_spec b0 0), (Z.eqb_spec b2 1); cbn [andb].
  1: { eexists. split; [done|]. split; [lia|]. split; [rewrite Z.add_0_r in C0; tauto|].
       by apply no_code_empty. }
  all: destruct (Z.eqb_spec b2 0), (Z.eqb_spec b3 1); cbn [andb]; try lia.
  all: try (eexists; split; [done|]; split; [lia|]; split; [tauto|]; apply (Hno 1); [lia|];
    intros k Hk1; assert (k = 0) as -> by lia; tauto).
  all: destruct (Z.eqb_spec b3 0); [|eexists; split; [done|]; apply (Hno 4); [lia|];
    intros k [->|[->|[->| ->]]]%Hk; rewrite ?C0, ?C1, ?C2, ?C3; lia].
  all: rewrite E4; cbn [mbind option_bind].
  all: destruct (Z.eqb_spec b4 1); cbn [andb].
  all: try (eexists; split; [done|]; split; [lia|]; split; [tauto|]; apply (Hno 2); [lia|];
    intros k Hk1; assert (k = 0 \/ k = 1) as [->| ->] by lia; rewrite ?C0, ?C1; lia).
  all: destruct (Z.eqb_spec b4 0); cbn [andb]; try lia.
  all: rewrite ?E5; cbn [mbind option_bind].
  all: try (destruct (Z.eqb_spec b5 1);
    [eexists; split; [done|]; split; [lia|]; split; [tauto|]; apply (Hno 3); [lia|];
     intros k Hk1; assert (k = 0 \/ k = 1 \/ k = 2) as [->|[->| ->]] by lia;
     rewrite ?C0, ?C1, ?C2; lia|]).
  all: eexists; split; [done|]; apply (Hno 4); [lia|];
    intros k [->|[->|[->| ->]]]%Hk; rewrite ?C0, ?C1, ?C2, ?C3; lia.
Qed.

Lemma find_words_spec mem lim fuel : bytes_ok mem -> forall p, 0 <= p -> lim + 5 <= zlen mem ->
  Z.max 0 (lim - p) < Z.of_nat fuel ->
  exists r, find_words fuel mem p lim = Some r /\
    found mem p (lim + 3) (fun q => p <= q /\ lim <= q <= Z.max p (lim + 3)) r.
Proof.
  intros Hb. induction fuel as [|fuel IH]; intros p Hp Hl Hf; [lia|].
  cbn [find_words]. destruct (Z.ltb_spec p lim).
  - destruct (find_in_word_spec mem p Hb) as (r & -> & Hr); [lia..|].
    cbn [mbind option_bind]. destruct r as [q|].
    + eexists. split; [done|]. destruct Hr as (? & ? & ?). split; [lia|done].
    + destruct (IH (p + 4)) as (r & -> & Hr'); [lia..|]. exists r. split; [done|].
      destruct r as [q|q]; cbn in Hr' |- *.
      * destruct Hr' as (? & ? & ?). split; [lia|]. split; [done|].
        by apply (no_code_app mem p (p + 4)).
      * destruct Hr' as (? & ?). split; [lia|]. by apply (no_code_app mem p (p + 4)).
  - eexists. split; [done|]. split; [lia|by apply no_code_empty].
Qed.

Lemma h264_find_startcode_internal_spec base mem p n : bytes_ok mem -> 0 <= p -> n <= zlen mem ->
  exists r, h264_find_startcode_internal base mem p n = Some r /\ first_code mem p (n - 3) n r.
Proof.
  intros Hb Hp Hn. unfold h264_find_startcode_internal. set (fuel := S _).
  assert (Z.max 0 (n - p) < Z.of_nat fuel) as Hfuel by lia.
  pose proof (Z.land_nonneg (base + p) 3).
  destruct (find_bytes_spec mem (Z.min (p + 4 - Z.land (base + p) 3) (n - 3)) fuel p)
    as (r1 & -> & H1); [lia..|]. cbn [mbind option_bind]. unfold first_code.
  destruct r1 as [q|q1]; cbn in H1.
  { exists q. split; [done|]. left. destruct H1 as (? & ? & ?). split; [lia|done]. }
  destruct H1 as [Eq1 H1].
  destruct (find_words_spec mem (n - 3 - 3) fuel Hb q1) as (r2 & -> & H2); [lia..|].
  cbn [mbind option_bind]. destruct r2 as [q|q2]; cbn in H2.
  { exists q. split; [done|]. left. destruct H2 as (? & ? & ?). split; [lia|].
    split; [done|]. by apply (no_code_app mem p q1). }
  destruct H2 as [Hq2 H2]. replace (n - 3 - 3 + 3) with (n - 3) in * by lia.
  destruct (find_bytes_spec mem (n - 3) fuel q2) as (r3 & -> & H3); [lia..|].
  cbn [mbind option_bind]. destruct r3 as [q|q3]; cbn in H3.
  - exists q. split; [done|]. left. destruct H3 as (? & ? & ?). split; [lia|]. split; [done|].
    apply (no_code_app mem p q1); [done|]. by apply (no_code_app mem q1 q2).
  - exists (n - 3 + 3). split; [done|]. right. split; [lia|]. destruct H3 as [<- H3].
    apply (no_code_app mem p q1); [done|]. apply (no_code_app mem q1 q2); [done|].
    intros r Hr. apply H3. lia.
Qed.

Lemma first_code_fun mem p lim n r r' : first_code mem p lim n r -> first_code mem p lim n r' ->
  lim <= n -> r = r'.
Proof.
  unfold first_code. intros [(? & Hc & Hn)|[-> Hn]] [(? & Hc' & Hn')|[-> Hn']] ?.
  - destruct (Z.lt_total r r') as [?|[?|?]]; [exfalso; apply (Hn' r); [lia|done]|done|].
    exfalso. apply (Hn r'); [lia|done].
  - exfalso. apply (Hn' r); [lia|done].
  - exfalso. apply (Hn r'); [lia|done].
  - done.
Qed.

(** Whether the frame begins with a start code: 00 00 01 or 00 00 00 01. *)
Lemma find_prefix base zeros rest n : let mem := zeros ++ [1] ++ rest in
  bytes_ok mem -> zeros = [0; 0] \/ zeros = [0; 0; 0] -> zlen (zeros ++ [1]) < n <= zlen mem ->
  exists s, h264_find_startcode base mem 0 n = Some s /\ s < n /\
    skip_zeros (S (length mem)) mem s = Some (zlen (zeros ++ [1])).
Proof.
  intros mem Hb Hz Hn.
  destruct (h264_find_startcode_internal_spec base mem 0 n Hb) as (r & Hr & Hf); [lia..|].
  unfold h264_find_startcode. rewrite Hr. cbn [mbind option_bind].
  unfold mem in *. clear mem. destruct Hz as [->| ->]; cbn [length app] in *; autorewrite with zlen in Hn.
  - assert (r = 0) as ->.
    { eapply first_code_fun; [exact Hf| |lia]. left. split; [lia|]. split; [done|].
      apply no_code_empty. lia. }
    exists 0. split; [done|]. split; [lia|]. done.
  - assert (r = 1) as ->.
    { eapply first_code_fun; [exact Hf| |lia]. left. split; [lia|]. split; [done|].
      intros q Hq. assert (q = 0) as -> by lia. by intros (_ & _ & ?). }
    rewrite (proj2 (Z.ltb_lt 1 n)) by lia. cbn. exists 0. split; [done|]. split; [lia|]. done.
Qed.

(** ** The packets of a NAL unit *)

(** What fragment [i] of [C] is: FU-A with the start bit in every fragment and
    the end bit in the last one. *)
Definition es_fu_header (h C i : Z) : Z :=
  h mod 32 + 128 + (if (0 <? i) && (i =? C - 1) then 64 else 0).
Definition es_fragment (h C i : Z) (c : list Z) : list Z :=
  fu_indicator h :: es_fu_header h C i :: c.

(** Marker and payload of the first [C] fragments; the marker is set on the
    fragment that takes the last byte. *)
Fixpoint es_spec (h C i : Z) (cs : list (list Z)) : list (bool * list Z) :=
  match cs with
  | [] => []
  | c :: cs =>
    if i <? C
    then (match cs with [] => true | _ => false end, es_fragment h C i c) :: es_spec h C (i + 1) cs
    else []
  end.

Lemma es_indicator h : is_byte h ->
  set_field 7 1 (set_field 5 2 (set_field 0 5 0 28) (nalu_NRI h)) (nalu_F h) = fu_indicator h.
Proof.
  intros Hh. apply Z.eqb_eq.
  apply (forall_fits 8 (fun h => set_field 7 1 (set_field 5 2 (set_field 0 5 0 28) (nalu_NRI h))
    (nalu_F h) =? fu_indicator h) h Hh). by vm_compute.
Qed.

Lemma es_type h : is_byte h -> set_field 0 5 0 (nalu_TYPE h) = h mod 32.
Proof.
  intros Hh. apply Z.eqb_eq.
  apply (forall_fits 8 (fun h => set_field 0 5 0 (nalu_TYPE h) =? h mod 32) h Hh). by vm_compute.
Qed.

Lemma es_flags h : is_byte h ->
  set_field 7 1 (h mod 32) 1 = h mod 32 + 128 /\
  set_field 6 1 (h mod 32 + 128) 1 = h mod 32 + 128 + 64.
Proof.
  intros Hh. rewrite <-!Z.eqb_eq, <-andb_true_iff.
  apply (forall_fits 8 (fun h => (set_field 7 1 (h mod 32) 1 =? h mod 32 + 128) &&
    (set_field 6 1 (h mod 32 + 128) 1 =? h mod 32 + 128 + 64)) h Hh). by vm_compute.
Qed.

(** The header byte before turn [i], and the flag the turn sets. *)
Definition fu_before (h i : Z) : Z := if i =? 0 then h mod 32 else h mod 32 + 128.

Lemma flag_store h C i d I rest : is_byte h -> 2 <= C -> 0 <= i < C -> C < 2 ^ 32 ->
  drop 12 d = I :: fu_before h i :: rest -> 12 <= zlen d ->
  (if i =? 0 then set_bits 13 7 1 1 d
   else if i =? u32 (C - 1) then set_bits 13 6 1 1 d else Some d)
    = Some (take 12 d ++ I :: es_fu_header h C i :: rest).
Proof.
  intros Hh HC Hi HC2 Hd Hl. destruct (es_flags h Hh) as [F7 F6].
  assert (d = (take 12 d ++ [I]) ++ fu_before h i :: rest) as Ed.
  { rewrite <-(take_drop 12 d) at 1. by rewrite Hd, <-app_assoc. }
  assert (zlen (take 12 d ++ [I]) = 13) as H13 by zl.
  unfold u32. rewrite (wrap_small 32 (C - 1)) by solve_fits.
  unfold es_fu_header, fu_before in *. destruct (Z.eqb_spec i 0) as [->|].
  - rewrite Ed at 1. rewrite (set_bits_at _ _ 13) by done. rewrite F7, <-app_assoc.
    cbn [Z.ltb Z.compare andb]. by rewrite Z.add_0_r.
  - rewrite (proj2 (Z.ltb_lt 0 i)) by lia. cbn [andb]. destruct (Z.eqb_spec i (C - 1)).
    + rewrite Ed at 1. rewrite (set_bits_at _ _ 13) by done. by rewrite F6, <-app_assoc.
    + rewrite Ed at 1. by rewrite <-app_assoc, Z.add_0_r.
Qed.

Lemma es_fu_header_next h C i : 0 <= i -> i + 1 < C -> es_fu_header h C i = fu_before h (i + 1).
Proof.
  intros. unfold es_fu_header, fu_before.
  rewrite (proj2 (Z.eqb_neq i (C - 1))), (proj2 (Z.eqb_neq (i + 1) 0)), andb_false_r by lia. lia.
Qed.

Lemma sub_Some' mem pos n : 0 <= pos -> 0 <= n -> pos + n <= zlen mem ->
  sub mem pos n = Some (take (Z.to_nat n) (drop (Z.to_nat pos) mem)) /\
  zlen (take (Z.to_nat n) (drop (Z.to_nat pos) mem)) = n.
Proof. intros. split; [by apply sub_Some|]. zl. Qed.

(** The store of one fragment behind its header. *)
Lemma fragment_store p d seq ts m I H rest c : rtp_object p -> zlen d = STREAM_MSG_BLOCK_SIZE ->
  fields_of d = Some (stream_fields VIDEO_PT VIDEO_SSRC seq ts m) ->
  zlen (take 12 d ++ I :: H :: rest) = STREAM_MSG_BLOCK_SIZE -> zlen c <= 2034 ->
  exists buf rest', memcpy (take 12 d ++ I :: H :: rest) 14 c = Some buf /\
    drop 12 buf = I :: H :: rest' /\ rtp_object (with_data buf p) /\
    sub buf 0 (zlen c + 14) = Some (take (Z.to_nat (zlen c + 14)) buf) /\
    packet_is VIDEO_PT VIDEO_SSRC seq ts m (I :: H :: c) (take (Z.to_nat (zlen c + 14)) buf).
Proof.
  intros Hp Hz Hf Hz' Hc. unfold STREAM_MSG_BLOCK_SIZE in *. pose proof (zlen_nonneg c).
  assert (zlen (take 12 d) = 12) as H12 by zl.
  assert (zlen rest = 2034) as Hr by zl.
  exists ((take 12 d ++ [I; H]) ++ c ++ drop (length c) rest), (c ++ drop (length c) rest).
  set (buf := (take 12 d ++ [I; H]) ++ c ++ drop (length c) rest).
  assert (memcpy (take 12 d ++ I :: H :: rest) 14 c = Some buf) as Hm.
  { change (I :: H :: rest) with ([I; H] ++ rest). rewrite app_assoc. apply memcpy_at; zl. }
  assert (drop 12 buf = I :: H :: c ++ drop (length c) rest) as Hd.
  { unfold buf. rewrite <-!app_assoc. apply drop_app_length'. symmetry. by apply length_zlen. }
  assert (fields_of buf = Some (stream_fields VIDEO_PT VIDEO_SSRC seq ts m)) as Hb.
  { rewrite (fields_of_memcpy _ 14 _ _ ltac:(done) Hm), <-Hf.
    rewrite <-(fields_of_take (take 12 d ++ I :: H :: rest) 12), <-(fields_of_take d 12) by done.
    f_equal. change (Z.to_nat 12) with 12%nat. apply take_app_length'. symmetry. by apply length_zlen. }
  assert (zlen buf = 2048) as Hbz by (rewrite (memcpy_length _ _ _ _ Hm); done).
  split; [done|]. split; [done|]. split; [by eapply rtp_object_data; [exact Hp| |exact Hb]|].
  split; [by rewrite sub_Some by lia|].
  replace (zlen c + 14) with (12 + zlen (I :: H :: c)) by (rewrite !zlen_cons; lia).
  eapply (packet_cut _ _ _ _ _ _ (I :: H :: c)); [exact Hb|exact Hd|lia].
Qed.

Lemma fragment_turn fuel mem ts C i pos least p seq h rest :
  rtp_object p -> is_byte h -> fits 16 seq -> fits 32 ts -> 2 <= C -> 0 <= i < C -> C < 2 ^ 32 ->
  drop 12 (m_pRtpData p) = fu_indicator h :: fu_before h i :: rest ->
  0 < least < 2 ^ 32 -> 0 <= pos -> pos + least <= zlen mem ->
  let n := Z.min 1404 least in
  let c := take (Z.to_nat n) (drop (Z.to_nat pos) mem) in
  exists p' pkt rest',
    packet_is VIDEO_PT VIDEO_SSRC seq ts (least <=? 1404) (es_fragment h C i c) pkt /\
    rtp_object p' /\
    drop 12 (m_pRtpData p') = fu_indicator h :: es_fu_header h C i :: rest' /\
    fragment_loop (S fuel) mem ts C i pos least p seq =
      '(q, seq, pkts) ←
        fragment_loop fuel mem ts C (i + 1) (pos + n) (least - n) p' (u16 (seq + 1));
      Some (q, seq, pkt :: pkts).
Proof.
  intros Hp Hh Hseq Hts HC Hi HC2 Hd Hl Hpos Hmem n c.
  destruct (header_step VIDEO_PT VIDEO_SSRC p seq ts (least <=? 1404) Hp ltac:(done) ltac:(done) Hseq Hts)
    as (d & E & Hf & Hz & Hd'). rewrite Hd in Hd'.
  assert (12 <= zlen d) as H12 by (rewrite Hz; done).
  pose proof (flag_store h C i d _ rest Hh HC Hi HC2 Hd' H12) as Hflag.
  destruct (sub_Some' mem pos n) as [Hs Hc]; [lia..|]. fold c in Hs, Hc.
  destruct (fragment_store p d seq ts (least <=? 1404) (fu_indicator h) (es_fu_header h C i) rest c)
    as (buf & rest' & Hm & Hb & Hob & Hsub & Hpk); [done|done|done| |lia|].
  { rewrite zlen_app, !zlen_cons. rewrite <-(take_drop 12 d) in Hz.
    rewrite Hd', zlen_app, !zlen_cons in Hz. exact Hz. }
  exists (with_data buf p), (take (Z.to_nat (zlen c + 14)) buf), rest'.
  split; [exact Hpk|]. split; [done|]. split; [done|]. cbn [fragment_loop].
  rewrite (proj2 (Z.ltb_lt i C)) by lia.
  destruct (SetHeader VIDEO_PT seq ts VIDEO_SSRC false p) as [p1|]; [|done].
  cbn [mbind option_bind] in E |- *.
  change (u32 (MAX_ENCAP_RTP_SIZE - (RTP_FIXED_HEADER_SIZE + 2))) with 1404.
  change (RTP_FIXED_HEADER_SIZE + 2) with 14. change (RTP_FIXED_HEADER_SIZE + 1) with 13.
  assert ((if least <=? 1404 then '(_, p) ← SetMarker true p1; Some (p, least) else Some (p1, 1404))
    = Some (with_data d p, n)) as ->.
  { unfold n. destruct (Z.leb_spec least 1404).
    - rewrite Z.min_r by lia. destruct (SetMarker true p1) as [[r p2]|]; [|done]. by injection E as ->.
    - rewrite Z.min_l by lia. by injection E as ->. }
  cbn [mbind option_bind]. change (m_pRtpData (with_data d p)) with d. rewrite Hflag, Hs.
  cbn [mbind option_bind]. rewrite Hm. cbn [mbind option_bind]. rewrite <-Hc, Hsub.
  unfold u32. rewrite !wrap_small by solve_fits. done.
Qed.

Lemma es_spec_end h C cs : es_spec h C C cs = [].
Proof. destruct cs; [done|]. cbn. by rewrite Z.ltb_irrefl. Qed.

(** The [L] bytes from [pos] on, in pieces. *)
Definition bytes_at (mem : list Z) (pos L : Z) : list Z := take (Z.to_nat L) (drop (Z.to_nat pos) mem).
Definition fragments_at (mem : list Z) (pos L : Z) : list (list Z) :=
  chunks 1404 (Z.to_nat L) (bytes_at mem pos L).

Lemma zlen_bytes_at mem pos L : 0 <= pos -> 0 <= L -> pos + L <= zlen mem ->
  zlen (bytes_at mem pos L) = L.
Proof. intros. unfold bytes_at. zl. Qed.

Lemma bytes_at_split mem pos n L : 0 <= pos -> 0 <= n <= L ->
  bytes_at mem pos L = bytes_at mem pos n ++ bytes_at mem (pos + n) (L - n).
Proof.
  intros Hp Hn. unfold bytes_at.
  replace (Z.to_nat L) with (Z.to_nat n + Z.to_nat (L - n))%nat by lia.
  rewrite <-take_take_drop, drop_drop. do 3 f_equal. lia.
Qed.

Lemma fragments_at_cons mem pos L : 1404 < L -> 0 <= pos -> pos + L <= zlen mem ->
  fragments_at mem pos L = bytes_at mem pos 1404 :: fragments_at mem (pos + 1404) (L - 1404).
Proof.
  intros HL Hp Hm. unfold fragments_at. pose proof (zlen_bytes_at mem pos L ltac:(lia) ltac:(lia) Hm).
  replace (Z.to_nat L) with (S (Z.to_nat L - 1)) by lia. rewrite chunks_cons by lia.
  pose proof (zlen_bytes_at mem pos 1404 ltac:(lia) ltac:(lia) ltac:(lia)) as H1.
  rewrite (bytes_at_split mem pos 1404 L) by lia.
  assert (length (bytes_at mem pos 1404) = Z.to_nat 1404) as Hl by (unfold zlen in H1; lia).
  rewrite <-Hl at 1. rewrite take_app_length. rewrite <-Hl at 1. rewrite drop_app_length. f_equal.
  pose proof (zlen_bytes_at mem (pos + 1404) (L - 1404) ltac:(lia) ltac:(lia) ltac:(lia)) as H2.
  apply chunks_fuel; [lia|unfold zlen in H2; lia..|]. intros E. rewrite E, zlen_nil in H2. lia.
Qed.

Lemma fragments_at_last mem pos L : 0 < L <= 1404 -> 0 <= pos -> pos + L <= zlen mem ->
  fragments_at mem pos L = [bytes_at mem pos L].
Proof.
  intros HL Hp Hm. unfold fragments_at. replace (Z.to_nat L) with (S (Z.to_nat L - 1)) by lia.
  apply chunks_last. rewrite zlen_bytes_at; lia.
Qed.

Lemma fragments_at_ne mem pos L : 0 < L -> fragments_at mem pos L <> [].
Proof. intros. apply chunks_ne. lia. Qed.

Lemma fragment_loop_spec h mem ts C fuel : is_byte h -> fits 32 ts -> 2 <= C < 2 ^ 32 ->
  forall i pos least p seq rest, rtp_object p -> fits 16 seq -> 0 <= i < C ->
  drop 12 (m_pRtpData p) = fu_indicator h :: fu_before h i :: rest ->
  (C - i - 1) * 1404 < least < 2 ^ 32 -> 0 <= pos -> pos + least <= zlen mem ->
  C - i < Z.of_nat fuel ->
  exists q pkts, fragment_loop fuel mem ts C i pos least p seq = Some (q, u16 (seq + zlen pkts), pkts) /\
    rtp_object q /\
    packets_are VIDEO_PT VIDEO_SSRC seq ts (es_spec h C i (fragments_at mem pos least)) pkts.
Proof.
  intros Hh Hts HC. induction fuel as [|fuel IH]; intros i pos least p seq rest Hp Hseq Hi Hd Hl Hpos Hm Hf;
    [lia|].
  destruct (fragment_turn fuel mem ts C i pos least p seq h rest)
    as (p' & pkt & rest' & Hpk & Hp' & Hd' & ->); [done..|lia|lia|lia|done|nia|lia|lia|].
  set (n := Z.min 1404 least) in *.
  assert (u16 (seq + 1) = u16 (seq + zlen [pkt])) as Hu by done.
  assert (exists e cs, fragments_at mem pos least = bytes_at mem pos n :: cs /\
    (least <=? 1404) = e /\ e = match cs with [] => true | _ => false end /\
    (1404 < least -> cs = fragments_at mem (pos + 1404) (least - 1404))) as (e & cs & Ec & He & He' & Hcs).
  { unfold n. destruct (Z.leb_spec least 1404).
    - rewrite Z.min_r by lia. exists true, []. rewrite fragments_at_last by nia. split; [done|].
      split; [done|]. split; [done|lia].
    - rewrite Z.min_l, fragments_at_cons by lia. eexists false, _. split; [done|]. split; [done|].
      pose proof (fragments_at_ne mem (pos + 1404) (least - 1404) ltac:(lia)).
      split; [by destruct (fragments_at _ _ _)|done]. }
  rewrite Ec. cbn [es_spec]. rewrite (proj2 (Z.ltb_lt i C)), <-He', <-He by lia.
  destruct (Z.eq_dec (i + 1) C) as [HiC|HiC].
  - destruct fuel as [|fuel]; [lia|]. cbn [fragment_loop]. rewrite HiC, Z.ltb_irrefl.
    cbn [mbind option_bind]. exists p', [pkt]. split; [done|]. split; [done|].
    rewrite es_spec_end. by split.
  - assert (1404 < least) as Hbig by nia. assert (n = 1404) as En by lia. rewrite En in *.
    destruct (IH (i + 1) (pos + 1404) (least - 1404) p' (u16 (seq + 1)) rest')
      as (q & pkts & -> & Hq & Hpks); [done|by apply wrap_fits|lia| |nia|lia|lia|lia|].
    { by rewrite <-(es_fu_header_next h C i) by lia. }
    cbn [mbind option_bind]. exists q, (pkt :: pkts). split.
    { rewrite zlen_cons. unfold u16. rewrite wrap_add_l. do 3 f_equal. f_equal. lia. }
    split; [done|]. rewrite Hcs by done. by split.
Qed.

(** ** The operations *)

Record es_ok (this : CEsRtpEncap) : Prop := {
  es_handle : m_pEsRtpHandle this = true;
  es_buffer : zlen (m_RtpBuffer this) = STREAM_MSG_BLOCK_SIZE;
  es_video_seq : fits 16 (m_usVideoRtpSeq this);
  es_audio_seq : fits 16 (m_usAudioRtpSeq this) }.

Lemma es_generate this : es_ok this -> exists p,
  GeneratePacket (Some (m_RtpBuffer this)) CRtpPacket_new = Some (RET_OK, p) /\ rtp_object p /\
  drop 12 (m_pRtpData p) = replicate 2036 0.
Proof.
  intros [_ Hb _ _].
  destruct (GeneratePacket_spec (m_RtpBuffer this) CRtpPacket_new) as (d & E & Hz & Hd & Hf).
  { by rewrite Hb. }
  assert (length (m_RtpBuffer this) = 2048%nat) as Hl by (apply length_zlen; exact Hb).
  rewrite Hl in Hd. eexists. split; [exact E|]. split; [|exact Hd].
  split; cbn; [done|by rewrite Hz|]. eexists. split; [exact Hf|done].
Qed.

(** The number of fragments the code computes. *)
Definition es_count (L : Z) : Z := L / 1406 + (if L mod 1418 =? 0 then 0 else 1).

Lemma es_count_bound L : 1406 <= L < 2 ^ 32 -> 1 < es_count L -> 2 <= es_count L < 2 ^ 32 /\
  (es_count L - 1) * 1404 < L.
Proof. unfold es_count. intros. destruct (Z.eqb_spec (L mod 1418) 0); lia. Qed.

Lemma es_count_code L : 0 <= L < 2 ^ 32 ->
  (if negb (L mod MAX_ENCAP_RTP_SIZE =? 0) then u32 (L / (MAX_ENCAP_RTP_SIZE - RTP_FIXED_HEADER_SIZE) + 1)
   else L / (MAX_ENCAP_RTP_SIZE - RTP_FIXED_HEADER_SIZE)) = es_count L.
Proof.
  intros HL. unfold es_count, MAX_ENCAP_RTP_SIZE, RTP_FIXED_HEADER_SIZE. change (1418 - 12) with 1406.
  destruct (L mod 1418 =? 0); cbn [negb]; [lia|]. unfold u32. rewrite wrap_small; [lia|].
  unfold fits. lia.
Qed.

Lemma send_nal_single mem s L ts this : es_ok this -> 0 <= s -> 0 < L <= 1418 -> es_count L <= 1 ->
  s + L <= zlen mem -> fits 32 ts ->
  exists this' pkt, send_nal mem s L ts this = Some (tt, this', [pkt]) /\ es_ok this' /\
    m_usVideoRtpSeq this' = u16 (m_usVideoRtpSeq this + 1) /\
    packet_is VIDEO_PT VIDEO_SSRC (m_usVideoRtpSeq this) ts true (bytes_at mem s L) pkt.
Proof.
  intros Hok Hs HL HC Hm Hts. unfold send_nal.
  destruct (es_generate this Hok) as (p & -> & Hp & _). cbn [mbind option_bind].
  rewrite es_count_code by lia. destruct Hok as [Hh Hb Hv Ha]. rewrite Hh. cbn [negb].
  rewrite (proj2 (Z.ltb_ge 1 (es_count L))) by lia.
  destruct (header_step_marked VIDEO_PT VIDEO_SSRC p (m_usVideoRtpSeq this) ts true Hp)
    as (d & -> & Hf & Hz & _); [done..|]. cbn [mbind option_bind].
  destruct (sub_Some' mem s L) as [-> Hc]; [lia..|]. fold (bytes_at mem s L) in *. cbn [mbind option_bind].
  unfold STREAM_MSG_BLOCK_SIZE in *. change (m_pRtpData (with_data d p)) with d.
  destruct (memcpy_total d 12 (bytes_at mem s L)) as [buf Hbuf]; [lia|lia|].
  change RTP_FIXED_HEADER_SIZE with 12. rewrite Hbuf. cbn [mbind option_bind].
  pose proof (memcpy_length _ _ _ _ Hbuf) as Hbl.
  unfold u32. rewrite (wrap_small 32) by solve_fits.
  rewrite sub_Some by lia. cbn [mbind option_bind]. eexists _, _. split; [done|].
  split; [split; cbn; [done|unfold STREAM_MSG_BLOCK_SIZE; lia|by apply wrap_fits|done]|].
  split; [done|]. rewrite drop_0.
  replace (L + 12) with (12 + zlen (bytes_at mem s L)) by lia.
  eapply packet_cut; [by rewrite (fields_of_memcpy _ 12 _ _ ltac:(done) Hbuf)| |lia].
  unfold memcpy in Hbuf. case_decide; [|done]. injection Hbuf as <-.
  apply drop_app_length'. rewrite length_take. unfold zlen in *. lia.
Qed.

Lemma send_nal_fragments mem s L ts h this : es_ok this -> rd mem s = Some h -> is_byte h ->
  0 < L < 2 ^ 32 -> 1 < es_count L -> s + 1 + L <= zlen mem -> fits 32 ts ->
  exists this' pkts, send_nal mem s L ts this = Some (tt, this', pkts) /\ es_ok this' /\
    m_usVideoRtpSeq this' = u16 (m_usVideoRtpSeq this + zlen pkts) /\
    packets_are VIDEO_PT VIDEO_SSRC (m_usVideoRtpSeq this) ts
      (es_spec h (es_count L) 0 (fragments_at mem (s + 1) L)) pkts.
Proof.
  intros Hok Hr Hh HL HC Hm Hts. unfold send_nal. pose proof (rd_bounds _ _ _ Hr).
  destruct (es_generate this Hok) as (p & -> & Hp & Hd). cbn [mbind option_bind].
  rewrite es_count_code by lia. destruct Hok as [Hhd Hb Hv Ha]. rewrite Hhd. cbn [negb].
  rewrite (proj2 (Z.ltb_lt 1 (es_count L))), Hr by lia. cbn [mbind option_bind].
  assert (1406 <= L) as HL'.
  { unfold es_count in HC. destruct (Z.eqb_spec (L mod 1418) 0); lia. }
  destruct (es_count_bound L ltac:(lia) HC) as [HC2 HC3].
  pose proof (object_size _ Hp) as Hz. unfold STREAM_MSG_BLOCK_SIZE in Hz.
  destruct Hp as [Hph Hpz (f & Hf & Hpl)].
  change RTP_FIXED_HEADER_SIZE with 12. change (12 + 1) with 13.
  assert (m_pRtpData p = take 12 (m_pRtpData p) ++ 0 :: 0 :: replicate 2034 0) as Ed.
  { rewrite <-(take_drop 12 (m_pRtpData p)) at 1. by rewrite Hd. }
  assert (zlen (take 12 (m_pRtpData p)) = 12) as H12 by zl.
  set (t := take 12 (m_pRtpData p)) in *. rewrite Ed.
  rewrite (set_bits_at t _ 12) by done. cbn [mbind option_bind].
  rewrite (set_bits_at t _ 12) by done. cbn [mbind option_bind].
  rewrite (set_bits_at t _ 12) by done. cbn [mbind option_bind].
  rewrite es_indicator by done.
  replace (t ++ fu_indicator h :: 0 :: replicate 2034 0) with
    ((t ++ [fu_indicator h]) ++ 0 :: replicate 2034 0) by by rewrite <-app_assoc.
  rewrite (set_bits_at _ _ 13) by zl. cbn [mbind option_bind]. rewrite es_type by done.
  rewrite <-app_assoc. change ([fu_indicator h] ++ ?x) with (fu_indicator h :: x).
  set (d := t ++ fu_indicator h :: h mod 32 :: replicate 2034 0).
  destruct (fragment_loop_spec h mem ts (es_count L) (S (Z.to_nat (es_count L))) Hh Hts HC2
    0 (s + 1) L (with_data d p) (m_usVideoRtpSeq this) (replicate 2034 0))
    as (q & pkts & -> & Hq & Hpk); [|done|lia| |lia|lia|lia|lia|].
  - assert (fields_of d = Some f) as Hfd.
    { rewrite <-Hf, <-(fields_of_take d 12), <-(fields_of_take (m_pRtpData p) 12) by done. f_equal.
      change (Z.to_nat 12) with 12%nat. fold t. apply take_app_length'.
      symmetry. by apply length_zlen. }
    split; [done| |by exists f]. unfold d. cbn [m_pRtpData with_data]. rewrite Ed in Hz.
    unfold STREAM_MSG_BLOCK_SIZE. rewrite zlen_app, !zlen_cons in *. exact Hz.
  - unfold d. cbn [m_pRtpData with_data]. apply drop_app_length'. symmetry. by apply length_zlen.
  - cbn [mbind option_bind]. eexists _, pkts. split; [done|].
    split; [split; cbn; [done|apply Hq|by apply wrap_fits|done]|]. by split.
Qed.

(** *** The audio path *)

Lemma audio_loop_spec mem ts fuel : fits 32 ts ->
  forall pos least p seq, rtp_object p -> fits 16 seq -> 0 < least -> 0 <= pos ->
  pos + least <= zlen mem -> least < Z.of_nat fuel ->
  exists q pkts, audio_loop fuel mem ts true pos least p seq = Some (q, u16 (seq + zlen pkts), pkts) /\
    rtp_object q /\
    packets_are AUDIO_PT AUDIO_SSRC seq ts
      (mark_last true (chunks 1406 (Z.to_nat least) (bytes_at mem pos least))) pkts.
Proof.
  intros Hts. induction fuel as [|fuel IH]; intros pos least p seq Hp Hseq Hl Hpos Hm Hf; [lia|].
  set (n := Z.min 1406 least). pose proof (zlen_bytes_at mem pos n Hpos ltac:(lia) ltac:(lia)) as Hn.
  destruct (packet_step AUDIO_PT AUDIO_SSRC p seq ts (least <=? 1406) (bytes_at mem pos n) Hp
    ltac:(done) ltac:(done) Hseq Hts ltac:(lia)) as (q & buf & E & Hbuf & Hpk & Hq).
  cbn [audio_loop]. rewrite (proj2 (Z.ltb_lt 0 least)) by lia.
  destruct (SetHeader _ _ _ _ _ p) as [p1|]; [|done]. cbn [mbind option_bind] in E |- *.
  change (MAX_ENCAP_RTP_SIZE - RTP_FIXED_HEADER_SIZE) with 1406. change RTP_FIXED_HEADER_SIZE with 12.
  assert ((if least <=? 1406 then '(_, p) ← SetMarker true p1; Some (p, least) else Some (p1, 1406))
    = Some (q, n)) as ->.
  { unfold n. destruct (Z.leb_spec least 1406).
    - rewrite Z.min_r by lia. destruct (SetMarker true p1) as [[r p2]|]; [|done]. by injection E as ->.
    - rewrite Z.min_l by lia. by injection E as ->. }
  cbn [mbind option_bind]. destruct (sub_Some' mem pos n) as [Hs _]; [lia..|]. rewrite Hs.
  fold (bytes_at mem pos n). cbn [mbind option_bind]. rewrite Hbuf. cbn [mbind option_bind].
  destruct Hq as [Hqh Hqz Hqf]. cbn in Hqz. unfold STREAM_MSG_BLOCK_SIZE in Hqz.
  rewrite sub_Some by lia. cbn [mbind option_bind]. rewrite drop_0.
  replace (n + 12) with (12 + zlen (bytes_at mem pos n)) by lia.
  set (pkt := take _ buf) in *.
  pose proof (zlen_bytes_at mem pos least Hpos ltac:(lia) Hm) as Hlen.
  replace (Z.to_nat least) with (S (Z.to_nat least - 1)) by lia.
  destruct (Z.leb_spec least 1406) as [Hle|Hgt].
  - assert (n = least) as -> by lia. rewrite chunks_last by lia.
    replace (least - least) with 0 by lia. destruct fuel as [|fuel]; [lia|].
    cbn [audio_loop Z.ltb Z.compare mbind option_bind app]. eexists _, [pkt].
    split; [done|]. split; [by split|]. by split.
  - assert (n = 1406) as En by lia. rewrite En in *.
    destruct (IH (pos + 1406) (least - 1406) (with_data buf q) (u16 (seq + 1)))
      as (r & pkts & -> & Hr & Hpks); [by split|by apply wrap_fits|lia..|].
    cbn [mbind option_bind app]. exists r, (pkt :: pkts). split.
    { rewrite zlen_cons. unfold u16. rewrite wrap_add_l. do 3 f_equal. f_equal. lia. }
    split; [done|]. rewrite chunks_cons, (bytes_at_split mem pos 1406 least) by lia.
    assert (length (bytes_at mem pos 1406) = Z.to_nat 1406) as Hl1 by (unfold zlen in Hn; lia).
    rewrite <-Hl1 at 1. rewrite take_app_length. rewrite <-Hl1 at 1. rewrite drop_app_length.
    pose proof (zlen_bytes_at mem (pos + 1406) (least - 1406) ltac:(lia) ltac:(lia) ltac:(lia)) as H2.
    rewrite (chunks_fuel 1406 _ (Z.to_nat (least - 1406)));
      [|lia|unfold zlen in H2; lia..|intros E0; rewrite E0, zlen_nil in H2; lia].
    rewrite mark_last_cons by (apply chunks_ne; lia). by split.
Qed.

(** *** Reading the fragments *)

Lemma es_spec_data h C cs : forall i, 0 <= i <= C ->
  concat (drop 2 <$> (es_spec h C i cs).*2) = concat (take (Z.to_nat (C - i)) cs).
Proof.
  induction cs as [|c cs IH]; intros i Hi; [by rewrite take_nil|]. cbn [es_spec].
  destruct (Z.ltb_spec i C).
  - replace (Z.to_nat (C - i)) with (S (Z.to_nat (C - (i + 1)))) by lia.
    cbn [fmap list_fmap concat take es_fragment drop snd]. f_equal. apply IH. lia.
  - by replace (Z.to_nat (C - i)) with 0%nat by lia.
Qed.

Lemma es_spec_start h C cs : forall i,
  Forall (fun q => exists f c, q.2 = fu_indicator h :: f :: c /\ f mod 32 = h mod 32 /\
    Z.testbit f 7 = true) (es_spec h C i cs).
Proof.
  assert (forall i, es_fu_header h C i mod 32 = h mod 32 /\ Z.testbit (es_fu_header h C i) 7 = true) as Hf.
  { intros i. unfold es_fu_header. case_match.
    - split; [lia|]. rewrite Z.testbit_true by lia. change (2 ^ 7) with 128. lia.
    - split; [lia|]. rewrite Z.testbit_true by lia. change (2 ^ 7) with 128. lia. }
  induction cs as [|c cs IH]; intros i; cbn [es_spec]; [constructor|].
  case_match; [|constructor]. constructor; [|apply IH]. cbn. destruct (Hf i) as [? ?].
  by eexists _, _.
Qed.

Lemma es_spec_markers h C cs : forall i, cs <> [] -> 0 <= i < C ->
  (es_spec h C i cs).*1 =
    if C - i <? zlen cs then replicate (Z.to_nat (C - i)) false
    else replicate (length cs - 1) false ++ [true].
Proof.
  induction cs as [|c cs IH]; intros i Hne Hi; [done|]. cbn [es_spec].
  rewrite (proj2 (Z.ltb_lt i C)) by lia. cbn [fmap list_fmap fst].
  destruct cs as [|c2 cs].
  - cbn [es_spec fmap list_fmap]. rewrite zlen_cons, zlen_nil, (proj2 (Z.ltb_ge _ _)) by lia. done.
  - destruct (Z.eq_dec (i + 1) C) as [HiC|HiC].
    + rewrite HiC, es_spec_end. pose proof (zlen_nonneg cs).
      rewrite !zlen_cons, (proj2 (Z.ltb_lt _ _)) by lia. by replace (Z.to_nat (C - i)) with 1%nat by lia.
    + rewrite IH by (done || lia). rewrite (zlen_cons c).
      replace (C - (i + 1) <? zlen (c2 :: cs)) with (C - i <? 1 + zlen (c2 :: cs))
        by (apply eq_true_iff_eq; rewrite !Z.ltb_lt; lia).
      case_match.
      * replace (Z.to_nat (C - i)) with (S (Z.to_nat (C - (i + 1)))) by lia. done.
      * cbn [length]. replace (S (S (length cs)) - 1)%nat with (S (S (length cs) - 1)) by lia. done.
Qed.

Lemma concat_take_chunks sz n k l : 0 < sz -> (length l <= n * Z.to_nat sz)%nat ->
  concat (take k (chunks sz n l)) = take (k * Z.to_nat sz) l.
Proof.
  intros Hsz. revert k l. induction n as [|n IH]; intros k l Hl.
  { destruct l; [cbn [chunks]; by rewrite !take_nil|cbn in Hl; lia]. }
  cbn [chunks]. destruct k as [|k]; [done|]. destruct (Z.leb_spec (zlen l) sz).
  - cbn [take]. rewrite take_nil. cbn [concat]. rewrite app_nil_r.
    symmetry. apply take_ge. unfold zlen in *. nia.
  - cbn [take concat]. rewrite IH by (rewrite length_drop; lia).
    change (S k * Z.to_nat sz)%nat with (Z.to_nat sz + k * Z.to_nat sz)%nat. apply take_take_drop.
Qed.

Lemma zlen_fragments mem pos L : 0 < L -> 0 <= pos -> pos + L <= zlen mem ->
  zlen (fragments_at mem pos L) = (L + 1403) / 1404.
Proof.
  intros HL Hp Hm. unfold fragments_at. pose proof (zlen_bytes_at mem pos L ltac:(lia) ltac:(lia) Hm) as Hb.
  revert Hb. generalize (bytes_at mem pos L). intros l Hl. rewrite <-Hl in *. clear -HL.
  assert (forall n l, l <> [] -> (length l <= n)%nat -> zlen (chunks 1404 n l) = (zlen l + 1403) / 1404) as H.
  { clear. induction n as [|n IH]; intros l Hne Hn; [destruct l; [done|cbn in Hn; lia]|].
    destruct (Z.leb_spec (zlen l) 1404).
    - rewrite chunks_last, zlen_cons, zlen_nil by done.
      destruct l; [done|]. rewrite zlen_cons in *. pose proof (zlen_nonneg l). lia.
    - rewrite chunks_cons, zlen_cons by done. rewrite IH.
      + zl.
      + intros E. apply (f_equal zlen) in E. zl.
      + rewrite length_drop. lia. }
  apply H; [by intros ->|unfold zlen; lia].
Qed.

Lemma fu_restore h f : is_byte h -> f mod 32 = h mod 32 ->
  nalu_TYPE (fu_indicator h) = RTP_FUA /\ 32 * (fu_indicator h / 32) + f mod 32 = h.
Proof.
  intros Hh ->. rewrite <-!Z.eqb_eq, <-andb_true_iff.
  apply (forall_fits 8 (fun h => (nalu_TYPE (fu_indicator h) =? RTP_FUA) &&
    (32 * (fu_indicator h / 32) + h mod 32 =? h)) h Hh). by vm_compute.
Qed.

(** A receiver that follows RFC 6184 gets the header and as many of the [L]
    bytes as the [C] fragments hold. *)
Lemma depacketize_es h C mem pos L : is_byte h -> 1 < C -> 0 < L -> 0 <= pos -> pos + L <= zlen mem ->
  depacketize (es_spec h C 0 (fragments_at mem pos L)).*2 =
    h :: take (Z.to_nat (1404 * C)) (bytes_at mem pos L).
Proof.
  intros Hh HC HL Hp Hm. set (cs := fragments_at mem pos L).
  assert (concat (take (Z.to_nat C) cs) = take (Z.to_nat (1404 * C)) (bytes_at mem pos L)) as Hc.
  { unfold cs, fragments_at. pose proof (zlen_bytes_at mem pos L ltac:(lia) ltac:(lia) Hm) as Hl.
    rewrite concat_take_chunks; [f_equal; lia|lia|]. unfold zlen in Hl. lia. }
  pose proof (es_spec_data h C cs 0 ltac:(lia)) as Hd. rewrite Z.sub_0_r, Hc in Hd.
  pose proof (es_spec_start h C cs 0) as Hs.
  pose proof (fragments_at_ne mem pos L HL) as Hne. fold cs in Hne.
  destruct cs as [|c cs]; [done|]. cbn [es_spec] in *. rewrite (proj2 (Z.ltb_lt 0 C)) in * by lia.
  apply Forall_cons in Hs as [(f & c' & E & Hf & _) _]. cbn in E. cbn [fmap list_fmap snd] in *.
  unfold es_fragment in *. injection E as <- <-. destruct (fu_restore h _ Hh Hf) as [Ht Hr].
  cbn [depacketize]. rewrite Ht, Z.eqb_refl, Hr. cbn [drop concat fmap list_fmap] in Hd. by rewrite <-Hd.
Qed.

(** The frame is found behind its start code. *)
Lemma handleVideo_send base zeros nal after ts this : let mem := zeros ++ [1] ++ nal ++ after in
  let k := zlen (zeros ++ [1]) in
  bytes_ok mem -> zeros = [0; 0] \/ zeros = [0; 0; 0] -> 0 < zlen nal < 2 ^ 31 ->
  handleVideoEsStream base (Some mem) (k + zlen nal) ts VIDEO_STREAM_TYPE_H264 this =
    send_nal mem k (zlen nal) ts this.
Proof.
  intros mem k Hb Hz Hl. assert (3 <= k <= 4) as Hk by (unfold k; destruct Hz as [->| ->]; done).
  cbn [handleVideoEsStream EsRtp_handle]. unfold EsRtp_handleVideoEsStream.
  rewrite (proj2 (Z.eqb_neq _ 0)), Z.eqb_refl by lia. cbn [negb].
  destruct (find_prefix base zeros (nal ++ after) (k + zlen nal)) as (s & Hs & Hlt & Hsk); [done|done| |].
  { fold k. pose proof (zlen_nonneg after). unfold k. zl. }
  fold mem in Hs, Hsk. fold k in Hsk. cbv [lift mbind M_bind option_bind]. rewrite Hs.
  rewrite (proj2 (Z.leb_gt _ _)) by lia. cbn [mbind option_bind]. rewrite Hsk.
  unfold u32. rewrite (wrap_small 32 k) by solve_fits. replace (k + zlen nal - k) with (zlen nal) by lia.
  rewrite wrap_small by solve_fits. by destruct (send_nal _ _ _ _ _) as [[[[] ?] ?]|].
Qed.

Lemma bytes_at_app a b c L : zlen b = L -> bytes_at (a ++ b ++ c) (zlen a) L = b.
Proof.
  intros <-. unfold bytes_at, zlen. rewrite !Nat2Z.id, drop_app_length. apply take_app_length.
Qed.

(** The fragments of a frame that does not fit one packet: the source of the
    bytes is the NAL unit behind its header byte, and one byte more. *)
Lemma fragments_frame base zeros h body b after ts this :
  let nal := h :: body in let L := zlen nal in
  let cs := chunks 1404 (Z.to_nat L) (body ++ [b]) in
  es_ok this -> zeros = [0; 0] \/ zeros = [0; 0; 0] ->
  bytes_ok (zeros ++ [1] ++ nal ++ b :: after) -> fits 32 ts -> L < 2 ^ 31 -> 1 < es_count L ->
  is_byte h /\ zlen cs = (L + 1403) / 1404 /\ cs <> [] /\
  depacketize (es_spec h (es_count L) 0 cs).*2 =
    h :: take (Z.to_nat (1404 * es_count L)) (body ++ [b]) /\
  exists this' pkts,
    handleVideoEsStream base (Some (zeros ++ [1] ++ nal ++ b :: after))
      (zlen (zeros ++ [1]) + L) ts VIDEO_STREAM_TYPE_H264 this = Some (tt, this', pkts) /\
    packets_are VIDEO_PT VIDEO_SSRC (m_usVideoRtpSeq this) ts (es_spec h (es_count L) 0 cs) pkts.
Proof.
  intros nal L cs Hok Hz Hb Hts Hnal Hcount. set (k := zlen (zeros ++ [1])).
  assert (is_byte h) as Hh by (rewrite !Forall_app in Hb; destruct Hb as (_ & _ & Hb & _); by inversion Hb).
  set (mem := zeros ++ [1] ++ nal ++ b :: after) in *.
  assert (mem = (zeros ++ [1; h]) ++ (body ++ [b]) ++ after) as Emem.
  { unfold mem, nal. by rewrite <-!app_assoc. }
  assert (zlen (zeros ++ [1; h]) = k + 1) as Ek by (unfold k; zl).
  assert (zlen (body ++ [b]) = L) as Ebody by (unfold L, nal; zl).
  assert (rd mem k = Some h) as Hr.
  { unfold mem. rewrite app_assoc, rd_app_r by (unfold k; lia). unfold k. by rewrite Z.sub_diag. }
  assert (k + 1 + L <= zlen mem) as Hm.
  { rewrite Emem, zlen_app, Ek, zlen_app, Ebody. pose proof (zlen_nonneg after). lia. }
  assert (0 < L) as HL by (unfold L, nal; rewrite zlen_cons; pose proof (zlen_nonneg body); lia).
  pose proof (zlen_nonneg (zeros ++ [1])) as Hk0. fold k in Hk0.
  assert (fragments_at mem (k + 1) L = cs) as Ecs.
  { unfold fragments_at. by rewrite Emem, <-Ek, bytes_at_app. }
  split; [done|]. split; [rewrite <-Ecs; apply zlen_fragments; lia|].
  split; [rewrite <-Ecs; by apply fragments_at_ne|]. split.
  { rewrite <-Ecs, depacketize_es by (done || lia). by rewrite Emem, <-Ek, bytes_at_app. }
  destruct (send_nal_fragments mem k L ts h this Hok Hr Hh) as (this' & pkts & E & _ & _ & Hp);
    [lia|done|lia|done|].
  exists this', pkts. split; [|by rewrite <-Ecs].
  rewrite <-E. apply handleVideo_send; [done|done|lia].
Qed.

(** ** Properties *)

(** Whatever the address of the frame, the search, which tests four bytes
    at once, finds the first 00 00 01 of the bytes before the last three, and
    steps back over a zero byte in front of it; without one it returns the end. *)
Theorem h264_find_startcode_first base mem p n
    (Hb : bytes_ok mem) (Hp : 0 <= p) (Hn : n <= zlen mem) :
  exists r out, first_code mem p (n - 3) n r /\
    h264_find_startcode base mem p n = Some out /\
    out = (if bool_decide (p < r < n /\ rd mem (r - 1) = Some 0) then r - 1 else r).
Proof.
  destruct (h264_find_startcode_internal_spec base mem p n Hb Hp Hn) as (r & E & Hf).
  exists r. unfold h264_find_startcode. rewrite E. cbn [mbind option_bind].
  destruct (Z.ltb_spec p r); cbn [andb]; [destruct (Z.ltb_spec r n)|].
  - destruct (rd_total_Z mem (r - 1)) as [b Hr]; [lia|]. rewrite Hr. cbn [mbind option_bind].
    eexists. split; [done|]. split; [done|]. destruct (Z.eqb_spec b 0) as [->|].
    + by rewrite bool_decide_eq_true_2.
    + rewrite bool_decide_eq_false_2; [done|]. intros [_ ?]. by simplify_eq.
  - exists r. split; [done|]. split; [done|]. rewrite bool_decide_eq_false_2; [done|lia].
  - exists r. split; [done|]. split; [done|]. rewrite bool_decide_eq_false_2; [done|lia].
Qed.

(** End to end. A program stream frame that the encoder made of a start
    code and a NAL unit of less than 1406 bytes leaves as one marked RTP packet
    whose payload is exactly the NAL unit. *)
Theorem insertPSFrame_single base zeros nal now ts enc this
    (Hok : es_ok this) (Henc : enc_ok enc) (Hz : zeros = [0; 0] \/ zeros = [0; 0; 0])
    (Hnal : 2 <= zlen nal < 1406) (Hb : bytes_ok nal) (Hts : fits 32 ts)
    (Hpts : INVALID_TIMESTAMP <> next_pts (m_unVideoTimestamp enc) (m_ullVideoPts enc) ts) :
  exists enc' evs fuel this' pkt,
    writeVideoEsStream now (zeros ++ [1] ++ nal) ts enc = Some (0, enc', evs) /\
    insertPSFrame fuel base (Some (concat (ps_data <$> evs))) ts this = Some (RET_OK, this', [pkt]) /\
    es_ok this' /\ m_usVideoRtpSeq this' = u16 (m_usVideoRtpSeq this + 1) /\
    packet_is VIDEO_PT VIDEO_SSRC (m_usVideoRtpSeq this) ts true nal pkt.
Proof.
  set (frame := zeros ++ [1] ++ nal).
  assert (MIN_NALU_SIZE <= zlen frame <= MAX_BUFFER_LEN) as Hlen.
  { unfold frame, MIN_NALU_SIZE, MAX_BUFFER_LEN. destruct Hz as [->| ->]; zl. }
  pose proof (writeVideoEsStream_spec now frame ts enc Henc Hpts ltac:(lia)) as He.
  destruct (encoded_decodes now frame ts enc _ _ Henc Hpts Hlen He) as [fuel Hdec].
  set (k := zlen (zeros ++ [1])).
  set (after := replicate (Z.to_nat (MAX_BUFFER_LEN - zlen frame)) 0).
  assert (frame ++ after = zeros ++ [1] ++ nal ++ after) as Em by (unfold frame; by rewrite <-!app_assoc).
  assert (bytes_ok (zeros ++ [1] ++ nal ++ after)) as Hbytes.
  { rewrite !Forall_app. split; [destruct Hz as [->| ->]; by repeat constructor|].
    split; [by repeat constructor|]. split; [done|]. by apply Forall_replicate. }
  assert (zlen frame = k + zlen nal) as El by (unfold frame, k; zl).
  assert (3 <= k <= 4) as Hk by (unfold k; destruct Hz as [->| ->]; done).
  pose proof (zlen_nonneg after) as Hafter.
  destruct (send_nal_single (zeros ++ [1] ++ nal ++ after) k (zlen nal) ts this)
    as (this' & pkt & E & Hok' & Hs & Hp); [done|lia|lia| | |done|].
  { unfold es_count. rewrite (Z.mod_small _ 1418), (Z.div_small _ 1406) by lia. by case_match. }
  { unfold k. zl. }
  eexists _, _, fuel, this', pkt. split; [exact He|]. split; [|split; [done|split; [done|]]].
  - unfold insertPSFrame. rewrite Hdec. cbn [foldr deliver_es]. fold after. rewrite Em, El.
    erewrite (bind_run _ _ _ tt _ [pkt] RET_OK _ []); [done| |done].
    rewrite <-E. apply handleVideo_send; [done|done|lia].
  - rewrite (app_assoc zeros) in Hp. unfold k in Hp. by rewrite bytes_at_app in Hp.
Qed.

(** A NAL unit sent in fragments comes out one byte longer: the header
    byte is not counted off, so that the last fragment takes one byte from
    behind the frame. Every fragment has the start bit; the marker is on the
    last one only. *)
Theorem fragments_extra_byte base zeros nal b after ts this
    (Hok : es_ok this) (Hz : zeros = [0; 0] \/ zeros = [0; 0; 0])
    (Hb : bytes_ok (zeros ++ [1] ++ nal ++ b :: after)) (Hts : fits 32 ts) (Hnal : zlen nal < 2 ^ 31)
    (Hcount : 1 < es_count (zlen nal)) (Hfits : zlen nal <= 1404 * es_count (zlen nal)) :
  exists this' pkts spec n,
    handleVideoEsStream base (Some (zeros ++ [1] ++ nal ++ b :: after))
      (zlen (zeros ++ [1]) + zlen nal) ts VIDEO_STREAM_TYPE_H264 this = Some (tt, this', pkts) /\
    packets_are VIDEO_PT VIDEO_SSRC (m_usVideoRtpSeq this) ts spec pkts /\
    spec.*1 = replicate n false ++ [true] /\
    depacketize (drop 12 <$> pkts) = nal ++ [b] /\
    Forall (fun pl => exists i f c, pl = i :: f :: c /\ Z.testbit f 7 = true) (drop 12 <$> pkts).
Proof.
  destruct nal as [|h body]; [by vm_compute in Hcount|].
  destruct (fragments_frame base zeros h body b after ts this Hok Hz Hb Hts Hnal Hcount)
    as (_ & Hc & Hne & Hd & this' & pkts & E & Hp).
  pose proof (packets_payloads _ _ _ _ _ _ Hp) as Hpl.
  eexists this', pkts, _, _. split; [exact E|]. split; [exact Hp|]. split; [|split].
  - rewrite es_spec_markers by (done || lia). rewrite (proj2 (Z.ltb_ge _ _)) by lia. reflexivity.
  - rewrite Hpl, Hd, take_ge; [done|]. rewrite zlen_cons in *. rewrite length_app. unfold zlen in *.
    cbn [length]. lia.
  - rewrite Hpl, Forall_fmap. eapply Forall_impl; [apply es_spec_start|].
    intros [m pl] (f & c & Hq & _ & Ht). cbn in Hq |- *. rewrite Hq. by eexists _, _, _.
Qed.

(** The number of fragments is computed with the wrong fragment sizes: a
    NAL unit that does not fit it, such as one of 2836 bytes, loses its end,
    and no packet is marked as the last one of the frame. *)
Theorem fragments_truncated base zeros nal b after ts this
    (Hok : es_ok this) (Hz : zeros = [0; 0] \/ zeros = [0; 0; 0])
    (Hb : bytes_ok (zeros ++ [1] ++ nal ++ b :: after)) (Hts : fits 32 ts) (Hnal : zlen nal < 2 ^ 31)
    (Hcount : 1 < es_count (zlen nal)) (Htoo : 1404 * es_count (zlen nal) < zlen nal) :
  exists this' pkts spec n,
    handleVideoEsStream base (Some (zeros ++ [1] ++ nal ++ b :: after))
      (zlen (zeros ++ [1]) + zlen nal) ts VIDEO_STREAM_TYPE_H264 this = Some (tt, this', pkts) /\
    packets_are VIDEO_PT VIDEO_SSRC (m_usVideoRtpSeq this) ts spec pkts /\
    spec.*1 = replicate n false /\
    depacketize (drop 12 <$> pkts) = take (Z.to_nat (1404 * es_count (zlen nal) + 1)) (nal ++ [b]).
Proof.
  destruct nal as [|h body]; [by vm_compute in Hcount|].
  destruct (fragments_frame base zeros h body b after ts this Hok Hz Hb Hts Hnal Hcount)
    as (_ & Hc & Hne & Hd & this' & pkts & E & Hp).
  pose proof (packets_payloads _ _ _ _ _ _ Hp) as Hpl.
  eexists this', pkts, _, _. split; [exact E|]. split; [exact Hp|]. split.
  - rewrite es_spec_markers by (done || lia). rewrite (proj2 (Z.ltb_lt _ _)) by lia. reflexivity.
  - rewrite Hpl, Hd. set (C := es_count _) in *.
    replace (Z.to_nat (1404 * C + 1)) with (S (Z.to_nat (1404 * C))) by lia. done.
Qed.

(** An audio frame leaves as packets of at most 1418 bytes with consecutive
    sequence numbers, the marker on the last one, and their payloads put
    together are the frame. *)
Theorem handleAudioEsStream_packets base mem n ts st this
    (Hok : es_ok this) (Hn : 0 < n <= zlen mem) (Hts : fits 32 ts) :
  exists this' pkts spec k,
    handleAudioEsStream base (Some mem) n ts st this = Some (tt, this', pkts) /\ es_ok this' /\
    m_usAudioRtpSeq this' = u16 (m_usAudioRtpSeq this + zlen pkts) /\
    packets_are AUDIO_PT AUDIO_SSRC (m_usAudioRtpSeq this) ts spec pkts /\
    spec.*1 = replicate k false ++ [true] /\ concat (drop 12 <$> pkts) = take (Z.to_nat n) mem /\
    Forall (fun p => zlen p <= 1418) pkts.
Proof.
  cbn [handleAudioEsStream EsRtp_handle]. unfold EsRtp_handleAudioEsStream.
  destruct (es_generate this Hok) as (p & -> & Hp & _). cbn [mbind option_bind].
  change (default [] (Some mem)) with mem.
  destruct Hok as [Hh Hb Hv Ha]. rewrite Hh.
  destruct (audio_loop_spec mem ts (S (Z.to_nat n)) Hts 0 n p (m_usAudioRtpSeq this))
    as (q & pkts & -> & Hq & Hpk); [done|done|lia..|]. cbn [mbind option_bind].
  pose proof (packets_payloads _ _ _ _ _ _ Hpk) as Hpl. rewrite mark_last_payloads in Hpl.
  pose proof (zlen_bytes_at mem 0 n ltac:(lia) ltac:(lia) ltac:(lia)) as Hl.
  eexists _, pkts, _, _. split; [done|].
  split; [split; cbn; [done|apply Hq|done|by apply wrap_fits]|]. split; [done|]. split; [exact Hpk|].
  split; [apply mark_last_markers, chunks_ne; lia|]. split.
  - rewrite Hpl, concat_chunks; [by unfold bytes_at; rewrite drop_0|lia|unfold zlen in Hl; lia].
  - apply (packets_bound _ _ 1406 _ _ _ _ Hpk).
    apply (proj1 (Forall_fmap snd (fun pl => zlen pl <= 1406) _)). rewrite mark_last_payloads.
    by apply chunks_bound.
Qed.

(** ** The properties at concrete frames *)

Definition demo_es : CEsRtpEncap := (Init true (CEsRtpEncap_new (replicate 2048 7) 0)).2.

Lemma demo_es_ok : es_ok demo_es.
Proof. by split. Qed.

(** The frame at an odd address. *)
Lemma h264_find_startcode_first_witness : exists r out,
  first_code [9; 9; 0; 0; 0; 1; 101; 7; 7; 7; 7] 0 8 11 r /\
  h264_find_startcode 1001 [9; 9; 0; 0; 0; 1; 101; 7; 7; 7; 7] 0 11 = Some out.
Proof.
  destruct (h264_find_startcode_first 1001 [9; 9; 0; 0; 0; 1; 101; 7; 7; 7; 7] 0 11)
    as (r & out & Hf & E & _).
  - repeat constructor; by vm_compute.
  - done.
  - by vm_compute.
  - exists r, out. split; [exact Hf|exact E].
Defined.

Lemma insertPSFrame_single_witness : exists enc' evs fuel this' pkt,
  writeVideoEsStream 7 ([0; 0; 0] ++ [1] ++ demo_nal 99) 9000 demo_enc = Some (0, enc', evs) /\
  insertPSFrame fuel 3 (Some (concat (ps_data <$> evs))) 9000 demo_es = Some (RET_OK, this', [pkt]).
Proof.
  destruct (insertPSFrame_single 3 [0; 0; 0] (demo_nal 99) 7 9000 demo_enc demo_es)
    as (enc' & evs & fuel & this' & pkt & E1 & E2 & _).
  - exact demo_es_ok.
  - exact demo_enc_ok.
  - by right.
  - by vm_compute.
  - unfold demo_nal. constructor; [by vm_compute|]. apply Forall_replicate. by vm_compute.
  - by vm_compute.
  - by vm_compute.
  - exists enc', evs, fuel, this', pkt. split; [exact E1|exact E2].
Defined.

Lemma demo_frame_bytes n b : is_byte b -> bytes_ok ([0; 0; 0] ++ [1] ++ demo_nal n ++ [b]).
Proof.
  intros Hb. unfold demo_nal. cbn [app]. repeat (constructor; [by vm_compute|]).
  apply Forall_app. split; [by apply Forall_replicate|by constructor].
Qed.

Lemma zlen_demo_nal n : zlen (demo_nal n) = 1 + Z.of_nat n.
Proof. unfold demo_nal. rewrite zlen_cons. unfold zlen. by rewrite length_replicate. Qed.

Lemma fragments_extra_byte_witness : exists this' pkts,
  handleVideoEsStream 0 (Some ([0; 0; 0] ++ [1] ++ demo_nal 2000 ++ [42])) (4 + zlen (demo_nal 2000))
    9000 VIDEO_STREAM_TYPE_H264 demo_es = Some (tt, this', pkts) /\
  depacketize (drop 12 <$> pkts) = demo_nal 2000 ++ [42].
Proof.
  destruct (fragments_extra_byte 0 [0; 0; 0] (demo_nal 2000) 42 [] 9000 demo_es)
    as (this' & pkts & spec & n & E & _ & _ & Hd & _).
  - exact demo_es_ok.
  - by right.
  - by apply demo_frame_bytes.
  - by vm_compute.
  - rewrite zlen_demo_nal. lia.
  - rewrite zlen_demo_nal. by vm_compute.
  - rewrite zlen_demo_nal. by vm_compute.
  - exists this', pkts. split; [exact E|exact Hd].
Defined.

Lemma fragments_truncated_witness : exists this' pkts,
  handleVideoEsStream 0 (Some ([0; 0; 0] ++ [1] ++ demo_nal 2835 ++ [42])) (4 + zlen (demo_nal 2835))
    9000 VIDEO_STREAM_TYPE_H264 demo_es = Some (tt, this', pkts) /\
  depacketize (drop 12 <$> pkts) =
    take (Z.to_nat (1404 * es_count (zlen (demo_nal 2835)) + 1)) (demo_nal 2835 ++ [42]).
Proof.
  destruct (fragments_truncated 0 [0; 0; 0] (demo_nal 2835) 42 [] 9000 demo_es)
    as (this' & pkts & spec & n & E & _ & _ & Hd).
  - exact demo_es_ok.
  - by right.
  - by apply demo_frame_bytes.
  - by vm_compute.
  - rewrite zlen_demo_nal. lia.
  - rewrite zlen_demo_nal. by vm_compute.
  - rewrite zlen_demo_nal. by vm_compute.
  - exists this', pkts. split; [exact E|exact Hd].
Defined.

Lemma handleAudioEsStream_packets_witness : exists this' pkts,
  handleAudioEsStream 0 (Some (replicate 3000 5)) 2900 9000 AUDIO_STREAM_TYPE_G711 demo_es
    = Some (tt, this', pkts) /\ concat (drop 12 <$> pkts) = take 2900 (replicate 3000 5).
Proof.
  destruct (handleAudioEsStream_packets 0 (replicate 3000 5) 2900 9000 AUDIO_STREAM_TYPE_G711 demo_es)
    as (this' & pkts & spec & k & E & _ & _ & _ & _ & Hd & _).
  - exact demo_es_ok.
  - unfold zlen. rewrite length_replicate. lia.
  - by vm_compute.
  - exists this', pkts. split; [exact E|exact Hd].
Defined.
