(* ===== verification/RtpToPs.v ===== *)
(** * H.264 over RTP to program stream over RTP: [svs_adapter_rtp_to_ps_Processor.cpp]

    [CRtp2PsProcessor] sorts the packets it is sent by payload type into two
    frame organizers; a finished frame is put together in a cache of 1 MiB,
    behind a start code, and goes through the program stream encapsulation
    [CPsRtpEncap], whose packets are sent on the session.

    The organizers and the encapsulation call back into the processor, which
    does not touch them there: an operation runs the organizer and then
    handles the frames it finished, in order. A read behind the payload of a
    packet is [None].

    Parameters: the blocks of [CMediaBlockBuffer] hold [unBlockSize] bytes and
    [alloc d] says whether one is free for the bytes [d]; [findBusiness] and
    [findSession] look up the receive stream of a send session and the payload
    type of its video. [ACE_Message_Block::copy] copies nothing when the bytes
    do not fit the block. *)

From S2P Require Import Prelude RtpPacket RtpFrameOrganizer RtpPacker RtpStream PsEnc PsDec PsRtpEncap.
Open Scope Z_scope.

Definition RTP_FRAME_CACHE_SIZE : Z := 1024 * 1024.
Definition H264_NALU_TYPE_FU_A : Z := 28.
Definition MAX_RTP_FRAME_CACHE_NUM : Z := 3.

Record CRtp2PsProcessor : Type := {
  m_pSendSession : bool;
  m_SendSessionId : Z;
  m_VideoRtpFrameOrganizer : CRtpFrameOrganizer;
  m_AudioRtpFrameOrganizer : CRtpFrameOrganizer;
  m_PsRtpEncap : CPsRtpEncap;
  m_ucRecvVideoPT : Z;
  m_pRtpFrameCache : option (list Z) }.     (* the bytes before [m_pWritePos] *)

Definition CRtp2PsProcessor_new : CRtp2PsProcessor :=
  {| m_pSendSession := false; m_SendSessionId := 0;
     m_VideoRtpFrameOrganizer := CRtpFrameOrganizer_new;
     m_AudioRtpFrameOrganizer := CRtpFrameOrganizer_new;
     m_PsRtpEncap := CPsRtpEncap_new; m_ucRecvVideoPT := 0; m_pRtpFrameCache := None |}.

Definition with_video_frames (o : CRtpFrameOrganizer) (this : CRtp2PsProcessor) : CRtp2PsProcessor :=
  {| m_pSendSession := m_pSendSession this; m_SendSessionId := m_SendSessionId this;
     m_VideoRtpFrameOrganizer := o; m_AudioRtpFrameOrganizer := m_AudioRtpFrameOrganizer this;
     m_PsRtpEncap := m_PsRtpEncap this; m_ucRecvVideoPT := m_ucRecvVideoPT this;
     m_pRtpFrameCache := m_pRtpFrameCache this |}.
Definition with_audio_frames (o : CRtpFrameOrganizer) (this : CRtp2PsProcessor) : CRtp2PsProcessor :=
  {| m_pSendSession := m_pSendSession this; m_SendSessionId := m_SendSessionId this;
     m_VideoRtpFrameOrganizer := m_VideoRtpFrameOrganizer this; m_AudioRtpFrameOrganizer := o;
     m_PsRtpEncap := m_PsRtpEncap this; m_ucRecvVideoPT := m_ucRecvVideoPT this;
     m_pRtpFrameCache := m_pRtpFrameCache this |}.
Definition with_encap (e : CPsRtpEncap) (this : CRtp2PsProcessor) : CRtp2PsProcessor :=
  {| m_pSendSession := m_pSendSession this; m_SendSessionId := m_SendSessionId this;
     m_VideoRtpFrameOrganizer := m_VideoRtpFrameOrganizer this;
     m_AudioRtpFrameOrganizer := m_AudioRtpFrameOrganizer this;
     m_PsRtpEncap := e; m_ucRecvVideoPT := m_ucRecvVideoPT this;
     m_pRtpFrameCache := m_pRtpFrameCache this |}.
Definition with_recv_pt (pt : Z) (this : CRtp2PsProcessor) : CRtp2PsProcessor :=
  {| m_pSendSession := m_pSendSession this; m_SendSessionId := m_SendSessionId this;
     m_VideoRtpFrameOrganizer := m_VideoRtpFrameOrganizer this;
     m_AudioRtpFrameOrganizer := m_AudioRtpFrameOrganizer this;
     m_PsRtpEncap := m_PsRtpEncap this; m_ucRecvVideoPT := pt;
     m_pRtpFrameCache := m_pRtpFrameCache this |}.
Definition with_cache (c : option (list Z)) (this : CRtp2PsProcessor) : CRtp2PsProcessor :=
  {| m_pSendSession := m_pSendSession this; m_SendSessionId := m_SendSessionId this;
     m_VideoRtpFrameOrganizer := m_VideoRtpFrameOrganizer this;
     m_AudioRtpFrameOrganizer := m_AudioRtpFrameOrganizer this;
     m_PsRtpEncap := m_PsRtpEncap this; m_ucRecvVideoPT := m_ucRecvVideoPT this;
     m_pRtpFrameCache := c |}.

Abbreviation proc := (M CRtp2PsProcessor (list Z)).

(** [m_pWritePos = m_pRtpFrameCache] *)
Definition reset_cache (this : CRtp2PsProcessor) : CRtp2PsProcessor :=
  with_cache ((fun _ => []) <$> m_pRtpFrameCache this) this.

Definition getWritePos (this : CRtp2PsProcessor) : Z :=
  match m_pRtpFrameCache this with Some c => u32 (zlen c) | None => 0 end.

(** ** Frames *)

(** [ParsePacket] on a block: its bytes, in which a padding bit may be
    cleared, and the packet object. *)
Definition parse_block (d : list Z) (p : CRtpPacket) : option (list Z * CRtpPacket) :=
  '(_, p) ← ParsePacket (Some d) p;
  Some (if zlen d <? RTP_FIXED_HEADER_SIZE then d else m_pRtpData p, p).

(** [rd_ptr(n)]: [None] when it leaves the bytes of the block. *)
Definition rd_ptr (n : Z) (d : list Z) : option (list Z) :=
  if n <=? zlen d then Some (drop (Z.to_nat n) d) else None.

(** Bytes appended at [m_pWritePos]. *)
Definition put (cache bs : list Z) : option (list Z) :=
  if zlen cache + zlen bs <=? RTP_FRAME_CACHE_SIZE then Some (cache ++ bs) else None.

(** The header byte of a NAL unit from the first fragment; every bit of the
    byte in the cache is overwritten. *)
Definition nal_header (fu head : Z) : Z :=
  set_field 0 5 (set_field 5 2 (set_field 7 1 0 (nalu_F fu)) (nalu_NRI fu)) (nalu_TYPE head).

Fixpoint checkVideo_loop (rtpFrameList : list mblock) (p : CRtpPacket) (cache : list Z)
    (unCacheSize : Z) (bRemoveHead : bool) : option (SVS_RET_CODE * list Z) :=
  match rtpFrameList with
  | [] => Some (RET_OK, cache)
  | b :: bs =>
    '(d, p) ← parse_block (mb_data b) p;
    d ← rd_ptr (GetHeadLen p) d;
    pFu ← rd d 0;
    '(d, cache, unCacheSize, bRemoveHead) ←
      (if H264_NALU_TYPE_FU_A =? nalu_TYPE pFu then
         d ← rd_ptr 1 d;
         if bRemoveHead then
           pHead ← rd d 0;
           cache ← put cache [nal_header pFu pHead];
           d ← rd_ptr 1 d;
           Some (d, cache, u32 (unCacheSize - 1), false)
         else d ← rd_ptr 1 d; Some (d, cache, unCacheSize, bRemoveHead)
       else Some (d, cache, unCacheSize, bRemoveHead));
    if zlen d <=? unCacheSize then
      cache ← put cache d;
      checkVideo_loop bs p cache (unCacheSize - zlen d) bRemoveHead
    else Some (RET_FAIL, [])
  end.

Definition checkVideoRtpFrame (rtpFrameList : list mblock) (this : CRtp2PsProcessor)
    : option (SVS_RET_CODE * CRtp2PsProcessor) :=
  match m_pRtpFrameCache this with
  | None => Some (RET_FAIL, this)
  | Some cache =>
    '(r, cache) ← checkVideo_loop rtpFrameList CRtpPacket_new cache (RTP_FRAME_CACHE_SIZE - 4) true;
    Some (r, with_cache (Some cache) this)
  end.

Fixpoint checkAudio_loop (rtpFrameList : list mblock) (p : CRtpPacket) (cache : list Z)
    (unCacheSize : Z) : option (SVS_RET_CODE * list Z) :=
  match rtpFrameList with
  | [] => Some (RET_OK, cache)
  | b :: bs =>
    '(d, p) ← parse_block (mb_data b) p;
    d ← rd_ptr (GetHeadLen p) d;
    if zlen d <=? unCacheSize then
      cache ← put cache d;
      checkAudio_loop bs p cache (unCacheSize - zlen d)
    else Some (RET_FAIL, [])
  end.

(** [bCheckFrame] is false, so that the check behind the loop is not made. *)
Definition checkAudioRtpFrame (rtpFrameList : list mblock) (this : CRtp2PsProcessor)
    : option (SVS_RET_CODE * CRtp2PsProcessor) :=
  match m_pRtpFrameCache this with
  | None => Some (RET_FAIL, this)
  | Some cache =>
    '(r, cache) ← checkAudio_loop rtpFrameList CRtpPacket_new cache RTP_FRAME_CACHE_SIZE;
    Some (r, with_cache (Some cache) this)
  end.

Section Processor.
  Context (unBlockSize : Z) (alloc : list Z -> bool).
  Context (findBusiness : Z -> option Z) (findSession : Z -> option Z).

(** [pBlock->copy(data)] on an empty block. *)
Definition block_copy (data : list Z) : list Z := if zlen data <=? unBlockSize then data else [].

(** [handlePsRtpPacket]: what [CDirectProcessor::Send] is given. *)
Definition handlePsRtpPacket (pRtpData : option (list Z)) : list (list Z) :=
  match pRtpData with
  | None => []
  | Some d =>
    if zlen d =? 0 then []
    else if alloc d then [block_copy d] else []
  end.

(** A method of the encapsulation, and its packets handled. *)
Definition encapsulate (m : M CPsRtpEncap (list Z) SVS_RET_CODE) : proc SVS_RET_CODE := fun this =>
  '(r, e, pkts) ← m (m_PsRtpEncap this);
  Some (r, with_encap e this, pkts ≫= (fun p => handlePsRtpPacket (Some p))).

Definition GetRecvVideoPT (this : CRtp2PsProcessor) : Z * CRtp2PsProcessor :=
  if negb (m_ucRecvVideoPT this =? 0) then (m_ucRecvVideoPT this, this)
  else
    match findBusiness (m_SendSessionId this) with
    | None => (m_ucRecvVideoPT this, this)
    | Some stream =>
      let this := match findSession stream with
                  | None => this
                  | Some pt => with_recv_pt (u8 pt) this
                  end in
      (m_ucRecvVideoPT this, this)
    end.

(** The time stamp of the first packet. *)
Definition frame_timestamp (rtpFrameList : list mblock) : option Z :=
  b ← head rtpFrameList;
  '(_, p) ← parse_block (mb_data b) CRtpPacket_new;
  GetTimeStamp p.

Definition HandleVideoRtpFrame (now : Z) (rtpFrameList : list mblock) : proc unit := fun this =>
  match m_pRtpFrameCache this with
  | None => Some (tt, this, [])
  | Some cache =>
    cache ← put cache [0x0; 0x0; 0x0; 0x1];
    let this := with_cache (Some cache) this in
    ulTimeTick ← frame_timestamp rtpFrameList;
    '(r, this) ← checkVideoRtpFrame rtpFrameList this;
    if decide (r ≠ RET_OK) then Some (tt, this, [])
    else if negb (m_pSendSession this) then Some (tt, this, [])
    else
      (encapsulate (insertVideoFrame now (m_pRtpFrameCache this) ulTimeTick);; mret tt) this
  end.

Definition HandleAudioRtpFrame (now : Z) (rtpFrameList : list mblock) : proc unit := fun this =>
  match m_pRtpFrameCache this with
  | None => Some (tt, this, [])
  | Some _ =>
    ulTimeTick ← frame_timestamp rtpFrameList;
    '(r, this) ← checkAudioRtpFrame rtpFrameList this;
    if decide (r ≠ RET_OK) then Some (tt, this, [])
    else if negb (m_pSendSession this) then Some (tt, this, [])
    else
      (encapsulate (insertAudioFrame now (m_pRtpFrameCache this) ulTimeTick);; mret tt) this
  end.

Definition handleRtpFrame (now : Z) (rtpFrameList : list mblock) : proc unit :=
  match rtpFrameList with
  | [] => mret tt
  | b :: _ =>
    this ← get;
    if 0 <? getWritePos this then mret tt
    else
      '(_, p) ← lift (parse_block (mb_data b) CRtpPacket_new);
      ucPT ← lift (GetPayloadType p);
      let '(pt, this) := GetRecvVideoPT this in
      modify (fun _ => this);;
      (if u8 ucPT =? pt then HandleVideoRtpFrame now rtpFrameList
       else HandleAudioRtpFrame now rtpFrameList);;
      modify reset_cache
  end.

(** The frames an organizer finished. *)
Fixpoint handle_frames (now : Z) (evs : list event) : proc unit :=
  match evs with
  | [] => mret tt
  | EvFrame bs :: evs => handleRtpFrame now bs;; handle_frames now evs
  | _ :: evs => handle_frames now evs
  end.

(** [Send]: [id] is the block the pool gives. *)
Definition Send (now id : Z) (pMb : option (list Z)) : proc unit :=
  match pMb with
  | None => mret tt
  | Some data =>
    this ← get;
    if negb (m_pSendSession this) then mret tt
    else if negb (alloc data) then mret tt
    else
      '(d, p) ← lift (parse_block (block_copy data) CRtpPacket_new);
      ucPT ← lift (GetPayloadType p);
      let pMediaBlock := {| mb_id := id; mb_data := d |} in
      let '(pt, this) := GetRecvVideoPT this in
      modify (fun _ => this);;
      (if u8 ucPT =? pt then
         '(_, o, evs) ← lift (insertRtpPacket Some (Some pMediaBlock) (m_VideoRtpFrameOrganizer this));
         modify (with_video_frames o);; handle_frames now evs
       else
         '(_, o, evs) ← lift (insertRtpPacket Some (Some pMediaBlock) (m_AudioRtpFrameOrganizer this));
         modify (with_audio_frames o);; handle_frames now evs)
  end.
End Processor.

(** [Init]: [session] is the result of the base class, which fails when a
    session is set already or none is found; [alloc1], [alloc2] the
    allocations of the encoder buffer and of the cache. *)
Definition Init (session : option Z) (alloc1 alloc2 : bool) (rand : Z) (this : CRtp2PsProcessor)
    : SVS_RET_CODE * CRtp2PsProcessor :=
  match session with
  | None => (RET_FAIL, this)
  | Some id =>
    if m_pSendSession this then (RET_FAIL, this)
    else
      let '(r, e) := PsRtpEncap.init true alloc1 rand (m_PsRtpEncap this) in
      let this := {| m_pSendSession := true; m_SendSessionId := id;
                     m_VideoRtpFrameOrganizer := m_VideoRtpFrameOrganizer this;
                     m_AudioRtpFrameOrganizer := m_AudioRtpFrameOrganizer this;
                     m_PsRtpEncap := e; m_ucRecvVideoPT := m_ucRecvVideoPT this;
                     m_pRtpFrameCache := m_pRtpFrameCache this |} in
      if decide (r ≠ RET_OK) then (RET_FAIL, this)
      else
        let '(r, v) := RtpFrameOrganizer.init true MAX_RTP_FRAME_CACHE_NUM
                         (m_VideoRtpFrameOrganizer this) in
        let this := with_video_frames v this in
        if decide (r ≠ RET_OK) then (RET_FAIL, this)
        else
          let '(r, a) := RtpFrameOrganizer.init true MAX_RTP_FRAME_CACHE_NUM
                           (m_AudioRtpFrameOrganizer this) in
          let this := with_audio_frames a this in
          if decide (r ≠ RET_OK) then (RET_FAIL, this)
          else
            (RET_OK,
             match m_pRtpFrameCache this with
             | None => if alloc2 then with_cache (Some []) this else this
             | Some _ => this
             end)
  end.

(** ** The cache after a frame *)

(** What the payloads of a frame become: the fragments of a NAL unit behind
    its header, everything else unchanged. *)
Fixpoint assemble (bRemoveHead : bool) (pls : list (list Z)) : list Z :=
  match pls with
  | [] => []
  | pl :: pls =>
    match pl with
    | i :: f :: c =>
      if H264_NALU_TYPE_FU_A =? nalu_TYPE i
      then if bRemoveHead then nal_header i f :: c ++ assemble false pls
           else c ++ assemble bRemoveHead pls
      else pl ++ assemble bRemoveHead pls
    | _ => pl ++ assemble bRemoveHead pls
    end
  end.

(** A payload has a first byte, a fragment also its header. *)
Definition payload_ok (pl : list Z) : Prop :=
  match pl with
  | [] => False
  | [i] => nalu_TYPE i <> H264_NALU_TYPE_FU_A
  | _ => True
  end.

(** A block with a plain header in front of the payload [pl]. *)
Definition plain_block (b : mblock) (pl : list Z) : Prop :=
  exists f, fields_of (mb_data b) = Some f /\ plain_fields f /\ drop 12 (mb_data b) = pl.

Lemma parse_block_plain d f p : fields_of d = Some f -> plain_fields f ->
  parse_block d p = Some (d, with_head_len 12 (attach d p)).
Proof.
  intros Hf Hp. unfold parse_block. rewrite (ParsePacket_plain d f p Hf Hp). cbn [mbind option_bind].
  pose proof (fields_of_length _ _ Hf). unfold RTP_FIXED_HEADER_SIZE.
  by rewrite (proj2 (Z.ltb_ge _ _)) by lia.
Qed.

Lemma put_ok cache bs : zlen cache + zlen bs <= RTP_FRAME_CACHE_SIZE ->
  put cache bs = Some (cache ++ bs).
Proof. intros H. unfold put. by rewrite (proj2 (Z.leb_le _ _)). Qed.

Lemma rd_ptr_12 d : 12 <= zlen d -> rd_ptr 12 d = Some (drop 12 d).
Proof. intros H. unfold rd_ptr. by rewrite (proj2 (Z.leb_le _ _)). Qed.

Lemma rd_ptr_1 x d : rd_ptr 1 (x :: d) = Some d.
Proof. unfold rd_ptr. rewrite (proj2 (Z.leb_le _ _)); [done|]. rewrite zlen_cons. pose proof (zlen_nonneg d). lia. Qed.

Lemma checkVideo_loop_spec bs pls : Forall2 plain_block bs pls -> Forall payload_ok pls ->
  forall p cache un head, zlen (assemble head pls) <= un < 2 ^ 32 ->
  zlen cache + zlen (assemble head pls) <= RTP_FRAME_CACHE_SIZE ->
  checkVideo_loop bs p cache un head = Some (RET_OK, cache ++ assemble head pls).
Proof.
  induction 1 as [|b pl bs pls (f & Hf & Hp & Hd) _ IH]; intros Hok p cache un head Hun Hc.
  { cbn. by rewrite app_nil_r. }
  apply Forall_cons in Hok as [Hpl Hok]. pose proof (fields_of_length _ _ Hf).
  cbn [checkVideo_loop]. rewrite (parse_block_plain _ _ _ Hf Hp). cbn [mbind option_bind].
  change (GetHeadLen _) with 12. rewrite rd_ptr_12, Hd by lia. cbn [mbind option_bind].
  destruct pl as [|i pl]; [done|]. change (rd (i :: pl) 0) with (Some i). cbn [mbind option_bind].
  destruct pl as [|f0 c].
  { rewrite (proj2 (Z.eqb_neq _ _)) by (by apply not_eq_sym). cbn [mbind option_bind].
    cbn [assemble] in *. rewrite zlen_app in *. pose proof (zlen_nonneg (assemble head pls)).
    pose proof (zlen_nonneg [i]).
    rewrite (proj2 (Z.leb_le _ _)), put_ok by lia. cbn [mbind option_bind].
    rewrite IH; [by rewrite <-app_assoc|done|lia|rewrite zlen_app; lia]. }
  pose proof (zlen_nonneg c). pose proof (zlen_nonneg (i :: f0 :: c)).
  cbn [assemble] in *. destruct (H264_NALU_TYPE_FU_A =? nalu_TYPE i).
  - rewrite rd_ptr_1. cbn [mbind option_bind]. destruct head.
    + change (rd (f0 :: c) 0) with (Some f0). cbn [mbind option_bind].
      rewrite zlen_cons, zlen_app in *. pose proof (zlen_nonneg (assemble false pls)).
      rewrite put_ok by (rewrite zlen_cons, zlen_nil; lia). cbn [mbind option_bind].
      rewrite rd_ptr_1. cbn [mbind option_bind]. unfold u32. rewrite wrap_small by solve_fits.
      rewrite (proj2 (Z.leb_le _ _)), put_ok by (rewrite ?zlen_app, ?zlen_cons, ?zlen_nil; lia).
      cbn [mbind option_bind].
      rewrite IH; [by rewrite <-!app_assoc|done|lia|rewrite !zlen_app, zlen_cons, zlen_nil; lia].
    + rewrite rd_ptr_1. cbn [mbind option_bind]. rewrite zlen_app in *.
      pose proof (zlen_nonneg (assemble false pls)).
      rewrite (proj2 (Z.leb_le _ _)), put_ok by lia. cbn [mbind option_bind].
      rewrite IH; [by rewrite <-app_assoc|done|lia|rewrite zlen_app; lia].
  - cbn [mbind option_bind]. rewrite zlen_app in *. pose proof (zlen_nonneg (assemble head pls)).
    rewrite (proj2 (Z.leb_le _ _)), put_ok by lia. cbn [mbind option_bind].
    rewrite IH; [by rewrite <-app_assoc|done|lia|rewrite zlen_app; lia].
Qed.

(** The packets of one NAL unit give that NAL unit. *)
Lemma nal_header_restore h S E : is_byte h -> nal_header (fu_indicator h) (fu_header h S E) = h.
Proof.
  intros Hh. apply Z.eqb_eq.
  apply (forall_fits 8 (fun h => nal_header (fu_indicator h) (fu_header h S E) =? h) h Hh).
  destruct S, E; by vm_compute.
Qed.

Lemma fu_indicator_type h : is_byte h ->
  (H264_NALU_TYPE_FU_A =? nalu_TYPE (fu_indicator h)) = true.
Proof.
  intros Hh. apply (forall_fits 8 (fun h => H264_NALU_TYPE_FU_A =? nalu_TYPE (fu_indicator h)) h Hh).
  by vm_compute.
Qed.

Lemma assemble_fragments h S cs : is_byte h -> assemble false (fu_payloads h S cs) = concat cs.
Proof.
  intros Hh. revert S. induction cs as [|c cs IH]; intros S; [done|].
  cbn [fu_payloads assemble concat]. by rewrite fu_indicator_type, IH.
Qed.

Lemma fu_payloads_ok h S cs : Forall payload_ok (fu_payloads h S cs).
Proof. revert S. induction cs; intros S; constructor; [done|auto]. Qed.

Lemma assemble_nal nal h : hd_error nal = Some h -> is_byte h -> nalu_TYPE h <> RTP_FUA ->
  assemble true (nal_payloads nal) = nal /\ Forall payload_ok (nal_payloads nal).
Proof.
  destruct nal as [|x body]; [done|]. intros [= ->] Hh Ht. cbn [nal_payloads]. unfold RTP_PLAYLOAD_LEN.
  assert ((H264_NALU_TYPE_FU_A =? nalu_TYPE h) = false) as Hne
    by (apply Z.eqb_neq; by apply not_eq_sym).
  destruct (Z.leb_spec (zlen body) 1400) as [Hl|Hl].
  - destruct body as [|y body]; cbn [assemble]; rewrite ?Hne, ?app_nil_r.
    + split; [done|]. by repeat constructor.
    + split; [done|]. by repeat constructor.
  - assert (concat (chunks 1400 (length body) body) = body) as Hc by (apply concat_chunks; lia).
    split; [|apply fu_payloads_ok].
    pose proof (chunks_ne 1400 (length body) body ltac:(unfold zlen in Hl; lia)) as Hcs.
    destruct (chunks 1400 (length body) body) as [|c cs]; [done|].
    cbn [fu_payloads assemble]. rewrite fu_indicator_type, nal_header_restore, assemble_fragments by done.
    by rewrite <-Hc.
Qed.

(** ** Frames through the encapsulation *)

Record proc_ok (this : CRtp2PsProcessor) : Prop := {
  proc_session : m_pSendSession this = true;
  proc_cache : m_pRtpFrameCache this = Some [];
  proc_encap : encap_ok (m_PsRtpEncap this);
  proc_enc : enc_ok (m_MpegPsEncap (m_PsRtpEncap this)) }.

(** The first block of a frame: payload type and time stamp. *)
Definition video_block (pt ts : Z) (b : mblock) : Prop :=
  exists f, fields_of (mb_data b) = Some f /\ plain_fields f /\ f_payload f = pt /\ f_timestamp f = ts.

Lemma getters_parsed d f : fields_of d = Some f ->
  GetPayloadType (with_head_len 12 (attach d CRtpPacket_new)) = Some (f_payload f) /\
  GetTimeStamp (with_head_len 12 (attach d CRtpPacket_new)) = Some (f_timestamp f).
Proof.
  intros Hf. by destruct (getters_spec (with_head_len 12 (attach d CRtpPacket_new)) f eq_refl Hf)
    as (_ & Ht & Hp & _).
Qed.

Section Frames.
  Context (unBlockSize : Z) (alloc : list Z -> bool).
  Context (findBusiness : Z -> option Z) (findSession : Z -> option Z).
  Hypothesis block_size : MAX_ENCAP_RTP_SIZE <= unBlockSize.
  Hypothesis alloc_ok : forall d, alloc d = true.

Lemma handlePsRtpPacket_all pkts : Forall (fun p => 0 < zlen p <= 1418) pkts ->
  pkts ≫= (fun p => handlePsRtpPacket unBlockSize alloc (Some p)) = pkts.
Proof.
  induction 1 as [|p pkts Hp _ IH]; [done|].
  change ((p :: pkts) ≫= ?f) with (f p ++ (pkts ≫= f)). cbv beta. rewrite IH.
  unfold handlePsRtpPacket, block_copy. unfold MAX_ENCAP_RTP_SIZE in block_size.
  rewrite (proj2 (Z.eqb_neq _ _)), alloc_ok, (proj2 (Z.leb_le _ _)) by lia. done.
Qed.

(** A finished video frame leaves as the packets of a program stream that
    decodes to its assembled NAL units behind one start code. *)
Lemma handleRtpFrame_video now bs pls pt ts this (n : Z) : proc_ok this ->
  m_ucRecvVideoPT this = pt -> 0 < pt < 128 ->
  Forall2 plain_block bs pls -> Forall payload_ok pls ->
  match bs with b :: _ => video_block pt ts b | [] => False end ->
  1 <= zlen (assemble true pls) <= RTP_FRAME_CACHE_SIZE - 4 -> fits 32 ts ->
  INVALID_TIMESTAMP <> next_pts (m_unVideoTimestamp (m_MpegPsEncap (m_PsRtpEncap this)))
                         (m_ullVideoPts (m_MpegPsEncap (m_PsRtpEncap this))) ts ->
  exists e outs spec k fuel,
    handleRtpFrame unBlockSize alloc findBusiness findSession now bs this =
      Some (tt, with_encap e this, outs) /\
    encap_ok e /\ enc_ok (m_MpegPsEncap e) /\
    ps_packets_are (m_usRtpSeq (m_PsRtpEncap this)) ts spec outs /\
    spec.*1 = replicate k false ++ [true] /\
    writePsStream fuel true (Some (concat (drop 12 <$> outs))) ts =
      Ret (0, [EsVideo ([0; 0; 0; 1] ++ assemble true pls) ts VIDEO_STREAM_TYPE_H264]).
Proof.
  intros [Hs Hc He Hn] Hpt Hpt0 Hbs Hok Hfirst Hlen Hts Hpts.
  destruct bs as [|b bs]; [done|]. destruct Hfirst as (f & Hf & Hpl & Hfp & Hft).
  set (frame := [0; 0; 0; 1] ++ assemble true pls).
  assert (zlen frame = 4 + zlen (assemble true pls)) as Hframe by (unfold frame; zl).
  unfold RTP_FRAME_CACHE_SIZE in Hlen.
  destruct (insertVideoFrame_spec now frame ts (m_PsRtpEncap this) He Hn Hts)
    as (e & pkts & spec & k & fuel & E & Hok' & Hn' & _ & Hp & Hm & Hb & Hdec);
    [unfold MIN_NALU_SIZE, MAX_BUFFER_LEN; lia|done|].
  exists e, pkts, spec, k, fuel. split; [|by repeat (split; [done|])].
  unfold handleRtpFrame. rewrite get_bind. cbv beta. unfold getWritePos. rewrite Hc.
  change (0 <? u32 (zlen (@nil Z))) with false. cbn beta iota.
  rewrite (parse_block_plain _ _ _ Hf Hpl).
  destruct (getters_parsed _ _ Hf) as [Gp Gt]. rewrite Hfp in Gp. rewrite Hft in Gt.
  unfold lift. cbv [mbind M_bind]. cbn [option_bind]. rewrite Gp. cbn [option_bind].
  unfold GetRecvVideoPT. rewrite Hpt, (proj2 (Z.eqb_neq _ _)) by lia. cbn [negb].
  unfold modify. cbn [option_bind].
  unfold u8. rewrite wrap_small, Z.eqb_refl by solve_fits.
  unfold HandleVideoRtpFrame. cbv beta. rewrite Hc, put_ok by (unfold RTP_FRAME_CACHE_SIZE; done).
  cbn [mbind option_bind app]. unfold frame_timestamp. cbn [head mbind option_bind].
  rewrite (parse_block_plain _ _ _ Hf Hpl). cbn [mbind option_bind]. rewrite Gt.
  cbn [mbind option_bind]. unfold checkVideoRtpFrame. cbn [m_pRtpFrameCache with_cache].
  rewrite (checkVideo_loop_spec (b :: bs) pls Hbs Hok);
    [|unfold RTP_FRAME_CACHE_SIZE; lia|unfold RTP_FRAME_CACHE_SIZE; change (zlen [0; 0; 0; 1]) with 4; lia].
  cbn [mbind option_bind]. rewrite decide_False by (by intros []). cbn [m_pSendSession with_cache].
  rewrite Hs. cbn [negb m_pRtpFrameCache with_cache].
  change ([0; 0; 0; 1] ++ assemble true pls) with frame.
  assert (Forall (fun p => 0 < zlen p <= 1418) pkts) as Hsz.
  { rewrite Forall_forall in Hb |- *. intros p Hin. split; [|by apply Hb].
    assert (12 <= zlen p); [|lia]. clear -Hp Hin. revert Hp.
    generalize (m_usRtpSeq (m_PsRtpEncap this)). revert spec Hin. induction pkts as [|q pkts IH].
    { intros ? Hin. by apply elem_of_nil in Hin. }
    intros spec Hin seq Hp. destruct spec as [|[m pl] spec]; [done|]. destruct Hp as [[_ _ Hq] Hp].
    apply elem_of_cons in Hin as [->|Hin]; [|by eapply IH]. pose proof (zlen_nonneg pl). lia. }
  unfold encapsulate. cbn [m_PsRtpEncap with_cache]. cbv [mbind M_bind].
  cbn [m_PsRtpEncap with_cache]. rewrite E. cbn [option_bind].
  pose proof (handlePsRtpPacket_all pkts Hsz) as Hall. cbv [mbind] in Hall. rewrite Hall.
  cbv [mret M_ret modify option_bind]. rewrite !app_nil_r. destruct this. cbn in *. by subst.
Qed.

(** ** A run of packets *)

Fixpoint sends (now : Z) (l : list mblock) : proc unit :=
  match l with
  | [] => mret tt
  | b :: l =>
    Send unBlockSize alloc findBusiness findSession now (mb_id b) (Some (mb_data b));;
    sends now l
  end.

(** A packet the processor takes for video. *)
Definition is_video (pt : Z) (b : mblock) : Prop :=
  exists f, fields_of (mb_data b) = Some f /\ plain_fields f /\ f_payload f = pt /\
    zlen (mb_data b) <= unBlockSize.

Lemma Send_video now pt b this o r evs : m_pSendSession this = true ->
  m_ucRecvVideoPT this = pt -> 0 < pt < 128 -> is_video pt b ->
  insertRtpPacket Some (Some b) (m_VideoRtpFrameOrganizer this) = Some (r, o, evs) ->
  Send unBlockSize alloc findBusiness findSession now (mb_id b) (Some (mb_data b)) this =
    handle_frames unBlockSize alloc findBusiness findSession now evs (with_video_frames o this).
Proof.
  intros Hs Hpt Hpt0 (f & Hf & Hp & Hfp & Hl) Hi. unfold Send. rewrite get_bind. cbv beta. rewrite Hs, alloc_ok.
  cbn [negb]. unfold block_copy. rewrite (proj2 (Z.leb_le _ _)) by done.
  rewrite (parse_block_plain _ _ _ Hf Hp). destruct (getters_parsed _ _ Hf) as [Gp _].
  unfold lift. cbv [mbind M_bind]. cbn [option_bind]. rewrite Gp, Hfp. cbn [option_bind].
  unfold GetRecvVideoPT. rewrite Hpt, (proj2 (Z.eqb_neq _ _)) by lia. cbn [negb].
  unfold modify. cbn [option_bind]. unfold u8. rewrite wrap_small, Z.eqb_refl by solve_fits.
  assert ({| mb_id := mb_id b; mb_data := mb_data b |} = b) as -> by (by destruct b).
  rewrite Hi. cbn [option_bind app].
  by destruct (handle_frames _ _ _ _ _ _ _) as [[[[] ?] ?]|].
Qed.

Lemma handle_frames_none now evs this : frames evs = [] ->
  handle_frames unBlockSize alloc findBusiness findSession now evs this = Some (tt, this, []).
Proof. induction evs as [|[b|b|bs] evs IH]; intros H; [done|by apply IH|by apply IH|done]. Qed.

Lemma handle_frames_one now bs evs this : frames evs = [bs] ->
  handle_frames unBlockSize alloc findBusiness findSession now evs this =
    handleRtpFrame unBlockSize alloc findBusiness findSession now bs this.
Proof.
  induction evs as [|[b|b|bs'] evs IH]; intros H; [done|by apply IH|by apply IH|].
  cbn in H. injection H as <- H. cbn [handle_frames].
  cbv [mbind M_bind]. destruct (handleRtpFrame _ _ _ _ _ _ _) as [[[[] t] o]|]; [|done].
  cbn [option_bind]. rewrite handle_frames_none by done. cbn [option_bind]. by rewrite app_nil_r.
Qed.

(** Packets that finish no frame are only collected. *)
Lemma sends_collect now pt l this o evs : m_pSendSession this = true ->
  m_ucRecvVideoPT this = pt -> 0 < pt < 128 -> Forall (is_video pt) l ->
  run Some l (m_VideoRtpFrameOrganizer this) = Some (o, evs) -> frames evs = [] ->
  sends now l this = Some (tt, with_video_frames o this, []).
Proof.
  intros Hs Hpt Hpt0 Hl. revert this o evs Hs Hpt. induction Hl as [|b l Hb _ IH]; intros this o evs Hs Hpt.
  { cbn. intros [= <- <-] _. by destruct this. }
  cbn [run]. destruct (insertRtpPacket _ _ _) as [[[r o1] ev1]|] eqn:E1; [|done].
  cbn [mbind option_bind]. destruct (run _ l o1) as [[o2 ev2]|] eqn:E2; [|done].
  cbn [mbind option_bind]. intros [= <- <-]. rewrite frames_app. intros [Hf1 Hf2]%app_nil.
  cbn [sends]. erewrite bind_eq.
  2: { rewrite (Send_video now pt b this o1 r ev1) by done. by apply handle_frames_none. }
  cbv beta. rewrite (IH (with_video_frames o1 this) o2 ev2) by done. done.
Qed.
End Frames.

(** ** The packets of the packager *)

(** Block [i] of a frame sent by [CH264Packager]. *)
Lemma sent_block pt seq ts pls bs i b : fits 16 seq -> Forall (fun pl => zlen pl <= 1402) pls ->
  mb_data <$> bs = frame_of pt seq ts pls -> seq + zlen bs <= 65536 -> bs !! i = Some b ->
  exists f, fields_of (mb_data b) = Some f /\ plain_fields f /\ f_payload f = pt mod 128 /\
    f_seq f = seq + Z.of_nat i /\ f_timestamp f = u32 ts /\
    negb (f_marker f =? 0) = bool_decide (S i = length bs) /\ zlen (mb_data b) <= 1414 /\
    pls !! i = Some (drop 12 (mb_data b)).
Proof.
  intros Hseq Hb Hbs Hw Hi.
  assert (frame_of pt seq ts pls !! i = Some (mb_data b)) as Hl by (by rewrite <-Hbs, list_lookup_fmap, Hi).
  destruct (frame_of_headers _ _ _ _ _ _ _ Hseq Hb Hl) as [Hz Hf]. eexists. split; [exact Hf|].
  split; [done|]. split; [done|]. split.
  { cbn. unfold u16. apply wrap_small. apply lookup_lt_Some in Hi. unfold fits, zlen in *. lia. }
  split; [done|]. split.
  { cbn [f_marker]. rewrite <-Hbs, length_fmap. by repeat case_bool_decide. }
  split; [lia|]. apply (f_equal (fun l => drop 12 <$> l)) in Hbs. rewrite depacketize_frame in Hbs.
  by rewrite <-Hbs, !list_lookup_fmap, Hi.
Qed.

Lemma sent_frame_packets pt seq ts pls body l : fits 16 seq ->
  Forall (fun pl => zlen pl <= 1402) pls ->
  mb_data <$> (body ++ [l]) = frame_of pt seq ts pls -> seq + zlen (body ++ [l]) <= 65536 ->
  frame_packets (u32 ts) seq body l.
Proof.
  intros Hseq Hb Hbs Hw. split.
  - apply Forall2_same_length_lookup_2; [rewrite length_seqZ; unfold zlen; lia|].
    intros i x b Hx Hi. apply lookup_seqZ in Hx as [-> Hlt].
    destruct (sent_block pt seq ts pls (body ++ [l]) i b Hseq Hb Hbs Hw)
      as (f & Hf & Hp & _ & Hs & Ht & Hm & _).
    { rewrite lookup_app_l; [done|]. unfold zlen in Hlt. lia. }
    exists f. split; [done|]. split; [done|]. split; [done|]. split; [done|].
    rewrite Hm. apply bool_decide_eq_false. rewrite length_app. unfold zlen in Hlt. cbn. lia.
  - destruct (sent_block pt seq ts pls (body ++ [l]) (length body) l Hseq Hb Hbs Hw)
      as (f & Hf & Hp & _ & Hs & Ht & Hm & _).
    { by rewrite lookup_app_r, Nat.sub_diag by done. }
    exists f. split; [done|]. split; [done|]. split; [done|]. split; [done|].
    rewrite Hm. apply bool_decide_eq_true. rewrite length_app. cbn. lia.
Qed.

Lemma sent_plain_blocks pt seq ts pls bs : fits 16 seq -> Forall (fun pl => zlen pl <= 1402) pls ->
  mb_data <$> bs = frame_of pt seq ts pls -> seq + zlen bs <= 65536 -> Forall2 plain_block bs pls.
Proof.
  intros Hseq Hb Hbs Hw. apply Forall2_same_length_lookup_2.
  { apply (f_equal length) in Hbs. rewrite length_fmap in Hbs. rewrite Hbs.
    apply Nat2Z.inj. apply frame_of_length. }
  intros i b pl Hi Hpl.
  destruct (sent_block pt seq ts pls bs i b Hseq Hb Hbs Hw Hi) as (f & Hf & Hp & _ & _ & _ & _ & _ & Hd).
  exists f. split; [done|]. split; [done|]. rewrite Hpl in Hd. by injection Hd.
Qed.

Section Pipeline.
  Context (unBlockSize : Z) (alloc : list Z -> bool).
  Context (findBusiness : Z -> option Z) (findSession : Z -> option Z).
  Hypothesis block_size : MAX_ENCAP_RTP_SIZE <= unBlockSize.
  Hypothesis alloc_ok : forall d, alloc d = true.

(** The packets of one frame in any order, the last one last. *)
Lemma sends_frame now pt seq ts pls body l arr this : fits 16 seq ->
  Forall (fun pl => zlen pl <= 1402) pls -> Forall payload_ok pls ->
  mb_data <$> (body ++ [l]) = frame_of pt seq ts pls -> seq + zlen (body ++ [l]) <= 65536 ->
  arr ≡ₚ body -> proc_ok this -> collecting (u32 ts) [] (m_VideoRtpFrameOrganizer this) ->
  m_ucRecvVideoPT this = pt mod 128 -> pt mod 128 <> 0 ->
  1 <= zlen (assemble true pls) <= RTP_FRAME_CACHE_SIZE - 4 ->
  INVALID_TIMESTAMP <> next_pts (m_unVideoTimestamp (m_MpegPsEncap (m_PsRtpEncap this)))
                         (m_ullVideoPts (m_MpegPsEncap (m_PsRtpEncap this))) (u32 ts) ->
  exists this' outs spec k fuel,
    sends unBlockSize alloc findBusiness findSession now (arr ++ [l]) this = Some (tt, this', outs) /\
    proc_ok this' /\ m_RtpFrameMap (m_VideoRtpFrameOrganizer this') = ∅ /\
    ps_packets_are (m_usRtpSeq (m_PsRtpEncap this)) (u32 ts) spec outs /\
    spec.*1 = replicate k false ++ [true] /\
    writePsStream fuel true (Some (concat (drop 12 <$> outs))) (u32 ts) =
      Ret (0, [EsVideo ([0; 0; 0; 1] ++ assemble true pls) (u32 ts) VIDEO_STREAM_TYPE_H264]).
Proof.
  intros Hseq Hb Hok Hbs Hw Harr Hproc Hcol Hpt Hpt0 Hlen Hpts.
  set (o := m_VideoRtpFrameOrganizer this) in *.
  assert (0 < pt mod 128 < 128) as Hpt1 by lia.
  pose proof (sent_frame_packets pt seq ts pls body l Hseq Hb Hbs Hw) as Hfp.
  assert (forall b, b ∈ body ++ [l] -> is_video unBlockSize (pt mod 128) b) as Hvid.
  { intros b [i Hi]%list_elem_of_lookup.
    destruct (sent_block pt seq ts pls _ i b Hseq Hb Hbs Hw Hi) as (f & Hf & Hp & Hfpt & _ & _ & _ & Hz & _).
    exists f. split; [done|]. split; [done|]. split; [done|]. unfold MAX_ENCAP_RTP_SIZE in block_size. lia. }
  destruct (run_complete (u32 ts) (fun b => b) (fun b => eq_refl) seq body l arr o Hfp Harr Hcol)
    as (o2 & ev & Hrun & Hfr & Hmap & _).
  rewrite run_app in Hrun.
  assert (Forall (fun b => exists s, plain_packet s (u32 ts) false b) arr) as Hplain.
  { rewrite Harr. destruct Hfp as [Hbody _]. clear -Hbody. induction Hbody; constructor; eauto. }
  destruct (run_collecting (u32 ts) (fun b => b) (fun b => eq_refl) arr [] o Hcol eq_refl Hplain)
    as (o1 & ev1 & _ & Hr1 & _ & _ & Hf1 & _).
  rewrite Hr1 in Hrun. cbn [run mbind option_bind] in Hrun.
  destruct (insertRtpPacket _ (Some l) o1) as [[[r o2'] ev2]|] eqn:Hi; [|done].
  cbn [mbind option_bind] in Hrun. injection Hrun as -> <-.
  rewrite app_nil_r, frames_app, Hf1, list_fmap_id in Hfr. cbn [app] in Hfr.
  destruct Hproc as [Hs Hc He Hn].
  assert (proc_ok (with_video_frames o2 this)) as Hproc2 by (by split).
  destruct (handleRtpFrame_video unBlockSize alloc findBusiness findSession block_size alloc_ok
    now (body ++ [l]) pls (pt mod 128) (u32 ts) (with_video_frames o2 this) 0 Hproc2 Hpt Hpt1
    (sent_plain_blocks pt seq ts pls _ Hseq Hb Hbs Hw) Hok)
    as (e & outs & spec & k & fuel & Eh & He' & Hn' & Hpk & Hm & Hdec); [|done|by apply wrap_fits|done|].
  { destruct (body ++ [l]) as [|b bs] eqn:E; [by destruct body|].
    destruct (sent_block pt seq ts pls _ 0%nat b Hseq Hb Hbs Hw eq_refl)
      as (f & Hf & Hp & Hfpt & _ & Ht & _).
    by exists f. }
  exists (with_encap e (with_video_frames o2 this)), outs, spec, k, fuel.
  split; [|split; [by split|by repeat (split; [done|])]].
  assert (forall l1 l2 s, sends unBlockSize alloc findBusiness findSession now (l1 ++ l2) s =
    (sends unBlockSize alloc findBusiness findSession now l1;;
     sends unBlockSize alloc findBusiness findSession now l2) s) as Happ.
  { clear. induction l1 as [|b l1 IH]; intros l2 s; [cbn [sends app]; by rewrite ret_bind|].
    cbn [sends app]. rewrite bind_assoc. apply bind_ext. intros [] s'. apply IH. }
  rewrite Happ. erewrite bind_eq.
  2: { eapply sends_collect; [done|done|exact Hpt|done| |exact Hr1|exact Hf1].
       rewrite Harr. apply Forall_forall. intros b Hin. apply Hvid. apply elem_of_app. by left. }
  cbv beta. cbn [sends].
  erewrite (bind_run _ _ _ tt (with_encap e (with_video_frames o2 this)) outs); [|
    |reflexivity].
  - cbn [mbind option_bind]. by rewrite app_nil_r.
  - rewrite (Send_video unBlockSize alloc findBusiness findSession alloc_ok now (pt mod 128) l _ o2 r ev2); [|done|exact Hpt|done| |exact Hi].
    + rewrite (handle_frames_one _ _ _ _ now (body ++ [l])) by done. exact Eh.
    + apply Hvid. apply elem_of_app. right. constructor.
Qed.
End Pipeline.

(** Packets that are no fragments, in front of others. *)
Lemma checkVideo_loop_plain bs1 pls : Forall2 plain_block bs1 pls ->
  Forall (fun pl => match pl with i :: _ => nalu_TYPE i <> H264_NALU_TYPE_FU_A | [] => False end) pls ->
  forall bs2 p cache un head, zlen (concat pls) <= un ->
  zlen cache + zlen (concat pls) <= RTP_FRAME_CACHE_SIZE ->
  exists q, checkVideo_loop (bs1 ++ bs2) p cache un head =
    checkVideo_loop bs2 q (cache ++ concat pls) (un - zlen (concat pls)) head.
Proof.
  induction 1 as [|b pl bs pls (f & Hf & Hp & Hd) _ IH]; intros Hok bs2 p cache un head Hun Hc.
  { exists p. cbn [concat app]. by rewrite app_nil_r, zlen_nil, Z.sub_0_r. }
  apply Forall_cons in Hok as [Hpl Hok]. pose proof (fields_of_length _ _ Hf).
  cbn [app checkVideo_loop concat] in *. rewrite (parse_block_plain _ _ _ Hf Hp).
  cbn [mbind option_bind]. change (GetHeadLen _) with 12. rewrite rd_ptr_12, Hd by lia.
  cbn [mbind option_bind]. destruct pl as [|i pl]; [done|].
  change (rd (i :: pl) 0) with (Some i). cbn [mbind option_bind].
  rewrite (proj2 (Z.eqb_neq _ _)) by (by apply not_eq_sym). cbn [mbind option_bind].
  rewrite zlen_app in *. pose proof (zlen_nonneg (concat pls)). pose proof (zlen_nonneg (i :: pl)).
  rewrite (proj2 (Z.leb_le _ _)), put_ok by lia. cbn [mbind option_bind].
  destruct (IH Hok bs2 (with_head_len 12 (attach (mb_data b) p)) (cache ++ i :: pl)
    (un - zlen (i :: pl)) head) as [q E]; [lia|rewrite zlen_app; lia|].
  exists q. rewrite E, <-app_assoc. f_equal. lia.
Qed.

Lemma assemble_plain head pls :
  Forall (fun pl => match pl with i :: _ => nalu_TYPE i <> H264_NALU_TYPE_FU_A | [] => False end) pls ->
  assemble head pls = concat pls /\ Forall payload_ok pls.
Proof.
  induction 1 as [|pl pls Hpl _ [IH1 IH2]]; [done|]. destruct pl as [|i [|f c]]; [done|..].
  - cbn [assemble concat]. rewrite IH1. split; [done|]. by constructor.
  - cbn [assemble concat]. rewrite (proj2 (Z.eqb_neq _ _)) by (by apply not_eq_sym).
    rewrite IH1. split; [done|]. by constructor.
Qed.

(** ** Properties *)


(** A frame whose packets carry several NAL units (parameter sets and a
    picture with one time stamp): they end up behind a single start code, as
    one NAL unit. *)
Theorem handleRtpFrame_merges_nals unBlockSize alloc findBusiness findSession now bs pls pt ts this
    (Hsize : MAX_ENCAP_RTP_SIZE <= unBlockSize) (Halloc : forall d, alloc d = true)
    (Hproc : proc_ok this) (Hpt : m_ucRecvVideoPT this = pt) (Hpt0 : 0 < pt < 128)
    (Hbs : Forall2 plain_block bs pls)
    (Hpls : Forall (fun pl => match pl with i :: _ => nalu_TYPE i <> H264_NALU_TYPE_FU_A
                              | [] => False end) pls)
    (Hfirst : match bs with b :: _ => video_block pt ts b | [] => False end)
    (Hlen : zlen (concat pls) <= RTP_FRAME_CACHE_SIZE - 4) (Hts : fits 32 ts)
    (Hpts : INVALID_TIMESTAMP <> next_pts (m_unVideoTimestamp (m_MpegPsEncap (m_PsRtpEncap this)))
              (m_ullVideoPts (m_MpegPsEncap (m_PsRtpEncap this))) ts) :
  exists this' outs fuel,
    handleRtpFrame unBlockSize alloc findBusiness findSession now bs this = Some (tt, this', outs) /\
    writePsStream fuel true (Some (concat (drop 12 <$> outs))) ts =
      Ret (0, [EsVideo ([0; 0; 0; 1] ++ concat pls) ts VIDEO_STREAM_TYPE_H264]).
Proof.
  destruct (assemble_plain true pls Hpls) as [Ha Hok].
  destruct (handleRtpFrame_video unBlockSize alloc findBusiness findSession Hsize Halloc
    now bs pls pt ts this 0 Hproc Hpt Hpt0 Hbs Hok Hfirst)
    as (e & outs & spec & k & fuel & E & _ & _ & _ & _ & Hdec); [|done|done|].
  - rewrite Ha. split; [|done]. destruct Hbs as [|b pl bs pls _ _]; [done|].
    apply Forall_cons in Hpls as [Hpl _]. destruct pl; [done|]. cbn [concat app].
    rewrite zlen_cons. pose proof (zlen_nonneg (pl ++ concat pls)). lia.
  - rewrite Ha in Hdec. by eexists _, outs, fuel.
Qed.

(** The header byte of a fragment is counted without a check: when other
    packets of the frame have filled the cache exactly, it is written past its
    end. *)
Theorem fragment_overruns_cache bs1 pls b i f c bs2 this
    (Hcache : m_pRtpFrameCache this = Some [0; 0; 0; 1])
    (Hbs : Forall2 plain_block bs1 pls)
    (Hpls : Forall (fun pl => match pl with i :: _ => nalu_TYPE i <> H264_NALU_TYPE_FU_A
                              | [] => False end) pls)
    (Hfull : zlen (concat pls) = RTP_FRAME_CACHE_SIZE - 4)
    (Hb : plain_block b (i :: f :: c)) (Hi : nalu_TYPE i = H264_NALU_TYPE_FU_A) :
  checkVideoRtpFrame (bs1 ++ b :: bs2) this = None.
Proof.
  unfold checkVideoRtpFrame. rewrite Hcache.
  destruct (checkVideo_loop_plain bs1 pls Hbs Hpls (b :: bs2) CRtpPacket_new [0; 0; 0; 1]
    (RTP_FRAME_CACHE_SIZE - 4) true) as [q E]; [lia|rewrite Hfull; done|].
  rewrite E. destruct Hb as (fl & Hf & Hp & Hd). pose proof (fields_of_length _ _ Hf).
  cbn [checkVideo_loop]. rewrite (parse_block_plain _ _ _ Hf Hp). cbn [mbind option_bind].
  change (GetHeadLen _) with 12. rewrite rd_ptr_12, Hd by lia. cbn [mbind option_bind].
  change (rd (i :: f :: c) 0) with (Some i). cbn [mbind option_bind].
  rewrite Hi, Z.eqb_refl, rd_ptr_1. cbn [mbind option_bind].
  change (rd (f :: c) 0) with (Some f). cbn [mbind option_bind]. unfold put.
  rewrite (proj2 (Z.leb_gt _ _)); [done|]. rewrite zlen_app, Hfull.
  change (zlen [0; 0; 0; 1]) with 4. rewrite zlen_cons, zlen_nil. lia.
Qed.

(** ** The properties at concrete packets *)

Definition demo_proc : CRtp2PsProcessor :=
  with_recv_pt (m_ulVideoPt CH264Packager_new mod 128)
    (Init (Some 7) true true 65535 CRtp2PsProcessor_new).2.

Lemma demo_proc_ok : proc_ok demo_proc.
Proof. split; [done|done|split; by vm_compute|by split]. Qed.

Definition demo_frame : list Z := [0; 0; 0; 1] ++ demo_nal 3000.
Definition demo_pkts : list (list Z) :=
  default [] (snd <$> SendRawVideoData demo_frame 40 CH264Packager_new).
Definition demo_block (i : nat) : mblock :=
  {| mb_id := Z.of_nat i; mb_data := default [] (demo_pkts !! i) |}.


Definition demo_single (pl : list Z) : mblock :=
  {| mb_id := 0; mb_data := [128; 96; 0; 5; 0; 0; 35; 40; 0; 0; 0; 9] ++ pl |}.

Lemma demo_single_plain pl : plain_block (demo_single pl) pl.
Proof. eexists. split; [reflexivity|]. by split. Qed.

(** A sequence parameter set, a picture parameter set and a slice. *)
Lemma handleRtpFrame_merges_nals_witness : exists this' outs fuel,
  handleRtpFrame 2048 (fun _ => true) (fun _ => None) (fun _ => None) 7
    [demo_single [103; 1; 2]; demo_single [104; 3]; demo_single [101; 4; 5; 6]]
    (with_recv_pt 96 demo_proc) = Some (tt, this', outs) /\
  writePsStream fuel true (Some (concat (drop 12 <$> outs))) 9000 =
    Ret (0, [EsVideo [0; 0; 0; 1; 103; 1; 2; 104; 3; 101; 4; 5; 6] 9000 VIDEO_STREAM_TYPE_H264]).
Proof.
  destruct (handleRtpFrame_merges_nals 2048 (fun _ => true) (fun _ => None) (fun _ => None) 7
    [demo_single [103; 1; 2]; demo_single [104; 3]; demo_single [101; 4; 5; 6]]
    [[103; 1; 2]; [104; 3]; [101; 4; 5; 6]] 96 9000 (with_recv_pt 96 demo_proc))
    as (this' & outs & fuel & E & Hd).
  - done.
  - done.
  - by destruct demo_proc_ok.
  - reflexivity.
  - done.
  - repeat constructor; apply demo_single_plain.
  - repeat constructor; vm_compute; discriminate.
  - eexists. split; [reflexivity|]. by split.
  - vm_compute. discriminate.
  - by vm_compute.
  - vm_compute. discriminate.
  - exists this', outs, fuel. split; [exact E|exact Hd].
Defined.

Lemma fragment_overruns_cache_witness :
  checkVideoRtpFrame [demo_single (101 :: replicate (Z.to_nat 1048571) 7); demo_single [124; 133; 1]]
    (with_cache (Some [0; 0; 0; 1]) demo_proc) = None.
Proof.
  apply (fragment_overruns_cache [demo_single (101 :: replicate (Z.to_nat 1048571) 7)]
    [101 :: replicate (Z.to_nat 1048571) 7] (demo_single [124; 133; 1]) 124 133 [1] []).
  - reflexivity.
  - constructor; [apply demo_single_plain|constructor].
  - constructor; [vm_compute; discriminate|constructor].
  - cbn [concat]. rewrite app_nil_r, zlen_cons. unfold zlen. rewrite length_replicate.
    rewrite Z2Nat.id by lia. reflexivity.
  - apply demo_single_plain.
  - reflexivity.
Defined.
