(* ===== verification/RtcpPacket.v ===== *)
(** * RTCP reports: [svs_adapter_rtcp_packet.cpp]

    [CRtcpPacket] writes compound packets (a receiver or a sender report, and a
    source description with the CNAME) into the buffer of its caller. A buffer
    is the list of its bytes; [off] is the address a function is given in it,
    [unMaxLength] the length it is told. [None] is a write outside the buffer.

    On the target [RTCP_SR_PACKET] has 32 bytes: the 64-bit time stamp aligns
    the structure to 8, and its last 4 bytes are no field.

    [host_addr] is [ACE_INET_Addr::get_host_addr], the dotted form of an
    address. *)

From S2P Require Import Prelude.
Open Scope Z_scope.

Definition RTCP_PACKET_VERSION : Z := 2.
Definition RTCP_LEN_BASE : Z := 4.
Definition SDES_ITEM_TYPE_SIZE : Z := 1.
Definition SDES_ITEM_LEN_SIZE : Z := 1.
Definition SDES_ITEM_END_SIZE : Z := 2.
Definition RTCP_PACKET_SR : Z := 200.
Definition RTCP_PACKET_RR : Z := 201.
Definition RTCP_PACKET_SDES : Z := 202.
Definition SDES_TYPE_END : Z := 0.
Definition SDES_TYPE_CNAME : Z := 1.
Definition sizeof_RTCP_RR_PACKET : Z := 32.
Definition sizeof_RTCP_SR_PACKET : Z := 32.
Definition sizeof_RTCP_SDES_PACKET : Z := 8.

Record CRtcpPacket : Type := {
  m_unReporterSSRC : Z;
  m_unReporteeSSRC : Z;
  m_strCname : list Z;
  m_ullNtpTime : Z }.

Definition CRtcpPacket_new : CRtcpPacket :=
  {| m_unReporterSSRC := 0; m_unReporteeSSRC := 0; m_strCname := []; m_ullNtpTime := 0 |}.

Definition setLocalSSRC (unSSRC : Z) (this : CRtcpPacket) : CRtcpPacket :=
  {| m_unReporterSSRC := unSSRC; m_unReporteeSSRC := m_unReporteeSSRC this;
     m_strCname := m_strCname this; m_ullNtpTime := m_ullNtpTime this |}.
Definition getLocalSSRC (this : CRtcpPacket) : Z := m_unReporterSSRC this.
Definition setPeerSSRC (unSSRC : Z) (this : CRtcpPacket) : CRtcpPacket :=
  {| m_unReporterSSRC := m_unReporterSSRC this; m_unReporteeSSRC := unSSRC;
     m_strCname := m_strCname this; m_ullNtpTime := m_ullNtpTime this |}.
Definition getPeerSSRC (this : CRtcpPacket) : Z := m_unReporteeSSRC this.

(** The bytes of ["stream@"]. *)
Definition cname_prefix : list Z := [115; 116; 114; 101; 97; 109; 64].

Definition setLocalIp (host_addr : Z -> list Z) (unLocalIp : Z) (this : CRtcpPacket) : CRtcpPacket :=
  {| m_unReporterSSRC := m_unReporterSSRC this; m_unReporteeSSRC := m_unReporteeSSRC this;
     m_strCname := cname_prefix ++ host_addr unLocalIp; m_ullNtpTime := m_ullNtpTime this |}.

(** [htons], [htonl] are the swaps of the prelude; a host store is little endian. *)
Definition put64 (z : Z) : list Z := put32 z ++ put32 (z / 2 ^ 32).
Definition store32 (off z : Z) (buf : list Z) : option (list Z) := memcpy buf off (put32 (ntohl z)).
Definition store16 (off z : Z) (buf : list Z) : option (list Z) := memcpy buf off (put16 (ntohs z)).

(** [getNtpTimeforRtcp]: the clock is commented out. *)
Definition getNtpTimeforRtcp : Z :=
  let timestamp := 100 in
  Z.lor (ntohl (u32 (u64 (Z.shiftl (Z.land timestamp 0xFFFFFFFF) 32))))
        (ntohl (u32 (Z.land (Z.shiftr timestamp 32) 0xFFFFFFFF))).

(** The length of the source description: whole words. *)
Definition sdes_len (this : CRtcpPacket) : Z :=
  let unSdesLen := sizeof_RTCP_SDES_PACKET in
  let unSdesLen := u32 (unSdesLen + (SDES_ITEM_TYPE_SIZE + SDES_ITEM_LEN_SIZE + zlen (m_strCname this))) in
  let unSdesLen := u32 (unSdesLen + SDES_ITEM_END_SIZE) in
  if negb (unSdesLen mod RTCP_LEN_BASE =? 0)
  then u32 (unSdesLen + (RTCP_LEN_BASE - unSdesLen mod RTCP_LEN_BASE)) else unSdesLen.

(** The result, the buffer and [reportLength]. *)
Definition createSdesPacket (buf : list Z) (off unMaxLength reportLength : Z) (this : CRtcpPacket)
    : option (SVS_RET_CODE * list Z * Z) :=
  if unMaxLength =? 0 then Some (RET_FAIL, buf, reportLength)
  else
    let unSdesLen := sdes_len this in
    if unMaxLength <? unSdesLen then Some (RET_FAIL, buf, reportLength)
    else
      buf ← set_bits off 6 2 RTCP_PACKET_VERSION buf;
      buf ← set_bits off 5 1 0 buf;
      buf ← memcpy buf (off + 1) [RTCP_PACKET_SDES];
      buf ← set_bits off 0 5 1 buf;
      buf ← store16 (off + 2) (u16 (unSdesLen / RTCP_LEN_BASE)) buf;
      buf ← store32 (off + 4) (m_unReporterSSRC this) buf;
      let pData := off + sizeof_RTCP_SDES_PACKET in
      buf ← memcpy buf pData [SDES_TYPE_CNAME];
      let pData := pData + 1 in
      buf ← memcpy buf pData [u8 (zlen (m_strCname this))];
      let pData := pData + 1 in
      buf ← memcpy buf pData (m_strCname this);
      let pData := pData + zlen (m_strCname this) in
      buf ← memcpy buf pData [SDES_TYPE_END];
      let pData := pData + 1 in
      buf ← memcpy buf pData [0];
      Some (RET_OK, buf, unSdesLen).

Definition createReceiverReport (pBuffer : option (list Z)) (unMaxLength reportLength : Z)
    (this : CRtcpPacket) : option (SVS_RET_CODE * list Z * Z) :=
  match pBuffer with
  | None => Some (RET_FAIL, [], reportLength)
  | Some buf =>
    if unMaxLength <=? sizeof_RTCP_RR_PACKET then Some (RET_FAIL, buf, reportLength)
    else
      buf ← set_bits 0 6 2 RTCP_PACKET_VERSION buf;
      buf ← set_bits 0 5 1 0 buf;
      buf ← set_bits 0 0 5 1 buf;
      buf ← memcpy buf 1 [RTCP_PACKET_RR];
      buf ← store16 2 (sizeof_RTCP_RR_PACKET / RTCP_LEN_BASE - 1) buf;
      buf ← store32 4 (m_unReporterSSRC this) buf;
      buf ← store32 8 (m_unReporteeSSRC this) buf;
      buf ← store32 16 0 buf;                      (* unMaxReceivedSeq *)
      buf ← store32 28 0 buf;                      (* unDelayFromLastSR *)
      buf ← store32 20 0 buf;                      (* unJitter *)
      buf ← store32 24 0 buf;                      (* unLastSRTimestamp *)
      buf ← memcpy buf 12 [0];                     (* unLossPercent : 8 *)
      buf ← memcpy buf 13 [0; 0; 0];               (* unLostCount : 24 *)
      buf ← store32 16 0 buf;
      let reportLength := sizeof_RTCP_RR_PACKET in
      '(r, buf, unSdesLen) ←
        createSdesPacket buf reportLength (u32 (unMaxLength - reportLength)) 0 this;
      if decide (r ≠ RET_OK) then Some (RET_FAIL, buf, 0)
      else Some (RET_OK, buf, u32 (reportLength + unSdesLen))
  end.

Definition createSenderReport (pBuffer : option (list Z)) (unMaxLength reportLength : Z)
    (this : CRtcpPacket) : option (SVS_RET_CODE * CRtcpPacket * list Z * Z) :=
  match pBuffer with
  | None => Some (RET_FAIL, this, [], reportLength)
  | Some buf =>
    if unMaxLength <=? sizeof_RTCP_SR_PACKET then Some (RET_FAIL, this, buf, reportLength)
    else
      buf ← set_bits 0 6 2 RTCP_PACKET_VERSION buf;
      buf ← set_bits 0 5 1 0 buf;
      buf ← set_bits 0 0 5 1 buf;
      buf ← memcpy buf 1 [RTCP_PACKET_SR];
      buf ← store16 2 (sizeof_RTCP_SR_PACKET / RTCP_LEN_BASE - 1) buf;
      let this :=
        if m_ullNtpTime this =? 0
        then {| m_unReporterSSRC := m_unReporterSSRC this; m_unReporteeSSRC := m_unReporteeSSRC this;
                m_strCname := m_strCname this; m_ullNtpTime := getNtpTimeforRtcp |}
        else this in
      buf ← store32 4 (m_unReporterSSRC this) buf;
      buf ← memcpy buf 8 (put64 (m_ullNtpTime this));
      buf ← store32 16 0 buf;
      buf ← store32 20 0 buf;
      buf ← store32 24 0 buf;
      let reportLength := sizeof_RTCP_SR_PACKET in
      '(r, buf, unSdesLen) ←
        createSdesPacket buf reportLength (u32 (unMaxLength - reportLength)) 0 this;
      if decide (r ≠ RET_OK) then Some (RET_FAIL, this, buf, 0)
      else Some (RET_OK, this, buf, u32 (reportLength + unSdesLen))
  end.

(** ** Stores in a buffer whose first bytes are known *)

Lemma memcpy_shift pre l k src : 0 <= k ->
  memcpy (pre ++ l) (zlen pre + k) src = (pre ++.) <$> memcpy l k src.
Proof.
  intros Hk. unfold memcpy, zlen. rewrite length_app.
  destruct (decide (0 <= k /\ _)) as [H|H].
  - rewrite decide_True by lia. cbn. f_equal.
    replace (Z.to_nat (Z.of_nat (length pre) + k)) with (length pre + Z.to_nat k)%nat by lia.
    rewrite take_app_add, <-app_assoc. do 3 f_equal.
    rewrite <-Nat.add_assoc. apply drop_app_add.
  - by rewrite decide_False by lia.
Qed.

Lemma memcpy_cons x l k src : 0 < k -> memcpy (x :: l) k src = (x ::.) <$> memcpy l (k - 1) src.
Proof.
  intros Hk. change (x :: l) with ([x] ++ l). replace k with (zlen [x] + (k - 1)) at 1 by (rewrite zlen_cons, zlen_nil; lia).
  rewrite memcpy_shift by lia. by destruct (memcpy l _ _).
Qed.

Lemma memcpy_0 old l src : length src = length old -> memcpy (old ++ l) 0 src = Some (src ++ l).
Proof. intros H. by apply (memcpy_app [] old l src). Qed.

Lemma memcpy_0_1 x l y : memcpy (x :: l) 0 [y] = Some (y :: l).
Proof. by apply (memcpy_0 [x] l [y]). Qed.
Lemma memcpy_0_2 x0 x1 l s0 s1 : memcpy (x0 :: x1 :: l) 0 [s0; s1] = Some (s0 :: s1 :: l).
Proof. by apply (memcpy_0 [x0; x1] l). Qed.
Lemma memcpy_0_3 x0 x1 x2 l s0 s1 s2 :
  memcpy (x0 :: x1 :: x2 :: l) 0 [s0; s1; s2] = Some (s0 :: s1 :: s2 :: l).
Proof. by apply (memcpy_0 [x0; x1; x2] l). Qed.
Lemma memcpy_0_4 x0 x1 x2 x3 l s0 s1 s2 s3 :
  memcpy (x0 :: x1 :: x2 :: x3 :: l) 0 [s0; s1; s2; s3] = Some (s0 :: s1 :: s2 :: s3 :: l).
Proof. by apply (memcpy_0 [x0; x1; x2; x3] l). Qed.

Lemma memcpy_0_8 x0 x1 x2 x3 x4 x5 x6 x7 l s0 s1 s2 s3 s4 s5 s6 s7 :
  memcpy (x0 :: x1 :: x2 :: x3 :: x4 :: x5 :: x6 :: x7 :: l) 0 [s0; s1; s2; s3; s4; s5; s6; s7] =
    Some (s0 :: s1 :: s2 :: s3 :: s4 :: s5 :: s6 :: s7 :: l).
Proof. by apply (memcpy_0 [x0; x1; x2; x3; x4; x5; x6; x7] l). Qed.

Lemma rd_shift pre l k : 0 <= k -> rd (pre ++ l) (zlen pre + k) = rd l k.
Proof. intros Hk. rewrite rd_app_r by lia. f_equal. lia. Qed.

Lemma set_bits_shift pre l k lo w v : 0 <= k ->
  set_bits (zlen pre + k) lo w v (pre ++ l) = (pre ++.) <$> set_bits k lo w v l.
Proof.
  intros Hk. unfold set_bits. rewrite rd_shift by done. destruct (rd l k); [|done].
  cbn [mbind option_bind]. by apply memcpy_shift.
Qed.

Lemma set_bits_first lo w v x l : set_bits 0 lo w v (x :: l) = Some (set_field lo w x v :: l).
Proof. unfold set_bits. change (rd (x :: l) 0) with (Some x). cbn. apply memcpy_0_1. Qed.

(** The header byte: version 2, no padding, count 1. *)
Lemma header_byte x : is_byte x -> set_field 0 5 (set_field 5 1 (set_field 6 2 x 2) 0) 1 = 129.
Proof.
  intros Hx. apply Z.eqb_eq.
  apply (forall_fits 8 (fun x => set_field 0 5 (set_field 5 1 (set_field 6 2 x 2) 0) 1 =? 129) x Hx).
  by vm_compute.
Qed.

(** A store at a constant offset. *)
Ltac store :=
  unfold RTCP_PACKET_VERSION, store16, store32; rewrite ?put16_ntohs, ?put32_ntohl;
  unfold be16, be32;
  repeat (rewrite memcpy_cons by lia; cbn [Z.sub Z.add Z.opp Z.pos_sub Pos.pred_double Pos.succ]);
  rewrite ?memcpy_0_1, ?memcpy_0_2, ?memcpy_0_3, ?memcpy_0_4, ?memcpy_0_8;
  cbn [fmap option_fmap option_map mbind option_bind].

(** ** The bytes of the packets *)

Definition sdes_bytes (this : CRtcpPacket) : list Z :=
  [129; 202] ++ be16 (u16 (sdes_len this / 4)) ++ be32 (m_unReporterSSRC this) ++
  [1; u8 (zlen (m_strCname this))] ++ m_strCname this ++ [0; 0].

Lemma sdes_len_spec this : zlen (m_strCname this) < 2 ^ 16 ->
  sdes_len this = (zlen (m_strCname this) + 12 + 3) / 4 * 4.
Proof.
  intros H. pose proof (zlen_nonneg (m_strCname this)) as H0. unfold sdes_len.
  change (u32 (sizeof_RTCP_SDES_PACKET + (SDES_ITEM_TYPE_SIZE + SDES_ITEM_LEN_SIZE + zlen (m_strCname this))))
    with (u32 (8 + (1 + 1 + zlen (m_strCname this)))).
  change SDES_ITEM_END_SIZE with 2. change RTCP_LEN_BASE with 4.
  revert H H0. generalize (zlen (m_strCname this)). intros n H H0. change (2 ^ 16) with 65536 in H.
  unfold u32. rewrite (wrap_small 32 (8 + (1 + 1 + n))) by (unfold fits; lia).
  rewrite (wrap_small 32 (8 + (1 + 1 + n) + 2)) by (unfold fits; lia).
  destruct (Z.eqb_spec ((8 + (1 + 1 + n) + 2) mod 4) 0); cbn [negb].
  - lia.
  - rewrite wrap_small by (unfold fits; lia). lia.
Qed.

Lemma zlen_sdes_bytes this : zlen (sdes_bytes this) = 12 + zlen (m_strCname this).
Proof. unfold sdes_bytes. zl. Qed.

(** The source description at the head of [old ++ rest]: its bytes replace
    [old]. *)
Lemma createSdesPacket_spec pre old rest max n this :
  zlen (m_strCname this) < 2 ^ 16 -> length old = length (sdes_bytes this) -> bytes_ok old ->
  sdes_len this <= max ->
  createSdesPacket (pre ++ old ++ rest) (zlen pre) max n this =
    Some (RET_OK, pre ++ sdes_bytes this ++ rest, sdes_len this).
Proof.
  intros Hc Hl Hb Hm. pose proof (sdes_len_spec this Hc) as Hs. pose proof (zlen_nonneg (m_strCname this)).
  unfold createSdesPacket. rewrite (proj2 (Z.eqb_neq _ _)), (proj2 (Z.ltb_ge _ _)) by lia.
  unfold sdes_bytes in Hl. rewrite !length_app in Hl. cbn in Hl.
  do 10 (destruct old as [|? old]; [exfalso; cbn in Hl; lia|]).
  set (c := m_strCname this) in *. cbn [length] in Hl.
  rewrite <-(take_drop (length c) old). set (oc := take (length c) old).
  assert (length oc = length c) as Hoc by (unfold oc; rewrite length_take; lia).
  assert (length (drop (length c) old) = 2%nat) as Hod by (rewrite length_drop; lia).
  destruct (drop (length c) old) as [|e0 [|e1 [|]]]; try done.
  apply Forall_cons in Hb as [Hb _].
  rewrite <-(Z.add_0_r (zlen pre)) at 1. cbn [app].
  rewrite set_bits_shift, set_bits_first by done. cbn [fmap option_fmap option_map mbind option_bind].
  rewrite <-(Z.add_0_r (zlen pre)) at 1.
  rewrite set_bits_shift, set_bits_first by done. cbn [fmap option_fmap option_map mbind option_bind].
  rewrite memcpy_shift by done. store.
  rewrite <-(Z.add_0_r (zlen pre)) at 1.
  rewrite set_bits_shift, set_bits_first by done. cbn [fmap option_fmap option_map mbind option_bind].
  rewrite header_byte by done.
  unfold store16, store32. rewrite memcpy_shift by done. store. rewrite memcpy_shift by done. store.
  change sizeof_RTCP_SDES_PACKET with 8. rewrite memcpy_shift by done. store.
  rewrite <-(Z.add_assoc _ 8 1). rewrite memcpy_shift by done. store.
  rewrite <-(Z.add_assoc _ (8 + 1) 1). rewrite memcpy_shift by done. store.
  rewrite <-app_assoc. replace (8 + 1 + 1 - 1 - 1 - 1 - 1 - 1 - 1 - 1 - 1 - 1 - 1) with 0 by lia.
  rewrite (memcpy_0 oc) by done. cbn [fmap option_fmap option_map mbind option_bind].
  set (hd := [129; RTCP_PACKET_SDES; byte_n 1 (u16 (sdes_len this / RTCP_LEN_BASE));
    byte_n 0 (u16 (sdes_len this / RTCP_LEN_BASE)); byte_n 3 (m_unReporterSSRC this);
    byte_n 2 (m_unReporterSSRC this); byte_n 1 (m_unReporterSSRC this);
    byte_n 0 (m_unReporterSSRC this); SDES_TYPE_CNAME; u8 (zlen c)]).
  change (129 :: _) with (hd ++ c ++ [e0; e1] ++ rest).
  assert (zlen (pre ++ hd ++ c) = zlen pre + (8 + 1 + 1) + zlen c) as Hz.
  { rewrite !zlen_app. change (zlen hd) with 10. lia. }
  replace (pre ++ hd ++ c ++ [e0; e1] ++ rest) with ((pre ++ hd ++ c) ++ [e0] ++ e1 :: rest)
    by by rewrite <-!app_assoc.
  rewrite memcpy_mid by done. cbn [mbind option_bind].
  replace ((pre ++ hd ++ c) ++ [SDES_TYPE_END] ++ e1 :: rest) with
    (((pre ++ hd ++ c) ++ [SDES_TYPE_END]) ++ [e1] ++ rest) by by rewrite <-!app_assoc.
  rewrite memcpy_mid by (done || (rewrite zlen_app, Hz; done)). cbn [mbind option_bind].
  do 2 f_equal. f_equal. unfold sdes_bytes. by rewrite <-!app_assoc.
Qed.

Definition rr_bytes (this : CRtcpPacket) : list Z :=
  [129; 201] ++ be16 7 ++ be32 (m_unReporterSSRC this) ++ be32 (m_unReporteeSSRC this) ++
  replicate 20 0.

(** A sender report without its last word, which is not written. *)
Definition sr_bytes (ntp : Z) (this : CRtcpPacket) : list Z :=
  [129; 200] ++ be16 7 ++ be32 (m_unReporterSSRC this) ++ put64 ntp ++ replicate 12 0.

Lemma zlen_rr_bytes this : zlen (rr_bytes this) = 32.
Proof. done. Qed.

Lemma getNtpTimeforRtcp_0 : getNtpTimeforRtcp = 0.
Proof. by vm_compute. Qed.

(** The source description behind a report of 32 bytes. *)
Lemma sdes_behind report rest max this : zlen report = 32 -> bytes_ok rest ->
  zlen (m_strCname this) < 2 ^ 16 -> 32 + sdes_len this <= max -> max <= 32 + zlen rest ->
  max < 2 ^ 32 ->
  createSdesPacket (report ++ rest) 32 (u32 (max - 32)) 0 this =
    Some (RET_OK, report ++ sdes_bytes this ++ drop (length (sdes_bytes this)) rest, sdes_len this).
Proof.
  intros Hr Hb Hc Hm Hmax Hmax2. pose proof (sdes_len_spec this Hc) as Hs.
  pose proof (zlen_nonneg (m_strCname this)). pose proof (zlen_sdes_bytes this) as Hz.
  unfold u32. rewrite wrap_small by (unfold fits; lia).
  rewrite <-(take_drop (length (sdes_bytes this)) rest) at 1. rewrite <-Hr at 1.
  apply createSdesPacket_spec; [done| |by apply Forall_take|lia].
  rewrite length_take. unfold zlen in *. lia.
Qed.

Lemma sdes_no_room report rest max this : 32 < max < 32 + sdes_len this -> max < 2 ^ 32 ->
  createSdesPacket (report ++ rest) 32 (u32 (max - 32)) 0 this = Some (RET_FAIL, report ++ rest, 0).
Proof.
  intros Hm H2. unfold createSdesPacket, u32. rewrite wrap_small by (unfold fits; lia).
  by rewrite (proj2 (Z.eqb_neq _ _)), (proj2 (Z.ltb_lt _ _)) by lia.
Qed.

(** The receiver report proper. *)
Lemma rr_store buf max n this : bytes_ok buf -> 32 < max <= zlen buf ->
  createReceiverReport (Some buf) max n this =
    '(r, buf, len) ← createSdesPacket (rr_bytes this ++ drop 32 buf) 32 (u32 (max - 32)) 0 this;
    if decide (r ≠ RET_OK) then Some (RET_FAIL, buf, 0) else Some (RET_OK, buf, u32 (32 + len)).
Proof.
  intros Hb Hm. unfold createReceiverReport. change sizeof_RTCP_RR_PACKET with 32.
  rewrite (proj2 (Z.leb_gt _ _)) by lia.
  do 32 (destruct buf as [|? buf]; [exfalso; rewrite ?zlen_cons, zlen_nil in Hm; lia|]).
  apply Forall_cons in Hb as [Hb _].
  rewrite set_bits_first. cbn [mbind option_bind]. rewrite set_bits_first. cbn [mbind option_bind].
  rewrite set_bits_first. cbn [mbind option_bind]. rewrite header_byte by done.
  change (32 / RTCP_LEN_BASE - 1) with 7. do 11 store. reflexivity.
Qed.

Lemma sr_store buf max n this : bytes_ok buf -> 32 < max <= zlen buf ->
  createSenderReport (Some buf) max n this =
    '(r, buf', len) ← createSdesPacket
      ((sr_bytes (m_ullNtpTime this) this ++ take 4 (drop 28 buf)) ++ drop 32 buf) 32
      (u32 (max - 32)) 0 this;
    if decide (r ≠ RET_OK) then Some (RET_FAIL, this, buf', 0)
    else Some (RET_OK, this, buf', u32 (32 + len)).
Proof.
  intros Hb Hm. unfold createSenderReport. change sizeof_RTCP_SR_PACKET with 32.
  rewrite (proj2 (Z.leb_gt _ _)) by lia.
  do 32 (destruct buf as [|? buf]; [exfalso; rewrite ?zlen_cons, zlen_nil in Hm; lia|]).
  apply Forall_cons in Hb as [Hb _].
  rewrite set_bits_first. cbn [mbind option_bind]. rewrite set_bits_first. cbn [mbind option_bind].
  rewrite set_bits_first. cbn [mbind option_bind]. rewrite header_byte by done.
  change (32 / RTCP_LEN_BASE - 1) with 7.
  set (this' := if m_ullNtpTime this =? 0 then _ else this).
  assert (this' = this) as ->.
  { unfold this'. rewrite getNtpTimeforRtcp_0. destruct (Z.eqb_spec (m_ullNtpTime this) 0) as [E|]; [|done].
    destruct this; cbn in *. by subst. }
  do 3 store. unfold put64 at 1, put32 at 1 2. cbn [app]. do 4 store. reflexivity.
Qed.

(** ** Reading a compound packet (RFC 3550): the length field counts the words
    behind the first one. *)
Fixpoint rtcp_walk (fuel : nat) (l : list Z) : option (list (Z * list Z)) :=
  match fuel, l with
  | _, [] => Some []
  | S fuel, _ :: pt :: h :: lo :: _ =>
    let n := 4 * (256 * h + lo + 1) in
    if zlen l <? n then None
    else rest ← rtcp_walk fuel (drop (Z.to_nat n) l); Some ((pt, take (Z.to_nat n) l) :: rest)
  | _, _ => None
  end.

Lemma be16_value z : 256 * byte_n 1 z + byte_n 0 z = u16 z.
Proof.
  unfold byte_n, lo8, u16, wrap. change (256 ^ 0) with 1. change (256 ^ 1) with 256.
  change (2 ^ 16) with 65536. lia.
Qed.

Lemma rtcp_walk_short fuel x pt z tl : 4 + zlen tl < 4 * (u16 z + 1) ->
  rtcp_walk fuel (x :: pt :: be16 z ++ tl) = None.
Proof.
  intros H. destruct fuel; [done|]. unfold be16. cbn [app rtcp_walk]. rewrite be16_value.
  by rewrite !zlen_cons, (proj2 (Z.ltb_lt _ _)) by lia.
Qed.

Lemma rtcp_walk_rr fuel this l : rtcp_walk (S fuel) (rr_bytes this ++ l) =
  rest ← rtcp_walk fuel l; Some ((201, rr_bytes this) :: rest).
Proof.
  unfold rr_bytes. cbn [app be16 be32 replicate rtcp_walk].
  change (4 * (256 * byte_n 1 7 + byte_n 0 7 + 1)) with 32.
  pose proof (zlen_nonneg l). by rewrite !zlen_cons, (proj2 (Z.ltb_ge _ _)) by lia.
Qed.

(** ** Properties *)

(** With room for it a receiver report is the 32 bytes RFC 3550 asks for
    (one report block, all statistics zero), followed by a source description;
    nothing else in the buffer changes. Without room for the description the
    call fails and reports the length zero. *)
Theorem createReceiverReport_bytes buf max n this
    (Hb : bytes_ok buf) (Hmax : 32 < max <= zlen buf) (Hmax2 : max < 2 ^ 32)
    (Hc : zlen (m_strCname this) < 2 ^ 16) :
  createReceiverReport (Some buf) max n this =
    if 32 + sdes_len this <=? max
    then Some (RET_OK,
               rr_bytes this ++ sdes_bytes this ++ drop (32 + length (sdes_bytes this)) buf,
               32 + sdes_len this)
    else Some (RET_FAIL, rr_bytes this ++ drop 32 buf, 0).
Proof.
  rewrite rr_store by done. pose proof (sdes_len_spec this Hc) as Hs.
  pose proof (zlen_nonneg (m_strCname this)).
  destruct (Z.leb_spec (32 + sdes_len this) max).
  - rewrite sdes_behind by (done || (by apply Forall_drop) || zl).
    cbn [mbind option_bind]. rewrite decide_False by (by intros []).
    rewrite drop_drop. unfold u32. by rewrite wrap_small by (unfold fits; lia).
  - rewrite sdes_no_room by lia. cbn [mbind option_bind]. by rewrite decide_True.
Qed.

(** The length field of the source description counts one word too many:
    a receiver that walks the compound packet as RFC 3550 says leaves it. *)
Theorem sdes_length_overstated buf max n this buf' len
    (Hb : bytes_ok buf) (Hmax : 32 < max <= zlen buf) (Hmax2 : max < 2 ^ 32)
    (Hc : zlen (m_strCname this) < 2 ^ 16)
    (Hrun : createReceiverReport (Some buf) max n this = Some (RET_OK, buf', len)) :
  forall fuel, rtcp_walk fuel (take (Z.to_nat len) buf') = None.
Proof.
  rewrite rr_store in Hrun by done. pose proof (sdes_len_spec this Hc) as Hs.
  pose proof (zlen_nonneg (m_strCname this)).
  destruct (Z.le_gt_cases (32 + sdes_len this) max) as [Hr|Hr].
  2: { rewrite sdes_no_room in Hrun by lia. cbn [mbind option_bind] in Hrun.
       by rewrite decide_True in Hrun. }
  rewrite sdes_behind in Hrun by (done || (by apply Forall_drop) || zl).
  cbn [mbind option_bind] in Hrun. rewrite decide_False in Hrun by (by intros []).
  remember (rr_bytes this ++ _) as out eqn:Eout in Hrun. injection Hrun as <- <-.
  rewrite Eout. clear out Eout. unfold u32. rewrite wrap_small by (unfold fits; lia).
  set (rest := drop _ _). assert (zlen rest = zlen buf - 44 - zlen (m_strCname this)) as Hrest.
  { unfold rest. rewrite !zlen_drop. pose proof (zlen_sdes_bytes this). unfold zlen in *. lia. }
  replace (Z.to_nat (32 + sdes_len this)) with (length (rr_bytes this) + Z.to_nat (sdes_len this))%nat
    by (change (length (rr_bytes this)) with 32%nat; lia).
  rewrite take_app_add. set (l := take _ _).
  assert (zlen l = sdes_len this) as Hl.
  { unfold l. rewrite zlen_take, !zlen_app, zlen_sdes_bytes, Hrest. lia. }
  assert (exists tl, l = 129 :: 202 :: be16 (u16 (sdes_len this / 4)) ++ tl) as [tl Etl].
  { unfold l. replace (Z.to_nat (sdes_len this)) with (4 + Z.to_nat (sdes_len this - 4))%nat by lia.
    by eexists. }
  intros [|fuel]; [done|]. rewrite rtcp_walk_rr, Etl. rewrite Etl in Hl. unfold be16 in Hl.
  cbn [app] in Hl. rewrite !zlen_cons in Hl.
  rewrite rtcp_walk_short; [done|]. change (2 ^ 16) with 65536 in Hc.
  unfold u16. rewrite (wrap_small 16 (sdes_len this / 4)) by (unfold fits; lia).
  rewrite wrap_small by (unfold fits; lia). lia.
Qed.

(** A sender report announces one report block and has none; its NTP time
    is the constant zero, and its last word is what the buffer held before. *)
Theorem createSenderReport_bytes buf max n this
    (Hb : bytes_ok buf) (Hmax : 32 < max <= zlen buf) (Hmax2 : max < 2 ^ 32)
    (Hc : zlen (m_strCname this) < 2 ^ 16) (Hntp : m_ullNtpTime this = 0) :
  createSenderReport (Some buf) max n this =
    (if 32 + sdes_len this <=? max
     then Some (RET_OK, this,
                sr_bytes 0 this ++ take 4 (drop 28 buf) ++
                sdes_bytes this ++ drop (32 + length (sdes_bytes this)) buf,
                32 + sdes_len this)
     else Some (RET_FAIL, this, sr_bytes 0 this ++ drop 28 buf, 0)) /\
  get_field 0 5 (hd 0 (sr_bytes 0 this)) = 1 /\ zlen (sr_bytes 0 this) = 28.
Proof.
  split; [|done]. rewrite sr_store by done. pose proof (sdes_len_spec this Hc) as Hs. rewrite Hntp.
  pose proof (zlen_nonneg (m_strCname this)).
  assert (zlen (sr_bytes 0 this ++ take 4 (drop 28 buf)) = 32) as H32.
  { rewrite zlen_app, zlen_take, zlen_drop. change (zlen (sr_bytes 0 this)) with 28. lia. }
  destruct (Z.leb_spec (32 + sdes_len this) max).
  - rewrite sdes_behind by (done || (by apply Forall_drop) || zl).
    cbn [mbind option_bind]. rewrite decide_False by (by intros []).
    rewrite drop_drop, <-app_assoc. unfold u32. by rewrite wrap_small by (unfold fits; lia).
  - rewrite sdes_no_room by lia. cbn [mbind option_bind]. rewrite decide_True by done.
    rewrite <-app_assoc. change 32%nat with (28 + 4)%nat. by rewrite <-drop_drop, take_drop.
Qed.

(** ** Witnesses *)

(** Reporter 1, reportee 2, host ["1"]. *)
Definition ex_rtcp : CRtcpPacket :=
  setPeerSSRC 2 (setLocalSSRC 1 (setLocalIp (fun _ => [49]) 7 CRtcpPacket_new)).

Lemma ex_buffer_bytes : bytes_ok (replicate 64 7).
Proof. by apply Forall_replicate. Qed.

Lemma createReceiverReport_bytes_witness :
  createReceiverReport (Some (replicate 64 7)) 64 0 ex_rtcp =
    Some (RET_OK, rr_bytes ex_rtcp ++ sdes_bytes ex_rtcp ++ replicate 12 7, 52).
Proof. exact (createReceiverReport_bytes _ 64 0 ex_rtcp ex_buffer_bytes ltac:(done) eq_refl eq_refl). Defined.

Lemma sdes_length_overstated_witness :
  rtcp_walk 9 (take 52 (rr_bytes ex_rtcp ++ sdes_bytes ex_rtcp ++ replicate 12 7)) = None.
Proof.
  exact (sdes_length_overstated (replicate 64 7) 64 0 ex_rtcp _ 52 ex_buffer_bytes ltac:(done) eq_refl eq_refl
           ltac:(by vm_compute) 9%nat).
Defined.

Lemma createSenderReport_bytes_witness :
  createSenderReport (Some (replicate 64 7)) 64 0 ex_rtcp =
    Some (RET_OK, ex_rtcp, sr_bytes 0 ex_rtcp ++ [7; 7; 7; 7] ++ sdes_bytes ex_rtcp ++ replicate 12 7, 52).
Proof.
  exact (proj1 (createSenderReport_bytes _ 64 0 ex_rtcp ex_buffer_bytes ltac:(done) eq_refl eq_refl eq_refl)).
Defined.
