(* ===== verification/MediaDataQueue.v ===== *)
(** * The lock-free message block queue: [svs_adapter_media_data_queue.cpp]

    [CMediaDataQueue] is a ring of message block pointers shared by any number
    of threads. A thread inside [enqueue_tail] or [dequeue_head] is a program
    counter; one step of it is one access to the shared object (a read of an
    index, a tag or a slot, the compare-and-swap of an index and its tag, a
    store to a slot, a locked increment), so that an interleaving of the threads
    is a sequence of steps. The accesses are sequentially consistent.

    The clock is an input: [late] is the outcome of the comparison of line 110 or
    168. Blocks are named by numbers, [NULL] is [None]. A step is [None] when it
    leaves the slot array. [compare_and_swap2], [atomic_inc] and [atomic_dec] are
    those of [svs_adapter_atomic.h]. *)

From stdpp Require Import relations.
From S2P Require Import Prelude.
Open Scope Z_scope.

Abbreviation mb_ptr := nat (only parsing).

Record CMediaDataQueue : Type := {
  m_WriteIndex : Z;
  m_WriteTag : Z;
  m_ReadIndex : Z;
  m_ReadTag : Z;
  m_ActiveFlag : Z;
  m_unMaxQueueSize : Z;
  m_unArraySize : Z;
  m_QueueSize : Z;
  m_pDataArray : option (list (option mb_ptr)) }.

Definition CMediaDataQueue_new : CMediaDataQueue :=
  {| m_WriteIndex := 0; m_WriteTag := 0; m_ReadIndex := 0; m_ReadTag := 0; m_ActiveFlag := 1;
     m_unMaxQueueSize := 0; m_unArraySize := 0; m_QueueSize := 0; m_pDataArray := None |}.

Definition with_write (i tag : Z) (q : CMediaDataQueue) : CMediaDataQueue :=
  {| m_WriteIndex := i; m_WriteTag := tag; m_ReadIndex := m_ReadIndex q; m_ReadTag := m_ReadTag q;
     m_ActiveFlag := m_ActiveFlag q; m_unMaxQueueSize := m_unMaxQueueSize q;
     m_unArraySize := m_unArraySize q; m_QueueSize := m_QueueSize q;
     m_pDataArray := m_pDataArray q |}.
Definition with_read (i tag : Z) (q : CMediaDataQueue) : CMediaDataQueue :=
  {| m_WriteIndex := m_WriteIndex q; m_WriteTag := m_WriteTag q; m_ReadIndex := i; m_ReadTag := tag;
     m_ActiveFlag := m_ActiveFlag q; m_unMaxQueueSize := m_unMaxQueueSize q;
     m_unArraySize := m_unArraySize q; m_QueueSize := m_QueueSize q;
     m_pDataArray := m_pDataArray q |}.
Definition with_size (n : Z) (q : CMediaDataQueue) : CMediaDataQueue :=
  {| m_WriteIndex := m_WriteIndex q; m_WriteTag := m_WriteTag q; m_ReadIndex := m_ReadIndex q;
     m_ReadTag := m_ReadTag q; m_ActiveFlag := m_ActiveFlag q;
     m_unMaxQueueSize := m_unMaxQueueSize q; m_unArraySize := m_unArraySize q; m_QueueSize := n;
     m_pDataArray := m_pDataArray q |}.
Definition with_array (a : list (option mb_ptr)) (q : CMediaDataQueue) : CMediaDataQueue :=
  {| m_WriteIndex := m_WriteIndex q; m_WriteTag := m_WriteTag q; m_ReadIndex := m_ReadIndex q;
     m_ReadTag := m_ReadTag q; m_ActiveFlag := m_ActiveFlag q;
     m_unMaxQueueSize := m_unMaxQueueSize q; m_unArraySize := m_unArraySize q;
     m_QueueSize := m_QueueSize q; m_pDataArray := Some a |}.

(** [alloc] says whether [new] succeeds. *)
Definition init (alloc : bool) (unQueueSize : Z) (q : CMediaDataQueue)
    : SVS_RET_CODE * CMediaDataQueue :=
  let size := u32 (unQueueSize + 1) in
  let q := {| m_WriteIndex := 0; m_WriteTag := 0; m_ReadIndex := 0; m_ReadTag := 0;
              m_ActiveFlag := 1; m_unMaxQueueSize := unQueueSize; m_unArraySize := size;
              m_QueueSize := 0; m_pDataArray := None |} in
  if alloc then (RET_OK, with_array (replicate (Z.to_nat size) None) q) else (RET_ERR_SYS_NEW, q).

Definition close (q : CMediaDataQueue) : CMediaDataQueue :=
  {| m_WriteIndex := m_WriteIndex q; m_WriteTag := m_WriteTag q; m_ReadIndex := m_ReadIndex q;
     m_ReadTag := m_ReadTag q; m_ActiveFlag := 0; m_unMaxQueueSize := m_unMaxQueueSize q;
     m_unArraySize := m_unArraySize q; m_QueueSize := m_QueueSize q;
     m_pDataArray := m_pDataArray q |}.

Definition message_count (q : CMediaDataQueue) : Z := m_QueueSize q.
Definition empty (q : CMediaDataQueue) : bool := m_QueueSize q =? 0.
Definition full (q : CMediaDataQueue) : bool := m_unMaxQueueSize q <=? m_QueueSize q.

Definition slot (q : CMediaDataQueue) (i : Z) : option (option mb_ptr) :=
  a ← m_pDataArray q; if 0 <=? i then a !! Z.to_nat i else None.
Definition set_slot (i : Z) (v : option mb_ptr) (q : CMediaDataQueue) : option CMediaDataQueue :=
  a ← m_pDataArray q; _ ← slot q i; Some (with_array (<[Z.to_nat i := v]> a) q).

Definition next_index (q : CMediaDataQueue) (i : Z) : Z := u32 (i + 1) mod m_unArraySize q.

Definition no_array (q : CMediaDataQueue) : bool :=
  match m_pDataArray q with None => true | Some _ => m_unArraySize q =? 0 end.

(** ** [enqueue_tail] *)

Inductive enq_pc : Type :=
| E_start
| E_loop                    (* line 108 *)
| E_time                    (* line 110 *)
| E_windex                  (* line 115 *)
| E_wtag (i : Z)            (* line 116 *)
| E_rindex (i tag : Z)      (* line 117 *)
| E_slot (i tag : Z)        (* line 123 *)
| E_cas (i tag : Z)         (* line 128 *)
| E_store (i : Z)           (* line 138 *)
| E_inc                     (* line 139 *)
| E_ret (r : SVS_RET_CODE).

Definition enq_step (mb : option mb_ptr) (late : bool) (pc : enq_pc) (q : CMediaDataQueue)
    : option (CMediaDataQueue * enq_pc) :=
  match pc with
  | E_start =>
    match mb with
    | None => Some (q, E_ret RET_FAIL)
    | Some _ => Some (q, if no_array q then E_ret RET_FAIL else E_loop)
    end
  | E_loop => Some (q, if m_ActiveFlag q =? 0 then E_ret RET_FAIL else E_time)
  | E_time => Some (q, if late then E_ret RET_ERR_TIMEOUT else E_windex)
  | E_windex => Some (q, E_wtag (m_WriteIndex q))
  | E_wtag i => Some (q, E_rindex i (m_WriteTag q))
  | E_rindex i tag =>
    Some (q, if next_index q i =? m_ReadIndex q then E_loop else E_slot i tag)
  | E_slot i tag =>
    v ← slot q i; Some (q, match v with Some _ => E_loop | None => E_cas i tag end)
  | E_cas i tag =>
    if (m_WriteIndex q =? i) && (m_WriteTag q =? tag)
    then Some (with_write (next_index q i) (u32 (tag + 1)) q, E_store i)
    else Some (q, E_loop)
  | E_store i => q ← set_slot i mb q; Some (q, E_inc)
  | E_inc => Some (with_size (u32 (m_QueueSize q + 1)) q, E_ret RET_OK)
  | E_ret r => Some (q, E_ret r)
  end.

(** ** [dequeue_head] *)

Inductive deq_pc : Type :=
| D_start
| D_loop                                (* line 166 *)
| D_time                                (* line 168 *)
| D_rindex                              (* line 173 *)
| D_rtag (i : Z)                        (* line 174 *)
| D_windex (i tag : Z)                  (* line 176 *)
| D_slot (i tag : Z)                    (* line 183 *)
| D_cas (i tag : Z)                     (* line 188 *)
| D_load (i : Z)                        (* line 198 *)
| D_clear (i : Z) (mb : option mb_ptr)  (* line 199 *)
| D_dec (mb : option mb_ptr)            (* line 200 *)
| D_ret (r : SVS_RET_CODE) (mb : option mb_ptr).

Definition deq_step (late : bool) (pc : deq_pc) (q : CMediaDataQueue)
    : option (CMediaDataQueue * deq_pc) :=
  match pc with
  | D_start => Some (q, if no_array q then D_ret RET_FAIL None else D_loop)
  | D_loop => Some (q, if m_ActiveFlag q =? 0 then D_ret RET_FAIL None else D_time)
  | D_time => Some (q, if late then D_ret RET_ERR_TIMEOUT None else D_rindex)
  | D_rindex => Some (q, D_rtag (m_ReadIndex q))
  | D_rtag i => Some (q, D_windex i (m_ReadTag q))
  | D_windex i tag => Some (q, if i =? m_WriteIndex q then D_loop else D_slot i tag)
  | D_slot i tag =>
    v ← slot q i; Some (q, match v with None => D_loop | Some _ => D_cas i tag end)
  | D_cas i tag =>
    if (m_ReadIndex q =? i) && (m_ReadTag q =? tag)
    then Some (with_read (next_index q i) (u32 (tag + 1)) q, D_load i)
    else Some (q, D_loop)
  | D_load i => v ← slot q i; Some (q, D_clear i v)
  | D_clear i mb => q ← set_slot i None q; Some (q, D_dec mb)
  | D_dec mb => Some (with_size (u32 (m_QueueSize q - 1)) q, D_ret RET_OK mb)
  | D_ret r mb => Some (q, D_ret r mb)
  end.

(** ** Calls that run alone *)

(** [None] is a fault, the result [None] a call that has not returned after
    [fuel] steps. *)
Fixpoint enqueue_tail (fuel : nat) (mb : option mb_ptr) (late : nat -> bool) (pc : enq_pc)
    (q : CMediaDataQueue) : option (CMediaDataQueue * option SVS_RET_CODE) :=
  match pc, fuel with
  | E_ret r, _ => Some (q, Some r)
  | _, O => Some (q, None)
  | _, S fuel =>
    '(q, pc) ← enq_step mb (late fuel) pc q; enqueue_tail fuel mb late pc q
  end.

Fixpoint dequeue_head (fuel : nat) (late : nat -> bool) (pc : deq_pc) (q : CMediaDataQueue)
    : option (CMediaDataQueue * option (SVS_RET_CODE * option mb_ptr)) :=
  match pc, fuel with
  | D_ret r mb, _ => Some (q, Some (r, mb))
  | _, O => Some (q, None)
  | _, S fuel => '(q, pc) ← deq_step (late fuel) pc q; dequeue_head fuel late pc q
  end.

(** ** Threads *)

(** [timed]: the caller gave a timeout. *)
Inductive thread : Type :=
| Enq (mb : option mb_ptr) (timed : bool) (pc : enq_pc)
| Deq (timed : bool) (pc : deq_pc).

Record config : Type := {
  c_queue : CMediaDataQueue;
  c_threads : gmap nat thread }.

(** What a step shows: nothing, a compare-and-swap that decides an enqueue or a
    dequeue, a return. *)
Inductive label : Type :=
| Tau
| Push (t : nat) (b : mb_ptr)
| Pop (t : nat) (b : mb_ptr)
| Return (t : nat) (r : SVS_RET_CODE) (out : option mb_ptr).

Definition enq_label (t : nat) (mb : option mb_ptr) (pc pc' : enq_pc) : label :=
  match pc, pc', mb with E_cas _ _, E_store _, Some b => Push t b | _, _, _ => Tau end.
Definition deq_label (t : nat) (q : CMediaDataQueue) (pc pc' : deq_pc) : label :=
  match pc, pc' with
  | D_cas i _, D_load _ => match slot q i with Some (Some b) => Pop t b | _ => Tau end
  | _, _ => Tau
  end.

(** One step of the thread [t], [None] on a fault. *)
Definition thread_step (t : nat) (late : bool) (th : thread) (c : config)
    : option (label * config) :=
  match th with
  | Enq _ _ (E_ret r) =>
    Some (Return t r None, {| c_queue := c_queue c; c_threads := delete t (c_threads c) |})
  | Deq _ (D_ret r out) =>
    Some (Return t r out, {| c_queue := c_queue c; c_threads := delete t (c_threads c) |})
  | Enq mb timed pc =>
    '(q, pc') ← enq_step mb (timed && late) pc (c_queue c);
    Some (enq_label t mb pc pc',
          {| c_queue := q; c_threads := <[t := Enq mb timed pc']> (c_threads c) |})
  | Deq timed pc =>
    '(q, pc') ← deq_step (timed && late) pc (c_queue c);
    Some (deq_label t (c_queue c) pc pc',
          {| c_queue := q; c_threads := <[t := Deq timed pc']> (c_threads c) |})
  end.

Definition first_pc (th : thread) : Prop :=
  match th with Enq _ _ pc => pc = E_start | Deq _ pc => pc = D_start end.

Inductive step (c : config) : label -> config -> Prop :=
| step_thread t late th l c' : c_threads c !! t = Some th ->
    thread_step t late th c = Some (l, c') -> step c l c'
| step_call t th : c_threads c !! t = None -> first_pc th ->
    step c Tau {| c_queue := c_queue c; c_threads := <[t := th]> (c_threads c) |}
| step_close :
    step c Tau {| c_queue := close (c_queue c); c_threads := c_threads c |}.

Inductive run (c0 : config) : list label -> config -> Prop :=
| run_nil : run c0 [] c0
| run_snoc ls c l c' : run c0 ls c -> step c l c' -> run c0 (ls ++ [l]) c'.

(** ** The specification: a bounded first-in first-out queue

    [owed] holds, for the calls that have taken effect and not returned, the
    block they return. *)
Record fifo : Type := { contents : list mb_ptr; owed : gmap nat (option mb_ptr) }.

Definition fifo_empty : fifo := {| contents := []; owed := ∅ |}.

Inductive fifo_step (N : Z) (s : fifo) : label -> fifo -> Prop :=
| fifo_tau : fifo_step N s Tau s
| fifo_push t b : zlen (contents s) < N -> owed s !! t = None ->
    fifo_step N s (Push t b)
      {| contents := contents s ++ [b]; owed := <[t := None]> (owed s) |}
| fifo_pop t b l : contents s = b :: l -> owed s !! t = None ->
    fifo_step N s (Pop t b) {| contents := l; owed := <[t := Some b]> (owed s) |}
| fifo_ok t out : owed s !! t = Some out ->
    fifo_step N s (Return t RET_OK out)
      {| contents := contents s; owed := delete t (owed s) |}
| fifo_fail t r : owed s !! t = None -> r <> RET_OK -> fifo_step N s (Return t r None) s.

Inductive fifo_run (N : Z) : list label -> fifo -> Prop :=
| fifo_run_nil : fifo_run N [] fifo_empty
| fifo_run_snoc ls s l s' : fifo_run N ls s -> fifo_step N s l s' -> fifo_run N (ls ++ [l]) s'.

(** The indices are taken modulo a variable: no help from division here. *)
#[local] Ltac Zify.zify_post_hook ::= idtac.

Ltac ands := repeat match goal with H : _ /\ _ |- _ => destruct H end.

(** ** Slots *)

Lemma slot_Some q a i : m_pDataArray q = Some a ->
  slot q i = if decide (0 <= i < zlen a) then a !! Z.to_nat i else None.
Proof.
  intros Ha. unfold slot. rewrite Ha. cbn. unfold zlen. case_decide as H.
  - by rewrite (proj2 (Z.leb_le 0 i)) by lia.
  - destruct (Z.leb_spec 0 i); [|done]. apply lookup_ge_None_2. lia.
Qed.

Lemma slot_is_Some q a i : m_pDataArray q = Some a -> 0 <= i < zlen a -> is_Some (slot q i).
Proof.
  intros Ha Hi. rewrite (slot_Some q a) by done. rewrite decide_True by done.
  apply lookup_lt_is_Some_2. unfold zlen in Hi. lia.
Qed.

Lemma set_slot_spec q a i v : m_pDataArray q = Some a -> 0 <= i < zlen a ->
  exists a', set_slot i v q = Some (with_array a' q) /\ zlen a' = zlen a /\
    forall j, slot (with_array a' q) j = if decide (j = i) then Some v else slot q j.
Proof.
  intros Ha Hi. exists (<[Z.to_nat i := v]> a). unfold set_slot. rewrite Ha. cbn [mbind option_bind].
  destruct (slot_is_Some q a i Ha Hi) as [x ->]. cbn [mbind option_bind].
  split; [done|]. split; [by unfold zlen; rewrite length_insert|]. intros j.
  rewrite (slot_Some _ (<[Z.to_nat i := v]> a)), (slot_Some q a) by done.
  unfold zlen in *. rewrite length_insert. case_decide as Hj.
  - case_decide; [subst; apply list_lookup_insert_eq; lia|].
    apply list_lookup_insert_ne. lia.
  - rewrite decide_False by (intros ->; lia). done.
Qed.

Lemma mod_inj A a b : 0 < A -> a mod A = b mod A -> a - A < b < a + A -> a = b.
Proof.
  intros HA E H. pose proof (Z.div_mod a A ltac:(lia)) as Ha. pose proof (Z.div_mod b A ltac:(lia)) as Hb.
  assert (a / A = b / A) by nia. congruence.
Qed.

(** ** The invariant

    [W] and [R] count the successful compare-and-swaps of the two sides, [L] is
    the list of the blocks enqueued so far; [A] is the size of the ring. *)

Section Ring.
Context (A : Z) (HA : 1 <= A).

Record ring (q : CMediaDataQueue) (W R : Z) (L : list mb_ptr) : Prop := {
  ring_size : m_unArraySize q = A;
  ring_array : exists a, m_pDataArray q = Some a /\ zlen a = A;
  ring_windex : m_WriteIndex q = W mod A;
  ring_wtag : m_WriteTag q = u32 W;
  ring_rindex : m_ReadIndex q = R mod A;
  ring_rtag : m_ReadTag q = u32 R;
  ring_bounds : 0 <= R <= W /\ W - R < A;
  ring_len : zlen L = W;
  ring_full : forall k, R <= k < W ->
    slot q (k mod A) = Some (L !! Z.to_nat k) \/ slot q (k mod A) = Some None }.

Definition enq_ok (q : CMediaDataQueue) (W R : Z) (L : list mb_ptr) (o : option (option mb_ptr))
    (mb : option mb_ptr) (pc : enq_pc) : Prop :=
  match pc with
  | E_start => o = None
  | E_loop | E_time | E_windex => o = None /\ is_Some mb
  | E_wtag i => o = None /\ is_Some mb /\ 0 <= i < A
  | E_rindex i tag => o = None /\ is_Some mb /\ 0 <= i < A /\ tag <= W
  | E_slot i tag => o = None /\ is_Some mb /\ 0 <= i < A /\ tag <= W /\
      (tag = W -> i = W mod A -> W - R < A - 1)
  | E_cas i tag => o = None /\ is_Some mb /\ 0 <= i < A /\ tag <= W /\
      (tag = W -> i = W mod A -> W - R < A - 1 /\ slot q i = Some None)
  | E_store i => o = Some None /\ is_Some mb /\
      exists k, R <= k < W /\ i = k mod A /\ slot q i = Some None /\ L !! Z.to_nat k = mb
  | E_inc => o = Some None
  | E_ret r => o = if decide (r = RET_OK) then Some None else None
  end.

Definition deq_ok (q : CMediaDataQueue) (W R : Z) (L : list mb_ptr) (o : option (option mb_ptr))
    (pc : deq_pc) : Prop :=
  let taking i mb := exists k, 0 <= k /\ W - A <= k < R /\ i = k mod A /\ is_Some mb /\
    slot q i = Some mb /\ L !! Z.to_nat k = mb in
  match pc with
  | D_start | D_loop | D_time | D_rindex => o = None
  | D_rtag i => o = None /\ 0 <= i < A
  | D_windex i tag => o = None /\ 0 <= i < A /\ tag <= R
  | D_slot i tag => o = None /\ 0 <= i < A /\ tag <= R /\ (tag = R -> i = R mod A -> R < W)
  | D_cas i tag => o = None /\ 0 <= i < A /\ tag <= R /\
      (tag = R -> i = R mod A -> R < W /\ exists b, slot q i = Some (Some b))
  | D_load i => exists mb, o = Some mb /\ taking i mb
  | D_clear i mb => o = Some mb /\ taking i mb
  | D_dec mb => o = Some mb
  | D_ret r mb => if decide (r = RET_OK) then o = Some mb else o = None /\ mb = None
  end.

Definition th_ok (q : CMediaDataQueue) (W R : Z) (L : list mb_ptr) (o : option (option mb_ptr))
    (th : thread) : Prop :=
  match th with
  | Enq mb _ pc => enq_ok q W R L o mb pc
  | Deq _ pc => deq_ok q W R L o pc
  end.

(** The threads between their compare-and-swap and their write of the slot. *)
Definition at_store (th : thread) (i : Z) : Prop :=
  match th with Enq _ _ (E_store j) => j = i | _ => False end.
Definition at_take (th : thread) (i : Z) : Prop :=
  match th with Deq _ (D_load j) | Deq _ (D_clear j _) => j = i | _ => False end.

Record inv (n : Z) (c : config) (s : fifo) (W R : Z) (L : list mb_ptr) : Prop := {
  inv_ring : ring (c_queue c) W R L;
  inv_steps : W <= n;
  inv_contents : contents s = drop (Z.to_nat R) L;
  inv_threads : forall t th, c_threads c !! t = Some th ->
    th_ok (c_queue c) W R L (owed s !! t) th;
  inv_idle : forall t, c_threads c !! t = None -> owed s !! t = None;
  inv_store : forall t t' th th' i, c_threads c !! t = Some th -> c_threads c !! t' = Some th' ->
    at_store th i -> at_store th' i -> t = t';
  inv_take : forall t t' th th' i, c_threads c !! t = Some th -> c_threads c !! t' = Some th' ->
    at_take th i -> at_take th' i -> t = t' }.

(** *** What a step of one thread leaves true of the others *)

Lemma mod_sub k : (k - A) mod A = k mod A.
Proof. replace (k - A) with (k + (-1) * A) by lia. apply Z_mod_plus_full. Qed.

Lemma th_ok_ext q q' W R L o th : (forall j, slot q' j = slot q j) ->
  th_ok q W R L o th -> th_ok q' W R L o th.
Proof. intros E. destruct th as [mb timed []|timed []]; cbn; try setoid_rewrite E; done. Qed.

Lemma lookup_snoc_lt {X} (L : list X) b k : 0 <= k < zlen L ->
  (L ++ [b]) !! Z.to_nat k = L !! Z.to_nat k.
Proof. intros H. apply lookup_app_l. unfold zlen in H. lia. Qed.

Lemma th_ok_push q W R L o th b : ring q W R L -> slot q (W mod A) = Some None ->
  th_ok q W R L o th -> th_ok q (W + 1) R (L ++ [b]) o th.
Proof.
  intros Hr Hs. pose proof (ring_bounds _ _ _ _ Hr). pose proof (ring_len _ _ _ _ Hr) as Hl.
  assert (forall i mb, (exists k, 0 <= k /\ W - A <= k < R /\ i = k mod A /\ is_Some mb /\
    slot q i = Some mb /\ L !! Z.to_nat k = mb) -> exists k, 0 <= k /\ W + 1 - A <= k < R /\
    i = k mod A /\ is_Some mb /\ slot q i = Some mb /\ (L ++ [b]) !! Z.to_nat k = mb) as Ht.
  { intros i mb (k & ? & ? & -> & [b' ->] & Hk & HL). exists k.
    assert (k <> W - A) by (intros ->; rewrite mod_sub in Hk; congruence).
    rewrite lookup_snoc_lt by lia. split_and!; (done || lia). }
  destruct th as [mb timed []|timed []]; cbn; intros Hth; ands; split_and?; try done; try lia.
  - match goal with Hk : exists k, _ |- _ => destruct Hk as (k & ? & ? & ? & ?) end.
    exists k. rewrite lookup_snoc_lt by lia. split_and!; (done || lia).
  - intros ? ?. match goal with Hk : tag = R -> _ |- _ => destruct Hk as [? ?]; [done..|] end.
    split; [lia|done].
  - destruct Hth as (mb & -> & Hk). exists mb. auto.
  - auto.
Qed.

Lemma th_ok_pop q W R L o th b : ring q W R L -> slot q (R mod A) = Some (Some b) ->
  th_ok q W R L o th -> th_ok q W (R + 1) L o th.
Proof.
  intros Hr Hs. pose proof (ring_bounds _ _ _ _ Hr).
  assert (forall i mb, (exists k, 0 <= k /\ W - A <= k < R /\ i = k mod A /\ is_Some mb /\
    slot q i = Some mb /\ L !! Z.to_nat k = mb) -> exists k, 0 <= k /\ W - A <= k < R + 1 /\
    i = k mod A /\ is_Some mb /\ slot q i = Some mb /\ L !! Z.to_nat k = mb) as Ht.
  { intros i mb (k & ? & ? & ?). exists k. split_and!; try tauto; lia. }
  destruct th as [mb timed []|timed []]; cbn; intros Hth; ands; split_and?; try done; try lia.
  - intros ? ?. match goal with Hk : tag = W -> _ |- _ => destruct Hk as [? ?]; [done..|] end.
    split; [lia|done].
  - match goal with Hk : exists k, _ |- _ => destruct Hk as (k & ? & -> & Hk & ?) end. exists k.
    assert (k <> R) by (intros ->; congruence). split_and!; (done || lia).
  - destruct Hth as (mb & -> & Hk). exists mb. auto.
  - auto.
Qed.

(** A slot of the ring is written. *)
Lemma th_ok_store q q' W R L o th k v : ring q W R L -> R <= k < W -> ~ at_store th (k mod A) ->
  slot q (k mod A) = Some None ->
  (forall j, slot q' j = if decide (j = k mod A) then Some v else slot q j) ->
  th_ok q W R L o th -> th_ok q' W R L o th.
Proof.
  intros Hr Hk Hn Hs E. pose proof (ring_bounds _ _ _ _ Hr).
  assert (forall i mb, (exists k, 0 <= k /\ W - A <= k < R /\ i = k mod A /\ is_Some mb /\
    slot q i = Some mb /\ L !! Z.to_nat k = mb) -> exists k, 0 <= k /\ W - A <= k < R /\
    i = k mod A /\ is_Some mb /\ slot q' i = Some mb /\ L !! Z.to_nat k = mb) as Ht.
  { intros i mb (k' & ? & ? & -> & [b' ->] & Hk' & HL). exists k'.
    rewrite E, decide_False by congruence. split_and!; (done || lia). }
  destruct th as [mb timed []|timed []]; cbn; intros Hth; ands; split_and?; try done.
  - intros ? Hi. match goal with Hk' : tag = W -> _ |- _ => destruct Hk' as [? ?]; [done..|] end.
    split; [done|].
    rewrite E, decide_False; [done|]. subst. intros Hm. apply mod_inj in Hm; lia.
  - match goal with Hx : exists k, _ |- _ => destruct Hx as (k' & ? & -> & Hk' & ?) end.
    exists k'. rewrite E, decide_False by done.
    split_and!; (done || lia).
  - intros ? Hi. match goal with Hk' : tag = R -> _ |- _ => destruct Hk' as [? [b Hb]]; [done..|] end.
    split; [done|]. exists b.
    rewrite E, decide_False by congruence. done.
  - destruct Hth as (mb & -> & ?). exists mb. auto.
  - auto.
Qed.

(** A taken slot is cleared. *)
Lemma th_ok_clear q q' W R L o th k b : ring q W R L -> W - A <= k < R ->
  ~ at_take th (k mod A) -> slot q (k mod A) = Some (Some b) ->
  (forall j, slot q' j = if decide (j = k mod A) then Some None else slot q j) ->
  th_ok q W R L o th -> th_ok q' W R L o th.
Proof.
  intros Hr Hk Hn Hs E. pose proof (ring_bounds _ _ _ _ Hr).
  assert (forall i mb, i <> k mod A -> (exists k, 0 <= k /\ W - A <= k < R /\ i = k mod A /\ is_Some mb /\
    slot q i = Some mb /\ L !! Z.to_nat k = mb) -> exists k, 0 <= k /\ W - A <= k < R /\
    i = k mod A /\ is_Some mb /\ slot q' i = Some mb /\ L !! Z.to_nat k = mb) as Ht.
  { intros i mb Hi (k' & ? & ? & -> & [b' ->] & Hk' & HL). exists k'.
    rewrite E, decide_False by done. split_and!; (done || lia). }
  destruct th as [mb timed []|timed []]; cbn; intros Hth; ands; split_and?; try done.
  - intros ? Hi. match goal with Hk' : tag = W -> _ |- _ => destruct Hk' as [? ?]; [done..|] end.
    split; [done|].
    rewrite E, decide_False by congruence. done.
  - match goal with Hx : exists k, _ |- _ => destruct Hx as (k' & ? & -> & Hk' & ?) end.
    exists k'. rewrite E, decide_False by congruence.
    split_and!; (done || lia).
  - intros ? Hi. match goal with Hk' : tag = R -> _ |- _ => destruct Hk' as [? [b' Hb]]; [done..|] end.
    split; [done|]. exists b'.
    rewrite E, decide_False; [done|]. subst. intros Hm. apply mod_inj in Hm; lia.
  - destruct Hth as (mb & -> & ?). exists mb. auto.
  - auto.
Qed.
End Ring.

(** ** Every step keeps the invariant and is a step of the specification *)

Lemma u32_small z : 0 <= z < 2 ^ 32 -> u32 z = z.
Proof. intros H. by apply wrap_small. Qed.
Lemma u32_le z : 0 <= z -> u32 z <= z.
Proof. intros H. unfold u32, wrap. by apply Z.mod_le. Qed.

Section Steps.
Context (A : Z) (HA : 1 <= A) (HA' : A < 2 ^ 32).

Lemma next_index_mod q W R L k : ring A q W R L -> next_index q (k mod A) = (k + 1) mod A.
Proof.
  intros Hr. unfold next_index. rewrite (ring_size _ _ _ _ _ Hr).
  pose proof (Z.mod_pos_bound k A ltac:(lia)).
  unfold u32. rewrite wrap_small by (unfold fits; lia). apply Z.add_mod_idemp_l. lia.
Qed.

Lemma ring_slot q W R L i : ring A q W R L -> 0 <= i < A -> is_Some (slot q i).
Proof. intros Hr Hi. destruct (ring_array _ _ _ _ _ Hr) as (a & Ha & Hl). apply (slot_is_Some _ a); [done|lia]. Qed.

Lemma ring_no_array q W R L : ring A q W R L -> no_array q = false.
Proof.
  intros Hr. destruct (ring_array _ _ _ _ _ Hr) as (a & Ha & _). unfold no_array. rewrite Ha.
  apply Z.eqb_neq. rewrite (ring_size _ _ _ _ _ Hr). lia.
Qed.

Lemma ring_set_slot q W R L i v : ring A q W R L -> 0 <= i < A ->
  (forall k, R <= k < W -> i = k mod A -> v = None \/ v = L !! Z.to_nat k) ->
  exists q', set_slot i v q = Some q' /\ ring A q' W R L /\
    (forall j, slot q' j = if decide (j = i) then Some v else slot q j).
Proof.
  intros Hr Hi Hv. destruct (ring_array _ _ _ _ _ Hr) as (a & Ha & Hl).
  destruct (set_slot_spec q a i v Ha ltac:(lia)) as (a' & Hs & Hl' & Hslot).
  exists (with_array a' q). split_and!; [done| |done]. destruct Hr. split; try done.
  - exists a'. split; [done|lia].
  - intros k Hk. rewrite Hslot. case_decide; [|by apply ring_full0].
    destruct (Hv k) as [-> | ->]; auto.
Qed.

(** The counters, not the slots, change. *)
Lemma ring_ext q q' W R L : ring A q W R L -> m_unArraySize q' = m_unArraySize q ->
  m_pDataArray q' = m_pDataArray q -> m_WriteIndex q' = m_WriteIndex q ->
  m_WriteTag q' = m_WriteTag q -> m_ReadIndex q' = m_ReadIndex q -> m_ReadTag q' = m_ReadTag q ->
  ring A q' W R L /\ (forall j, slot q' j = slot q j).
Proof.
  intros [] E1 E2 E3 E4 E5 E6.
  assert (forall j, slot q' j = slot q j) as Hs by (intros; unfold slot; by rewrite E2).
  split; [|done]. split; try congruence; try done.
  - rewrite E2. done.
  - intros. rewrite Hs. auto.
Qed.

Lemma ring_push q W R L b : ring A q W R L -> W - R < A - 1 ->
  slot q (W mod A) = Some None ->
  ring A (with_write (next_index q (W mod A)) (u32 (u32 W + 1)) q) (W + 1) R (L ++ [b]).
Proof.
  intros Hr Hroom Hs. rewrite (next_index_mod q W R L W Hr). destruct Hr.
  assert (u32 (u32 W + 1) = u32 (W + 1)) as Hu by apply wrap_add_l.
  split; cbn; try done; try lia.
  - rewrite zlen_app, zlen_cons, zlen_nil. lia.
  - intros k Hk. change (slot (with_write _ _ _) (k mod A)) with (slot q (k mod A)).
    destruct (decide (k = W)) as [->|]; [by right|].
    rewrite lookup_snoc_lt by lia. apply ring_full0. lia.
Qed.

Lemma ring_pop q W R L : ring A q W R L -> R < W ->
  ring A (with_read (next_index q (R mod A)) (u32 (u32 R + 1)) q) W (R + 1) L.
Proof.
  intros Hr Hlt. rewrite (next_index_mod q W R L R Hr). destruct Hr.
  assert (u32 (u32 R + 1) = u32 (R + 1)) as Hu by apply wrap_add_l.
  split; cbn; try done; try lia.
  intros k Hk. apply ring_full0. lia.
Qed.

(** *** One thread moves *)

Definition set_thread (t : nat) (q : CMediaDataQueue) (th : thread) (c : config) : config :=
  {| c_queue := q; c_threads := <[t := th]> (c_threads c) |}.

Lemma inv_set n c s W R L t th' q' W' R' L' s' :
  inv A n c s W R L -> ring A q' W' R' L' -> W' <= n + 1 ->
  contents s' = drop (Z.to_nat R') L' ->
  (forall t', t' <> t -> owed s' !! t' = owed s !! t') ->
  th_ok A q' W' R' L' (owed s' !! t) th' ->
  (forall t' th2, t' <> t -> c_threads c !! t' = Some th2 ->
     th_ok A (c_queue c) W R L (owed s !! t') th2 -> th_ok A q' W' R' L' (owed s !! t') th2) ->
  (forall i t' th2, t' <> t -> c_threads c !! t' = Some th2 -> at_store th' i -> ~ at_store th2 i) ->
  (forall i t' th2, t' <> t -> c_threads c !! t' = Some th2 -> at_take th' i -> ~ at_take th2 i) ->
  inv A (n + 1) (set_thread t q' th' c) s' W' R' L'.
Proof.
  intros [] Hr Hn Hc Ho Hth Hoth Hst Htk. split; cbn; try done.
  - intros t' th2 [[<- <-]|[Hne Hl]]%lookup_insert_Some; [done|]. rewrite Ho by done. auto.
  - intros t' [Hl Hne]%lookup_insert_None. rewrite Ho by done. auto.
  - intros t1 t2 th1 th2 i [[<- <-]|[Hne1 Hl1]]%lookup_insert_Some
      [[<- <-]|[Hne2 Hl2]]%lookup_insert_Some H1 H2; [done|..].
    + by destruct (Hst i t2 th2).
    + by destruct (Hst i t1 th1).
    + by eapply inv_store0.
  - intros t1 t2 th1 th2 i [[<- <-]|[Hne1 Hl1]]%lookup_insert_Some
      [[<- <-]|[Hne2 Hl2]]%lookup_insert_Some H1 H2; [done|..].
    + by destruct (Htk i t2 th2).
    + by destruct (Htk i t1 th1).
    + by eapply inv_take0.
Qed.

(** The step changes neither indices nor slots. *)
Lemma inv_stay n c s W R L t th th' q' :
  inv A n c s W R L -> c_threads c !! t = Some th ->
  ring A q' W R L -> (forall j, slot q' j = slot (c_queue c) j) ->
  th_ok A (c_queue c) W R L (owed s !! t) th' ->
  (forall i, at_store th' i -> at_store th i) -> (forall i, at_take th' i -> at_take th i) ->
  inv A (n + 1) (set_thread t q' th' c) s W R L.
Proof.
  intros Hi Hl Hr Hs Hth Hst Htk. apply (inv_set n c s W R L); try done.
  - pose proof (inv_steps _ _ _ _ _ _ _ Hi). lia.
  - apply (inv_contents _ _ _ _ _ _ _ Hi).
  - by apply (th_ok_ext _ (c_queue c)).
  - intros t' th2 _ _. by apply th_ok_ext.
  - intros i t' th2 Hne Hl2 H1 H2. apply Hne. eapply (inv_store _ _ _ _ _ _ _ Hi); eauto.
  - intros i t' th2 Hne Hl2 H1 H2. apply Hne. eapply (inv_take _ _ _ _ _ _ _ Hi); eauto.
Qed.

Definition good_step (n : Z) (s : fifo) (l : label) (c' : config) : Prop :=
  exists s' W' R' L', fifo_step (A - 1) s l s' /\ inv A (n + 1) c' s' W' R' L'.

Lemma good_tau n s c' W R L : inv A (n + 1) c' s W R L -> good_step n s Tau c'.
Proof. intros H. exists s, W, R, L. split; [constructor|done]. Qed.

Lemma enq_step_good n c s W R L t mb timed late pc :
  inv A n c s W R L -> n + 1 < 2 ^ 32 -> c_threads c !! t = Some (Enq mb timed pc) ->
  (forall r, pc <> E_ret r) ->
  exists q' pc', enq_step mb late pc (c_queue c) = Some (q', pc') /\
    good_step n s (enq_label t mb pc pc') (set_thread t q' (Enq mb timed pc') c).
Proof.
  intros Hi Hn Hl Hpc. pose proof (inv_ring _ _ _ _ _ _ _ Hi) as Hr.
  pose proof (inv_steps _ _ _ _ _ _ _ Hi) as HWn.
  pose proof (inv_threads _ _ _ _ _ _ _ Hi t _ Hl) as Hth. cbn in Hth.
  pose proof (ring_bounds _ _ _ _ _ Hr) as Hb.
  assert (forall pc', th_ok A (c_queue c) W R L (owed s !! t) (Enq mb timed pc') ->
    (forall i, pc' <> E_store i) ->
    good_step n s Tau (set_thread t (c_queue c) (Enq mb timed pc') c)) as Hstay.
  { intros pc' H1 H2. eapply good_tau, (inv_stay _ c s W R L t (Enq mb timed pc)); try done.
    intros i Hat. destruct pc'; try done. by destruct (H2 i0). }
  destruct pc as [| | | |i|i tag|i tag|i tag|i| |r]; cbn [enq_ok] in Hth; cbn [enq_step].
  - destruct mb as [b|]; (eexists _, _; split; [reflexivity|]).
    + rewrite (ring_no_array _ W R L) by done. apply Hstay; [by cbn; eauto|done].
    + apply Hstay; done.
  - eexists _, _; split; [reflexivity|]. destruct Hth. by case_match; apply Hstay.
  - eexists _, _; split; [reflexivity|]. destruct Hth. by destruct late; apply Hstay.
  - eexists _, _; split; [reflexivity|]. destruct Hth. apply Hstay; [|done]. cbn.
    rewrite (ring_windex _ _ _ _ _ Hr). split_and!; try done; apply Z.mod_pos_bound; lia.
  - eexists _, _; split; [reflexivity|]. ands. apply Hstay; [|done]. cbn.
    rewrite (ring_wtag _ _ _ _ _ Hr). pose proof (u32_le W). split_and!; (done || lia).
  - eexists _, _; split; [reflexivity|]. ands. destruct (Z.eqb_spec (next_index (c_queue c) i) (m_ReadIndex (c_queue c))) as [|Hne];
      (apply Hstay; [|done]); cbn; [done|].
    split_and!; try done. intros -> ->. rewrite (next_index_mod _ W R L), (ring_rindex _ _ _ _ _ Hr) in Hne by done.
    enough (W + 1 <> R + A) by lia. intros E. apply Hne. rewrite E.
    replace (R + A) with (R + 1 * A) by lia. apply Z_mod_plus_full.
  - ands. destruct (ring_slot _ W R L i Hr) as [v Hv]; [lia|]. rewrite Hv.
    eexists _, _; split; [reflexivity|]. destruct v; (apply Hstay; [|done]); cbn; [done|].
    split_and!; try done. auto.
  - ands. rewrite (ring_windex _ _ _ _ _ Hr), (ring_wtag _ _ _ _ _ Hr), (u32_small W) by lia.
    destruct (Z.eqb_spec (W mod A) i) as [<-|]; [destruct (Z.eqb_spec W tag) as [<-|]|];
      (eexists _, _; split; [reflexivity|]); [|by apply Hstay..].
    match goal with H : W = W -> _ |- _ => destruct H as [Hroom Hfree]; [done..|] end.
    match goal with H : is_Some mb |- _ => destruct H as [b ->] end. cbn [enq_label].
    exists {| contents := contents s ++ [b]; owed := <[t := None]> (owed s) |}, (W + 1), R, (L ++ [b]).
    pose proof (inv_contents _ _ _ _ _ _ _ Hi) as Hc. pose proof (ring_len _ _ _ _ _ Hr) as HL. split.
    { constructor; [|done]. rewrite Hc, zlen_drop. lia. }
    apply (inv_set n c s W R L); cbn [contents owed]; try done.
    + pose proof (ring_push _ W R L b Hr Hroom Hfree) as Hp. by rewrite (u32_small W) in Hp by lia.
    + lia.
    + rewrite drop_app_le by (unfold zlen in HL; lia). by rewrite Hc.
    + intros t' Hne. by rewrite lookup_insert_ne.
    + rewrite lookup_insert_eq. cbn. split_and!; [done..|]. exists W. split_and!; (done || lia || idtac).
      rewrite list_lookup_middle by (unfold zlen in HL; lia). done.
    + intros t' th2 Hne Hl2 Hok. apply (th_ok_ext _ (c_queue c)); [done|]. by apply th_ok_push.
    + intros i t' th2 Hne Hl2 <- Hat. destruct th2 as [mb2 timed2 []|]; try done. cbn in Hat. subst.
      pose proof (inv_threads _ _ _ _ _ _ _ Hi t' _ Hl2) as (_ & _ & k & Hk & Hm & _).
      apply mod_inj in Hm; lia.
  - destruct Hth as (Ho & Hmb & k & Hk & -> & Hs & HLk).
    destruct (ring_set_slot (c_queue c) W R L (k mod A) mb Hr) as (q' & Hset & Hr' & Hslots).
    { apply Z.mod_pos_bound. lia. }
    { intros k' Hk' Hm. apply mod_inj in Hm; [subst; auto|lia..]. }
    rewrite Hset. eexists _, _; split; [reflexivity|]. destruct mb as [b|]; [|by destruct Hmb]. cbn [enq_label].
    eapply good_tau, (inv_set n c s W R L); try done.
    + lia.
    + apply (inv_contents _ _ _ _ _ _ _ Hi).
    + intros t' th2 Hne Hl2 Hok. apply (th_ok_store A HA (c_queue c) _ W R L _ _ k (Some b)); try done.
      intros Hat. apply Hne. by eapply (inv_store _ _ _ _ _ _ _ Hi).
  - eexists _, _; split; [reflexivity|]. cbn [enq_label].
    destruct (ring_ext (c_queue c) (with_size (u32 (m_QueueSize (c_queue c) + 1)) (c_queue c)) W R L) as [Hr' Hs']; [done..|].
    by apply (good_tau _ _ _ W R L), (inv_stay _ c s W R L t (Enq mb timed E_inc)).
  - by destruct (Hpc r).
Qed.

Lemma deq_step_good n c s W R L t timed late pc :
  inv A n c s W R L -> n + 1 < 2 ^ 32 -> c_threads c !! t = Some (Deq timed pc) ->
  (forall r mb, pc <> D_ret r mb) ->
  exists q' pc', deq_step late pc (c_queue c) = Some (q', pc') /\
    good_step n s (deq_label t (c_queue c) pc pc') (set_thread t q' (Deq timed pc') c).
Proof.
  intros Hi Hn Hl Hpc. pose proof (inv_ring _ _ _ _ _ _ _ Hi) as Hr.
  pose proof (inv_steps _ _ _ _ _ _ _ Hi) as HWn.
  pose proof (inv_threads _ _ _ _ _ _ _ Hi t _ Hl) as Hth. cbn in Hth.
  pose proof (ring_bounds _ _ _ _ _ Hr) as Hb.
  assert (forall pc', th_ok A (c_queue c) W R L (owed s !! t) (Deq timed pc') ->
    (forall i, at_take (Deq timed pc') i -> at_take (Deq timed pc) i) ->
    good_step n s Tau (set_thread t (c_queue c) (Deq timed pc') c)) as Hstay.
  { intros pc' H1 H2. eapply good_tau, (inv_stay _ c s W R L t (Deq timed pc)); done. }
  destruct pc as [| | | |i|i tag|i tag|i tag|i|i mb|mb|r mb]; cbn [deq_ok] in Hth; cbn [deq_step].
  - rewrite (ring_no_array _ W R L) by done. eexists _, _; split; [reflexivity|]. by apply Hstay.
  - eexists _, _; split; [reflexivity|]. by case_match; apply Hstay.
  - eexists _, _; split; [reflexivity|]. by destruct late; apply Hstay.
  - eexists _, _; split; [reflexivity|]. apply Hstay; [|done]. cbn.
    rewrite (ring_rindex _ _ _ _ _ Hr). split_and!; try done; apply Z.mod_pos_bound; lia.
  - eexists _, _; split; [reflexivity|]. ands. apply Hstay; [|done]. cbn.
    rewrite (ring_rtag _ _ _ _ _ Hr). pose proof (u32_le R). split_and!; (done || lia).
  - eexists _, _; split; [reflexivity|]. ands.
    destruct (Z.eqb_spec i (m_WriteIndex (c_queue c))) as [|Hne]; (apply Hstay; [|done]); cbn; [done|].
    split_and!; try done. intros -> ->. rewrite (ring_windex _ _ _ _ _ Hr) in Hne.
    enough (R <> W) by lia. intros E. apply Hne. by rewrite E.
  - ands. destruct (ring_slot _ W R L i Hr) as [v Hv]; [lia|]. rewrite Hv.
    eexists _, _; split; [reflexivity|]. destruct v as [b|]; (apply Hstay; [|done]); cbn; [|done].
    split_and!; try done. eauto.
  - ands. rewrite (ring_rindex _ _ _ _ _ Hr), (ring_rtag _ _ _ _ _ Hr), (u32_small R) by lia.
    destruct (Z.eqb_spec (R mod A) i) as [<-|]; [destruct (Z.eqb_spec R tag) as [<-|]|];
      (eexists _, _; split; [reflexivity|]); [|by apply Hstay..].
    match goal with H : R = R -> _ |- _ => destruct H as [Hroom [b Hfull]]; [done..|] end.
    cbn [deq_label]. rewrite Hfull.
    pose proof (inv_contents _ _ _ _ _ _ _ Hi) as Hc. pose proof (ring_len _ _ _ _ _ Hr) as HL.
    assert (L !! Z.to_nat R = Some b) as HRb.
    { destruct (ring_full _ _ _ _ _ Hr R) as [E|E]; [lia| |]; congruence. }
    exists {| contents := drop (Z.to_nat (R + 1)) L; owed := <[t := Some b]> (owed s) |}, W, (R + 1), L. split.
    { constructor; [|done]. rewrite Hc. replace (Z.to_nat (R + 1)) with (S (Z.to_nat R)) by lia.
      by apply drop_S. }
    apply (inv_set n c s W R L); cbn [contents owed]; try done.
    + pose proof (ring_pop _ W R L Hr Hroom) as Hp. by rewrite (u32_small R) in Hp by lia.
    + lia.
    + intros t' Hne. by rewrite lookup_insert_ne.
    + rewrite lookup_insert_eq. cbn. exists (Some b). split; [done|]. exists R.
      split_and!; (done || lia).
    + intros t' th2 Hne Hl2 Hok. apply (th_ok_ext _ (c_queue c)); [done|]. by apply (th_ok_pop A _ W R L _ _ b).
    + intros i t' th2 Hne Hl2 <- Hat. pose proof (inv_threads _ _ _ _ _ _ _ Hi t' _ Hl2) as Hok.
      destruct th2 as [|timed2 []]; try done; cbn in Hat, Hok; subst.
      * destruct Hok as (mb' & _ & k & ? & ? & Hm & _). apply mod_inj in Hm; lia.
      * destruct Hok as (_ & k & ? & ? & Hm & _). apply mod_inj in Hm; lia.
  - destruct Hth as (mb & Ho & k & ? & ? & -> & Hmb & Hs & HLk). rewrite Hs.
    eexists _, _; split; [reflexivity|]. apply Hstay; [|done]. cbn. split; [done|].
    exists k. split_and!; (done || lia).
  - destruct Hth as (Ho & k & ? & ? & -> & [b ->] & Hs & HLk).
    destruct (ring_set_slot (c_queue c) W R L (k mod A) None Hr) as (q' & Hset & Hr' & Hslots).
    { apply Z.mod_pos_bound. lia. }
    { auto. }
    rewrite Hset. eexists _, _; split; [reflexivity|]. cbn [deq_label].
    eapply good_tau, (inv_set n c s W R L); try done.
    + lia.
    + apply (inv_contents _ _ _ _ _ _ _ Hi).
    + intros t' th2 Hne Hl2 Hok. apply (th_ok_clear A HA (c_queue c) _ W R L _ _ k b); try done.
      intros Hat. apply Hne. by eapply (inv_take _ _ _ _ _ _ _ Hi).
  - eexists _, _; split; [reflexivity|]. cbn [deq_label].
    destruct (ring_ext (c_queue c) (with_size (u32 (m_QueueSize (c_queue c) - 1)) (c_queue c)) W R L) as [Hr' Hs']; [done..|].
    by apply (good_tau _ _ _ W R L), (inv_stay _ c s W R L t (Deq timed (D_dec mb))).
  - by destruct (Hpc r mb).
Qed.

Lemma return_good n c s W R L t th r out :
  inv A n c s W R L -> c_threads c !! t = Some th ->
  (if decide (r = RET_OK) then owed s !! t = Some out else owed s !! t = None /\ out = None) ->
  good_step n s (Return t r out)
    {| c_queue := c_queue c; c_threads := delete t (c_threads c) |}.
Proof.
  intros Hi Hl Ho. exists (if decide (r = RET_OK) then {| contents := contents s; owed := delete t (owed s) |} else s), W, R, L.
  assert (forall s', contents s' = contents s -> owed s' !! t = None ->
    (forall t', t' <> t -> owed s' !! t' = owed s !! t') ->
    inv A (n + 1) {| c_queue := c_queue c; c_threads := delete t (c_threads c) |} s' W R L) as Hdel.
  { intros s' Hc Ht Ho'. destruct Hi. split; cbn; try done.
    - lia.
    - by rewrite Hc.
    - intros t' th' [Hne Hl']%lookup_delete_Some. rewrite Ho' by done. auto.
    - intros t' [<-|Hn]%lookup_delete_None; [done|].
      destruct (decide (t' = t)) as [->|]; [done|]. rewrite Ho' by done. auto.
    - intros t1 t2 th1 th2 i [? ?]%lookup_delete_Some [? ?]%lookup_delete_Some. eauto.
    - intros t1 t2 th1 th2 i [? ?]%lookup_delete_Some [? ?]%lookup_delete_Some. eauto. }
  case_decide as Hr.
  - subst. split; [by constructor|]. apply Hdel; [done|apply lookup_delete_eq|].
    intros t' Hne. by apply lookup_delete_ne.
  - destruct Ho as [Ho ->]. split; [by constructor|]. by apply Hdel.
Qed.

Lemma thread_step_good n c s W R L t late th :
  inv A n c s W R L -> n + 1 < 2 ^ 32 -> c_threads c !! t = Some th ->
  exists l c', thread_step t late th c = Some (l, c') /\ good_step n s l c'.
Proof.
  intros Hi Hn Hl. pose proof (inv_threads _ _ _ _ _ _ _ Hi t _ Hl) as Hth.
  destruct th as [mb timed pc|timed pc].
  - assert ({r | pc = E_ret r} + {forall r, pc <> E_ret r}) as [[r ->]|Hpc] by (destruct pc; eauto; by right).
    { exists (Return t r None). eexists. split; [reflexivity|]. eapply return_good; [done..|].
      cbn in Hth. by case_decide. }
    destruct (enq_step_good n c s W R L t mb timed (timed && late) pc) as (q' & pc' & E & Hg); try done.
    exists (enq_label t mb pc pc'), (set_thread t q' (Enq mb timed pc') c). split; [|done].
    destruct pc; try (cbn [thread_step]; rewrite E; done). by destruct (Hpc r).
  - assert ({r & {mb | pc = D_ret r mb}} + {forall r mb, pc <> D_ret r mb}) as [(r & mb & ->)|Hpc]
      by (destruct pc; eauto; by right).
    { exists (Return t r mb). eexists. split; [reflexivity|]. by eapply return_good. }
    destruct (deq_step_good n c s W R L t timed (timed && late) pc) as (q' & pc' & E & Hg); try done.
    exists (deq_label t (c_queue c) pc pc'), (set_thread t q' (Deq timed pc') c). split; [|done].
    destruct pc; try (cbn [thread_step]; rewrite E; done). by destruct (Hpc r mb).
Qed.

Lemma step_good n c s W R L l c' :
  inv A n c s W R L -> n + 1 < 2 ^ 32 -> step c l c' -> good_step n s l c'.
Proof.
  intros Hi Hn Hst. pose proof (inv_steps _ _ _ _ _ _ _ Hi). destruct Hst as [t late th l c' Hl Hstep|t th Hl Hth|].
  - destruct (thread_step_good n c s W R L t late th) as (l2 & c2 & E & Hg); try done. congruence.
  - apply (good_tau _ _ _ W R L). pose proof (inv_idle _ _ _ _ _ _ _ Hi t Hl) as Ho.
    apply (inv_set n c s W R L); try done.
    + apply (inv_ring _ _ _ _ _ _ _ Hi).
    + lia.
    + apply (inv_contents _ _ _ _ _ _ _ Hi).
    + destruct th as [mb timed pc|timed pc]; cbn in Hth; by subst.
    + intros i t' th2 _ _ Hat. destruct th as [? ? []|]; done.
    + intros i t' th2 _ _ Hat. destruct th as [|? []]; done.
  - apply (good_tau _ _ _ W R L).
    destruct (ring_ext (c_queue c) (close (c_queue c)) W R L (inv_ring _ _ _ _ _ _ _ Hi)) as [Hr' Hs']; [done..|].
    destruct Hi. split; cbn [c_queue c_threads]; [done|lia|done| |done..].
    intros t th Hl. apply (th_ok_ext _ (c_queue c)); auto.
Qed.

End Steps.

(** ** A queue fresh from [init] *)

Definition fresh (N : Z) : CMediaDataQueue := snd (init true N CMediaDataQueue_new).

Lemma fresh_inv N : 0 <= N < 2 ^ 32 - 1 ->
  inv (N + 1) 0 {| c_queue := fresh N; c_threads := ∅ |} fifo_empty 0 0 [].
Proof.
  intros HN. assert (u32 (N + 1) = N + 1) as Hu by (unfold u32; apply wrap_small; unfold fits; lia).
  split; try done. split; cbn; rewrite ?Hu; try done; try lia.
  eexists. split; [done|]. unfold zlen. rewrite length_replicate. lia.
Qed.

(** What the specification makes of the blocks. *)
Definition pushes (ls : list label) : list mb_ptr :=
  omap (fun l => match l with Push _ b => Some b | _ => None end) ls.
Definition pops (ls : list label) : list mb_ptr :=
  omap (fun l => match l with Pop _ b => Some b | _ => None end) ls.

Lemma fifo_run_order N ls s : 0 <= N -> fifo_run N ls s ->
  pushes ls = pops ls ++ contents s /\ zlen (contents s) <= N.
Proof.
  intros HN. induction 1 as [|ls s l s' Hrun [IH1 IH2] Hst]; [done|].
  unfold pushes, pops in *. rewrite !omap_app, IH1.
  destruct Hst; cbn; rewrite ?app_nil_r; try done.
  - rewrite <-app_assoc. rewrite zlen_app, zlen_cons, zlen_nil. split; [done|lia].
  - rewrite H, <-app_assoc. rewrite H, zlen_cons in IH2. split; [done|lia].
Qed.


(** ** The counter

    A block counts from the locked increment to the locked decrement, not from
    the compare-and-swaps: [pending] is the difference. *)

Definition weight (th : thread) : Z :=
  match th with
  | Enq _ _ (E_store _) | Enq _ _ E_inc => -1
  | Deq _ (D_load _) | Deq _ (D_clear _ _) | Deq _ (D_dec _) => 1
  | _ => 0
  end.
Definition pending (m : gmap nat thread) : Z := map_fold (fun _ th z => weight th + z) 0 m.

Lemma pending_delete m t th : m !! t = Some th -> pending (delete t m) = pending m - weight th.
Proof.
  intros Hl. unfold pending. rewrite (map_fold_delete_L _ 0 t th m); [lia| |done].
  intros. lia.
Qed.

Lemma pending_insert m t th : m !! t = None -> pending (<[t := th]> m) = weight th + pending m.
Proof. intros Hl. unfold pending. rewrite map_fold_insert_L; [done| |done]. intros. lia. Qed.

Lemma pending_replace m t th th' : m !! t = Some th ->
  pending (<[t := th']> m) = pending m - weight th + weight th'.
Proof.
  intros Hl. rewrite <-insert_delete_eq, pending_insert by apply lookup_delete_eq.
  rewrite (pending_delete m t th) by done. lia.
Qed.

Definition net (l : label) : Z := match l with Push _ _ => 1 | Pop _ _ => -1 | _ => 0 end.

Lemma net_snoc ls l : zlen (pushes (ls ++ [l])) - zlen (pops (ls ++ [l])) =
  zlen (pushes ls) - zlen (pops ls) + net l.
Proof.
  unfold pushes, pops. rewrite !omap_app, !zlen_app. destruct l; cbn; rewrite ?zlen_cons, ?zlen_nil; lia.
Qed.

Definition counts (c : config) (d : Z) : Prop := m_QueueSize (c_queue c) = u32 (d + pending (c_threads c)).

Lemma size_step q q' d d' k : m_QueueSize q = u32 d -> m_QueueSize q' = u32 (m_QueueSize q + k) ->
  d' = d + k -> m_QueueSize q' = u32 d'.
Proof. intros E1 E2 ->. rewrite E2, E1. apply wrap_add_l. Qed.

Lemma set_slot_size i v q q' : set_slot i v q = Some q' -> m_QueueSize q' = m_QueueSize q.
Proof.
  unfold set_slot. destruct (m_pDataArray q); [|done]. cbn. destruct (slot q i); [|done]. cbn.
  by intros [= <-].
Qed.

Lemma enq_step_size mb late pc q q' pc' t : enq_step mb late pc q = Some (q', pc') ->
  (forall i tag, pc = E_cas i tag -> is_Some mb) ->
  m_QueueSize q' = m_QueueSize q /\ weight (Enq mb late pc') - weight (Enq mb late pc) + net (enq_label t mb pc pc') = 0 \/
  m_QueueSize q' = u32 (m_QueueSize q + 1) /\ weight (Enq mb late pc') - weight (Enq mb late pc) = 1 /\
    enq_label t mb pc pc' = Tau.
Proof.
  intros E Hmb. destruct pc as [| | | |i|i tag|i tag|i tag|i| |r]; cbn in E.
  1: by destruct mb; simplify_eq; left; repeat case_match.
  1-5: simplify_eq; left; by repeat case_match.
  - destruct (slot q i) as [[]|]; simplify_eq/=; by left.
  - destruct (Hmb i tag eq_refl) as [b ->]. case_match; simplify_eq/=; left; done.
  - destruct (set_slot i mb q) eqn:Es; simplify_eq/=. left. by rewrite (set_slot_size _ _ _ _ Es).
  - simplify_eq. by right.
  - simplify_eq. by left.
Qed.

Lemma deq_step_size late pc q q' pc' t : deq_step late pc q = Some (q', pc') ->
  (forall i tag, pc = D_cas i tag -> m_ReadIndex q = i -> m_ReadTag q = tag -> exists b, slot q i = Some (Some b)) ->
  m_QueueSize q' = m_QueueSize q /\ weight (Deq late pc') - weight (Deq late pc) + net (deq_label t q pc pc') = 0 \/
  m_QueueSize q' = u32 (m_QueueSize q - 1) /\ weight (Deq late pc') - weight (Deq late pc) = -1 /\
    deq_label t q pc pc' = Tau.
Proof.
  intros E Hs. destruct pc as [| | | |i|i tag|i tag|i tag|i|i mb|mb|r mb]; cbn in E.
  1-6: simplify_eq; left; by repeat case_match.
  - destruct (slot q i) as [[]|]; simplify_eq/=; by left.
  - destruct (Z.eqb_spec (m_ReadIndex q) i); [destruct (Z.eqb_spec (m_ReadTag q) tag)|]; simplify_eq/=; left; [|done..].
    destruct (Hs _ _ eq_refl eq_refl eq_refl) as [b ->]. done.
  - destruct (slot q i); simplify_eq/=. by left.
  - destruct (set_slot i None q) eqn:Es; simplify_eq/=. left. by rewrite (set_slot_size _ _ _ _ Es).
  - simplify_eq. by right.
  - simplify_eq. by left.
Qed.

Lemma weight_timed mb timed timed' pc : weight (Enq mb timed pc) = weight (Enq mb timed' pc).
Proof. by destruct pc. Qed.
Lemma weight_timed' timed timed' pc : weight (Deq timed pc) = weight (Deq timed' pc).
Proof. by destruct pc. Qed.

Lemma thread_step_inv t late th c l c' : thread_step t late th c = Some (l, c') ->
  (exists r out, l = Return t r out /\ weight th = 0 /\
     c' = {| c_queue := c_queue c; c_threads := delete t (c_threads c) |}) \/
  (exists mb timed pc q' pc', th = Enq mb timed pc /\
     enq_step mb (timed && late) pc (c_queue c) = Some (q', pc') /\ l = enq_label t mb pc pc' /\
     c' = set_thread t q' (Enq mb timed pc') c) \/
  (exists timed pc q' pc', th = Deq timed pc /\
     deq_step (timed && late) pc (c_queue c) = Some (q', pc') /\
     l = deq_label t (c_queue c) pc pc' /\ c' = set_thread t q' (Deq timed pc') c).
Proof.
  intros H. destruct th as [mb timed pc|timed pc].
  - destruct (enq_step mb (timed && late) pc (c_queue c)) as [[q' pc']|] eqn:E; destruct pc;
      cbn [thread_step] in H; rewrite ?E in H; cbn [mbind option_bind] in H; simplify_eq;
      solve [left; eauto | right; left; eauto 10].
  - destruct (deq_step (timed && late) pc (c_queue c)) as [[q' pc']|] eqn:E; destruct pc;
      cbn [thread_step] in H; rewrite ?E in H; cbn [mbind option_bind] in H; simplify_eq;
      solve [left; eauto | right; right; eauto 10].
Qed.

Lemma step_counts A n c s W R L d l c' : 1 <= A -> inv A n c s W R L -> n + 1 < 2 ^ 32 ->
  step c l c' -> counts c d -> counts c' (d + net l).
Proof.
  intros HA Hi Hn Hst Hc. unfold counts in *.
  destruct Hst as [t late th l c' Hl Hstep|t th Hl Hth|]; cbn [net c_queue c_threads].
  - pose proof (inv_threads _ _ _ _ _ _ _ Hi t _ Hl) as Hth.
    pose proof (inv_ring _ _ _ _ _ _ _ Hi) as Hr. pose proof (inv_steps _ _ _ _ _ _ _ Hi) as HW.
    pose proof (ring_bounds _ _ _ _ _ Hr) as Hb.
    assert (forall q th' k, m_QueueSize q = u32 (m_QueueSize (c_queue c) + k) ->
      weight th' - weight th + net l = k ->
      m_QueueSize q = u32 (d + net l + pending (<[t := th']> (c_threads c)))) as Hset.
    { intros q th' k Hq Hk. rewrite (pending_replace _ t th th') by done.
      eapply size_step; [exact Hc|exact Hq|lia]. }
    assert (forall q, m_QueueSize q = m_QueueSize (c_queue c) ->
      m_QueueSize q = u32 (m_QueueSize (c_queue c) + 0)) as Hsame.
    { intros q ->. rewrite Z.add_0_r, Hc. symmetry. apply wrap_wrap. }
    destruct (thread_step_inv _ _ _ _ _ _ Hstep) as
      [(r & out & -> & Hw & ->)|[(mb & timed & pc & q' & pc' & -> & E & -> & ->)
        |(timed & pc & q' & pc' & -> & E & -> & ->)]]; cbn [net c_queue c_threads set_thread].
    + rewrite (pending_delete _ t th), Hc by done. f_equal. lia.
    + rewrite (weight_timed _ _ (timed && late)) in Hset.
      destruct (enq_step_size mb (timed && late) pc (c_queue c) q' pc' t E) as [[Hq Hk]|(Hq & Hk & Hlab)].
      { intros i tag ->. cbn in Hth. tauto. }
      * apply (Hset _ _ 0); [by apply Hsame|]. rewrite (weight_timed _ _ (timed && late)). lia.
      * apply (Hset _ _ 1); [done|]. rewrite (weight_timed _ _ (timed && late)), Hlab. cbn [net]. lia.
    + rewrite (weight_timed' _ (timed && late)) in Hset.
      destruct (deq_step_size (timed && late) pc (c_queue c) q' pc' t E) as [[Hq Hk]|(Hq & Hk & Hlab)].
      { intros i tag -> Hi' Ht'. cbn in Hth. apply Hth.
        - rewrite <-Ht', (ring_rtag _ _ _ _ _ Hr). apply u32_small. lia.
        - rewrite <-Hi'. apply (ring_rindex _ _ _ _ _ Hr). }
      * apply (Hset _ _ 0); [by apply Hsame|]. rewrite (weight_timed' _ (timed && late)). lia.
      * apply (Hset _ _ (-1)); [done|]. rewrite (weight_timed' _ (timed && late)), Hlab. cbn [net]. lia.
  - rewrite (pending_insert _ t th) by done. rewrite Hc. f_equal.
    destruct th as [mb timed pc|timed pc]; cbn in Hth; subst; cbn [weight]; lia.
  - rewrite Z.add_0_r. done.
Qed.

Lemma run_good A c0 ls c : 1 <= A -> A < 2 ^ 32 -> inv A 0 c0 fifo_empty 0 0 [] -> counts c0 0 ->
  run c0 ls c -> zlen ls < 2 ^ 32 ->
  (exists s W R L, fifo_run (A - 1) ls s /\ inv A (zlen ls) c s W R L) /\
  counts c (zlen (pushes ls) - zlen (pops ls)).
Proof.
  intros HA HA' Hi H0 Hrun Hls. induction Hrun as [|ls c l c' Hrun IH Hstep].
  - split; [|done]. exists fifo_empty, 0, 0, []. split; [constructor|done].
  - rewrite net_snoc. rewrite zlen_app, zlen_cons, zlen_nil, Z.add_0_r in Hls |- *.
    destruct IH as [(s & W & R & L & Hf & Hi') Hc]; [lia|]. split.
    + destruct (step_good A HA HA' (zlen ls) c s W R L l c') as (s' & W' & R' & L' & Hs & Hi2); [done|lia|done|].
      exists s', W', R', L'. split; [by econstructor|done].
    + eapply step_counts; [exact HA|exact Hi'|lia|done|done].
Qed.

Lemma fresh_run N ls c : 0 <= N < 2 ^ 32 - 1 -> zlen ls < 2 ^ 32 ->
  run {| c_queue := fresh N; c_threads := ∅ |} ls c ->
  (exists s W R L, fifo_run N ls s /\ inv (N + 1) (zlen ls) c s W R L) /\
  counts c (zlen (pushes ls) - zlen (pops ls)).
Proof.
  intros HN Hls Hrun.
  destruct (run_good (N + 1) _ ls c ltac:(lia) ltac:(lia) (fresh_inv N HN) eq_refl Hrun Hls)
    as [(s & W & R & L & Hf & Hi) Hc].
  rewrite Z.add_simpl_r in Hf. split; [|done]. eauto 10.
Qed.

(** ** Calls that run alone

    [repr N q l]: no call is in progress in the queue [q] of [N] blocks, which
    holds the blocks [l]. *)

Definition repr (N : Z) (q : CMediaDataQueue) (l : list mb_ptr) : Prop :=
  exists W R L, ring (N + 1) q W R L /\ l = drop (Z.to_nat R) L /\
    (forall k, R <= k < W -> slot q (k mod (N + 1)) = Some (L !! Z.to_nat k)) /\
    (forall k, W <= k < R + (N + 1) -> slot q (k mod (N + 1)) = Some None) /\
    m_QueueSize q = zlen l /\ m_unMaxQueueSize q = N.

Lemma fresh_repr N : 0 <= N < 2 ^ 32 - 1 -> repr N (fresh N) [].
Proof.
  intros HN. destruct (fresh_inv N HN). exists 0, 0, []. split_and!; try done.
  - intros k Hk. lia.
  - intros k Hk. unfold slot. cbn. rewrite u32_small by lia.
    pose proof (Z.mod_pos_bound k (N + 1) ltac:(lia)) as Hm.
    rewrite (proj2 (Z.leb_le _ _)) by lia. apply lookup_replicate_2. lia.
Qed.

Lemma repr_length N q l : repr N q l -> 0 <= zlen l <= N.
Proof.
  intros (W & R & L & Hr & -> & _). pose proof (ring_bounds _ _ _ _ _ Hr).
  rewrite zlen_drop, (ring_len _ _ _ _ _ Hr). lia.
Qed.

Lemma repr_empty N q l : repr N q l -> empty q = match l with [] => true | _ => false end.
Proof.
  intros (W & R & L & _ & _ & _ & _ & Hs & _). unfold empty. rewrite Hs.
  destruct l; [done|]. rewrite zlen_cons. pose proof (zlen_nonneg l). apply Z.eqb_neq. lia.
Qed.

Lemma enqueue_ret fuel mb late r q : enqueue_tail fuel mb late (E_ret r) q = Some (q, Some r).
Proof. by destruct fuel. Qed.
Lemma dequeue_ret fuel late r mb q : dequeue_head fuel late (D_ret r mb) q = Some (q, Some (r, mb)).
Proof. by destruct fuel. Qed.

Lemma enqueue_S fuel mb late pc q : enqueue_tail (S fuel) mb late pc q =
  match pc with
  | E_ret r => Some (q, Some r)
  | _ => '(q, pc) ← enq_step mb (late fuel) pc q; enqueue_tail fuel mb late pc q
  end.
Proof. by destruct pc. Qed.
Lemma dequeue_S fuel late pc q : dequeue_head (S fuel) late pc q =
  match pc with
  | D_ret r mb => Some (q, Some (r, mb))
  | _ => '(q, pc) ← deq_step (late fuel) pc q; dequeue_head fuel late pc q
  end.
Proof. by destruct pc. Qed.

Ltac estep := rewrite enqueue_S; cbn [enq_step mbind option_bind].
Ltac dstep := rewrite dequeue_S; cbn [deq_step mbind option_bind].

Section Alone.
Context (N : Z) (HN : 0 <= N < 2 ^ 32 - 1).

(** From the loop head to the check of the other index. *)
Lemma enqueue_loop fuel mb q W R L : ring (N + 1) q W R L -> m_ActiveFlag q <> 0 -> 
  enqueue_tail (5 + fuel) mb (fun _ => false) E_loop q =
    if W - R =? N then enqueue_tail fuel mb (fun _ => false) E_loop q
    else enqueue_tail fuel mb (fun _ => false) (E_slot (W mod (N + 1)) (u32 W)) q.
Proof.
  intros Hr Ha. cbn [Nat.add]. estep.
  rewrite (proj2 (Z.eqb_neq _ _)) by done. do 4 estep.
  rewrite (ring_windex _ _ _ _ _ Hr), (ring_wtag _ _ _ _ _ Hr), (ring_rindex _ _ _ _ _ Hr).
  rewrite (next_index_mod (N + 1) ltac:(lia) ltac:(lia) q W R L W Hr).
  pose proof (ring_bounds _ _ _ _ _ Hr).
  destruct (Z.eqb_spec (W - R) N) as [E|E].
  - replace (W + 1) with (R + 1 * (N + 1)) by lia. rewrite Z_mod_plus_full, Z.eqb_refl. done.
  - rewrite (proj2 (Z.eqb_neq _ _)); [done|]. intros Hm. apply mod_inj in Hm; lia.
Qed.

Lemma dequeue_loop fuel q W R L : ring (N + 1) q W R L -> m_ActiveFlag q <> 0 ->
  dequeue_head (5 + fuel) (fun _ => false) D_loop q =
    if W - R =? 0 then dequeue_head fuel (fun _ => false) D_loop q
    else dequeue_head fuel (fun _ => false) (D_slot (R mod (N + 1)) (u32 R)) q.
Proof.
  intros Hr Ha. cbn [Nat.add]. dstep.
  rewrite (proj2 (Z.eqb_neq _ _)) by done. do 4 dstep.
  rewrite (ring_rindex _ _ _ _ _ Hr), (ring_rtag _ _ _ _ _ Hr), (ring_windex _ _ _ _ _ Hr).
  pose proof (ring_bounds _ _ _ _ _ Hr).
  destruct (Z.eqb_spec (W - R) 0) as [E|E].
  - replace W with R by lia. by rewrite Z.eqb_refl.
  - rewrite (proj2 (Z.eqb_neq _ _)); [done|]. intros Hm. apply mod_inj in Hm; lia.
Qed.

Lemma enqueue_alone q l b fuel : repr N q l -> m_ActiveFlag q <> 0 -> zlen l < N ->
  exists q', enqueue_tail (10 + fuel) (Some b) (fun _ => false) E_start q = Some (q', Some RET_OK) /\
    repr N q' (l ++ [b]) /\ m_ActiveFlag q' = m_ActiveFlag q.
Proof.
  intros (W & R & L & Hr & -> & Hfull & Hfree & Hs & Hmax) Ha Hl.
  pose proof (ring_bounds _ _ _ _ _ Hr) as Hb. pose proof (ring_len _ _ _ _ _ Hr) as HL.
  rewrite zlen_drop in Hl, Hs.
  change (10 + fuel)%nat with (S (5 + (4 + fuel))). estep.
  rewrite (ring_no_array (N + 1) ltac:(lia) _ _ _ _ Hr). rewrite (enqueue_loop _ _ _ W R L) by done.
  rewrite (proj2 (Z.eqb_neq _ _)) by lia. cbn [Nat.add]. estep.
  rewrite (Hfree W) by lia. cbn [mbind option_bind]. estep.
  rewrite (ring_windex _ _ _ _ _ Hr), (ring_wtag _ _ _ _ _ Hr), !Z.eqb_refl. cbn [andb mbind option_bind].
  estep.
  pose proof (ring_push (N + 1) ltac:(lia) ltac:(lia) q W R L b Hr ltac:(lia) (Hfree W ltac:(lia))) as Hr'.
  set (q1 := with_write _ _ q) in *.
  destruct (ring_set_slot (N + 1) q1 (W + 1) R (L ++ [b]) (W mod (N + 1)) (Some b) Hr')
    as (q2 & Hset & Hr2 & Hslots).
  { apply Z.mod_pos_bound. lia. }
  { intros k Hk Hm. right. apply mod_inj in Hm; [|lia..]. subst k.
    rewrite list_lookup_middle by (unfold zlen in HL; lia). done. }
  rewrite Hset. cbn [mbind option_bind]. estep.
  pose proof (set_slot_size _ _ _ _ Hset) as Hq2.
  assert (m_QueueSize q2 = m_QueueSize q /\ m_unMaxQueueSize q2 = m_unMaxQueueSize q /\ m_ActiveFlag q2 = m_ActiveFlag q) as (E1 & E2 & E3).
  { revert Hset. unfold set_slot. destruct (m_pDataArray q1); [|done]. cbn [mbind option_bind].
    destruct (slot q1 _); [|done]. cbn [mbind option_bind]. by intros [= <-]. }
  rewrite enqueue_ret. eexists. split; [reflexivity|]. split; [|done].
  destruct (ring_ext (N + 1) q2 (with_size (u32 (m_QueueSize q2 + 1)) q2) (W + 1) R (L ++ [b]) Hr2) as [Hr3 Hs3]; [done..|].
  exists (W + 1), R, (L ++ [b]). split_and!; try done.
  - by rewrite drop_app_le by (unfold zlen in HL; lia).
  - intros k Hk. rewrite Hs3, Hslots. case_decide as Hm.
    + apply mod_inj in Hm; [|lia..]. subst k. by rewrite list_lookup_middle by (unfold zlen in HL; lia).
    + assert (k <> W) by (intros ->; done). rewrite lookup_snoc_lt by lia. apply Hfull. lia.
  - intros k Hk. rewrite Hs3, Hslots. rewrite decide_False; [apply Hfree; lia|].
    intros Hm. apply mod_inj in Hm; lia.
  - cbn [m_QueueSize with_size]. rewrite E1, Hs, zlen_app, zlen_drop. change (zlen [b]) with 1. rewrite u32_small; lia.
  - cbn. by rewrite E2.
Qed.

Lemma dequeue_alone q b l fuel : repr N q (b :: l) -> m_ActiveFlag q <> 0 ->
  exists q', dequeue_head (11 + fuel) (fun _ => false) D_start q = Some (q', Some (RET_OK, Some b)) /\
    repr N q' l /\ m_ActiveFlag q' = m_ActiveFlag q.
Proof.
  intros (W & R & L & Hr & HbL & Hfull & Hfree & Hs & Hmax) Ha.
  pose proof (ring_bounds _ _ _ _ _ Hr) as Hb. pose proof (ring_len _ _ _ _ _ Hr) as HL.
  assert (L !! Z.to_nat R = Some b) as HRb.
  { replace (Z.to_nat R) with (Z.to_nat R + 0)%nat by lia. by rewrite <-lookup_drop, <-HbL. }
  assert (l = drop (Z.to_nat (R + 1)) L) as Hl.
  { replace (Z.to_nat (R + 1)) with (S (Z.to_nat R)) by lia.
    rewrite (drop_S L b) in HbL by done. congruence. }
  assert (R < W) by (apply lookup_lt_Some in HRb; unfold zlen in HL; lia).
  change (11 + fuel)%nat with (S (5 + (5 + fuel))). dstep.
  rewrite (ring_no_array (N + 1) ltac:(lia) _ _ _ _ Hr). rewrite (dequeue_loop _ _ W R L) by done.
  rewrite (proj2 (Z.eqb_neq _ _)) by lia. cbn [Nat.add]. dstep.
  pose proof (Hfull R ltac:(lia)) as HR. rewrite HRb in HR. rewrite HR.
  cbn [mbind option_bind]. dstep.
  rewrite (ring_rindex _ _ _ _ _ Hr), (ring_rtag _ _ _ _ _ Hr), !Z.eqb_refl. cbn [andb mbind option_bind].
  dstep.
  pose proof (ring_pop (N + 1) ltac:(lia) ltac:(lia) q W R L Hr ltac:(lia)) as Hr'.
  set (q1 := with_read _ _ q) in *. change (slot q1 (R mod (N + 1))) with (slot q (R mod (N + 1))).
  rewrite HR. cbn [mbind option_bind]. dstep.
  destruct (ring_set_slot (N + 1) q1 W (R + 1) L (R mod (N + 1)) None Hr') as (q2 & Hset & Hr2 & Hslots).
  { apply Z.mod_pos_bound. lia. }
  { auto. }
  rewrite Hset. cbn [mbind option_bind]. dstep.
  assert (m_QueueSize q2 = m_QueueSize q /\ m_unMaxQueueSize q2 = m_unMaxQueueSize q /\ m_ActiveFlag q2 = m_ActiveFlag q) as (E1 & E2 & E3).
  { revert Hset. unfold set_slot. destruct (m_pDataArray q1); [|done]. cbn [mbind option_bind].
    destruct (slot q1 _); [|done]. cbn [mbind option_bind]. by intros [= <-]. }
  rewrite dequeue_ret. eexists. split; [reflexivity|]. split; [|done].
  destruct (ring_ext (N + 1) q2 (with_size (u32 (m_QueueSize q2 - 1)) q2) W (R + 1) L Hr2) as [Hr3 Hs3]; [done..|].
  exists W, (R + 1), L. split_and!; try done.
  - intros k Hk. rewrite Hs3, Hslots. rewrite decide_False; [apply Hfull; lia|].
    intros Hm. apply mod_inj in Hm; lia.
  - intros k Hk. rewrite Hs3, Hslots. case_decide as Hm; [done|]. apply Hfree.
    assert (k <> R + (N + 1)) by (intros ->; rewrite <-(Z_mod_plus_full R 1 (N + 1)) in Hm; apply Hm; f_equal; lia). lia.
  - cbn [m_QueueSize with_size]. rewrite E1, Hs, zlen_cons. pose proof (zlen_nonneg l).
    rewrite Hl, zlen_drop. rewrite u32_small; lia.
  - cbn. by rewrite E2.
Qed.

(** A call that cannot proceed goes round for ever when it has no timeout. *)
Lemma enqueue_full_spins q l b fuel : repr N q l -> m_ActiveFlag q <> 0 -> zlen l = N ->
  enqueue_tail fuel (Some b) (fun _ => false) E_loop q = Some (q, None).
Proof.
  intros (W & R & L & Hr & -> & _) Ha Hl.
  pose proof (ring_bounds _ _ _ _ _ Hr) as Hb. pose proof (ring_len _ _ _ _ _ Hr) as HL.
  rewrite zlen_drop in Hl. induction fuel as [fuel IH] using lt_wf_ind.
  do 5 (destruct fuel as [|fuel];
    [cbn [enqueue_tail enq_step mbind option_bind]; rewrite ?(proj2 (Z.eqb_neq _ _)) by done; reflexivity|]).
  change (S (S (S (S (S fuel))))) with (5 + fuel)%nat. rewrite (enqueue_loop _ _ _ W R L) by done.
  rewrite (proj2 (Z.eqb_eq _ _)) by lia. apply IH. lia.
Qed.
End Alone.

(** ** Schedules: runs that are computed *)

Inductive action : Type :=
| Go (t : nat)                                         (* one step of a thread *)
| CallEnqueue (t : nat) (mb : option mb_ptr) (timed : bool)
| CallDequeue (t : nat) (timed : bool).

Definition act (a : action) (c : config) : option (label * config) :=
  match a with
  | Go t => th ← c_threads c !! t; thread_step t false th c
  | CallEnqueue t mb timed =>
    if decide (c_threads c !! t = None)
    then Some (Tau, set_thread t (c_queue c) (Enq mb timed E_start) c) else None
  | CallDequeue t timed =>
    if decide (c_threads c !! t = None)
    then Some (Tau, set_thread t (c_queue c) (Deq timed D_start) c) else None
  end.

Fixpoint schedule (acts : list action) (ls : list label) (c : config) : option (list label * config) :=
  match acts with
  | [] => Some (ls, c)
  | a :: acts => '(l, c) ← act a c; schedule acts (ls ++ [l]) c
  end.

Lemma act_step a c l c' : act a c = Some (l, c') -> step c l c'.
Proof.
  destruct a as [t|t mb timed|t timed]; cbn [act].
  - destruct (c_threads c !! t) as [th|] eqn:E; [|done]. by apply (step_thread _ t false th).
  - case_decide; [|done]. intros [= <- <-]. by apply step_call.
  - case_decide; [|done]. intros [= <- <-]. by apply step_call.
Qed.

Lemma schedule_run acts c0 ls c ls' c' : run c0 ls c -> schedule acts ls c = Some (ls', c') ->
  run c0 ls' c'.
Proof.
  revert ls c. induction acts as [|a acts IH]; cbn [schedule]; intros ls c Hrun H; [by simplify_eq|].
  destruct (act a c) as [[l c1]|] eqn:E; [|done]. revert H. apply IH.
  econstructor; [done|by apply (act_step a)].
Qed.

(** Thread 1 puts the block 7 up to its locked increment, thread 2 takes it. *)
Definition overtaking : list action :=
  [CallEnqueue 1 (Some 7%nat) false] ++ replicate 9 (Go 1) ++ [CallDequeue 2 true] ++ replicate 11 (Go 2).

Definition overtaken : list label * config :=
  default ([], {| c_queue := fresh 4; c_threads := ∅ |})
    (schedule overtaking [] {| c_queue := fresh 4; c_threads := ∅ |}).

Lemma overtaken_run : run {| c_queue := fresh 4; c_threads := ∅ |} (fst overtaken) (snd overtaken).
Proof.
  apply (schedule_run overtaking _ [] {| c_queue := fresh 4; c_threads := ∅ |}); [constructor|].
  by vm_compute.
Qed.

(** ** Properties *)

(** C4: whatever the number of threads and however their accesses interleave,
    a queue of [N] blocks behaves like a bounded first-in first-out queue: the
    trace of a run of fewer than 2^32 steps is one of the specification, in
    which the compare-and-swaps are the points where the calls take effect. No
    access leaves the slot array, and the blocks taken are the blocks put, in
    order, each once. *)
Theorem queue_refines_fifo N ls c
    (HN : 0 <= N < 2 ^ 32 - 1) (Hls : zlen ls + 1 < 2 ^ 32)
    (Hrun : run {| c_queue := fresh N; c_threads := ∅ |} ls c) :
  (exists s, fifo_run N ls s /\ pushes ls = pops ls ++ contents s /\ zlen (contents s) <= N) /\
  (forall t late th, c_threads c !! t = Some th -> is_Some (thread_step t late th c)).
Proof.
  destruct (fresh_run N ls c HN ltac:(lia) Hrun) as [(s & W & R & L & Hf & Hi) _]. split.
  - exists s. split; [done|]. apply fifo_run_order; [lia|done].
  - intros t late th Hl.
    destruct (thread_step_good (N + 1) ltac:(lia) ltac:(lia) _ _ _ _ _ _ t late th Hi ltac:(lia) Hl) as (l & c' & -> & _).
    done.
Qed.

(** When no call is in progress [message_count] is the number of blocks in
    the queue; while calls are in progress it differs from it by the blocks
    between a compare-and-swap and its locked increment or decrement. *)
Theorem message_count_idle N ls c
    (HN : 0 <= N < 2 ^ 32 - 1) (Hls : zlen ls < 2 ^ 32)
    (Hrun : run {| c_queue := fresh N; c_threads := ∅ |} ls c) :
  message_count (c_queue c) =
    u32 (zlen (pushes ls) - zlen (pops ls) + pending (c_threads c)) /\
  (c_threads c = ∅ -> message_count (c_queue c) = zlen (pushes ls) - zlen (pops ls)).
Proof.
  destruct (fresh_run N ls c HN Hls Hrun) as [(s & W & R & L & Hf & Hi) Hc]. split; [exact Hc|].
  intros E. unfold counts in Hc. rewrite E in Hc. unfold message_count. rewrite Hc.
  destruct (fifo_run_order N ls s ltac:(lia) Hf) as [Ho Hb].
  rewrite Ho, zlen_app. pose proof (zlen_nonneg (contents s)).
  change (pending ∅) with 0. rewrite u32_small; lia.
Qed.

(** A call of [enqueue_tail] that runs alone puts its block behind the
    others and returns [RET_OK] in ten steps, unless the queue is full, where it
    goes round for ever; a call of [dequeue_head] takes the oldest block and
    returns it in eleven. *)
Theorem calls_alone N q l (HN : 0 <= N < 2 ^ 32 - 1) (Hq : repr N q l) (Ha : m_ActiveFlag q <> 0) :
  (forall b, zlen l < N -> exists q',
     enqueue_tail 10 (Some b) (fun _ => false) E_start q = Some (q', Some RET_OK) /\
     repr N q' (l ++ [b])) /\
  (forall b fuel, zlen l = N ->
     enqueue_tail fuel (Some b) (fun _ => false) E_loop q = Some (q, None)) /\
  (forall b l', l = b :: l' -> exists q',
     dequeue_head 11 (fun _ => false) D_start q = Some (q', Some (RET_OK, Some b)) /\
     repr N q' l').
Proof.
  split_and!.
  - intros b Hl. destruct (enqueue_alone N HN q l b 0 Hq Ha Hl) as (q' & H & ? & _). by exists q'.
  - intros b fuel Hl. by apply (enqueue_full_spins N HN q l).
  - intros b l' ->. destruct (dequeue_alone N HN q b l' 0 Hq Ha) as (q' & H & ? & _). by exists q'.
Qed.

(** The counter can be overtaken: in a run in which every block put has
    been taken, [message_count] is 2^32-1, so that [empty] is false and [full]
    is true. *)
Theorem message_count_underflow :
  exists ls c, run {| c_queue := fresh 4; c_threads := ∅ |} ls c /\
    pushes ls = pops ls /\ message_count (c_queue c) = 2 ^ 32 - 1 /\
    empty (c_queue c) = false /\ full (c_queue c) = true.
Proof. exists (fst overtaken), (snd overtaken). split; [apply overtaken_run|]. by vm_compute. Qed.

(** ** Witnesses *)

Lemma queue_refines_fifo_witness :
  exists s, fifo_run 4 (fst overtaken) s /\ pushes (fst overtaken) = pops (fst overtaken) ++ contents s /\
    zlen (contents s) <= 4.
Proof.
  exact (proj1 (queue_refines_fifo 4 (fst overtaken) (snd overtaken) ltac:(lia) ltac:(by vm_compute) overtaken_run)).
Defined.

Lemma message_count_idle_witness :
  message_count (c_queue (snd overtaken)) =
    u32 (zlen (pushes (fst overtaken)) - zlen (pops (fst overtaken)) + pending (c_threads (snd overtaken))).
Proof.
  exact (proj1 (message_count_idle 4 (fst overtaken) (snd overtaken) ltac:(lia) ltac:(by vm_compute) overtaken_run)).
Defined.

Lemma calls_alone_witness :
  exists q', enqueue_tail 10 (Some 7%nat) (fun _ => false) E_start (fresh 4) = Some (q', Some RET_OK) /\
    repr 4 q' [7%nat].
Proof.
  exact (proj1 (calls_alone 4 (fresh 4) [] ltac:(lia) (fresh_repr 4 ltac:(lia)) ltac:(done)) 7%nat ltac:(done)).
Defined.
