(* ===== verification/MediaBlockBuffer.v ===== *)
(** * The pool of message blocks: [svs_adapter_media_block_buffer.cpp]

    [CMediaBlockBuffer] keeps the free message blocks in a [CMediaDataQueue].
    The queue is reached through the interface [BlockQueue], which
    [MediaDataQueue] implements; [ACE_Message_Block] through the interface
    [AceHeap], whose laws are the documented behaviour of ACE: a message block is
    a header of a reference counted data block, [duplicate] makes another header
    of it, [release] removes a header, [reference_count] is the number of headers
    of the data block. [None] for the result of a queue operation is a call that
    does not return. *)

From S2P Require Import Prelude MediaDataQueue.
From stdpp Require Import fin_maps.
Open Scope Z_scope.

(** ** Interfaces *)

Class BlockQueue (Q : Type) : Type := {
  bq_init : Z -> SVS_RET_CODE * Q;
  bq_enqueue : mb_ptr -> Q -> Q * option SVS_RET_CODE;
  bq_dequeue : Q -> Q * option (SVS_RET_CODE * option mb_ptr);
  bq_empty : Q -> bool;
  bq_count : Q -> Z;
  bq_close : Q -> Q;
  (** An open queue of [n] blocks that holds [l]. *)
  bq_holds : Z -> Q -> list mb_ptr -> Prop }.

Class BlockQueueLaws (Q : Type) `{BlockQueue Q} : Prop := {
  bq_init_ok n : 0 <= n < 2 ^ 32 - 1 -> exists q, bq_init n = (RET_OK, q) /\ bq_holds n q [];
  bq_enqueue_ok n q l b : bq_holds n q l -> zlen l < n ->
    exists q', bq_enqueue b q = (q', Some RET_OK) /\ bq_holds n q' (l ++ [b]);
  bq_dequeue_ok n q l b : bq_holds n q (b :: l) ->
    exists q', bq_dequeue q = (q', Some (RET_OK, Some b)) /\ bq_holds n q' l;
  bq_empty_ok n q l : bq_holds n q l -> bq_empty q = match l with [] => true | _ => false end;
  bq_count_ok n q l : bq_holds n q l -> bq_count q = zlen l }.

Class AceHeap (H : Type) : Type := {
  (** The headers and the data block of each. *)
  blocks : H -> gmap mb_ptr nat;
  mb_new : Z -> H -> option mb_ptr * H;
  mb_base : mb_ptr -> H -> bool;
  mb_delete : mb_ptr -> H -> H;
  mb_release : mb_ptr -> H -> H;
  mb_reset : mb_ptr -> H -> H;
  reference_count : mb_ptr -> H -> Z }.

(** The headers of the data block of [b]. *)
Definition sharers {H} `{AceHeap H} (b : mb_ptr) (h : H) : gmap mb_ptr nat :=
  filter (fun p => Some p.2 = blocks h !! b) (blocks h).

Class AceLaws (H : Type) `{AceHeap H} : Prop := {
  new_some n h b h' : mb_new n h = (Some b, h') -> blocks h !! b = None /\
    exists d, (forall b' d', blocks h !! b' = Some d' -> d' <> d) /\ blocks h' = <[b := d]> (blocks h);
  new_none n h h' : mb_new n h = (None, h') -> blocks h' = blocks h;
  delete_blocks b h : blocks (mb_delete b h) = delete b (blocks h);
  release_blocks b h : blocks (mb_release b h) = delete b (blocks h);
  reset_blocks b h : blocks (mb_reset b h) = blocks h;
  reference_count_ok b h : is_Some (blocks h !! b) ->
    reference_count b h = Z.of_nat (size (sharers b h)) }.

(** ** The component *)

Section Pool.
Context {Q H : Type} `{BlockQueue Q} `{AceHeap H}.

Record CMediaBlockBuffer : Type := {
  m_pMediaQueue : option Q;
  m_unSize : Z;
  m_unCount : Z;
  m_FailureTimes : Z }.

Definition CMediaBlockBuffer_new : CMediaBlockBuffer :=
  {| m_pMediaQueue := None; m_unSize := 0; m_unCount := 0; m_FailureTimes := 0 |}.

Definition with_queue (q : option Q) (this : CMediaBlockBuffer) : CMediaBlockBuffer :=
  {| m_pMediaQueue := q; m_unSize := m_unSize this; m_unCount := m_unCount this;
     m_FailureTimes := m_FailureTimes this |}.
Definition with_sizes (size count : Z) (this : CMediaBlockBuffer) : CMediaBlockBuffer :=
  {| m_pMediaQueue := m_pMediaQueue this; m_unSize := size; m_unCount := count;
     m_FailureTimes := m_FailureTimes this |}.
Definition count_failure (this : CMediaBlockBuffer) : CMediaBlockBuffer :=
  {| m_pMediaQueue := m_pMediaQueue this; m_unSize := m_unSize this; m_unCount := m_unCount this;
     m_FailureTimes := u32 (m_FailureTimes this + 1) |}.

Definition createMediaBlock (unBlockSize : Z) (h : H) : option mb_ptr * H :=
  match mb_new unBlockSize h with
  | (None, h) => (None, h)
  | (Some b, h) => if mb_base b h then (Some b, h) else (None, mb_delete b h)
  end.

(** The loop of [init], [i] blocks left. *)
Fixpoint init_loop (i : nat) (unBlockSize : Z) (q : Q) (h : H) : option (SVS_RET_CODE * Q * H) :=
  match i with
  | O => Some (RET_OK, q, h)
  | S i =>
    match createMediaBlock unBlockSize h with
    | (None, h) => Some (RET_FAIL, q, h)
    | (Some b, h) =>
      let '(q, r) := bq_enqueue b q in
      lRet ← r;
      if decide (lRet ≠ RET_OK) then Some (RET_FAIL, q, h) else init_loop i unBlockSize q h
    end
  end.

(** [alloc]: whether [new CMediaDataQueue] succeeds. *)
Definition init (alloc : bool) (unBlockSize unBlockCount : Z) (this : CMediaBlockBuffer) (h : H)
    : option (SVS_RET_CODE * CMediaBlockBuffer * H) :=
  if negb alloc then Some (RET_FAIL, this, h)
  else
    let '(lRet, q) := bq_init unBlockCount in
    if decide (lRet ≠ RET_OK) then Some (RET_FAIL, with_queue (Some q) this, h)
    else
      '(r, q, h) ← init_loop (Z.to_nat unBlockCount) unBlockSize q h;
      let this := with_queue (Some q) this in
      if decide (r ≠ RET_OK) then Some (r, this, h)
      else Some (RET_OK, with_sizes unBlockSize unBlockCount this, h).

Fixpoint close_loop (fuel : nat) (q : Q) (h : H) : option (Q * H) :=
  match fuel with
  | O => None
  | S fuel =>
    if bq_empty q then Some (q, h)
    else
      let '(q, r) := bq_dequeue q in
      '(_, pMb) ← r;
      close_loop fuel q (match pMb with Some b => mb_delete b h | None => h end)
  end.

Definition close (fuel : nat) (this : CMediaBlockBuffer) (h : H) : option (CMediaBlockBuffer * H) :=
  match m_pMediaQueue this with
  | None => Some (this, h)
  | Some q => '(q, h) ← close_loop fuel q h; Some (with_queue None this, h)
  end.

Definition allocMediaBlock (this : CMediaBlockBuffer) : option (option mb_ptr * CMediaBlockBuffer) :=
  match m_pMediaQueue this with
  | None => Some (None, this)
  | Some q =>
    if bq_empty q then Some (None, count_failure this)
    else
      let '(q, r) := bq_dequeue q in
      let this := with_queue (Some q) this in
      '(lRet, pMb) ← r;
      if decide (lRet ≠ RET_OK) then Some (None, count_failure this) else Some (pMb, this)
  end.

Definition freeMediaBlock (pMb : option mb_ptr) (this : CMediaBlockBuffer) (h : H)
    : option (option mb_ptr * CMediaBlockBuffer * H) :=
  match pMb with
  | None => Some (None, this, h)
  | Some b =>
    if 1 <? reference_count b h then Some (pMb, this, mb_release b h)
    else
      let h := mb_reset b h in
      '(lRet, this) ←
        match m_pMediaQueue this with
        | None => Some (RET_FAIL, this)
        | Some q =>
          let '(q, r) := bq_enqueue b q in lRet ← r; Some (lRet, with_queue (Some q) this)
        end;
      if decide (lRet ≠ RET_OK) then Some (None, this, mb_delete b h) else Some (pMb, this, h)
  end.

Definition getMaxBlockNum (this : CMediaBlockBuffer) : Z := m_unCount this.
Definition getRemainBlockNum (this : CMediaBlockBuffer) : Z :=
  match m_pMediaQueue this with None => 0 | Some q => bq_count q end.
Definition getFailureTimes (this : CMediaBlockBuffer) : Z := m_FailureTimes this.
Definition getBlockSize (this : CMediaBlockBuffer) : Z := m_unSize this.
End Pool.
Arguments CMediaBlockBuffer Q : clear implicits.

(** [CMediaDataQueue] implements the interface: its calls run alone. *)
#[export] Instance CMediaDataQueue_BlockQueue : BlockQueue CMediaDataQueue := {
  bq_init n := MediaDataQueue.init true n CMediaDataQueue_new;
  bq_enqueue b q :=
    match enqueue_tail 10 (Some b) (fun _ => false) E_start q with
    | Some (q, r) => (q, r) | None => (q, None) end;
  bq_dequeue q :=
    match dequeue_head 11 (fun _ => false) D_start q with
    | Some (q, r) => (q, r) | None => (q, None) end;
  bq_empty := MediaDataQueue.empty;
  bq_count := message_count;
  bq_close := MediaDataQueue.close;
  bq_holds n q l := 0 <= n < 2 ^ 32 - 1 /\ repr n q l /\ m_ActiveFlag q <> 0 }.

#[export] Instance CMediaDataQueue_laws : BlockQueueLaws CMediaDataQueue.
Proof.
  split.
  - intros n Hn. exists (MediaDataQueue.fresh n). split; [done|]. split; [done|]. split; [by apply fresh_repr|done].
  - intros n q l b (Hn & Hr & Ha) Hl.
    destruct (enqueue_alone n Hn q l b 0 Hr Ha Hl) as (q' & E & Hr' & Ha').
    exists q'. cbn [bq_enqueue CMediaDataQueue_BlockQueue]. change 10%nat with (10 + 0)%nat. rewrite E.
    split; [done|]. split; [done|]. split; [done|]. by rewrite Ha'.
  - intros n q l b (Hn & Hr & Ha).
    destruct (dequeue_alone n Hn q b l 0 Hr Ha) as (q' & E & Hr' & Ha').
    exists q'. cbn [bq_dequeue CMediaDataQueue_BlockQueue]. change 11%nat with (11 + 0)%nat. rewrite E.
    split; [done|]. split; [done|]. split; [done|]. by rewrite Ha'.
  - intros n q l (_ & Hr & _). by eapply repr_empty.
  - intros n q l (_ & (W & R & L & _ & _ & _ & _ & Hs & _) & _). exact Hs.
Qed.

(** ** The data blocks of the heap *)

Section Headers.
Context {H : Type} `{AceLaws H}.

Definition data_blocks (h : H) : gset nat := map_img (blocks h).

Lemma elem_of_data d h : d ∈ data_blocks h <-> exists b, blocks h !! b = Some d.
Proof. apply elem_of_map_img. Qed.

(** [b] is the only header of its data block. *)
Definition sole (b : mb_ptr) (h : H) : Prop :=
  exists d, blocks h !! b = Some d /\ forall b', blocks h !! b' = Some d -> b' = b.

Lemma sharers_lookup b b' d h : blocks h !! b = Some d ->
  is_Some (sharers b h !! b') <-> blocks h !! b' = Some d.
Proof.
  intros Hb. unfold sharers. split.
  - intros [d' [Hx1 Hx2]%map_lookup_filter_Some]. cbn in Hx2. congruence.
  - intros Hx1. exists d. apply map_lookup_filter_Some. cbn. split; congruence.
Qed.

Lemma refs_sole b d h : blocks h !! b = Some d -> reference_count b h <= 1 -> sole b h.
Proof.
  intros Hb Hr. exists d. split; [done|]. intros b' Hb'.
  destruct (decide (b' = b)) as [|Hne]; [done|]. exfalso.
  rewrite reference_count_ok in Hr by eauto.
  destruct (proj2 (sharers_lookup b b d h Hb) Hb) as [x1 Hx1].
  destruct (proj2 (sharers_lookup b b' d h Hb) Hb') as [x2 Hx2].
  rewrite <-(insert_delete_id _ b x1) in Hr by done.
  rewrite map_size_insert_None in Hr by apply lookup_delete_eq.
  rewrite <-(insert_delete_id (delete b (sharers b h)) b' x2) in Hr by (by rewrite lookup_delete_ne by done).
  rewrite map_size_insert_None in Hr by apply lookup_delete_eq. lia.
Qed.

Lemma refs_shared b d h : blocks h !! b = Some d -> 1 < reference_count b h ->
  exists b', b' <> b /\ blocks h !! b' = Some d.
Proof.
  intros Hb Hr. rewrite reference_count_ok in Hr by eauto.
  destruct (proj2 (sharers_lookup b b d h Hb) Hb) as [x Hx].
  rewrite <-(insert_delete_id _ b x) in Hr by done.
  rewrite map_size_insert_None in Hr by apply lookup_delete_eq.
  destruct (map_choose (delete b (sharers b h))) as (b' & d' & Hx1).
  { intros E. rewrite E, map_size_empty in Hr. lia. }
  apply lookup_delete_Some in Hx1 as [Hne Hx1]. exists b'. split; [done|].
  apply (sharers_lookup b); eauto.
Qed.

Lemma data_delete b b' d h h' : blocks h !! b = Some d -> b' <> b -> blocks h !! b' = Some d ->
  blocks h' = delete b (blocks h) -> data_blocks h' = data_blocks h.
Proof.
  intros Hb Hne Hb' E. apply set_eq. intros x. rewrite !elem_of_data, E. split.
  - intros (c & [_ Hc]%lookup_delete_Some). eauto.
  - intros (c & Hc). destruct (decide (c = b)) as [->|].
    + exists b'. rewrite lookup_delete_ne by done. congruence.
    + exists c. by rewrite lookup_delete_ne.
Qed.

Lemma data_dup b b' d h h' : blocks h !! b = Some d -> blocks h !! b' = None ->
  blocks h' = <[b' := d]> (blocks h) -> data_blocks h' = data_blocks h.
Proof.
  intros Hb Hb' E. apply set_eq. intros x. rewrite !elem_of_data, E. split.
  - intros (c & [[<- <-]|[_ Hc]]%lookup_insert_Some); eauto.
  - intros (c & Hc). exists c. by rewrite lookup_insert_ne by congruence.
Qed.

Lemma data_new b d h h' : (forall b' d', blocks h !! b' = Some d' -> d' <> d) ->
  blocks h !! b = None -> blocks h' = <[b := d]> (blocks h) ->
  Z.of_nat (size (data_blocks h')) = Z.of_nat (size (data_blocks h)) + 1.
Proof.
  intros Hd Hb E. assert (data_blocks h' = {[d]} ∪ data_blocks h) as ->.
  { apply set_eq. intros x. rewrite elem_of_union, elem_of_singleton, !elem_of_data, E. split.
    - intros (c & [[<- <-]|[_ Hc]]%lookup_insert_Some); eauto.
    - intros [->|(c & Hc)].
      + exists b. apply lookup_insert_eq.
      + exists c. by rewrite lookup_insert_ne by congruence. }
  rewrite size_union, size_singleton; [lia|].
  intros x Hx Hy. apply elem_of_singleton in Hx as ->.
  apply elem_of_data in Hy as (c & Hc). by eapply Hd.
Qed.

(** Sole headers, each once, have as many data blocks. *)
Lemma sole_data l h : NoDup l -> Forall (fun b => sole b h) l ->
  exists ds, Forall2 (fun b d => blocks h !! b = Some d) l ds /\ NoDup ds.
Proof.
  intros Hnd Hs. induction Hs as [|b l (d & Hd & Hu) Hs IH]; [exists []; by split; constructor|].
  apply NoDup_cons in Hnd as [Hn Hnd]. destruct (IH Hnd) as (ds & Hds & Hdn).
  exists (d :: ds). split; [by constructor|]. constructor; [|done].
  intros Hin. apply list_elem_of_lookup in Hin as [i Hi].
  destruct (Forall2_lookup_r _ _ _ _ _ Hds Hi) as (b2 & Hb2 & E). apply Hn.
  assert (b2 = b) as <- by (by apply Hu). by eapply list_elem_of_lookup_2.
Qed.

(** The data blocks of some headers. *)
Definition data_of (hs : gset mb_ptr) (h : H) : gset nat :=
  map_img (filter (fun p => p.1 ∈ hs) (blocks h)).

Lemma elem_of_data_of d hs h : d ∈ data_of hs h <-> exists b, b ∈ hs /\ blocks h !! b = Some d.
Proof.
  unfold data_of. rewrite elem_of_map_img. split; intros (b & Hb); exists b.
  - apply map_lookup_filter_Some in Hb. cbn in Hb. tauto.
  - apply map_lookup_filter_Some. cbn. tauto.
Qed.

Lemma data_split l held h : NoDup l -> Forall (fun b => sole b h) l ->
  dom (blocks h) = list_to_set l ∪ held -> (forall b, b ∈ l -> b ∉ held) ->
  size (data_blocks h) = (length l + size (data_of held h))%nat.
Proof.
  intros Hnd Hs Hdom Hj. destruct (sole_data l h Hnd Hs) as (ds & Hds & Hdn).
  assert (data_blocks h = list_to_set ds ∪ data_of held h) as ->.
  { apply set_eq. intros d. rewrite elem_of_union, elem_of_list_to_set, elem_of_data, elem_of_data_of. split.
    - intros (b & Hb). assert (b ∈ dom (blocks h)) as Hd by (apply elem_of_dom; eauto).
      rewrite Hdom in Hd. apply elem_of_union in Hd as [Hd|Hd]; [|right; eauto].
      apply elem_of_list_to_set, list_elem_of_lookup in Hd as [i Hi].
      destruct (Forall2_lookup_l _ _ _ _ _ Hds Hi) as (d' & Hd' & E). left.
      assert (d' = d) as <- by congruence. by eapply list_elem_of_lookup_2.
    - intros [Hd|(b & _ & Hb)]; [|eauto]. apply list_elem_of_lookup in Hd as [i Hi].
      destruct (Forall2_lookup_r _ _ _ _ _ Hds Hi) as (b & _ & E). eauto. }
  rewrite size_union.
  - rewrite size_list_to_set by done. by rewrite (Forall2_length _ _ _ Hds).
  - intros d Hd (b & Hb & E)%elem_of_data_of.
    apply elem_of_list_to_set, list_elem_of_lookup in Hd as [i Hi].
    destruct (Forall2_lookup_r _ _ _ _ _ Hds Hi) as (b2 & Hb2 & E2).
    apply list_elem_of_lookup_2 in Hb2.
    destruct (proj1 (Forall_forall _ _) Hs b2 Hb2) as (d2 & Hd2 & Hu).
    apply (Hj b2 Hb2). by rewrite <-(Hu b) by congruence.
Qed.
End Headers.

(** ** Clients

    [held] are the headers clients have: allocated or duplicated, not freed. A
    client frees or duplicates a header it holds. *)

Section Clients.
Context {Q H : Type} `{BlockQueueLaws Q} `{AceLaws H}.

Record world : Type := {
  w_pool : CMediaBlockBuffer Q;
  w_heap : H;
  w_held : gset mb_ptr }.

Inductive client_step (w : world) : world -> Prop :=
| client_alloc b pool : allocMediaBlock (w_pool w) = Some (Some b, pool) ->
    client_step w {| w_pool := pool; w_heap := w_heap w; w_held := {[b]} ∪ w_held w |}
| client_alloc_fails pool : allocMediaBlock (w_pool w) = Some (None, pool) ->
    client_step w {| w_pool := pool; w_heap := w_heap w; w_held := w_held w |}
| client_free b r pool h : b ∈ w_held w -> freeMediaBlock (Some b) (w_pool w) (w_heap w) = Some (r, pool, h) ->
    client_step w {| w_pool := pool; w_heap := h; w_held := w_held w ∖ {[b]} |}
| client_duplicate b b' d h : b ∈ w_held w -> blocks (w_heap w) !! b = Some d ->
    blocks (w_heap w) !! b' = None -> blocks h = <[b' := d]> (blocks (w_heap w)) ->
    client_step w {| w_pool := w_pool w; w_heap := h; w_held := {[b']} ∪ w_held w |}.

(** The pool of [n] places holds [l]; the [m] data blocks are those of [l] and
    those of the clients. *)
Record pool_inv (n m : Z) (w : world) (l : list mb_ptr) : Prop := {
  pool_queue : exists q, m_pMediaQueue (w_pool w) = Some q /\ bq_holds n q l;
  pool_nodup : NoDup l;
  pool_sole : Forall (fun b => sole b (w_heap w)) l;
  pool_dom : dom (blocks (w_heap w)) = list_to_set l ∪ w_held w;
  pool_disj : forall b, b ∈ l -> b ∉ w_held w;
  pool_size : Z.of_nat (size (data_blocks (w_heap w))) = m }.

Lemma pool_held n w l b : pool_inv n n w l -> b ∈ w_held w -> exists d, blocks (w_heap w) !! b = Some d.
Proof.
  intros Hi Hb. assert (b ∈ dom (blocks (w_heap w))) as Hd.
  { rewrite (pool_dom _ _ _ _ Hi). by apply elem_of_union_r. }
  apply elem_of_dom in Hd as [d Hd]. eauto.
Qed.

Lemma alloc_spec n w l : pool_inv n n w l ->
  match l with
  | [] => allocMediaBlock (w_pool w) = Some (None, count_failure (w_pool w))
  | b :: l' => exists pool, allocMediaBlock (w_pool w) = Some (Some b, pool) /\
      pool_inv n n {| w_pool := pool; w_heap := w_heap w; w_held := {[b]} ∪ w_held w |} l'
  end.
Proof.
  intros Hi. destruct (pool_queue _ _ _ _ Hi) as (q & Hq & Hh). unfold allocMediaBlock. rewrite Hq.
  rewrite (bq_empty_ok _ _ _ Hh). destruct l as [|b l]; [done|].
  destruct (bq_dequeue_ok _ _ _ _ Hh) as (q' & -> & Hh'). cbn [mbind option_bind].
  rewrite decide_False by (by intros []).
  eexists. split; [reflexivity|]. destruct Hi as [_ Hn Hs Hd Hj Hz].
  apply NoDup_cons in Hn as [Hb Hn]. apply Forall_cons in Hs as [_ Hs].
  split; cbn; try done.
  - by exists q'.
  - rewrite Hd. apply set_eq. intros c. cbn. rewrite !elem_of_union. tauto.
  - intros b' Hb'. rewrite not_elem_of_union, not_elem_of_singleton. split; [by intros ->|].
    apply Hj. by right.
Qed.

(** A block with one header finds room in the queue: [enqueue_tail] returns. *)
Lemma free_spec n w l b : pool_inv n n w l -> b ∈ w_held w ->
  exists pool h, freeMediaBlock (Some b) (w_pool w) (w_heap w) = Some (Some b, pool, h) /\
    pool_inv n n {| w_pool := pool; w_heap := h; w_held := w_held w ∖ {[b]} |}
      (if 1 <? reference_count b (w_heap w) then l else l ++ [b]).
Proof.
  intros Hi Hb. destruct (pool_held _ _ _ _ Hi Hb) as [d Hd].
  destruct (pool_queue _ _ _ _ Hi) as (q & Hq & Hh). destruct Hi as [_ Hn Hs Hdom Hj Hz].
  unfold freeMediaBlock. destruct (Z.ltb_spec 1 (reference_count b (w_heap w))) as [Hr|Hr].
  - destruct (refs_shared b d _ Hd Hr) as (b' & Hne & Hb').
    eexists _, _. split; [reflexivity|]. assert (forall c, c ∈ l -> c <> b) as Hlb.
    { intros c Hc ->. by apply (Hj b). }
    split; cbn; [by exists q|done| | | |].
    + apply Forall_forall. intros c Hc. destruct (proj1 (Forall_forall _ _) Hs c Hc) as (dc & Hdc & Hu).
      exists dc. rewrite release_blocks. split; [rewrite lookup_delete_ne by (by apply not_eq_sym, Hlb); done|].
      intros c' [_ Hc']%lookup_delete_Some. auto.
    + rewrite release_blocks, dom_delete_L, Hdom. apply set_eq. intros c.
      rewrite elem_of_difference, !elem_of_union, elem_of_difference, elem_of_list_to_set, elem_of_singleton.
      specialize (Hlb c). tauto.
    + intros c Hc [Hc' _]%elem_of_difference. by apply (Hj c).
    + rewrite (data_delete b b' d (w_heap w)); [done..|]. apply release_blocks.
  - destruct (refs_sole b d _ Hd Hr) as (d' & Hd' & Hu). assert (b ∉ l) as Hbl.
    { intros Hbl. by apply (Hj b). }
    assert (zlen l < n) as Hl.
    { rewrite (data_split l (w_held w)) in Hz by done.
      assert (size (data_of (w_held w) (w_heap w)) <> 0%nat); [|unfold zlen; lia].
      intros E%size_empty_inv. assert (d ∈ data_of (w_held w) (w_heap w)) as Hin
        by (apply elem_of_data_of; eauto). rewrite E in Hin. by apply not_elem_of_empty in Hin. }
    rewrite Hq. destruct (bq_enqueue_ok _ _ _ b Hh Hl) as (q' & -> & Hh').
    cbn [mbind option_bind]. rewrite decide_False by (by intros []).
    eexists _, _. split; [reflexivity|].
    assert (forall c, sole c (w_heap w) -> sole c (mb_reset b (w_heap w))) as Hsole.
    { intros c (dc & Hdc & Huc). exists dc. by rewrite reset_blocks. }
    split; cbn; try done.
    + by exists q'.
    + apply NoDup_app. split_and!; [done| |apply NoDup_singleton]. intros c Hc ->%list_elem_of_singleton. done.
    + apply Forall_app. split; [by eapply Forall_impl|]. constructor; [|done]. apply Hsole. by exists d'.
    + rewrite reset_blocks, Hdom. apply set_eq. intros c.
      rewrite !elem_of_union, elem_of_difference, !elem_of_list_to_set, elem_of_app, list_elem_of_singleton, elem_of_singleton.
      destruct (decide (c = b)) as [->|]; tauto.
    + intros c [Hc| ->%list_elem_of_singleton]%elem_of_app.
      * intros [Hc' _]%elem_of_difference. by apply (Hj c).
      * by intros [_ []%not_elem_of_singleton]%elem_of_difference.
    + unfold data_blocks. by rewrite reset_blocks.
Qed.

Lemma client_step_inv n w l w' : pool_inv n n w l -> client_step w w' -> exists l', pool_inv n n w' l'.
Proof.
  intros Hi Hst. destruct Hst as [b pool E|pool E|b r pool h Hb E|b b' d h Hb Hd Hb' E].
  - pose proof (alloc_spec n w l Hi) as Ha. destruct l as [|b0 l]; [congruence|].
    destruct Ha as (pool' & E' & Hi'). rewrite E in E'. injection E' as <- <-. eauto.
  - pose proof (alloc_spec n w l Hi) as Ha. destruct l as [|b0 l]; [|destruct Ha as (? & Ha & _); congruence].
    rewrite E in Ha. injection Ha as ->. exists []. destruct Hi. by split.
  - destruct (free_spec n w l b Hi Hb) as (pool' & h' & E' & Hi'). rewrite E in E'.
    injection E' as -> -> ->. eauto.
  - exists l. destruct Hi as [Hq Hn Hs Hdom Hj Hz].
    assert (b' ∉ l) as Hl.
    { intros Hl. destruct (proj1 (Forall_forall _ _) Hs b' Hl) as (d' & Hd' & _). congruence. }
    assert (b ∉ l) as Hbl by (intros Hbl; by apply (Hj b)).
    split; cbn; try done.
    + apply Forall_forall. intros c Hc. destruct (proj1 (Forall_forall _ _) Hs c Hc) as (dc & Hdc & Hu).
      exists dc. rewrite E. split; [by rewrite lookup_insert_ne by congruence|].
      intros c' [[<- <-]|[_ Hc']]%lookup_insert_Some; [|auto].
      exfalso. apply Hbl. by rewrite (Hu b Hd).
    + rewrite E, dom_insert_L, Hdom. apply set_eq. intros c. rewrite !elem_of_union. tauto.
    + intros c Hc. specialize (Hj c Hc). rewrite not_elem_of_union, not_elem_of_singleton.
      split; [congruence|done].
    + rewrite <-Hz. do 2 f_equal. by eapply (data_dup b b').
Qed.

(** *** [init] *)

Lemma create_spec size (h : H) b h' : createMediaBlock size h = (Some b, h') ->
  blocks h !! b = None /\ exists d, (forall b' d', blocks h !! b' = Some d' -> d' <> d) /\
    blocks h' = <[b := d]> (blocks h).
Proof.
  unfold createMediaBlock. destruct (mb_new size h) as [[b0|] h0] eqn:E; [|done].
  destruct (mb_base b0 h0); [|done]. intros [= <- <-]. by eapply new_some.
Qed.

Lemma init_loop_inv i : forall n size q h l this,
  pool_inv n (zlen l) {| w_pool := with_queue (Some q) this; w_heap := h; w_held := ∅ |} l ->
  zlen l + Z.of_nat i <= n ->
  exists r q' h', init_loop i size q h = Some (r, q', h') /\
    (r = RET_OK -> exists l', zlen l' = zlen l + Z.of_nat i /\
      pool_inv n (zlen l') {| w_pool := with_queue (Some q') this; w_heap := h'; w_held := ∅ |} l').
Proof.
  induction i as [|i IH]; intros n size q h l this Hi Hn; cbn [init_loop].
  { exists RET_OK, q, h. split; [done|]. intros _. exists l. split; [lia|done]. }
  destruct (createMediaBlock size h) as [[b|] h1] eqn:E; [|by exists RET_FAIL, q, h1].
  destruct (create_spec _ _ _ _ E) as (Hb & d & Hd & Eh).
  destruct Hi as [(q0 & Hq & Hh) Hnd Hs Hdom Hj Hz]. cbn in *. injection Hq as <-.
  destruct (bq_enqueue_ok _ _ _ b Hh) as (q' & -> & Hh'); [lia|]. cbn [mbind option_bind].
  rewrite decide_False by (by intros []).
  assert (b ∉ l) as Hbl.
  { intros Hbl. destruct (proj1 (Forall_forall _ _) Hs b Hbl) as (d' & Hd' & _). congruence. }
  destruct (IH n size q' h1 (l ++ [b]) this) as (r & q2 & h2 & E2 & Hr).
  - split; cbn.
    + by exists q'.
    + apply NoDup_app. split_and!; [done| |apply NoDup_singleton]. by intros c Hc ->%list_elem_of_singleton.
    + apply Forall_app. split.
      * apply Forall_forall. intros c Hc. destruct (proj1 (Forall_forall _ _) Hs c Hc) as (dc & Hdc & Hu).
        exists dc. rewrite Eh. split; [by rewrite lookup_insert_ne by congruence|].
        intros c' [[<- <-]|[_ Hc']]%lookup_insert_Some; [|auto]. by destruct (Hd c d).
      * constructor; [|done]. exists d. rewrite Eh. split; [apply lookup_insert_eq|].
        intros c' [[<- _]|[_ Hc']]%lookup_insert_Some; [done|]. by destruct (Hd c' d).
    + rewrite Eh, dom_insert_L, Hdom. apply set_eq. intros c.
      rewrite !elem_of_union, !elem_of_list_to_set, elem_of_app, list_elem_of_singleton, elem_of_singleton. tauto.
    + intros c _. apply not_elem_of_empty.
    + rewrite zlen_app. change (zlen [b]) with 1. by rewrite (data_new b d h h1), Hz.
  - rewrite zlen_app. change (zlen [b]) with 1. lia.
  - exists r, q2, h2. split; [done|]. intros Hr'. destruct (Hr Hr') as (l' & Hl' & Hi').
    exists l'. split; [|done]. rewrite Hl', zlen_app. change (zlen [b]) with 1. lia.
Qed.

Lemma init_spec size n h : 0 <= n < 2 ^ 32 - 1 -> blocks h = ∅ ->
  exists r this h', init true size n CMediaBlockBuffer_new h = Some (r, this, h') /\
    (r = RET_OK -> exists l, zlen l = n /\
       pool_inv n n {| w_pool := this; w_heap := h'; w_held := ∅ |} l).
Proof.
  intros Hn Hh. destruct (bq_init_ok n Hn) as (q & Eq & Hq). unfold init. cbn [negb]. rewrite Eq.
  rewrite decide_False by (by intros []).
  destruct (init_loop_inv (Z.to_nat n) n size q h [] CMediaBlockBuffer_new) as (r & q' & h' & E & Hr).
  - split; cbn; try done.
    + by exists q.
    + by constructor.
    + by rewrite Hh.
    + unfold data_blocks. by rewrite Hh.
  - rewrite zlen_nil. lia.
  - rewrite E. cbn [mbind option_bind]. case_decide as Hc; [by eexists _, _, _|].
    eexists _, _, _. split; [reflexivity|]. intros _.
    assert (r = RET_OK) as -> by (destruct (decide (r = RET_OK)); tauto). destruct (Hr eq_refl) as (l & Hl & Hi). rewrite zlen_nil in Hl.
    replace (0 + Z.of_nat (Z.to_nat n)) with n in Hl by lia. exists l. split; [done|].
    rewrite Hl in Hi. destruct Hi. by split.
Qed.

(** ** Properties *)

(** C32: after a successful [init] with [n] blocks, and however clients
    allocate, duplicate and free: no free waits for ever, the free blocks in the
    pool and the data blocks of the clients add up to [n], an allocation returns
    a block that nobody has exactly when the pool is not empty. *)
Theorem pool_conserves n size h this h' w
    (Hn : 0 <= n < 2 ^ 32 - 1) (Hh : blocks h = ∅)
    (Hinit : init true size n CMediaBlockBuffer_new h = Some (RET_OK, this, h'))
    (Hrun : rtc client_step {| w_pool := this; w_heap := h'; w_held := ∅ |} w) :
  getRemainBlockNum (w_pool w) + Z.of_nat (base.size (data_of (w_held w) (w_heap w))) = n /\
  (forall b, b ∈ w_held w ->
     exists pool h2, freeMediaBlock (Some b) (w_pool w) (w_heap w) = Some (Some b, pool, h2)) /\
  (exists r pool, allocMediaBlock (w_pool w) = Some (r, pool) /\
     (r = None <-> getRemainBlockNum (w_pool w) = 0) /\
     (forall b, r = Some b -> (b ∉ w_held w) /\ sole b (w_heap w))).
Proof.
  destruct (init_spec size n h Hn Hh) as (r & this' & h2 & E & Hr). rewrite Hinit in E.
  injection E as <- <- <-. destruct (Hr eq_refl) as (l0 & _ & Hi0). clear Hr.
  assert (exists l, pool_inv n n w l) as [l Hi].
  { revert l0 Hi0. induction Hrun as [w|w w1 w2 Hst _ IH]; intros l0 Hi0; [eauto|].
    destruct (client_step_inv _ _ _ _ Hi0 Hst) as [l1 Hi1]. eauto. }
  destruct (pool_queue _ _ _ _ Hi) as (q & Hq & Hhold).
  assert (getRemainBlockNum (w_pool w) = zlen l) as Hrem.
  { unfold getRemainBlockNum. rewrite Hq. by eapply bq_count_ok. }
  split_and!.
  - rewrite Hrem. destruct Hi as [_ Hnd Hs Hdom Hj Hz].
    rewrite (data_split l (w_held w)) in Hz by done. unfold zlen. lia.
  - intros b Hb. destruct (free_spec _ _ _ _ Hi Hb) as (pool & h3 & E & _). eauto.
  - rewrite Hrem. pose proof (alloc_spec _ _ _ Hi) as Ha. destruct l as [|b l].
    + by eexists _, _.
    + destruct Ha as (pool & E & _). eexists _, _. split; [done|]. split.
      * rewrite zlen_cons. pose proof (zlen_nonneg l). split; [done|lia].
      * intros b' [= <-]. split; [apply (pool_disj _ _ _ _ Hi); by left|].
        by apply (Forall_inv (pool_sole _ _ _ _ Hi)).
Qed.
End Clients.

(** ** Witness: a concrete heap *)

Definition above (l : list nat) : nat := S (foldr Nat.max 0%nat l).

Lemma above_notin l : above l ∉ l.
Proof.
  intros Hin. assert (forall x, x ∈ l -> (x <= foldr Nat.max 0 l)%nat) as Hle.
  { clear Hin. induction l as [|y l IH]; [by intros x ?%elem_of_nil|].
    intros x [->|Hx]%elem_of_cons; cbn; [lia|]. specialize (IH x Hx). lia. }
  specialize (Hle _ Hin). unfold above in Hle. lia.
Qed.

#[local] Instance demo_heap : AceHeap (gmap mb_ptr nat) := {
  blocks h := h;
  mb_new _ h :=
    let b := above (map_to_list h).*1 in (Some b, <[b := above (map_to_list h).*2]> h);
  mb_base _ _ := true;
  mb_delete b h := delete b h;
  mb_release b h := delete b h;
  mb_reset _ h := h;
  reference_count b h := Z.of_nat (base.size (filter (fun p => Some p.2 = h !! b) h)) }.

#[local] Instance demo_laws : AceLaws (gmap mb_ptr nat).
Proof.
  split; try done. intros n h b h' [= <- <-]. cbn.
  assert (forall b d, h !! b = Some d -> b ∈ (map_to_list h).*1 /\ d ∈ (map_to_list h).*2) as Hin.
  { intros b d Hb%elem_of_map_to_list. split; apply list_elem_of_fmap; eexists; (split; [|exact Hb]); done. }
  split.
  - destruct (h !! _) as [d|] eqn:E; [|done]. apply Hin in E as [E _]. by apply above_notin in E.
  - eexists. split; [|done]. intros b' d' [_ Hd]%Hin ->. by apply above_notin in Hd.
Qed.

Definition demo_init := init (Q := CMediaDataQueue) (H := gmap mb_ptr nat) true 1024 2 CMediaBlockBuffer_new ∅.
Definition demo_pool : CMediaBlockBuffer CMediaDataQueue :=
  match demo_init with Some (_, p, _) => p | None => CMediaBlockBuffer_new end.
Definition demo_blocks : gmap mb_ptr nat := match demo_init with Some (_, _, h) => h | None => ∅ end.
Definition demo_alloc := default (None, demo_pool) (allocMediaBlock demo_pool).

Lemma pool_conserves_witness :
  getRemainBlockNum (snd demo_alloc) + Z.of_nat (base.size (data_of {[1%nat]} demo_blocks)) = 2.
Proof.
  assert (rtc client_step {| w_pool := demo_pool; w_heap := demo_blocks; w_held := ∅ |}
    {| w_pool := snd demo_alloc; w_heap := demo_blocks; w_held := {[1%nat]} ∪ ∅ |}) as Hrun.
  { apply rtc_once, (client_alloc {| w_pool := demo_pool; w_heap := demo_blocks; w_held := ∅ |} 1%nat).
    by vm_compute. }
  exact (proj1 (pool_conserves 2 1024 ∅ demo_pool demo_blocks _ ltac:(lia) eq_refl eq_refl Hrun)).
Defined.
