(* ===== verification/DataStat.v ===== *)
(** * Traffic statistics of a stream: [svs_data_stat.cpp]

    [CDataStat] counts the bytes received in the last [DATA_STAT_PERIOD] seconds
    in a map from a second to the bytes of that second, the bytes sent since
    they were last asked for, and received and lost packets and frames. [time]
    is an argument: [now] is the reading at the head of a method, [now_reset] the
    one [reset] takes when [stat] calls it. [std::map] is the list of its pairs in
    the order of the keys. *)

From S2P Require Import Prelude.
Open Scope Z_scope.

Definition DATA_STAT_PERIOD : Z := 30.
Definition KILO : Z := 1024.
Definition BYTE_NUM : Z := 8.

Record CDataStat : Type := {
  m_ulStartTime : Z;
  m_ulEndTime : Z;
  m_ulBytes : Z;
  m_recvBytesMap : list (Z * Z);
  m_ulLostStatTime : Z;
  m_ulLostPacket : Z;
  m_ulLostFrame : Z;
  m_ulRecvPacket : Z;
  m_ulRecvFrame : Z;
  m_ulFluxBytes : Z;
  m_ulFluxStartTime : Z }.

Definition with_lost (since lp lf rp rf : Z) (this : CDataStat) : CDataStat :=
  {| m_ulStartTime := m_ulStartTime this; m_ulEndTime := m_ulEndTime this;
     m_ulBytes := m_ulBytes this; m_recvBytesMap := m_recvBytesMap this;
     m_ulLostStatTime := since; m_ulLostPacket := lp; m_ulLostFrame := lf;
     m_ulRecvPacket := rp; m_ulRecvFrame := rf;
     m_ulFluxBytes := m_ulFluxBytes this; m_ulFluxStartTime := m_ulFluxStartTime this |}.
Definition with_flux (bytes since : Z) (this : CDataStat) : CDataStat :=
  {| m_ulStartTime := m_ulStartTime this; m_ulEndTime := m_ulEndTime this;
     m_ulBytes := m_ulBytes this; m_recvBytesMap := m_recvBytesMap this;
     m_ulLostStatTime := m_ulLostStatTime this; m_ulLostPacket := m_ulLostPacket this;
     m_ulLostFrame := m_ulLostFrame this; m_ulRecvPacket := m_ulRecvPacket this;
     m_ulRecvFrame := m_ulRecvFrame this; m_ulFluxBytes := bytes; m_ulFluxStartTime := since |}.
Definition with_window (start stop bytes : Z) (m : list (Z * Z)) (this : CDataStat) : CDataStat :=
  {| m_ulStartTime := start; m_ulEndTime := stop; m_ulBytes := bytes; m_recvBytesMap := m;
     m_ulLostStatTime := m_ulLostStatTime this; m_ulLostPacket := m_ulLostPacket this;
     m_ulLostFrame := m_ulLostFrame this; m_ulRecvPacket := m_ulRecvPacket this;
     m_ulRecvFrame := m_ulRecvFrame this; m_ulFluxBytes := m_ulFluxBytes this;
     m_ulFluxStartTime := m_ulFluxStartTime this |}.

Definition resetLostStat (this : CDataStat) : CDataStat := with_lost 0 0 0 0 0 this.

Definition reset (now : Z) (this : CDataStat) : CDataStat :=
  resetLostStat (with_flux 0 now (with_window now now 0 [] this)).

Definition CDataStat_new (now : Z) : CDataStat :=
  reset now {| m_ulStartTime := 0; m_ulEndTime := 0; m_ulBytes := 0; m_recvBytesMap := [];
               m_ulLostStatTime := 0; m_ulLostPacket := 0; m_ulLostFrame := 0;
               m_ulRecvPacket := 0; m_ulRecvFrame := 0; m_ulFluxBytes := 0;
               m_ulFluxStartTime := 0 |}.

(** [m_recvBytesMap.insert]: a key that is there keeps its value. *)
Fixpoint map_insert (k v : Z) (m : list (Z * Z)) : list (Z * Z) :=
  match m with
  | [] => [(k, v)]
  | (k', v') :: m' =>
    if k <? k' then (k, v) :: m else if k =? k' then m else (k', v') :: map_insert k v m'
  end.

(** [iter->second += v] at the last pair. *)
Fixpoint add_last (v : Z) (m : list (Z * Z)) : list (Z * Z) :=
  match m with
  | [] => []
  | [(k, v')] => [(k, u32 (v' + v))]
  | p :: m => p :: add_last v m
  end.

(** Lines 63-83. *)
Definition record_bytes (ulCurTime ulRecvBytes : Z) (m : list (Z * Z)) : list (Z * Z) :=
  match last m with
  | None => map_insert ulCurTime ulRecvBytes m
  | Some (k, _) =>
    if k =? ulCurTime then add_last ulRecvBytes m else map_insert ulCurTime ulRecvBytes m
  end.

(** The loop of lines 87-109. *)
Fixpoint expire (ulCurTime start bytes : Z) (m : list (Z * Z)) : Z * Z * list (Z * Z) :=
  match m with
  | [] => (start, bytes, [])
  | (k, v) :: m' =>
    if DATA_STAT_PERIOD <=? u32 (ulCurTime - k)
    then expire ulCurTime start (if v <? bytes then u32 (bytes - v) else bytes) m'
    else (k, bytes, m)
  end.

Definition stat (now now_reset ulRecvBytes : Z) (this : CDataStat) : CDataStat :=
  let this :=
    if m_ulLostStatTime this =? 0
    then with_lost now (m_ulLostPacket this) (m_ulLostFrame this) (m_ulRecvPacket this)
           (m_ulRecvFrame this) this
    else this in
  let this := with_window (m_ulStartTime this) now (m_ulBytes this) (m_recvBytesMap this) this in
  let this := if m_ulEndTime this <? m_ulStartTime this then reset now_reset this else this in
  let m := record_bytes now ulRecvBytes (m_recvBytesMap this) in
  let '(start, bytes, m) :=
    expire now (m_ulStartTime this) (u32 (m_ulBytes this + ulRecvBytes)) m in
  let this := with_window start (m_ulEndTime this) bytes m this in
  if DATA_STAT_PERIOD <=? u32 (m_ulEndTime this - m_ulLostStatTime this)
  then with_lost now 0 0 0 0 (resetLostStat this) else this.

Definition addFlux (now ulSendBytes : Z) (this : CDataStat) : CDataStat :=
  with_flux (u32 (m_ulFluxBytes this + ulSendBytes))
    (if m_ulFluxStartTime this =? 0 then now else m_ulFluxStartTime this) this.

Definition addRecvPacket (n : Z) (this : CDataStat) : CDataStat :=
  with_lost (m_ulLostStatTime this) (m_ulLostPacket this) (m_ulLostFrame this)
    (u32 (m_ulRecvPacket this + n)) (m_ulRecvFrame this) this.
Definition addRecvFrame (n : Z) (this : CDataStat) : CDataStat :=
  with_lost (m_ulLostStatTime this) (m_ulLostPacket this) (m_ulLostFrame this)
    (m_ulRecvPacket this) (u32 (m_ulRecvFrame this + n)) this.
Definition addLostPacket (n : Z) (this : CDataStat) : CDataStat :=
  with_lost (m_ulLostStatTime this) (u32 (m_ulLostPacket this + n)) (m_ulLostFrame this)
    (m_ulRecvPacket this) (m_ulRecvFrame this) this.
Definition addLostFrame (n : Z) (this : CDataStat) : CDataStat :=
  with_lost (m_ulLostStatTime this) (m_ulLostPacket this) (u32 (m_ulLostFrame this + n))
    (m_ulRecvPacket this) (m_ulRecvFrame this) this.

(** [None] is a division by zero. *)
Definition getRate (this : CDataStat) : option Z :=
  if m_ulEndTime this <=? m_ulStartTime this then Some 0
  else
    let d := u32 (u32 (m_ulEndTime this - m_ulStartTime this) * KILO) in
    if d =? 0 then None else Some (u32 (m_ulBytes this * BYTE_NUM) / d).

Definition getLostPacketPercent (this : CDataStat) : Z :=
  if m_ulRecvPacket this =? 0 then 0 else m_ulLostPacket this / m_ulRecvPacket this.
Definition getLostFramePercent (this : CDataStat) : Z :=
  if m_ulRecvFrame this =? 0 then 0 else m_ulLostFrame this / m_ulRecvFrame this.

(** The flux, its start and end time, and the new state. *)
Definition getFlux (now : Z) (this : CDataStat) : Z * Z * Z * CDataStat :=
  (m_ulFluxBytes this, m_ulFluxStartTime this, now, with_flux 0 now this).

(** ** The window as a specification *)

(** A call of [stat] is the reading of its clock and its number of bytes. *)
Abbreviation calls := (list (Z * Z)).

Definition run_stat (d : CDataStat) (l : calls) : CDataStat :=
  foldl (fun d c => stat c.1 c.1 c.2 d) d l.

Fixpoint sum_bytes (l : list (Z * Z)) : Z :=
  match l with [] => 0 | c :: l => c.2 + sum_bytes l end.

(** The calls of the last 30 seconds, and the bytes of one second. *)
Definition window (T : Z) (l : calls) : calls := filter (fun c => T - c.1 < DATA_STAT_PERIOD) l.
Definition bytes_at (t : Z) (l : calls) : Z := sum_bytes (filter (fun c => c.1 = t) l).

(** ** Lemmas *)

Lemma sum_bytes_app l k : sum_bytes (l ++ k) = sum_bytes l + sum_bytes k.
Proof. induction l as [|c l IH]; simpl; lia. Qed.

Lemma sum_bytes_nonneg l : Forall (fun c => 0 <= c.2) l -> 0 <= sum_bytes l.
Proof. induction 1; simpl in *; lia. Qed.

Lemma map_insert_end k v m : Forall (fun p => p.1 < k) m -> map_insert k v m = m ++ [(k, v)].
Proof.
  induction 1 as [|[k' v'] m Hk _ IH]; [done|]. simpl in *.
  rewrite (proj2 (Z.ltb_ge k k')), (proj2 (Z.eqb_neq k k')), IH by lia. done.
Qed.

Lemma add_last_end k v v' m : add_last v (m ++ [(k, v')]) = m ++ [(k, u32 (v' + v))].
Proof. induction m as [|[k1 v1] m IH]; [done|]. simpl. rewrite IH. by destruct m. Qed.

(** The seconds of a list of calls in the order of time, each with its bytes. *)
Definition seconds_step (g : list (Z * Z)) (c : Z * Z) : list (Z * Z) :=
  match last g with
  | Some (k, v) => if k =? c.1 then removelast g ++ [(k, v + c.2)] else g ++ [c]
  | None => g ++ [c]
  end.
Definition seconds (l : calls) : list (Z * Z) := foldl seconds_step [] l.

Lemma seconds_snoc l c : seconds (l ++ [c]) = seconds_step (seconds l) c.
Proof. unfold seconds. by rewrite foldl_app. Qed.

Definition in_order (m : list (Z * Z)) : Prop := StronglySorted Z.lt m.*1.

Lemma in_order_snoc m k v : in_order (m ++ [(k, v)]) <-> in_order m /\ Forall (fun p => p.1 < k) m.
Proof.
  unfold in_order. induction m as [|p m IH]; simpl.
  { split; [|repeat constructor]. split; constructor. }
  rewrite fmap_app in *. simpl in *. split.
  - intros Hs. inversion_clear Hs as [|?? Hs' Hf]. apply IH in Hs' as [Hs' Hm].
    rewrite Forall_app in Hf. destruct Hf as [Hf Hk]. inversion_clear Hk.
    split; constructor; done.
  - intros [Hs Hm]. inversion_clear Hs as [|?? Hs' Hf]. inversion_clear Hm.
    constructor; [by apply IH|]. rewrite Forall_app. split; [done|]. by constructor.
Qed.

Lemma window_all T m : Forall (fun c => T - c.1 < DATA_STAT_PERIOD) m -> window T m = m.
Proof.
  induction 1 as [|c m Hc _ IH]; [done|]. unfold window in *. by rewrite filter_cons_True, IH.
Qed.

Lemma window_window T t m : T <= t -> window t (window T m) = window t m.
Proof.
  intros Ht. unfold window. rewrite list_filter_filter. apply list_filter_iff.
  intros [k v]. simpl. unfold DATA_STAT_PERIOD. lia.
Qed.

(** The loop removes the seconds that are out of the window: the last pair of
    the map, the second of the call, has a positive count, so the comparison of
    line 95 always lets the subtraction happen. *)
Lemma expire_spec t start m0 v : 0 < v -> fits 32 t ->
  let m := m0 ++ [(t, v)] in
  in_order m -> Forall (fun p => 0 <= p.1 /\ 0 <= p.2) m0 -> sum_bytes m < 2 ^ 32 ->
  exists k, expire t start (sum_bytes m) m = (k, sum_bytes (window t m), window t m) /\
    fst <$> head (window t m) = Some k.
Proof.
  intros Hv Ht. induction m0 as [|[k w] m0 IH]; intros m Hs Hp Hb; unfold m in *.
  - exists t. simpl. unfold window, filter. simpl. rewrite Z.sub_diag.
    change (DATA_STAT_PERIOD <=? u32 0) with false. by rewrite decide_True by done.
  - inversion_clear Hp as [|?? Hk Hp']. simpl in Hk.
    apply in_order_snoc in Hs as Hs'. destruct Hs' as [Hs1 Hs2].
    inversion_clear Hs2 as [|?? Hkt Hs3]. simpl in Hkt.
    rewrite <-app_comm_cons in *. simpl in Hb |- *.
    assert (u32 (t - k) = t - k) as ->.
    { apply wrap_small. unfold fits in *. lia. }
    unfold in_order in Hs. simpl in Hs. inversion_clear Hs as [|?? Hs4 Hf].
    pose proof (sum_bytes_nonneg m0 ltac:(eapply Forall_impl; [exact Hp'|]; simpl; lia)) as Hn.
    rewrite sum_bytes_app in Hb. simpl in Hb.
    destruct (Z.leb_spec DATA_STAT_PERIOD (t - k)) as [Hd|Hd].
    + rewrite sum_bytes_app. simpl.
      rewrite (proj2 (Z.ltb_lt w (w + (sum_bytes m0 + (v + 0)))) ltac:(lia)).
      assert (u32 (w + (sum_bytes m0 + (v + 0)) - w) = sum_bytes (m0 ++ [(t, v)])) as ->.
      { rewrite sum_bytes_app. simpl. unfold u32. rewrite wrap_small; unfold fits; lia. }
      assert (forall l, window t ((k, w) :: l) = window t l) as ->
        by (intros l; apply filter_cons_False; simpl; lia).
      apply IH; [done|done|]. rewrite sum_bytes_app. simpl. lia.
    + exists k. rewrite window_all; [done|]. constructor; [done|].
      rewrite Forall_fmap in Hf. eapply Forall_impl; [exact Hf|]. simpl. lia.
Qed.

Lemma bytes_at_snoc k l c :
  bytes_at k (l ++ [c]) = bytes_at k l + (if k =? c.1 then c.2 else 0).
Proof.
  unfold bytes_at. rewrite filter_app, sum_bytes_app. f_equal. unfold filter. simpl.
  case_decide as E; destruct (Z.eqb_spec k c.1); simpl; try lia.
Qed.

Lemma bytes_at_absent k l : k ∉ l.*1 -> bytes_at k l = 0.
Proof.
  induction l as [|c l IH] using rev_ind; [done|].
  rewrite bytes_at_snoc, fmap_app, not_elem_of_app. simpl. intros [H1 H2].
  rewrite IH by done. destruct (Z.eqb_spec k c.1); [|done]. set_solver.
Qed.

Lemma window_snoc T l c : window T (l ++ [c]) =
  window T l ++ (if decide (T - c.1 < DATA_STAT_PERIOD) then [c] else []).
Proof. unfold window. by rewrite filter_app. Qed.

Lemma sorted_snoc (l : calls) c : StronglySorted Z.le (l ++ [c]).*1 ->
  StronglySorted Z.le l.*1 /\ (forall p, p ∈ l -> p.1 <= c.1).
Proof.
  rewrite fmap_app, StronglySorted_app. intros (H1 & H2 & _). split; [done|].
  intros p Hp. apply H1; [by apply list_elem_of_fmap_2|by left].
Qed.

Lemma last_fst (g : list (Z * Z)) k : fst <$> last g = Some k ->
  exists g0 v, g = g0 ++ [(k, v)].
Proof.
  destruct g as [|p g _] using rev_ind; [done|]. rewrite last_snoc.
  destruct p as [k' v]. intros [= ->]. by exists g, v.
Qed.

(** The seconds of a list of calls in order: in order, ending with the last
    call, each with the bytes of its calls, the same sums in every window. *)
Lemma seconds_ok l : StronglySorted Z.le l.*1 ->
  in_order (seconds l) /\ fst <$> last (seconds l) = fst <$> last l /\
  (forall k v, (k, v) ∈ seconds l <-> k ∈ l.*1 /\ v = bytes_at k l) /\
  (forall T, sum_bytes (window T (seconds l)) = sum_bytes (window T l)).
Proof.
  induction l as [|[t b] l IH] using rev_ind; intros Hs.
  { split_and!; [constructor|done| |done]. intros k v. simpl.
    split; [by intros ?%elem_of_nil|by intros [?%elem_of_nil _]]. }
  apply sorted_snoc in Hs as [Hs Ht]. destruct (IH Hs) as (Ho & Hl & Hm & Hw).
  rewrite seconds_snoc. unfold seconds_step. simpl.
  assert (forall k v, (k, v) ∈ seconds l ++ [(t, b)] -> t ∉ l.*1 ->
    k ∈ (l ++ [(t, b)]).*1 /\ v = bytes_at k (l ++ [(t, b)])) as Hin.
  { intros k v [Hk|Hk%list_elem_of_singleton]%elem_of_app Hn.
    - apply Hm in Hk as [Hk ->]. rewrite fmap_app, elem_of_app, bytes_at_snoc. simpl.
      split; [by left|]. destruct (Z.eqb_spec k t) as [->|]; [done|lia].
    - injection Hk as -> ->. rewrite fmap_app, elem_of_app, bytes_at_snoc, bytes_at_absent by done.
      simpl. rewrite Z.eqb_refl. split; [right; by left|lia]. }
  assert (forall k v, k ∈ (l ++ [(t, b)]).*1 /\ v = bytes_at k (l ++ [(t, b)]) -> t ∉ l.*1 ->
    (k, v) ∈ seconds l ++ [(t, b)]) as Hout.
  { intros k v [Hk ->] Hn. rewrite fmap_app, elem_of_app in Hk. rewrite bytes_at_snoc, elem_of_app.
    simpl. destruct Hk as [Hk|Hk%list_elem_of_singleton].
    - left. apply Hm. split; [done|]. destruct (Z.eqb_spec k t) as [->|]; [done|lia].
    - simpl in Hk. subst k. right. rewrite bytes_at_absent, Z.eqb_refl by done. by left. }
  destruct (last l) as [[T bT]|] eqn:El.
  - apply last_fst in Hl as (g & v & Eg). rewrite Eg, last_snoc in *. simpl.
    assert (T <= t) as Hle by (apply (Ht (T, bT)); by apply last_Some_elem_of).
    destruct (Z.eqb_spec T t) as [->|Hne].
    + rewrite removelast_last. apply in_order_snoc in Ho as Ho'.
      split_and!; [by apply in_order_snoc|by rewrite !last_snoc| |].
      * intros k w. rewrite bytes_at_snoc, fmap_app, !elem_of_app, !list_elem_of_singleton. simpl.
        specialize (Hm k) as Hk. setoid_rewrite elem_of_app in Hk.
        setoid_rewrite list_elem_of_singleton in Hk.
        destruct Ho' as [_ Hg]. rewrite Forall_forall in Hg.
        destruct (Z.eqb_spec k t) as [->|Hkt].
        -- assert (v = bytes_at t l) as -> by (apply (Hk v); by right).
           split; [|intros [_ ->]; by right].
           intros [Hc|[= ->]]; [apply Hg in Hc; simpl in Hc; lia|]. split; [by right; left|done].
        -- rewrite Z.add_0_r. split.
           ++ intros [Hc|[= ? ?]]; [|done]. destruct (proj1 (Hk w) (or_introl Hc)). by split; [left|].
           ++ intros [[Hc| ->%list_elem_of_singleton] ->]; [|done]. left.
              destruct (proj2 (Hk _) (conj Hc eq_refl)) as [?|[= ? ?]]; done.
      * intros T'. specialize (Hw T'). rewrite !window_snoc, !sum_bytes_app in *. simpl in *.
        case_decide; simpl in *; lia.
    + assert (t ∉ l.*1) as Hn.
      { intros Hc. apply list_elem_of_fmap in Hc as ([t' b'] & -> & Hc). simpl in *.
        apply last_Some in El as [l' ->]. apply sorted_snoc in Hs as [_ Hs].
        apply elem_of_app in Hc as [Hc|[= -> ->]%list_elem_of_singleton]; [|done].
        apply Hs in Hc. simpl in Hc. lia. }
      split_and!; [| by rewrite !last_snoc| by split; auto |].
      * apply in_order_snoc. split; [done|]. apply Forall_forall. intros [k w] Hk.
        apply Hm in Hk as [Hk _]. apply list_elem_of_fmap in Hk as ([t' b'] & -> & Hk).
        simpl. apply Ht in Hk as Hk'. simpl in Hk'.
        assert (t' <> t) by (intros ->; apply Hn; apply list_elem_of_fmap; by exists (t, b')). lia.
      * intros T'. specialize (Hw T'). rewrite !window_snoc, !sum_bytes_app in *. simpl in *.
        repeat case_decide; simpl in *; lia.
  - apply last_None in El as ->. split_and!; [repeat constructor|done| |done].
    intros k v. split; [intros; apply Hin|intros; apply Hout]; try done; set_solver.
Qed.

(** The part of [stat] the window is made of, when the clock did not go back. *)
Lemma stat_core now nr n d : m_ulStartTime d <= now ->
  let '(start, bytes, m) := expire now (m_ulStartTime d) (u32 (m_ulBytes d + n))
                              (record_bytes now n (m_recvBytesMap d)) in
  let d' := stat now nr n d in
  m_ulStartTime d' = start /\ m_ulEndTime d' = now /\ m_ulBytes d' = bytes /\ m_recvBytesMap d' = m.
Proof.
  intros H. destruct (expire _ _ _ _) as [[start bytes] m] eqn:E. unfold stat.
  destruct (m_ulLostStatTime d =? 0); cbn -[expire record_bytes u32 Z.ltb];
    rewrite (proj2 (Z.ltb_ge now (m_ulStartTime d)) H); cbn -[expire record_bytes u32];
    rewrite E; destruct (_ <=? _); done.
Qed.

Definition window_inv (l : calls) (T : Z) (d : CDataStat) : Prop :=
  m_recvBytesMap d = window T (seconds l) /\
  m_ulBytes d = sum_bytes (window T (seconds l)) /\ m_ulEndTime d = T /\
  m_ulStartTime d <= T /\
  (l <> [] -> fst <$> head (window T (seconds l)) = Some (m_ulStartTime d)).

Lemma in_order_window T g : in_order g -> in_order (window T g).
Proof.
  unfold in_order, window. induction g as [|p g IH]; [constructor|]. intros Hs.
  inversion_clear Hs as [|?? Hg Hf]. unfold filter in *. simpl. case_decide; [|by apply IH].
  simpl. constructor; [by apply IH|]. rewrite Forall_fmap, Forall_forall in *.
  intros q Hq. apply Hf. by apply list_elem_of_filter in Hq as [_ Hq].
Qed.

Lemma in_window T p g : p ∈ window T g -> p ∈ g.
Proof. by intros [_ ?]%list_elem_of_filter. Qed.

Lemma seconds_nonneg l p : StronglySorted Z.le l.*1 -> Forall (fun c => 0 <= c.2) l ->
  p ∈ seconds l -> 0 <= p.2.
Proof.
  intros Hs Hp Hin. destruct p as [k v]. apply seconds_ok in Hin as [_ ->]; [|done].
  apply sum_bytes_nonneg, Forall_forall. intros c [_ Hc]%list_elem_of_filter.
  rewrite Forall_forall in Hp. by apply Hp.
Qed.

(** What the call adds to the seconds of the window. *)
Lemma record_bytes_ok l T t b : StronglySorted Z.le (l ++ [(t, b)]).*1 -> 0 <= b ->
  T <= t -> fst <$> last l = Some T \/ l = [] -> Forall (fun c => 0 <= c.2) l ->
  sum_bytes (window T l) + b < 2 ^ 32 ->
  exists m0 v, record_bytes t b (window T (seconds l)) = m0 ++ [(t, v)] /\ b <= v /\
    in_order (m0 ++ [(t, v)]) /\ window t (seconds (l ++ [(t, b)])) = window t (m0 ++ [(t, v)]) /\
    sum_bytes (m0 ++ [(t, v)]) = sum_bytes (window T l) + b /\
    (forall p, p ∈ m0 -> p ∈ seconds l).
Proof.
  intros Hs Hb HT Hlast Hp Hsum. apply sorted_snoc in Hs as Hs'. destruct Hs' as [Hl Hle].
  destruct (seconds_ok _ Hl) as (Ho & Hlst & Hm & Hw).
  destruct (seconds_ok _ Hs) as (Ho' & _). rewrite seconds_snoc in Ho' |- *.
  unfold record_bytes, seconds_step in *. simpl in *.
  destruct Hlast as [Hlast| ->].
  - rewrite Hlast in Hlst. apply last_fst in Hlst as (g & v & Eg). rewrite Eg, last_snoc in *.
    assert (window T (g ++ [(T, v)]) = window T g ++ [(T, v)]) as Ew.
    { rewrite window_snoc, decide_True; [done|]. simpl. rewrite Z.sub_diag. done. }
    specialize (Hw T). rewrite Ew in *. rewrite last_snoc.
    assert (in_order (window T g ++ [(T, v)])) as Hwo
      by (rewrite <-Ew; by apply in_order_window).
    assert (0 <= v).
    { apply (seconds_nonneg l (T, v)); [done..|]. rewrite Eg, elem_of_app. right. by left. }
    rewrite sum_bytes_app in Hw. simpl in Hw.
    assert (0 <= sum_bytes (window T g)).
    { apply sum_bytes_nonneg, Forall_forall. intros p Hpg%in_window.
      apply (seconds_nonneg l); [done..|]. rewrite Eg, elem_of_app. by left. }
    destruct (Z.eqb_spec T t) as [->|Hne].
    + rewrite add_last_end, removelast_last.
      assert (u32 (v + b) = v + b) as -> by (apply wrap_small; unfold fits; lia).
      exists (window t g), (v + b). split_and!; [done|lia| | | |].
      * apply in_order_snoc. by apply in_order_snoc in Hwo.
      * rewrite !window_snoc, window_window by lia. done.
      * rewrite sum_bytes_app. simpl. lia.
      * intros p Hpg. rewrite elem_of_app. left. by eapply in_window.
    + exists (window T g ++ [(T, v)]), b. rewrite map_insert_end.
      2: { apply in_order_snoc in Hwo as [_ Hwo]. rewrite Forall_app. split.
           - eapply Forall_impl; [exact Hwo|]. simpl. lia.
           - constructor; [simpl; lia|done]. }
      split_and!; [done|lia| | | |].
      * apply in_order_snoc. split; [done|]. apply in_order_snoc in Hwo as [_ Hwo].
        rewrite Forall_app. split; [eapply Forall_impl; [exact Hwo|]; simpl; lia|].
        constructor; [simpl; lia|done].
      * rewrite !window_snoc, window_window by lia. done.
      * rewrite !sum_bytes_app. simpl. lia.
      * intros p. rewrite !elem_of_app. intros [?|?]; [left; by eapply in_window|by right].
  - exists [], b. simpl in *. split_and!; try done; try lia.
Qed.

Lemma sum_window T l : Forall (fun c => 0 <= c.2) l ->
  0 <= sum_bytes (window T l) <= sum_bytes l.
Proof.
  induction l as [|c l IH] using rev_ind; [done|].
  rewrite window_snoc, !sum_bytes_app, Forall_app, Forall_singleton. intros [Hl Hc].
  apply IH in Hl. case_decide; simpl; lia.
Qed.

Lemma stat_step l T t b nr d : StronglySorted Z.le (l ++ [(t, b)]).*1 -> T <= t ->
  fst <$> last l = Some T \/ l = [] ->
  Forall (fun c => fits 32 c.1 /\ 0 < c.2) (l ++ [(t, b)]) ->
  sum_bytes (l ++ [(t, b)]) < 2 ^ 32 ->
  window_inv l T d -> window_inv (l ++ [(t, b)]) t (stat t nr b d).
Proof.
  intros Hs HT Hlast Hp Hsum (Em & Eb & Ee & Hst & Hhead).
  rewrite Forall_app, Forall_singleton in Hp. destruct Hp as (Hp & Ht & Hb). simpl in Ht, Hb.
  rewrite sum_bytes_app in Hsum. simpl in Hsum.
  apply sorted_snoc in Hs as Hs'. destruct Hs' as [Hl _].
  destruct (seconds_ok l Hl) as (_ & _ & Hm & Hw).
  assert (Forall (fun c => 0 <= c.2) l) as Hp0 by (eapply Forall_impl; [exact Hp|]; simpl; lia).
  assert (sum_bytes (window T l) <= sum_bytes l).
  { by apply sum_window. }
  destruct (record_bytes_ok l T t b) as (m0 & v & Er & Hv & Ho & Ew & Esum & Hin);
    [done|lia|done|done|done|lia|].
  pose proof (stat_core t nr b d ltac:(lia)) as Hc.
  rewrite Em, Er, Eb, Hw in Hc.
  rewrite <-Esum in Hc. assert (u32 (sum_bytes (m0 ++ [(t, v)])) = sum_bytes (m0 ++ [(t, v)])) as Eu.
  { apply wrap_small. split; [|lia]. rewrite Esum. pose proof (sum_window T l Hp0). lia. }
  rewrite Eu in Hc.
  destruct (expire_spec t (m_ulStartTime d) m0 v) as (k & Ex & Hk); [lia|done|done| |lia|].
  { apply Forall_forall. intros p Hpm%Hin. split.
    - destruct p as [k w]. apply Hm in Hpm as [Hpm _]. apply list_elem_of_fmap in Hpm as (q & -> & Hq).
      rewrite Forall_forall in Hp. apply Hp in Hq as [[Hq _] _]. done.
    - by apply (seconds_nonneg l). }
  rewrite Ex in Hc. cbv zeta in Hc. destruct Hc as (E1 & E2 & E3 & E4).
  rewrite <-Ew in *. split_and!; [done|done|done| |by rewrite E1].
  rewrite E1. assert (k ∈ (window t (m0 ++ [(t, v)])).*1) as Hkin.
  { rewrite <-Ew. destruct (window t _) as [|[k' w] ?]; [done|]. injection Hk as ->. by left. }
  apply list_elem_of_fmap in Hkin as ([k' w] & -> & Hkin%in_window). simpl.
  apply in_order_snoc in Ho as [_ Ho]. apply elem_of_app in Hkin as [Hkin|Hkin].
  - rewrite Forall_forall in Ho. apply Ho in Hkin. simpl in Hkin. lia.
  - apply list_elem_of_singleton in Hkin as [= -> _]. lia.
Qed.

Lemma run_window t0 l : fits 32 t0 -> StronglySorted Z.le (t0 :: l.*1) ->
  Forall (fun c => fits 32 c.1 /\ 0 < c.2) l -> sum_bytes l < 2 ^ 32 ->
  forall T, fst <$> last l = Some T \/ l = [] /\ T = t0 ->
  window_inv l T (run_stat (CDataStat_new t0) l).
Proof.
  intros Ht0. induction l as [|[t b] l IH] using rev_ind; intros Hs Hp Hsum T HT.
  { destruct HT as [|[_ ->]]; [done|]. split_and!; done. }
  unfold run_stat. rewrite foldl_app. simpl. rewrite last_snoc in HT.
  destruct HT as [[= <-]|[HT _]]; [|by destruct l].
  apply Forall_app in Hp as Hp'. destruct Hp' as [Hp1 Hp2].
  rewrite sum_bytes_app in Hsum. simpl in Hsum. rewrite Forall_singleton in Hp2. simpl in Hp2.
  inversion_clear Hs as [|?? Hs1 Hs2].
  apply sorted_snoc in Hs1 as Hs1'. destruct Hs1' as [Hs3 Hs4].
  rewrite fmap_app, Forall_app in Hs2. destruct Hs2 as [Hs2 Hs5].
  simpl in Hs5. rewrite Forall_singleton in Hs5.
  apply (stat_step l (from_option fst t0 (last l))).
  - done.
  - destruct (last l) as [q|] eqn:E; simpl; [|done]. by apply Hs4, last_Some_elem_of.
  - destruct (last l) eqn:E; [by left|]. right. by apply last_None.
  - by rewrite Forall_app, Forall_singleton.
  - rewrite sum_bytes_app. simpl. lia.
  - apply IH; [by constructor|done|lia|]. destruct (last l) eqn:E; [by left|].
    right. by apply last_None in E.
Qed.

(** ** Theorems *)

(** After any sequence of [stat] calls with positive sizes, a clock that
    does not go back and fewer than 2^32 bytes in all, the map holds exactly the
    seconds of the last 30 seconds with the bytes received in each, [m_ulBytes]
    is their sum, [m_ulStartTime] is the first of them, and [getRate] is the
    number of bytes times 8 (modulo 2^32) by the length of the window in units
    of 1024 bits. *)
Theorem stat_window t0 l T : fits 32 t0 -> StronglySorted Z.le (t0 :: l.*1) ->
  Forall (fun c => fits 32 c.1 /\ 0 < c.2) l -> sum_bytes l < 2 ^ 32 ->
  fst <$> last l = Some T ->
  let d := run_stat (CDataStat_new t0) l in
  in_order (m_recvBytesMap d) /\
  (forall k v, (k, v) ∈ m_recvBytesMap d <->
    k ∈ l.*1 /\ T - k < DATA_STAT_PERIOD /\ v = bytes_at k l) /\
  m_ulBytes d = sum_bytes (window T l) /\
  fst <$> head (m_recvBytesMap d) = Some (m_ulStartTime d) /\ m_ulEndTime d = T /\
  getRate d = Some (if T =? m_ulStartTime d then 0
    else u32 (sum_bytes (window T l) * 8) / ((T - m_ulStartTime d) * 1024)).
Proof.
  intros Ht0 Hs Hp Hsum HT d.
  destruct (run_window t0 l Ht0 Hs Hp Hsum T (or_introl HT)) as (Em & Eb & Ee & Hst & Hhead).
  fold d in Em, Eb, Ee, Hst, Hhead. inversion_clear Hs as [|?? Hl Hle].
  destruct (seconds_ok l Hl) as (Ho & _ & Hm & Hw).
  assert (l <> []) as Hne by (by intros ->). specialize (Hhead Hne).
  rewrite Em. split; [by apply in_order_window|]. split.
  { intros k v. unfold window. rewrite list_elem_of_filter, Hm. simpl. tauto. }
  split; [by rewrite Eb|]. split; [done|]. split; [done|].
  assert (T - m_ulStartTime d < DATA_STAT_PERIOD) as Hd.
  { destruct (window T (seconds l)) as [|c g] eqn:E; [done|]. injection Hhead as <-.
    assert (c ∈ window T (seconds l)) as Hc by (rewrite E; by left).
    by apply list_elem_of_filter in Hc as [Hc _]. }
  unfold DATA_STAT_PERIOD in Hd. unfold getRate. rewrite Ee, Eb, Hw.
  destruct (Z.leb_spec T (m_ulStartTime d)) as [H|H].
  { rewrite (proj2 (Z.eqb_eq T (m_ulStartTime d))) by lia. done. }
  rewrite (proj2 (Z.eqb_neq T (m_ulStartTime d))) by lia.
  assert (u32 (u32 (T - m_ulStartTime d) * KILO) = (T - m_ulStartTime d) * 1024) as ->.
  { unfold KILO, u32. rewrite (wrap_small 32 (T - _)) by (unfold fits; lia).
    apply wrap_small. unfold fits. lia. }
  cbv zeta. rewrite (proj2 (Z.eqb_neq _ 0)) by lia. done.
Qed.

Lemma stat_window_witness :
  getRate (run_stat (CDataStat_new 1000) [(1001, 40960); (1001, 40960); (1002, 4096); (1032, 8192)]) = Some 0 /\
  getRate (run_stat (CDataStat_new 1000) [(1001, 40960); (1003, 40960); (1032, 8192)]) =
    Some ((40960 + 8192) * 8 / (29 * 1024)).
Proof.
  split.
  - destruct (stat_window 1000 [(1001, 40960); (1001, 40960); (1002, 4096); (1032, 8192)] 1032)
      as (_ & _ & _ & H & _ & ->); try done; try (repeat constructor; simpl; lia).
  - destruct (stat_window 1000 [(1001, 40960); (1003, 40960); (1032, 8192)] 1032)
      as (_ & _ & _ & H & _ & ->); try done; try (repeat constructor; simpl; lia).
Defined.

(** A call of [stat] without bytes, as [Dump] makes it, after 30 seconds
    of silence erases the last second from the map but not its bytes from
    [m_ulBytes]: they are counted as received from then on. *)
Theorem stat_zero_keeps_bytes t b T nr : 0 < b < 2 ^ 32 -> fits 32 t -> t + 30 <= T < 2 ^ 32 ->
  let d := stat T nr 0 (stat t nr b (CDataStat_new t)) in
  m_recvBytesMap d = [(T, 0)] /\ m_ulBytes d = b.
Proof.
  intros Hb Ht HT d.
  assert (fits 32 b) as Hfb by (unfold fits; lia).
  pose proof (stat_core t nr b (CDataStat_new t) ltac:(simpl; lia)) as H1.
  simpl in H1. unfold record_bytes in H1. simpl in H1. rewrite Z.sub_diag in H1.
  change (30 <=? u32 0) with false in H1. cbv iota in H1.
  assert (u32 b = b) as E by (by apply wrap_small). unfold DATA_STAT_PERIOD in H1.
  destruct H1 as (H1 & H2 & H3 & H4). rewrite Z.add_0_l, E in H3.
  set (d1 := stat t nr b (CDataStat_new t)) in *.
  pose proof (stat_core T nr 0 d1 ltac:(lia)) as H5.
  rewrite H1, H3, H4 in H5. unfold record_bytes in H5. simpl in H5.
  rewrite (proj2 (Z.eqb_neq t T)) in H5 by lia. simpl in H5.
  rewrite (proj2 (Z.ltb_ge T t)), (proj2 (Z.eqb_neq T t)) in H5 by lia.
  simpl in H5. rewrite Z.add_0_r, E in H5. unfold DATA_STAT_PERIOD in H5.
  assert (u32 (T - t) = T - t) as Ed by (apply wrap_small; unfold fits in *; lia).
  rewrite Ed, Z.sub_diag in H5. rewrite (proj2 (Z.leb_le 30 (T - t))) in H5 by lia.
  rewrite (proj2 (Z.ltb_ge b b)) in H5 by lia.
  change (30 <=? u32 0) with false in H5. cbv iota in H5. by destruct H5 as (_ & _ & ? & ?).
Qed.

Lemma stat_zero_keeps_bytes_witness :
  m_ulBytes (stat 200 0 0 (stat 100 0 1500 (CDataStat_new 100))) = 1500.
Proof. apply (stat_zero_keeps_bytes 100 1500 200 0); unfold fits; lia. Defined.
