(* ===== verification/MediaProcessor.v ===== *)
(** * Sending to one session: [svs_adapter_media_processor.cpp], lines 16-445

    A [CDirectProcessor] sends the blocks it is given on its session; a block
    the session does not take is duplicated into a [CPacketList] of at most 100
    blocks, which is sent first the next time. [CStreamMediaProcessorSet] is the
    list of the processors of an input stream.

    What lies outside (the clock, the sessions, the heap of message blocks) is
    a state [W] reached through the interface [MediaEnv]. A block [B] is a header
    of a data block [D]; a name of a header is not used again. [mb_bytes] are the
    bytes from [rd_ptr] to [wr_ptr], [mb_store] is a write through the pointer
    [rd_ptr]. Pointers are not [NULL]. An [event] is a call that leaves the
    component; [None] is an access outside a buffer. *)

From S2P Require Import Prelude RtpPacket DataStat.
Open Scope Z_scope.

Class MediaEnv (W B D Sess : Type) : Type := {
  time_now : W -> Z * W;
  findSession : Z -> W -> option Sess * W;
  releaseSession : Sess -> W -> W;
  getStreamId : Sess -> Z;
  sendMediaData : Sess -> B -> W -> SVS_RET_CODE * W;
  mb_duplicate : B -> W -> option B * W;
  mb_bytes : B -> W -> list Z;
  mb_store : B -> list Z -> W -> W;
  freeMediaBlock : B -> W -> W;
  data_block : B -> D }.

(** [ACE_Message_Block::duplicate] shares the data block. *)
Class MediaEnvLaws (W B D Sess : Type) `{MediaEnv W B D Sess} : Prop := {
  duplicate_data b b' w w' : mb_duplicate b w = (Some b', w') -> data_block b' = data_block b }.

Section Processor.
Context {W B D Sess : Type} `{!MediaEnv W B D Sess}.

Inductive event : Type :=
| Sent (b : B) (r : SVS_RET_CODE)
| Duplicated (b b' : B)
| Freed (b : B)
| Released (s : Sess).

Record CPacketList : Type := { m_PacketList : list B; m_SessionId : Z }.

Definition MAX_BUF_PACKET_NUM : Z := 100.
Definition CPacketList_new : CPacketList := {| m_PacketList := []; m_SessionId := 0 |}.

Record CDirectProcessor : Type := {
  m_SendSessionId : Z;
  m_pSendSession : option Sess;
  m_dataStat : CDataStat;
  m_PacketBuf : CPacketList;
  m_SavePacketNum : Z;
  m_DropPacketNum : Z }.

Definition with_session (id : Z) (s : option Sess) (this : CDirectProcessor) : CDirectProcessor :=
  {| m_SendSessionId := id; m_pSendSession := s; m_dataStat := m_dataStat this;
     m_PacketBuf := m_PacketBuf this; m_SavePacketNum := m_SavePacketNum this;
     m_DropPacketNum := m_DropPacketNum this |}.
Definition with_stat (d : CDataStat) (this : CDirectProcessor) : CDirectProcessor :=
  {| m_SendSessionId := m_SendSessionId this; m_pSendSession := m_pSendSession this;
     m_dataStat := d; m_PacketBuf := m_PacketBuf this;
     m_SavePacketNum := m_SavePacketNum this; m_DropPacketNum := m_DropPacketNum this |}.
Definition with_buf (b : CPacketList) (this : CDirectProcessor) : CDirectProcessor :=
  {| m_SendSessionId := m_SendSessionId this; m_pSendSession := m_pSendSession this;
     m_dataStat := m_dataStat this; m_PacketBuf := b;
     m_SavePacketNum := m_SavePacketNum this; m_DropPacketNum := m_DropPacketNum this |}.
Definition with_counts (saved dropped : Z) (this : CDirectProcessor) : CDirectProcessor :=
  {| m_SendSessionId := m_SendSessionId this; m_pSendSession := m_pSendSession this;
     m_dataStat := m_dataStat this; m_PacketBuf := m_PacketBuf this;
     m_SavePacketNum := saved; m_DropPacketNum := dropped |}.

(** A method works on the processor and what is outside of it. *)
Abbreviation PM := (M (CDirectProcessor * W) event).

Definition this : PM CDirectProcessor := s ← get; mret s.1.
Definition update (f : CDirectProcessor -> CDirectProcessor) : PM unit :=
  modify (fun s => (f s.1, s.2)).
(** A call of the environment. *)
Definition outside {A} (f : W -> A * W) : PM A :=
  s ← get; modify (fun s' => (s'.1, (f s.2).2)) ;; mret (f s.2).1.

Definition mb_length (b : B) : PM Z := outside (fun w => (u32 (zlen (mb_bytes b w)), w)).

Definition session_send (s : Sess) (b : B) : PM SVS_RET_CODE :=
  r ← outside (sendMediaData s b); tell (Sent b r) ;; mret r.
Definition free_block (b : B) : PM unit :=
  outside (fun w => (tt, freeMediaBlock b w)) ;; tell (Freed b).

(** *** [CStreamMediaProcessor] *)

Definition statFlux (flux : Z) : PM unit :=
  now ← outside time_now;
  update (fun p => with_stat (addFlux now flux (m_dataStat p)) p).

(** [m_dataStat.stat]: the second reading of the clock is made when [reset]
    is called. *)
Definition stat_bytes (n : Z) : PM unit :=
  now ← outside time_now;
  p ← this;
  now_reset ← if now <? m_ulStartTime (m_dataStat p) then outside time_now else mret now;
  update (fun p => with_stat (stat now now_reset n (m_dataStat p)) p).

Definition Init (ullSendSessionID : Z) : PM SVS_RET_CODE :=
  p ← this;
  match m_pSendSession p with
  | Some _ => mret RET_FAIL
  | None =>
    s ← outside (findSession ullSendSessionID);
    match s with
    | None => update (with_session (m_SendSessionId p) None) ;; mret RET_ERR_PARAM
    | Some _ => update (with_session ullSendSessionID s) ;; mret RET_OK
    end
  end.

Definition getInputRate (p : CDirectProcessor) : option Z := getRate (m_dataStat p).

(** *** [CPacketList] *)

Definition set_list (l : list B) : PM unit :=
  update (fun p => with_buf {| m_PacketList := l; m_SessionId := m_SessionId (m_PacketBuf p) |} p).

(** The loop of lines 51-62; [l] is [m_PacketList]. *)
Fixpoint send_loop (s : Sess) (l : list B) : PM unit :=
  match l with
  | [] => mret tt
  | pMb :: l =>
    r ← session_send s pMb;
    if decide (r ≠ RET_OK) then mret tt
    else
      n ← mb_length pMb;
      statFlux n ;;
      set_list l ;;
      free_block pMb ;;
      send_loop s l
  end.

(** [CPacketList::Send (this)]. *)
Definition PacketList_Send : PM SVS_RET_CODE :=
  p ← this;
  match m_PacketList (m_PacketBuf p), m_pSendSession p with
  | [], _ => mret RET_OK
  | _, None => mret RET_FAIL
  | l, Some s =>
    update (with_buf {| m_PacketList := l; m_SessionId := getStreamId s |}) ;;
    send_loop s l ;;
    mret RET_FAIL
  end.

Fixpoint clear_all (l : list B) : PM unit :=
  match l with
  | [] => mret tt
  | pMb :: l => free_block pMb ;; set_list l ;; clear_all l
  end.

Definition Clear : PM unit := p ← this; clear_all (m_PacketList (m_PacketBuf p)).

(** [rtpPacket.ParsePacket] on a block: the packet is attached to the bytes of
    the block, and its padding bit may be cleared there, unless it is shorter
    than the fixed header. *)
Definition parse_in_place (b : B) (rtpPacket : CRtpPacket) : PM (SVS_RET_CODE * CRtpPacket) :=
  d ← outside (fun w => (mb_bytes b w, w));
  '(r, rtpPacket) ← lift (ParsePacket (Some d) rtpPacket);
  (if zlen d <? RTP_FIXED_HEADER_SIZE then mret tt
   else outside (fun w => (tt, mb_store b (m_pRtpData rtpPacket) w))) ;;
  mret (r, rtpPacket).

(** The loop of lines 110-129. *)
Fixpoint clear_loop (num i : Z) (rtpPacket : CRtpPacket) (l : list B) : PM unit :=
  match l with
  | [] => mret tt
  | pMb :: l =>
    set_list l ;;
    '(r, rtpPacket) ← parse_in_place pMb rtpPacket;
    m ← if decide (r = RET_OK) then lift (GetMarker rtpPacket) else mret false;
    let i := if (m : bool) then u32 (i + 1) else i in
    free_block pMb ;;
    if m && (num <=? i) then mret tt else clear_loop num i rtpPacket l
  end.

Definition ClearFrame (num : Z) : PM unit :=
  p ← this; clear_loop num 0 CRtpPacket_new (m_PacketList (m_PacketBuf p)).

Definition PacketList_Save (pMb : B) : PM SVS_RET_CODE :=
  p ← this;
  (if MAX_BUF_PACKET_NUM <=? zlen (m_PacketList (m_PacketBuf p)) then ClearFrame 2 else mret tt) ;;
  o ← outside (mb_duplicate pMb);
  match o with
  | None => mret RET_FAIL
  | Some pNewMb =>
    tell (Duplicated pMb pNewMb) ;;
    p ← this;
    set_list (m_PacketList (m_PacketBuf p) ++ [pNewMb]) ;;
    mret RET_OK
  end.

(** *** [CDirectProcessor] *)

Definition CDirectProcessor_new (now : Z) : CDirectProcessor :=
  {| m_SendSessionId := 0; m_pSendSession := None; m_dataStat := CDataStat_new now;
     m_PacketBuf := CPacketList_new; m_SavePacketNum := 0; m_DropPacketNum := 0 |}.

Definition Save (pMb : B) : PM unit :=
  r ← PacketList_Save pMb;
  update (fun p =>
    if decide (r = RET_OK)
    then with_counts (u32 (m_SavePacketNum p + 1)) (m_DropPacketNum p) p
    else with_counts (m_SavePacketNum p) (u32 (m_DropPacketNum p + 1)) p).

Definition Send (pMb : B) : PM unit :=
  p ← this;
  match m_pSendSession p with
  | None => mret tt
  | Some s =>
    n ← mb_length pMb;
    stat_bytes n ;;
    r ← PacketList_Send;
    if decide (r ≠ RET_OK) then Save pMb
    else
      r ← session_send s pMb;
      if decide (r = RET_OK) then (n ← mb_length pMb; statFlux n) else Save pMb
  end.

(** The counters [Dump] brings up to date before it prints them. *)
Definition Dump : PM unit :=
  p ← this;
  match m_pSendSession p with None => mret tt | Some _ => stat_bytes 0 end.

(** The destructors of the list and of [CStreamMediaProcessor]. *)
Definition destroy : PM unit :=
  Clear ;;
  p ← this;
  match m_pSendSession p with
  | None => mret tt
  | Some s =>
    outside (fun w => (tt, releaseSession s w)) ;; tell (Released s) ;;
    update (with_session (m_SendSessionId p) None)
  end.

(** *** [CStreamMediaProcessorSet]: a processor is named by its address *)

Record CStreamMediaProcessorSet : Type := {
  m_EsOverRtpProcessList : list (Z * CDirectProcessor) }.

Definition AddMediaProcessor (a : Z) (p : CDirectProcessor) (this : CStreamMediaProcessorSet)
    : SVS_RET_CODE * CStreamMediaProcessorSet :=
  let l := m_EsOverRtpProcessList this in
  if existsb (fun q => q.1 =? a) l then (RET_FAIL, this)
  else (RET_OK, {| m_EsOverRtpProcessList := l ++ [(a, p)] |}).

(** The loop of lines 347-362: the list without the processor, and the
    processor that is deleted. *)
Fixpoint erase_processor (a : Z) (l : list (Z * CDirectProcessor))
    : list (Z * CDirectProcessor) * option CDirectProcessor :=
  match l with
  | [] => ([], None)
  | q :: l =>
    if q.1 =? a then (l, Some q.2) else let '(l, p) := erase_processor a l in (q :: l, p)
  end.

Definition DelMediaProcessor (a : Z) (this : CStreamMediaProcessorSet) (w : W)
    : option (SVS_RET_CODE * CStreamMediaProcessorSet * W * list event) :=
  let '(l, p) := erase_processor a (m_EsOverRtpProcessList this) in
  '(w, o) ← match p with
            | None => Some (w, [])
            | Some p => '(_, (_, w), o) ← destroy (p, w); Some (w, o)
            end;
  Some (match l with [] => RET_ERR_LIST_EMPTY | _ => RET_OK end,
        {| m_EsOverRtpProcessList := l |}, w, o).

Fixpoint send_all (pMb : B) (l : list (Z * CDirectProcessor)) (w : W)
    : option (list (Z * CDirectProcessor) * W * list event) :=
  match l with
  | [] => Some ([], w, [])
  | (a, p) :: l =>
    '(_, (p, w), o) ← Send pMb (p, w);
    '(l, w, o') ← send_all pMb l w;
    Some ((a, p) :: l, w, o ++ o')
  end.

Definition Set_Send (pMb : B) (this : CStreamMediaProcessorSet) (w : W)
    : option (SVS_RET_CODE * CStreamMediaProcessorSet * W * list event) :=
  '(l, w, o) ← send_all pMb (m_EsOverRtpProcessList this) w;
  Some (RET_OK, {| m_EsOverRtpProcessList := l |}, w, o).

(** The deletion of the processors, by [Destroy] and the destructor. *)
Fixpoint destroy_all (l : list (Z * CDirectProcessor)) (w : W) : option (W * list event) :=
  match l with
  | [] => Some (w, [])
  | (_, p) :: l =>
    '(_, (_, w), o) ← destroy (p, w);
    '(w, o') ← destroy_all l w;
    Some (w, o ++ o')
  end.

Definition Destroy (this : CStreamMediaProcessorSet) (w : W)
    : option (CStreamMediaProcessorSet * W * list event) :=
  '(w, o) ← destroy_all (m_EsOverRtpProcessList this) w;
  Some ({| m_EsOverRtpProcessList := [] |}, w, o).

(** *** Runs *)

Fixpoint send_blocks (bs : list B) : PM unit :=
  match bs with [] => mret tt | b :: bs => Send b ;; send_blocks bs end.

(** What the trace says: the blocks the session took, the headers made, the
    headers freed. *)
Definition taken (o : list event) : list B :=
  omap (fun e => match e with Sent b r => if decide (r = RET_OK) then Some b else None | _ => None end) o.
Definition made (o : list event) : list B :=
  omap (fun e => match e with Duplicated _ b => Some b | _ => None end) o.
Definition freed (o : list event) : list B :=
  omap (fun e => match e with Freed b => Some b | _ => None end) o.

Definition queue (p : CDirectProcessor) : list B := m_PacketList (m_PacketBuf p).

(** ** Lemmas *)

Lemma this_bind {A} (k : CDirectProcessor -> PM A) s : (this ≫= k) s = k s.1 s.
Proof. unfold this. cbv [mbind M_bind option_bind get mret M_ret]. by destruct (k s.1 s) as [[[? ?] ?]|]. Qed.

Lemma update_bind {A} f (k : unit -> PM A) s : (update f ≫= k) s = k tt (f s.1, s.2).
Proof. unfold update. by rewrite modify_bind. Qed.

Lemma outside_bind {A C} (f : W -> A * W) (k : A -> PM C) s :
  (outside f ≫= k) s = k (f s.2).1 (s.1, (f s.2).2).
Proof.
  unfold outside. cbv [mbind M_bind option_bind get modify mret M_ret].
  by destruct (k _ _) as [[[? ?] ?]|].
Qed.

Lemma assoc_bind {A1 A2 A3} (m : PM A1) (k : A1 -> PM A2) (h : A2 -> PM A3) s :
  ((m ≫= k) ≫= h) s = (m ≫= fun a => k a ≫= h) s.
Proof. apply bind_assoc. Qed.

(** What a method leaves alone: the list and the session. *)
Definition keeps (p p' : CDirectProcessor) : Prop :=
  m_PacketBuf p' = m_PacketBuf p /\ m_pSendSession p' = m_pSendSession p.

(** A method that returns, keeps the list and makes no call of the trace. *)
Definition quiet {A} (m : PM A) : Prop :=
  forall p w, exists a p' w', m (p, w) = Some (a, (p', w'), []) /\ keeps p p'.

Lemma quiet_bind {A C} (m : PM A) (k : A -> PM C) : quiet m -> (forall a, quiet (k a)) -> quiet (m ≫= k).
Proof.
  intros Hm Hk p w. destruct (Hm p w) as (a & p1 & w1 & E1 & K1 & K1').
  destruct (Hk a p1 w1) as (c & p2 & w2 & E2 & K2 & K2').
  exists c, p2, w2. split; [by apply (bind_run _ _ _ _ _ _ _ _ _ E1 E2)|].
  split; congruence.
Qed.

Lemma quiet_ret {A} (a : A) : quiet (mret a).
Proof. intros p w. by exists a, p, w. Qed.
Lemma quiet_this : quiet this.
Proof. intros p w. by exists p, p, w. Qed.
Lemma quiet_outside {A} (f : W -> A * W) : quiet (outside f).
Proof. intros p w. by exists (f w).1, p, (f w).2. Qed.
Lemma quiet_update f : (forall p, keeps p (f p)) -> quiet (update f).
Proof. intros Hf p w. by exists tt, (f p), w. Qed.

Lemma quiet_statFlux n : quiet (statFlux n).
Proof. apply quiet_bind; [apply quiet_outside|]. intros t. by apply quiet_update. Qed.

Lemma quiet_stat_bytes n : quiet (stat_bytes n).
Proof.
  apply quiet_bind; [apply quiet_outside|]. intros t. apply quiet_bind; [apply quiet_this|].
  intros p. apply quiet_bind; [case_match; [apply quiet_outside|apply quiet_ret]|].
  intros t'. by apply quiet_update.
Qed.

(** Total correctness of a method, for every state of what is outside. *)
Definition awp {A} (m : PM A) (p : CDirectProcessor) (Q : A -> CDirectProcessor -> list event -> Prop) : Prop :=
  forall w, exists a p' w' o, m (p, w) = Some (a, (p', w'), o) /\ Q a p' o.

Lemma awp_mono {A} (m : PM A) p (Q Q' : A -> CDirectProcessor -> list event -> Prop) :
  awp m p Q -> (forall a p' o, Q a p' o -> Q' a p' o) -> awp m p Q'.
Proof. intros Hm HQ w. destruct (Hm w) as (a & p' & w' & o & E & HQa). exists a, p', w', o. auto. Qed.

Lemma awp_bind {A C} (m : PM A) (k : A -> PM C) p Q :
  awp m p (fun a p' o => awp (k a) p' (fun c p'' o' => Q c p'' (o ++ o'))) -> awp (m ≫= k) p Q.
Proof.
  intros Hm w. destruct (Hm w) as (a & p1 & w1 & o1 & E1 & Hk).
  destruct (Hk w1) as (c & p2 & w2 & o2 & E2 & HQ).
  exists c, p2, w2, (o1 ++ o2). split; [by apply (bind_run _ _ _ _ _ _ _ _ _ E1 E2)|done].
Qed.

Lemma awp_ret {A} (a : A) p (Q : A -> CDirectProcessor -> list event -> Prop) : Q a p [] -> awp (mret a) p Q.
Proof. intros HQ w. by exists a, p, w, []. Qed.

Lemma awp_quiet {A} (m : PM A) p (Q : A -> CDirectProcessor -> list event -> Prop) : quiet m ->
  (forall a p', keeps p p' -> Q a p' []) -> awp m p Q.
Proof. intros Hm HQ w. destruct (Hm p w) as (a & p' & w' & E & K). exists a, p', w', []. auto. Qed.

Lemma awp_tell e p (Q : unit -> CDirectProcessor -> list event -> Prop) : Q tt p [e] -> awp (tell e) p Q.
Proof. intros HQ w. by exists tt, p, w, [e]. Qed.

Lemma awp_lift {A} (o : option A) a p (Q : A -> CDirectProcessor -> list event -> Prop) :
  o = Some a -> Q a p [] -> awp (lift o) p Q.
Proof. intros -> HQ w. by exists a, p, w, []. Qed.

Lemma awp_set_list l p (Q : unit -> CDirectProcessor -> list event -> Prop) :
  (forall p', queue p' = l -> m_pSendSession p' = m_pSendSession p -> Q tt p' []) -> awp (set_list l) p Q.
Proof. intros HQ w. eexists tt, _, w, []. split; [done|]. by apply HQ. Qed.

Lemma awp_this {A} (k : CDirectProcessor -> PM A) p Q : awp (k p) p Q -> awp (this ≫= k) p Q.
Proof. intros Hk w. rewrite this_bind. apply Hk. Qed.

Lemma awp_free b p (Q : unit -> CDirectProcessor -> list event -> Prop) : Q tt p [Freed b] -> awp (free_block b) p Q.
Proof. intros HQ w. by exists tt, p, (freeMediaBlock b w), [Freed b]. Qed.

Lemma awp_session s b p (Q : SVS_RET_CODE -> CDirectProcessor -> list event -> Prop) :
  (forall w, let r := (sendMediaData s b w).1 in Q r p [Sent b r]) -> awp (session_send s b) p Q.
Proof.
  intros HQ w. eexists _, p, _, [_]. unfold session_send. rewrite outside_bind. split; [done|]. apply HQ.
Qed.

(** What a trace is made of. *)
Definition shows (o : list event) (t m f : list B) : Prop :=
  taken o = t /\ made o = m /\ freed o = f.

Lemma shows_app o o' t m f t' m' f' : shows o t m f -> shows o' t' m' f' ->
  shows (o ++ o') (t ++ t') (m ++ m') (f ++ f').
Proof.
  unfold shows, taken, made, freed. rewrite !omap_app. intros (<- & <- & <-) (<- & <- & <-). done.
Qed.

Lemma shows_nil : shows [] [] [] [].
Proof. done. Qed.

(** The session [s] takes every block. *)
Definition accepts (s : Sess) : Prop := forall b w, (sendMediaData s b w).1 = RET_OK.

Lemma awp_send_loop s l p : queue p = l ->
  awp (send_loop s l) p (fun _ p' o => exists k, queue p' = drop k l /\
    m_pSendSession p' = m_pSendSession p /\ shows o (take k l) [] (take k l) /\
    (accepts s -> drop k l = [])).
Proof.
  revert p. induction l as [|b l IH]; intros p Hp; cbn [send_loop].
  { apply awp_ret. by exists O. }
  apply awp_bind, awp_session. intros w r. case_decide as Hr.
  - apply awp_ret. exists O. rewrite drop_0. split_and!; [done|done| |].
    + unfold shows, taken, made, freed. simpl. by rewrite decide_False.
    + intros Ha. subst r. by rewrite Ha in Hr.
  - assert (r = RET_OK) as Hok by (by destruct (decide (r = RET_OK))). rewrite Hok.
    apply awp_bind, awp_quiet; [apply quiet_outside|]. intros n p1 [K1 K1'].
    apply awp_bind, awp_quiet; [apply quiet_statFlux|]. intros _ p2 [K2 K2'].
    apply awp_bind, awp_set_list. intros p3 Hq Hs. apply awp_bind, awp_free.
    apply (awp_mono _ _ _ _ (IH p3 Hq)). intros _ p4 o (k & Hk & Hs4 & (Ht & Hm & Hf) & Ha).
    exists (S k). simpl. split_and!; [done|congruence| |done].
    apply (shows_app [Sent b RET_OK; Freed b] o [b] [] [b] (take k l) [] (take k l)); done.
Qed.

Lemma GetMarker_attached p : m_pFixedHead p = true -> 12 <= zlen (m_pRtpData p) ->
  exists m, GetMarker p = Some m.
Proof.
  intros Hh Hl. unfold GetMarker, getter. rewrite Hh.
  destruct (rd_is_Some (m_pRtpData p) 1) as [b ->]; [lia|]. simpl. eauto.
Qed.

Lemma awp_parse b pkt p (Q : SVS_RET_CODE * CRtpPacket -> CDirectProcessor -> list event -> Prop) :
  (forall r q, (r = RET_OK -> exists m, GetMarker q = Some m) -> Q (r, q) p []) ->
  awp (parse_in_place b pkt) p Q.
Proof.
  intros HQ w. unfold parse_in_place. rewrite outside_bind. cbn [fst snd]. set (d := mb_bytes b w).
  destruct (ParsePacket_spec d pkt) as (r & q & E & Hr & _). unfold lift. rewrite E.
  assert (r = RET_OK -> exists m, GetMarker q = Some m) as Hm.
  { intros ->. destruct (ParsePacket_attached _ _ _ E) as [Hh Hz].
    destruct (Hr eq_refl) as [_ Hl]. apply GetMarker_attached; [done|lia]. }
  destruct (zlen d <? RTP_FIXED_HEADER_SIZE); eexists _, p, _, []; (split; [done|by apply HQ]).
Qed.

Lemma awp_clear_loop num l : forall i pkt p, queue p = l ->
  awp (clear_loop num i pkt l) p (fun _ p' o => exists k, queue p' = drop k l /\
    m_pSendSession p' = m_pSendSession p /\ shows o [] [] (take k l) /\ (l <> [] -> k <> O)).
Proof.
  induction l as [|b l IH]; intros i pkt p Hp; cbn [clear_loop].
  { apply awp_ret. by exists O. }
  apply awp_bind, awp_set_list. intros p1 Hq Hs. apply awp_bind, awp_parse. intros r q Hm.
  apply awp_bind.
  assert (exists m, awp (if decide (r = RET_OK) then lift (GetMarker q) else mret false) p1
            (fun a p' o => a = m /\ p' = p1 /\ o = [])) as [m Hw].
  { case_decide as E; [destruct (Hm E) as [m Em]; exists m; by apply (awp_lift _ _ _ _ Em)|].
    exists false. by apply awp_ret. }
  apply (awp_mono _ _ _ _ Hw). intros a p2 o (-> & -> & ->). apply awp_bind, awp_free.
  destruct (m && (num <=? (if m then u32 (i + 1) else i))).
  - apply awp_ret. exists 1%nat. simpl. by rewrite drop_0.
  - eapply awp_mono; [by apply IH|]. intros _ p3 o (k & Hk & Hs3 & Ho & _). exists (S k). simpl.
    split_and!; [done|congruence| |done].
    apply (shows_app [Freed b] o [] [] [b] [] [] (take k l)); done.
Qed.

Definition dup_ok : Prop := forall b w, exists b' w', mb_duplicate b w = (Some b', w').

Lemma awp_dup `{!MediaEnvLaws W B D Sess} b p (Q : option B -> CDirectProcessor -> list event -> Prop) :
  (forall x, (dup_ok -> x <> None) -> (forall b', x = Some b' -> data_block b' = data_block b) -> Q x p []) ->
  awp (outside (mb_duplicate b)) p Q.
Proof.
  intros HQ w. eexists _, p, _, []. split; [done|]. cbn [snd].
  destruct (mb_duplicate b w) as [x w'] eqn:E. apply HQ; cbn [fst].
  - intros Hd. destruct (Hd b w) as (b' & w2 & E2). congruence.
  - intros b' ->. by apply (duplicate_data _ _ _ _ E).
Qed.

(** The list after [Save]: what is left when the list was full, and the new
    header. *)
Lemma awp_Save `{!MediaEnvLaws W B D Sess} b p : zlen (queue p) <= MAX_BUF_PACKET_NUM ->
  awp (Save b) p (fun _ p' o => exists k n, queue p' = drop k (queue p) ++ n /\
    m_pSendSession p' = m_pSendSession p /\ shows o [] n (take k (queue p)) /\
    zlen (queue p') <= MAX_BUF_PACKET_NUM /\ (zlen (queue p) < MAX_BUF_PACKET_NUM -> k = O) /\
    (n = [] \/ exists b', n = [b'] /\ data_block b' = data_block b) /\ (dup_ok -> n <> [])).
Proof.
  intros Hl. unfold Save, PacketList_Save. apply awp_bind, awp_this, awp_bind.
  apply (awp_mono _ _ (fun _ p' o => exists k, queue p' = drop k (queue p) /\
    m_pSendSession p' = m_pSendSession p /\ shows o [] [] (take k (queue p)) /\
    zlen (queue p') < MAX_BUF_PACKET_NUM /\ (zlen (queue p) < MAX_BUF_PACKET_NUM -> k = O))).
  { unfold queue at 1. destruct (Z.leb_spec MAX_BUF_PACKET_NUM (zlen (m_PacketList (m_PacketBuf p)))) as [H|H].
    - apply awp_this. eapply awp_mono; [by apply awp_clear_loop|].
      intros _ p' o (k & Hk & Hs & Ho & Hne). exists k. unfold queue in *.
      split_and!; [done..| |lia]. rewrite Hk, zlen_drop.
      unfold MAX_BUF_PACKET_NUM in *. destruct (m_PacketList (m_PacketBuf p)); [done|].
      specialize (Hne ltac:(done)). lia.
    - apply awp_ret. exists O. by rewrite drop_0. }
  intros _ p1 o1 (k & Hk & Hs & Ho & Hlt & H0). apply awp_bind, awp_dup. intros x Hx Hdata.
  destruct x as [b'|].
  - apply awp_bind, awp_tell, awp_this, awp_bind, awp_set_list. intros p2 Hq2 Hs2.
    apply awp_ret. simpl.
    intros w. eexists tt, _, w, []. split; [done|]. exists k, [b'].
    unfold queue in *. simpl. rewrite Hq2, Hk. split_and!; [done|congruence| | |done|eauto|done].
    + rewrite !app_nil_r, <-(app_nil_r (take k _)).
      by apply (shows_app o1 [Duplicated b b'] [] [] _ [] [b'] []).
    + rewrite <-Hk, zlen_app, zlen_cons, zlen_nil. unfold MAX_BUF_PACKET_NUM in *. lia.
  - apply awp_ret. intros w. eexists tt, _, w, []. split; [done|]. exists k, []. unfold queue in *. simpl. rewrite !app_nil_r.
    split_and!; try done; [lia|by left|]. intros Hd. by destruct (Hx Hd).
Qed.

(** One packet: what the session took and what is in the list afterwards. *)
Lemma awp_Send `{!MediaEnvLaws W B D Sess} b p s : m_pSendSession p = Some s ->
  zlen (queue p) <= MAX_BUF_PACKET_NUM ->
  awp (Send b) p (fun _ p' o => m_pSendSession p' = Some s /\ zlen (queue p') <= MAX_BUF_PACKET_NUM /\
    exists t k n, queue p' = drop k (drop (length t) (queue p)) ++ n /\
    (t `prefix_of` queue p /\ shows o t n (t ++ take k (drop (length t) (queue p))) \/
     queue p = [] /\ t = [b] /\ n = [] /\ shows o t n []) /\
    (zlen (queue p) < MAX_BUF_PACKET_NUM -> k = O) /\
    (n = [] \/ exists b', n = [b'] /\ data_block b' = data_block b) /\
    (dup_ok -> n = [] -> queue p = [] /\ t = [b]) /\
    (accepts s -> if queue p is [] then t = [b] else t = queue p)).
Proof.
  intros Hs Hl. unfold Send. apply awp_this. rewrite Hs.
  apply awp_bind, awp_quiet; [apply quiet_outside|]. intros n p1 [K1 K1'].
  apply awp_bind, awp_quiet; [apply quiet_stat_bytes|]. intros _ p2 [K2 K2'].
  assert (queue p2 = queue p) as Hq by (unfold queue; congruence).
  assert (m_pSendSession p2 = Some s) as Hs2 by congruence.
  apply awp_bind. unfold PacketList_Send. apply awp_this. fold (queue p2). rewrite Hq.
  destruct (queue p) as [|c l] eqn:El.
  - apply awp_ret. rewrite decide_False by tauto. apply awp_bind, awp_session. intros w r. simpl.
    case_decide as Hr.
    + rewrite Hr. apply awp_bind, awp_quiet; [apply quiet_outside|]. intros n' p3 [K3 K3'].
      apply awp_quiet; [apply quiet_statFlux|]. intros _ p4 [K4 K4'].
      assert (queue p4 = []) as Hq4 by (unfold queue in *; congruence).
      split; [congruence|]. rewrite Hq4. split; [done|]. exists [b], O, []. simpl.
      split_and!; try done; [right|by left]. split_and!; done.
    + eapply awp_mono; [apply awp_Save; by rewrite Hq|]. rewrite Hq.
      intros _ p3 o (k & m & Hk & Hs3 & Ho & Hl3 & H0 & Hm & Hd).
      split; [congruence|]. split; [done|]. exists [], k, m. simpl.
      split_and!; [done| |done|done| |].
      * left. split; [apply prefix_nil|]. apply (shows_app [Sent b r] o [] [] []); [|done].
        unfold shows, taken, made, freed. simpl. by rewrite decide_False.
      * intros Hok Hn. by destruct (Hd Hok).
      * intros Ha. subst r. by rewrite Ha in Hr.
  - rewrite Hs2. apply awp_bind. intros w. eexists tt, _, w, []. split; [done|]. apply awp_bind.
    eapply awp_mono; [by apply awp_send_loop|]. intros _ p3 o (k & Hk & Hs3 & Ho & Ha).
    simpl in Hs3. apply awp_ret. rewrite decide_True by done.
    eapply awp_mono; [apply awp_Save; rewrite Hk, zlen_drop; unfold MAX_BUF_PACKET_NUM in *; lia|].
    rewrite Hk. intros _ p4 o' (k' & m & Hk' & Hs4 & Ho' & Hl4 & H0 & Hm & Hd).
    split; [congruence|]. split; [done|]. exists (take k (c :: l)), k', m.
    assert (drop (length (take k (c :: l))) (c :: l) = drop k (c :: l)) as Ed.
    { rewrite length_take. destruct (Nat.le_ge_cases k (length (c :: l))).
      - f_equal. lia.
      - rewrite !drop_ge by lia. done. }
    rewrite Ed. split_and!; [done| | |done| |].
    + left. split; [apply prefix_take|]. simpl. rewrite app_nil_r.
      rewrite <-(app_nil_r (take k (c :: l))) at 1. exact (shows_app _ _ _ _ _ _ _ _ Ho Ho').
    + intros H. apply H0. rewrite zlen_drop. unfold MAX_BUF_PACKET_NUM in *. lia.
    + intros Hok Hn. by destruct (Hd Hok).
    + intros Hacc. specialize (Ha Hacc). rewrite <-(take_drop k (c :: l)) at 2. by rewrite Ha, app_nil_r.
Qed.

Lemma taken_app o o' : taken (o ++ o') = taken o ++ taken o'.
Proof. apply omap_app. Qed.
Lemma made_app o o' : made (o ++ o') = made o ++ made o'.
Proof. apply omap_app. Qed.
Lemma freed_app o o' : freed (o ++ o') = freed o ++ freed o'.
Proof. apply omap_app. Qed.

Definition data := fmap (M := list) data_block.

Lemma data_app l k : data (l ++ k) = data l ++ data k.
Proof. apply fmap_app. Qed.

Lemma data_prefix (t q : list B) k : t `prefix_of` q -> q = t ++ drop (length t) q /\
  drop k (drop (length t) q) `sublist_of` drop (length t) q.
Proof.
  intros [r ->]. rewrite drop_app_length. split; [done|].
  rewrite <-(take_drop k r) at 2. by apply sublist_inserts_l.
Qed.

(** One packet, in terms of the data blocks. *)
Lemma awp_Send_data `{!MediaEnvLaws W B D Sess} b p s : m_pSendSession p = Some s ->
  zlen (queue p) <= MAX_BUF_PACKET_NUM ->
  awp (Send b) p (fun _ p' o => m_pSendSession p' = Some s /\ zlen (queue p') <= MAX_BUF_PACKET_NUM /\
    queue p ++ made o = freed o ++ queue p' /\
    data (taken o ++ queue p') `sublist_of` data (queue p ++ [b]) /\
    (dup_ok -> zlen (queue p) < MAX_BUF_PACKET_NUM -> data (taken o ++ queue p') = data (queue p ++ [b])) /\
    (dup_ok -> queue p <> [] -> exists q b', queue p' = q ++ [b'] /\ data_block b' = data_block b /\
      (accepts s -> q = []))).
Proof.
  intros Hs Hl. eapply awp_mono; [by apply awp_Send|].
  intros _ p' o (Hs' & Hl' & t & k & n & Hq & Ho & Hk & Hn & Hd & Ha).
  split; [done|]. split; [done|].
  assert (dup_ok -> queue p <> [] -> exists b', n = [b'] /\ data_block b' = data_block b) as Hn'.
  { intros H1 H2. destruct Hn as [Hn|Hn]; [|done]. by destruct (Hd H1 Hn). }
  assert (data n `sublist_of` data [b]) as Hsub.
  { destruct Hn as [->|(b' & -> & Hb)]; [apply sublist_nil_l|]. simpl. by rewrite Hb. }
  destruct Ho as [[Hp (Ht & Hm & Hf)]|(Hq0 & -> & -> & (Ht & Hm & Hf))].
  - destruct (data_prefix t (queue p) k Hp) as [E Hsl].
    rewrite Hm, Hf, Ht, Hq. split_and!.
    + rewrite E at 1. rewrite <-!app_assoc. f_equal. by rewrite app_assoc, take_drop.
    + rewrite E at 2. rewrite !data_app, <-!app_assoc.
      apply sublist_app; [done|]. apply sublist_app; [by apply fmap_sublist|done].
    + intros Hok Hlt. rewrite (Hk Hlt), drop_0, app_assoc, <-E, !data_app. f_equal.
      destruct Hn as [->|(b' & -> & Hb)]; [|simpl; by rewrite Hb].
      destruct (Hd Hok eq_refl) as [E1 ->]. rewrite E1 in Hp. apply prefix_nil_inv in Hp. done.
    + intros Hok Hne. destruct (Hn' Hok Hne) as (b' & -> & Hb). eexists _, b'. split; [done|].
      split; [done|]. intros Hacc. specialize (Ha Hacc). destruct (queue p) eqn:E1; [done|].
      rewrite Ha, drop_all, drop_nil. done.
  - rewrite Hm, Hf, Ht, Hq, Hq0. rewrite !drop_nil. simpl. split_and!; try done.
Qed.

Lemma awp_send_blocks `{!MediaEnvLaws W B D Sess} bs p s : m_pSendSession p = Some s ->
  zlen (queue p) <= MAX_BUF_PACKET_NUM ->
  awp (send_blocks bs) p (fun _ p' o => zlen (queue p') <= MAX_BUF_PACKET_NUM /\
    queue p ++ made o = freed o ++ queue p' /\
    data (taken o ++ queue p') `sublist_of` data (queue p ++ bs)).
Proof.
  revert p. induction bs as [|b bs IH]; intros p Hs Hl; cbn [send_blocks].
  { apply awp_ret. simpl. by rewrite !app_nil_r. }
  apply awp_bind. eapply awp_mono; [by apply (awp_Send_data b p s)|].
  intros _ p1 o (Hs1 & Hl1 & Hc & Hsub & _). eapply awp_mono; [by apply IH|].
  intros _ p2 o2 (Hl2 & Hc2 & Hsub2). split; [done|].
  rewrite taken_app, made_app, freed_app. split.
  - rewrite app_assoc, Hc, <-!app_assoc. by f_equal.
  - rewrite !data_app in *. simpl in *. rewrite <-app_assoc.
    etrans; [apply sublist_app; [done|exact Hsub2]|].
    rewrite app_assoc, (cons_middle _ (data (queue p))), app_assoc. by apply sublist_app.
Qed.

Lemma awp_lossless `{!MediaEnvLaws W B D Sess} bs p s : dup_ok -> m_pSendSession p = Some s ->
  zlen (queue p) + zlen bs <= MAX_BUF_PACKET_NUM ->
  awp (send_blocks bs) p (fun _ p' o => data (taken o ++ queue p') = data (queue p ++ bs)).
Proof.
  intros Hok. revert p. induction bs as [|b bs IH]; intros p Hs Hl; cbn [send_blocks].
  { apply awp_ret. simpl. by rewrite app_nil_r. }
  rewrite zlen_cons in Hl. pose proof (zlen_nonneg bs).
  apply awp_bind. eapply awp_mono; [apply (awp_Send_data b p s); [done|lia]|].
  intros _ p1 o (Hs1 & _ & _ & _ & Heq & _). specialize (Heq Hok ltac:(lia)).
  assert (zlen (queue p1) <= zlen (queue p) + 1).
  { apply (f_equal length) in Heq. unfold data in Heq. rewrite !length_fmap, !length_app in Heq.
    simpl in Heq. unfold zlen. lia. }
  eapply awp_mono; [apply IH; [done|lia]|]. intros ? p2 o2 Heq2.
  rewrite taken_app, !data_app in *. simpl in *.
  by rewrite <-app_assoc, Heq2, app_assoc, Heq, <-app_assoc.
Qed.

Lemma awp_backlog `{!MediaEnvLaws W B D Sess} bs p s : dup_ok -> m_pSendSession p = Some s ->
  queue p <> [] -> zlen (queue p) <= MAX_BUF_PACKET_NUM ->
  awp (send_blocks bs) p (fun _ p' o => queue p' <> [] /\ (bs = [] -> p' = p /\ o = []) /\
    (bs <> [] -> data_block <$> last (queue p') = data_block <$> last bs) /\
    (accepts s -> bs <> [] -> zlen (queue p) < MAX_BUF_PACKET_NUM ->
      zlen (queue p') = 1 /\ data (taken o ++ queue p') = data (queue p ++ bs))).
Proof.
  intros Hok. revert p. induction bs as [|b bs IH]; intros p Hs Hne Hl; cbn [send_blocks].
  { by apply awp_ret. }
  apply awp_bind. eapply awp_mono; [by apply (awp_Send_data b p s)|].
  intros _ p1 o (Hs1 & Hl1 & _ & _ & Heq & Hlast).
  destruct (Hlast Hok Hne) as (q & b' & Eq & Eb & Ha).
  assert (queue p1 <> []) as Hne1 by (rewrite Eq; by destruct q).
  eapply awp_mono; [by apply IH|]. intros _ p2 o2 (H1 & H0 & H2 & H3). split; [done|].
  split; [done|]. destruct bs as [|c bs].
  - destruct (H0 eq_refl) as [-> ->]. rewrite Eq, app_nil_r, last_snoc. split; [simpl; by rewrite Eb|].
    intros Hacc _ Hlt. rewrite <-Eq at 2. rewrite (Heq Hok Hlt). by rewrite (Ha Hacc).
  - split; [intros _; by rewrite H2|]. intros Hacc _ Hlt.
    assert (zlen (queue p1) < MAX_BUF_PACKET_NUM) as Hlt1.
    { rewrite Eq, (Ha Hacc). unfold MAX_BUF_PACKET_NUM. done. }
    destruct (H3 Hacc ltac:(done) Hlt1) as [Hz Hd]. split; [done|].
    specialize (Heq Hok Hlt). rewrite taken_app, !data_app in *. simpl in *.
    by rewrite <-app_assoc, Hd, app_assoc, Heq, <-app_assoc.
Qed.

(** ** Theorems *)

(** A processor with a session returns from every sequence of packets.
    What the session took, followed by what is kept back, is in the order of
    the input and contains nothing else; at most 100 packets are kept; and the
    message blocks duplicated are, in order, the ones given back and the ones
    still kept. *)
Theorem direct_order `{!MediaEnvLaws W B D Sess} bs p w s :
  m_pSendSession p = Some s -> queue p = [] ->
  exists p' w' o, send_blocks bs (p, w) = Some (tt, (p', w'), o) /\
    data (taken o ++ queue p') `sublist_of` data bs /\
    zlen (queue p') <= MAX_BUF_PACKET_NUM /\ made o = freed o ++ queue p'.
Proof.
  intros Hs Hq. destruct (awp_send_blocks bs p s Hs) with (w := w) as ([] & p' & w' & o & E & H1 & H2 & H3).
  { by rewrite Hq. }
  exists p', w', o. rewrite Hq in *. done.
Qed.

(** As long as blocks can be duplicated no packet of the first 100 is
    lost: what the session took and what is kept back is the input. *)
Theorem direct_lossless `{!MediaEnvLaws W B D Sess} bs p w s : dup_ok ->
  m_pSendSession p = Some s -> queue p = [] -> zlen bs <= MAX_BUF_PACKET_NUM ->
  exists p' w' o, send_blocks bs (p, w) = Some (tt, (p', w'), o) /\
    data (taken o ++ queue p') = data bs.
Proof.
  intros Hok Hs Hq Hl. destruct (awp_lossless bs p s Hok Hs) with (w := w) as ([] & p' & w' & o & E & H).
  { by rewrite Hq. }
  exists p', w', o. by rewrite Hq in H.
Qed.

(** Once a packet is kept back, [CPacketList::Send] reports a failure even
    when it sent everything, so every later packet is kept back too: the last
    packet of the stream is never sent, and on a session that takes everything
    each packet leaves exactly when the next one arrives. *)
Theorem backlog_never_drains `{!MediaEnvLaws W B D Sess} bs p w s : dup_ok ->
  m_pSendSession p = Some s -> queue p <> [] -> zlen (queue p) < MAX_BUF_PACKET_NUM -> bs <> [] ->
  exists p' w' o, send_blocks bs (p, w) = Some (tt, (p', w'), o) /\
    data_block <$> last (queue p') = data_block <$> last bs /\
    (accepts s -> zlen (queue p') = 1 /\ data (taken o ++ queue p') = data (queue p ++ bs)).
Proof.
  intros Hok Hs Hq Hl Hne.
  destruct (awp_backlog bs p s Hok Hs Hq) with (w := w) as ([] & p' & w' & o & E & _ & _ & H1 & H2); [lia|].
  exists p', w', o. auto.
Qed.
End Processor.

(** An environment: a session that follows a list of answers, and then takes
    everything; a header is the number of its data block and a serial number. *)
Definition demo_env : MediaEnv (list SVS_RET_CODE * Z) (Z * Z) Z Z :=
  {| time_now w := (1000, w);
     findSession id w := (Some id, w);
     releaseSession _ w := w;
     getStreamId s := s;
     sendMediaData _ _ w := match w.1 with r :: l => (r, (l, w.2)) | [] => (RET_OK, w) end;
     mb_duplicate b w := (Some (b.1, w.2), (w.1, w.2 + 1));
     mb_bytes b _ := [128; 224; 0; 1; 0; 0; 0; 0; 0; 0; 0; 0; b.1];
     mb_store _ _ w := w;
     freeMediaBlock _ w := w;
     data_block := fst |}.

Lemma demo_laws : @MediaEnvLaws _ _ _ _ demo_env.
Proof. constructor. intros b b' w w' E. by injection E as <- _. Qed.

Definition demo_processor : @CDirectProcessor (Z * Z) Z :=
  with_session 7 (Some 7) (CDirectProcessor_new 1000).

Lemma direct_order_witness : exists p' w' o,
  @send_blocks _ _ _ _ demo_env [(1, 0); (2, 0)] (demo_processor, ([RET_FAIL], 10)) = Some (tt, (p', w'), o) /\
  made o = freed o ++ queue p'.
Proof.
  destruct (@direct_order _ _ _ _ demo_env demo_laws [(1, 0); (2, 0)] demo_processor ([RET_FAIL], 10) 7)
    as (p' & w' & o & E & _ & _ & H); [done..|]. by exists p', w', o.
Defined.

Lemma direct_lossless_witness : exists p' w' o,
  @send_blocks _ _ _ _ demo_env [(1, 0); (2, 0)] (demo_processor, ([RET_FAIL], 10)) = Some (tt, (p', w'), o) /\
  fst <$> (taken o ++ queue p') = [1; 2].
Proof.
  destruct (@direct_lossless _ _ _ _ demo_env demo_laws [(1, 0); (2, 0)] demo_processor ([RET_FAIL], 10) 7)
    as (p' & w' & o & E & H); [|done..|].
  { intros b w. eexists _, _. done. }
  by exists p', w', o.
Defined.

Lemma backlog_never_drains_witness :
  let p := with_buf {| m_PacketList := [(1, 0)]; m_SessionId := 7 |} demo_processor in
  exists p' w' o, @send_blocks _ _ _ _ demo_env [(2, 0); (3, 0)] (p, ([], 10)) = Some (tt, (p', w'), o) /\
    queue p' = [(3, 11)] /\ taken o = [(1, 0); (2, 10)].
Proof.
  intros p.
  destruct (@backlog_never_drains _ _ _ _ demo_env demo_laws [(2, 0); (3, 0)] p ([], 10) 7)
    as (p' & w' & o & E & H); [|done..|].
  { intros b w. eexists _, _. done. }
  exists p', w', o. split; [done|]. vm_compute in E. by injection E as <- <- <-.
Defined.
