(* ===== verification/MediaExchange.v ===== *)
(** * The exchange of media data: [svs_adapter_media_exchange.cpp]

    [CStreamMediaExchange] runs a number of threads, each with a queue of message
    blocks and a table of processor sets by stream. The sessions of a stream are
    added and removed, and its data handed over, by blocks in the queue of the
    thread the number of the stream picks.

    A processor set is reached through the interface [ProcessorSet]; the two
    classes are two implementations, a set of the table is one of either. [A] is
    what a call finds outside (the clock, the sessions, the heap), and a step gets
    it as an argument, so that the outside may change in any way between two steps.
    A queue is first-in first-out (the contract [MediaDataQueue] proves); whether
    it takes a block, and whether an allocation succeeds, are answers. A set that
    was deleted while the table still points to it is [None]; its use is a fault. *)

From S2P Require Import Prelude DataStat MediaProcessor.
Open Scope Z_scope.

(** ** Processor sets *)

(** [set_kill]: a processor of the set is deleted from outside. *)
Class ProcessorSet (PS A P B E : Type) : Type := {
  set_new : PS;
  set_add : P -> PS -> SVS_RET_CODE * PS;
  set_del : A -> P -> PS -> option (SVS_RET_CODE * PS * list E);
  set_send : A -> B -> PS -> option (PS * list E);
  set_kill : P -> PS -> PS;
  set_destroy : A -> PS -> option (list E) }.

(** What a set promises: a processor it does not have yet can be added, and no
    call faults or hangs as long as every processor added is in order. The plain
    set keeps to it (behind [Plain]). [CStreamPsMediaProcessorSet] does not return
    from some frames ([ps_found_data_stuck]), so that it does so only while its
    frames are of a format it leaves. *)
Class ProcessorSetLaws (PS A P B E : Type) `{ProcessorSet PS A P B E}
    (proc_id : P -> Z) (proc_ok : P -> Prop) : Type := {
  set_ok : PS -> Prop;
  set_has : PS -> Z -> Prop;
  set_new_ok : set_ok set_new;
  set_new_has n : ~ set_has set_new n;
  set_add_ok p s : proc_ok p -> set_ok s -> ~ set_has s (proc_id p) ->
    exists s', set_add p s = (RET_OK, s') /\ set_ok s' /\
      forall n, set_has s' n -> n = proc_id p \/ set_has s n;
  set_del_ok a p s : set_ok s -> exists r s' o, set_del a p s = Some (r, s', o) /\ set_ok s' /\
    forall n, set_has s' n -> set_has s n;
  set_send_ok a b s : set_ok s -> exists s' o, set_send a b s = Some (s', o) /\ set_ok s' /\
    forall n, set_has s' n -> set_has s n;
  set_destroy_ok a s : set_ok s -> is_Some (set_destroy a s) }.

Section Exchange.
Context {PS1 PS2 A P B E : Type} `{!ProcessorSet PS1 A P B E, !ProcessorSet PS2 A P B E}.

(** ** Blocks of the queues *)

Inductive MEDIA_TRANS_TYPE : Set :=
| MEDIA_TRANS_TYPE_TCP | MEDIA_TRANS_TYPE_UDP | MEDIA_TRANS_TYPE_SVS | MEDIA_TRANS_TYPE_RTP
| MEDIA_TRANS_TYPE_PS | MEDIA_TRANS_TYPE_HLS | MEDIA_TRANS_TYPE_RTMP | MEDIA_TRANS_TYPE_MAX.

Inductive STREAM_PACKET : Type :=
| STREAM_PACKET_TYPE_MEDIA_DATA (b : B)
| STREAM_PACKET_TYPE_ADD_SESSION (p : P) (unRecvTranType unSendTranType : MEDIA_TRANS_TYPE)
| STREAM_PACKET_TYPE_DEL_SESSION (p : P)
| STREAM_PACKET_TYPE_UNSUPPORTED (b : B).

(** [STREAM_TRANSMIT_PACKET]: the stream and what follows its head. *)
Record packet : Type := { PuStreamId : Z; content : STREAM_PACKET }.

Inductive event : Type :=
| FromSet (id : Z) (e : E)      (* a call of a set of the stream *)
| FreeBlock (id : Z) (b : B)    (* freeMediaBlock *)
| ReleaseBlock (id : Z)         (* release of a block of this class *)
| DeleteProcessor (id : Z) (p : P).

(** ** The exchange *)

Abbreviation PS := (PS1 + PS2)%type.

(** An entry of the table of a thread: the set, or the pointer to a deleted one. *)
Abbreviation MediaExchangeMap := (gmap Z (option PS)).

(** An entry of the array of queues; [init] of a queue may fail. *)
Inductive queue_ptr : Type :=
| NoQueue
| NoInit
| Queue (l : list packet).

Record CStreamMediaExchange : Type := {
  m_ulThreadIdx : Z;
  m_ulThreadNum : Z;
  m_bRunning : bool;
  m_pDataExchangeQueue : option (list queue_ptr);
  m_pMediaExchangeMap : option (list (option MediaExchangeMap)) }.

Definition CStreamMediaExchange_new : CStreamMediaExchange :=
  {| m_ulThreadIdx := 0; m_ulThreadNum := 0; m_bRunning := false;
     m_pDataExchangeQueue := None; m_pMediaExchangeMap := None |}.

Definition with_arrays (q : option (list queue_ptr)) (m : option (list (option MediaExchangeMap)))
    (x : CStreamMediaExchange) : CStreamMediaExchange :=
  {| m_ulThreadIdx := m_ulThreadIdx x; m_ulThreadNum := m_ulThreadNum x; m_bRunning := m_bRunning x;
     m_pDataExchangeQueue := q; m_pMediaExchangeMap := m |}.

(** The answers of [new], three times, and of [activate]. *)
Definition Init (a1 a2 a3 a4 : bool) (ulThreadNum : Z) (x : CStreamMediaExchange)
    : SVS_RET_CODE * CStreamMediaExchange :=
  if ulThreadNum =? 0 then (RET_ERR_PARAM, x)
  else if negb a1 then (RET_ERR_SYS_NEW, x)
  else
    let x := with_arrays (Some (replicate (Z.to_nat ulThreadNum) NoQueue)) (m_pMediaExchangeMap x) x in
    if negb a2 then (RET_ERR_SYS_NEW, x)
    else
      let x := with_arrays (m_pDataExchangeQueue x) (Some (replicate (Z.to_nat ulThreadNum) None)) x in
      if negb a3 then (RET_ERR_SYS_NEW, x)
      else
        let x := {| m_ulThreadIdx := m_ulThreadIdx x; m_ulThreadNum := ulThreadNum; m_bRunning := true;
                    m_pDataExchangeQueue := m_pDataExchangeQueue x;
                    m_pMediaExchangeMap := m_pMediaExchangeMap x |} in
        (if a4 then RET_OK else RET_FAIL, x).

(** [None]: the thread number is zero. *)
Definition GenProcessThreadIdx (id : Z) (x : CStreamMediaExchange) : option Z :=
  if m_ulThreadIdx x =? 0 then None else Some (id mod m_ulThreadIdx x).

Definition queue_at (t : Z) (x : CStreamMediaExchange) : option queue_ptr :=
  l ← m_pDataExchangeQueue x; l !! Z.to_nat t.
Definition set_queue (t : Z) (q : queue_ptr) (x : CStreamMediaExchange) : CStreamMediaExchange :=
  with_arrays ((fun l => <[Z.to_nat t := q]> l) <$> m_pDataExchangeQueue x) (m_pMediaExchangeMap x) x.
Definition map_at (t : Z) (x : CStreamMediaExchange) : option (option MediaExchangeMap) :=
  l ← m_pMediaExchangeMap x; l !! Z.to_nat t.
Definition set_map (t : Z) (m : option MediaExchangeMap) (x : CStreamMediaExchange) : CStreamMediaExchange :=
  with_arrays (m_pDataExchangeQueue x) ((fun l => <[Z.to_nat t := m]> l) <$> m_pMediaExchangeMap x) x.

(** [ok]: the queue takes the block. The outer [None] is an access outside the
    array. *)
Definition EnqueuePacket (ok : bool) (t : Z) (m : packet) (x : CStreamMediaExchange)
    : option (SVS_RET_CODE * CStreamMediaExchange) :=
  match m_pDataExchangeQueue x with
  | None => Some (RET_ERR_SYS, x)
  | Some _ =>
    q ← queue_at t x;
    Some match q with
         | NoQueue => (RET_ERR_SYS, x)
         | NoInit => (RET_FAIL, x)
         | Queue l => if ok then (RET_OK, set_queue t (Queue (l ++ [m])) x) else (RET_FAIL, x)
         end
  end.

(** [addData], [addMediaProcessor] and [delMediaProcessor] of a packet; the two
    last allocate a block. *)
Definition enqueue (ok : bool) (m : packet) (x : CStreamMediaExchange)
    : option (SVS_RET_CODE * CStreamMediaExchange) :=
  match GenProcessThreadIdx (PuStreamId m) x with
  | None => Some (RET_FAIL, x)
  | Some t =>
    '(r, x) ← EnqueuePacket ok t m x;
    Some (if decide (r = RET_OK) then RET_OK else RET_FAIL, x)
  end.

Definition addData (ok : bool) (id : Z) (b : B) := enqueue ok {| PuStreamId := id; content := STREAM_PACKET_TYPE_MEDIA_DATA b |}.

Definition addMediaProcessor (alloc ok : bool) (id : Z) (p : P) (recv send : MEDIA_TRANS_TYPE)
    (x : CStreamMediaExchange) : option (SVS_RET_CODE * CStreamMediaExchange) :=
  match GenProcessThreadIdx id x with
  | None => Some (RET_FAIL, x)
  | Some _ =>
    if negb alloc then Some (RET_ERR_SYS_NEW, x)
    else enqueue ok {| PuStreamId := id; content := STREAM_PACKET_TYPE_ADD_SESSION p recv send |} x
  end.

Definition delMediaProcessor (alloc ok : bool) (id : Z) (p : P)
    (x : CStreamMediaExchange) : option (SVS_RET_CODE * CStreamMediaExchange) :=
  match GenProcessThreadIdx id x with
  | None => Some (RET_FAIL, x)
  | Some _ =>
    if negb alloc then Some (RET_ERR_SYS_NEW, x)
    else enqueue ok {| PuStreamId := id; content := STREAM_PACKET_TYPE_DEL_SESSION p |} x
  end.

(** ** The threads *)

(** The virtual calls. *)
Definition ps_new (ps : bool) : PS := if ps then inr set_new else inl set_new.
Definition ps_add (p : P) (s : PS) : SVS_RET_CODE * PS :=
  match s with
  | inl s => let '(r, s) := set_add p s in (r, inl s)
  | inr s => let '(r, s) := set_add p s in (r, inr s)
  end.
Definition ps_del (a : A) (p : P) (s : PS) : option (SVS_RET_CODE * PS * list E) :=
  match s with
  | inl s => '(r, s, o) ← set_del a p s; Some (r, inl s, o)
  | inr s => '(r, s, o) ← set_del a p s; Some (r, inr s, o)
  end.
Definition ps_send (a : A) (b : B) (s : PS) : option (PS * list E) :=
  match s with
  | inl s => '(s, o) ← set_send a b s; Some (inl s, o)
  | inr s => '(s, o) ← set_send a b s; Some (inr s, o)
  end.
Definition ps_kill (p : P) (s : PS) : PS :=
  match s with inl s => inl (set_kill p s) | inr s => inr (set_kill p s) end.
Definition ps_destroy (a : A) (s : PS) : option (list E) :=
  match s with inl s => set_destroy a s | inr s => set_destroy a s end.

(** The class of a new set. *)
Definition wants_ps (recv send : MEDIA_TRANS_TYPE) : bool :=
  match recv, send with MEDIA_TRANS_TYPE_PS, MEDIA_TRANS_TYPE_RTP => true | _, _ => false end.

(** The three handlers change only the entry of their stream: [e] is what
    [find] gives. [alloc]: the answer of [new]. *)
Definition ProcessMediaData (a : A) (id : Z) (b : B) (e : option (option PS))
    : option (option (option PS) * list event) :=
  match e with
  | None => Some (None, [])
  | Some None => None
  | Some (Some s) => 
    match ps_send a b s with Some (s, o) => Some (Some (Some s), FromSet id <$> o) | None => None end
  end.

Definition ProcessAddSession (alloc : bool) (a : A) (id : Z) (p : P) (recv send : MEDIA_TRANS_TYPE)
    (e : option (option PS)) : option (option (option PS) * list event) :=
  match e with
  | None =>
    if negb alloc then Some (None, [])
    else
      let '(r, s) := ps_add p (ps_new (wants_ps recv send)) in
      if decide (r = RET_OK) then Some (Some (Some s), [])
      else o ← ps_destroy a (ps_kill p s); Some (Some None, DeleteProcessor id p :: (FromSet id <$> o))
  | Some None => None
  | Some (Some s) =>
    let '(r, s) := ps_add p s in
    if decide (r = RET_OK) then Some (Some (Some s), [])
    else Some (Some (Some (ps_kill p s)), [DeleteProcessor id p])
  end.

Definition ProcessDelSession (a : A) (id : Z) (p : P) (e : option (option PS))
    : option (option (option PS) * list event) :=
  match e with
  | None => Some (None, [])
  | Some None => None
  | Some (Some s) =>
    '(r, s, o) ← ps_del a p s;
    if decide (r = RET_ERR_LIST_EMPTY)
    then o' ← ps_destroy a s; Some (None, FromSet id <$> o ++ o')
    else Some (Some (Some s), FromSet id <$> o)
  end.

(** The switch of the thread, for a block of a stream. *)
Definition handle (alloc : bool) (a : A) (m : packet) (e : option (option PS))
    : option (option (option PS) * list event) :=
  let id := PuStreamId m in
  match content m with
  | STREAM_PACKET_TYPE_MEDIA_DATA b => '(e, o) ← ProcessMediaData a id b e; Some (e, o ++ [FreeBlock id b])
  | STREAM_PACKET_TYPE_ADD_SESSION p recv send =>
    '(e, o) ← ProcessAddSession alloc a id p recv send e; Some (e, o ++ [ReleaseBlock id])
  | STREAM_PACKET_TYPE_DEL_SESSION p => '(e, o) ← ProcessDelSession a id p e; Some (e, o ++ [ReleaseBlock id])
  | STREAM_PACKET_TYPE_UNSUPPORTED b => Some (e, [FreeBlock id b])
  end.

Definition set_entry (id : Z) (e : option (option PS)) (m : MediaExchangeMap) : MediaExchangeMap :=
  partial_alter (fun _ => e) id m.

(** A turn of the loop of [MediaExchangeThread]: a block is taken, then handled.
    [None]: a fault. *)
Definition thread_take (t : Z) (x : CStreamMediaExchange) : option (option packet * CStreamMediaExchange) :=
  match queue_at t x with
  | Some (Queue []) => Some (None, x)
  | Some (Queue (m :: l)) => Some (Some m, set_queue t (Queue l) x)
  | _ => None
  end.

Definition thread_handle (alloc : bool) (a : A) (t : Z) (m : packet) (x : CStreamMediaExchange)
    : option (CStreamMediaExchange * list event) :=
  match map_at t x with
  | Some (Some mm) =>
    '(e, o) ← handle alloc a m (mm !! PuStreamId m);
    Some (set_map t (Some (set_entry (PuStreamId m) e mm)) x, o)
  | _ => None
  end.

(** The beginning of the thread: the answers of [new] for the queue, of its
    [init] and of [new] for the table. The result says whether it enters the
    loop. *)
Definition thread_begin (a1 a2 a3 : bool) (t : Z) (x : CStreamMediaExchange) : bool * CStreamMediaExchange :=
  match m_pDataExchangeQueue x, m_pMediaExchangeMap x with
  | None, _ | _, None => (false, x)
  | _, _ =>
    if negb a1 then (false, x)
    else if negb a2 then (false, set_queue t NoInit x)
    else
      let x := set_queue t (Queue []) x in
      if negb a3 then (false, x) else (true, set_map t (Some ∅) x)
  end.

(** Behind the loop: the queue and the table are deleted. *)
Definition thread_end (t : Z) (x : CStreamMediaExchange) : CStreamMediaExchange :=
  set_map t None (set_queue t NoQueue x).

Definition getThreadIndex (x : CStreamMediaExchange) : Z * CStreamMediaExchange :=
  (m_ulThreadIdx x,
   {| m_ulThreadIdx := u32 (m_ulThreadIdx x + 1); m_ulThreadNum := m_ulThreadNum x;
      m_bRunning := m_bRunning x; m_pDataExchangeQueue := m_pDataExchangeQueue x;
      m_pMediaExchangeMap := m_pMediaExchangeMap x |}).

Definition stop (x : CStreamMediaExchange) : CStreamMediaExchange :=
  {| m_ulThreadIdx := m_ulThreadIdx x; m_ulThreadNum := m_ulThreadNum x; m_bRunning := false;
     m_pDataExchangeQueue := m_pDataExchangeQueue x; m_pMediaExchangeMap := m_pMediaExchangeMap x |}.

(** [Destroy], behind the waiting for the threads. *)
Definition Destroy (x : CStreamMediaExchange) : CStreamMediaExchange := with_arrays None None (stop x).

(** ** The program *)

(** A thread of the task: not yet at [getThreadIndex], in front of the loop, in
    the loop with the block it handles, returned. *)
Inductive thread : Type :=
| T_ready
| T_begin (t : Z)
| T_loop (t : Z) (cur : option packet)
| T_done (t : Z).

Definition thread_idx (th : thread) : option Z :=
  match th with T_ready => None | T_begin t | T_loop t _ | T_done t => Some t end.

Record conf : Type := { exchange : CStreamMediaExchange; threads : list thread }.

Definition set_thread (i : nat) (th : thread) (x : CStreamMediaExchange) (c : conf) : conf :=
  {| exchange := x; threads := <[i := th]> (threads c) |}.

(** A step of a thread or of a caller, with the packet it put into a queue and
    the events it makes. *)
Inductive step (c : conf) : list packet -> list event -> conf -> Prop :=
| step_index i t x :
    threads c !! i = Some T_ready -> getThreadIndex (exchange c) = (t, x) ->
    step c [] [] (set_thread i (T_begin t) x c)
| step_begin i t a1 a2 a3 ok x :
    threads c !! i = Some (T_begin t) -> thread_begin a1 a2 a3 t (exchange c) = (ok, x) ->
    step c [] [] (set_thread i (if ok then T_loop t None else T_done t) x c)
| step_enqueue ok m x :
    enqueue ok m (exchange c) = Some (RET_OK, x) ->
    step c [m] [] {| exchange := x; threads := threads c |}
| step_refused ok m r x :
    enqueue ok m (exchange c) = Some (r, x) -> r <> RET_OK ->
    step c [] [] {| exchange := x; threads := threads c |}
| step_take i t m x :
    threads c !! i = Some (T_loop t None) -> m_bRunning (exchange c) = true ->
    thread_take t (exchange c) = Some (m, x) ->
    step c [] [] (set_thread i (T_loop t m) x c)
| step_handle i t m alloc a x o :
    threads c !! i = Some (T_loop t (Some m)) -> thread_handle alloc a t m (exchange c) = Some (x, o) ->
    step c [] o (set_thread i (T_loop t None) x c)
| step_exit i t :
    threads c !! i = Some (T_loop t None) -> m_bRunning (exchange c) = false ->
    step c [] [] (set_thread i (T_done t) (thread_end t (exchange c)) c)
| step_stop :
    step c [] [] {| exchange := stop (exchange c); threads := threads c |}.

Inductive steps (c : conf) : list packet -> list event -> conf -> Prop :=
| steps_nil : steps c [] [] c
| steps_snoc acc o c1 acc' o' c2 :
    steps c acc o c1 -> step c1 acc' o' c2 -> steps c (acc ++ acc') (o ++ o') c2.

(** Every thread has started, and nothing has come yet. *)
Record started (n : Z) (c : conf) : Prop := {
  started_pos : 0 < n;
  started_idx : m_ulThreadIdx (exchange c) = n;
  started_threads : exists l, threads c = (fun t => T_loop t None) <$> l /\ l ≡ₚ seqZ 0 n;
  started_queues : m_pDataExchangeQueue (exchange c) = Some (replicate (Z.to_nat n) (Queue []));
  started_maps : m_pMediaExchangeMap (exchange c) = Some (replicate (Z.to_nat n) (Some ∅)) }.

(** What the program means for one stream: its blocks one after the other. *)
Inductive stream_run : list packet -> option (option PS) -> list event -> Prop :=
| stream_run_nil : stream_run [] None []
| stream_run_snoc l e o alloc a m e' o' :
    stream_run l e o -> handle alloc a m e = Some (e', o') -> stream_run (l ++ [m]) e' (o ++ o').

Definition event_stream (e : event) : Z :=
  match e with FromSet id _ | FreeBlock id _ | ReleaseBlock id | DeleteProcessor id _ => id end.

Definition of_stream (id : Z) (l : list packet) : list packet := filter (fun m => PuStreamId m = id) l.
Definition events_of (id : Z) (o : list event) : list event := filter (fun e => event_stream e = id) o.

Definition current (cur : option packet) : list packet := match cur with Some m => [m] | None => [] end.

(** The turns of one thread, with what its allocations and calls find outside: it
    handles the block in hand, or looks at the flag and takes the next block.
    [None]: a call of a set that does not return, or the use of one that is gone. *)
Definition turn (ans : bool * A) (i : nat) (c : conf) : option (conf * list event) :=
  match threads c !! i with
  | Some (T_loop t (Some m)) =>
    '(x, o) ← thread_handle ans.1 ans.2 t m (exchange c); Some (set_thread i (T_loop t None) x c, o)
  | Some (T_loop t None) =>
    if m_bRunning (exchange c)
    then '(m, x) ← thread_take t (exchange c); Some (set_thread i (T_loop t m) x c, [])
    else Some (set_thread i (T_done t) (thread_end t (exchange c)) c, [])
  | _ => Some (c, [])
  end.

Fixpoint turns (ans : list (bool * A)) (i : nat) (c : conf) : option (conf * list event) :=
  match ans with
  | [] => Some (c, [])
  | a :: ans => '(c, o) ← turn a i c; '(c, o') ← turns ans i c; Some (c, o ++ o')
  end.

(** What keeps a thread from getting through a block: the set of the stream was
    deleted, or a call of it does not return. *)
Definition held_up (a : A) (m : packet) (e : option (option PS)) : Prop :=
  e = Some None \/
  (exists s b, content m = STREAM_PACKET_TYPE_MEDIA_DATA b /\ e = Some (Some s) /\ ps_send a b s = None) \/
  (exists s p, content m = STREAM_PACKET_TYPE_DEL_SESSION p /\ e = Some (Some s) /\
    (ps_del a p s = None \/ exists r s' o, ps_del a p s = Some (r, s', o) /\ ps_destroy a s' = None)) \/
  (exists p recv send, content m = STREAM_PACKET_TYPE_ADD_SESSION p recv send /\ e = None /\
    ps_destroy a (ps_kill p (ps_add p (ps_new (wants_ps recv send))).2) = None).

(** ** The arrays *)

Lemma queue_at_set t t' q x : 0 <= t -> 0 <= t' -> is_Some (queue_at t' x) ->
  queue_at t (set_queue t' q x) = if decide (t = t') then Some q else queue_at t x.
Proof.
  unfold queue_at, set_queue, with_arrays. intros Ht Ht' [y Hy]. cbn.
  destruct (m_pDataExchangeQueue x) as [l|]; [|done]. cbn in *.
  apply lookup_lt_Some in Hy. case_decide as Ht2.
  - subst. by apply list_lookup_insert_eq.
  - apply list_lookup_insert_ne. lia.
Qed.

Lemma map_at_set t t' m x : 0 <= t -> 0 <= t' -> is_Some (map_at t' x) ->
  map_at t (set_map t' m x) = if decide (t = t') then Some m else map_at t x.
Proof.
  unfold map_at, set_map, with_arrays. intros Ht Ht' [y Hy]. cbn.
  destruct (m_pMediaExchangeMap x) as [l|]; [|done]. cbn in *.
  apply lookup_lt_Some in Hy. case_decide as Ht2.
  - subst. by apply list_lookup_insert_eq.
  - apply list_lookup_insert_ne. lia.
Qed.

Lemma map_at_set_queue t t' q x : map_at t (set_queue t' q x) = map_at t x.
Proof. done. Qed.
Lemma queue_at_set_map t t' m x : queue_at t (set_map t' m x) = queue_at t x.
Proof. done. Qed.

#[local] Arguments queue_at : simpl never.
#[local] Arguments map_at : simpl never.
#[local] Arguments set_queue : simpl never.
#[local] Arguments set_map : simpl never.

(** ** One stream *)

Lemma of_stream_app id l k : of_stream id (l ++ k) = of_stream id l ++ of_stream id k.
Proof. apply filter_app. Qed.
Lemma events_of_app id l k : events_of id (l ++ k) = events_of id l ++ events_of id k.
Proof. apply filter_app. Qed.

Lemma of_stream_cons id m l :
  of_stream id (m :: l) = (if decide (PuStreamId m = id) then [m] else []) ++ of_stream id l.
Proof. unfold of_stream. rewrite filter_cons. by case_decide. Qed.

Lemma from_set_events id (o : list E) : Forall (fun v => event_stream v = id) (FromSet id <$> o).
Proof. induction o; by constructor. Qed.

(** A handler makes events of the stream of its block only. *)
Lemma handle_events alloc a m e e' o : handle alloc a m e = Some (e', o) ->
  Forall (fun v => event_stream v = PuStreamId m) o.
Proof.
  unfold handle, ProcessMediaData, ProcessAddSession, ProcessDelSession. intros Hh.
  repeat (case_match; simplify_option_eq; try discriminate);
    repeat first [apply Forall_app_2 | apply Forall_cons_2 | apply Forall_nil_2 | apply from_set_events]; done.
Qed.

Lemma events_of_handle id alloc a m e e' o : handle alloc a m e = Some (e', o) ->
  events_of id o = if decide (PuStreamId m = id) then o else [].
Proof.
  intros Hh%handle_events. unfold events_of. induction Hh as [|v o Hv _ IH]; [by case_decide|].
  rewrite filter_cons, IH, Hv. by case_decide.
Qed.

(** ** The program, stream by stream *)

Definition thread_ok (n : Z) (x : CStreamMediaExchange) (acc : list packet) (o : list event)
    (th : thread) : Prop :=
  match th with
  | T_ready | T_begin _ => False
  | T_loop t cur => exists l m,
      queue_at t x = Some (Queue l) /\ map_at t x = Some (Some m) /\
      Forall (fun k => PuStreamId k mod n = t) (current cur ++ l) /\
      forall id, id mod n = t -> exists done,
        of_stream id acc = done ++ of_stream id (current cur ++ l) /\
        stream_run done (m !! id) (events_of id o)
  | T_done t => forall id, id mod n = t -> exists done rest e,
      of_stream id acc = done ++ rest /\ stream_run done e (events_of id o)
  end.

Record inv (n : Z) (c : conf) (acc : list packet) (o : list event) : Prop := {
  inv_pos : 0 < n;
  inv_idx : m_ulThreadIdx (exchange c) = n;
  inv_threads : exists l, thread_idx <$> threads c = Some <$> l /\ l ≡ₚ seqZ 0 n;
  inv_ok : forall th, th ∈ threads c -> thread_ok n (exchange c) acc o th }.

Lemma inv_started n c : started n c -> inv n c [] [].
Proof.
  intros [Hn Hi (l & El & Hl) Hq Hm]. constructor; [done|done| |].
  - exists l. split; [|done]. rewrite El, <-list_fmap_compose. done.
  - intros th Hth. rewrite El in Hth. apply list_elem_of_fmap in Hth as (t & -> & Ht).
    rewrite Hl in Ht. apply elem_of_seqZ in Ht.
    exists [], ∅. unfold queue_at, map_at. rewrite Hq, Hm. cbn.
    rewrite !lookup_replicate_2 by lia. split_and!; [done..|].
    intros id _. exists []. rewrite lookup_empty. split; [done|constructor].
Qed.

(** The index of a thread is its own, and inside the arrays. *)
Lemma inv_index n c acc o i j t th th' : inv n c acc o ->
  threads c !! i = Some th -> thread_idx th = Some t ->
  threads c !! j = Some th' -> thread_idx th' = Some t -> i = j /\ 0 <= t < n.
Proof.
  intros [_ _ (l & El & Hl) _] Hi Ht Hj Ht'.
  assert (forall k u th, threads c !! k = Some th -> thread_idx th = Some u -> l !! k = Some u) as Hk.
  { intros k u th0 H1 H2. apply (f_equal (lookup k)) in El. rewrite !list_lookup_fmap, H1 in El. cbn in El.
    rewrite H2 in El. destruct (l !! k); [|done]. cbn in El. congruence. }
  assert (NoDup l) as Hd by (rewrite Hl; apply NoDup_seqZ).
  specialize (Hk i t th Hi Ht) as H1. specialize (Hk j t th' Hj Ht') as H2. split.
  - by apply (NoDup_lookup l i j t).
  - apply list_elem_of_lookup_2 in H1. rewrite Hl in H1. apply elem_of_seqZ in H1. lia.
Qed.

(** A step of thread [i], which leaves the entries of the others alone. *)
Lemma inv_thread n c acc o o' i t th th' x : inv n c acc o ->
  threads c !! i = Some th -> thread_idx th = Some t -> thread_idx th' = Some t ->
  m_ulThreadIdx x = m_ulThreadIdx (exchange c) ->
  (forall u, u <> t -> 0 <= u < n -> queue_at u x = queue_at u (exchange c) /\ map_at u x = map_at u (exchange c)) ->
  (forall id, id mod n <> t -> events_of id o' = []) ->
  thread_ok n x acc (o ++ o') th' ->
  inv n (set_thread i th' x c) acc (o ++ o').
Proof.
  intros Hinv Hi Ht Ht' Hx Hu Ho Hok. pose proof Hinv as [Hn Hidx (l & El & Hl) Hall].
  constructor; [done|cbn; congruence| |].
  - exists l. split; [|done]. cbn. rewrite list_fmap_insert, El. apply list_insert_id.
    apply (f_equal (lookup i)) in El. rewrite !list_lookup_fmap, Hi in El. cbn in El.
    rewrite list_lookup_fmap, <-El. cbn. congruence.
  - cbn. intros th2 Hth2. apply list_elem_of_lookup in Hth2 as [j Hj].
    destruct (decide (i = j)) as [<-|Hne].
    { rewrite list_lookup_insert_eq in Hj by (by eapply lookup_lt_Some). by injection Hj as <-. }
    rewrite list_lookup_insert_ne in Hj by done.
    specialize (Hall th2 ltac:(by eapply list_elem_of_lookup_2)).
    assert (forall u, thread_idx th2 = Some u -> u <> t /\ 0 <= u < n) as Hidx2.
    { intros u Hu2. destruct (inv_index _ _ _ _ j j u th2 th2 Hinv) as [_ Hr]; [done..|].
      split; [|done]. intros ->. destruct (inv_index _ _ _ _ i j t th th2 Hinv) as [E1 _]; done. }
    destruct th2 as [|u|u cur|u]; [done|done| |]; cbn in Hall |- *; destruct (Hidx2 u eq_refl) as [Hut Hur].
    + destruct Hall as (q & m & Hq & Hm & Hf & H). destruct (Hu u Hut Hur) as [-> ->].
      exists q, m. split_and!; [done|done|done|]. intros id Hid. destruct (H id Hid) as (d & H1 & H2).
      exists d. split; [done|]. rewrite events_of_app, Ho, app_nil_r by congruence. done.
    + intros id Hid. destruct (Hall id Hid) as (d & r & e & H1 & H2). exists d, r, e. split; [done|].
      rewrite events_of_app, Ho, app_nil_r by congruence. done.
Qed.

Lemma enqueue_ok ok m x x' n : m_ulThreadIdx x = n -> 0 < n -> enqueue ok m x = Some (RET_OK, x') ->
  exists l, queue_at (PuStreamId m mod n) x = Some (Queue l) /\
    x' = set_queue (PuStreamId m mod n) (Queue (l ++ [m])) x.
Proof.
  intros Hx Hn. unfold enqueue, GenProcessThreadIdx, EnqueuePacket. rewrite Hx.
  destruct (Z.eqb_spec n 0) as [|_]; [lia|]. intros H.
  destruct (m_pDataExchangeQueue x) as [qs|] eqn:Hqs; [|by simplify_option_eq].
  destruct (queue_at (PuStreamId m mod n) x) as [[| |l]|]; simplify_option_eq; try done.
  destruct ok; simplify_option_eq. by exists l.
Qed.

Lemma enqueue_refused ok m x r x' : enqueue ok m x = Some (r, x') -> r <> RET_OK -> x' = x.
Proof.
  unfold enqueue, EnqueuePacket. intros H Hr.
  destruct (GenProcessThreadIdx (PuStreamId m) x) as [t|]; [|by simplify_eq].
  destruct (m_pDataExchangeQueue x) as [qs|]; [|by simplify_option_eq].
  destruct (queue_at t x) as [[| |l]|]; [..|done]; try by simplify_option_eq.
  destruct ok; by simplify_option_eq.
Qed.

Lemma inv_enqueue n c acc o ok m x : inv n c acc o -> enqueue ok m (exchange c) = Some (RET_OK, x) ->
  inv n {| exchange := x; threads := threads c |} (acc ++ [m]) o.
Proof.
  intros Hinv H. pose proof Hinv as [Hn Hi Hl Hall].
  destruct (enqueue_ok _ _ _ _ n Hi Hn H) as (l & Hq & ->).
  set (t0 := PuStreamId m mod n) in *. assert (0 <= t0) by (apply Z.mod_pos_bound; lia).
  constructor; [done|done|done|]. intros th Hth. specialize (Hall th Hth). cbn in *.
  apply list_elem_of_lookup in Hth as [i Hth].
  destruct th as [|t|t cur|t]; [done|done| |].
  - destruct (inv_index _ _ _ _ i i t _ _ Hinv Hth eq_refl Hth eq_refl) as [_ Ht].
    destruct Hall as (q & mm & Hq' & Hmm & Hf & Hok). cbn.
    exists (if decide (t = t0) then q ++ [m] else q), mm. split_and!; [|done| |].
    + rewrite queue_at_set by (done || lia || by eexists). case_decide; subst; [congruence|done].
    + case_decide as Ht2; [|done]. rewrite app_assoc. apply Forall_app_2; [done|]. by constructor.
    + intros id Hid. destruct (Hok id Hid) as (d & H1 & H2). exists d. split; [|done].
      rewrite of_stream_app, H1, <-app_assoc. f_equal. case_decide as Ht2.
      * rewrite app_assoc. by rewrite (of_stream_app id (current cur ++ q)).
      * rewrite of_stream_cons, decide_False, app_nil_r; [done|]. intros <-. by subst t0.
  - intros id Hid. destruct (Hall id Hid) as (d & r & e & H1 & H2). exists d, (r ++ of_stream id [m]), e.
    split; [|done]. by rewrite of_stream_app, H1, app_assoc.
Qed.

Lemma inv_step n c acc o c' acc' o' : inv n c acc o -> step c acc' o' c' -> inv n c' (acc ++ acc') (o ++ o').
Proof.
  intros Hinv Hs. pose proof Hinv as [Hn Hidx Hl Hall].
  assert (forall i th, threads c !! i = Some th -> thread_ok n (exchange c) acc o th) as Hth.
  { intros i th Hi. by eapply Hall, list_elem_of_lookup_2. }
  destruct Hs as [i t x Hi _|i t ? ? ? ? x Hi _|ok m x He|ok m r x He Hr|i t m x Hi _ Ht|i t m alloc a x o' Hi Ht|i t Hi _|].
  - by apply Hth in Hi.
  - by apply Hth in Hi.
  - rewrite app_nil_r. by eapply inv_enqueue.
  - apply enqueue_refused in He as ->; [|done]. rewrite !app_nil_r. by destruct c.
  - destruct (inv_index _ _ _ _ i i t _ _ Hinv Hi eq_refl Hi eq_refl) as [_ Hr].
    destruct (Hth _ _ Hi) as (l & mm & Hq & Hmm & Hf & Hok). rewrite app_nil_r.
    unfold thread_take in Ht. rewrite Hq in Ht. destruct l as [|m0 l]; injection Ht as <- <-.
    + eapply inv_thread; [done..| |done|]; [by intros|]. rewrite app_nil_r. by exists [], mm.
    + eapply inv_thread; [done..| |done|].
      * intros u Hu Hur. rewrite queue_at_set, decide_False by (done || lia || by eexists). done.
      * exists l, mm. rewrite queue_at_set, decide_True by (done || lia || by eexists).
        rewrite app_nil_r. by split_and!.
  - destruct (inv_index _ _ _ _ i i t _ _ Hinv Hi eq_refl Hi eq_refl) as [_ Hr].
    destruct (Hth _ _ Hi) as (l & mm & Hq & Hmm & Hf & Hok). rewrite app_nil_r.
    unfold thread_handle in Ht. rewrite Hmm in Ht.
    destruct (handle alloc a m (mm !! PuStreamId m)) as [[e oh]|] eqn:Hh; [|done]. injection Ht as <- <-.
    apply Forall_cons in Hf as [Hmt Hf].
    eapply inv_thread; [done..| | |].
    + intros u Hu Hur. rewrite map_at_set, decide_False by (done || lia || by eexists). done.
    + intros id Hid. rewrite (events_of_handle _ _ _ _ _ _ _ Hh), decide_False; [done|]. by intros <-.
    + exists l, (set_entry (PuStreamId m) e mm).
      rewrite map_at_set, decide_True by (done || lia || by eexists). split_and!; [done..|].
      intros id Hid. destruct (Hok id Hid) as (d & H1 & H2). cbn [current app] in H1. rewrite of_stream_cons in H1.
      rewrite events_of_app, (events_of_handle _ _ _ _ _ _ _ Hh). unfold set_entry. case_decide as He.
      * exists (d ++ [m]). split; [by rewrite <-app_assoc|]. subst id. rewrite lookup_partial_alter_eq.
        by eapply stream_run_snoc.
      * exists d. split; [done|]. by rewrite lookup_partial_alter_ne, app_nil_r.
  - destruct (inv_index _ _ _ _ i i t _ _ Hinv Hi eq_refl Hi eq_refl) as [_ Hr].
    destruct (Hth _ _ Hi) as (l & mm & Hq & Hmm & Hf & Hok). rewrite app_nil_r. unfold thread_end.
    eapply inv_thread; [done..| |done|].
    + intros u Hu Hur. rewrite queue_at_set_map, queue_at_set, decide_False by (done || lia || by eexists).
      rewrite map_at_set, decide_False by (done || lia || rewrite map_at_set_queue; by eexists). done.
    + cbn. intros id Hid. destruct (Hok id Hid) as (d & H1 & H2). exists d, (of_stream id l), (mm !! id).
      by rewrite app_nil_r.
  - rewrite !app_nil_r. constructor; [done..|]. intros th Hin. specialize (Hall th Hin). by destruct th.
Qed.

Lemma inv_steps n c0 c acc o : started n c0 -> steps c0 acc o c -> inv n c acc o.
Proof.
  intros H0 H. induction H as [|acc o c1 acc' o' c2 _ IH Hs]; [by apply inv_started|]. by eapply inv_step.
Qed.

(** The thread of a stream. *)
Lemma inv_stream_thread n c acc o id : inv n c acc o -> exists i th,
  threads c !! i = Some th /\ thread_idx th = Some (id mod n) /\ thread_ok n (exchange c) acc o th.
Proof.
  intros [Hn _ (l & El & Hl) Hall].
  assert (id mod n ∈ l) as Ht. { rewrite Hl. apply elem_of_seqZ. apply Z.mod_pos_bound. lia. }
  apply list_elem_of_lookup in Ht as [i Hi]. apply (f_equal (lookup i)) in El.
  rewrite !list_lookup_fmap, Hi in El. destruct (threads c !! i) as [th|] eqn:Hth; [|done].
  exists i, th. split; [done|]. split; [by injection El|]. by eapply Hall, list_elem_of_lookup_2.
Qed.

(** ** A thread by itself *)

Lemma set_thread_lookup i th th' x c : threads c !! i = Some th ->
  threads (set_thread i th' x c) !! i = Some th'.
Proof. intros H. cbn. apply list_lookup_insert_eq. by eapply lookup_lt_Some. Qed.

Lemma steps_trans c a1 o1 c1 a2 o2 c2 : steps c a1 o1 c1 -> steps c1 a2 o2 c2 -> steps c (a1 ++ a2) (o1 ++ o2) c2.
Proof.
  intros H1 H. induction H as [|acc o c2 acc' o' c3 H IH Hs]; [by rewrite !app_nil_r|].
  rewrite !app_assoc. by eapply steps_snoc.
Qed.

Lemma steps_one c acc o c' : step c acc o c' -> steps c acc o c'.
Proof. intros H. apply (steps_snoc c [] [] c); [constructor|done]. Qed.

Lemma step_to c acc o c1 c2 : step c acc o c1 -> c1 = c2 -> step c acc o c2.
Proof. by intros H <-. Qed.

(** A thread returns only when the exchange has stopped. *)
Lemma running_loops n c0 c acc o i t : started n c0 -> steps c0 acc o c ->
  m_bRunning (exchange c) = true -> threads c !! i <> Some (T_done t).
Proof.
  intros H0 Hs. revert i t.
  induction Hs as [|acc o c1 acc' o' c2 Hs IH H]; intros i t Hrun Hi.
  - destruct H0 as [_ _ (l0 & El & _) _ _]. rewrite El in Hi. apply list_elem_of_lookup_2, list_elem_of_fmap in Hi as (? & ? & _). done.
  - pose proof (inv_steps _ _ _ _ _ H0 Hs) as Hinv1.
    assert (forall j th, threads c1 !! j = Some th -> match th with T_ready | T_begin _ => False | _ => True end) as Hno.
    { intros j th Hj. pose proof (inv_ok _ _ _ _ Hinv1 th (list_elem_of_lookup_2 _ _ _ Hj)). by destruct th. }
    assert (forall j th x, threads (set_thread j th x c1) !! i = Some (T_done t) ->
      th = T_done t \/ threads c1 !! i = Some (T_done t)) as Hset.
    { intros j th x [(_ & [= ->] & _)|[_ ?]]%list_lookup_insert_Some; auto. }
    destruct H as [j u x Hj _|j u ? ? ? ? x Hj _|ok m x He|ok m r x He Hr|j u m x Hj Hrj Ht|j u m alloc a x o1 Hj Ht|j u Hj Hrj|].
    + by apply Hno in Hj.
    + by apply Hno in Hj.
    + destruct (enqueue_ok _ _ _ _ n (inv_idx _ _ _ _ Hinv1) (inv_pos _ _ _ _ Hinv1) He) as (l & _ & ->).
      by apply (IH i t).
    + apply enqueue_refused in He as ->; [|done]. by apply (IH i t).
    + apply Hset in Hi as [Hi|Hi]; [done|]. by apply (IH i t).
    + apply Hset in Hi as [Hi|Hi]; [done|]. apply (IH i t); [|done].
      unfold thread_handle in Ht. cbn in Hrun.
      destruct (map_at u (exchange c1)) as [[mm|]|]; [|done..].
      destruct (handle alloc a m (mm !! PuStreamId m)) as [[e oh]|]; [|done]. by injection Ht as <- _.
    + cbn in Hrun. unfold thread_end in Hrun. change (m_bRunning (exchange c1) = true) in Hrun. congruence.
    + done.
Qed.

Lemma turn_step a i c c' o : turn a i c = Some (c', o) -> steps c [] o c'.
Proof.
  unfold turn. destruct (threads c !! i) as [th|] eqn:Hi; [|intros [= <- <-]; constructor].
  destruct th as [|t|t [m|]|t]; try (intros [= <- <-]; constructor).
  - destruct (thread_handle _ _ _ _ _) as [[x o1]|] eqn:Et1; [|done]. intros [= <- <-].
    apply steps_one. by eapply step_handle.
  - destruct (m_bRunning (exchange c)) eqn:Er.
    + destruct (thread_take _ _) as [[m x]|] eqn:Et1; [|done]. intros [= <- <-].
      apply steps_one. by eapply step_take.
    + intros [= <- <-]. apply steps_one. by eapply step_exit.
Qed.

Lemma handle_held_up alloc a m e : handle alloc a m e = None -> held_up a m e.
Proof.
  unfold handle, ProcessMediaData, ProcessAddSession, ProcessDelSession, held_up.
  destruct (content m) as [b|p recv send|p|b] eqn:Em; [| | |done]; destruct e as [[s|]|]; try by left.
  - destruct (ps_send a b s) as [[s' o]|] eqn:Et1; [done|]. right; left. by exists s, b.
  - destruct (ps_add p s). by case_decide.
  - destruct alloc; cbn [negb]; [|done]. destruct (ps_add p _) as [r s] eqn:Et1. case_decide; [done|].
    destruct (ps_destroy _ _) eqn:Ed; [done|]. right; right; right. exists p, recv, send. by rewrite Et1.
  - destruct (ps_del a p s) as [[[r s'] o]|] eqn:Et1; cbn [mbind option_bind].
    + case_decide; [|done]. destruct (ps_destroy a s') eqn:Ed; [done|]. right; right; left.
      exists s, p. split_and!; [done..|]. right. by exists r, s', o.
    + right; right; left. exists s, p. split_and!; [done..|]. by left.
Qed.

(** The state of a running thread between two of its turns. *)
Record at_work n c acc o i t cur l : Prop := {
  aw_inv : inv n c acc o; aw_thread : threads c !! i = Some (T_loop t cur);
  aw_running : m_bRunning (exchange c) = true; aw_queue : queue_at t (exchange c) = Some (Queue l) }.

Lemma take_at_work n c acc o i t m l a : at_work n c acc o i t None (m :: l) -> exists c',
  turn a i c = Some (c', []) /\ at_work n c' acc o i t (Some m) l.
Proof.
  intros [Hinv Hi Hrun Hq].
  assert (turn a i c = Some (set_thread i (T_loop t (Some m)) (set_queue t (Queue l) (exchange c)) c, [])) as Et.
  { unfold turn, thread_take. by rewrite Hi, Hrun, Hq. }
  destruct (inv_index _ _ _ _ i i t _ _ Hinv Hi eq_refl Hi eq_refl) as [_ Hr].
  eexists. split; [exact Et|]. split; [| |done|].
  - assert (step c [] [] (set_thread i (T_loop t (Some m)) (set_queue t (Queue l) (exchange c)) c)) as Hs.
    { eapply step_take; [done..|]. unfold thread_take. by rewrite Hq. }
    apply (inv_step _ _ _ _ _ _ _ Hinv) in Hs. by rewrite !app_nil_r in Hs.
  - by eapply set_thread_lookup.
  - cbn. by rewrite queue_at_set, decide_True by (done || lia || by eexists).
Qed.

Lemma handle_at_work n c acc o i t m l a : at_work n c acc o i t (Some m) l ->
  thread_handle a.1 a.2 t m (exchange c) = None \/
  exists c' o', turn a i c = Some (c', o') /\ at_work n c' acc (o ++ o') i t None l.
Proof.
  intros [Hinv Hi Hrun Hq]. destruct (thread_handle a.1 a.2 t m (exchange c)) as [[x o1]|] eqn:Et1; [right|by left].
  exists (set_thread i (T_loop t None) x c), o1. split; [unfold turn; by rewrite Hi, Et1|].
  assert (m_bRunning x = true /\ queue_at t x = Some (Queue l)) as [Hr' Hq'].
  { unfold thread_handle in Et1. destruct (map_at t (exchange c)) as [[mm|]|]; [|done..].
    destruct (handle a.1 a.2 m (mm !! PuStreamId m)) as [[e oh]|]; [|done]. injection Et1 as <- _.
    by rewrite queue_at_set_map. }
  split; [|by eapply set_thread_lookup|done|done].
  rewrite <-(app_nil_r acc). eapply inv_step; [done|]. by eapply step_handle.
Qed.

(** Its own turns take it through the block in hand and its queue, or up to a
    block that is not left. *)
Lemma turns_drain n i t acc : forall ans c o cur l, at_work n c acc o i t cur l ->
  length ans = (length (current cur) + 2 * length l)%nat ->
  (exists c' o', turns ans i c = Some (c', o') /\ at_work n c' acc (o ++ o') i t None []) \/
  (exists j a c' o' m l', ans !! j = Some a /\ turns (take j ans) i c = Some (c', o') /\
    at_work n c' acc (o ++ o') i t (Some m) l' /\ thread_handle a.1 a.2 t m (exchange c') = None).
Proof.
  assert (forall a ans c o c1 o1,
    turn a i c = Some (c1, o1) ->
    ((exists c' o', turns ans i c1 = Some (c', o') /\ at_work n c' acc ((o ++ o1) ++ o') i t None []) \/
     (exists j b c' o' m l', ans !! j = Some b /\ turns (take j ans) i c1 = Some (c', o') /\
       at_work n c' acc ((o ++ o1) ++ o') i t (Some m) l' /\ thread_handle b.1 b.2 t m (exchange c') = None)) ->
    (exists c' o', turns (a :: ans) i c = Some (c', o') /\ at_work n c' acc (o ++ o') i t None []) \/
    (exists j b c' o' m l', (a :: ans) !! j = Some b /\ turns (take j (a :: ans)) i c = Some (c', o') /\
      at_work n c' acc (o ++ o') i t (Some m) l' /\ thread_handle b.1 b.2 t m (exchange c') = None)) as Hnext.
  { intros a ans c o c1 o1 Et1 [(c' & o' & Et1' & Hw)|(j & b & c' & o' & m & l' & Hj & Et1' & Hw & Hn)].
    - left. exists c', (o1 ++ o'). cbn [turns]. rewrite Et1. cbn [mbind option_bind]. rewrite Et1'.
      split; [done|]. by rewrite app_assoc.
    - right. exists (S j), b, c', (o1 ++ o'), m, l'. cbn [turns take]. rewrite Et1. cbn [mbind option_bind]. rewrite Et1'.
      split_and!; [done|done| |done]. by rewrite app_assoc. }
  induction ans as [|a ans IH]; intros c o cur l Hw Hlen.
  - destruct cur, l; try discriminate. left. exists c, []. split; [done|]. by rewrite app_nil_r.
  - destruct cur as [m|].
    + destruct (handle_at_work _ _ _ _ _ _ _ _ a Hw) as [Hn|(c1 & o1 & Et1 & Hw1)].
      * right. exists 0%nat, a, c, [], m, l. rewrite app_nil_r. by split_and!.
      * apply (Hnext _ _ _ _ _ _ Et1), (IH _ _ _ _ Hw1).
        cbn [length current] in Hlen |- *. lia.
    + destruct l as [|m l]; [discriminate|]. destruct (take_at_work _ _ _ _ _ _ _ _ a Hw) as (c1 & Et1 & Hw1).
      apply (Hnext _ _ _ _ _ _ Et1).
      rewrite app_nil_r. apply (IH _ _ _ _ Hw1). cbn [length current] in Hlen |- *. lia.
Qed.

Lemma turns_steps ans i : forall c c' o, turns ans i c = Some (c', o) -> steps c [] o c'.
Proof.
  induction ans as [|a ans IH]; intros c c' o; cbn [turns]; [intros [= <- <-]; constructor|].
  destruct (turn a i c) as [[c1 o1]|] eqn:E1; [|done]. cbn [mbind option_bind].
  destruct (turns ans i c1) as [[c2 o2]|] eqn:E2; [|done]. intros [= <- <-].
  apply (steps_trans c [] o1 c1 [] o2 c2); [by eapply turn_step|by apply IH].
Qed.

(** ** Nothing faults *)

Section Safe.
Context (proc_id : P -> Z) (proc_ok : P -> Prop).
Context `{!ProcessorSetLaws PS1 A P B E proc_id proc_ok, !ProcessorSetLaws PS2 A P B E proc_id proc_ok}.

(** The processors a run of blocks adds. *)
Definition added (l : list packet) : list P :=
  omap (fun m => match content m with STREAM_PACKET_TYPE_ADD_SESSION p _ _ => Some p | _ => None end) l.

(** Every processor is in order, and is added once. *)
Definition good (l : list packet) : Prop := Forall proc_ok (added l) /\ NoDup (proc_id <$> added l).

Definition ps_ok (s : PS) : Prop := match s with inl s => set_ok s | inr s => set_ok s end.
Definition ps_has (s : PS) (n : Z) : Prop := match s with inl s => set_has s n | inr s => set_has s n end.

Definition entry_ok (ids : list Z) (e : option (option PS)) : Prop :=
  match e with
  | None => True
  | Some None => False
  | Some (Some s) => ps_ok s /\ forall n, ps_has s n -> n ∈ ids
  end.

Lemma ps_new_ok ps : ps_ok (ps_new ps) /\ forall n, ~ ps_has (ps_new ps) n.
Proof. destruct ps; (split; [apply set_new_ok|apply set_new_has]). Qed.

Lemma ps_add_ok p s : proc_ok p -> ps_ok s -> ~ ps_has s (proc_id p) ->
  exists s', ps_add p s = (RET_OK, s') /\ ps_ok s' /\ forall n, ps_has s' n -> n = proc_id p \/ ps_has s n.
Proof.
  destruct s as [s|s]; cbn; intros Hp Hs Hn; destruct (set_add_ok p s Hp Hs Hn) as (s' & -> & H1 & H2);
    by eexists.
Qed.

Lemma ps_del_ok a p s : ps_ok s -> exists r s' o, ps_del a p s = Some (r, s', o) /\ ps_ok s' /\
  forall n, ps_has s' n -> ps_has s n.
Proof.
  destruct s as [s|s]; cbn; intros Hs; destruct (set_del_ok a p s Hs) as (r & s' & o & -> & H1 & H2);
    by eexists _, _, _.
Qed.

Lemma ps_send_ok a b s : ps_ok s -> exists s' o, ps_send a b s = Some (s', o) /\ ps_ok s' /\
  forall n, ps_has s' n -> ps_has s n.
Proof.
  destruct s as [s|s]; cbn; intros Hs; destruct (set_send_ok a b s Hs) as (s' & o & -> & H1 & H2);
    by eexists _, _.
Qed.

Lemma ps_destroy_ok a s : ps_ok s -> is_Some (ps_destroy a s).
Proof. destruct s; cbn; apply set_destroy_ok. Qed.

Lemma added_app l k : added (l ++ k) = added l ++ added k.
Proof. apply omap_app. Qed.

Lemma handle_ok alloc a m e l : good (l ++ [m]) -> entry_ok (proc_id <$> added l) e ->
  exists e' o, handle alloc a m e = Some (e', o) /\ entry_ok (proc_id <$> added (l ++ [m])) e'.
Proof.
  intros [Hok Hnd] He. rewrite added_app in *.
  rewrite fmap_app in *. apply NoDup_app in Hnd as (_ & Hnd & _). apply Forall_app in Hok as [_ Hok].
  unfold handle, ProcessMediaData, ProcessAddSession, ProcessDelSession.
  unfold added in *. simpl in *. destruct (content m) as [b|p recv send|p|b]; simpl in *.
  - rewrite app_nil_r in *. destruct e as [[s|]|]; [|done|by eexists _, _]. destruct He as [Hs Hh].
    destruct (ps_send_ok a b s Hs) as (s' & o & -> & Hs' & Hh'). eexists _, _. split; [done|]. split; eauto.
  - apply Forall_cons in Hok as [Hp _].
    assert (forall s, ps_ok s -> (forall n, ps_has s n -> n ∈ proc_id <$> added l) ->
      exists s', ps_add p s = (RET_OK, s') /\ entry_ok ((proc_id <$> added l) ++ [proc_id p]) (Some (Some s'))) as Hadd.
    { intros s Hs Hh. destruct (ps_add_ok p s Hp Hs) as (s' & -> & Hs' & Hh').
      - intros Hn. apply Hh in Hn. by eapply Hnd; [|constructor].
      - exists s'. split; [done|]. split; [done|]. intros n [->|Hn]%Hh'; apply elem_of_app; [right|left; auto].
        by constructor. }
    destruct e as [[s|]|]; [|done|].
    + destruct He as [Hs Hh]. destruct (Hadd s Hs Hh) as (s' & -> & He'). rewrite decide_True by done.
      by eexists _, _.
    + destruct alloc; simpl; [|by eexists _, _].
      destruct (ps_new_ok (wants_ps recv send)) as [Hs Hh].
      destruct (Hadd _ Hs) as (s' & -> & He'); [by intros n Hn%Hh|].
      rewrite decide_True by done. by eexists _, _.
  - rewrite app_nil_r in *. destruct e as [[s|]|]; [|done|by eexists _, _]. destruct He as [Hs Hh].
    destruct (ps_del_ok a p s Hs) as (r & s' & o & -> & Hs' & Hh'). simpl. case_decide.
    + destruct (ps_destroy_ok a s' Hs') as [o' ->]. by eexists _, _.
    + eexists _, _. split; [done|]. split; eauto.
  - rewrite app_nil_r. by eexists _, _.
Qed.

Lemma good_prefix l k : good (l ++ k) -> good l.
Proof.
  unfold good. rewrite added_app, fmap_app, Forall_app, NoDup_app. tauto.
Qed.

Lemma stream_run_ok l e o : stream_run l e o -> good l -> entry_ok (proc_id <$> added l) e.
Proof.
  induction 1 as [|l e o alloc a m e' o' _ IH H]; intros Hg; [done|].
  destruct (handle_ok alloc a m e l Hg (IH (good_prefix _ _ Hg))) as (e2 & o2 & E2 & Hok). congruence.
Qed.

(** A thread in the loop does not fault on the block it has, nor on its queue. *)
Lemma loop_ok n c acc o i t cur : inv n c acc o -> (forall id, good (of_stream id acc)) ->
  threads c !! i = Some (T_loop t cur) ->
  is_Some (thread_take t (exchange c)) /\
  forall m alloc a, cur = Some m -> exists x o', thread_handle alloc a t m (exchange c) = Some (x, o') /\
    queue_at t x = queue_at t (exchange c) /\ m_bRunning x = m_bRunning (exchange c).
Proof.
  intros Hinv Hg Hi.
  destruct (inv_ok _ _ _ _ Hinv (T_loop t cur)) as (l & mm & Hq & Hm & Hf & Hok); [by eapply list_elem_of_lookup_2|].
  unfold thread_take, thread_handle. rewrite Hq, Hm. split; [by destruct l; eexists|]. intros m alloc a ->.
  apply Forall_cons in Hf as [Hf _]. destruct (Hok (PuStreamId m) Hf) as (d & Hd & Hr).
  cbn [current app] in Hd. rewrite of_stream_cons, decide_True, app_assoc in Hd by done.
  specialize (Hg (PuStreamId m)). rewrite Hd in Hg. apply good_prefix in Hg.
  destruct (handle_ok alloc a m _ d Hg (stream_run_ok _ _ _ Hr (good_prefix _ _ Hg))) as (e & o' & -> & _).
  eexists _, _. split; [done|]. by rewrite queue_at_set_map.
Qed.

(** C17: with every processor in order and added to its stream once, no thread
    ever faults, whatever the interleaving: not on its queue, nor on a block. *)
Theorem exchange_no_fault n c0 c acc o i t cur : started n c0 -> steps c0 acc o c ->
  (forall id, good (of_stream id acc)) -> threads c !! i = Some (T_loop t cur) ->
  is_Some (thread_take t (exchange c)) /\
  forall m alloc a, cur = Some m -> is_Some (thread_handle alloc a t m (exchange c)).
Proof.
  intros H0 Hs Hg Hi. pose proof (inv_steps _ _ _ _ _ H0 Hs) as Hinv.
  destruct (loop_ok _ _ _ _ _ _ _ Hinv Hg Hi) as [H1 H2]. split; [done|].
  intros m alloc a Hm. destruct (H2 m alloc a Hm) as (x & o' & -> & _). by eexists.
Qed.

End Safe.

(** C34: while the exchange runs, the thread of a stream gets through its queue by
    turns of its own, as many as the queue says and whatever these turns find
    outside: either all the accepted blocks of the stream are then handled, and what
    was done for it is their run, or a turn found a block (of this stream or of
    another one of the thread) whose set was deleted or does not return from a
    call, as [ps_found_data_stuck] shows of [CStreamPsMediaProcessorSet]. With sets
    that keep to [ProcessorSetLaws], and processors in order that are added once, only
    the first happens. *)
Theorem exchange_progress n c0 c acc o id : started n c0 -> steps c0 acc o c -> m_bRunning (exchange c) = true ->
  exists i k, forall ans : list (bool * A), length ans = k ->
    let handled := exists c' o' e, turns ans i c = Some (c', o') /\ steps c [] o' c' /\
      stream_run (of_stream id acc) e (events_of id (o ++ o')) in
    (handled \/
     exists j a c' o' m mm, ans !! j = Some a /\ turns (take j ans) i c = Some (c', o') /\ steps c [] o' c' /\
       threads c' !! i = Some (T_loop (id mod n) (Some m)) /\
       map_at (id mod n) (exchange c') = Some (Some mm) /\ held_up a.2 m (mm !! PuStreamId m)) /\
    (forall proc_id proc_ok, ProcessorSetLaws PS1 A P B E proc_id proc_ok ->
      ProcessorSetLaws PS2 A P B E proc_id proc_ok ->
      (forall id, good proc_id proc_ok (of_stream id acc)) -> handled).
Proof.
  intros H0 Hs Hrun. pose proof (inv_steps _ _ _ _ _ H0 Hs) as Hinv.
  destruct (inv_stream_thread _ _ _ _ id Hinv) as (i & th & Hi & Ht & Hok).
  destruct th as [|t|t cur|t]; [done|done| |by apply (running_loops _ _ _ _ _ i t H0 Hs Hrun) in Hi].
  injection Ht as ->. destruct Hok as (l & mm & Hq & _).
  exists i, (length (current cur) + 2 * length l)%nat. intros ans Hlen handled.
  assert (forall c' o', turns ans i c = Some (c', o') -> at_work n c' acc (o ++ o') i (id mod n) None [] -> handled) as Hdone.
  { intros c' o' Et1 [Hinv' Hi' _ Hq'].
    destruct (inv_ok _ _ _ _ Hinv' (T_loop (id mod n) None)) as (l' & mm' & Hq2 & _ & _ & Hok);
      [by eapply list_elem_of_lookup_2|].
    rewrite Hq' in Hq2. injection Hq2 as <-. destruct (Hok id eq_refl) as (d & H1 & H2).
    cbn in H1. rewrite app_nil_r in H1. subst d. exists c', o', (mm' !! id). split; [done|].
    split; [by eapply turns_steps|done]. }
  destruct (turns_drain n i (id mod n) acc ans c o cur l ltac:(by split) Hlen)
    as [(c' & o' & Et1 & Hw)|(j & a & c' & o' & m & l' & Hj & Et1 & [Hinv' Hi' _ _] & Hn)].
  { split; [left|intros _ _ _ _ _]; by eapply Hdone. }
  split.
  - right. destruct (inv_ok _ _ _ _ Hinv' (T_loop (id mod n) (Some m))) as (? & mm' & _ & Hmm & _);
      [by eapply list_elem_of_lookup_2|].
    exists j, a, c', o', m, mm'. split_and!; [done|done|by eapply turns_steps|done|done|].
    unfold thread_handle in Hn. rewrite Hmm in Hn. apply (handle_held_up a.1).
    by destruct (handle a.1 a.2 m (mm' !! PuStreamId m)) as [[??]|].
  - intros proc_id proc_ok L1 L2 Hg. exfalso.
    destruct (loop_ok proc_id proc_ok _ _ _ _ _ _ _ Hinv' Hg Hi') as [_ Hh].
    destruct (Hh m a.1 a.2 eq_refl) as (x & o1 & E1 & _). congruence.
Qed.

(** C8: whatever the interleaving of callers and threads, what was done for a
    stream is the run, alone and in order, of the first of its accepted blocks; the
    others are, in order, in the queue of its thread (with the block in hand), and
    the entry of the table is the one that run leaves. *)
Theorem stream_order n c0 c acc o id : started n c0 -> steps c0 acc o c ->
  exists i th done, threads c !! i = Some th /\ thread_idx th = Some (id mod n) /\
    match th with
    | T_loop t cur => exists l m,
        queue_at t (exchange c) = Some (Queue l) /\ map_at t (exchange c) = Some (Some m) /\
        of_stream id acc = done ++ of_stream id (current cur ++ l) /\
        stream_run done (m !! id) (events_of id o)
    | _ => exists rest e, of_stream id acc = done ++ rest /\ stream_run done e (events_of id o)
    end.
Proof.
  intros H0 Hs. pose proof (inv_steps _ _ _ _ _ H0 Hs) as Hinv.
  destruct (inv_stream_thread _ _ _ _ id Hinv) as (i & th & Hi & Ht & Hok).
  destruct th as [|t|t cur|t]; [done|done| |]; injection Ht as Ht.
  - subst t. destruct Hok as (l & m & Hq & Hm & _ & Hok). destruct (Hok id eq_refl) as (d & H1 & H2).
    exists i, (T_loop (id mod n) cur), d. split_and!; [done..|]. by exists l, m.
  - subst t. destruct (Hok id eq_refl) as (d & rest & e & H1 & H2). exists i, (T_done (id mod n)), d.
    split_and!; [done..|]. by exists rest, e.
Qed.

(** ** The start *)

Definition boot (x : CStreamMediaExchange) : conf :=
  {| exchange := x; threads := replicate (Z.to_nat (m_ulThreadNum x)) T_ready |}.

(** The exchange when [k] of the threads are in their loop. *)
Definition booted (n k : nat) : conf :=
  {| exchange := {| m_ulThreadIdx := Z.of_nat k; m_ulThreadNum := Z.of_nat n; m_bRunning := true;
       m_pDataExchangeQueue := Some (replicate k (Queue []) ++ replicate (n - k) NoQueue);
       m_pMediaExchangeMap := Some (replicate k (Some ∅) ++ replicate (n - k) None) |};
     threads := ((fun t => T_loop t None) <$> seqZ 0 (Z.of_nat k)) ++ replicate (n - k) T_ready |}.

Lemma Init_boot n : 0 < n -> 
  let '(r, x) := Init true true true true n CStreamMediaExchange_new in
  r = RET_OK /\ boot x = booted (Z.to_nat n) 0.
Proof.
  intros Hn. unfold Init. destruct (Z.eqb_spec n 0) as [|_]; [lia|]. cbn. split; [done|].
  unfold boot, booted, with_arrays. cbn. rewrite Nat.sub_0_r, Z2Nat.id by lia. done.
Qed.

Lemma insert_replicate_next {T} (u v : T) k n : (k < n)%nat ->
  <[k := v]> (replicate k v ++ replicate (n - k) u) = replicate (S k) v ++ replicate (n - S k) u.
Proof.
  intros Hk. replace (n - k)%nat with (S (n - S k)) by lia.
  rewrite (replicate_S_end k v), <-app_assoc. cbn. rewrite insert_app_r_alt by (rewrite length_replicate; lia).
  rewrite length_replicate, Nat.sub_diag. done.
Qed.

Lemma booted_next n k : (k < n)%nat -> Z.of_nat n < 2 ^ 32 ->
  exists c, step (booted n k) [] [] c /\ step c [] [] (booted n (S k)).
Proof.
  intros Hk Hn. set (x0 := exchange (booted n k)). set (x1 := (getThreadIndex x0).2).
  assert (threads (booted n k) !! k = Some T_ready) as Hr.
  { cbn. rewrite lookup_app_r; rewrite length_fmap, length_seqZ; [|lia].
    rewrite lookup_replicate_2; [done|lia]. }
  exists (set_thread k (T_begin (Z.of_nat k)) x1 (booted n k)). split; [by eapply step_index|].
  replace (booted n (S k)) with
    (set_thread k (if true then T_loop (Z.of_nat k) None else T_done (Z.of_nat k))
       (set_map (Z.of_nat k) (Some ∅) (set_queue (Z.of_nat k) (Queue []) x1))
       (set_thread k (T_begin (Z.of_nat k)) x1 (booted n k))).
  - eapply (step_begin _ k (Z.of_nat k) true true true true); [|done]. by eapply set_thread_lookup.
  - unfold set_thread, booted. cbn [threads exchange]. rewrite list_insert_insert_eq. f_equal.
    + unfold set_map, set_queue, with_arrays. cbn. rewrite Nat2Z.id, !insert_replicate_next by done.
      f_equal. unfold u32, wrap. rewrite Z.mod_small by lia. lia.
    + replace (n - k)%nat with (S (n - S k)) by lia. rewrite seqZ_S.
      rewrite fmap_app, <-app_assoc. cbn. rewrite insert_app_r_alt by (rewrite length_fmap, length_seqZ; lia).
      rewrite length_fmap, length_seqZ, Nat2Z.id, Nat.sub_diag. done.
Qed.

(** [Init] with memory and threads granted: the threads can all reach their
    loops, with empty queues and tables. *)
Theorem exchange_starts n : 0 < n < 2 ^ 32 ->
  exists x c, Init true true true true n CStreamMediaExchange_new = (RET_OK, x) /\
    steps (boot x) [] [] c /\ started n c /\ m_bRunning (exchange c) = true.
Proof.
  intros Hn. pose proof (Init_boot n ltac:(lia)) as Hi.
  destruct (Init true true true true n CStreamMediaExchange_new) as [r x]. destruct Hi as [-> Hb].
  exists x, (booted (Z.to_nat n) (Z.to_nat n)). rewrite Hb. split_and!; [done| | |done].
  - assert (forall k, (k <= Z.to_nat n)%nat -> steps (booted (Z.to_nat n) 0) [] [] (booted (Z.to_nat n) k)) as H; [|by apply H].
    induction k as [|k IH]; intros Hk; [constructor|].
    destruct (booted_next (Z.to_nat n) k) as (c & H1 & H2); [lia..|].
    apply (steps_snoc _ [] [] c [] []); [|done]. apply (steps_snoc _ [] [] (booted (Z.to_nat n) k) [] []); [|done].
    apply IH. lia.
  - constructor; cbn; rewrite ?Nat.sub_diag, ?app_nil_r; [lia|lia| |done|done].
    exists (seqZ 0 n). by rewrite Z2Nat.id by lia.
Qed.

(** The number of the queue is taken modulo the threads that have started so
    far: with two threads, a processor of a stream with an odd number that comes
    between the two starts is in the table of thread 0, and the data of the
    stream goes to thread 1, which drops it. *)
Theorem start_up_loses_data (a : A) id p b recv send : id mod 2 = 1 ->
  (ps_add p (ps_new (wants_ps recv send))).1 = RET_OK ->
  exists x acc o c, Init true true true true 2 CStreamMediaExchange_new = (RET_OK, x) /\
    steps (boot x) acc o c /\
    acc = [{| PuStreamId := id; content := STREAM_PACKET_TYPE_ADD_SESSION p recv send |};
           {| PuStreamId := id; content := STREAM_PACKET_TYPE_MEDIA_DATA b |}] /\
    o = [ReleaseBlock id; FreeBlock id b] /\
    threads c = [T_loop 0 None; T_loop 1 None] /\
    m_pDataExchangeQueue (exchange c) = Some [Queue []; Queue []] /\
    map_at 1 (exchange c) = Some (Some ∅).
Proof.
  intros Hid Hp.
  set (add := {| PuStreamId := id; content := STREAM_PACKET_TYPE_ADD_SESSION p recv send |}).
  set (dat := {| PuStreamId := id; content := STREAM_PACKET_TYPE_MEDIA_DATA b |}).
  assert (forall m x, PuStreamId m = id -> m_ulThreadIdx x = 2 -> GenProcessThreadIdx (PuStreamId m) x = Some 1) as H2.
  { intros m x Hm Hx. unfold GenProcessThreadIdx. by rewrite Hx, Hm, Hid. }
  assert (exists s, handle true a add None = Some (Some (Some s), [ReleaseBlock id])) as [s Hs].
  { unfold handle, ProcessAddSession. cbn. revert Hp. destruct (ps_add p _) as [r s]. intros [= ->]. by exists s. }
  set (x i q0 q1 m0 m1 := {| m_ulThreadIdx := i; m_ulThreadNum := 2; m_bRunning := true;
    m_pDataExchangeQueue := Some [q0; q1]; m_pMediaExchangeMap := Some [m0; m1] |}).
  set (st i q0 q1 m0 m1 (t0 t1 : thread) := {| exchange := x i q0 q1 m0 m1; threads := [t0; t1] |}).
  set (m1 := <[id := Some s]> (∅ : MediaExchangeMap)). set (e := Some (∅ : MediaExchangeMap)).
  set (L := T_loop 0 None). set (L1 := T_loop 1 None).
  exists (x 0 NoQueue NoQueue None None), [add; dat], [ReleaseBlock id; FreeBlock id b],
    (st 2 (Queue []) (Queue []) (Some m1) e L L1).
  split; [reflexivity|]. split; [|by split_and!].
  refine (steps_trans _ [] [] (st 1 NoQueue NoQueue None None (T_begin 0) T_ready) _ _ _ (steps_one _ _ _ _ _) _).
  { eapply step_to; [by apply (step_index _ 0 0 (x 1 NoQueue NoQueue None None))|done]. }
  refine (steps_trans _ [] [] (st 1 (Queue []) NoQueue e None L T_ready) _ _ _ (steps_one _ _ _ _ _) _).
  { eapply step_to; [by apply (step_begin _ 0 0 true true true true (x 1 (Queue []) NoQueue e None))|done]. }
  refine (steps_trans _ [add] [] (st 1 (Queue [add]) NoQueue e None L T_ready) _ _ _ (steps_one _ _ _ _ _) _).
  { eapply step_to; [apply (step_enqueue _ true add (x 1 (Queue [add]) NoQueue e None))|done].
    unfold enqueue, GenProcessThreadIdx. cbn [m_ulThreadIdx exchange st x]. by rewrite Z.mod_1_r. }
  refine (steps_trans _ [] [] (st 2 (Queue [add]) NoQueue e None L (T_begin 1)) _ _ _ (steps_one _ _ _ _ _) _).
  { eapply step_to; [by apply (step_index _ 1 1 (x 2 (Queue [add]) NoQueue e None))|done]. }
  refine (steps_trans _ [] [] (st 2 (Queue [add]) (Queue []) e e L L1) _ _ _ (steps_one _ _ _ _ _) _).
  { eapply step_to; [by apply (step_begin _ 1 1 true true true true (x 2 (Queue [add]) (Queue []) e e))|done]. }
  refine (steps_trans _ [dat] [] (st 2 (Queue [add]) (Queue [dat]) e e L L1) _ _ _ (steps_one _ _ _ _ _) _).
  { eapply step_to; [apply (step_enqueue _ true dat (x 2 (Queue [add]) (Queue [dat]) e e))|done]. unfold enqueue. by rewrite H2. }
  refine (steps_trans _ [] [] (st 2 (Queue []) (Queue [dat]) e e (T_loop 0 (Some add)) L1) _ _ _ (steps_one _ _ _ _ _) _).
  { eapply step_to; [by apply (step_take _ 0 0 (Some add) (x 2 (Queue []) (Queue [dat]) e e))|done]. }
  refine (steps_trans _ [] [ReleaseBlock id] (st 2 (Queue []) (Queue [dat]) (Some m1) e L L1) _ _ _ (steps_one _ _ _ _ _) _).
  { eapply step_to; [apply (step_handle _ 0 0 add true a (x 2 (Queue []) (Queue [dat]) (Some m1) e)); [done|]|done].
    unfold thread_handle. change (map_at _ _) with (Some e). cbn beta iota delta [e]. by rewrite lookup_empty, Hs. }
  refine (steps_trans _ [] [] (st 2 (Queue []) (Queue []) (Some m1) e L (T_loop 1 (Some dat))) _ _ _ (steps_one _ _ _ _ _) _).
  { eapply step_to; [by apply (step_take _ 1 1 (Some dat) (x 2 (Queue []) (Queue []) (Some m1) e))|done]. }
  apply steps_one. eapply step_to; [apply (step_handle _ 1 1 dat true a (x 2 (Queue []) (Queue []) (Some m1) e)); [done|]|done].
  unfold thread_handle. change (map_at _ _) with (Some e). cbn beta iota delta [e]. by rewrite lookup_empty.
Qed.

End Exchange.

(** ** The set of [svs_adapter_media_processor.cpp]

    A processor deleted from outside stays in the list; the second field holds
    the addresses of those. *)

Section Plain.
Context {W B D Sess : Type} `{!MediaEnv W B D Sess}.

Record plain_set : Type := { the_set : @CStreamMediaProcessorSet B Sess; deleted : list Z }.

Definition dangling (s : plain_set) : bool :=
  existsb (fun q => bool_decide (q.1 ∈ deleted s)) (m_EsOverRtpProcessList (the_set s)).

#[global] Instance plain_processor_set :
    ProcessorSet plain_set W (Z * @CDirectProcessor B Sess) B (@MediaProcessor.event B Sess) := {
  set_new := {| the_set := {| m_EsOverRtpProcessList := [] |}; deleted := [] |};
  set_add p s := let '(r, s') := AddMediaProcessor p.1 p.2 (the_set s) in
    (r, {| the_set := s'; deleted := deleted s |});
  set_del w p s :=
    if bool_decide (p.1 ∈ deleted s) then None
    else match DelMediaProcessor p.1 (the_set s) w with
         | Some (r, s', _, o) => Some (r, {| the_set := s'; deleted := deleted s |}, o)
         | None => None
         end;
  set_send w b s :=
    if dangling s then None
    else match Set_Send b (the_set s) w with
         | Some (_, s', _, o) => Some ({| the_set := s'; deleted := deleted s |}, o)
         | None => None
         end;
  set_kill p s := {| the_set := the_set s; deleted := p.1 :: deleted s |};
  set_destroy w s :=
    if dangling s then None
    else match MediaProcessor.Destroy (the_set s) w with Some (_, _, o) => Some o | None => None end }.

Definition backlog_ok (p : Z * @CDirectProcessor B Sess) : Prop := zlen (queue p.2) <= MAX_BUF_PACKET_NUM.

Definition plain_ok (s : plain_set) : Prop :=
  deleted s = [] /\ Forall backlog_ok (m_EsOverRtpProcessList (the_set s)).

Lemma plain_dangling s : plain_ok s -> dangling s = false.
Proof.
  intros [Hd _]. unfold dangling. rewrite Hd. apply not_true_is_false. intros (q & _ & H)%existsb_exists.
  apply bool_decide_eq_true in H. by apply not_elem_of_nil in H.
Qed.

Lemma send_total `{!MediaEnvLaws W B D Sess} b (p : @CDirectProcessor B Sess) w : zlen (queue p) <= MAX_BUF_PACKET_NUM ->
  exists p' w' o, Send b (p, w) = Some (tt, (p', w'), o) /\ zlen (queue p') <= MAX_BUF_PACKET_NUM.
Proof.
  intros Hq. destruct (m_pSendSession p) as [s|] eqn:Hs.
  - destruct (awp_Send b p s Hs Hq w) as ([] & p' & w' & o & H1 & _ & H2 & _). by exists p', w', o.
  - unfold Send. rewrite this_bind. cbn [fst]. rewrite Hs. by eexists p, w, [].
Qed.

Lemma send_all_total `{!MediaEnvLaws W B D Sess} b (l : list (Z * @CDirectProcessor B Sess)) :
  forall w, Forall backlog_ok l ->
  exists l' w' o, send_all b l w = Some (l', w', o) /\ Forall backlog_ok l' /\ l'.*1 = l.*1.
Proof.
  induction l as [|[n p] l IH]; intros w Hl; cbn; [by exists [], w, []|].
  apply Forall_cons in Hl as [Hp Hl]. destruct (send_total b p w Hp) as (p' & w1 & o1 & -> & Hp'). cbn.
  destruct (IH w1 Hl) as (l' & w2 & o2 & -> & Hl' & Hn). cbn. exists ((n, p') :: l'), w2, (o1 ++ o2).
  split_and!; [done|by constructor|by rewrite <-Hn].
Qed.

Lemma awp_clear_all l (p : @CDirectProcessor B Sess) : awp (clear_all l) p (fun _ _ _ => True).
Proof.
  revert p. induction l as [|b l IH]; intros p; cbn [clear_all]; [by apply awp_ret|].
  apply awp_bind, awp_free, awp_bind, awp_set_list. intros p' _ _.
  by eapply awp_mono; [apply IH|].
Qed.

Lemma awp_destroy (p : @CDirectProcessor B Sess) : awp destroy p (fun _ _ _ => True).
Proof.
  unfold destroy, Clear. apply awp_bind, awp_this. eapply awp_mono; [apply awp_clear_all|].
  intros _ p' o _. apply awp_this. destruct (m_pSendSession p') as [s|]; [|by apply awp_ret].
  intros w. unfold outside. eexists tt, _, _, _. by split.
Qed.

Lemma destroy_all_total (l : list (Z * @CDirectProcessor B Sess)) : forall w, is_Some (destroy_all l w).
Proof.
  induction l as [|[n p] l IH]; intros w; cbn; [by eexists|].
  destruct (awp_destroy p w) as ([] & p' & w' & o & -> & _). cbn.
  destruct (IH w') as [[w2 o2] ->]. by eexists.
Qed.

Lemma erase_processor_sub n (l : list (Z * @CDirectProcessor B Sess)) : (erase_processor n l).1 `sublist_of` l.
Proof.
  induction l as [|q l IH]; cbn; [done|]. case_match; [by apply sublist_cons|].
  destruct (erase_processor n l). by apply sublist_skip.
Qed.

#[global] Instance plain_laws `{!MediaEnvLaws W B D Sess} :
  ProcessorSetLaws plain_set W (Z * @CDirectProcessor B Sess) B (@MediaProcessor.event B Sess) fst backlog_ok.
Proof.
  refine {| set_ok := plain_ok; set_has s n := n ∈ (m_EsOverRtpProcessList (the_set s)).*1 |}.
  - split; [done|constructor].
  - intros n H. by apply not_elem_of_nil in H.
  - intros p s Hp [Hd Hl] Hn. cbn. unfold AddMediaProcessor.
    destruct (existsb _ _) eqn:Hx.
    { destruct Hn. apply existsb_exists in Hx as (q & Hq & Ez%Z.eqb_eq). apply list_elem_of_fmap.
      exists q. split; [done|]. by apply list_elem_of_In. }
    eexists. split; [done|]. split; [split; [done|]|].
    + apply Forall_app_2; [done|]. by constructor.
    + intros n. cbn [the_set m_EsOverRtpProcessList]. rewrite fmap_app, elem_of_app. intros [H|H%list_elem_of_singleton]; auto.
  - intros w p s [Hd Hl]. cbn. rewrite Hd, bool_decide_false by apply not_elem_of_nil.
    unfold DelMediaProcessor. pose proof (erase_processor_sub p.1 (m_EsOverRtpProcessList (the_set s))) as Hsub.
    destruct (erase_processor p.1 _) as [l q]. cbn in Hsub.
    assert (exists w' o, match q with None => Some (w, [])
      | Some p => '(_, (_, w), o) ← destroy (p, w); Some (w, o) end = Some (w', o)) as (w' & o & ->).
    { destruct q as [q|]; [|by eexists _, _]. destruct (awp_destroy q w) as ([] & p' & w' & o & -> & _).
      by eexists _, _. }
    eexists _, _, _. split; [done|]. split; [split; [done|]|].
    + cbn. rewrite Forall_forall in Hl |- *. intros x Hx. apply Hl. by eapply elem_of_submseteq; [|apply sublist_submseteq].
    + intros n. cbn. intros Hn. eapply elem_of_submseteq; [exact Hn|]. by apply sublist_submseteq, fmap_sublist.
  - intros w b s Hs. cbn. rewrite plain_dangling by done. unfold Set_Send.
    destruct (send_all_total b _ w (proj2 Hs)) as (l & w' & o & -> & Hl & Hn).
    eexists _, _. split; [done|]. split; [split; [apply Hs|done]|]. cbn. intros n. by rewrite Hn.
  - intros w s Hs. cbn. rewrite plain_dangling by done. unfold MediaProcessor.Destroy.
    destruct (destroy_all_total (m_EsOverRtpProcessList (the_set s)) w) as [[w' o] ->]. by eexists.
Qed.

(** A processor that is added a second time is deleted, but stays in the list of
    the set: the next block of the stream is sent through it. *)
Theorem add_twice_faults id (p : Z * @CDirectProcessor B Sess) recv send s alloc w :
  p.1 ∈ (m_EsOverRtpProcessList (the_set s)).*1 ->
  let e : option (option (plain_set + plain_set)) := Some (Some (inl s)) in
  exists e', handle (B := B) alloc w {| PuStreamId := id; content := STREAM_PACKET_TYPE_ADD_SESSION p recv send |} e =
      Some (e', [DeleteProcessor id p; ReleaseBlock id]) /\
    forall alloc w b,
      handle alloc w {| PuStreamId := id; content := STREAM_PACKET_TYPE_MEDIA_DATA b |} e' = None.
Proof.
  intros Hin e. apply list_elem_of_fmap in Hin as (q & Eq & Hq).
  assert (AddMediaProcessor p.1 p.2 (the_set s) = (RET_FAIL, the_set s)) as Hadd.
  { unfold AddMediaProcessor. destruct (existsb _ _) eqn:Hx; [done|].
    apply not_true_iff_false in Hx. destruct Hx. apply existsb_exists. exists q.
    split; [by apply list_elem_of_In|]. by apply Z.eqb_eq. }
  eexists. split.
  { unfold handle, ProcessAddSession, e. cbn. rewrite Hadd. reflexivity. }
  intros alloc' w' b. unfold handle, ProcessMediaData. cbn -[Set_Send].
  replace (dangling _) with true; [done|]. symmetry. unfold dangling. apply existsb_exists.
  exists q. split; [by apply list_elem_of_In|]. apply bool_decide_eq_true. cbn. rewrite Eq. by constructor.
Qed.

End Plain.

(** ** A run *)

#[local] Existing Instance demo_env.
#[local] Existing Instance demo_laws.

Abbreviation demo_ps := (@plain_set (Z * Z) Z).
Abbreviation demo_p := (7, demo_processor).
Abbreviation demo_a := ([], 10).
Abbreviation demo_conf := (@conf demo_ps demo_ps (Z * @CDirectProcessor (Z * Z) Z) (Z * Z)).

Definition demo_add : @packet (Z * @CDirectProcessor (Z * Z) Z) (Z * Z) :=
  {| PuStreamId := 5; content := STREAM_PACKET_TYPE_ADD_SESSION demo_p MEDIA_TRANS_TYPE_RTP MEDIA_TRANS_TYPE_RTP |}.
Definition demo_data : @packet (Z * @CDirectProcessor (Z * Z) Z) (Z * Z) :=
  {| PuStreamId := 5; content := STREAM_PACKET_TYPE_MEDIA_DATA (1, 0) |}.

Definition demo_start : demo_conf := booted 2 2.

Lemma demo_started : started 2 demo_start.
Proof. constructor; try done. by exists [0; 1]. Qed.

Lemma demo_steps : exists c : demo_conf, steps demo_start [demo_add; demo_data] [] c /\
  threads c !! 1%nat = Some (T_loop 1 (Some demo_add)) /\ m_bRunning (exchange c) = true.
Proof.
  eexists. split.
  { eapply (steps_trans _ [demo_add] []); [eapply steps_one, (step_enqueue _ true demo_add); reflexivity|].
    eapply (steps_trans _ [demo_data] [] _ [] []); [eapply steps_one, (step_enqueue _ true demo_data); reflexivity|].
    eapply steps_one, (step_take _ 1 1); reflexivity. }
  by split.
Qed.

Lemma demo_good id : good fst backlog_ok (of_stream id [demo_add; demo_data]).
Proof.
  unfold of_stream. rewrite !filter_cons, filter_nil. cbn -[decide].
  case_decide; split; cbn; repeat constructor; try done. by intros ?%not_elem_of_nil.
Qed.

Lemma stream_order_witness : exists (c : demo_conf) i th done,
  threads c !! i = Some th /\ done `prefix_of` [demo_add; demo_data].
Proof.
  destruct demo_steps as (c & Hs & _).
  destruct (stream_order 2 demo_start c [demo_add; demo_data] [] 5 demo_started Hs) as (i & th & d & H1 & _ & H2).
  exists c, i, th, d. split; [done|]. change [demo_add; demo_data] with (of_stream 5 [demo_add; demo_data]).
  destruct th as [| |t cur|]; [| |destruct H2 as (l & m & _ & _ & -> & _); by eexists|];
    destruct H2 as (r & ? & -> & _); by eexists.
Defined.

Lemma exchange_no_fault_witness : exists (c : demo_conf),
  is_Some (thread_take 1 (exchange c)) /\ is_Some (thread_handle true demo_a 1 demo_add (exchange c)).
Proof.
  destruct demo_steps as (c & Hs & Hi & _).
  destruct (exchange_no_fault fst backlog_ok 2 demo_start c _ _ _ _ _ demo_started Hs demo_good Hi) as [H1 H2].
  exists c. split; [done|by apply H2].
Defined.

Lemma exchange_progress_witness : exists (c c' : demo_conf) i ans o e,
  turns ans i c = Some (c', o) /\ stream_run [demo_add; demo_data] e (events_of 5 o).
Proof.
  destruct demo_steps as (c & Hs & _ & Hr).
  destruct (exchange_progress 2 demo_start c _ _ 5 demo_started Hs Hr) as (i & k & H).
  destruct (H (replicate k (true, demo_a)) (length_replicate k _)) as [_ H2].
  destruct (H2 fst backlog_ok _ _ demo_good) as (c' & o' & e & E & _ & R).
  by exists c, c', i, (replicate k (true, demo_a)), o', e.
Defined.

Lemma exchange_starts_witness : exists c : demo_conf, started 4 c.
Proof.
  destruct (exchange_starts (PS1 := demo_ps) (PS2 := demo_ps) (P := Z * @CDirectProcessor (Z * Z) Z) (B := Z * Z) 4)
    as (x & c & _ & _ & H & _); [lia|]. by exists c.
Defined.

Lemma start_up_loses_data_witness : exists c : demo_conf, map_at 1 (exchange c) = Some (Some ∅).
Proof.
  destruct (start_up_loses_data (PS1 := demo_ps) (PS2 := demo_ps) demo_a 5 demo_p (1, 0) MEDIA_TRANS_TYPE_RTP
    MEDIA_TRANS_TYPE_RTP) as (x & acc & o & c & _ & _ & _ & _ & _ & _ & H); [done..|]. by exists c.
Defined.

Lemma add_twice_faults_witness : exists e' : option (option (demo_ps + demo_ps)),
  handle true demo_a demo_data e' = None.
Proof.
  destruct (add_twice_faults 5 demo_p MEDIA_TRANS_TYPE_RTP MEDIA_TRANS_TYPE_RTP
    {| the_set := {| m_EsOverRtpProcessList := [demo_p] |}; deleted := [] |} true demo_a) as (e' & _ & H).
  { by constructor. }
  exists e'. apply H.
Defined.
