(* ===== verification/Base64.v ===== *)
(** * Base64: [svs_base64.cpp], [svs_binary.cpp]

    [Binary] is a length and a buffer ([NULL] is [None]); its buffer holds one
    byte more than the length, a zero. [SVSBase64::decode] writes into an array
    of [MAX_DEC_BUF_LEN] bytes through a moving pointer; its position [dst] is an
    integer, a write outside the array is [None]. A string is the list of its
    characters as bytes. Allocations succeed. [Binary::copy(Binary)], which no
    code calls, is not modelled: its argument shares the buffer of the caller's
    object and frees it. *)

From S2P Require Import Prelude.
Open Scope Z_scope.

(** ** [svs_binary.cpp] *)

Record Binary : Type := { m_nLen : Z; m_pDataBuf : option (list Z) }.

Definition Binary_new : Binary := {| m_nLen := 0; m_pDataBuf := None |}.
Definition getBase (this : Binary) : option (list Z) := m_pDataBuf this.
Definition getLength (this : Binary) : Z := m_nLen this.

(** [copy(len, bytes)]: [new uint8[m_nLen + 1]] of a 32-bit sum; when that
    wraps the terminating zero and the copy are written outside. *)
Definition copy_bytes (len : Z) (bytes : option (list Z)) (this : Binary) : option (Z * Binary) :=
  match bytes with
  | None =>
    if len =? 0 then Some (-1, {| m_nLen := m_nLen this; m_pDataBuf := None |}) else Some (-1, this)
  | Some bytes =>
    if u32 (len + 1) <? len + 1 then None
    else
      src ← sub bytes 0 len;
      Some (0, {| m_nLen := len; m_pDataBuf := Some (src ++ [0]) |})
  end.

(** ** [svs_base64.cpp] *)

Definition MAX_DEC_BUF_LEN : Z := 1024 * 1024.

(** The character of a value of 6 bits; [buf2] is signed, the values are not negative. *)
Definition enc_char (v : Z) : Z :=
  if (0 <=? v) && (v <=? 25) then v + 65
  else if (26 <=? v) && (v <=? 51) then (v - 26) + 97
  else if (52 <=? v) && (v <=? 61) then (v - 52) + 48
  else if v =? 62 then 43
  else if v =? 63 then 47
  else v.

Definition encodeBuf2 (b0 b1 b2 : Z) (pad : Z) : list Z :=
  let c0 := Z.shiftr b0 2 in
  let c1 := Z.lor (Z.shiftl (Z.land b0 0x03) 4) (Z.shiftr b1 4) in
  let c2 := Z.lor (Z.shiftl (Z.land b1 0x0f) 2) (Z.shiftr b2 6) in
  let c3 := Z.land b2 0x3f in
  let buf2 := [enc_char c0; enc_char c1; enc_char c2; enc_char c3] in
  if pad =? 0 then buf2 else take (Z.to_nat (4 - pad)) buf2 ++ replicate (Z.to_nat pad) 61.

(** The loop of [encode]: three bytes at a time; the last group is filled with
    zeros. [None] is a read outside the buffer. *)
Fixpoint encode_loop (fuel : nat) (base : list Z) (iEncTotal iEncBit pad : Z) : option (list Z) :=
  match fuel with
  | O => None
  | S fuel =>
    if iEncBit <? iEncTotal then
      let len := if u32 (iEncBit + 3) <? iEncTotal then 3 else u32 (iEncTotal - iEncBit) in
      src ← sub base iEncBit len;
      let '(buf, pad) :=
        if len <? 3 then (src ++ replicate (Z.to_nat (3 - len)) 0, 3 - len) else (src, pad) in
      match buf with
      | [b0; b1; b2] =>
        rest ← encode_loop fuel base iEncTotal (u32 (iEncBit + len)) pad;
        Some (encodeBuf2 b0 b1 b2 pad ++ rest)
      | _ => None
      end
    else Some []
  end.

(** [None] for an empty [Binary]: the code builds a [std::string] from [NULL]. *)
Definition encode (pContent : Binary) : option (list Z) :=
  base ← getBase pContent;
  if getLength pContent =? 0 then None
  else
    encode_loop (S (length base)) base (getLength pContent) 0 0.

Definition encode_bytes (len : Z) (pContent : option (list Z)) : option (list Z) :=
  if len =? 0 then None
  else
    _ ← pContent;
    '(_, pBin) ← copy_bytes len pContent Binary_new;
    encode pBin.

Definition dec_char (c : Z) : option Z :=
  if (65 <=? c) && (c <=? 90) then Some (c - 65)
  else if (97 <=? c) && (c <=? 122) then Some ((c - 97) + 26)
  else if (48 <=? c) && (c <=? 57) then Some ((c - 48) + 52)
  else if c =? 43 then Some 62
  else if c =? 47 then Some 63
  else None.

(** [decodeBuf]: the values and [pad]; [None] is the result -1. [i] is the
    index of the first character of [buf]. *)
Fixpoint decodeBuf (i : Z) (buf : list Z) (pad : Z) : option (list Z * Z) :=
  match buf with
  | [] => Some ([], pad)
  | c :: buf =>
    match dec_char c with
    | Some v => '(vs, pad) ← decodeBuf (i + 1) buf pad; Some (v :: vs, pad)
    | None => if c =? 61 then Some (replicate (S (length buf)) 0, 4 - i) else None
    end
  end.

(** The inner loop of [decode]: the next [4 - i] characters that are no line
    ends, and the rest of the string. *)
Fixpoint gather (n : nat) (content : list Z) : list Z * list Z :=
  match n, content with
  | O, _ => ([], content)
  | _, [] => ([], [])
  | S n', c :: content =>
    if (c =? 13) || (c =? 10) then gather n content
    else let '(cs, rest) := gather n' content in (c :: cs, rest)
  end.

Definition dec_group (vs : list Z) : list Z :=
  match vs with
  | [v0; v1; v2; v3] =>
    [u8 (Z.lor (Z.shiftl v0 2) (Z.shiftr v1 4)); u8 (Z.lor (Z.shiftl v1 4) (Z.shiftr v2 2));
     u8 (Z.lor (Z.shiftl v2 6) v3)]
  | _ => []
  end.

(** The outer loop: [decBuf] and the position and length written so far. The
    outer [option] is a write outside [decBuf], the inner one the result [NULL]. *)
Fixpoint decode_loop (fuel : nat) (content : list Z) (pad : Z) (decBuf : list Z) (dst iDecLen : Z)
    : option (option (list Z * Z)) :=
  match fuel with
  | O => None
  | S fuel =>
    match content with
    | [] => Some (Some (decBuf, iDecLen))
    | _ =>
      let '(buf, content) := gather 4 content in
      match buf with
      | [] => Some (Some (decBuf, iDecLen))
      | _ =>
        if negb (zlen buf =? 4) then Some None
        else
          match decodeBuf 0 buf pad with
          | None => Some None
          | Some (vs, pad) =>
            decBuf ← memcpy decBuf dst (dec_group vs);
            decode_loop fuel content pad decBuf (dst + (3 - pad)) (u32 (iDecLen + u32 (3 - pad)))
          end
      end
    end
  end.

(** [decBuf] is not initialised: [mem] is what the stack holds. *)
Definition decode (mem : list Z) (content : list Z) : option (option Binary) :=
  if zlen content =? 0 then Some None
  else
    r ← decode_loop (S (length content)) content 0 mem 0 0;
    match r with
    | None => Some None
    | Some (decBuf, iDecLen) =>
      '(_, pBinContent) ← copy_bytes iDecLen (Some decBuf) Binary_new;
      Some (Some pBinContent)
    end.

(** [decode(content, pDecBuf)]: the length or -1, and the buffer. [malloc]
    succeeds. *)
Definition decode_buf (mem : list Z) (content : list Z) : option (Z * option (list Z)) :=
  r ← decode mem content;
  match r with
  | None => Some (-1, None)
  | Some pBin =>
    base ← getBase pBin; src ← sub base 0 (getLength pBin);
    Some (getLength pBin, Some src)
  end.

(** ** The encoding as a function of the data *)

Fixpoint b64 (data : list Z) : list Z :=
  match data with
  | [] => []
  | [b0] => encodeBuf2 b0 0 0 2
  | [b0; b1] => encodeBuf2 b0 b1 0 1
  | b0 :: b1 :: b2 :: data => encodeBuf2 b0 b1 b2 0 ++ b64 data
  end.

Lemma list_ind3 {A} (P : list A -> Prop) : P [] -> (forall x, P [x]) -> (forall x y, P [x; y]) ->
  (forall x y z l, P l -> P (x :: y :: z :: l)) -> forall l, P l.
Proof.
  intros H0 H1 H2 H3. fix IH 1. intros [|x [|y [|z l]]]; [done|apply H1|apply H2|apply H3, IH].
Qed.

Lemma encode_loop_spec data : forall pre post fuel, (length data < fuel)%nat ->
  zlen (pre ++ data) + 3 < 2 ^ 32 ->
  encode_loop fuel (pre ++ data ++ post) (zlen (pre ++ data)) (zlen pre) 0 = Some (b64 data).
Proof.
  induction data as [|b0|b0 b1|b0 b1 b2 data IH] using list_ind3; intros pre post [|fuel] Hf Hn;
    try (cbn in Hf; lia); cbn [encode_loop]; pose proof (zlen_nonneg pre);
    rewrite zlen_app in *; rewrite ?zlen_cons, ?zlen_nil in *.
  - by rewrite (proj2 (Z.ltb_ge (zlen pre) _)) by lia.
  - rewrite (proj2 (Z.ltb_lt (zlen pre) _)) by lia. unfold u32.
    rewrite (wrap_small 32 (zlen pre + 3)), (proj2 (Z.ltb_ge (zlen pre + 3) _)) by (unfold fits; lia).
    rewrite (wrap_small 32 (_ - _)) by (unfold fits; lia).
    replace (zlen pre + (1 + 0) - zlen pre) with 1 by lia.
    rewrite (sub_mid pre [b0]) by done. cbn [mbind option_bind Z.ltb Z.compare Z.sub Z.to_nat replicate app].
    rewrite wrap_small by (unfold fits; lia). destruct fuel; [cbn in Hf; lia|]. cbn [encode_loop].
    by rewrite (proj2 (Z.ltb_ge (zlen pre + 1) _)) by lia.
  - rewrite (proj2 (Z.ltb_lt (zlen pre) _)) by lia. unfold u32.
    rewrite (wrap_small 32 (zlen pre + 3)), (proj2 (Z.ltb_ge (zlen pre + 3) _)) by (unfold fits; lia).
    rewrite (wrap_small 32 (_ - _)) by (unfold fits; lia).
    replace (zlen pre + (1 + (1 + 0)) - zlen pre) with 2 by lia.
    rewrite (sub_mid pre [b0; b1]) by done. cbn [mbind option_bind Z.ltb Z.compare Z.sub Z.to_nat replicate app].
    rewrite wrap_small by (unfold fits; lia). destruct fuel; [cbn in Hf; lia|]. cbn [encode_loop].
    by rewrite (proj2 (Z.ltb_ge (zlen pre + 2) _)) by lia.
  - pose proof (zlen_nonneg data). rewrite (proj2 (Z.ltb_lt (zlen pre) _)) by lia. unfold u32.
    rewrite (wrap_small 32 (zlen pre + 3)), (wrap_small 32 (_ - _)) by (unfold fits; lia).
    set (len := if zlen pre + 3 <? _ then _ else _).
    assert (len = 3) as ->. { unfold len. destruct (Z.ltb_spec (zlen pre + 3) (zlen pre + (1 + (1 + (1 + zlen data))))); lia. }
    change ((b0 :: b1 :: b2 :: data) ++ post) with ([b0; b1; b2] ++ (data ++ post)).
    rewrite (sub_mid pre [b0; b1; b2]) by done. cbn [mbind option_bind Z.ltb Z.compare].
    rewrite wrap_small by (unfold fits; lia).
    specialize (IH (pre ++ [b0; b1; b2]) post fuel). rewrite !zlen_app in IH. change (zlen [b0; b1; b2]) with 3 in IH.
    rewrite <-!app_assoc in IH. replace (zlen pre + (1 + (1 + (1 + zlen data)))) with (zlen pre + 3 + zlen data) by lia.
    change (3 <? 3) with false. cbn iota beta. rewrite IH; [done|cbn in Hf; lia|lia].
Qed.

(** ** Decoding what was encoded *)

(** The values of 6 bits of a group. *)
Definition sextets (b0 b1 b2 : Z) : list Z :=
  [Z.shiftr b0 2; Z.lor (Z.shiftl (Z.land b0 3) 4) (Z.shiftr b1 4);
   Z.lor (Z.shiftl (Z.land b1 15) 2) (Z.shiftr b2 6); Z.land b2 63].

Lemma sextets_fit b0 b1 b2 : is_byte b0 -> is_byte b1 -> is_byte b2 ->
  Forall (fits 6) (sextets b0 b1 b2).
Proof.
  intros H0 H1 H2.
  assert (forall a b, is_byte a -> is_byte b ->
    fits 6 (Z.shiftr a 2) /\ fits 6 (Z.lor (Z.shiftl (Z.land a 3) 4) (Z.shiftr b 4)) /\
    fits 6 (Z.lor (Z.shiftl (Z.land a 15) 2) (Z.shiftr b 6)) /\ fits 6 (Z.land b 63)) as Hf.
  { intros a b Ha Hb. apply (bool_decide_eq_true_1 _).
    apply (forall_fits2 8 8 (fun a b => bool_decide (fits 6 (Z.shiftr a 2) /\
      fits 6 (Z.lor (Z.shiftl (Z.land a 3) 4) (Z.shiftr b 4)) /\
      fits 6 (Z.lor (Z.shiftl (Z.land a 15) 2) (Z.shiftr b 6)) /\ fits 6 (Z.land b 63))) a b Ha Hb).
    by vm_compute. }
  destruct (Hf b0 b1 H0 H1) as (? & ? & _). destruct (Hf b1 b2 H1 H2) as (_ & _ & ? & ?).
  unfold sextets. by repeat (apply Forall_cons; split).
Qed.

Lemma dec_enc_char v : fits 6 v -> dec_char (enc_char v) = Some v.
Proof.
  intros H. apply (bool_decide_eq_true_1 _).
  apply (forall_fits 6 (fun v => bool_decide (dec_char (enc_char v) = Some v)) v H). by vm_compute.
Qed.

Lemma enc_char_plain v : fits 6 v -> enc_char v <> 13 /\ enc_char v <> 10.
Proof.
  intros H. apply (bool_decide_eq_true_1 _).
  apply (forall_fits 6 (fun v => bool_decide (enc_char v <> 13 /\ enc_char v <> 10)) v H). by vm_compute.
Qed.

Lemma dec_group_sextets b0 b1 b2 : is_byte b0 -> is_byte b1 -> is_byte b2 ->
  dec_group (sextets b0 b1 b2) = [b0; b1; b2].
Proof.
  intros H0 H1 H2.
  assert (forall a b, is_byte a -> is_byte b ->
    u8 (Z.lor (Z.shiftl (Z.shiftr a 2) 2) (Z.shiftr (Z.lor (Z.shiftl (Z.land a 3) 4) (Z.shiftr b 4)) 4)) = a) as E0.
  { intros a b Ha Hb. apply (bool_decide_eq_true_1 _).
    apply (forall_fits2 8 8 (fun a b => bool_decide (u8 (Z.lor (Z.shiftl (Z.shiftr a 2) 2)
      (Z.shiftr (Z.lor (Z.shiftl (Z.land a 3) 4) (Z.shiftr b 4)) 4)) = a)) a b Ha Hb). by vm_compute. }
  assert (forall a b, is_byte a -> is_byte b ->
    u8 (Z.lor (Z.shiftl (Z.lor (Z.shiftl (Z.land a 15) 2) (Z.shiftr b 6)) 6) (Z.land b 63)) = b) as E2.
  { intros a b Ha Hb. apply (bool_decide_eq_true_1 _).
    apply (forall_fits2 8 8 (fun a b => bool_decide (u8 (Z.lor (Z.shiftl (Z.lor (Z.shiftl (Z.land a 15) 2)
      (Z.shiftr b 6)) 6) (Z.land b 63)) = b)) a b Ha Hb). by vm_compute. }
  assert (forall x a b, fits 2 x -> is_byte a -> is_byte b ->
    u8 (Z.lor (Z.shiftl (Z.lor (Z.shiftl x 4) (Z.shiftr a 4)) 4)
      (Z.shiftr (Z.lor (Z.shiftl (Z.land a 15) 2) (Z.shiftr b 6)) 2)) = a) as E1.
  { intros x a b Hx Ha Hb. apply (bool_decide_eq_true_1 _).
    assert (x = 0 \/ x = 1 \/ x = 2 \/ x = 3) as [->|[->|[->| ->]]] by (unfold fits in Hx; lia);
    refine (forall_fits2 8 8 (fun a b => bool_decide (u8 (Z.lor (Z.shiftl (Z.lor (Z.shiftl _ 4) (Z.shiftr a 4)) 4)
      (Z.shiftr (Z.lor (Z.shiftl (Z.land a 15) 2) (Z.shiftr b 6)) 2)) = a)) a b Ha Hb _); by vm_compute. }
  assert (fits 2 (Z.land b0 3)) as Hx by (unfold fits in *; change 3 with (Z.ones 2); rewrite Z.land_ones by lia; apply Z.mod_pos_bound; lia).
  specialize (E1 _ _ _ Hx H1 H2).
  unfold dec_group, sextets. by rewrite E0, E1, E2.
Qed.

(** The characters of a string that are no line ends. *)
Definition strip (content : list Z) : list Z :=
  filter (fun c => c <> 13 /\ c <> 10) content.

Lemma gather_strip content : forall n cs rest, gather n content = (cs, rest) ->
  cs = take n (strip content) /\ strip rest = drop n (strip content) /\
  (length rest <= length content)%nat /\ (cs <> [] -> (length rest < length content)%nat).
Proof.
  induction content as [|c content IH]; intros [|n] cs rest; cbn [gather].
  - intros [= <- <-]. done.
  - intros [= <- <-]. done.
  - intros [= <- <-]. done.
  - destruct ((c =? 13) || (c =? 10)) eqn:Ec.
    + intros H. apply IH in H as (H1 & H2 & H3 & H4). unfold strip in *.
      rewrite filter_cons_False by lia. split_and!; [done..|cbn; lia|cbn; intros ?; lia].
    + destruct (gather n content) as [cs' rest'] eqn:E. intros [= <- <-].
      apply IH in E as (H1 & H2 & H3 & H4). unfold strip in *. rewrite filter_cons_True by lia.
      cbn. split_and!; [by rewrite H1|done|lia|lia].
Qed.

Lemma strip_cons_empty c content : strip content = [] -> strip (c :: content) = [] ->
  exists rest, gather 4 (c :: content) = ([], rest).
Proof.
  intros _ H. destruct (gather 4 (c :: content)) as [cs rest] eqn:E.
  apply gather_strip in E as (-> & _). rewrite H. eauto.
Qed.

Lemma decode_loop_end fuel content pad decBuf dst n : strip content = [] -> (0 < fuel)%nat ->
  decode_loop fuel content pad decBuf dst n = Some (Some (decBuf, n)).
Proof.
  intros H Hf. destruct fuel; [lia|]. cbn [decode_loop]. destruct content as [|c content]; [done|].
  destruct (gather 4 (c :: content)) as [cs rest] eqn:E.
  apply gather_strip in E as (-> & _). by rewrite H.
Qed.

(** One group. *)
Lemma decode_loop_group fuel content g tl pad vs pad' decBuf decBuf' dst n :
  strip content = g ++ tl -> length g = 4%nat -> decodeBuf 0 g pad = Some (vs, pad') ->
  memcpy decBuf dst (dec_group vs) = Some decBuf' -> (length content < S fuel)%nat ->
  exists rest, strip rest = tl /\ (length rest < fuel)%nat /\
    decode_loop (S fuel) content pad decBuf dst n =
      decode_loop fuel rest pad' decBuf' (dst + (3 - pad')) (u32 (n + u32 (3 - pad'))).
Proof.
  intros Hs Hg Hd Hm Hf. destruct (gather 4 content) as [cs rest] eqn:E.
  pose proof E as E'. apply gather_strip in E' as (Hcs & Hrest & _ & Hlt).
  rewrite Hs, take_app_length' in Hcs by done. rewrite Hs, drop_app_length' in Hrest by done.
  subst cs. destruct g as [|g0 g]; [done|]. exists rest. split; [done|]. split.
  { specialize (Hlt ltac:(done)). lia. }
  cbn [decode_loop]. destruct content as [|c content]; [done|]. rewrite E.
  assert ((zlen (g0 :: g) =? 4) = true) as -> by (apply Z.eqb_eq; unfold zlen; lia).
  cbn [negb]. rewrite Hd, Hm. done.
Qed.

Lemma decodeBuf_enc vs pad i : Forall (fits 6) vs ->
  decodeBuf i (enc_char <$> vs) pad = Some (vs, pad).
Proof.
  intros H. revert i. induction H as [|v vs Hv H IH]; intros i; [done|]. cbn [fmap list_fmap decodeBuf].
  rewrite dec_enc_char by done. rewrite IH. done.
Qed.

Lemma encodeBuf2_full b0 b1 b2 : encodeBuf2 b0 b1 b2 0 = enc_char <$> sextets b0 b1 b2.
Proof. done. Qed.

Lemma decode_group3 b0 b1 b2 pad : is_byte b0 -> is_byte b1 -> is_byte b2 ->
  decodeBuf 0 (encodeBuf2 b0 b1 b2 0) pad = Some (sextets b0 b1 b2, pad).
Proof. intros. rewrite encodeBuf2_full. apply decodeBuf_enc. by apply sextets_fit. Qed.

Lemma decode_group2 b0 b1 pad : is_byte b0 -> is_byte b1 ->
  exists x vs, decodeBuf 0 (encodeBuf2 b0 b1 0 1) pad = Some (vs, 1) /\ dec_group vs = [b0; b1; x].
Proof.
  intros H0 H1. pose proof (sextets_fit b0 b1 0 H0 H1 ltac:(done)) as Hf. unfold sextets in Hf.
  pose proof (dec_group_sextets b0 b1 0 H0 H1 ltac:(done)) as Hg. unfold sextets, dec_group in Hg.
  apply Forall_cons in Hf as [F0 Hf]. apply Forall_cons in Hf as [F1 Hf]. apply Forall_cons in Hf as [F2 _].
  eexists _, _. split.
  - unfold encodeBuf2. cbn [Z.eqb Z.to_nat Z.sub Z.add Z.opp Z.pos_sub Pos.pred_double take replicate app Pos.to_nat Pos.iter_op Nat.add decodeBuf].
    change (Z.to_nat (4 - 1)) with 3%nat. change (Z.to_nat 1) with 1%nat. cbn [take replicate app decodeBuf].
    rewrite !dec_enc_char by done. reflexivity.
  - unfold dec_group. injection Hg as G0 G1. by rewrite G0, G1.
Qed.

Lemma decode_group1 b0 pad : is_byte b0 ->
  exists x y vs, decodeBuf 0 (encodeBuf2 b0 0 0 2) pad = Some (vs, 2) /\ dec_group vs = [b0; x; y].
Proof.
  intros H0. pose proof (sextets_fit b0 0 0 H0 ltac:(done) ltac:(done)) as Hf. unfold sextets in Hf.
  pose proof (dec_group_sextets b0 0 0 H0 ltac:(done) ltac:(done)) as Hg. unfold sextets, dec_group in Hg.
  apply Forall_cons in Hf as [F0 Hf]. apply Forall_cons in Hf as [F1 _].
  eexists _, _, _. split.
  - unfold encodeBuf2. change (2 =? 0) with false. cbn iota.
    change (Z.to_nat (4 - 2)) with 2%nat. change (Z.to_nat 2) with 2%nat. cbn [take replicate app decodeBuf].
    rewrite !dec_enc_char by done. reflexivity.
  - unfold dec_group. injection Hg as G0 _. by rewrite G0.
Qed.

Lemma length_b64_group b0 b1 b2 pad : 0 <= pad <= 2 -> length (encodeBuf2 b0 b1 b2 pad) = 4%nat.
Proof.
  intros H. unfold encodeBuf2. destruct (pad =? 0); [done|].
  rewrite length_app, length_take, length_replicate. cbn [length]. lia.
Qed.

Lemma zlen_ge3 {A} (l : list A) : 3 <= zlen l -> exists x y z k, l = x :: y :: z :: k.
Proof. destruct l as [|x [|y [|z k]]]; unfold zlen; cbn; try lia. eauto. Qed.

Lemma decode_loop_spec data : forall content pre old fuel,
  strip content = b64 data -> bytes_ok data -> (length content < fuel)%nat ->
  zlen data + 2 <= zlen old -> zlen pre + zlen data < 2 ^ 32 ->
  exists rest, decode_loop fuel content 0 (pre ++ old) (zlen pre) (zlen pre) =
    Some (Some (pre ++ data ++ rest, zlen pre + zlen data)).
Proof.
  induction data as [|b0|b0 b1|b0 b1 b2 data IH] using list_ind3; intros content pre old fuel Hs Hb Hf Ho Hn;
    rewrite ?zlen_cons, ?zlen_nil in Ho, Hn; pose proof (zlen_nonneg pre).
  - exists old. rewrite decode_loop_end by (done || lia). by rewrite zlen_nil, Z.add_0_r.
  - destruct (zlen_ge3 old) as (z & z0 & z1 & old' & ->); [lia|]. rename old' into old.
    apply Forall_cons in Hb as [H0 _]. destruct (decode_group1 b0 0 H0) as (x & y & vs & Hd & Hg).
    destruct fuel as [|fuel]; [lia|].
    destruct (decode_loop_group fuel content (encodeBuf2 b0 0 0 2) [] 0 vs 2 (pre ++ z :: z0 :: z1 :: old)
      (pre ++ [b0; x; y] ++ old) (zlen pre) (zlen pre)) as (rest & Hr & Hlt & ->).
    { by rewrite app_nil_r. } { by apply length_b64_group. } { done. }
    { rewrite Hg. by apply (memcpy_mid pre [z; z0; z1]). } { done. }
    rewrite decode_loop_end by (done || lia). exists (x :: y :: old). do 3 f_equal.
    change (u32 (3 - 2)) with 1. rewrite zlen_cons, zlen_nil. unfold u32. rewrite wrap_small by (unfold fits; lia). lia.
  - destruct (zlen_ge3 old) as (z & z0 & z1 & old' & ->); [lia|]. rename old' into old.
    apply Forall_cons in Hb as [H0 Hb]. apply Forall_cons in Hb as [H1 _].
    destruct (decode_group2 b0 b1 0 H0 H1) as (x & vs & Hd & Hg). destruct fuel as [|fuel]; [lia|].
    destruct (decode_loop_group fuel content (encodeBuf2 b0 b1 0 1) [] 0 vs 1 (pre ++ z :: z0 :: z1 :: old)
      (pre ++ [b0; b1; x] ++ old) (zlen pre) (zlen pre)) as (rest & Hr & Hlt & ->).
    { by rewrite app_nil_r. } { by apply length_b64_group. } { done. }
    { rewrite Hg. by apply (memcpy_mid pre [z; z0; z1]). } { done. }
    rewrite decode_loop_end by (done || lia). exists (x :: old). do 3 f_equal.
    change (u32 (3 - 1)) with 2. rewrite !zlen_cons, zlen_nil. unfold u32. rewrite wrap_small by (unfold fits; lia). lia.
  - pose proof (zlen_nonneg data).
    destruct (zlen_ge3 old) as (z & z0 & z1 & old' & ->); [lia|]. rename old' into old. rewrite !zlen_cons in Ho.
    apply Forall_cons in Hb as [B0 Hb]. apply Forall_cons in Hb as [B1 Hb]. apply Forall_cons in Hb as [B2 Hb].
    destruct fuel as [|fuel]; [lia|].
    destruct (decode_loop_group fuel content (encodeBuf2 b0 b1 b2 0) (b64 data) 0 (sextets b0 b1 b2) 0
      (pre ++ z :: z0 :: z1 :: old) (pre ++ [b0; b1; b2] ++ old) (zlen pre) (zlen pre)) as (rest & Hr & Hlt & ->).
    { done. } { by apply length_b64_group. } { by apply decode_group3. }
    { rewrite dec_group_sextets by done. by apply (memcpy_mid pre [z; z0; z1]). } { done. }
    change (u32 (3 - 0)) with 3. change (3 - 0) with 3. unfold u32. rewrite wrap_small by (unfold fits; lia).
    destruct (IH rest (pre ++ [b0; b1; b2]) old fuel Hr Hb Hlt) as [rest2 E].
    { rewrite ?zlen_cons in Ho. lia. } { rewrite zlen_app. change (zlen [b0; b1; b2]) with 3. lia. }
    rewrite zlen_app in E. change (zlen [b0; b1; b2]) with 3 in E. rewrite <-!app_assoc in E. rewrite E.
    exists rest2. do 3 f_equal. rewrite !zlen_cons. lia.
Qed.

(** ** Properties *)

(** What [encode] makes of one to 1048574 bytes, [decode] turns back into
    exactly these bytes, wherever line ends are inserted into the text. *)
Theorem base64_roundtrip data mem content
    (Hb : bytes_ok data) (Hn : 1 <= zlen data) (Hn2 : zlen data + 2 <= MAX_DEC_BUF_LEN)
    (Hm : zlen mem = MAX_DEC_BUF_LEN) (Hs : encode_bytes (zlen data) (Some data) = Some (strip content)) :
  decode mem content =
    Some (Some {| m_nLen := zlen data; m_pDataBuf := Some (data ++ [0]) |}).
Proof.
  unfold MAX_DEC_BUF_LEN in *. change (1024 * 1024) with 1048576 in *.
  unfold encode_bytes in Hs. rewrite (proj2 (Z.eqb_neq _ _)) in Hs by lia.
  cbn [mbind option_bind copy_bytes] in Hs. unfold u32 in Hs at 1.
  rewrite wrap_small, Z.ltb_irrefl in Hs by (unfold fits; lia).
  pose proof (sub_prefix data [] (zlen data) eq_refl) as E. rewrite app_nil_r in E. rewrite E in Hs.
  cbn [mbind option_bind encode getBase getLength m_pDataBuf m_nLen] in Hs.
  unfold encode in Hs. cbn [getBase getLength m_pDataBuf m_nLen mbind option_bind] in Hs.
  rewrite (proj2 (Z.eqb_neq _ _)) in Hs by lia.
  pose proof (encode_loop_spec data [] [0] (S (length (data ++ [0])))) as He. cbn [app] in He.
  change (zlen (@nil Z)) with 0 in He. rewrite He in Hs; [|rewrite length_app; cbn; lia|lia]. injection Hs as Hs.
  assert (content <> []) as Hne.
  { intros ->. destruct data as [|b0 [|b1 [|b2 data]]]; [by rewrite zlen_nil in Hn|done..]. }
  unfold decode. rewrite (proj2 (Z.eqb_neq (zlen content) 0)) by (destruct content; [done|]; rewrite zlen_cons; pose proof (zlen_nonneg content); lia).
  destruct (decode_loop_spec data content [] mem (S (length content)) (eq_sym Hs) Hb) as [rest Hd];
    [lia|lia|rewrite zlen_nil; lia|].
  cbn [app] in Hd. change (zlen (@nil Z)) with 0 in Hd. rewrite Hd. cbn [mbind option_bind]. unfold copy_bytes.
  rewrite Z.add_0_l. unfold u32. rewrite wrap_small, Z.ltb_irrefl by (unfold fits; lia).
  by rewrite (sub_prefix data rest).
Qed.

(** A string of four padding characters makes [decode] compute the length
    2^32-1 and copy that many bytes out of its buffer. *)
Theorem base64_padding_overruns mem (Hm : zlen mem = MAX_DEC_BUF_LEN) :
  decode mem [61; 61; 61; 61] = None.
Proof.
  destruct (zlen_ge3 mem) as (x & y & z & mem' & ->); [rewrite Hm; unfold MAX_DEC_BUF_LEN; lia|].
  unfold decode. change (zlen [61; 61; 61; 61] =? 0) with false. cbn iota.
  cbn [length decode_loop gather Z.eqb orb Pos.eqb decodeBuf dec_char Z.leb Z.compare Pos.compare Pos.compare_cont andb replicate].
  change (zlen [61; 61; 61; 61] =? 4) with true. cbn [negb].
  change (memcpy (x :: y :: z :: mem') 0 (dec_group [0; 0; 0; 0])) with
    (memcpy ([] ++ [x; y; z] ++ mem') 0 [0; 0; 0]).
  rewrite memcpy_mid by done. cbn [mbind option_bind]. unfold copy_bytes.
  by change (u32 (u32 (0 + u32 (3 - (4 - 0))) + 1) <? u32 (0 + u32 (3 - (4 - 0))) + 1) with true.
Qed.

(** ** Witnesses *)

Lemma zlen_demo_mem : zlen (replicate (Z.to_nat MAX_DEC_BUF_LEN) 0) = MAX_DEC_BUF_LEN.
Proof. unfold zlen. rewrite length_replicate. apply Z2Nat.id. by vm_compute. Qed.

Lemma demo_bytes : bytes_ok [77; 97; 110; 77].
Proof. repeat (apply Forall_cons; split; [unfold fits; lia|]). apply Forall_nil. done. Qed.

Lemma base64_roundtrip_witness :
  decode (replicate (Z.to_nat MAX_DEC_BUF_LEN) 0) [84; 87; 13; 10; 70; 117; 84; 81; 61; 61; 10] =
    Some (Some {| m_nLen := 4; m_pDataBuf := Some [77; 97; 110; 77; 0] |}).
Proof.
  exact (base64_roundtrip [77; 97; 110; 77] _ [84; 87; 13; 10; 70; 117; 84; 81; 61; 61; 10]
    demo_bytes ltac:(done) ltac:(done)
    zlen_demo_mem ltac:(by vm_compute)).
Defined.

Lemma base64_padding_overruns_witness :
  decode (replicate (Z.to_nat MAX_DEC_BUF_LEN) 0) [61; 61; 61; 61] = None.
Proof. exact (base64_padding_overruns _ zlen_demo_mem). Defined.
