(* ===== verification/PsToEs.v ===== *)
(** * Program stream to elementary streams: [svs_adapter_media_processor.cpp], lines 447-1638

    [CStreamPsMediaProcessorSet] takes the RTP packets of a program stream,
    finds the elementary stream packets in a frame and forwards their payload
    as RTP packets of the elementary stream, rewriting the message blocks in
    place where it can.

    A message block is its data block [mb_buf] with the offsets of [rd_ptr] and
    [wr_ptr]; a block of the frame list has a data block of its own. A list of
    blocks is passed to a method and what is left of it returned. The calls
    that leave the component are the [event]s; [allocMediaBlock] and
    [duplicate] take their answers from the state. [None] is an access outside a
    data block, the front of an empty list, or a block forwarded with [rd_ptr]
    behind [wr_ptr]. *)

From S2P Require Import Prelude RtpPacket RtpPacker.
Open Scope Z_scope.

(** ** Message blocks *)

Record mblk : Type := { mb_buf : list Z; mb_rd : Z; mb_wr : Z }.

Definition mb_length (b : mblk) : Z := u64 (mb_wr b - mb_rd b).
Definition mb_space (b : mblk) : Z := zlen (mb_buf b) - mb_wr b.

(** [rd_ptr (n)] and [wr_ptr (n)] move the pointers. *)
Definition rd_ptr (n : Z) (b : mblk) : mblk :=
  {| mb_buf := mb_buf b; mb_rd := mb_rd b + n; mb_wr := mb_wr b |}.
Definition wr_ptr (n : Z) (b : mblk) : mblk :=
  {| mb_buf := mb_buf b; mb_rd := mb_rd b; mb_wr := mb_wr b + n |}.
Definition with_buf (d : list Z) (b : mblk) : mblk :=
  {| mb_buf := d; mb_rd := mb_rd b; mb_wr := mb_wr b |}.

(** [rd_ptr ()[i]]. *)
Definition peek (b : mblk) (i : Z) : option Z := rd (mb_buf b) (mb_rd b + i).

(** The bytes from [rd_ptr] to [wr_ptr]. *)
Definition mb_data (b : mblk) : option (list Z) :=
  sub (mb_buf b) (mb_rd b) (mb_wr b - mb_rd b).

(** A store through a pointer into the data block. *)
Definition store_at (off : Z) (d : list Z) (b : mblk) : option mblk :=
  d ← memcpy (mb_buf b) off d; Some (with_buf d b).

(** [copy (src.rd_ptr (), n)]: nothing happens when the space is too short. *)
Definition mb_copy (src : mblk) (n : Z) (b : mblk) : option mblk :=
  if mb_space b <? n then Some b
  else
    d ← sub (mb_buf src) (mb_rd src) n;
    b ← store_at (mb_wr b) d b;
    Some (wr_ptr n b).

(** A comparison of the bytes at [rd_ptr] with constants, from left to right,
    stopping at the first that differs. *)
Fixpoint match_bytes (b : mblk) (i : Z) (l : list Z) : option bool :=
  match l with
  | [] => Some true
  | x :: l => y ← peek b i; if y =? x then match_bytes b (i + 1) l else Some false
  end.

(** ** The object *)

Inductive MPEGParseState : Set :=
| PARSING_PACK_HEADER | PARSING_SYSTEM_HEADER | PARSING_SYSMAP_HEADER
| PARSING_PRIVATE_HEADER | PARSING_PES_PACKET | PARSING_FOUND_DATA.

Definition PT_TYPE_PCMU : Z := 0.
Definition PT_TYPE_PCMA : Z := 8.
Definition PT_TYPE_MPEG4 : Z := 97.
Definition PT_TYPE_H264 : Z := 98.
Definition PT_TYPE_H265 : Z := 99.
Definition PT_TYPE_MAX : Z := 255.

Definition H264_NAL_UNDEFINED : Z := 0.
Definition H264_NAL_END : Z := 20.
Definition HEVC_NAL_END : Z := 41.
Definition H264_START_CODE : Z := 4.
Definition H265_START_CODE : Z := 4.

Record es_frame_info : Type := {
  fi_payload : Z; fi_length : Z; fi_streamId : Z; fi_timestamp : Z; fi_ssrc : Z }.

Definition with_payload (v : Z) (f : es_frame_info) : es_frame_info :=
  {| fi_payload := v; fi_length := fi_length f; fi_streamId := fi_streamId f;
     fi_timestamp := fi_timestamp f; fi_ssrc := fi_ssrc f |}.
Definition with_length (v : Z) (f : es_frame_info) : es_frame_info :=
  {| fi_payload := fi_payload f; fi_length := v; fi_streamId := fi_streamId f;
     fi_timestamp := fi_timestamp f; fi_ssrc := fi_ssrc f |}.
Definition with_streamId (v : Z) (f : es_frame_info) : es_frame_info :=
  {| fi_payload := fi_payload f; fi_length := fi_length f; fi_streamId := v;
     fi_timestamp := fi_timestamp f; fi_ssrc := fi_ssrc f |}.
Definition with_source (ts ssrc pt : Z) (f : es_frame_info) : es_frame_info :=
  {| fi_payload := pt; fi_length := fi_length f; fi_streamId := fi_streamId f;
     fi_timestamp := ts; fi_ssrc := ssrc |}.
Definition tick (f : es_frame_info) : es_frame_info :=
  with_source (u32 (fi_timestamp f + 1)) (fi_ssrc f) (fi_payload f) f.

Definition es_frame_info_zero : es_frame_info :=
  {| fi_payload := 0; fi_length := 0; fi_streamId := 0; fi_timestamp := 0; fi_ssrc := 0 |}.

Record PsSet : Type := {
  m_usRtpSeq : Z;
  m_enStatus : MPEGParseState;
  m_VideoPayload : Z;
  m_AudioPayload : Z;
  (** The answers of [allocMediaBlock] and [duplicate]. *)
  next_blocks : list (option mblk);
  next_dups : list bool }.

Definition with_seq (v : Z) (s : PsSet) : PsSet :=
  {| m_usRtpSeq := v; m_enStatus := m_enStatus s; m_VideoPayload := m_VideoPayload s;
     m_AudioPayload := m_AudioPayload s; next_blocks := next_blocks s; next_dups := next_dups s |}.
Definition with_status (v : MPEGParseState) (s : PsSet) : PsSet :=
  {| m_usRtpSeq := m_usRtpSeq s; m_enStatus := v; m_VideoPayload := m_VideoPayload s;
     m_AudioPayload := m_AudioPayload s; next_blocks := next_blocks s; next_dups := next_dups s |}.
Definition with_types (v a : Z) (s : PsSet) : PsSet :=
  {| m_usRtpSeq := m_usRtpSeq s; m_enStatus := m_enStatus s; m_VideoPayload := v;
     m_AudioPayload := a; next_blocks := next_blocks s; next_dups := next_dups s |}.
Definition with_answers (l : list (option mblk)) (d : list bool) (s : PsSet) : PsSet :=
  {| m_usRtpSeq := m_usRtpSeq s; m_enStatus := m_enStatus s; m_VideoPayload := m_VideoPayload s;
     m_AudioPayload := m_AudioPayload s; next_blocks := l; next_dups := d |}.

(** The constructor; [m_enStatus] is set when a frame is parsed. *)
Definition PsSet_new (blocks : list (option mblk)) (dups : list bool) : PsSet :=
  {| m_usRtpSeq := 0; m_enStatus := PARSING_PACK_HEADER; m_VideoPayload := PT_TYPE_H264;
     m_AudioPayload := PT_TYPE_PCMU; next_blocks := blocks; next_dups := dups |}.

Inductive event : Type :=
| Forward (p : list Z)     (* CStreamMediaProcessorSet::Send *)
| Allocated
| Duplicated
| Freed.

Abbreviation PM := (M PsSet event).

Definition allocMediaBlock : PM (option mblk) :=
  s ← get;
  match next_blocks s with
  | Some b :: l => modify (with_answers l (next_dups s)) ;; tell Allocated ;; mret (Some b)
  | None :: l => modify (with_answers l (next_dups s)) ;; mret None
  | [] => mret None
  end.

Definition duplicate (b : mblk) : PM (option mblk) :=
  s ← get;
  match next_dups s with
  | false :: l => modify (with_answers (next_blocks s) l) ;; mret None
  | true :: l => modify (with_answers (next_blocks s) l) ;; tell Duplicated ;; mret (Some b)
  | [] => tell Duplicated ;; mret (Some b)
  end.

Definition freeMediaBlock (b : mblk) : PM unit := tell Freed.

(** [CStreamMediaProcessorSet::Send]. *)
Definition forward (b : mblk) : PM unit := d ← lift (mb_data b); tell (Forward d).

Definition next_seq : PM Z :=
  s ← get; modify (with_seq (u16 (m_usRtpSeq s + 1))) ;; mret (m_usRtpSeq s).

(** The RTP header at [rd_ptr]: [GeneratePacket (rd_ptr, 12)] and the setters.
    The marker and the payload type are set when they are given; each setter
    writes bits of its own. *)
Definition put_header (ts ssrc seq : Z) (marker : bool) (pt : option Z) (b : mblk) : option mblk :=
  d ← sub (mb_buf b) (mb_rd b) RTP_FIXED_HEADER_SIZE;
  '(_, p) ← GeneratePacket (Some d) CRtpPacket_new;
  '(_, p) ← SetTimeStamp ts p;
  p ← SetSSRC ssrc p;
  '(_, p) ← SetSeqNum seq p;
  '(_, p) ← (if marker then SetMarker true p else Some (RET_OK, p));
  '(_, p) ← (match pt with Some pt => SetPayloadType pt p | None => Some (RET_OK, p) end);
  store_at (mb_rd b) (m_pRtpData p) b.

(** [ParsePacket (rd_ptr, length)] on a block. *)
Definition parse_mb (b : mblk) : option (SVS_RET_CODE * CRtpPacket * mblk) :=
  d ← mb_data b;
  '(r, p) ← ParsePacket (Some d) CRtpPacket_new;
  b ← (if zlen d <? RTP_FIXED_HEADER_SIZE then Some b else store_at (mb_rd b) (m_pRtpData p) b);
  Some (r, p, b).

(** [front] and [pop_front]. *)
Definition pop {A} (fl : list A) : PM (A * list A) :=
  match fl with [] => fault | b :: fl => mret (b, fl) end.

Abbreviation frame := (list mblk).

(** ** The headers of a program stream *)

(** The common end of the header methods: the header is skipped; a header
    that reaches behind the first block frees it and is continued in the next
    one. [None]: no block is left. *)
Definition skip_header (n : Z) (pMb : mblk) (fl : frame) : PM (option frame) :=
  let length := u32 (mb_length pMb) in
  if length <=? n then
    freeMediaBlock pMb ;;
    match fl with
    | [] => mret None
    | pMb :: fl =>
      let n := u32 (n - length) in
      mret (Some ((if 0 <? n then rd_ptr n pMb else pMb) :: fl))
    end
  else mret (Some ((if 0 <? n then rd_ptr n pMb else pMb) :: fl)).

Definition skip_to (st : MPEGParseState) (n : Z) (pMb : mblk) (fl : frame) : PM frame :=
  o ← skip_header n pMb fl;
  match o with
  | None => mret []
  | Some fl => modify (with_status st) ;; mret fl
  end.

(** [PackLength], most significant byte first in the stream. *)
Definition pack_length (b : mblk) : option Z :=
  b4 ← peek b 4; b5 ← peek b 5; Some (le16 b5 b4).

Definition ProgramStreamPackHeader (fl : frame) : PM frame :=
  '(pMb, fl) ← pop fl;
  ok ← lift (match_bytes pMb 0 [0; 0; 1; 0xBA]);
  if negb (ok : bool) then modify (with_status PARSING_SYSTEM_HEADER) ;; mret (pMb :: fl)
  else
    b13 ← lift (peek pMb 13);
    skip_to PARSING_SYSTEM_HEADER (14 + get_field 0 3 b13) pMb fl.

Definition ProgramSystemPackHeader (fl : frame) : PM frame :=
  '(pMb, fl) ← pop fl;
  ok ← lift (match_bytes pMb 0 [0; 0; 1; 0xBB]);
  if negb (ok : bool) then modify (with_status PARSING_SYSMAP_HEADER) ;; mret (pMb :: fl)
  else
    psm_length ← lift (pack_length pMb);
    skip_to PARSING_SYSMAP_HEADER (4 + 2 + psm_length) pMb fl.

(** The loop of lines 825-860; [off] is the offset of [buffer] from [rd_ptr].
    A turn takes at least 4 from the length. *)
Fixpoint map_loop (fuel : nat) (b : mblk) (off ulPsMapInfoLength : Z) : PM unit :=
  if ulPsMapInfoLength <? 4 then mret tt
  else
    match fuel with
    | O => fault
    | S fuel =>
      stream_type ← lift (peek b off);
      (if stream_type =? 0x10 then
         modify (fun s => with_types PT_TYPE_MPEG4 (m_AudioPayload s) s)
       else if stream_type =? 0x1b then
         modify (fun s => with_types PT_TYPE_H264 (m_AudioPayload s) s)
       else if stream_type =? 0x24 then
         modify (fun s => with_types PT_TYPE_H265 (m_AudioPayload s) s)
       else if stream_type =? 0x90 then
         modify (fun s => with_types (m_VideoPayload s) PT_TYPE_PCMA s)
       else mret tt) ;;
      b2 ← lift (peek b (off + 2));
      b3 ← lift (peek b (off + 3));
      let esInfoLen := le16 b3 b2 in
      map_loop fuel b (off + 4 + esInfoLen) (s32 (ulPsMapInfoLength - (4 + esInfoLen)))
    end.

Definition ProgramStreamMap (fl : frame) : PM frame :=
  '(pMb, fl) ← pop fl;
  if u32 (mb_length pMb) <? 10 then
    modify (with_status PARSING_PRIVATE_HEADER) ;; mret (pMb :: fl)
  else
    ok ← lift (match_bytes pMb 0 [0; 0; 1; 0xBC]);
    if negb (ok : bool) then modify (with_status PARSING_PRIVATE_HEADER) ;; mret (pMb :: fl)
    else
      psm_length ← lift (pack_length pMb);
      let ulPsMapLen := 4 + 2 + psm_length in
      let length := u32 (mb_length pMb) in
      s ← get;
      if negb (PT_TYPE_MAX =? m_VideoPayload s) then
        skip_to PARSING_PRIVATE_HEADER ulPsMapLen pMb fl
      else
        (* the pointer [buffer] stays in the first block *)
        let rest := if length <=? ulPsMapLen then u32 (ulPsMapLen - length) else ulPsMapLen in
        match (length <=? ulPsMapLen), fl with
        | true, [] => freeMediaBlock pMb ;; mret []
        | _, _ =>
          b8 ← lift (peek pMb 8);
          b9 ← lift (peek pMb 9);
          let info := le16 b9 b8 in
          let len := s32 (rest - 10 - info - 2 - 4) in
          map_loop (Z.to_nat len) pMb (10 + info + 2) len ;;
          skip_to PARSING_PRIVATE_HEADER ulPsMapLen pMb fl
        end.

Definition ProgramPrivateHeader (fl : frame) : PM frame :=
  '(pMb, fl) ← pop fl;
  if u32 (mb_length pMb) <? 6 then
    modify (with_status PARSING_PES_PACKET) ;; mret (pMb :: fl)
  else
    ok ← lift (match_bytes pMb 0 [0; 0; 1]);
    id ← (if (ok : bool) then lift (peek pMb 3) else mret 0);
    if negb (ok && ((id =? 0xBD) || (id =? 0xBE) || (id =? 0xBF))) then
      modify (with_status PARSING_PES_PACKET) ;; mret (pMb :: fl)
    else
      psm_length ← lift (pack_length pMb);
      skip_to PARSING_PES_PACKET (6 + psm_length) pMb fl.

(** ** Elementary stream packets *)

(** The comparison with a start code. *)
Definition has_start_code (b : mblk) : PM bool := lift (match_bytes b 0 [0; 0; 0; 1]).

(** Send and free a block of the frame or one of the pool. *)
Definition send_free (b : mblk) : PM unit := forward b ;; freeMediaBlock b.

Definition RTP_HEAD : Z := RTP_FIXED_HEADER_SIZE.

(** The payload type of the audio path; other streams keep the one
    [GeneratePacket] wrote. *)
Definition stream_pt (s : PsSet) (fi : es_frame_info) : option Z :=
  if fi_streamId fi =? 0xC0 then Some (m_AudioPayload s)
  else if fi_streamId fi =? 0xE0 then Some (m_VideoPayload s) else None.

(** The loop of lines 1056-1121. *)
Fixpoint audio_loop (fi : es_frame_info) (ulEsLen : Z) (fl : frame) : PM frame :=
  match fl with
  | [] => mret []
  | pMb :: rest =>
    if ulEsLen =? 0 then mret fl
    else if mb_length pMb <=? ulEsLen then
      let ulEsLen := u32 (ulEsLen - mb_length pMb) in
      let pMb := rd_ptr (- RTP_HEAD) pMb in
      seq ← next_seq;
      s ← get;
      pMb ← lift (put_header (fi_timestamp fi) (fi_ssrc fi) seq (ulEsLen =? 0) (stream_pt s fi) pMb);
      send_free pMb ;;
      audio_loop fi ulEsLen rest
    else
      o ← allocMediaBlock;
      match o with
      | None => mret ()
      | Some pSendMb =>
        seq ← next_seq;
        s ← get;
        pSendMb ← lift (put_header (fi_timestamp fi) (fi_ssrc fi) seq true (stream_pt s fi) pSendMb);
        pSendMb ← lift (mb_copy pMb ulEsLen (wr_ptr RTP_HEAD pSendMb));
        send_free pSendMb
      end ;;
      mret (rd_ptr ulEsLen pMb :: rest)
  end.

(** Front of an empty list, when bytes are to be sent. *)
Definition need_front (ulEsLen : Z) (fl : frame) : PM unit :=
  match fl with [] => if ulEsLen =? 0 then mret () else fault | _ => mret () end.

(** The mutual recursion with [ProgramKnowFrame] is opened by an argument. *)
Definition sendEsAudioFrame_with (know : es_frame_info -> frame -> PM (es_frame_info * frame))
    (fi : es_frame_info) (fl : frame) : PM (es_frame_info * frame) :=
  s ← get;
  if PT_TYPE_MAX =? m_AudioPayload s then know fi fl
  else
    need_front (fi_length fi) fl ;;
    fl ← audio_loop fi (fi_length fi) fl;
    mret (tick fi, fl).

Definition sendH264EsSigleNalu (fi : es_frame_info) (fl : frame) : PM frame :=
  '(pMb, rest) ← pop fl;
  let ulEsLen := fi_length fi in
  s ← get;
  if ulEsLen =? mb_length pMb then
    sc ← has_start_code pMb;
    let pMb := if (sc : bool) then rd_ptr H264_START_CODE pMb else pMb in
    let pMb := rd_ptr (- RTP_HEAD) pMb in
    seq ← next_seq;
    pMb ← lift (put_header (fi_timestamp fi) (fi_ssrc fi) seq true (Some (m_VideoPayload s)) pMb);
    send_free pMb ;;
    mret rest
  else if ulEsLen <? mb_length pMb then
    o ← allocMediaBlock;
    match o with
    | None => mret (rd_ptr ulEsLen pMb :: rest)
    | Some pSendMb =>
      seq ← next_seq;
      pSendMb ← lift (put_header (fi_timestamp fi) (fi_ssrc fi) seq true (Some (m_VideoPayload s)) pSendMb);
      sc ← (if fi_streamId fi =? 0xE0 then has_start_code pMb else mret false);
      let '(pMb, ulEsLen) := if (sc : bool)
        then (rd_ptr H264_START_CODE pMb, u32 (ulEsLen - H264_START_CODE)) else (pMb, ulEsLen) in
      pSendMb ← lift (mb_copy pMb ulEsLen (wr_ptr RTP_HEAD pSendMb));
      send_free pSendMb ;;
      mret (rd_ptr ulEsLen pMb :: rest)
    end
  else mret fl.

(** The FU indicator and header at [off], assigned field by field. *)
Definition put_fu (off nalu_hdr S E : Z) (b : mblk) : option mblk :=
  d ← set_bits off 7 1 (nalu_F nalu_hdr) (mb_buf b);
  d ← set_bits off 5 2 (nalu_NRI nalu_hdr) d;
  d ← set_bits off 0 5 RTP_FUA d;
  d ← set_bits (off + 1) 7 1 S d;
  d ← set_bits (off + 1) 6 1 E d;
  d ← set_bits (off + 1) 5 1 0 d;
  d ← set_bits (off + 1) 0 5 (nalu_TYPE nalu_hdr) d;
  Some (with_buf d b).

(** The loop of lines 1244-1356. [nalu_hdr] is the local variable, which has no
    value before the first start code. *)
Fixpoint fu_loop (fi : es_frame_info) (nalu_hdr : Z) (bStart : bool) (ulEsLen : Z) (fl : frame) : PM frame :=
  match fl with
  | [] => mret []
  | pMb :: rest =>
    if ulEsLen =? 0 then mret fl
    else
      s ← get;
      if mb_length pMb <=? ulEsLen then
        let ulEsLen := u32 (ulEsLen - mb_length pMb) in
        sc ← has_start_code pMb;
        nalu_hdr ← (if (sc : bool) then lift (peek pMb H264_START_CODE) else mret nalu_hdr);
        let pMb := if (sc : bool) then rd_ptr 1 (rd_ptr H264_START_CODE pMb) else pMb in
        let pMb := rd_ptr (-2) pMb in
        pMb ← lift (put_fu (mb_rd pMb) nalu_hdr (Z.b2z bStart) (Z.b2z (ulEsLen =? 0)) pMb);
        let pMb := rd_ptr (- RTP_HEAD) pMb in
        seq ← next_seq;
        pMb ← lift (put_header (fi_timestamp fi) (fi_ssrc fi) seq (ulEsLen =? 0)
                      (Some (m_VideoPayload s)) pMb);
        send_free pMb ;;
        fu_loop fi nalu_hdr false ulEsLen rest
      else
        o ← allocMediaBlock;
        '(pMb, ulEsLen) ←
          match o with
          | None => mret (pMb, ulEsLen)
          | Some pSendMb =>
            seq ← next_seq;
            pSendMb ← lift (put_header (fi_timestamp fi) (fi_ssrc fi) seq true
                              (Some (m_VideoPayload s)) pSendMb);
            sc ← has_start_code pMb;
            nalu_hdr ← (if (sc : bool) then lift (peek pMb H264_START_CODE) else mret nalu_hdr);
            let '(pMb, ulEsLen) := if (sc : bool)
              then (rd_ptr 1 (rd_ptr H264_START_CODE pMb), u32 (ulEsLen - 1)) else (pMb, ulEsLen) in
            let pSendMb := wr_ptr RTP_HEAD pSendMb in
            pSendMb ← lift (put_fu (mb_wr pSendMb) nalu_hdr 0 1 pSendMb);
            pSendMb ← lift (mb_copy pMb ulEsLen (wr_ptr 2 pSendMb));
            send_free pSendMb ;;
            mret (pMb, ulEsLen)
          end;
        mret (rd_ptr ulEsLen pMb :: rest)
  end.

(** [junk] is what the uninitialised [nalu_hdr] holds. *)
Definition sendH264EsFuNale (junk : Z) (fi : es_frame_info) (fl : frame) : PM frame :=
  need_front (fi_length fi) fl ;; fu_loop fi junk true (fi_length fi) fl.

Definition H265_NAL_SIZE : Z := 2.

Definition sendH265EsSigleNalu (fi : es_frame_info) (fl : frame) : PM frame :=
  '(pMb, rest) ← pop fl;
  let ulEsLen := fi_length fi in
  s ← get;
  if ulEsLen =? mb_length pMb then
    sc ← has_start_code pMb;
    let pMb := if (sc : bool) then rd_ptr H265_START_CODE pMb else pMb in
    let pMb := rd_ptr (- RTP_HEAD - H265_NAL_SIZE) pMb in
    pMb ← lift (store_at (mb_rd pMb + RTP_HEAD) [96; 1] pMb);
    seq ← next_seq;
    pMb ← lift (put_header (fi_timestamp fi) (fi_ssrc fi) seq true (Some (m_VideoPayload s)) pMb);
    send_free pMb ;;
    mret rest
  else if ulEsLen <? mb_length pMb then
    o ← allocMediaBlock;
    match o with
    | None => mret (rd_ptr ulEsLen pMb :: rest)
    | Some pSendMb =>
      seq ← next_seq;
      pSendMb ← lift (put_header (fi_timestamp fi) (fi_ssrc fi) seq true (Some (m_VideoPayload s)) pSendMb);
      sc ← (if fi_streamId fi =? 0xE0 then has_start_code pMb else mret false);
      let '(pMb, ulEsLen) := if (sc : bool)
        then (rd_ptr H265_START_CODE pMb, u32 (ulEsLen - H265_START_CODE)) else (pMb, ulEsLen) in
      (* the header of the aggregation packet goes behind the source block *)
      pMb ← lift (store_at (mb_wr pMb) [96; 1] pMb);
      pSendMb ← lift (mb_copy pMb ulEsLen (wr_ptr H265_NAL_SIZE (wr_ptr RTP_HEAD pSendMb)));
      send_free pSendMb ;;
      mret (rd_ptr ulEsLen pMb :: rest)
    end
  else mret fl.

Definition nal_type_265 (value : Z) : Z := Z.land (Z.shiftr value 1) 0x3F.

(** The three bytes of an H.265 fragment, and the end bit. *)
Definition fu_265 (nal_type : Z) (bStart : bool) : list Z :=
  [98; 1; if bStart then Z.lor nal_type 128 else nal_type].

(** The end bit goes to the third byte from the RTP header on: [rd_ptr] has
    moved there (lines 1516 and 1526). *)
Definition set_end (b : mblk) : option mblk :=
  v ← peek b 2; store_at (mb_rd b + 2) [Z.lor v 64] b.

(** The loop of lines 1452-1605. *)
Fixpoint fu_loop_265 (fi : es_frame_info) (nal_type : Z) (bStart : bool) (ulEsLen : Z) (fl : frame)
    : PM frame :=
  match fl with
  | [] => mret []
  | pMb :: rest =>
    if ulEsLen =? 0 then mret fl
    else
      s ← get;
      if mb_length pMb <=? ulEsLen then
        let ulEsLen := u32 (ulEsLen - mb_length pMb) in
        sc ← has_start_code pMb;
        nal_type ← (if (sc : bool) then v ← lift (peek pMb H265_START_CODE); mret (nal_type_265 v)
                    else mret nal_type);
        let pMb := if (sc : bool) then rd_ptr H265_NAL_SIZE (rd_ptr H265_START_CODE pMb) else pMb in
        let pMb := rd_ptr (-3) pMb in
        pMb ← lift (store_at (mb_rd pMb) (fu_265 nal_type bStart) pMb);
        let pMb := rd_ptr (- RTP_HEAD) pMb in
        seq ← next_seq;
        pMb ← lift (put_header (fi_timestamp fi) (fi_ssrc fi) seq (ulEsLen =? 0)
                      (Some (m_VideoPayload s)) pMb);
        pMb ← (if ulEsLen =? 0 then lift (set_end pMb) else mret pMb);
        send_free pMb ;;
        fu_loop_265 fi nal_type false ulEsLen rest
      else
        o ← allocMediaBlock;
        '(pMb, ulEsLen) ←
          match o with
          | None => mret (pMb, ulEsLen)
          | Some pSendMb =>
            seq ← next_seq;
            pSendMb ← lift (put_header (fi_timestamp fi) (fi_ssrc fi) seq true
                              (Some (m_VideoPayload s)) pSendMb);
            sc ← has_start_code pMb;
            nal_type ← (if (sc : bool) then v ← lift (peek pMb H265_START_CODE); mret (nal_type_265 v)
                        else mret nal_type);
            let '(pMb, ulEsLen) := if (sc : bool)
              then (rd_ptr H265_NAL_SIZE (rd_ptr H265_START_CODE pMb), u32 (ulEsLen - H265_NAL_SIZE))
              else (pMb, ulEsLen) in
            let pSendMb := wr_ptr 3 (wr_ptr RTP_HEAD pSendMb) in
            (* the fragment header goes to the source block (line 1576) *)
            pMb ← lift (store_at (mb_rd pMb) [98; 1; Z.lor nal_type 64] pMb);
            pSendMb ← lift (mb_copy pMb ulEsLen pSendMb);
            send_free pSendMb ;;
            mret (pMb, ulEsLen)
          end;
        mret (rd_ptr ulEsLen pMb :: rest)
  end.

Definition sendH265EsFuNale (fi : es_frame_info) (fl : frame) : PM frame :=
  need_front (fi_length fi) fl ;; fu_loop_265 fi 0 true (fi_length fi) fl.

Definition sendEsVideoFrame_with (know : es_frame_info -> frame -> PM (es_frame_info * frame)) (junk : Z)
    (fi : es_frame_info) (fl : frame) : PM (es_frame_info * frame) :=
  '(pMb, _) ← pop fl;
  s ← get;
  if PT_TYPE_MAX =? m_VideoPayload s then mret (fi, fl)
  else if PT_TYPE_H264 =? fi_payload fi then
    fl ← (if fi_length fi <=? mb_length pMb then sendH264EsSigleNalu fi fl
          else sendH264EsFuNale junk fi fl);
    mret (fi, fl)
  else if PT_TYPE_H265 =? fi_payload fi then
    fl ← (if fi_length fi <=? mb_length pMb then sendH265EsSigleNalu fi fl
          else sendH265EsFuNale fi fl);
    mret (fi, fl)
  else know fi fl.

(** [F] and [TYPE] of an [H265_NALU_HEADER]. *)
Definition h265_F (h : Z) : Z := get_field 7 1 h.
Definition h265_TYPE (h : Z) : Z := get_field 1 6 h.

(** What the byte behind a start code is taken for (lines 1011-1030). *)
Definition nal_kind (h : Z) : option Z :=
  if (nalu_F h =? 0) && ((H264_NAL_UNDEFINED <? nalu_TYPE h) || (nalu_TYPE h <? H264_NAL_END))
  then Some PT_TYPE_H264
  else if (h265_F h =? 0) && (h265_TYPE h <? HEVC_NAL_END) then Some PT_TYPE_H265
  else None.

(** [fuel]: the depth of the recursion. *)
Fixpoint ProgramKnowFrame (fuel : nat) (junk : Z) (fi : es_frame_info) (fl : frame)
    : PM (es_frame_info * frame) :=
  match fuel with
  | O => fault
  | S fuel =>
    '(pMb, _) ← pop fl;
    sc ← has_start_code pMb;
    if (sc : bool) then
      h ← lift (peek pMb 4);
      match nal_kind h with
      | Some pt => sendEsVideoFrame_with (ProgramKnowFrame fuel junk) junk (with_payload pt fi) fl
      | None => mret (fi, fl)
      end
    else
      sendEsAudioFrame_with (ProgramKnowFrame fuel junk) (with_payload PT_TYPE_PCMU fi) fl
  end.

(** Two calls are enough: the payload types are never [PT_TYPE_MAX], and the
    second call is made with H.264 or H.265. *)
Definition KNOW_DEPTH : nat := 3.
Definition sendEsAudioFrame (junk : Z) := sendEsAudioFrame_with (ProgramKnowFrame KNOW_DEPTH junk).
Definition sendEsVideoFrame (junk : Z) := sendEsVideoFrame_with (ProgramKnowFrame KNOW_DEPTH junk) junk.

(** The loop of [skipunKnowFrame]. *)
Fixpoint skip_loop (ulEsLen : Z) (fl : frame) : PM frame :=
  match fl with
  | [] => mret []
  | pMb :: rest =>
    if ulEsLen =? 0 then mret fl
    else if mb_length pMb <=? ulEsLen then
      freeMediaBlock pMb ;; skip_loop (u32 (ulEsLen - mb_length pMb)) rest
    else mret (rd_ptr ulEsLen pMb :: rest)
  end.

Definition skipunKnowFrame (fi : es_frame_info) (fl : frame) : PM frame :=
  need_front (fi_length fi) fl ;; skip_loop (fi_length fi) fl.

(** The stream id is read again behind [skip_header] (lines 982 and 988), when
    the block may have been freed: the caller still holds its data block. *)
Definition ProgramEStramHead (junk : Z) (fi : es_frame_info) (fl : frame) : PM (es_frame_info * frame) :=
  '(pMb, rest) ← pop fl;
  ok ← lift (match_bytes pMb 0 [0; 0; 1]);
  if negb (ok : bool) then modify (with_status PARSING_FOUND_DATA) ;; mret (fi, fl)
  else if u32 (mb_length pMb) <? 9 then modify (with_status PARSING_FOUND_DATA) ;; mret (fi, fl)
  else
    pse_length ← lift (pack_length pMb);
    stuffing_length ← lift (peek pMb 8);
    stream_id ← lift (peek pMb 3);
    let fi := with_streamId stream_id (with_length (u32 (pse_length - 3 - stuffing_length)) fi) in
    o ← skip_header (9 + stuffing_length) pMb rest;
    match o with
    | None => mret (fi, [])
    | Some fl =>
      modify (with_status PARSING_PES_PACKET) ;;
      s ← get;
      if stream_id =? 0xC0 then sendEsAudioFrame junk (with_payload (m_AudioPayload s) fi) fl
      else if stream_id =? 0xE0 then sendEsVideoFrame junk (with_payload (m_VideoPayload s) fi) fl
      else fl ← skipunKnowFrame fi fl; mret (fi, fl)
    end.

(** ** A frame *)

(** The loop of [SkipAllRtpHead] over the blocks of the caller; [acc] are the
    blocks of the new list. *)
Fixpoint skip_rtp_loop (fi : es_frame_info) (fl acc : frame)
    : PM (SVS_RET_CODE * es_frame_info * frame) :=
  match fl with
  | [] => mret (RET_OK, fi, acc)
  | pMb :: fl =>
    o ← duplicate pMb;
    match o with
    | None => mret (RET_FAIL, fi, acc)
    | Some pNewMb =>
      '(r, p, pNewMb) ← lift (parse_mb pNewMb);
      if decide (r ≠ RET_OK) then mret (RET_FAIL, fi, acc ++ [pNewMb])
      else
        let pNewMb := rd_ptr (GetHeadLen p) pNewMb in
        skip_rtp_loop (with_length (u32 (fi_length fi + mb_length pNewMb)) fi) fl (acc ++ [pNewMb])
    end
  end.

Definition SkipAllRtpHead (fi : es_frame_info) (rtpFrameList : frame)
    : PM (SVS_RET_CODE * es_frame_info * frame) :=
  '(pMb, rest) ← pop rtpFrameList;
  '(r, p, pMb) ← lift (parse_mb pMb);
  if decide (r ≠ RET_OK) then mret (RET_FAIL, fi, [])
  else
    ts ← lift (GetTimeStamp p);
    ssrc ← lift (GetSSRC p);
    pt ← lift (GetPayloadType p);
    skip_rtp_loop (with_source ts ssrc pt fi) (pMb :: rest) [].

(** The loop of [dealProgramStreamRtpFrame] once the RTP headers are skipped;
    [None] for the result: fuel ran out. *)
Fixpoint deal_loop (fuel : nat) (junk : Z) (fi : es_frame_info) (fl : frame) : PM (option frame) :=
  match fuel with
  | O => mret None
  | S fuel =>
    match fl with
    | [] => mret (Some [])
    | _ =>
      s ← get;
      '(fi, fl) ←
        match m_enStatus s with
        | PARSING_PACK_HEADER => fl ← ProgramStreamPackHeader fl; mret (fi, fl)
        | PARSING_SYSTEM_HEADER => fl ← ProgramSystemPackHeader fl; mret (fi, fl)
        | PARSING_SYSMAP_HEADER => fl ← ProgramStreamMap fl; mret (fi, fl)
        | PARSING_PRIVATE_HEADER => fl ← ProgramPrivateHeader fl; mret (fi, fl)
        | PARSING_PES_PACKET => ProgramEStramHead junk fi fl
        | PARSING_FOUND_DATA => ProgramKnowFrame KNOW_DEPTH junk fi fl
        end;
      deal_loop fuel junk fi fl
    end
  end.

Fixpoint free_all (fl : frame) : PM unit :=
  match fl with [] => mret () | b :: fl => freeMediaBlock b ;; free_all fl end.

Definition dealProgramStreamRtpFrame (fuel : nat) (junk : Z) (fi : es_frame_info) (rtpFrameList : frame)
    : PM (option unit) :=
  modify (with_status PARSING_PACK_HEADER) ;;
  '(r, fi, fl) ← SkipAllRtpHead fi rtpFrameList;
  if decide (r ≠ RET_OK) then free_all fl ;; mret (Some ())
  else
    o ← deal_loop fuel junk fi fl;
    match o with
    | None => mret None
    | Some fl => free_all fl ;; mret (Some ())
    end.

(** The front block is parsed in place; a parse failure returns [RET_FAIL] as a
    [bool], which is [true]. The three comparisons are joined by [||]. *)
Definition checkProgramStreamHead (fi : es_frame_info) (rtpFrameList : frame)
    : PM (bool * es_frame_info * frame) :=
  '(pMb, rest) ← pop rtpFrameList;
  '(r, p, pMb) ← lift (parse_mb pMb);
  let fl := pMb :: rest in
  if decide (r ≠ RET_OK) then mret (true, fi, fl)
  else
    let buffer := rd_ptr (GetHeadLen p) pMb in
    b0 ← lift (peek buffer 0);
    if b0 =? 0 then mret (true, fi, fl)
    else
      b1 ← lift (peek buffer 1);
      if b1 =? 0 then mret (true, fi, fl)
      else
        b2 ← lift (peek buffer 2);
        if b2 =? 1 then mret (true, fi, fl)
        else
          sc ← has_start_code buffer;
          if (sc : bool) then
            h ← lift (peek buffer 4);
            let fi := if (nalu_F h =? 0) &&
                ((H264_NAL_UNDEFINED <? nalu_TYPE h) || (nalu_TYPE h <? H264_NAL_END))
              then with_payload PT_TYPE_H264 fi else fi in
            let fi := if (h265_F h =? 0) && (h265_TYPE h <? HEVC_NAL_END)
              then with_payload PT_TYPE_H265 fi else fi in
            mret (false, fi, fl)
          else mret (false, with_payload PT_TYPE_PCMU fi, fl).

(** The loop of lines 489-502. *)
Fixpoint direct_loop (fl : frame) : PM unit :=
  match fl with
  | [] => mret ()
  | pMb :: fl =>
    '(r, _, pMb) ← lift (parse_mb pMb);
    if decide (r ≠ RET_OK) then mret () else forward pMb ;; direct_loop fl
  end.

Definition handleRtpFrame (fuel : nat) (junk : Z) (rtpFrameList : frame) : PM (option unit) :=
  '(bPsStream, fi, fl) ← checkProgramStreamHead es_frame_info_zero rtpFrameList;
  if (bPsStream : bool) then dealProgramStreamRtpFrame fuel junk fi fl
  else direct_loop fl ;; mret (Some ()).

(** ** Lemmas: the payload types *)

(** A method that leaves the payload types as the constructor set them. *)
Definition typed (s : PsSet) : Prop := m_VideoPayload s = PT_TYPE_H264 /\ m_AudioPayload s = PT_TYPE_PCMU.
Definition keeps_types {A} (m : PM A) : Prop :=
  forall s a s' o, m s = Some (a, s', o) -> typed s -> typed s'.

Create HintDb types.

Lemma types_bind {A B} (m : PM A) (k : A -> PM B) :
  keeps_types m -> (forall a, keeps_types (k a)) -> keeps_types (m ≫= k).
Proof.
  intros Hm Hk s b s' o E Ht. apply bind_inv in E as (a & s1 & o1 & o2 & E1 & E2 & _).
  eapply Hk; [exact E2|]. by eapply Hm.
Qed.

Lemma types_get_bind {B} (k : PsSet -> PM B) :
  (forall s, typed s -> forall b s' o, k s s = Some (b, s', o) -> typed s') -> keeps_types (get ≫= k).
Proof. intros Hk s b s' o. rewrite get_bind. intros E Ht. by eapply Hk. Qed.

Lemma types_ret {A} (a : A) : keeps_types (mret a).
Proof. by intros s b s' o [= _ <- _]. Qed.
Lemma types_get : keeps_types get.
Proof. by intros s b s' o [= _ <- _]. Qed.
Lemma types_tell e : keeps_types (tell e).
Proof. by intros s b s' o [= _ <- _]. Qed.
Lemma types_fault {A} : keeps_types (fault (A := A)).
Proof. done. Qed.
Lemma types_lift {A} (x : option A) : keeps_types (lift x).
Proof. intros s b s' o E. destruct x; [|done]. by injection E as _ <- _. Qed.
Lemma types_modify f : (forall s, typed s -> typed (f s)) -> keeps_types (modify f).
Proof. intros Hf s b s' o [= _ <- _]. apply Hf. Qed.

#[local] Hint Resolve types_ret types_get types_tell types_fault types_lift : types.

(** Break a method down to the steps it is made of. *)
Ltac types := repeat first
  [ progress auto with types
  | apply types_bind; [|intros ?]
  | apply types_modify; by intros ? [? ?]
  | progress intros
  | match goal with |- keeps_types (match ?x with _ => _ end) => destruct x end ].

Lemma types_alloc : keeps_types allocMediaBlock.
Proof. unfold allocMediaBlock. types. Qed.
Lemma types_dup b : keeps_types (duplicate b).
Proof. unfold duplicate. types. Qed.
Lemma types_seq : keeps_types next_seq.
Proof. unfold next_seq. types. Qed.
Lemma types_pop {A} (fl : list A) : keeps_types (pop fl).
Proof. unfold pop. types. Qed.
Lemma types_send_free b : keeps_types (send_free b).
Proof. unfold send_free, forward, freeMediaBlock. types. Qed.
Lemma types_free b : keeps_types (freeMediaBlock b).
Proof. unfold freeMediaBlock. types. Qed.
Lemma types_start b : keeps_types (has_start_code b).
Proof. unfold has_start_code. types. Qed.
#[local] Hint Resolve types_alloc types_dup types_seq @types_pop types_send_free types_free types_start : types.

Lemma types_skip st n b fl : keeps_types (skip_to st n b fl).
Proof. unfold skip_to, skip_header. types. Qed.
Lemma types_need n fl : keeps_types (need_front n fl).
Proof. unfold need_front. types. Qed.
#[local] Hint Resolve types_skip types_need : types.

Lemma types_audio fi fl : forall n, keeps_types (audio_loop fi n fl).
Proof. induction fl as [|b fl IH]; intros n; cbn [audio_loop]; types. Qed.
Lemma types_fu fi fl : forall h st n, keeps_types (fu_loop fi h st n fl).
Proof. induction fl as [|b fl IH]; intros h st n; cbn [fu_loop]; types. Qed.
Lemma types_fu_265 fi fl : forall h st n, keeps_types (fu_loop_265 fi h st n fl).
Proof. induction fl as [|b fl IH]; intros h st n; cbn [fu_loop_265]; types. Qed.
Lemma types_skip_loop fl : forall n, keeps_types (skip_loop n fl).
Proof. induction fl as [|b fl IH]; intros n; cbn [skip_loop]; types. Qed.
#[local] Hint Resolve types_audio types_fu types_fu_265 types_skip_loop : types.

Lemma types_single fi fl : keeps_types (sendH264EsSigleNalu fi fl).
Proof. unfold sendH264EsSigleNalu. types. Qed.
Lemma types_single_265 fi fl : keeps_types (sendH265EsSigleNalu fi fl).
Proof. unfold sendH265EsSigleNalu. types. Qed.
#[local] Hint Resolve types_single types_single_265 : types.

Lemma types_audio_with know fi fl : (forall fi fl, keeps_types (know fi fl)) ->
  keeps_types (sendEsAudioFrame_with know fi fl).
Proof. intros Hk. unfold sendEsAudioFrame_with. types. Qed.
Lemma types_video_with know junk fi fl : (forall fi fl, keeps_types (know fi fl)) ->
  keeps_types (sendEsVideoFrame_with know junk fi fl).
Proof. intros Hk. unfold sendEsVideoFrame_with, sendH264EsFuNale, sendH265EsFuNale. types. Qed.

Lemma types_know n junk : forall fi fl, keeps_types (ProgramKnowFrame n junk fi fl).
Proof.
  induction n as [|n IH]; intros fi fl; cbn [ProgramKnowFrame]; [types|].
  apply types_bind; [types|]. intros [b rest]. apply types_bind; [types|]. intros sc.
  destruct sc; [|by apply types_audio_with]. apply types_bind; [types|]. intros h.
  destruct (nal_kind h); [by apply types_video_with|types].
Qed.
#[local] Hint Resolve types_know : types.

Lemma types_map fl : keeps_types (ProgramStreamMap fl).
Proof.
  unfold ProgramStreamMap. apply types_bind; [types|]. intros [b rest].
  destruct (_ <? _); [types|]. apply types_bind; [types|]. intros ok.
  destruct ok; [|types]. cbn [negb]. apply types_bind; [types|]. intros n.
  apply types_get_bind. intros s [Hv Ha] b' s' o. rewrite Hv.
  change (negb (PT_TYPE_MAX =? PT_TYPE_H264)) with true. cbv iota. intros E.
  by eapply types_skip.
Qed.
#[local] Hint Resolve types_map : types.

Lemma types_pes junk fi fl : keeps_types (ProgramEStramHead junk fi fl).
Proof.
  unfold ProgramEStramHead, skip_header, sendEsAudioFrame, sendEsVideoFrame, skipunKnowFrame.
  types; by (apply types_audio_with || apply types_video_with); intros; apply types_know.
Qed.
#[local] Hint Resolve types_pes : types.

Lemma types_deal n junk : forall fi fl, keeps_types (deal_loop n junk fi fl).
Proof.
  induction n as [|n IH]; intros fi fl; cbn [deal_loop]; [types|].
  unfold ProgramStreamPackHeader, ProgramSystemPackHeader, ProgramPrivateHeader. types.
Qed.
Lemma types_free_all fl : keeps_types (free_all fl).
Proof. induction fl; cbn [free_all]; types. Qed.
Lemma types_skip_rtp fl : forall fi acc, keeps_types (skip_rtp_loop fi fl acc).
Proof. induction fl as [|b fl IH]; intros fi acc; cbn [skip_rtp_loop]; types. Qed.
Lemma types_direct fl : keeps_types (direct_loop fl).
Proof. induction fl; cbn [direct_loop]; unfold forward; types. Qed.
#[local] Hint Resolve types_deal types_free_all types_skip_rtp types_direct : types.

Lemma types_handle n junk fl : keeps_types (handleRtpFrame n junk fl).
Proof. unfold handleRtpFrame, checkProgramStreamHead, dealProgramStreamRtpFrame, SkipAllRtpHead. types. Qed.

(** ** Lemmas: the blocks *)

Definition makes (e : event) : nat := match e with Allocated | Duplicated => 1 | _ => 0 end.
Definition frees (e : event) : nat := match e with Freed => 1 | _ => 0 end.
Definition made (o : list event) : nat := sum_list_with makes o.
Definition freed (o : list event) : nat := sum_list_with frees o.

(** A method that starts with [n] blocks in its hands and returns with [g] of
    its result gives back the blocks it does not keep. *)
Definition bal {A} (m : PM A) (n : nat) (g : A -> nat) : Prop :=
  forall s a s' o, m s = Some (a, s', o) -> (freed o + g a = made o + n)%nat.
Definition quiet {A} (m : PM A) : Prop :=
  forall s a s' o, m s = Some (a, s', o) -> freed o = 0%nat /\ made o = 0%nat.

Lemma blocks_made_app o o' : made (o ++ o') = (made o + made o')%nat.
Proof. apply sum_list_with_app. Qed.
Lemma blocks_freed_app o o' : freed (o ++ o') = (freed o + freed o')%nat.
Proof. apply sum_list_with_app. Qed.

Lemma bal_bind {A B} (m : PM A) (k : A -> PM B) n g h :
  bal m n g -> (forall a, bal (k a) (g a) h) -> bal (m ≫= k) n h.
Proof.
  intros Hm Hk s b s' o E. apply bind_inv in E as (a & s1 & o1 & o2 & E1 & E2 & ->).
  apply Hm in E1. apply Hk in E2. rewrite blocks_freed_app, blocks_made_app. lia.
Qed.

Lemma quiet_bal {A} (m : PM A) n : quiet m -> bal m n (fun _ => n).
Proof. intros Hm s a s' o E. apply Hm in E. lia. Qed.

Lemma bal_quiet {A B} (m : PM A) (k : A -> PM B) n h :
  quiet m -> (forall a, bal (k a) n h) -> bal (m ≫= k) n h.
Proof. intros Hm. apply bal_bind. by apply quiet_bal. Qed.

Lemma bal_ret {A} (a : A) n g : n = g a -> bal (mret a) n g.
Proof. by intros -> s b s' o [= <- _ <-]. Qed.
Lemma bal_fault {A} n (g : A -> nat) : bal fault n g.
Proof. done. Qed.
Lemma bal_eq {A} (m : PM A) n n' g : bal m n' g -> n = n' -> bal m n g.
Proof. by intros H ->. Qed.

Lemma calm_ret {A} (a : A) : quiet (mret a).
Proof. by intros s b s' o [= _ _ <-]. Qed.
Lemma quiet_get : quiet get.
Proof. by intros s b s' o [= _ _ <-]. Qed.
Lemma quiet_modify f : quiet (modify f).
Proof. by intros s b s' o [= _ _ <-]. Qed.
Lemma quiet_lift {A} (x : option A) : quiet (lift x).
Proof. intros s b s' o E. destruct x; [|done]. by injection E as _ _ <-. Qed.
Lemma quiet_fault {A} : quiet (fault (A := A)).
Proof. done. Qed.
Lemma calm_bind {A B} (m : PM A) (k : A -> PM B) : quiet m -> (forall a, quiet (k a)) -> quiet (m ≫= k).
Proof.
  intros Hm Hk s b s' o E. apply bind_inv in E as (a & s1 & o1 & o2 & E1 & E2 & ->).
  apply Hm in E1. apply Hk in E2. rewrite blocks_freed_app, blocks_made_app. lia.
Qed.
Lemma quiet_seq : quiet next_seq.
Proof. apply calm_bind; [apply quiet_get|]. intros s. apply calm_bind; [apply quiet_modify|]. intros. apply calm_ret. Qed.
Lemma quiet_start b : quiet (has_start_code b).
Proof. apply quiet_lift. Qed.
Lemma quiet_need n fl : quiet (need_front n fl).
Proof. unfold need_front. destruct fl; [destruct (n =? 0)|]; apply calm_ret || done. Qed.

Lemma quiet_pop {A} (fl : list A) : quiet (pop fl).
Proof. destruct fl; [apply quiet_fault|apply calm_ret]. Qed.

Create HintDb blocks.
#[local] Hint Resolve calm_ret quiet_get quiet_modify quiet_lift quiet_fault quiet_seq quiet_start
  quiet_need @quiet_pop @bal_fault : blocks.

Lemma bal_free {B} b (k : unit -> PM B) n h : bal (k tt) n h -> bal (freeMediaBlock b ≫= k) (S n) h.
Proof.
  intros Hk. apply (bal_bind _ _ _ (fun _ => n)); [|by intros []].
  intros s a s' o [= _ _ <-]. cbn. lia.
Qed.
Lemma bal_forward {B} b (k : unit -> PM B) n h : bal (k tt) n h -> bal (forward b ≫= k) n h.
Proof.
  intros Hk. apply bal_quiet; [|by intros []]. apply calm_bind; [apply quiet_lift|].
  intros d s a s' o [= _ _ <-]. done.
Qed.
Lemma bal_send {B} b (k : unit -> PM B) n h : bal (k tt) n h -> bal (send_free b ≫= k) (S n) h.
Proof.
  intros Hk. apply (bal_bind _ _ _ (fun _ => n)); [|by intros []].
  unfold send_free. apply bal_forward. intros s a s' o [= _ _ <-]. cbn. lia.
Qed.
Lemma bal_alloc {B} (k : option mblk -> PM B) n h :
  bal (k None) n h -> (forall b, bal (k (Some b)) (S n) h) -> bal (allocMediaBlock ≫= k) n h.
Proof.
  intros H0 H1. apply (bal_bind _ _ _ (fun x => match x with Some _ => S n | None => n end)).
  - unfold allocMediaBlock. apply bal_quiet; [auto with blocks|]. intros s.
    destruct (next_blocks s) as [|[b|] l]; [by apply bal_ret| |].
    + apply bal_quiet; [auto with blocks|]. intros _ s1 a s2 o [= <- _ <-]. cbn. lia.
    + apply bal_quiet; [auto with blocks|]. intros _. by apply bal_ret.
  - intros [b|]; [apply H1|done].
Qed.
Lemma bal_dup {B} b (k : option mblk -> PM B) n h :
  bal (k None) n h -> (forall b, bal (k (Some b)) (S n) h) -> bal (duplicate b ≫= k) n h.
Proof.
  intros H0 H1. apply (bal_bind _ _ _ (fun x => match x with Some _ => S n | None => n end) _).
  - unfold duplicate. apply bal_quiet; [auto with blocks|]. intros s.
    destruct (next_dups s) as [|[] l].
    + intros s1 a s2 o [= <- _ <-]. cbn. lia.
    + apply bal_quiet; [auto with blocks|]. intros _ s1 a s2 o [= <- _ <-]. cbn. lia.
    + apply bal_quiet; [auto with blocks|]. intros _. by apply bal_ret.
  - intros [b'|]; [apply H1|done].
Qed.

Lemma bal_assoc {A B C} (m : PM A) (k : A -> PM B) (j : B -> PM C) n h :
  bal (m ≫= fun a => k a ≫= j) n h -> bal ((m ≫= k) ≫= j) n h.
Proof. intros H s b s' o E. rewrite bind_assoc in E. by eapply H. Qed.

(** Break a method down; what is left are the calls of other methods and the
    counts at the returns. *)
Ltac bal := repeat first
  [ apply bal_fault
  | apply bal_send | apply bal_forward | apply bal_free
  | apply bal_alloc; [|intros ?] | apply bal_dup; [|intros ?]
  | apply bal_quiet; [solve [auto with blocks]|intros ?]
  | apply bal_assoc
  | apply bal_ret; cbn [length fst snd]; rewrite ?length_app; cbn [length]; lia
  | match goal with H : forall _, _ |- bal _ _ _ => apply H end
  | match goal with |- bal (match ?x with _ => _ end) _ _ => destruct x end
  | match goal with |- bal ((match ?x with _ => _ end) ≫= _) _ _ => destruct x end ].

Lemma bal_audio fi fl : forall n, bal (audio_loop fi n fl) (length fl) length.
Proof. induction fl as [|b fl IH]; intros n; cbn [audio_loop length]; bal. Qed.
Lemma bal_fu fi fl : forall h st n, bal (fu_loop fi h st n fl) (length fl) length.
Proof. induction fl as [|b fl IH]; intros h st n; cbn [fu_loop length]; bal. Qed.
Lemma bal_fu_265 fi fl : forall h st n, bal (fu_loop_265 fi h st n fl) (length fl) length.
Proof. induction fl as [|b fl IH]; intros h st n; cbn [fu_loop_265 length]; bal. Qed.
Lemma bal_skip_loop fl : forall n, bal (skip_loop n fl) (length fl) length.
Proof. induction fl as [|b fl IH]; intros n; cbn [skip_loop length]; bal. Qed.

(** [front] and [pop_front]: the list keeps its blocks. *)
Lemma bal_pop {B} (fl : frame) (k : mblk * frame -> PM B) h :
  (forall b rest, bal (k (b, rest)) (S (length rest)) h) -> bal (pop fl ≫= k) (length fl) h.
Proof.
  intros H. destruct fl as [|b rest]; [apply bal_fault|]. intros s a s' o E.
  cbn [pop] in E. rewrite ret_bind in E. by eapply H.
Qed.

Lemma bal_skip st n b fl : bal (skip_to st n b fl) (S (length fl)) length.
Proof.
  unfold skip_to. apply (bal_bind _ _ _ (fun o => match o with Some l => length l | None => 0%nat end)).
  - unfold skip_header. destruct (_ <=? _); [apply bal_free; destruct fl|]; bal.
  - intros [l|]; bal.
Qed.
Lemma bal_skip_header n b fl :
  bal (skip_header n b fl) (S (length fl)) (fun o => match o with Some l => length l | None => 0%nat end).
Proof. unfold skip_header. destruct (_ <=? _); [apply bal_free; destruct fl|]; bal. Qed.

Lemma quiet_map_loop n b : forall off len, quiet (map_loop n b off len).
Proof.
  induction n as [|n IH]; intros off len; cbn [map_loop]; destruct (len <? 4); auto with blocks.
  repeat (apply calm_bind; [|intros ?]); auto with blocks.
  repeat match goal with |- quiet (if ?x then _ else _) => destruct x end; auto with blocks.
Qed.

Lemma bal_pack fl : bal (ProgramStreamPackHeader fl) (length fl) length.
Proof. unfold ProgramStreamPackHeader. apply bal_pop. intros b rest. bal. apply bal_skip. Qed.
Lemma bal_system fl : bal (ProgramSystemPackHeader fl) (length fl) length.
Proof. unfold ProgramSystemPackHeader. apply bal_pop. intros b rest. bal. apply bal_skip. Qed.
Lemma bal_private fl : bal (ProgramPrivateHeader fl) (length fl) length.
Proof.
  unfold ProgramPrivateHeader. apply bal_pop. intros b rest.
  destruct (_ <? _); [bal|]. apply bal_quiet; [auto with blocks|]. intros ok.
  apply bal_quiet; [destruct ok; auto with blocks|]. intros id.
  destruct (negb _); bal; apply bal_skip.
Qed.
Lemma bal_map fl : bal (ProgramStreamMap fl) (length fl) length.
Proof.
  unfold ProgramStreamMap. apply bal_pop. intros b rest.
  destruct (_ <? _); [bal|]. apply bal_quiet; [auto with blocks|]. intros ok.
  destruct (negb ok); [bal|]. apply bal_quiet; [auto with blocks|]. intros n.
  apply bal_quiet; [auto with blocks|]. intros s. destruct (negb _); [apply bal_skip|].
  assert (forall j h r, quiet (map_loop j b h r)) as Hq by (intros; apply quiet_map_loop).
  destruct (_ <=? _); [destruct rest as [|c rest]; [bal|]|];
    (do 3 (apply bal_quiet; [auto with blocks|intros ?]); apply bal_skip).
Qed.

Lemma bal_pop_front {B} (fl : frame) (k : mblk * frame -> PM B) h :
  (forall b rest, fl = b :: rest -> bal (k (b, rest)) (S (length rest)) h) ->
  bal (pop fl ≫= k) (length fl) h.
Proof.
  intros H. destruct fl as [|b rest]; [apply bal_fault|]. intros s a s' o E.
  cbn [pop] in E. rewrite ret_bind in E. by eapply H.
Qed.

Lemma bal_single fi fl : bal (sendH264EsSigleNalu fi fl) (length fl) length.
Proof.
  unfold sendH264EsSigleNalu. apply bal_pop_front. intros b rest ->. bal.
  all: apply bal_quiet; [destruct (_ =? _); auto with blocks|intros sc]; destruct sc; bal.
Qed.
Lemma bal_single_265 fi fl : bal (sendH265EsSigleNalu fi fl) (length fl) length.
Proof.
  unfold sendH265EsSigleNalu. apply bal_pop_front. intros b rest ->. bal.
Qed.

Definition held (r : es_frame_info * frame) : nat := length r.2.

Lemma bal_audio_with know fi fl : (forall fi fl, bal (know fi fl) (length fl) held) ->
  bal (sendEsAudioFrame_with know fi fl) (length fl) held.
Proof.
  intros Hk. unfold sendEsAudioFrame_with. apply bal_quiet; [auto with blocks|]. intros s.
  destruct (_ =? _); [apply Hk|]. apply bal_quiet; [auto with blocks|]. intros _.
  eapply bal_bind; [apply bal_audio|]. intros fl'. by apply bal_ret.
Qed.

Lemma bal_video_with know junk fi fl : (forall fi fl, bal (know fi fl) (length fl) held) ->
  bal (sendEsVideoFrame_with know junk fi fl) (length fl) held.
Proof.
  intros Hk. unfold sendEsVideoFrame_with. apply bal_pop_front. intros b rest Efl.
  assert (S (length rest) = length fl) as -> by (by rewrite Efl).
  apply bal_quiet; [auto with blocks|]. intros s.
  destruct (_ =? _); [by apply bal_ret|]. destruct (_ =? _); [|destruct (_ =? _); [|apply Hk]];
    (apply (bal_bind _ _ _ length); [|intros fl'; by apply bal_ret]); destruct (_ <=? _).
  - apply bal_single.
  - apply bal_quiet; [auto with blocks|]. intros _. apply bal_fu.
  - apply bal_single_265.
  - apply bal_quiet; [auto with blocks|]. intros _. apply bal_fu_265.
Qed.

Lemma bal_know n junk : forall fi fl, bal (ProgramKnowFrame n junk fi fl) (length fl) held.
Proof.
  induction n as [|n IH]; intros fi fl; cbn [ProgramKnowFrame]; [apply bal_fault|].
  apply bal_pop_front. intros b rest Efl.
  assert (S (length rest) = length fl) as -> by (by rewrite Efl).
  apply bal_quiet; [auto with blocks|]. intros sc.
  destruct sc; [|by apply bal_audio_with]. apply bal_quiet; [auto with blocks|]. intros h.
  destruct (nal_kind h); [by apply bal_video_with|by apply bal_ret].
Qed.

Lemma bal_pes junk fi fl : bal (ProgramEStramHead junk fi fl) (length fl) held.
Proof.
  unfold ProgramEStramHead. apply bal_pop_front. intros b rest Efl.
  apply bal_quiet; [auto with blocks|]. intros ok.
  destruct (negb ok); [subst; apply bal_quiet; [auto with blocks|intros _]; by apply bal_ret|].
  destruct (_ <? _); [subst; apply bal_quiet; [auto with blocks|intros _]; by apply bal_ret|].
  do 3 (apply bal_quiet; [auto with blocks|intros ?]).
  eapply bal_bind; [apply bal_skip_header|]. intros [l|]; [|by apply bal_ret].
  do 2 (apply bal_quiet; [auto with blocks|intros ?]).
  destruct (_ =? 0xC0); [apply bal_audio_with, bal_know|].
  destruct (_ =? 0xE0); [apply bal_video_with, bal_know|].
  apply (bal_bind _ _ _ length); [|intros fl'; by apply bal_ret].
  apply bal_quiet; [auto with blocks|]. intros _. apply bal_skip_loop.
Qed.

(** Out of fuel or not: the blocks made and not given back are in the list. *)
Lemma bal_deal n junk : forall fi fl s r s' o, deal_loop n junk fi fl s = Some (r, s', o) ->
  exists k, (freed o + k = made o + length fl)%nat /\ (forall fl', r = Some fl' -> k = length fl').
Proof.
  induction n as [|n IH]; intros fi fl s r s' o; cbn [deal_loop].
  { intros [= <- _ <-]. by exists (length fl). }
  destruct fl as [|b rest]; [intros [= <- _ <-]; exists 0%nat; split; [done|by intros ? [= <-]]|].
  rewrite get_bind.
  intros E. apply bind_inv in E as ([fi1 fl1] & s1 & o1 & o2 & E1 & E2 & ->).
  apply IH in E2 as (k & Hk & Hr). exists k. split; [|done]. rewrite blocks_freed_app, blocks_made_app.
  assert (freed o1 + length fl1 = made o1 + length (b :: rest))%nat; [|lia].
  assert (forall m : PM frame, bal m (length (b :: rest)) length ->
    bal (m ≫= fun fl => mret (fi, fl)) (length (b :: rest)) held) as Hm.
  { intros m Hm. apply (bal_bind _ _ _ length); [done|]. intros l. by apply bal_ret. }
  revert E1. destruct (m_enStatus s);
    [refine (Hm _ (bal_pack _) _ _ _ _)|refine (Hm _ (bal_system _) _ _ _ _)
    |refine (Hm _ (bal_map _) _ _ _ _)|refine (Hm _ (bal_private _) _ _ _ _)
    |apply bal_pes|apply bal_know].
Qed.

Lemma bal_free_all fl : bal (free_all fl) (length fl) (fun _ => 0%nat).
Proof. induction fl as [|b fl IH]; cbn [free_all length]; bal; done. Qed.

Lemma bal_skip_rtp fl : forall fi acc, bal (skip_rtp_loop fi fl acc) (length acc) (fun r => length r.2).
Proof.
  induction fl as [|b fl IH]; intros fi acc; cbn [skip_rtp_loop]; [by apply bal_ret|].
  apply bal_dup; [by apply bal_ret|]. intros b'. apply bal_quiet; [auto with blocks|].
  intros [[r p] b2]. case_decide; [apply bal_ret; simpl; rewrite length_app; simpl; lia|].
  eapply bal_eq; [apply IH|]. rewrite length_app. simpl. lia.
Qed.

Lemma bal_skip_all fi fl : bal (SkipAllRtpHead fi fl) 0 (fun r => length r.2).
Proof.
  unfold SkipAllRtpHead. apply bal_quiet; [auto with blocks|]. intros [b rest].
  apply bal_quiet; [auto with blocks|]. intros [[r p] b2]. case_decide; [by apply bal_ret|].
  do 3 (apply bal_quiet; [auto with blocks|intros ?]). apply (bal_skip_rtp _ _ []).
Qed.

Lemma quiet_check fi fl : quiet (checkProgramStreamHead fi fl).
Proof.
  unfold checkProgramStreamHead. apply calm_bind; [auto with blocks|]. intros [b rest].
  apply calm_bind; [auto with blocks|]. intros [[r p] b2]. case_decide; [auto with blocks|].
  repeat first [ progress auto with blocks | apply calm_bind; [auto with blocks|intros ?]
    | match goal with |- quiet (match ?x with _ => _ end) => destruct x end ].
Qed.

Lemma quiet_direct fl : quiet (direct_loop fl).
Proof.
  induction fl as [|b fl IH]; cbn [direct_loop]; auto with blocks.
  apply calm_bind; [auto with blocks|]. intros [[r p] b2]. case_decide; [auto with blocks|].
  apply calm_bind; [|done]. apply calm_bind; [auto with blocks|].
  intros d s a s' o [= _ _ <-]. done.
Qed.

Lemma bal_dealt n junk fi fl s r s' o : dealProgramStreamRtpFrame n junk fi fl s = Some (r, s', o) ->
  (freed o <= made o)%nat /\ (r = Some tt -> freed o = made o).
Proof.
  unfold dealProgramStreamRtpFrame. rewrite modify_bind.
  intros E. apply bind_inv in E as ([[e fi1] fl1] & s1 & o1 & o2 & E1 & E2 & ->).
  apply bal_skip_all in E1. simpl in E1. rewrite blocks_freed_app, blocks_made_app.
  case_decide.
  - apply bind_inv in E2 as ([] & s2 & o3 & o4 & E3 & [= <- _ <-] & ->). apply bal_free_all in E3.
    rewrite blocks_freed_app, blocks_made_app. simpl. lia.
  - apply bind_inv in E2 as (l & s2 & o3 & o4 & E3 & E4 & ->).
    apply bal_deal in E3 as (k & Hk & Hl). rewrite !blocks_freed_app, !blocks_made_app.
    destruct l as [fl2|]; [specialize (Hl _ eq_refl)|injection E4 as <- _ <-; simpl; split; [lia|done]].
    apply bind_inv in E4 as ([] & s3 & o5 & o6 & E5 & [= <- _ <-] & ->). apply bal_free_all in E5.
    rewrite blocks_freed_app, blocks_made_app. simpl. lia.
Qed.

(** Handling a frame, whatever its packets contain. *)
Lemma bal_handle fuel junk fl s r s' o : handleRtpFrame fuel junk fl s = Some (r, s', o) ->
  (freed o <= made o)%nat /\ (r = Some tt -> freed o = made o).
Proof.
  unfold handleRtpFrame. intros E.
  apply bind_inv in E as ([[ps fi] fl1] & s1 & o1 & o2 & E1 & E2 & ->).
  apply quiet_check in E1 as [Ef Em]. rewrite blocks_freed_app, blocks_made_app, Ef, Em. simpl. destruct ps.
  - by eapply bal_dealt.
  - apply bind_inv in E2 as ([] & s2 & o3 & o4 & E3 & [= _ _ <-] & ->).
    apply quiet_direct in E3 as [Ef3 Em3]. rewrite blocks_freed_app, blocks_made_app, Ef3, Em3. done.
Qed.

(** ** Theorems *)

(** The payload types never change from H.264 and PCMU: the program stream
    map is never evaluated, and a video stream is sent as H.264 whatever it is. *)
Theorem ps_types_constant fuel junk fl s r s' o :
  handleRtpFrame fuel junk fl s = Some (r, s', o) ->
  m_VideoPayload s = PT_TYPE_H264 -> m_AudioPayload s = PT_TYPE_PCMU ->
  m_VideoPayload s' = PT_TYPE_H264 /\ m_AudioPayload s' = PT_TYPE_PCMU.
Proof. intros E Hv Ha. eapply types_handle; [exact E|by split]. Qed.

(** ** Witnesses *)

(** A packet of a program stream: an audio PES packet with 4 bytes. *)
Definition demo_packet : mblk :=
  let d := [128; 96; 0; 1; 0; 0; 0; 7; 1; 2; 3; 4; 0; 0; 1; 0xC0; 0; 7; 128; 0; 0; 9; 8; 7; 6] in
  {| mb_buf := replicate 12 0 ++ d; mb_rd := 12; mb_wr := 12 + zlen d |}.

Lemma ps_types_constant_witness : exists r s' o,
  handleRtpFrame 9 0 [demo_packet] (PsSet_new [] []) = Some (r, s', o) /\
  m_VideoPayload s' = PT_TYPE_H264 /\ m_AudioPayload s' = PT_TYPE_PCMU.
Proof.
  eexists _, _, _. split; [vm_compute; reflexivity|].
  eapply (ps_types_constant 9 0 [demo_packet] (PsSet_new [] [])); [vm_compute; reflexivity|done|done].
Defined.
