(* ===== verification/PsToEsFrame.v ===== *)
(** * From a program stream frame to the NAL unit: correctness of [PsToEs]

    The packets of a program stream frame that holds one NAL unit in one PES
    packet leave [CStreamPsMediaProcessorSet] as H.264 RTP packets from which a
    receiver rebuilds the NAL unit; with [PsRtpEncap] in front, this closes the
    way from a frame over the program stream back to the frame. *)

From S2P Require Import Prelude RtpPacket RtpPacker RtpStream PsEnc PsRtpEncap PsToEs.
Open Scope Z_scope.

(** ** Blocks by their parts *)

(** The bytes before [rd_ptr], up to [wr_ptr], and behind. *)
Definition blk (pre d post : list Z) : mblk :=
  {| mb_buf := pre ++ d ++ post; mb_rd := zlen pre; mb_wr := zlen pre + zlen d |}.

Section Blocks.
  Context (pre post : list Z).

Lemma blk_length d : zlen d < 2 ^ 32 -> mb_length (blk pre d post) = zlen d.
Proof.
  intros H. pose proof (zlen_nonneg d). unfold mb_length. cbn.
  replace (zlen pre + zlen d - zlen pre) with (zlen d) by lia.
  apply wrap_small. unfold fits. lia.
Qed.

Lemma blk_data d : mb_data (blk pre d post) = Some d.
Proof. unfold mb_data. cbn. apply sub_mid; lia. Qed.

Lemma blk_peek d i : 0 <= i < zlen d -> peek (blk pre d post) i = rd d i.
Proof.
  intros Hi. unfold peek. cbn. rewrite rd_app_r by lia.
  rewrite rd_app_l by lia. f_equal. lia.
Qed.

Lemma blk_skip a d : rd_ptr (zlen a) (blk pre (a ++ d) post) = blk (pre ++ a) d post.
Proof.
  unfold rd_ptr, blk. cbn. rewrite <-!app_assoc. f_equal; rewrite ?zlen_app; lia.
Qed.

Lemma blk_back a d n : n = - zlen a -> rd_ptr n (blk (pre ++ a) d post) = blk pre (a ++ d) post.
Proof.
  intros ->. unfold rd_ptr, blk. cbn. rewrite <-!app_assoc. f_equal; rewrite ?zlen_app; lia.
Qed.

(** The first difference from [l] is inside [d]. *)
Fixpoint mismatch (d l : list Z) : bool :=
  match l, d with
  | y :: l, x :: d => if x =? y then mismatch d l else true
  | _, _ => false
  end.

Lemma match_bytes_mismatch p d l : mismatch d l = true ->
  match_bytes (blk pre (p ++ d) post) (zlen p) l = Some false.
Proof.
  revert p d. induction l as [|y l IH]; intros p d; [by destruct d|].
  destruct d as [|x d]; [done|]. cbn [mismatch match_bytes]. intros H.
  rewrite blk_peek by (rewrite zlen_app, zlen_cons; pose proof (zlen_nonneg p); pose proof (zlen_nonneg d); lia).
  rewrite rd_app_r, Z.sub_diag by lia. cbn [rd_0 mbind option_bind].
  change (rd (x :: d) 0) with (Some x). cbn [mbind option_bind].
  destruct (x =? y); [|done]. specialize (IH (p ++ [x]) d H).
  rewrite <-app_assoc, zlen_app in IH. exact IH.
Qed.

Lemma match_bytes_prefix p l d : match_bytes (blk pre (p ++ l ++ d) post) (zlen p) l = Some true.
Proof.
  revert p. induction l as [|y l IH]; intros p; [done|]. cbn [match_bytes].
  rewrite blk_peek by (rewrite !zlen_app, zlen_cons; pose proof (zlen_nonneg p); pose proof (zlen_nonneg d);
    pose proof (zlen_nonneg l); lia).
  rewrite rd_app_r, Z.sub_diag by lia. change (rd ((y :: l) ++ d) 0) with (Some y).
  cbn [mbind option_bind]. rewrite Z.eqb_refl.
  specialize (IH (p ++ [y])). rewrite <-app_assoc, zlen_app in IH. exact IH.
Qed.

(** A store over the first bytes of the data. *)
Lemma blk_store a a' d : zlen a' = zlen a ->
  store_at (zlen pre) a' (blk pre (a ++ d) post) = Some (blk pre (a' ++ d) post).
Proof.
  intros Hl. unfold store_at, blk. cbn. rewrite <-!app_assoc.
  rewrite memcpy_app by (unfold zlen in Hl; lia). cbn. unfold with_buf. cbn. by rewrite !zlen_app, Hl.
Qed.
End Blocks.

(** ** The header of a packet *)

Abbreviation es_packet_is := (packet_is PT_TYPE_H264).
Abbreviation es_packets_are := (packets_are PT_TYPE_H264).

Lemma fields_of_app h d : zlen h = 12 -> fields_of (h ++ d) = fields_of h.
Proof.
  intros Hh. rewrite <-(fields_of_take (h ++ d) 12) by lia.
  by rewrite take_app_length' by (unfold zlen in Hh; lia).
Qed.

Lemma put_header_blk ts ssrc seq m pre h d post : zlen h = 12 ->
  fits 32 ts -> fits 32 ssrc -> fits 16 seq ->
  exists p, put_header ts ssrc seq m (Some PT_TYPE_H264) (blk pre (h ++ d) post) = Some (blk pre p post) /\
    es_packet_is ssrc seq ts m d p.
Proof.
  intros Hh Hts Hss Hseq. unfold put_header, RTP_FIXED_HEADER_SIZE.
  assert (sub (mb_buf (blk pre (h ++ d) post)) (mb_rd (blk pre (h ++ d) post)) 12 = Some h) as ->.
  { cbn. rewrite <-app_assoc. by apply sub_mid. }
  cbn [mbind option_bind].
  destruct (GeneratePacket_spec h CRtpPacket_new ltac:(lia)) as (d1 & -> & Hz1 & _ & Hf1).
  cbn [mbind option_bind]. set (p1 := with_head_len 12 (attach d1 CRtpPacket_new)).
  destruct (SetTimeStamp_spec p1 _ eq_refl Hf1 ts) as (d2 & -> & R2). cbn [mbind option_bind].
  destruct (SetSSRC_spec (with_data d2 p1) _ eq_refl (proj1 R2) ssrc) as (d3 & -> & R3). cbn [mbind option_bind].
  rewrite with_data_twice.
  destruct (SetSeqNum_spec (with_data d3 p1) _ eq_refl (proj1 R3) seq) as (d4 & -> & R4). cbn [mbind option_bind].
  rewrite with_data_twice.
  set (f4 := RtpPacket.with_seq _ _) in R4.
  assert (exists d5, (if m then SetMarker true (with_data d4 p1) else Some (RET_OK, with_data d4 p1))
     = Some (RET_OK, with_data d5 p1) /\ rewrites d4 d5 (with_marker m f4)) as (d5 & -> & R5).
  { destruct m.
    - destruct (SetMarker_spec (with_data d4 p1) _ eq_refl (proj1 R4) true) as (d5 & -> & R5).
      rewrite with_data_twice. eauto.
    - exists d4. split; [done|]. split; [|done]. destruct R4 as [-> _]. done. }
  cbn [mbind option_bind].
  destruct (SetPayloadType_spec (with_data d5 p1) _ eq_refl (proj1 R5) PT_TYPE_H264) as (d6 & -> & R6).
  cbn [mbind option_bind]. rewrite with_data_twice. cbn [m_pRtpData with_data].
  destruct R2 as (_ & Z2 & _), R3 as (_ & Z3 & _), R4 as (_ & Z4 & _), R5 as (_ & Z5 & _), R6 as (F6 & Z6 & _).
  cbn in Z2, Z3, Z4, Z5, Z6. assert (zlen d6 = 12) as Hz by congruence.
  exists (d6 ++ d). split; [apply blk_store; congruence|].
  split.
  - rewrite fields_of_app, F6 by done. unfold f4, stream_fields, RtpPacket.with_payload, with_marker,
      RtpPacket.with_seq, with_ssrc, with_timestamp. cbn -[wrap u16 u32]. unfold u16, u32.
    rewrite !(wrap_small _ seq), !(wrap_small _ ts), !(wrap_small _ ssrc) by done. by destruct m.
  - apply drop_app_length'. unfold zlen in Hz. lia.
  - rewrite zlen_app. lia.
Qed.

(** ** Steps of the monad *)

Lemma lift_bind {A B} (x : option A) a (k : A -> M PsSet event B) s : x = Some a ->
  (lift x ≫= k) s = k a s.
Proof. intros ->. cbv [mbind M_bind option_bind lift]. by destruct (k a s) as [[[? ?] ?]|]. Qed.

Lemma next_seq_bind {B} (k : Z -> M PsSet event B) s :
  (next_seq ≫= k) s = k (m_usRtpSeq s) (PsToEs.with_seq (u16 (m_usRtpSeq s + 1)) s).
Proof. unfold next_seq. by rewrite bind_assoc, get_bind, bind_assoc, modify_bind, ret_bind. Qed.

Lemma send_free_bind {B} pre d post (k : unit -> M PsSet event B) s :
  (send_free (blk pre d post) ≫= k) s =
    '(r, s', o) ← k tt s; Some (r, s', Forward d :: Freed :: o).
Proof.
  unfold send_free, forward. rewrite !bind_assoc, (lift_bind _ d) by apply blk_data.
  rewrite tell_bind. unfold freeMediaBlock. rewrite tell_bind.
  by destruct (k tt s) as [[[? ?] ?]|].
Qed.

(** ** Fragments *)

Lemma fu_header_store' y h S E : is_byte y -> is_byte h -> 0 <= E <= 1 -> 0 <= S <= 1 ->
  set_field 0 5 (set_field 5 1 (set_field 6 1 (set_field 7 1 y S) E) 0) (nalu_TYPE h)
    = fu_header h (S =? 1) (E =? 1).
Proof.
  intros Hy Hh HE HS. unfold fu_header, nalu_TYPE. bit_arith.
  destruct (Z.eqb_spec S 1), (Z.eqb_spec E 1); cbn [Z.b2z]; lia.
Qed.

Lemma put_fu_blk h (S E : bool) pre x y d post : is_byte x -> is_byte y -> is_byte h ->
  put_fu (zlen pre) h (Z.b2z S) (Z.b2z E) (blk pre (x :: y :: d) post) =
    Some (blk pre (fu_indicator h :: fu_header h S E :: d) post).
Proof.
  intros Hx Hy Hh. unfold put_fu. cbn [mb_buf blk app].
  do 3 (rewrite set_bits_at by done; cbn [mbind option_bind]).
  rewrite fu_indicator_store by done.
  assert (forall i z, pre ++ i :: z :: d ++ post = (pre ++ [i]) ++ z :: d ++ post) as Ha
    by (intros; by rewrite <-app_assoc).
  rewrite Ha. do 4 (rewrite set_bits_at by (rewrite zlen_app; done); cbn [mbind option_bind]).
  rewrite fu_header_store' by (done || (destruct S, E; cbn; lia)).
  rewrite <-Ha. unfold with_buf, blk. cbn [mb_buf mb_rd mb_wr app]. rewrite !zlen_cons.
  by destruct S, E.
Qed.

Section Fragments.
  Context (fi : es_frame_info) (h : Z).
  Hypothesis Hh : is_byte h.
  Hypothesis Hts : fits 32 (fi_timestamp fi).
  Hypothesis Hss : fits 32 (fi_ssrc fi).

Abbreviation fi_packet_is := (es_packet_is (fi_ssrc fi)).
Abbreviation fi_packets_are := (es_packets_are (fi_ssrc fi)).

(** What is forwarded and freed when a whole block is sent. *)
Definition sent (ps : list (list Z)) : list event := ps ≫= fun p => [Forward p; Freed].

(** A turn of the loop for a whole block: the fragment header goes over the
    last two bytes that are not payload, the RTP header over the twelve before
    them. *)
Lemma fu_loop_turn b rest h0 (sc st : bool) n pre t x y c post s :
  let e := n =? mb_length b in
  m_VideoPayload s = PT_TYPE_H264 -> fits 16 (m_usRtpSeq s) -> fits 32 n ->
  0 < mb_length b <= n -> match_bytes b 0 [0; 0; 0; 1] = Some sc ->
  (if sc then peek b 4 = Some h else h0 = h) ->
  rd_ptr (-2) (if sc then rd_ptr 1 (rd_ptr H264_START_CODE b) else b) =
    blk (pre ++ t) (x :: y :: c) post ->
  zlen t = 12 -> is_byte x -> is_byte y ->
  exists p, fi_packet_is (m_usRtpSeq s) (fi_timestamp fi) e (fu_indicator h :: fu_header h st e :: c) p /\
    fu_loop fi h0 st n (b :: rest) s =
      '(l, s', o) ← fu_loop fi h false (n - mb_length b) rest (with_seq (u16 (m_usRtpSeq s + 1)) s);
      Some (l, s', Forward p :: Freed :: o).
Proof.
  intros e Hv Hseq Hn Hb Hsc Hhd Hblk Ht Hx Hy.
  destruct (put_header_blk (fi_timestamp fi) (fi_ssrc fi) (m_usRtpSeq s) e pre t
    (fu_indicator h :: fu_header h st e :: c) post Ht Hts Hss Hseq) as (p & Ep & Hp).
  exists p. split; [exact Hp|].
  assert (u32 (n - mb_length b) = n - mb_length b) as Eu.
  { apply wrap_small. unfold fits in *. lia. }
  assert ((n - mb_length b =? 0) = e) as Ee.
  { unfold e. destruct (Z.eqb_spec n (mb_length b)); apply Z.eqb_eq || apply Z.eqb_neq; lia. }
  cbn [fu_loop]. rewrite (proj2 (Z.eqb_neq n 0)), get_bind, (proj2 (Z.leb_le _ _)), Eu by lia.
  unfold has_start_code. rewrite (lift_bind _ sc) by done. rewrite Hv.
  assert (forall k : Z -> PM frame, ((if sc then lift (peek b H264_START_CODE) else mret h0) ≫= k) s = k h s) as ->.
  { intros k. destruct sc; [by apply lift_bind|]. by rewrite ret_bind, Hhd. }
  cbv zeta. rewrite Hblk. cbn [mb_rd blk].
  rewrite (lift_bind _ (blk (pre ++ t) (fu_indicator h :: fu_header h st e :: c) post));
    [|rewrite Ee; by apply put_fu_blk].
  rewrite next_seq_bind. rewrite (lift_bind _ (blk pre p post)).
  2: { rewrite blk_back by (unfold RTP_HEAD, RTP_FIXED_HEADER_SIZE; lia). by rewrite Ee. }
  by rewrite send_free_bind.
Qed.

(** The blocks behind the first one: each has the headers of its packet in
    front of a piece of the NAL unit that is no start code. *)
Definition piece_of (b : mblk) (c : list Z) : Prop :=
  exists pre t x y post, b = blk (pre ++ t ++ [x; y]) c post /\ zlen t = 12 /\ is_byte x /\ is_byte y.

Definition forwards (o : list event) : list (list Z) :=
  omap (fun e => match e with Forward p => Some p | _ => None end) o.

Lemma fu_loop_pieces cs : forall bs st s, Forall2 piece_of bs cs ->
  Forall (fun c => mismatch c [0; 0; 0; 1] = true) cs -> zlen (concat cs) < 2 ^ 32 ->
  m_VideoPayload s = PT_TYPE_H264 -> fits 16 (m_usRtpSeq s) ->
  exists s' o, fu_loop fi h st (zlen (concat cs)) bs s = Some ([], s', o) /\
    fi_packets_are (m_usRtpSeq s) (fi_timestamp fi) (mark_last true (fu_payloads h st cs)) (forwards o) /\
    s' = PsToEs.with_seq (u16 (m_usRtpSeq s + zlen cs)) s.
Proof.
  induction cs as [|c cs IH]; intros bs st s Hbs Hm Hz Hv Hseq.
  { inversion_clear Hbs. exists s, []. split; [done|]. split; [done|].
    rewrite zlen_nil, Z.add_0_r. unfold u16. rewrite wrap_small by done. by destruct s. }
  inversion Hbs as [|b ? bs' ? (pre & t & x & y & post & -> & Ht & Hx & Hy) Hbs']; subst.
  apply Forall_cons in Hm as [Hmc Hm]. cbn [concat] in *. rewrite zlen_app in *.
  assert (0 < zlen c) as Hc by (destruct c; [done|rewrite zlen_cons; pose proof (zlen_nonneg c); lia]).
  pose proof (zlen_nonneg (concat cs)).
  set (b := blk _ c post).
  assert (mb_length b = zlen c) as El by (apply blk_length; lia).
  assert (match_bytes b 0 [0; 0; 0; 1] = Some false) as Hsc
    by (by apply (match_bytes_mismatch _ _ [])).
  destruct (fu_loop_turn b bs' h false st (zlen c + zlen (concat cs)) pre t x y c post s) as (p & Hp & E);
    rewrite ?El; try done; [unfold fits; lia|lia| |].
  { unfold b. rewrite app_assoc. apply (blk_back (pre ++ t) post [x; y] c). done. }
  rewrite E, El. replace (zlen c + zlen (concat cs) - zlen c) with (zlen (concat cs)) by lia.
  destruct (IH bs' false (PsToEs.with_seq (u16 (m_usRtpSeq s + 1)) s) Hbs' Hm ltac:(lia) Hv)
    as (s' & o & E' & Hp' & ->); [by apply wrap_fits|].
  rewrite E'. cbn [mbind option_bind]. eexists _, _. split; [done|]. split.
  - cbn [forwards omap list_omap fu_payloads mark_last packets_are].
    split; [|exact Hp']. rewrite El in Hp.
    assert ((zlen c + zlen (concat cs) =? zlen c) = match cs with [] => true | _ => false end) as Ee.
    { destruct cs as [|c2 cs].
      - apply Z.eqb_eq. change (zlen (concat [])) with 0. lia.
      - apply Z.eqb_neq. apply Forall_cons in Hm as [Hm2 _]. cbn [concat]. rewrite zlen_app.
        destruct c2; [done|]. rewrite zlen_cons. pose proof (zlen_nonneg c2).
        pose proof (zlen_nonneg (concat cs)). lia. }
    assert (match fu_payloads h false cs with [] => true | _ => false end =
      match cs with [] => true | _ => false end) as -> by (by destruct cs).
    rewrite Ee in Hp. exact Hp.
  - cbn. unfold u16. rewrite wrap_add_l, zlen_cons. unfold PsToEs.with_seq. cbn. do 2 f_equal. lia.
Qed.

(** The payloads of the packets of a NAL unit with header [h] whose first
    block holds [c0] of the rest and the others [cs]. *)
Definition es_payloads (c0 : list Z) (cs : list (list Z)) : list (list Z) :=
  match cs with [] => [h :: c0] | _ => fu_payloads h true (c0 :: cs) end.

(** The first block: what is before it is longer than the headers that are
    put there. *)
Definition first_block (b : mblk) (c0 : list Z) : Prop :=
  exists pre t post, b = blk (pre ++ t) ([0; 0; 0; 1; h] ++ c0) post /\ zlen t = 9.

Definition pieces_ok (c0 : list Z) (cs : list (list Z)) : Prop :=
  Forall (fun c => mismatch c [0; 0; 0; 1] = true) cs /\ zlen c0 + zlen (concat cs) + 5 < 2 ^ 32.

Lemma pieces_pos cs : cs <> [] -> Forall (fun c => mismatch c [0; 0; 0; 1] = true) cs ->
  0 < zlen (concat cs).
Proof.
  destruct cs as [|c cs]; [done|]. intros _ [Hc _]%Forall_cons. cbn [concat]. rewrite zlen_app.
  destruct c; [done|]. rewrite zlen_cons. pose proof (zlen_nonneg c). pose proof (zlen_nonneg (concat cs)). lia.
Qed.

Lemma first_length b c0 : first_block b c0 -> zlen c0 + 5 < 2 ^ 32 -> mb_length b = zlen c0 + 5.
Proof.
  intros (pre & t & post & -> & Ht) Hl. rewrite blk_length; rewrite zlen_app; change (zlen [0; 0; 0; 1; h]) with 5; lia.
Qed.

Lemma first_fu b bs c0 cs junk s : first_block b c0 -> Forall2 piece_of bs cs -> cs <> [] ->
  pieces_ok c0 cs -> m_VideoPayload s = PT_TYPE_H264 -> fits 16 (m_usRtpSeq s) ->
  exists s' o, fu_loop fi junk true (zlen c0 + zlen (concat cs) + 5) (b :: bs) s = Some ([], s', o) /\
    fi_packets_are (m_usRtpSeq s) (fi_timestamp fi) (mark_last true (es_payloads c0 cs)) (forwards o) /\
    s' = PsToEs.with_seq (u16 (m_usRtpSeq s + zlen (c0 :: cs))) s.
Proof.
  intros Hb Hbs Hne [Hm Hz] Hv Hseq. pose proof (zlen_nonneg c0). pose proof (pieces_pos cs Hne Hm).
  pose proof (first_length b c0 Hb ltac:(lia)) as El. destruct Hb as (pre & t & post & -> & Ht).
  set (b := blk _ _ post) in *.
  destruct (fu_loop_turn b bs junk true true (zlen c0 + zlen (concat cs) + 5) pre (t ++ [0; 0; 0]) 1 h c0 post s)
    as (p & Hp & E); try done; [unfold fits; lia|lia| | | | |].
  { apply (match_bytes_prefix _ _ [] [0; 0; 0; 1] (h :: c0)). }
  { unfold b. rewrite blk_peek by (rewrite zlen_app; change (zlen [0; 0; 0; 1; h]) with 5; lia). done. }
  { unfold b. change H264_START_CODE with (zlen [0; 0; 0; 1]).
    change ([0; 0; 0; 1; h] ++ c0) with ([0; 0; 0; 1] ++ [h] ++ c0). rewrite blk_skip.
    change 1 with (zlen [h]) at 1. rewrite blk_skip.
    replace (((pre ++ t) ++ [0; 0; 0; 1]) ++ [h]) with ((pre ++ t ++ [0; 0; 0]) ++ [1; h])
      by (by rewrite <-!app_assoc).
    by apply blk_back. }
  { rewrite zlen_app, Ht. done. }
  rewrite E, El. replace (zlen c0 + zlen (concat cs) + 5 - (zlen c0 + 5)) with (zlen (concat cs)) by lia.
  destruct (fu_loop_pieces cs bs false (PsToEs.with_seq (u16 (m_usRtpSeq s + 1)) s) Hbs Hm ltac:(lia) Hv)
    as (s' & o & -> & Hp' & ->); [by apply wrap_fits|].
  cbn [mbind option_bind]. eexists _, _. split; [done|]. split.
  - assert (es_payloads c0 cs = fu_payloads h true (c0 :: cs)) as -> by (by destruct cs).
    cbn [forwards omap list_omap fu_payloads mark_last packets_are]. split; [|exact Hp'].
    assert ((zlen c0 + zlen (concat cs) + 5 =? mb_length b) = false) as Ee by (apply Z.eqb_neq; lia).
    rewrite Ee in Hp. by destruct cs.
  - cbn. unfold u16. rewrite wrap_add_l, zlen_cons. unfold PsToEs.with_seq. cbn. do 2 f_equal. lia.
Qed.

Lemma first_single b c0 s : first_block b c0 -> fi_length fi = zlen c0 + 5 -> zlen c0 + 5 < 2 ^ 32 ->
  m_VideoPayload s = PT_TYPE_H264 -> fits 16 (m_usRtpSeq s) ->
  exists o, sendH264EsSigleNalu fi [b] s =
      Some ([], PsToEs.with_seq (u16 (m_usRtpSeq s + 1)) s, o) /\
    fi_packets_are (m_usRtpSeq s) (fi_timestamp fi) (mark_last true (es_payloads c0 [])) (forwards o).
Proof.
  intros Hb Hn Hz Hv Hseq. pose proof (zlen_nonneg c0).
  pose proof (first_length b c0 Hb Hz) as El. destruct Hb as (pre & t & post & -> & Ht).
  destruct t as [|x t]; [done|]. rewrite zlen_cons in Ht.
  unfold sendH264EsSigleNalu. cbn [pop]. rewrite ret_bind, get_bind, Hn, El, Z.eqb_refl, Hv.
  unfold has_start_code. rewrite (lift_bind _ true) by apply (match_bytes_prefix _ _ [] [0; 0; 0; 1] (h :: c0)).
  change H264_START_CODE with (zlen [0; 0; 0; 1]).
  change ([0; 0; 0; 1; h] ++ c0) with ([0; 0; 0; 1] ++ h :: c0). rewrite blk_skip.
  replace ((pre ++ x :: t) ++ [0; 0; 0; 1]) with ((pre ++ [x]) ++ t ++ [0; 0; 0; 1])
    by (by rewrite <-!app_assoc).
  assert (zlen (t ++ [0; 0; 0; 1]) = 12) as Ht4 by (rewrite zlen_app; change (zlen [0; 0; 0; 1]) with 4; lia).
  rewrite blk_back by (unfold RTP_HEAD, RTP_FIXED_HEADER_SIZE; lia).
  cbv zeta. rewrite next_seq_bind.
  destruct (put_header_blk (fi_timestamp fi) (fi_ssrc fi) (m_usRtpSeq s) true (pre ++ [x])
    (t ++ [0; 0; 0; 1]) (h :: c0) post Ht4 Hts Hss Hseq) as (p & Ep & Hp).
  rewrite (lift_bind _ _ _ _ Ep), send_free_bind. eexists. split; [done|]. done.
Qed.

(** [sendEsVideoFrame] takes the whole list. *)
Lemma first_video b bs c0 cs junk s : first_block b c0 -> Forall2 piece_of bs cs ->
  pieces_ok c0 cs -> fi_payload fi = PT_TYPE_H264 ->
  fi_length fi = zlen c0 + zlen (concat cs) + 5 ->
  m_VideoPayload s = PT_TYPE_H264 -> fits 16 (m_usRtpSeq s) ->
  exists s' o, sendEsVideoFrame junk fi (b :: bs) s = Some ((fi, []), s', o) /\
    fi_packets_are (m_usRtpSeq s) (fi_timestamp fi) (mark_last true (es_payloads c0 cs)) (forwards o) /\
    s' = PsToEs.with_seq (u16 (m_usRtpSeq s + zlen (c0 :: cs))) s.
Proof.
  intros Hb Hbs Hok Hpt Hn Hv Hseq. pose proof (zlen_nonneg c0). pose proof (zlen_nonneg (concat cs)).
  destruct Hok as [Hm Hz]. pose proof (first_length b c0 Hb ltac:(lia)) as El.
  unfold sendEsVideoFrame, sendEsVideoFrame_with. cbn [pop].
  rewrite ret_bind, get_bind, Hv, Hpt. change (PT_TYPE_MAX =? PT_TYPE_H264) with false.
  rewrite Z.eqb_refl, Hn, El. cbv iota. destruct cs as [|c cs].
  - inversion_clear Hbs. change (zlen (concat [])) with 0 in *.
    rewrite (proj2 (Z.leb_le _ _)) by lia.
    destruct (first_single b c0 s Hb ltac:(lia) ltac:(lia) Hv Hseq) as (o & E & Hp).
    erewrite bind_eq by exact E. eexists _, (o ++ []). split; [done|]. rewrite app_nil_r. split; [done|].
    by rewrite zlen_cons, zlen_nil.
  - pose proof (pieces_pos (c :: cs) ltac:(done) Hm).
    rewrite (proj2 (Z.leb_gt _ _)) by lia.
    destruct (first_fu b bs c0 (c :: cs) junk s Hb Hbs ltac:(done) (conj Hm Hz) Hv Hseq)
      as (s' & o & E & Hp & ->).
    unfold sendH264EsFuNale. cbn [need_front]. rewrite bind_assoc, ret_bind, Hn.
    erewrite bind_eq by exact E. eexists _, (o ++ []). split; [done|]. by rewrite app_nil_r.
Qed.
End Fragments.

(** ** The headers in front *)

Lemma skip_header_blk x d pre post fl s : 0 < zlen x -> 0 < zlen d -> zlen x + zlen d < 2 ^ 32 ->
  skip_header (zlen x) (blk pre (x ++ d) post) fl s = Some (Some (blk (pre ++ x) d post :: fl), s, []).
Proof.
  intros Hx Hd Hl. unfold skip_header.
  assert (u32 (mb_length (blk pre (x ++ d) post)) = zlen x + zlen d) as ->.
  { rewrite blk_length, zlen_app by (rewrite zlen_app; lia). apply wrap_small. unfold fits. lia. }
  rewrite (proj2 (Z.leb_gt _ _)), (proj2 (Z.ltb_lt _ _)) by lia. by rewrite blk_skip.
Qed.

Lemma skip_to_blk st x d pre post fl s : 0 < zlen x -> 0 < zlen d -> zlen x + zlen d < 2 ^ 32 ->
  skip_to st (zlen x) (blk pre (x ++ d) post) fl s =
    Some (blk (pre ++ x) d post :: fl, with_status st s, []).
Proof.
  intros Hx Hd Hl. unfold skip_to. erewrite bind_eq by (by apply skip_header_blk). done.
Qed.

(** A pack header with its stuffing, and a header with a 16-bit length. *)
Definition pack_header (x : list Z) : Prop :=
  exists y k z, x = [0; 0; 1; 0xBA] ++ y ++ [k] ++ z /\ zlen y = 9 /\ zlen z = get_field 0 3 k.
Definition unit_header (code : Z) (x : list Z) : Prop :=
  exists hi lo z, x = [0; 0; 1; code; hi; lo] ++ z /\ zlen z = le16 lo hi.
Definition starts (id : Z) (d : list Z) : Prop := exists d', d = [0; 0; 1; id] ++ d'.

Lemma pack_step x d pre post fl s : pack_header x -> 0 < zlen d -> zlen x + zlen d < 2 ^ 32 ->
  ProgramStreamPackHeader (blk pre (x ++ d) post :: fl) s =
    Some (blk (pre ++ x) d post :: fl, with_status PARSING_SYSTEM_HEADER s, []).
Proof.
  intros (y & k & z & -> & Hy & Hz) Hd Hl. unfold ProgramStreamPackHeader. cbn [pop]. rewrite ret_bind.
  set (x := [0; 0; 1; 0xBA] ++ y ++ [k] ++ z) in *. pose proof (zlen_nonneg z).
  assert (zlen x = 14 + zlen z) as Ex.
  { unfold x. rewrite !zlen_app, Hy. change (zlen [0; 0; 1; 186]) with 4. change (zlen [k]) with 1. lia. }
  assert (match_bytes (blk pre (x ++ d) post) 0 [0; 0; 1; 0xBA] = Some true) as Hm.
  { unfold x. rewrite <-app_assoc. apply (match_bytes_prefix _ _ [] [0; 0; 1; 0xBA]). }
  rewrite (lift_bind _ _ _ _ Hm). cbn [negb]. rewrite (lift_bind _ k).
  2: { rewrite blk_peek by (rewrite zlen_app; lia). unfold x.
       rewrite <-!app_assoc, rd_app_r by (change (zlen [0; 0; 1; 186]) with 4; lia).
       change (13 - zlen [0; 0; 1; 186]) with 9.
       rewrite rd_app_r, Hy by lia. done. }
  rewrite <-Hz, <-Ex. apply skip_to_blk; lia.
Qed.

Lemma unit_match code id x d pre post : unit_header code x ->
  match_bytes (blk pre (x ++ d) post) 0 [0; 0; 1; id] = Some (code =? id).
Proof.
  intros (hi & lo & z & -> & Hz). destruct (Z.eqb_spec code id) as [->|Hne].
  - rewrite <-app_assoc. apply (match_bytes_prefix _ _ [] [0; 0; 1; id] ([hi; lo] ++ z ++ d)).
  - apply (match_bytes_mismatch _ _ []). cbn. by rewrite (proj2 (Z.eqb_neq code id)).
Qed.

Lemma starts_match code id d pre post : starts code d -> code <> id ->
  match_bytes (blk pre d post) 0 [0; 0; 1; id] = Some false.
Proof.
  intros [d' ->] Hne. apply (match_bytes_mismatch _ _ []). cbn. by rewrite (proj2 (Z.eqb_neq code id)).
Qed.

Lemma unit_length code x d pre post : unit_header code x ->
  pack_length (blk pre (x ++ d) post) = Some (zlen x - 6) /\ 6 <= zlen x.
Proof.
  intros (hi & lo & z & -> & Hz). pose proof (zlen_nonneg z). pose proof (zlen_nonneg d).
  unfold pack_length. change (zlen ([0; 0; 1; code; hi; lo] ++ z)) with (zlen ([0; 0; 1; code; hi; lo] ++ z)).
  rewrite !blk_peek by (rewrite !zlen_app; change (zlen [0; 0; 1; code; hi; lo]) with 6; lia).
  rewrite zlen_app. change (zlen [0; 0; 1; code; hi; lo]) with 6.
  split; [|lia]. rewrite Hz. replace (6 + le16 lo hi - 6) with (le16 lo hi) by lia. done.
Qed.

(** A header that may be left out; what follows starts with another code. *)
Definition opt_header (code : Z) (x d : list Z) : Prop :=
  unit_header code x \/ x = [] /\ exists id, starts id d /\ id <> code.

Lemma system_step x d pre post fl s : opt_header 0xBB x d -> 0 < zlen d -> zlen x + zlen d < 2 ^ 32 ->
  ProgramSystemPackHeader (blk pre (x ++ d) post :: fl) s =
    Some (blk (pre ++ x) d post :: fl, with_status PARSING_SYSMAP_HEADER s, []).
Proof.
  intros Hx Hd Hl. unfold ProgramSystemPackHeader. cbn [pop]. rewrite ret_bind.
  destruct Hx as [Hx|[-> (id & Hs & Hne)]].
  - rewrite (lift_bind _ true) by (by apply (unit_match 0xBB)). cbn [negb].
    destruct (unit_length _ x d pre post Hx) as [El H6]. rewrite (lift_bind _ _ _ _ El).
    replace (4 + 2 + (zlen x - 6)) with (zlen x) by lia. apply skip_to_blk; lia.
  - cbn [app]. rewrite (lift_bind _ false) by (by apply (starts_match id)). by rewrite app_nil_r.
Qed.

Lemma map_step x d pre post fl s : opt_header 0xBC x d -> 10 <= zlen d -> zlen x + zlen d < 2 ^ 32 ->
  m_VideoPayload s = PT_TYPE_H264 ->
  ProgramStreamMap (blk pre (x ++ d) post :: fl) s =
    Some (blk (pre ++ x) d post :: fl, with_status PARSING_PRIVATE_HEADER s, []).
Proof.
  intros Hx Hd Hl Hv. pose proof (zlen_nonneg x). unfold ProgramStreamMap. cbn [pop]. rewrite ret_bind.
  assert (u32 (mb_length (blk pre (x ++ d) post)) = zlen x + zlen d) as ->.
  { rewrite blk_length, zlen_app by (rewrite zlen_app; lia). apply wrap_small. unfold fits. lia. }
  rewrite (proj2 (Z.ltb_ge _ _)) by lia.
  destruct Hx as [Hx|[-> (id & Hs & Hne)]].
  - rewrite (lift_bind _ true) by (by apply (unit_match 0xBC)). cbn [negb].
    destruct (unit_length _ x d pre post Hx) as [El H6]. rewrite (lift_bind _ _ _ _ El), get_bind, Hv.
    change (negb (PT_TYPE_MAX =? PT_TYPE_H264)) with true. cbv iota.
    replace (4 + 2 + (zlen x - 6)) with (zlen x) by lia. apply skip_to_blk; lia.
  - cbn [app]. rewrite (lift_bind _ false) by (by apply (starts_match id)). by rewrite app_nil_r.
Qed.

Lemma private_step d pre post fl s : starts 0xE0 d ->
  ProgramPrivateHeader (blk pre d post :: fl) s =
    Some (blk pre d post :: fl, with_status PARSING_PES_PACKET s, []).
Proof.
  intros [d' ->]. unfold ProgramPrivateHeader. cbn [pop]. rewrite ret_bind.
  destruct (_ <? 6); [done|].
  rewrite (lift_bind _ true) by apply (match_bytes_prefix _ _ [] [0; 0; 1] (0xE0 :: d')).
  rewrite (lift_bind _ 0xE0); [done|]. rewrite blk_peek; [done|].
  rewrite zlen_app. change (zlen [0; 0; 1; 224]) with 4. pose proof (zlen_nonneg d'). lia.
Qed.

(** The header of a video PES packet with [n] bytes of payload. *)
Definition pes_head (x : list Z) (n : Z) : Prop :=
  exists hi lo a b k z, x = [0; 0; 1; 0xE0; hi; lo; a; b; k] ++ z /\ zlen z = k /\
    le16 lo hi = 3 + k + n.

Lemma last_nine (l : list Z) : 9 <= zlen l -> exists a t, l = a ++ t /\ zlen t = 9.
Proof.
  intros Hl. exists (take (Z.to_nat (zlen l - 9)) l), (drop (Z.to_nat (zlen l - 9)) l).
  rewrite take_drop. split; [done|]. rewrite zlen_drop. lia.
Qed.

Lemma pes_step x c0 cs h pre post bs junk fi s :
  is_byte h -> fits 32 (fi_timestamp fi) -> fits 32 (fi_ssrc fi) ->
  pes_head x (zlen c0 + zlen (concat cs) + 5) -> Forall2 piece_of bs cs -> pieces_ok c0 cs ->
  zlen x + zlen c0 + 5 < 2 ^ 32 -> m_VideoPayload s = PT_TYPE_H264 -> fits 16 (m_usRtpSeq s) ->
  exists fi' s' o, ProgramEStramHead junk fi (blk pre (x ++ [0; 0; 0; 1; h] ++ c0) post :: bs) s =
      Some ((fi', []), s', o) /\
    es_packets_are (fi_ssrc fi) (m_usRtpSeq s) (fi_timestamp fi)
      (mark_last true (es_payloads h c0 cs)) (forwards o) /\
    m_usRtpSeq s' = u16 (m_usRtpSeq s + zlen (c0 :: cs)).
Proof.
  intros Hh Hts Hss (hi & lo & a & b & k & z & -> & Hz & Hn) Hbs Hok Hl Hv Hseq.
  set (x := [0; 0; 1; 0xE0; hi; lo; a; b; k] ++ z) in *. set (d := [0; 0; 0; 1; h] ++ c0).
  pose proof (zlen_nonneg z). pose proof (zlen_nonneg c0). pose proof (zlen_nonneg (concat cs)).
  assert (zlen x = 9 + k) as Ex by (unfold x; rewrite zlen_app, Hz; done).
  assert (zlen d = 5 + zlen c0) as Ed by (unfold d; rewrite zlen_app; done).
  unfold ProgramEStramHead. cbn [pop]. rewrite ret_bind.
  assert (match_bytes (blk pre (x ++ d) post) 0 [0; 0; 1] = Some true) as Em.
  { unfold x. rewrite <-app_assoc.
    apply (match_bytes_prefix _ _ [] [0; 0; 1] ([0xE0; hi; lo; a; b; k] ++ z ++ d)). }
  rewrite (lift_bind _ _ _ _ Em). cbn [negb].
  assert (u32 (mb_length (blk pre (x ++ d) post)) = zlen x + zlen d) as ->.
  { rewrite blk_length, zlen_app by (rewrite zlen_app; lia). apply wrap_small. unfold fits. lia. }
  rewrite (proj2 (Z.ltb_ge _ _)) by lia.
  assert (forall i v, 0 <= i < 9 -> rd [0; 0; 1; 0xE0; hi; lo; a; b; k] i = Some v ->
    peek (blk pre (x ++ d) post) i = Some v) as Hpk.
  { intros i v Hi Hv'. rewrite blk_peek by (rewrite zlen_app; lia). unfold x.
    rewrite <-app_assoc, rd_app_l; [done|]. change (zlen _) with 9. lia. }
  rewrite (lift_bind _ (le16 lo hi)) by (unfold pack_length; by rewrite (Hpk 4 hi), (Hpk 5 lo) by (lia || done)).
  rewrite (lift_bind _ k) by (by apply (Hpk 8)). rewrite (lift_bind _ 0xE0) by (by apply (Hpk 3)).
  rewrite <-Ex. erewrite bind_eq by (apply skip_header_blk; lia). cbv zeta iota beta.
  rewrite modify_bind, get_bind. cbn [m_VideoPayload with_status].
  change (0xE0 =? 0xC0) with false. change (0xE0 =? 0xE0) with true. cbv iota. rewrite Hv.
  set (fi1 := PsToEs.with_payload _ _).
  assert (fi_length fi1 = zlen c0 + zlen (concat cs) + 5) as El.
  { unfold fi1. cbn. rewrite Hn. unfold u32. destruct Hok as [_ Hok].
    rewrite wrap_small; [lia|]. unfold fits. lia. }
  destruct (last_nine (pre ++ x)) as (p0 & t & Ep & Ht).
  { rewrite zlen_app. pose proof (zlen_nonneg pre). lia. }
  rewrite Ep.
  destruct (first_video fi1 h Hh Hts Hss (blk (p0 ++ t) d post) bs c0 cs junk
    (with_status PARSING_PES_PACKET s)) as (s' & o & E & Hp & ->); try done.
  { by exists p0, t, post. }
  rewrite E. cbn [mbind option_bind]. eexists _, _, _. split; [done|]. done.
Qed.

(** The parsing of a frame whose first block holds all the headers. *)
Lemma deal_spec pk sy mp pes h c0 cs pre post bs n junk fi s :
  let es := [0; 0; 0; 1; h] ++ c0 in
  pack_header pk -> opt_header 0xBB sy (mp ++ pes ++ es) -> opt_header 0xBC mp (pes ++ es) ->
  pes_head pes (zlen c0 + zlen (concat cs) + 5) ->
  is_byte h -> fits 32 (fi_timestamp fi) -> fits 32 (fi_ssrc fi) ->
  Forall2 piece_of bs cs -> pieces_ok c0 cs ->
  zlen (pk ++ sy ++ mp ++ pes ++ es) < 2 ^ 32 ->
  m_enStatus s = PARSING_PACK_HEADER -> m_VideoPayload s = PT_TYPE_H264 -> fits 16 (m_usRtpSeq s) ->
  exists s' o, deal_loop (6 + n) junk fi (blk pre (pk ++ sy ++ mp ++ pes ++ es) post :: bs) s =
      Some (Some [], s', o) /\
    es_packets_are (fi_ssrc fi) (m_usRtpSeq s) (fi_timestamp fi)
      (mark_last true (es_payloads h c0 cs)) (forwards o) /\
    m_usRtpSeq s' = u16 (m_usRtpSeq s + zlen (c0 :: cs)).
Proof.
  intros es Hpk Hsy Hmp Hpes Hh Hts Hss Hbs Hok Hl Hst Hv Hseq.
  assert (zlen es = 5 + zlen c0) as Ees by (unfold es; rewrite zlen_app; done).
  assert (9 <= zlen pes) as H9.
  { destruct Hpes as (? & ? & ? & ? & ? & z & -> & _). rewrite zlen_app.
    change (zlen [_; _; _; _; _; _; _; _; _]) with 9. pose proof (zlen_nonneg z). lia. }
  pose proof (zlen_nonneg c0). pose proof (zlen_nonneg pk). pose proof (zlen_nonneg sy). pose proof (zlen_nonneg mp).
  rewrite !zlen_app in Hl.
  cbn [Nat.add deal_loop]. rewrite get_bind, Hst.
  rewrite bind_assoc. erewrite bind_eq by (apply pack_step; [done|rewrite !zlen_app; lia|rewrite !zlen_app; lia]).
  rewrite ret_bind. rewrite get_bind. cbn [m_enStatus with_status].
  rewrite bind_assoc. erewrite bind_eq by (apply system_step; [done|rewrite !zlen_app; lia|rewrite !zlen_app; lia]).
  rewrite ret_bind, get_bind. cbn [m_enStatus with_status].
  rewrite bind_assoc. erewrite bind_eq by (apply map_step; [done|rewrite !zlen_app; lia|rewrite !zlen_app; lia|done]).
  rewrite ret_bind, get_bind. cbn [m_enStatus with_status].
  assert (starts 0xE0 (pes ++ es)) as Hst'.
  { destruct Hpes as (hi & lo & a & b & k & z & -> & _). by exists ([hi; lo; a; b; k] ++ z ++ es). }
  rewrite bind_assoc. erewrite bind_eq by (by apply private_step).
  rewrite ret_bind, get_bind. cbn [m_enStatus with_status].
  destruct (pes_step pes c0 cs h (((pre ++ pk) ++ sy) ++ mp) post bs junk fi
    (with_status PARSING_PES_PACKET s)) as (fi' & s' & o & E & Hp & Hq); try done; [lia|].
  unfold es in *.
  erewrite bind_eq.
  2: exact E.
  cbn [deal_loop]. eexists _, _. split; [cbn; rewrite ?app_nil_r; reflexivity|].
  split; done.
Qed.

(** ** The packets of the frame *)

(** A block that holds an RTP packet, with two bytes of room in front. *)
Definition in_block (ts ssrc : Z) (b : mblk) (pl : list Z) : Prop :=
  exists pre p post pt seq m, b = blk pre p post /\ packet_is pt ssrc seq ts m pl p /\
    2 <= zlen pre /\ bytes_ok p /\ zlen p < 2 ^ 32.

Lemma parse_mb_blk ts ssrc b pl : in_block ts ssrc b pl ->
  exists q, parse_mb b = Some (RET_OK, q, b) /\ GetHeadLen q = 12 /\
    GetTimeStamp q = Some ts /\ GetSSRC q = Some ssrc /\ (exists pt, GetPayloadType q = Some pt).
Proof.
  intros (pre & p & post & pt & seq & m & -> & [Hf Hd Hz] & _). pose proof (zlen_nonneg pl).
  unfold parse_mb. rewrite blk_data. cbn [mbind option_bind].
  rewrite (ParsePacket_plain _ _ CRtpPacket_new Hf) by done. cbn [mbind option_bind].
  rewrite (proj2 (Z.ltb_ge _ _)) by (unfold RTP_FIXED_HEADER_SIZE; lia).
  pose proof (blk_store pre post p p [] eq_refl) as Hst. rewrite app_nil_r in Hst.
  cbn [mb_rd blk m_pRtpData with_head_len attach]. rewrite Hst. cbn [mbind option_bind].
  eexists. split; [done|].
  destruct (getters_spec (with_head_len 12 (attach p CRtpPacket_new)) _ eq_refl Hf) as (_ & Et & Ep & Es & _).
  rewrite Et, Ep, Es. split; [done|]. split; [done|]. split; [done|]. eauto.
Qed.

(** The RTP header is left in front of the payload. *)
Lemma skip_head_blk ts ssrc b pl : in_block ts ssrc b pl ->
  exists pre h post, rd_ptr 12 b = blk (pre ++ h) pl post /\ zlen h = 12 /\ bytes_ok h /\ 2 <= zlen pre /\
    zlen pl + 12 < 2 ^ 32.
Proof.
  intros (pre & p & post & pt & seq & m & -> & [Hf Hd Hz] & Hp & Hb & Hl). pose proof (zlen_nonneg pl).
  exists pre, (take 12 p), post.
  assert (zlen (take 12 p) = 12) as Ht by (rewrite zlen_take; lia).
  split; [|split; [done|]].
  - rewrite <-Hd, <-(take_drop 12 p) at 1. rewrite <-Ht at 1. apply blk_skip.
  - split; [by apply Forall_take|]. lia.
Qed.

Lemma in_block_piece ts ssrc b pl : in_block ts ssrc b pl -> piece_of (rd_ptr 12 b) pl.
Proof.
  intros Hb. destruct (skip_head_blk _ _ _ _ Hb) as (pre & h & post & -> & Hh & Hbh & Hp & _).
  assert (exists p0 t1, pre = p0 ++ t1 /\ zlen t1 = 2) as (p0 & t1 & -> & Ht1).
  { exists (take (Z.to_nat (zlen pre - 2)) pre), (drop (Z.to_nat (zlen pre - 2)) pre).
    rewrite take_drop. split; [done|]. rewrite zlen_drop. lia. }
  assert (exists t2 x y, h = t2 ++ [x; y] /\ zlen t2 = 10 /\ is_byte x /\ is_byte y) as (t2 & x & y & -> & Ht2 & Hx & Hy).
  { assert (zlen (drop 10 h) = 2) as Hd by (rewrite zlen_drop; lia).
    assert (bytes_ok (drop 10 h)) as Hb2 by (by apply Forall_drop).
    exists (take 10 h). destruct (drop 10 h) as [|x [|y [|? ?]]] eqn:E; try (unfold zlen in Hd; simpl in Hd; lia).
    exists x, y. rewrite <-E, take_drop. split; [done|]. split; [rewrite zlen_take; lia|].
    apply Forall_cons in Hb2 as [? [? _]%Forall_cons]. done. }
  exists p0, (t1 ++ t2), x, y, post. split; [by rewrite <-!app_assoc|].
  rewrite zlen_app. split; [lia|done].
Qed.

Lemma skip_rtp_spec ts ssrc bs pls : Forall2 (in_block ts ssrc) bs pls -> forall fi acc s,
  next_dups s = [] ->
  exists fi' o, skip_rtp_loop fi bs acc s = Some ((RET_OK, fi', acc ++ (rd_ptr 12 <$> bs)), s, o) /\
    fi_timestamp fi' = fi_timestamp fi /\ fi_ssrc fi' = fi_ssrc fi /\ forwards o = [].
Proof.
  induction 1 as [|b pl bs pls Hb _ IH]; intros fi acc s Hd; cbn [skip_rtp_loop].
  { eexists _, _. cbn. rewrite app_nil_r. done. }
  assert (duplicate b s = Some (Some b, s, [Duplicated])) as Ed.
  { unfold duplicate. by rewrite get_bind, Hd. }
  destruct (parse_mb_blk _ _ _ _ Hb) as (q & Eq & Eh & _).
  destruct (IH (with_length (u32 (fi_length fi + mb_length (rd_ptr 12 b))) fi) (acc ++ [rd_ptr 12 b]) s Hd)
    as (fi' & o & E & Et & Es & Ho).
  exists fi', (Duplicated :: o). split; [|done].
  erewrite bind_eq by exact Ed. cbv iota beta. rewrite (lift_bind _ _ _ _ Eq).
  rewrite decide_False by tauto. cbv zeta. rewrite Eh, E. cbn [mbind option_bind].
  by rewrite <-app_assoc.
Qed.

Lemma free_all_forwards fl s : exists o, free_all fl s = Some (tt, s, o) /\ forwards o = [].
Proof.
  induction fl as [|b fl (o & E & Ho)]; cbn [free_all]; [by exists []|].
  unfold freeMediaBlock. rewrite tell_bind, E. by exists (Freed :: o).
Qed.

Lemma forwards_app o o' : forwards (o ++ o') = forwards o ++ forwards o'.
Proof. apply omap_app. Qed.

Lemma depacketize_rebuilt h c0 cs : is_byte h -> nalu_TYPE h <> RTP_FUA ->
  depacketize (es_payloads h c0 cs) = h :: c0 ++ concat cs.
Proof.
  intros Hh Ht. destruct cs as [|c cs]; cbn [es_payloads].
  - cbn. rewrite app_nil_r. destruct c0; [done|].
    by destruct (Z.eqb_spec (nalu_TYPE h) RTP_FUA); rewrite ?app_nil_r.
  - cbn [fu_payloads depacketize].
    assert ((nalu_TYPE (fu_indicator h) =? RTP_FUA) = true) as ->.
    { apply Z.eqb_eq. unfold nalu_TYPE, fu_indicator, RTP_FUA. bit_arith. }
    change ((fu_indicator h :: fu_header h false match cs with [] => true | _ => false end :: c)
      :: fu_payloads h false cs) with (fu_payloads h false (c :: cs)).
    rewrite fu_payloads_rest. f_equal.
    unfold fu_indicator, fu_header, RTP_FUA, fits in *. cbn [Z.b2z]. lia.
Qed.

(** ** The whole frame *)

(** The payloads of the packets of a frame with headers, one PES packet and a
    NAL unit [h :: c0 ++ concat cs] behind a start code; [c0] ends the first
    packet. *)
Record ps_frame (pk sy mp pes : list Z) (h : Z) (c0 : list Z) (cs : list (list Z)) : Prop := {
  frame_pack : pack_header pk;
  frame_system : opt_header 0xBB sy (mp ++ pes ++ [0; 0; 0; 1; h] ++ c0);
  frame_map : opt_header 0xBC mp (pes ++ [0; 0; 0; 1; h] ++ c0);
  frame_pes : pes_head pes (zlen c0 + zlen (concat cs) + 5);
  frame_nal : is_byte h /\ nalu_TYPE h <> RTP_FUA;
  frame_pieces : pieces_ok c0 cs }.

Definition first_payload (pk sy mp pes : list Z) (h : Z) (c0 : list Z) : list Z :=
  pk ++ sy ++ mp ++ pes ++ [0; 0; 0; 1; h] ++ c0.

Lemma check_spec ts ssrc b bs pk d fi s : in_block ts ssrc b (pk ++ d) -> pack_header pk ->
  checkProgramStreamHead fi (b :: bs) s = Some ((true, fi, b :: bs), s, []).
Proof.
  intros Hb (y & k & z & -> & _). destruct (parse_mb_blk _ _ _ _ Hb) as (q & Eq & Eh & _).
  destruct (skip_head_blk _ _ _ _ Hb) as (pre & h & post & Er & _).
  unfold checkProgramStreamHead. cbn [pop]. rewrite ret_bind, (lift_bind _ _ _ _ Eq).
  rewrite decide_False by tauto. cbv zeta. rewrite Eh, Er. rewrite (lift_bind _ 0); [done|].
  rewrite blk_peek; [done|]. rewrite <-app_assoc, zlen_app. change (zlen [0; 0; 1; 186]) with 4.
  pose proof (zlen_nonneg ((y ++ [k] ++ z) ++ d)). lia.
Qed.

Lemma handle_frame_spec ts ssrc b bs pk sy mp pes h c0 cs n junk s :
  ps_frame pk sy mp pes h c0 cs -> in_block ts ssrc b (first_payload pk sy mp pes h c0) ->
  Forall2 (in_block ts ssrc) bs cs -> fits 32 ts -> fits 32 ssrc ->
  next_dups s = [] -> m_VideoPayload s = PT_TYPE_H264 -> fits 16 (m_usRtpSeq s) ->
  exists s' o, handleRtpFrame (6 + n) junk (b :: bs) s = Some (Some tt, s', o) /\
    es_packets_are ssrc (m_usRtpSeq s) ts (mark_last true (es_payloads h c0 cs)) (forwards o) /\
    m_usRtpSeq s' = u16 (m_usRtpSeq s + zlen (c0 :: cs)).
Proof.
  intros [Hpk Hsy Hmp Hpes [Hh _] Hok] Hb Hbs Hts Hss Hd Hv Hseq. unfold first_payload in Hb.
  unfold handleRtpFrame. erewrite bind_eq by (by eapply check_spec). cbv iota beta.
  unfold dealProgramStreamRtpFrame. rewrite modify_bind. set (s1 := with_status _ s).
  destruct (parse_mb_blk _ _ _ _ Hb) as (q & Eq & Eh & Et & Es & pt & Ep).
  destruct (skip_rtp_spec ts ssrc (b :: bs) (_ :: cs) ltac:(constructor; [exact Hb|exact Hbs])
    (with_source ts ssrc pt es_frame_info_zero) [] s1 Hd) as (fi' & o1 & E1 & Eft & Efs & Ho1).
  cbn in Eft, Efs.
  assert (SkipAllRtpHead es_frame_info_zero (b :: bs) s1 =
    Some ((RET_OK, fi', rd_ptr 12 <$> b :: bs), s1, o1)) as E2.
  { unfold SkipAllRtpHead. cbn [pop]. rewrite ret_bind, (lift_bind _ _ _ _ Eq).
    rewrite decide_False by tauto.
    by rewrite (lift_bind _ _ _ _ Et), (lift_bind _ _ _ _ Es), (lift_bind _ _ _ _ Ep). }
  erewrite bind_eq by exact E2. cbv iota beta. rewrite decide_False by tauto. rewrite fmap_cons.
  destruct (skip_head_blk _ _ _ _ Hb) as (pre & hd & post & Er & _ & _ & _ & Hl). rewrite Er.
  destruct (deal_spec pk sy mp pes h c0 cs (pre ++ hd) post (rd_ptr 12 <$> bs) n junk fi' s1)
    as (s2 & o2 & E3 & Hp & Hq); try done.
  { by rewrite Eft. }
  { by rewrite Efs. }
  { clear -Hbs. induction Hbs as [|b c bs cs Hb _ IH]; [constructor|]. cbn. constructor; [|done].
    by eapply in_block_piece. }
  { lia. }
  erewrite bind_eq by exact E3. cbv iota beta. cbn [free_all].
  eexists _, _. split; [cbn; reflexivity|].
  rewrite Eft, Efs in Hp. rewrite !forwards_app, Ho1. cbn [forwards omap list_omap].
  rewrite !app_nil_r. split; [exact Hp|exact Hq].
Qed.

(** The packets a frame is answered with, and what a receiver makes of them. *)
Lemma frame_answered ts ssrc b bs pk sy mp pes h c0 cs n junk s
    (Hframe : ps_frame pk sy mp pes h c0 cs)
    (Hb : in_block ts ssrc b (first_payload pk sy mp pes h c0))
    (Hbs : Forall2 (in_block ts ssrc) bs cs) (Hts : fits 32 ts) (Hss : fits 32 ssrc)
    (Hdup : next_dups s = []) (Hv : m_VideoPayload s = PT_TYPE_H264) (Hseq : fits 16 (m_usRtpSeq s)) :
  exists s' o spec, handleRtpFrame (6 + n) junk (b :: bs) s = Some (Some tt, s', o) /\
    es_packets_are ssrc (m_usRtpSeq s) ts (mark_last true spec) (forwards o) /\
    m_usRtpSeq s' = u16 (m_usRtpSeq s + zlen (forwards o)) /\
    depacketize (drop 12 <$> forwards o) = h :: c0 ++ concat cs.
Proof.
  destruct (handle_frame_spec ts ssrc b bs pk sy mp pes h c0 cs n junk s) as (s' & o & E & Hp & Hq); try done.
  exists s', o, (es_payloads h c0 cs). split; [done|]. split; [done|].
  assert (zlen (forwards o) = zlen (c0 :: cs)) as ->.
  { rewrite (packets_are_length _ _ _ _ _ _ Hp). unfold zlen. rewrite mark_last_length.
    destruct cs as [|c cs]; [done|]. f_equal. cbn [es_payloads].
    generalize true. generalize (c0 :: c :: cs). induction l as [|x l IH]; intros st; [done|].
    cbn [fu_payloads length]. by rewrite IH. }
  split; [done|]. rewrite (packets_payloads _ _ _ _ _ _ Hp), mark_last_payloads.
  destruct Hframe as [_ _ _ _ [Hh Ht] _]. by apply depacketize_rebuilt.
Qed.

(** ** With the encapsulation of this server in front *)

(** A NAL unit has no three zeroes in a row (the emulation prevention of H.264)
    and does not end with a zero. *)
Definition nal_ok (l : list Z) : Prop :=
  (forall i, ~ (rd l i = Some 0 /\ rd l (i + 1) = Some 0 /\ rd l (i + 2) = Some 0)) /\ last l <> Some 0.

Lemma nal_ok_drop n l : nal_ok l -> nal_ok (drop n l).
Proof.
  intros [H1 H2]. destruct (Nat.le_gt_cases (length l) n) as [Hl|Hl].
  { rewrite drop_ge by done. split; [|done]. intros i [Hi _]. unfold rd in Hi. by case_decide. }
  split.
  - intros i (E0 & E1 & E2). apply (H1 (i + Z.of_nat n)).
    assert (forall j b, rd (drop n l) j = Some b -> rd l (j + Z.of_nat n) = Some b) as Hr.
    { intros j b. unfold rd. case_decide; [|done]. rewrite lookup_drop, decide_True by lia.
      intros <-. f_equal. lia. }
    split; [by apply Hr|]. split.
    + replace (i + Z.of_nat n + 1) with (i + 1 + Z.of_nat n) by lia. by apply Hr.
    + replace (i + Z.of_nat n + 2) with (i + 2 + Z.of_nat n) by lia. by apply Hr.
  - intros E. apply H2. rewrite <-(take_drop n l). by rewrite last_app, E.
Qed.

Lemma nal_mismatch l : nal_ok l -> l <> [] -> mismatch l [0; 0; 0; 1] = true.
Proof.
  intros [H1 H2] Hne. specialize (H1 0).
  destruct l as [|a [|b [|c l]]]; [done|..]; cbn [mismatch].
  - destruct (Z.eqb_spec a 0) as [->|]; [|done]. by destruct H2.
  - destruct (Z.eqb_spec a 0) as [->|]; [|done]. destruct (Z.eqb_spec b 0) as [->|]; [|done]. by destruct H2.
  - destruct (Z.eqb_spec a 0) as [->|]; [|done]. destruct (Z.eqb_spec b 0) as [->|]; [|done].
    destruct (Z.eqb_spec c 0) as [->|]; [|done]. by destruct H1.
Qed.

Lemma mismatch_take n l : (3 <= n)%nat -> (3 <= length l)%nat -> nal_ok l ->
  mismatch (take n l) [0; 0; 0; 1] = true.
Proof.
  intros Hn Hl [H1 _]. specialize (H1 0). destruct l as [|a [|b [|c l]]]; try (cbn in Hl; lia).
  destruct n as [|[|[|n]]]; try lia. cbn [take mismatch].
  destruct (Z.eqb_spec a 0) as [->|]; [|done]. destruct (Z.eqb_spec b 0) as [->|]; [|done].
  destruct (Z.eqb_spec c 0) as [->|]; [|done]. by destruct H1.
Qed.

Lemma chunks_pieces sz n l : 3 <= sz -> nal_ok l -> l <> [] ->
  Forall (fun c => mismatch c [0; 0; 0; 1] = true) (chunks sz n l).
Proof.
  intros Hsz. revert l. induction n as [|n IH]; intros l Hok Hne; [constructor|].
  cbn [chunks]. destruct (Z.leb_spec (zlen l) sz).
  - constructor; [by apply nal_mismatch|constructor].
  - constructor; [apply mismatch_take; [lia|unfold zlen in *; lia|done]|].
    apply IH; [by apply nal_ok_drop|]. intros E. apply (f_equal length) in E.
    rewrite length_drop in E. unfold zlen in *. cbn in E. lia.
Qed.

(** The stream of a frame of at most 65522 bytes: headers and one PES packet. *)
Lemma frame_headers_parts scr mux v : exists pk sy mp,
  frame_headers scr mux v = pk ++ sy ++ mp /\ pack_header pk /\
  (forall d, opt_header 0xBB sy d) /\ (forall d, opt_header 0xBC mp d) /\ zlen (pk ++ sy ++ mp) = 50.
Proof.
  exists (ps_header_bytes scr mux), (sys_header_bytes mux),
    (psm_bytes v ++ put32 (default 0 (fst <$> CRCGet (psm_bytes v) CRCInit))).
  split; [done|]. split.
  { eexists [_; _; _; _; _; _; _; _; _], _, []. split; [reflexivity|]. done. }
  split.
  { intros d. left. eexists _, _, [_; _; _; _; _; _]. split; [reflexivity|]. done. }
  split; [|done]. intros d. left.
  eexists _, _, ([_; _; _; _; _; _; _; _; _; _; _; _; _; _] ++ put32 _). split; [reflexivity|]. done.
Qed.

Lemma pes_packet_head pts data : INVALID_TIMESTAMP <> pts -> zlen data <= 65522 ->
  exists pes, pes_packet VIDEO_STREAM_ID pts pts data = pes ++ data /\ pes_head pes (zlen data) /\
    zlen pes = 19.
Proof.
  intros Hp Hl. pose proof (zlen_nonneg data).
  destruct (pes_packet_bytes VIDEO_STREAM_ID pts pts data Hp) as (l1 & l0 & fl & tail & E & Ht & Hn & _).
  assert (pes_overhead pts = 13) as Eo by (unfold pes_overhead; by rewrite (proj2 (Z.eqb_neq _ _))).
  rewrite Eo in *. unfold u16 in Hn. rewrite wrap_small in Hn by (unfold fits; lia).
  set (tsb := ts_bytes _ _) in E. assert (zlen tsb = 5) as Etsb by done.
  exists ([0; 0; 1; VIDEO_STREAM_ID; l1; l0; 128; fl; 13 - 3] ++ tsb ++ tail).
  split; [by rewrite E, <-!app_assoc|]. split.
  - exists l1, l0, 128, fl, (13 - 3), (tsb ++ tail). split; [done|]. rewrite zlen_app.
    split; [lia|]. unfold le16. lia.
  - rewrite !zlen_app. change (zlen [_; _; _; _; _; _; _; _; _]) with 9. lia.
Qed.

Lemma cut_stream hd h body : zlen hd = 69 -> nal_ok body ->
  let D := hd ++ [0; 0; 0; 1; h] ++ body in
  exists c0 cs, chunks 1406 (length D) D = (hd ++ [0; 0; 0; 1; h] ++ c0) :: cs /\
    c0 ++ concat cs = body /\ Forall (fun c => mismatch c [0; 0; 0; 1] = true) cs.
Proof.
  intros Hh Hok D. pose proof (zlen_nonneg body).
  assert (zlen D = 74 + zlen body) as HD by (unfold D; rewrite !zlen_app, Hh; change (zlen [0; 0; 0; 1; h]) with 5; lia).
  destruct (length D) as [|n] eqn:En; [unfold zlen in HD; lia|].
  destruct (Z.leb_spec (zlen D) 1406) as [Hl|Hl].
  - rewrite chunks_last by done. exists body, []. cbn. by rewrite app_nil_r.
  - rewrite chunks_cons by done.
    assert (length (hd ++ [0; 0; 0; 1; h]) = 74%nat) as Hlen.
    { rewrite length_app. unfold zlen in Hh. cbn. lia. }
    assert (D = (hd ++ [0; 0; 0; 1; h]) ++ body) as ED by (unfold D; by rewrite <-app_assoc).
    change (Z.to_nat 1406) with (74 + 1332)%nat.
    exists (take 1332 body), (chunks 1406 n (drop 1332 body)).
    assert (take (74 + 1332) D = hd ++ [0; 0; 0; 1; h] ++ take 1332 body) as ->.
    { rewrite ED, <-Hlen, firstn_app_2. by rewrite <-app_assoc. }
    assert (drop (74 + 1332) D = drop 1332 body) as ->.
    { rewrite ED, <-Hlen, <-drop_drop, drop_app_length. done. }
    split; [done|]. split.
    + rewrite concat_chunks; [apply take_drop|lia|]. rewrite length_drop. unfold zlen in HD. lia.
    + apply chunks_pieces; [lia|by apply nal_ok_drop|]. intros E. apply (f_equal length) in E.
      rewrite length_drop in E. unfold zlen in *. cbn in E. lia.
Qed.

(** A block as the receiver fills it: the packet, with room in front. *)
Definition holds (b : mblk) (p : list Z) : Prop :=
  exists pre post, b = blk pre p post /\ 2 <= zlen pre /\ bytes_ok p.

Lemma holds_in_block ts spec : forall seq pkts blocks,
  ps_packets_are seq ts spec pkts -> Forall (fun pl => zlen pl <= 1406) spec.*2 -> Forall2 holds blocks pkts ->
  Forall2 (in_block ts PS_RTP_SSRC) blocks spec.*2.
Proof.
  induction spec as [|[m pl] spec IH]; intros seq pkts blocks Hp Hl Hb;
    destruct pkts as [|p pkts]; try done; inversion_clear Hb as [|b ? bs ? Hb1 Hbs]; [constructor|].
  destruct Hp as [Hp1 Hp]. apply Forall_cons in Hl as [Hl1 Hl]. cbn in Hl1. constructor; [|by eapply IH].
  destruct Hb1 as (pre & post & -> & Hpre & Hok).
  exists pre, p, post, PS_RTP_PAYLOAD_TYPE, seq, m.
  split_and!; [done|done|lia|done|]. destruct Hp1 as [_ _ Hz]. cbn. lia.
Qed.

Lemma encapsulated_payloads now frame ts this (Hts : fits 32 ts)
    (Hok : encap_ok this) (Henc : enc_ok (m_MpegPsEncap this)) (Hlen : MIN_NALU_SIZE <= zlen frame <= 65522)
    (Hpts : INVALID_TIMESTAMP <> next_pts (m_unVideoTimestamp (m_MpegPsEncap this))
                                   (m_ullVideoPts (m_MpegPsEncap this)) ts) :
  exists this' pkts pk sy mp pes,
    insertVideoFrame now (Some frame) ts this = Some (RET_OK, this', pkts) /\
    let D := (pk ++ sy ++ mp ++ pes) ++ frame in
    ps_packets_are (PsRtpEncap.m_usRtpSeq this) ts (mark_last true (chunks 1406 (length D) D)) pkts /\
    pack_header pk /\ (forall d, opt_header 0xBB sy d) /\ (forall d, opt_header 0xBC mp d) /\
    pes_head pes (zlen frame) /\ zlen (pk ++ sy ++ mp ++ pes) = 69.
Proof.
  destruct (insertVideoFrame_run now frame ts this Hok Henc Hts (proj1 Hlen) Hpts)
    as (this' & pkts & E & _ & _ & _ & Hp).
  set (s := m_MpegPsEncap this) in *. set (s1 := video_state now frame ts s) in *.
  assert (m_ullVideoPts s1 = next_pts (m_unVideoTimestamp s) (m_ullVideoPts s) ts /\ m_isFirstPES s1 = true) as [Ep Ef].
  { unfold s1, video_state. set (s0 := with_scr _ _).
    destruct (calcEsBitrate_fields now (zlen frame) s0) as (_ & _ & _ & E4 & _). cbn. by rewrite E4. }
  assert (pieces (S (length frame)) frame = [frame]) as Epc.
  { cbn [pieces]. by rewrite (proj2 (Z.ltb_ge 65522 (zlen frame))) by lia. }
  rewrite Epc in Hp. cbn [ps_events] in Hp. unfold headers_if_first in Hp. rewrite Ef in Hp.
  cbn [es_pes] in Hp. rewrite Ep in Hp.
  destruct (frame_headers_parts (m_ullScr s1) (m_unMuxRate s1) (cVersion s1)) as (pk & sy & mp & Eh & H1 & H2 & H3 & H4).
  destruct (pes_packet_head _ frame Hpts (proj2 Hlen)) as (pes & Epes & H5 & H6).
  rewrite Eh, Epes in Hp. exists this', pkts, pk, sy, mp, pes. split; [done|]. cbv zeta.
  replace ((pk ++ sy ++ mp ++ pes) ++ frame) with ((pk ++ sy ++ mp) ++ pes ++ frame) by (by rewrite <-!app_assoc).
  split.
  - match type of Hp with packets_are _ _ _ _ ?l _ => replace l with (event_packets
      {| ps_data := (pk ++ sy ++ mp) ++ pes ++ frame; ps_timestamp := ts; ps_end := true |}) in Hp end; [done|].
    cbn. by rewrite app_nil_r.
  - split_and!; try done. rewrite !zlen_app in *. lia.
Qed.

(** ** A frame that is not left *)

Lemma stuck_kind h : 128 <= h < 256 -> nal_kind h = None.
Proof.
  intros Hh. unfold nal_kind, nalu_F, h265_F.
  assert (get_field 7 1 h = 1) as ->; [|done].
  rewrite get_field_arith by lia. pow2. lia.
Qed.

Lemma stuck_step h d pre post junk fi s : 128 <= h < 256 ->
  let fl := [blk pre ([0; 0; 0; 1; h] ++ d) post] in
  exists s1, (match m_enStatus s with
        | PARSING_PACK_HEADER => fl ← ProgramStreamPackHeader fl; mret (fi, fl)
        | PARSING_SYSTEM_HEADER => fl ← ProgramSystemPackHeader fl; mret (fi, fl)
        | PARSING_SYSMAP_HEADER => fl ← ProgramStreamMap fl; mret (fi, fl)
        | PARSING_PRIVATE_HEADER => fl ← ProgramPrivateHeader fl; mret (fi, fl)
        | PARSING_PES_PACKET => ProgramEStramHead junk fi fl
        | PARSING_FOUND_DATA => ProgramKnowFrame KNOW_DEPTH junk fi fl
        end : M PsSet event (es_frame_info * frame)) s = Some ((fi, fl), s1, []).
Proof.
  intros Hh fl. unfold fl.
  assert (forall id, match_bytes (blk pre ([0; 0; 0; 1; h] ++ d) post) 0 [0; 0; 1; id] = Some false) as Hm
    by (intros id; by apply (match_bytes_mismatch _ _ [])).
  assert (match_bytes (blk pre ([0; 0; 0; 1; h] ++ d) post) 0 [0; 0; 1] = Some false) as Hm3
    by (by apply (match_bytes_mismatch _ _ [])).
  destruct (m_enStatus s).
  - unfold ProgramStreamPackHeader. cbn [pop]. rewrite bind_assoc, ret_bind, bind_assoc, (lift_bind _ _ _ _ (Hm _)).
    by eexists.
  - unfold ProgramSystemPackHeader. cbn [pop]. rewrite bind_assoc, ret_bind, bind_assoc, (lift_bind _ _ _ _ (Hm _)).
    by eexists.
  - unfold ProgramStreamMap. cbn [pop]. rewrite bind_assoc, ret_bind. destruct (_ <? 10); [by eexists|].
    rewrite bind_assoc, (lift_bind _ _ _ _ (Hm _)). by eexists.
  - unfold ProgramPrivateHeader. cbn [pop]. rewrite bind_assoc, ret_bind. destruct (_ <? 6); [by eexists|].
    rewrite bind_assoc, (lift_bind _ _ _ _ Hm3). by eexists.
  - unfold ProgramEStramHead. cbn [pop]. rewrite ret_bind, (lift_bind _ _ _ _ Hm3). by eexists.
  - change KNOW_DEPTH with 3%nat. cbn [ProgramKnowFrame pop]. rewrite ret_bind. unfold has_start_code.
    rewrite (lift_bind _ true) by apply (match_bytes_prefix _ _ [] [0; 0; 0; 1] (h :: d)).
    rewrite (lift_bind _ h).
    + rewrite stuck_kind by done. by eexists.
    + rewrite blk_peek; [done|]. rewrite zlen_app. change (zlen [0; 0; 0; 1; h]) with 5.
      pose proof (zlen_nonneg d). lia.
Qed.

Lemma stuck_loop h d pre post junk fi : 128 <= h < 256 -> forall n s,
  exists s1, deal_loop n junk fi [blk pre ([0; 0; 0; 1; h] ++ d) post] s = Some (None, s1, []).
Proof.
  intros Hh. induction n as [|n IH]; intros s; cbn [deal_loop]; [by eexists|].
  rewrite get_bind. destruct (stuck_step h d pre post junk fi s Hh) as [s1 E].
  destruct (IH s1) as [s2 E2]. exists s2. erewrite bind_eq by exact E. cbv iota beta. by rewrite E2.
Qed.

(** ** Theorems *)

(** The RTP packets of a program stream frame with one NAL unit behind a
    start code in one PES packet, however the stream is cut into packets
    behind the header byte of the NAL unit, are answered with H.264 packets of
    the time stamp and the source of the frame, with consecutive sequence
    numbers and the marker on the last one; a receiver following RFC 6184
    rebuilds the NAL unit from their payloads. Nothing outside the blocks is
    touched. *)
Theorem ps2es_frame ts ssrc b bs pk sy mp pes h c0 cs n junk s
    (Hframe : ps_frame pk sy mp pes h c0 cs)
    (Hb : in_block ts ssrc b (first_payload pk sy mp pes h c0))
    (Hbs : Forall2 (in_block ts ssrc) bs cs) (Hts : fits 32 ts) (Hss : fits 32 ssrc)
    (Hdup : next_dups s = []) (Hv : m_VideoPayload s = PT_TYPE_H264) (Hseq : fits 16 (m_usRtpSeq s)) :
  exists s' o spec, handleRtpFrame (6 + n) junk (b :: bs) s = Some (Some tt, s', o) /\
    es_packets_are ssrc (m_usRtpSeq s) ts (mark_last true spec) (forwards o) /\
    m_usRtpSeq s' = u16 (m_usRtpSeq s + zlen (forwards o)) /\
    depacketize (drop 12 <$> forwards o) = h :: c0 ++ concat cs.
Proof. by apply (frame_answered ts ssrc b bs pk sy mp pes h c0 cs). Qed.


(** C20: handling a frame never gives back more blocks than it duplicated and
    took from the pool, whatever the packets contain and however far it got
    (with fuel for any number of turns of the loop of
    [dealProgramStreamRtpFrame]), and when it returns it has given back exactly
    as many. It returns, in at most 6 turns, for the frames of [ps2es_frame],
    when duplicating succeeds and the payload type is that of the constructor:
    headers, one PES packet and one NAL unit behind a start code, the format
    of the encapsulation. There are frames for which it never returns
    ([ps_found_data_stuck]). *)
Theorem ps_no_leak :
  (forall fuel junk fl s r s' o, handleRtpFrame fuel junk fl s = Some (r, s', o) ->
    (freed o <= made o)%nat /\ (r = Some tt -> freed o = made o)) /\
  (forall ts ssrc b bs pk sy mp pes h c0 cs n junk s, ps_frame pk sy mp pes h c0 cs ->
    in_block ts ssrc b (first_payload pk sy mp pes h c0) -> Forall2 (in_block ts ssrc) bs cs ->
    fits 32 ts -> fits 32 ssrc -> next_dups s = [] -> m_VideoPayload s = PT_TYPE_H264 -> fits 16 (m_usRtpSeq s) ->
    exists s' o, handleRtpFrame (6 + n) junk (b :: bs) s = Some (Some tt, s', o) /\ freed o = made o).
Proof.
  split; [apply bal_handle|]. intros ts ssrc b bs pk sy mp pes h c0 cs n junk s Hf Hb Hbs Hts Hss Hd Hv Hq.
  destruct (handle_frame_spec ts ssrc b bs pk sy mp pes h c0 cs n junk s) as (s' & o & E & _); try done.
  exists s', o. split; [exact E|]. by apply bal_handle in E as [_ E]; apply E.
Qed.

(** A frame whose payload begins with a start code and a byte with the
    first bit set never gets out of the loop: the state stays
    [PARSING_FOUND_DATA] and nothing is consumed. *)
Theorem ps_found_data_stuck ts ssrc b h d fuel junk s
    (Hb : in_block ts ssrc b ([0; 0; 0; 1; h] ++ d)) (Hh : 128 <= h < 256) (Hdup : next_dups s = []) :
  exists s' o, handleRtpFrame fuel junk [b] s = Some (None, s', o) /\ forwards o = [].
Proof.
  destruct (parse_mb_blk _ _ _ _ Hb) as (q & Eq & Eh & Et & Es & pt & Ep).
  unfold handleRtpFrame.
  assert (checkProgramStreamHead es_frame_info_zero [b] s = Some ((true, es_frame_info_zero, [b]), s, [])) as Ec.
  { destruct (skip_head_blk _ _ _ _ Hb) as (pre & hd & post & Er & _).
    unfold checkProgramStreamHead. cbn [pop]. rewrite ret_bind, (lift_bind _ _ _ _ Eq).
    rewrite decide_False by tauto. cbv zeta. rewrite Eh, Er. rewrite (lift_bind _ 0); [done|].
    rewrite blk_peek; [done|]. rewrite zlen_app. change (zlen [0; 0; 0; 1; h]) with 5.
    pose proof (zlen_nonneg d). lia. }
  erewrite bind_eq by exact Ec. cbv iota beta.
  unfold dealProgramStreamRtpFrame. rewrite modify_bind. set (s1 := with_status _ s).
  destruct (skip_rtp_spec ts ssrc [b] [_] ltac:(constructor; [exact Hb|constructor])
    (with_source ts ssrc pt es_frame_info_zero) [] s1 Hdup) as (fi' & o1 & E1 & _ & _ & Ho1).
  assert (SkipAllRtpHead es_frame_info_zero [b] s1 = Some ((RET_OK, fi', [rd_ptr 12 b]), s1, o1)) as E2.
  { unfold SkipAllRtpHead. cbn [pop]. rewrite ret_bind, (lift_bind _ _ _ _ Eq).
    rewrite decide_False by tauto.
    by rewrite (lift_bind _ _ _ _ Et), (lift_bind _ _ _ _ Es), (lift_bind _ _ _ _ Ep). }
  erewrite bind_eq by exact E2. cbv iota beta. rewrite decide_False by tauto.
  destruct (skip_head_blk _ _ _ _ Hb) as (pre & hd & post & -> & _).
  destruct (stuck_loop h d (pre ++ hd) post junk fi' Hh fuel s1) as (s2 & E3).
  erewrite bind_eq by exact E3. cbv iota beta. eexists _, _. split; [cbn; reflexivity|].
  by rewrite !app_nil_r, Ho1.
Qed.

(** ** Witnesses *)

Definition demo_head (seq : Z) (d : list Z) : mblk :=
  blk [0; 0] ([128; 96; 0; seq; 0; 0; 0; 7; 1; 2; 3; 4] ++ d) [].

Definition demo_pack : list Z := [0; 0; 1; 0xBA] ++ replicate 9 68 ++ [248].
(** 14 bytes of a NAL unit in two packets. *)
Definition demo_pes : list Z := [0; 0; 1; 0xE0; 0; 17; 128; 0; 0].

Lemma demo_in_block seq d : 0 <= seq < 256 -> bytes_ok d -> zlen d < 1000 ->
  in_block 7 0x04030201 (demo_head seq d) d.
Proof.
  intros Hs Hd Hl. eexists [0; 0], _, [], 96, seq, false. split; [reflexivity|].
  rewrite zlen_app. change (zlen [_; _; _; _; _; _; _; _; _; _; _; _]) with 12.
  assert (fields_of ([128; 96; 0; seq; 0; 0; 0; 7; 1; 2; 3; 4] ++ d) =
    Some (stream_fields 96 0x04030201 seq 7 false)) as E.
  { rewrite fields_of_app by done.
    transitivity (Some (stream_fields 96 0x04030201 (ntohs (le16 0 seq)) 7 false)); [reflexivity|].
    unfold ntohs, le16, byte_n, lo8. do 2 f_equal. change (256 ^ 1) with 256. change (256 ^ 0) with 1. lia. }
  split_and!; [split; [exact E|done|]|done| |lia].
  - rewrite zlen_app. done.
  - apply Forall_app. split; [|done]. repeat constructor; unfold is_byte; lia.
Qed.

Definition demo_blocks : list mblk :=
  [demo_head 1 (demo_pack ++ demo_pes ++ [0; 0; 0; 1; 101; 1; 2; 3]); demo_head 2 [4; 5; 6; 7; 8; 9]].

Lemma demo_ps_frame : ps_frame demo_pack [] [] demo_pes 101 [1; 2; 3] [[4; 5; 6; 7; 8; 9]].
Proof.
  split.
  - eexists (replicate 9 68), 248, []. split; [reflexivity|]. split; [done|by vm_compute].
  - right. split; [done|]. exists 0xE0. split; [eexists; reflexivity|done].
  - right. split; [done|]. exists 0xE0. split; [eexists; reflexivity|done].
  - eexists 0, 17, 128, 0, 0, []. split; [reflexivity|]. split; [done|by vm_compute].
  - split; [unfold is_byte; lia|by vm_compute].
  - split; [by repeat constructor|by vm_compute].
Qed.

Lemma demo_blocks_hold :
  Forall2 (in_block 7 0x04030201) demo_blocks
    [first_payload demo_pack [] [] demo_pes 101 [1; 2; 3]; [4; 5; 6; 7; 8; 9]].
Proof.
  constructor; [|constructor; [|constructor]]; (apply demo_in_block; [lia| |by vm_compute]);
    repeat constructor; unfold is_byte; lia.
Qed.

Lemma ps2es_frame_witness : exists s' o,
  handleRtpFrame 6 0 demo_blocks (PsSet_new [] []) = Some (Some tt, s', o) /\
  depacketize (drop 12 <$> forwards o) = [101; 1; 2; 3; 4; 5; 6; 7; 8; 9].
Proof.
  pose proof demo_blocks_hold as Hb. inversion_clear Hb as [|? ? ? ? Hb1 Hbs].
  destruct (ps2es_frame 7 0x04030201 _ _ demo_pack [] [] demo_pes 101 [1; 2; 3] [[4; 5; 6; 7; 8; 9]] 0 0
    (PsSet_new [] []) demo_ps_frame Hb1 Hbs) as (s' & o & spec & E & _ & _ & D).
  - by vm_compute.
  - by vm_compute.
  - done.
  - done.
  - by vm_compute.
  - exists s', o. split; [exact E|exact D].
Defined.

(** The audio packet of [demo_packet], and the frame of [ps2es_frame_witness]. *)
Lemma ps_no_leak_witness :
  (exists s' o, handleRtpFrame 9 0 [demo_packet] (PsSet_new [] []) = Some (Some tt, s', o) /\
    made o = 1%nat /\ freed o = made o) /\
  (exists s' o, handleRtpFrame 6 0 demo_blocks (PsSet_new [] []) = Some (Some tt, s', o) /\ freed o = made o).
Proof.
  split.
  - eexists _, _. split; [vm_compute; reflexivity|]. split; [by vm_compute|].
    eapply (proj1 ps_no_leak 9%nat 0 [demo_packet] (PsSet_new [] []) (Some tt)); [vm_compute; reflexivity|reflexivity].
  - pose proof demo_blocks_hold as Hb. inversion_clear Hb as [|? ? ? ? Hb1 Hbs].
    apply (proj2 ps_no_leak 7 0x04030201 _ _ demo_pack [] [] demo_pes 101 [1; 2; 3] [[4; 5; 6; 7; 8; 9]] 0%nat 0
      (PsSet_new [] []) demo_ps_frame Hb1 Hbs); [by vm_compute|by vm_compute|done|done|by vm_compute].
Defined.

Definition bytes_okb (l : list Z) : bool := forallb (fun z => (0 <=? z) && (z <? 256)) l.

Lemma bytes_okb_ok l : bytes_okb l = true -> bytes_ok l.
Proof.
  unfold bytes_okb. rewrite forallb_forall. intros H. apply Forall_forall. intros z Hz.
  specialize (H z ltac:(by apply list_elem_of_In)). unfold is_byte. lia.
Qed.

Lemma blocks_hold pkts : forallb bytes_okb pkts = true ->
  Forall2 holds ((fun p => blk [0; 0] p []) <$> pkts) pkts.
Proof.
  induction pkts as [|p pkts IH]; [constructor|]. cbn [forallb fmap list_fmap].
  intros [Hp H]%andb_true_iff. constructor; [|by apply IH].
  exists [0; 0], []. split; [done|]. split; [done|]. by apply bytes_okb_ok.
Qed.

Lemma nal_ok_fives n : nal_ok (replicate n 5).
Proof.
  split.
  - intros i (H & _). unfold rd in H. destruct (decide _); [|done].
    apply lookup_replicate in H as [H _]. done.
  - intros H. apply last_Some in H as [l E]. assert (0 ∈ replicate n 5) as H.
    { rewrite E. set_solver. }
    apply elem_of_replicate in H as [H _]. done.
Qed.


Lemma ps_found_data_stuck_witness : exists s' o,
  handleRtpFrame 50 0 [demo_head 1 [0; 0; 0; 1; 200; 1]] (PsSet_new [] []) = Some (None, s', o) /\ forwards o = [].
Proof.
  apply (ps_found_data_stuck 7 0x04030201 (demo_head 1 [0; 0; 0; 1; 200; 1]) 200 [1]).
  - apply demo_in_block; [lia| |by vm_compute]. repeat constructor; unfold is_byte; lia.
  - lia.
  - done.
Defined.
