(* ===== verification/TcpConnect.v ===== *)
(** * TCP connections: [svs_adapter_tcp_connect.cpp], [svs_static_preassign_buffer.h]

    [CTcpConnect] sends messages over a non-blocking socket, keeping what the
    socket does not take in a list of message blocks, and receives into a
    buffer of 64 KiB from which the derived class takes complete messages.

    What is outside (the socket, the pool of message blocks, the clock) is a
    state [W] reached through the interface [TcpEnv]; [block_size] is the size
    of a block of the pool. A block of the send list is the list of its bytes from
    [rd_ptr] to [wr_ptr]. A failed call of the socket comes with the answer of
    [checkIsDisconnect] for its error. The methods run under [m_SendMutex]. *)

From S2P Require Import Prelude.
Open Scope Z_scope.

(** ** The receive buffer *)

Record Static_PreAssign_Buffer : Type := {
  m_bufBlock : list Z; m_pHead : Z; m_pTail : Z; m_iLength : Z }.

Definition DEFAULT_BUFFER_SIZE : Z := 64 * 1024.

Definition PreAssign_new : Static_PreAssign_Buffer :=
  {| m_bufBlock := replicate (Z.to_nat DEFAULT_BUFFER_SIZE) 0; m_pHead := 0; m_pTail := 0; m_iLength := 0 |}.

Definition buf_size (b : Static_PreAssign_Buffer) : Z := zlen (m_bufBlock b).

Definition set_wr_ptr (n : Z) (b : Static_PreAssign_Buffer) : Static_PreAssign_Buffer :=
  if buf_size b <? n then b
  else {| m_bufBlock := m_bufBlock b; m_pHead := m_pHead b; m_pTail := n; m_iLength := n |}.
Definition set_rd_ptr (n : Z) (b : Static_PreAssign_Buffer) : Static_PreAssign_Buffer :=
  if buf_size b <? n then b
  else {| m_bufBlock := m_bufBlock b; m_pHead := n; m_pTail := m_pTail b; m_iLength := m_iLength b |}.

(** [copy] from the buffer itself: [n] bytes from the offset [off]. *)
Definition buf_copy (off n : Z) (b : Static_PreAssign_Buffer) : option Static_PreAssign_Buffer :=
  if buf_size b <? n then Some b
  else
    d ← sub (m_bufBlock b) off n;
    block ← memcpy (m_bufBlock b) 0 d;
    Some {| m_bufBlock := block; m_pHead := 0; m_pTail := n; m_iLength := n |}.

(** What [recv] stores at [wr_ptr]. *)
Definition buf_store (d : list Z) (b : Static_PreAssign_Buffer) : option Static_PreAssign_Buffer :=
  block ← memcpy (m_bufBlock b) (m_pTail b) d;
  Some {| m_bufBlock := block; m_pHead := m_pHead b; m_pTail := m_pTail b; m_iLength := m_iLength b |}.

(** ** The connection *)

Inductive NETWORK_HANDLE_STATUS : Set :=
| NETWORK_HANDLE_STATUS_INIT | NETWORK_HANDLE_STATUS_OPEN | NETWORK_HANDLE_STATUS_START
| NETWORK_HANDLE_STATUS_DISCONNECT | NETWORK_HANDLE_STATUS_ABNORMAL.

#[export] Instance status_eq_dec : EqDecision NETWORK_HANDLE_STATUS.
Proof. solve_decision. Defined.

Record CTcpConnect : Type := {
  m_Status : NETWORK_HANDLE_STATUS;
  m_pTcpHandle : bool;                  (* not NULL *)
  m_sockFD : bool;                      (* not ACE_INVALID_HANDLE *)
  m_ulLastRecvTime : Z;
  m_ulBufFullTime : Z;
  m_ullStreamID : Z;
  m_cVideoInterleaveNum : Z;
  m_cAudioInterleaveNum : Z;
  m_pRecvBuffer : option Static_PreAssign_Buffer;
  m_SendList : list (list Z);
  m_ulSignalMsgBufNum : Z }.

Definition MAX_BUF_SIGNAL_NUM : Z := 20.
Definition INVALID_DATA_ALARM_INTERVAL : Z := 3.

Definition CTcpConnect_new : CTcpConnect :=
  {| m_Status := NETWORK_HANDLE_STATUS_INIT; m_pTcpHandle := false; m_sockFD := false;
     m_ulLastRecvTime := 0; m_ulBufFullTime := 0; m_ullStreamID := 0;
     m_cVideoInterleaveNum := 0; m_cAudioInterleaveNum := 2; m_pRecvBuffer := None;
     m_SendList := []; m_ulSignalMsgBufNum := 0 |}.

Definition setStatus (v : NETWORK_HANDLE_STATUS) (t : CTcpConnect) : CTcpConnect :=
  {| m_Status := v; m_pTcpHandle := m_pTcpHandle t; m_sockFD := m_sockFD t;
     m_ulLastRecvTime := m_ulLastRecvTime t; m_ulBufFullTime := m_ulBufFullTime t;
     m_ullStreamID := m_ullStreamID t; m_cVideoInterleaveNum := m_cVideoInterleaveNum t;
     m_cAudioInterleaveNum := m_cAudioInterleaveNum t; m_pRecvBuffer := m_pRecvBuffer t;
     m_SendList := m_SendList t; m_ulSignalMsgBufNum := m_ulSignalMsgBufNum t |}.
Definition with_sock (v : bool) (t : CTcpConnect) : CTcpConnect :=
  {| m_Status := m_Status t; m_pTcpHandle := m_pTcpHandle t; m_sockFD := v;
     m_ulLastRecvTime := m_ulLastRecvTime t; m_ulBufFullTime := m_ulBufFullTime t;
     m_ullStreamID := m_ullStreamID t; m_cVideoInterleaveNum := m_cVideoInterleaveNum t;
     m_cAudioInterleaveNum := m_cAudioInterleaveNum t; m_pRecvBuffer := m_pRecvBuffer t;
     m_SendList := m_SendList t; m_ulSignalMsgBufNum := m_ulSignalMsgBufNum t |}.
Definition with_times (recv full : Z) (t : CTcpConnect) : CTcpConnect :=
  {| m_Status := m_Status t; m_pTcpHandle := m_pTcpHandle t; m_sockFD := m_sockFD t;
     m_ulLastRecvTime := recv; m_ulBufFullTime := full;
     m_ullStreamID := m_ullStreamID t; m_cVideoInterleaveNum := m_cVideoInterleaveNum t;
     m_cAudioInterleaveNum := m_cAudioInterleaveNum t; m_pRecvBuffer := m_pRecvBuffer t;
     m_SendList := m_SendList t; m_ulSignalMsgBufNum := m_ulSignalMsgBufNum t |}.
Definition setStreamID (v : Z) (t : CTcpConnect) : CTcpConnect :=
  {| m_Status := m_Status t; m_pTcpHandle := m_pTcpHandle t; m_sockFD := m_sockFD t;
     m_ulLastRecvTime := m_ulLastRecvTime t; m_ulBufFullTime := m_ulBufFullTime t;
     m_ullStreamID := v; m_cVideoInterleaveNum := m_cVideoInterleaveNum t;
     m_cAudioInterleaveNum := m_cAudioInterleaveNum t; m_pRecvBuffer := m_pRecvBuffer t;
     m_SendList := m_SendList t; m_ulSignalMsgBufNum := m_ulSignalMsgBufNum t |}.
Definition setInterleaveNums (video audio : Z) (t : CTcpConnect) : CTcpConnect :=
  {| m_Status := m_Status t; m_pTcpHandle := m_pTcpHandle t; m_sockFD := m_sockFD t;
     m_ulLastRecvTime := m_ulLastRecvTime t; m_ulBufFullTime := m_ulBufFullTime t;
     m_ullStreamID := m_ullStreamID t; m_cVideoInterleaveNum := video;
     m_cAudioInterleaveNum := audio; m_pRecvBuffer := m_pRecvBuffer t;
     m_SendList := m_SendList t; m_ulSignalMsgBufNum := m_ulSignalMsgBufNum t |}.
Definition with_buffer (b : option Static_PreAssign_Buffer) (t : CTcpConnect) : CTcpConnect :=
  {| m_Status := m_Status t; m_pTcpHandle := m_pTcpHandle t; m_sockFD := m_sockFD t;
     m_ulLastRecvTime := m_ulLastRecvTime t; m_ulBufFullTime := m_ulBufFullTime t;
     m_ullStreamID := m_ullStreamID t; m_cVideoInterleaveNum := m_cVideoInterleaveNum t;
     m_cAudioInterleaveNum := m_cAudioInterleaveNum t; m_pRecvBuffer := b;
     m_SendList := m_SendList t; m_ulSignalMsgBufNum := m_ulSignalMsgBufNum t |}.
Definition with_backlog (l : list (list Z)) (n : Z) (t : CTcpConnect) : CTcpConnect :=
  {| m_Status := m_Status t; m_pTcpHandle := m_pTcpHandle t; m_sockFD := m_sockFD t;
     m_ulLastRecvTime := m_ulLastRecvTime t; m_ulBufFullTime := m_ulBufFullTime t;
     m_ullStreamID := m_ullStreamID t; m_cVideoInterleaveNum := m_cVideoInterleaveNum t;
     m_cAudioInterleaveNum := m_cAudioInterleaveNum t; m_pRecvBuffer := m_pRecvBuffer t;
     m_SendList := l; m_ulSignalMsgBufNum := n |}.

(** ** What is outside *)

(** [sock_send d]: the return value of [ACE::send] (or [sendv], whose vectors are
    put together) and, for one that is not positive, whether the error closes
    the connection. [sock_send_n]: whether everything was sent, and how much was. *)
Class TcpEnv (W : Type) : Type := {
  block_size : Z;
  sock_send : list Z -> W -> (Z * bool) * W;
  sock_send_n : list Z -> W -> (bool * Z) * W;
  alloc_block : W -> bool * W;
  dup_block : W -> bool * W }.

(** No more is sent than was given. *)
Class TcpEnvLaws (W : Type) `{TcpEnv W} : Prop := {
  sock_send_bound d w : (sock_send d w).1.1 <= zlen d;
  block_size_pos : 0 <= block_size }.

Inductive tcp_event : Type :=
| Wire (d : list Z)            (* sent on the socket *)
| Freed                        (* freeMediaBlock *)
| Shutdown
| Unregister.

Definition wire (o : list tcp_event) : list Z :=
  o ≫= fun e => match e with Wire d => d | _ => [] end.
Definition pending (t : CTcpConnect) : list Z := concat (m_SendList t).

(** ** Sending *)

Section Send.
Context {W : Type} `{!TcpEnv W}.

Abbreviation TM := (M (CTcpConnect * W) tcp_event).

Definition this : TM CTcpConnect := s ← get; mret s.1.
Definition update (f : CTcpConnect -> CTcpConnect) : TM unit := modify (fun s => (f s.1, s.2)).
Definition outside {A} (f : W -> A * W) : TM A :=
  s ← get; modify (fun s' => (s'.1, (f s.2).2)) ;; mret (f s.2).1.

Definition close : TM Z :=
  t ← this;
  if decide (m_Status t = NETWORK_HANDLE_STATUS_DISCONNECT) then mret (-1)
  else tell Shutdown ;; update (setStatus NETWORK_HANDLE_STATUS_DISCONNECT) ;; mret 0.

(** One call of [ACE::send]: what was taken, none if it failed, and whether
    the failure closes the connection. *)
Definition send (d : list Z) : TM (Z * bool) :=
  r ← outside (sock_send d);
  let '(n, disc) := r in
  if 0 <? n then tell (Wire (take (Z.to_nat n) d)) ;; mret (n, false) else mret (0, disc).

Fixpoint send_least (l : list (list Z)) : TM SVS_RET_CODE :=
  match l with
  | [] => update (fun t => with_backlog (m_SendList t) 0 t) ;; mret RET_OK
  | pMsgBlock :: l =>
    '(nRet, disc) ← send pMsgBlock;
    if (disc : bool) then close ;; mret RET_ERR_DISCONNECT
    else if negb (zlen pMsgBlock =? nRet) then
      update (fun t => with_backlog (drop (Z.to_nat nRet) pMsgBlock :: l) (m_ulSignalMsgBufNum t) t) ;;
      mret RET_FAIL
    else
      tell Freed ;;
      update (fun t => with_backlog l (m_ulSignalMsgBufNum t) t) ;;
      send_least l
  end.

Definition sendLeastData : TM SVS_RET_CODE := t ← this; send_least (m_SendList t).

(** [copy] behind [b] into a block of the pool: nothing when it does not fit. *)
Definition block_append (b d : list Z) : list Z :=
  if block_size <? zlen b + zlen d then b else b ++ d.

Definition push_back (b : list Z) : TM unit :=
  update (fun t => with_backlog (m_SendList t ++ [b]) (m_ulSignalMsgBufNum t) t).

(** [allocMediaBlock], [copy], [push_back]; without a block the connection is
    closed. [signal] counts the message. *)
Definition cache (signal : bool) (b : list Z) : TM SVS_RET_CODE :=
  ok ← outside alloc_block;
  if negb (ok : bool) then close ;; mret RET_ERR_DISCONNECT
  else
    push_back b ;;
    (if signal then update (fun t => with_backlog (m_SendList t) (u32 (m_ulSignalMsgBufNum t + 1)) t)
     else mret tt) ;;
    mret RET_OK.

(** The backlog goes first. *)
Definition flush : TM SVS_RET_CODE :=
  t ← this;
  match m_SendList t with [] => mret RET_OK | _ => sendLeastData end.

Definition sendMessage (data : list Z) : TM SVS_RET_CODE :=
  t ← this;
  if decide (m_Status t ≠ NETWORK_HANDLE_STATUS_START) then mret RET_FAIL
  else if MAX_BUF_SIGNAL_NUM <=? m_ulSignalMsgBufNum t then mret RET_OK
  else
    r ← flush;
    if decide (r ≠ RET_OK) then cache true (block_append [] data)
    else
      '(nSendSize, disc) ← send data;
      if (disc : bool) then close ;; mret RET_ERR_DISCONNECT
      else if negb (zlen data =? nSendSize) then
        cache false (block_append [] (drop (Z.to_nat nSendSize) data))
      else mret RET_OK.

(** The first loop of the other [sendMessage]: the blocks that are left, and
    how much of the first of them was sent. [None]: the call returns. *)
Fixpoint send_blocks (ms : list (option (list Z))) : TM (SVS_RET_CODE + list (option (list Z)) * Z) :=
  match ms with
  | [] => mret (inr ([], 0))
  | None :: _ => mret (inl RET_FAIL)
  | Some b :: l =>
    if 0 <? zlen b then
      '(nSendSize, disc) ← send b;
      if (disc : bool) then close ;; mret (inl RET_ERR_DISCONNECT)
      else if negb (zlen b =? nSendSize) then mret (inr (ms, nSendSize))
      else send_blocks l
    else send_blocks l
  end.

(** The second loop. *)
Fixpoint keep_blocks (ms : list (option (list Z))) (nSendSize : Z) : TM SVS_RET_CODE :=
  match ms with
  | [] => mret RET_OK
  | None :: _ => fault
  | Some b :: l =>
    ok ← outside dup_block;
    if negb (ok : bool) then close ;; mret RET_ERR_DISCONNECT
    else push_back (drop (Z.to_nat nSendSize) b) ;; keep_blocks l 0
  end.

Definition sendMessage_blocks (pMessage : option (list (option (list Z)))) : TM SVS_RET_CODE :=
  t ← this;
  match pMessage with
  | None => mret RET_FAIL
  | Some ms =>
    if decide (m_Status t ≠ NETWORK_HANDLE_STATUS_START) then mret RET_FAIL
    else
      r ← flush;
      if decide (r ≠ RET_OK) then mret RET_FAIL
      else
        x ← send_blocks ms;
        match x with inl r => mret r | inr (ms, n) => keep_blocks ms n end
  end.

(** The loop over the vectors behind a short [sendv]. *)
Fixpoint keep_vectors (iov : list (list Z)) (unSize : Z) (b : list Z) : list Z :=
  match iov with
  | [] => b
  | v :: iov =>
    if unSize <? zlen v
    then keep_vectors iov 0 (block_append b (drop (Z.to_nat unSize) v))
    else keep_vectors iov (unSize - zlen v) b
  end.

Definition sendv (iov : list (list Z)) (unDataSize : Z) : TM SVS_RET_CODE :=
  t ← this;
  if decide (m_Status t ≠ NETWORK_HANDLE_STATUS_START) then mret RET_FAIL
  else
    r ← flush;
    if decide (r ≠ RET_OK) then mret RET_FAIL
    else
      '(nRet, disc) ← send (concat iov);
      if (disc : bool) then close ;; mret RET_ERR_DISCONNECT
      else if negb (unDataSize =? nRet) then cache false (keep_vectors iov nRet [])
      else mret RET_OK.

(** The waiting loop of [send_n]; [None]: fuel ran out. *)
Fixpoint drain (fuel : nat) : TM (option SVS_RET_CODE) :=
  t ← this;
  match m_SendList t, fuel with
  | [], _ => mret (Some RET_OK)
  | _, O => mret None
  | _, S fuel =>
    r ← sendLeastData;
    if decide (r = RET_ERR_DISCONNECT) then mret (Some r)
    else if decide (r ≠ RET_OK) then drain fuel
    else mret (Some RET_OK)
  end.

Definition send_n (fuel : nat) (data : list Z) : TM (option SVS_RET_CODE) :=
  t ← this;
  if decide (m_Status t ≠ NETWORK_HANDLE_STATUS_START) then mret (Some RET_FAIL)
  else
    r ← drain fuel;
    match r with
    | Some RET_OK =>
      x ← outside (sock_send_n data);
      let (ok, n) := (x : bool * Z) in
      tell (Wire (if ok then data else take (Z.to_nat n) data)) ;;
      (if ok then mret (Some RET_OK) else close ;; mret (Some RET_ERR_DISCONNECT))
    | r => mret r
    end.
End Send.

(** ** Life cycle *)

(** What [start] asks of the system: [new], [connect], the socket options, the
    registration with the reactor. *)
Record start_answers : Type := {
  ans_alloc : bool; ans_connect : bool; ans_options : bool; ans_regist : bool }.

Definition start (a : start_answers) (now : Z) (bActiveFlag : bool) (t : CTcpConnect)
    : SVS_RET_CODE * CTcpConnect :=
  if negb bActiveFlag && negb (m_sockFD t) then (RET_FAIL, t)
  else
    match m_pRecvBuffer t, ans_alloc a with
    | None, false => (RET_ERR_SYS_NEW, t)
    | o, _ =>
      let t := match o with
               | None => with_buffer (Some (set_rd_ptr 0 (set_wr_ptr 0 PreAssign_new))) t
               | Some _ => t
               end in
      if bActiveFlag && negb (ans_connect a) then (RET_FAIL, t)
      else
        let t := if bActiveFlag then with_sock true t else t in
        if negb (m_sockFD t && ans_options a) then (RET_FAIL, t)
        else
          let t := setStatus NETWORK_HANDLE_STATUS_START (with_times now (m_ulBufFullTime t) t) in
          if negb (ans_regist a) then (RET_FAIL, t) else (RET_OK, t)
    end.

(** The second result says whether the handle takes the connection off its
    table. *)
Definition handle_close (unregistered : bool) (t : CTcpConnect) : Z * bool * CTcpConnect :=
  if negb (m_sockFD t) then (-1, false, t)
  else if negb unregistered then (-1, false, t)
  else (0, m_pTcpHandle t, with_sock false t).

Definition checkHandleStatus (now unTimeout : Z) (t : CTcpConnect) : bool :=
  negb (unTimeout <=? u32 (now - m_ulLastRecvTime t)).

(** The destructor gives the blocks of the send list back. *)
Definition destroy (t : CTcpConnect) : list tcp_event := (fun _ => Freed) <$> m_SendList t.

(** ** Receiving *)

(** One [recv]: bytes, or an error with the answer of [checkIsDisconnect]. *)
Inductive recv_result : Type :=
| Received (d : list Z)
| RecvFailed (disconnect : bool).

Section Receive.
(** The derived class has a state and events of its own. *)
Context {X E : Type}.

Abbreviation RM := (M (CTcpConnect * X) E).

(** [handleRecvedData (pData, unDataSize)]: the first argument is the memory
    from [pData] to the end of the buffer, which is returned as the call leaves
    it. *)
Context (handleRecvedData : list Z -> Z -> RM (Z * list Z)).

Definition self : RM CTcpConnect := s ← get; mret s.1.
Definition set_self (f : CTcpConnect -> CTcpConnect) : RM unit := modify (fun s => (f s.1, s.2)).

(** The loop over the messages in the buffer; [None]: fuel ran out. *)
Fixpoint process (fuel : nat) (buf : list Z) (length processedSize : Z) : RM (option Z * list Z) :=
  match fuel with
  | O => mret (None, buf)
  | S fuel =>
    let pos := Z.to_nat processedSize in
    '(nSize, mem) ← handleRecvedData (drop pos buf) (length - processedSize);
    let buf := take pos buf ++ mem in
    if nSize <? 0 then mret (Some (-1), buf)
    else if nSize =? 0 then mret (Some processedSize, buf)
    else
      let processedSize := processedSize + nSize in
      if processedSize <? length then process fuel buf length processedSize
      else mret (Some processedSize, buf)
  end.

Definition with_block (d : list Z) (b : Static_PreAssign_Buffer) : Static_PreAssign_Buffer :=
  {| m_bufBlock := d; m_pHead := m_pHead b; m_pTail := m_pTail b; m_iLength := m_iLength b |}.

(** [None]: the connection is gone. *)
Definition receive (rcv : recv_result) (buf : Static_PreAssign_Buffer) : RM (option Static_PreAssign_Buffer) :=
  match rcv with
  | RecvFailed true => mret None
  | RecvFailed false => mret (Some buf)
  | Received d =>
    buf ← lift (buf_store d buf);
    mret (Some (set_rd_ptr 0 (set_wr_ptr (m_iLength buf + zlen d) buf)))
  end.

(** The end of [handle_input], from the loop over the messages on. *)
Definition take_messages (buf : Static_PreAssign_Buffer) : RM (option Z) :=
  '(r, mem) ← process (S (Z.to_nat (m_iLength buf))) (m_bufBlock buf) (m_iLength buf) 0;
  let buf := with_block mem buf in
  match r with
  | None => set_self (with_buffer (Some buf)) ;; mret None
  | Some p =>
    if p <? 0 then set_self (with_buffer (Some buf)) ;; mret (Some (-1))
    else
      let dataSize := m_iLength buf - p in
      buf ← lift (buf_copy (m_pHead buf + p) dataSize buf);
      set_self (with_buffer (Some (set_wr_ptr dataSize (set_rd_ptr 0 buf)))) ;;
      mret (Some 0)
  end.

(** [now], [now2]: the clock at the head and at the alarm; [rcv] is used when
    there is room in the buffer. Each turn of the loop handles a byte or
    more, so as many turns as bytes, and the first, are enough. *)
Definition handle_input (now now2 : Z) (rcv : recv_result) : RM (option Z) :=
  t ← self;
  if decide (m_Status t ≠ NETWORK_HANDLE_STATUS_START) then mret (Some (-1))
  else
    match m_pRecvBuffer t with
    | None => mret (Some (-1))
    | Some buf =>
      if negb (m_sockFD t) then mret (Some (-1))
      else
        set_self (fun t => with_times now (m_ulBufFullTime t) t) ;;
        let iRecvLen := buf_size buf - m_iLength buf in
        o ←
          (if iRecvLen <=? 0 then
             (if INVALID_DATA_ALARM_INTERVAL <=? u32 (now2 - m_ulBufFullTime t)
              then set_self (fun t => with_times now now2 t) else mret tt) ;;
             mret (Some buf)
           else receive rcv buf);
        match o with
        | None => mret (Some (-1))
        | Some buf => take_messages buf
        end
    end.

(** The reactor calls [handle_input] when the socket holds bytes; [sock] are
    those, [n + 1] the most one [recv] gives. Ends when [handle_input] fails. *)
Fixpoint inputs (sched : list (nat * Z * Z)) (sock : list Z) : RM (option (list Z)) :=
  match sched with
  | [] => mret (Some sock)
  | (n, now, now2) :: sched =>
    match sock with
    | [] => inputs sched sock
    | _ =>
      t ← self;
      match m_pRecvBuffer t with
      | None => mret None
      | Some buf =>
        let k := Nat.min (S n) (Z.to_nat (buf_size buf - m_iLength buf)) in
        r ← handle_input now now2 (Received (take k sock));
        match r with Some 0 => inputs sched (drop k sock) | _ => mret None end
      end
    end
  end.
End Receive.

(** ** Lemmas: the bytes on the wire *)

Lemma wire_app o o' : wire (o ++ o') = wire o ++ wire o'.
Proof. unfold wire. by rewrite bind_app. Qed.
Lemma wire_cons e o : wire (e :: o) = match e with Wire d => d ++ wire o | _ => wire o end.
Proof. by destruct e. Qed.
Lemma wire_nil : wire [] = [].
Proof. done. Qed.
#[local] Arguments wire : simpl never.
Create Rewrite HintDb wire.
#[local] Hint Rewrite wire_app wire_cons wire_nil app_nil_r : wire.

Section SendLemmas.
Context {W : Type} `{!TcpEnv W, !TcpEnvLaws W}.
Implicit Types (s : CTcpConnect * W).

(** [t] was taken over: it is on the wire or waits behind what waited before. *)
Definition moved (s : CTcpConnect * W) (t : list Z) (s' : CTcpConnect * W) (o : list tcp_event) : Prop :=
  wire o ++ pending s'.1 = pending s.1 ++ t.

(** The status is kept, or the connection was closed and [r] says so. *)
Definition keeps_status (s s' : CTcpConnect * W) (r : SVS_RET_CODE) : Prop :=
  m_Status s'.1 = if decide (r = RET_ERR_DISCONNECT) then NETWORK_HANDLE_STATUS_DISCONNECT
                  else m_Status s.1.

Lemma moved_trans s t s1 o1 t2 s2 o2 :
  moved s t s1 o1 -> moved s1 t2 s2 o2 -> moved s (t ++ t2) s2 (o1 ++ o2).
Proof.
  unfold moved. intros H1 H2. rewrite wire_app, <-app_assoc, H2, app_assoc, H1. by rewrite app_assoc.
Qed.

Lemma wp_this (P : CTcpConnect -> CTcpConnect * W -> list tcp_event -> Prop) s : P s.1 s [] -> wp this P s.
Proof. done. Qed.
Lemma wp_update f (P : unit -> CTcpConnect * W -> list tcp_event -> Prop) s :
  P tt (f s.1, s.2) [] -> wp (update f) P s.
Proof. done. Qed.
Lemma wp_outside {A} (f : W -> A * W) (P : A -> CTcpConnect * W -> list tcp_event -> Prop) s :
  P (f s.2).1 (s.1, (f s.2).2) [] -> wp (outside f) P s.
Proof. done. Qed.

Lemma wp_close (P : Z -> CTcpConnect * W -> list tcp_event -> Prop) s :
  (forall r o, wire o = [] -> P r (setStatus NETWORK_HANDLE_STATUS_DISCONNECT s.1, s.2) o) ->
  wp close P s.
Proof.
  intros HP. unfold close. wp_step. apply wp_this. case_decide as Hs.
  - wp_step. specialize (HP (-1) [] eq_refl). unfold setStatus in HP. rewrite <-Hs in HP.
    by destruct s as [[] w].
  - unfold update. repeat wp_step. by apply HP.
Qed.

Lemma wp_send d (P : Z * bool -> CTcpConnect * W -> list tcp_event -> Prop) s :
  (forall n disc w o, wire o = take (Z.to_nat n) d -> 0 <= n <= zlen d -> (disc = true -> n = 0) ->
     P (n, disc) (s.1, w) o) -> wp (send d) P s.
Proof.
  intros HP. unfold send. wp_step. apply wp_outside. pose proof (sock_send_bound d s.2) as Hb.
  destruct (sock_send d s.2) as [[n disc] w]. cbn in *.
  destruct (Z.ltb_spec 0 n).
  - do 3 wp_step. apply HP; [by autorewrite with wire|lia|done].
  - wp_step. apply HP; [done|pose proof (zlen_nonneg d); lia|done].
Qed.

(** The rules of this file, then the general ones. *)
Ltac go :=
  repeat first
    [ lazymatch goal with
      | |- wp this _ _ => apply wp_this
      | |- wp (update _) _ _ => apply wp_update
      | |- wp (outside _) _ _ => apply wp_outside
      end; cbv beta; cbn [app fst snd]
    | wp_step; cbn [fst snd] ].

Definition open (s : CTcpConnect * W) : Prop := m_Status s.1 = NETWORK_HANDLE_STATUS_START.

(** After a flush: what waited went out as far as the socket took it. *)
Lemma wp_send_least (P : SVS_RET_CODE -> CTcpConnect * W -> list tcp_event -> Prop) l : forall s, open s ->
  m_SendList s.1 = l ->
  (forall r s' o, moved s [] s' o -> keeps_status s s' r ->
     (r = RET_OK -> m_SendList s'.1 = []) -> (r = RET_OK \/ r = RET_FAIL \/ r = RET_ERR_DISCONNECT) ->
     P r s' o) -> wp (send_least l) P s.
Proof.
  revert P. induction l as [|b l IH]; intros P s Hs Hl HP; cbn [send_least].
  { go. apply HP; [|done|done|by left]. unfold moved, pending. cbn. by rewrite app_nil_r. }
  go. apply wp_send. intros n disc w o Hw Hn Hd.
  assert (pending s.1 = b ++ concat l) as Ep by (unfold pending; by rewrite Hl).
  destruct disc.
  { assert (wire o = []) as Hw0 by (by rewrite Hw, (Hd eq_refl)). go. apply wp_close. intros _ o1 Ho1. go.
    apply HP; [|done|done|by right; right]. unfold moved. autorewrite with wire. by rewrite Hw0, Ho1. }
  destruct (Z.eqb_spec (zlen b) n) as [Hz|Hz]; cbn [negb].
  - go. apply IH; [done|done|]. intros r s' o' Hm Hk Hnil Hr. cbn [app].
    apply HP; [|done|done|done]. unfold moved in *. cbn [fst] in Hm.
    autorewrite with wire in *. rewrite <-app_assoc, Hm, Hw, Ep, <-Hz. unfold zlen. rewrite Nat2Z.id, firstn_all. done.
  - go. apply HP; [|done|done|by right; left]. unfold moved. autorewrite with wire. rewrite Hw, Ep.
    unfold pending. cbn. rewrite app_assoc, take_drop. done.
Qed.

Lemma wp_flush (P : SVS_RET_CODE -> CTcpConnect * W -> list tcp_event -> Prop) s : open s ->
  (forall r s' o, moved s [] s' o -> keeps_status s s' r ->
     (r = RET_OK -> m_SendList s'.1 = []) -> (r = RET_OK \/ r = RET_FAIL \/ r = RET_ERR_DISCONNECT) ->
     P r s' o) -> wp flush P s.
Proof.
  intros Hs HP. unfold flush. go. destruct (m_SendList s.1) as [|b l] eqn:El.
  - go. apply HP; [unfold moved; cbn; by rewrite app_nil_r|done|done|by left].
  - unfold sendLeastData. go. rewrite El. apply wp_send_least; [done|done|]. exact HP.
Qed.

(** What a call with the bytes [d] does: it takes over a prefix [t] of them,
    all of them when it succeeds ([lim]: none), none when it fails and the
    connection stays open. *)
Definition call_post (d : list Z) (lim : bool) s (r : SVS_RET_CODE) s' (o : list tcp_event) : Prop :=
  exists t, moved s t s' o /\ t `prefix_of` d /\ (r = RET_OK -> t = if lim then [] else d) /\
    (open s' -> r <> RET_OK -> t = []) /\
    (open s' \/ m_Status s'.1 = NETWORK_HANDLE_STATUS_DISCONNECT).

Lemma moved_nil s : moved s [] s [].
Proof. unfold moved. by rewrite wire_nil, app_nil_r. Qed.

(** A call that takes nothing. *)
Lemma call_none d lim s r s' o : moved s [] s' o -> r <> RET_OK ->
  (open s' \/ m_Status s'.1 = NETWORK_HANDLE_STATUS_DISCONNECT) -> call_post d lim s r s' o.
Proof. intros Hm Hr Hs. exists []. split; [done|]. split; [apply prefix_nil|done]. Qed.

(** [cache]: the block is kept, or the connection closed. *)
Lemma wp_cache signal b (P : SVS_RET_CODE -> CTcpConnect * W -> list tcp_event -> Prop) s :
  (forall s' o, moved s b s' o -> m_Status s'.1 = m_Status s.1 -> P RET_OK s' o) ->
  (forall s' o, moved s [] s' o -> m_Status s'.1 = NETWORK_HANDLE_STATUS_DISCONNECT ->
     P RET_ERR_DISCONNECT s' o) ->
  wp (cache signal b) P s.
Proof.
  intros Hok Hfail. unfold cache. go. destruct (alloc_block s.2) as [ok w]. cbn [fst snd] in *.
  destruct ok; cbn [negb].
  - unfold push_back. go.
    assert (forall n, moved s b (with_backlog (m_SendList s.1 ++ [b]) n s.1, w) []) as Hm.
    { intros n. unfold moved, pending. cbn. autorewrite with wire. rewrite concat_app. cbn.
      by rewrite app_nil_r. }
    destruct signal; go; cbn [app]; (apply Hok; [apply Hm|done]).
  - go. apply wp_close. intros _ o Ho. go. apply Hfail; [|done].
    unfold moved. autorewrite with wire. by rewrite Ho.
Qed.

Definition limited (t : CTcpConnect) : bool := MAX_BUF_SIGNAL_NUM <=? m_ulSignalMsgBufNum t.

Lemma moved_then_status s t s1 o1 o2 w : moved s t s1 o1 -> wire o2 = [] ->
  moved s t (setStatus NETWORK_HANDLE_STATUS_DISCONNECT s1.1, w) (o1 ++ o2).
Proof. unfold moved. intros H H2. autorewrite with wire. rewrite H2, app_nil_r. exact H. Qed.

(** A chain of [moved], the first of nothing. *)
Lemma moved_after s t s1 o1 s2 o2 : moved s [] s1 o1 -> moved s1 t s2 o2 -> moved s t s2 (o1 ++ o2).
Proof. intros H1 H2. exact (moved_trans _ [] _ _ t _ _ H1 H2). Qed.

Lemma moved_sent s n d w o : m_SendList s.1 = [] -> wire o = take (Z.to_nat n) d ->
  moved s (take (Z.to_nat n) d) (s.1, w) o.
Proof. intros Hl Ho. unfold moved, pending. cbn. by rewrite Hl, Ho, app_nil_r. Qed.

(** Behind a flush that closed the connection or not. *)
Lemma flush_open s s' r : open s -> keeps_status s s' r ->
  open s' \/ m_Status s'.1 = NETWORK_HANDLE_STATUS_DISCONNECT.
Proof. unfold open, keeps_status. intros Hs ->. case_decide; [by right|by left]. Qed.
Lemma flush_ok_open s s' r : open s -> keeps_status s s' r -> r <> RET_ERR_DISCONNECT -> open s'.
Proof. unfold open, keeps_status. intros Hs -> Hr. by rewrite decide_False. Qed.

(** What was not sent is kept, or the connection is closed. *)
Lemma wp_cache_rest s0 d n signal b (P : SVS_RET_CODE -> CTcpConnect * W -> list tcp_event -> Prop) s o0 :
  moved s0 (take (Z.to_nat n) d) s o0 -> b = drop (Z.to_nat n) d ->
  (open s \/ m_Status s.1 = NETWORK_HANDLE_STATUS_DISCONNECT) ->
  (forall r s' o, call_post d false s0 r s' (o0 ++ o) -> P r s' o) -> wp (cache signal b) P s.
Proof.
  intros Hm -> Hs HP. apply wp_cache.
  - intros s' o Hm' Hst. apply HP. exists d. split.
    { rewrite <-(take_drop (Z.to_nat n) d). by eapply moved_trans. }
    split; [done|]. split; [done|]. split; [done|]. unfold open. by rewrite Hst.
  - intros s' o Hm' Hst. apply HP. exists (take (Z.to_nat n) d). split.
    { rewrite <-(app_nil_r (take _ _)). by eapply moved_trans. }
    split; [apply prefix_take|]. split; [done|]. split; [|by right].
    unfold open. by rewrite Hst.
Qed.

Lemma sendMessage_spec d s : open s -> zlen d <= block_size ->
  wp (sendMessage d) (call_post d (limited s.1) s) s.
Proof.
  intros Hs Hd. unfold sendMessage. go. rewrite decide_False by (intros H; by apply H).
  assert (forall l, zlen l <= zlen d -> block_append [] l = l) as Hb.
  { intros l Hl. unfold block_append. rewrite zlen_nil, (proj2 (Z.ltb_ge _ _)) by lia. done. }
  unfold limited. destruct (_ <=? _).
  { go. exists []. split; [apply moved_nil|]. split; [apply prefix_nil|]. split; [done|]. split; [done|by left]. }
  go. apply wp_flush; [done|]. intros r s1 o1 Hm1 Hk Hnil Hr. case_decide as Hok.
  - rewrite Hb by lia. apply (wp_cache_rest s d 0 _ _ _ s1 o1); [exact Hm1|done|by eapply flush_open|done].
  - assert (r = RET_OK) as -> by tauto. specialize (Hnil eq_refl). go. apply wp_send.
    intros n disc w o2 Hw Hn Hdisc. cbv iota beta.
    assert (moved s (take (Z.to_nat n) d) (s1.1, w) (o1 ++ o2)) as Hm2
      by (eapply moved_after; [exact Hm1|by apply moved_sent]).
    assert (open s1) as Hs1 by (by eapply flush_ok_open).
    destruct disc.
    { go. apply wp_close. intros _ o3 Ho3. go. rewrite app_nil_r, app_assoc. rewrite (Hdisc eq_refl) in Hm2.
      apply call_none; [by apply (moved_then_status _ _ (s1.1, w))|done|by right]. }
    destruct (Z.eqb_spec (zlen d) n) as [Hz|Hz]; cbn [negb].
    + go. rewrite app_nil_r. exists d. rewrite <-Hz in Hm2. unfold zlen in Hm2. rewrite Nat2Z.id, firstn_all in Hm2.
      split; [done|]. split; [done|]. split; [done|]. split; [done|by left].
    + rewrite Hb by (rewrite zlen_drop; lia).
      eapply wp_cache_rest; [exact Hm2|done|by left|]. intros r s' o H. by rewrite <-app_assoc in H.
Qed.

Lemma keep_vectors_spec iov : forall n b, 0 <= n -> zlen b + zlen (concat iov) - n <= block_size ->
  n <= zlen (concat iov) -> keep_vectors iov n b = b ++ drop (Z.to_nat n) (concat iov).
Proof.
  induction iov as [|v iov IH]; intros n b Hn Hb Hc; cbn [keep_vectors concat].
  { by rewrite drop_nil, app_nil_r. }
  cbn [concat] in *. rewrite zlen_app in *. destruct (Z.ltb_spec n (zlen v)).
  - unfold block_append. rewrite (proj2 (Z.ltb_ge _ _)) by (rewrite zlen_drop; pose proof (zlen_nonneg (concat iov)); lia).
    rewrite IH by (rewrite ?zlen_app, ?zlen_drop; pose proof (zlen_nonneg (concat iov)); lia).
    change (Z.to_nat 0) with 0%nat. rewrite drop_0, <-app_assoc, drop_app_le by (unfold zlen in *; lia). done.
  - rewrite IH by lia. rewrite drop_app_ge by (unfold zlen in *; lia). do 2 f_equal. unfold zlen in *. lia.
Qed.

(** How [flush] is followed in the calls that fail when it fails. *)
Lemma wp_flush_then d s (k : M (CTcpConnect * W) tcp_event SVS_RET_CODE) : open s ->
  (forall s1 o1, moved s [] s1 o1 -> m_SendList s1.1 = [] -> open s1 ->
     wp k (fun r s' o => call_post d false s r s' (o1 ++ o)) s1) ->
  wp (r ← flush; if decide (r ≠ RET_OK) then mret RET_FAIL else k) (call_post d false s) s.
Proof.
  intros Hs HK. go. apply wp_flush; [done|]. intros r s1 o1 Hm1 Hk Hnil Hr. case_decide.
  - go. apply call_none; [by rewrite app_nil_r|done|by eapply flush_open].
  - assert (r = RET_OK) as -> by tauto. apply HK; [done|by apply Hnil|by eapply flush_ok_open].
Qed.

Lemma call_closed d s r s1 o1 o2 w t : moved s t (s1.1, w) (o1 ++ o2) -> t `prefix_of` d -> r <> RET_OK ->
  forall o3, wire o3 = [] ->
  call_post d false s r (setStatus NETWORK_HANDLE_STATUS_DISCONNECT s1.1, w) ((o1 ++ o2) ++ o3).
Proof.
  intros Hm Ht Hr o3 Ho3. exists t. split; [by apply (moved_then_status _ _ (s1.1, w))|].
  split; [done|]. split; [done|]. split; [|by right]. done.
Qed.

Lemma sendv_spec iov s : open s -> zlen (concat iov) <= block_size ->
  wp (sendv iov (zlen (concat iov))) (call_post (concat iov) false s) s.
Proof.
  intros Hs Hd. unfold sendv. go. rewrite decide_False by (intros H; by apply H).
  apply wp_flush_then; [done|]. intros s1 o1 Hm1 Hnil Hs1. go. apply wp_send.
  intros n disc w o2 Hw Hn Hdisc. cbv iota beta.
  assert (moved s (take (Z.to_nat n) (concat iov)) (s1.1, w) (o1 ++ o2)) as Hm2
    by (eapply moved_after; [exact Hm1|by apply moved_sent]).
  destruct disc.
  { go. apply wp_close. intros _ o3 Ho3. go. rewrite app_nil_r, app_assoc.
    eapply call_closed; [exact Hm2|apply prefix_take|done|done]. }
  destruct (Z.eqb_spec (zlen (concat iov)) n) as [Hz|Hz]; cbn [negb].
  - go. rewrite app_nil_r. exists (concat iov). rewrite <-Hz in Hm2. unfold zlen in Hm2.
    rewrite Nat2Z.id, firstn_all in Hm2. split; [done|]. split; [done|]. split; [done|]. split; [done|by left].
  - eapply wp_cache_rest; [exact Hm2| |by left|].
    + rewrite keep_vectors_spec; [done|lia|rewrite zlen_nil; lia|lia].
    + intros r s' o H. by rewrite <-app_assoc in H.
Qed.

(** What is left of the blocks [bs] when [n] bytes of the first were sent. *)
Definition left_of (bs : list (list Z)) (n : Z) : list Z :=
  match bs with [] => [] | b :: bs => drop (Z.to_nat n) b ++ concat bs end.

Lemma left_of_0 bs : left_of bs 0 = concat bs.
Proof. by destruct bs. Qed.

Lemma wp_send_blocks (P : _ -> CTcpConnect * W -> list tcp_event -> Prop) bs : forall s,
  (forall w o bs' n t, wire o = t -> concat bs = t ++ left_of bs' n ->
     P (inr (Some <$> bs', n)) (s.1, w) o) ->
  (forall w o o' t, wire o = t -> t `prefix_of` concat bs -> wire o' = [] ->
     P (inl RET_ERR_DISCONNECT) (setStatus NETWORK_HANDLE_STATUS_DISCONNECT s.1, w) (o ++ o')) ->
  wp (send_blocks (Some <$> bs)) P s.
Proof.
  revert P. induction bs as [|b bs IH]; intros P s Hok Hfail; cbn [send_blocks fmap list_fmap].
  { go. destruct s as [c w]. by apply (Hok w [] [] 0 []). }
  destruct (Z.ltb_spec 0 (zlen b)) as [Hb|Hb].
  2: { assert (b = []) as -> by (destruct b; [done|rewrite zlen_cons in Hb; pose proof (zlen_nonneg b); lia]).
       by apply IH. }
  go. apply wp_send. intros n disc w o Hw Hn Hdisc. cbv iota beta. destruct disc.
  { go. apply wp_close. intros _ o1 Ho1. go. rewrite app_nil_r. eapply Hfail; [exact Hw| |done].
    rewrite (Hdisc eq_refl). apply prefix_nil. }
  destruct (Z.eqb_spec (zlen b) n) as [Hz|Hz]; cbn [negb].
  - assert (wire o = b) as Hwb by (rewrite Hw, <-Hz; unfold zlen; by rewrite Nat2Z.id, firstn_all).
    apply IH.
    + intros w' o' bs' m t Ht Hc. cbn. eapply Hok; [by rewrite wire_app, Hwb, Ht|].
      cbn. by rewrite Hc, app_assoc.
    + intros w' o' o'' t Ht Hp Ho''. cbn. rewrite app_assoc. eapply Hfail; [by rewrite wire_app, Hwb, Ht| |done].
      cbn. by apply prefix_app.
  - go. rewrite app_nil_r. apply (Hok w o (b :: bs) n _ Hw). cbn. by rewrite app_assoc, take_drop.
Qed.

Lemma wp_keep_blocks s0 d bs : forall n t s o0, moved s0 t s o0 -> d = t ++ left_of bs n -> open s ->
  wp (keep_blocks (Some <$> bs) n) (fun r s' o => call_post d false s0 r s' (o0 ++ o)) s.
Proof.
  induction bs as [|b bs IH]; intros n t s o0 Hm -> Hs; cbn [keep_blocks fmap list_fmap].
  { go. rewrite app_nil_r. exists t. cbn. rewrite app_nil_r. split; [done|]. split; [done|]. split; [done|].
    split; [done|by left]. }
  go. destruct (dup_block s.2) as [ok w]. cbn [fst snd]. destruct ok; cbn [negb].
  - unfold push_back. go. apply (wp_mono _ (fun r s' o => call_post (t ++ left_of (b :: bs) n) false s0 r s'
      ((o0 ++ []) ++ o))).
    + apply (IH 0 (t ++ drop (Z.to_nat n) b)).
      * eapply moved_trans; [exact Hm|]. unfold moved, pending. cbn. rewrite wire_nil, concat_app. cbn.
        by rewrite app_nil_r.
      * by rewrite left_of_0, <-app_assoc.
      * exact Hs.
    + intros r s' o. by rewrite app_nil_r.
  - go. apply wp_close. intros _ o1 Ho1. go. rewrite app_nil_r.
    exists t. split; [|split; [by exists (left_of (b :: bs) n)|]].
    + unfold moved in *. autorewrite with wire. by rewrite Ho1, app_nil_r.
    + split; [done|]. split; [|by right]. done.
Qed.

Lemma sendMessage_blocks_spec bs s : open s ->
  wp (sendMessage_blocks (Some (Some <$> bs))) (call_post (concat bs) false s) s.
Proof.
  intros Hs. unfold sendMessage_blocks. go. rewrite decide_False by (intros H; by apply H).
  apply wp_flush_then; [done|]. intros s1 o1 Hm1 Hnil Hs1. go.
  apply wp_send_blocks.
  - intros w o bs' n t Ht Hc. cbv iota beta.
    apply (wp_mono _ (fun r s' o' => call_post (concat bs) false s r s' ((o1 ++ o) ++ o'))).
    + eapply wp_keep_blocks; [|exact Hc|exact Hs1]. eapply moved_after; [exact Hm1|].
      unfold moved, pending. cbn. by rewrite Hnil, Ht, app_nil_r.
    + intros r s' o'. by rewrite <-app_assoc.
  - intros w o o' t Ht Hp Ho'. go. rewrite app_nil_r, app_assoc.
    eapply call_closed; [|exact Hp|done|done]. eapply moved_after; [exact Hm1|].
    unfold moved, pending. cbn. by rewrite Hnil, Ht, app_nil_r.
Qed.

(** ** Any sequence of calls *)

Inductive op : Type :=
| SendData (d : list Z)
| SendBlocks (bs : list (list Z))
| SendVectors (iov : list (list Z)).

Definition op_bytes (x : op) : list Z :=
  match x with SendData d => d | SendBlocks l | SendVectors l => concat l end.
Definition op_fits (x : op) : Prop :=
  match x with SendBlocks _ => True | _ => zlen (op_bytes x) <= block_size end.
Definition call (x : op) : M (CTcpConnect * W) tcp_event SVS_RET_CODE :=
  match x with
  | SendData d => sendMessage d
  | SendBlocks bs => sendMessage_blocks (Some (Some <$> bs))
  | SendVectors iov => sendv iov (zlen (concat iov))
  end.

(** A call that succeeds without sending: the limit of [sendMessage]. *)
Definition dropped (x : op) (t : CTcpConnect) : bool :=
  match x with SendData _ => limited t | _ => false end.

(** Each call with what it returned and whether it was dropped. *)
Fixpoint calls (l : list op) : M (CTcpConnect * W) tcp_event (list (op * SVS_RET_CODE * bool)) :=
  match l with
  | [] => mret []
  | x :: l => t ← this; r ← call x; log ← calls l; mret ((x, r, dropped x t) :: log)
  end.

(** The bytes of the calls that returned [RET_OK] and were not dropped. *)
Definition kept (log : list (op * SVS_RET_CODE * bool)) : list Z :=
  concat ((fun '(x, r, d) => if decide (r = RET_OK) then if d : bool then [] else op_bytes x else []) <$> log).

Lemma call_spec x s : open s -> op_fits x ->
  wp (call x) (call_post (op_bytes x) (dropped x s.1) s) s.
Proof.
  intros Hs Hx. destruct x; cbn [call op_bytes dropped].
  - by apply sendMessage_spec.
  - by apply sendMessage_blocks_spec.
  - by apply sendv_spec.
Qed.

Lemma call_shut x s : ~ open s -> call x s = Some (RET_FAIL, s, []).
Proof.
  intros Hs. destruct x; cbn [call]; unfold sendMessage, sendMessage_blocks, sendv, this;
    rewrite bind_assoc, get_bind, ret_bind, decide_True by exact Hs; done.
Qed.

Lemma calls_shut l : forall s, ~ open s ->
  exists log, calls l s = Some (log, s, []) /\ log.*1.*1 = l /\ kept log = [].
Proof.
  induction l as [|x l IH]; intros s Hs; cbn [calls]; [by exists []|].
  unfold this. rewrite bind_assoc, get_bind, ret_bind. erewrite bind_eq by (by apply call_shut).
  destruct (IH s Hs) as (log & E & El & Ek). erewrite bind_eq by exact E. eexists. split; [reflexivity|].
  cbn. by rewrite El.
Qed.

Lemma calls_spec l : forall s, open s -> Forall op_fits l ->
  wp (calls l) (fun log s' o => exists t, moved s (kept log ++ t) s' o /\ log.*1.*1 = l /\ (open s' -> t = []) /\
    (t = [] \/ exists x, x ∈ l /\ t `prefix_of` op_bytes x)) s.
Proof.
  induction l as [|x l IH]; intros s Hs Hl; cbn [calls].
  { go. exists []. split; [apply moved_nil|]. split; [done|]. split; [done|by left]. }
  apply Forall_cons in Hl as [Hx Hl]. go. eapply wp_mono; [by apply call_spec|].
  intros r s1 o1 (t & Hm & Hp & Hok & Hno & Hst). go.
  set (a := if decide (r = RET_OK) then if dropped x s.1 then [] else op_bytes x else []).
  assert (forall log, kept ((x, r, dropped x s.1) :: log) = a ++ kept log) as Ek by done.
  destruct (decide (open s1)) as [Hs1|Hs1].
  - assert (a = t) as Ea.
    { unfold a. case_decide; [by rewrite Hok|by rewrite Hno]. }
    eapply wp_mono; [by apply IH|]. intros log s2 o2 (t2 & Hm2 & El & Ho2 & Ht2). go.
    exists t2. rewrite app_nil_r, Ek, Ea, <-app_assoc. split; [by eapply moved_trans|]. split; [cbn; by rewrite El|]. split; [done|].
    destruct Ht2 as [->|(y & Hy & Hp2)]; [by left|right]. exists y. split; [by right|done].
  - destruct (calls_shut l s1 Hs1) as (log & E & El & E0). eapply wp_intro; [exact E|]. go. rewrite Ek, E0, !app_nil_r.
    destruct (decide (r = RET_OK)) as [Hr|Hr]; unfold a.
    + exists []. rewrite app_nil_r, <-Hok by done. split; [done|]. split; [cbn; by rewrite El|]. split; [done|by left].
    + exists t. split; [done|]. split; [cbn; by rewrite El|]. split; [done|]. right. exists x. split; [by left|done].
Qed.
End SendLemmas.

(** ** Lemmas: messages from the receive buffer *)

(** The buffer holds [d]; [junk] is what earlier messages left behind. *)
Definition buffer_is (d : list Z) (b : Static_PreAssign_Buffer) : Prop :=
  exists junk, m_bufBlock b = d ++ junk /\ m_iLength b = zlen d /\ m_pTail b = zlen d /\ m_pHead b = 0.

Lemma PreAssign_new_is : buffer_is [] PreAssign_new.
Proof. by exists (replicate (Z.to_nat DEFAULT_BUFFER_SIZE) 0). Qed.

Lemma buf_size_new : buf_size PreAssign_new = DEFAULT_BUFFER_SIZE.
Proof.
  unfold buf_size, PreAssign_new, zlen. cbn [m_bufBlock]. rewrite length_replicate.
  apply Z2Nat.id. unfold DEFAULT_BUFFER_SIZE. lia.
Qed.

Section Frames.
Context {X E : Type} (handle : list Z -> Z -> M (CTcpConnect * X) E (Z * list Z)).
Implicit Types (s : CTcpConnect * X).

(** Frames: their bytes, what is handed on for one, the states in which this
    holds; when [ready] holds a complete frame is not refused. *)
Context {F : Type} (bytes : F -> list Z) (frame_ok : F -> Prop) (out : F -> list E)
  (inv : CTcpConnect * X -> Prop) (ready : Prop).

(** Nothing, or the beginning of a frame. *)
Definition partial (p : list Z) : Prop :=
  p = [] \/ exists f q, frame_ok f /\ bytes f = p ++ q /\ q <> [].

(** What the derived class promises: it looks at the first frame only, hands
    it on if it is complete, or leaves it to the next call. It may write into a
    frame it hands on. *)
Definition takes_frames : Prop :=
  (forall f rest size s, inv s -> frame_ok f ->
     zlen (bytes f) <= size <= zlen (bytes f ++ rest) -> zlen (bytes f ++ rest) <= DEFAULT_BUFFER_SIZE ->
     wp (handle (bytes f ++ rest) size) (fun r s' o => inv s' /\ s'.1 = s.1 /\
       ((exists b, r = (zlen (bytes f), b ++ rest) /\ zlen b = zlen (bytes f) /\ o = out f) \/
        (r = (0, bytes f ++ rest) /\ o = [] /\ ~ ready))) s) /\
  (forall p junk s, inv s -> partial p -> p <> [] ->
     wp (handle (p ++ junk) (zlen p)) (fun r s' o => inv s' /\ s'.1 = s.1 /\
       r = (0, p ++ junk) /\ o = []) s) /\
  (forall f, frame_ok f -> bytes f <> []).

Hypothesis Hhandle : takes_frames.

(** [fs] splits into the frames that are handed on and the others. *)
Definition splits (fs done rest : list F) : Prop := fs = done ++ rest /\ (ready -> rest = []).

Lemma process_frames fs : forall fuel pre part junk s, inv s -> Forall frame_ok fs -> partial part ->
  (length (concat (bytes <$> fs) ++ part) < fuel)%nat -> concat (bytes <$> fs) ++ part <> [] ->
  zlen (pre ++ (concat (bytes <$> fs) ++ part) ++ junk) <= DEFAULT_BUFFER_SIZE ->
  wp (process handle fuel (pre ++ (concat (bytes <$> fs) ++ part) ++ junk)
        (zlen pre + zlen (concat (bytes <$> fs) ++ part)) (zlen pre))
    (fun r s' o => inv s' /\ s'.1 = s.1 /\
       exists done rest pre', splits fs done rest /\ o = concat (out <$> done) /\
         zlen pre' = zlen pre + zlen (concat (bytes <$> done)) /\
         r = (Some (zlen pre'), pre' ++ (concat (bytes <$> rest) ++ part) ++ junk)) s.
Proof.
  destruct Hhandle as (H1 & H2 & H3).
  induction fs as [|f fs IH]; intros fuel pre part junk s Hi Hfs Hp Hfuel Hne Hsz; (destruct fuel as [|fuel]; [lia|]);
    cbn [process].
  - cbn [fmap list_fmap concat app] in *.
    assert (drop (Z.to_nat (zlen pre)) (pre ++ part ++ junk) = part ++ junk) as ->.
    { unfold zlen. by rewrite Nat2Z.id, drop_app_length. }
    assert (take (Z.to_nat (zlen pre)) (pre ++ part ++ junk) = pre) as ->.
    { unfold zlen. by rewrite Nat2Z.id, take_app_length. }
    replace (zlen pre + zlen part - zlen pre) with (zlen part) by lia.
    apply wp_bind. eapply wp_mono; [by apply H2|]. intros ? s1 o (Hi1 & Es & -> & ->).
    cbn. split; [done|]. split; [done|].
    exists [], [], pre. split; [done|]. split; [done|]. cbn. rewrite zlen_nil. split; [lia|done].
  - apply Forall_cons in Hfs as [Hf Hfs]. cbn [fmap list_fmap concat] in *. rewrite <-!app_assoc in *.
    set (rest := concat (bytes <$> fs) ++ part ++ junk).
    assert (drop (Z.to_nat (zlen pre)) (pre ++ bytes f ++ rest) = bytes f ++ rest) as ->.
    { unfold zlen. by rewrite Nat2Z.id, drop_app_length. }
    assert (take (Z.to_nat (zlen pre)) (pre ++ bytes f ++ rest) = pre) as ->.
    { unfold zlen. by rewrite Nat2Z.id, take_app_length. }
    assert (0 < zlen (bytes f)) as Hpos.
    { pose proof (H3 f Hf). destruct (bytes f); [done|]. rewrite zlen_cons.
      match goal with |- context [zlen ?l] => pose proof (zlen_nonneg l) end. lia. }
    set (len := zlen (concat (bytes <$> fs) ++ part)).
    assert (zlen (bytes f ++ concat (bytes <$> fs) ++ part) = zlen (bytes f) + len) as El
      by (unfold len; by rewrite zlen_app).
    assert (0 <= len) by apply zlen_nonneg.
    rewrite El. replace (zlen pre + (zlen (bytes f) + len) - zlen pre) with (zlen (bytes f) + len) by lia.
    apply wp_bind. eapply wp_mono.
    { apply H1; [done|done| |]; unfold rest, len in *; rewrite !zlen_app in *; pose proof (zlen_nonneg junk).
      - lia.
      - pose proof (zlen_nonneg pre). lia. }
    intros ? s1 o (Hi1 & Es & [(b & -> & Eb & ->)|(-> & -> & Hr)]).
    + cbv iota beta. rewrite (proj2 (Z.ltb_ge _ 0)), (proj2 (Z.eqb_neq _ 0)) by lia.
      destruct (Z.ltb_spec (zlen pre + zlen (bytes f)) (zlen pre + (zlen (bytes f) + len))) as [Hlt|Hlt].
      * specialize (IH fuel (pre ++ b) part junk s1 Hi1 Hfs Hp).
        unfold rest. rewrite (zlen_app pre b), Eb in IH. rewrite <-!app_assoc in IH.
        replace (zlen pre + (zlen (bytes f) + len)) with (zlen pre + zlen (bytes f) + len) by lia.
        eapply wp_mono; [apply IH|].
        -- rewrite !length_app in *. unfold zlen in Hpos. lia.
        -- intros En. unfold len in Hlt. rewrite En, zlen_nil in Hlt. lia.
        -- clear -Hsz Eb. rewrite !zlen_app in *. lia.
        -- intros ? s2 o2 (Hi2 & Es2 & dn & rs & pre' & [-> Hr] & -> & Ez & ->).
           split; [done|]. split; [congruence|]. exists (f :: dn), rs, pre'. split; [done|]. split; [done|].
           cbn. rewrite zlen_app. split; [lia|done].
      * assert (fs = [] /\ part = []) as [-> ->].
        { assert (len = 0) as E0 by lia. unfold len in E0. rewrite zlen_app in E0.
          pose proof (zlen_nonneg part). pose proof (zlen_nonneg (concat (bytes <$> fs))).
          split; [|destruct part; [done|rewrite zlen_cons in *; pose proof (zlen_nonneg part); lia]].
          destruct fs as [|f2 fs]; [done|]. cbn [fmap list_fmap concat] in *.
          apply Forall_cons in Hfs as [Hf2 _]. pose proof (H3 f2 Hf2). rewrite zlen_app in *.
          destruct (bytes f2) as [|z l]; [done|]. rewrite zlen_cons in *.
          pose proof (zlen_nonneg l). pose proof (zlen_nonneg (concat (bytes <$> fs))). lia. }
        cbn. split; [done|]. split; [done|]. exists [f], [], (pre ++ b). split; [done|]. cbn.
        rewrite !app_nil_r, zlen_app. split; [done|]. split; [lia|]. f_equal; [f_equal; lia|].
        by rewrite <-app_assoc.
    + cbn. split; [done|]. split; [done|]. exists [], (f :: fs), pre.
      split; [split; [done|]; done|]. split; [done|]. cbn. rewrite zlen_nil. split; [lia|].
      by rewrite <-!app_assoc.
Qed.

Lemma cut_frames frames : forall tail p q, p ++ q = concat (bytes <$> frames) ++ tail ->
  Forall frame_ok frames -> partial tail ->
  exists fs fs' part, frames = fs ++ fs' /\ p = concat (bytes <$> fs) ++ part /\ partial part /\
    (fs' <> [] -> q <> []) /\ part ++ q = concat (bytes <$> fs') ++ tail.
Proof.
  induction frames as [|f frames IH]; intros tail p q HE Hfs Ht.
  - cbn in HE. exists [], [], p. split; [done|]. split; [done|]. split; [|done].
    destruct Ht as [->|(g & q' & Hg & Eg & Hq)].
    + apply app_eq_nil in HE as [-> _]. by left.
    + right. exists g, (q ++ q'). rewrite Eg, <-HE, <-app_assoc. split; [done|]. split; [done|].
      intros [_ H]%app_eq_nil. done.
  - apply Forall_cons in Hfs as [Hf Hfs]. cbn [fmap list_fmap concat] in HE. rewrite <-app_assoc in HE.
    apply app_eq_inv in HE as [(k & -> & HE)|(k & Ef & ->)].
    + destruct (IH tail k q) as (fs & fs' & part & -> & -> & Hp & Hq & E2); [done..|].
      exists (f :: fs), fs', part. split; [done|]. split; [by cbn; rewrite app_assoc|]. done.
    + destruct k as [|z k].
      * rewrite app_nil_r in Ef. subst p.
        destruct (IH tail [] (concat (bytes <$> frames) ++ tail)) as (fs & fs' & part & -> & Ep & Hp & Hq & E2);
          [done..|].
        exists (f :: fs), fs', part. split; [done|].
        split; [cbn; rewrite <-app_assoc, <-Ep; by rewrite app_nil_r|]. done.
      * exists [], (f :: frames), p. split; [done|]. split; [done|]. split; [|split].
        -- right. exists f, (z :: k). done.
        -- done.
        -- cbn. rewrite Ef, <-!app_assoc. done.
Qed.

(** What the loop over messages may not change. *)
Definition same_link (c c' : CTcpConnect) : Prop :=
  m_Status c' = m_Status c /\ m_sockFD c' = m_sockFD c /\ m_ullStreamID c' = m_ullStreamID c /\
  m_cVideoInterleaveNum c' = m_cVideoInterleaveNum c /\ m_cAudioInterleaveNum c' = m_cAudioInterleaveNum c.
Hypothesis Hinv : forall c c' x, same_link c c' -> inv (c, x) -> inv (c', x).

(** The connection receives and its buffer holds [d]. *)
Definition receiving s (d : list Z) : Prop :=
  inv s /\ m_Status s.1 = NETWORK_HANDLE_STATUS_START /\ m_sockFD s.1 = true /\
  exists buf, m_pRecvBuffer s.1 = Some buf /\ buffer_is d buf /\ buf_size buf = DEFAULT_BUFFER_SIZE.

Lemma wp_self (P : CTcpConnect -> CTcpConnect * X -> list E -> Prop) s : P s.1 s [] -> wp self P s.
Proof. done. Qed.
Lemma wp_set_self f (P : unit -> CTcpConnect * X -> list E -> Prop) s :
  P tt (f s.1, s.2) [] -> wp (set_self f) P s.
Proof. done. Qed.

Lemma receive_is d0 d buf : buffer_is d0 buf -> zlen d0 + zlen d <= buf_size buf ->
  exists buf2, buf_store d buf = Some buf2 /\
    let b := set_rd_ptr 0 (set_wr_ptr (m_iLength buf2 + zlen d) buf2) in
    buffer_is (d0 ++ d) b /\ buf_size b = buf_size buf.
Proof.
  intros (junk & Eb & El & Et & Eh) Hsz. unfold buf_store, buf_size in *. rewrite Et, Eb in *.
  rewrite zlen_app in Hsz.
  rewrite (memcpy_at d0 junk (zlen d0) d) by lia. cbn [mbind option_bind].
  eexists. split; [done|]. cbv zeta. set (blk := d0 ++ d ++ _).
  assert (zlen blk = zlen d0 + zlen junk) as Eblk.
  { unfold blk. rewrite !zlen_app, zlen_drop. unfold zlen in *. lia. }
  unfold set_wr_ptr, set_rd_ptr, buf_size. cbn [m_bufBlock m_iLength].
  rewrite Eblk, El, (proj2 (Z.ltb_ge (zlen d0 + zlen junk) (zlen d0 + zlen d))) by lia.
  cbn [m_bufBlock]. rewrite Eblk.
  pose proof (zlen_nonneg d0). pose proof (zlen_nonneg d).
  rewrite (proj2 (Z.ltb_ge _ _)) by lia. split; [|cbn [m_bufBlock]; by rewrite Eblk, zlen_app].
  exists (drop (length d) junk). cbn. unfold blk. rewrite <-app_assoc, zlen_app. done.
Qed.

(** The rest of the data goes to the front. *)
Lemma keep_rest a b buf : buffer_is (a ++ b) buf ->
  exists buf2, buf_copy (m_pHead buf + zlen a) (zlen b) buf = Some buf2 /\
    let b2 := set_wr_ptr (zlen b) (set_rd_ptr 0 buf2) in buffer_is b b2 /\ buf_size b2 = buf_size buf.
Proof.
  intros (junk & Eb & El & Et & Eh). unfold buf_copy, buf_size. rewrite Eb, Eh, <-app_assoc.
  pose proof (zlen_nonneg a). pose proof (zlen_nonneg b). pose proof (zlen_nonneg junk).
  rewrite (proj2 (Z.ltb_ge _ _)) by (rewrite !zlen_app; lia).
  rewrite sub_mid by lia. cbn [mbind option_bind].
  pose proof (memcpy_at [] (a ++ b ++ junk) 0 b eq_refl ltac:(rewrite !zlen_app; lia)) as Ec.
  cbn [app] in Ec. rewrite Ec.
  cbn [mbind option_bind app]. eexists. split; [done|]. cbv zeta. set (blk := b ++ _).
  assert (zlen blk = zlen (a ++ b ++ junk)) as Eblk.
  { unfold blk. rewrite !zlen_app, zlen_drop, !zlen_app. unfold zlen in *. lia. }
  unfold set_wr_ptr, set_rd_ptr, buf_size. cbn [m_bufBlock]. rewrite Eblk, !zlen_app.
  rewrite (proj2 (Z.ltb_ge _ 0)) by lia. cbn [m_bufBlock]. rewrite Eblk, !zlen_app, (proj2 (Z.ltb_ge _ _)) by lia.
  cbn [m_bufBlock]. rewrite Eblk, !zlen_app. split; [|done].
  eexists. done.
Qed.

Lemma receiving_times s d recv full : receiving s d -> receiving (with_times recv full s.1, s.2) d.
Proof. 
  intros (Hi & Hrest). split; [|exact Hrest]. destruct s as [c x]. eapply Hinv; [|exact Hi]. done.
Qed.

(** Messages are taken from the buffer, the rest moves to the front. *)
Definition took (s : CTcpConnect * X) (fs : list F) (part : list Z) (r : option Z) s' (o : list E) : Prop :=
  r = Some 0 /\ exists done rest, splits fs done rest /\ o = concat (out <$> done) /\
    receiving s' (concat (bytes <$> rest) ++ part).

Lemma take_messages_spec s buf fs part : inv s -> m_Status s.1 = NETWORK_HANDLE_STATUS_START ->
  m_sockFD s.1 = true -> buffer_is (concat (bytes <$> fs) ++ part) buf -> buf_size buf = DEFAULT_BUFFER_SIZE ->
  Forall frame_ok fs -> partial part -> concat (bytes <$> fs) ++ part <> [] ->
  wp (take_messages handle buf) (took s fs part) s.
Proof.
  intros Hi Hst Hsk (junk & Eb & El & Et & Eh) Hsz Hfs Hp Hne. unfold take_messages.
  set (d := concat (bytes <$> fs) ++ part) in *. rewrite Eb, El.
  apply wp_bind. eapply wp_mono.
  { apply (process_frames fs _ [] part junk s Hi Hfs Hp).
    - unfold zlen. rewrite Nat2Z.id. unfold d. lia.
    - exact Hne.
    - cbn [app]. fold d. rewrite <-Eb. fold (buf_size buf). lia. }
  intros ? s1 o (Hi1 & Es & dn & rs & a & [-> Hr] & -> & Ez & ->). cbn [app].
  rewrite (proj2 (Z.ltb_ge _ 0)) by apply zlen_nonneg. rewrite zlen_nil, Z.add_0_l in Ez.
  set (b := concat (bytes <$> rs) ++ part) in *.
  assert (zlen d = zlen a + zlen b) as Ed.
  { unfold d, b. rewrite fmap_app, concat_app, !zlen_app. lia. }
  set (buf1 := with_block _ buf).
  assert (buffer_is (a ++ b) buf1) as Hab.
  { exists junk. cbn. rewrite <-app_assoc, El, Et, zlen_app, Ed. done. }
  destruct (keep_rest a b _ Hab) as (buf2 & E2 & Hb2 & Hsz2). cbv zeta in Hb2, Hsz2.
  assert (m_iLength buf1 - zlen a = zlen b) as El2 by (cbn; lia).
  rewrite El2. wp_step. eapply wp_lift; [exact E2|]. wp_step. apply wp_set_self. wp_step.
  split; [done|]. exists dn, rs. split; [done|]. split; [by rewrite !app_nil_r|].
  destruct s1 as [c x]. cbn [fst snd] in *. subst c.
  split; [eapply Hinv; [|exact Hi1]; done|]. split; [done|]. split; [done|].
  eexists. split; [done|]. split; [exact Hb2|]. rewrite Hsz2, <-Hsz. unfold buf_size, buf1. cbn.
  rewrite Eb, !zlen_app. lia.
Qed.

Lemma handle_input_spec s d0 d fs part now now2 : receiving s d0 ->
  zlen d0 + zlen d <= DEFAULT_BUFFER_SIZE -> (d = [] -> zlen d0 = DEFAULT_BUFFER_SIZE) ->
  d0 ++ d = concat (bytes <$> fs) ++ part -> Forall frame_ok fs -> partial part ->
  wp (handle_input handle now now2 (Received d)) (took s fs part) s.
Proof.
  intros Hrec Hfit Hfull Ed Hfs Hp. pose proof Hrec as (Hi & Hst & Hsk & buf & Eb & Hbuf & Hsz).
  unfold handle_input. wp_step. apply wp_self. rewrite decide_False by (intros H; by apply H).
  rewrite Eb, Hsk. cbn [negb]. wp_step. apply wp_set_self. cbn [fst snd app].
  pose proof (receiving_times s d0 now (m_ulBufFullTime s.1) Hrec) as (Hi1 & _).
  set (s1 := (with_times _ _ _, _)) in *.
  assert (concat (bytes <$> fs) ++ part <> []) as Hne.
  { rewrite <-Ed. intros [-> ->]%app_eq_nil. specialize (Hfull eq_refl). done. }
  pose proof Hbuf as (junk & _ & El & _). rewrite Hsz, El.
  assert (forall s2 buf2 P, inv s2 -> m_Status s2.1 = NETWORK_HANDLE_STATUS_START -> m_sockFD s2.1 = true ->
    buffer_is (d0 ++ d) buf2 -> buf_size buf2 = DEFAULT_BUFFER_SIZE ->
    (forall r s' o, took s2 fs part r s' o -> P r s' o) -> wp (take_messages handle buf2) P s2) as Htake.
  { intros s2 buf2 P Hi2 Hst2 Hsk2 Hbuf2 Hsz2 HP. rewrite Ed in Hbuf2.
    eapply wp_mono; [by apply (take_messages_spec s2 buf2 fs part)|exact HP]. }
  destruct (Z.leb_spec (DEFAULT_BUFFER_SIZE - zlen d0) 0) as [Hroom|Hroom].
  - assert (d = []) as ->.
    { destruct d; [done|]. rewrite zlen_cons in Hfit. pose proof (zlen_nonneg d). lia. }
    rewrite app_nil_r in Ed, Htake.
    destruct (INVALID_DATA_ALARM_INTERVAL <=? _).
    + do 2 wp_step. apply wp_set_self. wp_step. cbv iota. apply (Htake (with_times now now2 s1.1, s1.2)); try done.
      destruct s1 as [c x]. eapply Hinv; [|exact Hi1]. done.
    + do 3 wp_step. cbv iota. by apply (Htake s1).
  - assert (zlen d0 + zlen d <= buf_size buf) as Hfit2 by lia.
    destruct (receive_is d0 d buf Hbuf Hfit2) as (buf2 & E2 & Hb2 & Hsz2). cbv zeta in Hb2, Hsz2.
    unfold receive. do 2 wp_step. eapply wp_lift; [exact E2|]. wp_step. cbv iota.
    apply (Htake s1); try done. lia.
Qed.

(** Any way the bytes arrive in. *)
Lemma inputs_spec sched : forall s d0 fs tail sock, receiving s d0 -> zlen d0 <= DEFAULT_BUFFER_SIZE ->
  d0 ++ sock = concat (bytes <$> fs) ++ tail -> Forall frame_ok fs -> partial tail ->
  (ready -> sock = [] -> fs = []) ->
  wp (inputs handle sched sock) (fun r s' o => exists sock' d' done rest, r = Some sock' /\ receiving s' d' /\
    fs = done ++ rest /\ o = concat (out <$> done) /\
    d' ++ sock' = concat (bytes <$> rest) ++ tail /\ (ready -> sock' = [] -> rest = [])) s.
Proof.
  induction sched as [|[[n now] now2] sched IH]; intros s d0 fs tail sock Hrec Hd0 HE Hfs Ht Hdone; cbn [inputs].
  { wp_step. exists sock, d0, [], fs. done. }
  destruct sock as [|z sock]; [by apply IH with (d0 := d0)|].
  wp_step. apply wp_self. pose proof Hrec as (Hi & Hst & Hsk & buf & Eb & Hbuf & Hsz). rewrite Eb.
  set (k := Nat.min _ _). pose proof Hbuf as (junk & _ & El & _).
  set (d := take k (z :: sock)). set (q := drop k (z :: sock)).
  assert (z :: sock = d ++ q) as Edq by (symmetry; apply take_drop). rewrite Edq in HE.
  rewrite app_assoc in HE.
  destruct (cut_frames fs tail (d0 ++ d) q HE Hfs Ht) as (fs1 & fs2 & part & -> & Ed & Hp & Hq & E2).
  apply Forall_app in Hfs as [Hfs1 Hfs2].
  assert (zlen d0 + zlen d <= DEFAULT_BUFFER_SIZE) as Hfit.
  { unfold d. rewrite zlen_take. unfold k. rewrite Hsz, El. lia. }
  wp_step. eapply wp_mono.
  { eapply (handle_input_spec s d0 d fs1 part); [done|done| |done|done|done].
    intros E0. unfold d in E0. apply (f_equal length) in E0. rewrite length_take in E0.
    change (length (z :: sock)) with (S (length sock)) in E0. unfold k in E0. rewrite Hsz, El in E0.
    change (length []) with 0%nat in E0. lia. }
  intros r s1 o1 (-> & dn & rs & [-> Hr] & -> & Hrec1). fold q.
  apply Forall_app in Hfs1 as [_ Hrs].
  eapply wp_mono.
  { apply (IH s1 (concat (bytes <$> rs) ++ part) (rs ++ fs2) tail q Hrec1).
    - rewrite fmap_app, concat_app in Ed. rewrite <-app_assoc in Ed.
      apply (f_equal zlen) in Ed. rewrite !zlen_app in *. pose proof (zlen_nonneg (concat (bytes <$> dn))). lia.
    - by rewrite fmap_app, concat_app, <-!app_assoc, E2.
    - by apply Forall_app.
    - done.
    - intros Hrd E0. rewrite (Hr Hrd). destruct fs2; [done|]. exfalso. by apply Hq. }
  intros r s2 o2 (sock' & d' & dn2 & rest & -> & Hrec2 & E3 & -> & E4 & Hrest).
  exists sock', d', (dn ++ dn2), rest. split; [done|]. split; [done|].
  split; [by rewrite <-!app_assoc, E3|]. split; [by rewrite fmap_app, concat_app|]. done.
Qed.
End Frames.

(** ** Theorems *)


(** When 20 messages wait, [sendMessage] reports success for every message,
    keeps none and never tries the socket again: a connection that only sends
    messages is silent from then on. *)
Theorem signal_backlog_silent {W : Type} `{!TcpEnv W} (ds : list (list Z)) (s : CTcpConnect * W)
    (Hopen : m_Status s.1 = NETWORK_HANDLE_STATUS_START)
    (Hfull : MAX_BUF_SIGNAL_NUM <= m_ulSignalMsgBufNum s.1) :
  (forall d, sendMessage d s = Some (RET_OK, s, [])) /\ calls (SendData <$> ds) s = Some ((fun d => (SendData d, RET_OK, true)) <$> ds, s, []).
Proof.
  assert (forall d, sendMessage d s = Some (RET_OK, s, [])) as H.
  { intros d. unfold sendMessage, this. rewrite bind_assoc, get_bind, ret_bind.
    rewrite decide_False by (intros H; by apply H). by rewrite (proj2 (Z.leb_le _ _)) by done. }
  split; [exact H|]. induction ds as [|d ds IH]; cbn [fmap list_fmap calls]; [done|].
  unfold this. rewrite bind_assoc, get_bind, ret_bind. erewrite bind_eq by exact (H d).
  erewrite bind_eq by exact IH. cbn. unfold limited. by rewrite (proj2 (Z.leb_le _ _)).
Qed.

(** ** Witnesses *)

(** A socket that takes so many bytes each time, then blocks; no block is
    refused. *)
#[local] Instance demo_env : TcpEnv (list Z) := {|
  block_size := 2048;
  sock_send d w := match w with
    | n :: w => ((Z.min n (zlen d), false), w)
    | [] => ((-1, false), [])
    end;
  sock_send_n d w := ((true, zlen d), w);
  alloc_block w := (true, w);
  dup_block w := (true, w) |}.

#[local] Instance demo_env_laws : TcpEnvLaws (list Z).
Proof.
  split; [|done]. intros d [|n w]; cbn; [|lia]. pose proof (zlen_nonneg d). lia.
Qed.

Definition demo_connect : CTcpConnect := setStatus NETWORK_HANDLE_STATUS_START CTcpConnect_new.


Lemma signal_backlog_silent_witness :
  let t := with_backlog [[1]; [2]] 20 demo_connect in
  sendMessage [3] (t, [9; 9]) = Some (RET_OK, (t, [9; 9]), []).
Proof. cbv zeta. apply (signal_backlog_silent [] (with_backlog [[1]; [2]] 20 demo_connect, [9; 9])); done. Defined.
