(* ===== verification/RtpTcpConnect.v ===== *)
(** * RTP over TCP: [svs_adapter_rtp_tcp_connect.cpp], [CRtspPacket::checkRtsp]

    [CRtpTcpConnect] takes RTSP messages and interleaved RTP and RTCP packets
    from the receive buffer of its base class [CTcpConnect] and hands them on as
    message blocks. [checkRtsp] of [svs_adapter_rtsp_packet.cpp] finds the end of
    an RTSP message.

    What is outside (the pool, the exchange of media, the task of messages, the
    table of sessions) is a state [W] reached through the interface [RtpTcpEnv];
    [parse_session] is the session number [CRtspPacket::parse] finds in a
    message. [None] is a read
    outside the receive buffer. *)

From Stdlib Require Import String Ascii.
From S2P Require Import Prelude Text RtpPacket TcpConnect.
Open Scope Z_scope.

(** ** [CRtspPacket::checkRtsp] *)

Definition m_strRtspMethods : list (list Z) :=
  chars <$> ["DESCRIBE"; "SETUP"; "TEARDOWN"; "PLAY"; "PAUSE"; "OPTIONS"; "ANNOUNCE";
             "GET_PARAMETER"; "SET_PARAMETER"; "REDIRECT"; "RECORD"; "RTSP/1.0"]%string.

Definition RTSP_MSG_LENGTH : Z := 2048.
Definition RTSP_END_LINE : list Z := [13; 10].
Definition RTSP_END_MSG : list Z := [13; 10; 13; 10].

(** [strncmp] with a string of that length: the reading stops at the first
    character that differs. *)
Fixpoint strncmp_eq (mem s : list Z) : option bool :=
  match s, mem with
  | [], _ => Some true
  | _, [] => None
  | y :: s, x :: mem => if x =? y then strncmp_eq mem s else Some false
  end.

Fixpoint find_method (mem : list Z) (l : list (list Z)) : option bool :=
  match l with
  | [] => Some false
  | s :: l => b ← strncmp_eq mem s; if (b : bool) then Some true else find_method mem l
  end.

(** [M_COMMON::trimString]. *)
Fixpoint skip_spaces (l : list Z) : list Z :=
  match l with 32 :: l => skip_spaces l | _ => l end.
Definition trimString (l : list Z) : list Z := rev (skip_spaces (rev (skip_spaces l))).

(** [checkRtsp (pszRtsp, unRtspSize, unMsgLen)]: the return value, the length,
    and the memory from [pszRtsp] on, in which a lower case header is
    corrected. *)
Definition checkRtsp (mem : list Z) (unRtspSize unMsgLen : Z) : option (Z * Z * list Z) :=
  ok ← find_method mem m_strRtspMethods;
  if negb (ok : bool) then Some (-1, unMsgLen, mem)
  else
    strRtspMsg ← sub mem 0 unRtspSize;
    match find RTSP_END_MSG strRtspMsg with
    | None => if RTSP_MSG_LENGTH <=? unRtspSize then Some (-1, unMsgLen, mem) else Some (0, 0, mem)
    | Some endPos =>
      let unMsgLen := u32 (endPos + 4) in
      let content pos (mem : list Z) :=
        let strContentLen := drop (Z.to_nat (pos + 15)) strRtspMsg in
        match find RTSP_END_LINE strRtspMsg with
        | None => (-1, unMsgLen, mem)
        | Some endLine =>
          let strLength := trimString (take (Z.to_nat endLine) strContentLen) in
          (0, u32 (unMsgLen + atoi strLength), mem)
        end in
      match find (chars "Content-Length:") strRtspMsg with
      | Some pos => Some (content pos mem)
      | None =>
        match find (chars "Content-length:") strRtspMsg with
        | None => Some (0, unMsgLen, mem)
        | Some pos => mem ← memcpy mem (pos + 8) [76]; Some (content pos mem)
        end
      end
    end.

(** ** The connection *)

Definition RTP_INTERLEAVE_FLAG : Z := 36.
Definition RTP_INTERLEAVE_LENGTH : Z := 4.

(** [parseRtspPacket] also returns -1, which is none of the enumeration. *)
Inductive parse_ret : Set := PARSE_RET_OK | PARSE_RET_FAIL | PARSE_RET_DATA_LACK | PARSE_RET_MINUS_1.

Definition INNER_MSG_RTP : Z := 1.
Definition INNER_MSG_RTSP : Z := 2.
Definition INNER_MSG_RTCP : Z := 3.

(** [sizeof (STREAM_TRANSMIT_PACKET) - 1] and [sizeof (STREAM_INNER_MSG)]. *)
Definition STREAM_TRANSMIT_HEAD : Z := 16.
Definition STREAM_INNER_HEAD : Z := 32.

Record RtpTcp : Type := {
  m_unSize : Z; m_unDataOffset : Z; m_usInnerMsgType : Z; m_bServiceType : bool }.

Definition RtpTcp_new : RtpTcp :=
  {| m_unSize := 0; m_unDataOffset := 0; m_usInnerMsgType := 0; m_bServiceType := false |}.

Definition with_info (size off type : Z) (r : RtpTcp) : RtpTcp :=
  {| m_unSize := size; m_unDataOffset := off; m_usInnerMsgType := type; m_bServiceType := m_bServiceType r |}.
Definition with_service (b : bool) (r : RtpTcp) : RtpTcp :=
  {| m_unSize := m_unSize r; m_unDataOffset := m_unDataOffset r;
     m_usInnerMsgType := m_usInnerMsgType r; m_bServiceType := b |}.

Class RtpTcpEnv (W : Type) : Type := {
  block_bytes : Z;
  media_block : W -> bool * W;                          (* allocMediaBlock *)
  free_block : W -> W;
  addData : Z -> list Z -> W -> bool * W;
  enqueueInnerMessage : Z -> Z -> list Z -> W -> bool * W;
  play_type : Z -> W -> bool * W;                       (* the session is found *)
  addTcpConnect : W -> bool * W;
  parse_session : list Z -> option Z }.

Inductive rt_event : Type :=
| Media (stream : Z) (d : list Z)
| Control (stream type : Z) (d : list Z).

Section Connect.
Context {W : Type} `{!RtpTcpEnv W}.

Abbreviation RM := (M (CTcpConnect * (RtpTcp * W)) rt_event).

Definition fields : RM RtpTcp := s ← get; mret s.2.1.
Definition set_fields (f : RtpTcp -> RtpTcp) : RM unit := modify (fun s => (s.1, (f s.2.1, s.2.2))).
Definition env {A} (f : W -> A * W) : RM A :=
  s ← get; modify (fun s' => (s'.1, (s'.2.1, (f s.2.2).2))) ;; mret (f s.2.2).1.

Definition free : RM unit := env (fun w => (tt, free_block w)).

Definition getPlayType : RM SVS_RET_CODE :=
  t ← self;
  if m_ullStreamID t =? 0 then mret RET_FAIL
  else ok ← env (play_type (m_ullStreamID t)); mret (if (ok : bool) then RET_OK else RET_FAIL).

(** The session of the first message. *)
Definition open_session (msg : list Z) : RM parse_ret :=
  match parse_session msg with
  | None => mret PARSE_RET_FAIL
  | Some id =>
    set_self (setStreamID id) ;;
    t ← self;
    if negb (m_pTcpHandle t) then mret PARSE_RET_MINUS_1
    else
      ok ← env addTcpConnect;
      if negb (ok : bool) then mret PARSE_RET_MINUS_1
      else
        r ← getPlayType;
        if decide (r ≠ RET_OK) then mret PARSE_RET_MINUS_1
        else set_fields (with_service true) ;; mret PARSE_RET_OK
  end.

Definition parseRtspPacket (mem : list Z) (unDataSize : Z) : RM (parse_ret * list Z) :=
  r ← fields;
  x ← lift (checkRtsp mem unDataSize (m_unSize r));
  let '(ret, size, mem) := x in
  set_fields (with_info size (m_unDataOffset r) (m_usInnerMsgType r)) ;;
  if negb (ret =? 0) then mret (PARSE_RET_FAIL, mem)
  else if (size =? 0) || (unDataSize <? size) then
    set_fields (with_info 0 (m_unDataOffset r) (m_usInnerMsgType r)) ;; mret (PARSE_RET_DATA_LACK, mem)
  else
    t ← self;
    o ← (if m_ullStreamID t =? 0 then msg ← lift (sub mem 0 size); open_session msg else mret PARSE_RET_OK);
    match o with
    | PARSE_RET_OK => set_fields (with_info size 0 INNER_MSG_RTSP) ;; mret (PARSE_RET_OK, mem)
    | _ => mret (o, mem)
    end.

Definition parseRtpRtcpPacket (mem : list Z) (unDataSize : Z) : RM parse_ret :=
  if unDataSize <? RTP_INTERLEAVE_LENGTH then mret PARSE_RET_DATA_LACK
  else
    b2 ← lift (rd mem 2);
    b3 ← lift (rd mem 3);
    let size := ntohs (le16 b2 b3) in
    set_fields (fun r => with_info size (m_unDataOffset r) (m_usInnerMsgType r) r) ;;
    if u32 (unDataSize - RTP_INTERLEAVE_LENGTH) <? size then mret PARSE_RET_DATA_LACK
    else
      ch ← lift (rd mem 1);
      t ← self;
      let type := if (m_cVideoInterleaveNum t =? ch) || (m_cAudioInterleaveNum t =? ch)
                  then INNER_MSG_RTP else INNER_MSG_RTCP in
      set_fields (with_info size RTP_INTERLEAVE_LENGTH type) ;;
      mret PARSE_RET_OK.

Definition parseDataInfo (mem : list Z) (unDataSize : Z) : RM (parse_ret * list Z) :=
  set_fields (with_info 0 0 INNER_MSG_RTP) ;;
  b0 ← lift (rd mem 0);
  if negb (RTP_INTERLEAVE_FLAG =? b0) then parseRtspPacket mem unDataSize
  else r ← parseRtpRtcpPacket mem unDataSize; mret (r, mem).

(** [copy] of [n] bytes into a block with [room] bytes. *)
Definition copy_in (room n : Z) (d : list Z) : option (list Z) :=
  if room <? n then Some [] else sub d 0 n.

(** [ParsePacket] in the receive buffer. *)
Definition parse_at (off n : Z) (mem : list Z) : option (CRtpPacket * list Z) :=
  d ← sub mem off n;
  '(_, p) ← ParsePacket (Some d) CRtpPacket_new;
  mem ← (if n <? RTP_FIXED_HEADER_SIZE then Some mem else memcpy mem off (m_pRtpData p));
  Some (p, mem).

Definition handleMediaData (mem : list Z) : RM (Z * list Z) :=
  ok ← env media_block;
  if negb (ok : bool) then mret (0, mem)
  else
    r ← fields;
    x ← lift (parse_at (m_unDataOffset r) (m_unSize r) mem);
    let '(p, mem) := (x : CRtpPacket * list Z) in
    d ← lift (copy_in (block_bytes - STREAM_TRANSMIT_HEAD) (u32 (m_unSize r - GetTailLen p))
                      (drop (Z.to_nat (m_unDataOffset r)) mem));
    t ← self;
    ok ← env (addData (m_ullStreamID t) d);
    if negb (ok : bool) then free ;; mret (0, mem)
    else tell (Media (m_ullStreamID t) d) ;; mret (m_unSize r + m_unDataOffset r, mem).

Definition handleControlMessage (mem : list Z) : RM (Z * list Z) :=
  ok ← env media_block;
  if negb (ok : bool) then mret (0, mem)
  else
    r ← fields;
    t ← self;
    if block_bytes - STREAM_INNER_HEAD <? m_unSize r then
      free ;; mret (m_unSize r + m_unDataOffset r, mem)
    else
      d ← lift (sub mem (m_unDataOffset r) (m_unSize r));
      ok ← env (enqueueInnerMessage (m_ullStreamID t) (m_usInnerMsgType r) d);
      if negb (ok : bool) then free ;; mret (0, mem)
      else
        tell (Control (m_ullStreamID t) (m_usInnerMsgType r) d) ;;
        mret (m_unSize r + m_unDataOffset r, mem).

Definition check_service : RM unit :=
  r ← fields;
  t ← self;
  if negb (m_bServiceType r) && negb (m_ullStreamID t =? 0) then
    ret ← getPlayType;
    if decide (ret = RET_OK) then set_fields (with_service true) else mret tt
  else mret tt.

Definition handleRecvedData (mem : list Z) (unDataSize : Z) : RM (Z * list Z) :=
  '(nRet, mem) ← parseDataInfo mem unDataSize;
  match nRet with
  | PARSE_RET_FAIL => mret (-1, mem)
  | PARSE_RET_DATA_LACK => mret (0, mem)
  | _ =>
    check_service ;;
    r ← fields;
    if m_usInnerMsgType r =? INNER_MSG_RTP then handleMediaData mem else handleControlMessage mem
  end.
End Connect.

(** ** Lemmas: interleaved packets *)

(** A packet of a channel, its bytes on the connection, and what a block for it
    holds: the packet without its padding, nothing when it is too long. *)
Definition frame_bytes (f : Z * list Z) : list Z :=
  [RTP_INTERLEAVE_FLAG; f.1] ++ be16 (zlen f.2) ++ f.2.

Definition padded (d : list Z) : bool :=
  match d with b0 :: _ => (12 <=? zlen d) && (padding b0 =? 1) | [] => false end.
Definition stripped (d : list Z) : list Z := if padded d then unpad d else d.
Definition tail_of (d : list Z) : Z := if padded d then default 0 (rd d (zlen d - 1)) else 0.

Lemma zlen_stripped d : zlen (stripped d) = zlen d.
Proof. unfold stripped. destruct (padded d); [apply zlen_unpad|done]. Qed.

Lemma parse_tail d : exists r p, ParsePacket (Some d) CRtpPacket_new = Some (r, p) /\
  GetTailLen p = tail_of d /\ (12 <= zlen d -> m_pRtpData p = stripped d).
Proof.
  destruct (ParsePacket_spec d CRtpPacket_new) as (r & p & E & _).
  exists r, p. split; [done|]. revert E. unfold ParsePacket, RTP_FIXED_HEADER_SIZE.
  destruct (Z.ltb_spec (zlen d) 12) as [Hl|Hl].
  { intros [= <- <-]. split; [|lia]. unfold tail_of, padded. destruct d; [done|].
    rewrite (proj2 (Z.leb_gt _ _)) by lia. done. }
  destruct d as [|b0 d']; [rewrite zlen_nil in Hl; lia|]. set (d := b0 :: d') in *.
  destruct (parse_padding_spec d CRtpPacket_new b0 eq_refl) as (t & -> & Ht).
  cbn -[parse_extension CheckVersion]. set (p1 := with_tail_len _ _).
  assert (GetTailLen p1 = tail_of d /\ m_pRtpData p1 = stripped d) as [E1 E2].
  { unfold p1, tail_of, stripped, padded, d. rewrite (proj2 (Z.leb_le _ _)) by exact Hl. cbn -[zlen rd].
    fold d. destruct (padding b0 =? 1); [|done]. by rewrite Ht. }
  rewrite <-E1, <-E2. clearbody p1.
  intros (b1 & _ & Hp)%bind_Some. case_match; [by simplify_eq|].
  apply bind_Some in Hp as (r1 & _ & Hp). case_decide; [by simplify_eq|].
  unfold parse_extension in Hp. apply bind_Some in Hp as (b2 & _ & Hp).
  case_match; [by simplify_eq|]. case_match; [by simplify_eq|].
  apply bind_Some in Hp as (l & _ & Hp). case_match; by simplify_eq.
Qed.

Lemma zlen_frame f : zlen (frame_bytes f) = 4 + zlen f.2.
Proof. unfold frame_bytes. rewrite !zlen_app, zlen_be16. change (zlen [_; _]) with 2. lia. Qed.

Section Interleaved.
Context {W : Type} `{!RtpTcpEnv W}.
Implicit Types (s : CTcpConnect * (RtpTcp * W)).

(** Nothing outside refuses a block. *)
Definition always_accepts : Prop :=
  (forall w, (media_block w).1 = true) /\ (forall id d w, (addData id d w).1 = true) /\
  (forall id t d w, (enqueueInnerMessage id t d w).1 = true).

(** A packet with padding must not be refused: the padding bit is cleared the
    first time it is seen. *)
Definition frame_ok (f : Z * list Z) : Prop :=
  zlen f.2 < 2 ^ 16 /\ bytes_ok f.2 /\ (always_accepts \/ padded f.2 = false).

(** What a block holds. *)
Definition media_data (d : list Z) : list Z :=
  let n := u32 (zlen d - tail_of d) in
  if block_bytes - STREAM_TRANSMIT_HEAD <? n then [] else take (Z.to_nat n) (stripped d).

(** What is handed on for a frame: a packet of a media channel to the exchange,
    any other one that fits a block to the task. *)
Definition frame_out (id video audio : Z) (f : Z * list Z) : list rt_event :=
  if (video =? f.1) || (audio =? f.1) then [Media id (media_data f.2)]
  else if block_bytes - STREAM_INNER_HEAD <? zlen f.2 then [] else [Control id INNER_MSG_RTCP f.2].

Context (id video audio : Z).

Definition link (s : CTcpConnect * (RtpTcp * W)) : Prop :=
  m_ullStreamID s.1 = id /\ m_cVideoInterleaveNum s.1 = video /\ m_cAudioInterleaveNum s.1 = audio.

Lemma wp_fields (P : RtpTcp -> CTcpConnect * (RtpTcp * W) -> list rt_event -> Prop) s :
  P s.2.1 s [] -> wp fields P s.
Proof. done. Qed.
Lemma wp_set_fields f (P : unit -> CTcpConnect * (RtpTcp * W) -> list rt_event -> Prop) s :
  P tt (s.1, (f s.2.1, s.2.2)) [] -> wp (set_fields f) P s.
Proof. done. Qed.
Lemma wp_env {A} (f : W -> A * W) (P : A -> CTcpConnect * (RtpTcp * W) -> list rt_event -> Prop) s :
  P (f s.2.2).1 (s.1, (s.2.1, (f s.2.2).2)) [] -> wp (env f) P s.
Proof. done. Qed.

Ltac go :=
  repeat first
    [ lazymatch goal with
      | |- wp self _ _ => apply wp_self
      | |- wp fields _ _ => apply wp_fields
      | |- wp (set_fields _) _ _ => apply wp_set_fields
      | |- wp (env _) _ _ => apply wp_env
      | |- wp free _ _ => apply wp_env
      end; cbv beta; cbn [app fst snd]
    | wp_step; cbn [fst snd] ].

Lemma frame_rd f rest :
  rd (frame_bytes f ++ rest) 0 = Some RTP_INTERLEAVE_FLAG /\ rd (frame_bytes f ++ rest) 1 = Some f.1 /\
  rd (frame_bytes f ++ rest) 2 = Some (byte_n 1 (zlen f.2)) /\
  rd (frame_bytes f ++ rest) 3 = Some (byte_n 0 (zlen f.2)).
Proof. done. Qed.

Lemma ntohs_len n : fits 16 n -> ntohs (le16 (byte_n 1 n) (byte_n 0 n)) = n.
Proof.
  intros H. rewrite be16_byte_n. pose proof (ntohs_ntohs n) as E. unfold u16 in E.
  rewrite (wrap_small 16 (ntohs n)), (wrap_small 16 n) in E; [exact E|exact H|].
  unfold ntohs. pose proof (byte_n_byte 0 n). pose proof (byte_n_byte 1 n). unfold fits, le16 in *. lia.
Qed.

(** The second part of the payload is in the memory behind the header. *)
Lemma parse_at_frame f rest : zlen f.2 < 2 ^ 16 ->
  exists p, parse_at 4 (zlen f.2) (frame_bytes f ++ rest) =
      Some (p, [RTP_INTERLEAVE_FLAG; f.1] ++ be16 (zlen f.2) ++ stripped f.2 ++ rest) /\
    GetTailLen p = tail_of f.2.
Proof.
  intros Hl. destruct f as [ch d]. cbn [fst snd] in *. unfold parse_at, frame_bytes. cbn [fst snd].
  set (h := [RTP_INTERLEAVE_FLAG; ch] ++ be16 (zlen d)).
  assert (([RTP_INTERLEAVE_FLAG; ch] ++ be16 (zlen d) ++ d) ++ rest = h ++ d ++ rest) as ->
    by (unfold h; by rewrite <-!app_assoc).
  assert (zlen h = 4) as Hh by (unfold h; rewrite zlen_app, zlen_be16; done).
  rewrite sub_mid by done. cbn [mbind option_bind].
  destruct (parse_tail d) as (r & p & -> & Et & Ed). cbn [mbind option_bind].
  exists p. split; [|exact Et]. unfold RTP_FIXED_HEADER_SIZE. destruct (Z.ltb_spec (zlen d) 12) as [Hs|Hs].
  - cbn [mbind option_bind]. unfold stripped, padded. destruct d; [done|].
    rewrite (proj2 (Z.leb_gt _ _)) by lia. cbn [andb]. unfold h. by rewrite <-!app_assoc.
  - rewrite Ed by lia. rewrite (memcpy_mid h d rest 4 (stripped d)).
    + cbn [mbind option_bind]. unfold h. by rewrite <-!app_assoc.
    + done.
    + pose proof (zlen_stripped d) as Ez. unfold zlen in Ez. lia.
Qed.

(** The size of a block is that of the pool. *)
Hypothesis Hblock : block_bytes < 2 ^ 31.

Lemma tail_of_byte d : bytes_ok d -> 0 <= tail_of d < 256.
Proof.
  intros Hd. unfold tail_of. destruct (padded d); [|lia].
  destruct (rd d (zlen d - 1)) as [b|] eqn:E; [|cbn; lia]. exact (rd_byte _ _ _ Hd E).
Qed.

Lemma copy_media d rest : zlen d < 2 ^ 16 -> bytes_ok d ->
  copy_in (block_bytes - STREAM_TRANSMIT_HEAD) (u32 (zlen d - tail_of d)) (stripped d ++ rest) =
    Some (media_data d).
Proof.
  intros Hl Hd. unfold copy_in, media_data, STREAM_TRANSMIT_HEAD. pose proof (tail_of_byte d Hd) as Ht.
  pose proof (zlen_nonneg d). destruct (Z.ltb_spec (block_bytes - 16) (u32 (zlen d - tail_of d))) as [|Hr]; [done|].
  assert (tail_of d <= zlen d) as Hle.
  { destruct (Z.leb_spec (tail_of d) (zlen d)) as [|Hlt]; [done|].
    assert (u32 (zlen d - tail_of d) = 2 ^ 32 + (zlen d - tail_of d)) as E; [|lia].
    unfold u32, wrap. symmetry. apply Z.mod_unique with (-1); lia. }
  assert (u32 (zlen d - tail_of d) = zlen d - tail_of d) as -> by (apply wrap_small; unfold fits; lia).
  set (n := zlen d - tail_of d). pose proof (zlen_stripped d) as Ez.
  rewrite <-(take_drop (Z.to_nat n) (stripped d)) at 1. rewrite <-app_assoc.
  apply sub_prefix. rewrite zlen_take. lia.
Qed.

Lemma not_always {P : Prop} : (always_accepts -> false = true) -> ~ always_accepts.
Proof. intros H Ha. by specialize (H Ha). Qed.

Definition frame_post (f : Z * list Z) rest s (r : Z * list Z) s' o : Prop :=
  link s' /\ s'.1 = s.1 /\
  ((exists b, r = (zlen (frame_bytes f), b ++ rest) /\ zlen b = zlen (frame_bytes f) /\
              o = frame_out id video audio f) \/
   (r = (0, frame_bytes f ++ rest) /\ o = [] /\ ~ always_accepts)).

Lemma handleMediaData_frame f rest s : link s -> frame_ok f -> m_unSize s.2.1 = zlen f.2 ->
  m_unDataOffset s.2.1 = 4 -> (video =? f.1) || (audio =? f.1) = true ->
  wp (handleMediaData (frame_bytes f ++ rest)) (frame_post f rest s) s.
Proof.
  intros Hi (Hl & Hb & Hp) Hs Ho Hch. unfold handleMediaData, DEFAULT_BUFFER_SIZE in *. go.
  assert (zlen f.2 < 2 ^ 16) as Hl16 by lia.
  destruct (media_block s.2.2) as [ok w1] eqn:Ea. cbn [fst snd].
  destruct ok; cbn [negb].
  2: { go. split; [done|]. split; [done|]. right. split; [done|]. split; [done|].
       intros (H & _). specialize (H s.2.2). by rewrite Ea in H. }
  go. rewrite Hs, Ho. destruct (parse_at_frame f rest Hl16) as (p & E & Et).
  eapply wp_lift; [exact E|]. cbv iota beta. go. rewrite Et.
  set (h := [RTP_INTERLEAVE_FLAG; f.1] ++ be16 (zlen f.2)).
  assert (RTP_INTERLEAVE_FLAG :: f.1 :: be16 (zlen f.2) ++ stripped f.2 ++ rest = h ++ stripped f.2 ++ rest) as ->
    by (unfold h; by rewrite <-!app_assoc).
  assert (drop (Z.to_nat 4) (h ++ stripped f.2 ++ rest) = stripped f.2 ++ rest) as -> by done.
  eapply wp_lift; [by apply copy_media|]. go. destruct Hi as (Hid & Hv & Hau). rewrite Hid.
  destruct (addData id (media_data f.2) w1) as [ok w2] eqn:Ed. cbn [fst snd]. destruct ok; cbn [negb].
  - go. split; [done|]. split; [done|]. left. exists (h ++ stripped f.2).
    rewrite zlen_frame. split; [f_equal; lia|].
    split; [unfold h; rewrite !zlen_app, zlen_be16, zlen_stripped; change (zlen [_; _]) with 2; lia|].
    unfold frame_out. by rewrite Hch.
  - assert (~ always_accepts) as Hn.
    { intros (_ & H & _). specialize (H id (media_data f.2) w1). by rewrite Ed in H. }
    go. split; [done|]. split; [done|]. right. split; [|done]. f_equal.
    destruct Hp as [?|Hp]; [done|]. unfold stripped. rewrite Hp. unfold frame_bytes, h. by rewrite <-!app_assoc.
Qed.

Lemma handleControl_frame f rest s : link s -> frame_ok f -> m_unSize s.2.1 = zlen f.2 ->
  m_unDataOffset s.2.1 = 4 -> m_usInnerMsgType s.2.1 = INNER_MSG_RTCP ->
  (video =? f.1) || (audio =? f.1) = false ->
  wp (handleControlMessage (frame_bytes f ++ rest)) (frame_post f rest s) s.
Proof.
  intros Hi (Hl & Hb & Hp) Hs Ho Ht Hch. unfold handleControlMessage. go.
  destruct (media_block s.2.2) as [ok w1] eqn:Ea. cbn [fst snd]. destruct ok; cbn [negb].
  2: { go. split; [done|]. split; [done|]. right. split; [done|]. split; [done|].
       intros (H & _). specialize (H s.2.2). by rewrite Ea in H. }
  go. rewrite Hs, Ho. pose proof Hi as (Hid & _ & _).
  assert (forall s' o, s'.1 = s.1 -> o = frame_out id video audio f ->
    frame_post f rest s (zlen f.2 + 4, frame_bytes f ++ rest) s' o) as Hdone.
  { intros s' o Es ->. split; [unfold link; by rewrite Es|]. split; [done|]. left. exists (frame_bytes f).
    rewrite zlen_frame. split; [f_equal; lia|]. split; [lia|done]. }
  unfold frame_out in Hdone. rewrite Hch in Hdone.
  destruct (block_bytes - STREAM_INNER_HEAD <? zlen f.2) eqn:Hroom.
  - go. by apply Hdone.
  - go. eapply wp_lift.
    { unfold frame_bytes. rewrite app_assoc, <-app_assoc. apply sub_mid; [|done]. by rewrite zlen_app, zlen_be16. }
    go. rewrite Hid, Ht.
    destruct (enqueueInnerMessage id INNER_MSG_RTCP f.2 w1) as [ok w2] eqn:Ed. cbn [fst snd].
    destruct ok; cbn [negb]; go.
    + by apply Hdone.
    + split; [done|]. split; [done|]. right. split; [done|]. split; [done|].
      intros (_ & _ & H). specialize (H id INNER_MSG_RTCP f.2 w1). by rewrite Ed in H.
Qed.

Lemma wp_service s P : (forall b w, P tt (s.1, (with_service b s.2.1, w)) []) -> wp check_service P s.
Proof.
  intros HP. unfold check_service.
  assert (P tt s []) as H0.
  { specialize (HP (m_bServiceType s.2.1) s.2.2). by destruct s as [c [[] w]]. }
  go. destruct (negb (m_bServiceType s.2.1) && _) eqn:E; [|go; by destruct s as [c [r w]]].
  apply andb_true_iff in E as [_ E]. unfold getPlayType. go.
  destruct (m_ullStreamID s.1 =? 0); [done|]. go. case_match; go; [apply HP|].
  specialize (HP (m_bServiceType s.2.1) (play_type (m_ullStreamID s.1) s.2.2).2). by destruct s as [c [[] w]].
Qed.

Lemma parse_frame f rest size s (P : parse_ret * list Z -> CTcpConnect * (RtpTcp * W) -> list rt_event -> Prop) :
  link s -> frame_ok f -> zlen (frame_bytes f) <= size <= DEFAULT_BUFFER_SIZE ->
  (forall r, m_unSize r = zlen f.2 -> m_unDataOffset r = 4 ->
     m_usInnerMsgType r = (if (video =? f.1) || (audio =? f.1) then INNER_MSG_RTP else INNER_MSG_RTCP) ->
     P (PARSE_RET_OK, frame_bytes f ++ rest) (s.1, (r, s.2.2)) []) ->
  wp (parseDataInfo (frame_bytes f ++ rest) size) P s.
Proof.
  intros (_ & Hv & Hau) (Hl & _) Hsz HP. unfold parseDataInfo, DEFAULT_BUFFER_SIZE in *.
  destruct (frame_rd f rest) as (R0 & R1 & R2 & R3). pose proof (zlen_nonneg f.2). rewrite zlen_frame in Hsz.
  go. eapply wp_lift; [exact R0|]. rewrite Z.eqb_refl. cbn [negb]. unfold parseRtpRtcpPacket, RTP_INTERLEAVE_LENGTH.
  rewrite (proj2 (Z.ltb_ge _ 4)) by lia. go. eapply wp_lift; [exact R2|]. go. eapply wp_lift; [exact R3|]. go.
  rewrite ntohs_len by (unfold fits; lia).
  assert (u32 (size - 4) = size - 4) as -> by (apply wrap_small; unfold fits; lia).
  rewrite (proj2 (Z.ltb_ge _ _)) by lia. go. eapply wp_lift; [exact R1|]. go.
  rewrite Hv, Hau. by apply HP.
Qed.

Lemma parse_partial p junk s (P : parse_ret * list Z -> CTcpConnect * (RtpTcp * W) -> list rt_event -> Prop) :
  partial frame_bytes frame_ok p -> p <> [] ->
  (forall r, P (PARSE_RET_DATA_LACK, p ++ junk) (s.1, (r, s.2.2)) []) ->
  wp (parseDataInfo (p ++ junk) (zlen p)) P s.
Proof.
  intros [->|(f & q & (Hl & _) & E & Hq)] Hp HP; [done|]. unfold parseDataInfo, DEFAULT_BUFFER_SIZE in *.
  pose proof (f_equal zlen E) as Ez. rewrite zlen_frame, zlen_app in Ez.
  assert (0 < zlen q) by (destruct q; [done|rewrite zlen_cons; pose proof (zlen_nonneg q); lia]).
  assert (forall i x, rd (frame_bytes f) i = Some x -> i < zlen p -> rd (p ++ junk) i = Some x) as Hrd.
  { intros i x Hx Hi. rewrite rd_app_l by done. rewrite E, rd_app_l in Hx by done. exact Hx. }
  destruct (frame_rd f []) as (R0 & R1 & R2 & R3). rewrite app_nil_r in *.
  assert (0 < zlen p) by (destruct p; [done|rewrite zlen_cons; pose proof (zlen_nonneg p); lia]).
  go. eapply wp_lift; [by apply (Hrd 0)|]. rewrite Z.eqb_refl. cbn [negb].
  unfold parseRtpRtcpPacket, RTP_INTERLEAVE_LENGTH. destruct (Z.ltb_spec (zlen p) 4) as [H4|H4].
  { go. apply HP. }
  go. eapply wp_lift; [apply (Hrd 2); [exact R2|lia]|]. go. eapply wp_lift; [apply (Hrd 3); [exact R3|lia]|]. go.
  pose proof (zlen_nonneg f.2). rewrite ntohs_len by (unfold fits; lia).
  assert (u32 (zlen p - 4) = zlen p - 4) as -> by (apply wrap_small; unfold fits; lia).
  rewrite (proj2 (Z.ltb_lt _ _)) by lia. go. apply HP.
Qed.

(** What the base class needs of this one. *)
Lemma interleaved_frames :
  takes_frames handleRecvedData frame_bytes frame_ok (frame_out id video audio) link always_accepts.
Proof.
  split; [|split].
  - intros f rest size s Hi Hf Hsz Hmem. unfold handleRecvedData. go.
    apply parse_frame; [done|done|lia|]. intros r Hs Ho Ht. go.
    apply wp_service. intros b w. go.
    change (m_usInnerMsgType (with_service b r)) with (m_usInnerMsgType r). rewrite Ht.
    destruct ((video =? f.1) || (audio =? f.1)) eqn:Hch; cbn [Z.eqb].
    + eapply wp_mono; [apply (handleMediaData_frame f rest _)|]; try done.
    + eapply wp_mono; [apply (handleControl_frame f rest _)|]; try done.
  - intros p junk s Hi Hp Hne. unfold handleRecvedData. go. apply parse_partial; [done|done|].
    intros r. go. done.
  - intros f Hf. done.
Qed.

Lemma link_same c c' x : same_link c c' -> link (c, x) -> link (c', x).
Proof. unfold same_link, link. cbn. intros (_ & _ & -> & -> & ->). done. Qed.
End Interleaved.

(** A full buffer with the beginning of one frame. *)
Lemma full_buffer {W : Type} `{!RtpTcpEnv W} id video audio d sched sock : block_bytes < 2 ^ 31 ->
  zlen d = DEFAULT_BUFFER_SIZE -> partial frame_bytes frame_ok d ->
  forall s, receiving (link id video audio) s d ->
  wp (inputs handleRecvedData sched sock) (fun r s' o => r = Some sock /\ o = []) s.
Proof.
  intros Hblock Hfull Hp.
  induction sched as [|[[n now] now2] sched IH]; intros s Hrec; cbn [inputs]; [done|].
  destruct sock as [|z sock]; [by apply IH|]. wp_step. apply wp_self.
  pose proof Hrec as (_ & _ & _ & buf & Eb & (junk & _ & El & _) & Hsz). rewrite Eb.
  assert (Nat.min (S n) (Z.to_nat (buf_size buf - m_iLength buf)) = 0%nat) as -> by (rewrite El; lia).
  rewrite take_0, drop_0. wp_step. eapply wp_mono.
  { eapply (handle_input_spec _ _ _ _ _ _ (interleaved_frames id video audio Hblock) (link_same _ _ _) s d [] [] d);
      try done; [rewrite zlen_nil; lia|by rewrite app_nil_r]. }
  intros r s1 o1 (-> & dn & rs & [E _] & -> & Hrec1).
  symmetry in E. apply app_eq_nil in E as [-> ->]. by apply IH.
Qed.

Lemma fresh_store d : zlen d < DEFAULT_BUFFER_SIZE -> exists junk, buf_store d PreAssign_new =
  Some {| m_bufBlock := d ++ 0 :: junk; m_pHead := 0; m_pTail := 0; m_iLength := 0 |}.
Proof.
  intros Hl. unfold buf_store. cbn [m_bufBlock m_pTail PreAssign_new m_pHead m_iLength].
  pose proof buf_size_new as Hz. unfold buf_size in Hz. cbn [m_bufBlock PreAssign_new] in Hz.
  pose proof (memcpy_at [] _ 0 d eq_refl (Z.lt_le_incl _ _ (eq_ind_r (fun n => zlen d < n) Hl Hz))) as Ec.
  cbn [app] in Ec. rewrite Ec. cbn [mbind option_bind].
  rewrite drop_replicate. unfold zlen in *. rewrite length_replicate in Hz.
  destruct (Z.to_nat DEFAULT_BUFFER_SIZE - length d)%nat as [|m] eqn:E; [lia|].
  by exists (replicate m 0).
Qed.

Lemma fresh_size d junk : buf_store d PreAssign_new =
  Some {| m_bufBlock := d ++ 0 :: junk; m_pHead := 0; m_pTail := 0; m_iLength := 0 |} ->
  zlen (d ++ 0 :: junk) = DEFAULT_BUFFER_SIZE.
Proof.
  unfold buf_store. intros (blk & E & [= ->])%bind_Some. apply memcpy_length in E.
  rewrite <-buf_size_new. unfold buf_size, zlen in *. by rewrite E.
Qed.

(** A first segment that does not begin like a message. *)
Lemma first_rejected {W : Type} `{!RtpTcpEnv W} now now2 d b l (s : CTcpConnect * (RtpTcp * W)) :
  m_Status s.1 = NETWORK_HANDLE_STATUS_START -> m_sockFD s.1 = true -> m_pRecvBuffer s.1 = Some PreAssign_new ->
  d = b :: l -> b <> RTP_INTERLEAVE_FLAG ->
  (forall junk, find_method (d ++ 0 :: junk) m_strRtspMethods = Some false) -> zlen d < DEFAULT_BUFFER_SIZE ->
  wp (handle_input handleRecvedData now now2 (Received d)) (fun r s' o => r = Some (-1) /\ o = []) s.
Proof.
  intros Hst Hsk Hbuf Ed Hb Hm Hl. unfold handle_input. wp_step. apply wp_self.
  rewrite decide_False by (intros H; by apply H). rewrite Hbuf, Hsk. cbn [negb]. wp_step. apply wp_set_self.
  cbn [fst snd app]. rewrite buf_size_new. cbn [m_iLength PreAssign_new].
  rewrite (proj2 (Z.leb_gt _ 0)) by (unfold DEFAULT_BUFFER_SIZE; lia).
  destruct (fresh_store d Hl) as (junk & E2). unfold receive. do 2 wp_step.
  eapply wp_lift; [exact E2|]. wp_step. cbv iota. unfold take_messages.
  unfold set_wr_ptr, set_rd_ptr, buf_size. cbn [m_bufBlock m_iLength m_pHead m_pTail].
  pose proof (fresh_size d junk E2) as Hz. rewrite Z.add_0_l.
  rewrite (proj2 (Z.ltb_ge _ (zlen d))) by lia. cbn [m_bufBlock m_iLength].
  rewrite (proj2 (Z.ltb_ge _ 0)) by (unfold DEFAULT_BUFFER_SIZE in *; lia). cbn [m_bufBlock m_iLength m_pHead].
  wp_step. cbn [process]. change (Z.to_nat 0) with 0%nat. rewrite drop_0, take_0, Z.sub_0_r. wp_step.
  unfold handleRecvedData, parseDataInfo. do 2 wp_step. apply wp_set_fields. cbn [app fst snd].
  wp_step. eapply wp_lift; [rewrite Ed; reflexivity|].
  rewrite (proj2 (Z.eqb_neq _ _)) by (intros E; by apply Hb). cbn [negb]. unfold parseRtspPacket.
  wp_step. apply wp_fields. wp_step. eapply wp_lift.
  { unfold checkRtsp. by rewrite Hm. }
  cbv iota beta. wp_step. apply wp_set_fields. cbn [negb Z.eqb app]. repeat (wp_step; cbn [app]; cbv iota).
  cbn [Z.ltb Z.compare]. repeat wp_step. cbv iota beta. cbn [Z.ltb Z.compare]. wp_step. apply wp_set_self.
  wp_step. done.
Qed.

Lemma parse_at_0 d rest : exists p, parse_at 0 (zlen d) (d ++ rest) = Some (p, stripped d ++ rest) /\
  GetTailLen p = tail_of d.
Proof.
  unfold parse_at. rewrite (sub_prefix d rest) by done. cbn [mbind option_bind].
  destruct (parse_tail d) as (r & p & -> & Et & Ed). cbn [mbind option_bind]. exists p. split; [|exact Et].
  unfold RTP_FIXED_HEADER_SIZE. destruct (Z.ltb_spec (zlen d) 12).
  - cbn [mbind option_bind]. unfold stripped, padded. destruct d; [done|].
    by rewrite (proj2 (Z.leb_gt _ _)) by lia.
  - rewrite Ed by lia. pose proof (memcpy_mid [] d rest 0 (stripped d) eq_refl) as Ec. cbn [app] in Ec.
    rewrite Ec; [done|]. pose proof (zlen_stripped d) as Ez. unfold zlen in Ez. lia.
Qed.

Lemma wp_open_refused {W : Type} `{!RtpTcpEnv W} id msg (s : CTcpConnect * (RtpTcp * W)) P :
  parse_session msg = Some id -> m_pTcpHandle s.1 = false \/ (addTcpConnect s.2.2).1 = false ->
  (forall w, P PARSE_RET_MINUS_1 (setStreamID id s.1, (s.2.1, w)) []) -> wp (open_session msg) P s.
Proof.
  intros Hs Hr HP. unfold open_session. rewrite Hs. wp_step. apply wp_set_self. wp_step. apply wp_self.
  cbn [fst snd app m_pTcpHandle setStreamID]. destruct (m_pTcpHandle s.1) eqn:Eh; cbn [negb].
  - destruct Hr as [?|Hr]; [done|]. wp_step. apply wp_env. cbn [fst snd app].
    destruct (addTcpConnect s.2.2) as [ok w]. cbn [fst snd] in *. subst ok. cbn [negb]. wp_step. apply HP.
  - wp_step. destruct s as [c [r w]]. apply HP.
Qed.

Lemma handleMediaData_0 {W : Type} `{!RtpTcpEnv W} d rest (s : CTcpConnect * (RtpTcp * W)) P :
  block_bytes < 2 ^ 31 -> always_accepts -> bytes_ok d -> zlen d < 2 ^ 16 ->
  m_unSize s.2.1 = zlen d -> m_unDataOffset s.2.1 = 0 ->
  (forall w, P (zlen d, stripped d ++ rest) (s.1, (s.2.1, w)) [Media (m_ullStreamID s.1) (media_data d)]) ->
  wp (handleMediaData (d ++ rest)) P s.
Proof.
  intros Hblock (Ha1 & Ha2 & _) Hb Hl Hs Ho HP. unfold handleMediaData. wp_step. apply wp_env.
  rewrite Ha1. cbn [negb fst snd app]. wp_step. apply wp_fields. cbn [fst snd]. rewrite Hs, Ho.
  destruct (parse_at_0 d rest) as (p & E & Et). wp_step. eapply wp_lift; [exact E|]. cbv iota beta.
  rewrite Et. change (Z.to_nat 0) with 0%nat. rewrite drop_0. wp_step. eapply wp_lift; [by apply copy_media|].
  wp_step. apply wp_self. cbn [fst snd app]. wp_step. apply wp_env. rewrite Ha2. cbn [negb fst snd app].
  do 3 wp_step. rewrite Z.add_0_r. apply HP.
Qed.

(** The message of a session that cannot be opened. *)
Lemma refused_session {W : Type} `{!RtpTcpEnv W} id b l rest (s : CTcpConnect * (RtpTcp * W)) :
  let msg := b :: l in
  block_bytes < 2 ^ 31 -> always_accepts -> bytes_ok msg -> zlen msg < 2 ^ 16 -> b <> RTP_INTERLEAVE_FLAG ->
  checkRtsp (msg ++ rest) (zlen msg) 0 = Some (0, zlen msg, msg ++ rest) ->
  m_ullStreamID s.1 = 0 -> parse_session msg = Some id ->
  m_pTcpHandle s.1 = false \/ (addTcpConnect s.2.2).1 = false ->
  wp (handleRecvedData (msg ++ rest) (zlen msg))
    (fun r _ o => r = (zlen msg, stripped msg ++ rest) /\ o = [Media id (media_data msg)]) s.
Proof.
  intros msg Hblock Ha Hb Hl Hne Hc Hid Hs Hr. pose proof (zlen_nonneg l).
  assert (0 < zlen msg) by (unfold msg; rewrite zlen_cons; lia).
  unfold handleRecvedData, parseDataInfo. do 2 wp_step. apply wp_set_fields. cbn [app fst snd].
  wp_step. eapply wp_lift; [reflexivity|]. rewrite (proj2 (Z.eqb_neq _ _)) by (intros E; by apply Hne).
  cbn [negb]. unfold parseRtspPacket. wp_step. apply wp_fields. wp_step. cbn [fst snd m_unSize with_info].
  eapply wp_lift; [exact Hc|]. cbv iota beta. wp_step. apply wp_set_fields. cbn [negb Z.eqb app fst snd].
  rewrite (proj2 (Z.eqb_neq _ 0)), Z.ltb_irrefl by lia. cbn [orb]. wp_step. apply wp_self. cbn [app fst snd].
  rewrite Hid. cbn [Z.eqb]. do 2 wp_step. eapply wp_lift; [by apply sub_prefix|].
  apply (wp_open_refused id); [done|done|]. intros w. wp_step. cbv iota beta. wp_step. apply wp_service.
  intros sv w2. cbn [app fst snd]. wp_step. apply wp_fields. cbn [fst snd with_service with_info m_usInnerMsgType].
  rewrite Z.eqb_refl. by apply handleMediaData_0.
Qed.

(** ** Theorems *)

Lemma new_receiving {W : Type} `{!RtpTcpEnv W} (c : CTcpConnect) (x : RtpTcp * W) :
  m_Status c = NETWORK_HANDLE_STATUS_START -> m_sockFD c = true -> m_pRecvBuffer c = Some PreAssign_new ->
  receiving (link (m_ullStreamID c) (m_cVideoInterleaveNum c) (m_cAudioInterleaveNum c)) (c, x) [].
Proof.
  intros Hst Hsk Hb. split; [done|]. split; [done|]. split; [done|]. exists PreAssign_new.
  split; [done|]. split; [apply PreAssign_new_is|apply buf_size_new].
Qed.

(** C3: a started connection that receives interleaved packets, however the
    stream is cut into segments and whatever the pool and the queues answer,
    hands on the packets in order, each once, a packet of a media channel to the
    exchange and any other one to the task; what is not handed on yet is the
    buffer followed by the bytes of the socket. When nothing is refused and all
    bytes have arrived, all packets were handed on. *)
Theorem interleaved_reassembly {W : Type} `{!RtpTcpEnv W} frames tail sched (c : CTcpConnect) (x : RtpTcp * W)
    (Hblock : block_bytes < 2 ^ 31) (Hstart : m_Status c = NETWORK_HANDLE_STATUS_START)
    (Hsock : m_sockFD c = true) (Hbuf : m_pRecvBuffer c = Some PreAssign_new)
    (Hframes : Forall frame_ok frames) (Htail : partial frame_bytes frame_ok tail) :
  exists sock' s' o buf' d' done rest,
    inputs handleRecvedData sched (concat (frame_bytes <$> frames) ++ tail) (c, x) = Some (Some sock', s', o) /\
    frames = done ++ rest /\
    o = concat (frame_out (m_ullStreamID c) (m_cVideoInterleaveNum c) (m_cAudioInterleaveNum c) <$> done) /\
    m_pRecvBuffer s'.1 = Some buf' /\ buffer_is d' buf' /\
    d' ++ sock' = concat (frame_bytes <$> rest) ++ tail /\
    (always_accepts -> sock' = [] -> rest = []).
Proof.
  set (sock := _ ++ tail).
  destruct (wp_elim _ _ _ (inputs_spec _ _ _ _ _ _ (interleaved_frames _ _ _ Hblock) (link_same _ _ _) sched
    (c, x) [] frames tail sock (new_receiving c x Hstart Hsock Hbuf)
    ltac:(unfold DEFAULT_BUFFER_SIZE; rewrite zlen_nil; lia) eq_refl Hframes Htail
    ltac:(intros _ E; unfold sock in E; destruct frames; [done|discriminate E])))
    as (r & s' & o & E & sock' & d' & dn & rest & -> & (_ & _ & _ & buf' & Eb & Hb & _) & H1 & H2 & H3 & H4).
  exists sock', s', o, buf', d', dn, rest. done.
Qed.

(** A packet of more than 65532 bytes does not fit the receive buffer with
    its header: once the buffer is full the connection reads nothing more from
    its socket and hands nothing on, without an error. *)
Theorem oversized_frame_stalls {W : Type} `{!RtpTcpEnv W} f d buf sched sock (c : CTcpConnect) (x : RtpTcp * W)
    (Hblock : block_bytes < 2 ^ 31) (Hstart : m_Status c = NETWORK_HANDLE_STATUS_START)
    (Hsock : m_sockFD c = true) (Hbuf : m_pRecvBuffer c = Some buf) (Hd : buffer_is d buf)
    (Hsize : buf_size buf = DEFAULT_BUFFER_SIZE) (Hfull : zlen d = DEFAULT_BUFFER_SIZE)
    (Hf : frame_ok f) (Hover : DEFAULT_BUFFER_SIZE - 4 < zlen f.2) (Hpre : d `prefix_of` frame_bytes f) :
  exists s', inputs handleRecvedData sched sock (c, x) = Some (Some sock, s', []).
Proof.
  assert (partial frame_bytes frame_ok d) as Hp.
  { destruct Hpre as [q Eq]. right. exists f, q. split; [done|]. split; [done|]. intros ->.
    apply (f_equal zlen) in Eq. rewrite app_nil_r, zlen_frame in Eq. lia. }
  destruct (wp_elim _ _ _ (full_buffer _ _ _ d sched sock Hblock Hfull Hp (c, x)
    (conj (conj eq_refl (conj eq_refl eq_refl)) (conj Hstart (conj Hsock
      (ex_intro _ buf (conj Hbuf (conj Hd Hsize)))))))) as (r & s' & o & E & -> & ->).
  by exists s'.
Qed.

(** A new connection whose first segment ends inside the name of the method
    of an RTSP message is closed: what is compared with the names is memory
    behind the segment. *)
Theorem rtsp_cut_closes {W : Type} `{!RtpTcpEnv W} n now now2 (c : CTcpConnect) (x : RtpTcp * W)
    (Hstart : m_Status c = NETWORK_HANDLE_STATUS_START) (Hsock : m_sockFD c = true)
    (Hbuf : m_pRecvBuffer c = Some PreAssign_new) (Hn : (0 < n < 7)%nat) :
  exists s', handle_input handleRecvedData now now2 (Received (take n (chars "OPTIONS"))) (c, x) =
    Some (Some (-1), s', []).
Proof.
  set (d := take n (chars "OPTIONS")).
  assert (exists b l, d = b :: l /\ b <> RTP_INTERLEAVE_FLAG /\
    forall junk, find_method (d ++ 0 :: junk) m_strRtspMethods = Some false) as (b & l & Ed & Hb & Hm).
  { unfold d. clear -Hn. do 7 (destruct n as [|n]; [try lia; eexists _, _; by repeat split|]). lia. }
  destruct (wp_elim _ _ _ (first_rejected now now2 d b l (c, x) Hstart Hsock Hbuf Ed Hb Hm
    ltac:(unfold d; rewrite zlen_take; unfold DEFAULT_BUFFER_SIZE; change (zlen (chars "OPTIONS")) with 7; lia)))
    as (r & s' & o & E & -> & ->).
  by exists s'.
Qed.

(** When the session of the first message of a connection cannot be opened,
    the text of the message is handed to the exchange as a media packet of that
    session: the error -1 of [parseRtspPacket] is none of those
    [handleRecvedData] looks at. *)
Theorem refused_rtsp_becomes_media {W : Type} `{!RtpTcpEnv W} id b l rest (c : CTcpConnect) (r : RtpTcp) (w : W)
    (msg := b :: l) (Hblock : block_bytes < 2 ^ 31) (Haccept : always_accepts) (Hbytes : bytes_ok msg)
    (Hlen : zlen msg < 2 ^ 16) (Hflag : b <> RTP_INTERLEAVE_FLAG)
    (Hcheck : checkRtsp (msg ++ rest) (zlen msg) 0 = Some (0, zlen msg, msg ++ rest))
    (Hid : m_ullStreamID c = 0) (Hsession : parse_session msg = Some id)
    (Hrefused : m_pTcpHandle c = false \/ (addTcpConnect w).1 = false) :
  exists mem s', handleRecvedData (msg ++ rest) (zlen msg) (c, (r, w)) =
    Some ((zlen msg, mem), s', [Media id (media_data msg)]).
Proof.
  destruct (wp_elim _ _ _ (refused_session id b l rest (c, (r, w)) Hblock Haccept Hbytes Hlen Hflag Hcheck
    Hid Hsession Hrefused)) as (x & s' & o & E & -> & ->).
  eexists _, s'. exact E.
Qed.

(** ** Witnesses *)

(** A pool with so many blocks. *)
#[local] Instance demo_rt_env : RtpTcpEnv nat := {|
  block_bytes := 2048;
  media_block w := match w with O => (false, O) | S n => (true, n) end;
  free_block w := S w;
  addData _ _ w := (true, w);
  enqueueInnerMessage _ _ _ w := (true, w);
  play_type _ w := (true, w);
  addTcpConnect w := (false, w);
  parse_session _ := Some 77 |}.

Definition demo_conn : CTcpConnect :=
  with_buffer (Some PreAssign_new) (with_sock true (setStatus NETWORK_HANDLE_STATUS_START CTcpConnect_new)).

Definition demo_frames : list (Z * list Z) := [(0, [128; 96; 0; 1]); (1, [9; 9]); (2, [])].

Lemma demo_frames_ok : Forall frame_ok demo_frames.
Proof.
  repeat constructor; cbn; try (by unfold fits; lia); by right.
Qed.

Lemma interleaved_reassembly_witness : exists sock' s' o,
  inputs handleRecvedData [(4%nat, 1, 1); (7%nat, 2, 2); (9%nat, 3, 3)]
    (concat (frame_bytes <$> demo_frames) ++ [36; 0]) (demo_conn, (RtpTcp_new, 2%nat)) = Some (Some sock', s', o) /\
  exists done rest, demo_frames = done ++ rest /\ o = concat (frame_out 0 0 2 <$> done).
Proof.
  destruct (interleaved_reassembly demo_frames [36; 0] [(4%nat, 1, 1); (7%nat, 2, 2); (9%nat, 3, 3)]
    demo_conn (RtpTcp_new, 2%nat)) as (sock' & s' & o & buf' & d' & dn & rest & E & H1 & H2 & _).
  - done.
  - done.
  - done.
  - done.
  - exact demo_frames_ok.
  - right. exists (0, []), [0; 0]. split; [|done]. split; [done|]. split; [constructor|by right].
  - exists sock', s', o. split; [exact E|]. exists dn, rest. split; [exact H1|exact H2].
Defined.

Definition demo_big : Z * list Z := (0, replicate (Z.to_nat 65533) 0).
Definition demo_full : Static_PreAssign_Buffer :=
  {| m_bufBlock := take (Z.to_nat 65536) (frame_bytes demo_big); m_pHead := 0; m_pTail := 65536; m_iLength := 65536 |}.

Lemma oversized_frame_stalls_witness : exists s',
  inputs handleRecvedData [(4%nat, 1, 1); (7%nat, 2, 2)] [0; 36; 0; 0; 0]
    (with_buffer (Some demo_full) demo_conn, (RtpTcp_new, 2%nat)) = Some (Some [0; 36; 0; 0; 0], s', []).
Proof.
  apply (oversized_frame_stalls demo_big (take (Z.to_nat 65536) (frame_bytes demo_big)) demo_full).
  - done.
  - done.
  - done.
  - done.
  - exists []. split; [by rewrite app_nil_r|]. by vm_compute.
  - by vm_compute.
  - by vm_compute.
  - split; [by vm_compute|]. split; [|by right]. unfold demo_big. cbn [snd]. apply Forall_replicate. unfold fits. lia.
  - by vm_compute.
  - apply prefix_take.
Defined.

Lemma rtsp_cut_closes_witness : exists s',
  handle_input handleRecvedData 1 1 (Received (take 3 (chars "OPTIONS"))) (demo_conn, (RtpTcp_new, 2%nat)) =
    Some (Some (-1), s', []).
Proof. apply (rtsp_cut_closes 3); [done|done|done|lia]. Defined.

Definition demo_options : list Z :=
  chars "OPTIONS * RTSP/1.0" ++ [13; 10] ++ chars "CSeq: 1" ++ [13; 10; 13; 10].

(** The interface of the example accepts every block. *)
#[local] Instance open_rt_env : RtpTcpEnv unit := {|
  block_bytes := 2048;
  media_block w := (true, w);
  free_block w := w;
  addData _ _ w := (true, w);
  enqueueInnerMessage _ _ _ w := (true, w);
  play_type _ w := (true, w);
  addTcpConnect w := (false, w);
  parse_session _ := Some 77 |}.

Lemma refused_rtsp_becomes_media_witness : exists mem s',
  handleRecvedData (demo_options ++ [0]) (zlen demo_options) (demo_conn, (RtpTcp_new, tt)) =
    Some ((zlen demo_options, mem), s', [Media 77 (media_data demo_options)]).
Proof.
  apply (refused_rtsp_becomes_media 77 79 (tail demo_options) [0] demo_conn RtpTcp_new tt).
  - done.
  - by split.
  - repeat (constructor; [by vm_compute|]). constructor.
  - by vm_compute.
  - done.
  - by vm_compute.
  - done.
  - done.
  - by left.
Defined.
