(* ===== verification/Amf.v ===== *)
(** * AMF values: [rtmpserver/svs_rtmp_amf.cpp], [svs_rtmp_utils.cpp]

    The values of the messages of the RTMP server. An [AMFValue] is the tagged
    union of the source; a [std::string] is the list of its bytes, a [double] its
    64 bits, an [amf_object_t] (a [std::map]) the list of its pairs in the order of
    the keys. [Encoder] and [Decoder] are explicit states under exceptions:
    [Runtime] is [std::runtime_error], [Assert] a failed [assert]. What was
    written, or read, before an exception stays. *)

From S2P Require Import Prelude Text.
Open Scope Z_scope.

(** ** State and exceptions *)

Inductive exn : Set := Runtime | Assert | OutOfFuel.

Definition X (S A : Type) : Type := S -> (exn + A) * S.

#[export] Instance X_ret S : MRet (X S) := fun A a s => (inr a, s).
#[export] Instance X_bind S : MBind (X S) := fun A B k m s =>
  let '(r, s) := m s in match r with inl e => (inl e, s) | inr a => k a s end.

#[export] Instance X_fmap S : FMap (X S) := fun A B f m => m ≫= fun a => mret (f a).

Definition throw {S A} (e : exn) : X S A := fun s => (inl e, s).
Definition state {S} : X S S := fun s => (inr s, s).
Definition put_state {S} (s : S) : X S unit := fun _ => (inr tt, s).

(** ** Values *)

Inductive AMFType : Set :=
| AMF_NUMBER | AMF_INTEGER | AMF_BOOLEAN | AMF_STRING | AMF_OBJECT | AMF_NULL | AMF_UNDEFINED
| AMF_ECMA_ARRAY.

Inductive AMFValue : Type :=
| VNumber (n : Z)
| VInteger (i : Z)
| VBoolean (b : bool)
| VString (s : list Z)
| VObject (o : list (list Z * AMFValue))
| VNull
| VUndefined
| VEcma (o : list (list Z * AMFValue)).

Abbreviation amf_object_t := (list (list Z * AMFValue)).

Definition type (v : AMFValue) : AMFType :=
  match v with
  | VNumber _ => AMF_NUMBER | VInteger _ => AMF_INTEGER | VBoolean _ => AMF_BOOLEAN
  | VString _ => AMF_STRING | VObject _ => AMF_OBJECT | VNull => AMF_NULL
  | VUndefined => AMF_UNDEFINED | VEcma _ => AMF_ECMA_ARRAY
  end.

(** [insert]: nothing when the key is there. *)
Fixpoint obj_insert (k : list Z) (v : AMFValue) (o : amf_object_t) : amf_object_t :=
  match o with
  | [] => [(k, v)]
  | (k', v') :: o' =>
    match str_cmp k k' with
    | Lt => (k, v) :: o
    | Eq => o
    | Gt => (k', v') :: obj_insert k v o'
    end
  end.

Fixpoint obj_find (k : list Z) (o : amf_object_t) : option AMFValue :=
  match o with
  | [] => None
  | (k', v) :: o => match str_cmp k k' with Eq => Some v | _ => obj_find k o end
  end.

(** [get] of an object without the key is [AMFValue ()]. *)
Definition obj_get (k : list Z) (o : amf_object_t) : AMFValue := default VNull (obj_find k o).

(** ** Encoding *)

Definition AMF0_NUMBER := 0.
Definition AMF0_BOOLEAN := 1.
Definition AMF0_STRING := 2.
Definition AMF0_OBJECT := 3.
Definition AMF0_NULL := 5.
Definition AMF0_UNDEFINED := 6.
Definition AMF0_ECMA_ARRAY := 8.
Definition AMF0_OBJECT_END := 9.
Definition AMF0_SWITCH_AMF3 := 17.

Definition AMF3_UNDEFINED := 0.
Definition AMF3_NULL := 1.
Definition AMF3_FALSE := 2.
Definition AMF3_TRUE := 3.
Definition AMF3_INTEGER := 4.
Definition AMF3_NUMBER := 5.
Definition AMF3_STRING := 6.
Definition AMF3_ARRAY := 9.
Definition AMF3_OBJECT := 10.

(** [Encoder]: the bytes written so far. *)
Abbreviation Enc := (X (list Z)).

Definition append (d : list Z) : Enc unit := fun buf => (inr tt, buf ++ d).

(** An [int] as a [double]. *)
Definition double_of_int (i : Z) : Z :=
  if i =? 0 then 0
  else
    let e := Z.log2 (Z.abs i) in
    (if i <? 0 then 2 ^ 63 else 0) + (e + 1023) * 2 ^ 52 + (Z.abs i * 2 ^ (52 - e) - 2 ^ 52).

(** [be16 (s.size ())] is the length cut to its 16 low bits, high byte first. *)
Definition amf_write_string (s : list Z) : Enc unit :=
  append [AMF0_STRING] ;; append (be16 (zlen s)) ;; append s.

Definition amf_write_number (n : Z) : Enc unit :=
  append [AMF0_NUMBER] ;; append (be32 (Z.shiftr n 32)) ;; append (be32 n).

Definition amf_write_boolean (b : bool) : Enc unit :=
  append [AMF0_BOOLEAN] ;; append [if b then 1 else 0].

Definition amf_write_key (s : list Z) : Enc unit := append (be16 (zlen s)) ;; append s.

Definition amf_write_null : Enc unit := append [AMF0_NULL].

Definition write_pairs (amf_write : AMFValue -> Enc unit) : amf_object_t -> Enc unit :=
  fix go o :=
    match o with
    | [] => mret tt
    | (k, v) :: o => amf_write_key k ;; amf_write v ;; go o
    end.

(** [as_integer] is a [double], so that an integer is written as a number;
    [as_object] asserts the type [AMF_OBJECT], which an ECMA array has not. *)
Fixpoint amf_write (v : AMFValue) : Enc unit :=
  match v with
  | VString s => amf_write_string s
  | VNumber n => amf_write_number n
  | VInteger i => amf_write_number (double_of_int i)
  | VBoolean b => amf_write_boolean b
  | VObject o =>
    append [AMF0_OBJECT] ;; write_pairs amf_write o ;; amf_write_key [] ;; append [AMF0_OBJECT_END]
  | VEcma _ => throw Assert
  | VNull => amf_write_null
  | VUndefined => mret tt
  end.

Definition amf_write_object (o : amf_object_t) : Enc unit :=
  append [AMF0_OBJECT] ;; write_pairs amf_write o ;; amf_write_key [] ;; append [AMF0_OBJECT_END].

Definition amf_write_ecma (o : amf_object_t) : Enc unit :=
  append [AMF0_ECMA_ARRAY] ;; append [0; 0; 0; 0] ;;
  write_pairs amf_write o ;; amf_write_key [] ;; append [AMF0_OBJECT_END].

(** ** Decoding *)

Record Decoder : Type := { buf : list Z; pos : Z; version : Z }.

Abbreviation Dec := (X Decoder).

Definition at_pos (p v : Z) (d : Decoder) : Decoder := {| buf := buf d; pos := p; version := v |}.
Definition skip (n : Z) : Dec unit := d ← state; put_state (at_pos (pos d + n) (version d) d).

Definition peek : Dec Z :=
  d ← state;
  match rd (buf d) (pos d) with None => throw Runtime | Some b => mret b end.

Definition get_byte : Dec Z :=
  d ← state;
  (if version d =? 0 then
     b ← peek;
     if b =? AMF0_SWITCH_AMF3 then put_state (at_pos (pos d + 1) 3 d) else mret tt
   else mret tt) ;;
  b ← peek;
  skip 1 ;;
  mret b.

(** The check for [n] bytes, the reading and the step over them. *)
Definition take_bytes (n : Z) : Dec (list Z) :=
  d ← state;
  match sub (buf d) (pos d) n with
  | None => throw Runtime
  | Some l => skip n ;; mret l
  end.

(** [load_be16], [load_be32]. *)
Definition load_be (l : list Z) : Z := foldl (fun v b => 256 * v + b) 0 l.

(** The loop of [load_amf3_integer], [i] turns before the fourth byte. *)
Fixpoint amf3_loop (i : nat) (value : Z) : Dec Z :=
  b ← get_byte;
  match i with
  | O => mret (u32 (Z.lor (Z.shiftl value 8) b))
  | S i =>
    let value := u32 (Z.lor (Z.shiftl value 7) (Z.land b 127)) in
    if Z.land b 128 =? 0 then mret value else amf3_loop i value
  end.
Definition load_amf3_integer : Dec Z := amf3_loop 3 0.

Definition amf_load_string : Dec (list Z) :=
  t ← get_byte;
  d ← state;
  str_len ←
    (if version d =? 3 then
       if negb (t =? AMF3_STRING) then throw Runtime
       else n ← load_amf3_integer; mret (n / 2)
     else
       if negb (t =? AMF0_STRING) then throw Runtime
       else l ← take_bytes 2; mret (load_be l));
  take_bytes str_len.

Definition amf_load_number : Dec Z :=
  t ← get_byte;
  if negb (t =? AMF0_NUMBER) then throw Runtime
  else l ← take_bytes 8; mret (load_be l).

(** A [double] as an [int]; not defined when it does not fit. *)
Definition int_of_double (n : Z) : option Z :=
  let e := Z.land (Z.shiftr n 52) 2047 - 1023 in
  let m := 2 ^ 52 + Z.land n (Z.ones 52) in
  let sign := if Z.testbit n 63 then -1 else 1 in
  if e <? 0 then Some 0
  else if e <? 31 then Some (sign * (m / 2 ^ (52 - e)))
  else if (e =? 31) && (sign =? -1) && (m / 2 ^ 21 =? 2 ^ 31) then Some (- 2 ^ 31)
  else None.

Definition amf_load_integer : Dec Z :=
  d ← state;
  if version d =? 3 then load_amf3_integer
  else n ← amf_load_number; match int_of_double n with Some i => mret i | None => throw Assert end.

Definition amf_load_boolean : Dec bool :=
  t ← get_byte;
  if negb (t =? AMF0_BOOLEAN) then throw Runtime
  else b ← get_byte; mret (negb (b =? 0)).

Definition amf_load_key : Dec (list Z) :=
  l ← take_bytes 2; take_bytes (load_be l).

(** The loop over the pairs of an object; [load] loads a value. *)
Fixpoint load_pairs (load : Dec AMFValue) (fuel : nat) (object : amf_object_t) : Dec amf_object_t :=
  match fuel with
  | O => throw OutOfFuel
  | S fuel =>
    key ← amf_load_key;
    match key with
    | [] => mret object
    | _ => value ← load; load_pairs load fuel (obj_insert key value object)
    end
  end.

Definition load_object_with (load : Dec AMFValue) (fuel : nat) : Dec amf_object_t :=
  t ← get_byte;
  if negb (t =? AMF0_OBJECT) then throw Runtime
  else
    object ← load_pairs load fuel [];
    e ← get_byte;
    if negb (e =? AMF0_OBJECT_END) then throw Runtime else mret object.

Definition load_ecma_with (load : Dec AMFValue) (fuel : nat) : Dec amf_object_t :=
  t ← get_byte;
  if negb (t =? AMF0_ECMA_ARRAY) then throw Runtime
  else
    take_bytes 4 ;;
    object ← load_pairs load fuel [];
    e ← get_byte;
    if negb (e =? AMF0_OBJECT_END) then throw Runtime else mret object.

(** [AMFValue (object)] is of type [AMF_OBJECT], also for an ECMA array.
    [load] loads the values of the pairs. *)
Definition amf_load_with (load : Dec AMFValue) (fuel : nat) : Dec AMFValue :=
  t ← peek;
  d ← state;
  if version d =? 3 then
    if t =? AMF3_STRING then VString <$> amf_load_string
    else if t =? AMF3_NUMBER then VNumber <$> amf_load_number
    else if t =? AMF3_INTEGER then VInteger <$> amf_load_integer
    else if t =? AMF3_FALSE then skip 1 ;; mret (VBoolean false)
    else if t =? AMF3_TRUE then skip 1 ;; mret (VBoolean true)
    else if t =? AMF3_OBJECT then VObject <$> load_object_with load fuel
    else if t =? AMF3_ARRAY then VObject <$> load_ecma_with load fuel
    else if t =? AMF3_NULL then skip 1 ;; mret VNull
    else if t =? AMF3_UNDEFINED then skip 1 ;; mret VUndefined
    else throw Runtime
  else
    if t =? AMF0_STRING then VString <$> amf_load_string
    else if t =? AMF0_NUMBER then VNumber <$> amf_load_number
    else if t =? AMF0_BOOLEAN then VBoolean <$> amf_load_boolean
    else if t =? AMF0_OBJECT then VObject <$> load_object_with load fuel
    else if t =? AMF0_ECMA_ARRAY then VObject <$> load_ecma_with load fuel
    else if t =? AMF0_NULL then skip 1 ;; mret VNull
    else if t =? AMF0_UNDEFINED then skip 1 ;; mret VUndefined
    else throw Runtime.

Fixpoint amf_load (fuel : nat) : Dec AMFValue :=
  match fuel with O => throw OutOfFuel | S fuel => amf_load_with (amf_load fuel) fuel end.

Definition amf_load_object (fuel : nat) : Dec amf_object_t := load_object_with (amf_load fuel) fuel.
Definition amf_load_ecma (fuel : nat) : Dec amf_object_t := load_ecma_with (amf_load fuel) fuel.

(** ** Lemmas: values *)

Lemma AMFValue_ind' (P : AMFValue -> Prop) :
  (forall n, P (VNumber n)) -> (forall i, P (VInteger i)) -> (forall b, P (VBoolean b)) ->
  (forall s, P (VString s)) -> (forall o, Forall (fun kv => P kv.2) o -> P (VObject o)) ->
  P VNull -> P VUndefined -> (forall o, Forall (fun kv => P kv.2) o -> P (VEcma o)) ->
  forall v, P v.
Proof.
  intros HN HI HB HS HO H0 HU HE. fix go 1. intros [n|i|b|s|o| | |o].
  1-4, 6-7: clear go; auto.
  - apply HO. revert o. fix gos 1. intros [|[k v] o]; constructor; [apply go|apply gos].
  - apply HE. revert o. fix gos 1. intros [|[k v] o]; constructor; [apply go|apply gos].
Qed.

(** The keys of an object are in order, each once. *)
Abbreviation keys_sorted o := (StronglySorted str_lt (o.*1)).

Lemma obj_insert_keys k v o x : x ∈ (obj_insert k v o).*1 -> x = k \/ x ∈ o.*1.
Proof.
  induction o as [|[k' v'] o IH]; cbn; [rewrite list_elem_of_singleton; tauto|].
  destruct (str_cmp k k'); cbn; rewrite ?elem_of_cons; tauto.
Qed.

Lemma obj_insert_sorted k v o : keys_sorted o -> keys_sorted (obj_insert k v o).
Proof.
  induction o as [|[k' v'] o IH]; cbn [obj_insert fmap list_fmap].
  { intros _. repeat constructor. }
  intros H. cbn in H. apply StronglySorted_inv in H as [Hs Hf].
  destruct (str_cmp k k') eqn:E; cbn.
  - by constructor.
  - constructor; [by constructor|]. constructor; [done|].
    eapply Forall_impl; [exact Hf|]. intros x Hx. by apply (str_lt_trans _ k').
  - constructor; [by apply IH|]. apply Forall_forall. intros x Hx.
    apply obj_insert_keys in Hx as [->|Hx]; [by apply str_cmp_Gt|]. rewrite Forall_forall in Hf. by apply Hf.
Qed.

(** A key behind all others is put at the end. *)
Lemma obj_insert_last k v o : Forall (fun x => str_lt x k) (o.*1) -> obj_insert k v o = o ++ [(k, v)].
Proof.
  induction o as [|[k' v'] o IH]; cbn; [done|]. intros H. apply Forall_cons in H as [Hk Ho].
  apply str_cmp_Gt in Hk. rewrite Hk. by rewrite IH.
Qed.

(** *** The values that can be written and the values that are read *)

Definition each (P : AMFValue -> Prop) (Q : list Z -> Prop) : amf_object_t -> Prop :=
  fix go o := match o with [] => True | (k, v) :: o => Q k /\ P v /\ go o end.

Definition short (s : list Z) : Prop := bytes_ok s /\ zlen s < 2 ^ 16.

(** A value with these bounds is written so that it can be read back. *)
Fixpoint writable (v : AMFValue) : Prop :=
  match v with
  | VNumber n => fits 64 n
  | VInteger i => - 2 ^ 31 <= i < 2 ^ 31
  | VBoolean _ | VNull => True
  | VString s => short s
  | VObject o => keys_sorted o /\ each writable (fun k => short k /\ k <> []) o
  | VUndefined | VEcma _ => False
  end.

(** What is read back: an integer has become a number. *)
Fixpoint reload (v : AMFValue) : AMFValue :=
  match v with
  | VInteger i => VNumber (double_of_int i)
  | VObject o => VObject ((fun kv => (kv.1, reload kv.2)) <$> o)
  | v => v
  end.

(** What every value a decoder gives satisfies. *)
Fixpoint loaded_ok (v : AMFValue) : Prop :=
  match v with
  | VNumber n => fits 64 n
  | VInteger i => 0 <= i < 2 ^ 29
  | VString s => bytes_ok s
  | VObject o => keys_sorted o /\ each loaded_ok (fun k => short k /\ k <> []) o
  | VBoolean _ | VNull | VUndefined => True
  | VEcma _ => False
  end.

Lemma each_Forall P Q o : each P Q o <-> Forall (fun kv => Q kv.1 /\ P kv.2) o.
Proof.
  induction o as [|[k v] o IH]; cbn; [by rewrite Forall_nil|]. rewrite Forall_cons, IH. cbn. tauto.
Qed.

Lemma each_insert P Q k v o : Q k -> P v -> each P Q o -> each P Q (obj_insert k v o).
Proof.
  intros Hk Hv. induction o as [|[k' v'] o IH]; cbn; [done|].
  destruct (str_cmp k k'); cbn; tauto.
Qed.

(** ** Lemmas: writing *)

Lemma x_bind {S A B} (m : X S A) (k : A -> X S B) s a s' : m s = (inr a, s') -> (m ≫= k) s = k a s'.
Proof. intros H. cbv [mbind X_bind]. by rewrite H. Qed.
Lemma x_throw {S A B} (m : X S A) (k : A -> X S B) s e s' : m s = (inl e, s') -> (m ≫= k) s = (inl e, s').
Proof. intros H. cbv [mbind X_bind]. by rewrite H. Qed.
Lemma x_bind_inv {S A B} (m : X S A) (k : A -> X S B) s r s' : (m ≫= k) s = (r, s') ->
  (exists a s1, m s = (inr a, s1) /\ k a s1 = (r, s')) \/ (exists e, m s = (inl e, s') /\ r = inl e).
Proof.
  cbv [mbind X_bind]. destruct (m s) as [[e|a] s1] eqn:E; [|eauto].
  intros [= <- <-]. right. eauto.
Qed.
Lemma state_bind {S B} (k : S -> X S B) s : (state ≫= k) s = k s s.
Proof. done. Qed.
Lemma append_bind {B} d (k : unit -> Enc B) b : (append d ≫= k) b = k tt (b ++ d).
Proof. done. Qed.

Definition enc_key (k : list Z) : list Z := be16 (zlen k) ++ k.
Definition enc_number (n : Z) : list Z := AMF0_NUMBER :: be32 (Z.shiftr n 32) ++ be32 n.
Definition enc_pairs (enc : AMFValue -> list Z) : amf_object_t -> list Z :=
  fix go o := match o with [] => [] | (k, v) :: o => enc_key k ++ enc v ++ go o end.
Definition enc_end : list Z := [0; 0; AMF0_OBJECT_END].

(** The bytes of a value. *)
Fixpoint enc (v : AMFValue) : list Z :=
  match v with
  | VNumber n => enc_number n
  | VInteger i => enc_number (double_of_int i)
  | VBoolean b => [AMF0_BOOLEAN; if b then 1 else 0]
  | VString s => AMF0_STRING :: enc_key s
  | VObject o | VEcma o => AMF0_OBJECT :: enc_pairs enc o ++ enc_end
  | VNull => [AMF0_NULL]
  | VUndefined => []
  end.

(** Whether an ECMA array is somewhere in a value. *)
Fixpoint has_ecma (v : AMFValue) : bool :=
  match v with VObject o => existsb (fun kv => has_ecma kv.2) o | VEcma _ => true | _ => false end.

(** What writing does: it stops with [Assert] at an ECMA array, or adds the bytes of the value. *)
Definition writes (v : AMFValue) : Prop := forall b,
  if has_ecma v then exists b', amf_write v b = (inl Assert, b') else amf_write v b = (inr tt, b ++ enc v).

Lemma write_pairs_enc o b : Forall (fun kv => writes kv.2) o ->
  if existsb (fun kv => has_ecma kv.2) o then exists b', write_pairs amf_write o b = (inl Assert, b')
  else write_pairs amf_write o b = (inr tt, b ++ enc_pairs enc o).
Proof.
  revert b. induction o as [|[k v] o IH]; intros b Ho; cbn [write_pairs enc_pairs existsb].
  { by rewrite app_nil_r. }
  apply Forall_cons in Ho as [Hv Ho]. unfold amf_write_key, enc_key. cbn [snd] in *.
  rewrite (x_bind _ _ _ tt ((b ++ be16 (zlen k)) ++ k)) by done.
  specialize (Hv ((b ++ be16 (zlen k)) ++ k)). destruct (has_ecma v); cbn [orb].
  - destruct Hv as [b' Hv]. exists b'. by apply x_throw.
  - rewrite (x_bind _ _ _ _ _ Hv). specialize (IH (((b ++ be16 (zlen k)) ++ k) ++ enc v) Ho).
    destruct (existsb _ o); [exact IH|]. rewrite IH. by rewrite <-!app_assoc.
Qed.

Lemma amf_write_enc v : writes v.
Proof.
  induction v as [n|i|c|s|o IH| | |o _] using AMFValue_ind'; intros b; cbn [has_ecma].
  1-4: unfold amf_write, amf_write_number, amf_write_boolean, amf_write_string;
    rewrite !append_bind; unfold append; cbn [enc]; by rewrite <-!app_assoc.
  - cbn [amf_write enc]. rewrite append_bind. pose proof (write_pairs_enc o (b ++ [AMF0_OBJECT]) IH) as Ho.
    destruct (existsb _ o); [destruct Ho as [b' Ho]; exists b'; by apply x_throw|].
    rewrite (x_bind _ _ _ _ _ Ho). unfold amf_write_key. cbv [mbind X_bind append mret]. cbn. by rewrite <-!app_assoc.
  - done.
  - cbn. by rewrite app_nil_r.
  - by exists b.
Qed.

Lemma writable_no_ecma v : writable v -> has_ecma v = false.
Proof.
  induction v as [n|i|c|s|o IH| | |o _] using AMFValue_ind'; cbn [writable has_ecma]; try done.
  intros [_ Hv]. apply each_Forall in Hv. induction o as [|kv o IHo]; [done|]. cbn [existsb].
  apply Forall_cons in IH as [H1 H2], Hv as [[_ Hv1] Hv2]. rewrite H1 by done. by apply IHo.
Qed.

(** ** Lemmas: reading *)

Lemma load_be16 z : load_be (be16 z) = u16 z.
Proof. rewrite <-le16_byte_n. unfold load_be, be16, le16. cbn [foldl]. lia. Qed.
Lemma load_be32 z : load_be (be32 z) = u32 z.
Proof. rewrite <-le32_byte_n. unfold load_be, be32, le32. cbn [foldl]. lia. Qed.
Lemma load_be_app4 a z : load_be (a ++ be32 z) = load_be a * 2 ^ 32 + u32 z.
Proof.
  rewrite <-load_be32. unfold load_be. rewrite foldl_app. generalize (foldl (fun v b => 256 * v + b) 0 a).
  intros x. unfold be32. cbn [foldl]. lia.
Qed.
Lemma load_be64 n : fits 64 n -> load_be (be32 (Z.shiftr n 32) ++ be32 n) = n.
Proof.
  unfold fits. intros Hn. rewrite load_be_app4, load_be32, Z.shiftr_div_pow2 by lia. unfold u32, wrap.
  rewrite (Z.mod_small (n / 2 ^ 32)) by lia. lia.
Qed.

Lemma load_be_bound l : bytes_ok l -> 0 <= load_be l < 256 ^ zlen l.
Proof.
  unfold load_be. assert (forall v, 0 <= v -> bytes_ok l ->
    0 <= foldl (fun v b => 256 * v + b) v l < (v + 1) * 256 ^ zlen l) as H.
  { induction l as [|b l IH]; intros v Hv Hl; cbn [foldl]; [unfold zlen; cbn; lia|].
    apply Forall_cons in Hl as [Hb Hl]. unfold fits in Hb. specialize (IH (256 * v + b)).
    rewrite zlen_cons, Z.pow_add_r by (try apply zlen_nonneg; lia).
    pose proof (Z.pow_pos_nonneg 256 (zlen l) ltac:(lia) (zlen_nonneg l)). nia. }
  intros Hl. specialize (H 0 ltac:(lia) Hl). lia.
Qed.

(** A decoder behind [pre]. *)
Definition at_ (pre post : list Z) (v : Z) : Decoder := {| buf := pre ++ post; pos := zlen pre; version := v |}.

Lemma at_app pre l post v : at_ (pre ++ l) post v = {| buf := pre ++ l ++ post; pos := zlen pre + zlen l; version := v |}.
Proof. unfold at_. by rewrite <-app_assoc, zlen_app. Qed.

Lemma at_end pre v : {| buf := pre; pos := zlen pre; version := v |} = at_ pre [] v.
Proof. unfold at_. by rewrite app_nil_r. Qed.

Lemma take_bytes_at n pre l post v : zlen l = n ->
  take_bytes n (at_ pre (l ++ post) v) = (inr l, at_ (pre ++ l) post v).
Proof.
  intros <-. cbv [take_bytes mbind X_bind state]. unfold at_ at 1 2. cbn [buf pos].
  rewrite sub_app. cbv [skip mbind X_bind state put_state mret X_ret at_pos at_]. cbn [buf pos version].
  by rewrite <-app_assoc, zlen_app.
Qed.

Lemma peek_at pre b post v : peek (at_ pre (b :: post) v) = (inr b, at_ pre (b :: post) v).
Proof.
  cbv [peek mbind X_bind state]. unfold at_ at 1 2. cbn [buf pos]. rewrite rd_app_r by lia.
  by rewrite Z.sub_diag, rd_0.
Qed.

Lemma skip_at pre b post v : skip 1 (at_ pre (b :: post) v) = (inr tt, at_ (pre ++ [b]) post v).
Proof.
  cbv [skip mbind X_bind state put_state at_pos at_]. cbn [buf pos version]. by rewrite <-app_assoc, zlen_app.
Qed.

Lemma get_byte_at pre b post v : v <> 0 \/ b <> AMF0_SWITCH_AMF3 ->
  get_byte (at_ pre (b :: post) v) = (inr b, at_ (pre ++ [b]) post v).
Proof.
  intros Hb. unfold get_byte. rewrite state_bind.
  rewrite (x_bind _ _ _ tt (at_ pre (b :: post) v)).
  - rewrite (x_bind _ _ _ _ _ (peek_at _ _ _ _)). by rewrite (x_bind _ _ _ _ _ (skip_at _ _ _ _)).
  - cbn [version at_]. destruct (Z.eqb_spec v 0); [|done].
    rewrite (x_bind _ _ _ _ _ (peek_at _ _ _ _)). destruct (Z.eqb_spec b AMF0_SWITCH_AMF3); [|done].
    destruct Hb; congruence.
Qed.

(** A step of a decoder at a known place. *)
Ltac dec_step :=
  first
  [ rewrite (x_bind _ _ _ _ _ (peek_at _ _ _ _))
  | rewrite (x_bind _ _ _ _ _ (skip_at _ _ _ _))
  | erewrite (x_bind get_byte) by (apply get_byte_at; first [by left|by right])
  | rewrite state_bind ].

Lemma load_key_at pre k post v : short k ->
  amf_load_key (at_ pre (enc_key k ++ post) v) = (inr k, at_ (pre ++ enc_key k) post v).
Proof.
  intros [Hb Hk]. unfold amf_load_key, enc_key. rewrite <-app_assoc.
  rewrite (x_bind _ _ _ _ _ (take_bytes_at 2 _ (be16 (zlen k)) _ _ eq_refl)).
  pose proof (zlen_nonneg k). rewrite load_be16. unfold u16. rewrite wrap_small by (unfold fits; lia).
  rewrite take_bytes_at by done. by rewrite app_assoc.
Qed.

Lemma load_number_at pre n post v : v = 0 -> fits 64 n ->
  amf_load_number (at_ pre (enc_number n ++ post) v) = (inr n, at_ (pre ++ enc_number n) post v).
Proof.
  intros -> Hn. unfold amf_load_number, enc_number. cbn [app]. dec_step. rewrite Z.eqb_refl. cbn [negb].
  rewrite (x_bind _ _ _ _ _ (take_bytes_at 8 _ (be32 (Z.shiftr n 32) ++ be32 n) _ _ eq_refl)). cbv [mret X_ret].
  rewrite load_be64 by done. by rewrite <-app_assoc.
Qed.

Lemma load_string_at pre s post : short s ->
  amf_load_string (at_ pre (AMF0_STRING :: enc_key s ++ post) 0) =
  (inr s, at_ (pre ++ AMF0_STRING :: enc_key s) post 0).
Proof.
  intros [Hb Hs]. unfold amf_load_string, enc_key. rewrite <-app_assoc. do 2 dec_step.
  cbn [version at_]. rewrite Z.eqb_refl. cbn [Z.eqb negb]. rewrite (x_bind _ _ _ (zlen s) (at_ ((pre ++ [2]) ++ be16 (zlen s)) (s ++ post) 0)).
  2:{ rewrite (x_bind _ _ _ _ _ (take_bytes_at 2 _ (be16 (zlen s)) _ _ eq_refl)). cbv [mret X_ret].
      pose proof (zlen_nonneg s). rewrite load_be16. unfold u16. by rewrite wrap_small by (unfold fits; lia). }
  rewrite take_bytes_at by done. by rewrite <-!app_assoc.
Qed.

Abbreviation reload_pairs := (fmap (fun kv : list Z * AMFValue => (kv.1, reload kv.2))).

Definition loads (load : Dec AMFValue) (v : AMFValue) : Prop := forall pre post,
  load (at_ pre (enc v ++ post) 0) = (inr (reload v), at_ (pre ++ enc v) post 0).

Lemma load_pairs_at load fuel o acc pre post :
  Forall (fun kv => (short kv.1 /\ kv.1 <> []) /\ loads load kv.2) o -> (length o < fuel)%nat ->
  keys_sorted (acc ++ o) ->
  load_pairs load fuel acc (at_ pre (enc_pairs enc o ++ enc_key [] ++ post) 0) =
  (inr (acc ++ reload_pairs o), at_ (pre ++ enc_pairs enc o ++ enc_key []) post 0).
Proof.
  revert fuel acc pre. induction o as [|[k v] o IH]; intros [|fuel] acc pre Ho Hfuel Hs;
    cbn [length] in Hfuel; try lia; cbn [load_pairs enc_pairs fmap list_fmap].
  { cbn [app]. erewrite x_bind by (apply load_key_at; by repeat constructor).
    cbv [mret X_ret]. by rewrite app_nil_r. }
  apply Forall_cons in Ho as [[[Hk Hne] Hv] Ho]. cbn [fst snd] in *. rewrite <-!app_assoc.
  erewrite x_bind by (apply load_key_at; done). destruct k as [|b k]; [done|].
  rewrite (x_bind _ _ _ _ _ (Hv _ _)). rewrite fmap_app in Hs.
  rewrite obj_insert_last.
  2:{ cbn [fmap list_fmap] in Hs. apply Forall_forall. intros x Hx.
      apply (StronglySorted_app_1_elem_of _ _ _ _ _ Hs Hx). by constructor. }
  rewrite IH; [|done|lia|].
  - rewrite <-!app_assoc. done.
  - rewrite <-app_assoc. by rewrite fmap_app.
Qed.

Lemma length_enc_pairs o : (length o <= length (enc_pairs enc o))%nat.
Proof.
  induction o as [|[k v] o IH]; cbn [enc_pairs length]; [lia|].
  unfold enc_key. rewrite !length_app. unfold be16. cbn [length]. lia.
Qed.

Lemma enc_member k v o : (k, v) ∈ o -> (length (enc v) <= length (enc_pairs enc o))%nat.
Proof.
  induction o as [|[k' v'] o IH]; [by intros ?%elem_of_nil|]. intros [[= <- <-]|Hin]%elem_of_cons;
    cbn [enc_pairs]; rewrite !length_app; [lia|]. specialize (IH Hin). lia.
Qed.

Lemma double_of_int_fits i : - 2 ^ 31 <= i < 2 ^ 31 -> fits 64 (double_of_int i).
Proof.
  intros Hi. unfold double_of_int, fits. destruct (Z.eqb_spec i 0); [lia|].
  pose proof (Z.log2_spec (Z.abs i) ltac:(lia)) as [H1 H2].
  assert (0 <= Z.log2 (Z.abs i) <= 31) as Hl.
  { split; [apply Z.log2_nonneg|]. pose proof (Z.log2_le_mono (Z.abs i) (2 ^ 31) ltac:(lia)) as H.
    by rewrite Z.log2_pow2 in H. }
  set (e := Z.log2 (Z.abs i)) in *. rewrite Z.pow_succ_r in H2 by lia.
  assert (2 ^ 52 = 2 ^ e * 2 ^ (52 - e)) as E by (rewrite <-Z.pow_add_r by lia; f_equal; lia).
  pose proof (Z.pow_pos_nonneg 2 (52 - e) ltac:(lia) ltac:(lia)).
  assert (2 ^ 52 <= Z.abs i * 2 ^ (52 - e) < 2 * 2 ^ 52) by nia. clear E H1 H2.
  destruct (Z.ltb_spec i 0); lia.
Qed.

(** A value is read back from its bytes. *)
Lemma amf_load_at v : writable v -> forall fuel, (length (enc v) < fuel)%nat -> loads (amf_load fuel) v.
Proof.
  induction v as [n|i|c|s|o IH| | |o _] using AMFValue_ind'; intros Hv [|fuel] Hfuel pre post; try lia; try done;
    cbn [amf_load enc reload]; unfold amf_load_with; try (unfold enc_number at 1); cbn [app]; dec_step; dec_step; cbn [version at_];
    change (0 =? 3) with false; cbv iota; repeat first
      [ rewrite Z.eqb_refl; cbv iota | match goal with |- context [?a =? ?b] => change (a =? b) with false; cbv iota end ].
  - pose proof (load_number_at pre n post 0 eq_refl Hv) as E. cbv [fmap X_fmap]. by rewrite (x_bind _ _ _ _ _ E).
  - pose proof (load_number_at pre _ post 0 eq_refl (double_of_int_fits i Hv)) as E.
    cbv [fmap X_fmap]. by rewrite (x_bind _ _ _ _ _ E).
  - cbv [fmap X_fmap]. unfold amf_load_boolean. rewrite (x_bind _ _ _ c (at_ ((pre ++ [AMF0_BOOLEAN]) ++ [if c then 1 else 0]) post 0)).
    { by rewrite <-app_assoc. }
    dec_step. rewrite Z.eqb_refl. cbn [negb]. erewrite (x_bind get_byte) by (apply get_byte_at; right; by destruct c). by destruct c.
  - cbv [fmap X_fmap]. by rewrite (x_bind _ _ _ _ _ (load_string_at pre s post Hv)).
  - destruct Hv as [Hs Hv]. apply each_Forall in Hv. cbn [enc length] in Hfuel. rewrite length_app in Hfuel.
    cbv [fmap X_fmap]. unfold load_object_with.
    erewrite x_bind; [done|]. dec_step. rewrite Z.eqb_refl. cbn [negb]. rewrite <-app_assoc.
    change (enc_end ++ post) with (enc_key [] ++ AMF0_OBJECT_END :: post).
    erewrite x_bind.
    2:{ apply load_pairs_at; [|pose proof (length_enc_pairs o); lia|done].
        apply Forall_forall. intros [k v] Hin. rewrite Forall_forall in IH. rewrite Forall_forall in Hv.
        destruct (Hv _ Hin) as [Hk Hw]. split; [done|]. apply (IH _ Hin Hw).
        pose proof (enc_member _ _ _ Hin). cbn [snd] in *. lia. }
    dec_step. rewrite Z.eqb_refl. cbn [negb app]. cbv [mret X_ret]. by rewrite <-!app_assoc.
  - dec_step. done.
Qed.

(** ** Lemmas: every input *)

Definition dec_ok (d : Decoder) : Prop := 0 <= pos d <= zlen (buf d) /\ bytes_ok (buf d).
Definition remaining (d : Decoder) : Z := zlen (buf d) - pos d.

(** A decoder stays in its buffer, does not run out of fuel, and steps over
    [n] bytes or more when it gives a result. *)
Definition runs {A} (n : Z) (Q : A -> Prop) (m : Dec A) (d : Decoder) : Prop :=
  let '(r, d') := m d in
  buf d' = buf d /\ pos d <= pos d' <= zlen (buf d) /\
  match r with inl e => e <> OutOfFuel | inr a => pos d + n <= pos d' /\ Q a end.

Lemma runs_bind {A B} n1 n2 (P : A -> Prop) (Q : B -> Prop) m k d : dec_ok d ->
  runs n1 P m d ->
  (forall a d', P a -> dec_ok d' -> zlen (buf d') = zlen (buf d) -> pos d + n1 <= pos d' -> pos d <= pos d' ->
    runs n2 Q (k a) d') ->
  runs (n1 + n2) Q (m ≫= k) d.
Proof.
  unfold runs. cbv [mbind X_bind]. intros [Hd Hb]. destruct (m d) as [[e|a] d1]; [done|].
  intros (E & Hp & Hn & Ha) H. specialize (H a d1 Ha). destruct (k a d1) as [r d2].
  destruct H as (E2 & Hp2 & Hr); [|by rewrite E|lia|lia|].
  - unfold dec_ok. rewrite E. split; [lia|done].
  - rewrite E in E2, Hp2. split; [congruence|]. split; [lia|]. destruct r; [done|]. split; [lia|tauto].
Qed.

Lemma runs_mono {A} n n' (P Q : A -> Prop) m d : runs n P m d -> n' <= n -> (forall a, P a -> Q a) -> runs n' Q m d.
Proof.
  unfold runs. destruct (m d) as [r d']. intros (? & ? & Hr) Hn HQ. split; [done|]. split; [done|].
  destruct r; [done|]. destruct Hr. split; [lia|auto].
Qed.

Lemma runs_throw {A} n (Q : A -> Prop) e d : dec_ok d -> e <> OutOfFuel -> runs n Q (throw e) d.
Proof. intros [Hd _] He. split; [done|]. cbn. split; [lia|done]. Qed.
Lemma runs_ret {A} n (a : A) (Q : A -> Prop) d : n <= 0 -> dec_ok d -> Q a -> runs n Q (mret a) d.
Proof. intros Hn [Hd _] HQ. split; [done|]. cbv [mret X_ret]. split; [lia|]. split; [lia|done]. Qed.
Lemma runs_fmap {A B} n (f : A -> B) (P : A -> Prop) (Q : B -> Prop) m d : dec_ok d -> runs n P m d ->
  (forall a, P a -> Q (f a)) -> runs n Q (f <$> m) d.
Proof.
  intros Hd Hm HQ. cbv [fmap X_fmap]. replace n with (n + 0) by lia.
  eapply runs_bind; [done|exact Hm|]. intros. apply runs_ret; [lia|done|auto].
Qed.
Lemma runs_state {B} n (Q : B -> Prop) k d : runs n Q (k d) d -> runs n Q (state ≫= k) d.
Proof. done. Qed.

Lemma rd_ok d b : dec_ok d -> rd (buf d) (pos d) = Some b -> pos d + 1 <= zlen (buf d) /\ is_byte b.
Proof. intros [Hd Hb] E. split; [apply rd_bounds in E; lia|by apply (rd_byte (buf d) (pos d))]. Qed.

(** The first step of a method, then the rest. *)
Ltac run n1 P := match goal with |- runs ?n ?Q (?m ≫= ?k) ?d =>
  apply (runs_mono (n1 + (n - n1)) n Q Q); [|lia|done];
  apply (runs_bind n1 (n - n1) P Q m k d) end.

Lemma runs_put d d' : dec_ok d' -> buf d' = buf d -> pos d <= pos d' -> runs 0 (fun _ => True) (put_state d') d.
Proof. intros [Hd _] E Hp. unfold runs, put_state. split; [done|]. rewrite <-E. split; [lia|]. split; [lia|done]. Qed.

Lemma dec_ok_at d p v : dec_ok d -> 0 <= p <= zlen (buf d) -> dec_ok (at_pos p v d).
Proof. intros [_ Hb] Hp. split; [exact Hp|exact Hb]. Qed.

Lemma runs_skip n d : dec_ok d -> 0 <= n -> pos d + n <= zlen (buf d) -> runs n (fun _ => True) (skip n) d.
Proof.
  intros Hd Hn E. unfold runs, skip. rewrite state_bind. unfold put_state. cbn [at_pos buf pos]. destruct Hd.
  split; [done|]. split; [lia|]. split; [lia|done].
Qed.

Lemma runs_peek {A} n (Q : A -> Prop) k d : dec_ok d ->
  (forall b, is_byte b -> pos d + 1 <= zlen (buf d) -> runs n Q (k b) d) -> runs n Q (peek ≫= k) d.
Proof.
  intros Hd H. unfold peek, runs. cbv [mbind X_bind state].
  destruct (rd (buf d) (pos d)) as [b|] eqn:E; [|by apply (runs_throw n Q Runtime d)].
  destruct (rd_ok _ _ Hd E). by apply H.
Qed.

Lemma runs_get_byte d : dec_ok d -> runs 1 is_byte get_byte d.
Proof.
  intros Hd. unfold get_byte. apply runs_state. replace 1 with (0 + 1) by lia.
  apply (runs_bind 0 1 (fun _ => True)); [done| |].
  - destruct (version d =? 0); [|apply runs_ret; [lia|done..]].
    apply runs_peek; [done|]. intros b Hb Hp. destruct (b =? AMF0_SWITCH_AMF3); [|apply runs_ret; [lia|done..]].
    destruct (Hd) as [? _]. apply runs_put; [apply dec_ok_at; [done|lia]|done|cbn [at_pos pos]; lia].
  - intros _ d' _ Hd' _ _ _. apply runs_peek; [done|]. intros b Hb Hp. replace 1 with (1 + 0) by lia.
    apply (runs_bind 1 0 (fun _ => True)); [done|by apply runs_skip|].
    intros _ d2 _ Hd2 _ _ _. apply runs_ret; [lia|done..].
Qed.

Lemma runs_take_bytes n d : dec_ok d -> 0 <= n ->
  runs n (fun l => bytes_ok l /\ zlen l = n) (take_bytes n) d.
Proof.
  intros Hd Hn. unfold take_bytes. apply runs_state.
  destruct (sub (buf d) (pos d) n) as [l|] eqn:E; [|by apply runs_throw].
  pose proof (sub_length _ _ _ _ E). destruct Hd as [Hd Hb]. pose proof (sub_bytes _ _ _ _ Hb E).
  assert (pos d + n <= zlen (buf d)).
  { revert E. unfold sub, zlen. case_decide; [lia|done]. }
  run n (fun _ : unit => True); [done|by apply runs_skip|].
  intros. apply runs_ret; [lia|done..].
Qed.

Lemma runs_amf3_integer d : dec_ok d -> runs 1 (fun n => 0 <= n < 2 ^ 29) load_amf3_integer d.
Proof.
  intros Hd. unfold load_amf3_integer.
  assert (forall i v d, (i <= 3)%nat -> dec_ok d -> 0 <= v < 2 ^ (7 * (3 - Z.of_nat i)) ->
    runs 1 (fun n => 0 <= n < 2 ^ 29) (amf3_loop i v) d) as H; [|by apply H; [lia|done|]].
  clear d Hd. induction i as [|i IH]; intros v d Hi Hd Hv; cbn [amf3_loop];
    (run 1 (fits 8); [done|by apply runs_get_byte|]); intros b d' Hb Hd' _ _ _.
  - apply runs_ret; [lia|done|]. assert (fits 21 v) by (unfold fits; lia).
    rewrite lor_low by done. unfold fits in *. unfold u32. rewrite wrap_small; unfold fits; lia.
  - assert (fits 7 (Z.land b 127)) as Hl.
    { change 127 with (Z.ones 7). rewrite Z.land_ones by lia. by apply mod_fits. }
    rewrite lor_low by done. unfold fits in Hl. unfold u32.
    assert (0 <= 2 ^ 7 * v + Z.land b 127 < 2 ^ (7 * (3 - Z.of_nat i))) as Hn.
    { replace (7 * (3 - Z.of_nat i)) with (7 + 7 * (3 - Z.of_nat (S i))) by lia.
      rewrite Z.pow_add_r by lia. nia. }
    assert (2 ^ (7 * (3 - Z.of_nat i)) <= 2 ^ 21) by (apply Z.pow_le_mono_r; lia).
    rewrite wrap_small by (unfold fits; lia). case_match; [apply runs_ret; [lia|done|lia]|].
    eapply runs_mono; [apply IH; [lia|done|exact Hn]|lia|done].
Qed.

Ltac run_byte b d' Hb Hd' :=
  run 1 (fits 8); [done|by apply runs_get_byte|]; intros b d' Hb Hd' ? ? ?.
Ltac run_bytes n l d' Hl Hd' :=
  run n (fun l => bytes_ok l /\ zlen l = n); [done|by apply runs_take_bytes|];
  intros l d' Hl Hd' ? ? ?.

Lemma runs_string d : dec_ok d -> runs 1 (fun s => bytes_ok s) amf_load_string d.
Proof.
  intros Hd. unfold amf_load_string. run_byte t d1 Ht Hd1. apply runs_state.
  run 0 (fun n => 0 <= n); [done| |].
  - destruct (version d1 =? 3).
    + case_match; [by apply runs_throw|]. run 1 (fun n => 0 <= n < 2 ^ 29); [done|by apply runs_amf3_integer|].
      intros n d2 Hn Hd2 _ _ _. apply runs_ret; [lia|done|lia].
    + case_match; [by apply runs_throw|]. run_bytes 2 l d2 Hl Hd2.
      apply runs_ret; [lia|done|]. destruct Hl as [Hb _]. by apply load_be_bound.
  - intros n d2 Hn Hd2 _ _ _. eapply runs_mono; [by apply runs_take_bytes|lia|by intros s []].
Qed.

Lemma runs_number d : dec_ok d -> runs 1 (fits 64) amf_load_number d.
Proof.
  intros Hd. unfold amf_load_number. run_byte t d1 Ht Hd1. case_match; [by apply runs_throw|].
  run_bytes 8 l d2 Hl Hd2. apply runs_ret; [lia|done|]. destruct Hl as [Hb Hl].
  pose proof (load_be_bound l Hb). rewrite Hl in *. unfold fits. lia.
Qed.

Lemma runs_boolean d : dec_ok d -> runs 1 (fun _ => True) amf_load_boolean d.
Proof.
  intros Hd. unfold amf_load_boolean. run_byte t d1 Ht Hd1. case_match; [by apply runs_throw|].
  run_byte b d2 Hb Hd2. (apply runs_ret; [lia|done..]).
Qed.

Lemma runs_key d : dec_ok d -> runs 2 short amf_load_key d.
Proof.
  intros Hd. unfold amf_load_key. run_bytes 2 l d1 Hl Hd1. destruct Hl as [Hb Hl].
  pose proof (load_be_bound l Hb) as H'. rewrite Hl in H'.
  eapply runs_mono; [apply runs_take_bytes; [done|lia]|lia|]. intros s [Hs Hn]. split; [done|]. lia.
Qed.

Lemma runs_load_pairs load n :
  (forall d, dec_ok d -> remaining d < n -> runs 1 loaded_ok load d) ->
  forall fuel object d, dec_ok d -> remaining d < Z.of_nat fuel -> remaining d < n ->
  keys_sorted object -> each loaded_ok (fun k => short k /\ k <> []) object ->
  runs 1 (fun o => keys_sorted o /\ each loaded_ok (fun k => short k /\ k <> []) o)
    (load_pairs load fuel object) d.
Proof.
  intros Hload. induction fuel as [|fuel IH]; intros object d Hd Hfuel Hn Hs He.
  { destruct Hd. unfold remaining in *. lia. }
  cbn [load_pairs]. run 2 short; [done|by apply runs_key|]. intros k d1 Hk Hd1 E1 Hp1 _.
  destruct k as [|b k]; [apply runs_ret; [lia|done..]|].
  assert (remaining d1 + 2 <= remaining d) by (unfold remaining in *; lia).
  run 1 loaded_ok; [done|apply Hload; [done|lia]|]. intros v d2 Hv Hd2 E2 Hp2 _.
  eapply runs_mono; [apply IH; [done|unfold remaining in *; lia..| |]|lia|done].
  - by apply obj_insert_sorted.
  - by apply each_insert.
Qed.

Lemma runs_object {A} (tag : Z) (head : Dec A) load fuel d :
  (forall d, dec_ok d -> runs 0 (fun _ => True) head d) ->
  (forall d, dec_ok d -> remaining d < Z.of_nat fuel -> runs 1 loaded_ok load d) ->
  dec_ok d -> remaining d <= Z.of_nat fuel ->
  runs 1 (fun o => keys_sorted o /\ each loaded_ok (fun k => short k /\ k <> []) o)
    (t ← get_byte;
     if negb (t =? tag) then throw Runtime
     else
       head ;;
       object ← load_pairs load fuel [];
       e ← get_byte;
       if negb (e =? AMF0_OBJECT_END) then throw Runtime else mret object) d.
Proof.
  intros Hhead Hload Hd Hfuel. run_byte t d1 Ht Hd1. case_match; [by apply runs_throw|].
  run 0 (fun _ : A => True); [done|by apply Hhead|]. intros _ d2 _ Hd2 E2 Hp2 _.
  run 0 (fun o => keys_sorted o /\ each loaded_ok (fun k => short k /\ k <> []) o); [done| |].
  - eapply runs_mono; [eapply runs_load_pairs; [exact Hload|done|unfold remaining in *; lia..|constructor|done]|lia|done].
  - intros o d3 Ho Hd3 _ _ _. run_byte e d4 He Hd4. case_match; [by apply runs_throw|].
    (apply runs_ret; [lia|done..]).
Qed.

Lemma runs_amf_load fuel : forall d, dec_ok d -> remaining d < Z.of_nat fuel -> runs 1 loaded_ok (amf_load fuel) d.
Proof.
  induction fuel as [|fuel IH]; intros d Hd Hfuel.
  { destruct Hd. unfold remaining in *. lia. }
  assert (remaining d <= Z.of_nat fuel) as Hle by lia.
  assert (forall n, remaining d <= n -> pos d + 1 <= zlen (buf d) -> forall v, loaded_ok v ->
    runs 1 loaded_ok (skip 1 ;; mret v) d) as Hskip.
  { intros n _ Hp v Hv. run 1 (fun _ : unit => True); [done|apply runs_skip; [done|lia|done]|].
    intros _ d' _ Hd' _ _ _. (apply runs_ret; [lia|done..]). }
  assert (runs 1 (fun o => loaded_ok (VObject o)) (load_object_with (amf_load fuel) fuel) d) as Hobj.
  { refine (runs_object AMF0_OBJECT (mret tt) (amf_load fuel) fuel d _ IH Hd Hle). intros. (apply runs_ret; [lia|done..]). }
  assert (runs 1 (fun o => loaded_ok (VObject o)) (load_ecma_with (amf_load fuel) fuel) d) as Hecma.
  { refine (runs_object AMF0_ECMA_ARRAY (take_bytes 4) (amf_load fuel) fuel d _ IH Hd Hle). intros d1 Hd1.
    eapply runs_mono; [by apply runs_take_bytes|lia|done]. }
  cbn [amf_load]. unfold amf_load_with. apply runs_peek; [done|]. intros t Ht Hp. apply runs_state.
  destruct (version d =? 3) eqn:Ev; repeat (case_match; [first
    [ by apply (Hskip (remaining d)); [lia|lia|..]
    | eapply runs_fmap; [done|by apply runs_string|done]
    | eapply runs_fmap; [done|by apply runs_number|done]
    | eapply runs_fmap; [done|by apply runs_boolean|done]
    | eapply runs_fmap; [done|exact Hobj|done]
    | eapply runs_fmap; [done|exact Hecma|done]
    | eapply runs_fmap; [done| |]; [unfold amf_load_integer; apply runs_state; rewrite Ev; by apply runs_amf3_integer|];
      intros i Hi; exact Hi ]|]); by apply runs_throw.
Qed.

(** *** Objects of one pair *)

Ltac tag_step := repeat first
  [ rewrite Z.eqb_refl; cbn [negb]; cbv iota
  | match goal with |- context [?a =? ?b] => change (a =? b) with false; cbn [negb]; cbv iota end ].
Ltac load_step := cbn [amf_load]; unfold amf_load_with; do 2 dec_step; cbn [version at_]; tag_step.

Lemma undefined_at fuel pre post :
  amf_load (S fuel) (at_ pre (AMF0_UNDEFINED :: post) 0) = (inr VUndefined, at_ (pre ++ [AMF0_UNDEFINED]) post 0).
Proof. load_step. by dec_step. Qed.

Lemma short_number_at fuel pre post : zlen post < 8 ->
  exists d', amf_load (S fuel) (at_ pre (AMF0_NUMBER :: post) 0) = (inl Runtime, d').
Proof.
  intros Hp. load_step. cbv [fmap X_fmap]. eexists. apply x_throw. unfold amf_load_number. dec_step. tag_step.
  apply x_throw. unfold take_bytes. rewrite state_bind. cbn [at_ buf pos].
  by rewrite sub_None by (rewrite !zlen_app; lia).
Qed.

(** The first pair of an object, and the end of its list. *)
Lemma load_pairs_step load fuel acc pre k post r d : short k -> k <> [] ->
  load (at_ (pre ++ enc_key k) post 0) = (r, d) ->
  load_pairs load (S fuel) acc (at_ pre (enc_key k ++ post) 0) =
  match r with inl e => (inl e, d) | inr v => load_pairs load fuel (obj_insert k v acc) d end.
Proof.
  intros Hk Hne E. cbn [load_pairs]. erewrite x_bind by (apply load_key_at; done). destruct k; [done|].
  destruct r as [e|v]; [by rewrite (x_throw _ _ _ _ _ E)|by rewrite (x_bind _ _ _ _ _ E)].
Qed.
Lemma load_pairs_end load fuel acc pre post :
  load_pairs load (S fuel) acc (at_ pre (enc_key [] ++ post) 0) = (inr acc, at_ (pre ++ enc_key []) post 0).
Proof. cbn [load_pairs]. by erewrite x_bind by (apply load_key_at; by repeat constructor). Qed.

Lemma load_undefined_member k fuel : short k -> k <> [] ->
  exists bytes d', amf_load (S (S (S fuel))) (at_ [] bytes 0) = (inr (VObject [(k, VUndefined)]), d').
Proof.
  intros Hk Hne. exists (AMF0_OBJECT :: enc_key k ++ AMF0_UNDEFINED :: enc_key [] ++ [AMF0_OBJECT_END]).
  remember (S (S fuel)) as f eqn:Ef. load_step. unfold load_object_with. cbv [fmap X_fmap].
  eexists. erewrite x_bind; [done|]. dec_step. tag_step. subst f. erewrite x_bind.
  2:{ erewrite load_pairs_step by (first [done|apply undefined_at]). apply load_pairs_end. }
  dec_step. tag_step. done.
Qed.

Lemma load_lost_member k fuel pre rest : short k -> k <> [] -> zlen rest < 6 ->
  exists d', amf_load (S (S fuel)) (at_ pre (AMF0_OBJECT :: enc_key k ++ enc_end ++ rest) 0) = (inl Runtime, d').
Proof.
  intros Hk Hne Hr. remember (S fuel) as f eqn:Ef. load_step. unfold load_object_with. cbv [fmap X_fmap].
  destruct (short_number_at fuel (((pre ++ [AMF0_OBJECT]) ++ enc_key k)) (0 :: AMF0_OBJECT_END :: rest)) as [d' E].
  { rewrite !zlen_cons. lia. }
  exists d'. apply x_throw. dec_step. tag_step. subst f. apply x_throw. by rewrite (load_pairs_step _ _ _ _ _ _ _ _ Hk Hne E).
Qed.

(** ** Properties *)

(** A reply of [handleConnect], with keys in order, and its bytes. *)
Definition demo_value : AMFValue :=
  VObject [([99; 97; 112], VNumber (double_of_int 255)); ([109], VInteger (-3));
           ([111], VObject [([97], VString [104; 105]); ([98], VBoolean true)])].


(** C21: writing stops with the exception [Assert] exactly when there is an ECMA array
    in the value, and adds the bytes of the value otherwise. A value made of
    numbers, 32-bit integers, booleans, nulls, strings of less than 65536 bytes and
    objects with such keys, none empty (so without undefined values and ECMA arrays),
    is read back by a decoder that stands before its bytes, whatever is around them: it
    gets the same value, with integers as numbers, and stops behind the bytes. *)
Theorem amf_roundtrip v :
  (forall out, if has_ecma v then exists out', amf_write v out = (inl Assert, out')
               else amf_write v out = (inr tt, out ++ enc v)) /\
  (writable v -> has_ecma v = false /\ forall pre rest fuel, (length (enc v) < fuel)%nat ->
    amf_load fuel {| buf := pre ++ enc v ++ rest; pos := zlen pre; version := 0 |} =
    (inr (reload v), {| buf := pre ++ enc v ++ rest; pos := zlen pre + zlen (enc v); version := 0 |})).
Proof.
  split; [apply amf_write_enc|]. intros Hv. split; [by apply writable_no_ecma|]. intros pre rest fuel Hf.
  rewrite <-at_app. by apply amf_load_at.
Qed.

(** C24: reading a value from any bytes ends, with as much fuel as bytes are
    left and one turn more: it gives a value or an exception, stays in the
    buffer, and a value it gives is an object of sorted, distinct, non-empty keys
    all the way down, never an ECMA array. *)
Theorem amf_load_total fuel d (Hd : dec_ok d) (Hf : remaining d < Z.of_nat fuel) :
  exists r d', amf_load fuel d = (r, d') /\ buf d' = buf d /\ pos d <= pos d' <= zlen (buf d) /\
    r <> inl OutOfFuel /\ forall v, r = inr v -> loaded_ok v /\ pos d < pos d'.
Proof.
  pose proof (runs_amf_load fuel d Hd Hf) as H. unfold runs in H. destruct (amf_load fuel d) as [r d'].
  destruct H as (E & Hp & Hr). exists r, d'. split; [done|]. split; [done|]. split; [done|]. split.
  - intros ->. done.
  - intros v ->. destruct Hr. split; [done|lia].
Qed.

(** An object with an undefined member is read, but written without the
    value of that member: what was written is refused when fewer than six bytes
    follow it. *)
Theorem undefined_member_lost k pre rest fuel (Hk : short k) (Hne : k <> []) (Hrest : zlen rest < 6)
    (Hf : (3 <= fuel)%nat) (o := VObject [(k, VUndefined)]) :
  (exists bytes d', amf_load fuel {| buf := bytes; pos := 0; version := 0 |} = (inr o, d')) /\
  exists out, amf_write o pre = (inr tt, pre ++ out) /\
    exists d', amf_load fuel {| buf := pre ++ out ++ rest; pos := zlen pre; version := 0 |} = (inl Runtime, d').
Proof.
  destruct fuel as [|[|[|fuel]]]; [lia..|]. split; [by apply load_undefined_member|].
  exists (AMF0_OBJECT :: enc_key k ++ enc_end). split.
  - unfold o. cbn [amf_write write_pairs]. rewrite !append_bind. unfold amf_write_key.
    cbv [mbind X_bind append mret X_ret]. unfold enc_key, enc_end. by rewrite <-!app_assoc.
  - cbn [app]. rewrite <-app_assoc. by apply load_lost_member.
Qed.

(** In AMF3 mode an integer is read as its type byte, 4, and its digits as
    the next value; numbers, objects and arrays are refused. *)
Theorem amf3_values pre post fuel (b : Z) :
  amf_load (S fuel) {| buf := pre ++ AMF3_INTEGER :: post; pos := zlen pre; version := 3 |} =
    (inr (VInteger 4), {| buf := pre ++ AMF3_INTEGER :: post; pos := zlen pre + 1; version := 3 |}) /\
  (b = AMF3_NUMBER \/ b = AMF3_OBJECT \/ b = AMF3_ARRAY ->
    exists d', amf_load (S fuel) {| buf := pre ++ b :: post; pos := zlen pre; version := 3 |} = (inl Runtime, d')).
Proof.
  fold (at_ pre (AMF3_INTEGER :: post) 3) (at_ pre (b :: post) 3). split.
  - load_step. cbv [fmap X_fmap]. erewrite x_bind; [reflexivity|]. unfold amf_load_integer. dec_step. cbn [version at_].
    tag_step. unfold load_amf3_integer. cbn [amf3_loop]. dec_step. cbv [mret X_ret].
    unfold at_. by rewrite <-app_assoc, zlen_app.
  - intros [-> | [-> | ->]]; (eexists; load_step; cbv [fmap X_fmap]; apply x_throw;
      unfold amf_load_number, load_object_with, load_ecma_with; dec_step; by tag_step).
Qed.

Lemma amf_roundtrip_witness :
  writable demo_value /\ (forall out, amf_write demo_value out = (inr tt, out ++ enc demo_value)) /\
  forall pre rest fuel, (length (enc demo_value) < fuel)%nat ->
    amf_load fuel {| buf := pre ++ enc demo_value ++ rest; pos := zlen pre; version := 0 |} =
    (inr (reload demo_value), {| buf := pre ++ enc demo_value ++ rest; pos := zlen pre + zlen (enc demo_value); version := 0 |}).
Proof.
  assert (writable demo_value) as H.
  { cbn [writable demo_value each]. unfold short, fits. repeat split; try done; repeat constructor; done. }
  destruct (amf_roundtrip demo_value) as [Hw Hr]. destruct (Hr H) as [E Hl]. rewrite E in Hw.
  split; [exact H|]. split; [exact Hw|exact Hl].
Defined.

Definition demo_decoder : Decoder := {| buf := [3; 0; 1; 97; 1; 17; 0; 0; 0; 9]; pos := 0; version := 0 |}.

Lemma amf_load_total_witness :
  dec_ok demo_decoder /\ exists r d', amf_load 11 demo_decoder = (r, d') /\ buf d' = buf demo_decoder /\
    0 <= pos d' <= 10 /\ r <> inl OutOfFuel /\ forall v, r = inr v -> loaded_ok v /\ 0 < pos d'.
Proof.
  assert (dec_ok demo_decoder) as H by (split; [done|repeat constructor; done]).
  split; [exact H|]. exact (amf_load_total 11 demo_decoder H ltac:(done)).
Defined.

Lemma undefined_member_lost_witness :
  let o := VObject [([97], VUndefined)] in
  (exists bytes d', amf_load 3 {| buf := bytes; pos := 0; version := 0 |} = (inr o, d')) /\
  exists out, amf_write o [] = (inr tt, [] ++ out) /\
    exists d', amf_load 3 {| buf := [] ++ out ++ [5]; pos := 0; version := 0 |} = (inl Runtime, d').
Proof.
  apply (undefined_member_lost [97] [] [5] 3).
  - by repeat constructor.
  - done.
  - done.
  - lia.
Defined.

Lemma amf3_values_witness :
  exists d', amf_load 1 {| buf := [] ++ AMF3_NUMBER :: be32 0 ++ be32 0; pos := 0; version := 3 |} = (inl Runtime, d').
Proof. apply (proj2 (amf3_values [] (be32 0 ++ be32 0) 0 AMF3_NUMBER)). by left. Defined.
