(* ===== verification/Sdp.v ===== *)
(** * Session descriptions: [svs_adapter_sdp.cpp]

    [CMediaSdp] reads the text a peer describes its media with and writes the one
    the server answers. A text is the list of its bytes; one of 2^32 bytes or more
    is not considered. The pointer to the media a line belongs to is the list
    whose last element it is. *)

From Stdlib Require Import String.
From S2P Require Import Prelude Text.
Open Scope Z_scope.

(** ** Data *)

Inductive TRANS_DIRECTION : Set :=
| TRANS_DIRECTION_RECVONLY | TRANS_DIRECTION_SENDONLY | TRANS_DIRECTION_SENDRECV | TRANS_DIRECTION_MAX.
Inductive SDP_STATUS : Set := SDP_GLOBAL_INFO | SDP_VIDEO_INFO | SDP_AUDIO_INFO.

Record SDP_MEDIA_INFO : Type := {
  ucPayloadType : Z; usPort : Z; strRtpmap : list Z; strFmtp : list Z; strControl : list Z }.

Record CMediaSdp : Type := {
  m_unSession : Z; m_strOwner : list Z; m_strSessionName : list Z; m_strUrl : list Z;
  m_strConnAddr : list Z; m_range : list Z; m_strSsrc : list Z; m_bSetFormat : bool;
  m_str28181Format : list Z; m_enTransDirect : TRANS_DIRECTION;
  m_VideoInfoList : list SDP_MEDIA_INFO; m_AudioInfoList : list SDP_MEDIA_INFO;
  m_enParseStatus : SDP_STATUS }.

Definition CMediaSdp_new : CMediaSdp :=
  {| m_unSession := 0; m_strOwner := chars "vds"; m_strSessionName := chars "allcamera media server";
     m_strUrl := []; m_strConnAddr := chars "vds.allcam.com.cn"; m_range := []; m_strSsrc := [];
     m_bSetFormat := false; m_str28181Format := []; m_enTransDirect := TRANS_DIRECTION_MAX;
     m_VideoInfoList := []; m_AudioInfoList := []; m_enParseStatus := SDP_GLOBAL_INFO |}.

Definition set_name (x : list Z) (t : CMediaSdp) : CMediaSdp :=
  let '(Build_CMediaSdp s o _ u c r y b f d v a p) := t in Build_CMediaSdp s o x u c r y b f d v a p.
Definition set_url (x : list Z) (t : CMediaSdp) : CMediaSdp :=
  let '(Build_CMediaSdp s o n _ c r y b f d v a p) := t in Build_CMediaSdp s o n x c r y b f d v a p.
Definition set_conn (x : list Z) (t : CMediaSdp) : CMediaSdp :=
  let '(Build_CMediaSdp s o n u _ r y b f d v a p) := t in Build_CMediaSdp s o n u x r y b f d v a p.
Definition set_media_range (x : list Z) (t : CMediaSdp) : CMediaSdp :=
  let '(Build_CMediaSdp s o n u c _ y b f d v a p) := t in Build_CMediaSdp s o n u c x y b f d v a p.
Definition set_ssrc (x : list Z) (t : CMediaSdp) : CMediaSdp :=
  let '(Build_CMediaSdp s o n u c r _ b f d v a p) := t in Build_CMediaSdp s o n u c r x b f d v a p.
Definition setTransDirect (x : TRANS_DIRECTION) (t : CMediaSdp) : CMediaSdp :=
  let '(Build_CMediaSdp s o n u c r y b f _ v a p) := t in Build_CMediaSdp s o n u c r y b f x v a p.
Definition set_video (x : list SDP_MEDIA_INFO) (t : CMediaSdp) : CMediaSdp :=
  let '(Build_CMediaSdp s o n u c r y b f d _ a p) := t in Build_CMediaSdp s o n u c r y b f d x a p.
Definition set_audio (x : list SDP_MEDIA_INFO) (t : CMediaSdp) : CMediaSdp :=
  let '(Build_CMediaSdp s o n u c r y b f d v _ p) := t in Build_CMediaSdp s o n u c r y b f d v x p.
Definition set_status (x : SDP_STATUS) (t : CMediaSdp) : CMediaSdp :=
  let '(Build_CMediaSdp s o n u c r y b f d v a _) := t in Build_CMediaSdp s o n u c r y b f d v a x.

(** ** Media *)

Definition PT_TYPE_PCMU := 0.
Definition PT_TYPE_PCMA := 8.
Definition PT_TYPE_MJPEG := 26.
Definition PT_TYPE_PS := 96.
Definition PT_TYPE_MPEG4 := 97.
Definition PT_TYPE_H264 := 98.
Definition PT_TYPE_H265 := 99.
Definition PT_TYPE_AAC := 100.
Definition INVALID_PAYLOAD_TYPE := 255.

Definition with_rtpmap (x : list Z) (i : SDP_MEDIA_INFO) : SDP_MEDIA_INFO :=
  {| ucPayloadType := ucPayloadType i; usPort := usPort i; strRtpmap := x; strFmtp := strFmtp i; strControl := strControl i |}.
Definition with_fmtp (x : list Z) (i : SDP_MEDIA_INFO) : SDP_MEDIA_INFO :=
  {| ucPayloadType := ucPayloadType i; usPort := usPort i; strRtpmap := strRtpmap i; strFmtp := x; strControl := strControl i |}.
Definition with_control (x : list Z) (i : SDP_MEDIA_INFO) : SDP_MEDIA_INFO :=
  {| ucPayloadType := ucPayloadType i; usPort := usPort i; strRtpmap := strRtpmap i; strFmtp := strFmtp i; strControl := x |}.

Definition default_video (pt : Z) : list Z :=
  if pt =? PT_TYPE_MJPEG then chars "JPEG/90000"
  else if pt =? PT_TYPE_PS then chars "PS/90000"
  else if pt =? PT_TYPE_MPEG4 then chars "MP4V-ES/90000"
  else if pt =? PT_TYPE_H264 then chars "H264/90000"
  else if pt =? PT_TYPE_H265 then chars "H265/90000"
  else chars "H264/90000".

Definition addVideoInfo (info : SDP_MEDIA_INFO) (this : CMediaSdp) : CMediaSdp :=
  let info := match strRtpmap info with [] => with_rtpmap (default_video (ucPayloadType info)) info | _ => info end in
  set_video (m_VideoInfoList this ++ [info]) this.

Definition default_audio (pt : Z) : list Z :=
  if pt =? PT_TYPE_PCMA then chars "PCMA/8000" else if pt =? PT_TYPE_PCMU then chars "PCMU/8000" else [].

Definition addAudioInfo (info : SDP_MEDIA_INFO) (this : CMediaSdp) : CMediaSdp :=
  let info := match strRtpmap info with [] => with_rtpmap (default_audio (ucPayloadType info)) info | _ => info end in
  set_audio (m_AudioInfoList this ++ [info]) this.

(** [ulClockFre] is printed with [%d]. [None]: the payload is not supported, and
    the text stays as it is. *)
Definition rtpmap_name (ucPT : Z) : option (list Z) :=
  if ucPT =? PT_TYPE_PCMU then Some (chars "PCMU")
  else if ucPT =? PT_TYPE_PCMA then Some (chars "PCMA")
  else if ucPT =? PT_TYPE_AAC then Some (chars "MPEG4-GENERIC")
  else if ucPT =? PT_TYPE_MJPEG then Some (chars "JPEG")
  else if ucPT =? PT_TYPE_MPEG4 then Some (chars "MP4V-ES")
  else if ucPT =? PT_TYPE_H264 then Some (chars "H264")
  else if ucPT =? PT_TYPE_H265 then Some (chars "H265")
  else None.

Definition decimal_int (n : Z) : list Z :=
  if n <? 2 ^ 31 then decimal n else 45 :: decimal (2 ^ 32 - n).

Definition makeRtpmap (strRtpmap : list Z) (ucPT ulClockFre : Z) : list Z :=
  match rtpmap_name ucPT with
  | Some strName => strName ++ 47 :: decimal_int ulClockFre
  | None => strRtpmap
  end.

(** The media are put behind those that are there. *)
Definition copy (rtspSdp this : CMediaSdp) : CMediaSdp :=
  set_status SDP_GLOBAL_INFO
    (set_audio (m_AudioInfoList this ++ m_AudioInfoList rtspSdp)
      (set_video (m_VideoInfoList this ++ m_VideoInfoList rtspSdp)
        (set_conn (m_strConnAddr rtspSdp) (set_name (m_strSessionName rtspSdp)
          (set_media_range (m_range rtspSdp) (set_url (m_strUrl rtspSdp) this)))))).

(** The number of a GB28181 stream: the kind of play, digits of the zone and of
    the server, and two characters of the index. The texts of the service are
    given by what lies in memory; [None]: read behind it. *)
Inductive PLAY_TYPE : Set := PLAY_TYPE_LIVE | PLAY_TYPE_PLAT_RECORD | PLAY_TYPE_FRONT_RECORD | PLAY_TYPE_MAX.

Fixpoint c_str (l : list Z) : list Z :=
  match l with [] => [] | c :: l => if c =? 0 then [] else c :: c_str l end.

(** ["%04d"] of a number that is not negative. *)
Definition pad4 (n : Z) : list Z := let d := decimal n in replicate (4 - length d) 48 ++ d.

Definition setSsrcByGB28181Dev (zone server : list Z) (enPlayType : PLAY_TYPE) (ulIndex : Z) (this : CMediaSdp)
    : option CMediaSdp :=
  z ← sub zone 3 5;
  v ← sub server 18 2;
  let first := match enPlayType with PLAY_TYPE_LIVE => 48 | PLAY_TYPE_FRONT_RECORD => 49 | _ => 0 end in
  let Num := Z.land ulIndex 255 in
  let szSsrc := first :: z ++ v ++ take 2 (pad4 Num) in
  Some (set_ssrc (c_str szSsrc) this).

(** ** Reading *)

Definition tolower (c : Z) : Z := if (65 <=? c) && (c <=? 90) then c + 32 else c.

Definition ends_line (c : Z) : bool := (c =? 0) || (c =? 10) || (c =? 13).

(** [None]: the text ends first. *)
Fixpoint getNextLine (s : list Z) : option (list Z * list Z) :=
  match s with
  | [] => None
  | c :: s => if ends_line c then Some ([], s) else '(l, rest) ← getNextLine s; Some (c :: l, rest)
  end.

Definition parseConnDesc (s : list Z) (this : CMediaSdp) : SVS_RET_CODE * CMediaSdp :=
  match split_at 32 s with
  | None => (RET_FAIL, this)
  | Some (_, s) =>
    match split_at 32 (skip_space s) with
    | None => (RET_FAIL, this)
    | Some (_, s) => (RET_OK, set_conn (skip_space s) this)
    end
  end.

Definition parseTimeDesc (s : list Z) (this : CMediaSdp) : SVS_RET_CODE * CMediaSdp := (RET_OK, this).

(** The list whose last element the pointer points to. *)
Inductive media : Set := Video | Audio.

Definition new_info (pt : Z) : SDP_MEDIA_INFO :=
  {| ucPayloadType := pt; usPort := 0; strRtpmap := []; strFmtp := []; strControl := [] |}.

Definition add_info (audio : bool) (i : SDP_MEDIA_INFO) (this : CMediaSdp) : CMediaSdp :=
  if audio then set_audio (m_AudioInfoList this ++ [i]) (set_status SDP_AUDIO_INFO this)
  else set_video (m_VideoInfoList this ++ [i]) (set_status SDP_VIDEO_INFO this).

Definition parseMediaDesc (s : list Z) (pMediaInfo : option media) (this : CMediaSdp)
    : SVS_RET_CODE * option media * CMediaSdp :=
  let cType := match s with c :: _ => tolower c | [] => 0 end in
  if negb (cType =? 118) && negb (cType =? 97) then (RET_OK, pMediaInfo, set_status SDP_GLOBAL_INFO this)
  else
    match split_at 32 s with
    | None => (RET_FAIL, pMediaInfo, this)
    | Some (_, s) =>
    match split_at 32 (skip_space s) with
    | None => (RET_FAIL, pMediaInfo, this)
    | Some (_, s) =>
    match split_at 32 (skip_space s) with
    | None => (RET_FAIL, pMediaInfo, this)
    | Some (_, s) =>
      match skip_space s with
      | [] => (RET_FAIL, pMediaInfo, this)
      | s => (RET_OK, Some (if cType =? 118 then Video else Audio),
              add_info (negb (cType =? 118)) (new_info (u8 (atoi s))) this)
      end
    end end end.

Fixpoint update_last {A} (f : A -> A) (l : list A) : list A :=
  match l with [] => [] | [x] => [f x] | x :: l => x :: update_last f l end.

Definition on_info (f : SDP_MEDIA_INFO -> SDP_MEDIA_INFO) (p : media) (this : CMediaSdp) : CMediaSdp :=
  match p with
  | Video => set_video (update_last f (m_VideoInfoList this)) this
  | Audio => set_audio (update_last f (m_AudioInfoList this)) this
  end.

(** [strncmp] with a text that is shorter than [s]. *)
Definition attr (name : string) (s : list Z) : bool := (zlen (chars name) <? zlen s) && starts (chars name) s.

Definition parse_direct (s : list Z) (this : CMediaSdp) : CMediaSdp :=
  if zlen s <=? zlen (chars "recvonly") then this
  else if starts (chars "recvonly") s then setTransDirect TRANS_DIRECTION_RECVONLY this
  else if starts (chars "sendonly") s then setTransDirect TRANS_DIRECTION_SENDONLY this
  else if starts (chars "sendrecv") s then setTransDirect TRANS_DIRECTION_SENDRECV this
  else this.

Definition parseAttributes (s : list Z) (pMediaInfo : option media) (this : CMediaSdp) : SVS_RET_CODE * CMediaSdp :=
  match pMediaInfo with
  | None => (RET_FAIL, this)
  | Some p =>
    match m_enParseStatus this with
    | SDP_GLOBAL_INFO =>
      (RET_OK, if attr "control:" s then set_url (drop (length (chars "control:")) s) this else this)
    | _ =>
      if attr "rtpmap:" s then
        match split_at 32 s with
        | None => (RET_FAIL, this)
        | Some (_, s) => (RET_OK, on_info (with_rtpmap s) p this)
        end
      else if attr "fmtp:" s then
        match split_at 32 s with
        | None => (RET_FAIL, this)
        | Some (_, s) => (RET_OK, on_info (with_fmtp s) p this)
        end
      else if attr "control:" s then (RET_OK, on_info (with_control (drop (length (chars "control:")) s)) p this)
      else if starts (chars "range") s then (RET_OK, set_media_range s this)
      else (RET_OK, parse_direct s this)
    end
  end.

Record decoder : Type := { d_this : CMediaSdp; d_pMediaInfo : option media; d_bFirst : bool }.

(** The statement [cCode=s]. *)
Definition decode_statement (cCode : Z) (s : list Z) (d : decoder) : SVS_RET_CODE * decoder :=
  let this := d_this d in
  let keep '(r, this) := (r, {| d_this := this; d_pMediaInfo := d_pMediaInfo d; d_bFirst := false |}) in
  let c := tolower cCode in
  if c =? 115 then keep (RET_OK, set_name s this)
  else if c =? 99 then keep (parseConnDesc s this)
  else if c =? 116 then keep (parseTimeDesc s this)
  else if c =? 109 then
    let '(r, p, this) := parseMediaDesc s (d_pMediaInfo d) this in
    (r, {| d_this := this; d_pMediaInfo := p; d_bFirst := false |})
  else if c =? 97 then keep (parseAttributes s (d_pMediaInfo d) this)
  else if c =? 117 then keep (RET_OK, set_url s this)
  else keep (RET_OK, this).

(** One line. [None]: [decodeSdp] returns [RET_FAIL] at once. *)
Definition decode_line (l : list Z) (d : decoder) : option SVS_RET_CODE * decoder :=
  match skip_space l with
  | [] => (Some RET_OK, d)
  | cCode :: s =>
    match skip_space s with
    | c :: s =>
      if negb (c =? 61) then (None, d)
      else if negb (tolower cCode =? 118) && d_bFirst d then (None, d)
      else let '(r, d) := decode_statement cCode (skip_space s) d in (Some r, d)
    | [] => (None, d)
    end
  end.

Fixpoint decode_loop (fuel : nat) (s : list Z) (d : decoder) : option (option SVS_RET_CODE * decoder) :=
  match fuel with
  | O => None
  | S fuel =>
    match getNextLine s with
    | None => Some (Some RET_OK, d)
    | Some (l, s) =>
      match decode_line l d with
      | (Some RET_OK, d) => decode_loop fuel s d
      | r => Some r
      end
    end
  end.

(** [None]: out of fuel. *)
Definition decodeSdp (strSdp : list Z) (this : CMediaSdp) : option (SVS_RET_CODE * CMediaSdp) :=
  match strSdp with
  | [] => Some (RET_FAIL, this)
  | _ =>
    '(r, d) ← decode_loop (S (length strSdp)) strSdp {| d_this := this; d_pMediaInfo := None; d_bFirst := true |};
    let this := d_this d in
    match r with
    | None => Some (RET_FAIL, this)
    | Some nRet =>
      match m_VideoInfoList this, m_AudioInfoList this with
      | [], [] => Some (RET_FAIL, this)
      | _, _ => Some (nRet, this)
      end
    end
  end.

(** ** Writing *)

Definition RTSP_END_TAG : list Z := [13; 10].

Definition payloads (l : list SDP_MEDIA_INFO) : list Z := concat ((fun i => 32 :: decimal (ucPayloadType i)) <$> l).

Definition encode_info (url : list Z) (i : SDP_MEDIA_INFO) : list Z :=
  match strFmtp i with
  | [] => chars "a=rtpmap:" ++ decimal (ucPayloadType i) ++ 32 :: strRtpmap i ++ RTSP_END_TAG
  | f => f ++ RTSP_END_TAG
  end ++
  match strControl i, url with
  | [], [] => []
  | [], u => chars "a=control:" ++ u ++ RTSP_END_TAG
  | c, _ => chars "a=control:" ++ c ++ RTSP_END_TAG
  end.

(** The caller has seen that the list is not empty. *)
Definition encodeMediaDesc (audio : bool) (this : CMediaSdp) : list Z :=
  let l := if audio then m_AudioInfoList this else m_VideoInfoList this in
  match l with
  | [] => []
  | i :: _ =>
    (if audio then chars "m=audio " else chars "m=video ") ++ decimal (usPort i) ++ chars " RTP/AVP" ++
    payloads l ++ RTSP_END_TAG ++ concat (encode_info (m_strUrl this) <$> l)
  end.

Definition encodeSdp (isplayback : Z) (timeRange : list Z) (this : CMediaSdp) : list Z :=
  let conn := m_strConnAddr this in
  chars "v=0" ++ RTSP_END_TAG ++
  chars "o=" ++ m_strOwner this ++ 32 :: decimal (m_unSession this) ++ chars " 0 IN IP4 " ++
  (match conn with [] => chars "vds.allcam.com" | _ => conn end) ++ RTSP_END_TAG ++
  chars "s=" ++ m_strSessionName this ++ RTSP_END_TAG ++
  (match conn with [] => [] | _ => chars "c=IN IP4 " ++ conn ++ RTSP_END_TAG end) ++
  chars "t=0 0" ++ RTSP_END_TAG ++
  (if isplayback =? 1
   then chars "a=" ++ m_range this ++ RTSP_END_TAG ++ chars "a=length:" ++ timeRange ++ RTSP_END_TAG else []) ++
  encodeMediaDesc false this ++ encodeMediaDesc true this ++
  match m_enTransDirect this with
  | TRANS_DIRECTION_RECVONLY => chars "a=recvonly" ++ RTSP_END_TAG
  | TRANS_DIRECTION_SENDONLY => chars "a=sendonly" ++ RTSP_END_TAG
  | TRANS_DIRECTION_SENDRECV => chars "a=sendrecv" ++ RTSP_END_TAG
  | TRANS_DIRECTION_MAX => []
  end ++
  (match m_strSsrc this with [] => [] | y => chars "y=" ++ y ++ RTSP_END_TAG end) ++
  (if m_bSetFormat this then chars "f=" ++ m_str28181Format this ++ RTSP_END_TAG else []).

(** ** Lines *)

(** A text on one line. *)
Definition one_line (s : list Z) : Prop := Forall (fun c => ends_line c = false) s.
#[export] Instance one_line_dec s : Decision (one_line s).
Proof. unfold one_line. apply _. Defined.

Ltac const_line := apply (bool_decide_unpack _); vm_compute; reflexivity.
Ltac solve_line := repeat match goal with
  | _ => assumption
  | |- Forall _ [] => constructor
  | |- one_line [] => constructor
  | |- one_line (chars _) => const_line
  | |- Forall _ (chars _) => const_line
  | |- one_line (_ ++ _) => apply Forall_app_2
  | |- Forall _ (_ ++ _) => apply Forall_app_2
  | |- one_line (_ :: _) => apply Forall_cons; split; [reflexivity|]
  | |- Forall (fun c => ends_line c = false) (_ :: _) => apply Forall_cons; split; [reflexivity|]
  end.
Ltac each_line := repeat match goal with
  | |- Forall one_line (_ :: _) => apply Forall_cons; split
  | |- Forall one_line [] => constructor
  end; solve_line.

Lemma one_line_app a b : one_line (a ++ b) <-> one_line a /\ one_line b.
Proof. apply Forall_app. Qed.

Lemma one_line_decimal n : fits 64 n -> one_line (decimal n).
Proof.
  intros Hn. destruct (decimal_ok n Hn) as [Hd _]. eapply Forall_impl; [exact Hd|].
  cbn. intros c. unfold is_digit, ends_line. lia.
Qed.

Definition text (ls : list (list Z)) : list Z := concat ((fun l => l ++ RTSP_END_TAG) <$> ls).

Lemma text_cons l ls : text (l :: ls) = l ++ RTSP_END_TAG ++ text ls.
Proof. unfold text. cbn. by rewrite <-app_assoc. Qed.
Lemma text_app a b : text (a ++ b) = text a ++ text b.
Proof. unfold text. by rewrite fmap_app, concat_app. Qed.

Lemma getNextLine_ends l c rest : one_line l -> ends_line c = true -> getNextLine (l ++ c :: rest) = Some (l, rest).
Proof. induction 1 as [|x l Hx _ IH]; intros Hc; cbn; [by rewrite Hc|]. by rewrite Hx, IH. Qed.

Lemma getNextLine_shorter s l rest : getNextLine s = Some (l, rest) -> (length rest < length s)%nat.
Proof.
  revert l. induction s as [|c s IH]; intros l; cbn; [done|]. destruct (ends_line c); [intros [=]; subst; lia|].
  destruct (getNextLine s) as [[l' r]|]; cbn; [|done]. intros [=]; subst. specialize (IH l' eq_refl). lia.
Qed.

(** The statements of a text of whole lines, one after the other. *)
Fixpoint run (ls : list (list Z)) (d : decoder) : option SVS_RET_CODE * decoder :=
  match ls with
  | [] => (Some RET_OK, d)
  | l :: ls => match decode_line l d with (Some RET_OK, d) => run ls d | r => r end
  end.

Lemma run_lines_app a b d d' : run a d = (Some RET_OK, d') -> run (a ++ b) d = run b d'.
Proof.
  revert d. induction a as [|l a IH]; intros d; cbn; [by intros [= ->]|].
  destruct (decode_line l d) as [[[]|] d1]; try done. apply IH.
Qed.

Lemma run_cons l ls d d' : decode_line l d = (Some RET_OK, d') -> run (l :: ls) d = run ls d'.
Proof. intros H. cbn. by rewrite H. Qed.

Lemma decode_loop_text ls : forall fuel d, Forall one_line ls -> (length (text ls) < fuel)%nat ->
  decode_loop fuel (text ls) d = Some (run ls d).
Proof.
  induction ls as [|l ls IH]; intros fuel d Hl Hf; [by destruct fuel; [lia|]|].
  apply Forall_cons in Hl as [Hl Hls]. rewrite text_cons in *. rewrite !length_app in Hf. cbn [length RTSP_END_TAG] in Hf.
  destruct fuel as [|[|fuel]]; [lia..|]. cbn [decode_loop run RTSP_END_TAG app].
  rewrite getNextLine_ends by done. destruct (decode_line l d) as [[[]|] d']; try done.
  cbn. apply IH; [done|lia].
Qed.

Lemma decodeSdp_text ls this : ls <> [] -> Forall one_line ls ->
  let '(r, d) := run ls {| d_this := this; d_pMediaInfo := None; d_bFirst := true |} in
  decodeSdp (text ls) this =
    Some (match r, m_VideoInfoList (d_this d) ++ m_AudioInfoList (d_this d) with
          | Some r, _ :: _ => r | _, _ => RET_FAIL end, d_this d).
Proof.
  intros Hne Hl. destruct (run ls _) as [r d] eqn:E. unfold decodeSdp.
  rewrite decode_loop_text, E by (done || lia).
  destruct (text ls) eqn:Et; [by destruct ls as [|[|??] ?]|]. cbn.
  destruct r; [|done]. by destruct (m_VideoInfoList _), (m_AudioInfoList _).
Qed.

(** ** What is written is a text of lines *)

Definition ctl (url : list Z) (i : SDP_MEDIA_INFO) : list Z := match strControl i with [] => url | c => c end.

Definition info_lines (url : list Z) (i : SDP_MEDIA_INFO) : list (list Z) :=
  (match strFmtp i with [] => chars "a=rtpmap:" ++ decimal (ucPayloadType i) ++ 32 :: strRtpmap i | f => f end) ::
  match ctl url i with [] => [] | c => [chars "a=control:" ++ c] end.

Definition media_lines (audio : bool) (this : CMediaSdp) : list (list Z) :=
  let l := if audio then m_AudioInfoList this else m_VideoInfoList this in
  match l with
  | [] => []
  | i :: _ =>
    ((if audio then chars "m=audio " else chars "m=video ") ++ decimal (usPort i) ++ chars " RTP/AVP" ++ payloads l) ::
    concat (info_lines (m_strUrl this) <$> l)
  end.

Definition conn_lines (conn : list Z) : list (list Z) :=
  match conn with [] => [] | c => [chars "c=IN IP4 " ++ c] end.

Definition head_lines (this : CMediaSdp) : list (list Z) :=
  [chars "v=0";
   chars "o=" ++ m_strOwner this ++ 32 :: decimal (m_unSession this) ++ chars " 0 IN IP4 " ++
     match m_strConnAddr this with [] => chars "vds.allcam.com" | _ => m_strConnAddr this end;
   chars "s=" ++ m_strSessionName this] ++
  conn_lines (m_strConnAddr this) ++ [chars "t=0 0"].

Definition range_lines (isplayback : Z) (timeRange : list Z) (this : CMediaSdp) : list (list Z) :=
  if isplayback =? 1 then [chars "a=" ++ m_range this; chars "a=length:" ++ timeRange] else [].

Definition direct_lines (d : TRANS_DIRECTION) : list (list Z) :=
  match d with
  | TRANS_DIRECTION_RECVONLY => [chars "a=recvonly"]
  | TRANS_DIRECTION_SENDONLY => [chars "a=sendonly"]
  | TRANS_DIRECTION_SENDRECV => [chars "a=sendrecv"]
  | TRANS_DIRECTION_MAX => []
  end.

Definition tail_lines (this : CMediaSdp) : list (list Z) :=
  direct_lines (m_enTransDirect this) ++
  match m_strSsrc this with [] => [] | y => [chars "y=" ++ y] end ++
  (if m_bSetFormat this then [chars "f=" ++ m_str28181Format this] else []).

Definition sdp_lines (isplayback : Z) (timeRange : list Z) (this : CMediaSdp) : list (list Z) :=
  head_lines this ++ range_lines isplayback timeRange this ++
  media_lines false this ++ media_lines true this ++ tail_lines this.

Lemma text_nil : text [] = [].
Proof. done. Qed.
Create HintDb sdp.
#[export] Hint Rewrite text_cons text_app text_nil : sdp.
Ltac text_eq := repeat progress (autorewrite with sdp; rewrite <-?app_assoc; cbn [app]); rewrite ?app_nil_r.

Lemma encode_info_text url i : encode_info url i = text (info_lines url i).
Proof.
  unfold encode_info, info_lines, ctl. destruct (strFmtp i) eqn:?, (strControl i) eqn:?, url; text_eq; done.
Qed.

Lemma encodeMediaDesc_text audio this : encodeMediaDesc audio this = text (media_lines audio this).
Proof.
  unfold encodeMediaDesc, media_lines. destruct (if audio then _ else _) as [|i l]; [done|]. text_eq.
  do 6 f_equal. induction (i :: l) as [|j k IH]; [done|]. rewrite !fmap_cons. cbn [concat].
  by rewrite text_app, encode_info_text, IH.
Qed.

Lemma conn_lines_text c : (match c with [] => [] | _ => chars "c=IN IP4 " ++ c ++ RTSP_END_TAG end) = text (conn_lines c).
Proof. destruct c; [done|]. unfold conn_lines. by text_eq. Qed.

Lemma range_lines_text p t this :
  (if p =? 1 then chars "a=" ++ m_range this ++ RTSP_END_TAG ++ chars "a=length:" ++ t ++ RTSP_END_TAG else []) =
  text (range_lines p t this).
Proof. unfold range_lines. destruct (p =? 1); [|done]. by text_eq. Qed.

Lemma tail_lines_text this :
  match m_enTransDirect this with
  | TRANS_DIRECTION_RECVONLY => chars "a=recvonly" ++ RTSP_END_TAG
  | TRANS_DIRECTION_SENDONLY => chars "a=sendonly" ++ RTSP_END_TAG
  | TRANS_DIRECTION_SENDRECV => chars "a=sendrecv" ++ RTSP_END_TAG
  | TRANS_DIRECTION_MAX => []
  end ++ (match m_strSsrc this with [] => [] | y => chars "y=" ++ y ++ RTSP_END_TAG end) ++
  (if m_bSetFormat this then chars "f=" ++ m_str28181Format this ++ RTSP_END_TAG else []) = text (tail_lines this).
Proof.
  unfold tail_lines. rewrite !text_app. f_equal; [by destruct (m_enTransDirect this)|].
  f_equal; [destruct (m_strSsrc this); [done|by text_eq]|destruct (m_bSetFormat this); [by text_eq|done]].
Qed.

Lemma encodeSdp_text p t this : encodeSdp p t this = text (sdp_lines p t this).
Proof.
  unfold encodeSdp, sdp_lines, head_lines. rewrite !encodeMediaDesc_text, conn_lines_text, range_lines_text, tail_lines_text.
  text_eq. reflexivity.
Qed.

(** ** The texts that can be written *)

Record info_ok (i : SDP_MEDIA_INFO) : Prop := {
  io_pt : fits 8 (ucPayloadType i); io_port : fits 16 (usPort i);
  io_rtpmap : one_line (strRtpmap i); io_control : one_line (strControl i) }.

Record sdp_ok (this : CMediaSdp) : Prop := {
  so_session : fits 32 (m_unSession this); so_owner : one_line (m_strOwner this);
  so_name : one_line (m_strSessionName this) /\ skip_space (m_strSessionName this) = m_strSessionName this;
  so_conn : one_line (m_strConnAddr this) /\ skip_space (m_strConnAddr this) = m_strConnAddr this;
  so_url : one_line (m_strUrl this); so_range : one_line (m_range this); so_ssrc : one_line (m_strSsrc this);
  so_format : one_line (m_str28181Format this);
  so_video : Forall info_ok (m_VideoInfoList this); so_audio : Forall info_ok (m_AudioInfoList this) }.

Definition no_fmtp (l : list SDP_MEDIA_INFO) : Prop := Forall (fun i => strFmtp i = []) l.

Lemma decimal_line w n : fits w n -> 0 <= w <= 64 -> one_line (decimal n).
Proof. intros H Hw. eapply one_line_decimal, fits_mono; eauto. Qed.

Lemma info_lines_ok url i : one_line url -> info_ok i -> one_line (strFmtp i) -> Forall one_line (info_lines url i).
Proof.
  intros Hu [Hp _ Hr Hc] Hf. pose proof (decimal_line 8 _ Hp ltac:(lia)). unfold info_lines.
  apply Forall_cons. split; [destruct (strFmtp i); [solve_line|done]|].
  assert (one_line (ctl url i)) as Hx by (unfold ctl; by destruct (strControl i)).
  destruct (ctl url i) eqn:E; [constructor|]. apply Forall_singleton. rewrite <-E in *. solve_line.
Qed.

Lemma payloads_line l : Forall info_ok l -> one_line (payloads l).
Proof.
  induction 1 as [|i l [Hp _ _ _] _ IH]; unfold payloads; cbn; [constructor|].
  apply Forall_cons. split; [done|]. apply Forall_app_2; [by eapply decimal_line|done].
Qed.

Lemma media_lines_ok (audio : bool) this : one_line (m_strUrl this) ->
  Forall info_ok (if audio then m_AudioInfoList this else m_VideoInfoList this) ->
  Forall (fun i => one_line (strFmtp i)) (if audio then m_AudioInfoList this else m_VideoInfoList this) ->
  Forall one_line (media_lines audio this).
Proof.
  intros Hu Hl Hf. unfold media_lines.
  destruct (if audio then m_AudioInfoList this else m_VideoInfoList this) as [|i l]; [constructor|].
  apply Forall_cons. split.
  - assert (one_line (payloads (i :: l))) by by apply payloads_line.
    apply Forall_cons in Hl as [[_ Hp _ _] _].
    pose proof (decimal_line 16 _ Hp ltac:(lia)). destruct audio; solve_line.
  - induction Hl as [|j k Hj _ IH]; [constructor|]. apply Forall_cons in Hf as [Hf1 Hf2].
    rewrite fmap_cons. cbn [concat]. apply Forall_app_2; [by apply info_lines_ok|by apply IH].
Qed.

Lemma sdp_lines_ok p t this : sdp_ok this -> one_line t ->
  Forall (fun i => one_line (strFmtp i)) (m_VideoInfoList this ++ m_AudioInfoList this) ->
  Forall one_line (sdp_lines p t this).
Proof.
  intros [Hs Ho [Hn _] [Hc _] Hu Hr Hy Hf Hv Ha] Ht [Hfv Hfa]%Forall_app.
  pose proof (decimal_line 32 _ Hs ltac:(lia)).
  unfold sdp_lines, head_lines, range_lines, tail_lines, conn_lines, direct_lines.
  assert (one_line (match m_strConnAddr this with [] => chars "vds.allcam.com" | _ => m_strConnAddr this end)).
  { destruct (m_strConnAddr this); [solve_line|done]. }
  repeat apply Forall_app_2; try (by apply media_lines_ok).
  - each_line.
  - destruct (m_strConnAddr this) eqn:E; [constructor|]. rewrite <-E in *. each_line.
  - each_line.
  - destruct (p =? 1); [|constructor]. each_line.
  - destruct (m_enTransDirect this); each_line.
  - destruct (m_strSsrc this) eqn:E; [constructor|]. rewrite <-E in *. each_line.
  - destruct (m_bSetFormat this); each_line.
Qed.

(** ** What the lines do *)

Lemma update_last_snoc {A} (f : A -> A) l x : update_last f (l ++ [x]) = l ++ [f x].
Proof. induction l as [|y l IH]; [done|]. cbn. rewrite IH. by destruct l. Qed.

Definition media_of (audio : bool) : media := if audio then Audio else Video.

Lemma on_info_add f audio i this :
  on_info f (media_of audio) (add_info audio i this) = add_info audio (f i) this.
Proof. destruct this, audio; cbn; by rewrite update_last_snoc. Qed.

(** The decoder while it reads what belongs to the last [m=]. *)
Definition reading (audio : bool) (i : SDP_MEDIA_INFO) (this : CMediaSdp) : decoder :=
  {| d_this := add_info audio i this; d_pMediaInfo := Some (media_of audio); d_bFirst := false |}.

Lemma reading_status audio i this : m_enParseStatus (add_info audio i this) <> SDP_GLOBAL_INFO.
Proof. by destruct this, audio. Qed.

Lemma statement_line cCode s d : is_space cCode = false -> d_bFirst d = false ->
  decode_line (cCode :: 61 :: s) d = let '(r, d') := decode_statement cCode (skip_space s) d in (Some r, d').
Proof. intros Hc Hd. unfold decode_line. cbn [skip_space]. rewrite Hc. cbn. by rewrite Hd, andb_false_r. Qed.

Lemma attr_line s f audio i this : skip_space s = s ->
  (forall this p, m_enParseStatus this <> SDP_GLOBAL_INFO ->
    parseAttributes s (Some p) this = (RET_OK, on_info f p this)) ->
  decode_line (97 :: 61 :: s) (reading audio i this) = (Some RET_OK, reading audio (f i) this).
Proof.
  intros Hs H. rewrite statement_line, Hs by done. unfold decode_statement. cbn -[parseAttributes].
  rewrite H by apply reading_status. unfold reading. by rewrite on_info_add.
Qed.

Lemma rtpmap_line pt x audio i this : fits 8 pt ->
  decode_line (chars "a=rtpmap:" ++ decimal pt ++ 32 :: x) (reading audio i this) =
    (Some RET_OK, reading audio (with_rtpmap x i) this).
Proof.
  intros Hp. apply (attr_line (chars "rtpmap:" ++ decimal pt ++ 32 :: x) (with_rtpmap x)); [done|].
  intros t p Hs. unfold parseAttributes, attr.
  assert (starts (chars "rtpmap:") (chars "rtpmap:" ++ decimal pt ++ 32 :: x) = true) as -> by reflexivity.
  assert (zlen (chars "rtpmap:") <? zlen (chars "rtpmap:" ++ decimal pt ++ 32 :: x) = true) as ->.
  { rewrite !zlen_app, zlen_cons. pose proof (zlen_nonneg x). pose proof (zlen_nonneg (decimal pt)). lia. }
  cbn [andb]. rewrite app_assoc, split_at_app.
  - by destruct (m_enParseStatus t).
  - apply Forall_app_2; [apply (bool_decide_unpack _); vm_compute; reflexivity|].
    apply decimal_not; [done|]. eapply fits_mono; [exact Hp|lia].
Qed.

Lemma control_line x audio i this : x <> [] ->
  decode_line (chars "a=control:" ++ x) (reading audio i this) =
    (Some RET_OK, reading audio (with_control x i) this).
Proof.
  intros Hx. apply (attr_line (chars "control:" ++ x) (with_control x)); [done|].
  intros t p Hs. unfold parseAttributes, attr.
  change (starts (chars "rtpmap:") (chars "control:" ++ x)) with false.
  change (starts (chars "fmtp:") (chars "control:" ++ x)) with false.
  change (starts (chars "control:") (chars "control:" ++ x)) with true.
  assert (zlen (chars "control:") <? zlen (chars "control:" ++ x) = true) as ->.
  { destruct x; [done|]. rewrite zlen_app, zlen_cons. pose proof (zlen_nonneg x). lia. }
  rewrite !andb_false_r. cbn [andb]. rewrite drop_app_length. by destruct (m_enParseStatus t).
Qed.

(** The media read back from those of one [m=]: the first payload, the last
    [rtpmap] and the last control text, without the port. *)
Definition take_info (url : list Z) (m i : SDP_MEDIA_INFO) : SDP_MEDIA_INFO :=
  let m := with_rtpmap (strRtpmap i) m in
  match ctl url i with [] => m | c => with_control c m end.
Definition read_back (url : list Z) (l : list SDP_MEDIA_INFO) : list SDP_MEDIA_INFO :=
  match l with [] => [] | i :: _ => [foldl (take_info url) (new_info (ucPayloadType i)) l] end.

Lemma read_back_nil url l : read_back url l = [] -> l = [].
Proof. by destruct l. Qed.

Lemma run_info_lines url audio m i this : fits 8 (ucPayloadType i) -> strFmtp i = [] ->
  run (info_lines url i) (reading audio m this) = (Some RET_OK, reading audio (take_info url m i) this).
Proof.
  intros Hp Hf. unfold info_lines, take_info. rewrite Hf. erewrite run_cons by by apply rtpmap_line.
  destruct (ctl url i) as [|c x]; [done|]. by erewrite run_cons by by apply control_line.
Qed.

Lemma run_infos url audio this l : Forall info_ok l -> no_fmtp l -> forall m,
  run (concat (info_lines url <$> l)) (reading audio m this) =
    (Some RET_OK, reading audio (foldl (take_info url) m l) this).
Proof.
  intros Hl Hf. induction Hl as [|i l Hi _ IH]; intros m; [done|]. apply Forall_cons in Hf as [Hf1 Hf2].
  rewrite fmap_cons. cbn [concat foldl]. erewrite run_lines_app by (apply run_info_lines; [apply Hi|done]). by apply IH.
Qed.

Lemma skip_space_decimal n rest : fits 64 n -> skip_space (decimal n ++ rest) = decimal n ++ rest.
Proof.
  intros Hn. destruct (decimal_ok n Hn) as (Hd & Hne & _). destruct (decimal n) as [|c l]; [done|].
  apply Forall_cons in Hd as [Hc _]. cbn. unfold is_digit, is_space in *.
  by replace _ with false by lia.
Qed.

Lemma decimal_nonempty n rest : fits 64 n -> exists c l, decimal n ++ rest = c :: l.
Proof. intros Hn. destruct (decimal_ok n Hn) as (_ & Hne & _). destruct (decimal n); [done|]. cbn. eauto. Qed.

Lemma parseMediaDesc_line (audio : bool) port pt l p this : fits 16 port -> fits 8 pt -> stops l ->
  parseMediaDesc ((if audio then chars "audio " else chars "video ") ++ decimal port ++ chars " RTP/AVP" ++
      (32 :: decimal pt) ++ l) p this =
    (RET_OK, Some (media_of audio), add_info audio (new_info pt) this).
Proof.
  intros Hp Ht Hl. assert (fits 64 port) as Hp' by (eapply fits_mono; [exact Hp|lia]).
  assert (fits 32 pt /\ fits 64 pt) as [Ht32 Ht64] by (split; (eapply fits_mono; [exact Ht|lia])).
  change (chars " RTP/AVP" ++ (32 :: decimal pt) ++ l) with (32 :: chars "RTP/AVP" ++ 32 :: decimal pt ++ l).
  set (u := (if audio then chars "audio" else chars "video")).
  assert ((if audio then chars "audio " else chars "video ") = u ++ [32]) as -> by by destruct audio.
  assert (match u ++ [32] ++ decimal port ++ 32 :: chars "RTP/AVP" ++ 32 :: decimal pt ++ l with
          | c :: _ => tolower c | [] => 0 end = if audio then 97 else 118) as Ec by by destruct audio.
  rewrite <-app_assoc. unfold parseMediaDesc. rewrite Ec. cbn [app].
  rewrite split_at_app by by (destruct audio; apply (bool_decide_unpack _); vm_compute).
  rewrite skip_space_decimal, split_at_app by (done || by apply decimal_not).
  change (skip_space (chars "RTP/AVP" ++ 32 :: decimal pt ++ l)) with (chars "RTP/AVP" ++ 32 :: decimal pt ++ l).
  rewrite (split_at_app 32 (chars "RTP/AVP")) by by (apply (bool_decide_unpack _); vm_compute).
  rewrite skip_space_decimal by done. destruct (decimal_nonempty pt l Ht64) as (c & k & E). rewrite E, <-E.
  rewrite atoi_decimal by done. unfold u8. rewrite wrap_small by done. by destruct audio.
Qed.

Lemma payloads_stops l : stops (payloads l).
Proof. by destruct l. Qed.

Lemma run_media_lines (audio : bool) this d l : l = (if audio then m_AudioInfoList this else m_VideoInfoList this) ->
  Forall info_ok l -> no_fmtp l -> l <> [] -> d_bFirst d = false ->
  exists m, read_back (m_strUrl this) l = [m] /\
    run (media_lines audio this) d = (Some RET_OK, reading audio m (d_this d)).
Proof.
  intros El Hl Hf Hne Hd. unfold media_lines. rewrite <-El. clear El. destruct l as [|i l]; [done|].
  eexists. split; [reflexivity|]. pose proof Hl as [[Hp Hport _ _] _]%Forall_cons.
  erewrite run_cons; [by apply run_infos|].
  change (payloads (i :: l)) with ((32 :: decimal (ucPayloadType i)) ++ payloads l).
  pose proof (parseMediaDesc_line audio (usPort i) (ucPayloadType i) (payloads l) (d_pMediaInfo d) (d_this d) Hport Hp
    (payloads_stops l)) as E.
  transitivity (let '(r, d') := decode_statement 109 ((if audio then chars "audio " else chars "video ") ++
    decimal (usPort i) ++ chars " RTP/AVP" ++ (32 :: decimal (ucPayloadType i)) ++ payloads l) d in (Some r, d')).
  - set (x := decimal (usPort i) ++ _). destruct audio;
      [change (chars "m=audio " ++ x) with (109 :: 61 :: chars "audio " ++ x)
      |change (chars "m=video " ++ x) with (109 :: 61 :: chars "video " ++ x)]; by rewrite statement_line.
  - unfold decode_statement. change (tolower 109) with 109. cbn [Z.eqb Pos.eqb]. by rewrite E.
Qed.

Definition headed (this that : CMediaSdp) : CMediaSdp :=
  match m_strConnAddr this with [] => set_name (m_strSessionName this) that
  | c => set_conn c (set_name (m_strSessionName this) that) end.

Definition before_media (this : CMediaSdp) : decoder := {| d_this := this; d_pMediaInfo := None; d_bFirst := false |}.

Lemma conn_line c d : skip_space c = c -> d_bFirst d = false ->
  decode_line (chars "c=IN IP4 " ++ c) d =
    (Some RET_OK, {| d_this := set_conn c (d_this d); d_pMediaInfo := d_pMediaInfo d; d_bFirst := false |}).
Proof.
  intros Hc Hd. etransitivity; [by apply (statement_line 99 (chars "IN IP4 " ++ c))|].
  assert (forall t, parseConnDesc (skip_space (chars "IN IP4 " ++ c)) t = (RET_OK, set_conn c t)) as E.
  { intros t. change (parseConnDesc _ t) with (RET_OK, set_conn (skip_space c) t). by rewrite Hc. }
  unfold decode_statement. cbn -[parseConnDesc skip_space]. rewrite E. done.
Qed.

Lemma run_head this that : sdp_ok this ->
  run (head_lines this) {| d_this := that; d_pMediaInfo := None; d_bFirst := true |} =
    (Some RET_OK, before_media (headed this that)).
Proof.
  intros H. destruct (so_name _ H) as [_ Hn]. destruct (so_conn _ H) as [_ Hc].
  unfold head_lines, headed. rewrite (run_lines_app _ _ _ (before_media (set_name (m_strSessionName this) that))).
  - destruct (m_strConnAddr this) as [|c x]; [reflexivity|]. unfold conn_lines. cbn [app].
    erewrite run_cons by by apply conn_line. reflexivity.
  - rewrite (run_cons _ _ _ (before_media that)) by reflexivity.
    rewrite (run_cons _ _ _ (before_media that)) by (etransitivity; [apply (statement_line 111); reflexivity|reflexivity]).
    erewrite run_cons; [reflexivity|].
    etransitivity; [apply (statement_line 115 (m_strSessionName this)); reflexivity|]. by rewrite Hn.
Qed.

Lemma parse_direct_short s this : zlen s <= 8 -> parse_direct s this = this.
Proof. intros H. unfold parse_direct. by rewrite (proj2 (Z.leb_le _ _)). Qed.

(** No line behind the media changes anything. *)
Lemma run_tail this audio m that : run (tail_lines this) (reading audio m that) = (Some RET_OK, reading audio m that).
Proof.
  assert (forall c s, is_space c = false -> tolower c = 121 \/ tolower c = 102 ->
    decode_line (c :: 61 :: s) (reading audio m that) = (Some RET_OK, reading audio m that)) as Hi.
  { intros c s Hc Ht. rewrite statement_line by done. unfold decode_statement. destruct Ht as [-> | ->]; reflexivity. }
  assert (forall s, s ∈ [chars "recvonly"; chars "sendonly"; chars "sendrecv"] ->
    decode_line (97 :: 61 :: s) (reading audio m that) = (Some RET_OK, reading audio m that)) as Hd.
  { intros s Hs. assert (skip_space s = s /\ forall t p, m_enParseStatus t <> SDP_GLOBAL_INFO ->
      parseAttributes s (Some p) t = (RET_OK, t)) as [Es H].
    { set_unfold in Hs. destruct_or! Hs; try done; subst s; (split; [done|]); intros t p Ht; unfold parseAttributes, attr;
        destruct (m_enParseStatus t); done. }
    rewrite statement_line, Es by done. unfold decode_statement. cbn -[parseAttributes].
    rewrite H by apply reading_status. done. }
  unfold tail_lines, direct_lines. erewrite run_lines_app.
  - destruct (m_strSsrc this) as [|y ys], (m_bSetFormat this); try reflexivity; cbn [app];
      repeat first [reflexivity | erewrite run_cons by (apply Hi; [done|by (left + right)])].
  - destruct (m_enTransDirect this); try reflexivity; (erewrite run_cons; [reflexivity|]; apply Hd; set_solver).
Qed.

Lemma Forall_no_fmtp l : no_fmtp l -> Forall (fun i => one_line (strFmtp i)) l.
Proof. intros H. eapply Forall_impl; [exact H|]. cbn. intros i ->. constructor. Qed.

Definition put_media (audio : bool) (l : list SDP_MEDIA_INFO) (this : CMediaSdp) : CMediaSdp :=
  foldl (fun t i => add_info audio i t) this l.

Lemma run_sdp p t this that : sdp_ok this -> (p =? 1) = false ->
  no_fmtp (m_VideoInfoList this) -> no_fmtp (m_AudioInfoList this) ->
  m_VideoInfoList this ++ m_AudioInfoList this <> [] ->
  exists d, run (sdp_lines p t this) {| d_this := that; d_pMediaInfo := None; d_bFirst := true |} = (Some RET_OK, d) /\
    d_this d = put_media true (read_back (m_strUrl this) (m_AudioInfoList this))
                 (put_media false (read_back (m_strUrl this) (m_VideoInfoList this)) (headed this that)).
Proof.
  intros H Hp Hv Ha Hne. unfold sdp_lines, range_lines. rewrite Hp.
  erewrite run_lines_app by by apply run_head. cbn [app].
  pose proof (run_media_lines true this) as RA. pose proof (run_media_lines false this (before_media (headed this that)) _ eq_refl (so_video _ H) Hv) as RV.
  cbv iota in RA, RV.
  destruct (decide (m_VideoInfoList this = [])) as [Ev|Ev].
  - assert (media_lines false this = []) as -> by (unfold media_lines; by rewrite Ev).
    rewrite Ev in *. cbn [app] in *.
    destruct (RA (before_media (headed this that)) _ eq_refl (so_audio _ H) Ha Hne eq_refl) as (m & Em & Er).
    erewrite run_lines_app by exact Er. rewrite run_tail. eexists. split; [reflexivity|]. by rewrite Em.
  - destruct (RV Ev eq_refl) as (m & Em & Er). erewrite run_lines_app by exact Er. rewrite Em.
    destruct (decide (m_AudioInfoList this = [])) as [Ea|Ea].
    + assert (media_lines true this = []) as -> by (unfold media_lines; by rewrite Ea).
      rewrite Ea. cbn [app]. rewrite run_tail. eexists. split; [reflexivity|]. done.
    + destruct (RA (reading false m (headed this that)) _ eq_refl (so_audio _ H) Ha Ea eq_refl) as (m' & Em' & Er').
      erewrite run_lines_app by exact Er'. rewrite run_tail. eexists. split; [reflexivity|]. by rewrite Em'.
Qed.

(** ** What any text does *)

Record read_ok (i : SDP_MEDIA_INFO) : Prop := {
  ro_pt : fits 8 (ucPayloadType i); ro_port : usPort i = 0; ro_rtpmap : one_line (strRtpmap i);
  ro_fmtp : one_line (strFmtp i); ro_control : one_line (strControl i) }.

Lemma skip_space_line s : one_line s -> one_line (skip_space s).
Proof. induction 1 as [|c s Hc Hs IH]; [constructor|]. cbn. destruct (is_space c); [done|by constructor]. Qed.

Lemma split_at_line c s a b : one_line s -> split_at c s = Some (a, b) -> one_line b.
Proof.
  intros Hs. revert a. induction Hs as [|x s Hx Hs IH]; intros a; cbn; [done|].
  destruct (x =? c); [intros [=]; by subst|]. destruct (split_at c s) as [[a' b']|]; cbn; [|done].
  intros [=]; subst. by eapply IH.
Qed.

Lemma getNextLine_line s l rest : getNextLine s = Some (l, rest) -> one_line l.
Proof.
  revert l. induction s as [|c s IH]; intros l; cbn; [done|]. destruct (ends_line c) eqn:Hc; [intros [=]; subst; constructor|].
  destruct (getNextLine s) as [[l' r]|]; cbn; [|done]. intros [=]; subst. constructor; [done|]. by apply IH.
Qed.

Section Reading.
Context (this0 : CMediaSdp).

(** The media that were there stay, and the pointer is to one that came later. *)
Definition reads (audio : bool) (l : list SDP_MEDIA_INFO) (p : option media) : Prop :=
  exists n, l = (if audio then m_AudioInfoList this0 else m_VideoInfoList this0) ++ n /\ Forall read_ok n /\
    (p = Some (media_of audio) -> n <> []).

Definition decoder_ok (p : option media) (this : CMediaSdp) : Prop :=
  reads false (m_VideoInfoList this) p /\ reads true (m_AudioInfoList this) p.

Lemma reads_update audio l f : reads audio l (Some (media_of audio)) -> (forall i, read_ok i -> read_ok (f i)) ->
  reads audio (update_last f l) (Some (media_of audio)).
Proof.
  intros (n & -> & Hn & Hp) Hf. specialize (Hp eq_refl). destruct n as [|x n _] using rev_ind; [done|].
  apply Forall_app in Hn as [Hn Hx]. exists (n ++ [f x]). rewrite app_assoc, update_last_snoc, <-app_assoc.
  split; [done|]. split; [|by destruct n]. apply Forall_app_2; [done|]. apply Forall_singleton, Hf.
  by inversion_clear Hx.
Qed.

Lemma reads_other audio l p p' : reads audio l p -> p' <> Some (media_of audio) -> reads audio l p'.
Proof. intros (n & ? & ? & _) Hne. by exists n. Qed.

Lemma on_info_ok f p this : decoder_ok (Some p) this -> (forall i, read_ok i -> read_ok (f i)) ->
  decoder_ok (Some p) (on_info f p this).
Proof.
  intros [Hv Ha] Hf. destruct this, p; split; cbn in *; try done; [by apply (reads_update false)|by apply (reads_update true)].
Qed.

Lemma add_info_ok (audio : bool) i p this : decoder_ok p this -> read_ok i ->
  decoder_ok (Some (media_of audio)) (add_info audio i this).
Proof.
  intros [Hv Ha] Hi. destruct this, audio; cbn in *; split.
  2: destruct Ha as (n & -> & Hn & _). 3: destruct Hv as (n & -> & Hn & _).
  2-3: exists (n ++ [i]); rewrite app_assoc; split_and!; [done| |by destruct n]; apply Forall_app_2; [done|by constructor].
  all: by eapply reads_other.
Qed.

Lemma parseMediaDesc_ok s p this r p' this' : decoder_ok p this -> parseMediaDesc s p this = (r, p', this') ->
  decoder_ok p' this' /\ (r = RET_OK \/ r = RET_FAIL).
Proof.
  intros H. unfold parseMediaDesc. destruct (negb _ && negb _).
  { intros [= <- <- <-]. split; [|auto]. destruct this. exact H. }
  destruct (split_at 32 s) as [[? s1]|]; [|intros [= <- <- <-]; auto].
  destruct (split_at 32 (skip_space s1)) as [[? s2]|]; [|intros [= <- <- <-]; auto].
  destruct (split_at 32 (skip_space s2)) as [[? s3]|]; [|intros [= <- <- <-]; auto].
  destruct (skip_space s3); [intros [= <- <- <-]; auto|]. intros [= <- <- <-]. split; [|auto].
  set (audio := negb _). replace (if _ =? 118 then Video else Audio) with (media_of audio) by (unfold audio; by destruct (_ =? 118)).
  eapply add_info_ok; [done|]. split; try constructor; cbn; try apply wrap_fits; lia.
Qed.

Lemma parseAttributes_ok s p this r this' : one_line s -> decoder_ok p this ->
  parseAttributes s p this = (r, this') -> decoder_ok p this' /\ (r = RET_OK \/ r = RET_FAIL).
Proof.
  intros Hs H. unfold parseAttributes. destruct p as [p|]; [|intros [= <- <-]; auto].
  assert (forall x (f : list Z -> SDP_MEDIA_INFO -> SDP_MEDIA_INFO), f = with_rtpmap \/ f = with_fmtp \/ f = with_control ->
    one_line x -> forall i, read_ok i -> read_ok (f x i)) as Hw.
  { intros x f Hf Hx i [? ? ? ? ?]. destruct_or! Hf; subst f; by split. }
  assert (forall n, one_line (drop n s)) as Hd by (intros; by apply Forall_drop).
  assert (decoder_ok (Some p) (parse_direct s this)) as Hdir.
  { unfold parse_direct. repeat (case_match; try by (destruct this; exact H)). }
  destruct (m_enParseStatus this).
  { intros [= <- <-]. split; [|auto]. destruct (attr _ s); destruct this; exact H. }
  all: destruct (attr "rtpmap:" s);
    [destruct (split_at 32 s) as [[? b]|] eqn:E; intros [= <- <-]; (split; [|auto]); [|done];
     apply on_info_ok; [done|]; apply Hw; [auto|by eapply split_at_line]|].
  all: destruct (attr "fmtp:" s);
    [destruct (split_at 32 s) as [[? b]|] eqn:E; intros [= <- <-]; (split; [|auto]); [|done];
     apply on_info_ok; [done|]; apply Hw; [auto|by eapply split_at_line]|].
  all: destruct (attr "control:" s);
    [intros [= <- <-]; split; [|auto]; apply on_info_ok; [done|]; apply Hw; auto|].
  all: destruct (starts (chars "range") s); intros [= <- <-]; (split; [|auto]); [destruct this; exact H|done].
Qed.

Lemma decode_line_ok l d r d' : one_line l -> decoder_ok (d_pMediaInfo d) (d_this d) -> decode_line l d = (r, d') ->
  decoder_ok (d_pMediaInfo d') (d_this d') /\ (r = Some RET_OK \/ r = Some RET_FAIL \/ r = None).
Proof.
  intros Hl H. unfold decode_line. apply skip_space_line in Hl. destruct (skip_space l) as [|c s]; [intros [= <- <-]; auto|].
  apply Forall_cons in Hl as [_ Hl]. apply skip_space_line in Hl. destruct (skip_space s) as [|e s1]; [intros [= <- <-]; auto|].
  apply Forall_cons in Hl as [_ Hl]. apply skip_space_line in Hl.
  destruct (negb (e =? 61)); [intros [= <- <-]; auto|]. destruct (negb _ && _); [intros [= <- <-]; auto|].
  destruct d as [t p b]. cbn in *. unfold decode_statement. cbn.
  destruct (tolower c =? 115). { intros [= <- <-]. split; [by destruct t|auto]. }
  destruct (tolower c =? 99).
  { unfold parseConnDesc. repeat case_match; intros; simplify_eq; (split; [|auto]); cbn; try done; by destruct t. }
  destruct (tolower c =? 116). { intros [= <- <-]. auto. }
  destruct (tolower c =? 109).
  { destruct (parseMediaDesc _ _ _) as [[r1 p1] t1] eqn:E. intros [= <- <-].
    destruct (parseMediaDesc_ok _ _ _ _ _ _ H E) as [? [-> | ->]]; auto. }
  destruct (tolower c =? 97).
  { destruct (parseAttributes _ _ _) as [r1 t1] eqn:E. intros [= <- <-].
    destruct (parseAttributes_ok _ _ _ _ _ Hl H E) as [? [-> | ->]]; auto. }
  destruct (tolower c =? 117); intros [= <- <-]; (split; [|auto]); by destruct t.
Qed.

Lemma decode_loop_ok fuel s d : (length s < fuel)%nat -> decoder_ok (d_pMediaInfo d) (d_this d) ->
  exists r d', decode_loop fuel s d = Some (r, d') /\ decoder_ok (d_pMediaInfo d') (d_this d') /\
    (r = Some RET_OK \/ r = Some RET_FAIL \/ r = None).
Proof.
  revert s d. induction fuel as [|fuel IH]; intros s d Hf H; [lia|]. cbn.
  destruct (getNextLine s) as [[l rest]|] eqn:E; [|eauto 8].
  destruct (decode_line l d) as [r d'] eqn:El.
  destruct (decode_line_ok _ _ _ _ (getNextLine_line _ _ _ E) H El) as [Hd Hr].
  destruct Hr as [-> | [-> | ->]]; [|by eauto 8..].
  apply IH; [|done]. apply getNextLine_shorter in E. lia.
Qed.
End Reading.

(** ** Properties *)

Lemma put_media_lists audio l this :
  m_VideoInfoList (put_media audio l this) = m_VideoInfoList this ++ (if audio then [] else l) /\
  m_AudioInfoList (put_media audio l this) = m_AudioInfoList this ++ (if audio then l else []).
Proof.
  unfold put_media. revert this. induction l as [|i l IH]; intros this; cbn; [by destruct audio; rewrite !app_nil_r|].
  destruct (IH (add_info audio i this)) as [-> ->]. destruct this, audio; cbn; by rewrite <-?app_assoc, ?app_nil_r.
Qed.

Lemma put_media_rest audio l this : let t := put_media audio l this in
  m_strSessionName t = m_strSessionName this /\ m_strConnAddr t = m_strConnAddr this /\ m_strUrl t = m_strUrl this /\
  m_range t = m_range this /\ m_enTransDirect t = m_enTransDirect this.
Proof.
  unfold put_media. revert this. induction l as [|i l IH]; intros this; cbn; [auto 8|]. cbn in IH. destruct (IH (add_info audio i this)) as (-> & -> & -> & -> & ->).
  destruct this, audio; cbn; auto 8.
Qed.

Lemma headed_rest this that : let t := headed this that in
  m_VideoInfoList t = m_VideoInfoList that /\ m_AudioInfoList t = m_AudioInfoList that /\
  m_strSessionName t = m_strSessionName this /\
  m_strConnAddr t = (match m_strConnAddr this with [] => m_strConnAddr that | c => c end) /\ m_strUrl t = m_strUrl that /\
  m_range t = m_range that /\ m_enTransDirect t = m_enTransDirect that.
Proof. unfold headed. destruct that, (m_strConnAddr this); cbn; auto 10. Qed.

Lemma live_read_back this that isplayback timeRange : sdp_ok this -> one_line timeRange -> isplayback <> 1 ->
  no_fmtp (m_VideoInfoList this ++ m_AudioInfoList this) -> m_VideoInfoList this ++ m_AudioInfoList this <> [] ->
  exists that', decodeSdp (encodeSdp isplayback timeRange this) that = Some (RET_OK, that') /\
    m_strSessionName that' = m_strSessionName this /\
    m_strConnAddr that' = (match m_strConnAddr this with [] => m_strConnAddr that | c => c end) /\
    m_VideoInfoList that' = m_VideoInfoList that ++ read_back (m_strUrl this) (m_VideoInfoList this) /\
    m_AudioInfoList that' = m_AudioInfoList that ++ read_back (m_strUrl this) (m_AudioInfoList this) /\
    m_strUrl that' = m_strUrl that /\ m_range that' = m_range that /\ m_enTransDirect that' = m_enTransDirect that.
Proof.
  intros H Ht Hp Hf Hne. pose proof Hf as [Hv Ha]%Forall_app. rewrite encodeSdp_text.
  destruct (run_sdp isplayback timeRange this that H (proj2 (Z.eqb_neq _ _) Hp) Hv Ha Hne) as (d & E & Ed).
  assert (Forall one_line (sdp_lines isplayback timeRange this)) as Hl by (apply sdp_lines_ok; [done..|by apply Forall_no_fmtp]).
  pose proof (decodeSdp_text (sdp_lines isplayback timeRange this) that ltac:(done) Hl) as ED. rewrite E in ED. rewrite ED.
  exists (d_this d). split; [|rewrite Ed].
  - f_equal. destruct (m_VideoInfoList (d_this d) ++ m_AudioInfoList (d_this d)) eqn:El; [|done]. exfalso.
    rewrite Ed in El. destruct (put_media_lists true (read_back (m_strUrl this) (m_AudioInfoList this))
      (put_media false (read_back (m_strUrl this) (m_VideoInfoList this)) (headed this that))) as [-> ->] in El.
    destruct (put_media_lists false (read_back (m_strUrl this) (m_VideoInfoList this)) (headed this that)) as [-> ->] in El.
    apply app_eq_nil in El as [[[_ E1]%app_eq_nil _]%app_eq_nil [_ E2]%app_eq_nil].
    apply Hne. by rewrite (read_back_nil _ _ E1), (read_back_nil _ _ E2).
  - destruct (put_media_lists true (read_back (m_strUrl this) (m_AudioInfoList this))
      (put_media false (read_back (m_strUrl this) (m_VideoInfoList this)) (headed this that))) as [-> ->].
    destruct (put_media_lists false (read_back (m_strUrl this) (m_VideoInfoList this)) (headed this that)) as [-> ->].
    destruct (put_media_rest true (read_back (m_strUrl this) (m_AudioInfoList this))
      (put_media false (read_back (m_strUrl this) (m_VideoInfoList this)) (headed this that))) as (-> & -> & -> & -> & ->).
    destruct (put_media_rest false (read_back (m_strUrl this) (m_VideoInfoList this)) (headed this that)) as (-> & -> & -> & -> & ->).
    destruct (headed_rest this that) as (-> & -> & -> & -> & -> & -> & ->). rewrite !app_nil_r. auto 10.
Qed.

(** The [a=] lines of a play-back come before the first [m=]. *)
Lemma playback_ends this that timeRange : sdp_ok this -> one_line timeRange ->
  Forall (fun i => one_line (strFmtp i)) (m_VideoInfoList this ++ m_AudioInfoList this) ->
  exists that', decodeSdp (encodeSdp 1 timeRange this) that = Some (RET_FAIL, that') /\
    m_VideoInfoList that' = m_VideoInfoList that /\ m_AudioInfoList that' = m_AudioInfoList that.
Proof.
  intros H Ht Hf. rewrite encodeSdp_text. pose proof (decodeSdp_text (sdp_lines 1 timeRange this) that ltac:(done)
    (sdp_lines_ok 1 timeRange this H Ht Hf)) as ED.
  assert (run (sdp_lines 1 timeRange this) {| d_this := that; d_pMediaInfo := None; d_bFirst := true |} =
    (Some RET_FAIL, before_media (headed this that))) as E.
  { unfold sdp_lines. erewrite run_lines_app by by apply run_head. cbn [range_lines Z.eqb Pos.eqb app run].
    rewrite (statement_line 97 (m_range this)) by done. reflexivity. }
  rewrite E in ED. rewrite ED. eexists. split; [cbn [d_this before_media]; by destruct (m_VideoInfoList (headed this that) ++ m_AudioInfoList (headed this that))|].
  cbn. destruct (headed_rest this that) as (-> & -> & _). auto.
Qed.

(** C22: what [decodeSdp] makes of a description written by [encodeSdp] that has
    at least one media and whose media have no format parameters (those are
    written wrongly: [sdp_fmtp_refused]). One written for a play-back is refused,
    and no media is added. Any other is read back: the name, the address and, of
    the media of each kind, one: the first payload with the last [rtpmap] and the
    control text, which is the one of the session for a media that has none.
    The ports, the direction and the session's own control text are lost. *)
Theorem sdp_roundtrip this that isplayback timeRange : sdp_ok this -> one_line timeRange ->
  no_fmtp (m_VideoInfoList this ++ m_AudioInfoList this) -> m_VideoInfoList this ++ m_AudioInfoList this <> [] ->
  exists that',
    (isplayback = 1 /\ decodeSdp (encodeSdp isplayback timeRange this) that = Some (RET_FAIL, that') /\
     m_VideoInfoList that' = m_VideoInfoList that /\ m_AudioInfoList that' = m_AudioInfoList that) \/
    (isplayback <> 1 /\ decodeSdp (encodeSdp isplayback timeRange this) that = Some (RET_OK, that') /\
     m_strSessionName that' = m_strSessionName this /\
     m_strConnAddr that' = (match m_strConnAddr this with [] => m_strConnAddr that | c => c end) /\
     m_VideoInfoList that' = m_VideoInfoList that ++ read_back (m_strUrl this) (m_VideoInfoList this) /\
     m_AudioInfoList that' = m_AudioInfoList that ++ read_back (m_strUrl this) (m_AudioInfoList this) /\
     m_strUrl that' = m_strUrl that /\ m_range that' = m_range that /\ m_enTransDirect that' = m_enTransDirect that).
Proof.
  intros H Ht Hf Hne. destruct (decide (isplayback = 1)) as [->|Hp].
  - destruct (playback_ends this that timeRange H Ht ltac:(by apply Forall_no_fmtp)) as (that' & E). exists that'. by left.
  - destruct (live_read_back this that isplayback timeRange H Ht Hp Hf Hne) as (that' & E). exists that'. by right.
Qed.

Definition demo_info (pt : Z) (rtpmap : string) : SDP_MEDIA_INFO :=
  {| ucPayloadType := pt; usPort := 5004; strRtpmap := chars rtpmap; strFmtp := []; strControl := [] |}.
Definition demo_sdp : CMediaSdp :=
  setTransDirect TRANS_DIRECTION_SENDONLY (set_url (chars "track1") (addAudioInfo (demo_info 0 "")
    (addVideoInfo (demo_info 98 "H264/90000") CMediaSdp_new))).

Lemma demo_sdp_ok : sdp_ok demo_sdp.
Proof.
  assert (forall s, bool_decide (one_line s) = true -> one_line s) as L by (intros s Hs; by apply bool_decide_eq_true in Hs).
  split; try (apply L; vm_compute; reflexivity); try (split; [apply L|]; vm_compute; reflexivity);
    [split; done|..]; apply Forall_singleton; split; try (apply L; vm_compute; reflexivity); split; done.
Qed.

Lemma sdp_roundtrip_witness :
  (exists that', decodeSdp (encodeSdp 0 [] demo_sdp) CMediaSdp_new = Some (RET_OK, that') /\
    m_AudioInfoList that' = [{| ucPayloadType := 0; usPort := 0; strRtpmap := chars "PCMU/8000"; strFmtp := [];
                                strControl := chars "track1" |}] /\ m_enTransDirect that' = TRANS_DIRECTION_MAX) /\
  (exists that', decodeSdp (encodeSdp 1 [] demo_sdp) CMediaSdp_new = Some (RET_FAIL, that') /\
    m_AudioInfoList that' = []).
Proof.
  assert (no_fmtp (m_VideoInfoList demo_sdp ++ m_AudioInfoList demo_sdp)) as Hf by repeat constructor.
  assert (m_VideoInfoList demo_sdp ++ m_AudioInfoList demo_sdp <> []) as Hne by done.
  split.
  - destruct (sdp_roundtrip demo_sdp CMediaSdp_new 0 [] demo_sdp_ok ltac:(constructor) Hf Hne)
      as (that' & [(? & _)|(_ & E & _ & _ & _ & Ha & _ & _ & Hd)]); [done|].
    exists that'. split; [exact E|]. rewrite Ha, Hd. split; vm_compute; reflexivity.
  - destruct (sdp_roundtrip demo_sdp CMediaSdp_new 1 [] demo_sdp_ok ltac:(constructor) Hf Hne)
      as (that' & [(_ & E & _ & Ha)|(? & _)]); [|done].
    exists that'. split; [exact E|]. by rewrite Ha.
Defined.

Lemma decodeSdp_ends s this : exists r this', decodeSdp s this = Some (r, this') /\ (r = RET_OK \/ r = RET_FAIL) /\
  (exists v a, m_VideoInfoList this' = m_VideoInfoList this ++ v /\ m_AudioInfoList this' = m_AudioInfoList this ++ a /\
    Forall read_ok (v ++ a)) /\
  (r = RET_OK -> m_VideoInfoList this' ++ m_AudioInfoList this' <> []).
Proof.
  assert (decoder_ok this None this) as H0.
  { split; exists []; by rewrite app_nil_r. }
  unfold decodeSdp. destruct s as [|c s].
  { exists RET_FAIL, this. split_and!; [done|auto| |done]. exists [], []. by rewrite !app_nil_r. }
  destruct (decode_loop_ok this (S (length (c :: s))) (c :: s) {| d_this := this; d_pMediaInfo := None; d_bFirst := true |}
    ltac:(lia) H0) as (r & d & -> & [(v & Ev & Hv & _) (a & Ea & Ha & _)] & Hr). cbn -[app].
  assert (exists v a, m_VideoInfoList (d_this d) = m_VideoInfoList this ++ v /\ m_AudioInfoList (d_this d) = m_AudioInfoList this ++ a /\
    Forall read_ok (v ++ a)) as Hm by (exists v, a; split_and!; [done..|by apply Forall_app_2]).
  destruct Hr as [-> | [-> | ->]];
    [destruct (m_VideoInfoList (d_this d)) eqn:E1, (m_AudioInfoList (d_this d)) eqn:E2..|];
    eexists _, (d_this d); (split; [reflexivity|]); (split; [auto|]); rewrite ?E1, ?E2; (split; [exact Hm|done]).
Qed.

(** C40: [decodeSdp] ends on every text. What it leaves has the media that were
    there, and behind them media with a payload of 8 bits, no port and texts of one line;
    on success there is at least one media. *)
Theorem decodeSdp_total s this : exists r this', decodeSdp s this = Some (r, this') /\ (r = RET_OK \/ r = RET_FAIL) /\
  (exists v a, m_VideoInfoList this' = m_VideoInfoList this ++ v /\ m_AudioInfoList this' = m_AudioInfoList this ++ a /\
    Forall read_ok (v ++ a)) /\
  (r = RET_OK -> m_VideoInfoList this' ++ m_AudioInfoList this' <> []).
Proof. apply decodeSdp_ends. Qed.

(** The description of a play-back is refused: its [a=] lines come before the
    first [m=]. *)
Theorem sdp_playback_refused this that timeRange : sdp_ok this -> one_line timeRange ->
  Forall (fun i => one_line (strFmtp i)) (m_VideoInfoList this ++ m_AudioInfoList this) ->
  exists that', decodeSdp (encodeSdp 1 timeRange this) that = Some (RET_FAIL, that') /\
    m_VideoInfoList that' = m_VideoInfoList that /\ m_AudioInfoList that' = m_AudioInfoList that.
Proof. apply playback_ends. Qed.

Lemma sdp_playback_refused_witness :
  exists that', decodeSdp (encodeSdp 1 (chars "60") demo_sdp) CMediaSdp_new = Some (RET_FAIL, that').
Proof.
  destruct (sdp_playback_refused demo_sdp CMediaSdp_new (chars "60")) as (that' & E & _).
  - apply demo_sdp_ok.
  - apply (bool_decide_unpack (one_line (chars "60"))). vm_compute. exact I.
  - repeat constructor.
  - exists that'. exact E.
Defined.

Lemma fmtp_line pt x audio i this : fits 8 pt ->
  decode_line (chars "a=fmtp:" ++ decimal pt ++ 32 :: x) (reading audio i this) =
    (Some RET_OK, reading audio (with_fmtp x i) this).
Proof.
  intros Hp. apply (attr_line (chars "fmtp:" ++ decimal pt ++ 32 :: x) (with_fmtp x)); [done|].
  intros t p Hs. unfold parseAttributes, attr.
  change (starts (chars "rtpmap:") (chars "fmtp:" ++ decimal pt ++ 32 :: x)) with false.
  change (starts (chars "fmtp:") (chars "fmtp:" ++ decimal pt ++ 32 :: x)) with true.
  assert (zlen (chars "fmtp:") <? zlen (chars "fmtp:" ++ decimal pt ++ 32 :: x) = true) as ->.
  { rewrite !zlen_app, zlen_cons. pose proof (zlen_nonneg x). pose proof (zlen_nonneg (decimal pt)). lia. }
  rewrite app_assoc, split_at_app.
  - by destruct (m_enParseStatus t); rewrite ?andb_false_r.
  - apply Forall_app_2; [apply (bool_decide_unpack _); vm_compute; reflexivity|].
    apply decimal_not; [done|]. eapply fits_mono; [exact Hp|lia].
Qed.

(** The format parameters that are read are the text behind the payload; a
    description with them is written without [a=fmtp:] in front, and refused by
    [decodeSdp] unless the text happens to look like a statement. *)
Theorem sdp_fmtp_refused pt c c' x audio i that0 this that l isplayback timeRange :
  fits 8 pt -> sdp_ok this -> one_line timeRange -> isplayback <> 1 ->
  Forall (fun i => one_line (strFmtp i)) (m_VideoInfoList this ++ m_AudioInfoList this) ->
  is_space c = false -> is_space c' = false -> c' <> 61 ->
  m_VideoInfoList this = with_fmtp (c :: c' :: x) i :: l ->
  decode_line (chars "a=fmtp:" ++ decimal pt ++ 32 :: c :: c' :: x) (reading audio i that0) =
    (Some RET_OK, reading audio (with_fmtp (c :: c' :: x) i) that0) /\
  exists that', decodeSdp (encodeSdp isplayback timeRange this) that = Some (RET_FAIL, that').
Proof.
  intros Hpt H Ht Hp Hf Hc Hc' Hne El. split; [by apply fmtp_line|]. rewrite encodeSdp_text.
  pose proof (decodeSdp_text (sdp_lines isplayback timeRange this) that ltac:(done)
    (sdp_lines_ok isplayback timeRange this H Ht Hf)) as ED.
  assert (exists d, run (sdp_lines isplayback timeRange this) {| d_this := that; d_pMediaInfo := None; d_bFirst := true |} = (None, d)) as [d E].
  { unfold sdp_lines, range_lines. rewrite (proj2 (Z.eqb_neq _ _) Hp). erewrite run_lines_app by by apply run_head.
    cbn [app]. unfold media_lines. rewrite El. pose proof (so_video _ H) as Hv. rewrite El in Hv.
    pose proof Hv as [[Hpt' Hport _ _] _]%Forall_cons. cbn [usPort ucPayloadType with_fmtp] in *.
    set (i' := with_fmtp _ i) in *.
    change (payloads (i' :: l)) with ((32 :: decimal (ucPayloadType i)) ++ payloads l).
    pose proof (parseMediaDesc_line false (usPort i) (ucPayloadType i) (payloads l) None (headed this that) Hport Hpt' (payloads_stops l)) as E.
    rewrite fmap_cons. cbn [concat app]. erewrite run_cons.
    2:{ etransitivity; [by apply (statement_line 109 (chars "video " ++ decimal (usPort i) ++ chars " RTP/AVP" ++ (32 :: decimal (ucPayloadType i)) ++ payloads l))|].
        match goal with |- context [skip_space ?s] => change (skip_space s) with s end.
        unfold decode_statement. change (tolower 109) with 109. cbn [Z.eqb Pos.eqb before_media d_this d_pMediaInfo].
        rewrite E. reflexivity. }
    unfold info_lines at 1. cbn [strFmtp i' with_fmtp app run]. unfold decode_line. cbn [skip_space]. rewrite Hc. cbn [skip_space]. rewrite Hc'.
    rewrite (proj2 (Z.eqb_neq _ _) Hne). eauto. }
  rewrite E in ED. rewrite ED. eauto.
Qed.

Definition fmtp_sdp : CMediaSdp :=
  set_video [with_fmtp (chars "profile-level-id=42A01E") (demo_info 98 "H264/90000")] CMediaSdp_new.

Lemma sdp_fmtp_refused_witness : exists that',
  decodeSdp (encodeSdp 0 [] fmtp_sdp) CMediaSdp_new = Some (RET_FAIL, that').
Proof.
  eapply (sdp_fmtp_refused 98 112 114 (chars "ofile-level-id=42A01E") false (demo_info 98 "H264/90000") CMediaSdp_new fmtp_sdp CMediaSdp_new []).
  - split; done.
  - assert (forall s, bool_decide (one_line s) = true -> one_line s) as L by (intros s Hs; by apply bool_decide_eq_true in Hs).
    split; try (apply L; vm_compute; reflexivity); try (split; [apply L|]; vm_compute; reflexivity);
      [split; done| |constructor]; apply Forall_singleton; split; try (apply L; vm_compute; reflexivity); split; done.
  - constructor.
  - done.
  - apply Forall_singleton. apply (bool_decide_unpack (one_line (strFmtp (with_fmtp (chars "profile-level-id=42A01E") (demo_info 98 "H264/90000"))))). vm_compute. exact I.
  - done.
  - done.
  - done.
  - reflexivity.
Defined.

(** Of the index of a GB28181 session only the hundreds of its low byte are in
    its number: sessions with different indices get the same one. *)
Theorem ssrc_collides zone server enPlayType i j this :
  Z.land i 255 / 100 = Z.land j 255 / 100 ->
  setSsrcByGB28181Dev zone server enPlayType i this = setSsrcByGB28181Dev zone server enPlayType j this.
Proof.
  intros H. unfold setSsrcByGB28181Dev. destruct (sub zone 3 5) as [z|]; [|done]. destruct (sub server 18 2) as [v|]; [|done].
  assert (forall n, 0 <= n < 256 -> take 2 (pad4 n) = [48; 48 + n / 100]) as E.
  { intros n Hn.
    assert (match take 2 (pad4 n) with [a; b] => (a =? 48) && (b =? 48 + n / 100) | _ => false end = true) as Hb.
    { by apply (forall_fits 8 (fun n => match take 2 (pad4 n) with [a; b] => (a =? 48) && (b =? 48 + n / 100) | _ => false end)). }
    destruct (take 2 (pad4 n)) as [|a [|b [|]]]; try done. f_equal; [lia|]. f_equal. lia. }
  assert (forall k, 0 <= Z.land k 255 < 256) as Hk by (intros k; change 255 with (Z.ones 8); rewrite Z.land_ones by lia; lia).
  cbn [mbind option_bind]. by rewrite (E _ (Hk i)), (E _ (Hk j)), H.
Qed.

Lemma ssrc_collides_witness :
  setSsrcByGB28181Dev (chars "01000000") (chars "01000000000000000001") PLAY_TYPE_LIVE 1 CMediaSdp_new =
  setSsrcByGB28181Dev (chars "01000000") (chars "01000000000000000001") PLAY_TYPE_LIVE 99 CMediaSdp_new.
Proof. apply ssrc_collides. reflexivity. Defined.
