(* ===== verification/MediaPort.v ===== *)
(** * Media ports: [svs_adapter_media_port.cpp], [svs_adapter_port_manager.cpp]

    The port list of the configuration ([parsePortList], [checkPortRange] of
    [svs_adapter_config.cpp]), the pairs of UDP ports a [CStreamMediaPort] opens
    from it and lends to sessions, its eHome ports, and the table of a
    [CStreamPortManager].

    A handle is its address and the port it was opened on. What [new],
    [openHandle] and the eHome library answer is an argument; a handle that is
    deleted is in the list an operation gives. The mutex is held by a whole
    operation. A text is the list of its bytes. *)

From S2P Require Import Prelude Text DataStat.
Open Scope Z_scope.

(** ** The configuration *)

Record PortRange : Type := { usStartPort : Z; usEndPort : Z }.

Record MediaPortConfig : Type := { usPortRangeNum : Z; stPortRange : list PortRange }.

Definition MAX_MEDIA_PORT_RANGE_NUM : Z := 8.

(** After the [memset] of the constructor of [CStreamConfig]. *)
Definition MediaPortConfig_zero : MediaPortConfig :=
  {| usPortRangeNum := 0;
     stPortRange := replicate (Z.to_nat MAX_MEDIA_PORT_RANGE_NUM) {| usStartPort := 0; usEndPort := 0 |} |}.

Definition parse_range (s : list Z) : PortRange :=
  let a := atoi s in
  let b := match split_at 44 s with Some (_, e) => atoi e | None => a end in
  {| usStartPort := u16 a; usEndPort := u16 b |}.

Definition set_range (i : nat) (r : PortRange) (config : MediaPortConfig) : MediaPortConfig :=
  {| usPortRangeNum := u16 (usPortRangeNum config + 1); stPortRange := <[i := r]> (stPortRange config) |}.

(** The loop over [i]; [n] turns are left. *)
Fixpoint parse_loop (n i : nat) (s : list Z) (config : MediaPortConfig) : MediaPortConfig :=
  match n with
  | O => config
  | S n =>
    match split_at 124 s with
    | Some (a, s) => parse_loop n (S i) s (set_range i (parse_range a) config)
    | None => set_range i (parse_range s) config
    end
  end.

Definition bad_range (r : PortRange) : bool :=
  (usEndPort r <? usStartPort r) || (usEndPort r =? 0) || (usStartPort r =? 0).

Definition overlap (r r' : PortRange) : bool :=
  if usStartPort r =? usStartPort r' then true
  else if usStartPort r <? usStartPort r' then usStartPort r' <=? usEndPort r
  else usStartPort r <=? usEndPort r'.

Fixpoint any_overlap (l : list PortRange) : bool :=
  match l with [] => false | r :: l => existsb (overlap r) l || any_overlap l end.

(** [None]: a range behind the array. *)
Definition checkPortRange (num : Z) (ranges : list PortRange) : option SVS_RET_CODE :=
  if num =? 0 then Some RET_FAIL
  else if zlen ranges <? num then None
  else
    let l := take (Z.to_nat num) ranges in
    Some (if existsb bad_range l || any_overlap l then RET_FAIL else RET_OK).

Definition parsePortList (s : list Z) (config : MediaPortConfig) : option (SVS_RET_CODE * MediaPortConfig) :=
  let config := parse_loop (Z.to_nat MAX_MEDIA_PORT_RANGE_NUM) 0 s config in
  r ← checkPortRange (usPortRangeNum config) (stPortRange config);
  Some (if decide (r = RET_OK) then RET_OK else RET_FAIL, config).

(** The loop over the ports of a range; [None]: out of fuel. *)
Fixpoint range_loop (fuel : nat) (r : PortRange) (p : Z) : option (list Z) :=
  match fuel with
  | O => None
  | S fuel =>
    if (p <=? usEndPort r) && (usStartPort r <=? p)
    then l ← range_loop fuel r (u16 (p + 1)); Some (p :: l)
    else Some []
  end.

Fixpoint ports_loop (fuel : nat) (l : list PortRange) : option (list Z) :=
  match l with
  | [] => Some []
  | r :: l => a ← range_loop fuel r (usStartPort r); b ← ports_loop fuel l; Some (a ++ b)
  end.

(** The list [init] makes; a range behind the array is a fault. *)
Definition port_list (fuel : nat) (config : MediaPortConfig) : option (list Z) :=
  if zlen (stPortRange config) <? usPortRangeNum config then None
  else ports_loop fuel (take (Z.to_nat (usPortRangeNum config)) (stPortRange config)).

(** ** A media port *)

Record handle : Type := { h_addr : Z; h_port : Z }.
#[export] Instance handle_eq_dec : EqDecision handle.
Proof. solve_decision. Defined.

Record RTP_UDP_PORT_INFO : Type := { pRtpHandle : handle; pRtcpHandle : handle }.

(** A [std::map] by port is traversed in the order of the ports. *)
Section Map.
Context {V : Type}.

Definition port_le (a b : Z * V) : Prop := a.1 <= b.1.
#[export] Instance port_le_dec a b : Decision (port_le a b).
Proof. unfold port_le. apply _. Defined.

Definition entries (m : gmap Z V) : list (Z * V) := merge_sort port_le (map_to_list m).
Definition map_begin (m : gmap Z V) : option (Z * V) := head (entries m).
(** [insert] keeps the entry that is there. *)
Definition insert_new (k : Z) (v : V) (m : gmap Z V) : gmap Z V :=
  match m !! k with Some _ => m | None => <[k := v]> m end.
End Map.

Record CStreamMediaPort : Type := {
  m_unPortNum : Z;
  m_UnUsedUdpPortMap : gmap Z RTP_UDP_PORT_INFO;
  m_AllocUdpPortMap : gmap Z RTP_UDP_PORT_INFO;
  m_usEnableEhome : Z;
  m_unEhomePortNum : Z;
  m_EhomePortMap : gmap Z handle;
  m_pTcpMediaHandle : option handle }.

Definition CStreamMediaPort_new : CStreamMediaPort :=
  {| m_unPortNum := 0; m_UnUsedUdpPortMap := ∅; m_AllocUdpPortMap := ∅; m_usEnableEhome := 0;
     m_unEhomePortNum := 0; m_EhomePortMap := ∅; m_pTcpMediaHandle := None |}.

Definition with_udp (n : Z) (u a : gmap Z RTP_UDP_PORT_INFO) (this : CStreamMediaPort) : CStreamMediaPort :=
  {| m_unPortNum := n; m_UnUsedUdpPortMap := u; m_AllocUdpPortMap := a;
     m_usEnableEhome := m_usEnableEhome this; m_unEhomePortNum := m_unEhomePortNum this;
     m_EhomePortMap := m_EhomePortMap this; m_pTcpMediaHandle := m_pTcpMediaHandle this |}.
Definition with_ehome (e n : Z) (m : gmap Z handle) (this : CStreamMediaPort) : CStreamMediaPort :=
  {| m_unPortNum := m_unPortNum this; m_UnUsedUdpPortMap := m_UnUsedUdpPortMap this;
     m_AllocUdpPortMap := m_AllocUdpPortMap this; m_usEnableEhome := e; m_unEhomePortNum := n;
     m_EhomePortMap := m; m_pTcpMediaHandle := m_pTcpMediaHandle this |}.
Definition with_tcp (h : option handle) (this : CStreamMediaPort) : CStreamMediaPort :=
  {| m_unPortNum := m_unPortNum this; m_UnUsedUdpPortMap := m_UnUsedUdpPortMap this;
     m_AllocUdpPortMap := m_AllocUdpPortMap this; m_usEnableEhome := m_usEnableEhome this;
     m_unEhomePortNum := m_unEhomePortNum this; m_EhomePortMap := m_EhomePortMap this;
     m_pTcpMediaHandle := h |}.

(** What is answered for the [i]-th port of the list: by [new] (the addresses of
    the handles) and by the two [openHandle]. *)
Record attempt : Type := { a_new : option (Z * Z); a_open : bool; a_open2 : bool }.

(** The loop of [createRtpUdpPort], from the [i]-th port on. *)
Fixpoint udp_loop (all : list Z) (ans : nat -> attempt) (i : nat) (l : list Z) (this : CStreamMediaPort)
    : SVS_RET_CODE * CStreamMediaPort * list handle :=
  match l with
  | [] => (RET_OK, this, [])
  | usRtpPort :: l =>
    let next := udp_loop all ans (S i) l in
    let usRtcpPort := u16 (usRtpPort + 1) in
    if negb (usRtpPort mod 2 =? 0) then next this
    else if negb (existsb (Z.eqb usRtcpPort) all) then next this
    else match a_new (ans i) with
    | None => (RET_ERR_SYS_NEW, this, [])
    | Some (h1, h2) =>
      let rtp := {| h_addr := h1; h_port := usRtpPort |} in
      let rtcp := {| h_addr := h2; h_port := usRtcpPort |} in
      if negb (a_open (ans i) && a_open2 (ans i))
      then let '(r, this, d) := next this in (r, this, rtp :: rtcp :: d)
      else next (with_udp (u32 (m_unPortNum this + 1))
                   (insert_new usRtpPort {| pRtpHandle := rtp; pRtcpHandle := rtcp |} (m_UnUsedUdpPortMap this))
                   (m_AllocUdpPortMap this) this)
    end
  end.

Definition createRtpUdpPort (ans : nat -> attempt) (l : list Z) (this : CStreamMediaPort)
    : SVS_RET_CODE * CStreamMediaPort * list handle := udp_loop l ans 0 l this.

(** [new]: the address; and [openHandle]. A handle that was not opened stays in
    the field after its deletion. *)
Definition createRtpTcpPort (h : option Z) (ok : bool) (usTcpMediaPort : Z) (this : CStreamMediaPort)
    : SVS_RET_CODE * CStreamMediaPort * list handle :=
  match h with
  | None => (RET_ERR_SYS_NEW, this, match m_pTcpMediaHandle this with Some h => [h] | None => [] end)
  | Some h =>
    let h := {| h_addr := h; h_port := usTcpMediaPort |} in
    let this := with_tcp (Some h) this in
    if ok then (RET_OK, this, []) else (RET_FAIL, this, [h])
  end.

(** The loop of [createEhomePort]; [a_open2] is not asked. *)
Fixpoint createEhomePort (ans : nat -> attempt) (i : nat) (l : list Z) (this : CStreamMediaPort)
    : SVS_RET_CODE * CStreamMediaPort * list handle :=
  match l with
  | [] => (RET_OK, this, [])
  | usEhomePort :: l =>
    match a_new (ans i) with
    | None => (RET_ERR_SYS_NEW, this, [])
    | Some (h, _) =>
      let h := {| h_addr := h; h_port := usEhomePort |} in
      if negb (a_open (ans i))
      then let '(r, this, d) := createEhomePort ans (S i) l this in (r, this, h :: d)
      else createEhomePort ans (S i) l
             (with_ehome (m_usEnableEhome this) (u32 (m_unEhomePortNum this + 1))
                (insert_new usEhomePort h (m_EhomePortMap this)) this)
    end
  end.

(** The answers an [init] gets. *)
Record init_env : Type := {
  udp_ans : nat -> attempt;
  tcp_new : option Z;
  tcp_open : bool;
  ehome_init : bool;
  ehome_ans : nat -> attempt }.

(** Behind the UDP ports. [None]: [port_list] does not give a list. *)
Definition init_rest (fuel : nat) (env : init_env) (usTcpMediaPort usEnableEhome : Z) (ehome : MediaPortConfig)
    (this : CStreamMediaPort) : option (SVS_RET_CODE * CStreamMediaPort * list handle) :=
  let '(r, this, d2) := createRtpTcpPort (tcp_new env) (tcp_open env) usTcpMediaPort this in
  if negb (bool_decide (r = RET_OK)) then Some (RET_FAIL, this, d2)
  else
    let this := with_ehome usEnableEhome (m_unEhomePortNum this) (m_EhomePortMap this) this in
    if usEnableEhome =? 0 then Some (RET_OK, this, d2)
    else if negb (ehome_init env) then Some (RET_FAIL, this, d2)
    else
      l ← port_list fuel ehome;
      let '(_, this, d3) := createEhomePort (ehome_ans env) 0 l this in
      Some (RET_OK, this, d2 ++ d3).

Definition init (fuel : nat) (env : init_env) (unIp usTcpMediaPort : Z) (udp : option MediaPortConfig)
    (usEnableEhome : Z) (ehome : MediaPortConfig) (this : CStreamMediaPort)
    : option (SVS_RET_CODE * CStreamMediaPort * list handle) :=
  match udp with
  | None => Some (RET_ERR_PARAM, this, [])
  | Some udp =>
    if unIp =? 0 then Some (RET_ERR_PARAM, this, [])
    else
      l ← port_list fuel udp;
      let '(_, this, d1) := createRtpUdpPort (udp_ans env) l this in
      match init_rest fuel env usTcpMediaPort usEnableEhome ehome this with
      | Some (r, this, d) => Some (r, this, d1 ++ d)
      | None => None
      end
  end.

Definition pair_handles (m : gmap Z RTP_UDP_PORT_INFO) : list handle :=
  concat ((fun e : Z * RTP_UDP_PORT_INFO => [pRtpHandle e.2; pRtcpHandle e.2]) <$> entries m).

(** The handles are deleted; the TCP handle stays in its field. *)
Definition close (this : CStreamMediaPort) : CStreamMediaPort * list handle :=
  let d1 := match m_pTcpMediaHandle this with Some h => [h] | None => [] end in
  let d2 := pair_handles (m_AllocUdpPortMap this) ++ pair_handles (m_UnUsedUdpPortMap this) in
  let d3 := if m_usEnableEhome this =? 0 then [] else (entries (m_EhomePortMap this)).*2 in
  let this := with_udp 0 ∅ ∅ this in
  (if m_usEnableEhome this =? 0 then this else with_ehome (m_usEnableEhome this) (m_unEhomePortNum this) ∅ this,
   d1 ++ d2 ++ d3).

Definition getTcpMediaHandle (this : CStreamMediaPort) : option handle := m_pTcpMediaHandle this.

Definition allocRtpUdpPort (this : CStreamMediaPort)
    : SVS_RET_CODE * option RTP_UDP_PORT_INFO * CStreamMediaPort :=
  match map_begin (m_UnUsedUdpPortMap this) with
  | None => (RET_FAIL, None, this)
  | Some (p, udpInfo) =>
    (RET_OK, Some udpInfo,
     with_udp (m_unPortNum this) (delete p (m_UnUsedUdpPortMap this))
       (insert_new p udpInfo (m_AllocUdpPortMap this)) this)
  end.

(** The arguments are the caller's pointers, which are set to [NULL]. *)
Definition releaseRtpUdpPort (rtp rtcp : option handle) (this : CStreamMediaPort)
    : SVS_RET_CODE * (option handle * option handle) * CStreamMediaPort :=
  match rtp, rtcp with
  | Some h, Some _ =>
    match m_AllocUdpPortMap this !! h_port h with
    | None => (RET_FAIL, (rtp, rtcp), this)
    | Some info =>
      (RET_OK, (None, None),
       with_udp (m_unPortNum this) (insert_new (h_port h) info (m_UnUsedUdpPortMap this))
         (delete (h_port h) (m_AllocUdpPortMap this)) this)
    end
  | _, _ => (RET_FAIL, (rtp, rtcp), this)
  end.

Definition releaseRtpTcpPort (h : option handle) : SVS_RET_CODE * option handle :=
  match h with None => (RET_FAIL, None) | Some _ => (RET_OK, None) end.

(** [count]: [getStreamCount] of the handles. *)
Definition best_step (count : handle -> Z) (best : Z * option handle) (e : Z * handle) : Z * option handle :=
  if count e.2 <? best.1 then (count e.2, Some e.2) else best.

Definition allocEhomeMediaPort (count : handle -> Z) (this : CStreamMediaPort)
    : SVS_RET_CODE * option handle :=
  let '(_, h) := foldl (best_step count) (65535, None) (entries (m_EhomePortMap this)) in
  (match h with None => RET_FAIL | Some _ => RET_OK end, h).

(** ** The manager *)

(** [MEDIA_INTERFACE_MAP]: by address. *)
Abbreviation MEDIA_INTERFACE_MAP := (gmap Z CStreamMediaPort).

(** The loop of [initManager] over the internal and the external addresses; the
    answer of [new] and those of [init]. A port that cannot be initialised is
    deleted, but the destructor deletes no handle. *)
Fixpoint initManager (fuel : nat) (env : nat -> bool * init_env) (i : nat) (ipList : list Z)
    (tcp : Z) (udp : option MediaPortConfig) (en : Z) (ehome : MediaPortConfig) (m : MEDIA_INTERFACE_MAP)
    : option (SVS_RET_CODE * MEDIA_INTERFACE_MAP) :=
  match ipList with
  | [] => Some (RET_OK, m)
  | ip :: l =>
    if negb (env i).1 then Some (RET_FAIL, m)
    else
      '(r, port, _) ← init fuel (env i).2 ip tcp udp en ehome CStreamMediaPort_new;
      if negb (bool_decide (r = RET_OK)) then Some (RET_FAIL, m)
      else initManager fuel env (S i) l tcp udp en ehome (<[ip := port]> m)
  end.

Definition closeManager (m : MEDIA_INTERFACE_MAP) : MEDIA_INTERFACE_MAP := ∅.

Definition getMediaPort (ip : Z) (m : MEDIA_INTERFACE_MAP) : option CStreamMediaPort := m !! ip.

Definition mgr_allocRtpUdpPort (ip : Z) (m : MEDIA_INTERFACE_MAP)
    : SVS_RET_CODE * option RTP_UDP_PORT_INFO * MEDIA_INTERFACE_MAP :=
  match getMediaPort ip m with
  | None => (RET_FAIL, None, m)
  | Some p => let '(r, i, p) := allocRtpUdpPort p in (r, i, <[ip := p]> m)
  end.

Definition mgr_releaseRtpUdpPort (ip : Z) (rtp rtcp : option handle) (m : MEDIA_INTERFACE_MAP)
    : SVS_RET_CODE * (option handle * option handle) * MEDIA_INTERFACE_MAP :=
  match getMediaPort ip m with
  | None => (RET_FAIL, (rtp, rtcp), m)
  | Some p => let '(r, h, p) := releaseRtpUdpPort rtp rtcp p in (r, h, <[ip := p]> m)
  end.

Definition mgr_allocRtpTcpPort (ip : Z) (m : MEDIA_INTERFACE_MAP) : SVS_RET_CODE * option handle :=
  match getMediaPort ip m with None => (RET_FAIL, None) | Some p => (RET_OK, getTcpMediaHandle p) end.

Definition mgr_releaseRtpTcpPort (ip : Z) (h : option handle) (m : MEDIA_INTERFACE_MAP)
    : SVS_RET_CODE * option handle :=
  match getMediaPort ip m with None => (RET_FAIL, h) | Some _ => releaseRtpTcpPort h end.

Definition allocEhomePort (count : handle -> Z) (ip : Z) (m : MEDIA_INTERFACE_MAP)
    : SVS_RET_CODE * option handle :=
  match getMediaPort ip m with None => (RET_FAIL, None) | Some p => allocEhomeMediaPort count p end.

(** ** Maps in order *)

Section MapFacts.
Context {V : Type}.
Implicit Types m : gmap Z V.

#[export] Instance port_le_trans : Transitive (@port_le V).
Proof. intros ???. unfold port_le. lia. Qed.
#[export] Instance port_le_total : Total (@port_le V).
Proof. intros ??. unfold port_le. lia. Qed.

Lemma elem_entries m k v : (k, v) ∈ entries m <-> m !! k = Some v.
Proof. unfold entries. by rewrite merge_sort_Permutation, elem_of_map_to_list. Qed.

Lemma entries_sorted m : StronglySorted port_le (entries m).
Proof. apply (StronglySorted_merge_sort _). Qed.

Lemma map_begin_Some m k v : map_begin m = Some (k, v) ->
  m !! k = Some v /\ forall k', is_Some (m !! k') -> k <= k'.
Proof.
  unfold map_begin. intros H. pose proof (entries_sorted m) as Hs.
  destruct (entries m) as [|e l] eqn:El; [done|]. injection H as ->.
  split; [apply elem_entries; rewrite El; by constructor|]. intros k' [v' Hv%elem_entries].
  rewrite El in Hv. apply elem_of_cons in Hv as [[= -> _]|Hv]; [lia|].
  apply StronglySorted_inv in Hs as [_ Hs]. rewrite Forall_forall in Hs. by apply (Hs (k', v')) in Hv.
Qed.

Lemma map_begin_None m : map_begin m = None <-> m = ∅.
Proof.
  unfold map_begin. split.
  - intros H. apply map_empty. intros k. destruct (m !! k) as [v|] eqn:E; [|done].
    apply elem_entries in E. by destruct (entries m); [apply not_elem_of_nil in E|].
  - intros ->. unfold entries. by rewrite map_to_list_empty.
Qed.

Lemma insert_new_None m k v : m !! k = None -> insert_new k v m = <[k := v]> m.
Proof. unfold insert_new. by intros ->. Qed.
End MapFacts.

(** ** The list of ports *)

Definition range_ok (r : PortRange) : Prop := fits 16 (usStartPort r) /\ fits 16 (usEndPort r).

Lemma range_loop_from r n : forall fuel p, range_ok r ->
  0 < usStartPort r \/ usEndPort r < 65535 ->
  usStartPort r <= p -> p + Z.of_nat n = usEndPort r + 1 -> (n < fuel)%nat ->
  range_loop fuel r (u16 p) = Some (seqZ p (Z.of_nat n)).
Proof.
  induction n as [|n IH]; intros fuel p [Hs He] Hr Hp Hn Hf; (destruct fuel as [|fuel]; [lia|]);
    cbn [range_loop]; unfold fits in *.
  - destruct (Z.eq_dec p 65536) as [->|Hne].
    + change (u16 65536) with 0. destruct (Z.leb_spec (usStartPort r) 0); [lia|]. by rewrite andb_false_r.
    + unfold u16. rewrite wrap_small by solve_fits. destruct (Z.leb_spec p (usEndPort r)); [lia|done].
  - unfold u16. rewrite (wrap_small _ p) by solve_fits.
    rewrite (proj2 (Z.leb_le _ _)), (proj2 (Z.leb_le _ _)) by lia. cbn [andb].
    fold (u16 (p + 1)). rewrite IH by (done || lia). cbn.
    rewrite (seqZ_cons p) by lia. do 3 f_equal; lia.
Qed.

(** A range that is not the whole of the 16 bits is gone through. *)
Lemma range_loop_ok fuel r : range_ok r -> 0 < usStartPort r \/ usEndPort r < 65535 -> 65536 < Z.of_nat fuel ->
  range_loop fuel r (usStartPort r) = Some (seqZ (usStartPort r) (usEndPort r + 1 - usStartPort r)).
Proof.
  intros Hr H Hf. pose proof Hr as [Hs He]. unfold fits in *.
  rewrite <-(wrap_small 16 (usStartPort r)) at 1 by solve_fits. fold (u16 (usStartPort r)).
  destruct (Z.le_gt_cases (usStartPort r) (usEndPort r + 1)).
  - rewrite (range_loop_from r (Z.to_nat (usEndPort r + 1 - usStartPort r))) by (done || lia).
    by rewrite Z2Nat.id by lia.
  - destruct fuel as [|fuel]; [lia|]. unfold u16. rewrite wrap_small by solve_fits. cbn [range_loop].
    destruct (Z.leb_spec (usStartPort r) (usEndPort r)); [lia|]. cbn. by rewrite seqZ_nil by lia.
Qed.

Lemma range_loop_all fuel p : fits 16 p -> range_loop fuel {| usStartPort := 0; usEndPort := 65535 |} p = None.
Proof.
  revert p. induction fuel as [|fuel IH]; intros p Hp; cbn [range_loop usStartPort usEndPort]; [done|].
  unfold fits in *. rewrite (proj2 (Z.leb_le _ _)), (proj2 (Z.leb_le _ _)) by lia. cbn [andb].
  rewrite IH; [done|]. apply wrap_fits. lia.
Qed.

Definition in_range (r : PortRange) (p : Z) : Prop := usStartPort r <= p <= usEndPort r.
Definition in_ranges (l : list PortRange) (p : Z) : Prop := exists r, r ∈ l /\ in_range r p.

(** What [checkPortRange] promises. *)
Definition ranges_ok (l : list PortRange) : Prop :=
  Forall (fun r => range_ok r /\ 0 < usStartPort r <= usEndPort r) l /\
  ForallOrdPairs (fun r r' => forall p, in_range r p -> ~ in_range r' p) l.

Lemma existsb_false {T} (f : T -> bool) l : existsb f l = false <-> Forall (fun x => f x = false) l.
Proof.
  induction l as [|x l IH]; cbn; [split; constructor|]. by rewrite orb_false_iff, IH, Forall_cons.
Qed.

Lemma any_overlap_ok l : any_overlap l = false ->
  ForallOrdPairs (fun r r' => forall p, in_range r p -> ~ in_range r' p) l.
Proof.
  induction l as [|r l IH]; cbn; [constructor|]. intros [H1 H2]%orb_false_iff. constructor; [|by apply IH].
  apply existsb_false in H1. eapply Forall_impl; [exact H1|]. cbn. intros r' Ho p Hp Hp'.
  unfold overlap, in_range in *. repeat case_match; try done; lia.
Qed.

Lemma checkPortRange_ok num l : checkPortRange num l = Some RET_OK ->
  Forall range_ok l -> num <= zlen l /\ ranges_ok (take (Z.to_nat num) l).
Proof.
  unfold checkPortRange. destruct (num =? 0); [done|]. destruct (Z.ltb_spec (zlen l) num); [done|].
  destruct (existsb bad_range _) eqn:H1; [done|]. destruct (any_overlap _) eqn:H2; [done|]. intros _ Hl.
  split; [done|]. split; [|by apply any_overlap_ok]. apply existsb_false in H1.
  assert (Forall range_ok (take (Z.to_nat num) l)) as Hr by by apply Forall_take.
  induction Hr as [|r k Hr _ IH] in H1 |- *; [constructor|]. apply Forall_cons in H1 as [Hb H1].
  constructor; [|by apply IH]. split; [done|]. unfold bad_range, range_ok, fits in *.
  rewrite !orb_false_iff in Hb. lia.
Qed.

Lemma parse_loop_ok n : forall i s config, Forall range_ok (stPortRange config) ->
  Forall range_ok (stPortRange (parse_loop n i s config)).
Proof.
  induction n as [|n IH]; intros i s config Hc; cbn; [done|].
  assert (forall s, Forall range_ok (stPortRange (set_range i (parse_range s) config))) as Hset.
  { intros s0. cbn. apply Forall_insert; [done|]. split; apply wrap_fits; lia. }
  destruct (split_at 124 s) as [[a s']|]; [by apply IH|done].
Qed.

(** The configuration that is accepted. *)
Definition config_ok (config : MediaPortConfig) : Prop :=
  usPortRangeNum config <= zlen (stPortRange config) /\
  ranges_ok (take (Z.to_nat (usPortRangeNum config)) (stPortRange config)).

Lemma parsePortList_ok s config config' : parsePortList s config = Some (RET_OK, config') ->
  Forall range_ok (stPortRange config) -> config_ok config'.
Proof.
  unfold parsePortList. intros H Hc. cbv zeta in H.
  destruct (checkPortRange _ _) as [r|] eqn:Hr; [|done]. cbn in H. injection H as H <-.
  case_decide; [|done]. subst r. apply (checkPortRange_ok _ _ Hr). by apply parse_loop_ok.
Qed.

(** Ports of disjoint ranges: each once, and those of the ranges. *)
Lemma ports_loop_ok fuel l : 65536 < Z.of_nat fuel -> ranges_ok l ->
  exists ports, ports_loop fuel l = Some ports /\ NoDup ports /\ (forall p, p ∈ ports <-> in_ranges l p).
Proof.
  intros Hf. induction l as [|r l IH]; intros [Hr Hd]; cbn [ports_loop].
  - exists []. split; [done|]. split; [constructor|]. intros p. split; [by intros ?%not_elem_of_nil|].
    intros (r & ?%not_elem_of_nil & _). done.
  - apply Forall_cons in Hr as [[Hr Hse] Hl]. inversion Hd as [|?? Hdr Hdl]; subst.
    destruct (IH (conj Hl Hdl)) as (ports & E & Hn & Hin).
    rewrite range_loop_ok, E by (done || lia). cbn. eexists. split; [done|]. split.
    + apply NoDup_app. split; [apply NoDup_seqZ|]. split; [|done]. intros p Hp%elem_of_seqZ Hp'.
      apply Hin in Hp' as (r' & Hr' & Hp'). rewrite Forall_forall in Hdr. apply (Hdr r' Hr' p); [|done].
      unfold in_range. lia.
    + intros p. rewrite elem_of_app, elem_of_seqZ, Hin. unfold in_ranges. setoid_rewrite elem_of_cons. split.
      * intros [H|(r' & H1 & H2)]; [exists r; split; [by left|unfold in_range; lia]|eauto].
      * intros (r' & [->|H1] & H2); [left; unfold in_range in H2; lia|eauto].
Qed.

Lemma port_list_ok fuel config : 65536 < Z.of_nat fuel -> config_ok config ->
  exists ports, port_list fuel config = Some ports /\ NoDup ports /\
    forall p, p ∈ ports <-> in_ranges (take (Z.to_nat (usPortRangeNum config)) (stPortRange config)) p.
Proof.
  intros Hf [Hn Hr]. unfold port_list. destruct (Z.ltb_spec (zlen (stPortRange config)) (usPortRangeNum config)); [lia|].
  by apply ports_loop_ok.
Qed.

(** ** The pool of UDP ports *)

Definition pool (this : CStreamMediaPort) : gmap Z RTP_UDP_PORT_INFO :=
  m_UnUsedUdpPortMap this ∪ m_AllocUdpPortMap this.

(** A pair: an even port of the list, and the one behind it. *)
Definition pair_ok (allowed : Z -> Prop) (k : Z) (i : RTP_UDP_PORT_INFO) : Prop :=
  k mod 2 = 0 /\ h_port (pRtpHandle i) = k /\ h_port (pRtcpHandle i) = k + 1 /\ allowed k /\ allowed (k + 1).

Record pool_ok (allowed : Z -> Prop) (this : CStreamMediaPort) : Prop := {
  pool_disjoint : m_UnUsedUdpPortMap this ##ₘ m_AllocUdpPortMap this;
  pool_pairs : map_Forall (pair_ok allowed) (pool this);
  pool_count : m_unPortNum this = Z.of_nat (size (pool this)) }.

(** A handle that was deleted is not one of the pool's. *)
Definition gone (this : CStreamMediaPort) (h : handle) : Prop :=
  forall k, is_Some (pool this !! k) -> h_port h <> k /\ h_port h <> k + 1.

Lemma even_succ_fits p : fits 16 p -> p mod 2 = 0 -> u16 (p + 1) = p + 1.
Proof. intros H He. apply wrap_small. unfold fits in *. lia. Qed.

(** From [this] to [this'] by the ports [l], with the handles [d] deleted. *)
Record opened (all : list Z) (this this' : CStreamMediaPort) (l : list Z) (d : list handle) : Prop := {
  opened_ok : pool_ok (fun p => p ∈ all) this';
  opened_alloc : m_AllocUdpPortMap this' = ∅;
  opened_more : m_UnUsedUdpPortMap this ⊆ m_UnUsedUdpPortMap this';
  opened_from k : is_Some (pool this' !! k) -> is_Some (pool this !! k) \/ k ∈ l;
  opened_gone h : h ∈ d -> exists k, k ∈ l /\ k mod 2 = 0 /\ pool this' !! k = None /\
    (h_port h = k \/ h_port h = k + 1) }.

Lemma opened_nil all this : pool_ok (fun p => p ∈ all) this -> m_AllocUdpPortMap this = ∅ -> forall l, opened all this this l [].
Proof. intros H1 H2 l. constructor; [done|done|done|by left|]. by intros h ?%not_elem_of_nil. Qed.

Lemma opened_skip all this this' l d p : opened all this this' l d -> p ∉ l ->
  m_UnUsedUdpPortMap this !! p = None -> m_AllocUdpPortMap this = ∅ ->
  opened all this this' (p :: l) d /\ pool this' !! p = None.
Proof.
  intros [H1 H2 H3 H4 H5] Hp Hn Ha. split.
  - constructor; [done..| |].
    + intros k Hk. destruct (H4 k Hk); [by left|right; by constructor].
    + intros h Hh. destruct (H5 h Hh) as (k & Hk & ?). exists k. split; [by constructor|done].
  - destruct (pool this' !! p) eqn:Ep; [|done]. destruct (H4 p ltac:(by rewrite Ep)) as [[x Hx]|?]; [|done].
    unfold pool in Hx. by rewrite Ha, (right_id_L ∅ (∪)), Hn in Hx.
Qed.

Lemma opened_delete all this this' l d p h1 h2 : opened all this this' l d -> p ∉ l ->
  m_UnUsedUdpPortMap this !! p = None -> m_AllocUdpPortMap this = ∅ -> p mod 2 = 0 ->
  opened all this this' (p :: l) ({| h_addr := h1; h_port := p |} :: {| h_addr := h2; h_port := p + 1 |} :: d).
Proof.
  intros Ho Hp Hn Ha Hev. destruct (opened_skip _ _ _ _ _ p Ho) as [[H1 H2 H3 H4 H5] Hg]; [done..|].
  constructor; [done..|]. intros h Hh. rewrite !elem_of_cons in Hh. destruct Hh as [->|[->|Hh]]; [| |by apply H5].
  - exists p. split_and!; [by constructor|done..|by left].
  - exists p. split_and!; [by constructor|done..|by right].
Qed.

(** One more pair. *)
Lemma add_pair all this p i : pool_ok (fun p => p ∈ all) this -> m_AllocUdpPortMap this = ∅ ->
  m_UnUsedUdpPortMap this !! p = None -> pair_ok (fun p => p ∈ all) p i -> 0 <= m_unPortNum this -> m_unPortNum this + 1 < 2 ^ 32 ->
  let this' := with_udp (u32 (m_unPortNum this + 1)) (insert_new p i (m_UnUsedUdpPortMap this)) (m_AllocUdpPortMap this) this in
  opened all this this' [p] [] /\ m_unPortNum this' = m_unPortNum this + 1 /\
  m_UnUsedUdpPortMap this' = <[p := i]> (m_UnUsedUdpPortMap this).
Proof.
  intros [Hd Hp Hc] Ha Hn Hi H0 Hb this'. unfold this'. rewrite insert_new_None by done.
  assert (pool this = m_UnUsedUdpPortMap this) as Epool by (unfold pool; by rewrite Ha, (right_id_L ∅ (∪))).
  rewrite Epool in *. split; [|split; [|done]].
  - constructor; cbn.
    + constructor; unfold pool; cbn; rewrite Ha, ?(right_id_L ∅ (∪)).
      * apply map_disjoint_empty_r.
      * by apply map_Forall_insert_2.
      * rewrite map_size_insert_None by done. unfold u32. rewrite wrap_small by solve_fits. lia.
    + done.
    + by apply insert_subseteq.
    + unfold pool; cbn; rewrite Ha, ?(right_id_L ∅ (∪)). intros k Hk. destruct (decide (k = p)) as [->|].
      * right. by constructor.
      * left. by rewrite lookup_insert_ne in Hk.
    + by intros h ?%not_elem_of_nil.
  - cbn. unfold u32. rewrite wrap_small by solve_fits. done.
Qed.

Lemma opened_trans all t1 t2 t3 p l d : opened all t1 t2 [p] [] -> opened all t2 t3 l d -> opened all t1 t3 (p :: l) d.
Proof.
  intros [A1 A2 A3 A4 A5] [B1 B2 B3 B4 B5]. constructor; [done|done|by etrans| |].
  - intros k Hk. destruct (B4 k Hk) as [Hk2|Hk2]; [|right; by constructor].
    destruct (A4 k Hk2) as [?|Hk3]; [by left|]. apply list_elem_of_singleton in Hk3 as ->. right. by constructor.
  - intros h Hh. destruct (B5 h Hh) as (k & Hk & ?). exists k. split; [by constructor|done].
Qed.

Lemma udp_loop_ok all ans : Forall (fits 16) all -> forall l i this, NoDup l -> (forall p, p ∈ l -> p ∈ all) ->
  pool_ok (fun p => p ∈ all) this -> m_AllocUdpPortMap this = ∅ ->
  (forall p, p ∈ l -> m_UnUsedUdpPortMap this !! p = None) -> m_unPortNum this + zlen l < 2 ^ 32 ->
  exists r this' d, udp_loop all ans i l this = (r, this', d) /\ opened all this this' l d.
Proof.
  intros Hfit l. induction l as [|p l IH]; intros i this Hnd Hall Hok Ha Hnone Hlen; cbn [udp_loop].
  { exists RET_OK, this, []. split; [done|by apply opened_nil]. }
  apply NoDup_cons in Hnd as [Hp Hnd]. rewrite zlen_cons in Hlen.
  pose proof (Hall p ltac:(by constructor)) as Hpa.
  assert (fits 16 p) as Hpf by (rewrite Forall_forall in Hfit; by apply Hfit).
  assert (forall q, q ∈ l -> q ∈ all) as Hall' by (intros q Hq; apply Hall; by constructor).
  assert (forall q, q ∈ l -> m_UnUsedUdpPortMap this !! q = None) as Hnone' by (intros q Hq; apply Hnone; by constructor).
  pose proof (Hnone p ltac:(by constructor)) as Hpn.
  destruct (IH (S i) this Hnd Hall' Hok Ha Hnone' ltac:(lia)) as (r & t & d & E & Ho).
  assert (opened all this t (p :: l) d) as Hskip by by apply opened_skip.
  destruct (Z.eqb_spec (p mod 2) 0) as [Hev|_]; cbn [negb]; [|by exists r, t, d].
  rewrite (even_succ_fits p Hpf Hev).
  destruct (existsb (Z.eqb (p + 1)) all) eqn:Hin; cbn [negb]; [|by exists r, t, d].
  destruct (a_new (ans i)) as [[h1 h2]|]; [|exists RET_ERR_SYS_NEW, this, []; split; [done|by apply opened_nil]].
  destruct (a_open (ans i) && a_open2 (ans i)); cbn [negb].
  - apply existsb_exists in Hin as (q & Hq & <-%Z.eqb_eq). apply list_elem_of_In in Hq.
    edestruct (add_pair all this p {| pRtpHandle := {| h_addr := h1; h_port := p |};
      pRtcpHandle := {| h_addr := h2; h_port := p + 1 |} |} Hok Ha Hpn) as (Ho1 & Hn1 & Hu1);
      [done|destruct Hok as [_ _ ->]; lia|pose proof (zlen_nonneg l); lia|].
    edestruct (IH (S i)) as (r2 & t2 & d2 & E2 & Ho2); [done|done|apply Ho1|apply Ho1| |rewrite Hn1; lia|].
    { intros q Hq'. rewrite Hu1, lookup_insert_ne by (by intros ->). by apply Hnone'. }
    exists r2, t2, d2. split; [exact E2|]. by eapply opened_trans.
  - rewrite E. eexists r, t, _. split; [done|]. by apply opened_delete.
Qed.

(** *** Which pairs are made *)

(** The loop, from the [n]-th answer on, comes to the [i]-th port [k] of [l] and gets
    the handles [a] and [b] for it: [k] is even, the port behind it is one of
    all, and the handles of the candidates before it were there. *)
Definition tries (all : list Z) (ans : nat -> attempt) (n : nat) (l : list Z) (i : nat) (k a b : Z) : Prop :=
  l !! i = Some k /\ k mod 2 = 0 /\ k + 1 ∈ all /\ a_new (ans (n + i)%nat) = Some (a, b) /\
  forall j q, (j < i)%nat -> l !! j = Some q -> q mod 2 = 0 -> q + 1 ∈ all -> is_Some (a_new (ans (n + j)%nat)).

Definition opens (ans : nat -> attempt) (i : nat) : bool := a_open (ans i) && a_open2 (ans i).

Definition pair_at (k a b : Z) : RTP_UDP_PORT_INFO :=
  {| pRtpHandle := {| h_addr := a; h_port := k |}; pRtcpHandle := {| h_addr := b; h_port := k + 1 |} |}.

Lemma tries_skip all ans n p l i k a b : (p mod 2 = 0 -> p + 1 ∈ all -> is_Some (a_new (ans n))) ->
  tries all ans (S n) l i k a b -> tries all ans n (p :: l) (S i) k a b.
Proof.
  intros Hp (H1 & H2 & H3 & H4 & H5). split_and!; [done..|by rewrite Nat.add_succ_r|].
  intros [|j] q Hj Hq; cbn in Hq.
  - injection Hq as <-. rewrite Nat.add_0_r. done.
  - rewrite Nat.add_succ_r. apply H5; [lia|done].
Qed.

Lemma tries_inv all ans n p l i k a b : tries all ans n (p :: l) i k a b ->
  (i = 0%nat /\ k = p /\ p mod 2 = 0 /\ p + 1 ∈ all /\ a_new (ans n) = Some (a, b)) \/
  exists i', i = S i' /\ (p mod 2 = 0 -> p + 1 ∈ all -> is_Some (a_new (ans n))) /\ tries all ans (S n) l i' k a b.
Proof.
  intros (H1 & H2 & H3 & H4 & H5). destruct i as [|i]; cbn in H1.
  - left. injection H1 as ->. rewrite Nat.add_0_r in H4. done.
  - right. exists i. split; [done|]. rewrite Nat.add_succ_r in H4. split.
    + intros Hp Hs. specialize (H5 0%nat p ltac:(lia) eq_refl Hp Hs). by rewrite Nat.add_0_r in H5.
    + split_and!; [done..|]. intros j q Hj Hq He Hs. specialize (H5 (S j) q ltac:(lia) Hq He Hs).
      by rewrite Nat.add_succ_r in H5.
Qed.

(** The pairs in the map and the handles deleted by the loop over [l]. *)
Record makes (all : list Z) (ans : nat -> attempt) (n : nat) (l : list Z) (this this' : CStreamMediaPort) (d : list handle) : Prop := {
  makes_pool k info : m_UnUsedUdpPortMap this' !! k = Some info <-> m_UnUsedUdpPortMap this !! k = Some info \/
    exists i a b, tries all ans n l i k a b /\ opens ans (n + i) = true /\ info = pair_at k a b;
  makes_deleted h : h ∈ d <-> exists i k a b, tries all ans n l i k a b /\ opens ans (n + i) = false /\
    (h = pRtpHandle (pair_at k a b) \/ h = pRtcpHandle (pair_at k a b));
  makes_once : NoDup d;
  makes_tcp : m_pTcpMediaHandle this' = m_pTcpMediaHandle this }.

(** Nothing is made of the list. *)
Lemma makes_none all ans n l this : (forall i k a b, ~ tries all ans n l i k a b) -> makes all ans n l this this [].
Proof.
  intros H. split; [| |constructor|done].
  - intros k info. split; [by left|]. intros [?|(i & a & b & Ht & _)]; [done|]. by apply H in Ht.
  - intros h. split; [by intros ?%not_elem_of_nil|]. intros (i & k & a & b & Ht & _). by apply H in Ht.
Qed.

(** A port that is no candidate. *)
Lemma makes_skip all ans n p l this this' d : ~ (p mod 2 = 0 /\ p + 1 ∈ all) ->
  makes all ans (S n) l this this' d -> makes all ans n (p :: l) this this' d.
Proof.
  intros Hp [H1 H2 H3 H4].
  assert (forall i k a b, tries all ans (S n) l i k a b -> tries all ans n (p :: l) (S i) k a b) as Hto.
  { intros i k a b. apply tries_skip. intros. by destruct Hp. }
  assert (forall i k a b, tries all ans n (p :: l) i k a b -> exists i', i = S i' /\ tries all ans (S n) l i' k a b) as Hof.
  { intros i k a b [(_ & _ & ? & ? & _)|(i' & ? & _ & ?)]%tries_inv; [by destruct Hp|eauto]. }
  split; [| |done|done].
  - intros k info. rewrite H1. split; (intros [?|(i & a & b & Ht & Hr)]; [by left|right]).
    + exists (S i), a, b. rewrite Nat.add_succ_r. split; [by apply Hto|done].
    + apply Hof in Ht as (i' & -> & Ht). rewrite Nat.add_succ_r in Hr. by repeat first [eassumption|esplit].
  - intros h. rewrite H2. split; intros (i & k & a & b & Ht & Hr).
    + exists (S i), k, a, b. rewrite Nat.add_succ_r. split; [by apply Hto|done].
    + apply Hof in Ht as (i' & -> & Ht). rewrite Nat.add_succ_r in Hr. by repeat first [eassumption|esplit].
Qed.

Section Candidate.
Context (all : list Z) (ans : nat -> attempt) (n : nat) (p : Z) (l : list Z) (h1 h2 : Z).
Context (Hev : p mod 2 = 0) (Hin : p + 1 ∈ all) (Hnew : a_new (ans n) = Some (h1, h2)) (Hpl : p ∉ l).

Lemma tries_here : tries all ans n (p :: l) 0 p h1 h2.
Proof using All. split_and!; [done..|by rewrite Nat.add_0_r|]. intros j q Hj. lia. Qed.

Lemma tries_next i k a b : tries all ans (S n) l i k a b -> tries all ans n (p :: l) (S i) k a b.
Proof using All. apply tries_skip. intros _ _. by rewrite Hnew. Qed.

Lemma tries_cases i k a b : tries all ans n (p :: l) i k a b ->
  (i = 0%nat /\ k = p /\ a = h1 /\ b = h2) \/ exists i', i = S i' /\ tries all ans (S n) l i' k a b.
Proof using All.
  intros [(-> & -> & _ & _ & E1)|(i' & -> & _ & Ht)]%tries_inv; [left|by right; eauto].
  rewrite Hnew in E1. by injection E1 as -> ->.
Qed.

(** A pair that was opened. *)
Lemma makes_open this this1 this' d : opens ans n = true -> m_UnUsedUdpPortMap this !! p = None ->
  m_UnUsedUdpPortMap this1 = <[p := pair_at p h1 h2]> (m_UnUsedUdpPortMap this) ->
  m_pTcpMediaHandle this1 = m_pTcpMediaHandle this ->
  makes all ans (S n) l this1 this' d -> makes all ans n (p :: l) this this' d.
Proof using All.
  intros Ho Hn Hu Htcp [H1 H2 H3 H4]. split; [| |done|by rewrite H4].
  - intros k info. rewrite H1, Hu, lookup_insert_Some. split.
    + intros [[[<- <-]|[_ ?]]|(i & a & b & Ht & Hr)]; [right|by left|right].
      * exists 0%nat, h1, h2. rewrite Nat.add_0_r. split; [apply tries_here|done].
      * exists (S i), a, b. rewrite Nat.add_succ_r. split; [by apply tries_next|done].
    + intros [Hk|(i & a & b & [(-> & -> & -> & ->)|(i' & -> & Ht)]%tries_cases & Hr)].
      * left; right. split; [|done]. intros ->. congruence.
      * left; left. by destruct Hr as [_ ->].
      * right. exists i', a, b. by rewrite Nat.add_succ_r in Hr.
  - intros h. rewrite H2. split; intros (i & k & a & b & Ht & Hr).
    + exists (S i), k, a, b. rewrite Nat.add_succ_r. split; [by apply tries_next|done].
    + apply tries_cases in Ht as [(-> & _)|(i' & -> & Ht)].
      * rewrite Nat.add_0_r, Ho in Hr. by destruct Hr.
      * rewrite Nat.add_succ_r in Hr. by repeat first [eassumption|esplit].
Qed.

(** A pair that was not. *)
Lemma makes_delete this this' d : opens ans n = false ->
  makes all ans (S n) l this this' d ->
  makes all ans n (p :: l) this this' (pRtpHandle (pair_at p h1 h2) :: pRtcpHandle (pair_at p h1 h2) :: d).
Proof using All.
  intros Ho [H1 H2 H3 H4]. split; [| | |done].
  - intros k info. rewrite H1. split; (intros [?|(i & a & b & Ht & Hr)]; [by left|right]).
    + exists (S i), a, b. rewrite Nat.add_succ_r. split; [by apply tries_next|done].
    + apply tries_cases in Ht as [(-> & _)|(i' & -> & Ht)].
      * rewrite Nat.add_0_r, Ho in Hr. by destruct Hr.
      * rewrite Nat.add_succ_r in Hr. by repeat first [eassumption|esplit].
  - intros h. rewrite !elem_of_cons, H2. split.
    + intros [->|[->|(i & k & a & b & Ht & Hr)]].
      1-2: exists 0%nat, p, h1, h2; rewrite Nat.add_0_r; split; [apply tries_here|auto].
      exists (S i), k, a, b. rewrite Nat.add_succ_r. split; [by apply tries_next|done].
    + intros (i & k & a & b & [(-> & -> & -> & ->)|(i' & -> & Ht)]%tries_cases & Ho' & Hh); [destruct Hh; auto|].
      right; right. exists i', k, a, b. by rewrite Nat.add_succ_r in Ho'.
  - assert (forall h, h ∈ d -> h_port h <> p /\ h_port h <> p + 1) as Hd.
    { intros h (i & k & a & b & (Hk & Hke & _) & _ & Hh)%H2.
      assert (k <> p) by (intros ->; apply Hpl; by eapply list_elem_of_lookup_2).
      destruct Hh as [-> | ->]; cbn; split; lia. }
    apply NoDup_cons. split; [rewrite elem_of_cons; intros [E|[Hh _]%Hd]|apply NoDup_cons; split; [intros [_ Hh]%Hd|done]].
    + apply (f_equal h_port) in E. cbn in E. lia.
    + done.
    + done.
Qed.
End Candidate.

Lemma udp_loop_makes all ans : Forall (fits 16) all -> forall l n this, NoDup l -> (forall p, p ∈ l -> p ∈ all) ->
  (forall p, p ∈ l -> m_UnUsedUdpPortMap this !! p = None) ->
  exists r this' d, udp_loop all ans n l this = (r, this', d) /\ makes all ans n l this this' d.
Proof.
  intros Hfit l. induction l as [|p l IH]; intros n this Hnd Hall Hnone; cbn [udp_loop].
  { exists RET_OK, this, []. split; [done|]. apply makes_none. by intros i k a b (Hk & _). }
  apply NoDup_cons in Hnd as [Hp Hnd].
  assert (fits 16 p) as Hpf by (rewrite Forall_forall in Hfit; apply Hfit, Hall; by constructor).
  assert (forall q, q ∈ l -> q ∈ all) as Hall' by (intros q Hq; apply Hall; by constructor).
  assert (forall q, q ∈ l -> m_UnUsedUdpPortMap this !! q = None) as Hnone' by (intros q Hq; apply Hnone; by constructor).
  pose proof (Hnone p ltac:(by constructor)) as Hpn.
  destruct (IH (S n) this Hnd Hall' Hnone') as (r & t & d & E & Hm).
  destruct (Z.eqb_spec (p mod 2) 0) as [Hev|Hev]; cbn [negb].
  2: { exists r, t, d. split; [exact E|]. apply makes_skip; [by intros [? _]|done]. }
  rewrite (even_succ_fits p Hpf Hev).
  destruct (existsb (Z.eqb (p + 1)) all) eqn:Hx; cbn [negb].
  2: { exists r, t, d. split; [exact E|]. apply makes_skip; [|done]. intros [_ Hs].
       apply not_true_iff_false in Hx. apply Hx, existsb_exists. exists (p + 1).
       split; [by apply list_elem_of_In|apply Z.eqb_refl]. }
  apply existsb_exists in Hx as (q & Hq & <-%Z.eqb_eq). apply list_elem_of_In in Hq.
  destruct (a_new (ans n)) as [[h1 h2]|] eqn:Hnew.
  2: { exists RET_ERR_SYS_NEW, this, []. split; [done|]. apply makes_none.
       intros i k a b [(_ & _ & _ & _ & ?)|(i' & _ & Hs & _)]%tries_inv; [congruence|].
       destruct (Hs Hev Hq) as [? ?]. congruence. }
  fold (opens ans n). destruct (opens ans n) eqn:Ho; cbn [negb].
  - change (exists r this' d, udp_loop all ans (S n) l (with_udp (u32 (m_unPortNum this + 1))
      (insert_new p (pair_at p h1 h2) (m_UnUsedUdpPortMap this)) (m_AllocUdpPortMap this) this) = (r, this', d) /\
      makes all ans n (p :: l) this this' d).
    rewrite insert_new_None by done. set (this1 := with_udp _ _ _ _).
    destruct (IH (S n) this1) as (r2 & t2 & d2 & E2 & Hm2); [done|done| |].
    { cbn. intros q Hq'. rewrite lookup_insert_ne by (by intros ->). by apply Hnone'. }
    exists r2, t2, d2. split; [exact E2|]. by apply (makes_open all ans n p l h1 h2) with (this1 := this1).
  - rewrite E. eexists r, t, _. split; [done|]. by apply makes_delete.
Qed.

Lemma fits16_length l : NoDup l -> Forall (fits 16) l -> zlen l <= 2 ^ 16.
Proof.
  intros Hn Hf. assert (l ⊆+ seqZ 0 (2 ^ 16)) as H.
  { apply NoDup_submseteq; [done|]. intros p Hp. rewrite Forall_forall in Hf. apply elem_of_seqZ.
    specialize (Hf p Hp). unfold fits in Hf. lia. }
  apply submseteq_length in H. rewrite length_seqZ in H. unfold zlen. lia.
Qed.

Lemma pool_ok_mono (P Q : Z -> Prop) this : (forall p, P p -> Q p) -> pool_ok P this -> pool_ok Q this.
Proof.
  intros HPQ [H1 H2 H3]. constructor; [done| |done]. intros k i Hi. destruct (H2 k i Hi) as (?&?&?&?&?).
  split_and!; auto.
Qed.

Lemma createRtpUdpPort_ok ans l this : NoDup l -> Forall (fits 16) l ->
  m_UnUsedUdpPortMap this = ∅ -> m_AllocUdpPortMap this = ∅ -> m_unPortNum this = 0 ->
  exists r this' d, createRtpUdpPort ans l this = (r, this', d) /\ pool_ok (fun p => p ∈ l) this' /\
    m_AllocUdpPortMap this' = ∅ /\ Forall (gone this') d /\ makes l ans 0 l this this' d.
Proof.
  intros Hn Hf Hu Ha H0.
  assert (pool_ok (fun p => p ∈ l) this) as Hok.
  { assert (pool this = ∅) as Ep by (unfold pool; by rewrite Hu, Ha, (left_id_L ∅ (∪))).
    constructor; rewrite ?Ep, ?H0, ?Ha; [apply map_disjoint_empty_r|apply map_Forall_empty|by rewrite map_size_empty]. }
  destruct (udp_loop_ok l ans Hf l 0 this Hn (fun p H => H) Hok Ha) as (r & this' & d & E & [H1 H2 _ _ H5]).
  - intros p _. by rewrite Hu.
  - rewrite H0. pose proof (fits16_length l Hn Hf). lia.
  - exists r, this', d. split_and!; [done..| |].
    + apply Forall_forall. intros h Hh k [i Hk].
      destruct (H5 h Hh) as (p & _ & Hp & Hnone & Hport). destruct (pool_pairs _ _ H1 k i Hk) as (Hk2 & _).
      assert (k <> p) as Hne by congruence. lia.
    + destruct (udp_loop_makes l ans Hf l 0 this Hn (fun p H => H)) as (r2 & t2 & d2 & E2 & Hm); [by intros p _; rewrite Hu|].
      rewrite E in E2. by injection E2 as <- <- <-.
Qed.

(** A handle of the second part of [init] that was deleted: that of the TCP port, or of an eHome
    port, that could not be opened. *)
Definition not_opened (fuel : nat) (env : init_env) (tcp : Z) (ehome : MediaPortConfig) (h : handle) : Prop :=
  (exists a, tcp_new env = Some a /\ tcp_open env = false /\ h = {| h_addr := a; h_port := tcp |}) \/
  (exists l i p a b, port_list fuel ehome = Some l /\ l !! i = Some p /\ a_new (ehome_ans env i) = Some (a, b) /\
    a_open (ehome_ans env i) = false /\ h = {| h_addr := a; h_port := p |}).

Lemma createEhomePort_deleted ans l : forall n this,
  Forall (fun h => exists i p a b, l !! i = Some p /\ a_new (ans (n + i)%nat) = Some (a, b) /\
    a_open (ans (n + i)%nat) = false /\ h = {| h_addr := a; h_port := p |}) (createEhomePort ans n l this).2.
Proof.
  induction l as [|p l IH]; intros n this; cbn [createEhomePort]; [constructor|].
  assert (forall d, Forall (fun h => exists i q a b, l !! i = Some q /\ a_new (ans (S n + i)%nat) = Some (a, b) /\
      a_open (ans (S n + i)%nat) = false /\ h = {| h_addr := a; h_port := q |}) d ->
    Forall (fun h => exists i q a b, (p :: l) !! i = Some q /\ a_new (ans (n + i)%nat) = Some (a, b) /\
      a_open (ans (n + i)%nat) = false /\ h = {| h_addr := a; h_port := q |}) d) as Hnext.
  { intros d Hd. eapply Forall_impl; [exact Hd|]. intros h (i & q & a & b & Hh). exists (S i), q, a, b.
    by rewrite Nat.add_succ_r. }
  destruct (a_new (ans n)) as [[a b]|] eqn:En; [|constructor]. destruct (a_open (ans n)) eqn:Eo; cbn [negb].
  - apply Hnext, IH.
  - specialize (IH (S n) this). destruct (createEhomePort _ _ _ _) as [[r t] d]. constructor; [|by apply Hnext].
    exists 0%nat, p, a, b. by rewrite Nat.add_0_r.
Qed.

Lemma createEhomePort_udp ans l : forall i this,
  let '(_, this', _) := createEhomePort ans i l this in
  m_UnUsedUdpPortMap this' = m_UnUsedUdpPortMap this /\ m_AllocUdpPortMap this' = m_AllocUdpPortMap this /\
  m_unPortNum this' = m_unPortNum this.
Proof.
  induction l as [|p l IH]; intros i this; cbn [createEhomePort]; [done|].
  destruct (a_new (ans i)) as [[h _]|]; [|done]. destruct (a_open (ans i)); cbn [negb].
  - match goal with |- context [createEhomePort ans (S i) l ?t] => specialize (IH (S i) t) end.
    by destruct (createEhomePort _ _ _ _) as [[r t] d].
  - specialize (IH (S i) this). by destruct (createEhomePort _ _ _ _) as [[r t] d].
Qed.

Definition udp_part (this this' : CStreamMediaPort) : Prop :=
  m_UnUsedUdpPortMap this' = m_UnUsedUdpPortMap this /\ m_AllocUdpPortMap this' = m_AllocUdpPortMap this /\
  m_unPortNum this' = m_unPortNum this.

Lemma udp_part_ok P this this' : udp_part this this' -> pool_ok P this -> pool_ok P this'.
Proof. intros (E1 & E2 & E3) [H1 H2 H3]. constructor; unfold pool in *; by rewrite ?E1, ?E2, ?E3. Qed.

Definition allowed (config : MediaPortConfig) : Z -> Prop :=
  in_ranges (take (Z.to_nat (usPortRangeNum config)) (stPortRange config)).

Lemma init_rest_ok fuel env tcp en ehome this : 65536 < Z.of_nat fuel -> config_ok ehome ->
  m_pTcpMediaHandle this = None ->
  exists r this' d, init_rest fuel env tcp en ehome this = Some (r, this', d) /\ udp_part this this' /\
    (r = RET_OK <-> is_Some (tcp_new env) /\ tcp_open env = true /\ (en = 0 \/ ehome_init env = true)) /\
    Forall (not_opened fuel env tcp ehome) d.
Proof.
  intros Hf He H0. destruct (port_list_ok fuel ehome Hf He) as (l & El & _).
  unfold init_rest, createRtpTcpPort. destruct (tcp_new env) as [h|] eqn:Eh.
  2:{ rewrite H0. eexists _, _, _. split; [done|]. split; [done|]. split; [split; [done|]; by intros [[? ?] _]|constructor]. }
  destruct (tcp_open env) eqn:Eo.
  2:{ eexists _, _, _. split; [done|]. split; [done|]. split; [split; [done|]; by intros (_ & ? & _)|].
      apply Forall_singleton. left. eauto. }
  cbn. destruct (Z.eqb_spec en 0) as [->|Hen].
  { eexists _, _, _. split; [done|]. split; [done|]. split; [split; [|done]; intros _; split_and!; eauto|constructor]. }
  destruct (ehome_init env); cbn [negb].
  2:{ eexists _, _, _. split; [done|]. split; [done|]. split; [split; [done|]; by intros (_ & _ & [?|?])|constructor]. }
  rewrite El. cbn.
  match goal with |- context [createEhomePort ?a 0 l ?t] => pose proof (createEhomePort_udp a l 0 t) as Hu;
    pose proof (createEhomePort_deleted a l 0 t) as Hd; destruct (createEhomePort a 0 l t) as [[r this'] d] end.
  eexists _, _, _. split; [done|]. split; [exact Hu|]. split; [split; [|done]; intros _; split_and!; eauto|].
  eapply Forall_impl; [exact Hd|]. intros hd (i & p & a & b & Hh). right. by exists l, i, p, a, b.
Qed.

(** What [init] does with configurations [checkPortRange] has accepted. *)
Lemma port_init_ok fuel env ip tcp udp en ehome : 65536 < Z.of_nat fuel -> config_ok udp -> config_ok ehome -> ip <> 0 ->
  exists l r this d1 d2, port_list fuel udp = Some l /\ NoDup l /\ (forall p, p ∈ l <-> allowed udp p) /\
    init fuel env ip tcp (Some udp) en ehome CStreamMediaPort_new = Some (r, this, d1 ++ d2) /\
    (r = RET_OK <-> is_Some (tcp_new env) /\ tcp_open env = true /\ (en = 0 \/ ehome_init env = true)) /\
    pool_ok (allowed udp) this /\ m_AllocUdpPortMap this = ∅ /\
    makes l (udp_ans env) 0 l CStreamMediaPort_new (with_tcp None this) d1 /\
    Forall (gone this) d1 /\ Forall (not_opened fuel env tcp ehome) d2.
Proof.
  intros Hf Hu He Hip. destruct (port_list_ok fuel udp Hf Hu) as (l & El & Hn & Hin).
  unfold init. destruct (Z.eqb_spec ip 0) as [|_]; [done|]. rewrite El. cbn [mbind option_bind].
  assert (Forall (fits 16) l) as Hfit.
  { apply Forall_forall. intros p Hp. apply Hin in Hp as (r & Hr & Hp). destruct Hu as [_ [Hu _]].
    rewrite Forall_forall in Hu. destruct (Hu r Hr) as [[[H1 H2] [H3 H4]] _]. unfold in_range in Hp. split; lia. }
  destruct (createRtpUdpPort_ok (udp_ans env) l CStreamMediaPort_new Hn Hfit) as (r1 & t1 & d1 & -> & H1 & H2 & H3 & H4);
    [done..|].
  destruct (init_rest_ok fuel env tcp en ehome t1 Hf He (makes_tcp _ _ _ _ _ _ _ H4)) as (r & this & d & -> & Hpart & Hr & Hd).
  exists l, r, this, d1, d. do 4 (split; [done|]). split; [exact Hr|]. pose proof Hpart as (E1 & E2 & E3). split_and!.
  - eapply udp_part_ok; [exact Hpart|]. eapply pool_ok_mono; [|exact H1]. intros p. apply Hin.
  - congruence.
  - destruct H4 as [M1 M2 M3 M4]. split; [|done|done|done]. intros k info. cbn. by rewrite E1, M1.
  - eapply Forall_impl; [exact H3|]. intros h Hh k Hk. apply Hh. unfold pool in *. by rewrite <-E1, <-E2.
  - exact Hd.
Qed.

(** ** Lending *)

Abbreviation rtp_port i := (h_port (pRtpHandle i)).

(** Callers take pairs and give back what they hold. *)
Inductive lends (this0 : CStreamMediaPort) : list RTP_UDP_PORT_INFO -> CStreamMediaPort -> Prop :=
| lends_nil : lends this0 [] this0
| lends_alloc held this i this' : lends this0 held this ->
    allocRtpUdpPort this = (RET_OK, Some i, this') -> lends this0 (i :: held) this'
| lends_release held1 i held2 this hs this' : lends this0 (held1 ++ i :: held2) this ->
    releaseRtpUdpPort (Some (pRtpHandle i)) (Some (pRtcpHandle i)) this = (RET_OK, hs, this') ->
    lends this0 (held1 ++ held2) this'.

Definition lent (P : Z -> Prop) (this0 : CStreamMediaPort) (held : list RTP_UDP_PORT_INFO) (this : CStreamMediaPort) : Prop :=
  pool this = pool this0 /\ pool_ok P this /\ held ≡ₚ (map_to_list (m_AllocUdpPortMap this)).*2.

Lemma alloc_pair P this k i : pool_ok P this -> m_AllocUdpPortMap this !! k = Some i -> pair_ok P k i.
Proof. intros [H1 H2 _] Hk. apply (H2 k i). apply lookup_union_Some; auto. Qed.

(** Moving a pair from one map to the other. *)
Lemma move_pair (u a : gmap Z RTP_UDP_PORT_INFO) k i : u ##ₘ a -> u !! k = Some i ->
  delete k u ∪ <[k := i]> a = u ∪ a /\ delete k u ##ₘ <[k := i]> a.
Proof.
  intros Hd Hk. split.
  - rewrite <-insert_union_r by apply lookup_delete_eq. rewrite insert_union_l, insert_delete_id; done.
  - apply map_disjoint_insert_r. split; [apply lookup_delete_eq|]. by apply map_disjoint_delete_l.
Qed.

Lemma alloc_step P this0 held this i this' : lent P this0 held this ->
  allocRtpUdpPort this = (RET_OK, Some i, this') ->
  lent P this0 (i :: held) this' /\ m_UnUsedUdpPortMap this !! rtp_port i = Some i /\
  (forall k, is_Some (m_UnUsedUdpPortMap this !! k) -> rtp_port i <= k).
Proof.
  intros (Hp & Hok & Hh) H. pose proof Hok as [Hd Hpairs Hc]. unfold allocRtpUdpPort in H.
  destruct (map_begin (m_UnUsedUdpPortMap this)) as [[k j]|] eqn:Hb; [|done].
  injection H as -> <-. apply map_begin_Some in Hb as [Hk Hmin].
  assert (m_AllocUdpPortMap this !! k = None) as Hka by (by eapply map_disjoint_Some_l).
  rewrite insert_new_None by done.
  destruct (move_pair _ _ k i Hd Hk) as [Hu Hd'].
  destruct (Hpairs k i) as (_ & Hport & _); [by apply lookup_union_Some_l|]. rewrite Hport.
  split; [|by split]. split; [unfold pool; cbn; by rewrite Hu|]. split.
  - constructor; unfold pool; cbn; rewrite ?Hu; done.
  - cbn. rewrite map_to_list_insert by done. cbn. by rewrite Hh.
Qed.

Lemma release_step P this0 held1 i held2 this : lent P this0 (held1 ++ i :: held2) this ->
  exists this', releaseRtpUdpPort (Some (pRtpHandle i)) (Some (pRtcpHandle i)) this = (RET_OK, (None, None), this') /\
    lent P this0 (held1 ++ held2) this'.
Proof.
  intros (Hp & Hok & Hh). pose proof Hok as [Hd Hpairs Hc].
  assert (exists k, m_AllocUdpPortMap this !! k = Some i) as [k Hk].
  { assert (i ∈ (map_to_list (m_AllocUdpPortMap this)).*2) as Hi.
    { rewrite <-Hh. apply elem_of_app. right. by constructor. }
    apply list_elem_of_fmap in Hi as ([k j] & -> & Hk). exists k. by apply elem_of_map_to_list. }
  destruct (alloc_pair _ _ _ _ Hok Hk) as (_ & Hport & _).
  unfold releaseRtpUdpPort. rewrite Hport, Hk. eexists. split; [done|].
  assert (m_UnUsedUdpPortMap this !! k = None) as Hku by (by eapply map_disjoint_Some_r).
  rewrite insert_new_None by done.
  destruct (move_pair (m_AllocUdpPortMap this) (m_UnUsedUdpPortMap this) k i) as [Hu Hd']; [by symmetry|done|].
  rewrite map_union_comm in Hu by done. rewrite (map_union_comm (m_AllocUdpPortMap this)) in Hu by done.
  split; [unfold pool; cbn; by rewrite Hu|]. split.
  - constructor; unfold pool; cbn; rewrite ?Hu; [by symmetry|done|done].
  - cbn. apply (Permutation_cons_inv (a := i)). rewrite Permutation_middle, Hh.
    by rewrite <-(map_to_list_delete (m_AllocUdpPortMap this) k i Hk).
Qed.

Lemma lends_lent P this0 held this : pool_ok P this0 -> m_AllocUdpPortMap this0 = ∅ ->
  lends this0 held this -> lent P this0 held this.
Proof.
  intros Hok Ha. induction 1 as [|held this i this' _ IH H|held1 i held2 this hs this' _ IH H].
  - split; [done|]. split; [done|]. by rewrite Ha, map_to_list_empty.
  - by apply (alloc_step _ _ _ _ _ _ IH H).
  - destruct (release_step _ _ _ _ _ _ IH) as (t & E & Hl). rewrite H in E. by injection E as _ ->.
Qed.

Lemma lent_nodup P this0 held this : lent P this0 held this ->
  NoDup ((fun i => rtp_port i) <$> held) /\ length held = size (m_AllocUdpPortMap this) /\
  forall i, i ∈ held -> m_AllocUdpPortMap this !! rtp_port i = Some i.
Proof.
  intros (Hp & Hok & Hh). split_and!.
  - rewrite Hh, <-list_fmap_compose.
    rewrite (list_fmap_ext _ fst); [apply NoDup_fst_map_to_list|].
    intros n [k i] Hl. apply list_elem_of_lookup_2, elem_of_map_to_list in Hl.
    by destruct (alloc_pair _ _ _ _ Hok Hl) as (_ & ? & _).
  - by rewrite Hh, length_fmap, length_map_to_list.
  - intros i Hi. rewrite Hh in Hi. apply list_elem_of_fmap in Hi as ([k j] & -> & Hk).
    apply elem_of_map_to_list in Hk. cbn.
    by destruct (alloc_pair _ _ _ _ Hok Hk) as (_ & -> & _).
Qed.

(** ** The eHome handles *)

(** The handle [allocEhomeMediaPort] gives: the least loaded one, the first of
    them in the order of the ports. *)
Definition least_loaded (count : handle -> Z) (l : list (Z * handle)) (best : Z * option handle) : Prop :=
  match best.2 with
  | None => best.1 = 65535 /\ forall e, e ∈ l -> 65535 <= count e.2
  | Some h => best.1 = count h /\ exists l1 k l2, l = l1 ++ (k, h) :: l2 /\ count h < 65535 /\
      (forall e, e ∈ l1 -> count h < count e.2) /\ (forall e, e ∈ l2 -> count h <= count e.2)
  end.

Lemma least_loaded_snoc count l best e : least_loaded count l best ->
  least_loaded count (l ++ [e]) (best_step count best e).
Proof.
  destruct best as [m [h|]], e as [k h']; unfold least_loaded, best_step; cbn.
  - intros (-> & l1 & k1 & l2 & -> & Hlt & H1 & H2). destruct (Z.ltb_spec (count h') (count h)); cbn.
    + split; [done|]. exists (l1 ++ (k1, h) :: l2), k, []. split_and!; [done|lia| |by intros ? ?%not_elem_of_nil].
      intros x. rewrite elem_of_app, elem_of_cons. intros [Hx|[->|Hx]]; [|done|].
      * specialize (H1 x Hx). lia.
      * specialize (H2 x Hx). lia.
    + split; [done|]. exists l1, k1, (l2 ++ [(k, h')]). rewrite <-app_assoc. split_and!; [done..|].
      intros x. rewrite elem_of_app, list_elem_of_singleton. intros [Hx| ->]; [by apply H2|done].
  - intros [-> H]. destruct (Z.ltb_spec (count h') 65535); cbn.
    + split; [done|]. exists l, k, []. split_and!; [done|done| |by intros ? ?%not_elem_of_nil].
      intros x Hx. specialize (H x Hx). lia.
    + split; [done|]. intros x. rewrite elem_of_app, list_elem_of_singleton. intros [Hx| ->]; [by apply H|done].
Qed.

Lemma least_loaded_foldl count l : least_loaded count l (foldl (best_step count) (65535, None) l).
Proof.
  induction l as [|e l IH] using rev_ind; [split; [done|by intros ? ?%not_elem_of_nil]|].
  rewrite foldl_app. by apply least_loaded_snoc.
Qed.

(** ** The text of a configuration *)

Definition print_range (r : PortRange) : list Z := decimal (usStartPort r) ++ 44 :: decimal (usEndPort r).
Fixpoint print_ranges (l : list PortRange) : list Z :=
  match l with
  | [] => []
  | [r] => print_range r
  | r :: l => print_range r ++ 124 :: print_ranges l
  end.

Lemma print_range_no_bar r : range_ok r -> Forall (fun x => x <> 124) (print_range r).
Proof.
  intros [Hs He]. apply Forall_app_2; [|constructor; [done|]]; apply decimal_not; (done || by eapply fits_mono).
Qed.

Lemma parse_print_range r : range_ok r -> parse_range (print_range r) = r.
Proof.
  intros [Hs He]. unfold parse_range, print_range. rewrite atoi_decimal by (done || by eapply fits_mono).
  rewrite split_at_app by (apply decimal_not; (done || by eapply fits_mono)).
  rewrite <-(app_nil_r (decimal (usEndPort r))).
  rewrite atoi_decimal by (done || by eapply fits_mono). cbv zeta. unfold u16. rewrite !wrap_small by done. by destruct r.
Qed.

Lemma parse_print_loop l : forall n i config, l <> [] -> Forall range_ok l -> (length l <= n)%nat ->
  (i + length l <= length (stPortRange config))%nat -> fits 16 (usPortRangeNum config + zlen l) -> 0 <= usPortRangeNum config ->
  parse_loop n i (print_ranges l) config =
    {| usPortRangeNum := usPortRangeNum config + zlen l;
       stPortRange := take i (stPortRange config) ++ l ++ drop (i + length l) (stPortRange config) |}.
Proof.
  induction l as [|r l IH]; intros n i config Hne Hl Hn Hi Hf H0; [done|].
  apply Forall_cons in Hl as [Hr Hl]. destruct n as [|n]; [cbn in Hn; lia|].
  rewrite zlen_cons in *. cbn [length] in *. pose proof (zlen_nonneg l).
  assert (stPortRange (set_range i r config) = take i (stPortRange config) ++ [r] ++ drop (S i) (stPortRange config)) as Eset.
  { cbn [set_range stPortRange]. rewrite insert_take_drop by lia. done. }
  assert (usPortRangeNum (set_range i r config) = usPortRangeNum config + 1) as En.
  { cbn. apply wrap_small. solve_fits. }
  destruct l as [|r' l].
  - cbn [print_ranges parse_loop]. rewrite split_at_none by by apply print_range_no_bar.
    rewrite parse_print_range by done. rewrite zlen_nil, Z.add_0_r in *.
    rewrite <-En, Nat.add_1_r. rewrite <-Eset. by destruct (set_range i r config).
  - cbn [parse_loop]. change (print_ranges (r :: r' :: l)) with (print_range r ++ 124 :: print_ranges (r' :: l)).
    rewrite split_at_app by by apply print_range_no_bar. rewrite parse_print_range by done.
    assert (length (take i (stPortRange config)) = i) as Ei by (rewrite length_take; lia).
    rewrite IH; [|done|done|lia| |rewrite En; by replace (usPortRangeNum config + 1 + zlen (r' :: l)) with (usPortRangeNum config + (1 + zlen (r' :: l))) by lia|lia].
    + rewrite En, Eset. f_equal; [lia|].
      rewrite take_app_ge, Ei by lia. replace (S i - i)%nat with 1%nat by lia. cbn [take app].
      rewrite <-app_assoc. cbn [app]. do 3 f_equal.
      rewrite drop_app_ge, Ei by lia. replace (S i + length (r' :: l) - i)%nat with (S (length (r' :: l))) by lia.
      cbn [drop]. rewrite drop_drop, take_0. cbn [app]. do 3 f_equal. lia.
    + rewrite Eset, length_app, Ei. cbn [length app]. rewrite length_drop. cbn [length] in *. lia.
Qed.

Lemma checkPortRange_accepts l rest : l <> [] -> ranges_ok l ->
  checkPortRange (zlen l) (l ++ rest) = Some RET_OK.
Proof.
  intros Hne [Hr Hd]. unfold checkPortRange.
  assert (zlen l <> 0) as Hz. { destruct l; [done|]. rewrite zlen_cons. pose proof (zlen_nonneg l). lia. }
  rewrite (proj2 (Z.eqb_neq _ _)) by done. rewrite zlen_app. pose proof (zlen_nonneg rest).
  destruct (Z.ltb_spec (zlen l + zlen rest) (zlen l)); [lia|].
  unfold zlen at 1 2. rewrite Nat2Z.id, take_app_length.
  rewrite (proj2 (existsb_false bad_range l)).
  - assert (any_overlap l = false) as ->; [|done]. clear Hne Hz H0. induction Hd as [|r l Hd _ IH]; [done|].
    apply Forall_cons in Hr as [[_ Hr] Hl]. cbn. rewrite IH by done. rewrite orb_false_r. apply existsb_false.
    rewrite Forall_forall in *. intros r' Hr'. specialize (Hd r' Hr'). specialize (Hl r' Hr').
    unfold overlap, in_range in *.
    destruct (Z.eqb_spec (usStartPort r) (usStartPort r')); [|destruct (Z.ltb_spec (usStartPort r) (usStartPort r'))];
      [|destruct (Z.leb_spec (usStartPort r') (usEndPort r)); [|done]
       |destruct (Z.leb_spec (usStartPort r) (usEndPort r')); [|done]]; exfalso.
    + apply (Hd (usStartPort r)); lia.
    + apply (Hd (usStartPort r')); lia.
    + apply (Hd (usStartPort r)); lia.
  - eapply Forall_impl; [exact Hr|]. intros r [_ ?]. unfold bad_range. lia.
Qed.

(** ** Properties *)

(** C39: a text [parsePortList] accepts gives disjoint ranges, so that [init]
    ends on it, with a list of all their ports, each once. It comes to the even ports
    of the list whose next one is in the list too, up to the first for which no
    handles were made. The unused pairs are those of which both handles were
    opened, counted once, and none is lent; the UDP handles it deletes are, each
    once, those of the others; what it deletes besides is a TCP or eHome handle that
    was not opened. [init] succeeds exactly when the TCP port, and the eHome
    library if it is enabled, do. *)
Theorem configured_pool s s' udp ehome fuel env ip tcp en :
  parsePortList s MediaPortConfig_zero = Some (RET_OK, udp) ->
  parsePortList s' MediaPortConfig_zero = Some (RET_OK, ehome) ->
  65536 < Z.of_nat fuel -> ip <> 0 ->
  exists l r this d1 d2, port_list fuel udp = Some l /\ NoDup l /\ (forall p, p ∈ l <-> allowed udp p) /\
    init fuel env ip tcp (Some udp) en ehome CStreamMediaPort_new = Some (r, this, d1 ++ d2) /\
    (r = RET_OK <-> is_Some (tcp_new env) /\ tcp_open env = true /\ (en = 0 \/ ehome_init env = true)) /\
    pool_ok (allowed udp) this /\ m_AllocUdpPortMap this = ∅ /\
    (forall k info, m_UnUsedUdpPortMap this !! k = Some info <->
      exists i a b, tries l (udp_ans env) 0 l i k a b /\ opens (udp_ans env) i = true /\ info = pair_at k a b) /\
    NoDup d1 /\
    (forall h, h ∈ d1 <-> exists i k a b, tries l (udp_ans env) 0 l i k a b /\ opens (udp_ans env) i = false /\
      (h = pRtpHandle (pair_at k a b) \/ h = pRtcpHandle (pair_at k a b))) /\
    Forall (gone this) d1 /\ Forall (not_opened fuel env tcp ehome) d2.
Proof.
  intros Hs Hs' Hf Hip. assert (Forall range_ok (stPortRange MediaPortConfig_zero)) as Hz.
  { apply Forall_replicate. split; cbn; split; lia. }
  destruct (port_init_ok fuel env ip tcp udp en ehome Hf) as (l & r & this & d1 & d2 & El & Hn & Hin & E & Hr & Hok & Ha & [M1 M2 M3 _] & Hg & Hd);
    [by eapply parsePortList_ok|by eapply parsePortList_ok|done|].
  exists l, r, this, d1, d2. do 7 (split; [done|]). split; [|done].
  intros k info. etransitivity; [exact (M1 k info)|]. cbn. rewrite lookup_empty. split; [by intros [?|?]|by right].
Qed.

(** C38: whatever the callers take and give back, the pool stays the same and no
    pair is lent twice; a pair that is held can be given back; [allocRtpUdpPort]
    gives the pair with the smallest port that is not held, and fails only when
    every pair is held. *)
Theorem pool_lending P this0 held this : pool_ok P this0 -> m_AllocUdpPortMap this0 = ∅ ->
  lends this0 held this ->
  pool this = pool this0 /\ NoDup ((fun i => rtp_port i) <$> held) /\
  (forall i, i ∈ held -> pool this0 !! rtp_port i = Some i /\
    exists this', releaseRtpUdpPort (Some (pRtpHandle i)) (Some (pRtcpHandle i)) this = (RET_OK, (None, None), this')) /\
  match allocRtpUdpPort this with
  | (r, Some i, _) => r = RET_OK /\ pool this0 !! rtp_port i = Some i /\ (forall j, j ∈ held -> rtp_port j <> rtp_port i) /\
      forall k, is_Some (pool this0 !! k) -> k < rtp_port i -> exists j, j ∈ held /\ rtp_port j = k
  | (r, None, this') => r = RET_FAIL /\ this' = this /\ length held = size (pool this0)
  end.
Proof.
  intros Hok Ha Hl. pose proof (lends_lent P _ _ _ Hok Ha Hl) as Hlent.
  destruct (lent_nodup _ _ _ _ Hlent) as (Hnd & Hlen & Hin). pose proof Hlent as (Hp & Hok' & Hh).
  pose proof Hok' as [Hd Hpairs Hc]. split_and!; [done|done| |].
  - intros i Hi. split.
    + rewrite <-Hp. apply lookup_union_Some; auto.
    + apply list_elem_of_split in Hi as (l1 & l2 & ->). destruct (release_step _ _ _ _ _ _ Hlent) as (t & E & _). eauto.
  - destruct (allocRtpUdpPort this) as [[r [i|]] this'] eqn:E.
    + assert (r = RET_OK) as -> by (unfold allocRtpUdpPort in E; destruct (map_begin _) as [[??]|]; congruence).
      destruct (alloc_step _ _ _ _ _ _ Hlent E) as (_ & Hu & Hmin). split; [done|]. rewrite <-Hp. split_and!.
      * apply lookup_union_Some; auto.
      * intros j Hj Hne. specialize (Hin j Hj). rewrite Hne in Hin. by apply (map_disjoint_Some_l _ _ _ _ Hd) in Hu; congruence.
      * intros k [j Hk] Hlt. apply lookup_union_Some in Hk as [Hk|Hk]; [| |done].
        { specialize (Hmin k ltac:(by rewrite Hk)). lia. }
        exists j. split; [|by destruct (alloc_pair P this k j Hok' Hk) as (_ & ? & _)].
        rewrite Hh. apply list_elem_of_fmap. exists (k, j). split; [done|]. by apply elem_of_map_to_list.
    + unfold allocRtpUdpPort in E. destruct (map_begin _) as [[??]|] eqn:Hb; [done|]. injection E as <- <-.
      apply map_begin_None in Hb. split_and!; [done|done|]. rewrite <-Hp. unfold pool. by rewrite Hb, (left_id_L ∅ (∪)).
Qed.

(** [allocEhomeMediaPort] gives the handle with the fewest streams, the one
    with the smallest port among those, and fails only when every handle has
    65535. *)
Theorem ehome_least_loaded count this : (forall h, fits 16 (count h)) ->
  match allocEhomeMediaPort count this with
  | (r, Some h) => r = RET_OK /\ exists k, m_EhomePortMap this !! k = Some h /\
      forall k' h', m_EhomePortMap this !! k' = Some h' -> count h <= count h' /\ (count h' = count h -> k <= k')
  | (r, None) => r = RET_FAIL /\ forall k h, m_EhomePortMap this !! k = Some h -> count h = 65535
  end.
Proof.
  intros Hc. unfold allocEhomeMediaPort.
  pose proof (least_loaded_foldl count (entries (m_EhomePortMap this))) as H.
  destruct (foldl _ _ _) as [m [h|]]; cbn in H.
  - split; [done|]. destruct H as (_ & l1 & k & l2 & El & _ & H1 & H2). exists k.
    pose proof (entries_sorted (m_EhomePortMap this)) as Hs. rewrite El in Hs.
    split; [apply elem_entries; rewrite El; apply elem_of_app; right; by constructor|].
    intros k' h' Hk'%elem_entries. rewrite El, elem_of_app, elem_of_cons in Hk'.
    destruct Hk' as [Hk'|[[= -> ->]|Hk']]; [|lia|].
    + specialize (H1 _ Hk'). cbn in H1. lia.
    + specialize (H2 _ Hk'). cbn in H2. split; [done|]. intros _.
      apply StronglySorted_app_1_r, StronglySorted_inv in Hs as [_ Hs]. rewrite Forall_forall in Hs.
      by apply (Hs (k', h')).
  - destruct H as [_ H]. split; [done|]. intros k h Hk%elem_entries. specialize (H _ Hk). specialize (Hc h).
    unfold fits in Hc. cbn in H. lia.
Qed.

(** a list of at most eight disjoint ranges, printed with commas and bars,
    is read back. *)
Theorem port_list_roundtrip l : l <> [] -> zlen l <= MAX_MEDIA_PORT_RANGE_NUM -> ranges_ok l ->
  parsePortList (print_ranges l) MediaPortConfig_zero =
    Some (RET_OK, {| usPortRangeNum := zlen l;
      stPortRange := l ++ drop (length l) (stPortRange MediaPortConfig_zero) |}).
Proof.
  intros Hne Hl Hok. pose proof Hok as [Hr _]. unfold MAX_MEDIA_PORT_RANGE_NUM in Hl.
  unfold parsePortList. change (Z.to_nat MAX_MEDIA_PORT_RANGE_NUM) with 8%nat.
  rewrite parse_print_loop; [|done| | | | |done].
  - cbn [mbind option_bind usPortRangeNum stPortRange MediaPortConfig_zero].
    rewrite take_0, Z.add_0_l. cbn [app Nat.add]. by rewrite checkPortRange_accepts by done.
  - eapply Forall_impl; [exact Hr|]. by intros r [? _].
  - unfold zlen in Hl. lia.
  - unfold zlen in Hl. change (length (stPortRange MediaPortConfig_zero)) with 8%nat. lia.
  - cbn. pose proof (zlen_nonneg l). solve_fits.
Qed.

(** the loops over the ports of a range end for every range but the one of
    all 16-bit numbers, for which they never do. *)
Theorem range_loop_terminates r : range_ok r ->
  (usStartPort r <> 0 \/ usEndPort r <> 65535 ->
    range_loop (Z.to_nat 65537) r (usStartPort r) = Some (seqZ (usStartPort r) (usEndPort r + 1 - usStartPort r))) /\
  (usStartPort r = 0 -> usEndPort r = 65535 -> forall fuel, range_loop fuel r (usStartPort r) = None).
Proof.
  intros Hr. pose proof Hr as [Hs He]. unfold fits in Hs, He. split.
  - intros H. apply range_loop_ok; [done|lia|]. rewrite Z2Nat.id by lia. lia.
  - intros H0 H1 fuel. destruct r as [a b]. cbn in *. subst. apply range_loop_all. split; lia.
Qed.

(** *** Concrete runs *)

Definition demo_ranges : list PortRange :=
  [{| usStartPort := 20000; usEndPort := 20003 |}; {| usStartPort := 30000; usEndPort := 30001 |}].

Lemma demo_ranges_ok : ranges_ok demo_ranges.
Proof.
  split.
  - repeat constructor; done.
  - repeat constructor. unfold in_range. cbn. lia.
Qed.

Definition demo_config : MediaPortConfig :=
  {| usPortRangeNum := 2; stPortRange := demo_ranges ++ drop 2 (stPortRange MediaPortConfig_zero) |}.

Definition demo_env : init_env :=
  {| udp_ans i := {| a_new := Some (Z.of_nat i, Z.of_nat i + 100); a_open := true; a_open2 := true |};
     tcp_new := Some 1; tcp_open := true; ehome_init := true;
     ehome_ans i := {| a_new := None; a_open := true; a_open2 := true |} |}.

Definition demo_text : list Z := print_ranges demo_ranges.

Definition demo_pair (p a : Z) : RTP_UDP_PORT_INFO :=
  {| pRtpHandle := {| h_addr := a; h_port := p |}; pRtcpHandle := {| h_addr := a + 100; h_port := p + 1 |} |}.

Definition demo_pool : CStreamMediaPort :=
  with_udp 2 (<[20000 := demo_pair 20000 0]> {[ 20002 := demo_pair 20002 2 ]}) ∅ CStreamMediaPort_new.

Lemma configured_pool_witness : exists this d,
  init (Z.to_nat 65537) demo_env 1 554 (Some demo_config) 0 demo_config CStreamMediaPort_new = Some (RET_OK, this, d) /\
  m_UnUsedUdpPortMap this !! 20002 = Some (demo_pair 20002 2).
Proof.
  assert (parsePortList demo_text MediaPortConfig_zero = Some (RET_OK, demo_config)) as H by by vm_compute.
  destruct (configured_pool demo_text demo_text demo_config demo_config (Z.to_nat 65537) demo_env 1 554 0 H H)
    as (l & r & this & d1 & d2 & El & _ & _ & E & Hr & _ & _ & Hp & _); [rewrite Z2Nat.id; lia|done|].
  assert (r = RET_OK) as Er. { apply Hr. split; [by eexists|]. split; [done|by left]. }
  exists this, (d1 ++ d2). split; [rewrite E, Er; reflexivity|]. apply Hp. exists 2%nat, 2, 102.
  assert (l = [20000; 20001; 20002; 20003; 30000; 30001]) as ->.
  { apply (inj Some). rewrite <-El. vm_compute. reflexivity. }
  split; [|split; reflexivity].
  split; [reflexivity|]. split; [reflexivity|]. split; [clear; set_solver|]. split; [reflexivity|].
  intros j q _ _ _ _. eexists. reflexivity.
Defined.

Lemma pool_lending_witness : exists this held, lends demo_pool held this /\
  pool this = pool demo_pool /\ NoDup ((fun i => rtp_port i) <$> held) /\ length held = 2%nat.
Proof.
  assert (pool_ok (fun _ => True) demo_pool) as Hok.
  { constructor; [apply map_disjoint_empty_r| |by vm_compute].
    unfold pool. cbn. rewrite (right_id_L ∅ (∪)).
    apply map_Forall_insert_2; [|apply map_Forall_singleton]; by split_and!. }
  eexists _, [demo_pair 20002 2; demo_pair 20000 0].
  assert (lends demo_pool [demo_pair 20002 2; demo_pair 20000 0]
    (allocRtpUdpPort (allocRtpUdpPort demo_pool).2).2) as Hl.
  { eapply lends_alloc; [eapply lends_alloc; [apply lends_nil|]|]; by vm_compute. }
  split; [exact Hl|]. destruct (pool_lending (fun _ => True) _ _ _ Hok eq_refl Hl) as (H1 & H2 & _). by split.
Defined.

Lemma ehome_least_loaded_witness :
  let this := with_ehome 1 2 {[ 7000 := {| h_addr := 1; h_port := 7000 |}; 7001 := {| h_addr := 2; h_port := 7001 |} ]}
    CStreamMediaPort_new in
  let count h := if h_addr h =? 1 then 5 else 3 in
  exists h, allocEhomeMediaPort count this = (RET_OK, Some h) /\ count h <= 5.
Proof.
  intros this count. assert (forall h, fits 16 (count h)) as Hc by (intros h; unfold count; case_match; done).
  pose proof (ehome_least_loaded count this Hc) as H.
  destruct (allocEhomeMediaPort count this) as [r [h|]].
  - destruct H as [-> (k & _ & Hm)]. exists h. split; [done|].
    apply (Hm 7000 {| h_addr := 1; h_port := 7000 |}). by vm_compute.
  - destruct H as [_ H]. specialize (H 7000 {| h_addr := 1; h_port := 7000 |}). discriminate H. by vm_compute.
Defined.

Lemma port_list_roundtrip_witness :
  parsePortList (print_ranges demo_ranges) MediaPortConfig_zero = Some (RET_OK, demo_config).
Proof. apply (port_list_roundtrip demo_ranges); [done|done|apply demo_ranges_ok]. Defined.

Lemma range_loop_terminates_witness :
  range_loop (Z.to_nat 65537) {| usStartPort := 65534; usEndPort := 65535 |} 65534 = Some [65534; 65535].
Proof.
  destruct (range_loop_terminates {| usStartPort := 65534; usEndPort := 65535 |}) as [H _]; [by split|].
  apply H. by left.
Defined.
