(* ===== verification/Session.v ===== *)
(** * Sessions: [svs_adapter_session.cpp]

    The base class of the sessions of the stream server: the states a session goes
    through, its time limits, and the answers to the address messages of the two
    sessions of a business. The virtual functions are the interface [SessionImpl]: a
    derived class changes its own state [D] and calls [setStatus]; what it answers
    is given by the statuses it sets. [N] is the content of an address message. The
    clock [now], in seconds, stands still during an operation; the lock of the
    status is held by one access. *)

From Stdlib Require Import String.
From S2P Require Import Prelude Text Sdp.
Open Scope Z_scope.

(** ** Data *)

Inductive STREAM_SESSION_STATUS : Set :=
| STREAM_SESSION_STATUS_INIT
| STREAM_SESSION_STATUS_WAIT_START
| STREAM_SESSION_STATUS_WAIT_CHANNEL_REDAY
| STREAM_SESSION_STATUS_RECVED_NAT_REQ
| STREAM_SESSION_STATUS_DISPATCHING
| STREAM_SESSION_STATUS_RELEASED
| STREAM_SESSION_STATUS_ABNORMAL.
#[export] Instance status_eq_dec : EqDecision STREAM_SESSION_STATUS.
Proof. solve_decision. Defined.

(** The order of the enumeration. *)
Definition status_num (s : STREAM_SESSION_STATUS) : Z :=
  match s with
  | STREAM_SESSION_STATUS_INIT => 0
  | STREAM_SESSION_STATUS_WAIT_START => 1
  | STREAM_SESSION_STATUS_WAIT_CHANNEL_REDAY => 2
  | STREAM_SESSION_STATUS_RECVED_NAT_REQ => 3
  | STREAM_SESSION_STATUS_DISPATCHING => 4
  | STREAM_SESSION_STATUS_RELEASED => 5
  | STREAM_SESSION_STATUS_ABNORMAL => 6
  end.
Definition status_le (a b : STREAM_SESSION_STATUS) : bool := status_num a <=? status_num b.

Inductive PEER_TYPE : Set := PEER_TYPE_PU | PEER_TYPE_CU | PEER_TYPE_RECORD | PEER_TYPE_STREAM | PEER_TYPE_MAX.
#[export] Instance PEER_TYPE_eq_dec : EqDecision PEER_TYPE.
Proof. solve_decision. Defined.

Definition MEDIA_TRANS_TYPE_RTP : Z := 3.
Definition MEDIA_TRANS_TYPE_PS : Z := 4.
Definition MEDIA_TRANS_TYPE_MAX : Z := 7.
Definition CONTENT_ID_LEN : Z := 256.
Definition STREAM_STATUS_TIMEOUT_INTERVAL : Z := 30.
Definition STREAM_STATUS_ABNORMAL_INTERVAL : Z := 10.

(** [m_pPeerSession] is not NULL; the session it points to is an argument. *)
Record CStreamNatMessage (N : Type) : Type := { m_pPeerSession : bool; nat_info : N }.
Arguments m_pPeerSession {N} _.
Arguments nat_info {N} _.

Record CStreamSession (D N : Type) : Type := {
  m_lReferenceCnt : Z; m_enSessionStatus : STREAM_SESSION_STATUS; m_ulStatusBeginTime : Z;
  m_enPlayType : PLAY_TYPE; m_StreamID : Z; m_PeerType : PEER_TYPE; m_TransDirection : TRANS_DIRECTION;
  m_MediaTransType : Z; m_SdpInfo : list Z; m_szContentId : list Z;
  m_NatMsgList : list (CStreamNatMessage N); m_derived : D }.
Arguments m_lReferenceCnt {D N} _.
Arguments m_enSessionStatus {D N} _.
Arguments m_ulStatusBeginTime {D N} _.
Arguments m_enPlayType {D N} _.
Arguments m_StreamID {D N} _.
Arguments m_PeerType {D N} _.
Arguments m_TransDirection {D N} _.
Arguments m_MediaTransType {D N} _.
Arguments m_SdpInfo {D N} _.
Arguments m_szContentId {D N} _.
Arguments m_NatMsgList {D N} _.
Arguments m_derived {D N} _.
Arguments Build_CStreamSession {D N} _ _ _ _ _ _ _ _ _ _ _ _.

(** What a virtual function gives: its result, the new state of the derived class
    and the statuses it sets, in order. *)
Definition call (D N A : Type) : Type := CStreamSession D N -> A * D * list STREAM_SESSION_STATUS.

Class SessionImpl (D N : Type) : Type := {
  allocMediaPort : call D N SVS_RET_CODE;
  setRemoteAddress : call D N SVS_RET_CODE;
  startMediaPort : call D N SVS_RET_CODE;
  stopMediaPort : call D N SVS_RET_CODE;
  checkMediaChannelStatus : call D N bool;
  sendStartRequest : call D N SVS_RET_CODE;
  sendNatResponse : CStreamNatMessage N -> call D N SVS_RET_CODE;
  sendVcrMessage : call D N SVS_RET_CODE;
  (* [dynamic_cast<CStreamRtpSession*>] is not NULL *)
  is_rtp_session : D -> bool }.

(** The calls of the virtual functions with an effect outside. *)
Inductive session_call (N : Type) : Type :=
| StopMediaPort | NatResponse (m : CStreamNatMessage N) (r : SVS_RET_CODE) | VcrMessage.
Arguments StopMediaPort {N}.
Arguments NatResponse {N} _ _.
Arguments VcrMessage {N}.

Section Session.
Context {D N : Type} `{!SessionImpl D N}.
Implicit Types (this : CStreamSession D N).

(** The members the constructor does not set are what the memory holds; the derived
    class and the factory set them. *)
Definition CStreamSession_new (now : Z) (play : PLAY_TYPE) (id : Z) (peer : PEER_TYPE) (dir : TRANS_DIRECTION)
    (trans : Z) (d : D) : CStreamSession D N :=
  {| m_lReferenceCnt := 1; m_enSessionStatus := STREAM_SESSION_STATUS_INIT; m_ulStatusBeginTime := now;
     m_enPlayType := play; m_StreamID := id; m_PeerType := peer; m_TransDirection := dir;
     m_MediaTransType := trans; m_SdpInfo := []; m_szContentId := []; m_NatMsgList := []; m_derived := d |}.

Definition set_refs (x : Z) (t : CStreamSession D N) : CStreamSession D N :=
  let '(Build_CStreamSession _ s b p i e d m q c l y) := t in Build_CStreamSession x s b p i e d m q c l y.
Definition put_status (x : STREAM_SESSION_STATUS) (now : Z) (t : CStreamSession D N) : CStreamSession D N :=
  let '(Build_CStreamSession r _ _ p i e d m q c l y) := t in Build_CStreamSession r x now p i e d m q c l y.
Definition set_play (x : PLAY_TYPE) (t : CStreamSession D N) : CStreamSession D N :=
  let '(Build_CStreamSession r s b _ i e d m q c l y) := t in Build_CStreamSession r s b x i e d m q c l y.
Definition setSessionId (x : Z) (t : CStreamSession D N) : CStreamSession D N :=
  let '(Build_CStreamSession r s b p _ e d m q c l y) := t in Build_CStreamSession r s b p x e d m q c l y.
Definition set_direction (x : TRANS_DIRECTION) (t : CStreamSession D N) : CStreamSession D N :=
  let '(Build_CStreamSession r s b p i e _ m q c l y) := t in Build_CStreamSession r s b p i e x m q c l y.
Definition set_trans (x : Z) (t : CStreamSession D N) : CStreamSession D N :=
  let '(Build_CStreamSession r s b p i e d _ q c l y) := t in Build_CStreamSession r s b p i e d x q c l y.
Definition set_sdp (x : list Z) (t : CStreamSession D N) : CStreamSession D N :=
  let '(Build_CStreamSession r s b p i e d m _ c l y) := t in Build_CStreamSession r s b p i e d m x c l y.
Definition set_content (x : list Z) (t : CStreamSession D N) : CStreamSession D N :=
  let '(Build_CStreamSession r s b p i e d m q _ l y) := t in Build_CStreamSession r s b p i e d m q x l y.
Definition set_nat (x : list (CStreamNatMessage N)) (t : CStreamSession D N) : CStreamSession D N :=
  let '(Build_CStreamSession r s b p i e d m q c _ y) := t in Build_CStreamSession r s b p i e d m q c x y.
Definition set_derived (x : D) (t : CStreamSession D N) : CStreamSession D N :=
  let '(Build_CStreamSession r s b p i e d m q c l _) := t in Build_CStreamSession r s b p i e d m q c l x.

Abbreviation op A := (M (CStreamSession D N) (session_call N) A).

(** ** Status *)

Definition getStatus : op STREAM_SESSION_STATUS := this ← get; mret (m_enSessionStatus this).

Definition set_status_to (now : Z) (enStatus : STREAM_SESSION_STATUS) (this : CStreamSession D N) : CStreamSession D N :=
  if bool_decide (m_enSessionStatus this = STREAM_SESSION_STATUS_ABNORMAL) &&
     bool_decide (enStatus <> STREAM_SESSION_STATUS_RELEASED) then this
  else if bool_decide (m_enSessionStatus this = STREAM_SESSION_STATUS_RELEASED) then this
  else put_status enStatus now this.

Definition setStatus (now : Z) (enStatus : STREAM_SESSION_STATUS) : op unit := modify (set_status_to now enStatus).

(** A virtual function is called. *)
Definition virtual {A} (now : Z) (f : call D N A) : op A :=
  this ← get;
  let '(a, d, sts) := f this in
  _ ← modify (fun this => foldl (fun t st => set_status_to now st t) (set_derived d this) sts);
  mret a.

Definition respond (now : Z) (m : CStreamNatMessage N) : op SVS_RET_CODE :=
  r ← virtual now (sendNatResponse m);
  _ ← tell (NatResponse m r);
  mret r.

(** ** Life *)

Definition session_init (now : Z) (pszContent : list Z) (enPlayType : PLAY_TYPE) : op SVS_RET_CODE :=
  st ← getStatus;
  if bool_decide (st <> STREAM_SESSION_STATUS_INIT) then mret RET_ERR_STATUS_ABNORMAL
  else
    _ ← modify (set_content (c_str (take (Z.to_nat CONTENT_ID_LEN) pszContent)));
    _ ← modify (set_play enPlayType);
    r ← virtual now allocMediaPort;
    if bool_decide (r <> RET_OK) then mret RET_FAIL
    else
      _ ← setStatus now STREAM_SESSION_STATUS_WAIT_START;
      mret RET_OK.

Definition session_close (now : Z) : op unit :=
  st ← getStatus;
  if bool_decide (st = STREAM_SESSION_STATUS_RELEASED) then mret tt
  else
    _ ← setStatus now STREAM_SESSION_STATUS_RELEASED;
    _ ← virtual now stopMediaPort;
    tell StopMediaPort.

(** The type of the media is that of the only video of the description. *)
Definition initSessionBySdp : op SVS_RET_CODE :=
  this ← get;
  match m_SdpInfo this with
  | [] => mret RET_OK
  | _ =>
    '(nRet, objsdp) ← lift (decodeSdp (m_SdpInfo this) CMediaSdp_new);
    if bool_decide (nRet <> RET_OK) then mret RET_FAIL
    else
      _ ← match m_enTransDirect objsdp with
          | TRANS_DIRECTION_MAX => mret tt
          | d => modify (set_direction d)
          end;
      match m_VideoInfoList objsdp with
      | [] => mret RET_FAIL
      | [Videoinfo] =>
        _ ← modify (set_trans
          (if bool_decide (strRtpmap Videoinfo = chars "PS/90000") then MEDIA_TRANS_TYPE_PS
           else if bool_decide (strRtpmap Videoinfo = chars "H264/90000") then MEDIA_TRANS_TYPE_RTP
           else if bool_decide (strRtpmap Videoinfo = chars "H265/90000") then MEDIA_TRANS_TYPE_RTP
           else MEDIA_TRANS_TYPE_MAX));
        mret RET_OK
      | _ => mret RET_FAIL
      end
  end.

(** [sdp]: the description of the response. *)
Definition session_start (now : Z) (sdp : list Z) : op SVS_RET_CODE :=
  st ← getStatus;
  if status_le STREAM_SESSION_STATUS_WAIT_CHANNEL_REDAY st then mret RET_OK
  else if bool_decide (st <> STREAM_SESSION_STATUS_WAIT_START) then mret RET_ERR_STATUS_ABNORMAL
  else
    _ ← modify (set_sdp sdp);
    r ← initSessionBySdp;
    if bool_decide (r <> RET_OK) then mret RET_FAIL
    else
      r ← virtual now setRemoteAddress;
      if bool_decide (r <> RET_OK) then mret RET_FAIL
      else
        r ← virtual now startMediaPort;
        if bool_decide (r <> RET_OK) then mret RET_FAIL
        else
          _ ← setStatus now STREAM_SESSION_STATUS_RECVED_NAT_REQ;
          mret RET_OK.

Definition checkSessionStatus (now : Z) : op unit :=
  this ← get;
  let unCostTime := u32 (now - m_ulStatusBeginTime this) in
  st ← getStatus;
  if negb (status_le STREAM_SESSION_STATUS_DISPATCHING st) then
    if STREAM_STATUS_TIMEOUT_INTERVAL <=? unCostTime then setStatus now STREAM_SESSION_STATUS_ABNORMAL else mret tt
  else
    if bool_decide (st = STREAM_SESSION_STATUS_ABNORMAL) then mret tt
    else
      ok ← virtual now checkMediaChannelStatus;
      if ok : bool then mret tt else setStatus now STREAM_SESSION_STATUS_ABNORMAL.

Definition simulateNatReq (now : Z) : op unit :=
  st ← getStatus;
  if bool_decide (st = STREAM_SESSION_STATUS_RECVED_NAT_REQ) then setStatus now STREAM_SESSION_STATUS_DISPATCHING
  else mret tt.

(** ** Address messages *)

(** The messages that wait, from the front; one that cannot be answered stays, and
    ends the loop. *)
Fixpoint answer_all (now : Z) (l : list (CStreamNatMessage N)) : op bool :=
  match l with
  | [] => mret true
  | m :: l =>
    r ← respond now m;
    if bool_decide (r <> RET_OK) then mret false
    else
      _ ← modify (set_nat l);
      answer_all now l
  end.

Definition handleRecvedNatRequest (now : Z) : op SVS_RET_CODE :=
  st ← getStatus;
  if status_le STREAM_SESSION_STATUS_DISPATCHING st then mret RET_OK
  else
    _ ← virtual now sendStartRequest;
    st ← getStatus;
    if bool_decide (st <> STREAM_SESSION_STATUS_RECVED_NAT_REQ) then mret RET_FAIL
    else
      this ← get;
      ok ← answer_all now (m_NatMsgList this);
      if negb ok then mret RET_FAIL
      else
        _ ← setStatus now STREAM_SESSION_STATUS_DISPATCHING;
        mret RET_OK.

(** Here a message is dropped whether it is answered or not. *)
Fixpoint drop_all (now : Z) (l : list (CStreamNatMessage N)) : op unit :=
  match l with
  | [] => mret tt
  | m :: l =>
    _ ← respond now m;
    _ ← modify (set_nat l);
    drop_all now l
  end.
End Session.

(** An operation of a session and the session it is attached to: the state is
    both, a call comes with whose it is. *)
Section Pair.
Context {D N : Type} `{!SessionImpl D N}.

Abbreviation op2 A := (M (CStreamSession D N * CStreamSession D N) (bool * session_call N) A).

Definition on_this {A} (m : M (CStreamSession D N) (session_call N) A) : op2 A := fun '(t, p) =>
  match m t with Some (a, t, o) => Some (a, (t, p), (fun e => (true, e)) <$> o) | None => None end.
Definition on_peer {A} (m : M (CStreamSession D N) (session_call N) A) : op2 A := fun '(t, p) =>
  match m p with Some (a, p, o) => Some (a, (t, p), (fun e => (false, e)) <$> o) | None => None end.

Definition sendStartStreamRequest (now : Z) : op2 unit :=
  '(this, peer) ← get;
  match m_enPlayType this with
  | PLAY_TYPE_FRONT_RECORD =>
    let self := bool_decide (m_PeerType this = PEER_TYPE_PU) in
    if is_rtp_session (m_derived (if self then this else peer)) then
      let send := (_ ← virtual now sendVcrMessage; tell VcrMessage) in
      if self then on_this send else on_peer send
    else mret tt
  | _ => mret tt
  end.

Definition handleNatMessage (now : Z) (natMsg : CStreamNatMessage N) : op2 SVS_RET_CODE :=
  st ← on_this getStatus;
  if negb (status_le STREAM_SESSION_STATUS_WAIT_CHANNEL_REDAY st) then mret RET_FAIL
  else if negb (m_pPeerSession natMsg) then mret RET_FAIL
  else
    pst ← on_peer getStatus;
    if bool_decide (st <> STREAM_SESSION_STATUS_DISPATCHING) &&
       negb (status_le STREAM_SESSION_STATUS_RECVED_NAT_REQ pst) then
      _ ← on_this (modify (fun t => set_nat (m_NatMsgList t ++ [natMsg]) t));
      _ ← on_this (setStatus now STREAM_SESSION_STATUS_RECVED_NAT_REQ);
      mret RET_OK
    else
      _ ← (if bool_decide (st <> STREAM_SESSION_STATUS_DISPATCHING)
           then on_peer (handleRecvedNatRequest now) else mret RET_OK);
      r ← on_this (respond now natMsg);
      if bool_decide (r <> RET_OK) then mret RET_FAIL
      else
        '(this, _) ← get;
        _ ← on_this (drop_all now (m_NatMsgList this));
        st ← on_this getStatus;
        _ ← (if bool_decide (st <> STREAM_SESSION_STATUS_DISPATCHING) then
               _ ← on_this (setStatus now STREAM_SESSION_STATUS_DISPATCHING); sendStartStreamRequest now
             else mret tt);
        mret RET_OK.

Definition handleAudioBroadcastNatMsg (now : Z) (natMsg : CStreamNatMessage N) : op2 SVS_RET_CODE :=
  r ← on_this (respond now natMsg);
  if bool_decide (r <> RET_OK) then mret RET_FAIL
  else
    _ ← on_this (setStatus now STREAM_SESSION_STATUS_DISPATCHING);
    '(this, _) ← get;
    _ ← (if bool_decide (m_PeerType this = PEER_TYPE_PU) then on_peer (handleRecvedNatRequest now) else mret RET_OK);
    mret RET_OK.
End Pair.

(** ** Facts *)

Class SessionImplLaws (D N : Type) `{!SessionImpl D N} : Prop := {
  (* only [close] releases a session *)
  allocMediaPort_keeps : forall s, STREAM_SESSION_STATUS_RELEASED ∉ (allocMediaPort s).2;
  setRemoteAddress_keeps : forall s, STREAM_SESSION_STATUS_RELEASED ∉ (setRemoteAddress s).2;
  startMediaPort_keeps : forall s, STREAM_SESSION_STATUS_RELEASED ∉ (startMediaPort s).2;
  stopMediaPort_keeps : forall s, STREAM_SESSION_STATUS_RELEASED ∉ (stopMediaPort s).2;
  checkMediaChannelStatus_keeps : forall s, STREAM_SESSION_STATUS_RELEASED ∉ (checkMediaChannelStatus s).2;
  sendStartRequest_keeps : forall s, STREAM_SESSION_STATUS_RELEASED ∉ (sendStartRequest s).2;
  sendNatResponse_keeps : forall m s, STREAM_SESSION_STATUS_RELEASED ∉ (sendNatResponse m s).2;
  sendVcrMessage_keeps : forall s, STREAM_SESSION_STATUS_RELEASED ∉ (sendVcrMessage s).2 }.

(** What may become of a status. *)
Definition moves (a b : STREAM_SESSION_STATUS) : Prop :=
  (a = STREAM_SESSION_STATUS_RELEASED -> b = STREAM_SESSION_STATUS_RELEASED) /\
  (a = STREAM_SESSION_STATUS_ABNORMAL -> b = STREAM_SESSION_STATUS_ABNORMAL \/ b = STREAM_SESSION_STATUS_RELEASED).

#[export] Instance moves_preorder : PreOrder moves.
Proof.
  split; [intros a; split; auto|]. intros a b c [H1 H2] [H3 H4]. split; [auto|].
  intros Ha. destruct (H2 Ha) as [-> | ->]; auto.
Qed.

Section Life.
Context {D N : Type} `{!SessionImpl D N, !SessionImplLaws D N}.
Implicit Types (s this : CStreamSession D N).

Definition released s : Z := if bool_decide (m_enSessionStatus s = STREAM_SESSION_STATUS_RELEASED) then 1 else 0.
Definition stop_of (e : session_call N) : Z := match e with StopMediaPort => 1 | _ => 0 end.
Definition stops (o : list (session_call N)) : Z := foldr (fun e n => stop_of e + n) 0 o.

Lemma stops_app a b : stops (a ++ b) = stops a + stops b.
Proof. induction a as [|e a IH]; cbn; [done|]. unfold stops in *. lia. Qed.

(** One part of a run: the status moves, and a release comes with one stop of the port. *)
Definition part s (o : list (session_call N)) s' : Prop :=
  moves (m_enSessionStatus s) (m_enSessionStatus s') /\ released s' = released s + stops o.

Lemma part_refl s : part s [] s.
Proof. split; [done|]. unfold stops. cbn. lia. Qed.
Lemma part_trans s o s' o' s'' : part s o s' -> part s' o' s'' -> part s (o ++ o') s''.
Proof. intros [M1 E1] [M2 E2]. split; [by etrans|]. rewrite stops_app. lia. Qed.

Definition keeps {A} (m : M (CStreamSession D N) (session_call N) A) : Prop :=
  forall s, wp m (fun _ s' o => part s o s') s.

Lemma keeps_bind {A B} (m : M (CStreamSession D N) (session_call N) A) (k : A -> M _ _ B) :
  keeps m -> (forall a, keeps (k a)) -> keeps (m ≫= k).
Proof.
  intros Hm Hk s. apply wp_bind. eapply wp_mono; [apply Hm|]. intros a s' o H. eapply wp_mono; [apply Hk|].
  intros b s'' o' H'. eapply part_trans; [exact H|exact H'].
Qed.
Lemma keeps_ret {A} (a : A) : keeps (mret a).
Proof. intros s. apply wp_ret, part_refl. Qed.
Lemma keeps_get : keeps get.
Proof. intros s. apply wp_get, part_refl. Qed.
Lemma keeps_modify f : (forall s, m_enSessionStatus (f s) = m_enSessionStatus s) -> keeps (modify f).
Proof. intros H s. apply wp_modify. unfold part, released. rewrite H. apply part_refl. Qed.
Lemma keeps_tell e : stop_of e = 0 -> keeps (tell e).
Proof. intros H s. apply wp_tell. split; [done|]. unfold stops. cbn. lia. Qed.
Lemma keeps_lift {A} (x : option A) : is_Some x -> keeps (lift x).
Proof. intros [a E] s. eapply wp_lift; [exact E|]. apply part_refl. Qed.
Lemma keeps_if {A} (b : bool) (m m' : M (CStreamSession D N) (session_call N) A) :
  keeps m -> keeps m' -> keeps (if b then m else m').
Proof. by destruct b. Qed.

Lemma set_status_to_part now st s : st <> STREAM_SESSION_STATUS_RELEASED -> part s [] (set_status_to now st s).
Proof.
  intros Hst. unfold set_status_to. rewrite (bool_decide_eq_true_2 _ Hst), andb_true_r.
  case_bool_decide as Ha; [apply part_refl|]. case_bool_decide as Hr; [apply part_refl|].
  destruct s. cbn in *. unfold part, released, moves. cbn. rewrite !bool_decide_eq_false_2 by done.
  split; [split; congruence|done].
Qed.

Lemma set_statuses_part now sts : STREAM_SESSION_STATUS_RELEASED ∉ sts -> forall s,
  part s [] (foldl (fun t st => set_status_to now st t) s sts).
Proof.
  induction sts as [|st sts IH]; intros Hn s; [apply part_refl|]. apply not_elem_of_cons in Hn as [Hn Hs]. cbn.
  eapply (part_trans _ [] _ []); [by apply set_status_to_part|by apply IH].
Qed.

Lemma keeps_setStatus now st : st <> STREAM_SESSION_STATUS_RELEASED -> keeps (setStatus now st).
Proof. intros H s. apply wp_modify. by apply set_status_to_part. Qed.

Lemma keeps_virtual {A} now (f : call D N A) : (forall s, STREAM_SESSION_STATUS_RELEASED ∉ (f s).2) -> keeps (virtual now f).
Proof.
  intros Hf s. unfold virtual. do 2 wp_step. specialize (Hf s). destruct (f s) as [[a d] sts]. cbn in Hf.
  do 3 wp_step. cbn [app]. eapply (part_trans _ [] (set_derived d s) []); [|by apply set_statuses_part].
  destruct s; split; cbn; [done|]. unfold released, stops. cbn. lia.
Qed.

Lemma keeps_respond now m : keeps (respond now m).
Proof.
  apply keeps_bind; [apply keeps_virtual, sendNatResponse_keeps|]. intros r. apply keeps_bind; [by apply keeps_tell|].
  intros []. apply keeps_ret.
Qed.

Ltac keeps_auto := repeat (cbv zeta; lazymatch goal with
  | |- keeps (_ ≫= _) => apply keeps_bind; [|intros ?]
  | |- keeps (mret _) => apply keeps_ret
  | |- keeps get => apply keeps_get
  | |- keeps getStatus => apply keeps_bind; [apply keeps_get|intros ?; apply keeps_ret]
  | |- keeps (modify _) => apply keeps_modify; by intros []
  | |- keeps (setStatus _ _) => by apply keeps_setStatus
  | |- keeps (tell _) => by apply keeps_tell
  | |- keeps (respond _ _) => apply keeps_respond
  | |- keeps (virtual _ _) => apply keeps_virtual; first
      [ apply allocMediaPort_keeps | apply setRemoteAddress_keeps | apply startMediaPort_keeps | apply stopMediaPort_keeps
      | apply checkMediaChannelStatus_keeps | apply sendStartRequest_keeps | apply sendVcrMessage_keeps ]
  | |- keeps (match ?x with _ => _ end) => destruct x
  end).

Lemma keeps_init now c p : keeps (session_init now c p).
Proof. unfold session_init. keeps_auto. Qed.

Lemma keeps_initSessionBySdp : keeps initSessionBySdp.
Proof.
  unfold initSessionBySdp. apply keeps_bind; [apply keeps_get|intros this]. destruct (m_SdpInfo this); [apply keeps_ret|].
  apply keeps_bind; [|by intros [r o]; keeps_auto].
  apply keeps_lift. destruct (decodeSdp_ends (z :: l) CMediaSdp_new) as (? & ? & -> & _). eauto.
Qed.

Lemma keeps_start now sdp : keeps (session_start now sdp).
Proof. unfold session_start. keeps_auto; apply keeps_initSessionBySdp. Qed.
Lemma keeps_check now : keeps (checkSessionStatus now).
Proof. unfold checkSessionStatus. keeps_auto. Qed.
Lemma keeps_simulate now : keeps (simulateNatReq now).
Proof. unfold simulateNatReq. keeps_auto. Qed.
Lemma keeps_answer_all now l : keeps (answer_all now l).
Proof. induction l as [|m l IH]; cbn [answer_all]; keeps_auto. exact IH. Qed.
Lemma keeps_recved now : keeps (handleRecvedNatRequest now).
Proof. unfold handleRecvedNatRequest. keeps_auto. apply keeps_answer_all. Qed.
Lemma keeps_drop_all now l : keeps (drop_all now l).
Proof. induction l as [|m l IH]; cbn [drop_all]; keeps_auto. exact IH. Qed.

(** [close] releases the session and stops its port, unless it was released before. *)
Lemma session_close_ok now s :
  wp (session_close now) (fun _ s' o => part s o s' /\ m_enSessionStatus s' = STREAM_SESSION_STATUS_RELEASED) s.
Proof.
  unfold session_close, getStatus. do 4 wp_step. case_bool_decide as Hr.
  { wp_step. split; [apply part_refl|done]. }
  unfold setStatus. do 2 wp_step.
  assert (set_status_to now STREAM_SESSION_STATUS_RELEASED s = put_status STREAM_SESSION_STATUS_RELEASED now s) as ->.
  { unfold set_status_to. rewrite (bool_decide_eq_false_2 (STREAM_SESSION_STATUS_RELEASED <> _)) by (intros H; by apply H).
    rewrite andb_false_r. by rewrite bool_decide_eq_false_2. }
  wp_step. eapply wp_mono; [apply keeps_virtual, stopMediaPort_keeps|]. intros r s' o [Hm Hs]. wp_step.
  assert (m_enSessionStatus s' = STREAM_SESSION_STATUS_RELEASED) as E by (apply Hm; by destruct s).
  split; [|done]. split.
  - rewrite E. split; auto.
  - unfold released in *. rewrite E in Hs |- *. rewrite stops_app. destruct s. cbn in *. rewrite bool_decide_eq_true_2 in * by done.
    rewrite (bool_decide_eq_false_2 (m_enSessionStatus0 = _)) by done. unfold stops in *. cbn. lia.
Qed.

(** *** Both sessions *)

Definition own (o : list (bool * session_call N)) : list (session_call N) := omap (fun '(b, e) => if b : bool then Some e else None) o.
Definition peers (o : list (bool * session_call N)) : list (session_call N) := omap (fun '(b, e) => if b : bool then None else Some e) o.

Definition keeps2 {A} (m : M (CStreamSession D N * CStreamSession D N) (bool * session_call N) A) : Prop :=
  forall w, wp m (fun _ w' o => part w.1 (own o) w'.1 /\ part w.2 (peers o) w'.2) w.

Lemma own_app a b : own (a ++ b) = own a ++ own b.
Proof. apply omap_app. Qed.
Lemma peers_app a b : peers (a ++ b) = peers a ++ peers b.
Proof. apply omap_app. Qed.
Lemma own_true (o : list (session_call N)) : own ((fun e => (true, e)) <$> o) = o.
Proof. unfold own. induction o as [|e o IH]; [done|]. cbn. by rewrite IH. Qed.
Lemma own_false (o : list (session_call N)) : own ((fun e => (false, e)) <$> o) = [].
Proof. unfold own. induction o as [|e o IH]; [done|]. cbn. by rewrite IH. Qed.
Lemma peers_true (o : list (session_call N)) : peers ((fun e => (true, e)) <$> o) = [].
Proof. unfold peers. induction o as [|e o IH]; [done|]. cbn. by rewrite IH. Qed.
Lemma peers_false (o : list (session_call N)) : peers ((fun e => (false, e)) <$> o) = o.
Proof. unfold peers. induction o as [|e o IH]; [done|]. cbn. by rewrite IH. Qed.

Lemma wp_on_this {A} (m : M (CStreamSession D N) (session_call N) A) P s p :
  wp m (fun a s' o => P a (s', p) ((fun e => (true, e)) <$> o)) s -> wp (on_this m) P (s, p).
Proof. unfold wp, on_this. by destruct (m s) as [[[a s'] o]|]. Qed.
Lemma wp_on_peer {A} (m : M (CStreamSession D N) (session_call N) A) P s p :
  wp m (fun a p' o => P a (s, p') ((fun e => (false, e)) <$> o)) p -> wp (on_peer m) P (s, p).
Proof. unfold wp, on_peer. by destruct (m p) as [[[a s'] o]|]. Qed.

Lemma keeps2_this {A} (m : M _ _ A) : keeps m -> keeps2 (on_this m).
Proof.
  intros H [s p]. apply wp_on_this. eapply wp_mono; [apply H|]. intros a s' o Hp.
  rewrite own_true, peers_true. split; [done|apply part_refl].
Qed.
Lemma keeps2_peer {A} (m : M _ _ A) : keeps m -> keeps2 (on_peer m).
Proof.
  intros H [s p]. apply wp_on_peer. eapply wp_mono; [apply H|]. intros a s' o Hp.
  rewrite own_false, peers_false. split; [apply part_refl|done].
Qed.
Lemma keeps2_bind {A B} (m : M _ _ A) (k : A -> M _ _ B) : keeps2 m -> (forall a, keeps2 (k a)) -> keeps2 (m ≫= k).
Proof.
  intros Hm Hk s. apply wp_bind. eapply wp_mono; [apply Hm|]. intros a s' o [H1 H2]. eapply wp_mono; [apply Hk|].
  intros b s'' o' [H3 H4]. rewrite own_app, peers_app. split; [exact (part_trans _ _ _ _ _ H1 H3)|exact (part_trans _ _ _ _ _ H2 H4)].
Qed.
Lemma keeps2_ret {A} (a : A) : keeps2 (mret a).
Proof. intros s. apply wp_ret. split; apply part_refl. Qed.
Lemma keeps2_get : keeps2 get.
Proof. intros s. apply wp_get. split; apply part_refl. Qed.
Lemma keeps2_if {A} (b : bool) (m m' : M _ _ A) : keeps2 m -> keeps2 m' -> keeps2 (if b then m else m').
Proof. by destruct b. Qed.

Ltac keeps2_auto := repeat (cbv zeta; lazymatch goal with
  | |- keeps2 (_ ≫= _) => apply keeps2_bind; [|intros ?]
  | |- keeps2 (mret _) => apply keeps2_ret
  | |- keeps2 get => apply keeps2_get
  | |- keeps2 (on_this _) => apply keeps2_this
  | |- keeps2 (on_peer _) => apply keeps2_peer
  | |- keeps2 (match ?x with _ => _ end) => destruct x
  | |- keeps _ => keeps_auto; try apply keeps_recved; try apply keeps_drop_all
  end).

Lemma keeps2_request now : keeps2 (sendStartStreamRequest now).
Proof. unfold sendStartStreamRequest. keeps2_auto. Qed.
Lemma keeps2_nat now m : keeps2 (handleNatMessage now m).
Proof. unfold handleNatMessage. keeps2_auto; apply keeps2_request. Qed.
Lemma keeps2_audio now m : keeps2 (handleAudioBroadcastNatMsg now m).
Proof. unfold handleAudioBroadcastNatMsg. keeps2_auto. Qed.
End Life.

(** ** The life of a session *)

Section Steps.
Context {D N : Type} `{!SessionImpl D N, !SessionImplLaws D N}.
Implicit Types (s peer : CStreamSession D N).

(** What may happen to a session: its operations, those of a session it is the
    peer of, and the statuses the derived class sets. *)
Inductive session_step s : list (session_call N) -> CStreamSession D N -> Prop :=
| step_init now c p r s' o : session_init now c p s = Some (r, s', o) -> session_step s o s'
| step_close now r s' o : session_close now s = Some (r, s', o) -> session_step s o s'
| step_start now sdp r s' o : session_start now sdp s = Some (r, s', o) -> session_step s o s'
| step_check now r s' o : checkSessionStatus now s = Some (r, s', o) -> session_step s o s'
| step_simulate now r s' o : simulateNatReq now s = Some (r, s', o) -> session_step s o s'
| step_recved now r s' o : handleRecvedNatRequest now s = Some (r, s', o) -> session_step s o s'
| step_nat now m peer r w o : handleNatMessage now m (s, peer) = Some (r, w, o) -> session_step s (own o) w.1
| step_nat_peer now m peer r w o : handleNatMessage now m (peer, s) = Some (r, w, o) -> session_step s (peers o) w.2
| step_audio now m peer r w o : handleAudioBroadcastNatMsg now m (s, peer) = Some (r, w, o) -> session_step s (own o) w.1
| step_audio_peer now m peer r w o : handleAudioBroadcastNatMsg now m (peer, s) = Some (r, w, o) -> session_step s (peers o) w.2
| step_derived now d sts : STREAM_SESSION_STATUS_RELEASED ∉ sts ->
    session_step s [] (foldl (fun t st => set_status_to now st t) (set_derived d s) sts).

Inductive session_run s : list (session_call N) -> CStreamSession D N -> Prop :=
| run_nil : session_run s [] s
| run_snoc o s' o' s'' : session_run s o s' -> session_step s' o' s'' -> session_run s (o ++ o') s''.

Lemma wp_part {A} (m : M (CStreamSession D N) (session_call N) A) (P : A -> CStreamSession D N -> list (session_call N) -> Prop) s r s' o :
  wp m P s -> m s = Some (r, s', o) -> P r s' o.
Proof. unfold wp. intros H E. by rewrite E in H. Qed.
Lemma wp_part2 {A} (m : M (CStreamSession D N * CStreamSession D N) (bool * session_call N) A)
    (P : A -> CStreamSession D N * CStreamSession D N -> list (bool * session_call N) -> Prop) w r w' o :
  wp m P w -> m w = Some (r, w', o) -> P r w' o.
Proof. unfold wp. intros H E. by rewrite E in H. Qed.

Lemma step_part s o s' : session_step s o s' -> part s o s'.
Proof.
  intros H. inversion H as [?????? E|???? E|????? E|???? E|???? E|???? E|?????? E|?????? E|?????? E|?????? E|? d sts E]; subst.
  - exact (wp_part _ _ _ _ _ _ (keeps_init _ _ _ s) E).
  - exact (proj1 (wp_part _ _ _ _ _ _ (session_close_ok _ s) E)).
  - exact (wp_part _ _ _ _ _ _ (keeps_start _ _ s) E).
  - exact (wp_part _ _ _ _ _ _ (keeps_check _ s) E).
  - exact (wp_part _ _ _ _ _ _ (keeps_simulate _ s) E).
  - exact (wp_part _ _ _ _ _ _ (keeps_recved _ s) E).
  - exact (proj1 (wp_part2 _ _ _ _ _ _ (keeps2_nat _ _ (s, _)) E)).
  - exact (proj2 (wp_part2 _ _ _ _ _ _ (keeps2_nat _ _ (_, s)) E)).
  - exact (proj1 (wp_part2 _ _ _ _ _ _ (keeps2_audio _ _ (s, _)) E)).
  - exact (proj2 (wp_part2 _ _ _ _ _ _ (keeps2_audio _ _ (_, s)) E)).
  - eapply (part_trans _ [] (set_derived d s) []); [|by apply set_statuses_part].
    destruct s; split; cbn; [done|]. unfold released, stops. cbn. lia.
Qed.

Lemma run_part s o s' : session_run s o s' -> part s o s'.
Proof. induction 1 as [|o s' o' s'' _ IH H]; [apply part_refl|]. eapply part_trans; [exact IH|by apply step_part]. Qed.

(** *** Answers go out *)

Definition answers (o : list (bool * session_call N)) : list (bool * CStreamNatMessage N) :=
  omap (fun '(b, e) => match e with NatResponse m _ => Some (b, m) | _ => None end) o.

Lemma answers_app a b : answers (a ++ b) = answers a ++ answers b.
Proof. apply omap_app. Qed.

Lemma answers_map (b : bool) (l : list (CStreamNatMessage N)) :
  answers ((fun e => (b, e)) <$> ((fun m => NatResponse m RET_OK) <$> l)) = (fun m => (b, m)) <$> l.
Proof. unfold answers. induction l as [|m l IH]; [done|]. cbn in *. by rewrite IH. Qed.

(** The derived class answers every message, and sends its requests without a change of status. *)
Definition goes_out : Prop :=
  (forall m s, sendNatResponse m s = (RET_OK, m_derived s, [])) /\
  (forall s, (sendStartRequest s).2 = []) /\
  (forall s, (sendVcrMessage s).2 = []).

Context (Hout : goes_out).

Lemma respond_ok now m s : respond now m s = Some (RET_OK, s, [NatResponse m RET_OK]).
Proof.
  unfold respond, virtual. rewrite (bind_eq _ _ _ RET_OK s []); [done|].
  rewrite get_bind. rewrite (proj1 Hout m s). rewrite modify_bind. cbn. by destruct s.
Qed.

Lemma answer_all_ok now l s :
  answer_all now l s = Some (true, match l with [] => s | _ => set_nat [] s end, (fun m => NatResponse m RET_OK) <$> l).
Proof.
  revert s. induction l as [|m l IH]; intros s; [done|]. cbn [answer_all].
  rewrite (bind_eq _ _ _ _ _ _ (respond_ok now m s)). cbn [bool_decide]. rewrite bool_decide_eq_false_2 by (intros H; by apply H).
  rewrite modify_bind, IH. cbn. by destruct s, l.
Qed.

Lemma drop_all_ok now l s :
  drop_all now l s = Some (tt, match l with [] => s | _ => set_nat [] s end, (fun m => NatResponse m RET_OK) <$> l).
Proof.
  revert s. induction l as [|m l IH]; intros s; [done|]. cbn [drop_all].
  rewrite (bind_eq _ _ _ _ _ _ (respond_ok now m s)). rewrite modify_bind, IH. cbn. by destruct s, l.
Qed.

(** What a call of a virtual function leaves when it sets no status. *)
Lemma virtual_same {A} now (f : call D N A) s : (f s).2 = [] ->
  virtual now f s = Some ((f s).1.1, set_derived (f s).1.2 s, []).
Proof. intros H. unfold virtual. rewrite get_bind. destruct (f s) as [[a d] sts]. cbn in H. subst. done. Qed.

Definition nat_idle s : Prop := m_enSessionStatus s = STREAM_SESSION_STATUS_DISPATCHING /\ m_NatMsgList s = [].
Definition nat_open s : Prop :=
  m_enSessionStatus s = STREAM_SESSION_STATUS_WAIT_CHANNEL_REDAY \/ m_enSessionStatus s = STREAM_SESSION_STATUS_RECVED_NAT_REQ.

Lemma put_status_ok now st s : m_enSessionStatus s <> STREAM_SESSION_STATUS_ABNORMAL ->
  m_enSessionStatus s <> STREAM_SESSION_STATUS_RELEASED -> set_status_to now st s = put_status st now s.
Proof. intros H1 H2. unfold set_status_to. by rewrite !(bool_decide_eq_false_2 (m_enSessionStatus s = _)). Qed.

Lemma recved_ok now s : m_enSessionStatus s = STREAM_SESSION_STATUS_RECVED_NAT_REQ ->
  exists s', handleRecvedNatRequest now s = Some (RET_OK, s', (fun m => NatResponse m RET_OK) <$> m_NatMsgList s) /\ nat_idle s'.
Proof.
  intros Hs. unfold handleRecvedNatRequest, getStatus.
  rewrite bind_assoc, get_bind, ret_bind, Hs. change (status_le _ _) with false. cbn iota.
  rewrite (bind_eq _ _ _ _ _ _ (virtual_same now sendStartRequest s (proj1 (proj2 Hout) s))).
  set (s1 := set_derived _ s). assert (m_enSessionStatus s1 = STREAM_SESSION_STATUS_RECVED_NAT_REQ /\ m_NatMsgList s1 = m_NatMsgList s) as [E1 E2]
    by (unfold s1; by destruct s).
  rewrite bind_assoc, get_bind, ret_bind, E1. rewrite bool_decide_eq_false_2 by (intros H; by apply H).
  rewrite get_bind, E2. rewrite (bind_eq _ _ _ _ _ _ (answer_all_ok now (m_NatMsgList s) s1)). cbn [negb].
  unfold setStatus. rewrite modify_bind. cbn. rewrite app_nil_r. eexists. split; [reflexivity|].
  rewrite put_status_ok; [|destruct (m_NatMsgList s), s1; cbn in *; congruence..].
  unfold nat_idle. destruct s1; cbn in *. subst. destruct (m_NatMsgList s); done.
Qed.

Lemma request_ok now a b : exists a' b' o, sendStartStreamRequest now (a, b) = Some (tt, (a', b'), o) /\ answers o = [] /\
  m_enSessionStatus a' = m_enSessionStatus a /\ m_NatMsgList a' = m_NatMsgList a /\
  m_enSessionStatus b' = m_enSessionStatus b /\ m_NatMsgList b' = m_NatMsgList b.
Proof.
  unfold sendStartStreamRequest. rewrite get_bind.
  destruct (m_enPlayType a); try (by exists a, b, []). cbv zeta.
  set (self := bool_decide _). destruct (is_rtp_session _); [|by exists a, b, []].
  destruct self; [unfold on_this|unfold on_peer];
    rewrite (bind_eq _ _ _ _ _ _ (virtual_same now sendVcrMessage _ (proj2 (proj2 Hout) _)));
    cbn; eexists _, _, _; (split; [reflexivity|]); by destruct a, b.
Qed.

(** A message of a session whose peer has received none waits. *)
Lemma nat_waits now m a b : nat_open a -> m_pPeerSession m = true ->
  status_num (m_enSessionStatus b) < 3 ->
  handleNatMessage now m (a, b) =
    Some (RET_OK, (put_status STREAM_SESSION_STATUS_RECVED_NAT_REQ now (set_nat (m_NatMsgList a ++ [m]) a), b), []).
Proof.
  intros Ha Hm Hb. unfold handleNatMessage.
  rewrite (bind_eq _ _ (a, b) (m_enSessionStatus a) (a, b) []) by done.
  assert (status_le STREAM_SESSION_STATUS_WAIT_CHANNEL_REDAY (m_enSessionStatus a) = true) as -> by (by destruct Ha as [-> | ->]).
  rewrite Hm. cbn [negb]. rewrite (bind_eq _ _ (a, b) (m_enSessionStatus b) (a, b) []) by done.
  assert (status_le STREAM_SESSION_STATUS_RECVED_NAT_REQ (m_enSessionStatus b) = false) as ->.
  { unfold status_le. cbn. lia. }
  rewrite bool_decide_eq_true_2 by (destruct Ha; congruence). cbn [negb andb].
  set (a1 := set_nat (m_NatMsgList a ++ [m]) a). rewrite (bind_eq _ _ (a, b) tt (a1, b) []) by done.
  rewrite (bind_eq _ _ (a1, b) tt (put_status STREAM_SESSION_STATUS_RECVED_NAT_REQ now a1, b) []); [done|].
  unfold on_this, setStatus, modify. rewrite put_status_ok; [done|destruct a, Ha; cbn in *; congruence..].
Qed.

(** Once the peer has received one, all are answered, and both sessions dispatch. *)
Lemma nat_answers now m a b : nat_open a -> m_pPeerSession m = true ->
  m_enSessionStatus b = STREAM_SESSION_STATUS_RECVED_NAT_REQ ->
  exists a' b' o, handleNatMessage now m (a, b) = Some (RET_OK, (a', b'), o) /\ nat_idle a' /\ nat_idle b' /\
    answers o = ((fun m => (false, m)) <$> m_NatMsgList b) ++ (true, m) :: ((fun m => (true, m)) <$> m_NatMsgList a).
Proof.
  intros Ha Hm Hb. unfold handleNatMessage.
  rewrite (bind_eq _ _ (a, b) (m_enSessionStatus a) (a, b) []) by done.
  assert (status_le STREAM_SESSION_STATUS_WAIT_CHANNEL_REDAY (m_enSessionStatus a) = true) as -> by (by destruct Ha as [-> | ->]).
  rewrite Hm. cbn [negb]. rewrite (bind_eq _ _ (a, b) (m_enSessionStatus b) (a, b) []) by done. rewrite Hb.
  change (status_le STREAM_SESSION_STATUS_RECVED_NAT_REQ STREAM_SESSION_STATUS_RECVED_NAT_REQ) with true. cbn [negb].
  rewrite andb_false_r. rewrite bool_decide_eq_true_2 by (destruct Ha; congruence).
  destruct (recved_ok now b Hb) as (b' & E & Hb').
  rewrite (bind_eq (on_peer (handleRecvedNatRequest now)) _ (a, b) _ (a, b')
    ((fun e => (false, e)) <$> ((fun m => NatResponse m RET_OK) <$> m_NatMsgList b))) by (unfold on_peer; by rewrite E).
  rewrite (bind_eq (on_this (respond now m)) _ (a, b') RET_OK (a, b') [(true, NatResponse m RET_OK)])
    by (unfold on_this; by rewrite respond_ok).
  rewrite bool_decide_eq_false_2 by (intros H; by apply H). rewrite get_bind.
  set (a1 := match m_NatMsgList a with [] => a | _ => set_nat [] a end).
  rewrite (bind_eq (on_this (drop_all now (m_NatMsgList a))) _ (a, b') tt (a1, b')
    ((fun e => (true, e)) <$> ((fun m => NatResponse m RET_OK) <$> m_NatMsgList a))) by (unfold on_this; by rewrite drop_all_ok).
  assert (m_enSessionStatus a1 = m_enSessionStatus a /\ m_NatMsgList a1 = []) as [E1 E2].
  { unfold a1. destruct a. cbn. destruct m_NatMsgList0; done. }
  rewrite (bind_eq _ _ (a1, b') (m_enSessionStatus a1) (a1, b') []) by done.
  rewrite bool_decide_eq_true_2 by (rewrite E1; destruct Ha; congruence).
  rewrite bind_assoc. rewrite (bind_eq _ _ (a1, b') tt (put_status STREAM_SESSION_STATUS_DISPATCHING now a1, b') []).
  2: { unfold on_this, setStatus, modify. rewrite put_status_ok; [done|rewrite E1; destruct Ha; congruence..]. }
  destruct (request_ok now (put_status STREAM_SESSION_STATUS_DISPATCHING now a1) b') as (a2 & b2 & o & Eo & Ho & H1 & H2 & H3 & H4).
  rewrite (bind_eq _ _ _ _ _ _ Eo). cbn [mret M_ret option_bind mbind]. eexists _, _, _. split; [reflexivity|].
  split; [|split].
  - split; [rewrite H1; by destruct a1|]. rewrite H2. destruct a1. exact E2.
  - destruct Hb' as [Hb1 Hb2]. split; congruence.
  - rewrite !app_nil_r. rewrite !answers_app. cbn [app]. rewrite ?answers_app, Ho, ?app_nil_r.
    by rewrite !answers_map.
Qed.

(** A message of a session that dispatches is answered at once. *)
Lemma nat_at_once now m a b : nat_idle a -> m_pPeerSession m = true ->
  handleNatMessage now m (a, b) = Some (RET_OK, (a, b), [(true, NatResponse m RET_OK)]).
Proof.
  intros [Ha Hl] Hm. unfold handleNatMessage.
  rewrite (bind_eq _ _ (a, b) (m_enSessionStatus a) (a, b) []) by done. rewrite Ha.
  change (status_le STREAM_SESSION_STATUS_WAIT_CHANNEL_REDAY STREAM_SESSION_STATUS_DISPATCHING) with true. rewrite Hm. cbn [negb].
  rewrite (bind_eq _ _ (a, b) (m_enSessionStatus b) (a, b) []) by done.
  rewrite bool_decide_eq_false_2 by (intros H; by apply H). cbn [andb]. rewrite ret_bind.
  rewrite (bind_eq (on_this (respond now m)) _ (a, b) RET_OK (a, b) [(true, NatResponse m RET_OK)])
    by (unfold on_this; by rewrite respond_ok).
  rewrite bool_decide_eq_false_2 by (intros H; by apply H). rewrite get_bind, Hl.
  rewrite (bind_eq (on_this (drop_all now [])) _ (a, b) tt (a, b) []) by done.
  rewrite (bind_eq _ _ (a, b) (m_enSessionStatus a) (a, b) []) by done. rewrite Ha.
  rewrite bool_decide_eq_false_2 by (intros H; by apply H). by rewrite ret_bind.
Qed.

(** One message after the other, all for [this]. *)
Fixpoint nat_seq (ms : list (Z * CStreamNatMessage N)) : M (CStreamSession D N * CStreamSession D N) (bool * session_call N) unit :=
  match ms with
  | [] => mret tt
  | (now, m) :: ms => _ ← handleNatMessage now m; nat_seq ms
  end.

Lemma nat_seq_waits ms a b : nat_open a -> Forall (fun m => m_pPeerSession m.2 = true) ms -> status_num (m_enSessionStatus b) < 3 ->
  exists a', nat_seq ms (a, b) = Some (tt, (a', b), []) /\ nat_open a' /\ m_NatMsgList a' = m_NatMsgList a ++ ms.*2 /\
    (ms <> [] -> m_enSessionStatus a' = STREAM_SESSION_STATUS_RECVED_NAT_REQ).
Proof.
  intros Ha Hm Hb. revert a Ha. induction Hm as [|[now m] ms Hm Hms IH]; intros a Ha.
  { exists a. rewrite app_nil_r. done. }
  set (a1 := put_status STREAM_SESSION_STATUS_RECVED_NAT_REQ now (set_nat (m_NatMsgList a ++ [m]) a)).
  assert (m_enSessionStatus a1 = STREAM_SESSION_STATUS_RECVED_NAT_REQ /\ m_NatMsgList a1 = m_NatMsgList a ++ [m]) as [E1 E2]
    by (unfold a1; by destruct a).
  destruct (IH a1) as (a' & E & Ho & El & Hs); [by right|].
  exists a'. split; [|split; [done|]].
  - cbn [nat_seq]. rewrite (bind_eq _ _ _ _ _ _ (nat_waits now m a b Ha Hm Hb)). fold a1. by rewrite E.
  - split; [rewrite El, E2, <-app_assoc; done|]. intros _. destruct ms as [|x ms]; [|by apply Hs].
    cbn in E. by injection E as <-.
Qed.
End Steps.

(** ** Properties *)

(** C18: whatever happens to a session, a released one stays released, an abnormal
    one can only be released, and the media port is stopped once, when the
    session is released. *)
Theorem session_lifecycle D N `{!SessionImpl D N, !SessionImplLaws D N} (s s' : CStreamSession D N) o : session_run s o s' ->
  (m_enSessionStatus s = STREAM_SESSION_STATUS_RELEASED ->
     m_enSessionStatus s' = STREAM_SESSION_STATUS_RELEASED /\ StopMediaPort ∉ o) /\
  (m_enSessionStatus s = STREAM_SESSION_STATUS_ABNORMAL ->
     m_enSessionStatus s' = STREAM_SESSION_STATUS_ABNORMAL \/ m_enSessionStatus s' = STREAM_SESSION_STATUS_RELEASED) /\
  (m_enSessionStatus s <> STREAM_SESSION_STATUS_RELEASED ->
     stops o = if bool_decide (m_enSessionStatus s' = STREAM_SESSION_STATUS_RELEASED) then 1 else 0).
Proof.
  intros H. destruct (run_part _ _ _ H) as [[H1 H2] E]. unfold released in E. split_and!; [|done|].
  - intros Hs. pose proof (H1 Hs) as Hs'. split; [done|]. rewrite !bool_decide_eq_true_2 in E by done.
    intros Hin. apply list_elem_of_split in Hin as (a & b & ->). rewrite stops_app in E.
    assert (forall l : list (session_call N), 0 <= stops l) as Hp.
    { induction l as [|e l IH]; unfold stops; cbn; [lia|]. fold (stops l). unfold stop_of. destruct e; lia. }
    pose proof (Hp a). pose proof (Hp b). unfold stops in *. cbn in E. lia.
  - intros Hs. rewrite (bool_decide_eq_false_2 (m_enSessionStatus s = _)) in E by done. lia.
Qed.

(** C19: messages that come before the peer's first one wait; with that one all are
    answered, each once and in order, and both sessions dispatch; from then on a message
    of either is answered at once and changes neither. The derived class is one whose
    answers succeed and whose requests do not change a status ([goes_out]). *)
Theorem nat_handshake D N `{!SessionImpl D N} (a b : CStreamSession D N) ms now m : goes_out ->
  nat_open a -> m_enSessionStatus b = STREAM_SESSION_STATUS_WAIT_CHANNEL_REDAY -> m_NatMsgList a = [] -> m_NatMsgList b = [] ->
  ms <> [] -> Forall (fun m => m_pPeerSession m.2 = true) ms -> m_pPeerSession m = true ->
  exists a1 a' b' o, nat_seq ms (a, b) = Some (tt, (a1, b), []) /\
    handleNatMessage now m (b, a1) = Some (RET_OK, (b', a'), o) /\
    answers o = ((fun m => (false, m)) <$> ms.*2) ++ [(true, m)] /\ nat_idle a' /\ nat_idle b' /\
    forall now' m', m_pPeerSession m' = true ->
      handleNatMessage now' m' (a', b') = Some (RET_OK, (a', b'), [(true, NatResponse m' RET_OK)]) /\
      handleNatMessage now' m' (b', a') = Some (RET_OK, (b', a'), [(true, NatResponse m' RET_OK)]).
Proof.
  intros Hout Ha Hb Hla Hlb Hne Hms Hm.
  destruct (nat_seq_waits ms a b Ha Hms) as (a1 & E & _ & El & Hs); [by rewrite Hb|].
  destruct (nat_answers Hout now m b a1) as (b' & a' & o & Eo & Hb' & Ha' & Ho); [by left|done|by apply Hs|].
  exists a1, a', b', o. rewrite Ho, El, Hla, Hlb. split_and!; [done..|]. intros now' m' Hm'. split; by apply nat_at_once.
Qed.

(** A session that is not dispatching becomes abnormal at the first check 30
    seconds after its status was last set, and no check changes it before. One
    that dispatches becomes abnormal when its channel fails. No check releases it. *)
Theorem status_times_out D N `{!SessionImpl D N} now (s : CStreamSession D N) :
  0 <= m_ulStatusBeginTime s <= now -> now - m_ulStatusBeginTime s < 2 ^ 32 ->
  exists s', checkSessionStatus now s = Some (tt, s', []) /\
    (status_num (m_enSessionStatus s) < 4 ->
       if 30 <=? now - m_ulStatusBeginTime s then m_enSessionStatus s' = STREAM_SESSION_STATUS_ABNORMAL else s' = s) /\
    (m_enSessionStatus s = STREAM_SESSION_STATUS_ABNORMAL -> s' = s) /\
    (m_enSessionStatus s = STREAM_SESSION_STATUS_DISPATCHING -> (checkMediaChannelStatus s).2 = [] ->
       m_enSessionStatus s' = if (checkMediaChannelStatus s).1.1 then STREAM_SESSION_STATUS_DISPATCHING else STREAM_SESSION_STATUS_ABNORMAL).
Proof.
  intros Hb Hn. unfold checkSessionStatus, getStatus. rewrite get_bind. rewrite bind_assoc, get_bind, ret_bind.
  assert (u32 (now - m_ulStatusBeginTime s) = now - m_ulStatusBeginTime s) as -> by (apply wrap_small; split; lia).
  unfold status_le. cbv zeta. destruct (Z.leb_spec (status_num STREAM_SESSION_STATUS_DISPATCHING) (status_num (m_enSessionStatus s))) as [Hd|Hd]; cbn [negb].
  - case_bool_decide as Ha.
    + exists s. split; [done|]. split; [intros Hs; cbn in Hd; lia|]. split; [done|congruence].
    + unfold virtual. rewrite bind_assoc, get_bind. destruct (checkMediaChannelStatus s) as [[ok d] sts] eqn:E.
      rewrite bind_assoc, modify_bind, ret_bind. destruct ok.
      * eexists. split; [reflexivity|]. split; [intros Hs; cbn in Hd; lia|]. split; [done|].
        cbn. intros Hs ->. cbn. by destruct s.
      * unfold setStatus, modify. eexists. split; [reflexivity|]. split; [intros Hs; cbn in Hd; lia|]. split; [done|].
        cbn. intros Hs ->. cbn. destruct s. cbn in *. subst. done.
  - change STREAM_STATUS_TIMEOUT_INTERVAL with 30. destruct (30 <=? now - m_ulStatusBeginTime s).
    + unfold setStatus, modify. eexists. split; [reflexivity|]. split; [|split].
      * intros _. rewrite put_status_ok; [by destruct s|intros H; rewrite H in Hd; cbn in Hd; lia..].
      * intros H. rewrite H in Hd. cbn in Hd. lia.
      * intros H. rewrite H in Hd. cbn in Hd. lia.
    + exists s. split; [done|]. split; [done|]. split; [done|]. intros H. rewrite H in Hd. cbn in Hd. lia.
Qed.

(** A derived class whose channel is always up. *)
#[export] Instance plain_session : SessionImpl unit Z := {|
  allocMediaPort := fun _ => (RET_OK, tt, []);
  setRemoteAddress := fun _ => (RET_OK, tt, []);
  startMediaPort := fun _ => (RET_OK, tt, []);
  stopMediaPort := fun _ => (RET_OK, tt, []);
  checkMediaChannelStatus := fun _ => (true, tt, []);
  sendStartRequest := fun _ => (RET_OK, tt, []);
  sendNatResponse := fun _ _ => (RET_OK, tt, []);
  sendVcrMessage := fun _ => (RET_OK, tt, []);
  is_rtp_session := fun _ => true |}.
#[export] Instance plain_session_laws : SessionImplLaws unit Z.
Proof. split; intros; apply not_elem_of_nil. Qed.

Definition demo_session (st : STREAM_SESSION_STATUS) : CStreamSession unit Z :=
  put_status st 100 (CStreamSession_new 100 PLAY_TYPE_LIVE 1 PEER_TYPE_PU TRANS_DIRECTION_RECVONLY MEDIA_TRANS_TYPE_RTP tt).

Lemma session_lifecycle_witness : exists s' o,
  session_run (demo_session STREAM_SESSION_STATUS_DISPATCHING) o s' /\ stops o = 1.
Proof.
  destruct (session_close 130 (demo_session STREAM_SESSION_STATUS_DISPATCHING)) as [[[r s'] o]|] eqn:E; [|discriminate E].
  assert (session_run (demo_session STREAM_SESSION_STATUS_DISPATCHING) ([] ++ o) s') as H.
  { eapply run_snoc; [apply run_nil|]. by eapply step_close. }
  exists s', ([] ++ o). split; [exact H|].
  destruct (session_lifecycle unit Z _ _ _ H) as (_ & _ & Hs). rewrite Hs by done. injection E as _ <- _. reflexivity.
Defined.

Definition demo_nat (n : Z) : CStreamNatMessage Z := {| m_pPeerSession := true; nat_info := n |}.

Lemma nat_handshake_witness : exists a1 a' b' o,
  nat_seq [(101, demo_nat 1); (102, demo_nat 2)]
    (demo_session STREAM_SESSION_STATUS_WAIT_CHANNEL_REDAY, demo_session STREAM_SESSION_STATUS_WAIT_CHANNEL_REDAY) = Some (tt, (a1, demo_session STREAM_SESSION_STATUS_WAIT_CHANNEL_REDAY), []) /\
  handleNatMessage 103 (demo_nat 3) (demo_session STREAM_SESSION_STATUS_WAIT_CHANNEL_REDAY, a1) = Some (RET_OK, (b', a'), o) /\
  answers o = [(false, demo_nat 1); (false, demo_nat 2); (true, demo_nat 3)].
Proof.
  destruct (nat_handshake unit Z (demo_session STREAM_SESSION_STATUS_WAIT_CHANNEL_REDAY)
    (demo_session STREAM_SESSION_STATUS_WAIT_CHANNEL_REDAY) [(101, demo_nat 1); (102, demo_nat 2)] 103 (demo_nat 3))
    as (a1 & a' & b' & o & E1 & E2 & Ho & _).
  - split; [by intros ? [? ? ? ? ? ? ? ? ? ? ? []]|done].
  - by left.
  - done.
  - done.
  - done.
  - done.
  - by repeat constructor.
  - done.
  - exists a1, a', b', o. split; [exact E1|]. split; [exact E2|exact Ho].
Defined.

Lemma status_times_out_witness : exists s',
  checkSessionStatus 130 (demo_session STREAM_SESSION_STATUS_WAIT_START) = Some (tt, s', []) /\
  m_enSessionStatus s' = STREAM_SESSION_STATUS_ABNORMAL.
Proof.
  destruct (status_times_out unit Z 130 (demo_session STREAM_SESSION_STATUS_WAIT_START)) as (s' & E & H & _).
  - cbn. lia.
  - cbn. lia.
  - exists s'. split; [exact E|]. apply H. reflexivity.
Defined.
