(* ===== verification/SessionFactory.v ===== *)
(** * The table of sessions: [svs_adapter_session_factory.cpp]

    [CStreamSessionFactory] creates, finds and releases the sessions, which count
    their references. The sessions are in a heap by their address; [new] answers
    an address that is not in use. A session of the class [CStreamRtpSession] keeps a
    reference of its own, to the session it gets its payload from, which its
    destructor gives back. A deleted session that is used is a fault ([None]).

    The lock is held by a whole operation, and is recursive. The count of references
    ([int32_t]) does not overflow. The timer that calls [checkSessionStatus] is outside. *)

From Stdlib Require Import String.
From S2P Require Import Prelude Text Sdp Session.
Open Scope Z_scope.

(** ** Data *)

Inductive SESSION_TYPE : Set :=
  RTP_SESSION | RTSP_SESSION | RTMP_SESSION | HLS_SESSION | EHOME_SESSION | SESSION_TYPE_MAX.
Inductive session_class : Set := StdRtpSession | RtmpSession | EhomeSession | RtpSession.

(** What the factory needs of a derived class: its constructor with [initSesssion],
    and the pointer [m_pPeerSession] of [CStreamRtpSession], NULL for the others. *)
Class SessionClass (D N : Type) : Type := {
  construct : session_class -> PEER_TYPE -> Z -> CStreamSession D N;
  peer_of : D -> option Z;
  with_peer : option Z -> D -> D }.

(** A [multimap]: its pairs in the order of the keys, equal keys in the order they
    came. *)
Abbreviation content_map := (list (list Z * Z)).

Fixpoint content_insert (k : list Z) (id : Z) (m : content_map) : content_map :=
  match m with
  | [] => [(k, id)]
  | (k', id') :: m' => match str_cmp k k' with Lt => (k, id) :: m | _ => (k', id') :: content_insert k id m' end
  end.

(** From the first pair with the key; nothing when there is none. *)
Fixpoint content_find (k : list Z) (m : content_map) : content_map :=
  match m with
  | [] => []
  | (k', id') :: m' => if bool_decide (k' = k) then m else content_find k m'
  end.

Fixpoint erase_id (id : Z) (m : content_map) : content_map :=
  match m with
  | [] => []
  | (k', id') :: m' => if id' =? id then m' else (k', id') :: erase_id id m'
  end.

(** The first pair with the number [id] from the first pair with the key on. *)
Fixpoint content_erase (k : list Z) (id : Z) (m : content_map) : content_map :=
  match m with
  | [] => []
  | (k', id') :: m' => if bool_decide (k' = k) then erase_id id m else (k', id') :: content_erase k id m'
  end.

Record CStreamSessionFactory (D N : Type) : Type := {
  m_SessionMap : gmap Z Z; m_ContentMap : content_map; m_SessionIndex : Z;
  f_heap : gmap Z (CStreamSession D N) }.
Arguments m_SessionMap {D N} _.
Arguments m_ContentMap {D N} _.
Arguments m_SessionIndex {D N} _.
Arguments f_heap {D N} _.
Arguments Build_CStreamSessionFactory {D N} _ _ _ _.

Section Factory.
Context {D N : Type} `{!SessionImpl D N, !SessionClass D N}.

Definition CStreamSessionFactory_new : CStreamSessionFactory D N :=
  {| m_SessionMap := ∅; m_ContentMap := []; m_SessionIndex := 1; f_heap := ∅ |}.

Abbreviation fop A := (M (CStreamSessionFactory D N) (Z * session_call N) A).

Definition on_map (f : gmap Z Z -> gmap Z Z) (t : CStreamSessionFactory D N) : CStreamSessionFactory D N :=
  let '(Build_CStreamSessionFactory m c i h) := t in Build_CStreamSessionFactory (f m) c i h.
Definition on_content (f : content_map -> content_map) (t : CStreamSessionFactory D N) : CStreamSessionFactory D N :=
  let '(Build_CStreamSessionFactory m c i h) := t in Build_CStreamSessionFactory m (f c) i h.
Definition set_index (x : Z) (t : CStreamSessionFactory D N) : CStreamSessionFactory D N :=
  let '(Build_CStreamSessionFactory m c _ h) := t in Build_CStreamSessionFactory m c x h.
Definition on_heap (f : gmap Z (CStreamSession D N) -> gmap Z (CStreamSession D N)) (t : CStreamSessionFactory D N)
    : CStreamSessionFactory D N :=
  let '(Build_CStreamSessionFactory m c i h) := t in Build_CStreamSessionFactory m c i (f h).

(** The session at an address. *)
Definition deref (p : Z) : fop (CStreamSession D N) := t ← get; lift (f_heap t !! p).
Definition store (p : Z) (s : CStreamSession D N) : fop unit := modify (on_heap (<[p := s]>)).

Definition tell_all (o : list (Z * session_call N)) : fop unit := fun t => Some (tt, t, o).

(** An operation of the session at [p]. *)
Definition at_session {A} (p : Z) (m : M (CStreamSession D N) (session_call N) A) : fop A :=
  s ← deref p;
  match m s with
  | None => fault
  | Some (a, s, o) =>
    _ ← store p s;
    _ ← tell_all ((fun e => (p, e)) <$> o);
    mret a
  end.

Definition addReference (p : Z) : fop unit := s ← deref p; store p (set_refs (m_lReferenceCnt s + 1) s).
Definition decReference (p : Z) : fop Z :=
  s ← deref p;
  let n := m_lReferenceCnt s - 1 in
  _ ← store p (set_refs n s);
  mret n.

(** ** Operations *)

Definition factory_close : fop bool := t ← get; mret (bool_decide (m_SessionMap t = ∅)).

Definition createConcreteSession (unSessionType : SESSION_TYPE) (bLocalFlag : bool) : option session_class :=
  if bLocalFlag then
    match unSessionType with
    | RTSP_SESSION => Some StdRtpSession
    | RTMP_SESSION => Some RtmpSession
    | _ => None
    end
  else match unSessionType with EHOME_SESSION => Some EhomeSession | _ => Some RtpSession end.

(** [addr]: the address [new] answers; [content]: that of [createSourceSession]. *)
Definition create (content : option (list Z)) (now addr : Z) (peer : PEER_TYPE) (ty : SESSION_TYPE) (bLocalFlag : bool)
    : fop (option Z) :=
  t ← get;
  let sessionIndx := m_SessionIndex t in
  _ ← modify (set_index (u64 (sessionIndx + 1)));
  match m_SessionMap t !! sessionIndx with
  | Some p => _ ← addReference p; mret (Some p)
  | None =>
    match createConcreteSession ty bLocalFlag with
    | None => mret None
    | Some c =>
      _ ← store addr (setSessionId sessionIndx (construct c peer now));
      _ ← modify (on_map (<[sessionIndx := addr]>));
      _ ← match content with
          | Some strContent => modify (on_content (content_insert strContent sessionIndx))
          | None => mret tt
          end;
      mret (Some addr)
    end
  end.

Definition createSourceSession (strContent : list Z) := create (Some strContent).
Definition createSession := create None.

(** The end of [releaseSession], and the destructor, which may release the next. *)
Fixpoint release_at (fuel : nat) (now p : Z) : fop unit :=
  match fuel with
  | O => fault
  | S fuel =>
    n ← decReference p;
    if 0 <? n then mret tt
    else
      s ← deref p;
      t ← get;
      match m_SessionMap t !! m_StreamID s with
      | None => mret tt
      | Some _ =>
        _ ← modify (on_map (delete (m_StreamID s)));
        _ ← modify (on_content (content_erase (m_szContentId s) (m_StreamID s)));
        _ ← at_session p (session_close now);
        s ← deref p;
        _ ← match peer_of (m_derived s) with Some q => release_at fuel now q | None => mret tt end;
        modify (on_heap (delete p))
      end
  end.

(** Each session that is deleted is one less in the table. *)
Definition release_fuel (t : CStreamSessionFactory D N) : nat := S (size (m_SessionMap t)).

Definition releaseSession (now p : Z) : fop unit := t ← get; release_at (release_fuel t) now p.

Definition releaseSessionById (now streamID : Z) : fop unit :=
  t ← get;
  match m_SessionMap t !! streamID with
  | None => mret tt
  | Some p => release_at (release_fuel t) now p
  end.

Definition findSession (streamID : Z) : fop (option Z) :=
  t ← get;
  match m_SessionMap t !! streamID with
  | None => mret None
  | Some p => _ ← addReference p; mret (Some p)
  end.

Definition findSessionByContent (strContent : list Z) : fop (option Z) :=
  t ← get;
  match content_find strContent (m_ContentMap t) with
  | [] => mret None
  | (_, sessionIndx) :: _ => findSession sessionIndx
  end.

Definition findSessionNotAddRef (streamID : Z) : fop (option Z) := t ← get; mret (m_SessionMap t !! streamID).

(** The addresses in the order of the numbers. *)
Definition id_le (a b : Z * Z) : Prop := a.1 <= b.1.
#[export] Instance id_le_dec a b : Decision (id_le a b).
Proof. unfold id_le. apply _. Defined.
Definition all_sessions (t : CStreamSessionFactory D N) : list Z := (merge_sort id_le (map_to_list (m_SessionMap t))).*2.

Fixpoint for_each (f : Z -> fop unit) (l : list Z) : fop unit :=
  match l with [] => mret tt | p :: l => _ ← f p; for_each f l end.

Definition getAllSession : fop (list Z) :=
  t ← get;
  _ ← for_each addReference (all_sessions t);
  mret (all_sessions t).

Definition checkAllSessions (now : Z) : fop unit :=
  t ← get;
  for_each (fun p => at_session p (checkSessionStatus now)) (all_sessions t).

Definition count_direction (d : TRANS_DIRECTION -> bool) (t : CStreamSessionFactory D N) : option Z :=
  foldr (fun p n => s ← f_heap t !! p; n ← n; Some (if d (m_TransDirection s) then n + 1 else n)) (Some 0) (all_sessions t).

(** Input, output, both directions and all. *)
Definition getSessionCount : fop (Z * Z * Z * Z) :=
  t ← get;
  i ← lift (count_direction (fun d => match d with TRANS_DIRECTION_RECVONLY => true | _ => false end) t);
  o ← lift (count_direction (fun d => match d with TRANS_DIRECTION_SENDONLY => true | _ => false end) t);
  b ← lift (count_direction (fun d => match d with TRANS_DIRECTION_SENDRECV => true | _ => false end) t);
  mret (i, o, b, Z.of_nat (size (m_SessionMap t))).

(** The reference an RTP session takes when it needs the payload of its source
    ([CStreamRtpSession::resetRtpPt]). *)
Definition take_peer (p ullRecvId : Z) : fop unit :=
  s ← deref p;
  match peer_of (m_derived s) with
  | Some _ => mret tt
  | None =>
    if ullRecvId =? 0 then mret tt
    else
      r ← findSession ullRecvId;
      s ← deref p;
      store p (set_derived (with_peer r (m_derived s)) s)
  end.
End Factory.

(** ** References *)

Definition count (p : Z) (l : list Z) : Z := Z.of_nat (length (filter (fun q => q = p) l)).

Lemma count_nil p : count p [] = 0.
Proof. done. Qed.
Lemma count_cons p q l : count p (q :: l) = (if bool_decide (q = p) then 1 else 0) + count p l.
Proof. unfold count. rewrite filter_cons. case_decide; [rewrite bool_decide_eq_true_2 by done|rewrite bool_decide_eq_false_2 by done]; cbn; lia. Qed.
Lemma count_app p l k : count p (l ++ k) = count p l + count p k.
Proof. unfold count. rewrite filter_app, length_app. lia. Qed.
Lemma count_nonneg p l : 0 <= count p l.
Proof. unfold count. lia. Qed.
Lemma count_elem p l : 0 < count p l <-> p ∈ l.
Proof.
  induction l as [|q l IH]; [rewrite count_nil; set_solver by lia|]. rewrite count_cons, elem_of_cons.
  pose proof (count_nonneg p l). case_bool_decide; split; intros H'; [by left|lia| |].
  - right. apply IH. lia.
  - destruct H' as [<-|H']; [done|]. apply IH in H'. lia.
Qed.
#[export] Instance count_perm p : Proper ((≡ₚ) ==> eq) (count p).
Proof. intros l k H. unfold count. by rewrite H. Qed.
Create HintDb count.
#[export] Hint Rewrite count_nil count_cons count_app : count.

Class SessionClassLaws (D N : Type) `{!SessionImpl D N, !SessionClass D N} : Prop := {
  construct_refs : forall c p now, m_lReferenceCnt (construct (D := D) (N := N) c p now) = 1;
  construct_peer : forall c p now, peer_of (N := N) (m_derived (construct (D := D) (N := N) c p now)) = None;
  peer_of_with : forall x d, peer_of (D := D) (N := N) (with_peer (N := N) x d) = x;
  stopMediaPort_peer : forall s : CStreamSession D N, peer_of (N := N) (stopMediaPort s).1.2 = peer_of (N := N) (m_derived s);
  checkMediaChannelStatus_peer : forall s : CStreamSession D N,
    peer_of (N := N) (checkMediaChannelStatus s).1.2 = peer_of (N := N) (m_derived s) }.

Section References.
Context {D N : Type} `{!SessionImpl D N, !SessionClass D N, !SessionClassLaws D N}.
Implicit Types (s : CStreamSession D N) (h : gmap Z (CStreamSession D N)) (t : CStreamSessionFactory D N) (held : list Z).

Definition peer s : option Z := peer_of (N := N) (m_derived s).

(** What the users of a session cannot change. *)
Definition same s s' : Prop :=
  m_lReferenceCnt s' = m_lReferenceCnt s /\ m_StreamID s' = m_StreamID s /\ peer s' = peer s.

Lemma same_refl s : same s s.
Proof. done. Qed.
Lemma same_trans s s' s'' : same s s' -> same s' s'' -> same s s''.
Proof. intros (?&?&?) (?&?&?). split_and!; congruence. Qed.

Lemma set_status_same now st s : same s (set_status_to now st s).
Proof. unfold set_status_to. destruct (bool_decide _ && bool_decide _); [done|]. case_bool_decide; [done|]. by destruct s. Qed.

Lemma set_statuses_same now sts : forall s, same s (foldl (fun s st => set_status_to now st s) s sts).
Proof. induction sts as [|st sts IH]; intros s; [done|]. cbn. eapply same_trans; [apply set_status_same|apply IH]. Qed.

Lemma virtual_keeps_peer {A} now (f : call D N A) s : peer_of (N := N) (f s).1.2 = peer s ->
  wp (virtual now f) (fun _ s' _ => same s s') s.
Proof.
  intros H. unfold virtual. do 2 wp_step. destruct (f s) as [[a d] sts]. cbn in H. do 3 wp_step.
  eapply same_trans; [|apply set_statuses_same]. destruct s. by split_and!.
Qed.

Lemma session_close_same now s : wp (session_close now) (fun _ s' _ => same s s') s.
Proof.
  unfold session_close, getStatus. do 4 wp_step. case_bool_decide; [by wp_step|]. unfold setStatus. do 3 wp_step.
  eapply wp_mono; [apply virtual_keeps_peer, stopMediaPort_peer|]. intros r s' o Hs. wp_step.
  eapply same_trans; [apply set_status_same|exact Hs].
Qed.

Lemma check_same now s : wp (checkSessionStatus now) (fun _ s' _ => same s s') s.
Proof.
  unfold checkSessionStatus, getStatus. do 6 wp_step. unfold setStatus.
  destruct (negb (status_le STREAM_SESSION_STATUS_DISPATCHING (m_enSessionStatus s))).
  { case_match; wp_step; [apply set_status_same|done]. }
  case_bool_decide; [by wp_step|]. wp_step. eapply wp_mono; [apply virtual_keeps_peer, checkMediaChannelStatus_peer|].
  intros [] s' o Hs; wp_step; [done|]. eapply same_trans; [exact Hs|apply set_status_same].
Qed.

(** The peers of the sessions that are not being destroyed. *)
Definition peers_at (dying : gset Z) h : list Z :=
  omap (fun '(q, s) => if decide (q ∈ dying) then None else peer s) (map_to_list h).

Lemma peers_at_delete dying h q s : h !! q = Some s ->
  peers_at dying h ≡ₚ (if decide (q ∈ dying) then [] else option_list (peer s)) ++ peers_at dying (delete q h).
Proof.
  intros H. unfold peers_at. rewrite <-(map_to_list_delete h q s H). cbn. case_decide; [done|]. by destruct (peer s).
Qed.

Lemma peers_at_insert dying h q s : h !! q = None ->
  peers_at dying (<[q := s]> h) ≡ₚ (if decide (q ∈ dying) then [] else option_list (peer s)) ++ peers_at dying h.
Proof.
  intros H. unfold peers_at. rewrite (map_to_list_insert h q s H). cbn. case_decide; [done|]. by destruct (peer s).
Qed.

Lemma peers_at_update dying h q s s' : h !! q = Some s -> peer s' = peer s ->
  peers_at dying (<[q := s']> h) ≡ₚ peers_at dying h.
Proof.
  intros H Hp. rewrite (peers_at_delete dying h q s H), (peers_at_delete dying (<[q := s']> h) q s') by apply lookup_insert_eq.
  by rewrite delete_insert_eq, Hp.
Qed.

Lemma peers_at_ext dying dying' h : (forall q, is_Some (h !! q) -> (q ∈ dying <-> q ∈ dying')) ->
  peers_at dying h = peers_at dying' h.
Proof.
  intros H. unfold peers_at. assert (forall x, x ∈ map_to_list h -> is_Some (h !! x.1)) as Hx.
  { intros [q s] Hq. apply elem_of_map_to_list in Hq. eauto. }
  induction (map_to_list h) as [|[q s] l IH]; [done|]. cbn.
  assert (q ∈ dying <-> q ∈ dying') as E by (apply H, (Hx (q, s)); by left).
  rewrite IH by (intros x Hin; apply Hx; by right). destruct (decide (q ∈ dying)), (decide (q ∈ dying')); tauto.
Qed.

Lemma peers_at_die dying h q s : h !! q = Some s -> q ∉ dying ->
  peers_at dying h ≡ₚ option_list (peer s) ++ peers_at ({[q]} ∪ dying) h.
Proof.
  intros H Hq. rewrite (peers_at_delete dying h q s H), (peers_at_delete ({[q]} ∪ dying) h q s H).
  rewrite decide_False by done. rewrite decide_True by set_solver. cbn [app]. f_equiv.
  rewrite (peers_at_ext dying ({[q]} ∪ dying)); [done|]. intros r [s' Hr]. apply lookup_delete_Some in Hr as [? _]. set_solver.
Qed.

(** [held]: the references the users have; [dying]: the sessions whose destructors run. *)
Record refs_ok held (dying : gset Z) t : Prop := {
  ro_live : forall p s, f_heap t !! p = Some s -> p ∉ dying ->
    m_SessionMap t !! m_StreamID s = Some p /\ 0 < m_lReferenceCnt s /\
    m_lReferenceCnt s = count p held + count p (peers_at dying (f_heap t));
  ro_map : forall id p, m_SessionMap t !! id = Some p ->
    p ∉ dying /\ exists s, f_heap t !! p = Some s /\ m_StreamID s = id;
  ro_ref : forall p, p ∈ held ++ peers_at dying (f_heap t) -> p ∉ dying /\ is_Some (f_heap t !! p);
  ro_dying : forall p, p ∈ dying -> is_Some (f_heap t !! p) }.

#[global] Instance refs_ok_perm : Proper ((≡ₚ) ==> eq ==> eq ==> iff) refs_ok.
Proof.
  assert (forall l k dying t, l ≡ₚ k -> refs_ok l dying t -> refs_ok k dying t) as H.
  { intros l k dying t Hlk [H1 H2 H3 H4]. split; [|done| |done].
    - intros p s Hs Hp. rewrite <-Hlk. eauto.
    - intros p. rewrite <-Hlk. apply H3. }
  intros l k Hlk ? dying -> ? t ->. split; apply H; [done|by symmetry].
Qed.

(** A session is changed, without its number, references and peer. *)
Lemma refs_ok_store held dying t p s s' : refs_ok held dying t -> f_heap t !! p = Some s -> same s s' ->
  refs_ok held dying (on_heap (<[p := s']>) t).
Proof.
  intros [H1 H2 H3 H4] Hs (Er & Ei & Ep). destruct t as [m c i h]. cbn in *.
  pose proof (peers_at_update dying h p s s' Hs Ep) as HP.
  split; cbn.
  - intros q s0 Hq Hd. rewrite HP. destruct (decide (q = p)) as [->|Hne].
    + rewrite lookup_insert_eq in Hq. injection Hq as <-. rewrite Er, Ei. eauto.
    + rewrite lookup_insert_ne in Hq by done. eauto.
  - intros id q Hq. destruct (H2 id q Hq) as (Hd & s0 & Hs0 & Eid). split; [done|].
    destruct (decide (q = p)) as [->|Hne]; [exists s'; rewrite lookup_insert_eq; split; [done|congruence]|].
    exists s0. by rewrite lookup_insert_ne.
  - intros q. rewrite HP. intros Hq. destruct (H3 q Hq) as [? ?]. split; [done|]. by apply lookup_insert_is_Some'; right.
  - intros q Hq. apply lookup_insert_is_Some'. right. eauto.
Qed.

Lemma refs_ok_content held dying f t : refs_ok held dying t -> refs_ok held dying (on_content f t).
Proof. destruct t. intros [H1 H2 H3 H4]. by split. Qed.
Lemma refs_ok_index held dying x t : refs_ok held dying t -> refs_ok held dying (set_index x t).
Proof. destruct t. intros [H1 H2 H3 H4]. by split. Qed.

(** The count of one session changes with the references that are held. *)
Lemma refs_ok_refs held held' dying t p s n : refs_ok held dying t -> f_heap t !! p = Some s -> p ∉ dying ->
  n = count p held' + count p (peers_at dying (f_heap t)) -> 0 < n ->
  (forall q, q <> p -> count q held' = count q held) ->
  refs_ok held' dying (on_heap (<[p := set_refs n s]>) t).
Proof.
  intros [H1 H2 H3 H4] Hs Hp Hn Hpos Hoth. destruct t as [m c i h]. cbn in *.
  assert (peers_at dying (<[p := set_refs n s]> h) ≡ₚ peers_at dying h) as HP by (eapply peers_at_update; [done|by destruct s]).
  split; cbn.
  - intros q s0 Hq Hd. rewrite HP. destruct (decide (q = p)) as [->|Hne].
    + rewrite lookup_insert_eq in Hq. injection Hq as <-. destruct (H1 p s Hs Hd) as (? & _ & _). by destruct s.
    + rewrite lookup_insert_ne in Hq by done. rewrite Hoth by done. eauto.
  - intros id q Hq. destruct (H2 id q Hq) as (Hd & s0 & Hs0 & Eid). split; [done|].
    destruct (decide (q = p)) as [->|Hne]; [assert (s0 = s) as -> by congruence; exists (set_refs n s); rewrite lookup_insert_eq; split; [done|by destruct s]|].
    exists s0. by rewrite lookup_insert_ne.
  - intros q. rewrite HP. intros Hq. assert (q ∉ dying /\ is_Some (h !! q)) as [Hd Hh].
    { destruct (decide (q = p)) as [->|Hne]; [by split; [|eexists]|]. apply H3.
      apply elem_of_app. apply elem_of_app in Hq as [Hq|Hq]; [|by right].
      left. apply count_elem. rewrite <-Hoth by done. by apply count_elem. }
    split; [done|]. apply lookup_insert_is_Some'. by right.
  - intros q Hq. apply lookup_insert_is_Some'. right. eauto.
Qed.

Lemma wp_deref p s (P : CStreamSession D N -> CStreamSessionFactory D N -> list (Z * session_call N) -> Prop) t :
  f_heap t !! p = Some s -> P s t [] -> wp (deref p) P t.
Proof. intros Hs HP. unfold deref. do 2 wp_step. by eapply wp_lift. Qed.

Lemma addReference_ok held dying t p : refs_ok held dying t -> is_Some (f_heap t !! p) -> p ∉ dying ->
  wp (addReference p) (fun _ t' o => refs_ok (p :: held) dying t' /\ o = [] /\ m_SessionMap t' = m_SessionMap t /\
    (peer <$> f_heap t') = (peer <$> f_heap t)) t.
Proof.
  intros H [s Hs] Hp. unfold addReference, store. wp_step. eapply wp_deref; [exact Hs|]. wp_step.
  split; [|destruct t; cbn in *; split_and!; [done..|]].
  2: { rewrite fmap_insert. apply insert_id. rewrite lookup_fmap, Hs. by destruct s. }
  destruct (ro_live _ _ _ H p s Hs Hp) as (_ & Hpos & E).
  eapply refs_ok_refs; [exact H|done|done| |lia|].
  - rewrite count_cons, bool_decide_eq_true_2 by done. lia.
  - intros q Hq. rewrite count_cons, bool_decide_eq_false_2 by congruence. lia.
Qed.

(** The last reference is given back. *)
Lemma refs_ok_die held dying t p s s0 f : refs_ok (p :: held) dying t -> f_heap t !! p = Some s -> p ∉ dying ->
  m_lReferenceCnt s = 1 -> m_StreamID s0 = m_StreamID s -> peer s0 = peer s ->
  refs_ok (option_list (peer s) ++ held) ({[p]} ∪ dying)
    (on_content f (on_map (delete (m_StreamID s)) (on_heap (<[p := s0]>) t))).
Proof.
  intros [H1 H2 H3 H4] Hs Hp Hone Ei Epeer. destruct t as [m c i h]. cbn in *.
  assert (peers_at ({[p]} ∪ dying) (<[p := s0]> h) ≡ₚ peers_at ({[p]} ∪ dying) h) as HP by by eapply peers_at_update.
  pose proof (peers_at_die dying h p s Hs Hp) as HD.
  destruct (H1 p s Hs Hp) as (Hm & _ & Hc). rewrite count_cons, bool_decide_eq_true_2 in Hc by done.
  assert (p ∉ held ++ peers_at dying h) as Hnp.
  { intros Hin%count_elem. rewrite count_app in Hin. lia. }
  assert (forall q, count q (option_list (peer s) ++ held) + count q (peers_at ({[p]} ∪ dying) h) =
    count q held + count q (peers_at dying h)) as HC.
  { intros q. rewrite HD, !count_app. lia. }
  split; cbn.
  - intros q s1 Hq Hd. apply not_elem_of_union in Hd as [Hqp Hd]. rewrite not_elem_of_singleton in Hqp.
    rewrite lookup_insert_ne in Hq by done. destruct (H1 q s1 Hq Hd) as (Hm1 & Hpos & Hc1).
    split; [|split; [done|]].
    + rewrite lookup_delete_ne; [done|]. intros E. rewrite E in Hm. congruence.
    + rewrite HP, HC. rewrite count_cons, bool_decide_eq_false_2 in Hc1 by congruence. lia.
  - intros id q [Hid Hq]%lookup_delete_Some. destruct (H2 id q Hq) as (Hd & s1 & Hs1 & Eid).
    assert (q <> p) as Hne by (intros ->; congruence). split; [set_solver|].
    exists s1. by rewrite lookup_insert_ne.
  - intros q. rewrite HP. intros Hq. assert (q ∈ held ++ peers_at dying h) as Hin.
    { apply count_elem. rewrite count_app, <-HC, <-count_app. by apply count_elem. }
    assert (q <> p) as Hne by (intros ->; done). destruct (H3 q) as [? ?]; [set_solver|].
    split; [set_solver|]. apply lookup_insert_is_Some'. by right.
  - intros q Hq. apply lookup_insert_is_Some'. apply elem_of_union in Hq as [Hq|Hq]; [left; set_solver|right; eauto].
Qed.

(** Its memory is given back. *)
Lemma refs_ok_free held dying t p : refs_ok held ({[p]} ∪ dying) t -> p ∉ dying ->
  refs_ok held dying (on_heap (delete p) t).
Proof.
  intros [H1 H2 H3 H4] Hp. destruct t as [m c i h]. cbn in *.
  destruct (H4 p) as [s Hs]; [set_solver|].
  assert (peers_at dying (delete p h) ≡ₚ peers_at ({[p]} ∪ dying) h) as HP.
  { rewrite (peers_at_delete ({[p]} ∪ dying) h p s Hs), decide_True by set_solver. cbn.
    rewrite (peers_at_ext dying ({[p]} ∪ dying)); [done|]. intros q [s' [Hq _]%lookup_delete_Some]. set_solver. }
  split; cbn.
  - intros q s0 [Hq Hs0]%lookup_delete_Some Hd. rewrite HP. apply H1; [done|set_solver].
  - intros id q Hq. destruct (H2 id q Hq) as (Hd & s0 & Hs0 & Eid). split; [set_solver|]. exists s0.
    split; [|done]. apply lookup_delete_Some. split; [set_solver|done].
  - intros q. rewrite HP. intros Hq. destruct (H3 q Hq) as [Hd [s0 Hs0]]. split; [set_solver|].
    exists s0. apply lookup_delete_Some. split; [set_solver|done].
  - intros q Hq. destruct (H4 q) as [s0 Hs0]; [set_solver|]. exists s0. apply lookup_delete_Some. split; [set_solver|done].
Qed.

Lemma wp_at_session {A} p (m : M (CStreamSession D N) (session_call N) A) (Q : A -> CStreamSession D N -> list (session_call N) -> Prop)
    (P : A -> CStreamSessionFactory D N -> list (Z * session_call N) -> Prop) t s :
  f_heap t !! p = Some s -> wp m Q s ->
  (forall a s' o, Q a s' o -> P a (on_heap (<[p := s']>) t) ((fun e => (p, e)) <$> o)) -> wp (at_session p m) P t.
Proof.
  intros Hs Hm HP. unfold at_session, store. wp_step. eapply wp_deref; [exact Hs|].
  destruct (wp_elim _ _ _ Hm) as (a & s' & o & -> & HQ). do 2 wp_step. unfold tell_all. wp_step.
  unfold wp at 1. wp_step. rewrite app_nil_r. by apply HP.
Qed.

Lemma heap_set p s0 s1 t : on_heap (<[p := s1]>) (on_heap (<[p := s0]>) t) = on_heap (<[p := s1]>) t.
Proof. destruct t. cbn. by rewrite insert_insert_eq. Qed.

Lemma release_ok fuel now : forall p held dying t, refs_ok (p :: held) dying t -> (size (m_SessionMap t) < fuel)%nat ->
  wp (release_at fuel now p) (fun _ t' _ => refs_ok held dying t' /\ m_SessionMap t' ⊆ m_SessionMap t /\
    m_SessionIndex t' = m_SessionIndex t) t.
Proof.
  induction fuel as [|fuel IH]; intros p held dying t H Hf; [lia|]. cbn [release_at].
  destruct (ro_ref _ _ _ H p) as [Hp [s Hs]]; [by left|]. destruct (ro_live _ _ _ H p s Hs Hp) as (Hm & Hpos & Hc).
  rewrite count_cons, bool_decide_eq_true_2 in Hc by done.
  wp_step. unfold decReference, store. wp_step. eapply wp_deref; [exact Hs|]. do 3 wp_step.
  destruct (Z.ltb_spec 0 (m_lReferenceCnt s - 1)).
  { wp_step. split; [|by destruct t]. eapply refs_ok_refs; [exact H|done|done|lia|lia|].
    intros q Hq. rewrite count_cons, bool_decide_eq_false_2 by congruence. lia. }
  set (s0 := set_refs (m_lReferenceCnt s - 1) s). set (t0 := on_heap (<[p := s0]>) t).
  assert (f_heap t0 !! p = Some s0) as Hs0 by (destruct t; apply lookup_insert_eq).
  assert (m_StreamID s0 = m_StreamID s /\ peer s0 = peer s) as [Ei0 Ep0] by by destruct s.
  assert (m_SessionMap t0 = m_SessionMap t) as Em by by destruct t.
  wp_step. eapply wp_deref; [exact Hs0|]. do 2 wp_step.
  rewrite Ei0, Em, Hm. do 4 wp_step.
  set (t1 := on_content _ _). assert (f_heap t1 !! p = Some s0) as Hs1 by by destruct t.
  wp_step. eapply wp_at_session; [exact Hs1|apply session_close_same|]. intros _ s1 o (Er & Ei & Ep).
  assert (f_heap (on_heap (<[p := s1]>) t1) !! p = Some s1) as Hs2 by (destruct t; apply lookup_insert_eq).
  wp_step. eapply wp_deref; [exact Hs2|].
  assert (refs_ok (option_list (peer s) ++ held) ({[p]} ∪ dying) (on_heap (<[p := s1]>) t1)) as H2.
  { replace (on_heap (<[p := s1]>) t1) with
      (on_content (content_erase (m_szContentId s0) (m_StreamID s0)) (on_map (delete (m_StreamID s)) (on_heap (<[p := s1]>) t))).
    - eapply refs_ok_die; [exact H|done|done|lia|congruence|congruence].
    - unfold t1, t0. destruct t. cbn. by rewrite insert_insert_eq, Ei0. }
  assert (m_SessionMap (on_heap (<[p := s1]>) t1) = delete (m_StreamID s) (m_SessionMap t) /\
    m_SessionIndex (on_heap (<[p := s1]>) t1) = m_SessionIndex t) as [Em2 Ex2] by by destruct t.
  change (peer_of (m_derived s1)) with (peer s1). rewrite Ep, Ep0.
  destruct (peer s) as [q|] eqn:Eq; wp_step.
  - eapply wp_mono.
    { apply (IH q held ({[p]} ∪ dying)); [exact H2|]. rewrite Em2. rewrite map_size_delete_Some by eauto.
      assert (size (m_SessionMap t) <> 0%nat) by (intros Hz%map_size_empty_iff; by rewrite Hz, lookup_empty in Hm). lia. }
    intros [] t2 o2 (Ht2 & Hsub & Ex). wp_step. split; [by apply refs_ok_free|].
    destruct t2. cbn in *. rewrite Em2 in Hsub. split; [|congruence]. etrans; [exact Hsub|apply delete_subseteq].
  - do 2 wp_step. split; [by apply refs_ok_free|].
    destruct t. cbn in *. split; [apply delete_subseteq|done].
Qed.

Lemma find_ok held t id : refs_ok held ∅ t ->
  wp (findSession id) (fun r t' o => o = [] /\ r = m_SessionMap t !! id /\ refs_ok (option_list r ++ held) ∅ t' /\
    m_SessionMap t' = m_SessionMap t /\ (peer <$> f_heap t') = (peer <$> f_heap t)) t.
Proof.
  intros H. unfold findSession. do 2 wp_step. destruct (m_SessionMap t !! id) as [p|] eqn:E; [|by wp_step].
  destruct (ro_map _ _ _ H id p E) as (Hp & s & Hs & _). wp_step.
  eapply wp_mono; [by eapply addReference_ok; [done|eexists|]|]. intros [] t' o (H' & -> & Em & Ex). by wp_step.
Qed.

Lemma find_content_ok held t c : refs_ok held ∅ t ->
  wp (findSessionByContent c) (fun r t' o => o = [] /\ refs_ok (option_list r ++ held) ∅ t') t.
Proof.
  intros H. unfold findSessionByContent. do 2 wp_step. destruct (content_find c _) as [|[k id] l]; [by wp_step|].
  eapply wp_mono; [by apply find_ok|]. intros r t' o (? & _ & ? & _). done.
Qed.

Lemma release_by_address held t now p : refs_ok (p :: held) ∅ t ->
  wp (releaseSession now p) (fun _ t' _ => refs_ok held ∅ t') t.
Proof.
  intros H. unfold releaseSession. do 2 wp_step. eapply wp_mono; [apply release_ok; [done|unfold release_fuel; lia]|].
  by intros [] t' o (? & _).
Qed.

Lemma release_by_id held t now id p : refs_ok (p :: held) ∅ t -> m_SessionMap t !! id = Some p ->
  wp (releaseSessionById now id) (fun _ t' _ => refs_ok held ∅ t') t.
Proof.
  intros H E. unfold releaseSessionById. do 2 wp_step. rewrite E.
  eapply wp_mono; [apply release_ok; [done|unfold release_fuel; lia]|]. by intros [] t' o (? & _).
Qed.

Lemma refs_ok_new held t addr s id : refs_ok held ∅ t -> f_heap t !! addr = None -> m_SessionMap t !! id = None ->
  m_lReferenceCnt s = 1 -> peer s = None -> m_StreamID s = id ->
  refs_ok (addr :: held) ∅ (on_map (<[id := addr]>) (on_heap (<[addr := s]>) t)).
Proof.
  intros [H1 H2 H3 H4] Ha Hid Hr Hp Ei. destruct t as [m c i h]. cbn in *.
  assert (peers_at ∅ (<[addr := s]> h) ≡ₚ peers_at ∅ h) as HP.
  { rewrite peers_at_insert by done. case_decide; [done|]. by rewrite Hp. }
  assert (addr ∉ held ++ peers_at ∅ h) as Hn.
  { intros Hin. destruct (H3 _ Hin) as [_ [s0 Hs0]]. congruence. }
  assert (count addr held + count addr (peers_at ∅ h) = 0) as Hz.
  { destruct (Z.eq_dec (count addr (held ++ peers_at ∅ h)) 0) as [E|E]; [by rewrite count_app in E|].
    pose proof (count_nonneg addr (held ++ peers_at ∅ h)). exfalso. apply Hn, count_elem. lia. }
  split; cbn.
  - intros q s0 Hq _. rewrite HP. destruct (decide (q = addr)) as [->|Hne].
    + rewrite lookup_insert_eq in Hq. injection Hq as <-. rewrite Ei, lookup_insert_eq. split; [done|].
      rewrite count_cons, bool_decide_eq_true_2 by done. lia.
    + rewrite lookup_insert_ne in Hq by done. destruct (H1 q s0 Hq ltac:(set_solver)) as (Hm & Hpos & Hc).
      rewrite count_cons, bool_decide_eq_false_2 by congruence. split; [|lia].
      rewrite lookup_insert_ne; [done|]. intros E. congruence.
  - intros id' q Hq. split; [set_solver|]. destruct (decide (id' = id)) as [->|Hne].
    + rewrite lookup_insert_eq in Hq. injection Hq as <-. exists s. by rewrite lookup_insert_eq.
    + rewrite lookup_insert_ne in Hq by done. destruct (H2 id' q Hq) as (_ & s0 & Hs0 & E0). exists s0.
      rewrite lookup_insert_ne; [done|congruence].
  - intros q. rewrite HP. intros Hq. split; [set_solver|]. apply lookup_insert_is_Some'.
    cbn in Hq. apply elem_of_cons in Hq as [->|Hq]; [by left|]. right. by apply H3.
  - set_solver.
Qed.

Lemma create_ok held t content now addr pt ty l : refs_ok held ∅ t -> f_heap t !! addr = None ->
  wp (create content now addr pt ty l) (fun r t' o => o = [] /\ refs_ok (option_list r ++ held) ∅ t') t.
Proof.
  intros H Ha. unfold create. do 4 wp_step.
  assert (refs_ok held ∅ (set_index (u64 (m_SessionIndex t + 1)) t)) as H0 by by apply refs_ok_index.
  destruct (m_SessionMap t !! m_SessionIndex t) as [p|] eqn:E.
  { destruct (ro_map _ _ _ H _ p E) as (Hp & s & Hs & _). wp_step.
    eapply wp_mono; [by eapply addReference_ok; [exact H0|destruct t; eexists|]|]. intros [] t' o (H' & -> & _). by wp_step. }
  destruct (createConcreteSession ty l) as [c|]; [|by wp_step]. unfold store. do 4 wp_step.
  assert (refs_ok (addr :: held) ∅ (on_map (<[m_SessionIndex t := addr]>)
    (on_heap (<[addr := setSessionId (m_SessionIndex t) (construct c pt now)]>) (set_index (u64 (m_SessionIndex t + 1)) t)))) as H1.
  { pose proof (construct_refs c pt now) as Er. pose proof (construct_peer c pt now) as Ep.
    apply refs_ok_new; [done|by destruct t|by destruct t|..]; destruct (construct c pt now); done. }
  wp_step. destruct content as [k|]; wp_step; (split; [done|]); [by apply refs_ok_content|done].
Qed.

Lemma for_each_ok (f : Z -> M (CStreamSessionFactory D N) (Z * session_call N) unit) (grow : Z -> list Z) m :
  (forall p held t, refs_ok held ∅ t -> m_SessionMap t = m -> (exists id, m !! id = Some p) ->
    wp (f p) (fun _ t' _ => refs_ok (grow p ++ held) ∅ t' /\ m_SessionMap t' = m) t) ->
  forall l held t, refs_ok held ∅ t -> m_SessionMap t = m -> (forall p, p ∈ l -> exists id, m !! id = Some p) ->
  wp (for_each f l) (fun _ t' _ => refs_ok (concat (grow <$> l) ++ held) ∅ t' /\ m_SessionMap t' = m) t.
Proof.
  intros Hf. induction l as [|p l IH]; intros held t H Em Hl; cbn [for_each]; [by wp_step|]. wp_step.
  eapply wp_mono; [apply Hf; [done|done|apply Hl; by left]|]. intros [] t' o [H' Em'].
  eapply wp_mono; [apply IH; [exact H'|done|intros q Hq; apply Hl; by right]|]. intros [] t'' o' [H'' Em'']. split; [|done].
  cbn. rewrite <-app_assoc. rewrite (app_assoc (grow p)), (Permutation_app_comm (grow p)), <-app_assoc. exact H''.
Qed.

Lemma concat_singles (l : list Z) : concat ((fun p => [p]) <$> l) = l.
Proof. induction l as [|x l IH]; [done|]. rewrite fmap_cons. cbn [concat app]. by rewrite IH. Qed.
Lemma concat_nils (l : list Z) : concat ((fun _ : Z => @nil Z) <$> l) = [].
Proof. by induction l. Qed.

Lemma all_sessions_in t p : p ∈ all_sessions t -> exists id, m_SessionMap t !! id = Some p.
Proof.
  unfold all_sessions. intros Hp. apply list_elem_of_fmap in Hp as ([id q] & -> & Hq).
  rewrite merge_sort_Permutation in Hq. apply elem_of_map_to_list in Hq. by exists id.
Qed.

Lemma get_all_ok held t : refs_ok held ∅ t ->
  wp getAllSession (fun r t' o => refs_ok (r ++ held) ∅ t') t.
Proof.
  intros H. unfold getAllSession. do 2 wp_step. wp_step.
  eapply wp_mono; [apply (for_each_ok addReference (fun p => [p]) (m_SessionMap t)); [|done|done|by apply all_sessions_in]|].
  - intros p held' t' H' Em [id Hid]. rewrite <-Em in Hid. destruct (ro_map _ _ _ H' id p Hid) as (Hp & s & Hs & _).
    eapply wp_mono; [by eapply addReference_ok; [exact H'|eexists|]|]. intros [] t2 o (? & _ & E & _). by rewrite E.
  - intros [] t' o [H' _]. wp_step.
    by rewrite concat_singles in H'.
Qed.

Lemma check_all_ok held t now : refs_ok held ∅ t -> wp (checkAllSessions now) (fun _ t' _ => refs_ok held ∅ t') t.
Proof.
  intros H. unfold checkAllSessions. do 2 wp_step.
  eapply wp_mono; [apply (for_each_ok _ (fun _ => []) (m_SessionMap t)); [|done|done|by apply all_sessions_in]|].
  - intros p held' t' H' Em [id Hid]. rewrite <-Em in Hid. destruct (ro_map _ _ _ H' id p Hid) as (Hp & s & Hs & _).
    eapply wp_at_session; [exact Hs|apply check_same|]. intros [] s' o Hs'. cbn. split; [by eapply refs_ok_store|by destruct t'].
  - intros [] t' o [H' _]. by rewrite concat_nils in H'.
Qed.

(** The reference a session takes to its source becomes its own. *)
Lemma refs_ok_peer held t p s r : refs_ok (option_list r ++ held) ∅ t -> f_heap t !! p = Some s -> peer s = None ->
  refs_ok held ∅ (on_heap (<[p := set_derived (with_peer (N := N) r (m_derived s)) s]>) t).
Proof.
  intros [H1 H2 H3 H4] Hs Hp. destruct t as [m c i h]. cbn in *. set (s' := set_derived _ s).
  assert (peer s' = r /\ m_StreamID s' = m_StreamID s /\ m_lReferenceCnt s' = m_lReferenceCnt s) as (Ep & Ei & Er).
  { unfold s', peer. destruct s. cbn. by rewrite peer_of_with. }
  assert (peers_at ∅ (<[p := s']> h) ≡ₚ option_list r ++ peers_at ∅ h) as HP.
  { rewrite (peers_at_delete ∅ (<[p := s']> h) p s') by apply lookup_insert_eq. rewrite delete_insert_eq.
    rewrite (peers_at_delete ∅ h p s Hs), Hp, Ep. by rewrite !decide_False by set_solver. }
  split; cbn.
  - intros q s0 Hq Hd. rewrite HP, count_app. rewrite Z.add_assoc, (Z.add_comm (count q held)), <-count_app.
    destruct (decide (q = p)) as [->|Hne].
    + rewrite lookup_insert_eq in Hq. injection Hq as <-. rewrite Ei, Er. eauto.
    + rewrite lookup_insert_ne in Hq by done. eauto.
  - intros id q Hq. destruct (H2 id q Hq) as (Hd & s0 & Hs0 & Eid). split; [done|].
    destruct (decide (q = p)) as [->|Hne]; [exists s'; rewrite lookup_insert_eq; split; [done|congruence]|].
    exists s0. by rewrite lookup_insert_ne.
  - intros q. rewrite HP. intros Hq. destruct (H3 q) as [? ?]; [set_solver|]. split; [done|].
    apply lookup_insert_is_Some'. by right.
  - set_solver.
Qed.

Lemma take_peer_ok held t p id : refs_ok held ∅ t -> is_Some (f_heap t !! p) ->
  wp (take_peer p id) (fun _ t' _ => refs_ok held ∅ t') t.
Proof.
  intros H [s Hs]. unfold take_peer, store. wp_step. eapply wp_deref; [exact Hs|]. change (peer_of (m_derived s)) with (peer s).
  destruct (peer s) eqn:Ep; [by wp_step|]. destruct (id =? 0); [by wp_step|]. wp_step.
  eapply wp_mono; [by apply find_ok|]. intros r t' o (_ & Hr & H' & H'').
  destruct H'' as [_ Eh]. assert ((peer <$> f_heap t') !! p = Some None) as Hp by (by rewrite Eh, lookup_fmap, Hs, <-Ep).
  rewrite lookup_fmap in Hp. destruct (f_heap t' !! p) as [s'|] eqn:Hs'; [|done]. injection Hp as Hp.
  wp_step. eapply wp_deref; [exact Hs'|]. wp_step. by eapply refs_ok_peer.
Qed.

(** ** The users of the factory *)

(** A user gives back a reference it has, by the address or by the number, and
    uses a session it has; [held] are the references of all users. *)
Inductive factory_step : list Z * CStreamSessionFactory D N -> list Z * CStreamSessionFactory D N -> Prop :=
| fs_create held t content now addr pt ty l r t' o : f_heap t !! addr = None ->
    create content now addr pt ty l t = Some (r, t', o) -> factory_step (held, t) (option_list r ++ held, t')
| fs_find held t id r t' o : findSession id t = Some (r, t', o) -> factory_step (held, t) (option_list r ++ held, t')
| fs_content held t c r t' o : findSessionByContent c t = Some (r, t', o) -> factory_step (held, t) (option_list r ++ held, t')
| fs_all held t r t' o : getAllSession t = Some (r, t', o) -> factory_step (held, t) (r ++ held, t')
| fs_release held held' t now p r t' o : held ≡ₚ p :: held' -> releaseSession now p t = Some (r, t', o) ->
    factory_step (held, t) (held', t')
| fs_release_id held held' t now id p r t' o : held ≡ₚ p :: held' -> m_SessionMap t !! id = Some p ->
    releaseSessionById now id t = Some (r, t', o) -> factory_step (held, t) (held', t')
| fs_use held t p s s' : p ∈ held -> f_heap t !! p = Some s -> same s s' ->
    factory_step (held, t) (held, on_heap (<[p := s']>) t)
| fs_peer held t p id r t' o : p ∈ held -> take_peer p id t = Some (r, t', o) -> factory_step (held, t) (held, t')
| fs_check held t now r t' o : checkAllSessions now t = Some (r, t', o) -> factory_step (held, t) (held, t').

Inductive factory_run : list Z -> CStreamSessionFactory D N -> Prop :=
| fr_new : factory_run [] CStreamSessionFactory_new
| fr_step held t held' t' : factory_run held t -> factory_step (held, t) (held', t') -> factory_run held' t'.

Lemma new_ok : refs_ok [] ∅ CStreamSessionFactory_new.
Proof.
  split; cbn.
  - intros p s Hs. by rewrite lookup_empty in Hs.
  - intros id p Hp. by rewrite lookup_empty in Hp.
  - intros p Hp. unfold peers_at in Hp. rewrite map_to_list_empty in Hp. by apply not_elem_of_nil in Hp.
  - set_solver.
Qed.

Lemma wp_use {A} (m : M (CStreamSessionFactory D N) (Z * session_call N) A)
    (P : A -> CStreamSessionFactory D N -> list (Z * session_call N) -> Prop) t r t' o :
  wp m P t -> m t = Some (r, t', o) -> P r t' o.
Proof. unfold wp. intros H E. by rewrite E in H. Qed.

Lemma step_ok held t held' t' : refs_ok held ∅ t -> factory_step (held, t) (held', t') -> refs_ok held' ∅ t'.
Proof.
  intros H Hs. inversion Hs; subst; clear Hs.
  - match goal with E : create _ _ _ _ _ _ _ = _ |- _ => by apply (wp_use _ _ _ _ _ _ (create_ok _ _ _ _ _ _ _ _ H ltac:(done)) E) end.
  - match goal with E : findSession _ _ = _ |- _ => by apply (wp_use _ _ _ _ _ _ (find_ok _ _ _ H) E) end.
  - match goal with E : findSessionByContent _ _ = _ |- _ => by apply (wp_use _ _ _ _ _ _ (find_content_ok _ _ _ H) E) end.
  - match goal with E : getAllSession _ = _ |- _ => by apply (wp_use _ _ _ _ _ _ (get_all_ok _ _ H) E) end.
  - match goal with E : releaseSession _ _ _ = _, Hp : held ≡ₚ _ |- _ =>
      rewrite Hp in H; by apply (wp_use _ _ _ _ _ _ (release_by_address _ _ _ _ H) E) end.
  - match goal with E : releaseSessionById _ _ _ = _, Hp : held ≡ₚ _, Em : m_SessionMap _ !! _ = _ |- _ =>
      rewrite Hp in H; by apply (wp_use _ _ _ _ _ _ (release_by_id _ _ _ _ _ H Em) E) end.
  - by eapply refs_ok_store.
  - match goal with E : take_peer _ _ _ = _, Hp : _ ∈ held' |- _ =>
      refine (wp_use _ _ _ _ _ _ (take_peer_ok _ _ _ _ H _) E); apply (ro_ref _ _ _ H), elem_of_app; by left end.
  - match goal with E : checkAllSessions _ _ = _ |- _ => by apply (wp_use _ _ _ _ _ _ (check_all_ok _ _ _ H) E) end.
Qed.

Lemma run_ok held t : factory_run held t -> refs_ok held ∅ t.
Proof. induction 1 as [|held t held' t' _ IH Hs]; [apply new_ok|by eapply step_ok]. Qed.

Lemma wp_some {A} (m : M (CStreamSessionFactory D N) (Z * session_call N) A) P t : wp m P t -> is_Some (m t).
Proof. unfold wp. by destruct (m t) as [[[??]?]|]; [eexists|]. Qed.
End References.

(** ** Properties *)

(** C10: whatever the users do, a session lives as long as it has references: the
    table has exactly the live sessions, each counts the references of the users and
    of the sessions it is the peer of, and without users only sessions that
    are peers of others are left. *)
Theorem factory_references D N `{!SessionImpl D N, !SessionClass D N, !SessionClassLaws D N} held
    (t : CStreamSessionFactory D N) : factory_run held t ->
  (forall p, p ∈ held -> is_Some (f_heap t !! p)) /\
  (forall p s, f_heap t !! p = Some s ->
     m_SessionMap t !! m_StreamID s = Some p /\ 0 < m_lReferenceCnt s /\
     m_lReferenceCnt s = count p held + count p (peers_at ∅ (f_heap t))) /\
  (forall id p, m_SessionMap t !! id = Some p -> exists s, f_heap t !! p = Some s /\ m_StreamID s = id) /\
  (held = [] -> forall p, is_Some (f_heap t !! p) -> p ∈ peers_at ∅ (f_heap t)).
Proof.
  intros H%run_ok. split_and!.
  - intros p Hp. apply (ro_ref _ _ _ H), elem_of_app. by left.
  - intros p s Hs. apply (ro_live _ _ _ H p s Hs). set_solver.
  - intros id p Hp. by destruct (ro_map _ _ _ H id p Hp) as [_ ?].
  - intros -> p [s Hs]. destruct (ro_live _ _ _ H p s Hs ltac:(set_solver)) as (_ & Hpos & E).
    apply count_elem. rewrite count_nil in E. lia.
Qed.

(** C35: no operation uses a deleted session, and the release of a session, which
    may release the next and so on, ends. *)
Theorem factory_no_fault D N `{!SessionImpl D N, !SessionClass D N, !SessionClassLaws D N} held
    (t : CStreamSessionFactory D N) : factory_run held t ->
  (forall content now addr pt ty l, f_heap t !! addr = None -> is_Some (create content now addr pt ty l t)) /\
  (forall id, is_Some (findSession id t)) /\ (forall c, is_Some (findSessionByContent c t)) /\ is_Some (getAllSession t) /\
  (forall now p, p ∈ held -> is_Some (releaseSession now p t)) /\
  (forall now id p, p ∈ held -> m_SessionMap t !! id = Some p -> is_Some (releaseSessionById now id t)) /\
  (forall p id, p ∈ held -> is_Some (take_peer p id t)) /\ (forall now, is_Some (checkAllSessions now t)).
Proof.
  intros H%run_ok. split_and!.
  - intros. by eapply wp_some, create_ok.
  - intros. by eapply wp_some, find_ok.
  - intros. by eapply wp_some, find_content_ok.
  - by eapply wp_some, get_all_ok.
  - intros now p Hp. apply elem_of_Permutation in Hp as [l Hl]. rewrite Hl in H. by eapply wp_some, release_by_address.
  - intros now id p Hp E. apply elem_of_Permutation in Hp as [l Hl]. rewrite Hl in H. by eapply wp_some, release_by_id.
  - intros p id Hp. eapply wp_some, take_peer_ok; [exact H|]. apply (ro_ref _ _ _ H), elem_of_app. by left.
  - intros. by eapply wp_some, check_all_ok.
Qed.

(** Sessions without ports; the state is the pointer to the peer. *)
#[export] Instance linked_session : SessionImpl (option Z) Z := {|
  allocMediaPort := fun s => (RET_OK, m_derived s, []);
  setRemoteAddress := fun s => (RET_OK, m_derived s, []);
  startMediaPort := fun s => (RET_OK, m_derived s, []);
  stopMediaPort := fun s => (RET_OK, m_derived s, []);
  checkMediaChannelStatus := fun s => (true, m_derived s, []);
  sendStartRequest := fun s => (RET_OK, m_derived s, []);
  sendNatResponse := fun _ s => (RET_OK, m_derived s, []);
  sendVcrMessage := fun s => (RET_OK, m_derived s, []);
  is_rtp_session := fun _ => true |}.
#[export] Instance linked_class : SessionClass (option Z) Z := {|
  construct := fun _ peer now => CStreamSession_new now PLAY_TYPE_LIVE 0 peer TRANS_DIRECTION_RECVONLY MEDIA_TRANS_TYPE_RTP None;
  peer_of := fun d => d;
  with_peer := fun x _ => x |}.
#[export] Instance linked_laws : SessionClassLaws (option Z) Z.
Proof. by split. Qed.

Definition after {A} (m : M (CStreamSessionFactory (option Z) Z) (Z * session_call Z) A) (t : CStreamSessionFactory (option Z) Z) :=
  match m t with Some (_, t, _) => t | None => t end.

(** A source and a session that takes its payload from it; the reference to the source is given back. *)
Definition demo1 := after (createSourceSession (chars "cam") 0 100 PEER_TYPE_PU RTP_SESSION false) CStreamSessionFactory_new.
Definition demo2 := after (createSession 0 200 PEER_TYPE_CU RTP_SESSION false) demo1.
Definition demo3 := after (take_peer 200 1) demo2.
Definition demo4 := after (releaseSession 5 100) demo3.

Lemma demo_run : factory_run [200] demo4.
Proof.
  eapply (fr_step [200; 100] demo3).
  - eapply (fr_step [200; 100] demo2).
    + eapply (fr_step [100] demo1).
      * eapply (fr_step [] CStreamSessionFactory_new); [apply fr_new|].
        apply (fs_create [] _ (Some (chars "cam")) 0 100 PEER_TYPE_PU RTP_SESSION false (Some 100) _ []); vm_compute; reflexivity.
      * apply (fs_create [100] _ None 0 200 PEER_TYPE_CU RTP_SESSION false (Some 200) _ []); vm_compute; reflexivity.
    + apply (fs_peer _ _ 200 1 tt _ []); [by left|vm_compute; reflexivity].
  - apply (fs_release [200; 100] [200] _ 5 100 tt _ []); [apply Permutation_swap|vm_compute; reflexivity].
Qed.

Lemma factory_references_witness : is_Some (f_heap demo4 !! 200) /\
  (exists s, f_heap demo4 !! 100 = Some s /\ m_StreamID s = 1).
Proof.
  destruct (factory_references (option Z) Z [200] demo4 demo_run) as (H1 & _ & H3 & _).
  split; [apply H1; by left|]. apply H3. vm_compute. reflexivity.
Defined.

Lemma factory_no_fault_witness : is_Some (releaseSession 9 200 demo4).
Proof.
  destruct (factory_no_fault (option Z) Z [200] demo4 demo_run) as (_ & _ & _ & _ & H & _). apply H. by left.
Defined.

Lemma take_256_ne (c : list Z) : 256 < zlen c -> take 256 c <> c.
Proof. intros H E. apply (f_equal (@length Z)) in E. rewrite length_take in E. unfold zlen in H. lia. Qed.

Lemma c_str_id (l : list Z) : Forall (fun x => x <> 0) l -> c_str l = l.
Proof. induction 1 as [|x l Hx _ IH]; [done|]. cbn. by rewrite (proj2 (Z.eqb_neq x 0)), IH by done. Qed.

(** A content of more than 256 characters is cut in the session, so that its
    entry stays when the session is released; it hides every later source of the content. *)
Theorem long_content_hidden (c : list Z) : Forall (fun x => x <> 0) c -> CONTENT_ID_LEN < zlen c ->
  exists t1 t2 t3 t4 o,
    createSourceSession c 0 100 PEER_TYPE_PU RTP_SESSION false (CStreamSessionFactory_new (D := option Z) (N := Z)) = Some (Some 100, t1, []) /\
    at_session 100 (session_init 0 c PLAY_TYPE_LIVE) t1 = Some (RET_OK, t2, []) /\
    releaseSession 9 100 t2 = Some (tt, t3, o) /\ m_SessionMap t3 = ∅ /\
    createSourceSession c 9 200 PEER_TYPE_PU RTP_SESSION false t3 = Some (Some 200, t4, []) /\
    findSession 2 t4 <> Some (None, t4, []) /\ findSessionByContent c t4 = Some (None, t4, []).
Proof.
  intros Hc Hl. change CONTENT_ID_LEN with 256 in Hl. pose proof (take_256_ne c Hl) as Hne.
  assert (c_str (take (Z.to_nat CONTENT_ID_LEN) c) = take 256 c) as Ec by (apply c_str_id; by apply Forall_take).
  assert (str_cmp c c = Eq) as Hcc by apply str_cmp_refl.
  set (t1 := after (createSourceSession c 0 100 PEER_TYPE_PU RTP_SESSION false) CStreamSessionFactory_new).
  set (t2 := after (at_session 100 (session_init 0 c PLAY_TYPE_LIVE)) t1).
  assert (exists s, t2 = Build_CStreamSessionFactory {[1 := 100]} [(c, 1)] 2 {[100 := s]} /\ m_szContentId s = take 256 c /\
    m_StreamID s = 1 /\ m_lReferenceCnt s = 1 /\ peer s = None /\ m_enSessionStatus s = STREAM_SESSION_STATUS_WAIT_START) as (s & E2 & Es & Ei & Er & Ep & Est).
  { eexists. split; [reflexivity|]. cbn -[take c_str]. by rewrite <-Ec. }
  set (t3 := Build_CStreamSessionFactory (D := option Z) (N := Z) ∅ [(c, 1)] 2 ∅).
  set (t4 := after (createSourceSession c 9 200 PEER_TYPE_PU RTP_SESSION false) t3).
  exists t1, t2, t3, t4, [(100, StopMediaPort)]. split; [reflexivity|]. split; [reflexivity|].
  split; [|split; [reflexivity|split; [reflexivity|]]].
  - rewrite E2. destruct s as [r st b pl i e d m q co l y]. cbn in Es, Ei, Er, Ep, Est. subst co i r st. unfold peer in Ep. cbn in Ep. subst y.
    assert (content_erase (take 256 c) 1 [(c, 1)] = [(c, 1)]) as Ece by (cbn -[take]; by rewrite bool_decide_eq_false_2 by congruence).
    transitivity (Some (tt, Build_CStreamSessionFactory (D := option Z) (N := Z) ∅ (content_erase (take 256 c) 1 [(c, 1)]) 2 ∅,
      [(100, StopMediaPort (N := Z))])); [reflexivity|by rewrite Ece].
  - assert (t4 = Build_CStreamSessionFactory {[2 := 200]} [(c, 1); (c, 2)] 3
      {[200 := setSessionId 2 (construct RtpSession PEER_TYPE_PU 9)]}) as ->.
    { assert (content_insert c 2 [(c, 1)] = [(c, 1); (c, 2)]) as <- by (unfold content_insert; by rewrite Hcc). reflexivity. }
    split; [done|]. unfold findSessionByContent. rewrite get_bind. cbn -[findSession].
    by rewrite bool_decide_eq_true_2 by done.
Qed.

Lemma long_content_hidden_witness : exists t,
  createSourceSession (replicate 257 97) 9 200 PEER_TYPE_PU RTP_SESSION false
    (Build_CStreamSessionFactory (D := option Z) (N := Z) ∅ [(replicate 257 97, 1)] 2 ∅) = Some (Some 200, t, []) /\
  findSessionByContent (replicate 257 97) t = Some (None, t, []).
Proof.
  destruct (long_content_hidden (replicate 257 97)) as (t1 & t2 & t3 & t4 & o & E1 & E2 & E3 & _ & E4 & _ & E5).
  - by apply Forall_replicate.
  - reflexivity.
  - exists t4. split; [|exact E5]. rewrite <-E4. f_equal.
    vm_compute in E1. injection E1 as <-. vm_compute in E2. injection E2 as <-. vm_compute in E3. injection E3 as <- _. reflexivity.
Defined.
