(* ===== verification/Business.v ===== *)
(** * Businesses: [svs_adapter_business.cpp], [svs_adapter_business_manager.cpp]

    A business brings the media of one session to another: it has a reference of
    both, and a processor it adds to the media exchange. The manager has each
    business twice in a table, by the numbers of its sessions, and counts references.

    The table of sessions is reached through the interface [SessionTable], which
    [CStreamSessionFactory] implements; the media exchange through
    [MediaExchangeOps]. Processors and businesses are in heaps by their addresses.
    The use of what was deleted is a fault. *)

From Stdlib Require Import String.
From S2P Require Import Prelude Text Sdp DataStat Session SessionFactory.
Open Scope Z_scope.

(** ** Interfaces *)

(** [tab_holds l]: there are the references [l], whoever has them. *)
Class SessionTable (F : Type) : Type := {
  tab_find : Z -> F -> option (option Z * F);
  tab_release : Z -> Z -> F -> option F;
  tab_id : Z -> F -> option Z;
  tab_status : Z -> F -> option STREAM_SESSION_STATUS;
  tab_play : Z -> F -> option PLAY_TYPE;
  tab_trans : Z -> F -> option Z;
  tab_content : Z -> F -> option (list Z);
  tab_holds : list Z -> F -> Prop }.

Class SessionTableLaws (F : Type) `{!SessionTable F} : Prop := {
  holds_perm : forall l k f, l ≡ₚ k -> tab_holds l f -> tab_holds k f;
  find_holds : forall l f id, tab_holds l f -> exists r f', tab_find id f = Some (r, f') /\
    tab_holds (option_list r ++ l) f' /\ (forall p, r = Some p -> tab_id p f' = Some id) /\
    (forall p, p ∈ l -> tab_id p f' = tab_id p f);
  release_holds : forall l f now p, tab_holds (p :: l) f -> exists f', tab_release now p f = Some f' /\
    tab_holds l f' /\ (forall q, q ∈ l -> tab_id q f' = tab_id q f);
  use_holds : forall l f p, tab_holds l f -> p ∈ l ->
    is_Some (tab_id p f) /\ is_Some (tab_status p f) /\ is_Some (tab_play p f) /\ is_Some (tab_trans p f) /\
    is_Some (tab_content p f) }.

(** The processors the exchange has, and of these the ones it was asked to delete;
    [delMediaProcessor] only asks. *)
Class MediaExchangeOps (X : Type) : Type := {
  ex_add : Z -> Z -> Z -> Z -> X -> SVS_RET_CODE * X;
  ex_del : Z -> Z -> Z -> X -> SVS_RET_CODE * X;
  ex_users : X -> list Z;
  ex_doomed : X -> list Z }.

Class MediaExchangeLaws (X : Type) `{!MediaExchangeOps X} : Prop := {
  add_users : forall id p a b x, let '(r, x') := ex_add id p a b x in
    ex_users x' ≡ₚ (if decide (r = RET_OK) then [p] else []) ++ ex_users x /\ ex_doomed x' = ex_doomed x;
  del_users : forall id p a x, let '(r, x') := ex_del id p a x in
    ex_users x' = ex_users x /\ ex_doomed x' ≡ₚ (if decide (r = RET_OK) then [p] else []) ++ ex_doomed x }.

(** ** A business *)

Record CStreamBusiness : Type := {
  m_nRefCount : Z; m_szContentID : list Z; m_pRecvSession : option Z; m_pSendSession : option Z;
  m_enBusinessType : PLAY_TYPE; m_pRecvProcessor : option Z;
  m_OutputRate : Z; m_ullFluxSize : Z; m_unStartTime : Z; m_unEndTime : Z }.

Definition CStreamBusiness_new : CStreamBusiness :=
  {| m_nRefCount := 1; m_szContentID := []; m_pRecvSession := None; m_pSendSession := None;
     m_enBusinessType := PLAY_TYPE_MAX; m_pRecvProcessor := None; m_OutputRate := 0; m_ullFluxSize := 0;
     m_unStartTime := 0; m_unEndTime := 0 |}.

Definition with_refs (x : Z) (b : CStreamBusiness) : CStreamBusiness :=
  let '(Build_CStreamBusiness _ c r s t p o f b e) := b in Build_CStreamBusiness x c r s t p o f b e.
Definition with_content (x : list Z) (b : CStreamBusiness) : CStreamBusiness :=
  let '(Build_CStreamBusiness n _ r s t p o f b e) := b in Build_CStreamBusiness n x r s t p o f b e.
Definition with_recv (x : option Z) (b : CStreamBusiness) : CStreamBusiness :=
  let '(Build_CStreamBusiness n c _ s t p o f b e) := b in Build_CStreamBusiness n c x s t p o f b e.
Definition with_send (x : option Z) (b : CStreamBusiness) : CStreamBusiness :=
  let '(Build_CStreamBusiness n c r _ t p o f b e) := b in Build_CStreamBusiness n c r x t p o f b e.
Definition with_type (x : PLAY_TYPE) (b : CStreamBusiness) : CStreamBusiness :=
  let '(Build_CStreamBusiness n c r s _ p o f b e) := b in Build_CStreamBusiness n c r s x p o f b e.
Definition with_processor (x : option Z) (b : CStreamBusiness) : CStreamBusiness :=
  let '(Build_CStreamBusiness n c r s t _ o f b e) := b in Build_CStreamBusiness n c r s t x o f b e.
Definition with_flux (rate size start stop : Z) (b : CStreamBusiness) : CStreamBusiness :=
  let '(Build_CStreamBusiness n c r s t p _ _ _ _) := b in Build_CStreamBusiness n c r s t p rate size start stop.

(** What the businesses share: a processor is the session it sends to. *)
Record world (F X : Type) : Type := { w_sessions : F; w_exchange : X; w_procs : gmap Z (option Z) }.
Arguments w_sessions {F X} _.
Arguments w_exchange {F X} _.
Arguments w_procs {F X} _.

Section Business.
Context {F X : Type} `{!SessionTable F, !MediaExchangeOps X}.

Abbreviation bop A := (M (CStreamBusiness * world F X) unit A).

Definition this : bop CStreamBusiness := s ← get; mret s.1.
Definition on_this_business (f : CStreamBusiness -> CStreamBusiness) : bop unit := modify (fun '(b, w) => (f b, w)).
Definition on_sessions {A} (f : F -> option (A * F)) : bop A := fun '(b, w) =>
  match f (w_sessions w) with
  | Some (a, t) => Some (a, (b, {| w_sessions := t; w_exchange := w_exchange w; w_procs := w_procs w |}), [])
  | None => None
  end.
Definition ask {A} (f : F -> option A) : bop A := s ← get; lift (f (w_sessions s.2)).
Definition on_exchange {A} (f : X -> A * X) : bop A := fun '(b, w) =>
  let '(a, x) := f (w_exchange w) in
  Some (a, (b, {| w_sessions := w_sessions w; w_exchange := x; w_procs := w_procs w |}), []).
Definition on_procs (f : gmap Z (option Z) -> gmap Z (option Z)) : bop unit := modify (fun '(b, w) =>
  (b, {| w_sessions := w_sessions w; w_exchange := w_exchange w; w_procs := f (w_procs w) |})).

Definition session_find (id : Z) : bop (option Z) := on_sessions (tab_find id).
Definition session_release (now p : Z) : bop unit :=
  on_sessions (fun t => match tab_release now p t with Some t => Some (tt, t) | None => None end).

(** *** Processors: [CStreamMediaProcessor] *)

Definition proc (q : Z) : bop (option Z) := s ← get; lift (w_procs s.2 !! q).

Definition processor_init (q ullSendSessionID : Z) : bop SVS_RET_CODE :=
  p ← proc q;
  match p with
  | Some _ => mret RET_FAIL
  | None =>
    r ← session_find ullSendSessionID;
    match r with
    | None => mret RET_ERR_PARAM
    | Some _ => _ ← on_procs (<[q := r]>); mret RET_OK
    end
  end.

Definition delete_processor (now q : Z) : bop unit :=
  p ← proc q;
  _ ← match p with Some s => session_release now s | None => mret tt end;
  on_procs (delete q).

(** *** The business *)

Definition business_init (recvSessionId sendSessionId : Z) (enPlayType : PLAY_TYPE) : bop SVS_RET_CODE :=
  r ← session_find recvSessionId;
  _ ← on_this_business (with_recv r);
  match r with
  | None => mret RET_FAIL
  | Some recv =>
    s ← session_find sendSessionId;
    _ ← on_this_business (with_send s);
    match s with
    | None => mret RET_FAIL
    | Some _ =>
      c ← ask (tab_content recv);
      _ ← on_this_business (with_content c);
      _ ← on_this_business (with_type enPlayType);
      mret RET_OK
    end
  end.

(** 0 without a session. *)
Definition stream_id (p : option Z) : bop Z :=
  match p with None => mret 0 | Some p => ask (tab_id p) end.
Definition getRecvStreamID : bop Z := b ← this; stream_id (m_pRecvSession b).
Definition getSendStreamID : bop Z := b ← this; stream_id (m_pSendSession b).

Definition registMediaProcessor : bop SVS_RET_CODE :=
  recvStreamId ← getRecvStreamID;
  sendStreamId ← getSendStreamID;
  b ← this;
  match m_pRecvProcessor b, m_pSendSession b, m_pRecvSession b with
  | Some q, Some send, Some recv =>
    unRecvTransType ← ask (tab_trans recv);
    unSendTransType ← ask (tab_trans send);
    r ← processor_init q sendStreamId;
    if bool_decide (r <> RET_OK) then mret RET_FAIL
    else
      r ← on_exchange (ex_add recvStreamId q unRecvTransType unSendTransType);
      mret (if bool_decide (r <> RET_OK) then RET_FAIL else RET_OK)
  | _, _, _ => mret RET_FAIL
  end.

(** [q]: the address [new] answers. *)
Definition createDirectProcessor (q : Z) : bop unit :=
  b ← this;
  match m_pSendSession b, m_pRecvSession b with
  | Some _, Some _ => _ ← on_procs (<[q := None]>); on_this_business (with_processor (Some q))
  | _, _ => mret tt
  end.

Definition delete_own (now : Z) : bop unit :=
  b ← this;
  match m_pRecvProcessor b with
  | None => mret tt
  | Some q => _ ← delete_processor now q; on_this_business (with_processor None)
  end.

Definition createMediaProcessor (now q : Z) : bop SVS_RET_CODE :=
  b ← this;
  match m_pSendSession b with
  | None => mret RET_FAIL
  | Some send =>
    unServiceType ← ask (tab_play send);
    _ ← delete_own now;
    match unServiceType with
    | PLAY_TYPE_LIVE | PLAY_TYPE_FRONT_RECORD =>
      _ ← createDirectProcessor q;
      r ← registMediaProcessor;
      if bool_decide (r <> RET_OK) then _ ← delete_own now; mret RET_FAIL
      else mret RET_OK
    | _ => mret RET_FAIL
    end
  end.

Definition business_start (now q : Z) : bop SVS_RET_CODE :=
  b ← this;
  match m_pRecvSession b, m_pSendSession b with
  | Some recv, Some send =>
    st ← ask (tab_status recv);
    st' ← ask (tab_status send);
    if status_le STREAM_SESSION_STATUS_WAIT_CHANNEL_REDAY st && status_le STREAM_SESSION_STATUS_WAIT_CHANNEL_REDAY st' then
      r ← createMediaProcessor now q;
      mret (if bool_decide (r <> RET_OK) then RET_FAIL else RET_OK)
    else mret RET_OK
  | _, _ => mret RET_FAIL
  end.

(** [m_pSendProcessor] is always NULL. *)
Definition destroyMediaProcessor : bop unit :=
  recvStreamId ← getRecvStreamID;
  b ← this;
  match m_pRecvSession b with
  | None => mret tt
  | Some recv =>
    unTransType ← ask (tab_trans recv);
    match m_pRecvProcessor b with
    | None => mret tt
    | Some q => _ ← on_exchange (ex_del recvStreamId q unTransType); on_this_business (with_processor None)
    end
  end.

Definition business_stop (now : Z) : bop SVS_RET_CODE :=
  _ ← destroyMediaProcessor;
  b ← this;
  _ ← match m_pRecvSession b with
      | Some p => _ ← session_release now p; on_this_business (with_recv None)
      | None => mret tt
      end;
  _ ← match m_pSendSession b with
      | Some p => _ ← session_release now p; on_this_business (with_send None)
      | None => mret tt
      end;
  mret RET_OK.

Definition getSession (unStreamID : Z) : bop (option Z) :=
  recvStreamId ← getRecvStreamID;
  b ← this;
  if unStreamID =? recvStreamId then mret (m_pRecvSession b)
  else
    sendStreamId ← getSendStreamID;
    mret (if unStreamID =? sendStreamId then m_pSendSession b else None).

(** The session that gets the message and its peer, for the virtual [handleInnerMessage]. *)
Definition handleInnerMsg (ullStreamID : Z) : bop (option (Z * Z)) :=
  b ← this;
  match m_pRecvSession b, m_pSendSession b with
  | Some recv, Some send =>
    recvStreamId ← getRecvStreamID;
    if recvStreamId =? ullStreamID then mret (Some (recv, send))
    else
      sendStreamId ← getSendStreamID;
      mret (if sendStreamId =? ullStreamID then Some (send, recv) else None)
  | _, _ => mret None
  end.

(** [flux], [start], [stop]: what [getFlux] of the processor gives. A division by
    zero is a fault. *)
Definition statFluxInfo (flux start stop : Z) : bop unit :=
  b ← this;
  match m_pRecvProcessor b with
  | None => mret tt
  | Some q =>
    _ ← proc q;
    if start <? stop then
      let Interval := u32 (stop - start) in
      let d := u32 (KILO * Interval) in
      if d =? 0 then fault
      else on_this_business (with_flux (u32 (u32 flux * BYTE_NUM) / d) flux start stop)
    else on_this_business (with_flux (m_OutputRate b) flux start stop)
  end.
End Business.

(** ** The manager *)

(** A [multimap] by number. *)
Fixpoint multi_insert (k b : Z) (m : list (Z * Z)) : list (Z * Z) :=
  match m with
  | [] => [(k, b)]
  | (k', b') :: m' => if k <? k' then (k, b) :: m else (k', b') :: multi_insert k b m'
  end.
Definition multi_find (k : Z) (m : list (Z * Z)) : list Z := (filter (fun e => e.1 = k) m).*2.
Fixpoint multi_erase (k b : Z) (m : list (Z * Z)) : list (Z * Z) :=
  match m with
  | [] => []
  | (k', b') :: m' => if (k' =? k) && (b' =? b) then m' else (k', b') :: multi_erase k b m'
  end.

Record CStreamBusinessManager (F X : Type) : Type := {
  m_BusinessMap : list (Z * Z); m_unMaxBusinessNum : Z; m_InputRate : Z; m_OutputRateSum : Z;
  b_heap : gmap Z CStreamBusiness; b_world : world F X }.
Arguments m_BusinessMap {F X} _.
Arguments m_unMaxBusinessNum {F X} _.
Arguments m_InputRate {F X} _.
Arguments m_OutputRateSum {F X} _.
Arguments b_heap {F X} _.
Arguments b_world {F X} _.
Arguments Build_CStreamBusinessManager {F X} _ _ _ _ _ _.

Section Manager.
Context {F X : Type} `{!SessionTable F, !MediaExchangeOps X}.

Abbreviation mop A := (M (CStreamBusinessManager F X) unit A).

Definition manager_new (w : world F X) : CStreamBusinessManager F X := Build_CStreamBusinessManager [] 0 0 0 ∅ w.

Definition with_map (f : list (Z * Z) -> list (Z * Z)) (t : CStreamBusinessManager F X) : CStreamBusinessManager F X :=
  let '(Build_CStreamBusinessManager m n i o h w) := t in Build_CStreamBusinessManager (f m) n i o h w.
Definition with_num (f : Z -> Z) (t : CStreamBusinessManager F X) : CStreamBusinessManager F X :=
  let '(Build_CStreamBusinessManager m n i o h w) := t in Build_CStreamBusinessManager m (f n) i o h w.
Definition with_rates (i' o' : Z) (t : CStreamBusinessManager F X) : CStreamBusinessManager F X :=
  let '(Build_CStreamBusinessManager m n _ _ h w) := t in Build_CStreamBusinessManager m n i' o' h w.
Definition with_heap (f : gmap Z CStreamBusiness -> gmap Z CStreamBusiness) (t : CStreamBusinessManager F X) : CStreamBusinessManager F X :=
  let '(Build_CStreamBusinessManager m n i o h w) := t in Build_CStreamBusinessManager m n i o (f h) w.
Definition with_world (w' : world F X) (t : CStreamBusinessManager F X) : CStreamBusinessManager F X :=
  let '(Build_CStreamBusinessManager m n i o h _) := t in Build_CStreamBusinessManager m n i o h w'.

Definition business_at (p : Z) : mop CStreamBusiness := t ← get; lift (b_heap t !! p).

(** An operation of the business at [p]. *)
Definition at_business {A} (p : Z) (m : M (CStreamBusiness * world F X) unit A) : mop A :=
  b ← business_at p;
  t ← get;
  '(a, bw, _) ← lift (m (b, b_world t));
  _ ← modify (fun t => with_world bw.2 (with_heap (<[p := bw.1]>) t));
  mret a.

(** [delete]: the destructor stops the business. *)
Definition delete_business (now p : Z) : mop unit :=
  _ ← at_business p (business_stop now);
  modify (with_heap (delete p)).

Definition add_business_ref (p : Z) : mop unit := at_business p (on_this_business (fun b => with_refs (m_nRefCount b + 1) b)).
Definition dec_business_ref (p : Z) : mop Z := at_business p
  (_ ← on_this_business (fun b => with_refs (m_nRefCount b - 1) b); b ← this; mret (m_nRefCount b)).

(** [addr]: the address [new] answers; [capacity]: [getServiceCapacity] of the configuration. *)
Definition createBusiness (now addr capacity recvSessionId sendSessionId : Z) (enPlayType : PLAY_TYPE) : mop (option Z) :=
  _ ← modify (with_heap (<[addr := CStreamBusiness_new]>));
  r ← at_business addr (business_init recvSessionId sendSessionId enPlayType);
  if bool_decide (r <> RET_OK) then _ ← delete_business now addr; mret None
  else
    t ← get;
    if capacity <=? m_unMaxBusinessNum t then
      _ ← at_business addr (business_stop now);
      _ ← delete_business now addr;
      mret None
    else
      _ ← modify (with_map (multi_insert recvSessionId addr));
      _ ← modify (with_map (multi_insert sendSessionId addr));
      _ ← modify (with_num (fun n => u32 (n + 1)));
      mret (Some addr).

Definition findBusiness (streamID : Z) : mop (option Z) :=
  t ← get;
  match multi_find streamID (m_BusinessMap t) with
  | [] => mret None
  | p :: _ => _ ← add_business_ref p; mret (Some p)
  end.

Fixpoint each (f : Z -> mop unit) (l : list Z) : mop unit :=
  match l with [] => mret tt | p :: l => _ ← f p; each f l end.

Definition findBusinessList (streamID : Z) : mop (list Z) :=
  t ← get;
  let l := multi_find streamID (m_BusinessMap t) in
  _ ← each add_business_ref l;
  mret l.

(** Each business once, at its first entry. *)
Fixpoint unique (seen l : list Z) : list Z :=
  match l with
  | [] => []
  | p :: l => if bool_decide (p ∈ seen) then unique seen l else p :: unique (p :: seen) l
  end.

Definition getAllBusiness : mop (list Z) :=
  t ← get;
  let l := unique [] (m_BusinessMap t).*2 in
  _ ← each add_business_ref l;
  mret l.

Definition getAttachedBusinessCount (streamID : Z) : mop Z := t ← get; mret (zlen (multi_find streamID (m_BusinessMap t))).
Definition getBusinessCount : mop Z := t ← get; mret (u32 (zlen (m_BusinessMap t))).

Definition destroyBusiness (now p : Z) : mop unit :=
  recvStream ← at_business p getRecvStreamID;
  sendStream ← at_business p getSendStreamID;
  _ ← modify (with_map (multi_erase recvStream p));
  _ ← modify (with_map (multi_erase sendStream p));
  delete_business now p.

Definition releaseBusiness (now p : Z) : mop unit :=
  nRefCnt ← dec_business_ref p;
  if nRefCnt <=? 0 then
    _ ← destroyBusiness now p;
    modify (with_num (fun n => u32 (n - 1)))
  else mret tt.

Definition releaseBusinessList (now : Z) (l : list Z) : mop unit := each (releaseBusiness now) l.

(** [rate]: what [getInputRate] of a processor gives. *)
Definition input_rate (rate : Z -> Z) (b : CStreamBusiness) : Z :=
  match m_pRecvProcessor b with Some q => u32 (rate q) | None => 0 end.

Fixpoint sum_rates (rate : Z -> Z) (h : gmap Z CStreamBusiness) (l : list (Z * Z)) (i o : Z) : option (Z * Z) :=
  match l with
  | [] => Some (i, o)
  | (_, p) :: l => b ← h !! p; sum_rates rate h l (u32 (i + input_rate rate b)) (u32 (o + m_OutputRate b))
  end.

Definition statFlux (rate : Z -> Z) : mop unit :=
  t ← get;
  '(i, o) ← lift (sum_rates rate (b_heap t) (m_BusinessMap t) 0 0);
  modify (with_rates (i / KILO) (o / KILO)).
End Manager.

(** ** What the heaps hold *)

Section Hsum.
Context {B A : Type}.
Implicit Types (g : Z -> B -> list A) (h : gmap Z B).

(** All that the entries of a map hold. *)
Definition hsum g h : list A := mjoin ((fun e => g e.1 e.2) <$> map_to_list h).

Lemma hsum_empty g : hsum g ∅ = [].
Proof. unfold hsum. by rewrite map_to_list_empty. Qed.

Lemma hsum_delete g h p b : h !! p = Some b -> hsum g h ≡ₚ g p b ++ hsum g (delete p h).
Proof. intros H. unfold hsum. rewrite <-(map_to_list_delete h p b H). done. Qed.

Lemma hsum_insert g h p b : h !! p = None -> hsum g (<[p := b]> h) ≡ₚ g p b ++ hsum g h.
Proof. intros H. unfold hsum. rewrite (map_to_list_insert h p b H). done. Qed.

Lemma hsum_elem g h x : x ∈ hsum g h <-> exists p b, h !! p = Some b /\ x ∈ g p b.
Proof.
  unfold hsum. rewrite list_elem_of_join. split.
  - intros (l & Hl & ([p b] & -> & Hp)%list_elem_of_fmap). apply elem_of_map_to_list in Hp. by exists p, b.
  - intros (p & b & Hp & Hx). exists (g p b). split; [done|]. apply list_elem_of_fmap. exists (p, b).
    split; [done|]. by apply elem_of_map_to_list.
Qed.

Lemma hsum_ext g g' h : (forall p b, h !! p = Some b -> g p b = g' p b) -> hsum g h = hsum g' h.
Proof.
  intros H. unfold hsum. f_equal. apply list_fmap_ext. intros i [p b] Hi. apply H, elem_of_map_to_list.
  by eapply list_elem_of_lookup_2.
Qed.

Lemma hsum_length g h n : (forall p b, length (g p b) = n) -> length (hsum g h) = (n * size h)%nat.
Proof.
  intros H. unfold hsum. rewrite <-length_map_to_list. induction (map_to_list h) as [|[p b] l IH]; [cbn; lia|].
  rewrite fmap_cons. transitivity (length (g p b) + length (mjoin ((fun e => g e.1 e.2) <$> l)))%nat; [apply length_app|].
  rewrite H, IH. cbn [length]. lia.
Qed.
End Hsum.

Section BusinessLaws.
Context {F X : Type} `{!SessionTable F, !MediaExchangeOps X, !SessionTableLaws F, !MediaExchangeLaws X}.
Implicit Types (b : CStreamBusiness) (w : world F X) (R O extra : list Z).

(** The sessions and the processor of a business; those of the processors. *)
Definition its_sessions b : list Z := option_list (m_pRecvSession b) ++ option_list (m_pSendSession b).
Definition its_processor b : list Z := option_list (m_pRecvProcessor b).
Definition proc_sessions w : list Z := hsum (fun _ => option_list) (w_procs w).

(** [R]: the references of all others; [O]: the processors the businesses have that are in
    the exchange; [extra]: those that are not there. *)
Record world_ok R O extra w : Prop := {
  wo_tab : tab_holds (R ++ proc_sessions w) (w_sessions w);
  wo_nodup : NoDup (extra ++ ex_users (w_exchange w));
  wo_procs : forall q, q ∈ extra ++ ex_users (w_exchange w) <-> is_Some (w_procs w !! q);
  wo_inited : forall q, q ∈ ex_users (w_exchange w) -> exists s, w_procs w !! q = Some (Some s);
  wo_own : O ++ ex_doomed (w_exchange w) ⊆+ ex_users (w_exchange w) }.

#[global] Instance tab_holds_perm : Proper ((≡ₚ) ==> eq ==> iff) (tab_holds (F := F)).
Proof. intros l k H ? f ->. by split; apply holds_perm. Qed.

#[global] Instance world_ok_perm : Proper ((≡ₚ) ==> (≡ₚ) ==> eq ==> eq ==> iff) world_ok.
Proof.
  assert (forall R R' O O' extra w, R ≡ₚ R' -> O ≡ₚ O' -> world_ok R O extra w -> world_ok R' O' extra w) as H.
  { intros R R' O O' extra w HR HO [H1 H2 H3 H4 H5]. split; [|done..|by rewrite <-HO].
    eapply holds_perm; [|exact H1]. by rewrite HR. }
  intros R R' HR O O' HO ? extra -> ? w ->. split; by apply H.
Qed.

(** The sessions keep their numbers. *)
Definition ids_kept (l : list Z) w w' : Prop := forall p, p ∈ l -> tab_id p (w_sessions w') = tab_id p (w_sessions w).

Lemma ids_refl l w : ids_kept l w w.
Proof. done. Qed.
Lemma ids_trans l l' w w' w'' : (forall p, p ∈ l' -> p ∈ l) -> ids_kept l w w' -> ids_kept l' w' w'' -> ids_kept l' w w''.
Proof. intros H H1 H2 p Hp. rewrite H2 by done. by apply H1, H. Qed.

Definition set_sessions f w : world F X := {| w_sessions := f; w_exchange := w_exchange w; w_procs := w_procs w |}.
Definition set_exchange x w : world F X := {| w_sessions := w_sessions w; w_exchange := x; w_procs := w_procs w |}.
Definition set_procs m w : world F X := {| w_sessions := w_sessions w; w_exchange := w_exchange w; w_procs := m |}.

Abbreviation bpost A := (A -> CStreamBusiness * world F X -> list unit -> Prop).

Lemma wp_business (P : bpost CStreamBusiness) b w : P b (b, w) [] -> wp this P (b, w).
Proof. intros H. unfold this. by do 2 wp_step. Qed.

Lemma wp_on_business f (P : bpost unit) b w : P tt (f b, w) [] -> wp (on_this_business f) P (b, w).
Proof. done. Qed.

Lemma wp_on_procs f (P : bpost unit) b w : P tt (b, set_procs (f (w_procs w)) w) [] -> wp (on_procs f) P (b, w).
Proof. done. Qed.

Lemma wp_ask {A} (f : F -> option A) a (P : bpost A) b w : f (w_sessions w) = Some a -> P a (b, w) [] -> wp (ask f) P (b, w).
Proof. intros H HP. unfold ask. do 2 wp_step. by eapply wp_lift. Qed.

Lemma wp_proc q s (P : bpost (option Z)) b w : w_procs w !! q = Some s -> P s (b, w) [] -> wp (proc q) P (b, w).
Proof. intros H HP. unfold proc. do 2 wp_step. by eapply wp_lift. Qed.

(** Only the references. *)
Definition tab_ok R w : Prop := tab_holds (R ++ proc_sessions w) (w_sessions w).

Lemma world_tab R R' O extra w f : world_ok R O extra w -> tab_ok R' (set_sessions f w) -> world_ok R' O extra (set_sessions f w).
Proof. intros [H1 H2 H3 H4 H5] Hf. by split. Qed.

Lemma wp_find id (P : bpost (option Z)) b w R : tab_ok R w ->
  (forall r f, tab_ok (option_list r ++ R) (set_sessions f w) -> (forall p, r = Some p -> tab_id p f = Some id) ->
    ids_kept R w (set_sessions f w) -> P r (b, set_sessions f w) []) ->
  wp (session_find id) P (b, w).
Proof.
  intros H1 HP. destruct (find_holds _ _ id H1) as (r & f & E & Hh & Hid & Hk).
  unfold session_find, on_sessions, wp. rewrite E. apply HP; [|done|].
  - unfold tab_ok. by rewrite <-app_assoc.
  - intros p Hp. apply Hk, elem_of_app. by left.
Qed.

Lemma wp_release now p (P : bpost unit) b w R : tab_ok (p :: R) w ->
  (forall f, tab_ok R (set_sessions f w) -> ids_kept R w (set_sessions f w) -> P tt (b, set_sessions f w) []) ->
  wp (session_release now p) P (b, w).
Proof.
  intros H1 HP. destruct (release_holds _ _ now p H1) as (f & E & Hh & Hk).
  unfold session_release, on_sessions, wp. rewrite E. apply HP; [done|].
  intros q Hq. apply Hk, elem_of_app. by left.
Qed.

Lemma wp_exchange {A} (f : X -> A * X) (P : bpost A) b w a x : f (w_exchange w) = (a, x) ->
  P a (b, set_exchange x w) [] -> wp (on_exchange f) P (b, w).
Proof. intros E HP. unfold on_exchange, wp. by rewrite E. Qed.

Lemma tab_use R w p : tab_ok R w -> p ∈ R -> is_Some (tab_id p (w_sessions w)) /\
  is_Some (tab_status p (w_sessions w)) /\ is_Some (tab_play p (w_sessions w)) /\ is_Some (tab_trans p (w_sessions w)) /\
  is_Some (tab_content p (w_sessions w)).
Proof. intros H Hp. eapply use_holds; [exact H|]. apply elem_of_app. by left. Qed.

Lemma wo_use R O extra w p : world_ok R O extra w -> p ∈ R -> is_Some (tab_id p (w_sessions w)) /\
  is_Some (tab_status p (w_sessions w)) /\ is_Some (tab_play p (w_sessions w)) /\ is_Some (tab_trans p (w_sessions w)) /\
  is_Some (tab_content p (w_sessions w)).
Proof. intros H. by apply tab_use, (wo_tab _ _ _ _ H). Qed.

Lemma sessions_none b w : m_pRecvSession b = None -> m_pSendSession b = None -> its_sessions b = [].
Proof. intros H1 H2. unfold its_sessions. by rewrite H1, H2. Qed.

Lemma wp_stream_id R p (P : bpost Z) b w : tab_ok R w -> (forall q, p = Some q -> q ∈ R) ->
  P (match p with Some q => default 0 (tab_id q (w_sessions w)) | None => 0 end) (b, w) [] -> wp (stream_id p) P (b, w).
Proof.
  intros H Hp HP. unfold stream_id. destruct p as [p|]; [|by wp_step].
  destruct (tab_use _ _ p H (Hp p eq_refl)) as ([id E] & _). rewrite E in HP. by eapply wp_ask.
Qed.

(** The state of a business in the world it shares with [R] and [O]. *)
Definition biz_ok R O b w : Prop := world_ok (its_sessions b ++ R) (its_processor b ++ O) [] w.

Lemma biz_recv R O b w p : biz_ok R O b w -> m_pRecvSession b = Some p -> p ∈ its_sessions b ++ R.
Proof. intros _ H. unfold its_sessions. rewrite H. cbn. by left. Qed.
Lemma biz_send R O b w p : biz_ok R O b w -> m_pSendSession b = Some p -> p ∈ its_sessions b ++ R.
Proof. intros _ H. unfold its_sessions. rewrite H. apply elem_of_app. left. apply elem_of_app. right. by left. Qed.

Lemma business_init_ok R O b w recvId sendId ty : its_sessions b = [] -> m_pRecvProcessor b = None -> biz_ok R O b w ->
  wp (business_init recvId sendId ty) (fun r '(b', w') _ =>
    biz_ok R O b' w' /\ ids_kept R w w' /\ m_pRecvProcessor b' = None /\ m_nRefCount b' = m_nRefCount b /\
    (r = RET_OK -> exists p q, m_pRecvSession b' = Some p /\ m_pSendSession b' = Some q /\
      tab_id p (w_sessions w') = Some recvId /\ tab_id q (w_sessions w') = Some sendId)) (b, w).
Proof.
  unfold biz_ok. intros Hs Hp H. rewrite Hs in H. unfold its_processor in H. rewrite Hp in H. cbn [option_list option_rect app] in H.
  assert (m_pSendSession b = None) as Hs0.
  { unfold its_sessions in Hs. destruct (m_pRecvSession b), (m_pSendSession b); done. }
  unfold business_init. wp_step. eapply wp_find; [apply (wo_tab _ _ _ _ H)|]. intros r f H1%(world_tab _ _ _ _ _ _ H) Hid1 Hk1. wp_step. apply wp_on_business.
  assert (forall x, its_processor (with_recv x b) = [] /\ m_pSendSession (with_recv x b) = None /\
    m_pRecvProcessor (with_recv x b) = None /\ m_nRefCount (with_recv x b) = m_nRefCount b /\ m_pRecvSession (with_recv x b) = x) as Hb.
  { intros x. unfold its_processor. destruct b. cbn in *. by rewrite Hp. }
  destruct (Hb r) as (E1 & E2 & E3 & E4 & E5). set (b1 := with_recv r b) in *. clearbody b1.
  destruct r as [p|].
  2: { wp_step. unfold its_sessions. by rewrite E1, E2, E5. }
  cbn [option_list option_rect app] in H1. wp_step. eapply wp_find; [apply (wo_tab _ _ _ _ H1)|]. intros r f2 H2%(world_tab _ _ _ _ _ _ H1) Hid2 Hk2. wp_step. apply wp_on_business.
  assert (forall x, its_processor (with_send x b1) = [] /\ m_pSendSession (with_send x b1) = x /\
    m_pRecvProcessor (with_send x b1) = None /\ m_nRefCount (with_send x b1) = m_nRefCount b /\
    m_pRecvSession (with_send x b1) = Some p) as Hb2.
  { intros x. unfold its_processor in *. destruct b1. cbn in *. by subst. }
  destruct (Hb2 r) as (F1 & F2 & F3 & F4 & F5). set (b2 := with_send r b1) in *. clearbody b2. clear Hb Hb2.
  assert (ids_kept R w (set_sessions f2 (set_sessions f w))) as Hk.
  { eapply ids_trans; [|exact Hk1|]; [done|]. intros x Hx. apply Hk2. by right. }
  destruct r as [q|].
  2: { wp_step. unfold its_sessions. rewrite F1, F2, F5. by split_and!. }
  destruct (wo_use _ _ _ _ p H2) as (_ & _ & _ & _ & [c Ec]); [right; by left|].
  wp_step. eapply wp_ask; [exact Ec|]. wp_step. apply wp_on_business. wp_step. apply wp_on_business. wp_step.
  assert (forall ty, let b3 := with_type ty (with_content c b2) in m_pRecvSession b3 = Some p /\ m_pSendSession b3 = Some q /\
    m_pRecvProcessor b3 = None /\ m_nRefCount b3 = m_nRefCount b) as Hb by (destruct b2; cbn in *; by subst).
  destruct (Hb ty) as (G1 & G2 & G3 & G4). unfold its_sessions, its_processor. rewrite G1, G2, G3. cbn [option_list option_rect app].
  split_and!; [|done..|].
  - by rewrite Permutation_swap.
  - intros _. exists p, q. split_and!; [done..| |by apply Hid2].
    rewrite Hk2 by (by left). by apply Hid1.
Qed.

Lemma destroy_ok R O b w : biz_ok R O b w -> (is_Some (m_pRecvProcessor b) -> is_Some (m_pRecvSession b)) ->
  wp destroyMediaProcessor (fun _ '(b', w') _ => biz_ok R O b' w' /\ ids_kept (its_sessions b ++ R) w w' /\
    b' = with_processor None b) (b, w).
Proof.
  intros H Hr. unfold destroyMediaProcessor, getRecvStreamID. do 2 wp_step. apply wp_business.
  eapply wp_stream_id; [apply (wo_tab _ _ _ _ H)|intros q Hq; by eapply biz_recv|]. wp_step. apply wp_business.
  assert (m_pRecvProcessor b = None -> b = with_processor None b) as Hn by (destruct b; cbn; by intros ->).
  destruct (m_pRecvSession b) as [p|] eqn:Ep.
  2: { destruct (m_pRecvProcessor b); [by destruct Hr|]. wp_step. split_and!; [done|apply ids_refl|by apply Hn]. }
  destruct (wo_use _ _ _ _ p H) as (_ & _ & _ & [tr Et] & _); [by eapply biz_recv|].
  wp_step. eapply wp_ask; [exact Et|]. destruct (m_pRecvProcessor b) as [q|] eqn:Eq.
  2: { wp_step. split_and!; [done|apply ids_refl|by apply Hn]. }
  set (id := default 0 _). clearbody id. pose proof (del_users id q tr (w_exchange w)) as Hd. destruct (ex_del id q tr (w_exchange w)) as [r x] eqn:Ex.
  destruct Hd as [Hu Hd]. wp_step. eapply wp_exchange; [exact Ex|]. apply wp_on_business. split_and!; [|by intros ? ?|done].
  assert (its_sessions (with_processor None b) = its_sessions b /\ its_processor (with_processor None b) = []) as [E1 E2] by by destruct b.
  unfold biz_ok in *. rewrite E1, E2. unfold its_processor in H. rewrite Eq in H. destruct H as [H1 H2 H3 H4 H5].
  split; cbn [set_exchange w_exchange w_sessions w_procs]; rewrite ?Hu; try done. rewrite Hd.
  cbn [option_list option_rect app] in H5. etrans; [|exact H5]. destruct (decide (r = RET_OK)); cbn [app].
  - by rewrite <-Permutation_middle.
  - by apply submseteq_cons.
Qed.

Lemma stop_ok now R O b w : biz_ok R O b w -> (is_Some (m_pRecvProcessor b) -> is_Some (m_pRecvSession b)) ->
  wp (business_stop now) (fun _ '(b', w') _ => biz_ok R O b' w' /\ its_sessions b' = [] /\ m_pRecvProcessor b' = None /\
    m_nRefCount b' = m_nRefCount b /\ ids_kept R w w') (b, w).
Proof.
  intros H Hr. unfold business_stop. wp_step. eapply wp_mono; [by apply destroy_ok|].
  intros [] [b1 w1] o (H1 & Hk1 & Eb). wp_step. apply wp_business. wp_step.
  assert (m_pRecvSession b1 = m_pRecvSession b /\ m_pSendSession b1 = m_pSendSession b /\ m_pRecvProcessor b1 = None /\
    m_nRefCount b1 = m_nRefCount b) as (E1 & E2 & E3 & E4) by (subst; by destruct b).
  clear Eb. unfold biz_ok, its_sessions, its_processor in *. rewrite E3 in H1. cbn [option_list option_rect app] in H1.
  set (Q := fun (_ : unit) '(b2, w2) (_ : list unit) => world_ok (option_list (m_pSendSession b) ++ R) O [] w2 /\ ids_kept (option_list (m_pSendSession b) ++ R) w w2 /\
    m_pRecvSession b2 = None /\ m_pSendSession b2 = m_pSendSession b /\ m_pRecvProcessor b2 = None /\ m_nRefCount b2 = m_nRefCount b).
  eapply (wp_mono _ Q).
  { rewrite E1, E2 in *. destruct (m_pRecvSession b) as [p|] eqn:Ep; cbn [option_list option_rect app] in *.
    - wp_step. eapply wp_release; [apply (wo_tab _ _ _ _ H1)|]. intros f H2%(world_tab _ _ _ _ _ _ H1) Hk2. apply wp_on_business. unfold Q. split_and!; [done|..].
      + eapply ids_trans; [|exact Hk1|exact Hk2]. intros x Hx. by right.
      + by destruct b1.
      + by destruct b1; cbn in *; subst.
      + by destruct b1; cbn in *; subst.
      + by destruct b1; cbn in *; subst.
    - wp_step. unfold Q. by split_and!. }
  intros [] [b2 w2] o2 (H2 & Hk2 & F1 & F2 & F3 & F4). wp_step. rewrite E2.
  destruct (m_pSendSession b) as [p|] eqn:Ep; cbn [option_list option_rect app] in *.
  - wp_step. eapply wp_release; [apply (wo_tab _ _ _ _ H2)|]. intros f H3%(world_tab _ _ _ _ _ _ H2) Hk3. apply wp_on_business. wp_step.
    assert (m_pRecvSession (with_send None b2) = None /\ m_pSendSession (with_send None b2) = None /\
      m_pRecvProcessor (with_send None b2) = None /\ m_nRefCount (with_send None b2) = m_nRefCount b) as (G1 & G2 & G3 & G4)
      by by destruct b2; cbn in *; subst.
    rewrite G1, G2, G3, G4. split_and!; [done..|]. eapply ids_trans; [|exact Hk2|exact Hk3]. intros x Hx. by right.
  - do 2 wp_step. rewrite F1, F2, F3, F4. by split_and!.
Qed.

(** A processor on its way into the exchange. *)
Lemma extra_new R O w q : world_ok R O [] w -> w_procs w !! q = None ->
  world_ok R O [q] (set_procs (<[q := None]> (w_procs w)) w).
Proof.
  intros [H1 H2 H3 H4 H5] Hq. assert (q ∉ ex_users (w_exchange w)) as Hn.
  { intros Hu. destruct (H4 q Hu) as [s Hs]. congruence. }
  split; cbn [app set_procs w_sessions w_exchange w_procs]; [|by constructor|..|done].
  - unfold proc_sessions. cbn [set_procs w_procs]. rewrite hsum_insert by done. exact H1.
  - intros p. cbn [app] in H3. rewrite lookup_insert_is_Some', <-H3, elem_of_cons. by split; (intros [?|?]; [left|right]).
  - intros p Hp. destruct (H4 p Hp) as [s Hs]. exists s. rewrite lookup_insert_ne; [done|]. by intros ->.
Qed.

Lemma delete_tab now R b w q s : tab_ok R w -> w_procs w !! q = Some s ->
  wp (delete_processor now q) (fun _ '(b', w') _ => b' = b /\ tab_ok R w' /\ ids_kept R w w' /\
    w_procs w' = delete q (w_procs w) /\ w_exchange w' = w_exchange w) (b, w).
Proof.
  intros H Hs. unfold delete_processor. wp_step. eapply wp_proc; [exact Hs|]. wp_step.
  assert (tab_ok R w = tab_holds (R ++ proc_sessions w) (w_sessions w)) as E by done.
  unfold tab_ok, proc_sessions in H. rewrite (hsum_delete _ _ q s Hs), Permutation_app_swap_app in H.
  destruct s as [s|]; cbn [option_list option_rect app] in H.
  - destruct (release_holds _ _ now s H) as (f & Ef & Hf & Hk). unfold session_release, on_sessions, wp at 1. rewrite Ef.
    apply wp_on_procs. split_and!; [done|exact Hf| |done..]. intros p Hp. apply Hk, elem_of_app. by left.
  - wp_step. apply wp_on_procs. by split_and!.
Qed.

Lemma delete_ok now R O b w q : world_ok R O [q] w ->
  wp (delete_processor now q) (fun _ '(b', w') _ => b' = b /\ world_ok R O [] w' /\ ids_kept R w w') (b, w).
Proof.
  intros [H1 H2 H3 H4 H5]. destruct (proj1 (H3 q)) as [s Hs]; [by left|].
  eapply wp_mono; [by eapply delete_tab|]. intros [] [b' w'] o (-> & H' & Hk & Ep & Ex). split; [done|]. split; [|done].
  apply NoDup_cons in H2 as [Hn H2]. split; rewrite ?Ep, ?Ex; cbn [app]; [exact H'|done| | |done].
  - intros p. split.
    + intros Hp. destruct (H4 p Hp) as [s' Hs']. exists (Some s'). apply lookup_delete_Some. split; [|done]. by intros ->.
    + intros [s' [Hne Hs']%lookup_delete_Some]. assert (p ∈ q :: ex_users (w_exchange w)) as Hp by (apply H3; by exists s').
      apply elem_of_cons in Hp as [->|Hp]; done.
  - intros p Hp. destruct (H4 p Hp) as [s' Hs']. exists s'. apply lookup_delete_Some. split; [|done]. by intros ->.
Qed.

(** What an operation of a business keeps. *)
Definition biz_keeps R O b w : bpost SVS_RET_CODE := fun _ '(b', w') _ =>
  biz_ok R O b' w' /\ ids_kept (its_sessions b ++ R) w w' /\ m_nRefCount b' = m_nRefCount b /\
  m_pRecvSession b' = m_pRecvSession b /\ m_pSendSession b' = m_pSendSession b.

Lemma delete_own_ok now R O b w q : world_ok (its_sessions b ++ R) O [q] w -> m_pRecvProcessor b = Some q ->
  wp (delete_own now) (fun _ '(b', w') _ => biz_ok R O b' w' /\ ids_kept (its_sessions b ++ R) w w' /\
    m_nRefCount b' = m_nRefCount b /\ m_pRecvSession b' = m_pRecvSession b /\ m_pSendSession b' = m_pSendSession b) (b, w).
Proof.
  intros H Hq. unfold delete_own. wp_step. apply wp_business. rewrite Hq. wp_step. eapply wp_mono; [by apply delete_ok|].
  intros [] [b' w'] o (-> & H' & Hk). apply wp_on_business.
  assert (its_sessions (with_processor None b) = its_sessions b /\ its_processor (with_processor None b) = []) as [E1 E2] by by destruct b.
  unfold biz_ok. rewrite E1, E2. split_and!; [done|done|by destruct b..].
Qed.

Lemma regist_tab R b w q p s : tab_ok (its_sessions b ++ R) w -> w_procs w !! q = Some None ->
  m_pRecvProcessor b = Some q -> m_pRecvSession b = Some p -> m_pSendSession b = Some s ->
  wp registMediaProcessor (fun r '(b', w') _ => b' = b /\ tab_ok (its_sessions b ++ R) w' /\ ids_kept (its_sessions b ++ R) w w' /\
    (r <> RET_OK /\ w_procs w' = w_procs w /\ w_exchange w' = w_exchange w \/
     exists sn id tr ts r', w_procs w' = <[q := Some sn]> (w_procs w) /\
       ex_add id q tr ts (w_exchange w) = (r', w_exchange w') /\ (r = RET_OK <-> r' = RET_OK))) (b, w).
Proof.
  intros H Hn Hq Hp Hs. assert (p ∈ its_sessions b ++ R) as Ip by (unfold its_sessions; rewrite Hp; by left).
  assert (s ∈ its_sessions b ++ R) as Is by (unfold its_sessions; rewrite Hp, Hs; cbn; right; by left).
  unfold registMediaProcessor, getRecvStreamID, getSendStreamID. do 2 wp_step. apply wp_business.
  eapply wp_stream_id; [exact H|rewrite Hp; by intros ? [= <-]|]. do 2 wp_step. apply wp_business.
  eapply wp_stream_id; [exact H|rewrite Hs; by intros ? [= <-]|]. wp_step. apply wp_business.
  set (recvId := match m_pRecvSession b with Some _ => _ | None => _ end). set (sendId := match m_pSendSession b with Some _ => _ | None => _ end).
  clearbody recvId sendId. rewrite Hq, Hp, Hs.
  destruct (tab_use _ _ p H Ip) as (_ & _ & _ & [tr Et] & _). destruct (tab_use _ _ s H Is) as (_ & _ & _ & [ts Es] & _).
  wp_step. eapply wp_ask; [exact Et|]. wp_step. eapply wp_ask; [exact Es|]. wp_step.
  unfold processor_init. wp_step. eapply wp_proc; [exact Hn|]. cbv beta iota. wp_step. eapply wp_find; [exact H|].
  intros r f H1 _ Hk1. destruct r as [sn|].
  2: { wp_step. rewrite bool_decide_eq_true_2 by done. wp_step. split_and!; [done..|]. by left. }
  wp_step. apply wp_on_procs. wp_step. rewrite bool_decide_eq_false_2 by (intros E; by destruct E).
  destruct (ex_add recvId q tr ts (w_exchange w)) as [r x] eqn:Ex. wp_step. eapply wp_exchange; [exact Ex|]. wp_step.
  split_and!; [done| |exact Hk1|].
  - unfold tab_ok, proc_sessions in *. cbn [set_exchange set_procs set_sessions w_procs w_sessions] in *.
    rewrite (hsum_delete _ (<[q := Some sn]> (w_procs w)) q (Some sn)) by apply lookup_insert_eq. rewrite delete_insert_eq.
    rewrite (hsum_delete _ (w_procs w) q None Hn) in H1. cbn [option_list option_rect app] in *. by rewrite <-Permutation_middle.
  - right. exists sn, recvId, tr, ts, r. split_and!; [done..|]. case_bool_decide; [by split|]. split; [|done].
    intros _. by destruct (decide (r = RET_OK)).
Qed.

Lemma regist_ok R O b w q p s : world_ok (its_sessions b ++ R) O [q] w -> w_procs w !! q = Some None ->
  m_pRecvProcessor b = Some q -> m_pRecvSession b = Some p -> m_pSendSession b = Some s ->
  wp registMediaProcessor (fun r '(b', w') _ => b' = b /\ ids_kept (its_sessions b ++ R) w w' /\
    if decide (r = RET_OK) then biz_ok R O b w' else world_ok (its_sessions b ++ R) O [q] w') (b, w).
Proof.
  intros H Hn Hq Hp Hs. eapply wp_mono; [eapply regist_tab; [apply (wo_tab _ _ _ _ H)|done..]|].
  intros r [b' w'] o (-> & Ht & Hk & Hc). split; [done|]. split; [done|]. destruct H as [H1 H2 H3 H4 H5].
  assert (q ∉ ex_users (w_exchange w)) as Hnq by by inversion_clear H2.
  destruct Hc as [(Hr & Ep & Ex)|(sn & id & tr & ts & r' & Ep & Ex & Hr)].
  - rewrite decide_False by done. by split; rewrite ?Ep, ?Ex.
  - pose proof (add_users id q tr ts (w_exchange w)) as Ha. rewrite Ex in Ha. destruct Ha as [Hu Hd].
    assert (forall x, x ∈ [q] ++ ex_users (w_exchange w) <-> is_Some (w_procs w' !! x)) as Hdom.
    { intros x. rewrite Ep, lookup_insert_is_Some', <-H3. split; [by right|]. intros [->|?]; [by left|done]. }
    assert (forall x, x ∈ ex_users (w_exchange w) -> exists y, w_procs w' !! x = Some (Some y)) as Hin.
    { intros x Hx. destruct (H4 x Hx) as [y Hy]. exists y. rewrite Ep, lookup_insert_ne; [done|]. by intros ->. }
    destruct (decide (r' = RET_OK)) as [Er|Er].
    + rewrite decide_True by by apply Hr. unfold biz_ok, its_processor. rewrite Hq. split; [exact Ht|..]; cbn [app] in *.
      * by rewrite Hu.
      * intros x. by rewrite Hu.
      * intros x. rewrite Hu, elem_of_cons. intros [->|Hx]; [|by apply Hin]. exists sn. by rewrite Ep, lookup_insert_eq.
      * rewrite Hu, Hd. by apply submseteq_skip.
    + rewrite decide_False by (rewrite Hr; done). split; [exact Ht|..]; cbn [app] in *; rewrite ?Hu; [done|..].
      * intros x. by rewrite Hu.
      * intros x. rewrite Hu. apply Hin.
      * by rewrite Hd.
Qed.

Lemma start_ok now R O b w q p s : biz_ok R O b w -> w_procs w !! q = None -> m_pRecvProcessor b = None ->
  m_pRecvSession b = Some p -> m_pSendSession b = Some s ->
  wp (business_start now q) (biz_keeps R O b w) (b, w).
Proof.
  intros H Hf Hq Hp Hs. assert (p ∈ its_sessions b ++ R) as Ip by by eapply biz_recv.
  assert (s ∈ its_sessions b ++ R) as Is by by eapply biz_send.
  destruct (wo_use _ _ _ _ p H Ip) as (_ & [st Est] & _). destruct (wo_use _ _ _ _ s H Is) as (_ & [st' Est'] & [pl Epl] & _).
  unfold business_start. wp_step. apply wp_business. rewrite Hp, Hs. wp_step. eapply wp_ask; [exact Est|].
  wp_step. eapply wp_ask; [exact Est'|]. destruct (_ && _); [|wp_step; by split_and!].
  wp_step. unfold createMediaProcessor. wp_step. apply wp_business. rewrite Hs. wp_step. eapply wp_ask; [exact Epl|].
  wp_step. unfold delete_own at 1. wp_step. apply wp_business. rewrite Hq. wp_step.
  assert (wp (_ ← createDirectProcessor q; r ← registMediaProcessor;
    if bool_decide (r <> RET_OK) then _ ← delete_own now; mret RET_FAIL else mret RET_OK) (biz_keeps R O b w) (b, w)) as Hc.
  { unfold createDirectProcessor. do 2 wp_step. apply wp_business. rewrite Hs, Hp. wp_step. apply wp_on_procs. apply wp_on_business.
    set (b1 := with_processor (Some q) b). set (w1 := set_procs _ w).
    assert (its_sessions b1 = its_sessions b /\ m_pRecvProcessor b1 = Some q /\ m_pRecvSession b1 = Some p /\
      m_pSendSession b1 = Some s /\ m_nRefCount b1 = m_nRefCount b) as (E1 & E2 & E3 & E4 & E5) by by destruct b.
    assert (world_ok (its_sessions b1 ++ R) O [q] w1) as H1.
    { rewrite E1. unfold biz_ok, its_processor in H. rewrite Hq in H. by apply extra_new. }
    wp_step. eapply wp_mono; [eapply regist_ok; [exact H1|apply lookup_insert_eq|done..]|].
    intros r [b2 w2] o (-> & Hk & Hr). rewrite E1 in Hk. destruct (decide (r = RET_OK)) as [->|Hne].
    - rewrite bool_decide_eq_false_2 by (intros E; by destruct E). wp_step. rewrite <-Hp, <-Hs in *. by split_and!.
    - rewrite bool_decide_eq_true_2 by done. wp_step. eapply wp_mono; [by eapply delete_own_ok|].
      intros [] [b3 w3] o' (H3 & Hk3 & F1 & F2 & F3). wp_step. rewrite E1 in Hk3. split_and!; [done|..|congruence|congruence|congruence].
      by eapply ids_trans; [|exact Hk|]. }
  assert (biz_keeps R O b w RET_FAIL (b, w) []) as Hno by by split_and!.
  destruct pl; try (wp_step; wp_step; exact Hno); (eapply wp_mono; [exact Hc|]; intros r [b' w'] o Hb; wp_step; exact Hb).
Qed.

(** ** What the manager holds *)

Implicit Types (h : gmap Z CStreamBusiness) (m : list (Z * Z)) (held : list Z).

Definition session_id (f : F) (p : option Z) : Z := match p with Some p => default 0 (tab_id p f) | None => 0 end.

(** The entries of a business in the table. *)
Definition entries (f : F) (p : Z) b : list (Z * Z) := [(session_id f (m_pRecvSession b), p); (session_id f (m_pSendSession b), p)].

Definition biz_sessions h : list Z := hsum (fun _ => its_sessions) h.
Definition biz_processors h : list Z := hsum (fun _ => its_processor) h.

(** [held]: the references the users of the manager have. *)
Record mgr_ok R O held m h w : Prop := {
  mk_world : world_ok (biz_sessions h ++ R) (biz_processors h ++ O) [] w;
  mk_biz : forall p b, h !! p = Some b -> m_nRefCount b = count p held /\ 0 < m_nRefCount b /\
    is_Some (m_pRecvSession b) /\ is_Some (m_pSendSession b);
  mk_held : forall p, p ∈ held -> is_Some (h !! p);
  mk_map : m ≡ₚ hsum (entries (w_sessions w)) h }.

#[global] Instance mgr_ok_perm : Proper ((≡ₚ) ==> (≡ₚ) ==> (≡ₚ) ==> (≡ₚ) ==> eq ==> eq ==> iff) mgr_ok.
Proof.
  assert (forall R R' O O' l k m m' h w, R ≡ₚ R' -> O ≡ₚ O' -> l ≡ₚ k -> m ≡ₚ m' -> mgr_ok R O l m h w -> mgr_ok R' O' k m' h w) as H.
  { intros R R' O O' l k m m' h w HR HO Hlk Hm [H1 H2 H3 H4]. split.
    - by rewrite <-HR, <-HO.
    - intros p b Hb. rewrite <-Hlk. by apply H2.
    - intros p. rewrite <-Hlk. apply H3.
    - by rewrite <-Hm. }
  intros R R' HR O O' HO l k Hlk m m' Hm ? h -> ? w ->. by split; apply H.
Qed.

Definition not_of (p : Z) held : list Z := filter (fun q => q <> p) held.

Lemma count_not_of p q held : count q (not_of p held) = if decide (q = p) then 0 else count q held.
Proof.
  unfold not_of. induction held as [|r l IH]; [rewrite count_nil; by case_decide|]. rewrite filter_cons, count_cons.
  destruct (decide (r <> p)) as [Hr|Hr]; rewrite ?count_cons, IH; destruct (decide (q = p)) as [Hq|Hq];
    try (destruct (bool_decide_reflect (r = q)); subst); try lia; exfalso; tauto.
Qed.

Lemma not_of_elem p q held : q ∈ not_of p held <-> q <> p /\ q ∈ held.
Proof. unfold not_of. by rewrite list_elem_of_filter. Qed.

(** A business is taken out. *)
Lemma mgr_take R O held m h w p b : mgr_ok R O held m h w -> h !! p = Some b ->
  biz_ok (biz_sessions (delete p h) ++ R) (biz_processors (delete p h) ++ O) b w /\
  exists m', m ≡ₚ entries (w_sessions w) p b ++ m' /\
    mgr_ok (its_sessions b ++ R) (its_processor b ++ O) (not_of p held) m' (delete p h) w.
Proof.
  intros [H1 H2 H3 H4] Hb. pose proof (hsum_delete (fun _ => its_sessions) h p b Hb) as HS.
  pose proof (hsum_delete (fun _ => its_processor) h p b Hb) as HP. fold (biz_sessions h) in HS. fold (biz_processors h) in HP.
  fold (biz_sessions (delete p h)) in HS. fold (biz_processors (delete p h)) in HP. cbv beta in HS, HP.
  rewrite HS, HP, <-!app_assoc in H1. split; [exact H1|].
  exists (hsum (entries (w_sessions w)) (delete p h)). split; [by rewrite H4, (hsum_delete _ h p b Hb)|]. split.
  - rewrite (Permutation_app_swap_app _ (its_sessions b)), (Permutation_app_swap_app _ (its_processor b)). exact H1.
  - intros q c [Hne Hc]%lookup_delete_Some. rewrite count_not_of, decide_False by done. by apply H2.
  - intros q [Hne Hq]%not_of_elem. destruct (H3 q Hq) as [c Hc]. exists c. by apply lookup_delete_Some.
  - done.
Qed.

(** A business is put in. *)
Lemma mgr_put R O held held' m h w p b : mgr_ok (its_sessions b ++ R) (its_processor b ++ O) held m h w -> h !! p = None ->
  m_nRefCount b = count p held' -> 0 < m_nRefCount b -> is_Some (m_pRecvSession b) -> is_Some (m_pSendSession b) ->
  (forall q, q <> p -> count q held' = count q held) ->
  mgr_ok R O held' (entries (w_sessions w) p b ++ m) (<[p := b]> h) w.
Proof.
  intros [H1 H2 H3 H4] Hp Hc Hpos Hr Hs Hoth. split.
  - unfold biz_sessions, biz_processors. rewrite !hsum_insert by done.
    rewrite (Permutation_app_swap_app _ (its_sessions b)), (Permutation_app_swap_app _ (its_processor b)) in H1.
    by rewrite <-!app_assoc.
  - intros q c Hq. destruct (decide (q = p)) as [->|Hne].
    + rewrite lookup_insert_eq in Hq. by injection Hq as <-.
    + rewrite lookup_insert_ne in Hq by done. rewrite Hoth by done. by apply H2.
  - intros q Hq. apply lookup_insert_is_Some'. destruct (decide (q = p)) as [->|Hne]; [by left|right].
    apply H3, count_elem. rewrite <-Hoth by done. by apply count_elem.
  - by rewrite hsum_insert, H4.
Qed.

(** The world changes under the businesses. *)
Lemma mgr_world R R' O O' held m h w w' : mgr_ok R O held m h w ->
  world_ok (biz_sessions h ++ R') (biz_processors h ++ O') [] w' -> ids_kept (biz_sessions h) w w' ->
  mgr_ok R' O' held m h w'.
Proof.
  intros [H1 H2 H3 H4] Hw Hk. split; [done..|]. rewrite H4.
  rewrite (hsum_ext (entries (w_sessions w)) (entries (w_sessions w')) h); [done|]. intros p b Hb. unfold entries.
  assert (forall s, s ∈ its_sessions b -> tab_id s (w_sessions w) = tab_id s (w_sessions w')) as Hid.
  { intros s Hs. symmetry. apply Hk. unfold biz_sessions. apply hsum_elem. eauto. }
  unfold its_sessions in Hid. f_equal; [|f_equal]; f_equal.
  - destruct (m_pRecvSession b) as [s|]; [|done]. cbn. by rewrite Hid by (by left).
  - destruct (m_pSendSession b) as [s|]; [|done]. cbn. rewrite Hid; [done|]. apply elem_of_app. right. by left.
Qed.

Lemma mgr_counts R O l k m h w : (forall q, count q k = count q l) -> mgr_ok R O l m h w -> mgr_ok R O k m h w.
Proof.
  intros H [H1 H2 H3 H4]. split; [done|..|done].
  - intros p b Hb. rewrite H. by apply H2.
  - intros p Hp. apply H3, count_elem. rewrite <-H. by apply count_elem.
Qed.

Lemma multi_insert_perm k p m : multi_insert k p m ≡ₚ (k, p) :: m.
Proof. induction m as [|[k' p'] m IH]; [done|]. cbn. destruct (k <? k'); [done|]. rewrite IH. apply Permutation_swap. Qed.

Lemma multi_erase_perm k p m m' : m ≡ₚ (k, p) :: m' -> multi_erase k p m ≡ₚ m'.
Proof.
  intros H. apply (Permutation_cons_inv (a := (k, p))). rewrite <-H. assert ((k, p) ∈ m) as Hin by (rewrite H; by left).
  clear H m'. induction m as [|[k' p'] m IH]; [by apply not_elem_of_nil in Hin|]. cbn.
  destruct (Z.eqb_spec k' k) as [->|Hk]; [destruct (Z.eqb_spec p' p) as [->|Hp]; [done|]|];
    (apply elem_of_cons in Hin as [[=]|Hin]; [congruence|]); cbn [andb]; rewrite Permutation_swap; constructor; by apply IH.
Qed.

Lemma map_heap R O held m h w e : mgr_ok R O held m h w -> e ∈ m -> is_Some (h !! e.2).
Proof.
  intros [_ _ _ H4]. rewrite H4. intros (p & b & Hb & He)%hsum_elem. unfold entries in He.
  rewrite !elem_of_cons in He. destruct He as [->|[->|He]]; [by eexists|by eexists|by apply not_elem_of_nil in He].
Qed.

(** ** Operations of the manager *)

Implicit Types (t : CStreamBusinessManager F X).

Record mok R held t : Prop := {
  mo_mgr : mgr_ok R [] held (m_BusinessMap t) (b_heap t) (b_world t);
  mo_num : m_unMaxBusinessNum t = Z.of_nat (size (b_heap t));
  mo_max : Z.of_nat (size (b_heap t)) < 2 ^ 32 }.

Abbreviation mpost A := (A -> CStreamBusinessManager F X -> list unit -> Prop).

Lemma wp_at_business {A} p (op : M (CStreamBusiness * world F X) unit A) (Q : bpost A) (P : mpost A) t b :
  b_heap t !! p = Some b -> wp op Q (b, b_world t) ->
  (forall a b' w' o, Q a (b', w') o -> P a (with_world w' (with_heap (<[p := b']>) t)) []) -> wp (at_business p op) P t.
Proof.
  intros Hb Hm HP. unfold at_business, business_at. do 3 wp_step. eapply wp_lift; [exact Hb|]. do 2 wp_step.
  destruct (wp_elim _ _ _ Hm) as (a & [b' w'] & o & E & HQ). wp_step. eapply wp_lift; [exact E|]. cbv beta iota. do 3 wp_step. by apply (HP a b' w' o).
Qed.

(** An operation of the business at [p] that leaves it its sessions. *)
Lemma at_keeps {A} p (op : M (CStreamBusiness * world F X) unit A) R held held' t b (Φ : A -> Prop) :
  mok R held t -> b_heap t !! p = Some b ->
  (forall R1 O1, biz_ok R1 O1 b (b_world t) -> wp op (fun a '(b', w') _ => biz_ok R1 O1 b' w' /\
    ids_kept (its_sessions b ++ R1) (b_world t) w' /\ m_nRefCount b' = count p held' /\
    m_pRecvSession b' = m_pRecvSession b /\ m_pSendSession b' = m_pSendSession b /\ Φ a) (b, b_world t)) ->
  0 < count p held' -> (forall q, q <> p -> count q held' = count q held) ->
  wp (at_business p op) (fun a t' _ => mok R held' t' /\ m_BusinessMap t' = m_BusinessMap t /\
    (forall q, is_Some (b_heap t !! q) -> is_Some (b_heap t' !! q)) /\ Φ a) t.
Proof.
  intros [H1 H2 H3] Hb Hop Hpos Hoth. destruct (mgr_take _ _ _ _ _ _ _ _ H1 Hb) as [Hbiz (m' & Hm & Hrest)].
  destruct (mk_biz _ _ _ _ _ _ H1 p b Hb) as (_ & _ & Hr & Hs).
  eapply wp_at_business; [exact Hb|exact (Hop _ _ Hbiz)|]. intros a b' w' o (Hbiz' & Hk & Hc & E1 & E2 & Ha).
  destruct t as [m n i r h w]. cbn [with_world with_heap m_BusinessMap m_unMaxBusinessNum b_heap b_world] in *.
  split; [|split; [done|split; [|done]]].
  2: { intros q Hq. apply lookup_insert_is_Some'. by right. }
  assert (size (<[p := b']> h) = size h) as Esz by (apply map_size_insert_Some; by eexists).
  split; cbn [m_BusinessMap m_unMaxBusinessNum b_heap b_world]; rewrite ?Esz; [|done|done].
  rewrite <-insert_delete_eq. assert (its_sessions b' = its_sessions b) as Es by (unfold its_sessions; by rewrite E1, E2).
  assert (entries (w_sessions w') p b' = entries (w_sessions w) p b) as Ee.
  { unfold entries, session_id. rewrite E1, E2. f_equal; [|f_equal]; f_equal.
    - destruct (m_pRecvSession b) as [s|] eqn:Es1; [|done]. rewrite Hk; [done|]. apply elem_of_app. left. unfold its_sessions. rewrite Es1. by left.
    - destruct (m_pSendSession b) as [s|] eqn:Es1; [|done]. rewrite Hk; [done|]. apply elem_of_app. left. unfold its_sessions.
      rewrite Es1. apply elem_of_app. right. by left. }
  rewrite Hm, <-Ee. eapply mgr_put.
  - eapply mgr_world; [exact Hrest| |].
    + rewrite Es. unfold biz_ok in Hbiz'. rewrite Es in Hbiz'.
      rewrite (Permutation_app_swap_app _ (its_sessions b)), (Permutation_app_swap_app _ (its_processor b')). exact Hbiz'.
    + intros s Hs'. apply Hk, elem_of_app. right. apply elem_of_app. by left.
  - apply lookup_delete_eq.
  - done.
  - lia.
  - by rewrite E1.
  - by rewrite E2.
  - intros q Hq. rewrite Hoth by done. rewrite count_not_of, decide_False by done. done.
Qed.

Lemma add_ref_ok R held t p : mok R held t -> is_Some (b_heap t !! p) ->
  wp (add_business_ref p) (fun _ t' _ => mok R (p :: held) t' /\ m_BusinessMap t' = m_BusinessMap t /\
    (forall q, is_Some (b_heap t !! q) -> is_Some (b_heap t' !! q))) t.
Proof.
  intros H [b Hb]. destruct (mk_biz _ _ _ _ _ _ (mo_mgr _ _ _ H) p b Hb) as (Hc & Hpos & _).
  eapply wp_mono; [eapply (at_keeps p _ R held (p :: held) t b (fun _ => True)); [exact H|exact Hb| | |]|].
  - intros R1 O1 Hbiz. apply wp_on_business. rewrite count_cons, bool_decide_eq_true_2 by done.
    assert (its_sessions (with_refs (m_nRefCount b + 1) b) = its_sessions b /\ its_processor (with_refs (m_nRefCount b + 1) b) = its_processor b)
      as [E1 E2] by by destruct b.
    unfold biz_ok. rewrite E1, E2. split_and!; [done|apply ids_refl|rewrite <-Hc; destruct b; cbn; lia|by destruct b..].
  - rewrite count_cons, bool_decide_eq_true_2 by done. lia.
  - intros q Hq. rewrite count_cons, bool_decide_eq_false_2 by congruence. lia.
  - intros [] t' o (? & ? & ? & _). done.
Qed.

Lemma each_add_ok R l : forall held t, mok R held t -> (forall p, p ∈ l -> is_Some (b_heap t !! p)) ->
  wp (each add_business_ref l) (fun _ t' _ => mok R (l ++ held) t') t.
Proof.
  induction l as [|p l IH]; intros held t H Hl; cbn [each]; [by wp_step|]. wp_step.
  eapply wp_mono; [apply add_ref_ok; [exact H|apply Hl; by left]|]. intros [] t' o (H' & _ & Hh).
  eapply wp_mono; [apply (IH _ t' H')|].
  - intros q Hq. apply Hh, Hl. by right.
  - intros [] t'' o' H''. cbn [app]. destruct H'' as [G1 G2 G3]. split; [|done|done]. by rewrite Permutation_middle.
Qed.

Lemma multi_find_in k m p : p ∈ multi_find k m -> exists e, e ∈ m /\ e.2 = p.
Proof. unfold multi_find. intros (e & -> & He)%list_elem_of_fmap. rewrite list_elem_of_filter in He. exists e. tauto. Qed.

Lemma find_business_ok R held t id : mok R held t -> wp (findBusiness id) (fun r t' _ => mok R (option_list r ++ held) t') t.
Proof.
  intros H. unfold findBusiness. do 2 wp_step. destruct (multi_find id (m_BusinessMap t)) as [|p l] eqn:E; [by wp_step|].
  assert (is_Some (b_heap t !! p)) as Hp.
  { destruct (multi_find_in id (m_BusinessMap t) p) as (e & He & <-); [rewrite E; by left|]. by eapply map_heap; [apply (mo_mgr _ _ _ H)|]. }
  wp_step. eapply wp_mono; [by apply add_ref_ok|]. intros [] t' o (H' & _). by wp_step.
Qed.

Lemma find_list_ok R held t id : mok R held t -> wp (findBusinessList id) (fun r t' _ => mok R (r ++ held) t') t.
Proof.
  intros H. unfold findBusinessList. do 3 wp_step. eapply wp_mono; [apply each_add_ok; [exact H|]|].
  - intros p (e & He & <-)%multi_find_in. by eapply map_heap; [apply (mo_mgr _ _ _ H)|].
  - intros [] t' o H'. by wp_step.
Qed.

Lemma unique_in seen l p : p ∈ unique seen l -> p ∈ l.
Proof.
  revert seen. induction l as [|x l IH]; intros seen Hp; [done|]. cbn in Hp. case_bool_decide.
  - right. by eapply IH.
  - apply elem_of_cons in Hp as [->|Hp]; [by left|right; by eapply IH].
Qed.

Lemma all_business_ok R held t : mok R held t -> wp getAllBusiness (fun r t' _ => mok R (r ++ held) t') t.
Proof.
  intros H. unfold getAllBusiness. do 3 wp_step. eapply wp_mono; [apply each_add_ok; [exact H|]|].
  - intros p (e & -> & He)%unique_in%list_elem_of_fmap. by eapply map_heap; [apply (mo_mgr _ _ _ H)|].
  - intros [] t' o H'. by wp_step.
Qed.

Lemma start_business_ok now R held t p b q : mok R held t -> b_heap t !! p = Some b -> m_pRecvProcessor b = None ->
  w_procs (b_world t) !! q = None -> wp (at_business p (business_start now q)) (fun _ t' _ => mok R held t') t.
Proof.
  intros H Hb Hn Hq. destruct (mk_biz _ _ _ _ _ _ (mo_mgr _ _ _ H) p b Hb) as (Hc & Hpos & [r Hr] & [s Hs]).
  eapply wp_mono; [eapply (at_keeps p _ R held held t b (fun _ => True)); [exact H|exact Hb| |lia|done]|].
  - intros R1 O1 Hbiz. eapply wp_mono; [by eapply start_ok|]. intros a [b' w'] o (? & ? & ? & ? & ?). split_and!; congruence || done.
  - intros a t' o (? & _). done.
Qed.

(** What [statFluxInfo] and the like change. *)
Definition same_links b b' : Prop := m_nRefCount b' = m_nRefCount b /\ m_pRecvSession b' = m_pRecvSession b /\
  m_pSendSession b' = m_pSendSession b /\ m_pRecvProcessor b' = m_pRecvProcessor b.

Lemma flux_ok flux start stop b w r b' w' o : statFluxInfo flux start stop (b, w) = Some (r, (b', w'), o) ->
  w' = w /\ same_links b b'.
Proof.
  unfold statFluxInfo, this, proc. rewrite bind_assoc, get_bind, ret_bind. cbn [fst]. destruct (m_pRecvProcessor b) as [q|]; [|by intros [= _ <- <- _]].
  rewrite bind_assoc, get_bind. cbn [snd]. intros (a & s & o1 & o2 & E1 & E2 & _)%bind_inv.
  unfold lift in E1. destruct (w_procs w !! q); [|done]. injection E1 as _ <- _.
  destruct (start <? stop); [destruct (u32 (KILO * u32 (stop - start)) =? 0); [done|]|];
    injection E2 as _ <- <- _; (split; [done|]); by destruct b.
Qed.

Lemma flux_business_ok R held t p flux start stop r t' o : mok R held t -> p ∈ held ->
  at_business p (statFluxInfo flux start stop) t = Some (r, t', o) -> mok R held t'.
Proof.
  intros H Hp E. destruct (mk_held _ _ _ _ _ _ (mo_mgr _ _ _ H) p Hp) as [b Hb].
  destruct (mk_biz _ _ _ _ _ _ (mo_mgr _ _ _ H) p b Hb) as (Hc & Hpos & _).
  unfold at_business, business_at in E. rewrite bind_assoc, get_bind in E. rewrite Hb in E.
  destruct (statFluxInfo flux start stop (b, b_world t)) as [[[x [b' w']] o']|] eqn:Ef.
  2: { cbv [mbind M_bind lift option_bind get] in E. by rewrite Ef in E. }
  destruct (flux_ok _ _ _ _ _ _ _ _ _ Ef) as [-> (E1 & E2 & E3 & E4)].
  assert (wp (at_business p (statFluxInfo flux start stop)) (fun _ t' _ => mok R held t') t) as Hw.
  { eapply wp_mono; [eapply (at_keeps p _ R held held t b (fun _ => True)); [exact H|exact Hb| |lia|done]|by intros ??? (? & _)].
    intros R1 O1 Hbiz. eapply wp_intro; [exact Ef|]. unfold biz_ok, its_sessions, its_processor in *. rewrite E2, E3, E4.
    split_and!; [done|apply ids_refl|congruence|done..]. }
  unfold wp in Hw. unfold at_business, business_at in Hw. rewrite bind_assoc, get_bind, Hb in Hw. by rewrite E in Hw.
Qed.

(** The business at [p] is being created or destroyed. *)
Record opened R held m h p b t : Prop := {
  op_at : b_heap t !! p = Some b;
  op_rest : delete p (b_heap t) = h;
  op_mgr : mgr_ok (its_sessions b ++ R) (its_processor b) held m h (b_world t) }.

Definition same_table t t' : Prop := m_BusinessMap t' = m_BusinessMap t /\ m_unMaxBusinessNum t' = m_unMaxBusinessNum t.

Lemma opened_biz R held m h p b t : opened R held m h p b t -> biz_ok (biz_sessions h ++ R) (biz_processors h) b (b_world t).
Proof.
  intros [_ _ [H _ _ _]]. unfold biz_ok.
  rewrite (Permutation_app_swap_app (its_sessions b)), (Permutation_app_comm (its_processor b)). exact H.
Qed.

(** What a business does to the world. *)
Lemma opened_at {A} R held m h p b t (op : M (CStreamBusiness * world F X) unit A) (Φ : A -> CStreamBusiness -> world F X -> Prop) :
  opened R held m h p b t ->
  wp op (fun a '(b', w') _ => biz_ok (biz_sessions h ++ R) (biz_processors h) b' w' /\
    ids_kept (biz_sessions h ++ R) (b_world t) w' /\ Φ a b' w') (b, b_world t) ->
  wp (at_business p op) (fun a t' _ => exists b', opened R held m h p b' t' /\ same_table t t' /\ Φ a b' (b_world t')) t.
Proof.
  intros [Hb Hd Hm] Hop. eapply wp_at_business; [exact Hb|exact Hop|]. intros a b' w' o (H' & Hk & HΦ). exists b'.
  destruct t as [m0 n i r h0 w]. cbn [with_world with_heap b_heap b_world m_BusinessMap m_unMaxBusinessNum] in *.
  split; [|by split]. split; cbn [with_world with_heap b_heap b_world].
  - apply lookup_insert_eq.
  - by rewrite delete_insert_eq.
  - eapply mgr_world; [exact Hm| |].
    + unfold biz_ok in H'. rewrite (Permutation_app_swap_app _ (its_sessions b')), (Permutation_app_comm _ (its_processor b')). exact H'.
    + intros s Hs. apply Hk, elem_of_app. by left.
Qed.

Lemma opened_stop now R held m h p b t : opened R held m h p b t -> (is_Some (m_pRecvProcessor b) -> is_Some (m_pRecvSession b)) ->
  wp (at_business p (business_stop now)) (fun _ t' _ => exists b', opened R held m h p b' t' /\ same_table t t' /\
    its_sessions b' = [] /\ m_pRecvProcessor b' = None) t.
Proof.
  intros H Hr. eapply (opened_at _ _ _ _ _ _ _ _ (fun _ b' _ => its_sessions b' = [] /\ m_pRecvProcessor b' = None)); [exact H|].
  eapply wp_mono; [apply stop_ok; [by eapply opened_biz|done]|]. by intros r [b' w'] o (? & ? & ? & ? & ?).
Qed.

Lemma opened_gone now R held m h p b t : opened R held m h p b t -> (is_Some (m_pRecvProcessor b) -> is_Some (m_pRecvSession b)) ->
  wp (delete_business now p) (fun _ t' _ => b_heap t' = h /\ same_table t t' /\ mgr_ok R [] held m h (b_world t')) t.
Proof.
  intros H Hr. unfold delete_business. wp_step. eapply wp_mono; [by eapply opened_stop|].
  intros r t' o (b' & [_ Hd Hm] & [E1 E2] & Es & Ep). wp_step. unfold its_processor in Hm. rewrite Es, Ep in Hm.
  destruct t'. cbn in *. by split_and!.
Qed.

Lemma create_business_ok now R held t addr capacity recvId sendId ty : mok R held t -> b_heap t !! addr = None ->
  capacity < 2 ^ 32 ->
  wp (createBusiness now addr capacity recvId sendId ty) (fun r t' _ => mok R (option_list r ++ held) t') t.
Proof.
  intros [H1 H2 H3] Ha Hcap. unfold createBusiness. do 2 wp_step.
  set (t0 := with_heap (<[addr := CStreamBusiness_new]>) t). set (m := m_BusinessMap t) in *. set (h := b_heap t) in *.
  assert (opened R held m h addr CStreamBusiness_new t0 /\ same_table t t0) as [Ho0 Et0].
  { unfold t0, m, h in *. destruct t. cbn in *. split; [|done]. split; cbn.
    - apply lookup_insert_eq.
    - rewrite delete_insert_eq. by rewrite delete_id.
    - exact H1. }
  wp_step. eapply wp_mono.
  { eapply (opened_at _ _ _ _ _ _ _ _ (fun r b' w' => m_pRecvProcessor b' = None /\ m_nRefCount b' = 1 /\
      (r = RET_OK -> exists p q, m_pRecvSession b' = Some p /\ m_pSendSession b' = Some q /\
        tab_id p (w_sessions w') = Some recvId /\ tab_id q (w_sessions w') = Some sendId))); [exact Ho0|].
    eapply wp_mono; [apply business_init_ok; [done|done|by eapply opened_biz]|]. by intros r [b' w'] o (? & ? & ? & ? & ?). }
  intros r t1 o (b1 & Ho1 & Et1 & Hp1 & Hr1 & Hok). clearbody t0.
  assert (m_BusinessMap t1 = m /\ m_unMaxBusinessNum t1 = m_unMaxBusinessNum t) as [Em1 En1].
  { destruct Et0, Et1. split; [unfold m|]; congruence. }
  assert (is_Some (m_pRecvProcessor b1) -> is_Some (m_pRecvSession b1)) as Hpr by (rewrite Hp1; by intros [? ?]).
  assert (forall t', b_heap t' = h /\ same_table t1 t' /\ mgr_ok R [] held m h (b_world t') -> mok R held t') as Hend.
  { intros t' (Eh & [Em En] & Hm). split; rewrite ?Eh; [by rewrite Em, Em1|congruence|done]. }
  destruct (decide (r = RET_OK)) as [->|Hr].
  2: { rewrite bool_decide_eq_true_2 by done. wp_step. eapply wp_mono; [by eapply opened_gone|]. intros [] t' o' H'. wp_step. by apply Hend. }
  rewrite bool_decide_eq_false_2 by (intros E; by destruct E). do 2 wp_step. destruct (Z.leb_spec capacity (m_unMaxBusinessNum t1)).
  { wp_step. eapply wp_mono; [by eapply opened_stop|]. intros r t2 o2 (b2 & Ho2 & Et2 & Es2 & Ep2). wp_step.
    eapply wp_mono; [eapply opened_gone; [exact Ho2|rewrite Ep2; by intros [? ?]]|]. intros [] t' o' (Eh & Et' & Hm'). wp_step.
    apply Hend. split; [done|]. split; [|done]. destruct Et2, Et'. split; congruence. }
  do 6 wp_step. destruct (Hok eq_refl) as (p & q & Er & Es & Eir & Eis). wp_step. cbn [option_list option_rect app].
  destruct Ho1 as [Hb1 Hd1 Hm1]. destruct t1 as [m1 n1 i1 o1 h1 w1]. cbn in *. subst m1 n1.
  assert (h1 = <[addr := b1]> h) as -> by (rewrite <-Hd1, insert_delete_eq; by rewrite insert_id).
  assert (size (<[addr := b1]> h) = S (size h)) as Esz by by apply map_size_insert_None.
  split; cbn; rewrite ?Esz; [|rewrite H2; unfold u32; rewrite wrap_small by (unfold fits; lia); lia|lia].
  rewrite !multi_insert_perm. rewrite Permutation_swap. 
  assert (entries (w_sessions w1) addr b1 = [(recvId, addr); (sendId, addr)]) as Ee.
  { unfold entries, session_id. by rewrite Er, Es, Eir, Eis. }
  assert (addr ∉ held) as Hnh by (intros Hin; destruct (mk_held _ _ _ _ _ _ Hm1 addr Hin); congruence).
  assert (count addr held = 0) as Hz.
  { pose proof (count_nonneg addr held). destruct (Z.eq_dec (count addr held) 0); [done|]. exfalso. apply Hnh, count_elem. lia. }
  change ((recvId, addr) :: (sendId, addr) :: m) with ([(recvId, addr); (sendId, addr)] ++ m). rewrite <-Ee.
  eapply mgr_put; [by rewrite app_nil_r|done|rewrite count_cons, bool_decide_eq_true_2 by done; lia|lia|by rewrite Er|by rewrite Es|].
  intros x Hx. rewrite count_cons, bool_decide_eq_false_2 by congruence. lia.
Qed.

(** The numbers of the sessions of the business that is destroyed. *)
Lemma opened_id (recv : bool) R held m h p b t : opened R held m h p b t ->
  wp (at_business p (if recv then getRecvStreamID else getSendStreamID)) (fun r t' _ => t' = t /\
    r = session_id (w_sessions (b_world t)) (if recv then m_pRecvSession b else m_pSendSession b)) t.
Proof.
  intros Ho. pose proof (opened_biz _ _ _ _ _ _ _ Ho) as Hb. destruct Ho as [Hp Hd Hm].
  eapply (wp_at_business p _ (fun r '(b', w') _ => b' = b /\ w' = b_world t /\
    r = session_id (w_sessions (b_world t)) (if recv then m_pRecvSession b else m_pSendSession b))); [exact Hp| |].
  - destruct recv; [unfold getRecvStreamID|unfold getSendStreamID]; wp_step; apply wp_business.
    + eapply wp_stream_id; [apply (wo_tab _ _ _ _ Hb)|intros q Hq; by eapply biz_recv|done].
    + eapply wp_stream_id; [apply (wo_tab _ _ _ _ Hb)|intros q Hq; by eapply biz_send|done].
  - intros r b' w' o (-> & -> & Hr). split; [|done]. destruct t. cbn in *. by rewrite insert_id.
Qed.

Lemma destroy_business_ok now R held m h p b t : opened R held m h p b t -> is_Some (m_pRecvSession b) ->
  m_BusinessMap t ≡ₚ entries (w_sessions (b_world t)) p b ++ m ->
  wp (destroyBusiness now p) (fun _ t' _ => b_heap t' = h /\ m_unMaxBusinessNum t' = m_unMaxBusinessNum t /\
    mgr_ok R [] held (m_BusinessMap t') h (b_world t')) t.
Proof.
  intros Ho Hr Hm. unfold destroyBusiness. wp_step. eapply wp_mono; [apply (opened_id true _ _ _ _ _ _ _ Ho)|].
  intros r t1 o (-> & ->). wp_step. eapply wp_mono; [apply (opened_id false _ _ _ _ _ _ _ Ho)|].
  intros r t1 o1 (-> & ->). do 4 wp_step. cbv beta iota in *. set (k1 := session_id _ (m_pRecvSession b)) in *. set (k2 := session_id _ (m_pSendSession b)) in *.
  set (t2 := with_map _ _).
  assert (opened R held m h p b t2 /\ m_unMaxBusinessNum t2 = m_unMaxBusinessNum t /\ m_BusinessMap t2 ≡ₚ m) as (Ho2 & En & Em).
  { unfold t2. destruct Ho as [G1 G2 G3]. destruct t. cbn in *. split; [|split; [done|]].
    - split; done.
    - by apply multi_erase_perm, multi_erase_perm. }
  eapply wp_mono; [eapply opened_gone; [exact Ho2|by intros _]|]. intros [] t3 o3 (Eh & [Em3 En3] & Hm3).
  split; [done|]. split; [congruence|]. by rewrite Em3, Em.
Qed.

Lemma release_business_ok now R held t p : mok R (p :: held) t ->
  wp (releaseBusiness now p) (fun _ t' _ => mok R held t') t.
Proof.
  intros H. destruct (mk_held _ _ _ _ _ _ (mo_mgr _ _ _ H) p) as [b Hb]; [by left|].
  destruct (mk_biz _ _ _ _ _ _ (mo_mgr _ _ _ H) p b Hb) as (Hc & Hpos & Hr & Hs).
  rewrite count_cons, bool_decide_eq_true_2 in Hc by done. unfold releaseBusiness, dec_business_ref. wp_step.
  set (b0 := with_refs (m_nRefCount b - 1) b).
  assert (its_sessions b0 = its_sessions b /\ its_processor b0 = its_processor b /\ m_nRefCount b0 = count p held /\
    m_pRecvSession b0 = m_pRecvSession b /\ m_pSendSession b0 = m_pSendSession b) as (E1 & E2 & E3 & E4 & E5).
  { unfold b0. clear -Hc. destruct b. cbn in *. split_and!; try done. lia. }
  destruct (Z.ltb_spec 0 (count p held)) as [Hlt|Hle].
  - eapply wp_mono; [eapply (at_keeps p _ R (p :: held) held t b (fun n => n = count p held)); [exact H|exact Hb| |done|]|].
    + intros R1 O1 Hbiz. wp_step. apply wp_on_business. wp_step. apply wp_business. wp_step. fold b0.
      unfold biz_ok. rewrite E1, E2. split_and!; [done|apply ids_refl|done..].
    + intros q Hq. rewrite count_cons, bool_decide_eq_false_2 by congruence. lia.
    + intros n t' o (H' & _ & _ & ->). by rewrite (proj2 (Z.leb_gt _ _) Hlt).
  - eapply (wp_at_business p _ (fun n '(b', w') _ => n = m_nRefCount b0 /\ b' = b0 /\ w' = b_world t)); [exact Hb| |].
    { wp_step. apply wp_on_business. wp_step. apply wp_business. by wp_step. }
    intros n b' w' o (-> & -> & ->). rewrite E3, (proj2 (Z.leb_le _ _) Hle). destruct H as [H1 H2 H3].
    destruct (mgr_take _ _ _ _ _ _ _ _ H1 Hb) as [_ (m' & Hm & Hrest)].
    apply (mgr_counts _ _ _ held) in Hrest.
    2: { intros q. rewrite count_not_of, count_cons. pose proof (count_nonneg p held). case_decide as Hq.
      - subst. lia.
      - rewrite bool_decide_eq_false_2 by congruence. lia. }
    set (t1 := with_world _ _). assert (size (b_heap t) <> 0%nat) as Hsz.
    { intros Hz%map_size_empty_iff. rewrite Hz, lookup_empty in Hb. done. }
    wp_step. eapply wp_mono; [eapply (destroy_business_ok now R held m' (delete p (b_heap t)) p b0 t1)|].
    + unfold t1. destruct t. cbn in *. split; cbn; [apply lookup_insert_eq|by rewrite delete_insert_eq|].
      by rewrite E1, E2, <-(app_nil_r (its_processor b)).
    + by rewrite E4.
    + unfold entries. rewrite E4, E5. unfold t1. destruct t. exact Hm.
    + intros [] t2 o2 (Eh & En & Hm2). wp_step. assert (m_unMaxBusinessNum t1 = m_unMaxBusinessNum t) as E by (unfold t1; by destruct t).
      rewrite E in En. destruct t2 as [m2 n2 i2 r2 h2 w2]. cbn in *. subst h2. split; cbn; [done|..].
      * rewrite En, H2. rewrite map_size_delete_Some by eauto. unfold u32. rewrite wrap_small by (unfold fits; lia). lia.
      * rewrite map_size_delete_Some by eauto. lia.
Qed.

Lemma release_list_ok now R l : forall held t, mok R (l ++ held) t ->
  wp (releaseBusinessList now l) (fun _ t' _ => mok R held t') t.
Proof.
  unfold releaseBusinessList. induction l as [|p l IH]; intros held t H; cbn [each]; [by wp_step|]. wp_step.
  eapply wp_mono; [by apply release_business_ok|]. intros [] t' o H'. eapply wp_mono; [by apply IH|]. done.
Qed.

(** The exchange deletes a processor it was asked to delete. *)
Lemma undoom R O w q x : world_ok R O [] w -> ex_users (w_exchange w) ≡ₚ q :: ex_users x ->
  ex_doomed (w_exchange w) ≡ₚ q :: ex_doomed x -> world_ok R O [q] (set_exchange x w).
Proof.
  intros [H1 H2 H3 H4 H5] Hu Hd. split; cbn [app set_exchange w_sessions w_exchange w_procs]; [done|..].
  - by rewrite <-Hu.
  - intros p. rewrite <-Hu. apply H3.
  - intros p Hp. apply H4. rewrite Hu. by right.
  - rewrite Hu, Hd, <-Permutation_middle in H5. apply submseteq_cons_l in H5 as (k & Hk & H5).
    apply Permutation_cons_inv in Hk. by rewrite Hk.
Qed.

Lemma world_exchange R O w x : world_ok R O [] w -> ex_users x ≡ₚ ex_users (w_exchange w) ->
  ex_doomed x ≡ₚ ex_doomed (w_exchange w) -> world_ok R O [] (set_exchange x w).
Proof.
  intros [H1 H2 H3 H4 H5] Hu Hd. split; cbn [app set_exchange w_sessions w_exchange w_procs]; [done|..].
  - by rewrite Hu.
  - intros p. rewrite Hu. apply H3.
  - intros p. rewrite Hu. apply H4.
  - by rewrite Hu, Hd.
Qed.

Lemma mok_world R R' held t w' : mok R held t -> world_ok (biz_sessions (b_heap t) ++ R') (biz_processors (b_heap t)) [] w' ->
  ids_kept (biz_sessions (b_heap t)) (b_world t) w' -> mok R' held (with_world w' t).
Proof.
  intros [H1 H2 H3] Hw Hk. destruct t. cbn in *. split; cbn; [|done|done].
  eapply mgr_world; [exact H1|by rewrite app_nil_r|done].
Qed.

(** The sessions the businesses and the processors have. *)
Definition ours t : list Z := biz_sessions (b_heap t) ++ proc_sessions (b_world t).

(** The users of the manager, the other users of the sessions, which have the references
    [R], and the threads of the exchange. Only a business without a processor is started,
    at an address no processor has. *)
Inductive business_step : list Z * list Z * CStreamBusinessManager F X -> list Z * list Z * CStreamBusinessManager F X -> Prop :=
| bs_create R held t now addr capacity recvId sendId ty r t' o : b_heap t !! addr = None -> capacity < 2 ^ 32 ->
    createBusiness now addr capacity recvId sendId ty t = Some (r, t', o) -> business_step (R, held, t) (R, option_list r ++ held, t')
| bs_find R held t id r t' o : findBusiness id t = Some (r, t', o) -> business_step (R, held, t) (R, option_list r ++ held, t')
| bs_list R held t id r t' o : findBusinessList id t = Some (r, t', o) -> business_step (R, held, t) (R, r ++ held, t')
| bs_all R held t r t' o : getAllBusiness t = Some (r, t', o) -> business_step (R, held, t) (R, r ++ held, t')
| bs_start R held t now p b q r t' o : p ∈ held -> b_heap t !! p = Some b -> m_pRecvProcessor b = None ->
    w_procs (b_world t) !! q = None -> at_business p (business_start now q) t = Some (r, t', o) ->
    business_step (R, held, t) (R, held, t')
| bs_flux R held t p flux start stop r t' o : p ∈ held -> at_business p (statFluxInfo flux start stop) t = Some (r, t', o) ->
    business_step (R, held, t) (R, held, t')
| bs_release R held held' l t now r t' o : held ≡ₚ l ++ held' -> releaseBusinessList now l t = Some (r, t', o) ->
    business_step (R, held, t) (R, held', t')
| bs_table R R' held t f : tab_holds (R' ++ ours t) f ->
    (forall p, p ∈ biz_sessions (b_heap t) -> tab_id p f = tab_id p (w_sessions (b_world t))) ->
    business_step (R, held, t) (R', held, with_world (set_sessions f (b_world t)) t)
| bs_exchange R held t x : ex_users x ≡ₚ ex_users (w_exchange (b_world t)) -> ex_doomed x ≡ₚ ex_doomed (w_exchange (b_world t)) ->
    business_step (R, held, t) (R, held, with_world (set_exchange x (b_world t)) t)
| bs_doomed R held t now q x b w r o : ex_users (w_exchange (b_world t)) ≡ₚ q :: ex_users x ->
    ex_doomed (w_exchange (b_world t)) ≡ₚ q :: ex_doomed x ->
    delete_processor now q (CStreamBusiness_new, set_exchange x (b_world t)) = Some (r, (b, w), o) ->
    business_step (R, held, t) (R, held, with_world w t).

Inductive business_run : list Z -> list Z -> CStreamBusinessManager F X -> Prop :=
| br_new R f x : tab_holds R f -> ex_users x = [] -> ex_doomed x = [] ->
    business_run R [] (manager_new {| w_sessions := f; w_exchange := x; w_procs := ∅ |})
| br_step R held t R' held' t' : business_run R held t -> business_step (R, held, t) (R', held', t') -> business_run R' held' t'.

Lemma wp_by {S E A} (m : M S E A) P s r s' o : wp m P s -> m s = Some (r, s', o) -> P r s' o.
Proof. unfold wp. intros H E0. by rewrite E0 in H. Qed.

Lemma business_step_ok R held t R' held' t' : mok R held t -> business_step (R, held, t) (R', held', t') -> mok R' held' t'.
Proof.
  intros H Hs. inversion Hs; subst; clear Hs.
  - match goal with E : createBusiness _ _ _ _ _ _ _ = _ |- _ => by eapply (wp_by _ _ _ _ _ _ (create_business_ok _ _ _ _ _ _ _ _ _ H ltac:(done) ltac:(done)) E) end.
  - match goal with E : findBusiness _ _ = _ |- _ => apply (wp_by _ _ _ _ _ _ (find_business_ok _ _ _ _ H) E) end.
  - match goal with E : findBusinessList _ _ = _ |- _ => apply (wp_by _ _ _ _ _ _ (find_list_ok _ _ _ _ H) E) end.
  - match goal with E : getAllBusiness _ = _ |- _ => apply (wp_by _ _ _ _ _ _ (all_business_ok _ _ _ H) E) end.
  - match goal with E : at_business _ _ _ = _, Hb : b_heap _ !! _ = Some _ |- _ =>
      eapply (wp_by _ _ _ _ _ _ (start_business_ok _ _ _ _ _ _ _ H Hb ltac:(done) ltac:(done)) E) end.
  - by eapply flux_business_ok.
  - match goal with E : releaseBusinessList _ _ _ = _, Hp : held ≡ₚ _ |- _ =>
      destruct H as [G1 G2 G3]; rewrite Hp in G1; apply (wp_by _ _ _ _ _ _ (release_list_ok _ _ _ _ _ (Build_mok _ _ _ G1 G2 G3)) E) end.
  - eapply mok_world; [exact H|..|done]. destruct (mk_world _ _ _ _ _ _ (mo_mgr _ _ _ H)) as [G1 G2 G3 G4 G5].
    rewrite app_nil_r in G5. split; [|done..].
    match goal with Hf : tab_holds _ _ |- _ => unfold ours in Hf; rewrite (Permutation_app_comm _ R'), <-app_assoc; exact Hf end.
  - pose proof (mk_world _ _ _ _ _ _ (mo_mgr _ _ _ H)) as G. rewrite app_nil_r in G.
    eapply mok_world; [exact H|by apply world_exchange|by intros ? ?].
  - pose proof (mk_world _ _ _ _ _ _ (mo_mgr _ _ _ H)) as G. rewrite app_nil_r in G.
    match goal with E : delete_processor ?now ?q _ = _ |- _ => eapply undoom in G; [|done|done];
      destruct (wp_by _ _ _ _ _ _ (delete_ok now _ _ CStreamBusiness_new _ q G) E) as (_ & Gw & Gk) end.
    eapply mok_world; [exact H|exact Gw|]. intros s Hs. rewrite Gk; [done|]. apply elem_of_app. by left.
Qed.

Lemma business_run_ok R held t : business_run R held t -> mok R held t.
Proof.
  induction 1 as [R f x Hf Hu Hd|R held t R' held' t' _ IH Hs]; [|by eapply business_step_ok].
  split; cbn; [|done|done]. unfold biz_sessions, biz_processors. split.
  - unfold biz_sessions, biz_processors. rewrite !hsum_empty. split; cbn.
    + unfold proc_sessions. cbn. by rewrite hsum_empty, app_nil_r.
    + rewrite Hu. constructor.
    + intros q. rewrite Hu, lookup_empty. split; [by intros ?%not_elem_of_nil|by intros [? ?]].
    + intros q. rewrite Hu. by intros ?%not_elem_of_nil.
    + by rewrite Hu, Hd.
  - intros p b Hb. by rewrite lookup_empty in Hb.
  - intros p Hp. by apply not_elem_of_nil in Hp.
  - by rewrite hsum_empty.
Qed.

(** A business that has a processor in the exchange is started once more. *)
Lemma start_again_ok now R O b w q q' p s st st' : biz_ok R O b w -> m_pRecvProcessor b = Some q -> m_pRecvSession b = Some p ->
  m_pSendSession b = Some s -> tab_status p (w_sessions w) = Some st -> tab_status s (w_sessions w) = Some st' ->
  status_le STREAM_SESSION_STATUS_WAIT_CHANNEL_REDAY st -> status_le STREAM_SESSION_STATUS_WAIT_CHANNEL_REDAY st' ->
  tab_play s (w_sessions w) = Some PLAY_TYPE_LIVE -> q' <> q -> w_procs w !! q' = None ->
  wp (business_start now q') (fun _ '(b', w') _ => q ∈ ex_users (w_exchange w') /\ w_procs w' !! q = None) (b, w).
Proof.
  intros H Hq Hp Hs Est Est' Hst Hst' Epl Hne Hfree. pose proof (wo_tab _ _ _ _ H) as Ht.
  assert (q ∈ ex_users (w_exchange w)) as Hu.
  { destruct H as [_ _ _ _ H5]. unfold its_processor in H5. rewrite Hq in H5. by apply submseteq_cons_l in H5 as (k & -> & _); left. }
  destruct (wo_inited _ _ _ _ H q Hu) as [s0 Hs0].
  unfold business_start. wp_step. apply wp_business. rewrite Hp, Hs. wp_step. eapply wp_ask; [exact Est|].
  wp_step. eapply wp_ask; [exact Est'|]. rewrite (Is_true_true_1 _ Hst), (Is_true_true_1 _ Hst'). cbn [andb].
  wp_step. unfold createMediaProcessor. wp_step. apply wp_business. rewrite Hs. wp_step. eapply wp_ask; [exact Epl|].
  wp_step. unfold delete_own at 1. wp_step. apply wp_business. rewrite Hq. wp_step.
  eapply wp_mono; [by eapply delete_tab|]. intros [] [b1 w1] o (-> & Ht1 & _ & Ep1 & Ex1). apply wp_on_business.
  unfold createDirectProcessor. do 2 wp_step. apply wp_business.
  assert (m_pRecvSession (with_processor None b) = Some p /\ m_pSendSession (with_processor None b) = Some s) as [-> ->] by by destruct b.
  wp_step. apply wp_on_procs. apply wp_on_business. set (b2 := with_processor (Some q') _). set (w2 := set_procs _ w1).
  assert (its_sessions b2 = its_sessions b /\ m_pRecvProcessor b2 = Some q' /\ m_pRecvSession b2 = Some p /\
    m_pSendSession b2 = Some s) as (E1 & E2 & E3 & E4) by by destruct b.
  assert (w_procs w1 !! q' = None) as Hfree1 by (rewrite Ep1; by rewrite lookup_delete_ne).
  assert (tab_ok (its_sessions b2 ++ R) w2) as Ht2.
  { rewrite E1. unfold tab_ok, proc_sessions, w2 in *. cbn [set_procs w_procs w_sessions]. by rewrite hsum_insert. }
  wp_step. eapply wp_mono; [eapply (regist_tab R b2 w2 q' p s); [done|apply lookup_insert_eq|done..]|].
  assert (forall w3, tab_ok (its_sessions b2 ++ R) w3 -> is_Some (w_procs w3 !! q') -> q ∈ ex_users (w_exchange w3) -> w_procs w3 !! q = None ->
    wp (delete_own now) (fun _ '(b', w') _ => q ∈ ex_users (w_exchange w') /\ w_procs w' !! q = None) (b2, w3)) as Hdel.
  { intros w3 Ht3 [s3 Hs3] Hu3 Hn3. unfold delete_own. wp_step. apply wp_business. rewrite E2. wp_step.
    eapply wp_mono; [by eapply delete_tab|]. intros [] [b4 w4] o4 (-> & _ & _ & Ep4 & Ex4). apply wp_on_business.
    rewrite Ep4, Ex4, lookup_delete_ne by congruence. done. }
  assert (w_procs w2 !! q = None) as Hn2 by (unfold w2; cbn; rewrite lookup_insert_ne by congruence; by rewrite Ep1, lookup_delete_eq).
  assert (q ∈ ex_users (w_exchange w2)) as Hu2 by (unfold w2; cbn; by rewrite Ex1).
  intros r [b3 w3] o3 (-> & Ht3 & _ & Hc).
  assert (is_Some (w_procs w3 !! q') /\ q ∈ ex_users (w_exchange w3) /\ w_procs w3 !! q = None) as (G1 & G2 & G3).
  { destruct Hc as [(_ & -> & ->)|(sn & id & tr & ts & r' & -> & Ex & _)].
    - split_and!; [by exists None; apply lookup_insert_eq|done..].
    - pose proof (add_users id q' tr ts (w_exchange w2)) as Ha. rewrite Ex in Ha. destruct Ha as [-> _].
      rewrite lookup_insert_eq, lookup_insert_ne by congruence. split_and!; [by eexists| |done]. apply elem_of_app. by right. }
  case_bool_decide; [|by do 2 wp_step]. wp_step. eapply wp_mono; [by apply Hdel|]. intros [] [b4 w4] o4 H4. by do 2 wp_step.
Qed.

(** *** Rates *)

Definition total {A} (f : A -> Z) (l : list A) : Z := foldr Z.add 0 (f <$> l).

#[global] Instance total_perm {A} (f : A -> Z) : Proper ((≡ₚ) ==> eq) (total f).
Proof. intros l k H. unfold total. induction H; cbn in *; lia. Qed.

Lemma total_cons {A} (f : A -> Z) x l : total f (x :: l) = f x + total f l.
Proof. done. Qed.

Lemma u32_add_l a c : u32 (u32 a + c) = u32 (a + c).
Proof. apply wrap_add_l. Qed.

Definition rate_at (f : CStreamBusiness -> Z) h (e : Z * Z) : Z := match h !! e.2 with Some b => f b | None => 0 end.

Lemma sum_rates_total rate h l : (forall e, e ∈ l -> is_Some (h !! e.2)) -> forall i o,
  sum_rates rate h l (u32 i) (u32 o) = Some (u32 (i + total (rate_at (input_rate rate) h) l), u32 (o + total (rate_at m_OutputRate h) l)).
Proof.
  induction l as [|[k p] l IH]; intros Hl i o; cbn [sum_rates].
  { unfold total. cbn. by rewrite !Z.add_0_r. }
  destruct (Hl (k, p)) as [b Hb]; [by left|]. cbn [snd] in Hb. rewrite Hb. cbn [mbind option_bind].
  rewrite !u32_add_l, IH by (intros e He; apply Hl; by right). rewrite !total_cons.
  assert (forall f, rate_at f h (k, p) = f b) as E by (intros f; unfold rate_at; cbn [snd]; by rewrite Hb).
  rewrite !E. do 3 f_equal; lia.
Qed.

(** The sum over the businesses. *)
Definition business_total (f : CStreamBusiness -> Z) h : Z := total (fun e => f e.2) (map_to_list h).

Lemma entries_total f g h : total (rate_at f h) (hsum (entries g) h) = 2 * business_total f h.
Proof.
  unfold business_total, hsum. assert (forall e, e ∈ map_to_list h -> h !! e.1 = Some e.2) as Hin.
  { intros [p b] He. by apply elem_of_map_to_list. }
  revert Hin. generalize (map_to_list h) as l. induction l as [|[p b] l IH]; intros Hin; [done|].
  pose proof (Hin (p, b) ltac:(by left)) as Hp. cbn [fst snd] in Hp.
  transitivity (total (rate_at f h) (entries g p b ++ mjoin ((fun e => entries g e.1 e.2) <$> l))); [done|].
  unfold entries at 1. cbn [app]. rewrite !total_cons, IH by (intros e He; apply Hin; by right).
  unfold rate_at. cbn [fst snd]. rewrite Hp. lia.
Qed.
End BusinessLaws.

(** ** The table of sessions *)

Section FactoryTable.
Context {D N : Type} `{!SessionImpl D N, !SessionClass D N, !SessionClassLaws D N}.

#[export] Instance factory_table : SessionTable (CStreamSessionFactory D N) := {|
  tab_find := fun id f => match findSession id f with Some (r, f, _) => Some (r, f) | None => None end;
  tab_release := fun now p f => match releaseSession now p f with Some (_, f, _) => Some f | None => None end;
  tab_id := fun p f => m_StreamID <$> f_heap f !! p;
  tab_status := fun p f => m_enSessionStatus <$> f_heap f !! p;
  tab_play := fun p f => m_enPlayType <$> f_heap f !! p;
  tab_trans := fun p f => m_MediaTransType <$> f_heap f !! p;
  tab_content := fun p f => m_szContentId <$> f_heap f !! p;
  tab_holds := fun l f => refs_ok l ∅ f |}.

(** Who stays in the table keeps its number. *)
Lemma number_kept l (f f' : CStreamSessionFactory D N) k q : refs_ok l ∅ f -> refs_ok k ∅ f' ->
  m_SessionMap f' ⊆ m_SessionMap f -> q ∈ k -> m_StreamID <$> f_heap f' !! q = m_StreamID <$> f_heap f !! q.
Proof.
  intros H H' Hsub Hq. destruct (ro_ref _ _ _ H' q) as [_ [s' Hs']]; [by apply elem_of_app; left|].
  destruct (ro_live _ _ _ H' q s' Hs') as (Hm & _); [set_solver|]. eapply lookup_weaken in Hm; [|exact Hsub].
  destruct (ro_map _ _ _ H _ _ Hm) as (_ & s & Hs & E). rewrite Hs', Hs. cbn. by rewrite E.
Qed.

#[export] Instance factory_table_laws : SessionTableLaws (CStreamSessionFactory D N).
Proof.
  split.
  - intros l k f Hp H. cbn in *. by rewrite <-Hp.
  - intros l f id H. cbn in *. destruct (wp_elim _ _ _ (find_ok _ _ id H)) as (r & f' & o & E & _ & Er & H' & Em & Ex).
    rewrite E. exists r, f'. split_and!; [done|done|..].
    + intros p ->. symmetry in Er. destruct (ro_map _ _ _ H' id p) as (_ & s & Hs & Eid); [by rewrite Em|]. by rewrite Hs; cbn; rewrite Eid.
    + intros p Hp. eapply number_kept; [exact H|exact H'|by rewrite Em|]. apply elem_of_app. by right.
  - intros l f now p H. cbn in *. unfold releaseSession. rewrite get_bind.
    destruct (wp_elim _ _ _ (release_ok (release_fuel f) now p l ∅ f H ltac:(unfold release_fuel; lia))) as (r & f' & o & E & H' & Hsub & _).
    rewrite E. exists f'. split_and!; [done..|]. intros q Hq. by eapply number_kept.
  - intros l f p H Hp. cbn in *. destruct (ro_ref _ _ _ H p) as [_ [s Hs]]; [by apply elem_of_app; left|]. rewrite Hs. cbn. eauto 10.
Qed.
End FactoryTable.

(** ** Properties *)

(** C9: whatever the users of the manager, the other users of the sessions and the exchange
    do, a business lives as long as it has references; the references of the sessions are
    those of the others, of the businesses and of the processors; the exchange has exactly
    the processors that live; without users there is no business, and the references left
    are those of the processors; and when the exchange has none either, all references
    were given back. *)
Theorem business_safe F X `{!SessionTable F, !MediaExchangeOps X, !SessionTableLaws F, !MediaExchangeLaws X} R held
    (t : CStreamBusinessManager F X) : business_run R held t ->
  (forall p, p ∈ held -> is_Some (b_heap t !! p)) /\
  (forall p b, b_heap t !! p = Some b -> m_nRefCount b = count p held /\ 0 < m_nRefCount b) /\
  tab_holds (R ++ ours t) (w_sessions (b_world t)) /\
  (forall q, q ∈ ex_users (w_exchange (b_world t)) <-> exists s, w_procs (b_world t) !! q = Some (Some s)) /\
  m_BusinessMap t ≡ₚ hsum (entries (w_sessions (b_world t))) (b_heap t) /\
  m_unMaxBusinessNum t = Z.of_nat (size (b_heap t)) /\
  (held = [] -> b_heap t = ∅ /\ m_BusinessMap t = [] /\ ours t = proc_sessions (b_world t) /\
    (ex_users (w_exchange (b_world t)) = [] -> ours t = [] /\ tab_holds R (w_sessions (b_world t)))).
Proof.
  intros H%business_run_ok. destruct H as [[[H1 H2 H3 H4 H5] Hb Hh Hm] Hn Hx].
  assert (Hall : tab_holds (R ++ ours t) (w_sessions (b_world t))).
  { eapply holds_perm; [|exact H1]. unfold ours. by rewrite (Permutation_app_comm (biz_sessions _) R), <-app_assoc. }
  split_and!; [done| |done| |done|done|].
  - intros p b Hp. by destruct (Hb p b Hp) as (? & ? & _).
  - intros q. split; [apply H4|]. intros [s Hs]. apply H3. by eexists.
  - intros ->. assert (b_heap t = ∅) as E.
    { apply map_empty. intros p. destruct (b_heap t !! p) as [b|] eqn:Ep; [|done]. destruct (Hb p b Ep) as (Hc & Hpos & _).
      rewrite count_nil in Hc. lia. }
    assert (Eo : ours t = proc_sessions (b_world t)) by (unfold ours, biz_sessions; by rewrite E, hsum_empty).
    split_and!; [done| |done|].
    { rewrite E, hsum_empty in Hm. by apply Permutation_nil_r. }
    intros Hu. assert (E0 : ours t = []); [|rewrite E0, app_nil_r in Hall; by split].
    rewrite Eo. apply elem_of_nil_inv. intros x (q & o & Hq & Hx')%hsum_elem. destruct o as [s|]; [|by apply elem_of_nil in Hx'].
    pose proof (proj2 (H3 q) (mk_is_Some _ _ Hq)) as Hin. rewrite Hu in Hin. by apply elem_of_nil in Hin.
Qed.

(** No operation of the manager uses a business, a session or a processor that was deleted. *)
Theorem business_no_fault F X `{!SessionTable F, !MediaExchangeOps X, !SessionTableLaws F, !MediaExchangeLaws X} R held
    (t : CStreamBusinessManager F X) : business_run R held t ->
  (forall now addr capacity a b ty, b_heap t !! addr = None -> capacity < 2 ^ 32 ->
     is_Some (createBusiness now addr capacity a b ty t)) /\
  (forall id, is_Some (findBusiness id t)) /\ (forall id, is_Some (findBusinessList id t)) /\ is_Some (getAllBusiness t) /\
  (forall now p b q, p ∈ held -> b_heap t !! p = Some b -> m_pRecvProcessor b = None -> w_procs (b_world t) !! q = None ->
     is_Some (at_business p (business_start now q) t)) /\
  (forall now l l', held ≡ₚ l ++ l' -> is_Some (releaseBusinessList now l t)).
Proof.
  assert (forall S E A (m : M S E A) P s, wp m P s -> is_Some (m s)) as Hw.
  { intros S E A m P s (a & s' & o & -> & _)%wp_elim. by eexists. }
  intros H%business_run_ok. split_and!.
  - intros. eapply Hw. by eapply create_business_ok.
  - intros. eapply Hw. by apply find_business_ok.
  - intros. eapply Hw. by apply find_list_ok.
  - eapply Hw. by apply all_business_ok.
  - intros. eapply Hw. by eapply start_business_ok.
  - intros now l l' Hl. eapply Hw. apply (release_list_ok now R l l'). destruct H as [H1 H2 H3]. split; [by rewrite <-Hl|done..].
Qed.

(** C37: a business that is started again deletes its processor, which the exchange goes on
    to send media to. *)
Theorem start_again_frees F X `{!SessionTable F, !MediaExchangeOps X, !SessionTableLaws F, !MediaExchangeLaws X} R held
    (t : CStreamBusinessManager F X) now p b q q' r s st st' : business_run R held t -> p ∈ held -> b_heap t !! p = Some b ->
  m_pRecvProcessor b = Some q -> m_pRecvSession b = Some r -> m_pSendSession b = Some s ->
  tab_status r (w_sessions (b_world t)) = Some st -> tab_status s (w_sessions (b_world t)) = Some st' ->
  status_le STREAM_SESSION_STATUS_WAIT_CHANNEL_REDAY st -> status_le STREAM_SESSION_STATUS_WAIT_CHANNEL_REDAY st' ->
  tab_play s (w_sessions (b_world t)) = Some PLAY_TYPE_LIVE -> q' <> q -> w_procs (b_world t) !! q' = None ->
  exists x t' o, at_business p (business_start now q') t = Some (x, t', o) /\
    q ∈ ex_users (w_exchange (b_world t')) /\ w_procs (b_world t') !! q = None.
Proof.
  intros H%business_run_ok Hp Hb Hq Hr Hs Est Est' Hst Hst' Hpl Hne Hfree.
  destruct (mgr_take _ _ _ _ _ _ _ _ (mo_mgr _ _ _ H) Hb) as [Hbiz _].
  apply (wp_elim (at_business p (business_start now q'))
    (fun _ t' _ => q ∈ ex_users (w_exchange (b_world t')) /\ w_procs (b_world t') !! q = None)).
  eapply wp_at_business; [exact Hb|by eapply start_again_ok|]. intros x b' w' o H'. by destruct t.
Qed.

(** The rates the timer sums count each business twice, once for each entry
    of the table, and so does [getBusinessCount]. *)
Theorem statFlux_doubles F X `{!SessionTable F, !MediaExchangeOps X, !SessionTableLaws F, !MediaExchangeLaws X} R held
    (t : CStreamBusinessManager F X) rate : business_run R held t ->
  exists t', statFlux rate t = Some (tt, t', []) /\
    m_InputRate t' = u32 (2 * business_total (input_rate rate) (b_heap t)) / KILO /\
    m_OutputRateSum t' = u32 (2 * business_total m_OutputRate (b_heap t)) / KILO /\
    getBusinessCount t = Some (u32 (2 * Z.of_nat (size (b_heap t))), t, []).
Proof.
  intros H%business_run_ok. destruct H as [H1 _ _]. pose proof (mk_map _ _ _ _ _ _ H1) as Hm.
  assert (sum_rates rate (b_heap t) (m_BusinessMap t) 0 0 = Some (u32 (2 * business_total (input_rate rate) (b_heap t)),
    u32 (2 * business_total m_OutputRate (b_heap t)))) as E.
  { change 0 with (u32 0) at 1 2. rewrite sum_rates_total by (intros e He; by eapply map_heap).
    by rewrite !Hm, !entries_total. }
  eexists. unfold statFlux. rewrite get_bind. split; [|split; [|split]].
  - unfold lift. rewrite E. cbv [mbind M_bind option_bind modify]. reflexivity.
  - by destruct t.
  - by destruct t.
  - unfold getBusinessCount. rewrite get_bind. unfold zlen. rewrite Hm, (hsum_length _ _ 2) by done.
    cbv [mret M_ret]. do 4 f_equal. lia.
Qed.

(** ** A run

    The exchange is the lists of its processors; two sessions wait for their channels. *)

#[export] Instance list_exchange : MediaExchangeOps (list Z * list Z) := {|
  ex_add := fun _ p _ _ x => (RET_OK, (p :: x.1, x.2));
  ex_del := fun _ p _ x => (RET_OK, (x.1, p :: x.2));
  ex_users := fst;
  ex_doomed := snd |}.
#[export] Instance list_exchange_laws : MediaExchangeLaws (list Z * list Z).
Proof. by split. Qed.

Definition demo_table : CStreamSessionFactory (option Z) Z :=
  on_heap (fmap (put_status STREAM_SESSION_STATUS_WAIT_CHANNEL_REDAY 0)) demo2.

Lemma demo_table_ok : tab_holds [200; 100] demo_table.
Proof.
  assert (refs_ok [200; 100] ∅ demo2) as H.
  { apply run_ok. eapply (fr_step [100] demo1).
    - eapply (fr_step [] CStreamSessionFactory_new); [apply fr_new|].
      apply (fs_create [] _ (Some (chars "cam")) 0 100 PEER_TYPE_PU RTP_SESSION false (Some 100) _ []); vm_compute; reflexivity.
    - apply (fs_create [100] _ None 0 200 PEER_TYPE_CU RTP_SESSION false (Some 200) _ []); vm_compute; reflexivity. }
  assert (exists s s', f_heap demo2 !! 100 = Some s /\ f_heap demo2 !! 200 = Some s' /\
    demo_table = on_heap (<[200 := put_status STREAM_SESSION_STATUS_WAIT_CHANNEL_REDAY 0 s']>)
      (on_heap (<[100 := put_status STREAM_SESSION_STATUS_WAIT_CHANNEL_REDAY 0 s]>) demo2)) as (s & s' & Hs & Hs' & ->).
  { do 2 eexists. split; [vm_compute; reflexivity|]. split; [vm_compute; reflexivity|]. vm_compute. reflexivity. }
  eapply refs_ok_store; [eapply refs_ok_store; [exact H|exact Hs|by destruct s]| |].
  - destruct demo2. cbn in *. rewrite lookup_insert_ne by done. exact Hs'.
  - by destruct s'.
Qed.

Abbreviation demo_manager := (CStreamBusinessManager (CStreamSessionFactory (option Z) Z) (list Z * list Z)).
Definition next {A} (m : M demo_manager unit A) (t : demo_manager) : demo_manager :=
  match m t with Some (_, t, _) => t | None => t end.

Definition busy0 : demo_manager := manager_new {| w_sessions := demo_table; w_exchange := ([], []); w_procs := ∅ |}.
Definition busy1 := next (createBusiness 0 10 5 1 2 PLAY_TYPE_LIVE) busy0.
Definition busy2 := next (at_business 10 (business_start 0 50)) busy1.
Definition busy3 := next (releaseBusinessList 0 [10]) busy2.

Lemma busy2_run : business_run [200; 100] [10] busy2.
Proof.
  assert (exists b, b_heap busy1 !! 10 = Some b /\ m_pRecvProcessor b = None) as (b & Hb & Hn).
  { eexists. split; vm_compute; reflexivity. }
  eapply (br_step [200; 100] [10] busy1); [eapply (br_step [200; 100] [] busy0)|].
  - apply br_new; [apply demo_table_ok|done|done].
  - apply (bs_create _ [] busy0 0 10 5 1 2 PLAY_TYPE_LIVE (Some 10) busy1 []); [done|done|]. vm_compute. reflexivity.
  - apply (bs_start _ [10] busy1 0 10 b 50 RET_OK busy2 []); [by left|exact Hb|exact Hn|done|]. vm_compute. reflexivity.
Qed.

Lemma busy3_run : business_run [200; 100] [] busy3.
Proof.
  eapply (br_step [200; 100] [10] busy2); [apply busy2_run|].
  apply (bs_release _ [10] [] [10] busy2 0 tt busy3 []); [done|]. vm_compute. reflexivity.
Qed.

(** The processor is not deleted before the exchange does it. *)
Lemma business_safe_witness : b_heap busy3 = ∅ /\ exists s, w_procs (b_world busy3) !! 50 = Some (Some s).
Proof.
  destruct (business_safe (CStreamSessionFactory (option Z) Z) (list Z * list Z) [200; 100] [] busy3 busy3_run) as (_ & _ & _ & H & _ & _ & He).
  split; [by apply He|]. apply H. vm_compute. by left.
Defined.

Lemma business_no_fault_witness : is_Some (releaseBusinessList 9 [10] busy2).
Proof.
  destruct (business_no_fault (CStreamSessionFactory (option Z) Z) (list Z * list Z) [200; 100] [10] busy2 busy2_run) as (_ & _ & _ & _ & _ & H).
  by apply (H 9 [10] []).
Defined.

Lemma start_again_frees_witness : exists x t' o, at_business 10 (business_start 0 60) busy2 = Some (x, t', o) /\
  50 ∈ ex_users (w_exchange (b_world t')) /\ w_procs (b_world t') !! 50 = None.
Proof.
  assert (exists b, b_heap busy2 !! 10 = Some b /\ m_pRecvProcessor b = Some 50 /\ m_pRecvSession b = Some 100 /\
    m_pSendSession b = Some 200) as (b & Hb & Hq & Hr & Hs) by (eexists; split_and!; vm_compute; reflexivity).
  apply (start_again_frees (CStreamSessionFactory (option Z) Z) (list Z * list Z) [200; 100] [10] busy2 0 10 b 50 60 100 200
    STREAM_SESSION_STATUS_WAIT_CHANNEL_REDAY STREAM_SESSION_STATUS_WAIT_CHANNEL_REDAY busy2_run); try done.
  by left.
Defined.

Lemma statFlux_doubles_witness : exists t', statFlux (fun _ => 4096) busy2 = Some (tt, t', []) /\
  m_InputRate t' = 8 /\ getBusinessCount busy2 = Some (2, busy2, []).
Proof.
  destruct (statFlux_doubles (CStreamSessionFactory (option Z) Z) (list Z * list Z) [200; 100] [10] busy2 (fun _ => 4096) busy2_run)
    as (t' & E & Ei & _ & Ec). exists t'. split; [exact E|]. split; [rewrite Ei; vm_compute; reflexivity|exact Ec].
Defined.
