(* ===== verification/BusinessExchange.v ===== *)
(** * The exchange the businesses use

    [CStreamMediaExchange] of [MediaExchange] keeps the contract [Business] is proved
    against: a business adds and deletes a processor by a block in the queue of a
    thread, and what the exchange has are the processors of the blocks that wait and
    of its sets. A processor is its address. What the threads do in between is
    the business's environment. *)

From S2P Require Import Prelude MediaExchange Business.
Open Scope Z_scope.

Section Real.
Context {PS1 PS2 A B E : Type} `{!ProcessorSet PS1 A Z B E, !ProcessorSet PS2 A Z B E}.
(** The members of a set, and the transport types by number. *)
Context (members : PS1 + PS2 -> list Z) (trans_of : Z -> MEDIA_TRANS_TYPE).

Abbreviation exchange_object := (@CStreamMediaExchange PS1 PS2 Z B).
Abbreviation block := (@packet Z B).

(** The exchange, and for each call to come the answers of the allocation and of the queue. *)
Record real_exchange : Type := { the_exchange : exchange_object; answers : list (bool * bool) }.

Definition added_by (m : block) : option Z :=
  match content m with STREAM_PACKET_TYPE_ADD_SESSION p _ _ => Some p | _ => None end.
Definition deleted_by (m : block) : option Z :=
  match content m with STREAM_PACKET_TYPE_DEL_SESSION p => Some p | _ => None end.

Definition waiting (f : block -> option Z) (q : queue_ptr) : list Z :=
  match q with Queue l => omap f l | _ => [] end.
Definition queued (f : block -> option Z) (x : exchange_object) : list Z :=
  match m_pDataExchangeQueue x with Some l => concat (waiting f <$> l) | None => [] end.
Definition in_table (t : option (gmap Z (option (PS1 + PS2)))) : list Z :=
  match t with
  | Some m => concat ((fun e => match e.2 with Some s => members s | None => [] end) <$> map_to_list m)
  | None => []
  end.
Definition tabled (x : exchange_object) : list Z :=
  match m_pMediaExchangeMap x with Some l => concat (in_table <$> l) | None => [] end.

(** A call, with the next answers; one outside the array of queues is none. *)
Definition ask (f : bool -> bool -> exchange_object -> option (SVS_RET_CODE * exchange_object)) (x : real_exchange) :
    SVS_RET_CODE * real_exchange :=
  let '(alloc, ok) := hd (false, false) (answers x) in
  let '(r, e) := default (RET_FAIL, the_exchange x) (f alloc ok (the_exchange x)) in
  (r, {| the_exchange := e; answers := tl (answers x) |}).

#[export] Instance exchange_ops : MediaExchangeOps real_exchange := {|
  ex_add := fun id p a b => ask (fun alloc ok => addMediaProcessor alloc ok id p (trans_of a) (trans_of b));
  ex_del := fun id p _ => ask (fun alloc ok => delMediaProcessor alloc ok id p);
  ex_users := fun x => queued added_by (the_exchange x) ++ tabled (the_exchange x);
  ex_doomed := fun x => queued deleted_by (the_exchange x) |}.

(** ** A block that is accepted is the last of one queue *)

Lemma enqueue_last ok (m : block) (x x' : exchange_object) : enqueue ok m x = Some (RET_OK, x') ->
  exists t l qs, m_pDataExchangeQueue x = Some qs /\ qs !! t = Some (Queue l) /\
    x' = with_arrays (Some (<[t := Queue (l ++ [m])]> qs)) (m_pMediaExchangeMap x) x.
Proof.
  unfold enqueue, EnqueuePacket, queue_at. intros H. destruct (GenProcessThreadIdx (PuStreamId m) x) as [t|]; [|by simplify_eq].
  destruct (m_pDataExchangeQueue x) as [qs|] eqn:Eq; [|by simplify_option_eq]. cbn [mbind option_bind] in H.
  destruct (qs !! Z.to_nat t) as [[| |l]|] eqn:Et; simplify_option_eq; try done. destruct ok; simplify_option_eq.
  exists (Z.to_nat t), l, qs. split; [done|]. split; [done|]. unfold set_queue. by rewrite Eq.
Qed.

Lemma concat_insert {Q} (f : Q -> list Z) qs t q q' extra : qs !! t = Some q -> f q' = f q ++ extra ->
  concat (f <$> <[t := q']> qs) ≡ₚ extra ++ concat (f <$> qs).
Proof.
  intros Hq Hf. pose proof (lookup_lt_Some _ _ _ Hq) as Hlt. rewrite insert_take_drop by done.
  rewrite <-(take_drop_middle qs t q Hq) at 3. rewrite !fmap_app, !concat_app, !fmap_cons. cbn [concat]. rewrite Hf.
  rewrite <-!app_assoc, !(assoc_L (++)). apply Permutation_app_tail. rewrite <-!app_assoc.
  rewrite (Permutation_app_comm extra). by rewrite <-!app_assoc.
Qed.

Lemma queued_enqueue f ok (m : block) x x' : enqueue ok m x = Some (RET_OK, x') ->
  queued f x' ≡ₚ option_list (f m) ++ queued f x /\ tabled x' = tabled x.
Proof.
  intros (t & l & qs & Eq & Hl & ->)%enqueue_last. split; [|done]. unfold queued. cbn [with_arrays m_pDataExchangeQueue]. rewrite Eq.
  apply (concat_insert _ _ _ (Queue l) _ (option_list (f m)) Hl). cbn [waiting]. rewrite omap_app. cbn. by destruct (f m).
Qed.

Lemma queued_other f ok (m : block) x x' : enqueue ok m x = Some (RET_OK, x') -> f m = None -> queued f x' = queued f x.
Proof.
  intros (t & l & qs & Eq & Hl & ->)%enqueue_last Hm. unfold queued. cbn [with_arrays m_pDataExchangeQueue]. rewrite Eq. f_equal.
  apply list_eq. intros i. rewrite !list_lookup_fmap. destruct (decide (i = t)) as [->|Hne].
  - rewrite list_lookup_insert_eq by (by eapply lookup_lt_Some). rewrite Hl. cbn. by rewrite omap_app; cbn; rewrite Hm, app_nil_r.
  - by rewrite list_lookup_insert_ne.
Qed.

(** What a call of [addMediaProcessor] or [delMediaProcessor] does: its block is accepted, or nothing changes. *)
Lemma ask_cases call (m : block) x r x' :
  (forall alloc ok e, call alloc ok e = enqueue ok m e \/ exists r, r <> RET_OK /\ call alloc ok e = Some (r, e)) ->
  ask call x = (r, x') ->
  (r = RET_OK /\ exists ok, enqueue ok m (the_exchange x) = Some (RET_OK, the_exchange x')) \/
  (r <> RET_OK /\ the_exchange x' = the_exchange x).
Proof.
  intros Hc. unfold ask. destruct (hd _ _) as [alloc ok]. intros Ea.
  destruct (Hc alloc ok (the_exchange x)) as [Ec|(r0 & Hr0 & Ec)]; rewrite Ec in Ea.
  - destruct (enqueue ok m (the_exchange x)) as [[r1 e1]|] eqn:Ee; cbn in Ea; injection Ea as <- <-; [|by right].
    destruct (decide (r1 = RET_OK)) as [->|Hr1]; [left; split; [done|by exists ok]|].
    right. split; [done|]. by eapply enqueue_refused.
  - cbn in Ea. injection Ea as <- <-. by right.
Qed.

Lemma add_call id p a b alloc ok (e : exchange_object) : addMediaProcessor alloc ok id p a b e =
    enqueue ok {| PuStreamId := id; content := STREAM_PACKET_TYPE_ADD_SESSION p a b |} e \/
  exists r, r <> RET_OK /\ addMediaProcessor alloc ok id p a b e = Some (r, e).
Proof.
  unfold addMediaProcessor. destruct (GenProcessThreadIdx id e); [|right; by exists RET_FAIL].
  destruct alloc; [by left|right; by exists RET_ERR_SYS_NEW].
Qed.
Lemma del_call id p alloc ok (e : exchange_object) : delMediaProcessor alloc ok id p e =
    enqueue ok {| PuStreamId := id; content := STREAM_PACKET_TYPE_DEL_SESSION p |} e \/
  exists r, r <> RET_OK /\ delMediaProcessor alloc ok id p e = Some (r, e).
Proof.
  unfold delMediaProcessor. destruct (GenProcessThreadIdx id e); [|right; by exists RET_FAIL].
  destruct alloc; [by left|right; by exists RET_ERR_SYS_NEW].
Qed.

#[export] Instance exchange_laws : MediaExchangeLaws real_exchange.
Proof.
  split.
  - intros id p a b x. destruct (ex_add id p a b x) as [r x'] eqn:Ex. cbn [ex_add exchange_ops] in Ex.
    destruct (ask_cases _ _ _ _ _ (add_call id p (trans_of a) (trans_of b)) Ex) as [(-> & ok & He)|(Hr & He)].
    + cbn [ex_users ex_doomed exchange_ops]. destruct (queued_enqueue added_by _ _ _ _ He) as [Hq Ht].
      rewrite Hq, Ht. by rewrite (queued_other deleted_by _ _ _ _ He eq_refl).
    + rewrite decide_False by done. cbn [ex_users ex_doomed exchange_ops]. by rewrite He.
  - intros id p a x. destruct (ex_del id p a x) as [r x'] eqn:Ex. cbn [ex_del exchange_ops] in Ex.
    destruct (ask_cases _ _ _ _ _ (del_call id p) Ex) as [(-> & ok & He)|(Hr & He)].
    + cbn [ex_users ex_doomed exchange_ops]. destruct (queued_enqueue deleted_by _ _ _ _ He) as [Hq Ht].
      rewrite Hq, Ht. by rewrite (queued_other added_by _ _ _ _ He eq_refl).
    + rewrite decide_False by done. cbn [ex_users ex_doomed exchange_ops]. by rewrite He.
Qed.
End Real.
