(* ===== verification/IndexList.v ===== *)
(** * The record index of a camera: [svs_index_list.cpp]

    The recording server keeps, for each camera, the segments it has written
    ([m_localIndexList]) and the recording plans ([m_dbIndexList]); [SVS_Index_List]
    cuts the segments to the plans and sends them to the data base as records that are
    inserted, and grow by updates. What becomes of a record that is over is in
    IndexResend.v.

    The local time ([localtime_r], [mktime]) is the interface [LocalTime]. A request is
    an event: there is a block for its message, and whether the queue takes it changes
    nothing here. File names and device
    numbers fit their arrays. A division by zero, and the copy of a path that
    begins with the device number, are faults.

    [SetLocalizeDeviceId] is the one of [svs_adapter_common.cpp]; the number of a device
    has at most 32 characters, as a comment there says. *)

From Stdlib Require Import String.
From S2P Require Import Prelude Text.
Open Scope Z_scope.

Definition SVS_RESULT_OK : Z := 0.
Definition SVS_ERR_PARAM : Z := 3.
Definition SVS_RESULT_FAILURE : Z := -1.
Definition SVS_PRORECORD_MAX_TIME : Z := 5 * 60.
Definition RTRECORD_UNIT_K : Z := 1024.
Definition LOCALIZE_DEVICE_ID_MAX_LEN : Z := 32.

Inductive RECORD_INDEX_SET_TYPE : Set := RECORD_INDEX_TYPE_UPDATE | RECORD_INDEX_TYPE_INSERT | RECORD_INDEX_TYPE_OVERWRITE.
Inductive REPORT_INDEX_TYPE : Set := REPORT_INDEX_TYPE_NORMAL | REPORT_INDEX_TYPE_OVER | REPORT_INDEX_TYPE_RECONNECT.

(** The day of the year, and the beginning of the day, of a time. *)
Class LocalTime : Type := { tm_yday : Z -> Z; midnight : Z -> Z }.

(** ** Data *)

Record IndexInfo : Type := {
  StartTime : Z; StopTime : Z; VideoFlux : Z; iRecordStopFlag : Z; RecordFileName : list Z }.

Record Update_Record_Index : Type := {
  u_Type : RECORD_INDEX_SET_TYPE; u_LensId : list Z; u_ChangeBeforeStartTime : Z; u_StartTime : Z; u_EndTime : Z;
  u_VideoFlux : Z; u_RecordReportType : REPORT_INDEX_TYPE; u_RecordFilePath : list Z }.

Record SVS_Index_List : Type := {
  m_szDeviceID : list Z; m_localIndexStartTime : Z; m_localIndexStopTime : Z; m_localIndexList : list IndexInfo;
  m_dbIndexStartTime : Z; m_dbIndexList : list IndexInfo; m_lastLocalIndexTime : Z; m_lastDBIndexTime : Z;
  m_ullCurFileSize : Z; m_ullIndexFileSize : Z }.

Definition reset : SVS_Index_List := Build_SVS_Index_List [] 0 0 [] 0 [] 0 0 0 0.

Definition set_device (x : list Z) (t : SVS_Index_List) : SVS_Index_List :=
  let '(Build_SVS_Index_List _ a b l d q e f c i) := t in Build_SVS_Index_List x a b l d q e f c i.
Definition set_local_start (x : Z) (t : SVS_Index_List) : SVS_Index_List :=
  let '(Build_SVS_Index_List n _ b l d q e f c i) := t in Build_SVS_Index_List n x b l d q e f c i.
Definition set_local_stop (x : Z) (t : SVS_Index_List) : SVS_Index_List :=
  let '(Build_SVS_Index_List n a _ l d q e f c i) := t in Build_SVS_Index_List n a x l d q e f c i.
Definition set_local_list (x : list IndexInfo) (t : SVS_Index_List) : SVS_Index_List :=
  let '(Build_SVS_Index_List n a b _ d q e f c i) := t in Build_SVS_Index_List n a b x d q e f c i.
Definition set_db_start (x : Z) (t : SVS_Index_List) : SVS_Index_List :=
  let '(Build_SVS_Index_List n a b l _ q e f c i) := t in Build_SVS_Index_List n a b l x q e f c i.
Definition set_db_list (x : list IndexInfo) (t : SVS_Index_List) : SVS_Index_List :=
  let '(Build_SVS_Index_List n a b l d _ e f c i) := t in Build_SVS_Index_List n a b l d x e f c i.
Definition set_last_local (x : Z) (t : SVS_Index_List) : SVS_Index_List :=
  let '(Build_SVS_Index_List n a b l d q _ f c i) := t in Build_SVS_Index_List n a b l d q x f c i.
Definition set_last_db (x : Z) (t : SVS_Index_List) : SVS_Index_List :=
  let '(Build_SVS_Index_List n a b l d q e _ c i) := t in Build_SVS_Index_List n a b l d q e x c i.
Definition set_cur_size (x : Z) (t : SVS_Index_List) : SVS_Index_List :=
  let '(Build_SVS_Index_List n a b l d q e f _ i) := t in Build_SVS_Index_List n a b l d q e f x i.
Definition set_index_size (x : Z) (t : SVS_Index_List) : SVS_Index_List :=
  let '(Build_SVS_Index_List n a b l d q e f c _) := t in Build_SVS_Index_List n a b l d q e f c x.

(** The text of the device number. *)
Definition SetLocalizeDeviceId (pszDeviceId : list Z) : list Z :=
  take (Z.to_nat LOCALIZE_DEVICE_ID_MAX_LEN) pszDeviceId.

Abbreviation iop A := (M SVS_Index_List Update_Record_Index A).

Section IndexList.
Context `{!LocalTime}.

Definition init (szDevID : list Z) : iop Z :=
  _ ← modify (set_device (SetLocalizeDeviceId szDevID));
  mret SVS_RESULT_OK.

Definition close : iop unit := modify (fun _ => reset).

(** The directory of the file: what is before the device number, without the
    character between them. *)
Definition file_path (dev szFilePath : list Z) : option (list Z) :=
  match find dev szFilePath with
  | None => Some []
  | Some pos => if pos =? 0 then None else Some (take (Z.to_nat (pos - 1)) szFilePath)
  end.

Definition sendDBRecordIndex (nType : RECORD_INDEX_SET_TYPE) (nChangeBeforeStartTime nStartTime nEndTime ullDataSize : Z)
    (szFilePath : list Z) (iRecordStopFlag : Z) : iop unit :=
  t ← get;
  path ← lift (file_path (m_szDeviceID t) szFilePath);
  let ullDataSize := if ullDataSize =? 0 then RTRECORD_UNIT_K else ullDataSize in
  tell {| u_Type := nType; u_LensId := m_szDeviceID t; u_ChangeBeforeStartTime := nChangeBeforeStartTime;
          u_StartTime := nStartTime; u_EndTime := nEndTime; u_VideoFlux := ullDataSize / RTRECORD_UNIT_K;
          u_RecordReportType := if iRecordStopFlag =? 0 then REPORT_INDEX_TYPE_NORMAL else REPORT_INDEX_TYPE_OVER;
          u_RecordFilePath := path |}.

(** [(ull / (uint64_t)(a - b)) * (uint64_t)(c - d)]. *)
Definition share (ull a b c d : Z) : iop Z :=
  if u64 (a - b) =? 0 then fault else mret (u64 (ull / u64 (a - b) * u64 (c - d))).

(** What a turn of the loop does with a segment; the type and the flag for the next. *)
Definition send_segment (s : IndexInfo) (stopFlag indexStartTime indexStopTime : Z) (operType : RECORD_INDEX_SET_TYPE)
    (iLocalRecordStopFlag : Z) : iop (RECORD_INDEX_SET_TYPE * Z) :=
  let iLocal := if stopFlag =? 0 then iRecordStopFlag s else iLocalRecordStopFlag in
  '(operType, ullFileSize, dbStartTime) ←
    (if indexStartTime <? StartTime s then
       _ ← modify (set_db_start (StartTime s));
       _ ← modify (set_last_db (StartTime s));
       mret (RECORD_INDEX_TYPE_INSERT, VideoFlux s, StartTime s)
     else
       ullFileSize ← share (VideoFlux s) (StopTime s) (StartTime s) (StopTime s) indexStartTime;
       mret (operType, ullFileSize, indexStartTime));
  '(ullFileSize, dbStopTime) ←
    (if indexStopTime <? StopTime s then
       ullFileSize ← share ullFileSize (StopTime s) dbStartTime indexStopTime dbStartTime;
       mret (ullFileSize, indexStopTime)
     else mret (ullFileSize, StopTime s));
  r ← (if bool_decide (tm_yday dbStartTime <> tm_yday dbStopTime) then
         let stop_time := midnight dbStopTime in
         _ ← modify (fun t => set_index_size (m_ullCurFileSize t) t);
         ullFileSize ← share ullFileSize dbStopTime dbStartTime stop_time dbStartTime;
         _ ← sendDBRecordIndex operType 0 dbStartTime (stop_time - 1) ullFileSize (RecordFileName s) 1;
         _ ← sendDBRecordIndex RECORD_INDEX_TYPE_INSERT 0 stop_time dbStopTime RTRECORD_UNIT_K (RecordFileName s) 0;
         _ ← modify (set_db_start stop_time);
         _ ← modify (set_last_db stop_time);
         mret (operType, 0)
       else
         _ ← sendDBRecordIndex operType 0 dbStartTime dbStopTime ullFileSize (RecordFileName s) iLocal;
         mret (operType, iLocal));
  _ ← modify (set_last_local dbStopTime);
  mret r.

(** Whether a segment that reaches [indexStopTime] was found. *)
Fixpoint part_loop (l : list IndexInfo) (stopFlag indexStartTime indexStopTime : Z) (operType : RECORD_INDEX_SET_TYPE)
    (iLocalRecordStopFlag : Z) : iop bool :=
  match l with
  | [] => mret false
  | s :: l =>
    if negb (StartTime s <? indexStopTime) then mret false
    else if StopTime s <=? indexStartTime then part_loop l stopFlag indexStartTime indexStopTime operType iLocalRecordStopFlag
    else
      r ← send_segment s stopFlag indexStartTime indexStopTime operType iLocalRecordStopFlag;
      if indexStopTime <=? StopTime s then mret true
      else part_loop l stopFlag indexStartTime indexStopTime r.1 r.2
  end.

Definition partitionDBRecordIndex (operType : RECORD_INDEX_SET_TYPE) (indexStartTime indexStopTime stopFlag : Z) : iop Z :=
  t ← get;
  bLocalFlag ← part_loop (m_localIndexList t) stopFlag indexStartTime indexStopTime operType stopFlag;
  mret (if bLocalFlag : bool then SVS_RESULT_OK else SVS_RESULT_FAILURE).

Definition processDBIndex (startTime stopTime : Z) : iop Z :=
  t ← get;
  if m_localIndexStopTime t <=? startTime then mret SVS_RESULT_OK
  else if (stopTime <=? startTime) && negb (stopTime =? 0) then mret SVS_RESULT_OK
  else
    '(operType, indexStartTime) ←
      (if negb (m_dbIndexStartTime t =? 0) then mret (RECORD_INDEX_TYPE_UPDATE, m_dbIndexStartTime t)
       else
         let indexStartTime := if startTime <? m_lastLocalIndexTime t then m_lastLocalIndexTime t else startTime in
         _ ← modify (set_db_start indexStartTime);
         _ ← modify (set_last_db indexStartTime);
         mret (RECORD_INDEX_TYPE_INSERT, indexStartTime));
    let indexStopTime :=
      if (stopTime =? 0) || (m_localIndexStopTime t <? stopTime) then m_localIndexStopTime t else stopTime in
    let stopFlag := if negb (stopTime =? 0) && (stopTime <=? indexStopTime) then 1 else 0 in
    partitionDBRecordIndex operType indexStartTime indexStopTime stopFlag.

(** The plans that are left. *)
Fixpoint db_loop (l : list IndexInfo) : iop (list IndexInfo) :=
  match l with
  | [] => mret []
  | i :: l' =>
    nRet ← processDBIndex (StartTime i) (StopTime i);
    if negb (nRet =? SVS_RESULT_OK) then mret l
    else
      t ← get;
      if negb (StopTime i =? 0) && (StopTime i <=? m_localIndexStopTime t) then
        _ ← modify (set_db_start 0);
        db_loop l'
      else mret l
  end.

Definition handleDBIndex : iop unit :=
  t ← get;
  l ← db_loop (m_dbIndexList t);
  modify (set_db_list l).

(** The first segment that starts at [firstTime]; [None]: there is none. *)
Fixpoint update_segment (firstTime lastTime ullFileSize flag : Z) (l : list IndexInfo) : option (list IndexInfo) :=
  match l with
  | [] => None
  | s :: l =>
    if StartTime s =? firstTime then
      Some ({| StartTime := StartTime s; StopTime := lastTime; VideoFlux := ullFileSize; iRecordStopFlag := flag;
               RecordFileName := RecordFileName s |} :: l)
    else l ← update_segment firstTime lastTime ullFileSize flag l; Some (s :: l)
  end.

(** [szFileName]: [None] for NULL. *)
Definition updateLocalIndex (firstTime lastTime ullWriteSize : Z) (szFileName : option (list Z)) (flag : Z) : iop Z :=
  t ← get;
  r ← (if negb (firstTime =? m_localIndexStartTime t) then
         match szFileName with
         | None => mret SVS_ERR_PARAM
         | Some name =>
           if lastTime <? firstTime then mret SVS_ERR_PARAM
           else
             _ ← modify (fun t => set_index_size (m_ullCurFileSize t) t);
             let ullFileSize := u64 (ullWriteSize - m_ullCurFileSize t) in
             _ ← modify (set_local_start firstTime);
             let s := {| StartTime := firstTime; StopTime := lastTime; VideoFlux := ullFileSize; iRecordStopFlag := flag;
                         RecordFileName := name |} in
             _ ← modify (fun t => set_local_list (m_localIndexList t ++ [s]) t);
             t ← get;
             match m_localIndexList t with
             | front :: (next :: _) as rest =>
               if SVS_PRORECORD_MAX_TIME <? firstTime - StopTime front then
                 _ ← modify (set_local_list rest);
                 _ ← modify (set_last_local (StartTime next));
                 mret SVS_RESULT_OK
               else mret SVS_RESULT_OK
             | _ => mret SVS_RESULT_OK
             end
         end
       else
         match update_segment firstTime lastTime (u64 (ullWriteSize - m_ullIndexFileSize t)) flag (m_localIndexList t) with
         | Some l => _ ← modify (set_local_list l); mret SVS_RESULT_OK
         | None => mret SVS_RESULT_FAILURE
         end);
  if negb (r =? SVS_RESULT_OK) then mret r
  else
    _ ← modify (set_cur_size ullWriteSize);
    _ ← modify (set_local_stop lastTime);
    _ ← modify (fun t => if m_lastLocalIndexTime t =? 0 then set_last_local firstTime t else t);
    t ← get;
    if m_localIndexStopTime t <=? m_lastDBIndexTime t then mret SVS_RESULT_OK
    else _ ← handleDBIndex; mret SVS_RESULT_OK.

Fixpoint update_plan (startTime stopTime : Z) (l : list IndexInfo) : list IndexInfo :=
  match l with
  | [] => [{| StartTime := startTime; StopTime := stopTime; VideoFlux := 0; iRecordStopFlag := 0; RecordFileName := [] |}]
  | i :: l =>
    if StartTime i =? startTime then
      {| StartTime := StartTime i; StopTime := stopTime; VideoFlux := VideoFlux i; iRecordStopFlag := iRecordStopFlag i;
         RecordFileName := RecordFileName i |} :: l
    else i :: update_plan startTime stopTime l
  end.

Definition updateDBIndex (startTime stopTime : Z) : iop Z :=
  if startTime =? 0 then mret SVS_RESULT_FAILURE
  else
    _ ← modify (fun t => set_db_list (update_plan startTime stopTime (m_dbIndexList t)) t);
    mret SVS_RESULT_OK.

Definition updateDBIndexStartTime (startTime : Z) : iop Z :=
  _ ← modify (fun t =>
    if negb (m_dbIndexStartTime t =? 0) && (m_dbIndexStartTime t <? startTime) then set_db_start startTime t else t);
  mret SVS_RESULT_OK.

Definition LastDBRecordIndex : iop Z := t ← get; mret (m_lastDBIndexTime t).
End IndexList.

(** ** Requests *)

(** A [time_t]. *)
Definition time_ok (z : Z) : Prop := - 2 ^ 63 <= z < 2 ^ 63.

(** A day begins in it, at a time of its own day; the clock is not put back. *)
Class LocalTimeLaws `{!LocalTime} : Prop := {
  midnight_same : forall t s, midnight t <= s <= t -> tm_yday s = tm_yday t;
  midnight_le : forall t, midnight t <= t;
  midnight_ok : forall t, time_ok t -> time_ok (midnight t) }.

Section Requests.
Context `{!LocalTime, !LocalTimeLaws}.
Implicit Types (t : SVS_Index_List).

Definition request (u : Update_Record_Index) : RECORD_INDEX_SET_TYPE * Z * Z := (u_Type u, u_StartTime u, u_EndTime u).

(** A stretch of time is cut at the last midnight. *)
Definition cut (a b : Z) : list (Z * Z) :=
  if bool_decide (tm_yday a <> tm_yday b) then [(a, midnight b - 1); (midnight b, b)] else [(a, b)].
Definition cut_start (a b : Z) : Z := if bool_decide (tm_yday a <> tm_yday b) then midnight b else a.

Definition requests (ty : RECORD_INDEX_SET_TYPE) (l : list (Z * Z)) : list (RECORD_INDEX_SET_TYPE * Z * Z) :=
  match l with
  | [] => []
  | (a, b) :: l => (ty, a, b) :: ((fun e => (RECORD_INDEX_TYPE_INSERT, e.1, e.2)) <$> l)
  end.

(** What the requests leave. *)
Record same_base t t' : Prop := {
  sb_device : m_szDeviceID t' = m_szDeviceID t; sb_start : m_localIndexStartTime t' = m_localIndexStartTime t;
  sb_stop : m_localIndexStopTime t' = m_localIndexStopTime t; sb_list : m_localIndexList t' = m_localIndexList t;
  sb_plans : m_dbIndexList t' = m_dbIndexList t; sb_size : m_ullCurFileSize t' = m_ullCurFileSize t }.

Lemma same_base_refl t : same_base t t.
Proof. done. Qed.
Lemma same_base_trans t t' t'' : same_base t t' -> same_base t' t'' -> same_base t t''.
Proof. intros [] []. split; congruence. Qed.

Definition path_ok (dev name : list Z) : Prop := is_Some (file_path dev name).

Lemma wp_share ull a b c d (P : Z -> SVS_Index_List -> list Update_Record_Index -> Prop) t : time_ok a -> time_ok b -> a <> b ->
  (forall x, P x t []) -> wp (share ull a b c d) P t.
Proof.
  unfold time_ok. intros Ha Hb Hne HP. unfold share. destruct (Z.eqb_spec (u64 (a - b)) 0) as [E|E]; [|by wp_step].
  exfalso. unfold u64, wrap in E. apply Z.mod_divide in E; [|lia]. destruct E as [k E]. nia.
Qed.

Lemma wp_send_record ty x a b ull name flag (P : unit -> SVS_Index_List -> list Update_Record_Index -> Prop) t :
  path_ok (m_szDeviceID t) name -> (forall u, request u = (ty, a, b) -> P tt t [u]) ->
  wp (sendDBRecordIndex ty x a b ull name flag) P t.
Proof.
  intros [path Hp] HP. unfold sendDBRecordIndex. do 3 wp_step. eapply wp_lift; [exact Hp|]. wp_step. by apply HP.
Qed.

Lemma send_segment_ok s stopFlag a e ty il t : path_ok (m_szDeviceID t) (RecordFileName s) ->
  time_ok (StartTime s) -> time_ok (StopTime s) -> time_ok a -> time_ok e -> a < StopTime s -> StartTime s < e ->
  wp (send_segment s stopFlag a e ty il) (fun _ t' o =>
    let a0 := if a <? StartTime s then StartTime s else a in
    let b0 := if e <? StopTime s then e else StopTime s in
    request <$> o = requests (if a <? StartTime s then RECORD_INDEX_TYPE_INSERT else ty) (cut a0 b0) /\ same_base t t' /\
    (a < StartTime s \/ m_dbIndexStartTime t = a -> m_dbIndexStartTime t' = cut_start a0 b0) /\
    (a < StartTime s \/ m_lastDBIndexTime t = a -> m_lastDBIndexTime t' = cut_start a0 b0) /\
    (time_ok (m_dbIndexStartTime t) -> time_ok (m_dbIndexStartTime t')) /\ m_lastLocalIndexTime t' = b0) t.
Proof.
  intros Hp Hs1 Hs2 Ha He H1 H2. unfold send_segment. cbv zeta. set (il0 := if stopFlag =? 0 then _ else _). clearbody il0.
  set (a0 := if a <? StartTime s then StartTime s else a). set (b0 := if e <? StopTime s then e else StopTime s).
  set (ty0 := if a <? StartTime s then RECORD_INDEX_TYPE_INSERT else ty).
  assert (time_ok a0 /\ time_ok b0 /\ (e < StopTime s -> StopTime s <> a0)) as (Ha0 & Hb0 & Hne).
  { unfold a0, b0, time_ok in *. destruct (Z.ltb_spec a (StartTime s)), (Z.ltb_spec e (StopTime s)); lia. }
  wp_step. eapply (wp_mono _ (fun '(x, ull, y) t' o => x = ty0 /\ y = a0 /\ o = [] /\ same_base t t' /\
    (a < StartTime s \/ m_dbIndexStartTime t = a -> m_dbIndexStartTime t' = a0) /\
    (a < StartTime s \/ m_lastDBIndexTime t = a -> m_lastDBIndexTime t' = a0) /\
    (time_ok (m_dbIndexStartTime t) -> time_ok (m_dbIndexStartTime t')))).
  { unfold a0, ty0. destruct (Z.ltb_spec a (StartTime s)).
    - do 5 wp_step. destruct t. cbn. by split_and!.
    - wp_step. apply wp_share; [done|done|lia|]. intros x. wp_step. split_and!; try done; intros [?|?]; (lia || done). }
  intros [[x ull] y] t1 o1 (-> & -> & -> & Hsb & Hd & Hl & Ht). cbv beta iota.
  wp_step. eapply (wp_mono _ (fun '(_, y) t' o => y = b0 /\ o = [] /\ t' = t1)).
  { unfold b0. destruct (Z.ltb_spec e (StopTime s)); wp_step; [|done].
    apply wp_share; [done|done|auto|]. intros x. by wp_step. }
  intros [ull1 y] t2 o2 (-> & -> & ->). cbv beta iota. cbn [app].
  assert (Hp1 : path_ok (m_szDeviceID t1) (RecordFileName s)) by (by rewrite (sb_device _ _ Hsb)).
  clear Hp. wp_step. unfold cut, cut_start.
  destruct (bool_decide_reflect (tm_yday a0 <> tm_yday b0)) as [Hy|Hy].
  - do 2 wp_step. wp_step. apply wp_share; [done|done|congruence|]. intros ull2.
    wp_step. apply wp_send_record; [by destruct t1|]. intros u1 Hu1.
    wp_step. apply wp_send_record; [by destruct t1|]. intros u2 Hu2. do 7 wp_step.
    pose proof (midnight_ok b0 Hb0). destruct t, t1, Hsb. cbn in *. rewrite Hu1, Hu2. by split_and!.
  - wp_step. apply wp_send_record; [done|]. intros u1 Hu1. do 3 wp_step.
    destruct t, t1, Hsb. cbn in *. rewrite Hu1. by split_and!.
Qed.

(** ** No call faults *)

Definition segment_ok (dev : list Z) (s : IndexInfo) : Prop :=
  time_ok (StartTime s) /\ time_ok (StopTime s) /\ path_ok dev (RecordFileName s).
Record idx_ok (dev : list Z) t : Prop := {
  io_device : m_szDeviceID t = dev;
  io_stop : time_ok (m_localIndexStopTime t);
  io_segments : Forall (segment_ok dev) (m_localIndexList t);
  io_plans : Forall (fun i => time_ok (StartTime i) /\ time_ok (StopTime i)) (m_dbIndexList t);
  io_db : time_ok (m_dbIndexStartTime t);
  io_last : time_ok (m_lastLocalIndexTime t) }.

Lemma part_loop_ok dev l stopFlag a e ty il t : idx_ok dev t -> Forall (segment_ok dev) l -> time_ok a -> time_ok e ->
  wp (part_loop l stopFlag a e ty il) (fun _ t' _ => idx_ok dev t' /\ same_base t t') t.
Proof.
  intros Ht Hl Ha He. revert ty il t Ht. induction Hl as [|s l [Hs1 [Hs2 Hp]] Hl IH]; intros ty il t Ht; cbn [part_loop].
  { wp_step. by split. }
  destruct (Z.ltb_spec (StartTime s) e); cbn [negb]; [|by wp_step].
  destruct (Z.leb_spec (StopTime s) a); [by apply IH|].
  wp_step. eapply wp_mono; [apply send_segment_ok; try done; by rewrite (io_device _ _ Ht)|].
  intros r t1 o1 (_ & Hsb & _ & _ & Hd & Hlast).
  assert (Ht1 : idx_ok dev t1).
  { destruct Ht, Hsb. split; try congruence; [auto|]. rewrite Hlast. by destruct (e <? StopTime s). }
  destruct (e <=? StopTime s).
  - wp_step. done.
  - eapply wp_mono; [by apply IH|]. intros r' t2 o2 [Ht2 Hs]. split; [done|]. by eapply same_base_trans.
Qed.

Lemma set_marks_ok dev x t : time_ok x -> idx_ok dev t -> idx_ok dev (set_last_db x (set_db_start x t)).
Proof. intros Hx []. by destruct t. Qed.

Lemma processDBIndex_ok dev a e t : idx_ok dev t -> time_ok a -> time_ok e ->
  wp (processDBIndex a e) (fun _ t' _ => idx_ok dev t' /\ m_dbIndexList t' = m_dbIndexList t) t.
Proof.
  intros Ht Ha He. unfold processDBIndex. do 2 wp_step. destruct (_ <=? a); [by wp_step|].
  destruct (_ && _); [by wp_step|].
  wp_step. eapply (wp_mono _ (fun '(_, x) t' _ => time_ok x /\ idx_ok dev t' /\ m_dbIndexList t' = m_dbIndexList t)).
  { destruct (negb _).
    - wp_step. split_and!; [apply Ht|done|done].
    - assert (time_ok (if a <? m_lastLocalIndexTime t then m_lastLocalIndexTime t else a)) as Hx
        by (destruct (_ <? _); [apply Ht|done]).
      do 5 wp_step. split_and!; [done|by apply set_marks_ok|by destruct t]. }
  intros [ty x] t1 o1 (Hx & Ht1 & Heq). cbv beta iota. unfold partitionDBRecordIndex. do 3 wp_step.
  eapply wp_mono; [apply (part_loop_ok dev); [done|apply Ht1|done|]|].
  - destruct (_ || _); [apply Ht|done].
  - intros r t2 o2 [H2 Hsb]. wp_step. split; [done|]. by rewrite (sb_plans _ _ Hsb).
Qed.

Lemma db_loop_ok dev l t : idx_ok dev t -> Forall (fun i => time_ok (StartTime i) /\ time_ok (StopTime i)) l ->
  wp (db_loop l) (fun l' t' _ => idx_ok dev t' /\ suffix l' l) t.
Proof.
  intros Ht Hl. revert t Ht. induction Hl as [|i l [H1 H2] Hl IH]; intros t Ht; cbn [db_loop]; [by wp_step|].
  wp_step. eapply wp_mono; [by apply processDBIndex_ok|]. intros r t1 o1 [Ht1 _].
  destruct (negb _); [by wp_step|]. do 2 wp_step. destruct (_ && _); [|by wp_step].
  do 2 wp_step. eapply wp_mono; [apply IH|].
  - destruct Ht1. by destruct t1.
  - intros l' t2 o2 [? ?]. split; [done|]. by apply suffix_cons_r.
Qed.

Lemma handleDBIndex_ok dev t : idx_ok dev t -> wp handleDBIndex (fun _ t' _ => idx_ok dev t') t.
Proof.
  intros Ht. unfold handleDBIndex. do 3 wp_step. eapply wp_mono; [apply db_loop_ok; [done|apply Ht]|].
  intros l t1 o1 [Ht1 Hl]. wp_step. destruct Ht1, Ht. destruct t1. cbn in *. split; try done.
  destruct Hl as [k Hl]. rewrite Hl in io_plans1. by apply Forall_app in io_plans1 as [_ ?].
Qed.

(** The reports of the recording thread, the plans, and the life of the list. *)
Inductive index_op : Type :=
  | OpLocal (firstTime lastTime ullWriteSize : Z) (szFileName : option (list Z)) (flag : Z)
  | OpPlan (startTime stopTime : Z)
  | OpPlanStart (startTime : Z)
  | OpReopen (szDevID : list Z).

Definition index_op_ok (dev : list Z) (o : index_op) : Prop :=
  match o with
  | OpLocal f l _ name _ => time_ok f /\ time_ok l /\ (forall n, name = Some n -> path_ok dev n)
  | OpPlan a b => time_ok a /\ time_ok b
  | OpPlanStart a => time_ok a
  | OpReopen id => SetLocalizeDeviceId id = dev
  end.

Definition index_step (o : index_op) : iop Z :=
  match o with
  | OpLocal f l size name flag => updateLocalIndex f l size name flag
  | OpPlan a b => updateDBIndex a b
  | OpPlanStart a => updateDBIndexStartTime a
  | OpReopen id => _ ← close; init id
  end.

Fixpoint index_run (os : list index_op) : iop unit :=
  match os with [] => mret tt | o :: os => _ ← index_step o; index_run os end.

Lemma update_segment_ok dev f l size flag segs segs' : time_ok l -> Forall (segment_ok dev) segs ->
  update_segment f l size flag segs = Some segs' -> Forall (segment_ok dev) segs'.
Proof.
  intros Hl Hs. revert segs'. induction Hs as [|s segs (? & ? & ?) Hs IH]; intros segs' E; cbn in E; [done|].
  destruct (_ =? _); [simplify_eq; by constructor|].
  destruct (update_segment f l size flag segs) eqn:Es; cbn in E; simplify_eq. constructor; [done|auto].
Qed.

Lemma updateLocalIndex_ok dev f l size name flag t : idx_ok dev t -> index_op_ok dev (OpLocal f l size name flag) ->
  wp (updateLocalIndex f l size name flag) (fun _ t' _ => idx_ok dev t') t.
Proof.
  intros Ht (Hf & Hl & Hn). unfold updateLocalIndex. do 3 wp_step.
  eapply (wp_mono _ (fun _ t' _ => idx_ok dev t')).
  { destruct (negb _).
    - destruct name as [name|]; [|by wp_step]. destruct (_ <? _); [by wp_step|].
      do 2 wp_step. cbv zeta. do 6 wp_step.
      set (s0 := Build_IndexInfo _ _ _ _ _). assert (Hs0 : segment_ok dev s0) by (split_and!; [done|done|by apply Hn]).
      clearbody s0.
      set (t1 := set_local_list _ _). assert (Ht1 : idx_ok dev t1).
      { unfold t1. destruct Ht, t. cbn in *. split; try done. cbn. by apply Forall_app_2; [|constructor]. }
      clearbody t1. destruct (m_localIndexList t1) as [|x [|y r]] eqn:El; [by wp_step|by wp_step|].
      destruct (_ <? _); [|by wp_step]. do 5 wp_step. destruct Ht1, t1. cbn in *. subst.
      apply Forall_cons in io_segments0 as [_ Hs]. split; try done. apply Forall_cons in Hs as [(? & ? & ?) _]. done.
    - destruct (update_segment _ _ _ _ _) as [segs|] eqn:Es; [|by wp_step].
      do 3 wp_step. eapply update_segment_ok in Es; [|done|apply Ht]. by destruct Ht, t. }
  intros r t1 o1 Ht1. destruct (negb _); [by wp_step|].
  do 7 wp_step.
  set (t2 := if _ =? 0 then _ else _). assert (Ht2 : idx_ok dev t2).
  { unfold t2. destruct Ht1, t1. cbn in *. destruct (_ =? _); by split. }
  clearbody t2. wp_step. destruct (_ <=? _); [by wp_step|].
  wp_step. eapply wp_mono; [by apply handleDBIndex_ok|]. intros [] t3 o3 Ht3. by wp_step.
Qed.

Lemma update_plan_ok a b l : time_ok a -> time_ok b -> Forall (fun i => time_ok (StartTime i) /\ time_ok (StopTime i)) l ->
  Forall (fun i => time_ok (StartTime i) /\ time_ok (StopTime i)) (update_plan a b l).
Proof.
  intros Ha Hb Hl. induction Hl as [|i l [? ?] Hl IH]; cbn; [by constructor|].
  destruct (_ =? _); by constructor.
Qed.

Lemma index_step_ok dev o t : idx_ok dev t -> index_op_ok dev o -> wp (index_step o) (fun _ t' _ => idx_ok dev t') t.
Proof.
  intros Ht Ho. destruct o as [f l size name flag|a b|a|id]; cbn [index_step].
  - by apply updateLocalIndex_ok.
  - destruct Ho. unfold updateDBIndex. destruct (_ =? _); [by wp_step|]. do 3 wp_step.
    pose proof (update_plan_ok a b (m_dbIndexList t)). destruct Ht, t. cbn in *. split; auto.
  - unfold updateDBIndexStartTime. do 3 wp_step. destruct Ht, t. cbn in *. by destruct (_ && _).
  - cbn in Ho. unfold close, init. do 5 wp_step. by split.
Qed.

(** No call of the index list faults: from an empty list, whatever segments,
    plans and notifications come, in whatever order and with whatever times, the sizes
    are never divided by a stretch of no time, and the list's times stay times; the
    names of the files must hold the device number behind their directory. *)
Theorem index_no_fault dev os : Forall (index_op_ok dev) os ->
  exists t o, index_run os (set_device dev reset) = Some (tt, t, o) /\ idx_ok dev t.
Proof.
  intros Hos. assert (Ht : idx_ok dev (set_device dev reset)) by by split.
  enough (wp (index_run os) (fun _ t' _ => idx_ok dev t') (set_device dev reset)) as Hw
    by (apply wp_elim in Hw as ([] & t & o & -> & ?); eauto).
  generalize dependent (set_device dev reset). induction Hos as [|o os Ho Hos IH]; intros t Ht; cbn [index_run]; [by wp_step|].
  wp_step. eapply wp_mono; [by apply index_step_ok|]. auto.
Qed.

(** ** The data base has what was recorded since the plan began *)

(** The records of the camera, the newest first. An update is of the newest record. *)
Definition db_apply (db : option (list (Z * Z))) (r : RECORD_INDEX_SET_TYPE * Z * Z) : option (list (Z * Z)) :=
  db ← db;
  match r with
  | (RECORD_INDEX_TYPE_INSERT, a, b) => Some ((a, b) :: db)
  | (RECORD_INDEX_TYPE_UPDATE, a, b) =>
    match db with (x, _) :: db' => if a =? x then Some ((a, b) :: db') else None | [] => None end
  | (RECORD_INDEX_TYPE_OVERWRITE, _, _) => None
  end.
Definition data_base (db : list (Z * Z)) (o : list Update_Record_Index) : option (list (Z * Z)) :=
  foldl db_apply (Some db) (request <$> o).

Definition covered (db : list (Z * Z)) (x : Z) : Prop := exists a b, (a, b) ∈ db /\ a <= x <= b.
Definition recorded (from : Z) (segs : list (Z * Z)) (x : Z) : Prop :=
  exists a b, (a, b) ∈ segs /\ from < b /\ from <= x /\ a <= x <= b.

(** The records do not overlap and are in order. *)
Fixpoint in_order (db : list (Z * Z)) : Prop :=
  match db with
  | (a, b) :: (((a', b') :: _) as db') => a' < a /\ b' <= a /\ a <= b /\ in_order db'
  | [(a, b)] => a <= b
  | [] => True
  end.

(** The record of a stretch of time, in one or two parts. *)
Definition pushes (a b : Z) (db : list (Z * Z)) : list (Z * Z) := reverse (cut a b) ++ db.

Lemma data_base_app db db' o o' : data_base db o = Some db' -> data_base db (o ++ o') = data_base db' o'.
Proof. unfold data_base. intros E. by rewrite fmap_app, foldl_app, E. Qed.

Lemma data_base_insert a b db o : request <$> o = requests RECORD_INDEX_TYPE_INSERT (cut a b) ->
  data_base db o = Some (pushes a b db).
Proof. intros E. unfold data_base, pushes. rewrite E. unfold cut. by destruct (bool_decide _). Qed.
Lemma data_base_update a b e db o : request <$> o = requests RECORD_INDEX_TYPE_UPDATE (cut a b) ->
  data_base ((a, e) :: db) o = Some (pushes a b db).
Proof.
  intros E. unfold data_base, pushes. rewrite E. unfold cut.
  destruct (bool_decide _); cbn; by rewrite Z.eqb_refl.
Qed.

Lemma cut_midnight a b : a <= b -> tm_yday a <> tm_yday b -> a < midnight b <= b.
Proof.
  intros Hab Hy. pose proof (midnight_le b). split; [|done]. destruct (decide (a < midnight b)); [done|].
  destruct Hy. apply midnight_same. lia.
Qed.

Lemma cut_start_bounds a b : a <= b -> a <= cut_start a b <= b.
Proof.
  intros H1. unfold cut_start. destruct (bool_decide_reflect (tm_yday a <> tm_yday b)) as [Hy|]; [|lia].
  pose proof (cut_midnight a b H1 Hy). lia.
Qed.

Lemma cut_start_day a b : a <= b -> tm_yday (cut_start a b) = tm_yday b.
Proof.
  intros H1. unfold cut_start. destruct (bool_decide_reflect (tm_yday a <> tm_yday b)) as [Hy|Hy].
  - pose proof (midnight_le b). apply midnight_same. lia.
  - destruct (decide (tm_yday a = tm_yday b)); tauto.
Qed.

Lemma pushes_head a b db : exists db', pushes a b db = (cut_start a b, b) :: db'.
Proof. unfold pushes, cut, cut_start. destruct (bool_decide _); cbn; eauto. Qed.

Lemma covered_cons a b db x : covered ((a, b) :: db) x <-> a <= x <= b \/ covered db x.
Proof.
  unfold covered. split.
  - intros (a' & b' & Hin & ?). apply elem_of_cons in Hin as [[= -> ->]|]; [by left|right; eauto].
  - intros [?|(a' & b' & ? & ?)]; [exists a, b|exists a', b']; (split; [|done]); [left|by right].
Qed.

Lemma covered_pushes a b db x : a <= b -> covered (pushes a b db) x <-> a <= x <= b \/ covered db x.
Proof.
  intros H1. unfold pushes, cut. destruct (bool_decide_reflect (tm_yday a <> tm_yday b)) as [Hy|Hy]; cbn.
  - pose proof (cut_midnight a b H1 Hy). rewrite !covered_cons. split; [intros [?|[?|?]]|intros [?|?]]; try (left; lia); auto.
    destruct (decide (x < midnight b)); [right; left|left]; lia.
  - by rewrite covered_cons.
Qed.

Lemma in_order_tail a b db : in_order ((a, b) :: db) ->
  match db with (a', b') :: _ => a' < a /\ b' <= a | [] => True end /\ in_order db.
Proof. destruct db as [|[a' b'] db]; cbn; tauto. Qed.

Lemma in_order_push a b db : a <= b -> match db with (a', b') :: _ => a' < a /\ b' <= a | [] => True end ->
  in_order db -> in_order ((a, b) :: db).
Proof. intros H1 H2 H3. destruct db as [|[a' b'] db]; cbn; [done|]. destruct H2. by split_and!. Qed.

Lemma in_order_pushes a b db : a <= b -> match db with (a', b') :: _ => a' < a /\ b' <= a | [] => True end ->
  in_order db -> in_order (pushes a b db).
Proof.
  intros H1 H2 H3. unfold pushes, cut. destruct (bool_decide_reflect (tm_yday a <> tm_yday b)) as [Hy|Hy]; cbn [reverse rev_append app].
  - pose proof (cut_midnight a b H1 Hy). apply in_order_push; [lia|lia|]. by apply in_order_push; [lia|..].
  - by apply in_order_push.
Qed.

(** *** What a turn of the plan sends *)

Definition open_plan (a : Z) : IndexInfo :=
  {| StartTime := a; StopTime := 0; VideoFlux := 0; iRecordStopFlag := 0; RecordFileName := [] |}.

Lemma part_skip pre l sf a e ty il : Forall (fun y => StartTime y < e /\ StopTime y <= a) pre ->
  part_loop (pre ++ l) sf a e ty il = part_loop l sf a e ty il.
Proof.
  induction 1 as [|y pre [Hy1 Hy2] Hpre IH]; cbn [app part_loop]; [done|].
  by rewrite (proj2 (Z.ltb_lt _ _) Hy1), (proj2 (Z.leb_le _ _) Hy2).
Qed.

(** What a segment sends, up to its end. *)
Definition sent (x : IndexInfo) (a e : Z) (ty : RECORD_INDEX_SET_TYPE) t t' (o : list Update_Record_Index) : Prop :=
  let a0 := if a <? StartTime x then StartTime x else a in
  request <$> o = requests (if a <? StartTime x then RECORD_INDEX_TYPE_INSERT else ty) (cut a0 e) /\ same_base t t' /\
  (a < StartTime x \/ m_dbIndexStartTime t = a -> m_dbIndexStartTime t' = cut_start a0 e) /\
  (a < StartTime x \/ m_lastDBIndexTime t = a -> m_lastDBIndexTime t' = cut_start a0 e).

Lemma part_segment dev x l sf a e ty il t : idx_ok dev t -> segment_ok dev x -> time_ok a -> time_ok e ->
  StartTime x < e -> a < StopTime x <= e ->
  forall P : bool -> SVS_Index_List -> list Update_Record_Index -> Prop,
  (forall r t' o, sent x a (StopTime x) ty t t' o -> idx_ok dev t' ->
     if e <=? StopTime x then P true t' o
     else wp (part_loop l sf a e r.1 r.2) (fun b t'' o' => P b t'' (o ++ o')) t') ->
  wp (part_loop (x :: l) sf a e ty il) P t.
Proof.
  intros Ht (Hx1 & Hx2 & Hp) Ha He H1 H2 P HP. cbn [part_loop].
  rewrite (proj2 (Z.ltb_lt _ _) H1), (proj2 (Z.leb_gt _ _) (proj1 H2)). cbn [negb].
  wp_step. eapply wp_mono; [apply send_segment_ok; try done; [by rewrite (io_device _ _ Ht)|lia]|].
  intros r t1 o1 (Ho & Hsb & Hd & Hl & Hd' & Hlast).
  rewrite (proj2 (Z.ltb_ge _ _) (proj2 H2)) in *.
  assert (Ht1 : idx_ok dev t1) by (destruct Ht, Hsb; split; try congruence; auto).
  specialize (HP r t1 o1 (conj Ho (conj Hsb (conj Hd Hl))) Ht1).
  destruct (e <=? StopTime x); [by wp_step; rewrite app_nil_r|done].
Qed.

Lemma handle_open (s : Z) t (P : SVS_Index_List -> list Update_Record_Index -> Prop) : m_dbIndexList t = [open_plan s] ->
  wp (processDBIndex s 0) (fun _ t' o => m_dbIndexList t' = [open_plan s] /\ P t' o) t ->
  wp handleDBIndex (fun _ => P) t.
Proof.
  intros Hpl Hw. unfold handleDBIndex. do 3 wp_step. rewrite Hpl. cbn [db_loop]. wp_step.
  eapply wp_mono; [exact Hw|]. intros r t1 o1 [Ht1 HP]. cbn [StopTime open_plan]. cbn [Z.eqb negb andb].
  assert (E : set_db_list [open_plan s] t1 = t1) by (destruct t1; cbn in *; by subst).
  destruct (negb _); [|do 2 wp_step]; do 2 wp_step; rewrite E, ?app_nil_r; done.
Qed.

Lemma process_later (s : Z) t P : m_localIndexStopTime t <= s -> P t [] -> wp (processDBIndex s 0) (fun _ => P) t.
Proof. intros Hs HP. unfold processDBIndex. do 2 wp_step. rewrite (proj2 (Z.leb_le _ _) Hs). by wp_step. Qed.

Lemma process_active (s : Z) t P : s < m_localIndexStopTime t -> m_dbIndexStartTime t <> 0 ->
  wp (part_loop (m_localIndexList t) 0 (m_dbIndexStartTime t) (m_localIndexStopTime t) RECORD_INDEX_TYPE_UPDATE 0)
    (fun _ => P) t ->
  wp (processDBIndex s 0) (fun _ => P) t.
Proof.
  intros Hs Hd HP. unfold processDBIndex. do 2 wp_step. rewrite (proj2 (Z.leb_gt _ _) Hs). rewrite andb_false_r.
  rewrite (proj2 (Z.eqb_neq _ _) Hd). cbn [negb]. do 2 wp_step. cbv beta iota.
  unfold partitionDBRecordIndex. do 3 wp_step. cbn [Z.eqb orb negb andb].
  eapply wp_mono; [exact HP|]. intros r t1 o1 H1. cbv beta in *. wp_step. by rewrite app_nil_r.
Qed.

Lemma process_start (s : Z) t P : s < m_localIndexStopTime t -> m_dbIndexStartTime t = 0 ->
  let a := if s <? m_lastLocalIndexTime t then m_lastLocalIndexTime t else s in
  wp (part_loop (m_localIndexList t) 0 a (m_localIndexStopTime t) RECORD_INDEX_TYPE_INSERT 0) (fun _ => P)
    (set_last_db a (set_db_start a t)) ->
  wp (processDBIndex s 0) (fun _ => P) t.
Proof.
  intros Hs Hd a HP. unfold processDBIndex. do 2 wp_step. rewrite (proj2 (Z.leb_gt _ _) Hs). rewrite andb_false_r.
  rewrite Hd. cbn [Z.eqb negb]. do 6 wp_step. cbv beta iota.
  unfold partitionDBRecordIndex. do 3 wp_step. cbn [Z.eqb orb negb andb].
  replace (m_localIndexList _) with (m_localIndexList t) by by destruct t.
  eapply wp_mono; [exact HP|]. intros r t1 o1 H1. cbv beta in *. wp_step. by rewrite app_nil_r.
Qed.

(** The data base and the marks after a turn. *)
Record processed (db db' : list (Z * Z)) t t' (o : list Update_Record_Index) : Prop := {
  pr_base : same_base t t';
  pr_db : data_base db o = Some db';
  pr_marks : exists a b r, db' = (a, b) :: r /\ m_dbIndexStartTime t' = a /\ m_lastDBIndexTime t' = a }.

Lemma sent_insert x a e ty t t' o db : sent x a e ty t t' o -> a < StartTime x ->
  processed db (pushes (StartTime x) e db) t t' o.
Proof.
  intros (Ho & Hb & Hd & Hl) Ha. rewrite (proj2 (Z.ltb_lt _ _) Ha) in *.
  split; [done|by apply data_base_insert|]. destruct (pushes_head (StartTime x) e db) as [r ->].
  eexists _, _, r. split; [done|]. split; [apply Hd|apply Hl]; by left.
Qed.

Lemma sent_start x a e t t' o db : sent x a e RECORD_INDEX_TYPE_INSERT t t' o ->
  m_dbIndexStartTime t = a -> m_lastDBIndexTime t = a ->
  processed db (pushes (if a <? StartTime x then StartTime x else a) e db) t t' o.
Proof.
  intros (Ho & Hb & Hd & Hl) H1 H2.
  split; [done|apply data_base_insert; rewrite Ho; by destruct (_ <? _)|].
  edestruct pushes_head as [r ->]. eexists _, _, r. split; [done|]. split; [apply Hd|apply Hl]; by right.
Qed.

Lemma sent_update x a e b t t' o db : sent x a e RECORD_INDEX_TYPE_UPDATE t t' o -> StartTime x <= a ->
  m_dbIndexStartTime t = a -> m_lastDBIndexTime t = a ->
  processed ((a, b) :: db) (pushes a e db) t t' o.
Proof.
  intros (Ho & Hb & Hd & Hl) Ha H1 H2. rewrite (proj2 (Z.ltb_ge _ _) Ha) in *.
  split; [done|by apply data_base_update|]. destruct (pushes_head a e db) as [r ->].
  eexists _, _, r. split; [done|]. split; [apply Hd|apply Hl]; by right.
Qed.

Lemma processed_trans db db1 db2 t t1 t2 o o' : processed db db1 t t1 o -> processed db1 db2 t1 t2 o' ->
  processed db db2 t t2 (o ++ o').
Proof.
  intros [Hb1 Hd1 _] [Hb2 Hd2 Hm]. split; [by eapply same_base_trans| |done].
  by rewrite (data_base_app _ _ _ _ Hd1).
Qed.

(** The last segment of the list is the last of the loop. *)
Lemma part_last dev pre x sf a ty il t : idx_ok dev t -> segment_ok dev x -> time_ok a ->
  Forall (fun y => StartTime y < StopTime x /\ StopTime y <= a) pre -> StartTime x < StopTime x -> a < StopTime x ->
  forall P : SVS_Index_List -> list Update_Record_Index -> Prop,
  (forall t' o, sent x a (StopTime x) ty t t' o -> idx_ok dev t' -> P t' o) ->
  wp (part_loop (pre ++ [x]) sf a (StopTime x) ty il) (fun _ => P) t.
Proof.
  intros Ht Hx Ha Hpre H1 H2 P HP. rewrite part_skip by done.
  eapply part_segment; [done|done|done|apply Hx|done|lia|]. intros r t' o Hs Ht'. rewrite Z.leb_refl. auto.
Qed.

(** The segments before the last, and the last. *)
Definition segs_of (t : SVS_Index_List) (pre : list IndexInfo) (x : IndexInfo) : Prop :=
  m_localIndexList t = pre ++ [x] /\ m_localIndexStopTime t = StopTime x /\ 0 < StartTime x < StopTime x /\
  Forall (fun y => 0 < StartTime y < StopTime y /\ StopTime y <= StartTime x) pre.

Section Turn.
Context (dev : list Z) (s : Z) (t : SVS_Index_List) (pre : list IndexInfo) (x : IndexInfo).
Context (Ht : idx_ok dev t) (Hplan : m_dbIndexList t = [open_plan s]) (Hsegs : segs_of t pre x) (Hs : 0 < s < StopTime x).

Lemma segs_ok : Forall (segment_ok dev) pre /\ segment_ok dev x.
Proof using Ht Hsegs.
  clear Hplan. pose proof (io_segments _ _ Ht) as Hf. rewrite (proj1 Hsegs) in Hf. apply Forall_app in Hf as [? Hf].
  by apply Forall_cons in Hf as [? _].
Qed.

Lemma segs_skip p a : Forall (fun y => 0 < StartTime y < StopTime y /\ StopTime y <= StartTime x) p ->
  Forall (fun y => StopTime y <= a) p -> Forall (fun y => StartTime y < StopTime x /\ StopTime y <= a) p.
Proof using Hsegs.
  clear Hplan Ht. destruct Hsegs as (_ & _ & H1 & _). intros H2 H3. induction H2; [constructor|].
  apply Forall_cons in H3 as [? ?]. constructor; [lia|auto].
Qed.

Lemma turn_open P : wp (processDBIndex s 0) (fun _ t' o => same_base t t' /\ P t' o) t -> wp handleDBIndex (fun _ => P) t.
Proof using Hplan.
  intros Hw. apply (handle_open s); [done|]. eapply wp_mono; [exact Hw|]. intros r t' o [Hb HP]. split; [|done].
  by rewrite (sb_plans _ _ Hb).
Qed.

(** The plan begins in the last segment, or before it. *)
Lemma turn_start : m_dbIndexStartTime t = 0 -> m_lastLocalIndexTime t <= StartTime x ->
  Forall (fun y => StopTime y <= s) pre ->
  wp handleDBIndex (fun _ t' o => processed [] (pushes (Z.max s (StartTime x)) (StopTime x) []) t t' o /\ idx_ok dev t') t.
Proof using All.
  intros Hd Hl Hpre. destruct segs_ok as [Hp Hx]. destruct Hsegs as (El & Estop & Hb & Hpre').
  apply turn_open. apply process_start; [lia|done|]. rewrite El, Estop.
  set (a := if s <? m_lastLocalIndexTime t then m_lastLocalIndexTime t else s).
  assert (s <= a /\ a < StopTime x /\ (if a <? StartTime x then StartTime x else a) = Z.max s (StartTime x)) as (Ha1 & Ha2 & Ea).
  { unfold a. destruct (Z.ltb_spec s (m_lastLocalIndexTime t)).
    - destruct (Z.ltb_spec (m_lastLocalIndexTime t) (StartTime x)); lia.
    - destruct (Z.ltb_spec s (StartTime x)); lia. }
  assert (Hta : time_ok a) by (destruct Hx as (? & ? & _); unfold time_ok in *; lia).
  eapply part_last; [by apply set_marks_ok|done|done| |lia|lia|].
  { apply segs_skip; [done|]. eapply Forall_impl; [exact Hpre|]. cbn. lia. }
  intros t' o Hsent Ht'. clearbody a. eapply (sent_start _ _ _ _ _ _ []) in Hsent as [Hbase Hdb Hm]; [|by destruct t|by destruct t].
  assert (same_base t t') as Hb' by (destruct Hbase, t; by split). rewrite Ea in *.
  split; [done|]. by split.
Qed.

Section Active.
Context (db : list (Z * Z)) (a b : Z) (Ha : 0 < a) (Hdb : m_dbIndexStartTime t = a) (Hlast : m_lastDBIndexTime t = a).

Lemma active_ok : time_ok a.
Proof using Ht Hdb. rewrite <-Hdb. apply Ht. Qed.

(** The newest record is of the last segment. *)
Lemma turn_update : StartTime x <= a < StopTime x -> Forall (fun y => StopTime y <= a) pre ->
  wp handleDBIndex (fun _ t' o => processed ((a, b) :: db) (pushes a (StopTime x) db) t t' o /\ idx_ok dev t') t.
Proof using All.
  intros Hax Hpre. pose proof active_ok. destruct segs_ok as [Hp Hx]. destruct Hsegs as (El & Estop & Hb & Hpre').
  apply turn_open. apply process_active; [lia|lia|]. rewrite El, Estop, Hdb.
  eapply part_last; [done|done|done|by apply segs_skip|lia|lia|]. intros t' o Hsent Ht'.
  eapply sent_update in Hsent as Hpr; [|lia|done|done]. split; [apply Hpr|by split].
Qed.

(** The newest record ended before the last segment. *)
Lemma turn_insert : a < StartTime x -> Forall (fun y => StopTime y <= a) pre ->
  wp handleDBIndex (fun _ t' o => processed ((a, b) :: db) (pushes (StartTime x) (StopTime x) ((a, b) :: db)) t t' o /\
    idx_ok dev t') t.
Proof using All.
  intros Hax Hpre. pose proof active_ok. destruct segs_ok as [Hp Hx]. destruct Hsegs as (El & Estop & Hb & Hpre').
  apply turn_open. apply process_active; [lia|lia|]. rewrite El, Estop, Hdb.
  eapply part_last; [done|done|done|by apply segs_skip|lia|lia|]. intros t' o Hsent Ht'.
  eapply sent_insert in Hsent as Hpr; [|done]. split; [apply Hpr|by split].
Qed.

(** The newest record is of the segment before the last. *)
Lemma turn_both pre0 y : pre = pre0 ++ [y] -> StartTime y <= a < StopTime y -> Forall (fun y => StopTime y <= a) pre0 ->
  wp handleDBIndex (fun _ t' o =>
    processed ((a, b) :: db) (pushes (StartTime x) (StopTime x) (pushes a (StopTime y) db)) t t' o /\ idx_ok dev t') t.
Proof using All.
  intros Epre Hay Hpre. pose proof active_ok. destruct segs_ok as [Hp Hx]. destruct Hsegs as (El & Estop & Hb & Hpre').
  rewrite Epre in El, Hp, Hpre'.
  apply Forall_app in Hpre' as [Hpre1 Hy]. apply Forall_cons in Hy as [Hy _].
  apply Forall_app in Hp as [_ Hpy]. apply Forall_cons in Hpy as [Hpy _].
  apply turn_open. apply process_active; [lia|lia|]. rewrite El, Estop, Hdb, <-app_assoc. cbn [app].
  rewrite part_skip by (by apply segs_skip).
  eapply part_segment; [done|done|done|apply Hx|lia|lia|]. intros r t1 o1 Hs1 Ht1.
  eapply sent_update in Hs1 as Hp1; [|lia|done|done].
  destruct (Z.leb_spec (StopTime x) (StopTime y)); [lia|].
  apply (part_last dev []); [done|done|done|done|lia|lia|]. intros t' o Hsent Ht'.
  eapply sent_insert in Hsent as Hp2; [|lia]. pose proof (processed_trans _ _ _ _ _ _ _ _ Hp1 Hp2) as Hpr.
  split; [apply Hpr|by split].
Qed.
End Active.
End Turn.

(** *** The reports *)

Record report : Type := { r_first : Z; r_last : Z; r_size : Z; r_name : list Z; r_flag : Z }.
Definition do_report (r : report) : iop Z := updateLocalIndex (r_first r) (r_last r) (r_size r) (Some (r_name r)) (r_flag r).

(** A list with the segment of the report, before the plans are processed. *)
Record updated (dev : list Z) (r : report) (l : list IndexInfo) (last : Z) t t1 : Prop := {
  up_ok : idx_ok dev t1;
  up_plans : m_dbIndexList t1 = m_dbIndexList t;
  up_list : m_localIndexList t1 = l;
  up_start : m_localIndexStartTime t1 = r_first r;
  up_stop : m_localIndexStopTime t1 = r_last r;
  up_db : m_dbIndexStartTime t1 = m_dbIndexStartTime t;
  up_lastdb : m_lastDBIndexTime t1 = m_lastDBIndexTime t;
  up_last : m_lastLocalIndexTime t1 = if last =? 0 then r_first r else last }.

Definition the_segment (r : report) (size : Z) : IndexInfo :=
  {| StartTime := r_first r; StopTime := r_last r; VideoFlux := size; iRecordStopFlag := r_flag r; RecordFileName := r_name r |}.

(** The list with a new segment, without the first if it is too old, and the mark. *)
Definition with_segment (x : IndexInfo) (l : list IndexInfo) (last : Z) : list IndexInfo * Z :=
  match l ++ [x] with
  | front :: (next :: _) as rest =>
    if SVS_PRORECORD_MAX_TIME <? StartTime x - StopTime front then (rest, StartTime next) else (l ++ [x], last)
  | l => (l, last)
  end.

(** What is left to do. *)
Definition report_rest t1 (Q : SVS_Index_List -> list Update_Record_Index -> Prop) : Prop :=
  if m_localIndexStopTime t1 <=? m_lastDBIndexTime t1 then Q t1 [] else wp handleDBIndex (fun _ => Q) t1.

(** The list and the mark of a report of a new segment, or of the segment's new end. *)
Definition reported (r : report) t (l : list IndexInfo) (last : Z) : Prop :=
  if r_first r =? m_localIndexStartTime t then
    update_segment (r_first r) (r_last r) (u64 (r_size r - m_ullIndexFileSize t)) (r_flag r) (m_localIndexList t) = Some l /\
    last = m_lastLocalIndexTime t
  else
    r_first r <= r_last r /\
    (l, last) = with_segment (the_segment r (u64 (r_size r - m_ullCurFileSize t))) (m_localIndexList t) (m_lastLocalIndexTime t).

Definition report_ok (dev : list Z) (r : report) : Prop :=
  time_ok (r_first r) /\ time_ok (r_last r) /\ path_ok dev (r_name r).

Lemma with_segment_ok dev x l last l' last' : with_segment x l last = (l', last') -> segment_ok dev x ->
  Forall (segment_ok dev) l -> time_ok last -> Forall (segment_ok dev) l' /\ time_ok last'.
Proof.
  unfold with_segment. intros E Hx Hl Hlast.
  assert (Forall (segment_ok dev) (l ++ [x])) as Ha by (apply Forall_app_2; [done|by constructor]).
  destruct (l ++ [x]) as [|y [|z rest]]; [by simplify_eq..|].
  destruct (_ <? _); simplify_eq; [|done]. apply Forall_cons in Ha as [_ Ha]. split; [done|].
  apply Forall_cons in Ha as [(? & _) _]. done.
Qed.

Lemma report_added dev r t l last : idx_ok dev t -> report_ok dev r -> reported r t l last ->
  Forall (segment_ok dev) l /\ time_ok last.
Proof.
  intros Ht (H1 & H2 & H3). unfold reported. destruct (_ =? _).
  - intros [E ->]. split; [|apply Ht]. eapply update_segment_ok; [|apply Ht|exact E]. done.
  - intros [_ E]. symmetry in E. eapply with_segment_ok; [exact E|done|apply Ht|apply Ht].
Qed.

Lemma wp_report dev r t l last Q : idx_ok dev t -> report_ok dev r -> reported r t l last ->
  (forall t1, updated dev r l last t t1 -> report_rest t1 Q) -> wp (do_report r) (fun _ => Q) t.
Proof.
  intros Ht Hr Hrep HQ. destruct (report_added _ _ _ _ _ Ht Hr Hrep) as [Hl Hlast]. destruct Hr as (Hr1 & Hr2 & _).
  unfold do_report, updateLocalIndex. do 3 wp_step.
  eapply (wp_mono _ (fun c t' o => c = SVS_RESULT_OK /\ o = [] /\ idx_ok dev t' /\ m_dbIndexList t' = m_dbIndexList t /\
    m_localIndexList t' = l /\ m_localIndexStartTime t' = r_first r /\ m_dbIndexStartTime t' = m_dbIndexStartTime t /\
    m_lastDBIndexTime t' = m_lastDBIndexTime t /\ m_lastLocalIndexTime t' = last)).
  { unfold reported in Hrep. destruct (Z.eqb_spec (r_first r) (m_localIndexStartTime t)) as [Es|Es]; cbn [negb].
    - destruct Hrep as [E ->]. rewrite E. do 3 wp_step. destruct Ht, t. cbn in *. by split_and!.
    - destruct Hrep as [Hle E]. rewrite (proj2 (Z.ltb_ge _ _) Hle). do 8 wp_step.
      fold (the_segment r (u64 (r_size r - m_ullCurFileSize t))).
      set (x := the_segment r _) in *. unfold with_segment in E. change (StartTime x) with (r_first r) in E. clearbody x.
      destruct Ht, t. cbn in *. clear HQ.
      destruct (m_localIndexList0 ++ [x]) as [|y [|z rest]]; [simplify_eq; wp_step; by split_and!..|].
      destruct (_ <? _); simplify_eq; do 5 try wp_step; by split_and!. }
  intros c t0 o (-> & -> & Ht0 & E1 & E2 & E3 & E4 & E5 & E6). cbn [Z.eqb negb SVS_RESULT_OK].
  do 7 wp_step.
  set (t1 := if m_lastLocalIndexTime _ =? 0 then _ else _).
  assert (Hup : updated dev r l last t t1).
  { unfold t1. destruct Ht0, t0. cbn in *. destruct (Z.eqb_spec m_lastLocalIndexTime0 0); subst; cbn; split; cbn; try done.
    by rewrite (proj2 (Z.eqb_neq _ _)). }
  specialize (HQ t1 Hup). unfold report_rest in HQ. clearbody t1. wp_step.
  destruct (_ <=? _); [by wp_step|]. wp_step. eapply wp_mono; [exact HQ|]. intros [] t2 o2 H2. cbv beta in *. wp_step.
  by rewrite app_nil_r.
Qed.

(** The segments that were reported, the newest first. *)
Definition add_report (segs : list (Z * Z)) (r : report) : list (Z * Z) :=
  match segs with
  | (f, l) :: rest => if r_first r =? f then (f, r_last r) :: rest else (r_first r, r_last r) :: segs
  | [] => [(r_first r, r_last r)]
  end.

(** The newest segment grows, or a segment follows that begins at its end or later. *)
Definition report_next (dev : list Z) (segs : list (Z * Z)) (r : report) : Prop :=
  report_ok dev r /\ 0 < r_first r < r_last r /\
  match segs with
  | [] => True
  | (f, l) :: _ => (r_first r = f /\ l <= r_last r) \/ l <= r_first r
  end.

Record tracks (dev : list Z) (s : Z) (segs db : list (Z * Z)) t : Prop := {
  tr_ok : idx_ok dev t;
  tr_plan : m_dbIndexList t = [open_plan s];
  tr_exact : forall x, covered db x <-> recorded s segs x;
  tr_order : in_order db;
  tr_state : match segs with
    | [] => m_localIndexList t = [] /\ m_localIndexStartTime t = 0 /\ m_lastLocalIndexTime t = 0 /\
            m_dbIndexStartTime t = 0 /\ m_lastDBIndexTime t = 0 /\ db = []
    | (f, l) :: _ => exists pre x, segs_of t pre x /\ StartTime x = f /\ StopTime x = l /\ m_localIndexStartTime t = f /\
        (l <= s /\ m_dbIndexStartTime t = 0 /\ m_lastDBIndexTime t = 0 /\ db = [] /\ 0 < m_lastLocalIndexTime t <= f \/
         s < l /\ exists a db', db = (a, l) :: db' /\ m_dbIndexStartTime t = a /\ m_lastDBIndexTime t = a /\ f <= a <= l /\ tm_yday a = tm_yday l)
    end }.

Lemma update_segment_last f e size flag pre x : StartTime x = f -> Forall (fun y => StartTime y < f) pre ->
  update_segment f e size flag (pre ++ [x]) =
  Some (pre ++ [{| StartTime := f; StopTime := e; VideoFlux := size; iRecordStopFlag := flag;
                   RecordFileName := RecordFileName x |}]).
Proof.
  intros <- Hpre. induction Hpre as [|y pre Hy Hpre IH]; cbn [app update_segment]; [by rewrite Z.eqb_refl|].
  by rewrite (proj2 (Z.eqb_neq _ _)), IH by lia.
Qed.

Lemma with_segment_last x' pre x last : exists pre' last', with_segment x' (pre ++ [x]) last = (pre' ++ [x'], last') /\
  (pre' = [] \/ exists pre0, pre' = pre0 ++ [x] /\ suffix pre0 pre) /\
  (last' = last \/ exists y, y ∈ pre' ++ [x'] /\ last' = StartTime y).
Proof.
  unfold with_segment. rewrite <-app_assoc. cbn [app].
  destruct pre as [|y pre]; cbn [app].
  - destruct (_ <? _); [exists [], (StartTime x')|exists [x], last].
    + split_and!; [done|by left|right; exists x'; split; [left|done]].
    + split_and!; [done|right; by exists []|by left].
  - destruct (pre ++ [x; x']) as [|z rest] eqn:E; [by destruct pre|].
    destruct (_ <? _); [exists (pre ++ [x]), (StartTime z)|exists (y :: pre ++ [x]), last].
    + rewrite <-app_assoc. cbn [app]. rewrite E. split_and!; [done|right; exists pre; split; [done|by apply suffix_cons_r]|].
      right. exists z. split; [left|done].
    + cbn [app]. rewrite <-app_assoc. cbn [app]. rewrite E. split_and!; [done|right; by exists (y :: pre)|by left].
Qed.

(** *** A report and its turn *)

Definition done_report (dev : list Z) (s : Z) (segs db : list (Z * Z)) (r : report) (t' : SVS_Index_List)
    (o : list Update_Record_Index) : Prop :=
  exists db', data_base db o = Some db' /\ tracks dev s (add_report segs r) db' t'.

Lemma add_report_head segs r : exists rest, add_report segs r = (r_first r, r_last r) :: rest.
Proof.
  unfold add_report. destruct segs as [|[f l] segs]; [eauto|].
  destruct (Z.eqb_spec (r_first r) f) as [->|]; eauto.
Qed.

Section Report.
Context (dev : list Z) (s : Z) (segs db : list (Z * Z)) (r : report) (last : Z) (t t1 : SVS_Index_List).
Context (pre : list IndexInfo) (x : IndexInfo) (Hs : 0 < s) (Hplan : m_dbIndexList t = [open_plan s]).
Context (Hup : updated dev r (pre ++ [x]) last t t1).
Context (Hf : StartTime x = r_first r) (He : StopTime x = r_last r) (Hb : 0 < r_first r < r_last r).
Context (Hpre : Forall (fun y => 0 < StartTime y < StopTime y /\ StopTime y <= StartTime x) pre).

Lemma updated_segs : segs_of t1 pre x.
Proof using All. split_and!; [apply Hup|rewrite He; apply Hup|lia|lia|done]. Qed.

Lemma report_turn db2 a dbr t' o : s < r_last r ->
  db2 = pushes a (r_last r) dbr -> r_first r <= a <= r_last r ->
  (forall y, covered db2 y <-> recorded s (add_report segs r) y) -> in_order db2 ->
  processed db db2 t1 t' o /\ idx_ok dev t' -> done_report dev s segs db r t' o.
Proof using All.
  intros Hsl Edb Ha Hex Hord [[Hbase Hdb Hm] Ht']. exists db2. split; [done|].
  destruct (add_report_head segs r) as [rest E]. pose proof updated_segs as (El & Est & Hx & Hp).
  split; [done| |done|done|].
  - by rewrite (sb_plans _ _ Hbase), (up_plans _ _ _ _ _ _ Hup).
  - rewrite E. exists pre, x. pose proof (cut_start_bounds a (r_last r) (proj2 Ha)).
    split_and!; [|done|done|rewrite (sb_start _ _ Hbase); apply Hup|].
    + unfold segs_of. by rewrite (sb_list _ _ Hbase), (sb_stop _ _ Hbase).
    + right. split; [done|]. destruct (pushes_head a (r_last r) dbr) as [db' Edb'].
      destruct Hm as (a' & b' & r' & Em & Hd & Hl). rewrite <-Edb, Em in Edb'. simplify_eq.
      eexists _, _. split_and!; [done|done|done|lia|lia|].
      match goal with E : _ = cut_start _ _ |- _ => rewrite E end. apply cut_start_day; lia.
Qed.

Lemma report_later : r_last r <= s -> m_dbIndexStartTime t = 0 -> m_lastDBIndexTime t = 0 -> db = [] ->
  0 < m_lastLocalIndexTime t1 <= r_first r -> (forall y, ~ recorded s (add_report segs r) y) ->
  report_rest t1 (done_report dev s segs db r).
Proof using All.
  intros Hl Hd Hld Edb Hlast Hex. destruct (add_report_head segs r) as [rest E]. pose proof updated_segs as Hsegs.
  assert (Htr : tracks dev s (add_report segs r) [] t1).
  { split; [apply Hup|by rewrite (up_plans _ _ _ _ _ _ Hup)| |done|].
    - intros y. split; [|by intros ?%Hex]. intros (a & b & Hin & _). by apply not_elem_of_nil in Hin.
    - rewrite E. exists pre, x. split_and!; [done|done|done|apply Hup|].
      left. split_and!; [done|by rewrite (up_db _ _ _ _ _ _ Hup)|by rewrite (up_lastdb _ _ _ _ _ _ Hup)|done|lia|lia]. }
  rewrite Edb. unfold report_rest. rewrite (up_lastdb _ _ _ _ _ _ Hup), (up_stop _ _ _ _ _ _ Hup), Hld.
  rewrite (proj2 (Z.leb_gt _ _)) by lia.
  apply (handle_open s); [by rewrite (up_plans _ _ _ _ _ _ Hup)|]. apply process_later.
  - rewrite (up_stop _ _ _ _ _ _ Hup). done.
  - split; [by rewrite (up_plans _ _ _ _ _ _ Hup)|]. by exists [].
Qed.
End Report.

Lemma recorded_cons s0 f l rest y : recorded s0 ((f, l) :: rest) y <-> (s0 < l /\ s0 <= y /\ f <= y <= l) \/ recorded s0 rest y.
Proof.
  unfold recorded. split.
  - intros (a & b & Hin & ?). apply elem_of_cons in Hin as [[= -> ->]|]; [left; lia|right; eauto].
  - intros [?|(a & b & ? & ?)]; [exists f, l|exists a, b]; (split; [|try done; try lia]); [left|by right].
Qed.
Lemma covered_nil y : ~ covered [] y.
Proof. intros (a & b & Hin & _). by apply not_elem_of_nil in Hin. Qed.

Lemma report_rest_turn t1 Q : m_lastDBIndexTime t1 < m_localIndexStopTime t1 -> wp handleDBIndex (fun _ => Q) t1 ->
  report_rest t1 Q.
Proof. intros Hlt Hw. unfold report_rest. by rewrite (proj2 (Z.leb_gt _ _) Hlt). Qed.

(** The plan is not yet active. *)
Lemma report_inactive dev (s : Z) segs r l last t t1 pre x : 0 < s -> m_dbIndexList t = [open_plan s] ->
  updated dev r l last t t1 -> l = pre ++ [x] -> StartTime x = r_first r -> StopTime x = r_last r -> 0 < r_first r < r_last r ->
  Forall (fun y => 0 < StartTime y < StopTime y /\ StopTime y <= StartTime x) pre ->
  m_dbIndexStartTime t = 0 -> m_lastDBIndexTime t = 0 -> 0 < m_lastLocalIndexTime t1 <= r_first r ->
  Forall (fun y => StopTime y <= s) pre ->
  (forall y, recorded s (add_report segs r) y <-> s < r_last r /\ s <= y /\ r_first r <= y <= r_last r) ->
  report_rest t1 (done_report dev s segs [] r).
Proof.
  intros Hs Hplan Hup -> Hf He Hb Hpre Hd Hld Hlast Hps Hex.
  destruct (Z.le_gt_cases (r_last r) s) as [Hl|Hl].
  { eapply report_later; try done. intros y Hy%Hex. lia. }
  assert (Hsegs : segs_of t1 pre x) by (eapply (updated_segs dev s segs []); eauto).
  apply report_rest_turn; [rewrite (up_lastdb _ _ _ _ _ _ Hup), (up_stop _ _ _ _ _ _ Hup); lia|].
  eapply wp_mono; [apply (turn_start dev s t1 pre x)|].
  - apply Hup.
  - by rewrite (up_plans _ _ _ _ _ _ Hup).
  - done.
  - lia.
  - by rewrite (up_db _ _ _ _ _ _ Hup).
  - lia.
  - done.
  - intros [] t' o Hpr. rewrite Hf, He in Hpr. eapply report_turn; try done; [lia| |].
    + intros y. rewrite Hex, covered_pushes by lia. pose proof (covered_nil y).
      split; [intros [?|?]; [lia|done]|intros ?; left; lia].
    + apply in_order_pushes; [lia|done|done].
Qed.

Lemma report_first dev (s : Z) db r t : 0 < s -> tracks dev s [] db t -> report_next dev [] r ->
  wp (do_report r) (fun _ => done_report dev s [] db r) t.
Proof.
  intros Hs [Hok Hpl Hex Hord (El & E1 & E2 & Ed & Eld & ->)] (Hr & Hb & _).
  eapply wp_report; [done|done| |].
  - unfold reported. rewrite E1, (proj2 (Z.eqb_neq _ _)) by lia. split; [lia|]. rewrite El, E2. done.
  - intros t1 Hup. eapply (report_inactive _ _ _ _ _ _ _ _ []); try done.
    + rewrite (up_last _ _ _ _ _ _ Hup). cbn. lia.
    + intros y. unfold add_report. rewrite recorded_cons, <-Hex. pose proof (covered_nil y). tauto.
Qed.

(** The newest record grows with the newest segment. *)
Lemma exact_extend (s : Z) segs db f l a e y : s < l -> f <= a <= l -> l <= e ->
  (forall y, covered ((a, l) :: db) y <-> recorded s ((f, l) :: segs) y) ->
  a <= y <= e \/ covered db y <-> (s < e /\ s <= y /\ f <= y <= e) \/ recorded s segs y.
Proof.
  intros Hs Ha He Hex. assert (s <= a) as Hsa.
  { assert (recorded s ((f, l) :: segs) a) as (? & ? & _ & ?); [|lia].
    apply Hex, covered_cons. left. lia. }
  specialize (Hex y). rewrite covered_cons, recorded_cons in Hex. split.
  - intros [?|Hc]; [left; lia|]. apply (or_intror (A := a <= y <= l)), Hex in Hc as [?|?]; [left; lia|by right].
  - intros [?|Hc]; [|apply (or_intror (A := s < l /\ s <= y /\ f <= y <= l)), Hex in Hc as [?|?]; [left; lia|by right]].
    destruct (decide (y <= l)); [|left; lia].
    assert (a <= y <= l \/ covered db y) as [?|?] by (apply Hex; left; lia); [left; lia|by right].
Qed.

Lemma report_extend dev (s : Z) segs f l db r t : 0 < s -> tracks dev s ((f, l) :: segs) db t -> report_ok dev r ->
  r_first r = f -> 0 < f < r_last r -> l <= r_last r ->
  wp (do_report r) (fun _ => done_report dev s ((f, l) :: segs) db r) t.
Proof.
  intros Hs [Hok Hpl Hex Hord (pre & x & Hsegs & Ex & Ex' & E1 & Hst)] Hr Ef Hb Hle.
  pose proof Hsegs as (El & Estop & Hx & Hpre).
  eapply wp_report; [done|done| |].
  { unfold reported. rewrite E1, Ef, Z.eqb_refl, El. split; [|done]. apply update_segment_last; [done|].
    eapply Forall_impl; [exact Hpre|]. cbn. lia. }
  intros t1 Hup. set (x' := Build_IndexInfo _ _ _ _ _) in *.
  assert (StartTime x' = r_first r /\ StopTime x' = r_last r) as [Hf' He'] by done. clearbody x'.
  assert (Hpre' : Forall (fun y => 0 < StartTime y < StopTime y /\ StopTime y <= StartTime x') pre) by (by rewrite Hf', Ef, <-Ex).
  assert (Eadd : add_report ((f, l) :: segs) r = (f, r_last r) :: segs) by (cbn; by rewrite Ef, Z.eqb_refl).
  destruct Hst as [(Hl & Hd & Hld & -> & Hlast)|(Hl & a & db' & -> & Hd & Hld & Ha & Hday)].
  - eapply (report_inactive _ _ _ _ _ _ _ _ pre x'); try done; [lia| | |].
    + rewrite (up_last _ _ _ _ _ _ Hup), (proj2 (Z.eqb_neq _ _)); lia.
    + eapply Forall_impl; [exact Hpre|]. cbn. lia.
    + intros y. rewrite Eadd, recorded_cons, Ef. specialize (Hex y). rewrite recorded_cons in Hex.
      pose proof (covered_nil y). tauto.
  - assert (Hsegs' : segs_of t1 pre x') by (eapply (updated_segs dev s segs []); eauto; lia).
    destruct (Z.le_gt_cases (r_last r) a) as [Hla|Hla].
    { assert (r_last r = l /\ a = l) as [El' ->] by lia. unfold report_rest.
      rewrite (up_lastdb _ _ _ _ _ _ Hup), (up_stop _ _ _ _ _ _ Hup), (proj2 (Z.leb_le _ _)) by lia.
      exists ((l, l) :: db'). split; [done|]. split; [apply Hup|by rewrite (up_plans _ _ _ _ _ _ Hup)|by rewrite Eadd, El'|done|].
      rewrite Eadd. exists pre, x'. split_and!; [done|lia|done|by rewrite (up_start _ _ _ _ _ _ Hup)|].
      right. split; [lia|]. exists l, db'. rewrite (up_db _ _ _ _ _ _ Hup), (up_lastdb _ _ _ _ _ _ Hup), El'. done. }
    apply report_rest_turn; [rewrite (up_lastdb _ _ _ _ _ _ Hup), (up_stop _ _ _ _ _ _ Hup); lia|].
    eapply wp_mono; [apply (fun H1 H2 H3 H4 => turn_update dev s t1 pre x' H1 H2 H3 H4 db' a l)|].
    + apply Hup.
    + by rewrite (up_plans _ _ _ _ _ _ Hup).
    + done.
    + lia.
    + lia.
    + by rewrite (up_db _ _ _ _ _ _ Hup).
    + by rewrite (up_lastdb _ _ _ _ _ _ Hup).
    + lia.
    + eapply Forall_impl; [exact Hpre|]. cbn. lia.
    + intros [] t' o Hpr. rewrite He' in Hpr. eapply report_turn; try done; [lia|lia|lia| |].
      * intros y. rewrite Eadd, recorded_cons, covered_pushes by lia. apply (exact_extend s segs db' f l); [lia..|exact Hex].
      * apply in_order_tail in Hord as [? ?]. apply in_order_pushes; [lia|done|done].
Qed.

(** A segment follows the segment of the newest record. *)
Lemma turn_new dev (s : Z) t pre x db f l a y : idx_ok dev t -> m_dbIndexList t = [open_plan s] -> segs_of t pre x ->
  0 < s < StopTime x -> m_dbIndexStartTime t = a -> m_lastDBIndexTime t = a -> 0 < f -> f <= a <= l -> tm_yday a = tm_yday l ->
  StartTime y = f -> StopTime y = l -> l <= StartTime x ->
  (pre = [] \/ exists pre0, pre = pre0 ++ [y] /\ Forall (fun y => StopTime y <= f) pre0) ->
  wp handleDBIndex (fun _ t' o => exists db2,
    (db2 = pushes (StartTime x) (StopTime x) ((a, l) :: db) /\ a < StartTime x \/
     db2 = pushes (StartTime x) (StopTime x) db /\ l = a /\ l = StartTime x) /\
    (processed ((a, l) :: db) db2 t t' o /\ idx_ok dev t')) t.
Proof.
  intros Ht Hpl Hsegs Hs Hd Hld Hf Ha Hday Ey Ey' Hle Hpre.
  assert (Hcut : pushes a l db = (a, l) :: db) by (unfold pushes, cut; by rewrite bool_decide_eq_false_2 by tauto).
  assert (Hin : forall c, f <= c -> (pre = [] \/ l <= c) -> Forall (fun y => StopTime y <= c) pre).
  { intros c Hc [->|Hlc]; [constructor|]. destruct Hpre as [->|(pre0 & -> & H0')]; [constructor|].
    apply Forall_app_2; [eapply Forall_impl; [exact H0'|]; cbn; lia|constructor; [lia|constructor]]. }
  destruct (decide (a < StartTime x)) as [Hlt|Hge].
  - destruct (decide (pre = [] \/ l <= a)) as [Hc|Hc].
    + eapply wp_mono; [apply (fun H1 H2 H3 H4 => turn_insert dev s t pre x H1 H2 H3 H4 db a l); try done; [lia|apply Hin; [lia|done]]|].
      intros [] t' o Hpr. eexists. split; [left; split; [done|lia]|done].
    + destruct Hpre as [?|(pre0 & Epre & Hpre0)]; [tauto|].
      eapply wp_mono; [apply (fun H1 H2 H3 H4 => turn_both dev s t pre x H1 H2 H3 H4 db a l) with (pre0 := pre0) (y := y); try done; [lia|lia|]|].
      * eapply Forall_impl; [exact Hpre0|]. cbn. lia.
      * rewrite Ey', Hcut. intros [] t' o Hpr. eexists. split; [left; split; [done|lia]|done].
  - assert (a = l /\ l = StartTime x) as [-> El] by lia.
    eapply wp_mono; [apply (fun H1 H2 H3 H4 => turn_update dev s t pre x H1 H2 H3 H4 db l l); try done; [lia|destruct Hsegs as (_&_&?&_); lia|]|].
    + apply Hin; [lia|]. by right.
    + intros [] t' o Hpr. eexists. split; [right; split_and!; [|done|exact El]|exact Hpr]. by rewrite <-El.
Qed.

Lemma report_new dev (s : Z) segs f l db r t : 0 < s -> tracks dev s ((f, l) :: segs) db t -> report_ok dev r ->
  0 < r_first r < r_last r -> l <= r_first r ->
  wp (do_report r) (fun _ => done_report dev s ((f, l) :: segs) db r) t.
Proof.
  intros Hs [Hok Hpl Hex Hord (pre & x & Hsegs & Ex & Ex' & E1 & Hst)] Hr Hb Hle.
  pose proof Hsegs as (El & Estop & Hx & Hpre).
  edestruct (with_segment_last (the_segment r (u64 (r_size r - m_ullCurFileSize t))) pre x (m_lastLocalIndexTime t))
    as (pre' & last' & Ew & Hpre' & Hlast').
  eapply wp_report; [done|done| |].
  { unfold reported. rewrite E1, (proj2 (Z.eqb_neq _ _)) by lia. split; [lia|]. rewrite El. symmetry. exact Ew. }
  intros t1 Hup. set (x' := the_segment r _) in *.
  assert (StartTime x' = r_first r /\ StopTime x' = r_last r) as [Hf' He'] by done. clearbody x'. clear Ew.
  assert (Eadd : add_report ((f, l) :: segs) r = (r_first r, r_last r) :: (f, l) :: segs)
    by (cbn; by rewrite (proj2 (Z.eqb_neq _ _)) by lia).
  assert (Hall : Forall (fun y => 0 < StartTime y < StopTime y /\ StopTime y <= l) pre').
  { destruct Hpre' as [->|(pre0 & -> & Hsuf)]; [done|]. apply Forall_app_2.
    - destruct Hsuf as [k ->]. apply Forall_app in Hpre as [_ Hpre]. eapply Forall_impl; [exact Hpre|]. cbn. lia.
    - constructor; [lia|done]. }
  assert (Hall' : Forall (fun y => 0 < StartTime y < StopTime y /\ StopTime y <= StartTime x') pre')
    by (eapply Forall_impl; [exact Hall|]; cbn; lia).
  destruct Hst as [(Hl & Hd & Hld & -> & Hlast)|(Hl & a & db' & -> & Hd & Hld & Ha & Hday)].
  - eapply (report_inactive _ _ _ _ _ _ _ _ pre' x'); try done.
    + rewrite (up_last _ _ _ _ _ _ Hup). destruct Hlast' as [->|(y & Hy & ->)]; [rewrite (proj2 (Z.eqb_neq _ _)); lia|].
      apply elem_of_app in Hy as [Hy|Hy%list_elem_of_singleton].
      * rewrite Forall_forall in Hall. specialize (Hall _ Hy). rewrite (proj2 (Z.eqb_neq _ _)); lia.
      * subst y. rewrite (proj2 (Z.eqb_neq _ _)); lia.
    + eapply Forall_impl; [exact Hall|]. cbn. lia.
    + intros y. rewrite Eadd, recorded_cons. specialize (Hex y). pose proof (covered_nil y). tauto.
  - assert (Hsegs' : segs_of t1 pre' x') by (eapply (updated_segs dev s segs []); eauto; lia).
    apply report_rest_turn; [rewrite (up_lastdb _ _ _ _ _ _ Hup), (up_stop _ _ _ _ _ _ Hup); lia|].
    eapply wp_mono; [apply (turn_new dev s t1 pre' x' db' f l a x); try done|].
    + apply Hup.
    + by rewrite (up_plans _ _ _ _ _ _ Hup).
    + lia.
    + by rewrite (up_db _ _ _ _ _ _ Hup).
    + by rewrite (up_lastdb _ _ _ _ _ _ Hup).
    + lia.
    + lia.
    + destruct Hpre' as [?|(pre0 & -> & k & ->)]; [by left|right]. exists pre0. split; [done|].
      apply Forall_app in Hpre as [_ Hpre]. eapply Forall_impl; [exact Hpre|]. cbn. lia.
    + intros [] t' o (db2 & Hdb2 & Hpr). rewrite ?Hf', ?He' in Hdb2.
      destruct Hdb2 as [[-> Hlt]|(-> & <- & Ea)]; eapply report_turn; try done; try lia.
      * intros y. rewrite Eadd, recorded_cons, covered_pushes, Hex by lia. intuition lia.
      * apply in_order_pushes; [lia|lia|done].
      * intros y. rewrite Eadd, recorded_cons, covered_pushes, <-Hex, covered_cons by lia. intuition lia.
      * apply in_order_tail in Hord as [? ?]. apply in_order_pushes; [lia|by rewrite <-Ea|done].
Qed.

Fixpoint do_reports (rs : list report) : iop unit :=
  match rs with [] => mret tt | r :: rs => _ ← do_report r; do_reports rs end.
Fixpoint reports_next (dev : list Z) (segs : list (Z * Z)) (rs : list report) : Prop :=
  match rs with [] => True | r :: rs => report_next dev segs r /\ reports_next dev (add_report segs r) rs end.

Lemma report_tracks dev (s : Z) segs db r t : 0 < s -> tracks dev s segs db t -> report_next dev segs r ->
  wp (do_report r) (fun _ => done_report dev s segs db r) t.
Proof.
  intros Hs Ht (Hr & Hb & Hseg). destruct segs as [|[f l] segs]; [by apply report_first|].
  destruct Hseg as [[Ef Hle]|Hle]; [apply report_extend; try done; lia|by apply report_new].
Qed.

Lemma reports_track dev (s : Z) rs segs db t : 0 < s -> tracks dev s segs db t -> reports_next dev segs rs ->
  wp (do_reports rs) (fun _ t' o => exists db', data_base db o = Some db' /\ tracks dev s (foldl add_report segs rs) db' t') t.
Proof.
  intros Hs. revert segs db t. induction rs as [|r rs IH]; intros segs db t Ht; cbn [do_reports reports_next].
  { intros _. wp_step. by exists db. }
  intros [Hr Hrs]. wp_step. eapply wp_mono; [by apply report_tracks|]. intros _ t1 o1 (db1 & Hdb1 & Ht1).
  eapply wp_mono; [by apply (IH (add_report segs r) db1)|]. intros _ t2 o2 (db2 & Hdb2 & Ht2). exists db2.
  by rewrite (data_base_app _ _ _ _ Hdb1).
Qed.


(** *** A plan that ends where nothing is recorded *)

Lemma part_loop_gap dev l sf a e ty il t : idx_ok dev t -> Forall (segment_ok dev) l -> time_ok a -> time_ok e ->
  Forall (fun y => ~ (StartTime y < e <= StopTime y)) l ->
  wp (part_loop l sf a e ty il) (fun b t' _ => b = false /\ idx_ok dev t' /\ same_base t t') t.
Proof.
  intros Ht Hl Ha He Hg. revert ty il t Ht Hg.
  induction Hl as [|s l [Hs1 [Hs2 Hp]] Hl IH]; intros ty il t Ht Hg; cbn [part_loop]; [by wp_step|].
  apply Forall_cons in Hg as [Hg Hgl].
  destruct (Z.ltb_spec (StartTime s) e); cbn [negb]; [|by wp_step].
  destruct (Z.leb_spec (StopTime s) a); [by apply IH|].
  wp_step. eapply wp_mono; [apply send_segment_ok; try done; by rewrite (io_device _ _ Ht)|].
  intros r t1 o1 (_ & Hsb & _ & _ & Hd & Hlast). rewrite (proj2 (Z.leb_gt _ _)) by lia.
  eapply wp_mono; [apply IH; [|done]|].
  - destruct Ht, Hsb. split; try congruence; [auto|]. rewrite Hlast. by destruct (e <? StopTime s).
  - intros b t2 o2 (-> & H2' & Hs). split_and!; [done|done|by eapply same_base_trans].
Qed.

(** A plan whose end is in a gap of the recording is never done: as no segment
    reaches the end, the plan stays at the front, however much is recorded after it, and
    the plans behind it are not processed, nor is anything recorded for them. *)
Theorem plan_in_gap_stays dev t i l : idx_ok dev t -> m_dbIndexList t = i :: l ->
  0 < StartTime i < StopTime i -> StopTime i <= m_localIndexStopTime t ->
  Forall (fun y => ~ (StartTime y < StopTime i <= StopTime y)) (m_localIndexList t) ->
  exists t' o, handleDBIndex t = Some (tt, t', o) /\ m_dbIndexList t' = i :: l /\
    m_localIndexList t' = m_localIndexList t /\ m_localIndexStopTime t' = m_localIndexStopTime t /\ idx_ok dev t'.
Proof.
  intros Ht Hl Hi Hle Hg.
  enough (wp handleDBIndex (fun _ t' o => m_dbIndexList t' = i :: l /\ m_localIndexList t' = m_localIndexList t /\
    m_localIndexStopTime t' = m_localIndexStopTime t /\ idx_ok dev t') t) as Hw
    by (apply wp_elim in Hw as ([] & t' & o & Hrun & Hw); exists t', o; by split).
  unfold handleDBIndex. do 3 wp_step. rewrite Hl. cbn [db_loop]. wp_step.
  pose proof (io_plans _ _ Ht) as Hp. rewrite Hl in Hp. apply Forall_cons in Hp as [[Hi1 Hi2] Hp].
  eapply (wp_mono _ (fun r t' _ => r = SVS_RESULT_FAILURE /\ idx_ok dev t' /\ m_localIndexList t' = m_localIndexList t /\
    m_localIndexStopTime t' = m_localIndexStopTime t)).
  - unfold processDBIndex. do 2 wp_step.
    rewrite (proj2 (Z.leb_gt _ _)), (proj2 (Z.leb_gt (StopTime i) _)) by lia. cbn [andb].
    wp_step. eapply (wp_mono _ (fun '(_, x) t' o => time_ok x /\ idx_ok dev t' /\
      m_localIndexList t' = m_localIndexList t /\ m_localIndexStopTime t' = m_localIndexStopTime t)).
    { destruct (negb _).
      - wp_step. split_and!; [apply Ht|done|done|done].
      - assert (time_ok (if StartTime i <? m_lastLocalIndexTime t then m_lastLocalIndexTime t else StartTime i)) as Hx
          by (destruct (_ <? _); [apply Ht|done]).
        do 5 wp_step. split_and!; [done|by apply set_marks_ok|by destruct t|by destruct t]. }
    intros [ty x] t1 o1 (Hx & Ht1 & E1 & E2). cbv beta iota.
    rewrite (proj2 (Z.eqb_neq (StopTime i) 0)), (proj2 (Z.ltb_ge _ _) Hle) by lia. cbn [orb].
    unfold partitionDBRecordIndex. do 3 wp_step.
    eapply wp_mono; [apply (part_loop_gap dev); [done|apply Ht1|done|done|by rewrite E1]|].
    intros b t2 o2 (-> & Ht2 & Hsb). wp_step. split_and!; [done|done| |].
    + by rewrite (sb_list _ _ Hsb).
    + by rewrite (sb_stop _ _ Hsb).
  - intros r t1 o1 (-> & Ht1 & E1 & E2). cbn [Z.eqb negb SVS_RESULT_FAILURE SVS_RESULT_OK]. do 2 wp_step.
    destruct Ht1, t1. cbn in *. subst. split_and!; try done. split; try done. by constructor.
Qed.
End Requests.

(** ** Examples *)

(** The days of coordinated universal time; a time before them is a day of its own. *)
Instance utc : LocalTime :=
  {| tm_yday t := if t <? 0 then t else t / 86400; midnight t := if t <? 0 then t else t / 86400 * 86400 |}.
Instance utc_laws : LocalTimeLaws.
Proof.
  split.
  - intros t x. unfold midnight, tm_yday, utc. destruct (Z.ltb_spec t 0); [intros; assert (x = t) as -> by lia; by rewrite (proj2 (Z.ltb_lt _ _))|].
    pose proof (Z.div_mod t 86400 ltac:(lia)). pose proof (Z.mod_pos_bound t 86400 ltac:(lia)).
    assert (0 <= t / 86400) by (apply Z.div_pos; lia). intros Hx.
    destruct (Z.ltb_spec x 0); [lia|]. symmetry. apply (Z.div_unique _ _ _ (x - t / 86400 * 86400)); lia.
  - intros t. unfold midnight, utc. destruct (_ <? 0); [lia|].
    pose proof (Z.div_mod t 86400 ltac:(lia)). pose proof (Z.mod_pos_bound t 86400 ltac:(lia)). lia.
  - intros t. unfold midnight, utc, time_ok. intros Ht. destruct (Z.ltb_spec t 0); [lia|].
    pose proof (Z.div_mod t 86400 ltac:(lia)). pose proof (Z.mod_pos_bound t 86400 ltac:(lia)).
    assert (0 <= t / 86400) by (apply Z.div_pos; lia). lia.
Qed.

Definition demo_dev : list Z := chars "cam01".
Definition demo_file : list Z := chars "/data/cam01/a.mdf".
Definition demo_report (f l size : Z) : report := Build_report f l size demo_file 0.

(** A recording over midnight, and one after a gap. *)
Definition demo_reports : list report :=
  [demo_report 86000 86300 1000; demo_report 86000 86380 2000; demo_report 86000 86500 3000; demo_report 87000 87100 4000].

Lemma demo_reports_next : reports_next demo_dev [] demo_reports.
Proof. repeat split; try lia; try (unfold path_ok; by eexists); cbn; lia. Defined.


(** The requests are an insertion, an update, the cut at midnight, and the new segment. *)
Example demo_requests : option_map (fun r => request <$> r.2)
    ((_ ← updateDBIndex 86100 0; do_reports demo_reports) (set_device demo_dev reset)) =
  Some [(RECORD_INDEX_TYPE_INSERT, 86100, 86300); (RECORD_INDEX_TYPE_UPDATE, 86100, 86380);
        (RECORD_INDEX_TYPE_UPDATE, 86100, 86399); (RECORD_INDEX_TYPE_INSERT, 86400, 86500);
        (RECORD_INDEX_TYPE_INSERT, 87000, 87100)].
Proof. vm_compute. reflexivity. Qed.

(** The first segment begins with a report of no length, after the plan: the start of the
    record is set, and nothing is inserted, so the first request is an update. *)
Example first_request_is_an_update : option_map (fun r => request <$> r.2)
    ((_ ← updateDBIndex 86100 0; do_reports [demo_report 86200 86200 10; demo_report 86200 86230 1000])
       (set_device demo_dev reset)) = Some [(RECORD_INDEX_TYPE_UPDATE, 86200, 86230)].
Proof. vm_compute. reflexivity. Qed.

Definition demo_ops : list index_op :=
  [OpLocal 86000 86000 5 (Some demo_file) 1; OpPlan 86100 86050; OpPlanStart 7; OpLocal 86000 85000 9 None 0;
   OpLocal 90000 80000 1 None 0; OpReopen demo_dev; OpLocal 5 (-5) 1 (Some demo_file) 0].
Lemma index_no_fault_witness : Forall (index_op_ok demo_dev) demo_ops /\
  exists t o, index_run demo_ops (set_device demo_dev reset) = Some (tt, t, o) /\ idx_ok demo_dev t.
Proof.
  assert (H : Forall (index_op_ok demo_dev) demo_ops); [|split; [exact H|exact (index_no_fault _ _ H)]].
  repeat constructor; try lia; intros ? [= <-]; by eexists.
Defined.

(** A plan from 150 to 250, and one from 320; recorded is 100 to 200 and 300 to 400. *)
Definition demo_gap : SVS_Index_List :=
  let seg a b := {| StartTime := a; StopTime := b; VideoFlux := 1; iRecordStopFlag := 0; RecordFileName := demo_file |} in
  let plan a b := {| StartTime := a; StopTime := b; VideoFlux := 0; iRecordStopFlag := 0; RecordFileName := [] |} in
  {| m_szDeviceID := demo_dev; m_localIndexStartTime := 300; m_localIndexStopTime := 400;
     m_localIndexList := [seg 100 200; seg 300 400]; m_dbIndexStartTime := 150; m_dbIndexList := [plan 150 250; plan 320 0];
     m_lastLocalIndexTime := 200; m_lastDBIndexTime := 150; m_ullCurFileSize := 2; m_ullIndexFileSize := 1 |}.

Lemma plan_in_gap_stays_witness : exists t' o, handleDBIndex demo_gap = Some (tt, t', o) /\
  m_dbIndexList t' = m_dbIndexList demo_gap /\ m_localIndexList t' = m_localIndexList demo_gap /\
  m_localIndexStopTime t' = m_localIndexStopTime demo_gap /\ idx_ok demo_dev t'.
Proof.
  eapply (plan_in_gap_stays demo_dev demo_gap); [|reflexivity|cbn; lia|cbn; lia|repeat constructor; cbn; lia].
  split; [reflexivity|split; cbn; lia| | |split; cbn; lia|split; cbn; lia].
  - repeat constructor; try (cbn; lia); by eexists.
  - repeat constructor; cbn; lia.
Defined.
