(* ===== verification/IndexResend.v ===== *)
(** * Records that are over, until they are confirmed: [svs_index_resend_mgr.cpp]

    [CIndexResendMgr] keeps every record that is over, under a key of its start and its
    camera. A timer sends the records again that are not confirmed. It collects the keys
    under the lock and then takes the lock for each key, so that records and confirmations
    come in between: the steps are [resend_step].

    The map is a finite map that is walked in the order of [std::string]. The memory, the
    clock and the queue of the requests are arguments. The size of the confirmation's
    message is not declared in these sources: it is a parameter. *)

From Stdlib Require Import String.
From stdpp Require Import sorting.
From S2P Require Import Prelude Text IndexList.
Open Scope Z_scope.

Definition UNACKED_INDEX_RESEND_TIMES : Z := 3.
Definition UNACKED_INDEX_RESEND_INTERVAL : Z := 120.
Definition INDEX_KEY_LEN : Z := 80.

Record RecordIndexCacheNode : Type := {
  stIndexInfo : Update_Record_Index; uiResendTimes : Z; ulSendTimeTick : Z }.

(** [None]: a null pointer. *)
Abbreviation index_map := (gmap (list Z) (option RecordIndexCacheNode)).

(** A record that is kept, and one that is sent again. *)
Inductive resend_event : Type := Kept (key : list Z) | Resent (key : list Z) (u : Update_Record_Index).
Abbreviation rop A := (M index_map resend_event A).

Definition hex_digit (d : Z) : Z := if d <? 10 then 48 + d else 87 + d.
(** ["%08x"]. *)
Definition hex8 (v : Z) : list Z := (fun i => hex_digit (v / 16 ^ i mod 16)) <$> [7; 6; 5; 4; 3; 2; 1; 0].

Definition MakeIndexInfoKey (pInfo : Update_Record_Index) : list Z :=
  take (Z.to_nat (INDEX_KEY_LEN - 2)) (hex8 (u32 (u_StartTime pInfo)) ++ [95] ++ u_LensId pInfo).

Definition reconnect (u : Update_Record_Index) : Update_Record_Index :=
  let '(Build_Update_Record_Index ty l c s e v _ p) := u in
  Build_Update_Record_Index ty l c s e v REPORT_INDEX_TYPE_RECONNECT p.

(** [alloc]: the memory for a node is there; a null pointer is erased, and the record
    is kept in a second call. *)
Fixpoint RecordPastIndex_go (fuel : nat) (alloc : bool) (now : Z) (pIndex : Update_Record_Index) : rop Z :=
  match fuel with
  | O => fault
  | S fuel =>
    let strIndexKey := MakeIndexInfoKey pIndex in
    m ← get;
    match m !! strIndexKey with
    | None =>
      if negb alloc then mret (-1)
      else
        let n := {| stIndexInfo := reconnect pIndex; uiResendTimes := 0; ulSendTimeTick := now |} in
        _ ← modify (insert strIndexKey (Some n));
        _ ← tell (Kept strIndexKey);
        mret 0
    | Some None => _ ← modify (delete strIndexKey); RecordPastIndex_go fuel alloc now pIndex
    | Some (Some n) =>
      if u_EndTime (stIndexInfo n) <? u_EndTime pIndex then
        let n := {| stIndexInfo := pIndex; uiResendTimes := uiResendTimes n; ulSendTimeTick := ulSendTimeTick n |} in
        _ ← modify (insert strIndexKey (Some n));
        mret 0
      else mret 0
    end
  end.
Definition RecordPastIndex (alloc : bool) (now : Z) (pIndex : Update_Record_Index) : rop Z :=
  RecordPastIndex_go 2 alloc now pIndex.

Record confirm_msg : Type := { PacketLength : Z; DeviceID : list Z; IndexStartTime : Z; IndexEndTime : Z }.

(** The record a confirmation names. *)
Definition confirm_index (m : confirm_msg) : Update_Record_Index :=
  {| u_Type := RECORD_INDEX_TYPE_UPDATE; u_LensId := SetLocalizeDeviceId (DeviceID m); u_ChangeBeforeStartTime := 0;
     u_StartTime := IndexStartTime m; u_EndTime := IndexEndTime m; u_VideoFlux := 0;
     u_RecordReportType := REPORT_INDEX_TYPE_NORMAL; u_RecordFilePath := [] |}.

Definition HandleReportConfirm (size : Z) (mb : option confirm_msg) : rop Z :=
  match mb with
  | None => mret (-1)
  | Some pReqMsg =>
    if PacketLength pReqMsg <? size then mret (-1)
    else
      let strIndexKey := MakeIndexInfoKey (confirm_index pReqMsg) in
      m ← get;
      match m !! strIndexKey with
      | None => mret 0
      | Some _ => _ ← modify (delete strIndexKey); mret 0
      end
  end.

(** ** The timer *)

Definition str_le (a b : list Z) : Prop := str_cmp a b <> Gt.
#[export] Instance str_le_dec a b : Decision (str_le a b).
Proof. unfold str_le. destruct (str_cmp a b); [left|left|right]; congruence. Defined.

Definition map_keys (m : index_map) : list (list Z) := merge_sort str_le (map_to_list m).*1.

(** What the timer does with a record. *)
Definition expired (p : option RecordIndexCacheNode) : bool :=
  match p with None => true | Some n => UNACKED_INDEX_RESEND_TIMES <? uiResendTimes n end.
Definition overdue (tCurrent : Z) (p : option RecordIndexCacheNode) : bool :=
  match p with
  | None => false
  | Some n => negb (UNACKED_INDEX_RESEND_TIMES <? uiResendTimes n) &&
              (UNACKED_INDEX_RESEND_INTERVAL <? tCurrent - ulSendTimeTick n)
  end.

(** The keys to delete, and the keys to send again. *)
Definition collect (tCurrent : Z) (m : index_map) : list (list Z) * list (list Z) :=
  let node k := match m !! k with Some p => p | None => None end in
  (filter (fun k => expired (node k) = true) (map_keys m), filter (fun k => overdue tCurrent (node k) = true) (map_keys m)).

(** [enq]: the time when the queue took the record, if it did. *)
Definition ResendIndex (key : list Z) (u : Update_Record_Index) (enq : option Z) : rop (option Z) :=
  match enq with
  | None => mret None
  | Some now => _ ← tell (Resent key u); mret (Some now)
  end.

Inductive deal_flag : Set := DELETE_INDEX | RESEND_INDEX.

(** A turn of the loop of [BatchDealIndex], which has the lock. *)
Definition deal_index (iFlag : deal_flag) (enq : option Z) (key : list Z) : rop unit :=
  m ← get;
  match m !! key with
  | None => mret tt
  | Some None => modify (delete key)
  | Some (Some n) =>
    match iFlag with
    | DELETE_INDEX => modify (delete key)
    | RESEND_INDEX =>
      r ← ResendIndex key (stIndexInfo n) enq;
      match r with
      | None => mret tt
      | Some now =>
        let n := {| stIndexInfo := stIndexInfo n; uiResendTimes := u32 (uiResendTimes n + 1); ulSendTimeTick := now |} in
        modify (insert key (Some n))
      end
    end
  end.

Fixpoint BatchDealIndex (indexKeyList : list (list Z)) (iFlag : deal_flag) (enq : list Z -> option Z) : rop unit :=
  match indexKeyList with
  | [] => mret tt
  | k :: l => _ ← deal_index iFlag (enq k) k; BatchDealIndex l iFlag enq
  end.

Definition CheckUnackedIndex (conn : bool) (tCurrent : Z) (enq : list Z -> option Z) : rop Z :=
  if negb conn then mret (-1)
  else
    m ← get;
    let '(delIndexKeyList, resendIndexKeyList) := collect tCurrent m in
    _ ← BatchDealIndex delIndexKeyList DELETE_INDEX enq;
    _ ← BatchDealIndex resendIndexKeyList RESEND_INDEX enq;
    mret 0.

(** ** What a call does to a record *)

Implicit Types (m : index_map) (k : list Z).

Lemma map_keys_elem m k : k ∈ map_keys m <-> is_Some (m !! k).
Proof.
  unfold map_keys. rewrite merge_sort_Permutation, list_elem_of_fmap. split.
  - intros ([k' p] & -> & Hin%elem_of_map_to_list). by exists p.
  - intros [p Hp]. exists (k, p). by rewrite elem_of_map_to_list.
Qed.
Lemma map_keys_NoDup m : NoDup (map_keys m).
Proof. unfold map_keys. rewrite merge_sort_Permutation. apply NoDup_fst_map_to_list. Qed.

(** No pointer of the map is null. *)
Definition index_map_ok m : Prop := forall k p, m !! k = Some p -> is_Some p.

Lemma wp_RecordPastIndex (alloc : bool) (now : Z) (u : Update_Record_Index) m (P : Z -> index_map -> list resend_event -> Prop) : index_map_ok m ->
  let key := MakeIndexInfoKey u in
  match m !! key with
  | Some (Some n) =>
    if u_EndTime (stIndexInfo n) <? u_EndTime u then
      P 0 (<[key := Some {| stIndexInfo := u; uiResendTimes := uiResendTimes n; ulSendTimeTick := ulSendTimeTick n |}]> m) []
    else P 0 m []
  | _ =>
    if alloc then
      P 0 (<[key := Some {| stIndexInfo := reconnect u; uiResendTimes := 0; ulSendTimeTick := now |}]> m) [Kept key]
    else P (-1) m []
  end -> wp (RecordPastIndex alloc now u) P m.
Proof.
  intros Hm key HP. unfold RecordPastIndex. cbn [RecordPastIndex_go]. fold key. do 2 wp_step.
  destruct (m !! key) as [[n|]|] eqn:E.
  - destruct (_ <? _); repeat wp_step; done.
  - by destruct (Hm _ _ E).
  - destruct alloc; cbn [negb]; repeat wp_step; done.
Qed.

Lemma wp_HandleReportConfirm (size : Z) (mb : option confirm_msg) m (P : Z -> index_map -> list resend_event -> Prop) :
  (forall r, P r m []) -> (forall c, mb = Some c -> P 0 (delete (MakeIndexInfoKey (confirm_index c)) m) []) ->
  wp (HandleReportConfirm size mb) P m.
Proof.
  intros H1 H2. unfold HandleReportConfirm. destruct mb as [c|]; [|by wp_step]. destruct (_ <? _); [by wp_step|].
  do 2 wp_step. destruct (m !! _); repeat wp_step; auto.
Qed.

Lemma wp_deal_delete (enq : option Z) k m (P : unit -> index_map -> list resend_event -> Prop) :
  P tt (delete k m) [] -> wp (deal_index DELETE_INDEX enq k) P m.
Proof.
  intros HP. unfold deal_index. do 2 wp_step. destruct (m !! k) as [[n|]|] eqn:E; wp_step; try done.
  by rewrite <-(delete_id m k).
Qed.

Definition resent_node (n : RecordIndexCacheNode) (now : Z) : RecordIndexCacheNode :=
  {| stIndexInfo := stIndexInfo n; uiResendTimes := u32 (uiResendTimes n + 1); ulSendTimeTick := now |}.

Lemma wp_deal_resend (enq : option Z) k m (P : unit -> index_map -> list resend_event -> Prop) : index_map_ok m ->
  match m !! k, enq with
  | Some (Some n), Some now => P tt (<[k := Some (resent_node n now)]> m) [Resent k (stIndexInfo n)]
  | _, _ => P tt m []
  end -> wp (deal_index RESEND_INDEX enq k) P m.
Proof.
  intros Hm HP. unfold deal_index, ResendIndex. do 2 wp_step. destruct (m !! k) as [[n|]|] eqn:E.
  - wp_step. destruct enq as [now|]; repeat wp_step; done.
  - by destruct (Hm _ _ E).
  - by wp_step.
Qed.

Lemma index_map_ok_insert m k (n : RecordIndexCacheNode) : index_map_ok m -> index_map_ok (<[k := Some n]> m).
Proof. intros Hm k' p. rewrite lookup_insert_Some. intros [[<- <-]|[_ ?]]; eauto. Qed.
Lemma index_map_ok_delete m k : index_map_ok m -> index_map_ok (delete k m).
Proof. intros Hm k' p. rewrite lookup_delete_Some. intros [_ ?]; eauto. Qed.

(** *** A check of the timer *)

Lemma batch_delete (l : list (list Z)) (enq : list Z -> option Z) m : wp (BatchDealIndex l DELETE_INDEX enq) (fun _ m' o => o = [] /\
  forall k, m' !! k = if decide (k ∈ l) then None else m !! k) m.
Proof.
  revert m. induction l as [|k l IH]; intros m; cbn [BatchDealIndex].
  - wp_step. split; [done|]. intros k. by rewrite decide_False by apply not_elem_of_nil.
  - wp_step. apply wp_deal_delete. eapply wp_mono; [apply IH|]. intros _ m' o [-> Hm']. split; [done|].
    intros k'. rewrite Hm'. destruct (decide (k' = k)) as [->|Hne].
    + rewrite lookup_delete_eq, (decide_True _ _ (P := k ∈ k :: l)) by left. by destruct (decide (k ∈ l)).
    + rewrite lookup_delete_ne by done. destruct (decide (k' ∈ l)) as [Hin|Hn].
      * by rewrite decide_True by by right.
      * rewrite decide_False; [done|]. by intros [?|?]%elem_of_cons.
Qed.

Definition sent_again (o : list resend_event) : list (list Z) :=
  omap (fun e => match e with Resent k _ => Some k | Kept _ => None end) o.

Lemma batch_resend (l : list (list Z)) (enq : list Z -> option Z) m : NoDup l -> index_map_ok m -> (forall k, k ∈ l -> is_Some (m !! k)) ->
  wp (BatchDealIndex l RESEND_INDEX enq) (fun _ m' o => sent_again o = filter (fun k => is_Some (enq k)) l /\
    forall k, m' !! k = if decide (k ∈ l) then
      match m !! k, enq k with Some (Some n), Some now => Some (Some (resent_node n now)) | p, _ => p end else m !! k) m.
Proof.
  intros Hnd. revert m. induction Hnd as [|k l Hk Hnd IH]; intros m Hm Hin; cbn [BatchDealIndex].
  { wp_step. split; [done|]. intros k. by rewrite decide_False by apply not_elem_of_nil. }
  wp_step. apply wp_deal_resend; [done|]. destruct (Hin k) as [p Hp]; [left|]. destruct (Hm _ _ Hp) as [n ->]. rewrite Hp.
  destruct (enq k) as [now|] eqn:Ek.
  - eapply wp_mono; [apply IH|].
    + by apply index_map_ok_insert.
    + intros k' Hk'. apply lookup_insert_is_Some'. right. apply Hin. by right.
    + intros _ m' o [Ho Hm']. split.
      * rewrite filter_cons_True by (rewrite Ek; eauto). by rewrite <-Ho.
      * intros k'. rewrite Hm'. destruct (decide (k' = k)) as [->|Hne].
        -- rewrite decide_False, decide_True by (done || left). by rewrite lookup_insert_eq, Hp, Ek.
        -- rewrite lookup_insert_ne by done. destruct (decide (k' ∈ l)) as [?|Hn].
           ++ by rewrite decide_True by by right.
           ++ rewrite decide_False; [done|]. by intros [?|?]%elem_of_cons.
  - eapply wp_mono; [apply IH; [done|]|].
    + intros k' Hk'. apply Hin. by right.
    + intros _ m' o [Ho Hm']. cbn [app]. split.
      * rewrite filter_cons_False by (rewrite Ek; by intros []). done.
      * intros k'. rewrite Hm'. destruct (decide (k' = k)) as [->|Hne].
        -- rewrite decide_False, decide_True by (done || left). by rewrite Hp, Ek.
        -- destruct (decide (k' ∈ l)) as [?|Hn].
           ++ by rewrite decide_True by by right.
           ++ rewrite decide_False; [done|]. by intros [?|?]%elem_of_cons.
Qed.

(** What a check makes of a record. *)
Definition checked (tCurrent : Z) (enq : option Z) (n : RecordIndexCacheNode) : option RecordIndexCacheNode :=
  if expired (Some n) then None
  else match enq with
    | Some now => if overdue tCurrent (Some n) then Some (resent_node n now) else Some n
    | None => Some n
    end.

Lemma overdue_not_expired tCurrent p : overdue tCurrent p = true -> expired p = false.
Proof. destruct p as [n|]; cbn; [|done]. by destruct (_ <? _). Qed.

Lemma collect_keys tCurrent m k : index_map_ok m ->
  (k ∈ (collect tCurrent m).1 <-> exists n, m !! k = Some (Some n) /\ expired (Some n) = true) /\
  (k ∈ (collect tCurrent m).2 <-> exists n, m !! k = Some (Some n) /\ overdue tCurrent (Some n) = true).
Proof.
  intros Hm. unfold collect. cbn [fst snd]. rewrite !list_elem_of_filter, !map_keys_elem. split; split.
  1,3: intros [H1 [p Hp]]; destruct (Hm _ _ Hp) as [n ->]; rewrite Hp in H1; eauto.
  all: intros (n & Hn & H1); rewrite Hn; eauto.
Qed.

(** A check of the timer, connected to the store, does to every record exactly what
    is due: a record that was sent again more than [UNACKED_INDEX_RESEND_TIMES] times is
    dropped; a record that was last sent more than [UNACKED_INDEX_RESEND_INTERVAL]
    seconds ago is sent again, once, in the order of the keys, and its count and time are
    renewed if the queue took it; every other record stays as it is. *)
Theorem check_exact tCurrent enq m : index_map_ok m -> exists m' o, CheckUnackedIndex true tCurrent enq m = Some (0, m', o) /\
  (forall k, m' !! k = match m !! k with Some (Some n) => Some <$> checked tCurrent (enq k) n | p => p end) /\
  sent_again o = filter (fun k => is_Some (enq k)) (collect tCurrent m).2 /\ NoDup (sent_again o).
Proof.
  intros Hm.
  enough (wp (CheckUnackedIndex true tCurrent enq) (fun r m' o => r = 0 /\
    (forall k, m' !! k = match m !! k with Some (Some n) => Some <$> checked tCurrent (enq k) n | p => p end) /\
    sent_again o = filter (fun k => is_Some (enq k)) (collect tCurrent m).2) m) as Hw.
  { apply wp_elim in Hw as (r & m' & o & -> & -> & Hk & Ho). exists m', o. split_and!; [done|done|done|].
    rewrite Ho. do 2 apply NoDup_filter. apply map_keys_NoDup. }
  unfold CheckUnackedIndex. cbn [negb]. do 2 wp_step.
  pose proof (fun k => collect_keys tCurrent m k Hm) as Hc. assert (NoDup (collect tCurrent m).2) as Hnd
    by (apply NoDup_filter, map_keys_NoDup).
  destruct (collect tCurrent m) as [dels res]. cbn [fst snd] in *. wp_step.
  eapply wp_mono; [apply batch_delete|]. intros _ m1 o1 [-> Hm1]. wp_step.
  assert (Hres : forall k, k ∈ res -> m1 !! k = m !! k).
  { intros k Hk. rewrite Hm1, decide_False; [done|]. intros Hd. apply Hc in Hd as (n & Hn & He), Hk as (n' & Hn' & Ho).
    simplify_eq. by rewrite (overdue_not_expired tCurrent) in He. }
  eapply wp_mono; [apply batch_resend; [done| |]|].
  - intros k p. rewrite Hm1. destruct (decide _); [done|apply Hm].
  - intros k Hk. rewrite Hres by done. apply Hc in Hk as (n & -> & _). eauto.
  - intros _ m2 o2 [Ho Hm2]. wp_step. rewrite app_nil_r. cbn [app]. split_and!; [done| |done].
    intros k. rewrite Hm2. destruct (m !! k) as [[n|]|] eqn:Ek.
    + unfold checked. destruct (decide (k ∈ res)) as [Hk|Hk].
      * rewrite Hres, Ek by done. apply Hc in Hk as (n' & Hn' & Hod). rewrite Hn' in Ek. simplify_eq.
        rewrite (overdue_not_expired _ _ Hod), Hod. by destruct (enq k).
      * assert (overdue tCurrent (Some n) = false) as -> by (apply not_true_iff_false; intros ?; apply Hk, Hc; eauto).
        rewrite Hm1. destruct (expired (Some n)) eqn:He.
        -- rewrite decide_True by (apply Hc; eauto). done.
        -- rewrite decide_False; [by destruct (enq k)|]. intros Hd. apply Hc in Hd as (n' & ? & ?). congruence.
    + by destruct (Hm _ _ Ek).
    + assert (m1 !! k = None) as -> by (rewrite Hm1, Ek; by destruct (decide _)). by destruct (decide _).
Qed.

(** ** The threads *)

(** The keys the timer has still to delete and to send, and what comes between them. *)
Record resend_world : Type := { rw_map : index_map; rw_delete : list (list Z); rw_resend : list (list Z) }.

Inductive resend_call : Type :=
  | CRecord (alloc : bool) (now : Z) (u : Update_Record_Index)
  | CConfirm (mb : option confirm_msg)
  | CCheck (conn : bool) (tCurrent : Z)
  | CDeal (enq : option Z).

Definition on_map {A} (p : rop A) (d r : list (list Z)) : M resend_world resend_event unit := fun w =>
  match p (rw_map w) with
  | Some (_, m, o) => Some (tt, {| rw_map := m; rw_delete := d; rw_resend := r |}, o)
  | None => None
  end.

(** The timer's thread collects when it has nothing left to do. *)
Definition resend_step (size : Z) (c : resend_call) : M resend_world resend_event unit :=
  w ← get;
  match c with
  | CRecord alloc now u => on_map (RecordPastIndex alloc now u) (rw_delete w) (rw_resend w)
  | CConfirm mb => on_map (HandleReportConfirm size mb) (rw_delete w) (rw_resend w)
  | CCheck conn tCurrent =>
    match conn, rw_delete w, rw_resend w with
    | true, [], [] =>
      let '(d, r) := collect tCurrent (rw_map w) in
      modify (fun w => {| rw_map := rw_map w; rw_delete := d; rw_resend := r |})
    | _, _, _ => mret tt
    end
  | CDeal enq =>
    match rw_delete w, rw_resend w with
    | k :: d, r => on_map (deal_index DELETE_INDEX enq k) d r
    | [], k :: r => on_map (deal_index RESEND_INDEX enq k) [] r
    | [], [] => mret tt
    end
  end.

Fixpoint resend_run (size : Z) (cs : list resend_call) : M resend_world resend_event unit :=
  match cs with [] => mret tt | c :: cs => _ ← resend_step size c; resend_run size cs end.

Lemma wp_on_map {A} (p : rop A) (d r : list (list Z)) (w : resend_world) P :
  wp p (fun _ m o => P tt {| rw_map := m; rw_delete := d; rw_resend := r |} o) (rw_map w) -> wp (on_map p d r) P w.
Proof. unfold wp, on_map. by destruct (p (rw_map w)) as [[[a m] o]|]. Qed.

(** How often a record was sent again since it was kept. *)
Definition times_sent k (log : list resend_event) : Z :=
  foldl (fun n e => match e with
    | Kept k' => if decide (k' = k) then 0 else n
    | Resent k' _ => if decide (k' = k) then n + 1 else n
    end) 0 log.

Lemma times_sent_app k log e : times_sent k (log ++ [e]) = match e with
  | Kept k' => if decide (k' = k) then 0 else times_sent k log
  | Resent k' _ => if decide (k' = k) then times_sent k log + 1 else times_sent k log
  end.
Proof. unfold times_sent. by rewrite foldl_app. Qed.

Record resend_ok (w : resend_world) (log : list resend_event) : Prop := {
  ro_map : index_map_ok (rw_map w);
  ro_times : forall k n, rw_map w !! k = Some (Some n) -> uiResendTimes n = times_sent k log;
  ro_todo : forall k n, k ∈ rw_resend w -> rw_map w !! k = Some (Some n) -> uiResendTimes n <= UNACKED_INDEX_RESEND_TIMES;
  ro_bound : forall k, 0 <= times_sent k log <= UNACKED_INDEX_RESEND_TIMES + 1;
  ro_once : NoDup (rw_resend w) }.

Lemma resend_ok_map w log m (d r : list (list Z)) : resend_ok w log -> index_map_ok m ->
  (forall k n, m !! k = Some (Some n) -> exists n', rw_map w !! k = Some (Some n') /\ uiResendTimes n' = uiResendTimes n) ->
  (forall k, k ∈ r -> k ∈ rw_resend w) -> NoDup r -> resend_ok {| rw_map := m; rw_delete := d; rw_resend := r |} log.
Proof.
  intros [H1 H2 H3 H4 H5] Hm Hn Hr Hnd. split; cbn; try done.
  - intros k n (n' & Hn' & <-)%Hn. auto.
  - intros k n Hk (n' & Hn' & <-)%Hn. eauto.
Qed.

Lemma resend_ok_delete w log k (d r : list (list Z)) : resend_ok w log -> (forall k, k ∈ r -> k ∈ rw_resend w) -> NoDup r ->
  resend_ok {| rw_map := delete k (rw_map w); rw_delete := d; rw_resend := r |} log.
Proof.
  intros Hw Hr Hnd. apply (resend_ok_map w); [done|by apply index_map_ok_delete, Hw| |done|done].
  intros k' n [_ Hn]%lookup_delete_Some. eauto.
Qed.

Lemma resend_ok_kept w log k n : resend_ok w log -> uiResendTimes n = 0 ->
  resend_ok {| rw_map := <[k := Some n]> (rw_map w); rw_delete := rw_delete w; rw_resend := rw_resend w |} (log ++ [Kept k]).
Proof.
  intros [H1 H2 H3 H4 H5] Hn. split; cbn; try done.
  - by apply index_map_ok_insert.
  - intros k' n'. rewrite times_sent_app, lookup_insert_Some. destruct (decide (k = k')); naive_solver.
  - intros k' n' Hk'. rewrite lookup_insert_Some. intros [[<- [= <-]]|[_ ?]]; [rewrite Hn; done|eauto].
  - intros k'. rewrite times_sent_app. destruct (decide _); [unfold UNACKED_INDEX_RESEND_TIMES; lia|apply H4].
Qed.

Lemma resend_ok_sent w log k n now r u : resend_ok w log -> rw_resend w = k :: r -> rw_map w !! k = Some (Some n) ->
  resend_ok {| rw_map := <[k := Some (resent_node n now)]> (rw_map w); rw_delete := []; rw_resend := r |}
    (log ++ [Resent k u]).
Proof.
  intros [H1 H2 H3 H4 H5] Er Hn. rewrite Er in *. apply NoDup_cons in H5 as [Hk Hnd].
  pose proof (H2 _ _ Hn) as Ht. pose proof (H3 k n ltac:(left) Hn) as Hle. pose proof (H4 k) as Hb.
  unfold UNACKED_INDEX_RESEND_TIMES in *. split; cbn; try done.
  - by apply index_map_ok_insert.
  - intros k' n'. rewrite times_sent_app, lookup_insert_Some. destruct (decide (k = k')) as [<-|]; [|naive_solver].
    intros [[_ [= <-]]|[? _]]; [|done]. cbn. unfold u32. rewrite wrap_small by (unfold fits; lia). lia.
  - intros k' n' Hk'. rewrite lookup_insert_Some. intros [[<- _]|[_ ?]]; [done|]. apply (H3 k'); [by right|done].
  - intros k'. rewrite times_sent_app. destruct (decide (k = k')) as [<-|]; [unfold UNACKED_INDEX_RESEND_TIMES; lia|apply H4].
Qed.

Lemma resend_step_ok size c w log : resend_ok w log -> wp (resend_step size c) (fun _ w' o => resend_ok w' (log ++ o)) w.
Proof.
  intros Hw. unfold resend_step. do 2 wp_step.
  assert (Hsame : resend_ok {| rw_map := rw_map w; rw_delete := rw_delete w; rw_resend := rw_resend w |} log) by by destruct w.
  destruct c as [alloc now u|mb|conn tCurrent|enq].
  - apply wp_on_map. apply wp_RecordPastIndex; [apply Hw|]. destruct (rw_map w !! _) as [[n|]|] eqn:E.
    + rewrite ?app_nil_r. destruct (_ <? _); [|done]. apply (resend_ok_map w); try done; [by apply index_map_ok_insert, Hw| |apply Hw].
      intros k n'. rewrite lookup_insert_Some. intros [[<- [= <-]]|[_ ?]]; eauto.
    + destruct alloc; [by apply resend_ok_kept|by rewrite ?app_nil_r].
    + destruct alloc; [by apply resend_ok_kept|by rewrite ?app_nil_r].
  - apply wp_on_map. apply wp_HandleReportConfirm; [intros _; by rewrite app_nil_r|]. intros c _. rewrite ?app_nil_r.
    apply resend_ok_delete; [done|done|apply Hw].
  - destruct conn, (rw_delete w), (rw_resend w); try (wp_step; by rewrite ?app_nil_r).
    pose proof (fun k => collect_keys tCurrent (rw_map w) k (ro_map _ _ Hw)) as Hc.
    assert (NoDup (collect tCurrent (rw_map w)).2) as Hnd by (apply NoDup_filter, map_keys_NoDup).
    destruct (collect tCurrent (rw_map w)) as [d r]. wp_step. rewrite ?app_nil_r. cbn [fst snd] in *.
    destruct Hw as [H1 H2 H3 H4 H5]. split; try done. cbn. intros k n Hk Hn. apply Hc in Hk as (n' & Hn' & Ho).
    simplify_eq. unfold overdue in Ho. apply andb_true_iff in Ho as [Ho _]. cbn [fst snd]. lia.
  - destruct (rw_delete w) as [|k d] eqn:Ed; [destruct (rw_resend w) as [|k r] eqn:Er|].
    + wp_step. by rewrite ?app_nil_r.
    + pose proof (ro_once _ _ Hw) as Hnd. rewrite Er in Hnd. apply NoDup_cons in Hnd as [Hk Hnd].
      assert (Hrest : resend_ok {| rw_map := rw_map w; rw_delete := []; rw_resend := r |} log).
      { apply (resend_ok_map w); try done; [apply Hw|eauto|]. intros k'. rewrite Er. by right. }
      apply wp_on_map. apply wp_deal_resend; [apply Hw|].
      destruct (rw_map w !! k) as [[n|]|] eqn:E; [|by rewrite ?app_nil_r..].
      destruct enq as [now|]; [|by rewrite ?app_nil_r]. by eapply resend_ok_sent.
    + apply wp_on_map. apply wp_deal_delete. rewrite ?app_nil_r. apply resend_ok_delete; [done|done|apply Hw].
Qed.

(** C13: A record is sent again at most [UNACKED_INDEX_RESEND_TIMES + 1] times from when it
    is kept, and its count is then never beyond the bound: for any order of records,
    confirmations, checks and steps of the timer, also between the keys of one check, in
    which the memory or the queue may fail. No step faults. *)
Theorem resend_bounded size cs : exists w log,
  resend_run size cs {| rw_map := ∅; rw_delete := []; rw_resend := [] |} = Some (tt, w, log) /\
  (forall k, times_sent k log <= UNACKED_INDEX_RESEND_TIMES + 1) /\
  (forall k n, rw_map w !! k = Some (Some n) -> uiResendTimes n = times_sent k log).
Proof.
  enough (forall w log, resend_ok w log -> wp (resend_run size cs) (fun _ w' o => resend_ok w' (log ++ o)) w) as Hw.
  { assert (H0 : resend_ok {| rw_map := ∅; rw_delete := []; rw_resend := [] |} []) by (split; try done; constructor).
    destruct (wp_elim _ _ _ (Hw _ _ H0)) as ([] & w & log & -> & Hok).
    exists w, log. split; [done|]. split; [intros k; apply Hok|apply Hok]. }
  induction cs as [|c cs IH]; intros w log Hw; cbn [resend_run]; [wp_step; by rewrite ?app_nil_r|].
  wp_step. eapply wp_mono; [by apply resend_step_ok|]. intros [] w1 o1 Hw1.
  eapply wp_mono; [by apply IH|]. intros [] w2 o2 Hw2. by rewrite app_assoc.
Qed.

(** ** The records of the index list *)

(** What [sendDBRecordIndex] gives to the manager, of the requests it makes. *)
Fixpoint past_all (now : Z) (o : list Update_Record_Index) : rop unit :=
  match o with
  | [] => mret tt
  | u :: o =>
    _ ← match u_RecordReportType u with REPORT_INDEX_TYPE_OVER => RecordPastIndex true now u | _ => mret 0 end;
    past_all now o
  end.

(** A node for the record, that ends no earlier. *)
Definition kept_for m (u : Update_Record_Index) : Prop :=
  exists n, m !! MakeIndexInfoKey u = Some (Some n) /\ u_EndTime u <= u_EndTime (stIndexInfo n).

Lemma past_one (now : Z) (u : Update_Record_Index) m : index_map_ok m ->
  wp (RecordPastIndex true now u) (fun r m' _ => r = 0 /\ index_map_ok m' /\ kept_for m' u /\
    forall v, kept_for m v -> kept_for m' v) m.
Proof.
  intros Hm. apply wp_RecordPastIndex; [done|]. cbv zeta. destruct (m !! MakeIndexInfoKey u) as [[n|]|] eqn:E.
  - destruct (Z.ltb_spec (u_EndTime (stIndexInfo n)) (u_EndTime u)) as [Hlt|Hge].
    + split_and!; [done|by apply index_map_ok_insert|eexists; by rewrite lookup_insert_eq|].
      intros v (n' & Hn' & Hle). unfold kept_for. destruct (decide (MakeIndexInfoKey u = MakeIndexInfoKey v)) as [Ek|Hne].
      * rewrite <-Ek, lookup_insert_eq. rewrite <-Ek, E in Hn'. simplify_eq. eexists. split; [done|]. cbn. lia.
      * rewrite lookup_insert_ne by done. eauto.
    + split_and!; [done|done|by exists n|done].
  - by destruct (Hm _ _ E).
  - split_and!; [done|by apply index_map_ok_insert| |].
    + eexists. rewrite lookup_insert_eq. split; [done|]. by destruct u.
    + intros v (n' & Hn' & Hle). unfold kept_for. exists n'. rewrite lookup_insert_ne; [done|congruence].
Qed.

(** No record that is over is lost on the way to the manager: of the requests of an
    index list, each that reports the end of a record has then a node under its key, which
    ends no earlier, also when the record was kept before; the nodes of other records
    stay. *)
Theorem over_is_kept (o : list Update_Record_Index) (now : Z) m : index_map_ok m -> exists m' o', past_all now o m = Some (tt, m', o') /\
    index_map_ok m' /\ (forall v, kept_for m v -> kept_for m' v) /\
    forall u, u ∈ o -> u_RecordReportType u = REPORT_INDEX_TYPE_OVER -> kept_for m' u.
Proof.
  intros Hm. enough (wp (past_all now o) (fun _ m' _ => index_map_ok m' /\ (forall v, kept_for m v -> kept_for m' v) /\
    forall u, u ∈ o -> u_RecordReportType u = REPORT_INDEX_TYPE_OVER -> kept_for m' u) m) as Hw
    by (apply wp_elim in Hw as ([] & m' & o' & -> & ?); eauto).
  revert m Hm. induction o as [|u o IH]; intros m Hm; cbn [past_all].
  { wp_step. split_and!; [done|done|]. by intros u ?%not_elem_of_nil. }
  wp_step. eapply (wp_mono _ (fun _ m1 _ => index_map_ok m1 /\ (forall v, kept_for m v -> kept_for m1 v) /\
    (u_RecordReportType u = REPORT_INDEX_TYPE_OVER -> kept_for m1 u))).
  - destruct (u_RecordReportType u); [by wp_step| |by wp_step].
    eapply wp_mono; [by apply past_one|]. by intros r m1 o1 (_ & ? & ? & ?).
  - intros _ m1 _ (Hm1 & Hk1 & Hu1). eapply wp_mono; [by apply IH|]. intros _ m2 _ (Hm2 & Hk2 & Hall). split_and!; [done|auto|].
    intros v [->|Hv]%elem_of_cons Hover; auto.
Qed.

(** ** Keys *)

Lemma hex_digit_inj a b : 0 <= a < 16 -> 0 <= b < 16 -> hex_digit a = hex_digit b -> a = b.
Proof. unfold hex_digit. destruct (Z.ltb_spec a 10), (Z.ltb_spec b 10); lia. Qed.

Lemma hex_digits_inj (n : nat) a b : 0 <= a < 16 ^ Z.of_nat n -> 0 <= b < 16 ^ Z.of_nat n ->
  (forall i, 0 <= i < Z.of_nat n -> a / 16 ^ i mod 16 = b / 16 ^ i mod 16) -> a = b.
Proof.
  revert a b. induction n as [|n IH]; intros a b Ha Hb Hd; [cbn in *; lia|].
  rewrite Nat2Z.inj_succ, Z.pow_succ_r in Ha, Hb by lia.
  assert (a / 16 = b / 16) as Hq.
  { apply IH; [lia|lia|]. intros i Hi. specialize (Hd (Z.succ i) ltac:(lia)). rewrite Z.pow_succ_r in Hd by lia.
    by rewrite !Z.div_div by lia. }
  specialize (Hd 0 ltac:(lia)). rewrite Z.pow_0_r, !Z.div_1_r in Hd.
  rewrite (Z.div_mod a 16), (Z.div_mod b 16) by lia. congruence.
Qed.

Lemma hex8_inj a b : fits 32 a -> fits 32 b -> hex8 a = hex8 b -> a = b.
Proof.
  intros Ha Hb E. apply (hex_digits_inj 8); [exact Ha|exact Hb|]. intros i Hi.
  apply hex_digit_inj; [apply Z.mod_pos_bound; lia|apply Z.mod_pos_bound; lia|].
  unfold hex8 in E. cbn [fmap list_fmap] in E. injection E as E7 E6 E5 E4 E3 E2 E1 E0.
  assert (i = 0 \/ i = 1 \/ i = 2 \/ i = 3 \/ i = 4 \/ i = 5 \/ i = 6 \/ i = 7) as Hc by lia.
  destruct Hc as [->|[->|[->|[->|[->|[->|[->| ->]]]]]]]; assumption.
Qed.

Lemma key_full u : (length (u_LensId u) <= 32)%nat -> MakeIndexInfoKey u = hex8 (u32 (u_StartTime u)) ++ [95] ++ u_LensId u.
Proof. intros Hl. unfold MakeIndexInfoKey. apply take_ge. rewrite !length_app. cbn [hex8 length fmap list_fmap]. unfold INDEX_KEY_LEN. lia. Qed.

Lemma key_inj u v : (length (u_LensId u) <= 32)%nat -> (length (u_LensId v) <= 32)%nat ->
  MakeIndexInfoKey u = MakeIndexInfoKey v -> u32 (u_StartTime u) = u32 (u_StartTime v) /\ u_LensId u = u_LensId v.
Proof.
  intros Hu Hv. rewrite !key_full by done. intros E. apply app_inj_1 in E as [E1 E2]; [|done]. split; [|by injection E2].
  apply hex8_inj; [by apply wrap_fits|by apply wrap_fits|done].
Qed.

(** A confirmation takes the record it names, and no other: of the records that are
    kept, those of another camera or another start remain. *)
Theorem confirm_exact size c m : size <= PacketLength c -> exists m', HandleReportConfirm size (Some c) m = Some (0, m', []) /\
  (forall u, u32 (u_StartTime u) = u32 (IndexStartTime c) -> u_LensId u = SetLocalizeDeviceId (DeviceID c) ->
     m' !! MakeIndexInfoKey u = None) /\
  (forall u, (length (u_LensId u) <= 32)%nat ->
     u32 (u_StartTime u) <> u32 (IndexStartTime c) \/ u_LensId u <> SetLocalizeDeviceId (DeviceID c) ->
     m' !! MakeIndexInfoKey u = m !! MakeIndexInfoKey u).
Proof.
  intros Hsz. set (k := MakeIndexInfoKey (confirm_index c)).
  assert (HandleReportConfirm size (Some c) m = Some (0, delete k m, [])) as E.
  { unfold HandleReportConfirm. rewrite (proj2 (Z.ltb_ge _ _) Hsz), get_bind. fold k. destruct (m !! k) eqn:Ek.
    - by rewrite modify_bind.
    - by rewrite delete_id. }
  exists (delete k m). split; [done|]. split.
  - intros u Hs Hl. assert (MakeIndexInfoKey u = k) as -> by (unfold k, MakeIndexInfoKey; cbn; by rewrite Hs, Hl).
    apply lookup_delete_eq.
  - intros u Hu Hne. apply lookup_delete_ne. intros Ek. symmetry in Ek. apply key_inj in Ek as [E1 E2]; [|done|].
    + cbn in E1, E2. tauto.
    + cbn. unfold SetLocalizeDeviceId. rewrite length_take. unfold LOCALIZE_DEVICE_ID_MAX_LEN. lia.
Qed.

(** ** Examples *)

Definition demo_over (a b : Z) : Update_Record_Index :=
  {| u_Type := RECORD_INDEX_TYPE_UPDATE; u_LensId := chars "cam01"; u_ChangeBeforeStartTime := 0; u_StartTime := a;
     u_EndTime := b; u_VideoFlux := 1; u_RecordReportType := REPORT_INDEX_TYPE_OVER; u_RecordFilePath := [] |}.
Definition demo_node (a b n tick : Z) : RecordIndexCacheNode :=
  {| stIndexInfo := reconnect (demo_over a b); uiResendTimes := n; ulSendTimeTick := tick |}.

Example demo_key : MakeIndexInfoKey (demo_over 6029 7000) = chars "0000178d_cam01".
Proof. vm_compute. reflexivity. Qed.

(** Kept at 0 and never confirmed: it is sent at 121, 242, 363 and 484, and dropped. *)
Example demo_resend : option_map (fun r => (r.1.2, r.2)) (resend_run 100
    (CRecord true 0 (demo_over 10 20) ::
     mjoin ((fun t => [CCheck true t; CDeal (Some t)]) <$> [60; 121; 180; 242; 363; 484; 540]))
    {| rw_map := ∅; rw_delete := []; rw_resend := [] |}) =
  Some ({| rw_map := ∅; rw_delete := []; rw_resend := [] |},
        let k := MakeIndexInfoKey (demo_over 10 20) in let u := reconnect (demo_over 10 20) in
        [Kept k; Resent k u; Resent k u; Resent k u; Resent k u]).
Proof. vm_compute. reflexivity. Qed.

(** A record that is kept again with a later end is no longer marked as sent again. *)
Example demo_later : option_map (fun r => r.1.2 !! MakeIndexInfoKey (demo_over 10 20))
    (past_all 0 [demo_over 10 20; demo_over 10 30] ∅) =
  Some (Some (Some {| stIndexInfo := demo_over 10 30; uiResendTimes := 0; ulSendTimeTick := 0 |})).
Proof. vm_compute. reflexivity. Qed.

Definition demo_map : index_map :=
  {[ MakeIndexInfoKey (demo_over 10 20) := Some (demo_node 10 20 4 500);
     MakeIndexInfoKey (demo_over 30 40) := Some (demo_node 30 40 1 500) ]}.
Lemma demo_map_ok : index_map_ok demo_map.
Proof.
  intros k p. unfold demo_map. rewrite lookup_insert_Some. intros [[_ <-]|[_ H]]; [eauto|].
  apply lookup_singleton_Some in H as [_ <-]. eauto.
Defined.

Lemma check_exact_witness : exists m' o, CheckUnackedIndex true 700 (fun _ => Some 701) demo_map = Some (0, m', o) /\
  (forall k, m' !! k = match demo_map !! k with Some (Some n) => Some <$> checked 700 (Some 701) n | p => p end) /\
  sent_again o = filter (fun k => is_Some (Some 701)) (collect 700 demo_map).2 /\ NoDup (sent_again o).
Proof. exact (check_exact 700 (fun _ => Some 701) demo_map demo_map_ok). Defined.

Lemma over_is_kept_witness : exists m' o', past_all 0 [demo_over 10 25; demo_over 50 60] demo_map = Some (tt, m', o') /\
  index_map_ok m' /\ (forall v, kept_for demo_map v -> kept_for m' v) /\
  forall u, u ∈ [demo_over 10 25; demo_over 50 60] -> u_RecordReportType u = REPORT_INDEX_TYPE_OVER -> kept_for m' u.
Proof. exact (over_is_kept _ 0 demo_map demo_map_ok). Defined.

Definition demo_confirm : confirm_msg :=
  {| PacketLength := 200; DeviceID := chars "cam01"; IndexStartTime := 30; IndexEndTime := 40 |}.
Lemma confirm_exact_witness : exists m', HandleReportConfirm 120 (Some demo_confirm) demo_map = Some (0, m', []) /\
  (forall u, u32 (u_StartTime u) = u32 30 -> u_LensId u = SetLocalizeDeviceId (chars "cam01") ->
     m' !! MakeIndexInfoKey u = None) /\
  (forall u, (length (u_LensId u) <= 32)%nat ->
     u32 (u_StartTime u) <> u32 30 \/ u_LensId u <> SetLocalizeDeviceId (chars "cam01") ->
     m' !! MakeIndexInfoKey u = demo_map !! MakeIndexInfoKey u).
Proof. apply (confirm_exact 120 demo_confirm demo_map). cbn. lia. Defined.
