(* ===== verification/RtspPacket.v ===== *)
(** * RTSP messages: [svs_adapter_rtsp_packet.cpp]

    [CRtspPacket] reads a message line by line, and writes requests and responses.
    [checkRtsp] is in RtpTcpConnect.v.

    A message to be read is the memory from its first byte on; [None] is a read behind
    that memory, or behind [RtspUrl]. The functions of the C library on numbers and
    addresses ([strtoul] with base 0, [inet_addr], [inet_ntoa]) are written out; a
    [double] is the interface [Doubles], and [strptime] with [mktime], and
    [localtime_r] with the format of a clock time, are the interface [Clock]. *)

From Stdlib Require Import String Ascii.
From S2P Require Import Prelude Text RtpTcpConnect.
Open Scope Z_scope.

Class Doubles : Type := {
  double : Type; dzero : double; is_zero : double -> bool;
  atof : list Z -> double; print_double : double -> list Z }.

(** The time a text begins with; the text of a time. *)
Class Clock : Type := { read_clock : list Z -> option Z; print_clock : Z -> list Z }.

(** ** Texts *)

Definition RTSP_VERSION : list Z := chars "RTSP/1.0".
Definition RTSP_USER_AGENT : list Z := chars "AllCam adapter/v1.0.0.0".
Definition RTSP_URL_PROTOCOL : list Z := chars "rtsp://".
Definition RTSP_DEFAULT_PORT : Z := 554.
Definition RTSP_MAX_DEVID_LENGTH : Z := 33.
Definition RTSP_MAX_URL_LENGTH : Z := 512.
Definition RTSP_STATUS_CODE_LENGTH : nat := 3.

Definition m_strRtspHeaders : list (list Z) :=
  chars <$> ["CSeq"; "User-Agent"; "Session"; "Range"; "Scale"; "Speed"; "Content-Length"; "Transport"; "Content-Type";
             "RTP-Info"; "x-NAT-Info"; "X-PLAYINFO"; "X-PLAYCTRL"]%string.
Definition m_strRtspStatusCode : list (list Z) :=
  chars <$> ["200 OK"; "300 Multiple Choices"; "400 Bad Request"; "401 Unauthorized"; "404 Not Found"; "406 Not Acceptable";
             "500 Internal Server Error"; "Unknown"]%string.
Definition method (i : Z) : list Z := nth (Z.to_nat i) m_strRtspMethods [].
Definition header (i : Z) : list Z := nth (Z.to_nat i) m_strRtspHeaders [].
Definition status (i : Z) : list Z := nth (Z.to_nat i) m_strRtspStatusCode [].

Definition RtspSetParameterMethod : Z := 8.
Definition RtspResponseMethod : Z := 11.
Definition RtspIllegalMethod : Z := 12.

Definition RtspCseqHeader : Z := 0.
Definition RtspUserAgentHeader : Z := 1.
Definition RtspSessionHeader : Z := 2.
Definition RtspRangeHeader : Z := 3.
Definition RtspScaleHeader : Z := 4.
Definition RtspSpeedHeader : Z := 5.
Definition RtspContentLengthHeader : Z := 6.
Definition RtspTransPortHeader : Z := 7.
Definition RtspRtpInfoHeader : Z := 8.
Definition RtspContentType : Z := 9.
Definition RtspXNatInfoHeader : Z := 10.
Definition RtspXPlayInfoHeader : Z := 11.
Definition RtspXPlayCtrl : Z := 12.
Definition RtspNotAcceptedHeader : Z := 13.

Definition RtspNotAcceptedStatus : Z := 7.

Inductive RTSP_NAT_TYPE : Set := RTSP_NAT_TYPE_RTP | RTSP_NAT_TYPE_RTCP | RTSP_INVALID_NAT_TYPE.
Inductive RTSP_XPLAYINFO_TYPE : Set :=
  RTSP_XPLAYINFO_TYPE_EOS | RTSP_XPLAYINFO_TYPE_BOS | RTSP_XPLAYINFO_TYPE_CLOSE | RTSP_XPLAYINFO_INVALID_TYPE.
Inductive TIME_TYPE : Set := ABSOLUTE_TIME | RELATIVE_TIME.

(** The index of the first entry that [p] accepts, or the number of the entries. *)
Fixpoint index_of (p : list Z -> bool) (l : list (list Z)) : Z :=
  match l with [] => 0 | s :: l => if p s then 0 else 1 + index_of p l end.

Definition lower (c : Z) : Z := if (65 <=? c) && (c <=? 90) then c + 32 else c.
(** [strncasecmp] with a text of that length; with the length of the text and its end. *)
Definition starts_ci (pat l : list Z) : bool := starts (lower <$> pat) (lower <$> l).
Definition equal_ci (a b : list Z) : bool := bool_decide (lower <$> a = lower <$> b).

(** ** Numbers and addresses of the C library *)

Definition digit_value (c : Z) : option Z :=
  if is_digit c then Some (c - 48)
  else let c := lower c in if (97 <=? c) && (c <=? 122) then Some (c - 87) else None.

(** The digits at the beginning, their value, and what is behind them. *)
Fixpoint number (base : Z) (l : list Z) (acc : Z) : Z * list Z :=
  match l with
  | c :: l' =>
    match digit_value c with
    | Some d => if d <? base then number base l' (acc * base + d) else (acc, l)
    | None => (acc, l)
    end
  | [] => (acc, [])
  end.

Definition is_hex (l : list Z) : bool :=
  match l with
  | 48 :: x :: d :: _ => (lower x =? 120) && match digit_value d with Some v => v <? 16 | None => false end
  | _ => false
  end.
(** A number with the prefix of its base. *)
Definition number0 (l : list Z) : Z * list Z :=
  if is_hex l then number 16 (drop 2 l) 0
  else match l with 48 :: l' => number 8 l' 0 | _ => number 10 l 0 end.

(** [strtoul (l, NULL, 0)] of 64 bits, and [strtoull]. *)
Definition strtoul (l : list Z) : Z :=
  let limit (neg : bool) v := if 2 ^ 64 <=? v then 2 ^ 64 - 1 else if neg then u64 (- v) else v in
  match skip_space l with
  | [] => 0
  | c :: l' =>
    if c =? 45 then limit true (number0 l').1
    else limit false (number0 (if c =? 43 then l' else c :: l')).1
  end.

(** [inet_addr], in host order: up to four parts, of which the last fills the rest;
    [INADDR_NONE] when there is none. *)
Definition INADDR_NONE : Z := 2 ^ 32 - 1.
Fixpoint inet_parts (fuel : nat) (l : list Z) : option (list Z * list Z) :=
  match fuel, l with
  | S fuel, c :: _ =>
    if negb (is_digit c) then None
    else
      let '(v, rest) := number0 l in
      if 2 ^ 32 <=? v then None
      else match rest with
        | 46 :: rest =>
          if 255 <? v then None else '(ps, rest) ← inet_parts fuel rest; Some (v :: ps, rest)
        | _ => Some ([v], rest)
        end
  | _, _ => None
  end.
Definition inet_addr (l : list Z) : Z :=
  match inet_parts 4 l with
  | None => INADDR_NONE
  | Some (ps, rest) =>
    let ends := match rest with [] => true | c :: _ => is_space c end in
    if negb ends then INADDR_NONE
    else match ps with
      | [a; b; c; d] => if d <=? 255 then ((a * 256 + b) * 256 + c) * 256 + d else INADDR_NONE
      | [a; b; c] => if c <=? 65535 then (a * 256 + b) * 65536 + c else INADDR_NONE
      | [a; b] => if b <=? 16777215 then a * 16777216 + b else INADDR_NONE
      | [a] => a
      | _ => INADDR_NONE
      end
  end.

Definition inet_ntoa (ip : Z) : list Z :=
  decimal (ip / 16777216) ++ [46] ++ decimal (ip / 65536 mod 256) ++ [46] ++ decimal (ip / 256 mod 256) ++ [46] ++
  decimal (ip mod 256).

(** [uint64ToStr] prints with ["%lld"]. *)
Definition uint64ToStr (num : Z) : list Z := if num <? 2 ^ 63 then decimal num else 45 :: decimal (2 ^ 64 - num).
Definition uint32ToStr (num : Z) : list Z := decimal num.

(** ** The packet *)

Record RTSP_NAT_INFO : Type := { NatType : RTSP_NAT_TYPE; LocalIp : Z; LocalPort : Z; SrcIp : Z; SrcPort : Z }.
Record RTSP_URL_INFO : Type := { Ip : Z; Port : Z; ContentId : list Z }.

Section Packet.
Context `{!Doubles, !Clock}.

Record RTSP_COMMON_INFO : Type := { MethodIndex : Z; RtspUrl : list Z; SessionID : Z; Cseq : Z; StatusCodeIndex : Z }.
Record CRtspPacket : Type := {
  m_RtspCommonInfo : RTSP_COMMON_INFO; m_ulContenLength : Z; m_strContentType : list Z; m_strContent : list Z;
  m_strRange : list Z; m_dSpeed : double; m_dScale : double; m_strXPlayCtrl : list Z; m_strXPlayInfo : list Z;
  m_RtspNatInfo : RTSP_NAT_INFO; m_strRtpInfo : list Z; m_strTransPort : list Z }.

Definition CRtspPacket_new : CRtspPacket := {|
  m_RtspCommonInfo := {| MethodIndex := RtspIllegalMethod; RtspUrl := replicate (Z.to_nat RTSP_MAX_URL_LENGTH) 0;
                         SessionID := 0; Cseq := 0; StatusCodeIndex := RtspNotAcceptedStatus |};
  m_ulContenLength := 0; m_strContentType := []; m_strContent := []; m_strRange := []; m_dSpeed := dzero; m_dScale := dzero;
  m_strXPlayCtrl := []; m_strXPlayInfo := [];
  m_RtspNatInfo := {| NatType := RTSP_INVALID_NAT_TYPE; LocalIp := 0; LocalPort := 0; SrcIp := 0; SrcPort := 0 |};
  m_strRtpInfo := []; m_strTransPort := [] |}.

Definition set_common (f : RTSP_COMMON_INFO -> RTSP_COMMON_INFO) (p : CRtspPacket) : CRtspPacket :=
  let '(Build_CRtspPacket c l t n r s a x y i o q) := p in Build_CRtspPacket (f c) l t n r s a x y i o q.
Definition set_length (v : Z) (p : CRtspPacket) : CRtspPacket :=
  let '(Build_CRtspPacket c _ t n r s a x y i o q) := p in Build_CRtspPacket c v t n r s a x y i o q.
Definition set_content_type (v : list Z) (p : CRtspPacket) : CRtspPacket :=
  let '(Build_CRtspPacket c l _ n r s a x y i o q) := p in Build_CRtspPacket c l v n r s a x y i o q.
Definition SetContent (v : list Z) (p : CRtspPacket) : CRtspPacket :=
  let '(Build_CRtspPacket c l t _ r s a x y i o q) := p in Build_CRtspPacket c l t v r s a x y i o q.
Definition set_range_text (v : list Z) (p : CRtspPacket) : CRtspPacket :=
  let '(Build_CRtspPacket c l t n _ s a x y i o q) := p in Build_CRtspPacket c l t n v s a x y i o q.
Definition setSpeed (v : double) (p : CRtspPacket) : CRtspPacket :=
  let '(Build_CRtspPacket c l t n r _ a x y i o q) := p in Build_CRtspPacket c l t n r v a x y i o q.
Definition setScale (v : double) (p : CRtspPacket) : CRtspPacket :=
  let '(Build_CRtspPacket c l t n r s _ x y i o q) := p in Build_CRtspPacket c l t n r s v x y i o q.
Definition setXPlayCtrl (v : list Z) (p : CRtspPacket) : CRtspPacket :=
  let '(Build_CRtspPacket c l t n r s a _ y i o q) := p in Build_CRtspPacket c l t n r s a v y i o q.
Definition setXPlayInfo (v : list Z) (p : CRtspPacket) : CRtspPacket :=
  let '(Build_CRtspPacket c l t n r s a x _ i o q) := p in Build_CRtspPacket c l t n r s a x v i o q.
Definition setNatInfo (v : RTSP_NAT_INFO) (p : CRtspPacket) : CRtspPacket :=
  let '(Build_CRtspPacket c l t n r s a x y _ o q) := p in Build_CRtspPacket c l t n r s a x y v o q.
Definition setRtpInfo (v : list Z) (p : CRtspPacket) : CRtspPacket :=
  let '(Build_CRtspPacket c l t n r s a x y i _ q) := p in Build_CRtspPacket c l t n r s a x y i v q.
Definition setTransPort (v : list Z) (p : CRtspPacket) : CRtspPacket :=
  let '(Build_CRtspPacket c l t n r s a x y i o _) := p in Build_CRtspPacket c l t n r s a x y i o v.

Definition setMethodIndex (v : Z) : CRtspPacket -> CRtspPacket :=
  set_common (fun '(Build_RTSP_COMMON_INFO _ u s c t) => Build_RTSP_COMMON_INFO v u s c t).
Definition set_url_bytes (v : list Z) : CRtspPacket -> CRtspPacket :=
  set_common (fun '(Build_RTSP_COMMON_INFO m _ s c t) => Build_RTSP_COMMON_INFO m v s c t).
Definition setSessionID (v : Z) : CRtspPacket -> CRtspPacket :=
  set_common (fun '(Build_RTSP_COMMON_INFO m u _ c t) => Build_RTSP_COMMON_INFO m u v c t).
Definition setCseq (v : Z) : CRtspPacket -> CRtspPacket :=
  set_common (fun '(Build_RTSP_COMMON_INFO m u s _ t) => Build_RTSP_COMMON_INFO m u s v t).
Definition set_status (v : Z) : CRtspPacket -> CRtspPacket :=
  set_common (fun '(Build_RTSP_COMMON_INFO m u s c _) => Build_RTSP_COMMON_INFO m u s c v).

Definition setRtspStatusCode (unRespCode : Z) (p : CRtspPacket) : CRtspPacket :=
  if RtspNotAcceptedStatus <=? unRespCode then p else set_status unRespCode p.

(** *** Reading *)

(** [readRtspLine] from the memory: [None] when the memory ends before a line or a null
    character; [Some None]: no line; the line and the memory behind it. *)
Fixpoint readRtspLine (mem : list Z) : option (option (list Z * list Z)) :=
  if starts RTSP_END_LINE mem then Some (Some ([], drop 2 mem))
  else match mem with
    | [] => None
    | c :: mem =>
      if c =? 0 then Some None
      else r ← readRtspLine mem; Some ('(line, rest) ← r; Some (c :: line, rest))
    end.

Definition parseRtspMethodLine (strLine : list Z) (p : CRtspPacket) : option (Z * CRtspPacket) :=
  let nMethodsIndex := index_of (fun s => starts s strLine) m_strRtspMethods in
  let p := setMethodIndex nMethodsIndex p in
  if nMethodsIndex =? RtspIllegalMethod then Some (-1, p)
  else if zlen strLine <=? zlen (method nMethodsIndex) + 1 then Some (-1, p)
  else
    let strLeast := trimString (drop (length (method nMethodsIndex) + 1) strLine) in
    if nMethodsIndex =? RtspResponseMethod then
      let unStatus := index_of (fun s => starts (take RTSP_STATUS_CODE_LENGTH s) strLeast)
                        (take (Z.to_nat RtspNotAcceptedStatus) m_strRtspStatusCode) in
      Some (0, set_status unStatus p)
    else
      match find RTSP_VERSION strLeast with
      | None => Some (-1, p)
      | Some nPos =>
        let strUrl := trimString (take (Z.to_nat nPos) strLeast) in
        if RTSP_MAX_URL_LENGTH <? zlen strUrl then Some (-1, p)
        else buf ← memcpy (RtspUrl (m_RtspCommonInfo p)) 0 strUrl; Some (0, set_url_bytes buf p)
      end.

Definition parseRtspHeaderIndex (strLine : list Z) : Z := index_of (fun s => starts_ci s strLine) m_strRtspHeaders.

Definition set_nat_type (v : RTSP_NAT_TYPE) (i : RTSP_NAT_INFO) : RTSP_NAT_INFO :=
  let '(Build_RTSP_NAT_INFO _ a b c d) := i in Build_RTSP_NAT_INFO v a b c d.
Definition set_local_ip (v : Z) (i : RTSP_NAT_INFO) : RTSP_NAT_INFO :=
  let '(Build_RTSP_NAT_INFO t _ b c d) := i in Build_RTSP_NAT_INFO t v b c d.
Definition set_local_port (v : Z) (i : RTSP_NAT_INFO) : RTSP_NAT_INFO :=
  let '(Build_RTSP_NAT_INFO t a _ c d) := i in Build_RTSP_NAT_INFO t a v c d.
Definition set_src_ip (v : Z) (i : RTSP_NAT_INFO) : RTSP_NAT_INFO :=
  let '(Build_RTSP_NAT_INFO t a b _ d) := i in Build_RTSP_NAT_INFO t a b v d.
Definition set_src_port (v : Z) (i : RTSP_NAT_INFO) : RTSP_NAT_INFO :=
  let '(Build_RTSP_NAT_INFO t a b c _) := i in Build_RTSP_NAT_INFO t a b c v.

(** A field of the address translation; a number is stored before it is found to be 0. *)
Definition parseNatField (strLine : list Z) (i : RTSP_NAT_INFO) : Z * RTSP_NAT_INFO :=
  let stored (v : Z) (i : RTSP_NAT_INFO) := (if v =? 0 then -1 else 0, i) in
  match split_at 61 strLine with
  | None => (-1, i)
  | Some (strKey, strValue) =>
    let strKey := trimString strKey in
    let strValue := trimString strValue in
    if equal_ci strKey (chars "type") then
      if equal_ci strValue (chars "RTP") then (0, set_nat_type RTSP_NAT_TYPE_RTP i)
      else if equal_ci strValue (chars "RTCP") then (0, set_nat_type RTSP_NAT_TYPE_RTCP i)
      else (-1, i)
    else if equal_ci strKey (chars "local_addr") then
      let v := inet_addr strValue in stored v (set_local_ip v i)
    else if equal_ci strKey (chars "local_port") then
      let v := u16 (atoi strValue) in stored v (set_local_port v i)
    else if equal_ci strKey (chars "src_addr") then
      let v := inet_addr strValue in stored v (set_src_ip v i)
    else if equal_ci strKey (chars "src_port") then
      let v := u16 (atoi strValue) in stored v (set_src_port v i)
    else (-1, i)
  end.

(** The fields of the text, each with the semicolon behind it. *)
Fixpoint parseNatFields (fuel : nat) (strNatInfo : list Z) (i : RTSP_NAT_INFO) : option (Z * RTSP_NAT_INFO) :=
  match fuel with
  | O => None
  | S fuel =>
    match split_at 59 strNatInfo with
    | None => Some (0, i)
    | Some (strLine, strNatInfo) =>
      let '(r, i) := parseNatField strLine i in
      if negb (r =? 0) then Some (r, i) else parseNatFields fuel strNatInfo i
    end
  end.

Definition parseNatInfo (strNatInfo : list Z) (p : CRtspPacket) : option (Z * CRtspPacket) :=
  c ← last strNatInfo;
  let strNatInfo := if negb (c =? 59) then strNatInfo ++ [59] else strNatInfo in
  '(r, i) ← parseNatFields (S (length strNatInfo)) strNatInfo (m_RtspNatInfo p);
  Some (r, setNatInfo i p).

(** The [switch] of [parseRtspHeaderValue]. *)
Definition header_value (nHeaderIndex : Z) (strValue : list Z) (p : CRtspPacket) : option (Z * CRtspPacket) :=
  let nonempty (q : CRtspPacket) := if zlen strValue =? 0 then (-1, p) else (0, q) in
  if nHeaderIndex =? RtspCseqHeader then Some (0, setCseq (u32 (strtoul strValue)) p)
  else if nHeaderIndex =? RtspSessionHeader then Some (0, setSessionID (strtoul strValue) p)
  else if nHeaderIndex =? RtspXNatInfoHeader then
    if zlen strValue =? 0 then Some (-1, p) else parseNatInfo strValue p
  else if nHeaderIndex =? RtspRangeHeader then Some (0, set_range_text strValue p)
  else if nHeaderIndex =? RtspSpeedHeader then Some (0, setSpeed (atof strValue) p)
  else if nHeaderIndex =? RtspScaleHeader then Some (0, setScale (atof strValue) p)
  else if nHeaderIndex =? RtspContentLengthHeader then Some (0, set_length (atoi strValue) p)
  else if nHeaderIndex =? RtspContentType then Some (nonempty (set_content_type strValue p))
  else if nHeaderIndex =? RtspTransPortHeader then Some (nonempty (setTransPort strValue p))
  else if nHeaderIndex =? RtspRtpInfoHeader then Some (nonempty (setRtpInfo strValue p))
  else if nHeaderIndex =? RtspXPlayInfoHeader then Some (0, setXPlayInfo strValue p)
  else Some (0, p).

Definition parseRtspHeaderValue (nHeaderIndex : Z) (strLine : list Z) (p : CRtspPacket) : option (Z * CRtspPacket) :=
  if (nHeaderIndex <? 0) || (RtspNotAcceptedHeader <=? nHeaderIndex) then Some (-1, p)
  else
    match split_at 58 (drop (length (header nHeaderIndex)) strLine) with
    | None => Some (-1, p)
    | Some (_, strValue) => header_value nHeaderIndex (trimString strValue) p
    end.

(** The headers, of which [left] bytes are left. *)
Fixpoint parse_headers (fuel : nat) (mem : list Z) (left : Z) (p : CRtspPacket) : option (Z * CRtspPacket) :=
  match fuel with
  | O => None
  | S fuel =>
    if left <=? 0 then Some (0, p)
    else
      r ← readRtspLine mem;
      match r with
      | None => Some (-1, p)
      | Some ([], _) => Some (0, p)
      | Some (strRtspLine, mem) =>
        let left := left - (zlen strRtspLine + 2) in
        let nRtspHeaderIndex := parseRtspHeaderIndex strRtspLine in
        if RtspNotAcceptedHeader =? nRtspHeaderIndex then parse_headers fuel mem left p
        else
          '(r, p) ← parseRtspHeaderValue nRtspHeaderIndex strRtspLine p;
          if negb (r =? 0) then Some (-1, p) else parse_headers fuel mem left p
      end
  end.

Definition parse (pszRtsp : list Z) (unRtspSize : Z) (p : CRtspPacket) : option (Z * CRtspPacket) :=
  if unRtspSize =? 0 then Some (-1, p)
  else
    r ← readRtspLine pszRtsp;
    match r with
    | None => Some (-1, p)
    | Some (strRtspLine, mem) =>
      '(r, p) ← parseRtspMethodLine strRtspLine p;
      if negb (r =? 0) then Some (-1, p)
      else
        '(r, p) ← parse_headers (S (length mem)) mem (unRtspSize - (zlen strRtspLine + 2)) p;
        if negb (r =? 0) then Some (-1, p)
        else if negb (m_ulContenLength p =? 0) then
          strRtspMsg ← sub pszRtsp 0 unRtspSize;
          match find RTSP_END_MSG strRtspMsg with
          | None => Some (-1, p)
          | Some endPos => Some (0, SetContent (drop (Z.to_nat (endPos + 4)) strRtspMsg) p)
          end
        else Some (0, p)
    end.

(** [find_first_of], and the text behind the character. *)
Definition parseRtspUrl (strUrl : list Z) : Z * option RTSP_URL_INFO :=
  match find RTSP_URL_PROTOCOL strUrl with
  | None => (-1, None)
  | Some _ =>
    match split_at 47 (drop (length RTSP_URL_PROTOCOL) strUrl) with
    | None => (-1, None)
    | Some (strIp, strLeastUrl) =>
      let strIp := match split_at 64 strIp with Some (_, b) => b | None => strIp end in
      let '(port, strIp) :=
        match split_at 58 strIp with Some (a, b) => (u16 (atoi b), a) | None => (RTSP_DEFAULT_PORT, strIp) end in
      let ip := inet_addr strIp in
      if (ip =? 0) || (port =? 0) then (-1, None)
      else
        match split_at 46 strLeastUrl with
        | None => (0, Some {| Ip := ip; Port := port; ContentId := strLeastUrl |})
        | Some (strLeastUrl, _) =>
          if RTSP_MAX_DEVID_LENGTH - 1 <? zlen strLeastUrl then (-1, None)
          else (0, Some {| Ip := ip; Port := port; ContentId := strLeastUrl |})
        end
    end
  end.

(** A text in an array; [None]: there is no null character in it. *)
Definition array_str (l : list Z) : option (list Z) := '(s, _) ← split_at 0 l; Some s.

Definition getRtspUrl (p : CRtspPacket) : option (list Z) := array_str (RtspUrl (m_RtspCommonInfo p)).

Definition setRtspUrl (strUrl : list Z) (p : CRtspPacket) : CRtspPacket :=
  let buf := replicate (Z.to_nat RTSP_MAX_URL_LENGTH) 0 in
  if RTSP_MAX_URL_LENGTH <? zlen strUrl then set_url_bytes buf p
  else set_url_bytes (strUrl ++ drop (length strUrl) buf) p.

Definition getXPlayInfoType (p : CRtspPacket) : RTSP_XPLAYINFO_TYPE :=
  let has (s : string) := match find (chars s) (m_strXPlayInfo p) with Some _ => true | None => false end in
  if bool_decide (m_strXPlayInfo p = []) then RTSP_XPLAYINFO_INVALID_TYPE
  else if has "CLOSE"%string then RTSP_XPLAYINFO_TYPE_CLOSE
  else if has "EOS"%string then RTSP_XPLAYINFO_TYPE_EOS
  else if has "BOS"%string then RTSP_XPLAYINFO_TYPE_BOS
  else RTSP_XPLAYINFO_INVALID_TYPE.

Definition isResponse (p : CRtspPacket) : bool := MethodIndex (m_RtspCommonInfo p) =? RtspResponseMethod.
Definition hasNetInfo (p : CRtspPacket) : bool :=
  match NatType (m_RtspNatInfo p) with RTSP_INVALID_NAT_TYPE => false | _ => true end.
Definition clearNatInfo (p : CRtspPacket) : CRtspPacket := setNatInfo (set_nat_type RTSP_INVALID_NAT_TYPE (m_RtspNatInfo p)) p.

(** *** Writing *)

Definition double2Str (num : double) : list Z := take 15 (print_double num).

(** A header line. *)
Definition write_header (i : Z) (v : list Z) : list Z := header i ++ [58] ++ v ++ RTSP_END_LINE.

Definition generateCommonHeader (p : CRtspPacket) : list Z :=
  write_header RtspSessionHeader (uint64ToStr (SessionID (m_RtspCommonInfo p))) ++
  write_header RtspCseqHeader (uint32ToStr (Cseq (m_RtspCommonInfo p))) ++
  (if bool_decide (m_strRange p = []) then [] else write_header RtspRangeHeader (m_strRange p)) ++
  write_header RtspUserAgentHeader RTSP_USER_AGENT.

Definition generateAcceptedHeader (p : CRtspPacket) : list Z :=
  (if is_zero (m_dSpeed p) then [] else write_header RtspSpeedHeader (double2Str (m_dSpeed p))) ++
  (if is_zero (m_dScale p) then [] else write_header RtspScaleHeader (double2Str (m_dScale p))).

Definition generateNatInfo (p : CRtspPacket) : list Z :=
  let i := m_RtspNatInfo p in
  match NatType i with
  | RTSP_INVALID_NAT_TYPE => []
  | t =>
    match t with RTSP_NAT_TYPE_RTP => chars "x-NAT-Info:type=RTP;" | _ => chars "x-NAT-Info:type=RTCP;" end ++
    chars "local_addr=" ++ inet_ntoa (LocalIp i) ++ chars ";local_port=" ++ decimal (LocalPort i) ++ [59] ++
    (if negb (SrcIp i =? 0) && negb (SrcPort i =? 0)
     then chars "src_addr=" ++ inet_ntoa (SrcIp i) ++ chars ";src_port=" ++ decimal (SrcPort i) else []) ++
    RTSP_END_LINE
  end.

Definition generateRtspResp (p : CRtspPacket) : Z * list Z :=
  let unStatusIndex := StatusCodeIndex (m_RtspCommonInfo p) in
  if RtspNotAcceptedStatus <=? unStatusIndex then (-1, [])
  else
    (0, RTSP_VERSION ++ [32] ++ status unStatusIndex ++ RTSP_END_LINE ++
        generateCommonHeader p ++ generateAcceptedHeader p ++ generateNatInfo p ++
        (if bool_decide (m_strRtpInfo p = []) then [] else write_header RtspRtpInfoHeader (m_strRtpInfo p)) ++ RTSP_END_LINE).

Definition generateRtspReq (p : CRtspPacket) : option (Z * list Z) :=
  let i := MethodIndex (m_RtspCommonInfo p) in
  if RtspIllegalMethod <=? i then Some (-1, [])
  else
    url ← getRtspUrl p;
    let parameter (h : Z) (v : list Z) :=
      if (i =? RtspSetParameterMethod) && negb (bool_decide (v = [])) then write_header h v else [] in
    Some (0, method i ++ [32] ++ url ++ [32] ++ RTSP_VERSION ++ RTSP_END_LINE ++
      generateCommonHeader p ++ generateAcceptedHeader p ++ generateNatInfo p ++
      parameter RtspXPlayCtrl (m_strXPlayCtrl p) ++ parameter RtspXPlayInfoHeader (m_strXPlayInfo p) ++ RTSP_END_LINE).

(** The value returned, and the type of the time with its beginning and end. *)
Definition getRangeTime (p : CRtspPacket) : Z * option (TIME_TYPE * Z * Z) :=
  let m_strRange := m_strRange p in
  if bool_decide (m_strRange = []) then (1, Some (RELATIVE_TIME, 0, 0))
  else
    match find (chars "clock=") m_strRange with
    | Some nStartPos =>
      let strTimeRange := drop (Z.to_nat nStartPos) m_strRange in
      match find [45] strTimeRange with
      | None => (-1, None)
      | Some nStopPos =>
        let strStartTime := trimString (take (Z.to_nat nStopPos) (drop 6 strTimeRange)) in
        let strStopTime := trimString (drop (Z.to_nat nStopPos + 1) strTimeRange) in
        match read_clock strStartTime with
        | None => (-1, None)
        | Some start =>
          if bool_decide (strStopTime = []) then (0, Some (ABSOLUTE_TIME, u32 start, 0))
          else match read_clock strStopTime with
            | None => (-1, None)
            | Some stop => (0, Some (ABSOLUTE_TIME, u32 start, u32 stop))
            end
        end
      end
    | None =>
      match find (chars "npt=") m_strRange with
      | None => (-1, None)
      | Some nStartPos =>
        let strTimeRange := drop (Z.to_nat nStartPos) m_strRange in
        match find [45] strTimeRange with
        | None => (-1, None)
        | Some nStopPos =>
          let strStartTime := trimString (take (Z.to_nat nStopPos) (drop 4 strTimeRange)) in
          let strStopTime := trimString (drop (Z.to_nat nStopPos + 1) strTimeRange) in
          (0, Some (RELATIVE_TIME, atoi strStartTime, if bool_decide (strStopTime = []) then 0 else atoi strStopTime))
        end
      end
    end.

Definition setRangeTime (unTimeType : TIME_TYPE) (unStartTime unStopTime : Z) (p : CRtspPacket) : CRtspPacket :=
  match unTimeType with
  | ABSOLUTE_TIME =>
    set_range_text (chars "clock=" ++ print_clock unStartTime ++ [45] ++
      (if unStopTime =? 0 then [] else print_clock unStopTime)) p
  | RELATIVE_TIME =>
    set_range_text (chars "npt=" ++ (if unStartTime =? 0 then chars "now" else uint32ToStr unStartTime) ++ [45] ++
      (if unStopTime =? 0 then [] else uint32ToStr unStopTime)) p
  end.

(** The second [setRtpInfo]. *)
Definition set_rtp_info (strRtpInfoUrl : list Z) (unSeq unTimestamp : Z) : CRtspPacket -> CRtspPacket :=
  setRtpInfo (strRtpInfoUrl ++ chars ";seq=" ++ uint32ToStr unSeq ++ chars ";rtptime=" ++ uint32ToStr unTimestamp).
End Packet.

(** ** Texts that are read back *)

(** A line: no carriage return, and no null character. *)
Definition plain (l : list Z) : Prop := Forall (fun c => c <> 13 /\ c <> 0) l.
Definition trimmed (l : list Z) : Prop := trimString l = l.

Lemma plain_app a b : plain (a ++ b) <-> plain a /\ plain b.
Proof. apply Forall_app. Qed.

Lemma readRtspLine_line l rest : plain l -> readRtspLine (l ++ RTSP_END_LINE ++ rest) = Some (Some (l, rest)).
Proof.
  induction 1 as [|c l [H13 H0] Hl IH]; [done|]. cbn [app readRtspLine].
  assert (starts RTSP_END_LINE (c :: l ++ RTSP_END_LINE ++ rest) = false) as ->
    by (cbn; by rewrite (proj2 (Z.eqb_neq c 13))).
  rewrite (proj2 (Z.eqb_neq c 0)) by done. by rewrite IH.
Qed.

Lemma skip_spaces_id l : match l with c :: _ => c <> 32 | [] => True end -> skip_spaces l = l.
Proof.
  destruct l as [|c l]; [done|]. intros Hc. cbn.
  destruct c as [|c|]; try done. repeat (destruct c as [c|c|]; try done).
Qed.

Lemma trimmed_nospace l : Forall (fun c => c <> 32) l -> trimmed l.
Proof.
  intros Hl. unfold trimmed, trimString. rewrite (skip_spaces_id l) by (destruct Hl; auto).
  rewrite skip_spaces_id; [apply rev_involutive|].
  destruct (rev l) as [|c r] eqn:E; [done|]. rewrite Forall_forall in Hl. apply Hl.
  rewrite list_elem_of_In, in_rev, E. by left.
Qed.

Lemma skip_spaces_app a b : skip_spaces a <> [] -> skip_spaces (a ++ b) = skip_spaces a ++ b.
Proof.
  induction a as [|c a IH]; [done|]. destruct (decide (c = 32)) as [->|Hc]; [apply IH|].
  intros _. rewrite !skip_spaces_id by done. done.
Qed.

Lemma trimmed_trim l : trimmed l -> trimString (l ++ [32]) = l.
Proof.
  unfold trimmed, trimString. intros E. destruct (skip_spaces l) as [|c r] eqn:Es.
  - cbn in E. by rewrite <-E.
  - rewrite skip_spaces_app, Es by (rewrite Es; done). rewrite rev_app_distr. cbn [rev app].
    change (rev r ++ [c]) with (rev (c :: r)). exact E.
Qed.

Lemma trimmed_app_version url : trimmed url -> url <> [] -> trimmed (url ++ 32 :: RTSP_VERSION).
Proof.
  intros Ht Hne. unfold trimmed, trimString in *.
  assert (skip_spaces url = url) as Hs.
  { destruct url as [|c url]; [done|]. destruct (decide (c = 32)) as [->|Hc]; [|by apply skip_spaces_id].
    exfalso. apply (f_equal (fun l => length l)) in Ht. rewrite length_rev in Ht.
    assert (forall l, (length (skip_spaces l) <= length l)%nat) as Hlen.
    { induction l as [|x l IH]; [done|]. destruct (decide (x = 32)) as [->|Hx]; [cbn; lia|by rewrite skip_spaces_id]. }
    pose proof (Hlen (rev (skip_spaces (32 :: url)))) as H1. rewrite length_rev in H1.
    pose proof (Hlen url). cbn in H1, Ht. lia. }
  rewrite skip_spaces_app, Hs by by rewrite Hs. rewrite rev_app_distr. cbn [rev app]. 
  change (rev RTSP_VERSION) with (chars "0.1/PSTR"). rewrite skip_spaces_id by done.
  rewrite !rev_app_distr, rev_involutive. reflexivity.
Qed.

Lemma zlen_not_nil {A} (l : list A) : l <> [] -> (zlen l =? 0) = false.
Proof. by destruct l. Qed.

(** *** Searching *)

Lemma starts_app pat l : starts pat (pat ++ l) = true.
Proof. induction pat as [|c pat IH]; [done|]. cbn. by rewrite Z.eqb_refl. Qed.

Lemma find_at_shift pat l pos : find_at pat l pos = (fun p => p + pos) <$> find pat l.
Proof.
  unfold find. revert pos. assert (forall k pos, find_at pat l (k + pos) = (fun p => p + pos) <$> find_at pat l k) as H.
  { induction l as [|c l IH]; intros k pos; cbn [find_at]; destruct (starts _ _); try done.
    rewrite <-IH. f_equal. lia. }
  intros pos. by rewrite <-(H 0 pos).
Qed.

Lemma find_cons pat c l : find pat (c :: l) = if starts pat (c :: l) then Some 0 else (fun p => p + 1) <$> find pat l.
Proof. unfold find at 1. cbn [find_at]. destruct (starts _ _); [done|]. by rewrite find_at_shift. Qed.

Lemma starts_sep pat a c b : c ∉ pat -> pat <> [] -> starts pat (a ++ c :: b) = starts pat a.
Proof.
  revert a. induction pat as [|x pat IH]; intros a Hc Hne; [done|].
  apply not_elem_of_cons in Hc as [Hx Hc]. destruct a as [|y a]; cbn.
  - by rewrite (proj2 (Z.eqb_neq c x)).
  - destruct (y =? x); [|done]. cbn. destruct pat; [by destruct a|]. by apply IH.
Qed.

(** A text is looked for on both sides of a character that it does not have. *)
Lemma find_sep pat a c b : c ∉ pat -> pat <> [] -> find pat a = None ->
  find pat (a ++ c :: b) = (fun p => p + (zlen a + 1)) <$> find pat b.
Proof.
  intros Hc Hne. induction a as [|x a IH]; intros Ha.
  - cbn [app]. rewrite find_cons. assert (starts pat (c :: b) = false) as ->.
    { pose proof (starts_sep pat [] c b Hc Hne) as E. cbn [app] in E. rewrite E. by destruct pat. }
    done.
  - cbn [app]. rewrite find_cons in *. pose proof (starts_sep pat (x :: a) c b Hc Hne) as E. cbn [app] in E.
    rewrite E. destruct (starts pat (x :: a)); [done|]. apply fmap_None in Ha. rewrite IH by done.
    rewrite <-option_fmap_compose. apply option_fmap_ext. intros p. cbn. rewrite zlen_cons. lia.
Qed.

Lemma find_sep_none pat a c b : c ∉ pat -> pat <> [] -> find pat a = None -> find pat b = None ->
  find pat (a ++ c :: b) = None.
Proof. intros Hc Hne Ha Hb. by rewrite find_sep, Hb by done. Qed.

Lemma find_here pat l : find pat (pat ++ l) = Some 0.
Proof.
  destruct pat as [|c pat]; [by destruct l|]. pose proof (starts_app (c :: pat) l) as E. cbn [app] in *.
  by rewrite find_cons, E.
Qed.

(** *** Numbers *)

Lemma decimal_go_head fuel n : 0 < n < 10 ^ Z.of_nat fuel -> exists c l, decimal_go fuel n = c :: l /\ c <> 48.
Proof.
  revert n. induction fuel as [|fuel IH]; intros n Hn; [cbn in Hn; lia|]. cbn [decimal_go].
  destruct (Z.ltb_spec n 10).
  - exists (48 + n mod 10), []. split; [done|]. rewrite Z.mod_small by lia. lia.
  - rewrite Nat2Z.inj_succ, Z.pow_succ_r in Hn by lia.
    destruct (IH (n / 10)) as (c & l & -> & Hc); [split; [apply Z.div_str_pos; lia|apply Z.div_lt_upper_bound; lia]|].
    exists c, (l ++ [48 + n mod 10]). done.
Qed.

(** What is behind a number. *)
Definition ends_number (l : list Z) : Prop := match l with [] => True | c :: _ => digit_value c = None /\ lower c <> 120 end.

Lemma number_digits s rest acc : all_digits s -> ends_number rest -> number 10 (s ++ rest) acc = (digits s acc, rest).
Proof.
  intros Hs Hr. revert acc. induction Hs as [|c s Hc Hs IH]; intros acc; cbn [app].
  - destruct rest as [|c rest]; [done|]. cbn [number]. destruct Hr as [Hr _]. by rewrite Hr.
  - cbn [number digits]. unfold digit_value. rewrite Hc. assert ((c - 48 <? 10) = true) as -> by (unfold is_digit in Hc; lia).
    rewrite IH. f_equal. f_equal. lia.
Qed.

Lemma number0_decimal n rest : fits 64 n -> ends_number rest -> number0 (decimal n ++ rest) = (n, rest).
Proof.
  intros Hn Hr. destruct (decimal_ok n Hn) as (Hd & Hne & Hv). destruct (decide (n = 0)) as [->|Hn0].
  - cbn. unfold number0. destruct rest as [|c [|d rest]]; [done| |]; destruct Hr as [Hr Hx]; cbn -[digit_value lower];
      rewrite ?(proj2 (Z.eqb_neq _ _) Hx); cbn [andb number]; by rewrite Hr.
  - destruct (decimal_go_head 20 n) as (c & l & E & Hc); [unfold fits in Hn; change (10 ^ Z.of_nat 20) with 100000000000000000000; lia|].
    fold (decimal n) in E. unfold number0.
    assert (is_hex (decimal n ++ rest) = false) as ->.
    { rewrite E. cbn. destruct c as [|c|]; try done. repeat (destruct c as [c|c|]; try done). }
    assert (match decimal n ++ rest with 48 :: l' => number 8 l' 0 | _ => number 10 (decimal n ++ rest) 0 end =
            number 10 (decimal n ++ rest) 0) as ->.
    { rewrite E. cbn [app]. destruct c as [|c|]; try done. repeat (destruct c as [c|c|]; try done). }
    rewrite number_digits by done. by rewrite Hv.
Qed.

Lemma decimal_cons n : fits 64 n -> exists c l, decimal n = c :: l /\ is_digit c = true.
Proof.
  intros Hn. destruct (decimal_ok n Hn) as (Hd & Hne & _). destruct (decimal n) as [|c l]; [done|].
  apply Forall_cons in Hd as [Hc _]. eauto.
Qed.

Lemma strtoul_decimal n : fits 64 n -> strtoul (decimal n) = n.
Proof.
  intros Hn. destruct (decimal_cons n Hn) as (c & l & E & Hc). unfold strtoul. rewrite E. cbn [skip_space].
  assert (is_space c = false /\ (c =? 45) = false /\ (c =? 43) = false) as (-> & -> & ->)
    by (unfold is_digit, is_space in *; lia).
  rewrite <-E. pose proof (number0_decimal n [] Hn I) as En. rewrite app_nil_r in En. rewrite En. cbn [fst].
  unfold fits in Hn. by rewrite (proj2 (Z.leb_gt _ _)) by lia.
Qed.

(** A session number is read back, though it is printed as a signed number. *)
Lemma strtoul_uint64 n : fits 64 n -> strtoul (uint64ToStr n) = n.
Proof.
  intros Hn. unfold uint64ToStr. destruct (Z.ltb_spec n (2 ^ 63)); [by apply strtoul_decimal|].
  assert (Hm : fits 64 (2 ^ 64 - n)) by (unfold fits in *; lia).
  unfold strtoul. cbn [skip_space is_space Z.eqb Z.leb]. 
  pose proof (number0_decimal _ [] Hm I) as En. rewrite app_nil_r in En.
  change (is_space 45) with false. cbv iota. change (45 =? 45) with true. cbv iota. rewrite En. cbn [fst].
  unfold fits in *. rewrite (proj2 (Z.leb_gt _ _)) by lia.
  unfold u64, wrap. rewrite <-(Z.mod_add _ 1) by lia. rewrite Z.mod_small; lia.
Qed.

Lemma inet_part n fuel rest : 0 <= n <= 255 ->
  inet_parts (S fuel) (decimal n ++ 46 :: rest) = ('(ps, rest) ← inet_parts fuel rest; Some (n :: ps, rest)).
Proof.
  intros Hn. assert (Hf : fits 64 n) by (unfold fits; lia). destruct (decimal_cons n Hf) as (c & l & E & Hc).
  cbn [inet_parts]. rewrite (number0_decimal n (46 :: rest) Hf) by done. rewrite E. cbn [app]. rewrite Hc. cbn [negb].
  rewrite (proj2 (Z.leb_gt _ _)), (proj2 (Z.ltb_ge _ _)) by lia. done.
Qed.

Lemma inet_last n fuel : 0 <= n <= 255 -> inet_parts (S fuel) (decimal n) = Some ([n], []).
Proof.
  intros Hn. assert (Hf : fits 64 n) by (unfold fits; lia). destruct (decimal_cons n Hf) as (c & l & E & Hc).
  cbn [inet_parts]. pose proof (number0_decimal n [] Hf I) as En. rewrite app_nil_r in En. rewrite En, E. rewrite Hc. cbn [negb].
  by rewrite (proj2 (Z.leb_gt _ _)) by lia.
Qed.

(** An address is read back. *)
Lemma inet_addr_ntoa ip : fits 32 ip -> inet_addr (inet_ntoa ip) = ip.
Proof.
  intros Hip. unfold fits in Hip. unfold inet_ntoa.
  assert (0 <= ip / 16777216 <= 255) by (split; [apply Z.div_pos; lia|]; assert (ip / 16777216 < 256); [apply Z.div_lt_upper_bound; lia|lia]).
  pose proof (Z.mod_pos_bound (ip / 65536) 256 ltac:(lia)). pose proof (Z.mod_pos_bound (ip / 256) 256 ltac:(lia)).
  pose proof (Z.mod_pos_bound ip 256 ltac:(lia)). unfold inet_addr. cbn [app].
  rewrite !inet_part, inet_last by lia. cbn. rewrite (proj2 (Z.leb_le _ _)) by lia.
  pose proof (Z.div_mod ip 256 ltac:(lia)). pose proof (Z.div_mod (ip / 256) 256 ltac:(lia)).
  pose proof (Z.div_mod (ip / 65536) 256 ltac:(lia)).
  assert (ip / 256 / 256 = ip / 65536) by (by rewrite Z.div_div by lia).
  assert (ip / 65536 / 256 = ip / 16777216) by (by rewrite Z.div_div by lia). lia.
Qed.

(** *** Characters *)

Lemma Forall_decimal (P : Z -> Prop) n : fits 64 n -> (forall c, is_digit c = true -> P c) -> Forall P (decimal n).
Proof. intros Hn HP. destruct (decimal_ok n Hn) as [Hd _]. eapply Forall_impl; [exact Hd|]. exact HP. Qed.

Lemma Forall_inet (P : Z -> Prop) ip : fits 32 ip -> (forall c, is_digit c = true -> P c) -> P 46 -> Forall P (inet_ntoa ip).
Proof.
  intros Hip HP Hdot. unfold inet_ntoa, fits in *.
  assert (forall n, 0 <= n < 2 ^ 32 -> Forall P (decimal n)) as Hd by (intros n Hn; apply Forall_decimal; [unfold fits; lia|done]).
  assert (0 <= ip / 16777216 < 2 ^ 32) by (split; [apply Z.div_pos; lia|apply Z.div_lt_upper_bound; lia]).
  pose proof (Z.mod_pos_bound (ip / 65536) 256 ltac:(lia)). pose proof (Z.mod_pos_bound (ip / 256) 256 ltac:(lia)).
  pose proof (Z.mod_pos_bound ip 256 ltac:(lia)).
  rewrite !Forall_app. split_and!; try (apply Hd; lia); by constructor.
Qed.

Lemma Forall_uint64 (P : Z -> Prop) n : fits 64 n -> (forall c, is_digit c = true -> P c) -> P 45 -> Forall P (uint64ToStr n).
Proof.
  intros Hn HP H45. unfold uint64ToStr. destruct (Z.ltb_spec n (2 ^ 63)); [by apply Forall_decimal|].
  constructor; [done|]. apply Forall_decimal; [unfold fits in *; lia|done].
Qed.

Ltac digit_char := let c := fresh in let Hc := fresh in intros c Hc; unfold is_digit in Hc; lia.

Lemma atoi_decimal_end n : fits 32 n -> atoi (decimal n) = n.
Proof. intros Hn. pose proof (atoi_decimal n [] Hn I) as E. by rewrite app_nil_r in E. Qed.

(** *** The address translation *)

Definition nat_type_text (t : RTSP_NAT_TYPE) : list Z := match t with RTSP_NAT_TYPE_RTP => chars "RTP" | _ => chars "RTCP" end.

(** The source is sent when both its parts are there. *)
Definition with_src (i : RTSP_NAT_INFO) : bool := negb (SrcIp i =? 0) && negb (SrcPort i =? 0).

Definition nat_fields (i : RTSP_NAT_INFO) : list (list Z) :=
  [chars "type" ++ 61 :: nat_type_text (NatType i); chars "local_addr" ++ 61 :: inet_ntoa (LocalIp i);
   chars "local_port" ++ 61 :: decimal (LocalPort i)] ++
  (if with_src i then [chars "src_addr" ++ 61 :: inet_ntoa (SrcIp i); chars "src_port" ++ 61 :: decimal (SrcPort i)] else []).

(** What is read back. *)
Definition nat_received (i : RTSP_NAT_INFO) : RTSP_NAT_INFO :=
  match NatType i with
  | RTSP_INVALID_NAT_TYPE => {| NatType := RTSP_INVALID_NAT_TYPE; LocalIp := 0; LocalPort := 0; SrcIp := 0; SrcPort := 0 |}
  | t => if with_src i then i else {| NatType := t; LocalIp := LocalIp i; LocalPort := LocalPort i; SrcIp := 0; SrcPort := 0 |}
  end.

Record nat_ok (i : RTSP_NAT_INFO) : Prop := {
  no_ip : 0 < LocalIp i < 2 ^ 32; no_port : 0 < LocalPort i < 2 ^ 16; no_src : fits 32 (SrcIp i); no_src_port : fits 16 (SrcPort i) }.

Lemma parse_field_key k v i : Forall (fun c => c <> 61) k -> trimmed k -> trimmed v ->
  parseNatField (k ++ 61 :: v) i =
  let stored (v : Z) (i : RTSP_NAT_INFO) := (if v =? 0 then -1 else 0, i) in
  if equal_ci k (chars "type") then
    if equal_ci v (chars "RTP") then (0, set_nat_type RTSP_NAT_TYPE_RTP i)
    else if equal_ci v (chars "RTCP") then (0, set_nat_type RTSP_NAT_TYPE_RTCP i)
    else (-1, i)
  else if equal_ci k (chars "local_addr") then stored (inet_addr v) (set_local_ip (inet_addr v) i)
  else if equal_ci k (chars "local_port") then stored (u16 (atoi v)) (set_local_port (u16 (atoi v)) i)
  else if equal_ci k (chars "src_addr") then stored (inet_addr v) (set_src_ip (inet_addr v) i)
  else if equal_ci k (chars "src_port") then stored (u16 (atoi v)) (set_src_port (u16 (atoi v)) i)
  else (-1, i).
Proof. intros Hk Htk Htv. unfold parseNatField. rewrite split_at_app by done. cbn beta iota. by rewrite Htk, Htv. Qed.

Fixpoint run_fields (fs : list (list Z)) (i : RTSP_NAT_INFO) : Z * RTSP_NAT_INFO :=
  match fs with
  | [] => (0, i)
  | f :: fs => let '(r, i) := parseNatField f i in if negb (r =? 0) then (r, i) else run_fields fs i
  end.

Lemma parse_fields (fs : list (list Z)) fuel i : Forall (Forall (fun c => c <> 59)) fs -> (length fs < fuel)%nat ->
  parseNatFields fuel (concat ((fun f => f ++ [59]) <$> fs)) i = Some (run_fields fs i).
Proof.
  intros Hfs. revert fuel i. induction Hfs as [|f fs Hf Hfs IH]; intros fuel i Hfuel; (destruct fuel as [|fuel]; [cbn in Hfuel; lia|]).
  - done.
  - cbn [fmap list_fmap concat parseNatFields run_fields]. rewrite <-app_assoc. cbn [app]. rewrite split_at_app by done.
    destruct (parseNatField f i) as [r i']. destruct (negb _); [done|]. apply IH. cbn in Hfuel. lia.
Qed.

Lemma fields_length (fs : list (list Z)) : (length fs <= length (concat ((fun f => f ++ [59%Z]) <$> fs)))%nat.
Proof. induction fs as [|f fs IH]; cbn; [lia|]. rewrite !length_app. cbn. lia. Qed.

Lemma stored_ok {A} v (x : A) : v <> 0 -> (if v =? 0 then -1 else 0, x) = (0, x).
Proof. intros Hv. by rewrite (proj2 (Z.eqb_neq _ _) Hv). Qed.

(** A concatenation without brackets. *)
Ltac flat_app := repeat first [rewrite <-!app_assoc | rewrite !app_nil_r | progress cbn [app]].

(** The characters of a given text. *)
Ltac letters := repeat constructor; cbv; lia.

Lemma nat_fields_no c i : nat_ok i -> is_digit c = false -> c <> 46 -> c <> 61 -> c <> 95 -> ~ (65 <= c <= 122) ->
  Forall (Forall (fun x => x <> c)) (nat_fields i).
Proof.
  intros [Hip Hport Hsrc Hsp] Hc H46 H61 H95 Hl. unfold nat_fields.
  assert (forall n, fits 64 n -> Forall (fun x => x <> c) (decimal n)) as Hd by (intros n Hn; apply Forall_decimal; [done|congruence]).
  assert (forall n, fits 32 n -> Forall (fun x => x <> c) (inet_ntoa n)) as Hi by (intros n Hn; apply Forall_inet; [done|congruence|done]).
  assert (Forall (fun x => x <> c) (nat_type_text (NatType i))) as Ht by (destruct (NatType i); letters).
  assert (forall k v, Forall (fun x => x <> c) (chars k) -> Forall (fun x => x <> c) v ->
    Forall (fun x => x <> c) (chars k ++ 61 :: v)) as Hf by (intros k v Hk Hv; apply Forall_app_2; [done|by constructor; [lia|]]).
  apply Forall_app_2; [|destruct (with_src i); [|apply Forall_nil_2]].
  - apply Forall_cons_2; [apply Hf; [letters|exact Ht]|].
    apply Forall_cons_2; [apply Hf; [letters|apply Hi; unfold fits; lia]|].
    apply Forall_cons_2; [apply Hf; [letters|apply Hd; unfold fits; lia]|apply Forall_nil_2].
  - apply Forall_cons_2; [apply Hf; [letters|exact (Hi _ Hsrc)]|].
    apply Forall_cons_2; [apply Hf; [letters|apply Hd; unfold fits in *; lia]|apply Forall_nil_2].
Qed.

(** The cases of the keys. *)
Ltac field_key := rewrite parse_field_key; [|letters|vm_compute; reflexivity|auto]; cbv zeta;
  repeat match goal with |- context [equal_ci (chars ?a) (chars ?b)] =>
    let v := eval vm_compute in (equal_ci (chars a) (chars b)) in change (equal_ci (chars a) (chars b)) with v; cbv iota end.

Lemma trimmed_decimal n : fits 64 n -> trimmed (decimal n).
Proof. intros Hn. apply trimmed_nospace, Forall_decimal; [done|digit_char]. Qed.
Lemma trimmed_inet n : fits 32 n -> trimmed (inet_ntoa n).
Proof. intros Hn. apply trimmed_nospace, Forall_inet; [done|digit_char|lia]. Qed.

Lemma local_addr_field ip i : 0 < ip < 2 ^ 32 ->
  parseNatField (chars "local_addr" ++ 61 :: inet_ntoa ip) i = (0, set_local_ip ip i).
Proof.
  intros Hip. assert (fits 32 ip) by (unfold fits; lia). pose proof (trimmed_inet ip). field_key.
  rewrite inet_addr_ntoa, (proj2 (Z.eqb_neq _ _)) by (done || lia). done.
Qed.
Lemma src_addr_field ip i : 0 < ip < 2 ^ 32 ->
  parseNatField (chars "src_addr" ++ 61 :: inet_ntoa ip) i = (0, set_src_ip ip i).
Proof.
  intros Hip. assert (fits 32 ip) by (unfold fits; lia). pose proof (trimmed_inet ip). field_key.
  rewrite inet_addr_ntoa, (proj2 (Z.eqb_neq _ _)) by (done || lia). done.
Qed.
Lemma local_port_field n i : 0 < n < 2 ^ 16 ->
  parseNatField (chars "local_port" ++ 61 :: decimal n) i = (0, set_local_port n i).
Proof.
  intros Hn. pose proof (trimmed_decimal n ltac:(unfold fits; lia)). field_key.
  rewrite atoi_decimal_end by (unfold fits; lia). unfold u16. rewrite wrap_small by (unfold fits; lia).
  by rewrite (proj2 (Z.eqb_neq _ _)) by lia.
Qed.
Lemma src_port_field n i : 0 < n < 2 ^ 16 ->
  parseNatField (chars "src_port" ++ 61 :: decimal n) i = (0, set_src_port n i).
Proof.
  intros Hn. pose proof (trimmed_decimal n ltac:(unfold fits; lia)). field_key.
  rewrite atoi_decimal_end by (unfold fits; lia). unfold u16. rewrite wrap_small by (unfold fits; lia).
  by rewrite (proj2 (Z.eqb_neq _ _)) by lia.
Qed.
Lemma type_field t i : t <> RTSP_INVALID_NAT_TYPE ->
  parseNatField (chars "type" ++ 61 :: nat_type_text t) i = (0, set_nat_type t i).
Proof. intros Ht. destruct t; [| |done]; vm_compute; reflexivity. Qed.

Lemma run_field f fs i i' : parseNatField f i = (0, i') -> run_fields (f :: fs) i = run_fields fs i'.
Proof. intros E. cbn [run_fields]. by rewrite E. Qed.

Lemma run_nat_fields i : nat_ok i -> NatType i <> RTSP_INVALID_NAT_TYPE ->
  run_fields (nat_fields i) {| NatType := RTSP_INVALID_NAT_TYPE; LocalIp := 0; LocalPort := 0; SrcIp := 0; SrcPort := 0 |} =
  (0, nat_received i).
Proof.
  intros [Hip Hport Hsrc Hsp] Ht. unfold nat_fields. cbn [app].
  rewrite (run_field _ _ _ _ (type_field _ _ Ht)), (run_field _ _ _ _ (local_addr_field _ _ Hip)),
    (run_field _ _ _ _ (local_port_field _ _ Hport)).
  unfold nat_received. destruct (with_src i) eqn:Es.
  - unfold with_src in Es. apply andb_true_iff in Es as [E1 E2]. unfold fits in *.
    rewrite (run_field _ _ _ _ (src_addr_field (SrcIp i) _ ltac:(lia))), (run_field _ _ _ _ (src_port_field (SrcPort i) _ ltac:(lia))).
    by destruct i as [[] ? ? ? ?].
  - by destruct i as [[] ? ? ? ?].
Qed.

Section Read.
Context `{!Doubles, !Clock}.
Implicit Types p q : CRtspPacket.

Definition nat_value (i : RTSP_NAT_INFO) : list Z :=
  chars "type=" ++ nat_type_text (NatType i) ++ [59] ++
  chars "local_addr=" ++ inet_ntoa (LocalIp i) ++ chars ";local_port=" ++ decimal (LocalPort i) ++ [59] ++
  (if with_src i then chars "src_addr=" ++ inet_ntoa (SrcIp i) ++ chars ";src_port=" ++ decimal (SrcPort i) else []).

Lemma nat_value_fields i : nat_ok i ->
  (if with_src i then nat_value i ++ [59] else nat_value i) = concat ((fun f => f ++ [59]) <$> nat_fields i).
Proof.
  intros Hi. unfold nat_value, nat_fields.
  change (chars "type=") with (chars "type" ++ [61]). change (chars "local_addr=") with (chars "local_addr" ++ [61]).
  change (chars ";local_port=") with ([59] ++ chars "local_port" ++ [61]).
  change (chars "src_addr=") with (chars "src_addr" ++ [61]).
  change (chars ";src_port=") with ([59] ++ chars "src_port" ++ [61]).
  destruct (with_src i); cbn [app fmap list_fmap concat]; by flat_app.
Qed.

Lemma last_snoc_digit (a : list Z) n : fits 64 n -> exists c, last (a ++ decimal n) = Some c /\ is_digit c = true.
Proof.
  intros Hn. destruct (decimal_ok n Hn) as (Hd & Hne & _). destruct (decimal n) as [|x l] using rev_ind; [done|].
  apply Forall_app in Hd as [_ Hd]. apply Forall_cons in Hd as [Hx _].
  exists x. rewrite app_assoc, last_snoc. done.
Qed.

(** The information of the address translation is read back. *)
Lemma parseNatInfo_value i p : nat_ok i -> NatType i <> RTSP_INVALID_NAT_TYPE ->
  m_RtspNatInfo p = {| NatType := RTSP_INVALID_NAT_TYPE; LocalIp := 0; LocalPort := 0; SrcIp := 0; SrcPort := 0 |} ->
  parseNatInfo (nat_value i) p = Some (0, setNatInfo (nat_received i) p).
Proof.
  intros Hi Ht Hp. unfold parseNatInfo.
  assert (exists c, last (nat_value i) = Some c /\
    (if negb (c =? 59) then nat_value i ++ [59] else nat_value i) = concat ((fun f => f ++ [59]) <$> nat_fields i)) as (c & E1 & E2).
  { rewrite <-nat_value_fields by done. unfold nat_value. destruct (with_src i).
    - rewrite !app_assoc. destruct (last_snoc_digit (((((((((((chars "type=" ++ nat_type_text (NatType i)) ++ [59]) ++
        chars "local_addr=") ++ inet_ntoa (LocalIp i)) ++ chars ";local_port=") ++ decimal (LocalPort i)) ++ [59]) ++ chars "src_addr=") ++
        inet_ntoa (SrcIp i)) ++ chars ";src_port=")) (SrcPort i)) as (c & -> & Hc).
      + destruct Hi. unfold fits in *. lia.
      + exists c. split; [done|]. rewrite (proj2 (Z.eqb_neq _ _)); [done|]. unfold is_digit in Hc. lia.
    - rewrite app_nil_r, !app_assoc, last_snoc. exists 59. done. }
  rewrite E1. cbn [mbind option_bind]. cbv zeta. rewrite E2. clear E1 E2.
  rewrite parse_fields; [|apply nat_fields_no; (done || lia)|].
  2: { pose proof (fields_length (nat_fields i)). lia. }
  by rewrite Hp, run_nat_fields.
Qed.

(** *** Lines *)

Definition line_text (ls : list (list Z)) : list Z := concat ((fun l => l ++ RTSP_END_LINE) <$> ls).

Lemma line_text_app a b : line_text (a ++ b) = line_text a ++ line_text b.
Proof. unfold line_text. by rewrite fmap_app, concat_app. Qed.
Lemma line_text_cons l ls : line_text (l :: ls) = l ++ RTSP_END_LINE ++ line_text ls.
Proof. unfold line_text. cbn [fmap list_fmap concat]. by rewrite <-app_assoc. Qed.

(** What the headers of a message do. *)
Fixpoint run_headers (ls : list (list Z)) p : option (Z * CRtspPacket) :=
  match ls with
  | [] => Some (0, p)
  | l :: ls =>
    let i := parseRtspHeaderIndex l in
    if RtspNotAcceptedHeader =? i then run_headers ls p
    else '(r, p) ← parseRtspHeaderValue i l p; if negb (r =? 0) then Some (-1, p) else run_headers ls p
  end.

Lemma run_headers_app a b p q : run_headers a p = Some (0, q) -> run_headers (a ++ b) p = run_headers b q.
Proof.
  revert p. induction a as [|l a IH]; intros p; cbn [run_headers app]; [by intros [= ->]|].
  destruct (_ =? _); [apply IH|]. destruct (parseRtspHeaderValue _ l p) as [[r p']|]; [|done]. cbn.
  destruct (r =? 0); [apply IH|done].
Qed.

Lemma parse_headers_lines ls rest : Forall (fun l => plain l /\ l <> []) ls -> forall fuel left p, (length ls < fuel)%nat ->
  zlen (line_text ls) < left -> parse_headers fuel (line_text ls ++ RTSP_END_LINE ++ rest) left p = run_headers ls p.
Proof.
  induction 1 as [|l ls [Hl Hne] Hls IH]; intros fuel left p Hf Hleft; (destruct fuel as [|fuel]; [cbn in Hf; lia|]);
    cbn [parse_headers run_headers].
  - rewrite (proj2 (Z.leb_gt _ _)) by (unfold zlen in *; lia). done.
  - rewrite line_text_cons in *. rewrite (proj2 (Z.leb_gt _ _)) by (unfold zlen in *; lia).
    rewrite <-!app_assoc. rewrite readRtspLine_line by done. cbn [mbind option_bind].
    destruct l as [|c l]; [done|]. set (line := c :: l) in *.
    assert (zlen (line_text ls) < left - (zlen line + 2)) by (rewrite !zlen_app in Hleft; change (zlen RTSP_END_LINE) with 2 in Hleft; lia).
    cbn [length] in Hf. destruct (_ =? _); [apply IH; lia|].
    destruct (parseRtspHeaderValue _ line p) as [[r q]|]; [|done]. cbn [mbind option_bind].
    destruct (negb _); [done|]. apply IH; lia.
Qed.

(** A header with its value, in front of others. *)
Definition head_line (i : Z) (v : list Z) : list Z := header i ++ 58 :: v.

Lemma split_at_here c l : split_at c (c :: l) = Some ([], l).
Proof. cbn. by rewrite Z.eqb_refl. Qed.

Lemma run_head_line i v ls p q : parseRtspHeaderIndex (head_line i v) = i -> 0 <= i < RtspNotAcceptedHeader ->
  header_value i (trimString v) p = Some (0, q) -> run_headers (head_line i v :: ls) p = run_headers ls q.
Proof.
  intros Hi Hb E. cbn [run_headers]. rewrite Hi, (proj2 (Z.eqb_neq _ _)) by lia.
  unfold parseRtspHeaderValue. rewrite (proj2 (Z.ltb_ge i 0)), (proj2 (Z.leb_gt _ i)) by lia. cbn [orb].
  unfold head_line. rewrite drop_app_length, split_at_here. by rewrite E.
Qed.

Lemma head_index i v : 0 <= i < RtspNotAcceptedHeader -> parseRtspHeaderIndex (head_line i v) = i.
Proof.
  unfold RtspNotAcceptedHeader. intros Hi.
  assert (i = 0 \/ i = 1 \/ i = 2 \/ i = 3 \/ i = 4 \/ i = 5 \/ i = 6 \/ i = 7 \/ i = 8 \/ i = 9 \/ i = 10 \/ i = 11 \/ i = 12) as Hc by lia.
  repeat (destruct Hc as [->|Hc]; [reflexivity|]). subst. reflexivity.
Qed.

(** *** What is written *)

Definition common_lines p : list (list Z) :=
  [head_line RtspSessionHeader (uint64ToStr (SessionID (m_RtspCommonInfo p)));
   head_line RtspCseqHeader (uint32ToStr (Cseq (m_RtspCommonInfo p)))] ++
  (if bool_decide (m_strRange p = []) then [] else [head_line RtspRangeHeader (m_strRange p)]) ++
  [head_line RtspUserAgentHeader RTSP_USER_AGENT].
Definition accepted_lines p : list (list Z) :=
  (if is_zero (m_dSpeed p) then [] else [head_line RtspSpeedHeader (double2Str (m_dSpeed p))]) ++
  (if is_zero (m_dScale p) then [] else [head_line RtspScaleHeader (double2Str (m_dScale p))]).
Definition nat_lines p : list (list Z) :=
  match NatType (m_RtspNatInfo p) with
  | RTSP_INVALID_NAT_TYPE => []
  | _ => [head_line RtspXNatInfoHeader (nat_value (m_RtspNatInfo p))]
  end.
Definition parameter_lines p (h : Z) (v : list Z) : list (list Z) :=
  if (MethodIndex (m_RtspCommonInfo p) =? RtspSetParameterMethod) && negb (bool_decide (v = [])) then [head_line h v] else [].
Definition rtp_info_lines p : list (list Z) :=
  if bool_decide (m_strRtpInfo p = []) then [] else [head_line RtspRtpInfoHeader (m_strRtpInfo p)].

Lemma put_header_line i v : write_header i v = line_text [head_line i v].
Proof. unfold write_header, line_text, head_line. cbn [fmap list_fmap concat]. by flat_app. Qed.

Lemma common_text p : generateCommonHeader p = line_text (common_lines p).
Proof.
  unfold generateCommonHeader, common_lines. rewrite !put_header_line.
  change (line_text [?a; ?b] ++ _) with (line_text [a; b]). rewrite !line_text_app.
  change [?a; ?b] with ([a] ++ [b]). rewrite line_text_app, <-app_assoc. do 2 f_equal. by destruct (bool_decide _).
Qed.
Lemma accepted_text p : generateAcceptedHeader p = line_text (accepted_lines p).
Proof.
  unfold generateAcceptedHeader, accepted_lines. rewrite !put_header_line, line_text_app.
  by destruct (is_zero (m_dSpeed p)), (is_zero (m_dScale p)).
Qed.
Lemma nat_text p : generateNatInfo p = line_text (nat_lines p).
Proof.
  unfold generateNatInfo, nat_lines. destruct (NatType (m_RtspNatInfo p)) eqn:E; [| |done].
  all: rewrite <-put_header_line; unfold write_header, nat_value; rewrite E; cbn [nat_type_text]; fold (with_src (m_RtspNatInfo p)).
  - change (chars "x-NAT-Info:type=RTP;") with (header RtspXNatInfoHeader ++ [58] ++ chars "type=" ++ chars "RTP" ++ [59]).
    by flat_app.
  - change (chars "x-NAT-Info:type=RTCP;") with (header RtspXNatInfoHeader ++ [58] ++ chars "type=" ++ chars "RTCP" ++ [59]).
    by flat_app.
Qed.

Definition text_ok (v : list Z) : Prop := plain v /\ trimmed v.
(** [snprintf] prints no return and no null character; what [atof] makes of what it
    prints is left open. *)
Definition double_ok (d : double) : Prop := is_zero d = false -> plain (double2Str d).
(** The speed or the scale of a receiver: 0 is not written, any other is read from
    the 15 characters that are. *)
Definition double_read (d : double) : double := if is_zero d then dzero else atof (trimString (double2Str d)).

(** What a packet has that is sent. *)
Record sendable p : Prop := {
  se_session : fits 64 (SessionID (m_RtspCommonInfo p));
  se_cseq : fits 32 (Cseq (m_RtspCommonInfo p));
  se_range : text_ok (m_strRange p);
  se_speed : double_ok (m_dSpeed p);
  se_scale : double_ok (m_dScale p);
  se_nat : NatType (m_RtspNatInfo p) <> RTSP_INVALID_NAT_TYPE -> nat_ok (m_RtspNatInfo p) }.

Definition no_nat : RTSP_NAT_INFO :=
  {| NatType := RTSP_INVALID_NAT_TYPE; LocalIp := 0; LocalPort := 0; SrcIp := 0; SrcPort := 0 |}.

(** The common part of a message in a packet that was new. *)
Definition take_common p q : CRtspPacket :=
  setNatInfo (nat_received (m_RtspNatInfo p)) (setScale (double_read (m_dScale p)) (setSpeed (double_read (m_dSpeed p))
    (set_range_text (m_strRange p) (setCseq (Cseq (m_RtspCommonInfo p)) (setSessionID (SessionID (m_RtspCommonInfo p)) q))))).

Lemma trimmed_uint64 n : fits 64 n -> trimmed (uint64ToStr n).
Proof. intros Hn. apply trimmed_nospace, Forall_uint64; [done|digit_char|lia]. Qed.

Lemma run_common p q ls : sendable p -> m_strRange q = [] ->
  run_headers (common_lines p ++ ls) q =
  run_headers ls (set_range_text (m_strRange p) (setCseq (Cseq (m_RtspCommonInfo p)) (setSessionID (SessionID (m_RtspCommonInfo p)) q))).
Proof.
  intros [Hs Hc [_ Hr] _ _ _] Hq. unfold common_lines. rewrite <-!app_assoc. cbn [app].
  rewrite (run_head_line _ _ _ _ _ (head_index RtspSessionHeader _ ltac:(done)) ltac:(done) eq_refl).
  rewrite (run_head_line _ _ _ _ _ (head_index RtspCseqHeader _ ltac:(done)) ltac:(done) eq_refl).
  rewrite (trimmed_uint64 _ Hs), strtoul_uint64 by done.
  assert (fits 64 (Cseq (m_RtspCommonInfo p))) as Hc' by (eapply fits_mono; [exact Hc|lia]).
  unfold uint32ToStr. rewrite (trimmed_decimal _ Hc'), strtoul_decimal by done. unfold u32. rewrite wrap_small by done.
  set (q1 := setCseq _ _). assert (m_strRange q1 = []) as Hq1 by (unfold q1; by destruct q).
  assert (run_headers (head_line RtspUserAgentHeader RTSP_USER_AGENT :: ls) (set_range_text (m_strRange p) q1) =
          run_headers ls (set_range_text (m_strRange p) q1)) as Hua
    by exact (run_head_line _ _ _ _ _ (head_index RtspUserAgentHeader _ ltac:(done)) ltac:(done) eq_refl).
  destruct (bool_decide_reflect (m_strRange p = [])) as [E|E]; cbn [app].
  - rewrite <-Hua, E. f_equal. clearbody q1. destruct q1. cbn in *. by subst.
  - rewrite (run_head_line _ _ _ _ _ (head_index RtspRangeHeader _ ltac:(done)) ltac:(done) eq_refl). by rewrite Hr.
Qed.

Lemma run_accepted p q ls : m_dSpeed q = dzero -> m_dScale q = dzero ->
  run_headers (accepted_lines p ++ ls) q =
  run_headers ls (setScale (double_read (m_dScale p)) (setSpeed (double_read (m_dSpeed p)) q)).
Proof.
  intros Hq1 Hq2. unfold accepted_lines, double_read. rewrite <-!app_assoc.
  transitivity (run_headers ((if is_zero (m_dScale p) then [] else [head_line RtspScaleHeader (double2Str (m_dScale p))]) ++ ls)
    (setSpeed (double_read (m_dSpeed p)) q)); unfold double_read.
  - destruct (is_zero (m_dSpeed p)); cbn [app]; [f_equal; destruct q; cbn in *; by subst|].
    by rewrite (run_head_line _ _ _ _ _ (head_index RtspSpeedHeader _ ltac:(done)) ltac:(done) eq_refl).
  - destruct (is_zero (m_dScale p)); cbn [app]; [f_equal; destruct q; cbn in *; by subst|].
    by rewrite (run_head_line _ _ _ _ _ (head_index RtspScaleHeader _ ltac:(done)) ltac:(done) eq_refl).
Qed.

Lemma trimmed_nat_value i : nat_ok i -> trimmed (nat_value i) /\ plain (nat_value i) /\ nat_value i <> [].
Proof.
  intros [Hip Hport Hsrc Hsp]. unfold nat_value.
  assert (forall P : Z -> Prop, (forall c, is_digit c = true -> P c) -> P 46 -> P 59 -> P 61 -> P 95 -> (forall c, 65 <= c <= 122 -> P c) ->
    Forall P (nat_value i)) as HP.
  { intros P Hd H46 H59 H61 H95 Hl. unfold nat_value.
    assert (forall n, fits 64 n -> Forall P (decimal n)) as Hdec by (intros n Hn; by apply Forall_decimal).
    assert (forall n, fits 32 n -> Forall P (inet_ntoa n)) as Hin by (intros n Hn; by apply Forall_inet).
    assert (forall s, forallb (fun c => ((65 <=? c) && (c <=? 122)) || (c =? 59) || (c =? 61) || (c =? 95)) (chars s) = true ->
      Forall P (chars s)) as Hs.
    { intros s Hs. apply Is_true_true, forallb_True in Hs. eapply Forall_impl; [exact Hs|]. intros c Hc. cbn in Hc.
      apply Is_true_true in Hc. rewrite !orb_true_iff, andb_true_iff in Hc.
      destruct Hc as [[[Hc|Hc]|Hc]|Hc]; [apply Hl; lia| | |];
        (assert (c = 59 \/ c = 61 \/ c = 95) as [->|[->| ->]] by lia; done). }
    assert (Forall P (nat_type_text (NatType i))) as Ht by (destruct (NatType i); apply Hs; reflexivity).
    rewrite !Forall_app. split_and!; try (apply Hs; reflexivity); try exact Ht; try (by constructor);
      try (apply Hin; unfold fits; lia); try (apply Hdec; unfold fits; lia).
    destruct (with_src i); [|apply Forall_nil_2].
    rewrite !Forall_app. split_and!; try (apply Hs; reflexivity); [exact (Hin _ Hsrc)|apply Hdec; unfold fits in *; lia]. }
  split; [|split].
  - apply trimmed_nospace, HP; try lia; try digit_char; try (intros; lia).
  - apply HP; try lia; try digit_char; try (intros; lia).
  - done.
Qed.

Lemma run_nat p q ls : sendable p -> m_RtspNatInfo q = no_nat ->
  run_headers (nat_lines p ++ ls) q = run_headers ls (setNatInfo (nat_received (m_RtspNatInfo p)) q).
Proof.
  intros [_ _ _ _ _ Hnat] Hq. unfold nat_lines. destruct (NatType (m_RtspNatInfo p)) eqn:E.
  3: { cbn [app]. unfold nat_received. rewrite E. f_equal. destruct q. cbn in *. by subst. }
  all: cbn [app]; destruct (trimmed_nat_value (m_RtspNatInfo p)) as (Ht & _ & Hne); [by apply Hnat|];
    apply run_head_line; [apply head_index; done|done|]; rewrite Ht;
    change (header_value RtspXNatInfoHeader ?v q) with (if zlen v =? 0 then Some (-1, q) else parseNatInfo v q);
    rewrite zlen_not_nil by done; apply parseNatInfo_value; [by apply Hnat|by rewrite E|done].
Qed.

(** *** Messages *)

Definition url_array (url : list Z) : list Z := url ++ drop (length url) (replicate (Z.to_nat RTSP_MAX_URL_LENGTH) 0).

Lemma method_index i x : 0 <= i < RtspIllegalMethod ->
  index_of (fun s => starts s (method i ++ 32 :: x)) m_strRtspMethods = i.
Proof.
  unfold RtspIllegalMethod. intros Hi.
  assert (i = 0 \/ i = 1 \/ i = 2 \/ i = 3 \/ i = 4 \/ i = 5 \/ i = 6 \/ i = 7 \/ i = 8 \/ i = 9 \/ i = 10 \/ i = 11) as Hc by lia.
  repeat (destruct Hc as [->|Hc]; [reflexivity|]). subst. reflexivity.
Qed.

Lemma request_line i url p : 0 <= i < RtspResponseMethod -> text_ok url -> find RTSP_VERSION url = None ->
  zlen url <= RTSP_MAX_URL_LENGTH -> RtspUrl (m_RtspCommonInfo p) = replicate (Z.to_nat RTSP_MAX_URL_LENGTH) 0 ->
  parseRtspMethodLine (method i ++ 32 :: url ++ 32 :: RTSP_VERSION) p = Some (0, set_url_bytes (url_array url) (setMethodIndex i p)).
Proof.
  unfold RtspResponseMethod. intros Hi [Hpl Htr] Hv Hlen Hbuf. unfold parseRtspMethodLine.
  rewrite method_index by (unfold RtspIllegalMethod; lia). cbv zeta.
  rewrite (proj2 (Z.eqb_neq i RtspIllegalMethod)), (proj2 (Z.eqb_neq i RtspResponseMethod)) by (unfold RtspIllegalMethod, RtspResponseMethod; lia).
  assert (zlen (method i ++ 32 :: url ++ 32 :: RTSP_VERSION) <=? zlen (method i) + 1 = false) as ->.
  { apply Z.leb_gt. rewrite zlen_app, zlen_cons, zlen_app, zlen_cons. pose proof (zlen_nonneg url).
    change (zlen RTSP_VERSION) with 8. lia. }
  assert (drop (length (method i) + 1) (method i ++ 32 :: url ++ 32 :: RTSP_VERSION) = url ++ 32 :: RTSP_VERSION) as ->.
  { rewrite drop_app_add. done. }
  assert (find RTSP_VERSION (trimString (url ++ 32 :: RTSP_VERSION)) = Some (match url with [] => 0 | _ => zlen url + 1 end) /\
    trimString (take (Z.to_nat (match url with [] => 0 | _ => zlen url + 1 end)) (trimString (url ++ 32 :: RTSP_VERSION))) = url) as [E1 E2].
  { destruct url as [|c url]; [split; reflexivity|].
    assert (trimmed ((c :: url) ++ 32 :: RTSP_VERSION)) as Ht by (by apply trimmed_app_version).
    rewrite Ht. assert (32 ∉ RTSP_VERSION) as H32 by (apply (bool_decide_eq_true_1 (32 ∉ RTSP_VERSION)); reflexivity).
    rewrite find_sep by done.
    pose proof (find_here RTSP_VERSION []) as Eh. rewrite app_nil_r in Eh. rewrite Eh. cbn [fmap option_fmap option_map].
    split; [done|]. rewrite cons_middle, app_assoc. rewrite take_app_length'; [by apply trimmed_trim|].
    rewrite length_app. unfold zlen. cbn [length]. lia. }
  rewrite E1, E2. rewrite (proj2 (Z.ltb_ge _ _) Hlen).
  assert (RtspUrl (m_RtspCommonInfo (setMethodIndex i p)) = replicate (Z.to_nat RTSP_MAX_URL_LENGTH) 0) as ->
    by (destruct p as [[] ? ? ? ? ? ? ? ? ? ? ?]; done).
  assert (memcpy (replicate (Z.to_nat RTSP_MAX_URL_LENGTH) 0) 0 url = Some (url_array url)) as ->; [|done].
  unfold memcpy. rewrite decide_True.
  - done.
  - rewrite length_replicate. unfold zlen, RTSP_MAX_URL_LENGTH in *. lia.
Qed.

Lemma response_line j p : 0 <= j < RtspNotAcceptedStatus ->
  parseRtspMethodLine (RTSP_VERSION ++ 32 :: status j) p = Some (0, set_status j (setMethodIndex RtspResponseMethod p)).
Proof.
  unfold RtspNotAcceptedStatus. intros Hj.
  assert (j = 0 \/ j = 1 \/ j = 2 \/ j = 3 \/ j = 4 \/ j = 5 \/ j = 6) as Hc by lia.
  repeat (destruct Hc as [->|Hc]; [reflexivity|]). subst. reflexivity.
Qed.

Lemma plain_text l : forallb (fun c => negb (c =? 13) && negb (c =? 0)) l = true -> plain l.
Proof.
  intros Hl. apply Is_true_true, forallb_True in Hl. eapply Forall_impl; [exact Hl|]. intros c Hc. cbn in Hc.
  apply Is_true_true in Hc. lia.
Qed.

Lemma head_line_ok i v : 0 <= i < RtspNotAcceptedHeader -> plain v -> plain (head_line i v) /\ head_line i v <> [].
Proof.
  unfold RtspNotAcceptedHeader. intros Hi Hv. split.
  - apply plain_app. split; [|constructor; [done|exact Hv]].
    assert (i = 0 \/ i = 1 \/ i = 2 \/ i = 3 \/ i = 4 \/ i = 5 \/ i = 6 \/ i = 7 \/ i = 8 \/ i = 9 \/ i = 10 \/ i = 11 \/ i = 12) as Hc by lia.
    repeat (destruct Hc as [->|Hc]; [by apply plain_text|]). subst. by apply plain_text.
  - unfold head_line. by destruct (header i).
Qed.

Definition lines_ok (ls : list (list Z)) : Prop := Forall (fun l => plain l /\ l <> []) ls.

Lemma plain_decimal n : fits 64 n -> plain (decimal n).
Proof. intros Hn. apply Forall_decimal; [done|digit_char]. Qed.
Lemma plain_uint64 n : fits 64 n -> plain (uint64ToStr n).
Proof. intros Hn. apply Forall_uint64; [done|digit_char|lia]. Qed.

Lemma head_lines_ok p : sendable p -> lines_ok (common_lines p ++ accepted_lines p ++ nat_lines p).
Proof.
  intros [Hs Hc [Hr _] H1 H2 Hn]. unfold lines_ok. rewrite !Forall_app. split_and!.
  - assert (fits 64 (Cseq (m_RtspCommonInfo p))) as Hc' by (eapply fits_mono; [exact Hc|lia]).
    unfold common_lines. rewrite !Forall_app. split_and!.
    + apply Forall_cons_2; [by apply head_line_ok, plain_uint64|].
      apply Forall_cons_2; [by apply head_line_ok, plain_decimal|apply Forall_nil_2].
    + destruct (bool_decide _); [apply Forall_nil_2|]. apply Forall_cons_2; [by apply head_line_ok|apply Forall_nil_2].
    + apply Forall_cons_2; [apply head_line_ok; [done|by apply plain_text]|apply Forall_nil_2].
  - unfold accepted_lines, double_ok in *. rewrite Forall_app. split.
    + destruct (is_zero (m_dSpeed p)); [apply Forall_nil_2|]. apply Forall_cons_2; [apply head_line_ok; [done|by apply H1]|apply Forall_nil_2].
    + destruct (is_zero (m_dScale p)); [apply Forall_nil_2|]. apply Forall_cons_2; [apply head_line_ok; [done|by apply H2]|apply Forall_nil_2].
  - unfold nat_lines. destruct (NatType (m_RtspNatInfo p)) eqn:E; [| |apply Forall_nil_2].
    all: apply Forall_cons_2; [|apply Forall_nil_2]; apply head_line_ok; [done|]; by apply trimmed_nat_value, Hn.
Qed.

(** A message of a first line and header lines. *)
Definition message (first : list Z) (ls : list (list Z)) : list Z := first ++ RTSP_END_LINE ++ line_text ls ++ RTSP_END_LINE.

Lemma line_text_length ls : (length ls <= length (line_text ls))%nat.
Proof. induction ls as [|l ls IH]; [cbn; lia|]. rewrite line_text_cons, !length_app. cbn. lia. Qed.

Lemma parse_message first ls rest p q q' : plain first -> lines_ok ls ->
  parseRtspMethodLine first p = Some (0, q) -> run_headers ls q = Some (0, q') -> m_ulContenLength q' = 0 ->
  parse (message first ls ++ rest) (zlen (message first ls)) p = Some (0, q').
Proof.
  intros Hf Hls Em Eh Hc. unfold parse.
  assert (zlen (message first ls) = zlen first + 2 + (zlen (line_text ls) + 2)) as El
    by (unfold message; rewrite !zlen_app; change (zlen RTSP_END_LINE) with 2; lia).
  pose proof (zlen_nonneg first). pose proof (zlen_nonneg (line_text ls)).
  rewrite (proj2 (Z.eqb_neq _ _)) by lia. unfold message. rewrite <-!app_assoc, readRtspLine_line by done.
  cbn [mbind option_bind]. rewrite Em. cbn [mbind option_bind negb Z.eqb].
  rewrite parse_headers_lines; [|done| |].
  - rewrite Eh. cbn [mbind option_bind negb Z.eqb]. by rewrite Hc.
  - rewrite length_app. pose proof (line_text_length ls). lia.
  - change (first ++ RTSP_END_LINE ++ line_text ls ++ RTSP_END_LINE) with (message first ls). rewrite El. lia.
Qed.

Lemma run_all p q ls : sendable p -> m_strRange q = [] -> m_dSpeed q = dzero -> m_dScale q = dzero -> m_RtspNatInfo q = no_nat ->
  run_headers ((common_lines p ++ accepted_lines p ++ nat_lines p) ++ ls) q = run_headers ls (take_common p q).
Proof.
  intros Hp H1 H2 H3 H4. rewrite <-!app_assoc. rewrite run_common by done.
  rewrite run_accepted by (done || by destruct q). rewrite run_nat by (done || by destruct q). done.
Qed.

(** What is read from a request. *)
Definition received_request p (url : list Z) : CRtspPacket :=
  let i := MethodIndex (m_RtspCommonInfo p) in
  setXPlayInfo (if i =? RtspSetParameterMethod then m_strXPlayInfo p else [])
    (take_common p (set_url_bytes (url_array url) (setMethodIndex i CRtspPacket_new))).

Record request_ok p (url : list Z) : Prop := {
  rq_sendable : sendable p;
  rq_method : 0 <= MethodIndex (m_RtspCommonInfo p) < RtspResponseMethod;
  rq_url : getRtspUrl p = Some url;
  rq_length : zlen url < RTSP_MAX_URL_LENGTH;
  rq_text : text_ok url;
  rq_version : find RTSP_VERSION url = None;
  rq_ctrl : text_ok (m_strXPlayCtrl p);
  rq_info : text_ok (m_strXPlayInfo p) }.

Definition request_lines p : list (list Z) :=
  (common_lines p ++ accepted_lines p ++ nat_lines p) ++
  parameter_lines p RtspXPlayCtrl (m_strXPlayCtrl p) ++ parameter_lines p RtspXPlayInfoHeader (m_strXPlayInfo p).
Definition request_first p (url : list Z) : list Z := method (MethodIndex (m_RtspCommonInfo p)) ++ 32 :: url ++ 32 :: RTSP_VERSION.

Lemma parameter_text p h v :
  (if (MethodIndex (m_RtspCommonInfo p) =? RtspSetParameterMethod) && negb (bool_decide (v = [])) then write_header h v else []) =
  line_text (parameter_lines p h v).
Proof. unfold parameter_lines. rewrite put_header_line. by destruct (_ && _). Qed.

Lemma request_text p url : 0 <= MethodIndex (m_RtspCommonInfo p) < RtspResponseMethod -> getRtspUrl p = Some url ->
  generateRtspReq p = Some (0, message (request_first p url) (request_lines p)).
Proof.
  unfold RtspResponseMethod. intros Hm Hu. unfold generateRtspReq. rewrite (proj2 (Z.leb_gt _ _)) by (unfold RtspIllegalMethod; lia).
  rewrite Hu. cbn [mbind option_bind]. cbv zeta. rewrite !parameter_text, common_text, accepted_text, nat_text.
  unfold message, request_first, request_lines. rewrite !line_text_app. do 2 f_equal. by flat_app.
Qed.

Lemma parameter_ok p h v : 0 <= h < RtspNotAcceptedHeader -> plain v -> lines_ok (parameter_lines p h v).
Proof.
  intros Hh Hv. unfold parameter_lines. destruct (_ && _); [|apply Forall_nil_2].
  apply Forall_cons_2; [by apply head_line_ok|apply Forall_nil_2].
Qed.

Lemma plain_method i : 0 <= i < RtspIllegalMethod -> plain (method i).
Proof.
  unfold RtspIllegalMethod. intros Hi.
  assert (i = 0 \/ i = 1 \/ i = 2 \/ i = 3 \/ i = 4 \/ i = 5 \/ i = 6 \/ i = 7 \/ i = 8 \/ i = 9 \/ i = 10 \/ i = 11) as Hc by lia.
  repeat (destruct Hc as [->|Hc]; [by apply plain_text|]). subst. by apply plain_text.
Qed.

Lemma request_plain p url : request_ok p url -> plain (request_first p url) /\ lines_ok (request_lines p).
Proof.
  intros [Hs Hm _ _ [Hu _] _ [Hc _] [Hi _]]. split.
  - apply plain_app. split; [apply plain_method; unfold RtspResponseMethod, RtspIllegalMethod in *; lia|].
    apply Forall_cons_2; [done|]. apply plain_app. split; [done|]. by apply plain_text.
  - unfold request_lines, lines_ok. rewrite !Forall_app. split; [by rewrite <-!Forall_app; apply head_lines_ok|].
    split; by apply parameter_ok.
Qed.

Lemma run_parameters p q : text_ok (m_strXPlayInfo p) -> m_strXPlayInfo q = [] ->
  run_headers (parameter_lines p RtspXPlayCtrl (m_strXPlayCtrl p) ++ parameter_lines p RtspXPlayInfoHeader (m_strXPlayInfo p)) q =
  Some (0, setXPlayInfo (if MethodIndex (m_RtspCommonInfo p) =? RtspSetParameterMethod then m_strXPlayInfo p else []) q).
Proof.
  intros [_ Ht] Hq. unfold parameter_lines. destruct (_ =? RtspSetParameterMethod); cbn [andb app].
  2: { cbn [run_headers]. do 2 f_equal. destruct q. cbn in *. by subst. }
  transitivity (run_headers (if negb (bool_decide (m_strXPlayInfo p = [])) then [head_line RtspXPlayInfoHeader (m_strXPlayInfo p)] else []) q).
  - destruct (negb (bool_decide (m_strXPlayCtrl p = []))); [|done]. cbn [app].
    exact (run_head_line _ _ _ _ _ (head_index RtspXPlayCtrl _ ltac:(done)) ltac:(done) eq_refl).
  - destruct (bool_decide_reflect (m_strXPlayInfo p = [])) as [E|E]; cbn [negb].
    + rewrite E. cbn [run_headers]. do 2 f_equal. destruct q. cbn in *. by subst.
    + rewrite (run_head_line _ _ _ _ _ (head_index RtspXPlayInfoHeader _ ltac:(done)) ltac:(done) eq_refl). by rewrite Ht.
Qed.

(** C23: A request whose texts are trimmed and of one line, with a URL of less than
    512 characters without the version in it, is read back when it is written: method, address, session, sequence
    number and range come out of [parse] as they went into [generateRtspReq]. The
    speed and the scale come out as [atof] reads the at most 15 characters that
    were printed, of which nothing is assumed, or as 0 when they were 0. The
    address translation comes out with its source when it has address and port,
    provided its local address and port are not 0 ([nat_ok]: those are written but
    refused). The play information comes out of a SET_PARAMETER only, and the play
    control of none. What follows the message in memory does not matter. *)
Theorem rtsp_request_roundtrip p url rest : request_ok p url -> exists msg, generateRtspReq p = Some (0, msg) /\
  parse (msg ++ rest) (zlen msg) CRtspPacket_new = Some (0, received_request p url).
Proof.
  intros Hp. pose proof (request_plain p url Hp) as [Hfirst Hls]. destruct Hp as [Hs Hm Hu Hl Ht Hv Hc Hi].
  exists (message (request_first p url) (request_lines p)). split; [by apply request_text|].
  eapply parse_message; [done|done|apply request_line; (done || lia)| |].
  - unfold request_lines. rewrite run_all by done. rewrite run_parameters by done. reflexivity.
  - reflexivity.
Qed.

(** What is read from a response. *)
Definition received_response p : CRtspPacket :=
  setRtpInfo (m_strRtpInfo p)
    (take_common p (set_status (StatusCodeIndex (m_RtspCommonInfo p)) (setMethodIndex RtspResponseMethod CRtspPacket_new))).

Definition response_lines p : list (list Z) := (common_lines p ++ accepted_lines p ++ nat_lines p) ++ rtp_info_lines p.
Definition response_first p : list Z := RTSP_VERSION ++ 32 :: status (StatusCodeIndex (m_RtspCommonInfo p)).

Lemma response_text p : 0 <= StatusCodeIndex (m_RtspCommonInfo p) < RtspNotAcceptedStatus ->
  generateRtspResp p = (0, message (response_first p) (response_lines p)).
Proof.
  intros Hs. unfold generateRtspResp. rewrite (proj2 (Z.leb_gt _ _)) by lia.
  rewrite common_text, accepted_text, nat_text, put_header_line. unfold message, response_first, response_lines, rtp_info_lines.
  rewrite !line_text_app. f_equal. destruct (bool_decide _); by flat_app.
Qed.

Lemma response_plain p : sendable p -> 0 <= StatusCodeIndex (m_RtspCommonInfo p) < RtspNotAcceptedStatus ->
  plain (m_strRtpInfo p) -> plain (response_first p) /\ lines_ok (response_lines p).
Proof.
  unfold RtspNotAcceptedStatus. intros Hp Hs Hi. split.
  - apply plain_app. split; [by apply plain_text|]. apply Forall_cons_2; [done|].
    clear Hp Hi. revert Hs. generalize (StatusCodeIndex (m_RtspCommonInfo p)). intros j Hs.
    assert (j = 0 \/ j = 1 \/ j = 2 \/ j = 3 \/ j = 4 \/ j = 5 \/ j = 6) as Hc by lia.
    repeat (destruct Hc as [->|Hc]; [by apply plain_text|]). subst. by apply plain_text.
  - unfold response_lines, lines_ok. rewrite Forall_app. split; [by apply head_lines_ok|].
    unfold rtp_info_lines. destruct (bool_decide _); [apply Forall_nil_2|].
    apply Forall_cons_2; [by apply head_line_ok|apply Forall_nil_2].
Qed.

(** A response that is written is read back, with its status and the information on
    the stream. *)
Theorem rtsp_response_roundtrip p rest : sendable p -> 0 <= StatusCodeIndex (m_RtspCommonInfo p) < RtspNotAcceptedStatus ->
  text_ok (m_strRtpInfo p) -> exists msg, generateRtspResp p = (0, msg) /\
  parse (msg ++ rest) (zlen msg) CRtspPacket_new = Some (0, received_response p).
Proof.
  intros Hp Hs [Hi Ht]. destruct (response_plain p Hp Hs Hi) as [Hfirst Hls].
  exists (message (response_first p) (response_lines p)). split; [by apply response_text|].
  eapply parse_message; [done|done|by apply response_line| |].
  - unfold response_lines. rewrite run_all by done. unfold rtp_info_lines.
    destruct (bool_decide_reflect (m_strRtpInfo p = [])) as [E|E].
    + cbn [run_headers]. do 2 f_equal. unfold received_response. by rewrite E.
    + erewrite run_head_line; [reflexivity|by apply head_index|done|]. rewrite Ht.
      change (header_value RtspRtpInfoHeader ?v ?q) with (Some (if zlen v =? 0 then (-1, q) else (0, setRtpInfo v q))).
      rewrite zlen_not_nil by done. reflexivity.
  - reflexivity.
Qed.

(** The names of two headers are exchanged: the table of the names has the type of
    the content before the information on the stream, the numbers have them the other way
    round. So a response is written with the information on the stream as the type of
    its content, the type of a content is taken for the information on the stream, and the
    information on the stream for the type of the content. *)
Theorem rtp_info_misnamed p v : trimString v <> [] ->
  let read l := parseRtspHeaderValue (parseRtspHeaderIndex l) l p in
  read (chars "RTP-Info:" ++ v) = Some (0, set_content_type (trimString v) p) /\
  read (chars "Content-Type:" ++ v) = Some (0, setRtpInfo (trimString v) p) /\
  (m_strRtpInfo p <> [] -> 0 <= StatusCodeIndex (m_RtspCommonInfo p) < RtspNotAcceptedStatus ->
   exists head, generateRtspResp p = (0, head ++ chars "Content-Type:" ++ m_strRtpInfo p ++ RTSP_END_MSG)).
Proof.
  intros Hv read. assert (zlen (trimString v) =? 0 = false) as Hz by by apply zlen_not_nil.
  assert (forall i q, 0 <= i < RtspNotAcceptedHeader -> header_value i (trimString v) p = Some (0, q) ->
    read (head_line i v) = Some (0, q)) as Hread.
  { intros i q Hi E. unfold read. rewrite head_index by done. unfold parseRtspHeaderValue.
    rewrite (proj2 (Z.ltb_ge i 0)), (proj2 (Z.leb_gt _ i)) by lia. cbn [orb].
    unfold head_line. by rewrite drop_app_length, split_at_here. }
  split_and!.
  - change (chars "RTP-Info:" ++ v) with (head_line RtspContentType v). apply Hread; [done|].
    change (header_value RtspContentType ?v ?q) with (Some (if zlen v =? 0 then (-1, q) else (0, set_content_type v q))).
    by rewrite Hz.
  - change (chars "Content-Type:" ++ v) with (head_line RtspRtpInfoHeader v). apply Hread; [done|].
    change (header_value RtspRtpInfoHeader ?v ?q) with (Some (if zlen v =? 0 then (-1, q) else (0, setRtpInfo v q))).
    by rewrite Hz.
  - intros Hi Hs. unfold generateRtspResp. rewrite (proj2 (Z.leb_gt _ _)) by lia. rewrite bool_decide_eq_false_2 by done.
    exists (RTSP_VERSION ++ [32] ++ status (StatusCodeIndex (m_RtspCommonInfo p)) ++ RTSP_END_LINE ++
      generateCommonHeader p ++ generateAcceptedHeader p ++ generateNatInfo p).
    change (chars "Content-Type:") with (header RtspRtpInfoHeader ++ [58]). change RTSP_END_MSG with (RTSP_END_LINE ++ RTSP_END_LINE).
    unfold write_header. f_equal. by flat_app.
Qed.

(** *** The end of a message in a stream *)

Lemma find_missing c pat l : c ∈ pat -> c ∉ l -> find pat l = None.
Proof.
  intros Hp. assert (forall l, c ∉ l -> starts pat l = false) as Hs.
  { clear l. induction pat as [|x pat IH]; [by apply not_elem_of_nil in Hp|]. intros [|y l] Hl; [done|].
    apply not_elem_of_cons in Hl as [Hy Hl]. cbn. destruct (Z.eqb_spec y x) as [->|]; [|done].
    apply elem_of_cons in Hp as [?|Hp]; [done|]. cbn. by apply IH. }
  induction l as [|y l IH]; intros Hl.
  - unfold find. cbn. by rewrite Hs.
  - rewrite find_cons, Hs by done. apply not_elem_of_cons in Hl as [_ Hl]. by rewrite IH.
Qed.

Lemma find_skip l b : plain l -> find RTSP_END_MSG (l ++ b) = (fun x => x + zlen l) <$> find RTSP_END_MSG b.
Proof.
  induction 1 as [|c l [Hc _] Hl IH]; cbn [app].
  - change (zlen (@nil Z)) with 0. destruct (find RTSP_END_MSG b); cbn; [f_equal; lia|done].
  - rewrite find_cons. assert (starts RTSP_END_MSG (c :: l ++ b) = false) as ->
      by (cbn; by rewrite (proj2 (Z.eqb_neq c 13))).
    rewrite IH, <-option_fmap_compose. apply option_fmap_ext. intros x. cbn. rewrite zlen_cons. lia.
Qed.

Lemma find_end first ls : plain first -> lines_ok ls ->
  find RTSP_END_MSG (message first ls) = Some (zlen (message first ls) - 4).
Proof.
  unfold message. intros Hf Hls. revert first Hf. induction Hls as [|l ls [Hl Hne] Hls IH]; intros first Hf.
  - rewrite find_skip by done. change (find RTSP_END_MSG (RTSP_END_LINE ++ line_text [] ++ RTSP_END_LINE)) with (Some 0).
    rewrite zlen_app. change (zlen (RTSP_END_LINE ++ line_text [] ++ RTSP_END_LINE)) with 4. cbn. f_equal. lia.
  - rewrite find_skip by done. rewrite line_text_cons, <-!app_assoc.
    set (b := l ++ RTSP_END_LINE ++ line_text ls ++ RTSP_END_LINE).
    assert (find RTSP_END_MSG (RTSP_END_LINE ++ b) = (fun x => x + 2) <$> find RTSP_END_MSG b) as ->.
    { destruct l as [|c l]; [done|]. apply Forall_cons in Hl as [[Hc _] _]. unfold b. cbn [app RTSP_END_LINE].
      assert (forall x, starts RTSP_END_MSG (13 :: 10 :: c :: x) = false) as E
        by (intros x; cbn; by rewrite (proj2 (Z.eqb_neq c 13))).
      rewrite find_cons, E, find_cons. change (starts RTSP_END_MSG (10 :: ?x)) with false. cbv iota. rewrite <-option_fmap_compose. apply option_fmap_ext. intros x. cbn. lia. }
    unfold b. rewrite IH by done. cbn [fmap option_fmap option_map]. f_equal. rewrite !zlen_app. change (zlen RTSP_END_LINE) with 2. lia.
Qed.

(** No length of a content. *)
Definition no_length (l : list Z) : Prop := find (chars "Content-L") l = None /\ find (chars "Content-l") l = None.

Lemma find_longer a b l : find a l = None -> find (a ++ b) l = None.
Proof.
  assert (forall l, starts (a ++ b) l = true -> starts a l = true) as Hs.
  { induction a as [|x a IH]; intros l'; [done|]. destruct l' as [|y l']; [done|]. cbn.
    rewrite !andb_true_iff. intros [? ?]. auto. }
  induction l as [|c l IH]; intros Hn.
  - unfold find in *. cbn in *. destruct (starts (a ++ b) []) eqn:E; [|done]. apply Hs in E. by rewrite E in Hn.
  - rewrite find_cons in *. destruct (starts (a ++ b) (c :: l)) eqn:E; [apply Hs in E; by rewrite E in Hn|].
    destruct (starts a (c :: l)); [done|]. apply fmap_None in Hn. by rewrite IH.
Qed.

Lemma find_lines pat first ls : 13 ∉ pat -> 10 ∉ pat -> pat <> [] -> find pat first = None ->
  Forall (fun l => find pat l = None) ls -> find pat (message first ls) = None.
Proof.
  intros H13 H10 Hne Hf Hls. unfold message.
  assert (find pat (RTSP_END_LINE ++ line_text ls ++ RTSP_END_LINE) = None) as Hb.
  { assert (find pat [] = None) as Hnil by (destruct pat; done).
    assert (forall x, find pat x = None -> find pat (RTSP_END_LINE ++ x) = None) as Hend.
    { intros x Hx. change (RTSP_END_LINE ++ x) with ([] ++ 13 :: ([] ++ 10 :: x)).
      apply find_sep_none; [done..|]. by apply find_sep_none. }
    apply Hend.
    induction Hls as [|l ls Hl Hls IH].
    - change (line_text [] ++ RTSP_END_LINE) with (RTSP_END_LINE ++ []). by apply Hend.
    - rewrite line_text_cons, <-!app_assoc. change (RTSP_END_LINE ++ ?x) with (13 :: ([] ++ 10 :: x)).
      apply find_sep_none; [done..|]. by apply find_sep_none. }
  change (RTSP_END_LINE ++ ?x) with (13 :: 10 :: x) in *. apply find_sep_none; [done..|].
  rewrite find_cons in Hb. destruct (starts _ _); [done|]. by apply fmap_None in Hb.
Qed.

Lemma no_length_missing c v : c ∈ chars "Content-" -> c ∉ v -> no_length v.
Proof.
  intros Hc Hv. change (no_length v) with (find (chars "Content-" ++ chars "L") v = None /\ find (chars "Content-" ++ chars "l") v = None).
  split; (eapply find_missing; [|exact Hv]; apply elem_of_app; by left).
Qed.

Lemma no_length_head i v : 0 <= i < RtspNotAcceptedHeader -> i <> RtspContentLengthHeader -> no_length v -> no_length (head_line i v).
Proof.
  unfold RtspNotAcceptedHeader, RtspContentLengthHeader. intros Hi Hne [H1 H2].
  assert (no_length (header i)) as [E1 E2].
  { assert (i = 0 \/ i = 1 \/ i = 2 \/ i = 3 \/ i = 4 \/ i = 5 \/ i = 7 \/ i = 8 \/ i = 9 \/ i = 10 \/ i = 11 \/ i = 12) as Hc by lia.
    repeat (destruct Hc as [->|Hc]; [by split|]). subst. by split. }
  split; (apply find_sep_none; [|done|done|done]);
    [apply (bool_decide_eq_true_1 (58 ∉ chars "Content-L"))|apply (bool_decide_eq_true_1 (58 ∉ chars "Content-l"))]; reflexivity.
Qed.

Lemma not_in_Forall (P : Z -> Prop) c v : Forall P v -> ~ P c -> c ∉ v.
Proof. intros Hv Hc Hin. rewrite Forall_forall in Hv. by apply Hc, Hv. Qed.

Lemma no_length_numbers n i : (fits 64 n -> no_length (decimal n) /\ no_length (uint64ToStr n)) /\ (nat_ok i -> no_length (nat_value i)).
Proof.
  split.
  - intros Hn. split; apply (no_length_missing 111); try (by apply (bool_decide_eq_true_1 (111 ∈ chars "Content-"))).
    + eapply (not_in_Forall (fun c => c <> 111)); [apply Forall_decimal; [done|digit_char]|by intros H'].
    + eapply (not_in_Forall (fun c => c <> 111)); [apply Forall_uint64; [done|digit_char|lia]|by intros H'].
  - intros [Hip Hport Hsrc Hsp]. apply (no_length_missing 45); [by apply (bool_decide_eq_true_1 (45 ∈ chars "Content-"))|].
    assert (forall n, fits 64 n -> 45 ∉ decimal n) as Hd
      by (intros m Hm; eapply (not_in_Forall (fun c => c <> 45)); [apply Forall_decimal; [done|digit_char]|by intros H']).
    assert (forall n, fits 32 n -> 45 ∉ inet_ntoa n) as Hi
      by (intros m Hm; eapply (not_in_Forall (fun c => c <> 45)); [apply Forall_inet; [done|digit_char|lia]|by intros H']).
    unfold nat_value. rewrite !not_elem_of_app. split_and!;
      try (by apply (bool_decide_eq_true_1 (45 ∉ _))); try (apply Hi; unfold fits; lia); try (apply Hd; unfold fits; lia).
    + destruct (NatType i); by apply (bool_decide_eq_true_1 (45 ∉ _)).
    + destruct (with_src i); [|apply not_elem_of_nil]. rewrite !not_elem_of_app. split_and!;
        try (by apply (bool_decide_eq_true_1 (45 ∉ _))); [exact (Hi _ Hsrc)|apply Hd; unfold fits in *; lia].
Qed.

Lemma head_no_length p : sendable p -> no_length (m_strRange p) -> no_length (double2Str (m_dSpeed p)) ->
  no_length (double2Str (m_dScale p)) -> Forall no_length (common_lines p ++ accepted_lines p ++ nat_lines p).
Proof.
  intros [Hs Hc _ _ _ Hn] Hr H1 H2.
  assert (fits 64 (Cseq (m_RtspCommonInfo p))) as Hc' by (eapply fits_mono; [exact Hc|lia]).
  pose proof (proj2 (proj1 (no_length_numbers (SessionID (m_RtspCommonInfo p)) no_nat) Hs)) as Hl1.
  pose proof (proj1 (proj1 (no_length_numbers _ no_nat) Hc')) as Hl2.
  rewrite !Forall_app. split_and!.
  - unfold common_lines. rewrite !Forall_app. split_and!.
    + apply Forall_cons_2; [by apply no_length_head|]. apply Forall_cons_2; [by apply no_length_head|apply Forall_nil_2].
    + destruct (bool_decide _); [apply Forall_nil_2|]. apply Forall_cons_2; [by apply no_length_head|apply Forall_nil_2].
    + apply Forall_cons_2; [|apply Forall_nil_2]. by apply no_length_head; [| |split].
  - unfold accepted_lines. rewrite Forall_app.
    split; (destruct (is_zero _); [apply Forall_nil_2|]); (apply Forall_cons_2; [by apply no_length_head|apply Forall_nil_2]).
  - unfold nat_lines. destruct (NatType (m_RtspNatInfo p)) eqn:E; [| |apply Forall_nil_2].
    all: apply Forall_cons_2; [|apply Forall_nil_2]; apply no_length_head; [done|done|];
      apply (no_length_numbers 0); by apply Hn.
Qed.

Lemma find_method_line i x : 0 <= i < RtspIllegalMethod -> find_method (method i ++ 32 :: x) m_strRtspMethods = Some true.
Proof.
  unfold RtspIllegalMethod. intros Hi.
  assert (i = 0 \/ i = 1 \/ i = 2 \/ i = 3 \/ i = 4 \/ i = 5 \/ i = 6 \/ i = 7 \/ i = 8 \/ i = 9 \/ i = 10 \/ i = 11) as Hc by lia.
  repeat (destruct Hc as [->|Hc]; [reflexivity|]). subst. reflexivity.
Qed.

(** The end of a message is found. *)
Lemma check_message i x ls rest : 0 <= i < RtspIllegalMethod -> plain (method i ++ 32 :: x) -> lines_ok ls ->
  no_length (method i ++ 32 :: x) -> Forall no_length ls ->
  let msg := message (method i ++ 32 :: x) ls in
  zlen msg < 2 ^ 32 -> checkRtsp (msg ++ rest) (zlen msg) 0 = Some (0, zlen msg, msg ++ rest).
Proof.
  intros Hi Hp Hls [Hn1 Hn2] Hns msg Hlen. unfold checkRtsp.
  assert (find_method (msg ++ rest) m_strRtspMethods = Some true) as ->.
  { unfold msg, message. rewrite <-!app_assoc. rewrite <-app_comm_cons. by apply find_method_line. }
  cbn [mbind option_bind negb]. rewrite sub_prefix by done. cbn [mbind option_bind].
  assert (find RTSP_END_MSG msg = Some (zlen msg - 4)) as -> by by apply find_end.
  assert (0 <= zlen msg) by apply zlen_nonneg.
  assert (u32 (zlen msg - 4 + 4) = zlen msg) as -> by (unfold u32; rewrite wrap_small by (unfold fits; lia); lia).
  assert (forall a, find (chars "Content-" ++ a) (method i ++ 32 :: x) = None -> Forall (fun l => find (chars "Content-" ++ a) l = None) ls ->
    13 ∉ a -> 10 ∉ a -> find ((chars "Content-" ++ a) ++ chars "ength:") msg = None) as Hf.
  { intros a Ha Hal H13 H10. apply find_longer, find_lines; try done; rewrite not_elem_of_app; (split; [|done]).
    - by apply (bool_decide_eq_true_1 (13 ∉ _)).
    - by apply (bool_decide_eq_true_1 (10 ∉ _)). }
  assert (find (chars "Content-Length:") msg = None) as ->.
  { apply (Hf (chars "L")); [done|eapply Forall_impl; [exact Hns|]; by intros l [? _]| |];
      [by apply (bool_decide_eq_true_1 (13 ∉ _))|by apply (bool_decide_eq_true_1 (10 ∉ _))]. }
  assert (find (chars "Content-length:") msg = None) as ->; [|done].
  apply (Hf (chars "l")); [done|eapply Forall_impl; [exact Hns|]; by intros l [_ ?]| |];
    [by apply (bool_decide_eq_true_1 (13 ∉ _))|by apply (bool_decide_eq_true_1 (10 ∉ _))].
Qed.

(** A request that is written is framed exactly by [checkRtsp], whatever follows it
    in the receive buffer of a connection, when the texts in it hold no length of a
    content. *)
Theorem rtsp_request_framed p url rest : request_ok p url ->
  Forall no_length [url; m_strRange p; double2Str (m_dSpeed p); double2Str (m_dScale p); m_strXPlayCtrl p; m_strXPlayInfo p] ->
  exists msg, generateRtspReq p = Some (0, msg) /\
    (zlen msg < 2 ^ 32 -> checkRtsp (msg ++ rest) (zlen msg) 0 = Some (0, zlen msg, msg ++ rest)).
Proof.
  intros Hp Hn. pose proof (request_plain p url Hp) as [Hfirst Hls]. destruct Hp as [Hs Hm Hu _ _ _ _ _].
  repeat (apply Forall_cons in Hn as [? Hn]).
  exists (message (request_first p url) (request_lines p)). split; [by apply request_text|].
  unfold RtspResponseMethod in Hm. apply check_message; [unfold RtspIllegalMethod; lia|done|done| |].
  - assert (no_length (method (MethodIndex (m_RtspCommonInfo p)))) as [Hm1 Hm2].
    { revert Hm. generalize (MethodIndex (m_RtspCommonInfo p)). intros i Hm.
      assert (i = 0 \/ i = 1 \/ i = 2 \/ i = 3 \/ i = 4 \/ i = 5 \/ i = 6 \/ i = 7 \/ i = 8 \/ i = 9 \/ i = 10) as Hc by lia.
      repeat (destruct Hc as [->|Hc]; [by split|]). subst. by split. }
    assert (32 ∉ chars "Content-L" /\ 32 ∉ chars "Content-l") as [E1 E2]
      by (split; [by apply (bool_decide_eq_true_1 (32 ∉ _))|by apply (bool_decide_eq_true_1 (32 ∉ _))]).
    assert (no_length url) as [? ?] by done.
    split; (apply find_sep_none; [done|done|done|]); by apply find_sep_none.
  - unfold request_lines. rewrite !Forall_app. split; [rewrite <-!Forall_app; by apply head_no_length|].
    unfold parameter_lines. split; (destruct (_ && _); [|apply Forall_nil_2]);
      (apply Forall_cons_2; [by apply no_length_head|apply Forall_nil_2]).
Qed.

(** *** Addresses *)

(** The address of a stream is read: the host's address and port, and the number of
    the stream, behind a name and password if there are some. *)
Theorem parseRtspUrl_correct user ip port id : 0 < ip < 2 ^ 32 -> 0 < port < 2 ^ 16 -> 46 ∉ id -> 47 ∉ user -> 64 ∉ user ->
  let host := inet_ntoa ip ++ 58 :: decimal port in
  let info := (0, Some {| Ip := ip; Port := port; ContentId := id |}) in
  parseRtspUrl (RTSP_URL_PROTOCOL ++ host ++ 47 :: id) = info /\
  parseRtspUrl (RTSP_URL_PROTOCOL ++ user ++ 64 :: host ++ 47 :: id) = info.
Proof.
  intros Hip Hport Hid Hu47 Hu64 host info.
  assert (fits 32 ip /\ fits 64 port) as [Hf Hfp] by (unfold fits; lia).
  assert (forall c, is_digit c = false -> c <> 46 -> c <> 58 -> Forall (fun x => x <> c) host) as Hhost.
  { intros c Hc H46 H58. apply Forall_app_2; [apply Forall_inet; [done|congruence|done]|].
    apply Forall_cons_2; [done|]. apply Forall_decimal; [done|congruence]. }
  assert (forall a, parseRtspUrl (RTSP_URL_PROTOCOL ++ a) = match split_at 47 a with
    | None => (-1, None)
    | Some (strIp, strLeastUrl) =>
      let strIp := match split_at 64 strIp with Some (_, b) => b | None => strIp end in
      let '(port, strIp) :=
        match split_at 58 strIp with Some (a, b) => (u16 (atoi b), a) | None => (RTSP_DEFAULT_PORT, strIp) end in
      let ip := inet_addr strIp in
      if (ip =? 0) || (port =? 0) then (-1, None)
      else
        match split_at 46 strLeastUrl with
        | None => (0, Some {| Ip := ip; Port := port; ContentId := strLeastUrl |})
        | Some (strLeastUrl, _) =>
          if RTSP_MAX_DEVID_LENGTH - 1 <? zlen strLeastUrl then (-1, None)
          else (0, Some {| Ip := ip; Port := port; ContentId := strLeastUrl |})
        end
    end) as Hstart.
  { intros a. unfold parseRtspUrl. rewrite find_here, drop_app_length. done. }
  assert (split_at 46 id = None) as Hid' by (apply split_at_none; by apply Forall_forall; intros x Hx ->).
  assert (split_at 58 host = Some (inet_ntoa ip, decimal port)) as Hsplit.
  { apply split_at_app. apply Forall_inet; [done|digit_char|lia]. }
  assert (u16 (atoi (decimal port)) = port) as Ep.
  { rewrite atoi_decimal_end by (unfold fits; lia). unfold u16. apply wrap_small. unfold fits. lia. }
  assert (Forall (fun x => x <> 47) user /\ Forall (fun x => x <> 64) user) as [Hu1 Hu2]
    by (split; by apply Forall_forall; intros x Hx ->).
  rewrite !Hstart. split.
  - rewrite split_at_app by by apply Hhost. cbv zeta. rewrite (split_at_none 64 host) by by apply Hhost.
    rewrite Hsplit, Ep, inet_addr_ntoa, Hid' by done. by rewrite !(proj2 (Z.eqb_neq _ 0)) by lia.
  - replace (user ++ 64 :: host ++ 47 :: id) with ((user ++ 64 :: host) ++ 47 :: id) by by rewrite <-app_assoc.
    rewrite split_at_app by (apply Forall_app_2; [done|apply Forall_cons_2; [done|by apply Hhost]]). cbv zeta.
    rewrite split_at_app by done. rewrite Hsplit, Ep, inet_addr_ntoa, Hid' by done. by rewrite !(proj2 (Z.eqb_neq _ 0)) by lia.
Qed.

(** A host that is no address is taken for 255.255.255.255: the check is for 0, and
    what the address function gives is [INADDR_NONE]. *)
Theorem host_name_accepted host id : inet_parts 4 host = None -> 47 ∉ host -> 64 ∉ host -> 58 ∉ host -> 46 ∉ id ->
  parseRtspUrl (RTSP_URL_PROTOCOL ++ host ++ 47 :: id) =
  (0, Some {| Ip := INADDR_NONE; Port := RTSP_DEFAULT_PORT; ContentId := id |}).
Proof.
  intros Hh H47 H64 H58 H46.
  assert (forall (c : Z) (v : list Z), c ∉ v -> Forall (fun x => x <> c) v) as Hnot by (intros c v Hc; by apply Forall_forall; intros x Hx ->).
  unfold parseRtspUrl. rewrite find_here, drop_app_length, split_at_app by by apply Hnot.
  rewrite (split_at_none 64 host), (split_at_none 58 host), (split_at_none 46 id) by by apply Hnot.
  unfold inet_addr. by rewrite Hh.
Qed.

(** An address of 512 characters, which is accepted, leaves no room for the end of the
    text: whoever reads it reads behind the array. *)
Theorem long_url_unterminated i url p rest : 0 <= i < RtspResponseMethod -> text_ok url -> find RTSP_VERSION url = None ->
  zlen url = RTSP_MAX_URL_LENGTH ->
  let msg := message (method i ++ 32 :: url ++ 32 :: RTSP_VERSION) [] in
  exists q, parse (msg ++ rest) (zlen msg) CRtspPacket_new = Some (0, q) /\ getRtspUrl q = None /\ generateRtspReq q = None.
Proof.
  intros Hi Hu Hv Hl msg. exists (set_url_bytes (url_array url) (setMethodIndex i CRtspPacket_new)).
  assert (getRtspUrl (set_url_bytes (url_array url) (setMethodIndex i CRtspPacket_new)) = None) as Hnone.
  { unfold getRtspUrl, array_str. cbn [m_RtspCommonInfo set_url_bytes set_common setMethodIndex CRtspPacket_new RtspUrl].
    rewrite split_at_none; [done|]. unfold url_array. rewrite drop_ge, app_nil_r.
    - destruct Hu as [Hu _]. eapply Forall_impl; [exact Hu|]. by intros c [_ ?].
    - rewrite length_replicate. unfold zlen, RTSP_MAX_URL_LENGTH in *. lia. }
  split_and!; [|done|].
  - unfold RtspResponseMethod in Hi. eapply parse_message; [|apply Forall_nil_2|apply request_line; (done || lia)|reflexivity|reflexivity].
    apply plain_app. split; [apply plain_method; unfold RtspIllegalMethod; lia|]. apply Forall_cons_2; [done|].
    apply plain_app. split; [apply Hu|]. by apply plain_text.
  - unfold generateRtspReq. rewrite Hnone. unfold RtspResponseMethod in Hi.
    by rewrite (proj2 (Z.leb_gt _ _)) by (cbn; unfold RtspIllegalMethod; lia).
Qed.

(** *** Ranges *)

Class ClockLaws : Prop := {
  clock_read : forall t rest, fits 32 t -> read_clock (print_clock t ++ rest) = Some t;
  clock_text : forall t, fits 32 t -> Forall (fun c => c <> 32 /\ c <> 45) (print_clock t);
  clock_some : forall t, fits 32 t -> print_clock t <> [] }.

Lemma find_char c a b : c ∉ a -> find [c] (a ++ c :: b) = Some (zlen a).
Proof.
  induction a as [|x a IH]; intros Ha.
  - cbn [app]. rewrite find_cons. cbn. by rewrite Z.eqb_refl.
  - apply not_elem_of_cons in Ha as [Hx Ha]. cbn [app]. rewrite find_cons. cbn [starts].
    rewrite (proj2 (Z.eqb_neq x c)), IH by (done || congruence). cbn. f_equal. rewrite zlen_cons. lia.
Qed.

(** The parts of a range. *)
Lemma range_parts (pre num tail : list Z) : 45 ∉ pre -> 45 ∉ num ->
  find [45] (pre ++ num ++ [45] ++ tail) = Some (zlen pre + zlen num) /\
  drop (Z.to_nat (zlen pre + zlen num) + 1) (pre ++ num ++ [45] ++ tail) = tail /\
  take (Z.to_nat (zlen pre + zlen num)) (num ++ [45] ++ tail) = num ++ take (length pre) ([45] ++ tail).
Proof.
  intros H1 H2. pose proof (zlen_nonneg num). split_and!.
  - rewrite app_assoc. cbn [app]. rewrite find_char; [by rewrite zlen_app|]. by rewrite not_elem_of_app.
  - replace (Z.to_nat (zlen pre + zlen num) + 1)%nat with (length (pre ++ num ++ [45])).
    + rewrite !app_assoc. by rewrite drop_app_length.
    + rewrite !length_app. unfold zlen. cbn [length]. lia.
  - rewrite take_app_ge by (unfold zlen; lia). do 2 f_equal. unfold zlen. lia.
Qed.

Lemma set_range_range v p : m_strRange (set_range_text v p) = v.
Proof. by destruct p. Qed.

Lemma nospace_clock `{!ClockLaws} t : fits 32 t -> Forall (fun c => c <> 32) (print_clock t) /\ 45 ∉ print_clock t.
Proof.
  intros Ht. split; [eapply Forall_impl; [by apply clock_text|]; by intros c [? _]|].
  eapply (not_in_Forall (fun c => c <> 45)); [eapply Forall_impl; [by apply clock_text|]; by intros c [_ ?]|by intros H'].
Qed.

Lemma range_clock `{!ClockLaws} start stop p : fits 32 start -> fits 32 stop ->
  getRangeTime (setRangeTime ABSOLUTE_TIME start stop p) = (0, Some (ABSOLUTE_TIME, start, stop)).
Proof.
  intros Hs He. unfold setRangeTime, getRangeTime. rewrite set_range_range, bool_decide_eq_false_2 by done.
  destruct (nospace_clock start Hs) as [Hn1 H45]. destruct (nospace_clock stop He) as [Hn2 _].
  set (tail := if stop =? 0 then [] else print_clock stop).
  assert (Forall (fun c => c <> 32) tail) as Htail by (unfold tail; destruct (_ =? 0); [apply Forall_nil_2|done]).
  destruct (range_parts (chars "clock=") (print_clock start) tail) as (E1 & E2 & E3);
    [by apply (bool_decide_eq_true_1 (45 ∉ _))|done|].
  change (zlen (chars "clock=")) with 6 in *. rewrite find_here. change (drop (Z.to_nat 0) ?x) with x. rewrite E1.
  change (drop 6 (chars "clock=" ++ ?x)) with x. rewrite E2, E3. clear E1 E2 E3.
  rewrite (trimmed_nospace (print_clock start ++ _)), clock_read; [|done|].
  2: { apply Forall_app_2; [done|]. apply Forall_take. by apply Forall_cons_2. }
  unfold u32. rewrite (wrap_small 32 start) by done. unfold tail.
  destruct (Z.eqb_spec stop 0) as [->|Hne]; [done|]. rewrite (trimmed_nospace _ Hn2), bool_decide_eq_false_2 by by apply clock_some.
  pose proof (clock_read stop [] He) as Hr. rewrite app_nil_r in Hr. rewrite Hr. by rewrite wrap_small.
Qed.

Lemma range_npt start stop p : fits 32 start -> fits 32 stop ->
  getRangeTime (setRangeTime RELATIVE_TIME start stop p) = (0, Some (RELATIVE_TIME, start, stop)).
Proof.
  intros Hs He. unfold setRangeTime, getRangeTime. rewrite set_range_range, bool_decide_eq_false_2 by done.
  set (num := if start =? 0 then chars "now" else uint32ToStr start). set (tail := if stop =? 0 then [] else uint32ToStr stop).
  assert (fits 64 start /\ fits 64 stop) as [Hs' He'] by (split; (eapply fits_mono; [eassumption|lia])).
  assert (Forall (fun c => is_digit c = true \/ c = 110 \/ c = 111 \/ c = 119) num) as Hnum.
  { unfold num. destruct (start =? 0); [|apply Forall_decimal; [done|auto]]. repeat constructor; tauto. }
  assert (Forall (fun c => is_digit c = true) tail) as Htail.
  { unfold tail. destruct (stop =? 0); [apply Forall_nil_2|by apply Forall_decimal]. }
  destruct (range_parts (chars "npt=") num tail) as (E1 & E2 & E3).
  { by apply (bool_decide_eq_true_1 (45 ∉ _)). }
  { eapply not_in_Forall; [exact Hnum|]. by intros [?|[?|[?|?]]]. }
  assert (find (chars "clock=") (chars "npt=" ++ num ++ [45] ++ tail) = None) as ->.
  { eapply (find_missing 99); [by apply (bool_decide_eq_true_1 (99 ∈ _))|]. rewrite !not_elem_of_app.
    split_and!; try (by apply (bool_decide_eq_true_1 (99 ∉ _))); [|by eapply not_in_Forall; [exact Htail|]].
    eapply not_in_Forall; [exact Hnum|]. by intros [?|[?|[?|?]]]. }
  change (zlen (chars "npt=")) with 4 in *. rewrite find_here. change (drop (Z.to_nat 0) ?x) with x. rewrite E1.
  change (drop 4 (chars "npt=" ++ ?x)) with x. rewrite E2, E3. clear E1 E2 E3.
  change (take (length (chars "npt=")) ([45] ++ tail)) with (45 :: take 3 tail). rewrite (trimmed_nospace (num ++ _)).
  2: { apply Forall_app_2; [eapply Forall_impl; [exact Hnum|]; intros c; unfold is_digit; lia|].
    apply Forall_cons_2; [done|]. apply Forall_take. eapply Forall_impl; [exact Htail|]. digit_char. }
  assert (atoi (num ++ 45 :: take 3 tail) = start) as ->.
  { unfold num. destruct (Z.eqb_spec start 0) as [->|]; [done|]. by apply atoi_decimal. }
  unfold tail. destruct (Z.eqb_spec stop 0) as [->|Hne]; [done|].
  unfold uint32ToStr. rewrite trimmed_decimal by done. destruct (decimal_cons stop He') as (c & l & E & _).
  rewrite bool_decide_eq_false_2 by (by rewrite E). by rewrite atoi_decimal_end.
Qed.

(** A range is read back as it was set. *)
Theorem range_roundtrip `{!ClockLaws} ty start stop p : fits 32 start -> fits 32 stop ->
  getRangeTime (setRangeTime ty start stop p) = (0, Some (ty, start, stop)).
Proof. destruct ty; [apply range_clock|apply range_npt]. Qed.

(** *** Any memory *)

Lemma readRtspLine_total mem : 0 ∈ mem -> exists r, readRtspLine mem = Some r /\
  match r with Some (l, rest) => 0 ∈ rest /\ (length rest < length mem)%nat | None => True end.
Proof.
  induction mem as [|c mem IH]; intros Hnul; [by apply not_elem_of_nil in Hnul|]. cbn [readRtspLine].
  destruct (starts RTSP_END_LINE (c :: mem)) eqn:E.
  - eexists. split; [done|]. unfold RTSP_END_LINE in E. destruct mem as [|d mem]; cbn [starts] in E; [by rewrite andb_false_r in E|].
    apply andb_true_iff in E as [E1 E2]. apply andb_true_iff in E2 as [E2 _].
    apply elem_of_cons in Hnul as [?|Hnul]; [lia|]. apply elem_of_cons in Hnul as [?|Hnul]; [lia|]. change (drop 2 (c :: d :: mem)) with mem. cbn [length]. split; [done|lia].
  - destruct (Z.eqb_spec c 0) as [|Hc]; [by eexists|]. apply elem_of_cons in Hnul as [?|Hnul]; [done|].
    destruct (IH Hnul) as (r & -> & Hr). eexists. split; [reflexivity|]. destruct r as [[l rest]|]; cbn; [|done].
    destruct Hr. split; [done|lia].
Qed.

Lemma split_at_shorter c l a b : split_at c l = Some (a, b) -> (length b < length l)%nat.
Proof.
  revert a b. induction l as [|x l IH]; intros a b; [done|]. cbn. destruct (x =? c); [intros [= _ <-]; lia|].
  destruct (split_at c l) as [[a' b']|]; cbn; [|done]. intros [= _ <-]. specialize (IH _ _ eq_refl). lia.
Qed.

Lemma parseNatFields_total fuel l i : (length l < fuel)%nat -> is_Some (parseNatFields fuel l i).
Proof.
  revert l i. induction fuel as [|fuel IH]; intros l i Hf; [lia|]. cbn [parseNatFields].
  destruct (split_at 59 l) as [[a b]|] eqn:E; [|done]. apply split_at_shorter in E.
  destruct (parseNatField a i) as [r i']. destruct (negb _); [done|]. apply IH. lia.
Qed.

Definition url_size p : Prop := length (RtspUrl (m_RtspCommonInfo p)) = Z.to_nat RTSP_MAX_URL_LENGTH.

Lemma header_value_total i v p : url_size p -> exists r q, header_value i v p = Some (r, q) /\ url_size q.
Proof.
  intros Hp. unfold header_value.
  assert (forall a (b : bool) (r r' : Z), url_size a -> exists x q, Some (if b then (r, p) else (r', a)) = Some (x, q) /\ url_size q) as Hne
    by (intros a b r r' Ha; destruct b; eauto).
  destruct p as [[] ? ? ? ? ? ? ? ? ? ? ?].
  repeat match goal with |- context [if i =? ?k then _ else _] => destruct (i =? k) end;
    try (by eexists _, _); try (by apply Hne).
  destruct (zlen v =? 0) eqn:E; [by eexists _, _|]. unfold parseNatInfo.
  destruct (last v) as [c|] eqn:El; [|apply last_None in El; by subst]. cbn [mbind option_bind].
  set (l := if negb (c =? 59) then v ++ [59] else v). clearbody l.
  match goal with |- context [parseNatFields _ _ ?j] =>
    destruct (parseNatFields_total (S (length l)) l j) as [[r i'] ->]; [lia|] end. cbn [mbind option_bind]. eauto.
Qed.

Lemma parse_headers_total fuel mem left p : (length mem < fuel)%nat -> 0 ∈ mem -> url_size p ->
  exists r q, parse_headers fuel mem left p = Some (r, q) /\ url_size q.
Proof.
  revert mem left p. induction fuel as [|fuel IH]; intros mem left p Hf Hnul Hp; [lia|]. cbn [parse_headers].
  destruct (left <=? 0); [by eexists _, _|]. destruct (readRtspLine_total mem Hnul) as ([[l rest]|] & -> & Hr); [|by eexists _, _].
  destruct Hr as [Hr Hlen]. cbn [mbind option_bind]. destruct l as [|c l]; [by eexists _, _|].
  destruct (_ =? parseRtspHeaderIndex _); [apply IH; [lia|done|done]|].
  assert (exists r q, parseRtspHeaderValue (parseRtspHeaderIndex (c :: l)) (c :: l) p = Some (r, q) /\ url_size q) as (r & q & -> & Hq).
  { unfold parseRtspHeaderValue. destruct (_ || _); [by eexists _, _|].
    destruct (split_at 58 _) as [[a b]|]; [by apply header_value_total|by eexists _, _]. }
  cbn [mbind option_bind]. destruct (negb _); [by eexists _, _|]. apply IH; [lia|done|done].
Qed.

Lemma method_line_total l p : url_size p -> exists r q, parseRtspMethodLine l p = Some (r, q) /\ url_size q.
Proof.
  intros Hp. unfold parseRtspMethodLine. cbv zeta. set (i := index_of _ _).
  assert (url_size (setMethodIndex i p)) as Hq by (destruct p as [[] ? ? ? ? ? ? ? ? ? ? ?]; done).
  destruct (i =? _); [by eexists _, _|]. destruct (_ <=? _); [by eexists _, _|].
  destruct (i =? _); [eexists _, _; split; [done|]; by destruct p as [[] ? ? ? ? ? ? ? ? ? ? ?]|].
  destruct (find _ _) as [pos|]; [|by eexists _, _]. destruct (Z.ltb_spec RTSP_MAX_URL_LENGTH (zlen (trimString (take (Z.to_nat pos)
    (trimString (drop (length (method i) + 1) l)))))); [by eexists _, _|].
  set (url := trimString (take _ _)) in *. destruct (memcpy (RtspUrl (m_RtspCommonInfo (setMethodIndex i p))) 0 url) as [buf|] eqn:E.
  - cbn. eexists _, _. split; [done|]. apply memcpy_length in E. unfold url_size, zlen in *.
    destruct p as [[] ? ? ? ? ? ? ? ? ? ? ?]. cbn in *. lia.
  - unfold memcpy in E. destruct (decide _) as [|Hd]; [done|]. destruct Hd. unfold url_size in Hq. rewrite Hq.
    unfold zlen, RTSP_MAX_URL_LENGTH in *. lia.
Qed.

(** [parse] ends, and reads no byte behind the memory, for any message whose memory
    holds a null character somewhere and the bytes of its size, whatever is in it. *)
Theorem rtsp_parse_total mem size p : 0 ∈ mem -> 0 <= size <= zlen mem -> url_size p ->
  exists r q, parse mem size p = Some (r, q) /\ (r = 0 \/ r = -1) /\ url_size q.
Proof.
  intros Hnul Hs Hp. unfold parse. destruct (size =? 0); [by eexists _, _; split_and!; [|right|]|].
  destruct (readRtspLine_total mem Hnul) as ([[l rest]|] & -> & Hr); cbn [mbind option_bind];
    [|by eexists _, _; split_and!; [|right|]].
  destruct (method_line_total l p Hp) as (r & q & -> & Hq). cbn [mbind option_bind].
  destruct (negb _); [by eexists _, _; split_and!; [|right|]|].
  edestruct (parse_headers_total (S (length rest)) rest) as (r' & q' & E & Hq'); [lia|apply Hr|exact Hq|].
  rewrite E. cbn [mbind option_bind]. destruct (negb (r' =? 0)); [by eexists _, _; split_and!; [|right|]|].
  destruct (negb _); [|by eexists _, _; split_and!; [|left|]].
  rewrite sub_Some by lia. cbn [mbind option_bind].
  destruct (find _ _); [|by eexists _, _; split_and!; [|right|]].
  eexists _, _. split_and!; [done|by left|]. by destruct q' as [[] ? ? ? ? ? ? ? ? ? ? ?].
Qed.
End Read.

(** ** Examples *)

(** Whole speeds, and times as numbers. *)
#[local] Instance demo_doubles : Doubles := {|
  double := Z; dzero := 0; is_zero d := d =? 0; atof l := digits l 0; print_double d := decimal d ++ chars ".000000" |}.
#[local] Instance demo_clock : Clock := {|
  read_clock l := '(a, _) ← split_at 90 l; Some (digits a 0); print_clock t := decimal t ++ [90] |}.
#[local] Instance demo_clock_laws : ClockLaws.
Proof.
  assert (forall t, fits 32 t -> fits 64 t) as H64 by (intros t Ht; eapply fits_mono; [exact Ht|lia]).
  split; intros t; [intros rest Ht|intros Ht..]; apply H64 in Ht; cbn [read_clock print_clock demo_clock].
  - rewrite <-app_assoc. cbn [app]. rewrite split_at_app by (apply Forall_decimal; [done|digit_char]). cbn [mbind option_bind].
    by destruct (decimal_ok t Ht) as (_ & _ & ->).
  - apply Forall_app_2; [apply Forall_decimal; [done|digit_char]|by apply Forall_cons_2].
  - destruct (decimal_cons t Ht) as (c & l & -> & _). done.
Defined.

Definition demo_url : list Z := chars "rtsp://10.0.0.1:554/cam.sdp".
Definition demo_nat : RTSP_NAT_INFO :=
  {| NatType := RTSP_NAT_TYPE_RTCP; LocalIp := 167772161; LocalPort := 6000; SrcIp := 3232235521; SrcPort := 7001 |}.
Definition demo_packet : CRtspPacket := setRangeTime RELATIVE_TIME 10 20 (setNatInfo demo_nat (setXPlayInfo (chars "EOS")
  (setXPlayCtrl (chars "SEEK") (setSpeed 2 (setRtspStatusCode 0 (setRtpInfo (chars "url=a;seq=1")
    (setCseq 77 (setSessionID 18446744073709551615 (setRtspUrl demo_url (setMethodIndex RtspSetParameterMethod CRtspPacket_new)))))))))).

Lemma demo_text s : forallb (fun c => negb (c =? 13) && negb (c =? 0)) (chars s) = true -> trimString (chars s) = chars s -> text_ok (chars s).
Proof. intros H1 H2. split; [by apply plain_text|done]. Defined.

Lemma demo_sendable : sendable demo_packet.
Proof.
  split; try (by split).
  - by apply (demo_text "npt=10-20").
  - intros _. by apply plain_text.
  - intros E. discriminate E.
Defined.

Lemma demo_request : request_ok demo_packet demo_url.
Proof.
  split; [exact demo_sendable|by split|reflexivity|done|by apply demo_text|reflexivity|by apply (demo_text "SEEK")|by apply (demo_text "EOS")].
Defined.

Lemma rtsp_request_roundtrip_witness : exists msg, generateRtspReq demo_packet = Some (0, msg) /\
  parse (msg ++ [0]) (zlen msg) CRtspPacket_new = Some (0, received_request demo_packet demo_url).
Proof. exact (rtsp_request_roundtrip demo_packet demo_url [0] demo_request). Defined.

Lemma rtsp_response_roundtrip_witness : exists msg, generateRtspResp demo_packet = (0, msg) /\
  parse (msg ++ []) (zlen msg) CRtspPacket_new = Some (0, received_response demo_packet).
Proof. apply rtsp_response_roundtrip; [exact demo_sendable|by split|by apply (demo_text "url=a;seq=1")]. Defined.

Lemma rtsp_request_framed_witness : exists msg, generateRtspReq demo_packet = Some (0, msg) /\
  (zlen msg < 2 ^ 32 -> checkRtsp (msg ++ [82]) (zlen msg) 0 = Some (0, zlen msg, msg ++ [82])).
Proof. apply (rtsp_request_framed demo_packet demo_url [82] demo_request).
  repeat apply Forall_cons_2; [split; vm_compute; reflexivity..|by apply Forall_nil_2].
Defined.

Lemma rtp_info_misnamed_witness : trimString (chars " a") <> [] /\
  parseRtspHeaderValue (parseRtspHeaderIndex (chars "RTP-Info: a")) (chars "RTP-Info: a") CRtspPacket_new =
  Some (0, set_content_type (chars "a") CRtspPacket_new).
Proof.
  assert (Hv : trimString (chars " a") <> []) by done. split; [exact Hv|].
  exact (proj1 (rtp_info_misnamed CRtspPacket_new (chars " a") Hv)).
Defined.

Lemma parseRtspUrl_correct_witness :
  let info := (0, Some {| Ip := 167772161; Port := 8554; ContentId := chars "cam01" |}) in
  parseRtspUrl (RTSP_URL_PROTOCOL ++ (inet_ntoa 167772161 ++ 58 :: decimal 8554) ++ 47 :: chars "cam01") = info /\
  parseRtspUrl (RTSP_URL_PROTOCOL ++ chars "me:pw" ++ 64 :: (inet_ntoa 167772161 ++ 58 :: decimal 8554) ++ 47 :: chars "cam01") = info.
Proof.
  apply (parseRtspUrl_correct (chars "me:pw") 167772161 8554 (chars "cam01")); try lia.
  - by apply (bool_decide_eq_true_1 (46 ∉ _)).
  - by apply (bool_decide_eq_true_1 (47 ∉ _)).
  - by apply (bool_decide_eq_true_1 (64 ∉ _)).
Defined.

Lemma host_name_accepted_witness : parseRtspUrl (RTSP_URL_PROTOCOL ++ chars "camera" ++ 47 :: chars "1") =
  (0, Some {| Ip := INADDR_NONE; Port := RTSP_DEFAULT_PORT; ContentId := chars "1" |}).
Proof.
  apply host_name_accepted; [reflexivity|..];
    [apply (bool_decide_eq_true_1 (47 ∉ chars "camera"))|apply (bool_decide_eq_true_1 (64 ∉ chars "camera"))|
     apply (bool_decide_eq_true_1 (58 ∉ chars "camera"))|apply (bool_decide_eq_true_1 (46 ∉ chars "1"))]; reflexivity.
Defined.

Definition demo_long : list Z := replicate 512 97.
Lemma long_url_unterminated_witness :
  let msg := message (method 3 ++ 32 :: demo_long ++ 32 :: RTSP_VERSION) [] in
  exists q, parse (msg ++ []) (zlen msg) CRtspPacket_new = Some (0, q) /\ getRtspUrl q = None /\ generateRtspReq q = None.
Proof.
  apply (long_url_unterminated 3 demo_long CRtspPacket_new []); [by split| |vm_compute; reflexivity|vm_compute; reflexivity].
  split; [apply plain_text; vm_compute; reflexivity|vm_compute; reflexivity].
Defined.

Lemma range_roundtrip_witness : fits 32 1000 /\ fits 32 0 /\
  getRangeTime (setRangeTime ABSOLUTE_TIME 1000 0 CRtspPacket_new) = (0, Some (ABSOLUTE_TIME, 1000, 0)).
Proof.
  assert (H1 : fits 32 1000) by by split. assert (H2 : fits 32 0) by by split.
  split; [exact H1|split; [exact H2|exact (range_roundtrip ABSOLUTE_TIME 1000 0 CRtspPacket_new H1 H2)]].
Defined.

Lemma rtsp_parse_total_witness : exists r q, parse (chars "PLAY a" ++ [13; 10; 0]) 8 CRtspPacket_new = Some (r, q) /\
  (r = 0 \/ r = -1) /\ url_size q.
Proof.
  apply rtsp_parse_total; [apply (bool_decide_eq_true_1 (0 ∈ chars "PLAY a" ++ [13; 10; 0])); reflexivity|vm_compute; split; congruence|reflexivity].
Defined.

Example demo_message : option_map snd (generateRtspReq (setRangeTime RELATIVE_TIME 0 0 (setSessionID 5 (setCseq 2 (setRtspUrl (chars "rtsp://a/b")
    (setMethodIndex 3 CRtspPacket_new)))))) =
  Some (line_text [chars "PLAY rtsp://a/b RTSP/1.0"; chars "Session:5"; chars "CSeq:2"; chars "Range:npt=now-";
                   chars "User-Agent:AllCam adapter/v1.0.0.0"] ++ RTSP_END_LINE).
Proof. vm_compute. reflexivity. Qed.
