(* ===== verification/MbBuffer.v ===== *)
(** * Message blocks of the recording server: [svs_mb_buffer.cpp]

    [CSVS_Mb_Buffer] keeps free blocks of a size in a list that goes through their
    [next]; [CSVS_Mb_Buffer_Manager] has one for each type and length of messages;
    [CSVS_Thread_Msg_Buffer_Manager] takes and gives back blocks in batches for one
    thread, in lists that go through their [cont].

    The blocks are in a heap by their addresses, and the lists are the pointers in them.
    The use of a null or deleted block is a fault ([None]). What [new] answers is an
    argument: a list of addresses, in the order of the calls. The lock of a buffer is
    held by a whole operation of it, and what an operation has in hand in between
    nobody else has, so that an operation of a thread is a step.

    The stream server has the same classes with one type of messages,
    [CSignalBufferManager] of [svs_adapter_signal_buffer_manager.cpp]. What differs
    is the interface [BufferTypes], with an instance for each. *)

From S2P Require Import Prelude.
Open Scope Z_scope.

Definition SVS_ALLOC_MSG_BUFF_COUNT : Z := 200.
Definition SVS_FREE_MSG_BUFF_COUNT : Z := 200.

Definition MB_LEN_128_BYTE : Z := 0.
Definition MB_LEN_256_BYTE : Z := 1.
Definition MB_LEN_1K_BYTE : Z := 2.
Definition MB_LEN_4K_BYTE : Z := 3.
Definition MB_LEN_64K_BYTE : Z := 4.
Definition MB_LEN_MAX_VALUE : Z := 5.

Definition SVS_128_BYTE : Z := 128.
Definition SVS_256_BYTE : Z := 256.
Definition SVS_1K_BYTE : Z := 1024.
Definition SVS_4K_BYTE : Z := 4 * 1024.
Definition SVS_64K_BYTE : Z := 64 * 1024.

Definition buffSize (j : Z) : Z := nth (Z.to_nat j) [SVS_128_BYTE; SVS_256_BYTE; SVS_1K_BYTE; SVS_4K_BYTE; SVS_64K_BYTE] 0.

(** The types of messages, how many blocks of a type and length there are, the length a size
    is counted under, and the buffer of [mb_buff_] its blocks come from. *)
Class BufferTypes : Type := {
  MB_TYPE_MAX_VALUE : Z;
  buffCount : Z -> Z -> Z;
  mb_size_to_len_type : Z -> Z -> Z;
  get_mb_buffer : Z -> Z -> option (Z * Z) }.

(** ** The types of both servers *)

(** A row of [buffCount]. *)
Definition row (i j : Z) (t : list (list Z)) : Z := nth (Z.to_nat j) (nth (Z.to_nat i) t []) 0.

Definition size_to_len_normal (mbSize : Z) : Z :=
  if mbSize <=? SVS_128_BYTE then MB_LEN_128_BYTE
  else if mbSize <=? SVS_256_BYTE then MB_LEN_256_BYTE
  else if mbSize <=? SVS_1K_BYTE then MB_LEN_1K_BYTE
  else if mbSize <=? SVS_4K_BYTE then MB_LEN_4K_BYTE
  else if mbSize <=? SVS_64K_BYTE then MB_LEN_64K_BYTE
  else MB_LEN_MAX_VALUE.

Definition MB_TYPE_ALARM_EVENT : Z := 0.
Definition MB_TYPE_NORMAL_EVENT : Z := 1.
Definition MB_TYPE_CALL_BACK : Z := 2.
Definition MB_TYPE_SEND_MSG : Z := 3.
Definition MB_TYPE_EVENT_MSG : Z := 4.

Definition record_buff_count : list (list Z) :=
  [[25000; 0; 0; 0; 0]; [5000; 20000; 4000; 160; 50]; [40000; 0; 0; 5000; 0]; [20000; 4000; 1000; 0; 50]; [3000; 0; 0; 0; 0]].

Definition record_size_to_len (mbType mbSize : Z) : Z :=
  if mbType =? MB_TYPE_ALARM_EVENT then if mbSize <=? SVS_128_BYTE then MB_LEN_128_BYTE else MB_LEN_MAX_VALUE
  else if mbType =? MB_TYPE_NORMAL_EVENT then size_to_len_normal mbSize
  else if mbType =? MB_TYPE_CALL_BACK then
    if mbSize <=? SVS_128_BYTE then MB_LEN_128_BYTE
    else if mbSize <=? SVS_4K_BYTE then MB_LEN_4K_BYTE else MB_LEN_MAX_VALUE
  else if mbType =? MB_TYPE_SEND_MSG then
    if mbSize <=? SVS_128_BYTE then MB_LEN_128_BYTE
    else if mbSize <=? SVS_256_BYTE then MB_LEN_256_BYTE
    else if mbSize <=? SVS_1K_BYTE then MB_LEN_1K_BYTE
    else if mbSize <=? SVS_64K_BYTE then MB_LEN_64K_BYTE else MB_LEN_MAX_VALUE
  else if mbType =? MB_TYPE_EVENT_MSG then if mbSize <=? SVS_128_BYTE then MB_LEN_128_BYTE else MB_LEN_MAX_VALUE
  else MB_LEN_MAX_VALUE.

Definition get_mb_buffer_normal_event (ty mbSize : Z) : option (Z * Z) :=
  if mbSize <=? SVS_128_BYTE then Some (ty, MB_LEN_128_BYTE)
  else if mbSize <=? SVS_256_BYTE then Some (ty, MB_LEN_256_BYTE)
  else if mbSize <=? SVS_1K_BYTE then Some (ty, MB_LEN_1K_BYTE)
  else if mbSize <=? SVS_64K_BYTE then Some (ty, MB_LEN_64K_BYTE)
  else None.

Definition get_mb_buffer_call_back (mbSize : Z) : option (Z * Z) :=
  if mbSize <=? SVS_128_BYTE then Some (MB_TYPE_CALL_BACK, MB_LEN_128_BYTE)
  else if mbSize <=? SVS_4K_BYTE then Some (MB_TYPE_CALL_BACK, MB_LEN_4K_BYTE)
  else None.

Definition get_mb_buffer_send_msg (mbSize : Z) : option (Z * Z) :=
  if mbSize <=? SVS_128_BYTE then Some (MB_TYPE_SEND_MSG, MB_LEN_128_BYTE)
  else if mbSize <=? SVS_256_BYTE then Some (MB_TYPE_SEND_MSG, MB_LEN_256_BYTE)
  else if mbSize <=? SVS_1K_BYTE then Some (MB_TYPE_SEND_MSG, MB_LEN_1K_BYTE)
  else if mbSize <=? SVS_64K_BYTE then Some (MB_TYPE_SEND_MSG, MB_LEN_64K_BYTE)
  else None.

Definition record_get_mb_buffer (mbType mbSize : Z) : option (Z * Z) :=
  if mbType =? MB_TYPE_ALARM_EVENT then
    if mbSize <=? SVS_128_BYTE then Some (MB_TYPE_ALARM_EVENT, MB_LEN_128_BYTE) else None
  else if mbType =? MB_TYPE_NORMAL_EVENT then get_mb_buffer_normal_event MB_TYPE_NORMAL_EVENT mbSize
  else if mbType =? MB_TYPE_CALL_BACK then get_mb_buffer_call_back mbSize
  else if mbType =? MB_TYPE_SEND_MSG then get_mb_buffer_send_msg mbSize
  else if mbType =? MB_TYPE_EVENT_MSG then
    if mbSize <=? SVS_128_BYTE then Some (MB_TYPE_EVENT_MSG, MB_LEN_128_BYTE) else None
  else None.

(** The recording server with other numbers of blocks. *)
Definition record_types_of (counts : list (list Z)) : BufferTypes := {|
  MB_TYPE_MAX_VALUE := 5; buffCount i j := row i j counts;
  mb_size_to_len_type := record_size_to_len; get_mb_buffer := record_get_mb_buffer |}.
Definition record_types : BufferTypes := record_types_of record_buff_count.

(** The stream server has one type, with the number 0. *)
Definition signal_buff_count : list (list Z) := [[40000; 20000; 10000; 160; 100]].
Definition signal_size_to_len (mbType mbSize : Z) : Z :=
  if mbType =? 0 then size_to_len_normal mbSize else MB_LEN_MAX_VALUE.
Definition signal_get_mb_buffer (mbType mbSize : Z) : option (Z * Z) :=
  if mbType =? 0 then get_mb_buffer_normal_event 0 mbSize else None.
Definition signal_types : BufferTypes := {|
  MB_TYPE_MAX_VALUE := 1; buffCount i j := row i j signal_buff_count;
  mb_size_to_len_type := signal_size_to_len; get_mb_buffer := signal_get_mb_buffer |}.

(** ** Blocks *)

(** [SVS_Mb_Buffer_Info] at the beginning of a block. *)
Definition sizeof_info : Z := 2.

Record block : Type := {
  b_cont : option Z; b_next : option Z; b_rd : Z; b_wr : Z; b_size : Z; info_type : Z; info_length : Z }.
Abbreviation heap := (gmap Z block).

Definition set_cont (p : option Z) (b : block) : block :=
  let '(Build_block _ n r w s t l) := b in Build_block p n r w s t l.
Definition set_next (p : option Z) (b : block) : block :=
  let '(Build_block c _ r w s t l) := b in Build_block c p r w s t l.
Definition set_ptrs (rd wr : Z) (b : block) : block :=
  let '(Build_block c n _ _ s t l) := b in Build_block c n rd wr s t l.
Definition home (b : block) : Z * Z := (info_type b, info_length b).

Abbreviation hop X A := (M (heap * X) unit A).
Definition deref {X} (p : Z) : hop X block := s ← get; lift (s.1 !! p).
Definition update {X} (p : Z) (f : block -> block) : hop X unit :=
  b ← deref p; modify (fun '(h, x) => (<[p := f b]> h, x)).
Definition this {X} : hop X X := s ← get; mret s.2.
Definition on_this {X} (f : X -> X) : hop X unit := modify (fun '(h, x) => (h, f x)).
(** A number of turns a loop over distinct blocks does not reach. *)
Definition heap_fuel {X} : hop X nat := s ← get; mret (S (size s.1)).

(** ** [CSVS_Mb_Buffer] *)

Record CSVS_Mb_Buffer : Type := {
  mb_size_ : Z; free_mb_count_ : Z; max_free_mb_count_ : Z; mb_type_ : Z; mb_len_ : Z; inited_flag_ : bool;
  free_mb_list_ : option Z }.
Definition CSVS_Mb_Buffer_new : CSVS_Mb_Buffer := Build_CSVS_Mb_Buffer 0 0 0 0 0 false None.
Definition set_list (p : option Z) (t : CSVS_Mb_Buffer) : CSVS_Mb_Buffer :=
  let '(Build_CSVS_Mb_Buffer s c m y l i _) := t in Build_CSVS_Mb_Buffer s c m y l i p.
Definition set_count (n : Z) (t : CSVS_Mb_Buffer) : CSVS_Mb_Buffer :=
  let '(Build_CSVS_Mb_Buffer s _ m y l i p) := t in Build_CSVS_Mb_Buffer s n m y l i p.
Definition set_inited (f : bool) (t : CSVS_Mb_Buffer) : CSVS_Mb_Buffer :=
  let '(Build_CSVS_Mb_Buffer s c m y l _ p) := t in Build_CSVS_Mb_Buffer s c m y l f p.

Abbreviation bop A := (hop CSVS_Mb_Buffer A).

Fixpoint delete_loop (fuel : nat) : bop unit :=
  t ← this;
  match free_mb_list_ t with
  | None => mret tt
  | Some p =>
    match fuel with
    | O => fault
    | S fuel =>
      b ← deref p;
      _ ← on_this (set_list (b_next b));
      _ ← modify (fun '(h, t) => (delete p h, t));
      delete_loop fuel
    end
  end.

Definition buffer_clear : bop Z :=
  fuel ← heap_fuel;
  _ ← delete_loop fuel;
  _ ← on_this (fun _ => CSVS_Mb_Buffer_new);
  mret 0.

(** Whether all [n] blocks are there, and the answers of [new] that are left. *)
Fixpoint new_loop (n : nat) (news : list (option Z)) : bop (bool * list (option Z)) :=
  match n, news with
  | O, _ => mret (true, news)
  | S n, Some mb :: news =>
    t ← this;
    _ ← modify (fun '(h, t) => (<[mb := {| b_cont := None; b_next := free_mb_list_ t; b_rd := sizeof_info; b_wr := sizeof_info;
                                       b_size := mb_size_ t; info_type := mb_type_ t; info_length := mb_len_ t |}]> h, t));
    _ ← on_this (set_list (Some mb));
    new_loop n news
  | S _, _ => mret (false, tl news)
  end.

Definition buffer_init (mbCount mbSize mbType mbLen : Z) (news : list (option Z)) : bop (Z * list (option Z)) :=
  t ← this;
  if inited_flag_ t then mret (-1, news)
  else
    _ ← on_this (fun t => Build_CSVS_Mb_Buffer mbSize mbCount mbCount mbType mbLen (inited_flag_ t) (free_mb_list_ t));
    '(all, news) ← new_loop (Z.to_nat mbCount) news;
    if negb all then _ ← buffer_clear; mret (-1, news)
    else _ ← on_this (set_inited true); mret (0, news).

(** The first free block, taken out of the list. *)
Definition take_block : bop (option Z) :=
  t ← this;
  match free_mb_list_ t with
  | None => mret None
  | Some mb =>
    b ← deref mb;
    _ ← on_this (set_list (b_next b));
    _ ← update mb (set_next None);
    _ ← on_this (fun t => set_count (u32 (free_mb_count_ t - 1)) t);
    mret (Some mb)
  end.

(** [alloc_mb] without a number. *)
Definition alloc_one : bop (option Z) :=
  t ← this; if negb (inited_flag_ t) then mret None else take_block.

Fixpoint alloc_loop (n : nat) (mbCont : Z) : bop unit :=
  match n with
  | O => mret tt
  | S n =>
    r ← take_block;
    match r with
    | None => mret tt
    | Some mbTemp =>
      _ ← update mbTemp (set_cont None);
      _ ← update mbCont (set_cont (Some mbTemp));
      alloc_loop n mbTemp
    end
  end.

Definition buffer_alloc (allocCount : Z) : bop (option Z) :=
  t ← this;
  if negb (inited_flag_ t) || (allocCount =? 0) then mret None
  else
    r ← take_block;
    match r with
    | None => mret None
    | Some mbFirst => _ ← alloc_loop (Z.to_nat (allocCount - 1)) mbFirst; mret (Some mbFirst)
    end.

Definition put_block (mbFree : Z) : bop unit :=
  _ ← update mbFree (set_cont None);
  _ ← update mbFree (set_next None);
  b ← deref mbFree;
  t ← this;
  if negb (b_size b =? mb_size_ t) then mret tt
  else
    _ ← update mbFree (set_ptrs sizeof_info sizeof_info);
    _ ← update mbFree (set_next (free_mb_list_ t));
    _ ← on_this (set_list (Some mbFree));
    on_this (fun t => set_count (u32 (free_mb_count_ t + 1)) t).

Fixpoint free_loop (fuel : nat) (mbFree : Z) (mbCont : option Z) : bop unit :=
  match fuel with
  | O => fault
  | S fuel =>
    _ ← put_block mbFree;
    match mbCont with
    | None => mret tt
    | Some q => b ← deref q; free_loop fuel q (b_cont b)
    end
  end.

Definition buffer_free (mb : option Z) : bop Z :=
  match mb with
  | None => mret (-1)
  | Some mb => b ← deref mb; fuel ← heap_fuel; _ ← free_loop fuel mb (b_cont b); mret 0
  end.

(** ** [CSVS_Mb_Buffer_Manager] *)

(** A null pointer of [mb_buff_] is not in the map. *)
Record CSVS_Mb_Buffer_Manager : Type := { mb_buff_ : gmap (Z * Z) CSVS_Mb_Buffer; m_inited : bool }.
Abbreviation mgop A := (hop CSVS_Mb_Buffer_Manager A).
Definition on_buffers (f : gmap (Z * Z) CSVS_Mb_Buffer -> gmap (Z * Z) CSVS_Mb_Buffer) (t : CSVS_Mb_Buffer_Manager) :
    CSVS_Mb_Buffer_Manager := {| mb_buff_ := f (mb_buff_ t); m_inited := m_inited t |}.
Definition at_buffer {A} (k : Z * Z) (m : bop A) : mgop A := fun '(h, t) =>
  b ← mb_buff_ t !! k; '(a, (h, b), o) ← m (h, b); Some (a, (h, on_buffers (<[k := b]>) t), o).

(** The lists of a thread. *)
Record CSVS_Thread_Msg_Buffer_Manager : Type := {
  free_msg_buffer_ : gmap (Z * Z) Z; used_msg_buffer_ : option Z; used_msg_buffer_count_ : Z;
  alloced_msg_buffer_count_ : gmap (Z * Z) Z }.
(** After [reset]. *)
Definition CSVS_Thread_Msg_Buffer_Manager_new : CSVS_Thread_Msg_Buffer_Manager :=
  {| free_msg_buffer_ := ∅; used_msg_buffer_ := None; used_msg_buffer_count_ := 0; alloced_msg_buffer_count_ := ∅ |}.
Definition alloced_msg_buffer_count (k : Z * Z) (t : CSVS_Thread_Msg_Buffer_Manager) : Z :=
  default 0 (alloced_msg_buffer_count_ t !! k).
Definition set_free (f : gmap (Z * Z) Z -> gmap (Z * Z) Z) (t : CSVS_Thread_Msg_Buffer_Manager) : CSVS_Thread_Msg_Buffer_Manager :=
  let '(Build_CSVS_Thread_Msg_Buffer_Manager m u n a) := t in Build_CSVS_Thread_Msg_Buffer_Manager (f m) u n a.
Definition set_used (p : option Z) (n : Z) (t : CSVS_Thread_Msg_Buffer_Manager) : CSVS_Thread_Msg_Buffer_Manager :=
  let '(Build_CSVS_Thread_Msg_Buffer_Manager m _ _ a) := t in Build_CSVS_Thread_Msg_Buffer_Manager m p n a.
Definition set_alloced (k : Z * Z) (f : Z -> Z) (t : CSVS_Thread_Msg_Buffer_Manager) : CSVS_Thread_Msg_Buffer_Manager :=
  {| free_msg_buffer_ := free_msg_buffer_ t; used_msg_buffer_ := used_msg_buffer_ t;
     used_msg_buffer_count_ := used_msg_buffer_count_ t;
     alloced_msg_buffer_count_ := <[k := f (alloced_msg_buffer_count k t)]> (alloced_msg_buffer_count_ t) |}.
Abbreviation thop A := (hop (CSVS_Mb_Buffer_Manager * CSVS_Thread_Msg_Buffer_Manager) A).

Section Types.
Context `{!BufferTypes}.

(** The indexes of [mb_buff_], row by row. *)
Definition lens : list Z := seqZ 0 MB_LEN_MAX_VALUE.
Definition types : list Z := seqZ 0 MB_TYPE_MAX_VALUE.
Definition table : list (Z * Z) := concat ((fun i => (fun j => (i, j)) <$> lens) <$> types).

Fixpoint for_all {S A} (f : A -> M S unit unit) (l : list A) : M S unit unit :=
  match l with [] => mret tt | k :: l => _ ← f k; for_all f l end.

Definition manager_clear : mgop Z :=
  _ ← for_all (fun k =>
        t ← this;
        match mb_buff_ t !! k with
        | None => mret tt
        | Some _ => _ ← at_buffer k buffer_clear; on_this (on_buffers (delete k))
        end) table;
  _ ← on_this (fun t => {| mb_buff_ := mb_buff_ t; m_inited := false |});
  mret 0.

(** A row: whether it failed, and the answers that are left. [new_buffer]: whether
    there is a [CSVS_Mb_Buffer]. *)
Fixpoint init_row (i : Z) (js : list Z) (new_buffer : Z -> Z -> bool) (news : list (option Z)) : mgop (bool * list (option Z)) :=
  match js with
  | [] => mret (false, news)
  | j :: js =>
    if buffCount i j =? 0 then _ ← on_this (on_buffers (delete (i, j))); init_row i js new_buffer news
    else if negb (new_buffer i j) then mret (true, news)
    else
      _ ← on_this (on_buffers (<[(i, j) := CSVS_Mb_Buffer_new]>));
      '(r, news) ← at_buffer (i, j) (buffer_init (buffCount i j) (buffSize j + sizeof_info) i j news);
      if negb (r =? 0) then mret (true, news) else init_row i js new_buffer news
  end.

Fixpoint init_rows (l : list Z) (new_buffer : Z -> Z -> bool) (news : list (option Z)) : mgop bool :=
  match l with
  | [] => mret false
  | i :: l =>
    '(failed, news) ← init_row i lens new_buffer news;
    later ← init_rows l new_buffer news;
    mret (failed || later)
  end.

Definition manager_init (new_buffer : Z -> Z -> bool) (news : list (option Z)) : mgop Z :=
  t ← this;
  if m_inited t then mret (-1)
  else
    initFailureFlag ← init_rows types new_buffer news;
    if initFailureFlag : bool then _ ← manager_clear; mret (-1)
    else _ ← on_this (fun t => {| mb_buff_ := mb_buff_ t; m_inited := true |}); mret 0.

Definition manager_alloc (mbType mbSize mbCount : Z) : mgop (option Z) :=
  match get_mb_buffer mbType mbSize with
  | None => mret None
  | Some k => t ← this; match mb_buff_ t !! k with None => mret None | Some _ => at_buffer k (buffer_alloc mbCount) end
  end.

(** The chain, cut into one for each buffer; an index outside the table is a fault. *)
Fixpoint split_loop (fuel : nat) (mbTemp : option Z) (mbFreeBuff : gmap (Z * Z) Z) : mgop (gmap (Z * Z) Z) :=
  match mbTemp with
  | None => mret mbFreeBuff
  | Some mbFree =>
    match fuel with
    | O => fault
    | S fuel =>
      b ← deref mbFree;
      if bool_decide (home b ∉ table) then fault
      else
        _ ← update mbFree (set_cont (mbFreeBuff !! home b));
        split_loop fuel (b_cont b) (<[home b := mbFree]> mbFreeBuff)
    end
  end.

Definition manager_free (mb : option Z) : mgop Z :=
  match mb with
  | None => mret (-1)
  | Some _ =>
    fuel ← heap_fuel;
    mbFreeBuff ← split_loop fuel mb ∅;
    _ ← for_all (fun k =>
          match mbFreeBuff !! k with
          | None => mret tt
          | Some p => _ ← at_buffer k (buffer_free (Some p)); mret tt
          end) table;
    mret 0
  end.

(** ** [CSVS_Thread_Msg_Buffer_Manager] *)

Definition mine : thop CSVS_Thread_Msg_Buffer_Manager := t ← this; mret t.2.
Definition on_mine (f : CSVS_Thread_Msg_Buffer_Manager -> CSVS_Thread_Msg_Buffer_Manager) : thop unit :=
  on_this (fun '(m, t) => (m, f t)).
Definition at_manager {A} (m : mgop A) : thop A := fun '(h, (g, t)) =>
  '(a, (h, g), o) ← m (h, g); Some (a, (h, (g, t)), o).

(** A pointer of an array: null is not in the map. *)
Definition put_ptr (k : Z * Z) (p : option Z) (m : gmap (Z * Z) Z) : gmap (Z * Z) Z := partial_alter (fun _ => p) k m.

Definition alloc_mb (mbType mbSize : Z) : thop (option Z) :=
  let mbLen := mb_size_to_len_type mbType mbSize in
  let k := (mbType, mbLen) in
  if mbLen =? MB_LEN_MAX_VALUE then mret None
  else
    t ← mine;
    _ ← match free_msg_buffer_ t !! k with
        | Some _ => mret tt
        | None => p ← at_manager (manager_alloc mbType mbSize SVS_ALLOC_MSG_BUFF_COUNT); on_mine (set_free (put_ptr k p))
        end;
    t ← mine;
    match free_msg_buffer_ t !! k with
    | None => mret None
    | Some mb =>
      b ← deref mb;
      _ ← on_mine (set_free (put_ptr k (b_cont b)));
      _ ← update mb (set_cont None);
      _ ← on_mine (set_alloced k (fun n => s32 (n + 1)));
      mret (Some mb)
    end.

Definition free_mb (mb : option Z) : thop unit :=
  match mb with
  | None => mret tt
  | Some mb =>
    t ← mine;
    _ ← match used_msg_buffer_ t with None => mret tt | Some u => update mb (set_cont (Some u)) end;
    _ ← on_mine (fun t => set_used (Some mb) (u32 (used_msg_buffer_count_ t + 1)) t);
    b ← deref mb;
    if bool_decide (home b ∉ table) then fault
    else
      _ ← on_mine (set_alloced (home b) (fun n => s32 (n - 1)));
      t ← mine;
      if (SVS_FREE_MSG_BUFF_COUNT <=? used_msg_buffer_count_ t) || (MB_LEN_4K_BYTE <=? info_length b) then
        _ ← at_manager (manager_free (used_msg_buffer_ t));
        on_mine (set_used None 0)
      else mret tt
  end.

Definition thread_clear : thop unit :=
  _ ← for_all (fun k =>
        t ← mine;
        _ ← match free_msg_buffer_ t !! k with
            | None => mret tt
            | Some p => _ ← at_manager (manager_free (Some p)); on_mine (set_free (delete k))
            end;
        on_mine (set_alloced k (fun _ => 0))) table;
  t ← mine;
  match used_msg_buffer_ t with
  | None => mret tt
  | Some p => _ ← at_manager (manager_free (Some p)); on_mine (set_used None 0)
  end.
End Types.

(** ** Lists in the heap *)

(** The list of blocks from a pointer on. *)
Fixpoint chain (link : block -> option Z) (h : heap) (p : option Z) (l : list Z) : Prop :=
  match l with
  | [] => p = None
  | x :: l => p = Some x /\ exists b, h !! x = Some b /\ chain link h (link b) l
  end.

Lemma elem_of_reverse_rev (x : Z) l : x ∈ rev l <-> x ∈ l.
Proof. rewrite !list_elem_of_In. symmetry. apply in_rev. Qed.
Lemma elem_of_list_concat {A} (f : A -> list Z) l x : x ∈ concat (f <$> l) <-> exists k, k ∈ l /\ x ∈ f k.
Proof. induction l as [|k l IH]; cbn; set_solver. Qed.

(** What is written at the beginning of the blocks, and their sizes, stay. *)
Definition homes (h : heap) : gmap Z (Z * Z * Z) := (fun b => (home b, b_size b)) <$> h.

Definition same_but (l : list Z) (h h' : heap) : Prop := forall x, x ∉ l -> h' !! x = h !! x.

Lemma chain_ext link h h' p l : (forall x, x ∈ l -> h' !! x = h !! x) -> chain link h p l -> chain link h' p l.
Proof.
  revert p. induction l as [|x l IH]; intros p He; [done|]. cbn. intros (-> & b & Hb & Hc). split; [done|].
  exists b. rewrite He by (apply elem_of_cons; by left). split; [done|]. apply IH; [|done]. intros y Hy. apply He. apply elem_of_cons. by right.
Qed.

Lemma chain_in link h p l x : chain link h p l -> x ∈ l -> exists b, h !! x = Some b.
Proof.
  revert p. induction l as [|y l IH]; intros p; [intros _ Hx; by apply elem_of_nil in Hx|]. cbn. intros (-> & b & Hb & Hc).
  intros [->|Hx]%elem_of_cons; eauto.
Qed.

Lemma chain_nil link h l : chain link h None l -> l = [].
Proof. destruct l; [done|]. by intros [? _]. Qed.

Lemma same_but_refl l h : same_but l h h.
Proof. done. Qed.
Lemma same_but_trans l h1 h2 h3 : same_but l h1 h2 -> same_but l h2 h3 -> same_but l h1 h3.
Proof. intros H1 H2 x Hx. by rewrite H2, H1. Qed.
Lemma same_but_mono l k h h' : same_but l h h' -> l ⊆ k -> same_but k h h'.
Proof. intros H Hl x Hx. apply H. intros Hin. by apply Hx, Hl. Qed.
Lemma same_but_insert x b h l : x ∈ l -> same_but l h (<[x := b]> h).
Proof. intros Hx y Hy. apply lookup_insert_ne. by intros ->. Qed.

Lemma chain_same link l h h' p k : same_but l h h' -> (forall x, x ∈ k -> x ∉ l) -> chain link h p k -> chain link h' p k.
Proof. intros Hs Hd. apply chain_ext. intros x Hx. by apply Hs, Hd. Qed.

Lemma homes_insert x b b' h : h !! x = Some b -> home b' = home b -> b_size b' = b_size b -> homes (<[x := b']> h) = homes h.
Proof.
  intros Hx Hh Hs. unfold homes. rewrite fmap_insert, Hh, Hs. apply insert_id. by rewrite lookup_fmap, Hx.
Qed.

Lemma homes_lookup h h' x b : homes h' = homes h -> h !! x = Some b ->
  exists b', h' !! x = Some b' /\ home b' = home b /\ b_size b' = b_size b.
Proof.
  intros He Hx. assert (homes h' !! x = Some (home b, b_size b)) as H by (rewrite He; unfold homes; by rewrite lookup_fmap, Hx).
  unfold homes in H. rewrite lookup_fmap in H. destruct (h' !! x) as [b'|]; [|done]. injection H as H1 H2 H3.
  exists b'. split_and!; [done| |done]. unfold home. congruence.
Qed.

(** A chain of distinct blocks has fewer of them than there is fuel. *)
Lemma chain_size link h p l : chain link h p l -> NoDup l -> (length l <= size h)%nat.
Proof.
  intros Hc Hn. rewrite <-(size_list_to_set (C := gset Z)) by done. rewrite <-size_dom. apply subseteq_size.
  intros x Hx. apply elem_of_list_to_set in Hx. apply elem_of_dom. destruct (chain_in _ _ _ _ _ Hc Hx) as [b Hb]. by exists b.
Qed.

(** *** Steps on blocks *)

Section Heap.
Context {X : Type}.
Implicit Types (x : X) (h : heap) (P : unit -> heap * X -> list unit -> Prop).

Lemma wp_heap_deref h x p b (P : block -> heap * X -> list unit -> Prop) : h !! p = Some b -> P b (h, x) [] -> wp (deref p) P (h, x).
Proof. intros Hb HP. unfold deref. wp_step. wp_step. eapply wp_lift; [exact Hb|done]. Qed.
Lemma wp_heap_update h x p f b P : h !! p = Some b -> P tt (<[p := f b]> h, x) [] -> wp (update p f) P (h, x).
Proof. intros Hb HP. unfold update. wp_step. eapply wp_heap_deref; [exact Hb|]. by wp_step. Qed.
Lemma wp_heap_this h x (P : X -> heap * X -> list unit -> Prop) : P x (h, x) [] -> wp this P (h, x).
Proof. intros HP. unfold this. by repeat wp_step. Qed.
Lemma wp_heap_on_this h x f P : P tt (h, f x) [] -> wp (on_this f) P (h, x).
Proof. intros HP. unfold on_this. by wp_step. Qed.
Lemma wp_fuel h x (P : nat -> heap * X -> list unit -> Prop) : P (S (size h)) (h, x) [] -> wp heap_fuel P (h, x).
Proof. intros HP. unfold heap_fuel. by repeat wp_step. Qed.
End Heap.
#[export] Hint Rewrite (@lookup_insert_eq Z) : heap.

(** [hp]: the next step of a computation over a heap, where its block is known. *)
Ltac hp_step :=
  lazymatch goal with
  | |- wp (_ ≫= _) _ _ => apply wp_bind
  | |- wp (mret _) _ _ => apply wp_ret
  | |- wp this _ _ => apply wp_heap_this
  | |- wp (on_this _) _ _ => apply wp_heap_on_this
  | |- wp heap_fuel _ _ => apply wp_fuel
  | |- wp (modify _) _ _ => apply wp_modify
  | |- wp (deref _) _ _ => eapply wp_heap_deref; [first [eassumption|apply lookup_insert_eq]|]
  | |- wp (update _ _) _ _ => eapply wp_heap_update; [first [eassumption|apply lookup_insert_eq]|]
  end; cbv beta iota; cbn [app].
Ltac hp := repeat hp_step; rewrite ?insert_insert_eq.

(** *** A buffer *)

(** The free blocks of a buffer are [l]. *)
Record buffer_mem (h : heap) (t : CSVS_Mb_Buffer) (l : list Z) : Prop := {
  mem_chain : chain b_next h (free_mb_list_ t) l;
  mem_count : free_mb_count_ t = u32 (zlen l) }.

Lemma count_pred x (l : list Z) : u32 (u32 (zlen (x :: l)) - 1) = u32 (zlen l).
Proof.
  unfold u32, wrap. rewrite Zminus_mod_idemp_l. f_equal. unfold zlen. cbn [length]. lia.
Qed.
Lemma count_succ x (l : list Z) : u32 (u32 (zlen l) + 1) = u32 (zlen (x :: l)).
Proof. unfold u32. rewrite wrap_add_l. f_equal. unfold zlen. cbn [length]. lia. Qed.

Lemma take_spec h t x l : buffer_mem h t (x :: l) -> x ∉ l -> exists b t', h !! x = Some b /\
  buffer_mem (<[x := set_next None b]> h) t' l /\ inited_flag_ t' = inited_flag_ t /\ mb_size_ t' = mb_size_ t /\
  take_block (h, t) = Some (Some x, (<[x := set_next None b]> h, t'), []).
Proof.
  intros [(Hp & b & Hb & Hc) Hn] Hx. destruct t as [s c m y ln i p]. cbn in Hp, Hn. subst p c.
  eexists b, _. split; [done|]. split; [|split; [|split]].
  4:{ unfold take_block. cbn. cbv [this deref update on_this mbind M_bind get mret M_ret option_bind lift modify]. cbn.
      rewrite Hb. cbn. rewrite Hb. cbn. reflexivity. }
  - split; cbn; [|by rewrite count_pred]. eapply chain_same; [apply (same_but_insert x _ _ [x]); set_solver|set_solver|done].
  - done.
  - done.
Qed.

Lemma take_empty h t : buffer_mem h t [] -> take_block (h, t) = Some (None, (h, t), []).
Proof. intros [Hp _]. destruct t; cbn in Hp; subst. reflexivity. Qed.

(** All blocks of a list are there and have a property. *)
Definition each (h : heap) (Q : block -> Prop) (l : list Z) : Prop := Forall (fun x => exists b, h !! x = Some b /\ Q b) l.
(** The pointers are behind the information. *)
Definition idle (b : block) : Prop := b_rd b = sizeof_info /\ b_wr b = sizeof_info.
Definition free_ok (b : block) : Prop := b_cont b = None /\ idle b.
Definition out_ok (b : block) : Prop := b_next b = None /\ idle b.

Lemma each_same l h h' Q k : same_but l h h' -> (forall x, x ∈ k -> x ∉ l) -> each h Q k -> each h' Q k.
Proof.
  intros Hs Hd. unfold each. rewrite !Forall_forall. intros Hk x Hx. destruct (Hk x Hx) as (b & Hb & HQ).
  exists b. split; [|done]. rewrite Hs; [done|auto].
Qed.
Lemma each_mono (Q R : block -> Prop) h l : (forall b, Q b -> R b) -> each h Q l -> each h R l.
Proof. intros H Hl. eapply Forall_impl; [exact Hl|]. intros x (b & ? & ?). exists b. auto. Qed.
Lemma each_in h Q l x : each h Q l -> x ∈ l -> exists b, h !! x = Some b /\ Q b.
Proof. unfold each. rewrite Forall_forall. auto. Qed.

(** What stays of a buffer. *)
Definition same_buffer (t t' : CSVS_Mb_Buffer) : Prop := inited_flag_ t' = inited_flag_ t /\ mb_size_ t' = mb_size_ t.

Lemma take_wp h t x l : buffer_mem h t (x :: l) -> x ∉ l -> wp take_block (fun r '(h', t') _ => r = Some x /\
  exists b, h !! x = Some b /\ h' = <[x := set_next None b]> h /\ buffer_mem h' t' l /\ same_buffer t t') (h, t).
Proof.
  intros Hm Hx. destruct (take_spec h t x l Hm Hx) as (b & t' & Hb & Hm' & Hi & Hs & E).
  eapply wp_intro; [exact E|]. split; [done|]. by exists b.
Qed.

Lemma alloc_loop_spec n c bc h t l : buffer_mem h t l -> NoDup (c :: l) -> h !! c = Some bc -> b_cont bc = None -> out_ok bc ->
  each h idle l ->
  wp (alloc_loop n c) (fun _ '(h', t') _ => buffer_mem h' t' (drop n l) /\ chain b_cont h' (Some c) (c :: take n l) /\
    same_but (c :: take n l) h h' /\ homes h' = homes h /\ each h' out_ok (c :: take n l) /\ same_buffer t t') (h, t).
Proof.
  revert c bc h t l. induction n as [|n IH]; intros c bc h t l Hm Hd Hc Hcc Hco Hl.
  { hp. rewrite take_0, drop_0. split_and!; try done; [|by apply Forall_cons; split; [exists bc|]].
    cbn. split; [done|]. exists bc. by rewrite Hcc. }
  cbn [alloc_loop]. destruct l as [|x l].
  { hp_step. eapply wp_intro; [by apply take_empty|]. hp. split_and!; try done; [|by apply Forall_cons; split; [exists bc|]].
    cbn. split; [done|]. exists bc. by rewrite Hcc. }
  apply NoDup_cons in Hd as [Hcx Hd]. apply NoDup_cons in Hd as [Hxl Hd]. apply not_elem_of_cons in Hcx as [Hne Hcl].
  apply Forall_cons in Hl as [(bx & Hbx & Hix) Hl].
  hp_step. eapply wp_mono; [by eapply take_wp|]. intros r [h1 t1] o (-> & b & Hb & -> & Hm1 & Hs1).
  rewrite Hb in Hbx. injection Hbx as <-. hp_step. hp_step. rewrite insert_insert_eq.
  set (b' := set_cont None (set_next None b)). hp_step. eapply wp_heap_update; [by rewrite lookup_insert_ne|]. cbn [app].
  set (h2 := <[c := _]> _).
  assert (Hs2 : same_but [c; x] h h2) by (intros z Hz; unfold h2; rewrite !lookup_insert_ne; [done|set_solver..]).
  assert (Hm2 : buffer_mem h2 t1 l).
  { destruct Hm1 as [Hch Hn]. split; [|done]. apply (chain_same _ [c; x] (<[x := set_next None b]> h)); [|set_solver|done].
    intros z Hz. unfold h2. by rewrite !lookup_insert_ne by set_solver. }
  assert (Hx2 : h2 !! x = Some b') by (unfold h2; rewrite lookup_insert_ne by done; apply lookup_insert_eq).
  assert (Hc2 : h2 !! c = Some (set_cont (Some x) bc)) by apply lookup_insert_eq.
  assert (Hh2 : homes h2 = homes h).
  { unfold h2. rewrite (homes_insert _ bc); [|by rewrite lookup_insert_ne|by destruct bc..].
    by rewrite (homes_insert _ b) by (done || by destruct b). }
  eapply wp_mono; [eapply (IH x b' h2 t1 l Hm2)|].
  - by apply NoDup_cons.
  - exact Hx2.
  - by destruct b.
  - destruct b. by split.
  - eapply each_same; [exact Hs2|set_solver|done].
  - intros [] [h3 t3] o1 (Hm3 & Hch & Hs3 & Hh3 & Ho3 & Hb3). cbn [drop take].
    assert (Hc3 : h3 !! c = Some (set_cont (Some x) bc)).
    { rewrite Hs3; [done|]. intros [->|Hin]%elem_of_cons; [done|]. by apply Hcl, (subseteq_take n l). }
    split_and!; [done| | |congruence| |].
    + split; [done|]. eexists. split; [exact Hc3|]. by destruct bc.
    + intros z Hz. rewrite Hs3, Hs2; [done|set_solver..].
    + apply Forall_cons. split; [|done]. eexists. split; [exact Hc3|]. destruct bc. by destruct Hco.
    + unfold same_buffer in *. destruct Hs1, Hb3. split; congruence.
Qed.

(** [buffer_alloc] gives as many blocks as there are. *)
Lemma buffer_alloc_spec n h t l : 0 < n -> inited_flag_ t = true -> buffer_mem h t l -> NoDup l -> each h free_ok l ->
  wp (buffer_alloc n) (fun r '(h', t') _ => let k := take (Z.to_nat n) l in
    r = head l /\ buffer_mem h' t' (drop (Z.to_nat n) l) /\ chain b_cont h' r k /\
    same_but k h h' /\ homes h' = homes h /\ each h' out_ok k /\ same_buffer t t') (h, t).
Proof.
  intros Hn Hi Hm Hd Hl. unfold buffer_alloc. hp_step. hp_step. rewrite Hi. replace (n =? 0) with false by lia. cbn [negb orb].
  hp_step. destruct l as [|x l].
  { eapply wp_intro; [by apply take_empty|]. hp. rewrite take_nil, drop_nil. cbn zeta. split_and!; try done. by apply Forall_nil. }
  apply NoDup_cons in Hd as [Hx Hd]. apply Forall_cons in Hl as [(bx & Hbx & Hcx & Hix) Hl].
  eapply wp_mono; [by eapply take_wp|]. intros r [h1 t1] o (-> & b & Hb & -> & Hm1 & Hs1).
  rewrite Hb in Hbx. injection Hbx as <-. hp_step.
  replace (Z.to_nat n) with (S (Z.to_nat (n - 1))) by lia. cbn [take drop].
  assert (Hs0 : same_but [x] h (<[x := set_next None b]> h)) by (apply same_but_insert; set_solver).
  eapply wp_mono; [eapply (alloc_loop_spec _ x (set_next None b) _ t1 l Hm1)|].
  - by apply NoDup_cons.
  - apply lookup_insert_eq.
  - by destruct b.
  - destruct b. by split.
  - eapply each_same; [exact Hs0|set_solver|]. eapply each_mono; [|exact Hl]. by intros ? [].
  - intros [] [h3 t3] o1 (Hm3 & Hch & Hs3 & Hh3 & Ho3 & Hb3). hp. split_and!; try done.
    + intros z Hz. rewrite Hs3, Hs0; [done|set_solver..].
    + rewrite Hh3. by apply (homes_insert _ b); [|destruct b..].
    + unfold same_buffer in *. destruct Hs1, Hb3. split; congruence.
Qed.

(** A block that is given back is the first of the list. *)
Lemma put_block_spec h t x b l : buffer_mem h t l -> x ∉ l -> h !! x = Some b -> b_size b = mb_size_ t ->
  wp (put_block x) (fun _ '(h', t') _ => buffer_mem h' t' (x :: l) /\ same_but [x] h h' /\ homes h' = homes h /\
    each h' free_ok [x] /\ same_buffer t t') (h, t).
Proof.
  intros [Hc Hn] Hx Hb Hs. unfold put_block. do 7 hp_step. rewrite insert_insert_eq. hp_step.
  replace (b_size (set_next None (set_cont None b)) =? mb_size_ t) with true by (destruct b; cbn in *; lia). cbn [negb]. hp.
  destruct t as [s c m y ln i p], b as [bc bn br bw bs bt bl]. cbn in *. subst c. split_and!.
  - split; [|cbn; by rewrite (count_succ x)]. cbn [chain free_mb_list_ set_list set_count]. split; [done|]. eexists.
    split; [apply lookup_insert_eq|]. cbn [b_next set_next].
    eapply chain_same; [apply (same_but_insert x _ _ [x]); set_solver|set_solver|done].
  - apply same_but_insert. set_solver.
  - by apply (homes_insert _ _ _ _ Hb).
  - apply Forall_singleton. eexists. split; [apply lookup_insert_eq|]. by split.
  - by split.
Qed.

Lemma free_loop_spec fuel h t x b k l : buffer_mem h t l -> NoDup (x :: k) -> (forall y, y ∈ x :: k -> y ∉ l) ->
  h !! x = Some b -> chain b_cont h (b_cont b) k -> each h (fun b => b_size b = mb_size_ t) (x :: k) -> (length k < fuel)%nat ->
  wp (free_loop fuel x (b_cont b)) (fun _ '(h', t') _ => buffer_mem h' t' (rev (x :: k) ++ l) /\ same_but (x :: k) h h' /\
    homes h' = homes h /\ each h' free_ok (x :: k) /\ same_buffer t t') (h, t).
Proof.
  revert fuel h t x b l. induction k as [|y k IH]; intros [|fuel] h t x b l Hm Hd Hxl Hb Hc Hs Hf; cbn [length] in Hf; try lia; cbn [free_loop].
  all: apply Forall_cons in Hs as [(b0 & Hb0 & Hsx) Hs]; rewrite Hb in Hb0; injection Hb0 as <-.
  all: hp_step; eapply wp_mono; [eapply (put_block_spec h t x b l); [done|apply Hxl; set_solver|done|done]|].
  all: intros [] [h1 t1] o (Hm1 & Hs1 & Hh1 & Hf1 & Hb1).
  - cbn in Hc. rewrite Hc. hp. by split_and!.
  - destruct Hc as (Ec & by' & Hy & Hc). rewrite Ec. apply NoDup_cons in Hd as [Hx Hd].
    assert (Hy1 : h1 !! y = Some by') by (rewrite Hs1; [done|set_solver]).
    hp_step. eapply wp_heap_deref; [exact Hy1|]. cbn [app].
    eapply wp_mono; [eapply (IH fuel h1 t1 y by' (x :: l) Hm1 Hd)|].
    + set_solver.
    + done.
    + eapply chain_same; [exact Hs1|set_solver|done].
    + destruct Hb1 as [_ ->]. eapply each_same; [exact Hs1|set_solver|done].
    + lia.
    + intros [] [h2 t2] o1 (Hm2 & Hs2 & Hh2 & Hf2 & Hb2). split_and!.
      * cbn [rev] in *. rewrite <-!app_assoc in *. exact Hm2.
      * intros z Hz. rewrite Hs2, Hs1; [done|set_solver..].
      * congruence.
      * apply Forall_cons. split; [|done]. apply (each_same (y :: k) h1 h2 _ [x] Hs2) in Hf1; [by apply Forall_cons in Hf1 as [? _]|set_solver].
      * unfold same_buffer in *. destruct Hb1, Hb2. split; congruence.
Qed.

Lemma buffer_free_spec h t p k l : buffer_mem h t l -> NoDup k -> k <> [] -> (forall y, y ∈ k -> y ∉ l) ->
  chain b_cont h p k -> each h (fun b => b_size b = mb_size_ t) k ->
  wp (buffer_free p) (fun r '(h', t') _ => r = 0 /\ buffer_mem h' t' (rev k ++ l) /\ same_but k h h' /\ homes h' = homes h /\
    each h' free_ok k /\ same_buffer t t') (h, t).
Proof.
  intros Hm Hd Hne Hdis Hc Hs. pose proof (chain_size _ _ _ _ Hc Hd) as Hz. destruct k as [|x k]; [done|].
  destruct Hc as (-> & b & Hb & Hc). cbn [buffer_free]. hp_step. hp_step. hp_step. hp_step. hp_step.
  eapply wp_mono; [eapply (free_loop_spec _ h t x b k l); try done; cbn [length] in Hz; lia|].
  intros [] [h1 t1] o H. hp. by split.
Qed.

(** *** The manager *)

Lemma wp_at_buffer {A} k (m : bop A) h g t (P : A -> heap * CSVS_Mb_Buffer_Manager -> list unit -> Prop) :
  mb_buff_ g !! k = Some t -> wp m (fun a '(h', t') o => P a (h', on_buffers (<[k := t']>) g) o) (h, t) ->
  wp (at_buffer k m) P (h, g).
Proof.
  intros Hk Hm. apply wp_elim in Hm as (a & [h' t'] & o & E & HP). eapply wp_intro; [|exact HP].
  unfold at_buffer. rewrite Hk. cbn [mbind option_bind]. by rewrite E.
Qed.

Definition home_of (H : gmap Z (Z * Z * Z)) (x : Z) : Z * Z := default (-1, -1) (fst <$> H !! x).
Lemma home_of_lookup h x b : h !! x = Some b -> home_of (homes h) x = home b.
Proof. intros Hx. unfold home_of, homes. by rewrite lookup_fmap, Hx. Qed.

(** The blocks of a list that belong to a buffer. *)
Definition at_home (H : gmap Z (Z * Z * Z)) (k : Z * Z) (l : list Z) : list Z := filter (fun x => home_of H x = k) l.

Lemma at_home_in H k l x : x ∈ at_home H k l <-> home_of H x = k /\ x ∈ l.
Proof. unfold at_home. by rewrite list_elem_of_filter. Qed.
Lemma at_home_app H k l1 l2 : at_home H k (l1 ++ l2) = at_home H k l1 ++ at_home H k l2.
Proof. apply filter_app. Qed.
Lemma at_home_rev H k l : rev (at_home H k (rev l)) = at_home H k l.
Proof.
  induction l as [|x l IH]; [done|]. cbn [rev]. rewrite at_home_app, rev_app_distr, IH. unfold at_home. cbn.
  by destruct (decide _).
Qed.

Section Manager.
Context `{!BufferTypes}.

Lemma split_loop_spec fuel h g p l heads d : chain b_cont h p l -> NoDup l -> (forall x, x ∈ l -> x ∉ d) ->
  (forall x, x ∈ l -> home_of (homes h) x ∈ table) ->
  (forall k, chain b_cont h (heads !! k) (at_home (homes h) k d)) -> (length l < fuel)%nat ->
  wp (split_loop fuel p heads) (fun heads' '(h', g') _ => g' = g /\ same_but l h h' /\ homes h' = homes h /\
    forall k, chain b_cont h' (heads' !! k) (at_home (homes h) k (rev l ++ d))) (h, g).
Proof.
  revert fuel h p heads d. induction l as [|x l IH]; intros [|fuel] h p heads d Hc Hd Hdis Ht Hh Hf; cbn [length] in Hf; try lia.
  { cbn in Hc. subst p. cbn [split_loop]. hp. by split_and!. }
  destruct Hc as (-> & b & Hb & Hc). cbn [split_loop]. hp_step. hp_step.
  pose proof (home_of_lookup h x b Hb) as Eh. rewrite bool_decide_eq_false_2 by (rewrite <-Eh; intros Hn; apply Hn, Ht; set_solver).
  hp_step. hp_step. apply NoDup_cons in Hd as [Hx Hd].
  assert (Hs : same_but [x] h (<[x := set_cont (heads !! home b) b]> h)) by (apply same_but_insert; set_solver).
  assert (Hhm : homes (<[x := set_cont (heads !! home b) b]> h) = homes h) by (apply (homes_insert _ b); by destruct b).
  eapply wp_mono; [eapply (IH fuel _ _ _ (x :: d))|].
  - eapply chain_same; [exact Hs|set_solver|done].
  - done.
  - set_solver.
  - rewrite Hhm. set_solver.
  - rewrite Hhm. intros k. unfold at_home. rewrite filter_cons. rewrite Eh. destruct (decide (home b = k)) as [<-|Hne].
    + rewrite lookup_insert_eq. split; [done|]. eexists. split; [apply lookup_insert_eq|].
      replace (b_cont (set_cont (heads !! home b) b)) with (heads !! home b) by (by destruct b).
      eapply chain_same; [exact Hs| |apply Hh]. intros y Hy%at_home_in. set_solver.
    + rewrite lookup_insert_ne by done. eapply chain_same; [exact Hs| |apply Hh]. intros y Hy%at_home_in. set_solver.
  - lia.
  - intros heads' [h' g'] o (-> & Hs' & Hh' & Hk). split_and!; [done| |congruence|].
    + intros z Hz. rewrite Hs', Hs; [done|set_solver..].
    + intros k. cbn [rev]. rewrite <-app_assoc. cbn [app]. rewrite <-Hhm. apply Hk.
Qed.

(** What stays of the buffers of the manager. *)
Definition same_buffers (g g' : CSVS_Mb_Buffer_Manager) : Prop := m_inited g' = m_inited g /\
  (forall k t, mb_buff_ g !! k = Some t -> exists t', mb_buff_ g' !! k = Some t' /\ same_buffer t t') /\
  (forall k, mb_buff_ g !! k = None -> mb_buff_ g' !! k = None).

Definition buffers_mem (h : heap) (g : CSVS_Mb_Buffer_Manager) (F : Z * Z -> list Z) : Prop :=
  forall k t, mb_buff_ g !! k = Some t -> buffer_mem h t (F k).

Lemma same_buffers_refl g : same_buffers g g.
Proof. split_and!; [done| |done]. intros k t Ht. by exists t. Qed.
Lemma same_buffers_trans g1 g2 g3 : same_buffers g1 g2 -> same_buffers g2 g3 -> same_buffers g1 g3.
Proof.
  intros (E1 & S1 & N1) (E2 & S2 & N2). split_and!; [congruence| |auto]. intros k t Ht. destruct (S1 k t Ht) as (t1 & Ht1 & H1a & H1b).
  destruct (S2 k t1 Ht1) as (t2 & Ht2 & H2a & H2b). exists t2. split; [done|]. split; congruence.
Qed.
Lemma same_buffers_insert g k t t' : mb_buff_ g !! k = Some t -> same_buffer t t' -> same_buffers g (on_buffers (<[k := t']>) g).
Proof.
  intros Hk Hs. split_and!; [done| |]; intros k'; destruct (decide (k' = k)) as [->|Hne]; cbn.
  - intros t0 Ht0. rewrite Hk in Ht0. injection Ht0 as <-. exists t'. by rewrite lookup_insert_eq.
  - intros t0 Ht0. exists t0. by rewrite lookup_insert_ne.
  - congruence.
  - by rewrite lookup_insert_ne.
Qed.

Lemma buffer_mem_same l h h' t k : same_but l h h' -> (forall x, x ∈ k -> x ∉ l) -> buffer_mem h t k -> buffer_mem h' t k.
Proof. intros Hs Hd [Hc Hn]. split; [|done]. by eapply chain_same. Qed.

Lemma buffers_mem_insert l h h' g k t' F G : buffers_mem h g F -> same_but l h h' -> (forall k' x, k' <> k -> x ∈ F k' -> x ∉ l) ->
  buffer_mem h' t' (G k) -> (forall k', k' <> k -> G k' = F k') -> buffers_mem h' (on_buffers (<[k := t']>) g) G.
Proof.
  intros Hm Hs Hd Hk HG k' t. cbn. destruct (decide (k' = k)) as [->|Hne].
  - rewrite lookup_insert_eq. by intros [= <-].
  - rewrite lookup_insert_ne, HG by done. intros Ht. eapply buffer_mem_same; [exact Hs|intros x; by apply Hd|by apply Hm].
Qed.

(** The chains [L] of the buffers in [ks] are given back. *)
Lemma free_all_spec (ks : list (Z * Z)) (h : heap) (g : CSVS_Mb_Buffer_Manager) (heads : gmap (Z * Z) Z) (L F : Z * Z -> list Z) : NoDup ks -> buffers_mem h g F ->
  (forall k, k ∈ ks -> chain b_cont h (heads !! k) (L k) /\ NoDup (L k) /\
    (L k <> [] -> exists t, mb_buff_ g !! k = Some t /\ each h (fun b => b_size b = mb_size_ t) (L k))) ->
  (forall k k' x, x ∈ L k -> x ∈ L k' -> k = k') -> (forall k k' x, k ∈ ks -> x ∈ L k -> x ∉ F k') ->
  wp (for_all (fun k => match heads !! k with
                        | None => mret tt
                        | Some p => _ ← at_buffer k (buffer_free (Some p)); mret tt
                        end) ks)
    (fun _ '(h', g') _ => same_buffers g g' /\ same_but (concat (L <$> ks)) h h' /\ homes h' = homes h /\
      each h' free_ok (concat (L <$> ks)) /\
      buffers_mem h' g' (fun k => (if bool_decide (k ∈ ks) then rev (L k) else []) ++ F k)) (h, g).
Proof.
  revert h g F. induction ks as [|k ks IH]; intros h g F Hks Hm Hl Hd1 Hd2; cbn [for_all].
  { hp. split_and!; [apply same_buffers_refl|done|done|by apply Forall_nil|]. intros k t Ht. by apply Hm. }
  apply NoDup_cons in Hks as [Hk Hks]. destruct (Hl k ltac:(set_solver)) as (Hc & Hn & Hex). hp_step.
  assert (Hdis : forall k' x, k' ∈ ks -> x ∈ L k' -> x ∉ L k).
  { intros k' x Hk' Hx Hx'. by pose proof (Hd1 _ _ _ Hx Hx') as ->. }
  destruct (heads !! k) as [p|] eqn:Ep.
  - destruct (decide (L k = [])) as [E|Hne]; [by rewrite E in Hc|]. destruct (Hex Hne) as (t & Ht & Hsz). hp_step.
    eapply wp_at_buffer; [exact Ht|].
    eapply wp_mono; [eapply (buffer_free_spec h t (Some p) (L k) (F k)); try done; [by apply Hm|]|].
    { intros y Hy. eapply Hd2; [|done]. set_solver. }
    intros r [h1 t1] o (-> & Hm1 & Hs1 & Hh1 & Hf1 & Hb1). hp_step.
    set (g1 := on_buffers (<[k := t1]>) g). assert (Hg1 : same_buffers g g1) by (by eapply same_buffers_insert).
    eapply wp_mono; [eapply (IH h1 g1 (fun k' => (if decide (k' = k) then rev (L k) else []) ++ F k') Hks)|].
    + eapply buffers_mem_insert; [exact Hm|exact Hs1| | |].
      * intros k' x _ Hx Hx'. eapply Hd2; [|done..]. set_solver.
      * cbn beta. by rewrite decide_True.
      * intros k' Hne'. by rewrite decide_False.
    + intros k' Hk'. destruct (Hl k' ltac:(set_solver)) as (Hc' & Hn' & Hex').
      split_and!; [eapply chain_same; eauto|done|]. intros Hne'. destruct (Hex' Hne') as (t' & Ht' & Hsz').
      exists t'. cbn. split; [rewrite lookup_insert_ne by (by intros ->); done|]. eapply each_same; eauto.
    + done.
    + intros k1 k2 x Hk1 Hx. rewrite elem_of_app. intros [Hr|Hr]; [|by eapply (Hd2 k1 k2 x); [set_solver|..]].
      destruct (decide _); [|by apply elem_of_nil in Hr]. rewrite elem_of_reverse_rev in Hr. by eapply Hdis.
    + intros [] [h2 g2] o1 (Hg2 & Hs2 & Hh2 & Hf2 & Hm2). cbn [fmap list_fmap concat]. split_and!.
      * by eapply same_buffers_trans.
      * intros x Hx. rewrite Hs2, Hs1; [done|set_solver..].
      * congruence.
      * apply Forall_app. split; [|done]. eapply each_same; [exact Hs2| |exact Hf1]. intros x Hx Hx'.
        apply elem_of_list_concat in Hx' as (k' & Hk' & Hxk'). by eapply Hdis.
      * intros k' t' Ht'. specialize (Hm2 k' t' Ht'). cbv beta in Hm2. destruct (decide (k' = k)) as [->|Hne'].
        -- rewrite bool_decide_eq_false_2 in Hm2 by done. rewrite bool_decide_eq_true_2 by set_solver. done.
        -- cbn [app] in Hm2. by rewrite (bool_decide_ext (k' ∈ k :: ks) (k' ∈ ks)) by set_solver.
  - assert (L k = []) as E by by eapply chain_nil. hp_step. eapply wp_mono; [eapply (IH h g F Hks Hm)|].
    + intros k' Hk'. apply Hl. set_solver.
    + done.
    + intros k1 k2 x Hk1. apply Hd2. set_solver.
    + intros [] [h2 g2] o1 (Hg2 & Hs2 & Hh2 & Hf2 & Hm2). cbn [fmap list_fmap concat]. rewrite E. split_and!; try done.
      intros k' t' Ht'. specialize (Hm2 k' t' Ht'). destruct (decide (k' = k)) as [->|Hne'].
      * rewrite bool_decide_eq_false_2 in Hm2 by done. rewrite E. by destruct (bool_decide _).
      * by rewrite (bool_decide_ext (k' ∈ k :: ks) (k' ∈ ks)) by set_solver.
Qed.

Lemma table_nodup : NoDup table.
Proof.
  unfold table. generalize (NoDup_seqZ 0 MB_TYPE_MAX_VALUE). fold types. induction types as [|i l IH]; intros Hl; [apply NoDup_nil_2|].
  apply NoDup_cons in Hl as [Hi Hl]. cbn [fmap list_fmap concat]. apply NoDup_app. split_and!; [| |by apply IH].
  - apply NoDup_fmap_2; [|apply NoDup_seqZ]. by intros ? ? [= ?].
  - intros [a b] (j & [= -> ->] & _)%list_elem_of_fmap Hin.
    apply list_elem_of_In, in_concat in Hin as (r & Hr & Hin). rewrite <-list_elem_of_In in Hr. rewrite <-list_elem_of_In in Hin.
    apply list_elem_of_fmap in Hr as (i' & -> & Hi'). apply list_elem_of_fmap in Hin as (j' & [= -> ->] & _). done.
Qed.

Lemma table_in i j : (i, j) ∈ table <-> 0 <= i < MB_TYPE_MAX_VALUE /\ 0 <= j < MB_LEN_MAX_VALUE.
Proof.
  unfold table. rewrite list_elem_of_In, in_concat. split.
  - intros (r & Hr & Hin). rewrite <-list_elem_of_In in Hr. rewrite <-list_elem_of_In in Hin. apply list_elem_of_fmap in Hr as (i' & -> & Hi').
    apply list_elem_of_fmap in Hin as (j' & [= -> ->] & Hj). apply elem_of_seqZ in Hi', Hj. lia.
  - intros [Hi Hj]. exists ((fun j => (i, j)) <$> lens). split; rewrite <-list_elem_of_In.
    + apply list_elem_of_fmap. exists i. split; [done|]. apply elem_of_seqZ. lia.
    + apply list_elem_of_fmap. exists j. split; [done|]. apply elem_of_seqZ. lia.
Qed.

(** Every block of a list has a buffer. *)
Definition housed (h : heap) (g : CSVS_Mb_Buffer_Manager) (l : list Z) : Prop :=
  each h (fun b => home b ∈ table /\ exists t, mb_buff_ g !! home b = Some t /\ b_size b = mb_size_ t) l.

Lemma manager_free_spec h g p l F : chain b_cont h p l -> NoDup l -> l <> [] -> housed h g l -> buffers_mem h g F ->
  (forall k x, x ∈ l -> x ∉ F k) ->
  wp (manager_free p) (fun _ '(h', g') _ => same_buffers g g' /\ same_but l h h' /\ homes h' = homes h /\
    each h' free_ok l /\ buffers_mem h' g' (fun k => at_home (homes h) k l ++ F k)) (h, g).
Proof.
  intros Hc Hd Hne Hl Hm HF. assert (exists q, p = Some q) as [q ->] by (destruct l; [done|]; destruct Hc as [-> _]; eauto).
  pose proof (chain_size _ _ _ _ Hc Hd) as Hz. unfold manager_free. do 2 hp_step. hp_step.
  assert (Ht : forall x, x ∈ l -> home_of (homes h) x ∈ table).
  { intros x Hx. destruct (each_in _ _ _ _ Hl Hx) as (b & Hb & Hh & _). by rewrite (home_of_lookup h x b). }
  eapply wp_mono; [eapply (split_loop_spec (S (size h)) h g (Some q) l ∅ []); try done|].
  { set_solver. } { lia. }
  intros heads [h1 g1] o (-> & Hs1 & Hh1 & Hk). setoid_rewrite app_nil_r in Hk. hp_step.
  set (L := fun k => at_home (homes h) k (rev l)).
  assert (HL : forall k x, x ∈ L k <-> home_of (homes h) x = k /\ x ∈ l).
  { intros k x. unfold L. by rewrite at_home_in, elem_of_reverse_rev. }
  eapply wp_mono; [eapply (free_all_spec table h1 g heads L F table_nodup)|].
  - intros k t Hkt. eapply buffer_mem_same; [exact Hs1| |by apply Hm]. intros x Hx Hx'. by eapply HF.
  - intros k _. split_and!; [apply Hk| |].
    + unfold L, at_home. apply NoDup_filter. apply NoDup_ListNoDup, NoDup_rev. by apply NoDup_ListNoDup.
    + intros Hne'. destruct (L k) as [|x r] eqn:E; [done|]. assert (x ∈ L k) as Hx by (rewrite E; set_solver).
      apply HL in Hx as [Hx Hin]. destruct (each_in _ _ _ _ Hl Hin) as (b & Hb & Hh & t & Htk & Hsz).
      rewrite (home_of_lookup h x b Hb) in Hx. subst k. exists t. split; [done|]. rewrite <-E. apply Forall_forall.
      intros y [Hy Hyl]%HL. destruct (each_in _ _ _ _ Hl Hyl) as (b' & Hb' & Hh' & t' & Htk' & Hsz').
      rewrite (home_of_lookup h y b' Hb') in Hy. destruct (homes_lookup _ _ _ _ Hh1 Hb') as (b1 & Hb1 & _ & Hsz1).
      exists b1. split; [done|]. rewrite Hy in Htk'. congruence.
  - intros k k' x [H1 _]%HL [H2 _]%HL. congruence.
  - intros k k' x _ [_ Hx]%HL. by apply HF.
  - intros [] [h2 g2] o1 (Hg2 & Hs2 & Hh2 & Hf2 & Hm2). hp.
    assert (Hin : forall x, x ∈ concat (L <$> table) <-> x ∈ l).
    { intros x. rewrite elem_of_list_concat. split; [by intros (k & _ & [_ Hx]%HL)|]. intros Hx.
      exists (home_of (homes h) x). split; [by apply Ht|by apply HL]. }
    split_and!; [done| |congruence| |].
    + intros x Hx. rewrite Hs2, Hs1; [done|done|]. by rewrite Hin.
    + apply Forall_forall. intros x Hx. eapply each_in; [exact Hf2|]. by apply Hin.
    + intros k t Hkt. specialize (Hm2 k t Hkt). cbv beta in Hm2. unfold L in Hm2. rewrite at_home_rev in Hm2.
      destruct (decide (k ∈ table)) as [Hin'|Hn]; [by rewrite bool_decide_eq_true_2 in Hm2|].
      rewrite bool_decide_eq_false_2 in Hm2 by done. replace (at_home (homes h) k l) with (@nil Z); [done|].
      symmetry. apply elem_of_nil_inv. intros x [Hx Hxl]%at_home_in. subst k. by apply Hn, Ht.
Qed.

Lemma manager_alloc_spec ty s n h g F : 0 < n -> buffers_mem h g F ->
  (forall k t, mb_buff_ g !! k = Some t -> inited_flag_ t = true /\ NoDup (F k) /\ each h free_ok (F k)) ->
  (forall k k' x, x ∈ F k -> x ∈ F k' -> k = k') ->
  wp (manager_alloc ty s n) (fun r '(h', g') _ =>
    match get_mb_buffer ty s with
    | Some k =>
      match mb_buff_ g !! k with
      | Some t => let l := take (Z.to_nat n) (F k) in
        r = head (F k) /\ same_buffers g g' /\ chain b_cont h' r l /\ same_but l h h' /\ homes h' = homes h /\
        each h' out_ok l /\ buffers_mem h' g' (fun k' => if decide (k' = k) then drop (Z.to_nat n) (F k) else F k')
      | None => r = None /\ h' = h /\ g' = g
      end
    | None => r = None /\ h' = h /\ g' = g
    end) (h, g).
Proof.
  intros Hn Hm HF Hd. unfold manager_alloc. destruct (get_mb_buffer ty s) as [k|]; [|by hp]. hp_step. hp_step.
  destruct (mb_buff_ g !! k) as [t|] eqn:Ht; [|by hp]. destruct (HF k t Ht) as (Hi & Hnd & Hf). cbn zeta.
  eapply wp_at_buffer; [exact Ht|].
  eapply wp_mono; [eapply (buffer_alloc_spec n h t (F k)); try done; by apply Hm|].
  intros r [h1 t1] o (-> & Hm1 & Hc1 & Hs1 & Hh1 & Ho1 & Hb1). split_and!; try done.
  - by eapply same_buffers_insert.
  - eapply buffers_mem_insert; [exact Hm|exact Hs1| | |].
    + intros k' x Hne Hx Hx'%elem_of_take. destruct Hx' as (i & Hx' & _). apply Hne, (Hd _ _ x); [done|].
      by eapply list_elem_of_lookup_2.
    + cbv beta. by rewrite decide_True.
    + intros k' Hne. by rewrite decide_False.
Qed.

(** *** The start *)

(** The addresses [new] gives are not in use. *)
Definition fresh (news : list (option Z)) (h : heap) : Prop := NoDup (omap id news) /\ forall x, x ∈ omap id news -> h !! x = None.

Lemma delete_loop_spec fuel h t l : chain b_next h (free_mb_list_ t) l -> NoDup l -> (length l <= fuel)%nat ->
  wp (delete_loop fuel) (fun _ '(h', _) _ => same_but l h h' /\ forall x, x ∈ l -> h' !! x = None) (h, t).
Proof.
  revert fuel h t. induction l as [|x l IH]; intros fuel h t Hc Hd Hf.
  { cbn in Hc. destruct fuel; cbn [delete_loop]; hp_step; hp_step; rewrite Hc; hp; split; [done|by intros x Hx%elem_of_nil|done|by intros x Hx%elem_of_nil]. }
  destruct fuel as [|fuel]; cbn [length] in Hf; [lia|]. destruct Hc as (Hp & b & Hb & Hc). apply NoDup_cons in Hd as [Hx Hd].
  cbn [delete_loop]. hp_step. hp_step. rewrite Hp. hp. 
  assert (Hs : same_but [x] h (delete x h)) by (intros y Hy; apply lookup_delete_ne; set_solver).
  eapply wp_mono; [eapply (IH fuel (delete x h) (set_list (b_next b) t))|].
  - eapply chain_same; [exact Hs|set_solver|]. by destruct t.
  - done.
  - lia.
  - intros [] [h1 t1] o [Hs1 Hn]. split.
    + intros y Hy. rewrite Hs1, Hs; [done|set_solver..].
    + intros y [->|Hy]%elem_of_cons; [|by apply Hn]. rewrite Hs1 by done. apply lookup_delete_eq.
Qed.

Lemma buffer_clear_spec h t l : chain b_next h (free_mb_list_ t) l -> NoDup l ->
  wp buffer_clear (fun r '(h', t') _ => r = 0 /\ t' = CSVS_Mb_Buffer_new /\ same_but l h h' /\ forall x, x ∈ l -> h' !! x = None) (h, t).
Proof.
  intros Hc Hd. pose proof (chain_size _ _ _ _ Hc Hd). unfold buffer_clear. do 3 hp_step.
  eapply wp_mono; [eapply delete_loop_spec; [exact Hc|done|lia]|]. intros [] [h1 t1] o Hh. hp. done.
Qed.

(** A block [new] has made for a buffer. *)
Definition made (t : CSVS_Mb_Buffer) (b : block) : Prop := home b = (mb_type_ t, mb_len_ t) /\ b_size b = mb_size_ t /\ free_ok b.

Lemma new_loop_spec n h t l news : chain b_next h (free_mb_list_ t) l -> (forall x, x ∈ l -> is_Some (h !! x)) -> fresh news h ->
  wp (new_loop n news) (fun '(ok, rest) '(h', t') _ => exists p k, t' = set_list p t /\ chain b_next h' p (k ++ l) /\
    each h' (made t) k /\ same_but k h h' /\ NoDup k /\ (forall x, x ∈ k -> h !! x = None) /\ fresh rest h' /\
    (ok = true -> length k = n)) (h, t).
Proof.
  revert h t l news. induction n as [|n IH]; intros h t l news Hc Hl Hn.
  { cbn [new_loop]. destruct news as [|[x|] news]; hp; exists (free_mb_list_ t), []; split_and!; try done; try (by destruct t);
      try apply Forall_nil_2; try apply NoDup_nil_2; try (by intros x0 []%elem_of_nil); apply Hn. }
  assert (Hend : forall rest, fresh rest h -> exists p k, t = set_list p t /\ chain b_next h p (k ++ l) /\
    each h (made t) k /\ same_but k h h /\ NoDup k /\ (forall x, x ∈ k -> h !! x = None) /\ fresh rest h /\ (false = true -> length k = S n)).
  { intros rest Hr. exists (free_mb_list_ t), []. split_and!; try done; [by destruct t|by apply Forall_nil_2|by apply NoDup_nil_2|by intros x0 []%elem_of_nil]. }
  destruct news as [|[x|] news]; cbn [new_loop]; [hp; by apply Hend| |hp; apply Hend; by destruct Hn].
  destruct Hn as [Hn1 Hn2]. cbn in Hn1, Hn2. apply NoDup_cons in Hn1 as [Hx Hn1]. hp.
  set (b := {| b_cont := None |}). set (h1 := <[x := b]> h).
  assert (Hs : same_but [x] h h1) by (apply same_but_insert; set_solver).
  assert (Hxn : h !! x = None) by (apply Hn2; set_solver).
  eapply wp_mono; [eapply (IH h1 (set_list (Some x) t) (x :: l) news)|].
  - replace (free_mb_list_ (set_list (Some x) t)) with (Some x) by (by destruct t). split; [done|]. exists b. split; [apply lookup_insert_eq|].
    cbn [b_next b]. eapply chain_same; [exact Hs| |done]. intros y Hy Hyx. apply elem_of_cons in Hyx as [->|[]%elem_of_nil].
    destruct (Hl x Hy). congruence.
  - intros y [->|Hy]%elem_of_cons; [unfold h1; rewrite lookup_insert_eq; eauto|]. destruct (decide (y = x)) as [->|]; [unfold h1; rewrite lookup_insert_eq; eauto|].
    unfold h1. rewrite lookup_insert_ne by done. by apply Hl.
  - split; [done|]. intros y Hy. unfold h1. rewrite lookup_insert_ne by (by intros <-). apply Hn2. set_solver.
  - intros [ok rest] [h2 t2] o (p & k & -> & Hc2 & He2 & Hs2 & Hk & Hk2 & Hf2 & Hlen).
    assert (Hxk : x ∉ k) by (intros Hin; specialize (Hk2 x Hin); unfold h1 in Hk2; by rewrite lookup_insert_eq in Hk2).
    exists p, (k ++ [x]). split_and!.
    + by destruct t.
    + by rewrite <-app_assoc.
    + apply Forall_app. split; [eapply Forall_impl; [exact He2|]; intros y (b' & ? & Hm); exists b'; split; [done|]; by destruct t|].
      apply Forall_singleton. exists b. rewrite Hs2 by done. split; [apply lookup_insert_eq|]. by destruct t.
    + intros y Hy. rewrite Hs2, Hs; [done|set_solver..].
    + apply NoDup_app. split_and!; [done| |apply NoDup_singleton]. set_solver.
    + intros y [Hy|Hy]%elem_of_app; [|set_solver]. specialize (Hk2 y Hy). unfold h1 in Hk2.
      destruct (decide (y = x)) as [->|]; [by rewrite lookup_insert_eq in Hk2|by rewrite lookup_insert_ne in Hk2].
    + done.
    + intros Hok. rewrite length_app, (Hlen Hok). cbn. lia.
Qed.

(** A block with the home [k]. *)
Definition block_of (k : Z * Z) (b : block) : Prop := home b = k /\ b_size b = buffSize k.2 + sizeof_info /\ free_ok b.

Lemma buffer_init_spec i j h news : 0 <= buffCount i j < 2 ^ 32 -> fresh news h ->
  wp (buffer_init (buffCount i j) (buffSize j + sizeof_info) i j news) (fun '(r, rest) '(h', t') _ => fresh rest h' /\
    (r = -1 /\ t' = CSVS_Mb_Buffer_new /\ h' = h \/
     r = 0 /\ exists k, buffer_mem h' t' k /\ inited_flag_ t' = true /\ mb_size_ t' = buffSize j + sizeof_info /\
       zlen k = buffCount i j /\ each h' (block_of (i, j)) k /\ same_but k h h' /\ NoDup k /\ (forall x, x ∈ k -> h !! x = None)))
    (h, CSVS_Mb_Buffer_new).
Proof.
  intros Hc Hn. unfold buffer_init. do 2 hp_step. cbn [inited_flag_ CSVS_Mb_Buffer_new]. do 3 hp_step.
  eapply wp_mono; [eapply (new_loop_spec (Z.to_nat (buffCount i j)) h _ [] news); [done|by intros x Hx%elem_of_nil|done]|].
  intros [ok rest] [h1 t1] o (p & k & -> & Hch & He & Hs & Hk & Hk2 & Hf & Hlen). rewrite app_nil_r in Hch. cbv beta iota.
  destruct ok; cbn [negb].
  - hp. split; [done|]. right. split; [done|]. exists k. cbn [set_list set_inited CSVS_Mb_Buffer_new].
    assert (zlen k = buffCount i j) as E by (unfold zlen; rewrite Hlen; lia).
    split_and!; try done. split; [done|]. cbn. rewrite E. unfold u32, wrap. rewrite Z.mod_small; lia.
  - hp_step. eapply wp_mono; [eapply (buffer_clear_spec h1 _ k); [done|done]|]. intros r [h2 t2] o' (-> & -> & Hs2 & Hd). hp.
    assert (h2 = h) as ->; [|split; [|by left]].
    + apply map_eq. intros x. destruct (decide (x ∈ k)) as [Hx|Hx]; [by rewrite Hd, Hk2|by rewrite Hs2, Hs].
    + destruct Hf as [Hf1 Hf2]. split; [done|]. intros x Hx. destruct (decide (x ∈ k)) as [Hin|Hin]; [by apply Hk2|].
      rewrite <-(Hs x Hin). by apply Hf2.
Qed.

(** The manager while it starts: the buffers have the blocks [F]. *)
Record booting (h : heap) (g : CSVS_Mb_Buffer_Manager) (F : Z * Z -> list Z) : Prop := {
  boot_mem : forall k t, mb_buff_ g !! k = Some t -> chain b_next h (free_mb_list_ t) (F k) /\ k ∈ table;
  boot_none : forall k, mb_buff_ g !! k = None -> F k = [];
  boot_nodup : forall k, NoDup (F k);
  boot_blocks : forall k, each h (block_of k) (F k);
  boot_dom : forall x, is_Some (h !! x) -> exists k, x ∈ F k }.

(** A buffer after [init], or the null pointer of a type and length without blocks. *)
Definition booted (h : heap) (g : CSVS_Mb_Buffer_Manager) (F : Z * Z -> list Z) (k : Z * Z) : Prop :=
  if buffCount k.1 k.2 =? 0 then mb_buff_ g !! k = None
  else exists t, mb_buff_ g !! k = Some t /\ buffer_mem h t (F k) /\ inited_flag_ t = true /\
    mb_size_ t = buffSize k.2 + sizeof_info /\ zlen (F k) = buffCount k.1 k.2.

Lemma boot_disjoint h g F k k' x : booting h g F -> x ∈ F k -> x ∈ F k' -> k = k'.
Proof.
  intros Hb H1 H2. destruct (each_in _ _ _ _ (boot_blocks _ _ _ Hb k) H1) as (b & Hx & <- & _).
  destruct (each_in _ _ _ _ (boot_blocks _ _ _ Hb k') H2) as (b' & Hx' & <- & _). congruence.
Qed.

(** What a row leaves as it is. *)
Definition row_keeps (ks : list (Z * Z)) (h : heap) (g : CSVS_Mb_Buffer_Manager) (F : Z * Z -> list Z) (h' : heap) (g' : CSVS_Mb_Buffer_Manager) F' : Prop :=
  m_inited g' = m_inited g /\ (forall k, k ∉ ks -> mb_buff_ g' !! k = mb_buff_ g !! k /\ F' k = F k) /\
  (forall x, is_Some (h !! x) -> h' !! x = h !! x).

Lemma row_keeps_trans ks l h g F h1 g1 F1 h2 g2 F2 : row_keeps ks h g F h1 g1 F1 -> row_keeps l h1 g1 F1 h2 g2 F2 ->
  row_keeps (ks ++ l) h g F h2 g2 F2.
Proof.
  intros (I1 & K1 & H1) (I2 & K2 & H2). split_and!; [congruence| |].
  - intros k Hk. destruct (K1 k), (K2 k); [set_solver..|]. split; congruence.
  - intros x Hx. rewrite H2, H1; [done..|by rewrite H1].
Qed.

Lemma booted_keeps ks h g F h' g' F' k : row_keeps ks h g F h' g' F' -> booting h g F -> k ∉ ks -> booted h g F k -> booted h' g' F' k.
Proof.
  intros (_ & K & Hh) Hb Hk. unfold booted. destruct (K k Hk) as [-> ->]. destruct (_ =? _); [done|].
  intros (t & Ht & [Hc Hn] & Hrest). exists t. split; [done|]. split; [|done]. split; [|done]. eapply chain_ext; [|exact Hc].
  intros x Hx. apply Hh. destruct (each_in _ _ _ _ (boot_blocks _ _ _ Hb k) Hx) as (b & -> & _). eauto.
Qed.

Lemma booting_null h g F k : booting h g F -> mb_buff_ g !! k = None ->
  booting h (on_buffers (delete k) g) F /\ row_keeps [k] h g F h (on_buffers (delete k) g) F.
Proof.
  intros [Hm Hn Hd Hb Hdom] Hk. assert (on_buffers (delete k) g = g) as E.
  { destruct g as [m i]. unfold on_buffers. cbn in *. by rewrite delete_id. }
  rewrite E. split; [by split|]. by split_and!.
Qed.

(** A buffer is put into its place; [l] are its blocks. *)
Lemma booting_insert h g F k t l h' : booting h g F -> mb_buff_ g !! k = None -> k ∈ table ->
  chain b_next h' (free_mb_list_ t) l -> NoDup l -> each h' (block_of k) l -> same_but l h h' -> (forall x, x ∈ l -> h !! x = None) ->
  let g' := on_buffers (<[k := t]>) g in let F' := fun k' => if decide (k' = k) then l else F k' in
  booting h' g' F' /\ row_keeps [k] h g F h' g' F'.
Proof.
  intros Hb Hk Ht Hc Hl He Hs Hnone. cbn zeta.
  assert (Hkeep : forall k' x, x ∈ F k' -> x ∉ l).
  { intros k' x Hx Hin. destruct (each_in _ _ _ _ (boot_blocks _ _ _ Hb k') Hx) as (b & Hx' & _). specialize (Hnone x Hin). congruence. }
  split.
  - split.
    + intros k' t'. cbn. destruct (decide (k' = k)) as [->|Hne].
      * rewrite lookup_insert_eq. by intros [= <-].
      * rewrite lookup_insert_ne by done. intros Ht'. destruct (boot_mem _ _ _ Hb k' t' Ht') as [Hc' Hin]. split; [|done].
        eapply chain_same; [exact Hs|apply Hkeep|done].
    + intros k'. cbn. destruct (decide (k' = k)) as [->|Hne]; [by rewrite lookup_insert_eq|].
      rewrite lookup_insert_ne by done. apply (boot_none _ _ _ Hb).
    + intros k'. destruct (decide _); [done|apply (boot_nodup _ _ _ Hb)].
    + intros k'. destruct (decide _) as [->|]; [done|]. eapply each_same; [exact Hs|apply Hkeep|apply (boot_blocks _ _ _ Hb)].
    + intros x Hx. destruct (decide (x ∈ l)) as [Hin|Hin]; [exists k; by rewrite decide_True|].
      rewrite Hs in Hx by done. destruct (boot_dom _ _ _ Hb x Hx) as (k' & Hk'). exists k'. rewrite decide_False; [done|].
      intros ->. rewrite (boot_none _ _ _ Hb k Hk) in Hk'. by apply elem_of_nil in Hk'.
  - split_and!; [done| |].
    + intros k' Hk'. cbn. rewrite lookup_insert_ne, decide_False by set_solver. done.
    + intros x Hx. apply Hs. intros Hin. rewrite (Hnone x Hin) in Hx. by destruct Hx.
Qed.

Context (Hcounts : forall i j, 0 <= buffCount i j < 2 ^ 32).

Lemma init_row_spec i js nb news h g F : NoDup js -> (forall j, j ∈ js -> (i, j) ∈ table /\ mb_buff_ g !! (i, j) = None) ->
  booting h g F -> fresh news h ->
  wp (init_row i js nb news) (fun '(failed, rest) '(h', g') _ => exists F', booting h' g' F' /\ fresh rest h' /\
    row_keeps ((fun j => (i, j)) <$> js) h g F h' g' F' /\
    (failed = false -> Forall (fun j => booted h' g' F' (i, j)) js)) (h, g).
Proof using All.
  revert news h g F. induction js as [|j js IH]; intros news h g F Hd Hj Hb Hn; cbn [init_row].
  { hp. exists F. by split_and!. }
  apply NoDup_cons in Hd as [Hjs Hd]. destruct (Hj j ltac:(set_solver)) as [Ht Hk].
  assert (Hwk : forall l h1 g1 F1, row_keeps [(i, j)] h g F h1 g1 F1 -> row_keeps ((fun j => (i, j)) <$> j :: l) h g F h1 g1 F1).
  { intros l h1 g1 F1 (I1 & K1 & H1). split_and!; [done| |done]. intros k Hin. apply K1. cbn in Hin. set_solver. }
  assert (Hrest : forall h1 g1 F1 news1, booting h1 g1 F1 -> fresh news1 h1 -> row_keeps [(i, j)] h g F h1 g1 F1 -> booted h1 g1 F1 (i, j) ->
    wp (init_row i js nb news1) (fun '(failed, rest) '(h', g') _ => exists F', booting h' g' F' /\ fresh rest h' /\
      row_keeps ((fun j => (i, j)) <$> j :: js) h g F h' g' F' /\
      (failed = false -> Forall (fun j => booted h' g' F' (i, j)) (j :: js))) (h1, g1)).
  { intros h1 g1 F1 news1 Hb1 Hn1 Hk1 Hbj. eapply wp_mono; [eapply (IH news1 h1 g1 F1); [done| |done|done]|].
    - intros j' Hj'. destruct (Hj j' ltac:(set_solver)) as [Ht' Hnone]. split; [done|]. destruct Hk1 as (_ & K1 & _).
      destruct (K1 (i, j')) as [-> _]; [|done]. intros Hin%list_elem_of_singleton. injection Hin as ->. done.
    - intros [failed rest] [h2 g2] o (F2 & Hb2 & Hn2 & Hk2 & Hall). exists F2. split_and!; [done..| |].
      + by apply (row_keeps_trans [(i, j)] _ _ _ _ h1 g1 F1).
      + intros Hf. apply Forall_cons. split; [|by apply Hall]. eapply booted_keeps; [exact Hk2|done| |done].
        intros Hin%list_elem_of_fmap. destruct Hin as (j' & [= ->] & Hin). done. }
  destruct (buffCount i j =? 0) eqn:E0.
  { hp_step. hp_step. destruct (booting_null h g F _ Hb Hk) as [Hb1 Hk1].
    eapply wp_mono; [eapply (Hrest _ _ _ _ Hb1 Hn Hk1)|by intros [] [] ?].
    unfold booted. cbn [fst snd]. rewrite E0. cbn. by rewrite lookup_delete_eq. }
  destruct (nb i j); cbn [negb].
  2:{ hp. exists F. split_and!; [done..| |done]. by apply Hwk. }
  hp_step. hp_step. hp_step. eapply wp_at_buffer; [apply lookup_insert_eq|].
  eapply wp_mono; [eapply (buffer_init_spec i j h news (Hcounts i j) Hn)|]. intros [r rest] [h1 t1] o [Hn1 Hcase]. cbv beta iota.
  unfold on_buffers. cbn [mb_buff_ m_inited]. rewrite insert_insert_eq.
  destruct Hcase as [(-> & -> & ->)|(-> & l & Hm1 & Hi1 & Hs1 & Hl1 & He1 & Hsb & Hd1 & Hnone)].
  - hp. destruct (booting_insert h g F (i, j) CSVS_Mb_Buffer_new [] h Hb Hk Ht) as [Hb2 Hk2]; try done;
      [by apply NoDup_nil_2|by apply Forall_nil_2|by intros x Hx%elem_of_nil|].
    eexists. split_and!; [exact Hb2|done| |done]. by apply Hwk.
  - destruct (booting_insert h g F (i, j) t1 l h1 Hb Hk Ht) as [Hb2 Hk2]; try done; [apply Hm1|].
    eapply wp_mono; [eapply (Hrest _ _ _ _ Hb2 Hn1 Hk2)|by intros [] [] ?].
    unfold booted. cbn [fst snd]. rewrite E0. exists t1. cbn. rewrite lookup_insert_eq, decide_True by done. by split_and!.
Qed.

Definition buffer_keys (l : list Z) : list (Z * Z) := concat ((fun i => (fun j => (i, j)) <$> lens) <$> l).

Lemma init_rows_spec l nb news h g F : NoDup (buffer_keys l) -> (forall k, k ∈ buffer_keys l -> k ∈ table /\ mb_buff_ g !! k = None) ->
  booting h g F -> fresh news h ->
  wp (init_rows l nb news) (fun failed '(h', g') _ => exists F', booting h' g' F' /\
    row_keeps (buffer_keys l) h g F h' g' F' /\ (failed = false -> Forall (booted h' g' F') (buffer_keys l))) (h, g).
Proof using All.
  revert news h g F. induction l as [|i l IH]; intros news h g F Hd Hj Hb Hn; cbn [init_rows].
  { hp. exists F. by split_and!. }
  cbn [buffer_keys fmap list_fmap concat] in Hd, Hj |- *. fold (buffer_keys l) in *. apply NoDup_app in Hd as (Hd1 & Hd2 & Hd3).
  hp_step. eapply wp_mono; [eapply (init_row_spec i lens nb news h g F (NoDup_seqZ _ _)); [|done|done]|].
  { intros j Hin. apply Hj. apply elem_of_app. left. apply list_elem_of_fmap. by exists j. }
  intros [failed rest] [h1 g1] o (F1 & Hb1 & Hn1 & Hk1 & Hall1). cbv beta iota. hp_step.
  eapply wp_mono; [eapply (IH rest h1 g1 F1 Hd3); [|done|done]|].
  { intros k Hin. destruct (Hj k) as [Ht Hnone]; [apply elem_of_app; by right|]. split; [done|]. destruct Hk1 as (_ & K1 & _).
    destruct (K1 k) as [-> _]; [|done]. intros Hin'. by apply (Hd2 k). }
  intros later [h2 g2] o1 (F2 & Hb2 & Hk2 & Hall2). hp. exists F2. split_and!; [done|by eapply row_keeps_trans|].
  intros [-> ->]%orb_false_iff. apply Forall_app. split; [|by apply Hall2]. apply Forall_forall.
  intros k Hin. eapply booted_keeps; [exact Hk2|done|by apply Hd2|]. apply list_elem_of_fmap in Hin as (j & -> & Hin).
  specialize (Hall1 eq_refl). rewrite Forall_forall in Hall1. by apply Hall1.
Qed.

Lemma clear_all_spec ks h g F : booting h g F ->
  wp (for_all (fun k => t ← this;
        match mb_buff_ t !! k with
        | None => mret tt
        | Some _ => _ ← at_buffer k buffer_clear; on_this (on_buffers (delete k))
        end) ks)
    (fun _ '(h', g') _ => exists F', booting h' g' F' /\ m_inited g' = m_inited g /\
      forall k, mb_buff_ g' !! k = if bool_decide (k ∈ ks) then None else mb_buff_ g !! k) (h, g).
Proof.
  revert h g F. induction ks as [|k ks IH]; intros h g F Hb; cbn [for_all].
  { hp. exists F. by split_and!. }
  do 3 hp_step. destruct (mb_buff_ g !! k) as [t|] eqn:Hk.
  - destruct (boot_mem _ _ _ Hb k t Hk) as [Hc Ht]. hp_step. eapply wp_at_buffer; [exact Hk|].
    eapply wp_mono; [eapply (buffer_clear_spec h t (F k) Hc), (boot_nodup _ _ _ Hb)|].
    intros r [h1 t1] o (-> & -> & Hs & Hn). hp_step.
    set (g1 := on_buffers (delete k) _).
    assert (Hg1 : forall k', mb_buff_ g1 !! k' = if decide (k' = k) then None else mb_buff_ g !! k').
    { intros k'. cbn. destruct (decide (k' = k)) as [->|Hne]; [apply lookup_delete_eq|]. by rewrite lookup_delete_ne, lookup_insert_ne. }
    eapply wp_mono; [eapply (IH h1 g1 (fun k' => if decide (k' = k) then [] else F k'))|].
    + assert (Hdis : forall k' x, k' <> k -> x ∈ F k' -> x ∉ F k).
      { intros k' x Hne Hx Hx'. by apply Hne, (boot_disjoint h g F _ _ x). }
      split.
      * intros k' t'. rewrite Hg1. destruct (decide (k' = k)) as [|Hne]; [done|]. intros Ht'.
        destruct (boot_mem _ _ _ Hb k' t' Ht') as [Hc' Hin]. split; [|done]. eapply chain_same; [exact Hs|intros x; by apply Hdis|done].
      * intros k'. rewrite Hg1. destruct (decide _); [done|]. apply (boot_none _ _ _ Hb).
      * intros k'. destruct (decide _); [by apply NoDup_nil_2|apply (boot_nodup _ _ _ Hb)].
      * intros k'. destruct (decide _); [by apply Forall_nil_2|]. eapply each_same; [exact Hs|intros x; by apply Hdis|apply (boot_blocks _ _ _ Hb)].
      * intros x Hx. destruct (decide (x ∈ F k)) as [Hin|Hin]; [rewrite Hn in Hx by done; by destruct Hx|].
        rewrite Hs in Hx by done. destruct (boot_dom _ _ _ Hb x Hx) as (k' & Hk'). exists k'. destruct (decide _) as [->|]; done.
    + intros [] [h2 g2] o1 (F2 & Hb2 & Hi2 & Hn2). exists F2. split_and!; [done..|]. intros k'. rewrite Hn2, Hg1.
      destruct (decide (k' = k)) as [->|Hne]; [rewrite (bool_decide_eq_true_2 (k ∈ k :: ks)) by set_solver; by destruct (bool_decide _)|].
      by rewrite (bool_decide_ext (k' ∈ k :: ks) (k' ∈ ks)) by set_solver.
  - hp_step. eapply wp_mono; [by eapply IH|]. intros [] [h2 g2] o1 (F2 & Hb2 & Hi2 & Hn2). exists F2. split_and!; [done..|].
    intros k'. rewrite Hn2. destruct (decide (k' = k)) as [->|Hne]; [rewrite (bool_decide_eq_true_2 (k ∈ k :: ks)) by set_solver; by destruct (bool_decide _)|].
    by rewrite (bool_decide_ext (k' ∈ k :: ks) (k' ∈ ks)) by set_solver.
Qed.

Definition CSVS_Mb_Buffer_Manager_new : CSVS_Mb_Buffer_Manager := {| mb_buff_ := ∅; m_inited := false |}.

Lemma booting_start : booting ∅ CSVS_Mb_Buffer_Manager_new (fun _ => []).
Proof.
  split; intros; try done; [by apply NoDup_nil_2|by apply Forall_nil_2|].
  match goal with H : is_Some _ |- _ => rewrite lookup_empty in H; by destruct H end.
Qed.

Lemma manager_clear_spec h g F : booting h g F ->
  wp manager_clear (fun r '(h', g') _ => r = 0 /\ h' = ∅ /\ g' = CSVS_Mb_Buffer_Manager_new) (h, g).
Proof.
  intros Hb. unfold manager_clear. hp_step. eapply wp_mono; [by eapply clear_all_spec|].
  intros [] [h1 g1] o (F1 & Hb1 & _ & Hn). hp.
  assert (Hg : forall k, mb_buff_ g1 !! k = None).
  { intros k. destruct (mb_buff_ g1 !! k) as [t|] eqn:Ht; [|done]. destruct (boot_mem _ _ _ Hb1 k t Ht) as [_ Hin].
    rewrite Hn, bool_decide_eq_true_2 in Ht by done. done. }
  split_and!; [done| |].
  - apply map_eq. intros x. rewrite lookup_empty. destruct (h1 !! x) eqn:Hx; [|done].
    destruct (boot_dom _ _ _ Hb1 x) as (k & Hk); [by rewrite Hx|]. rewrite (boot_none _ _ _ Hb1 k (Hg k)) in Hk. by apply elem_of_nil in Hk.
  - unfold CSVS_Mb_Buffer_Manager_new. f_equal. apply map_eq. intros k. by rewrite Hg, lookup_empty.
Qed.

(** [init] gives every buffer its blocks, or nothing is left of it. *)
Lemma manager_init_spec nb news : fresh news ∅ ->
  wp (manager_init nb news) (fun r '(h', g') _ =>
    r = -1 /\ h' = ∅ /\ g' = CSVS_Mb_Buffer_Manager_new \/
    r = 0 /\ m_inited g' = true /\ exists F, booting h' g' F /\ Forall (booted h' g' F) table) (∅, CSVS_Mb_Buffer_Manager_new).
Proof using All.
  intros Hn. unfold manager_init. do 2 hp_step. cbn [m_inited CSVS_Mb_Buffer_Manager_new]. hp_step.
  eapply wp_mono; [eapply (init_rows_spec types nb news _ _ (fun _ => []) table_nodup); [|apply booting_start|done]|].
  { intros k Hk. split; [done|]. apply lookup_empty. }
  intros failed [h1 g1] o (F1 & Hb1 & (Hi & _) & Hall). destruct failed.
  - hp_step. eapply wp_mono; [by eapply manager_clear_spec|]. intros r [h2 g2] o1 (-> & -> & ->). hp. by left.
  - hp. right. split_and!; [done..|]. exists F1. split; [|by apply Hall]. destruct Hb1. by split.
Qed.
End Manager.

(** ** What an operation leaves as it is *)

Section Stays.
Context {S B : Type} (f : S -> B).

Definition stays {A} (m : M S unit A) : Prop := forall s, match m s with Some (_, s', _) => f s' = f s | None => True end.

Lemma stays_ret {A} (a : A) : stays (mret a).
Proof. done. Qed.
Lemma stays_get : stays get.
Proof. done. Qed.
Lemma stays_lift {A} (x : option A) : stays (lift x).
Proof. intros s. by destruct x. Qed.
Lemma stays_bind {A C} (m : M S unit A) (k : A -> M S unit C) : stays m -> (forall a, stays (k a)) -> stays (m ≫= k).
Proof.
  intros Hm Hk s. specialize (Hm s). cbv [mbind M_bind option_bind]. destruct (m s) as [[[a s'] o]|]; [|done].
  specialize (Hk a s'). destruct (k a s') as [[[c s''] o']|]; [congruence|done].
Qed.
Lemma stays_for_all {A} (m : A -> M S unit unit) l : (forall k, stays (m k)) -> stays (for_all m l).
Proof. intros Hm. induction l as [|k l IH]; [apply stays_ret|]. apply stays_bind; [apply Hm|]. by intros []. Qed.
End Stays.

Section Inited.
Context `{!BufferTypes}.
Let flag (x : heap * CSVS_Mb_Buffer_Manager) : bool := m_inited x.2.
Let flag' (x : heap * (CSVS_Mb_Buffer_Manager * CSVS_Thread_Msg_Buffer_Manager)) : bool := m_inited x.2.1.

Lemma at_buffer_inited {A} k (m : bop A) : stays flag (at_buffer k m).
Proof.
  intros [h g]. unfold at_buffer. cbv [mbind option_bind]. destruct (mb_buff_ g !! k) as [t|]; [|done].
  by destruct (m (h, t)) as [[[a [h' t']] o]|].
Qed.
Lemma update_inited p u : stays flag (update p u).
Proof. apply stays_bind; [apply stays_bind; [done|intros; apply stays_lift]|]. by intros b [h g]. Qed.
Lemma split_inited fuel p m : stays flag (split_loop fuel p m).
Proof.
  revert p m. induction fuel as [|fuel IH]; intros [p|] m; try done. cbn [split_loop].
  apply stays_bind; [apply stays_bind; [done|intros; apply stays_lift]|]. intros b. case_bool_decide; [done|].
  apply stays_bind; [apply update_inited|]. intros _. apply IH.
Qed.
Lemma manager_free_inited p : stays flag (manager_free p).
Proof.
  destruct p as [p|]; [|done]. apply stays_bind; [done|]. intros fuel. apply stays_bind; [apply split_inited|]. intros m.
  apply stays_bind; [|done]. apply stays_for_all. intros k. destruct (m !! k) as [q|]; [|done].
  apply stays_bind; [apply at_buffer_inited|done].
Qed.
Lemma at_manager_inited p : stays flag' (at_manager (manager_free p)).
Proof.
  intros [h [g t]]. pose proof (manager_free_inited p (h, g)) as Hm. unfold at_manager. cbv [mbind option_bind].
  by destruct (manager_free p (h, g)) as [[[a [h' g']] o]|].
Qed.
Lemma clear_inited : stays flag' thread_clear.
Proof.
  apply stays_bind.
  - apply stays_for_all. intros k. apply stays_bind; [done|]. intros t. apply stays_bind; [|intros _; by intros [h [g u]]].
    destruct (free_msg_buffer_ t !! k); [|done]. apply stays_bind; [apply at_manager_inited|]. by intros _ [h [g u]].
  - intros _. apply stays_bind; [done|]. intros t. destruct (used_msg_buffer_ t); [|done].
    apply stays_bind; [apply at_manager_inited|]. by intros _ [h [g u]].
Qed.
End Inited.

(** ** All threads *)

(** Where a block is: free in a buffer, in a list of the [i]-th thread, or with a user. *)
Inductive place : Set := InBuffer (k : Z * Z) | InCache (i : nat) (k : Z * Z) | InUsed (i : nat) | Held.
#[export] Instance place_eq_dec : EqDecision place.
Proof. solve_decision. Defined.

Record system : Type := {
  s_heap : heap; s_manager : CSVS_Mb_Buffer_Manager; s_threads : list CSVS_Thread_Msg_Buffer_Manager; s_held : list Z }.
Definition set_held (l : list Z) (s : system) : system :=
  {| s_heap := s_heap s; s_manager := s_manager s; s_threads := s_threads s; s_held := l |}.

(** The system before [init]. *)
Definition system_new : system :=
  {| s_heap := ∅; s_manager := CSVS_Mb_Buffer_Manager_new; s_threads := []; s_held := [] |}.

(** A size is counted under an index of the table, and all sizes under an index come from one
    buffer, whose blocks have room for them. *)
Class BufferTypesLaws `{!BufferTypes} : Type := {
  slot_buffer : Z * Z -> Z * Z;
  size_slot : forall ty s, mb_size_to_len_type ty s <> MB_LEN_MAX_VALUE ->
    let k := slot_buffer (ty, mb_size_to_len_type ty s) in
    (ty, mb_size_to_len_type ty s) ∈ table /\ get_mb_buffer ty s = Some k /\ k ∈ table /\ s <= buffSize k.2 /\
    buffCount k.1 k.2 <> 0;
  count_fits : forall i j, 0 <= buffCount i j < 2 ^ 32 }.

Section System.
Context `{!BufferTypes}.

(** An operation of the [i]-th thread. *)
Definition at_thread {A} (i : nat) (m : thop A) (s : system) : option (A * system) :=
  t ← s_threads s !! i;
  '(a, (h, (g, t)), _) ← m (s_heap s, (s_manager s, t));
  Some (a, {| s_heap := h; s_manager := g; s_threads := <[i := t]> (s_threads s); s_held := s_held s |}).

(** A user has the blocks he was given, moves their pointers, and gives each back without
    a chain, to any thread. [SVS_Mb_Buffer_Info] he does not write. *)
Inductive step : system -> system -> Prop :=
| step_init nb news s r h g o : fresh news (s_heap s) -> manager_init nb news (s_heap s, s_manager s) = Some (r, (h, g), o) ->
    step s {| s_heap := h; s_manager := g; s_threads := s_threads s; s_held := s_held s |}
| step_thread s : step s {| s_heap := s_heap s; s_manager := s_manager s;
    s_threads := s_threads s ++ [CSVS_Thread_Msg_Buffer_Manager_new]; s_held := s_held s |}
| step_alloc i ty size s r s' : at_thread i (alloc_mb ty size) s = Some (r, s') ->
    step s (set_held (option_list r ++ s_held s') s')
| step_use p rd wr b s : p ∈ s_held s -> s_heap s !! p = Some b ->
    step s {| s_heap := <[p := set_ptrs rd wr b]> (s_heap s); s_manager := s_manager s; s_threads := s_threads s; s_held := s_held s |}
| step_free i p s s' : p ∈ s_held s -> at_thread i (free_mb (Some p)) s = Some (tt, s') ->
    step s (set_held (filter (fun q => q <> p) (s_held s')) s')
| step_exit i s s' : at_thread i thread_clear s = Some (tt, s') -> step s s'.

(** *** The account *)

Definition partition (L : place -> list Z) : Prop :=
  (forall p, NoDup (L p)) /\ (forall p q x, x ∈ L p -> x ∈ L q -> p = q).
Definition upd (p : place) (l : list Z) (L : place -> list Z) : place -> list Z := fun q => if decide (q = p) then l else L q.
Definition somewhere (L : place -> list Z) (x : Z) : Prop := exists p, x ∈ L p.

Lemma upd_eq p l L : upd p l L p = l.
Proof. unfold upd. by rewrite decide_True. Qed.
Lemma upd_ne p q l L : q <> p -> upd p l L q = L q.
Proof. intros Hne. unfold upd. by rewrite decide_False. Qed.

Lemma move_partition p q a b L : p <> q -> L p ≡ₚ a ++ b -> partition L ->
  let L' := upd p b (upd q (a ++ L q) L) in partition L' /\ forall x, somewhere L' x <-> somewhere L x.
Proof.
  intros Hne Hp [Hn Hd]. cbn zeta. set (L' := upd p b (upd q (a ++ L q) L)).
  assert (Ep : L' p = b) by apply upd_eq.
  assert (Eq : L' q = a ++ L q) by (unfold L'; rewrite upd_ne by done; apply upd_eq).
  assert (Eo : forall r, r <> p -> r <> q -> L' r = L r) by (intros r H1 H2; unfold L'; by rewrite !upd_ne).
  assert (Hab : NoDup (a ++ b)) by (rewrite <-Hp; apply Hn). apply NoDup_app in Hab as (Ha & Hdis & Hb).
  assert (Hin : forall x, x ∈ L p <-> x ∈ a \/ x ∈ b) by (intros x; by rewrite Hp, elem_of_app).
  (* where a block was *)
  assert (Hwas : forall r x, x ∈ L' r -> x ∈ L r \/ (r = q /\ x ∈ a)).
  { intros r x. destruct (decide (r = p)) as [->|H1]; [rewrite Ep; left; by apply Hin; right|].
    destruct (decide (r = q)) as [->|H2]; [rewrite Eq; set_solver|]. rewrite Eo by done. by left. }
  assert (Hp' : forall r x, x ∈ L' r -> x ∈ a -> r = q).
  { intros r x Hx Hxa. destruct (decide (r = q)) as [|H2]; [done|]. exfalso. destruct (decide (r = p)) as [->|H1].
    - rewrite Ep in Hx. by apply (Hdis x).
    - rewrite Eo in Hx by done. apply H1, (Hd r p x Hx). apply Hin. by left. }
  split; [split|].
  - intros r. destruct (decide (r = p)) as [->|H1]; [by rewrite Ep|]. destruct (decide (r = q)) as [->|H2]; [|by rewrite Eo].
    rewrite Eq. apply NoDup_app. split_and!; [done| |apply Hn]. intros x Hx Hx'. apply Hne, (Hd p q x); [|done]. apply Hin. by left.
  - intros r1 r2 x H1 H2. destruct (Hwas r1 x H1) as [G1|[-> G1]]; [|symmetry; by eapply Hp'].
    destruct (Hwas r2 x H2) as [G2|[-> G2]]; [by eapply Hd|by eapply Hp'].
  - intros x. split.
    + intros [r Hr]. destruct (Hwas r x Hr) as [H1|[_ H1]]; [by exists r|]. exists p. apply Hin. by left.
    + intros [r Hr]. destruct (decide (r = p)) as [->|H1].
      * apply Hin in Hr as [Hr|Hr]; [exists q; rewrite Eq|exists p; by rewrite Ep]. apply elem_of_app. by left.
      * destruct (decide (r = q)) as [->|H2]; [exists q; rewrite Eq; apply elem_of_app; by right|exists r; by rewrite Eo].
Qed.

Context `{!BufferTypesLaws}.

(** A block of one of the buffers. *)
Definition valid (b : block) : Prop :=
  home b ∈ table /\ buffCount (home b).1 (home b).2 <> 0 /\ b_size b = buffSize (home b).2 + sizeof_info /\
  exists k, home b = slot_buffer k.
Definition cached (k : Z * Z) (b : block) : Prop := home b = slot_buffer k /\ valid b /\ out_ok b.
Definition given_back (b : block) : Prop := valid b /\ b_next b = None /\ info_length b < MB_LEN_4K_BYTE.
Definition lent (b : block) : Prop := valid b /\ b_next b = None /\ b_cont b = None.

Record buffers_ok (h : heap) (g : CSVS_Mb_Buffer_Manager) (F : Z * Z -> list Z) : Prop := {
  bo_mem : buffers_mem h g F;
  bo_some : forall k t, mb_buff_ g !! k = Some t -> k ∈ table /\ buffCount k.1 k.2 <> 0 /\ inited_flag_ t = true /\
    mb_size_ t = buffSize k.2 + sizeof_info;
  bo_none : forall k, mb_buff_ g !! k = None -> F k = [];
  bo_all : m_inited g = true -> forall k, k ∈ table -> buffCount k.1 k.2 <> 0 -> is_Some (mb_buff_ g !! k);
  bo_blocks : forall k, each h (block_of k) (F k) }.

(** The lists of a thread: [C] are the blocks it has for each type and length, [U] those it will
    give back. *)
Record thread_ok (h : heap) (C : Z * Z -> list Z) (U : list Z) (t : CSVS_Thread_Msg_Buffer_Manager) : Prop := {
  to_chain : forall k, chain b_cont h (free_msg_buffer_ t !! k) (C k);
  to_cached : forall k, each h (cached k) (C k);
  to_few : forall k, zlen (C k) < SVS_ALLOC_MSG_BUFF_COUNT;
  to_table : forall k, C k <> [] -> k ∈ table;
  to_used : chain b_cont h (used_msg_buffer_ t) U;
  to_given : each h given_back U;
  to_count : used_msg_buffer_count_ t = zlen U;
  to_short : zlen U < SVS_FREE_MSG_BUFF_COUNT }.

Definition owner (p : place) : option nat := match p with InCache i _ | InUsed i => Some i | _ => None end.
Definition blocks_at (H : gmap Z (Z * Z * Z)) (k : Z * Z) : nat := size (filter (fun '(_, v) => v.1 = k) H).

(** [L] says where each block is. *)
Record account (L : place -> list Z) (s : system) : Prop := {
  ac_part : partition L;
  ac_dom : forall x, is_Some (s_heap s !! x) -> somewhere L x;
  ac_boot : m_inited (s_manager s) = false -> s_heap s = ∅ /\ s_manager s = CSVS_Mb_Buffer_Manager_new;
  ac_buffers : buffers_ok (s_heap s) (s_manager s) (fun k => L (InBuffer k));
  ac_threads : forall i t, s_threads s !! i = Some t -> thread_ok (s_heap s) (fun k => L (InCache i k)) (L (InUsed i)) t;
  ac_nothread : forall i p, s_threads s !! i = None -> owner p = Some i -> L p = [];
  ac_held : L Held = s_held s;
  ac_lent : each (s_heap s) lent (L Held);
  ac_total : m_inited (s_manager s) = true -> forall k, k ∈ table -> Z.of_nat (blocks_at (homes (s_heap s)) k) = buffCount k.1 k.2 }.

Lemma thread_ok_frame l h h' C U C' U' t : same_but l h h' -> (forall k x, x ∈ C k -> x ∉ l) -> (forall x, x ∈ U -> x ∉ l) ->
  (forall k, C' k = C k) -> U' = U -> thread_ok h C U t -> thread_ok h' C' U' t.
Proof.
  intros Hs HC HU EC -> [H1 H2 H3 H4 H5 H6 H7 H8]. split; try done; try (intros k; rewrite EC).
  - eapply chain_same; [exact Hs|apply HC|done].
  - eapply each_same; [exact Hs|apply HC|done].
  - done.
  - apply H4.
  - by eapply chain_same.
  - by eapply each_same.
Qed.

Lemma same_buffers_ok h g F h' g' F' : buffers_ok h g F -> same_buffers g g' -> buffers_mem h' g' F' ->
  (forall k, mb_buff_ g !! k = None -> F' k = []) -> (forall k, each h' (block_of k) (F' k)) -> buffers_ok h' g' F'.
Proof.
  intros [H1 H2 H3 H4 H5] (Hi & Hs & Hn) Hm HF Hb. split; [done| | | |done].
  - intros k t' Ht'. destruct (mb_buff_ g !! k) as [t|] eqn:Ht; [|rewrite (Hn k Ht) in Ht'; done].
    destruct (Hs k t Ht) as (t1 & Ht1 & E1 & E2). rewrite Ht' in Ht1. injection Ht1 as <-.
    destruct (H2 k t Ht) as (? & ? & ? & ?). split_and!; [done..|congruence|congruence].
  - intros k Hk. apply HF. destruct (mb_buff_ g !! k) as [t|] eqn:Ht; [|done]. destruct (Hs k t Ht) as (t1 & Ht1 & _). congruence.
  - intros Hin k Hk Hc. destruct (H4 ltac:(congruence) k Hk Hc) as [t Ht]. destruct (Hs k t Ht) as (t1 & -> & _). eauto.
Qed.

(** What the [i]-th thread does to the blocks [l]. *)
Lemma account_thread L s i t L' h' g' t' l : account L s -> s_threads s !! i = Some t ->
  same_but l (s_heap s) h' -> (forall x, x ∈ l -> exists p, x ∈ L p /\ forall j, owner p = Some j -> j = i) ->
  homes h' = homes (s_heap s) -> same_buffers (s_manager s) g' ->
  partition L' -> (forall x, somewhere L' x <-> somewhere L x) -> (forall p j, owner p = Some j -> j <> i -> L' p = L p) ->
  buffers_mem h' g' (fun k => L' (InBuffer k)) -> (forall k, mb_buff_ (s_manager s) !! k = None -> L' (InBuffer k) = []) ->
  (forall k, each h' (block_of k) (L' (InBuffer k))) ->
  thread_ok h' (fun k => L' (InCache i k)) (L' (InUsed i)) t' -> each h' lent (L' Held) ->
  account L' {| s_heap := h'; s_manager := g'; s_threads := <[i := t']> (s_threads s); s_held := L' Held |}.
Proof.
  intros [A1 A2 A3 A4 A5 A6 A7 A8 A9] Hi Hs Hl Hh Hg P1 P2 P3 B1 B2 B3 T1 E1. pose proof A1 as [_ Hd]. pose proof Hg as (Ei & _).
  assert (Hother : forall j p x, owner p = Some j -> j <> i -> x ∈ L p -> x ∉ l).
  { intros j p x Hp Hne Hx Hxl. destruct (Hl x Hxl) as (q & Hq & Ho). rewrite (Hd _ _ _ Hx Hq) in Hp. by apply Hne, Ho. }
  split; cbn [s_heap s_manager s_threads s_held]; try done.
  - intros x Hx. apply P2, A2. apply elem_of_dom. replace (dom (s_heap s)) with (dom h'); [by apply elem_of_dom|].
    apply (f_equal dom) in Hh. unfold homes in Hh. by rewrite !dom_fmap_L in Hh.
  - intros Hf. destruct (A3 ltac:(congruence)) as [E0 E1']. rewrite E0 in Hh. split.
    + apply map_eq. intros x. rewrite lookup_empty. apply (f_equal (lookup x)) in Hh. unfold homes in Hh.
      rewrite fmap_empty, lookup_empty, lookup_fmap in Hh. by destruct (h' !! x).
    + destruct Hg as (Hg1 & _ & Hg2). rewrite E1' in Hg2. destruct g' as [m b]. cbn in Hf, Hg2. subst b.
      unfold CSVS_Mb_Buffer_Manager_new. f_equal. apply map_eq. intros k. rewrite lookup_empty. apply Hg2. apply lookup_empty.
  - by eapply same_buffers_ok.
  - intros j tj Hj. destruct (decide (j = i)) as [->|Hne].
    + rewrite list_lookup_insert_eq in Hj by (by eapply lookup_lt_Some). by injection Hj as <-.
    + rewrite list_lookup_insert_ne in Hj by done. eapply thread_ok_frame; [exact Hs| | | | |by apply A5].
      * intros k x. by apply (Hother j).
      * intros x. by apply (Hother j).
      * intros k. by apply (P3 _ j).
      * by apply (P3 _ j).
  - intros j p Hj Hp. rewrite (P3 p j Hp) in *; [|intros ->; rewrite list_lookup_insert_eq in Hj by (by eapply lookup_lt_Some); done].
    destruct (decide (j = i)) as [->|Hne]; [rewrite list_lookup_insert_eq in Hj by (by eapply lookup_lt_Some); done|].
    rewrite list_lookup_insert_ne in Hj by done. by eapply A6.
  - intros Ht. rewrite Hh. apply A9. congruence.
Qed.

Lemma wp_at_manager {A} (m : mgop A) h g t (P : A -> heap * (CSVS_Mb_Buffer_Manager * CSVS_Thread_Msg_Buffer_Manager) -> list unit -> Prop) :
  wp m (fun a '(h', g') o => P a (h', (g', t)) o) (h, g) -> wp (at_manager m) P (h, (g, t)).
Proof.
  intros Hm. apply wp_elim in Hm as (a & [h' g'] & o & E & HP). eapply wp_intro; [|exact HP]. unfold at_manager. by rewrite E.
Qed.
Lemma wp_mine h g t (P : CSVS_Thread_Msg_Buffer_Manager -> heap * (CSVS_Mb_Buffer_Manager * CSVS_Thread_Msg_Buffer_Manager) -> list unit -> Prop) :
  P t (h, (g, t)) [] -> wp mine P (h, (g, t)).
Proof. intros HP. unfold mine. by hp. Qed.
Lemma wp_on_mine h g t f (P : unit -> heap * (CSVS_Mb_Buffer_Manager * CSVS_Thread_Msg_Buffer_Manager) -> list unit -> Prop) :
  P tt (h, (g, f t)) [] -> wp (on_mine f) P (h, (g, t)).
Proof. intros HP. unfold on_mine. by hp. Qed.

Lemma at_thread_wp {A} i (m : thop A) L s t (P : A -> heap * (CSVS_Mb_Buffer_Manager * CSVS_Thread_Msg_Buffer_Manager) -> list unit -> Prop) :
  account L s -> s_threads s !! i = Some t -> wp m P (s_heap s, (s_manager s, t)) ->
  exists a h g t' o, at_thread i m s = Some (a, {| s_heap := h; s_manager := g; s_threads := <[i := t']> (s_threads s); s_held := s_held s |}) /\
    P a (h, (g, t')) o.
Proof.
  intros _ Hi Hm. apply wp_elim in Hm as (a & [h [g t']] & o & E & HP). exists a, h, g, t', o. split; [|done].
  unfold at_thread. rewrite Hi. cbn [mbind option_bind]. by rewrite E.
Qed.

(** A pointer of an array. *)
Lemma put_ptr_lookup k k' p m : put_ptr k p m !! k' = if decide (k' = k) then p else m !! k'.
Proof.
  unfold put_ptr. destruct (decide (k' = k)) as [->|Hne]; [apply lookup_partial_alter_eq|by apply lookup_partial_alter_ne].
Qed.

Lemma used_set_used p n t : used_msg_buffer_ (set_used p n t) = p.
Proof. by destruct t. Qed.
Lemma count_set_used p n t : used_msg_buffer_count_ (set_used p n t) = n.
Proof. by destruct t. Qed.
Lemma free_set_used p n t : free_msg_buffer_ (set_used p n t) = free_msg_buffer_ t.
Proof. by destruct t. Qed.
Lemma free_set_free f t : free_msg_buffer_ (set_free f t) = f (free_msg_buffer_ t).
Proof. by destruct t. Qed.

(** The blocks a thread has for an index, or else those it gets. *)
Definition supply (C F : Z * Z -> list Z) (k : Z * Z) : list Z :=
  match C k with [] => take (Z.to_nat SVS_ALLOC_MSG_BUFF_COUNT) (F (slot_buffer k)) | l => l end.
Definition refilled (C F : Z * Z -> list Z) (k : Z * Z) : Z * Z -> list Z := fun k' =>
  match C k with
  | [] => if decide (k' = slot_buffer k) then drop (Z.to_nat SVS_ALLOC_MSG_BUFF_COUNT) (F k') else F k'
  | _ => F k'
  end.

Lemma refill_spec ty sz h g t C U F k : k = (ty, mb_size_to_len_type ty sz) -> mb_size_to_len_type ty sz <> MB_LEN_MAX_VALUE ->
  thread_ok h C U t -> buffers_ok h g F ->
  (forall k, NoDup (F k)) -> (forall k k' x, x ∈ F k -> x ∈ F k' -> k = k') -> C k = [] ->
  wp (p ← at_manager (manager_alloc ty sz SVS_ALLOC_MSG_BUFF_COUNT); on_mine (set_free (put_ptr k p)))
    (fun _ '(h', (g', t')) _ => let T := supply C F k in same_buffers g g' /\ same_but T h h' /\ homes h' = homes h /\
      buffers_mem h' g' (refilled C F k) /\ each h' (cached k) T /\
      (exists p, t' = set_free (put_ptr k p) t /\ chain b_cont h' p T)) (h, (g, t)).
Proof.
  intros -> Hlen HT HB Hn Hd HC. set (k := (ty, _)) in *. destruct (size_slot ty sz Hlen) as (Hk & Hget & Hk0 & Hsz & Hcnt).
  fold k in Hget, Hk0, Hsz, Hcnt. cbv zeta in *. unfold supply, refilled. rewrite HC. hp_step. apply wp_at_manager.
  eapply wp_mono; [eapply (manager_alloc_spec ty sz SVS_ALLOC_MSG_BUFF_COUNT h g F); [done|apply HB| |done]|].
  { intros k1 t1 Ht1. destruct (bo_some _ _ _ HB k1 t1 Ht1) as (_ & _ & Hi & _). split_and!; [done..|].
    eapply each_mono; [|apply (bo_blocks _ _ _ HB k1)]. by intros b (_ & _ & ?). }
  intros r [h1 g1] o. rewrite Hget. destruct (mb_buff_ g !! slot_buffer k) as [t0|] eqn:Ht0.
  - cbv zeta. intros (-> & Hg1 & Hc1 & Hs1 & Hh1 & Ho1 & Hm1). apply wp_on_mine. split_and!; [done..| | |].
    + intros k' t' Ht'. specialize (Hm1 k' t' Ht'). cbv beta in Hm1. by destruct (decide (k' = slot_buffer k)) as [->|].
    + apply Forall_forall. intros x Hx. destruct (each_in _ _ _ _ Ho1 Hx) as (b & Hb & Hout). exists b. split; [done|].
      apply elem_of_take in Hx as (n & Hx & _). apply list_elem_of_lookup_2 in Hx.
      destruct (each_in _ _ _ _ (bo_blocks _ _ _ HB _) Hx) as (b0 & Hb0 & Hh0 & Hs0 & _).
      destruct (homes_lookup _ _ _ _ Hh1 Hb0) as (b1 & Hb1 & Hh2 & Hs2). rewrite Hb in Hb1. injection Hb1 as <-.
      unfold cached, valid. rewrite Hh2, Hh0. split; [done|]. split; [|done]. split_and!; [done..|congruence|by exists k].
    + eexists. split; [done|done].
  - intros (-> & -> & ->). apply wp_on_mine. rewrite (bo_none _ _ _ HB _ Ht0). split_and!; try done.
    + apply same_buffers_refl.
    + intros k' t' Ht'. cbn. destruct (decide (k' = slot_buffer k)) as [->|]; [congruence|]. by apply HB.
    + by apply Forall_nil_2.
    + by exists None.
Qed.

(** The blocks of a thread and of the buffers are different blocks. *)
Record apart (C F : Z * Z -> list Z) (U : list Z) : Prop := {
  ap_free : forall k, NoDup (F k);
  ap_cache : forall k, NoDup (C k);
  ap_used : NoDup U;
  ap_FF : forall k k' x, x ∈ F k -> x ∈ F k' -> k = k';
  ap_CC : forall k k' x, x ∈ C k -> x ∈ C k' -> k = k';
  ap_FC : forall k k' x, x ∈ F k -> x ∉ C k';
  ap_FU : forall k x, x ∈ F k -> x ∉ U;
  ap_CU : forall k x, x ∈ C k -> x ∉ U }.

Lemma supply_in C F k x : x ∈ supply C F k -> x ∈ C k \/ x ∈ F (slot_buffer k).
Proof.
  unfold supply. destruct (C k) as [|y l]; [|by left]. intros (n & Hx & _)%elem_of_take. right. by eapply list_elem_of_lookup_2.
Qed.
Lemma supply_nodup C F U k : apart C F U -> NoDup (supply C F k).
Proof.
  intros Ha. unfold supply. destruct (C k) as [|y l] eqn:E; [|rewrite <-E; apply (ap_cache _ _ _ Ha)].
  eapply sublist_NoDup; [apply (ap_free _ _ _ Ha)|apply sublist_take].
Qed.

Lemma refilled_supply C F U k k' x : apart C F U -> x ∈ refilled C F k k' -> x ∉ supply C F k.
Proof.
  intros Ha Hx Hxt. unfold refilled in Hx. unfold supply in Hxt. destruct (C k) as [|y c] eqn:EC.
  - apply elem_of_take in Hxt as (n & Hxt & Hn). destruct (decide (k' = slot_buffer k)) as [->|Hne].
    + pose proof (ap_free _ _ _ Ha (slot_buffer k)) as Hnd. apply list_elem_of_lookup in Hx as (m & Hm). rewrite lookup_drop in Hm.
      pose proof (NoDup_lookup _ _ _ _ Hnd Hm Hxt). lia.
    + apply Hne, (ap_FF _ _ _ Ha _ _ x); [done|]. by eapply list_elem_of_lookup_2.
  - rewrite <-EC in Hxt. by apply (ap_FC _ _ _ Ha k' k x).
Qed.

(** The thread has its blocks [T] for the index, and gives the first. *)
Definition pop_first (k : Z * Z) : thop (option Z) :=
  t ← mine;
  match free_msg_buffer_ t !! k with
  | None => mret None
  | Some mb =>
    b ← deref mb;
    _ ← on_mine (set_free (put_ptr k (b_cont b)));
    _ ← update mb (set_cont None);
    _ ← on_mine (set_alloced k (fun n => s32 (n + 1)));
    mret (Some mb)
  end.

Lemma pop_spec k h g t T : chain b_cont h (free_msg_buffer_ t !! k) T -> NoDup T -> each h (cached k) T ->
  wp (pop_first k) (fun r '(h', (g', t')) _ => r = head T /\ g' = g /\ same_but T h h' /\ homes h' = homes h /\
    (exists p, (forall k', free_msg_buffer_ t' !! k' = put_ptr k p (free_msg_buffer_ t) !! k') /\ chain b_cont h' p (tail T)) /\
    used_msg_buffer_ t' = used_msg_buffer_ t /\ used_msg_buffer_count_ t' = used_msg_buffer_count_ t /\
    each h' (cached k) (tail T) /\
    (forall x, r = Some x -> exists b, h' !! x = Some b /\ lent b /\ idle b /\ home b = slot_buffer k)) (h, (g, t)).
Proof.
  intros Hc Hd He. unfold pop_first. hp_step. apply wp_mine. destruct T as [|x T].
  - cbn in Hc. rewrite Hc. hp. split_and!; try done. exists None. split; [|done]. intros k'. rewrite put_ptr_lookup. by destruct (decide _) as [->|].
  - destruct Hc as (-> & b & Hb & Hc). apply NoDup_cons in Hd as [Hx Hd]. apply Forall_cons in He as [(b0 & Hb0 & Hcx) He].
    rewrite Hb in Hb0. injection Hb0 as <-. cbn [app]. hp_step. hp_step. hp_step. apply wp_on_mine. hp_step. hp_step. hp_step. apply wp_on_mine.
    cbn [app]. hp. assert (Hs : same_but [x] h (<[x := set_cont None b]> h)) by (apply same_but_insert; set_solver).
    split_and!; try done.
    + by eapply same_but_mono; [exact Hs|set_solver].
    + by apply (homes_insert _ b); [|destruct b..].
    + exists (b_cont b). split; [intros k'; by destruct t|]. cbn [tail]. eapply chain_same; [exact Hs|set_solver|done].
    + by destruct t.
    + by destruct t.
    + cbn [tail]. eapply each_same; [exact Hs|set_solver|done].
    + intros y [= <-]. eexists. split; [apply lookup_insert_eq|]. destruct Hcx as (Hh & Hv & Hn & Hi).
      destruct b. unfold lent. cbn in *. by split_and!.
Qed.

(** The cache of a thread, filled from the buffer when it is empty. *)
Lemma fill_spec ty sz h g t C U F k : k = (ty, mb_size_to_len_type ty sz) -> mb_size_to_len_type ty sz <> MB_LEN_MAX_VALUE ->
  thread_ok h C U t -> buffers_ok h g F -> apart C F U ->
  wp (match free_msg_buffer_ t !! k with
      | Some _ => mret tt
      | None => p ← at_manager (manager_alloc ty sz SVS_ALLOC_MSG_BUFF_COUNT); on_mine (set_free (put_ptr k p))
      end) (fun _ '(h', (g', t')) _ => let T := supply C F k in same_buffers g g' /\ same_but T h h' /\ homes h' = homes h /\
      buffers_mem h' g' (refilled C F k) /\ each h' (cached k) T /\
      (exists p, t' = set_free (put_ptr k p) t /\ chain b_cont h' p T)) (h, (g, t)).
Proof.
  intros Ek Hlen HT HB Ha. assert (Hin : k ∈ table) by (rewrite Ek; by destruct (size_slot ty sz Hlen)).
  pose proof (to_chain _ _ _ _ HT k) as Hc. destruct (free_msg_buffer_ t !! k) as [p|] eqn:Ep.
  - hp. assert (Hne : C k <> []) by (intros E; by rewrite E in Hc). assert (supply C F k = C k) as -> by (unfold supply; by destruct (C k)).
    split_and!; [apply same_buffers_refl|done|done| |apply (to_cached _ _ _ _ HT)|].
    + intros k' t' Ht'. replace (refilled C F k k') with (F k') by (unfold refilled; by destruct (C k)). by apply HB.
    + exists (Some p). split; [|done]. destruct t as [m u n a]. cbn [set_free free_msg_buffer_] in *. f_equal. apply map_eq. intros k'.
      rewrite put_ptr_lookup. by destruct (decide _) as [->|].
  - apply chain_nil in Hc. eapply refill_spec; [done|done|exact HT|exact HB|apply (ap_free _ _ _ Ha)|apply (ap_FF _ _ _ Ha)|done].
Qed.

Lemma alloc_core ty sz h g t C U F k : k = (ty, mb_size_to_len_type ty sz) -> mb_size_to_len_type ty sz <> MB_LEN_MAX_VALUE ->
  thread_ok h C U t -> buffers_ok h g F -> apart C F U ->
  wp (alloc_mb ty sz) (fun r '(h', (g', t')) _ => let T := supply C F k in
    r = head T /\ same_buffers g g' /\ same_but T h h' /\ homes h' = homes h /\ buffers_mem h' g' (refilled C F k) /\
    thread_ok h' (fun k' => if decide (k' = k) then tail T else C k') U t' /\
    (forall x, r = Some x -> exists b, h' !! x = Some b /\ lent b /\ idle b /\ home b = slot_buffer k)) (h, (g, t)).
Proof.
  intros -> Hlen HT HB Ha. set (k := (ty, _)). unfold alloc_mb. fold k. replace (_ =? _) with false by lia.
  assert (Hin : k ∈ table) by (by destruct (size_slot ty sz Hlen)).
  hp_step. apply wp_mine. cbn [app]. hp_step.
  eapply wp_mono; [by eapply fill_spec|].
  intros [] [h1 [g1 t1]] o (Hg1 & Hs1 & Hh1 & Hm1 & He1 & p & -> & Hc1). cbv zeta in *.
  set (T := supply C F k) in *. fold (pop_first k).
  assert (Hdis : forall x, x ∈ T -> (forall k', k' <> k -> x ∉ C k') /\ x ∉ U).
  { intros x [Hx|Hx]%supply_in; split; try (intros k' Hne Hx'); try intros Hx'.
    - by apply Hne, (ap_CC _ _ _ Ha _ _ x).
    - by apply (ap_CU _ _ _ Ha k x).
    - by apply (ap_FC _ _ _ Ha (slot_buffer k) k' x).
    - by apply (ap_FU _ _ _ Ha (slot_buffer k) x). }
  eapply wp_mono; [eapply (pop_spec k h1 g1 _ T); [|by eapply supply_nodup|done]|].
  { replace (free_msg_buffer_ _ !! k) with p; [done|]. by rewrite free_set_free, put_ptr_lookup, decide_True. }
  intros r [h2 [g2 t2]] o2 (-> & -> & Hs2 & Hh2 & (q & Hq & Hc2) & Eu & En & He2 & Hr2).
  assert (Hs : same_but T h h2) by (by eapply same_but_trans).
  destruct HT as [T1 T2 T3 T4 T5 T6 T7 T8]. split_and!; [done|done|done|congruence| | |done].
  - intros k' t' Ht'. eapply buffer_mem_same; [exact Hs2| |by apply Hm1]. intros x Hx Hxt.
    by apply (refilled_supply _ _ _ _ _ _ Ha Hx).
  - assert (Hlt : zlen (tail T) < SVS_ALLOC_MSG_BUFF_COUNT).
    { unfold T, supply. specialize (T3 k). destruct (C k) as [|y c].
      - pose proof (firstn_le_length (Z.to_nat SVS_ALLOC_MSG_BUFF_COUNT) (F (slot_buffer k))) as Hle. revert Hle.
        unfold SVS_ALLOC_MSG_BUFF_COUNT, zlen. destruct (take _ _); cbn [length tail]; lia.
      - unfold zlen in *. cbn [tail length] in *. lia. }
    split.
    + intros k'. rewrite Hq, put_ptr_lookup. destruct (decide (k' = k)) as [->|Hne]; [done|].
      replace (free_msg_buffer_ (set_free (put_ptr k p) t) !! k') with (free_msg_buffer_ t !! k') by (by rewrite free_set_free, put_ptr_lookup, decide_False).
      eapply chain_same; [exact Hs| |apply T1]. intros x Hx Hxt. by apply (Hdis x) in Hx.
    + intros k'. destruct (decide (k' = k)) as [->|Hne]; [done|]. eapply each_same; [exact Hs| |apply T2]. intros x Hx Hxt. by apply (Hdis x) in Hx.
    + intros k'. by destruct (decide (k' = k)) as [->|Hne].
    + intros k'. destruct (decide (k' = k)) as [->|Hne]; [done|apply T4].
    + rewrite Eu. replace (used_msg_buffer_ (set_free _ t)) with (used_msg_buffer_ t) by (by destruct t).
      eapply chain_same; [exact Hs| |done]. intros x Hx Hxt. by apply (Hdis x Hxt).
    + eapply each_same; [exact Hs| |done]. intros x Hx Hxt. by apply (Hdis x Hxt).
    + rewrite En, <-T7. by destruct t.
    + done.
Qed.

Lemma account_apart L i : partition L -> apart (fun k => L (InCache i k)) (fun k => L (InBuffer k)) (L (InUsed i)).
Proof.
  intros [Hn Hd]. split; try (intros; apply Hn); try done; [| |intros k k' x H1 H2|intros k x H1 H2|intros k x H1 H2];
    try (intros k k' x H1 H2); by pose proof (Hd _ _ _ H1 H2) as E; (discriminate E || injection E).
Qed.

Lemma refilled_none h g C F k : buffers_ok h g F -> forall k', mb_buff_ g !! k' = None -> refilled C F k k' = [].
Proof.
  intros HB k' Hk'. unfold refilled. rewrite (bo_none _ _ _ HB k' Hk'). rewrite drop_nil. destruct (C k); [|done]. by destruct (decide _).
Qed.

(** Blocks that are in no list stay as they are in the heap. *)
Lemma each_refilled h h' g C F U k : buffers_ok h g F -> apart C F U -> same_but (supply C F k) h h' ->
  forall k', each h' (block_of k') (refilled C F k k').
Proof.
  intros HB Ha Hs k'. eapply (each_same (supply C F k) h h'); [exact Hs| |].
  - intros x. by eapply refilled_supply.
  - unfold refilled. pose proof (bo_blocks _ _ _ HB k') as Hb. destruct (C k); [|done]. destruct (decide _); [|done].
    apply Forall_forall. intros x Hx. eapply each_in; [exact Hb|]. apply list_elem_of_lookup in Hx as (m & Hm). rewrite lookup_drop in Hm.
    by eapply list_elem_of_lookup_2.
Qed.

(** Where the blocks are when the thread has its supply. *)
Definition refill (i : nat) (k : Z * Z) (L : place -> list Z) : place -> list Z :=
  match L (InCache i k) with
  | [] => let F := L (InBuffer (slot_buffer k)) in let n := Z.to_nat SVS_ALLOC_MSG_BUFF_COUNT in
    upd (InBuffer (slot_buffer k)) (drop n F) (upd (InCache i k) (take n F ++ L (InCache i k)) L)
  | _ => L
  end.

Lemma refill_partition i k L : partition L -> partition (refill i k L) /\ (forall x, somewhere (refill i k L) x <-> somewhere L x).
Proof.
  intros Hp. unfold refill. destruct (L (InCache i k)) eqn:E; [|done]. cbv zeta. rewrite <-E.
  apply move_partition; [done|by rewrite take_drop|done].
Qed.
Lemma refill_cache i k L : refill i k L (InCache i k) = supply (fun k => L (InCache i k)) (fun k => L (InBuffer k)) k.
Proof.
  unfold refill, supply. destruct (L (InCache i k)) eqn:E; [|done]. cbv zeta. rewrite upd_ne, upd_eq by done. by rewrite app_nil_r.
Qed.
Lemma refill_buffer i k L k' : refill i k L (InBuffer k') = refilled (fun k => L (InCache i k)) (fun k => L (InBuffer k)) k k'.
Proof.
  unfold refill, refilled. destruct (L (InCache i k)) eqn:E; [|done]. cbv zeta. destruct (decide (k' = slot_buffer k)) as [->|Hne].
  - by rewrite upd_eq.
  - rewrite !upd_ne; [done|done|congruence].
Qed.
Lemma refill_other i k L p : p <> InCache i k -> (forall k', p <> InBuffer k') -> refill i k L p = L p.
Proof. intros H1 H2. unfold refill. destruct (L (InCache i k)); [|done]. cbv zeta. by rewrite !upd_ne. Qed.

Lemma invalid_size ty sz s i t : s_threads s !! i = Some t -> mb_size_to_len_type ty sz = MB_LEN_MAX_VALUE ->
  at_thread i (alloc_mb ty sz) s = Some (None, s).
Proof.
  intros Hi E. unfold at_thread. rewrite Hi. cbn [mbind option_bind]. unfold alloc_mb. rewrite E. cbn [Z.eqb MB_LEN_MAX_VALUE Pos.eqb mret M_ret].
  destruct s as [h g ths l]. cbn. by rewrite list_insert_id.
Qed.

Lemma alloc_account L s i t ty sz : account L s -> s_threads s !! i = Some t -> mb_size_to_len_type ty sz <> MB_LEN_MAX_VALUE ->
  let k := (ty, mb_size_to_len_type ty sz) in
  let T := supply (fun k => L (InCache i k)) (fun k => L (InBuffer k)) k in
  exists s' L', at_thread i (alloc_mb ty sz) s = Some (head T, s') /\ s_held s' = s_held s /\
    account L' (set_held (option_list (head T) ++ s_held s) s') /\
    forall x, head T = Some x -> x ∉ s_held s /\ exists b, s_heap s' !! x = Some b /\ lent b /\ idle b /\ home b = slot_buffer k.
Proof.
  intros HA Hi Hlen k T. pose proof HA as [A1 A2 A3 A4 A5 A6 A7 A8 A9]. pose proof (account_apart L i A1) as Hap.
  destruct (at_thread_wp i (alloc_mb ty sz) L s t _ HA Hi (alloc_core ty sz _ _ _ _ _ _ k eq_refl Hlen (A5 i t Hi) A4 Hap))
    as (r & h' & g' & t' & o & E & (-> & Hg & Hs & Hh & Hm & HT & Hr)). cbv zeta in *. fold T in E, Hs, HT, Hr.
  destruct (refill_partition i k L A1) as [P1 P2]. pose proof (refill_cache i k L) as Ec. fold T in Ec.
  assert (Hheld : refill i k L Held = s_held s) by (rewrite refill_other; done).
  assert (Hl : forall x, x ∈ T -> exists p, x ∈ L p /\ forall j, owner p = Some j -> j = i).
  { intros x [Hx|Hx]%supply_in; [by exists (InCache i k); split; [|intros j [= ->]]|by exists (InBuffer (slot_buffer k))]. }
  assert (HeH : each h' lent (L Held)).
  { eapply each_same; [exact Hs| |done]. intros x Hx Hxt. destruct A1 as [_ Hd]. apply supply_in in Hxt as [Hxt|Hxt];
      by pose proof (Hd _ _ _ Hx Hxt). }
  pose proof (each_refilled _ _ _ _ _ _ k A4 Hap Hs) as Hrb. pose proof (refilled_none _ _ (fun k => L (InCache i k)) _ k A4) as Hrn.
  destruct T as [|x c] eqn:ET; cbn [head tail option_list app] in *.
  - eexists _, (refill i k L). split; [exact E|]. split; [done|]. split; [|done].
    unfold set_held. cbn. rewrite <-Hheld. eapply (account_thread L s i t _ _ _ _ [] HA Hi Hs Hl Hh Hg P1 P2).
    + intros p j Hp Hne. apply refill_other; [|by intros k' ->]. intros ->. cbn in Hp. congruence.
    + intros k' t0 Ht0. rewrite refill_buffer. by apply Hm.
    + intros k' Hk'. rewrite refill_buffer. by apply Hrn.
    + intros k'. rewrite refill_buffer. apply Hrb.
    + eapply (thread_ok_frame [] h' h'); [done|by intros ? ? ? ?%elem_of_nil|by intros ? ? ?%elem_of_nil| |by apply refill_other|exact HT].
      intros k'. cbn. destruct (decide (k' = k)) as [->|Hne]; [done|]. apply refill_other; [congruence|done].
    + by rewrite Hheld, <-A7.
  - set (L1 := refill i k L) in *.
    destruct (move_partition (InCache i k) Held [x] c L1) as [Q1 Q2]; [done|by rewrite Ec|done|].
    cbv zeta in *. set (L' := upd (InCache i k) c (upd Held ([x] ++ L1 Held) L1)) in *.
    assert (EH : L' Held = x :: s_held s) by (unfold L'; rewrite upd_ne, upd_eq by done; cbn; by rewrite Hheld).
    assert (Eo : forall p, p <> InCache i k -> p <> Held -> L' p = L1 p) by (intros p N1 N2; unfold L'; by rewrite !upd_ne).
    assert (Ek : L' (InCache i k) = c) by (unfold L'; by rewrite upd_eq).
    eexists _, L'. split; [exact E|]. split; [done|]. split.
    + unfold set_held. cbn. rewrite <-EH. eapply (account_thread L s i t _ _ _ _ (x :: c) HA Hi Hs Hl Hh Hg Q1).
      * intros y. by rewrite Q2, P2.
      * intros p j Hp Hne. rewrite Eo; [|intros ->; cbn in Hp; congruence|by intros ->].
        apply refill_other; [|by intros k' ->]. intros ->. cbn in Hp. congruence.
      * intros k' t0 Ht0. rewrite Eo by done. unfold L1. rewrite refill_buffer. by apply Hm.
      * intros k' Hk'. rewrite Eo by done. unfold L1. rewrite refill_buffer. by apply Hrn.
      * intros k'. rewrite Eo by done. unfold L1. rewrite refill_buffer. apply Hrb.
      * eapply (thread_ok_frame [] h' h'); [done|by intros ? ? ? ?%elem_of_nil|by intros ? ? ?%elem_of_nil| | |exact HT].
        -- intros k'. cbn. destruct (decide (k' = k)) as [->|Hne]; [done|]. rewrite Eo by (done || congruence).
           apply refill_other; [congruence|done].
        -- rewrite Eo by done. by apply refill_other.
      * rewrite EH. apply Forall_cons. split; [|by rewrite <-A7]. destruct (Hr x eq_refl) as (b & Hb & Hlent & _). by exists b.
    + intros y [= <-]. split; [|by apply Hr]. rewrite <-A7. intros Hx. destruct (Hl x) as (p & Hp & _); [set_solver|].
      destruct Q1 as [Qn _]. specialize (Qn Held). rewrite EH, <-A7 in Qn. by apply NoDup_cons in Qn as [? _].
Qed.

(** *** Blocks are given back *)

(** The blocks of a list go to their buffers. *)
Definition spread (p : place) (H : gmap Z (Z * Z * Z)) (L : place -> list Z) : place -> list Z := fun q =>
  match q with
  | InBuffer k => at_home H k (L p) ++ L q
  | _ => if decide (q = p) then [] else L q
  end.

Lemma spread_partition p Hm L : (forall k, p <> InBuffer k) -> partition L ->
  partition (spread p Hm L) /\ forall x, somewhere (spread p Hm L) x <-> somewhere L x.
Proof.
  intros Hp [Hn Hd].
  assert (Hin : forall q x, x ∈ spread p Hm L q -> (q <> p /\ x ∈ L q) \/ (x ∈ L p /\ q = InBuffer (home_of Hm x))).
  { intros q x. destruct q as [k| | |]; cbn; try (destruct (decide _); [by intros ?%elem_of_nil|by left]).
    intros [[<- Hx]%at_home_in|Hx]%elem_of_app; [by right|left]. split; [|done]. intros <-. by apply (Hp k). }
  split; [split|].
  - intros q. destruct q as [k| | |]; cbn; try (destruct (decide _); [by apply NoDup_nil_2|apply Hn]).
    apply NoDup_app. split_and!; [by apply NoDup_filter| |apply Hn]. intros x [_ Hx]%at_home_in Hx'. by apply (Hp k), (Hd _ _ x).
  - intros q r x H1%Hin H2%Hin. destruct H1 as [[N1 H1]|[H1 ->]], H2 as [[N2 H2]|[H2 ->]]; [by eapply Hd| | |done].
    + by destruct (N1 (Hd _ _ _ H1 H2)).
    + by destruct (N2 (Hd _ _ _ H2 H1)).
  - intros x. split; [intros [q [[_ Hq]|[Hq _]]%Hin]; by eexists|]. intros [q Hq]. destruct (decide (q = p)) as [->|Hne].
    + exists (InBuffer (home_of Hm x)). cbn. apply elem_of_app. left. by apply at_home_in.
    + exists q. destruct q as [k| | |]; cbn; [apply elem_of_app; by right|by rewrite decide_False..].
Qed.

Lemma housed_valid h g F l (Q : block -> Prop) : buffers_ok h g F -> m_inited g = true -> (forall b, Q b -> valid b) ->
  each h Q l -> housed h g l.
Proof.
  intros HB Hi HQ. apply each_mono. intros b (Ht & Hc & Hs & _)%HQ. split; [done|].
  destruct (bo_all _ _ _ HB Hi _ Ht Hc) as [t Hbt]. exists t. split; [done|]. destruct (bo_some _ _ _ HB _ _ Hbt) as (_ & _ & _ & ->). done.
Qed.

(** The blocks that come back to a buffer are blocks of it. *)
Lemma spread_blocks h h' g F (Q : block -> Prop) l : buffers_ok h g F -> (forall b, Q b -> valid b) -> each h Q l -> same_but l h h' ->
  homes h' = homes h -> each h' free_ok l -> (forall k x, x ∈ F k -> x ∉ l) ->
  forall k, each h' (block_of k) (at_home (homes h) k l ++ F k).
Proof.
  intros HB HQ Hl Hs Hh Hf Hd k. apply Forall_app. split.
  - apply Forall_forall. intros x [Hk Hx]%at_home_in. destruct (each_in _ _ _ _ Hl Hx) as (b & Hb & (_ & _ & Hsz & _)%HQ).
    rewrite (home_of_lookup h x b Hb) in Hk. destruct (homes_lookup _ _ _ _ Hh Hb) as (b' & Hb' & Hh' & Hs').
    exists b'. split; [done|]. destruct (each_in _ _ _ _ Hf Hx) as (b1 & Hb1 & Hf1). rewrite Hb' in Hb1. injection Hb1 as <-.
    split; [congruence|]. split; [congruence|exact Hf1].
  - eapply each_same; [exact Hs|apply Hd|apply (bo_blocks _ _ _ HB)].
Qed.

Definition flushes (U : list Z) (b : block) : bool := (SVS_FREE_MSG_BUFF_COUNT <=? zlen U + 1) || (MB_LEN_4K_BYTE <=? info_length b).

(** [p] is put in front of the blocks that wait. *)
Lemma link_spec h (g : CSVS_Mb_Buffer_Manager) t U p b : chain b_cont h (used_msg_buffer_ t) U -> h !! p = Some b -> b_next b = None ->
  b_cont b = None -> p ∉ U ->
  wp (match used_msg_buffer_ t with None => mret tt | Some u => update p (set_cont (Some u)) end) (fun _ '(h1, x) _ => x = (g, t) /\
    same_but [p] h h1 /\ homes h1 = homes h /\ chain b_cont h1 (Some p) (p :: U) /\
    exists b1, h1 !! p = Some b1 /\ home b1 = home b /\ b_size b1 = b_size b /\ b_next b1 = None) (h, (g, t)).
Proof.
  intros Hc Hb Hn Hct Hu. destruct U as [|u U].
  - cbn in Hc. rewrite Hc. hp. split_and!; [done..| |by exists b]. split; [done|]. exists b. by rewrite Hct.
  - assert (Hs : same_but [p] h (<[p := set_cont (Some u) b]> h)) by (apply same_but_insert; set_solver).
    assert (Hc1 : chain b_cont (<[p := set_cont (Some u) b]> h) (used_msg_buffer_ t) (u :: U)) by (eapply chain_same; [exact Hs|set_solver|exact Hc]).
    destruct Hc as [-> _], Hc1 as [_ Hc1]. hp. split_and!; try done.
    + by apply (homes_insert _ b); [|destruct b..].
    + split; [done|]. eexists. split; [apply lookup_insert_eq|]. destruct b. by split.
    + eexists. split; [apply lookup_insert_eq|]. by destruct b.
Qed.

(** The lists of a thread where other blocks changed and [U'] waits. *)
Lemma thread_ok_used h h' C U U' t t' l : thread_ok h C U t -> same_but l h h' -> (forall k x, x ∈ C k -> x ∉ l) ->
  free_msg_buffer_ t' = free_msg_buffer_ t -> chain b_cont h' (used_msg_buffer_ t') U' -> each h' given_back U' ->
  used_msg_buffer_count_ t' = zlen U' -> zlen U' < SVS_FREE_MSG_BUFF_COUNT -> thread_ok h' C U' t'.
Proof.
  intros [T1 T2 T3 T4 T5 T6 T7 T8] Hs Hd Ef. split; try done.
  - intros k. rewrite Ef. eapply chain_same; [exact Hs|apply Hd|apply T1].
  - intros k. eapply each_same; [exact Hs|apply Hd|apply T2].
Qed.

Lemma buffers_ok_same h h' g F l : buffers_ok h g F -> same_but l h h' -> (forall k x, x ∈ F k -> x ∉ l) -> buffers_ok h' g F.
Proof.
  intros HB Hs Hd. eapply same_buffers_ok; [exact HB|apply same_buffers_refl| |apply HB|].
  - intros k t0 Ht0. eapply buffer_mem_same; [exact Hs|apply Hd|by apply HB].
  - intros k. eapply each_same; [exact Hs|apply Hd|apply HB].
Qed.

Lemma free_core h g t C U F p b : thread_ok h C U t -> buffers_ok h g F -> m_inited g = true -> apart C F U ->
  h !! p = Some b -> lent b -> p ∉ U -> (forall k, p ∉ C k) -> (forall k, p ∉ F k) ->
  wp (free_mb (Some p)) (fun _ '(h', (g', t')) _ => same_buffers g g' /\ same_but (p :: U) h h' /\ homes h' = homes h /\
    thread_ok h' C (if flushes U b then [] else p :: U) t' /\
    buffers_mem h' g' (fun k => (if flushes U b then at_home (homes h) k (p :: U) else []) ++ F k) /\
    each h' free_ok (if flushes U b then p :: U else [])) (h, (g, t)).
Proof.
  intros HT HB Hi Ha Hb (Hv & Hnx & Hct) Hu HpC HpF. pose proof HT as [_ _ _ _ T5 T6 T7 T8].
  assert (HCd : forall k x, x ∈ C k -> x ∉ p :: U).
  { intros k x Hx [->|Hx']%elem_of_cons; [by apply (HpC k)|by apply (ap_CU _ _ _ Ha k x)]. }
  unfold free_mb. hp_step. apply wp_mine. cbn [app]. hp_step.
  eapply wp_mono; [by eapply link_spec|]. intros [] [h1 x] o (-> & Hs1 & Hh1 & Hch & b1 & Hb1 & Eh & Esz & En).
  pose proof (buffers_ok_same h h1 g F [p] HB Hs1 ltac:(intros k x Hx ->%list_elem_of_singleton; by apply (HpF k))) as HB1.
  hp_step. apply wp_on_mine. cbn [app]. hp_step. hp_step.
  rewrite Eh, bool_decide_eq_false_2 by (destruct Hv as [Hin _]; by intros Hn). hp_step. apply wp_on_mine. cbn [app]. hp_step. apply wp_mine. cbn [app].
  set (t1 := set_alloced _ _ _).
  assert (En1 : used_msg_buffer_count_ t1 = zlen (p :: U)).
  { unfold t1. destruct t as [m u n a]. cbn in T7 |- *. rewrite T7. unfold u32, wrap. unfold SVS_FREE_MSG_BUFF_COUNT in T8.
    pose proof (zlen_nonneg U). rewrite Z.mod_small; unfold zlen in *; cbn [length]; lia. }
  assert (Eu1 : used_msg_buffer_ t1 = Some p) by (by destruct t). assert (Ef1 : free_msg_buffer_ t1 = free_msg_buffer_ t) by (by destruct t).
  assert (Ei : info_length b1 = info_length b) by (unfold home in Eh; congruence).
  assert (Hv1 : valid b1) by (unfold valid; by rewrite Eh, Esz).
  assert (Hcond : (SVS_FREE_MSG_BUFF_COUNT <=? used_msg_buffer_count_ t1) || (MB_LEN_4K_BYTE <=? info_length b1) = flushes U b).
  { unfold flushes. rewrite En1, Ei. f_equal. f_equal. unfold zlen. cbn [length]. lia. }
  assert (HU1 : each h1 given_back U) by (eapply each_same; [exact Hs1|set_solver|exact T6]).
  rewrite Hcond. destruct (flushes U b) eqn:Efl.
  - hp_step. apply wp_at_manager. rewrite Eu1. eapply wp_mono; [eapply (manager_free_spec h1 g (Some p) (p :: U) F Hch)|].
    + apply NoDup_cons. split; [done|apply (ap_used _ _ _ Ha)].
    + done.
    + apply (housed_valid h1 g F _ valid HB1 Hi); [done|]. apply Forall_cons. split; [by exists b1|]. eapply each_mono; [|exact HU1]. by intros ? [? _].
    + apply HB1.
    + intros k x [->|Hx]%elem_of_cons; [done|]. intros HxF. by apply (ap_FU _ _ _ Ha k x).
    + intros r [h2 g2] o2 (Hg2 & Hs2 & Hh2 & Hf2 & Hm2). apply wp_on_mine.
      assert (Hs : same_but (p :: U) h h2) by (eapply same_but_trans; [eapply same_but_mono; [exact Hs1|set_solver]|done]).
      split_and!; [done|done|congruence| |by rewrite <-Hh1|done].
      eapply thread_ok_used; [exact HT|exact Hs|exact HCd|by rewrite free_set_used|done|by apply Forall_nil_2|done|done].
  - hp. unfold flushes in Efl. apply orb_false_iff in Efl as [Ez El].
    split_and!; [apply same_buffers_refl|eapply same_but_mono; [exact Hs1|set_solver]|done| |apply HB1|by apply Forall_nil_2].
    eapply thread_ok_used; [exact HT|exact Hs1|intros k x Hx ?; apply (HCd k x Hx); set_solver|done|by rewrite Eu1| |done|unfold zlen in *; cbn [length]; lia].
    apply Forall_cons. split; [|done]. exists b1. split; [done|]. unfold given_back. rewrite Ei. split; [done|]. split; [done|lia].
Qed.

(** *** Steps of the account *)

Lemma account_inited L s x : account L s -> x ∈ L Held -> m_inited (s_manager s) = true.
Proof.
  intros HA Hx. destruct (m_inited _) eqn:E; [done|]. destruct (ac_boot _ _ HA E) as [E0 _].
  destruct (each_in _ _ _ _ (ac_lent _ _ HA) Hx) as (b & Hb & _). by rewrite E0, lookup_empty in Hb.
Qed.

Lemma filter_out (p : Z) l : NoDup l -> p ∈ l -> l ≡ₚ [p] ++ filter (fun q => q <> p) l.
Proof.
  intros Hn Hp. apply NoDup_Permutation; [done| |].
  - cbn. apply NoDup_cons. split; [|by apply NoDup_filter]. rewrite list_elem_of_filter. by intros [? _].
  - intros x. cbn. rewrite elem_of_cons, list_elem_of_filter. destruct (decide (x = p)) as [->|]; naive_solver.
Qed.

(** A null pointer of the manager has no block to get. *)
Lemma spread_none h g F l : buffers_ok h g F -> m_inited g = true -> each h valid l ->
  forall k, mb_buff_ g !! k = None -> at_home (homes h) k l ++ F k = [].
Proof.
  intros HB Hi Hl k Hk. rewrite (bo_none _ _ _ HB k Hk), app_nil_r. apply elem_of_nil_inv. intros x [Hx Hxl]%at_home_in.
  destruct (each_in _ _ _ _ Hl Hxl) as (b & Hb & Ht & Hc & _). rewrite (home_of_lookup _ _ _ Hb) in Hx. subst k.
  destruct (bo_all _ _ _ HB Hi _ Ht Hc) as [? Hsome]. by rewrite Hk in Hsome.
Qed.

Lemma free_account L s i t p : account L s -> s_threads s !! i = Some t -> p ∈ s_held s ->
  exists s' L', at_thread i (free_mb (Some p)) s = Some (tt, s') /\
    account L' (set_held (filter (fun q => q <> p) (s_held s')) s').
Proof.
  intros HA Hi Hp. pose proof HA as [A1 A2 A3 A4 A5 A6 A7 A8 A9]. pose proof (account_apart L i A1) as Hap. pose proof A1 as [An Ad].
  assert (HpH : p ∈ L Held) by (by rewrite A7).
  destruct (each_in _ _ _ _ A8 HpH) as (b & Hb & Hlb). pose proof (account_inited L s p HA HpH) as Hin.
  destruct (at_thread_wp i (free_mb (Some p)) L s t _ HA Hi (free_core _ _ _ _ _ _ p b (A5 i t Hi) A4 Hin Hap Hb Hlb
    ltac:(intros Hx; by pose proof (Ad _ _ _ HpH Hx)) ltac:(intros k Hx; by pose proof (Ad _ _ _ HpH Hx))
    ltac:(intros k Hx; by pose proof (Ad _ _ _ HpH Hx)))) as ([] & h' & g' & t' & o & E & (Hg & Hs & Hh & HT & Hm & Hf)).
  set (U := L (InUsed i)) in *. set (R := filter (fun q => q <> p) (L Held)).
  destruct (move_partition Held (InUsed i) [p] R L) as [P1 P2]; [done|by apply filter_out|done|]. cbv zeta in *.
  set (L1 := upd Held R (upd (InUsed i) ([p] ++ L (InUsed i)) L)) in *.
  assert (E1 : L1 (InUsed i) = p :: U) by (unfold L1; rewrite upd_ne, upd_eq; done).
  assert (EH : L1 Held = R) by (apply upd_eq).
  assert (Eo : forall q, q <> Held -> q <> InUsed i -> L1 q = L q) by (intros q N1 N2; unfold L1; by rewrite !upd_ne).
  assert (Hl : forall x, x ∈ p :: U -> exists q, x ∈ L q /\ forall j, owner q = Some j -> j = i).
  { intros x [->|Hx]%elem_of_cons; [by exists Held|]. exists (InUsed i). split; [done|]. by intros j [= ->]. }
  assert (HUR : forall x, x ∈ R -> x ∉ p :: U).
  { intros x [Hne Hx]%list_elem_of_filter [->|Hx']%elem_of_cons; [done|]. by pose proof (Ad _ _ _ Hx Hx'). }
  assert (HeR : each h' lent R).
  { eapply each_same; [exact Hs|exact HUR|]. apply Forall_forall. intros x [_ Hx]%list_elem_of_filter. by eapply each_in. }
  assert (HFd : forall k x, x ∈ L (InBuffer k) -> x ∉ p :: U).
  { intros k x Hx [->|Hx']%elem_of_cons; [by pose proof (Ad _ _ _ HpH Hx)|by pose proof (Ad _ _ _ Hx Hx')]. }
  assert (HvU : each (s_heap s) valid (p :: U)).
  { apply Forall_cons. split; [exists b; split; [done|apply Hlb]|]. eapply each_mono; [|apply (to_given _ _ _ _ (A5 i t Hi))]. by intros ? [? _]. }
  pose proof (spread_none _ _ _ _ A4 Hin HvU) as Hnone.
  eexists _. destruct (flushes U b) eqn:Efl.
  - destruct (spread_partition (InUsed i) (homes (s_heap s)) L1) as [Q1 Q2]; [done|done|].
    set (L2 := spread (InUsed i) (homes (s_heap s)) L1) in *.
    assert (E2 : forall k, L2 (InBuffer k) = at_home (homes (s_heap s)) k (p :: U) ++ L (InBuffer k)).
    { intros k. unfold L2, spread. by rewrite E1, Eo. }
    assert (E3 : L2 Held = R) by (unfold L2, spread; by rewrite decide_False).
    exists L2. split; [exact E|]. unfold set_held. cbn [s_heap s_manager s_threads s_held]. rewrite <-A7. fold R. rewrite <-E3.
    eapply (account_thread L s i t _ _ _ _ (p :: U) HA Hi Hs Hl Hh Hg Q1).
    + intros x. by rewrite Q2, P2.
    + intros q j Hq Hne. unfold L2, spread. destruct q as [k|j' k|j'|]; [done|..|done]; injection Hq as ->.
      * rewrite decide_False by congruence. apply Eo; [done|congruence].
      * rewrite decide_False by congruence. apply Eo; [done|congruence].
    + intros k t0 Ht0. rewrite E2. by apply Hm.
    + intros k Hk. rewrite E2. by apply Hnone.
    + intros k. rewrite E2. by apply (spread_blocks _ _ _ _ valid _ A4).
    + eapply (thread_ok_frame [] h' h'); [done|by intros ? ? ? ?%elem_of_nil|by intros ? ? ?%elem_of_nil| | |exact HT].
      * intros k. unfold L2, spread. rewrite decide_False by done. by apply Eo.
      * unfold L2, spread. by rewrite decide_True.
    + by rewrite E3.
  - exists L1. split; [exact E|]. unfold set_held. cbn [s_heap s_manager s_threads s_held]. rewrite <-A7. fold R. rewrite <-EH.
    eapply (account_thread L s i t _ _ _ _ (p :: U) HA Hi Hs Hl Hh Hg P1 P2).
    + intros q j Hq Hne. apply Eo; intros ->; [done|]. cbn in Hq. congruence.
    + intros k t0 Ht0. rewrite Eo by done. by apply Hm.
    + intros k Hk. rewrite Eo by done. by apply (bo_none _ _ _ A4).
    + intros k. rewrite Eo by done. eapply each_same; [exact Hs|apply HFd|apply (bo_blocks _ _ _ A4)].
    + eapply (thread_ok_frame [] h' h'); [done|by intros ? ? ? ?%elem_of_nil|by intros ? ? ?%elem_of_nil| | |exact HT].
      * intros k. by apply Eo.
      * done.
    + by rewrite EH.
Qed.

(** *** The end of a thread *)

Definition sys_at (s : system) (i : nat) (h : heap) (g : CSVS_Mb_Buffer_Manager) (t : CSVS_Thread_Msg_Buffer_Manager) : system :=
  {| s_heap := h; s_manager := g; s_threads := <[i := t]> (s_threads s); s_held := s_held s |}.

Lemma heap_inited L s x b : account L s -> s_heap s !! x = Some b -> m_inited (s_manager s) = true.
Proof.
  intros HA Hx. destruct (m_inited _) eqn:E; [done|]. destruct (ac_boot _ _ HA E) as [E0 _]. by rewrite E0, lookup_empty in Hx.
Qed.

(** The list [p] of the thread goes to the buffers. *)
Lemma return_spec L s i h g t p ptr (Q : block -> Prop) t' : (i < length (s_threads s))%nat -> account L (sys_at s i h g t) ->
  owner p = Some i -> L p <> [] -> chain b_cont h ptr (L p) -> each h Q (L p) -> (forall b, Q b -> valid b) ->
  (forall h', same_but (L p) h h' -> thread_ok h' (fun k => spread p (homes h) L (InCache i k)) (spread p (homes h) L (InUsed i)) t') ->
  wp (manager_free ptr) (fun _ '(h', g') _ => account (spread p (homes h) L) (sys_at s i h' g' t')) (h, g).
Proof.
  intros Hlen HA Hp Hne Hc HQ HQv HT. pose proof HA as [A1 A2 A3 A4 A5 A6 A7 A8 A9]. cbn [sys_at s_heap s_manager s_threads s_held] in *.
  pose proof A1 as [An Ad]. assert (Hi : <[i := t]> (s_threads s) !! i = Some t) by (by apply list_lookup_insert_eq).
  destruct (L p) as [|x l] eqn:El; [done|]. rewrite <-El in *.
  assert (Hin : m_inited g = true).
  { destruct (each_in _ _ _ x HQ) as (b & Hb & _); [rewrite El; set_solver|]. by apply (heap_inited L (sys_at s i h g t) x b HA). }
  assert (HpB : forall k, p <> InBuffer k) by (by intros k ->). assert (HpH : p <> Held) by (by intros ->).
  assert (HFd : forall k y, y ∈ L (InBuffer k) -> y ∉ L p) by (intros k y Hy Hy'; by apply (HpB k); symmetry; eapply Ad).
  eapply wp_mono; [eapply (manager_free_spec h g ptr (L p) (fun k => L (InBuffer k))); [done|apply An|by rewrite El|by eapply housed_valid|apply A4|]|].
  { intros k y Hy Hy'. by apply (HFd k y). }
  intros r [h1 g1] o (Hg & Hs & Hh & Hf & Hm). destruct (spread_partition p (homes h) L HpB A1) as [Q1 Q2].
  set (L2 := spread p (homes h) L) in *.
  assert (E2 : forall k, L2 (InBuffer k) = at_home (homes h) k (L p) ++ L (InBuffer k)) by done.
  assert (E3 : L2 Held = L Held) by (unfold L2, spread; by rewrite decide_False).
  replace (sys_at s i h1 g1 t') with (
    {| s_heap := h1; s_manager := g1; s_threads := <[i := t']> (<[i := t]> (s_threads s)); s_held := L2 Held |}) by
    (unfold sys_at; by rewrite list_insert_insert_eq, E3, A7).
  eapply (account_thread L (sys_at s i h g t) i t L2 h1 g1 t' (L p) HA Hi Hs); cbn [sys_at s_heap s_manager s_threads s_held]; try done.
  - intros y Hy. exists p. split; [done|]. intros j Hj. congruence.
  - intros q j Hq Hne'. unfold L2, spread. destruct q as [k|j' k|j'|]; [done|..|done]; (rewrite decide_False; [done|intros <-; congruence]).
  - intros k Hk. rewrite E2, (bo_none _ _ _ A4 k Hk), app_nil_r. apply elem_of_nil_inv. intros y [Hy Hyl]%at_home_in.
    destruct (each_in _ _ _ _ HQ Hyl) as (b' & Hb' & (Ht' & Hc' & _)%HQv). rewrite (home_of_lookup _ _ _ Hb') in Hy. subst k.
    destruct (bo_all _ _ _ A4 Hin _ Ht' Hc') as [? Hsome]. by rewrite Hk in Hsome.
  - intros k. rewrite E2. by apply (spread_blocks _ _ _ _ Q _ A4).
  - by apply HT.
  - rewrite E3. eapply each_same; [exact Hs| |done]. intros y Hy Hy'. by apply HpH; symmetry; eapply Ad.
Qed.

(** What [thread_ok] depends on. *)
Lemma thread_ok_ext h C U t t' : (forall k, free_msg_buffer_ t' !! k = free_msg_buffer_ t !! k) ->
  used_msg_buffer_ t' = used_msg_buffer_ t -> used_msg_buffer_count_ t' = used_msg_buffer_count_ t -> thread_ok h C U t -> thread_ok h C U t'.
Proof. intros E1 E2 E3 [? ? ? ? ? ? ? ?]. split; try done; [intros k; by rewrite E1|by rewrite E2|by rewrite E3]. Qed.

Lemma account_ext L s i h g t t' : (i < length (s_threads s))%nat -> (forall k, free_msg_buffer_ t' !! k = free_msg_buffer_ t !! k) ->
  used_msg_buffer_ t' = used_msg_buffer_ t -> used_msg_buffer_count_ t' = used_msg_buffer_count_ t ->
  account L (sys_at s i h g t) -> account L (sys_at s i h g t').
Proof.
  intros Hlen E1 E2 E3 [A1 A2 A3 A4 A5 A6 A7 A8 A9]. split; try done; cbn [sys_at s_heap s_manager s_threads s_held] in *.
  - intros j tj. destruct (decide (j = i)) as [->|Hne].
    + rewrite list_lookup_insert_eq by done. intros [= <-]. eapply thread_ok_ext; [exact E1|exact E2|exact E3|].
      apply A5. by apply list_lookup_insert_eq.
    + rewrite list_lookup_insert_ne by done. intros Hj. apply A5. by rewrite list_lookup_insert_ne.
  - intros j p Hj. apply A6. destruct (decide (j = i)) as [->|Hne]; [by rewrite list_lookup_insert_eq in Hj|].
    by rewrite list_lookup_insert_ne in Hj |- *.
Qed.

Lemma some_chain link h x l : chain link h (Some x) l -> l <> [].
Proof. by destruct l. Qed.

Lemma clear_lists_spec ks L s i h g t : (i < length (s_threads s))%nat -> account L (sys_at s i h g t) ->
  wp (for_all (fun k =>
        t ← mine;
        _ ← match free_msg_buffer_ t !! k with
            | None => mret tt
            | Some p => _ ← at_manager (manager_free (Some p)); on_mine (set_free (delete k))
            end;
        on_mine (set_alloced k (fun _ => 0))) ks)
    (fun _ '(h', (g', t')) _ => exists L', account L' (sys_at s i h' g' t') /\
      forall k, L' (InCache i k) = if bool_decide (k ∈ ks) then [] else L (InCache i k)) (h, (g, t)).
Proof.
  revert L h g t. induction ks as [|k ks IH]; intros L h g t Hlen HA; cbn [for_all].
  { hp. exists L. by split. }
  assert (HT : thread_ok h (fun k => L (InCache i k)) (L (InUsed i)) t).
  { apply (ac_threads _ _ HA). cbn. by apply list_lookup_insert_eq. }
  hp_step. apply wp_bind, wp_mine. cbn [app].
  eapply (wp_mono _ (fun _ '(h', (g', t')) _ => exists L', account L' (sys_at s i h' g' t') /\
    forall k', L' (InCache i k') = if decide (k' = k) then [] else L (InCache i k'))).
  - hp_step. pose proof (to_chain _ _ _ _ HT k) as Hc. destruct (free_msg_buffer_ t !! k) as [p|] eqn:Ep.
    + assert (Hk : L (InCache i k) <> []) by (by eapply some_chain). hp_step. apply wp_at_manager.
      pose proof (ac_part _ _ HA) as [_ Hd].
      eapply wp_mono; [eapply (return_spec L s i h g t (InCache i k) (Some p) (cached k) (set_alloced k (fun _ => 0) (set_free (delete k) t)));
        [done..|apply (to_cached _ _ _ _ HT)|by intros b (_ & Hv & _)|]|].
      * intros h' Hs. destruct HT as [T1 T2 T3 T4 T5 T6 T7 T8].
        assert (HC : forall k' x, k' <> k -> x ∈ L (InCache i k') -> x ∉ L (InCache i k)).
        { intros k' x Hne Hx Hx'. pose proof (Hd _ _ _ Hx Hx') as E. injection E. done. }
        assert (HU : forall x, x ∈ L (InUsed i) -> x ∉ L (InCache i k)) by (intros x Hx Hx'; by pose proof (Hd _ _ _ Hx Hx')).
        assert (Es : forall k', spread (InCache i k) (homes h) L (InCache i k') = if decide (k' = k) then [] else L (InCache i k')).
        { intros k'. unfold spread. destruct (decide (k' = k)) as [->|Hne]; [by rewrite decide_True|]. by rewrite decide_False by congruence. }
        split; try (intros k'; rewrite Es); try (replace (spread _ _ _ (InUsed i)) with (L (InUsed i)) by (unfold spread; by rewrite decide_False)).
        -- replace (free_msg_buffer_ (set_alloced _ _ _)) with (delete k (free_msg_buffer_ t)) by (by destruct t).
           destruct (decide (k' = k)) as [->|Hne]; [by rewrite lookup_delete_eq|]. rewrite lookup_delete_ne by done.
           eapply chain_same; [exact Hs|intros x; by apply HC|apply T1].
        -- destruct (decide (k' = k)) as [->|Hne]; [by apply Forall_nil_2|]. eapply each_same; [exact Hs|intros x; by apply HC|apply T2].
        -- by destruct (decide (k' = k)).
        -- destruct (decide (k' = k)); [done|apply T4].
        -- replace (used_msg_buffer_ _) with (used_msg_buffer_ t) by (by destruct t). by eapply chain_same.
        -- by eapply each_same.
        -- rewrite <-T7. by destruct t.
        -- done.
      * intros r [h1 g1] o HA1. apply wp_on_mine. cbn [app]. apply wp_on_mine. eexists. split; [exact HA1|].
        intros k'. unfold spread. destruct (decide (k' = k)) as [->|Hne]; [by rewrite decide_True|]. by rewrite decide_False by congruence.
    + apply chain_nil in Hc. hp_step. apply wp_on_mine. exists L. split; [by apply (account_ext L s i h g t)|].
      intros k'. by destruct (decide (k' = k)) as [->|].
  - intros [] [h1 [g1 t1]] o (L1 & HA1 & E1). eapply wp_mono; [by eapply IH|]. intros [] [h2 [g2 t2]] o2 (L2 & HA2 & E2).
    exists L2. split; [done|]. intros k'. rewrite E2, E1. destruct (decide (k' = k)) as [->|Hne].
    + rewrite (bool_decide_eq_true_2 (k ∈ k :: ks)) by set_solver. by destruct (bool_decide _).
    + by rewrite (bool_decide_ext (k' ∈ k :: ks) (k' ∈ ks)) by set_solver.
Qed.

Lemma clear_account L s i t : account L s -> s_threads s !! i = Some t ->
  exists s' L', at_thread i thread_clear s = Some (tt, s') /\ account L' s' /\ s_held s' = s_held s /\
    length (s_threads s') = length (s_threads s) /\ forall p, owner p = Some i -> L' p = [].
Proof.
  intros HA Hi. pose proof (lookup_lt_Some _ _ _ Hi) as Hlen.
  assert (HA0 : account L (sys_at s i (s_heap s) (s_manager s) t)).
  { destruct s as [h g ths l]. unfold sys_at. cbn in *. by rewrite list_insert_id. }
  assert (H1 : wp thread_clear (fun _ '(h', (g', t')) _ => exists L', account L' (sys_at s i h' g' t') /\
    forall p, owner p = Some i -> L' p = []) (s_heap s, (s_manager s, t))).
  { unfold thread_clear. hp_step. eapply wp_mono; [by eapply clear_lists_spec|]. intros [] [h1 [g1 t1]] o (L1 & HA1 & E1).
    assert (HT : thread_ok h1 (fun k => L1 (InCache i k)) (L1 (InUsed i)) t1).
    { apply (ac_threads _ _ HA1). cbn. by apply list_lookup_insert_eq. }
    assert (EC : forall k, L1 (InCache i k) = []).
    { intros k. rewrite E1. case_bool_decide as Hk; [done|]. destruct (L (InCache i k)) as [|x l] eqn:El; [done|].
      destruct Hk. apply (to_table _ _ _ _ (ac_threads _ _ HA i t Hi)). by rewrite El. }
    hp_step. apply wp_mine. cbn [app]. pose proof (to_used _ _ _ _ HT) as Hc. destruct (used_msg_buffer_ t1) as [p|] eqn:Ep.
    - hp_step. apply wp_at_manager.
      assert (Ed : forall k, spread (InUsed i) (homes h1) L1 (InCache i k) = []) by (intros k; unfold spread; by rewrite decide_False, EC).
      assert (Eu : spread (InUsed i) (homes h1) L1 (InUsed i) = []) by (unfold spread; by rewrite decide_True).
      eapply wp_mono; [eapply (return_spec L1 s i h1 g1 t1 (InUsed i) (Some p) given_back (set_used None 0 t1));
        [done|done|done|by eapply some_chain|done|apply (to_given _ _ _ _ HT)|by intros b [Hv _]|]|].
      + intros h' Hs. destruct HT as [T1 T2 T3 T4 T5 T6 T7 T8]. rewrite Eu. split; try (intros k; rewrite Ed).
        * specialize (T1 k). rewrite EC in T1. by rewrite free_set_used.
        * by apply Forall_nil_2.
        * done.
        * done.
        * by rewrite used_set_used.
        * by apply Forall_nil_2.
        * by rewrite count_set_used.
        * done.
      + intros r [h2 g2] o2 HA2. apply wp_on_mine. eexists. split; [exact HA2|].
        intros [k|j k|j|] E; try done; injection E as ->; [apply Ed|apply Eu].
    - hp. exists L1. split; [done|]. intros [k|j k|j|] E; try done; injection E as ->; [apply EC|by eapply chain_nil]. }
  destruct (at_thread_wp i thread_clear L s t _ HA Hi H1) as ([] & h' & g' & t' & o & E & L' & HA' & HL').
  eexists _, L'. split; [exact E|]. split; [exact HA'|]. split; [done|]. split; [cbn [s_threads]; by rewrite length_insert|done].
Qed.

(** *** The other steps *)

Lemma blocks_at_length M k l : NoDup l -> (forall x, x ∈ l <-> exists v, M !! x = Some v /\ v.1 = k) -> blocks_at M k = length l.
Proof.
  intros Hl Hin. unfold blocks_at. rewrite <-(size_list_to_set (C := gset Z) l Hl), <-size_dom. f_equal.
  apply set_eq. intros x. rewrite elem_of_list_to_set, Hin, elem_of_dom. split.
  - intros [v Hv]. apply map_lookup_filter_Some in Hv as [Hv He]. by exists v.
  - intros (v & Hv & He). exists v. by apply map_lookup_filter_Some.
Qed.

Lemma each_empty Q l : each ∅ Q l -> l = [].
Proof. destruct l as [|x l]; [done|]. intros [(b & Hb & _) _]%Forall_cons. by rewrite lookup_empty in Hb. Qed.

Lemma init_account L s nb news r h g o : account L s -> fresh news (s_heap s) ->
  manager_init nb news (s_heap s, s_manager s) = Some (r, (h, g), o) ->
  exists L', account L' {| s_heap := h; s_manager := g; s_threads := s_threads s; s_held := s_held s |}.
Proof.
  intros HA Hn E. destruct (m_inited (s_manager s)) eqn:Ei.
  { exists L. unfold manager_init in E. cbv [this get mbind M_bind option_bind mret M_ret] in E. cbn in E. rewrite Ei in E. cbn in E.
    injection E as _ <- <- _. by destruct s. }
  destruct (ac_boot _ _ HA Ei) as [E0 E1]. rewrite E0, E1 in *. pose proof (manager_init_spec count_fits nb news Hn) as Hw.
  unfold wp in Hw. rewrite E in Hw. destruct Hw as [(-> & -> & ->)|(-> & Hin & F & HB & HF)].
  { exists L. destruct s. cbn in *. by subst. }
  destruct HA as [A1 A2 A3 A4 A5 A6 A7 A8 A9]. rewrite E0 in *.
  assert (EC : forall i t, s_threads s !! i = Some t -> (forall k, L (InCache i k) = []) /\ L (InUsed i) = []).
  { intros i t Hi. destruct (A5 i t Hi) as [T1 T2 T3 T4 T5 T6 T7 T8]. split; [intros k|]; by eapply each_empty. }
  set (L' := fun p => match p with InBuffer k => F k | _ => [] end). exists L'.
  assert (Hbk : forall k t, mb_buff_ g !! k = Some t -> k ∈ table /\ buffCount k.1 k.2 <> 0 /\ inited_flag_ t = true /\
    mb_size_ t = buffSize k.2 + sizeof_info /\ buffer_mem h t (F k)).
  { intros k t Ht. destruct (boot_mem _ _ _ HB k t Ht) as [_ Hk]. rewrite Forall_forall in HF. specialize (HF k Hk). unfold booted in HF.
    destruct (buffCount k.1 k.2 =? 0) eqn:Ec; [congruence|]. destruct HF as (t' & Ht' & ? & ? & ? & ?). rewrite Ht in Ht'. injection Ht' as <-.
    split_and!; [done|lia|done..]. }
  split; cbn [s_heap s_manager s_threads s_held].
  - split.
    + intros [k| | |]; cbn; [apply (boot_nodup _ _ _ HB)|by apply NoDup_nil_2..].
    + intros [k| | |] [k'| | |] x; cbn; try (by intros ?%elem_of_nil); try (by intros _ ?%elem_of_nil). intros H1 H2. f_equal. by eapply boot_disjoint.
  - intros x Hx. destruct (boot_dom _ _ _ HB x Hx) as (k & Hk). by exists (InBuffer k).
  - congruence.
  - split.
    + intros k t Ht. by apply Hbk.
    + intros k t Ht. destruct (Hbk k t Ht) as (? & ? & ? & ? & _). done.
    + apply (boot_none _ _ _ HB).
    + intros _ k Hk Hc. rewrite Forall_forall in HF. specialize (HF k Hk). unfold booted in HF.
      replace (buffCount k.1 k.2 =? 0) with false in HF by lia. destruct HF as (t & Ht & _). eauto.
    + apply (boot_blocks _ _ _ HB).
  - intros i t Hi. destruct (EC i t Hi) as [EC1 EC2]. destruct (A5 i t Hi) as [T1 T2 T3 T4 T5 T6 T7 T8]. rewrite EC2 in *. cbn.
    split; try done; try (intros k; specialize (T1 k); by rewrite EC1 in T1); by intros; apply Forall_nil_2.
  - by intros i [k| | |] Hi Hp.
  - cbn. rewrite <-A7. symmetry. by eapply each_empty.
  - by apply Forall_nil_2.
  - intros _ k Hk. rewrite (blocks_at_length _ _ (F k) (boot_nodup _ _ _ HB k)).
    + rewrite Forall_forall in HF. specialize (HF k Hk). unfold booted in HF. destruct (buffCount k.1 k.2 =? 0) eqn:Ec.
      * rewrite (boot_none _ _ _ HB k HF). cbn. lia.
      * by destruct HF as (t & _ & _ & _ & _ & ?).
    + intros x. unfold homes. split.
      * intros Hx. destruct (each_in _ _ _ _ (boot_blocks _ _ _ HB k) Hx) as (b & Hb & Hh & _). eexists. rewrite lookup_fmap, Hb. by split.
      * intros (v & Hv & Hh). rewrite lookup_fmap in Hv. destruct (h !! x) as [b|] eqn:Hb; [|done]. injection Hv as <-. cbn in Hh.
        destruct (boot_dom _ _ _ HB x) as (k' & Hk'); [by rewrite Hb|].
        destruct (each_in _ _ _ _ (boot_blocks _ _ _ HB k') Hk') as (b' & Hb' & Hh' & _). congruence.
Qed.

Lemma use_account L s p rd wr b : account L s -> p ∈ s_held s -> s_heap s !! p = Some b ->
  account L {| s_heap := <[p := set_ptrs rd wr b]> (s_heap s); s_manager := s_manager s; s_threads := s_threads s; s_held := s_held s |}.
Proof.
  intros HA Hp Hb. pose proof HA as [A1 A2 A3 A4 A5 A6 A7 A8 A9]. pose proof A1 as [_ Hd]. rewrite <-A7 in Hp.
  assert (Hs : same_but [p] (s_heap s) (<[p := set_ptrs rd wr b]> (s_heap s))) by (apply same_but_insert; set_solver).
  assert (Hh : homes (<[p := set_ptrs rd wr b]> (s_heap s)) = homes (s_heap s)) by (apply (homes_insert _ b); by destruct b).
  assert (Ho : forall q x, q <> Held -> x ∈ L q -> x ∉ [p]) by (intros q x Hne Hx ->%list_elem_of_singleton; by apply Hne, (Hd _ _ p)).
  split; cbn [s_heap s_manager s_threads s_held]; try done.
  - intros x Hx. apply A2. destruct (decide (x = p)) as [->|Hne]; [by rewrite Hb|]. by rewrite lookup_insert_ne in Hx.
  - intros Hf. by rewrite (heap_inited L s p b HA Hb) in Hf.
  - destruct A4 as [B1 B2 B3 B4 B5]. split; try done.
    + intros k t Ht. eapply buffer_mem_same; [exact Hs|intros x; by apply Ho|by apply B1].
    + intros k. eapply each_same; [exact Hs|intros x; by apply Ho|apply B5].
  - intros i t Hi. eapply (thread_ok_frame _ _ _ (fun k => L (InCache i k)) (L (InUsed i))); [exact Hs|intros k x; by apply Ho|intros x; by apply Ho|done|done|by apply A5].
  - apply Forall_forall. intros x Hx. destruct (each_in _ _ _ _ A8 Hx) as (b0 & Hb0 & H0'). destruct (decide (x = p)) as [->|Hne].
    + exists (set_ptrs rd wr b). rewrite lookup_insert_eq. split; [done|]. rewrite Hb in Hb0. injection Hb0 as <-. by destruct b.
    + exists b0. by rewrite lookup_insert_ne.
  - intros Ht k Hk. rewrite Hh. by apply A9.
Qed.

Lemma thread_account L s : account L s -> account L {| s_heap := s_heap s; s_manager := s_manager s;
  s_threads := s_threads s ++ [CSVS_Thread_Msg_Buffer_Manager_new]; s_held := s_held s |}.
Proof.
  intros [A1 A2 A3 A4 A5 A6 A7 A8 A9]. split; cbn [s_heap s_manager s_threads s_held]; try done.
  - intros i t Hi. apply lookup_app_Some in Hi as [Hi|[Hle Hi]]; [by apply A5|].
    apply list_lookup_singleton_Some in Hi as [Hz <-]. assert (Hnone : s_threads s !! i = None) by (apply lookup_ge_None_2; lia).
    assert (EC : forall k, L (InCache i k) = []) by (intros k; by apply (A6 i)). assert (EU : L (InUsed i) = []) by (by apply (A6 i)).
    rewrite EU. split; try done; try (intros k; rewrite EC); try done; try (by apply Forall_nil_2).
  - intros i p Hi. apply A6. apply lookup_ge_None in Hi. apply lookup_ge_None_2. rewrite length_app in Hi. cbn in Hi. lia.
Qed.

Lemma start_account : account (fun _ => []) system_new.
Proof.
  split; cbn [system_new s_heap s_manager s_threads s_held]; try done; try (by apply Forall_nil_2).
  - split; [intros; by apply NoDup_nil_2|by intros p q x ?%elem_of_nil].
  - intros x Hx. rewrite lookup_empty in Hx. by destruct Hx.
  - split; try done; try (intros k t Ht; cbn in Ht; by rewrite lookup_empty in Ht). intros; by apply Forall_nil_2.
Qed.

Lemma step_account s s' : step s s' -> forall L, account L s -> exists L', account L' s'.
Proof.
  intros Hst L HA. destruct Hst as [nb news s r h g o Hn E|s|i ty sz s r s' E|p rd wr b s Hp Hb|i p s s' Hp E|i s s' E].
  - by eapply init_account.
  - eexists. by apply thread_account.
  - destruct (s_threads s !! i) as [t|] eqn:Hi; [|unfold at_thread in E; by rewrite Hi in E].
    destruct (decide (mb_size_to_len_type ty sz = MB_LEN_MAX_VALUE)) as [Em|Em].
    + rewrite (invalid_size ty sz s i t Hi Em) in E. injection E as <- <-. exists L. by destruct s.
    + destruct (alloc_account L s i t ty sz HA Hi Em) as (s1 & L1 & E1 & Eh & HA1 & _). rewrite E in E1. injection E1 as -> ->.
      exists L1. by rewrite Eh.
  - eexists. by apply use_account.
  - destruct (s_threads s !! i) as [t|] eqn:Hi; [|unfold at_thread in E; by rewrite Hi in E].
    destruct (free_account L s i t p HA Hi Hp) as (s1 & L1 & E1 & HA1). rewrite E in E1. injection E1 as ->. by exists L1.
  - destruct (s_threads s !! i) as [t|] eqn:Hi; [|unfold at_thread in E; by rewrite Hi in E].
    destruct (clear_account L s i t HA Hi) as (s1 & L1 & E1 & HA1 & _). rewrite E in E1. injection E1 as ->. by exists L1.
Qed.

Definition reachable (s : system) : Prop := rtc step system_new s.

Lemma reachable_account s : reachable s -> exists L, account L s.
Proof.
  intros Hs. assert (Hgen : forall s0, rtc step s0 s -> (exists L, account L s0) -> exists L, account L s).
  { clear Hs. intros s0 Hr. induction Hr as [|a b c Hab Hbc IH]; [done|]. intros [L HL]. apply IH. by eapply step_account. }
  eapply Hgen; [exact Hs|]. eexists. apply start_account.
Qed.
(** *** What a thread changes *)

Lemma at_thread_others {A} i (m : thop A) s a s' j : at_thread i m s = Some (a, s') -> j <> i ->
  s_threads s' !! j = s_threads s !! j.
Proof.
  intros E Hne. unfold at_thread in E. cbv [mbind option_bind] in E. destruct (s_threads s !! i) as [t|]; [|done].
  destruct (m _) as [[[b [h [g t']]] o]|]; [|done]. injection E as _ <-. cbn [s_threads]. by apply list_lookup_insert_ne.
Qed.

(** Once [init] was done it stays done, for a thread does not [clear] the manager. *)
Lemma at_thread_inited {A} i (m : thop A) s a s' : stays (fun x => m_inited x.2.1) m -> at_thread i m s = Some (a, s') ->
  m_inited (s_manager s') = m_inited (s_manager s).
Proof.
  intros Hk E. unfold at_thread in E. cbv [mbind option_bind] in E. destruct (s_threads s !! i) as [t|]; [|done].
  specialize (Hk (s_heap s, (s_manager s, t))). destruct (m _) as [[[b [h [g t']]] o]|]; [|done]. by injection E as _ <-.
Qed.

(** The threads below [n] end. *)
Fixpoint exit_all (n : nat) (s : system) : option system :=
  match n with
  | O => Some s
  | S n => s ← exit_all n s; '(_, s) ← at_thread n thread_clear s; Some s
  end.

Lemma idle_thread L s i t : account L s -> s_threads s !! i = Some t ->
  (forall p, owner p = Some i -> L p = []) <-> (forall k, free_msg_buffer_ t !! k = None) /\ used_msg_buffer_ t = None.
Proof.
  intros HA Hi. pose proof (ac_threads _ _ HA i t Hi) as HT. split.
  - intros Hp. split; [intros k; pose proof (to_chain _ _ _ _ HT k) as Hc|pose proof (to_used _ _ _ _ HT) as Hc]; cbv beta in Hc; by rewrite Hp in Hc.
  - intros [Hk Hu] [k|j k|j|] Ho; try done; injection Ho as ->; eapply chain_nil.
    + rewrite <-(Hk k). apply (to_chain _ _ _ _ HT).
    + rewrite <-Hu. apply (to_used _ _ _ _ HT).
Qed.

Lemma exit_all_spec L s n : account L s -> (n <= length (s_threads s))%nat ->
  exists s' L', exit_all n s = Some s' /\ account L' s' /\ s_held s' = s_held s /\ length (s_threads s') = length (s_threads s) /\
    m_inited (s_manager s') = m_inited (s_manager s) /\ forall i p, (i < n)%nat -> owner p = Some i -> L' p = [].
Proof.
  intros HA. induction n as [|n IH]; intros Hn; cbn [exit_all].
  { exists s, L. split_and!; try done. intros i p Hi. lia. }
  destruct IH as (s1 & L1 & -> & HA1 & Eh & El & Em & Hc); [lia|]. cbn [mbind option_bind].
  destruct (lookup_lt_is_Some_2 (s_threads s1) n) as [t Ht]; [lia|].
  destruct (clear_account L1 s1 n t HA1 Ht) as (s2 & L2 & E & HA2 & Eh2 & El2 & Hc2). rewrite E. cbn [mbind option_bind].
  exists s2, L2. split_and!; [done|done|congruence|congruence| |].
  - rewrite <-Em. by eapply at_thread_inited; [apply clear_inited|].
  - intros i p Hi Ho. destruct (decide (i = n)) as [->|Hne]; [by apply Hc2|].
    pose proof (at_thread_others n thread_clear s1 tt s2 i E Hne) as Eo.
    destruct (lookup_lt_is_Some_2 (s_threads s1) i) as [ti Hti]; [lia|]. rewrite Hti in Eo.
    revert p Ho. apply (idle_thread L2 s2 i ti HA2 Eo). apply (idle_thread L1 s1 i ti HA1 Hti). intros p Ho. apply (Hc i); [lia|done].
Qed.

(** All blocks of a buffer are free in it when no other place has one of them. *)
Lemma home_full L s k : account L s -> m_inited (s_manager s) = true -> k ∈ table -> buffCount k.1 k.2 <> 0 ->
  (forall p x b, x ∈ L p -> s_heap s !! x = Some b -> home b = k -> p = InBuffer k) ->
  exists t l, mb_buff_ (s_manager s) !! k = Some t /\ chain b_next (s_heap s) (free_mb_list_ t) l /\ NoDup l /\
    zlen l = buffCount k.1 k.2 /\ free_mb_count_ t = buffCount k.1 k.2.
Proof.
  intros HA Hi Hk Hc Hp. pose proof HA as [[An Ad] A2 A3 A4 A5 A6 A7 A8 A9].
  destruct (bo_all _ _ _ A4 Hi k Hk Hc) as [t Ht]. destruct (bo_mem _ _ _ A4 k t Ht) as [Hch Hn].
  assert (El : zlen (L (InBuffer k)) = buffCount k.1 k.2).
  { rewrite <-(A9 Hi k Hk). unfold zlen. f_equal. symmetry. apply blocks_at_length; [apply An|]. intros x. unfold homes. split.
    - intros Hx. destruct (each_in _ _ _ _ (bo_blocks _ _ _ A4 k) Hx) as (b & Hb & Hh & _). eexists. by rewrite lookup_fmap, Hb.
    - intros (v & Hv & Hh). rewrite lookup_fmap in Hv. destruct (s_heap s !! x) as [b|] eqn:Hb; [|done]. injection Hv as <-.
      destruct (A2 x) as [p Hx]; [by rewrite Hb|]. by rewrite <-(Hp p x b Hx Hb Hh). }
  exists t, (L (InBuffer k)). split_and!; [done..|]. rewrite Hn, El. unfold u32, wrap. apply Z.mod_small. apply count_fits.
Qed.
(** *** What the classes promise *)

(** C12: In every reachable state each block has one place: free in its own buffer, in the cache of
    one thread, in the list one thread will give back, or with a user. The lists of every place are
    chains of distinct blocks of the right buffer and size, the counters are their lengths, and no
    block was made or lost since [init]. *)
Theorem buffers_accounted s : reachable s -> exists L, account L s.
Proof using All. apply reachable_account. Qed.

(** C25: In a reachable state no operation uses a null or deleted block or an index out of range: a thread
    can take a block of any type and size, give back any block that was given out, whichever thread took
    it, and end; and [init] returns. *)
Theorem buffers_no_fault s i : reachable s -> (i < length (s_threads s))%nat ->
  (forall ty sz, is_Some (at_thread i (alloc_mb ty sz) s)) /\
  (forall p, p ∈ s_held s -> is_Some (at_thread i (free_mb (Some p)) s)) /\
  is_Some (at_thread i thread_clear s) /\
  (forall nb news, fresh news (s_heap s) -> is_Some (manager_init nb news (s_heap s, s_manager s))).
Proof using All.
  intros Hr Hlen. destruct (reachable_account s Hr) as [L HA]. destruct (lookup_lt_is_Some_2 _ _ Hlen) as [t Hi]. split_and!.
  - intros ty sz. destruct (decide (mb_size_to_len_type ty sz = MB_LEN_MAX_VALUE)) as [Em|Em].
    + by rewrite (invalid_size ty sz s i t Hi Em).
    + destruct (alloc_account L s i t ty sz HA Hi Em) as (s1 & L1 & E1 & _). by rewrite E1.
  - intros p Hp. destruct (free_account L s i t p HA Hi Hp) as (s1 & L1 & E1 & _). by rewrite E1.
  - destruct (clear_account L s i t HA Hi) as (s1 & L1 & E1 & _). by rewrite E1.
  - intros nb news Hn. destruct (m_inited (s_manager s)) eqn:Ei.
    + unfold manager_init. cbv [this get mbind M_bind option_bind mret M_ret]. cbn. by rewrite Ei.
    + destruct (ac_boot _ _ HA Ei) as [E0 E1]. rewrite E0, E1 in *. pose proof (manager_init_spec count_fits nb news Hn) as Hw.
      by apply wp_elim in Hw as (r & s1 & o & -> & _).
Qed.

(** C33: [alloc_mb] gives a block nobody has, with room for the size that was asked, not linked to another block
    and with its pointers behind [SVS_Mb_Buffer_Info]; it gives null only for a size or type that
    there is not, or when both the thread and the buffer have no block left. *)
Theorem alloc_exact s i t ty sz : reachable s -> s_threads s !! i = Some t ->
  let k := (ty, mb_size_to_len_type ty sz) in
  exists r s', at_thread i (alloc_mb ty sz) s = Some (r, s') /\ s_held s' = s_held s /\
  match r with
  | Some x => x ∉ s_held s /\ exists b, s_heap s' !! x = Some b /\ idle b /\ b_next b = None /\ b_cont b = None /\
      sz + sizeof_info <= b_size b
  | None => mb_size_to_len_type ty sz = MB_LEN_MAX_VALUE \/
      free_msg_buffer_ t !! k = None /\ forall u, mb_buff_ (s_manager s) !! slot_buffer k = Some u -> free_mb_list_ u = None
  end.
Proof using All.
  intros Hr Hi k. destruct (reachable_account s Hr) as [L HA].
  destruct (decide (mb_size_to_len_type ty sz = MB_LEN_MAX_VALUE)) as [Em|Em].
  { exists None, s. rewrite (invalid_size ty sz s i t Hi Em). split_and!; try done. by left. }
  destruct (alloc_account L s i t ty sz HA Hi Em) as (s' & L' & E & Eh & _ & Hx). cbv zeta in *. fold k in E, Hx.
  eexists _, s'. split; [exact E|]. split; [done|]. destruct (supply _ _ k) as [|x T] eqn:ET; cbn [head].
  - right. unfold supply in ET. pose proof (to_chain _ _ _ _ (ac_threads _ _ HA i t Hi) k) as Hc. cbv beta in Hc.
    destruct (L (InCache i k)); [|done]. split; [exact Hc|]. intros u Hu.
    pose proof (mem_chain _ _ _ (bo_mem _ _ _ (ac_buffers _ _ HA) _ _ Hu)) as Hf. cbv beta in Hf.
    by destruct (L (InBuffer (slot_buffer k))).
  - destruct (Hx x eq_refl) as (Hn & b & Hb & (Hv & Hbn & Hbc) & Hid & Hh). split; [done|]. exists b. split_and!; try done.
    destruct (size_slot ty sz Em) as (_ & _ & _ & Hs & _). fold k in Hs. destruct Hv as (_ & _ & Hz & _). rewrite Hz, Hh. lia.
Qed.

(** A thread keeps fewer than 200 blocks of each type and length for itself, none of another buffer,
    and fewer than 200 blocks to give back, none of them as long as 4K. *)
Theorem cache_bounded s i t : reachable s -> s_threads s !! i = Some t ->
  (forall k, exists l, chain b_cont (s_heap s) (free_msg_buffer_ t !! k) l /\ NoDup l /\ zlen l < SVS_ALLOC_MSG_BUFF_COUNT /\
    each (s_heap s) (fun b => home b = slot_buffer k) l) /\
  exists l, chain b_cont (s_heap s) (used_msg_buffer_ t) l /\ NoDup l /\ used_msg_buffer_count_ t = zlen l /\
    zlen l < SVS_FREE_MSG_BUFF_COUNT /\ each (s_heap s) (fun b => info_length b < MB_LEN_4K_BYTE) l.
Proof using All.
  intros Hr Hi. destruct (reachable_account s Hr) as [L HA]. pose proof (ac_part _ _ HA) as [Hn _].
  destruct (ac_threads _ _ HA i t Hi) as [T1 T2 T3 T4 T5 T6 T7 T8]. split.
  - intros k. exists (L (InCache i k)). split_and!; [apply T1|apply Hn|apply T3|]. eapply each_mono; [|apply T2]. by intros b (? & _).
  - exists (L (InUsed i)). split_and!; try done. eapply each_mono; [|apply T6]. by intros b (_ & _ & ?).
Qed.

(** C26: No block is lost: when every block was given back by its users and every thread ended, each buffer
    has in its list all the blocks [init] gave it, and its counter says so. *)
Theorem all_returned s : reachable s -> m_inited (s_manager s) = true -> s_held s = [] ->
  exists s', exit_all (length (s_threads s)) s = Some s' /\ forall k, k ∈ table -> buffCount k.1 k.2 <> 0 ->
    exists t l, mb_buff_ (s_manager s') !! k = Some t /\ chain b_next (s_heap s') (free_mb_list_ t) l /\ NoDup l /\
      zlen l = buffCount k.1 k.2 /\ free_mb_count_ t = buffCount k.1 k.2.
Proof using All.
  intros Hr Hi Hh. destruct (reachable_account s Hr) as [L HA].
  destruct (exit_all_spec L s _ HA (le_n _)) as (s' & L' & E & HA' & Eh & El & Em & Hc). exists s'. split; [done|]. intros k Hk Hn.
  apply (home_full L' s' k HA'); [congruence|done|done|]. intros p x b Hx Hb Hhome.
  assert (Hown : forall i, owner p <> Some i).
  { intros i Ho. destruct (decide (i < length (s_threads s))%nat) as [Hlt|Hge].
    - by rewrite (Hc i p Hlt Ho), elem_of_nil in Hx.
    - rewrite (ac_nothread _ _ HA' i p), elem_of_nil in Hx; [done| |done]. apply lookup_ge_None_2. lia. }
  destruct p as [k'|i k'|i|]; [|by destruct (Hown i)..|].
  - destruct (each_in _ _ _ _ (bo_blocks _ _ _ (ac_buffers _ _ HA') k') Hx) as (b' & Hb' & Hh' & _). congruence.
  - by rewrite (ac_held _ _ HA'), Eh, Hh, elem_of_nil in Hx.
Qed.

(** Nobody takes a block of a buffer that no size comes from. *)
Lemma unused_full s k : reachable s -> m_inited (s_manager s) = true -> k ∈ table -> buffCount k.1 k.2 <> 0 ->
  (forall k', slot_buffer k' <> k) ->
  exists t l, mb_buff_ (s_manager s) !! k = Some t /\ chain b_next (s_heap s) (free_mb_list_ t) l /\ NoDup l /\
    zlen l = buffCount k.1 k.2 /\ free_mb_count_ t = buffCount k.1 k.2.
Proof.
  intros Hr Hi Hk Hn Hs. destruct (reachable_account s Hr) as [L HA]. apply (home_full L s k HA Hi Hk Hn). intros p x b Hx Hb Hh.
  assert (Hv : forall Q : block -> Prop, each (s_heap s) Q (L p) -> Q b).
  { intros Q HQ. destruct (each_in _ _ _ _ HQ Hx) as (b' & Hb' & Hq). by rewrite Hb in Hb'; injection Hb' as <-. }
  assert (Hnv : ~ valid b) by (intros (_ & _ & _ & k' & Hk'); apply (Hs k'); congruence).
  destruct p as [k'|i k'|i|].
  - destruct (Hv _ (bo_blocks _ _ _ (ac_buffers _ _ HA) k')) as [Hh' _]. congruence.
  - destruct (s_threads s !! i) as [t|] eqn:Hi'; [|by rewrite (ac_nothread _ _ HA i _ Hi'), elem_of_nil in Hx by done].
    by destruct (Hv _ (to_cached _ _ _ _ (ac_threads _ _ HA i t Hi') k')) as (_ & ? & _).
  - destruct (s_threads s !! i) as [t|] eqn:Hi'; [|by rewrite (ac_nothread _ _ HA i _ Hi'), elem_of_nil in Hx by done].
    by destruct (Hv _ (to_given _ _ _ _ (ac_threads _ _ HA i t Hi'))) as (? & _).
  - by destruct (Hv _ (ac_lent _ _ HA)) as (? & _).
Qed.
End System.

(** ** The two servers *)

Definition counts_fit (t : list (list Z)) : bool := forallb (forallb (fun n => (0 <=? n) && (n <? 2 ^ 32))) t.

Lemma row_fits t i j : counts_fit t = true -> 0 <= row i j t < 2 ^ 32.
Proof.
  unfold counts_fit, row. rewrite forallb_forall. intros Ht.
  destruct (nth_in_or_default (Z.to_nat i) t []) as [Hi|Hi]; [|rewrite Hi; destruct (Z.to_nat j); cbn; lia].
  specialize (Ht _ Hi). rewrite forallb_forall in Ht.
  destruct (nth_in_or_default (Z.to_nat j) (nth (Z.to_nat i) t []) 0) as [Hj|Hj]; [|rewrite Hj; lia].
  specialize (Ht _ Hj). lia.
Qed.

(** The buffers some size comes from. *)
Definition record_sources : list (Z * Z) :=
  [(0, 0); (1, 0); (1, 1); (1, 2); (1, 4); (2, 0); (2, 3); (3, 0); (3, 1); (3, 2); (3, 4); (4, 0)].
Definition signal_sources : list (Z * Z) := [(0, 0); (0, 1); (0, 2); (0, 4)].

(** The blocks that are counted under 4K of the type [ty] come from the buffer of 64K. *)
Definition source_of (ty : Z) (k : Z * Z) : Z * Z :=
  if decide (k = (ty, MB_LEN_4K_BYTE)) then (ty, MB_LEN_64K_BYTE) else k.

Definition sourced (counts : list (list Z)) (l : list (Z * Z)) : bool :=
  counts_fit counts && forallb (fun k => negb (row k.1 k.2 counts =? 0)) l.

Lemma sourced_in counts l k : sourced counts l = true -> k ∈ l -> row k.1 k.2 counts <> 0.
Proof.
  unfold sourced. rewrite andb_true_iff, forallb_forall. intros [_ Hl] Hk. apply list_elem_of_In in Hk. specialize (Hl k Hk). lia.
Qed.

(** [size_cases]: the comparisons of a size with the lengths, one by one. *)
Ltac size_cases :=
  repeat match goal with |- context [if ?a <=? ?b then _ else _] => destruct (Z.leb_spec a b) end.

Definition serves (T : BufferTypes) (ty : Z) (sources : list (Z * Z)) (tyn sz : Z) : Prop :=
  @mb_size_to_len_type T tyn sz <> MB_LEN_MAX_VALUE ->
  let k := source_of ty (tyn, @mb_size_to_len_type T tyn sz) in
  (tyn, @mb_size_to_len_type T tyn sz) ∈ @table T /\ @get_mb_buffer T tyn sz = Some k /\ k ∈ @table T /\ sz <= buffSize k.2 /\ k ∈ sources.

(** [serve]: a case of a type and length. *)
Ltac serve :=
  change SVS_128_BYTE with 128; change SVS_256_BYTE with 256; change SVS_1K_BYTE with 1024; change SVS_4K_BYTE with 4096;
  change SVS_64K_BYTE with 65536; size_cases; try lia; try done; intros _; cbv zeta;
  (split_and!; [apply (bool_decide_unpack _); vm_compute; exact I|done|apply (bool_decide_unpack _); vm_compute; exact I
    |vm_compute buffSize; lia|apply (bool_decide_unpack _); vm_compute; exact I]).

Lemma record_serves counts ty sz : serves (record_types_of counts) MB_TYPE_NORMAL_EVENT record_sources ty sz.
Proof.
  unfold serves. cbn [record_types_of mb_size_to_len_type get_mb_buffer]. unfold record_size_to_len, record_get_mb_buffer.
  repeat match goal with |- context [if ?a =? ?b then _ else _] => destruct (Z.eqb_spec a b) as [->|] end; [..|done].
  all: unfold size_to_len_normal, get_mb_buffer_normal_event, get_mb_buffer_call_back, get_mb_buffer_send_msg; serve.
Qed.

Lemma signal_serves ty sz : serves signal_types 0 signal_sources ty sz.
Proof.
  unfold serves. cbn [signal_types mb_size_to_len_type get_mb_buffer]. unfold signal_size_to_len, signal_get_mb_buffer.
  destruct (Z.eqb_spec ty 0) as [->|]; [|done]. unfold size_to_len_normal, get_mb_buffer_normal_event; serve.
Qed.

Definition record_laws (counts : list (list Z)) (Hc : sourced counts record_sources = true) : @BufferTypesLaws (record_types_of counts).
Proof.
  refine (@Build_BufferTypesLaws (record_types_of counts) (source_of MB_TYPE_NORMAL_EVENT) _ _).
  - intros ty sz Hl. destruct (record_serves counts ty sz Hl) as (? & ? & ? & ? & Hin). split_and!; try done. by apply (sourced_in _ _ _ Hc).
  - intros i j. apply row_fits. unfold sourced in Hc. by apply andb_true_iff in Hc as [? _].
Defined.

#[export] Instance record_types_laws : @BufferTypesLaws record_types := record_laws record_buff_count eq_refl.

#[export] Instance signal_types_laws : @BufferTypesLaws signal_types.
Proof.
  refine (@Build_BufferTypesLaws signal_types (source_of 0) _ _).
  - intros ty sz Hl. destruct (signal_serves ty sz Hl) as (? & ? & ? & ? & Hin). split_and!; try done.
    by apply (sourced_in signal_buff_count signal_sources _ eq_refl).
  - intros i j. by apply (row_fits signal_buff_count).
Defined.

(** No size of a normal event comes from the buffer of 4K. *)
Lemma source_not_4k ty k : source_of ty k <> (ty, MB_LEN_4K_BYTE).
Proof. unfold source_of. destruct (decide _) as [_|Hk]; [done|exact Hk]. Qed.

(** C36: The blocks of 4K of the normal events are never used: in every reachable state after [init] they
    are all free, although sizes from 1K to 4K are counted and cached under their length. *)
Theorem normal_4k_unused counts s : sourced counts record_sources = true -> @reachable (record_types_of counts) s ->
  m_inited (s_manager s) = true -> row 1 3 counts <> 0 ->
  exists t l, mb_buff_ (s_manager s) !! (MB_TYPE_NORMAL_EVENT, MB_LEN_4K_BYTE) = Some t /\
    chain b_next (s_heap s) (free_mb_list_ t) l /\ NoDup l /\ zlen l = row 1 3 counts /\ free_mb_count_ t = row 1 3 counts.
Proof.
  intros Hc Hr Hi Hn. pose (record_laws counts Hc) as laws.
  apply (@unused_full (record_types_of counts) laws s (MB_TYPE_NORMAL_EVENT, MB_LEN_4K_BYTE) Hr Hi); [|exact Hn|intros k'; apply source_not_4k].
  apply (bool_decide_unpack _). vm_compute. exact I.
Qed.

(** *** A run with few blocks *)

Definition few : list (list Z) := [[1; 0; 0; 0; 0]; [2; 1; 1; 3; 2]; [1; 0; 0; 1; 0]; [1; 1; 1; 0; 1]; [1; 0; 0; 0; 0]].
#[local] Instance few_types : BufferTypes := record_types_of few.
#[local] Instance few_laws : BufferTypesLaws := record_laws few eq_refl.

Definition some_news : list (option Z) := Some <$> seqZ 1 17.
Definition started : system :=
  match manager_init (fun _ _ => true) some_news (∅, CSVS_Mb_Buffer_Manager_new) with
  | Some (_, (h, g), _) => {| s_heap := h; s_manager := g; s_threads := []; s_held := [] |}
  | None => system_new
  end.
Definition with_thread : system :=
  {| s_heap := s_heap started; s_manager := s_manager started; s_threads := [CSVS_Thread_Msg_Buffer_Manager_new]; s_held := [] |}.
Definition after_alloc : system :=
  match at_thread 0 (alloc_mb MB_TYPE_NORMAL_EVENT 2000) with_thread with
  | Some (r, s) => set_held (option_list r ++ s_held s) s
  | None => system_new
  end.
Definition after_free : system :=
  match at_thread 0 (free_mb (head (s_held after_alloc))) after_alloc with
  | Some (_, s) => set_held [] s
  | None => system_new
  end.

Lemma started_reachable : reachable started.
Proof.
  apply rtc_once. eapply (step_init (fun _ _ => true) some_news system_new 0 (s_heap started) (s_manager started) []).
  - split; [apply (bool_decide_unpack _); vm_compute; exact I|intros x _; apply lookup_empty].
  - vm_compute. reflexivity.
Qed.
Lemma with_thread_reachable : reachable with_thread.
Proof.
  eapply rtc_r; [apply started_reachable|]. replace with_thread with {| s_heap := s_heap started; s_manager := s_manager started;
    s_threads := s_threads started ++ [CSVS_Thread_Msg_Buffer_Manager_new]; s_held := s_held started |} by (vm_compute; reflexivity).
  apply step_thread.
Qed.
Lemma after_alloc_reachable : reachable after_alloc.
Proof.
  eapply rtc_r; [apply with_thread_reachable|]. unfold after_alloc.
  destruct (at_thread 0 (alloc_mb MB_TYPE_NORMAL_EVENT 2000) with_thread) as [[r s]|] eqn:E; [by eapply step_alloc|].
  exfalso. vm_compute in E. discriminate.
Qed.
Lemma after_free_reachable : reachable after_free.
Proof.
  eapply rtc_r; [apply after_alloc_reachable|]. unfold after_free.
  assert (Eh : s_held after_alloc = [10]) by (vm_compute; reflexivity). rewrite Eh. cbn [head].
  destruct (at_thread 0 (free_mb (Some 10)) after_alloc) as [[u s]|] eqn:E; [|exfalso; vm_compute in E; discriminate].
  destruct u. assert (Es : s_held s = [10]).
  { rewrite <-Eh. unfold at_thread in E. cbv [mbind option_bind] in E. destruct (s_threads after_alloc !! 0%nat); [|done].
    destruct (free_mb _ _) as [[[? [? [? ?]]] ?]|]; [|done]. by injection E as _ <-. }
  assert (Hs : step after_alloc (set_held (filter (fun q => q <> 10) (s_held s)) s)).
  { apply (step_free 0%nat); [rewrite Eh; by apply list_elem_of_singleton|exact E]. }
  rewrite Es in Hs. exact Hs.
Qed.

(** The block of 2000 bytes is counted under 4K when it is taken, and under 64K when it is given back: what
    the thread says it has of both is wrong. *)
Example size_2000_drifts :
  (alloced_msg_buffer_count (MB_TYPE_NORMAL_EVENT, MB_LEN_4K_BYTE) <$> s_threads after_alloc) = [1] /\
  (alloced_msg_buffer_count (MB_TYPE_NORMAL_EVENT, MB_LEN_4K_BYTE) <$> s_threads after_free) = [1] /\
  (alloced_msg_buffer_count (MB_TYPE_NORMAL_EVENT, MB_LEN_64K_BYTE) <$> s_threads after_free) = [-1].
Proof. split_and!; vm_compute; reflexivity. Qed.

Lemma buffers_accounted_witness : exists L, account L after_alloc.
Proof. apply (buffers_accounted after_alloc). exact after_alloc_reachable. Defined.

Lemma buffers_no_fault_witness : is_Some (at_thread 0 (free_mb (Some 10)) after_alloc).
Proof.
  destruct (buffers_no_fault after_alloc 0 after_alloc_reachable) as (_ & Hf & _); [vm_compute; lia|].
  apply Hf. apply (bool_decide_unpack _). vm_compute. exact I.
Defined.

Lemma alloc_exact_witness : exists r s', at_thread 0 (alloc_mb MB_TYPE_NORMAL_EVENT 2000) with_thread = Some (r, s') /\
  match r with Some x => x ∉ s_held with_thread | None => True end.
Proof.
  destruct (alloc_exact with_thread 0 CSVS_Thread_Msg_Buffer_Manager_new MB_TYPE_NORMAL_EVENT 2000 with_thread_reachable)
    as (r & s' & E & _ & Hx); [reflexivity|]. exists r, s'. split; [exact E|]. destruct r; [by destruct Hx|exact I].
Defined.

Lemma cache_bounded_witness : exists t (l : list Z), s_threads after_free !! 0%nat = Some t /\
  used_msg_buffer_count_ t = zlen l /\ zlen l < SVS_FREE_MSG_BUFF_COUNT.
Proof.
  destruct (s_threads after_free !! 0%nat) as [t|] eqn:Ht; [|vm_compute in Ht; discriminate].
  destruct (cache_bounded after_free 0 t after_free_reachable Ht) as [_ (l & _ & _ & Hc & Hl & _)].
  exists t, l. split; [reflexivity|]. split; [exact Hc|exact Hl].
Defined.

Lemma all_returned_witness : exists s', exit_all 1 after_free = Some s' /\
  exists t, mb_buff_ (s_manager s') !! (MB_TYPE_NORMAL_EVENT, MB_LEN_64K_BYTE) = Some t /\ free_mb_count_ t = 2.
Proof.
  destruct (all_returned after_free after_free_reachable) as (s' & E & Hs); [vm_compute; reflexivity..|]. exists s'. split; [exact E|].
  destruct (Hs (MB_TYPE_NORMAL_EVENT, MB_LEN_64K_BYTE)) as (t & l & Ht & _ & _ & _ & Hc).
  - apply (bool_decide_unpack _). vm_compute. exact I.
  - vm_compute. discriminate.
  - exists t. split; [exact Ht|]. rewrite Hc. vm_compute. reflexivity.
Defined.

Lemma normal_4k_unused_witness : exists t,
  mb_buff_ (s_manager after_alloc) !! (MB_TYPE_NORMAL_EVENT, MB_LEN_4K_BYTE) = Some t /\ free_mb_count_ t = 3.
Proof.
  destruct (normal_4k_unused few after_alloc eq_refl after_alloc_reachable) as (t & l & Ht & _ & _ & _ & Hc);
    [vm_compute; reflexivity|vm_compute; discriminate|]. exists t. split; [exact Ht|]. rewrite Hc. vm_compute. reflexivity.
Defined.
